(* ===== verification/_CoqProject ===== *)
-Q . S2P
Prelude.v
RdmaQueue.v
Packets.v
FlowState.v
TcpCommon.v
Util.v
Timeout.v
Qman.v
FastCtx.v
FastFlows.v
FlowRx.v
FlowTx.v
Wire.v
FastEmu.v
FastLoop.v
Scaling.v
ScalingSpec.v
PacketMem.v
FlowTable.v
SlowState.v
CongCtl.v
CcLoop.v
Cli.v
Config.v
ConfigSpec.v
Arp.v
ArpSpec.v
Routing.v
Ports.v
Listener.v
ConnTable.v
AppMsg.v
TcpWire.v
TcpState.v
TcpSlow.v
AppCtx.v
AppReg.v
AppRegSpec.v
RdmaMsg.v
RdmaMsgSpec.v
RdmaNic.v
TcpInv.v
Handshake.v
LibTas.v
RdmaApp.v
RdmaSetup.v
HostRelay.v
RelaySpec.v
LibPoll.v
LibSpec.v
LibPollSpec.v
LibWait.v
LibData.v
SockState.v
SockReady.v
SockCtx.v
SockCtl.v
SockOpen.v
SockPoll.v
SockXfer.v
SockSelect.v
SockReadySpec.v
SockEpollInv.v
SockScan.v
SockInv.v
SockEpollCalls.v
SockCalls.v
SockRecv.v
SockSend.v
SockErr.v
SockWait.v
SockPollSpec.v
SockInterp.v
