(* ===== verification/Prelude.v ===== *)
(** * TAS on a SmartNIC: a verification library

    ** The program

    TAS moves TCP processing out of the applications into a service; in this
    repository the service runs on a SmartNIC (tas_nic/) and applications on the
    host reach it through queues that are written with RDMA. On the NIC the fast
    path (tas_nic/fast/) processes packets of established connections on several
    cores; the slow path (tas_nic/slow/) sets connections up, controls their rates
    and answers applications. They meet in shared memory
    (include/tas_memif.h): the flow states, a hash table from packet addresses to
    flow states, the kernel queues of every core and the queues of every
    application context. Applications use the library lib/tas/.

    A packet is received ([poll_rx]), its flow is looked up
    ([fast_flows_packet_fss]), and either the fast path processes it
    ([fast_flows_packet]: acknowledgement, payload, reassembly) or it goes to the
    slow path through the kernel queue ([fast_kernel_packet], [nicif_poll]). The
    application is told of the bytes through its context queue
    ([arx_cache_flush]), polls it ([fastpath_poll_vec]), and tells in turn what it
    read and wrote ([conns_bump], [fast_appctx_poll_fetch], [fast_flows_bump]). What
    is to be sent is scheduled by the queue manager ([qman_set], [qman_poll]), which
    lets a flow send one segment at a time ([fast_flows_qman]).

    To open a connection the application sends a request ([flextcp_connection_open])
    that the slow path takes ([appif_ctx_poll], [tcp_open]); it resolves the peer
    ([routing_resolve], [arp_request]), exchanges the packets of the handshake
    ([tcp_packet], [tcp_poll], [tcp_timeout]), registers the flow with the fast path
    ([nicif_connection_add]) and answers ([appif_conn_opened]); the library turns the
    answer into an event ([kernel_poll]). Servers listen and accept in the same way
    ([tcp_listen], [listener_packet], [tcp_accept]). Once a connection is open its
    rate is controlled ([cc_poll]).

    The socket library (lib/sockets/) gives applications the calls of POSIX on top:
    descriptors refer to sockets and epolls ([flextcp_fd_slookup]), calls poll the
    context and the events change the sockets ([flextcp_sockctx_poll],
    [handle_event]), a socket that becomes readable or writable goes to the active
    list of its epolls ([flextcp_epoll_set]), and [tas_epoll_wait] reports from
    there.

    ** The files

    Foundations:
    - Prelude: machine integers, the outcome of an operation that may fail, record
      update, memory as a list of bytes, rings of bytes.
    - RdmaQueue: include/rdma_queue.h and lib/utils/rdma_queue.c. The queue of
      bytes all parts exchange data with, its abstract FIFO and the refinement.
      [RdmaLink] is the interface of the RDMA verbs.
    - Packets: header fields and option walking of include/packet_defs.h and
      tas_nic/fast/tcp_common.h; FlowState: flow states and the entries of the
      context queues (include/tas_memif.h); Wire: the same as bytes, with the
      bounded copies of tas_nic/fast/dma.h; AppMsg: the messages between
      applications and the slow path (include/kernel_appif.h).
    - Util: lib/utils/rng.c, include/utils_circ.h, include/utils_nbqueue.h;
      Timeout: lib/utils/timeout.c.

    Fast path:
    - TcpCommon: tas_nic/fast/tcp_common.h, windows, trimming, options.
    - Qman: tas_nic/fast/qman.c, the queue manager.
    - FastCtx: what a core of the fast path keeps (tas_nic/include/fastpath.h,
      tas_nic/fast/fastemu.h); [Checksums] is the interface of DPDK's checksums.
    - FastFlows: all of tas_nic/fast/fast_flows.c. Its theorems are in FlowRx
      (reception) and FlowTx (transmission, acknowledgements, look-up).
    - FastEmu: tas_nic/fast/fastemu.c, fast_kernel.c, fast_appctx.c,
      tas_nic/blocking.c, one iteration of the loop of a core; [Mempool] is the
      interface of DPDK's packet pool. Its theorems are in FastLoop.
    - Scaling: the NIC's redirection table when the number of cores changes
      (tas_nic/fast/network.c; [RetaDev] is the interface of the device) and the load
      monitor (tas_nic/tas_nic.c). Theorems: ScalingSpec.

    Slow path:
    - PacketMem: tas_nic/slow/packetmem.c (and its copy in tas_host/).
    - FlowTable: tas_nic/slow/nicif.c, the slow path's side of the shared memory.
    - SlowState: connections, listeners and statistics (slow/internal.h); CongCtl:
      the algorithms of slow/cc.c, CcLoop: its list of connections and its polling.
    - Arp: slow/arp.c, with its theorems in ArpSpec; Routing: slow/routing.c.
    - TCP (slow/tcp.c): Ports, Listener (the backlog), ConnTable (the hash table),
      TcpWire (control packets and options), TcpState (what the parts share:
      [PacketTx], [FlowIf] and [AppQueues] are the interfaces to packets, flows and
      applications), TcpSlow (every handler). TcpInv has the invariant of the state
      machine, Handshake the exchange between two hosts.
    - AppCtx: the requests of the applications (slow/appif_ctx.c). AppReg: their
      registration (slow/appif.c), two threads that take turns; [SlowApps] is the
      interface to the rest of the slow path. Theorems: AppRegSpec.
    - Cli: include/cli.h, lib/utils/utils.c and what they use of the C library
      (numbers, addresses, the options of a command line). Config: tas_nic/config.c and
      tas_host/config.c (Module Host). Theorems: ConfigSpec.

    RDMA connections and registration from a remote application:
    - RdmaMsg: the messages, connections, completions and handlers (include/rdma.h,
      lib/utils/rdma.c, lib/host_nic/); [Handlers] is the interface to the handlers of
      a process. Theorems: RdmaMsgSpec.
    - RdmaNic: the NIC's handlers (tas_nic/slow/rdmaif.c); RdmaApp: the application's
      (lib/tas/rdmaif.c) and how it gets descriptors and contexts (lib/tas/kernel.c).
      RdmaSetup: what both have after a registration; [RemoteMemory] states what a
      write of the verbs does to the other side's memory.
    - HostRelay: the host process (tas_host/nicif.c, tas_host.c). RelaySpec: the
      descriptors of an application, wake-ups, and what becomes of relayed ones.

    Application library:
    - LibTas: lib/tas/conn.c; LibPoll: lib/tas/init.c. Theorems: LibSpec (the list of
      connections with news and what the fast path is told), LibPollSpec (events),
      LibWait (sleeping), LibData (sending, requests).

    Socket library:
    - SockState: lib/sockets/internal.h and the descriptors of manage_fd.c; SockReady:
      the lists of epolls and sockets (epoll.c); SockCtx: the events of the context
      (context.c); SockCtl and SockOpen: the calls of control.c and the duplicates of
      manage_fd.c; SockPoll: the calls on epolls (epoll.c); SockXfer: transfer.c;
      SockSelect: poll.c; SockInterp: interpose.c, with its theorem.
    - Invariants: SockReadySpec (the operations on lists, each as a change of the
      lists it stands for), SockEpollInv (the lists of all epolls and sockets, and
      readiness), SockScan (the loop of [ep_poll_tas]), SockInv (descriptors,
      reference counts, locks, through every event and call), SockEpollCalls,
      SockCalls (every call as a step, reachable states).
    - Data, events and errors: SockRecv, SockSend, SockWait, SockPollSpec (poll and
      select), SockErr.

    Definitions have the names of the functions they translate. A loop or a block
    of a long function has a definition of its own, named after what it does, so
    that a C function is composed of them in its order.

    ** How the code is represented

    Integers are [Z]; an operation that can leave the width of its C type is
    wrapped by [u8], [u16], [u32], [u64], [i32] or [i64]. A failing operation stops
    with a reason ([outcome]): a failed assertion, a call of abort, an access out
    of bounds, a division by zero, a conversion that C leaves undefined, or fuel that
    ran out. State is passed explicitly. Structs that are linked by pointers are in a map from addresses
    ([gmap Z]), with [None] or 0 for NULL; a free address is an argument where the
    code calls malloc. Multi-byte packet fields are in host order; Wire, AppMsg and
    TcpWire say how they are laid out. Operations of libibverbs and DPDK are
    parameters: classes with the laws the code relies on, or arguments for what
    they return ([world] is what one iteration of the loop meets); the clock is an
    argument. Debug output, tracing and statistics are left out. A spin lock that
    is already taken stops the operation: threads are modelled one at a time.

    ** What the theorems show

    Reception puts the bytes of the sender's stream in the receive queue, in order
    and without a gap, for every order of the segments but in one configuration of
    the window (FlowRx). Transmission sends well-formed segments with the next
    sequence number, of the next bytes while there are enough, and an
    acknowledgement frees the acknowledged bytes (FlowTx). The RDMA queue refines
    a bounded FIFO up to an enqueue that crosses its end (RdmaQueue). The queue
    manager keeps its two lists consistent and serves every queue in its turn
    (Qman). An iteration of the loop of a core conserves the
    packet buffers, and notifications reach their contexts (FastLoop). A flow the
    slow path registers is found by the fast path, both computing the same hash,
    and flow ids and packet memory are handed out once (FlowTable, PacketMem).
    Parsing inverts encoding for options, packets and queue entries (TcpCommon,
    Wire, AppMsg, TcpWire).

    Timers fire once, in order (Timeout). The integer arithmetic of congestion
    control equals the reference, and polling attends to every connection (CongCtl,
    CcLoop). The ARP cache refines a table with waiting requests, and two hosts
    resolve each other (ArpSpec; whatever the transmitter, an operation fails only
    where that fails); next hops are those of the routes (Routing). A
    connection is where its status says through every sequence of packets, timeouts
    and requests, and each of these changes one status at most, along an edge of its
    own (TcpInv); ports, the backlog and the hash table meet their specifications
    (Ports, Listener, ConnTable); a handshake leaves both hosts with flows that
    agree (Handshake).

    However the two threads interleave, the contexts of applications have doorbells of
    their own and are polled only once the fast path knows them (AppRegSpec). Parsing
    a command line inverts writing one, and on any command line the configuration stays
    within its types (ConfigSpec). The NIC, the fast path and the table agree on the
    core of every flow group through every sequence of scalings, and the load monitor
    stays within the cores there are (ScalingSpec).

    Over an RDMA connection messages arrive once and in order (RdmaMsgSpec). A remote
    application and the NIC, which allocate their queues apart, end up with the same
    queues, each with a writing and a reading end that name each other (RdmaSetup). An
    application gets the descriptors the service sends, and a wake-up wakes the cores
    whose bits are set (RelaySpec).

    In the library, what an application writes is what the NIC is told of and can
    read, and the list of connections with news is well formed after any calls
    (LibData, LibSpec); requests are read by the slow path or refused (LibData);
    polling ends, fits and reports the bytes in order (LibPollSpec); an application
    sleeps only after a quiet period (LibWait).

    In the socket library, in every state that calls can reach, descriptors refer to
    live objects, reference counts are right, locks are free and every ready socket
    is on the active list of each epoll that waits for it, unless an epoll has been
    duplicated, which leaves it locked (SockCalls). Bytes that are announced
    are read in order into one buffer or a vector (SockRecv), bytes that are written
    are appended to the stream (SockSend), waiting reports the ready sockets in turn
    (SockWait), poll and select answer with the events of sockets and of other
    descriptors together (SockPollSpec), calls on a socket that is not connected are
    refused without effect (SockErr), and the functions of the C library are
    replaced for sockets and, with two exceptions, only for them (SockInterp).

    A last group are theorems about inputs on which the code does not do what it
    means to: each gives the condition and what happens. Where one of them limits
    a correctness theorem, that theorem splits into cases and says what happens in
    each ([packet_data_delivers], [rq_run_refines], [reachable_inv], [slookup_total],
    [write_appends], [requests_reach_slow_path], [registration_safe],
    [messages_delivered], [backlog_refines], [dctcp_win_update_correct],
    [fast_flows_qman_sends], [interposed_dispatch], [config_parse_settings]) or has
    the condition as a hypothesis that its comment names ([scaling_consistent],
    [nicif_connection_add_lookup]). They are on the
    wrap of an RDMA queue and on its reservation and flush (RdmaQueue), on receive
    trimming and option parsing (TcpCommon), on long out-of-order intervals
    (FlowRx), on retransmission, future acknowledgements and large flow ids (FlowTx), on two
    notifications of one context (FastLoop), on the order of the free list
    (PacketMem), on moved table entries, reused flow ids and the end of the
    kernel queues (FlowTable), on loops of routes (Routing), the first port (Ports),
    IP lengths in the backlog (Listener), repeated SYN packets (Handshake),
    on closing the only connection with news (LibSpec), updates before the
    application has read and messages without room (LibPollSpec), on space that
    is granted and then refused or granted twice (LibData), on announced bytes that
    are read twice (SockRecv), and on closing after a write, closed listeners,
    duplicated epolls, negative descriptors and the count of an epoll's sockets
    (SockErr), on errors that poll hides and negative sizes of select
    (SockPollSpec), on options that set another field and values that are cut off
    (ConfigSpec), on requests that arrive in parts, small requests, late answers and
    doorbells and ids that run out (AppRegSpec), on too many cores and large
    tables (ScalingSpec), on freed connections, negative types and refused posts
    (RdmaMsgSpec), and on relayed kicks, a bit beyond the last core, events that are
    handled twice and second contexts (RelaySpec).

    ** Loops and fuel

    Loops over lists and arrays are structural or have the array's bound as a
    count. The others have fuel: the lists of the queue manager, of the packet
    memory, of timers, of ARP requests, of hash chains and of pending connections as
    many steps as they have nodes (at most the size of the map they are in), which
    the theorems show to be enough; the scans of the flow table the number of slots
    they may pass ([flow_slot_alloc_ok]); the kernel queue's loop the bytes of the
    queue ([kernel_fuel_enough]), and so the polling of the queues from the cores
    ([fastpath_poll_vec_spec]); the search for a port all 65536 of them
    ([port_alloc_correct]); next hops one more step than there are routes
    ([next_hops_terminates]); option parsing the bytes of the header, more than
    which only the loop that does not end takes
    ([walk_options_zero_length_diverges]). The lists of sockets and epolls have as
    many steps as there are entries ([epoll_set_ok], [epoll_sockclose_ok],
    [epoll_destroy_ok]). A call that waits takes one of the rounds of what happens
    outside ([ss_rounds]) for each poll, and is still waiting when they end.

    ** What is not modelled

    Start-up, shared memory and DPDK set-up (main in tas_nic/tas_nic.c, shm.c, the ports
    and queues of fast/network.c, [nicif_init], [adminq_init]), the main loop of
    the slow path (slow/kernel.c), the mapping of shared memory (lib/tas/connect.c),
    the creation of RDMA devices, listeners and epolls ([rdma_server_init],
    [rdma_init], [nicif_init] of tas_host/), tracing, KNI and the tools: they are
    calls to the system and to libraries. Blocking of a core in epoll ([dataplane_block]); only the decision
    to block is here. Interleavings of several cores on one flow.

    Of the socket library: the look-up of the functions of the C library (libc.c and
    the end of interpose.c) and the creation of a thread's context. Its calls are
    those of one thread with one context; the union of connection and listener in a socket is modelled as two
    fields, as the code uses each only under its type. *)
From stdpp Require Export base numbers list gmap.
From Stdlib Require Export ZArith Lia.

#[global] Open Scope Z_scope.

(** ** Machine integers

    A C integer of width [w] is a [Z]; every operation that can leave the range
    wraps explicitly with one of the following. *)
Definition u8 (x : Z) : Z := x mod 256.
Definition u16 (x : Z) : Z := x mod 65536.
Definition u32 (x : Z) : Z := x mod 4294967296.
Definition u64 (x : Z) : Z := x mod 18446744073709551616.
Definition i32 (x : Z) : Z :=
  let y := u32 x in if y <? 2147483648 then y else y - 4294967296.
Definition i64 (x : Z) : Z :=
  let y := u64 x in if y <? 9223372036854775808 then y else y - 18446744073709551616.

Definition UINT16_MAX : Z := 65535.
Definition UINT32_MAX : Z := 4294967295.
Definition INT32_MAX : Z := 2147483647.
Definition INT16_MAX : Z := 32767.

(** C truth values: [!= 0]. *)
Definition c_true (x : Z) : bool := negb (x =? 0).
Definition c_bool (b : bool) : Z := if b then 1 else 0.

(** [MIN] and [MAX] of include/utils.h. *)
Definition MIN (a b : Z) : Z := if b <? a then b else a.
Definition MAX (a b : Z) : Z := if b >? a then b else a.

Lemma u16_small x : 0 <= x < 65536 -> u16 x = x.
Proof. apply Z.mod_small. Qed.
Lemma u32_small x : 0 <= x < 4294967296 -> u32 x = x.
Proof. apply Z.mod_small. Qed.
Lemma u64_small x : 0 <= x < 18446744073709551616 -> u64 x = x.
Proof. apply Z.mod_small. Qed.
Lemma u8_range x : 0 <= u8 x < 256.
Proof. apply Z.mod_pos_bound; lia. Qed.
Lemma u16_range x : 0 <= u16 x < 65536.
Proof. apply Z.mod_pos_bound; lia. Qed.
Lemma u32_range x : 0 <= u32 x < 4294967296.
Proof. apply Z.mod_pos_bound; lia. Qed.
Lemma u64_range x : 0 <= u64 x < 18446744073709551616.
Proof. apply Z.mod_pos_bound; lia. Qed.
Lemma i32_small x : -2147483648 <= x < 2147483648 -> i32 x = x.
Proof.
  intros H. unfold i32, u32. destruct (decide (0 <= x)).
  - rewrite Z.mod_small by lia. case (Z.ltb_spec x 2147483648); lia.
  - assert (x mod 4294967296 = x + 4294967296) as ->
      by (Z.div_mod_to_equations; lia).
    case (Z.ltb_spec (x + 4294967296) 2147483648); lia.
Qed.
Lemma i64_small x :
  -9223372036854775808 <= x < 9223372036854775808 -> i64 x = x.
Proof.
  intros H. unfold i64, u64. destruct (decide (0 <= x)).
  - rewrite Z.mod_small by lia. case (Z.ltb_spec x 9223372036854775808); lia.
  - assert (x mod 18446744073709551616 = x + 18446744073709551616) as ->
      by (Z.div_mod_to_equations; lia).
    case (Z.ltb_spec (x + 18446744073709551616) 9223372036854775808); lia.
Qed.

Create Rewrite HintDb words.
#[export] Hint Rewrite u16_small u32_small u64_small i32_small i64_small
  using lia : words.

(** Turn boolean comparisons in the context or the goal into propositions and
    split the [if]s they guard. *)
Ltac no_if t :=
  lazymatch t with context [if _ then _ else _] => fail | _ => idtac end.

Ltac bsplit :=
  repeat (match goal with
  | |- context [Z.gtb ?a ?b] => rewrite (Z.gtb_ltb a b)
  | |- context [Z.geb ?a ?b] => rewrite (Z.geb_leb a b)
  | |- context [Z.ltb ?a ?b] => no_if a; no_if b; destruct (Z.ltb_spec a b)
  | |- context [Z.leb ?a ?b] => no_if a; no_if b; destruct (Z.leb_spec a b)
  | |- context [Z.eqb ?a ?b] => no_if a; no_if b; destruct (Z.eqb_spec a b)
  end; cbn [negb andb orb] in *; cbv iota).

(** The same, dropping each contradictory branch as it appears. *)
Ltac bprune :=
  repeat (match goal with
  | |- context [Z.gtb ?a ?b] => rewrite (Z.gtb_ltb a b)
  | |- context [Z.geb ?a ?b] => rewrite (Z.geb_leb a b)
  | |- context [Z.ltb ?a ?b] => no_if a; no_if b; destruct (Z.ltb_spec a b); try (exfalso; lia)
  | |- context [Z.leb ?a ?b] => no_if a; no_if b; destruct (Z.leb_spec a b); try (exfalso; lia)
  | |- context [Z.eqb ?a ?b] => no_if a; no_if b; destruct (Z.eqb_spec a b); try (exfalso; lia)
  end; cbn [negb andb orb]; cbv iota).

Ltac bprop :=
  repeat match goal with
  | H : _ && _ = true |- _ => apply andb_true_iff in H as [? ?]
  | H : _ || _ = false |- _ => apply orb_false_iff in H as [? ?]
  | H : negb _ = true |- _ => apply negb_true_iff in H
  | H : negb _ = false |- _ => apply negb_false_iff in H
  | H : (_ <? _) = true |- _ => apply Z.ltb_lt in H
  | H : (_ <? _) = false |- _ => apply Z.ltb_ge in H
  | H : (_ <=? _) = true |- _ => apply Z.leb_le in H
  | H : (_ <=? _) = false |- _ => apply Z.leb_gt in H
  | H : (_ =? _) = true |- _ => apply Z.eqb_eq in H
  | H : (_ =? _) = false |- _ => apply Z.eqb_neq in H
  | H : (_ >? _) = _ |- _ => rewrite Z.gtb_ltb in H
  | H : (_ >=? _) = _ |- _ => rewrite Z.geb_leb in H
  end.

(** Two fields put together by a shift do not overlap. *)
Lemma lor_shiftl a b n : 0 <= n -> 0 <= a < 2 ^ n -> Z.lor a (Z.shiftl b n) = a + b * 2 ^ n.
Proof.
  intros Hn Ha. rewrite Z.shiftl_mul_pow2 by done. rewrite <- Z.add_lor_land.
  assert (Z.land a (b * 2 ^ n) = 0) as ->; [|lia].
  rewrite <- Z.shiftl_mul_pow2 by done. apply Z.bits_inj'. intros k Hk.
  rewrite Z.land_spec, Z.bits_0, Z.shiftl_spec by done.
  destruct (Z.ltb_spec k n); [by rewrite (Z.testbit_neg_r b), andb_false_r by lia|].
  destruct (Z.eq_dec a 0) as [->|]; [by rewrite Z.bits_0|].
  rewrite (Z.bits_above_log2 a k); [done|lia|]. apply Z.log2_lt_pow2; [lia|].
  apply Z.lt_le_trans with (2 ^ n); [lia|apply Z.pow_le_mono_r; lia].
Qed.

(** One wrap-around. *)
Lemma mod_sub_once x m : 0 <= x - m < m -> x mod m = x - m.
Proof. intros. symmetry. apply Z.mod_unique with 1; lia. Qed.
Lemma mod_add_once x m : 0 <= x + m < m -> x mod m = x + m.
Proof. intros. symmetry. apply Z.mod_unique with (-1); lia. Qed.

(** Linear arithmetic with the wrap-arounds unfolded to Euclidean equations. *)
Ltac word :=
  unfold u8, u16, u32, u64 in *; Z.div_mod_to_equations; lia.

(** ** Outcomes

    A C function either returns or stops the process: a failed [assert], a call
    of [abort()], an access outside of its object, a division by zero; [OutOfFuel]
    is a loop that did not finish within the fuel it was run with; [Undefined] is
    what C leaves undefined. *)
Inductive stop : Set :=
  | AssertFailed
  | Aborted
  | OutOfBounds
  | DivByZero
  | OutOfFuel
  | Undefined.

#[global] Instance stop_eq_dec : EqDecision stop.
Proof. solve_decision. Defined.

Inductive outcome (A : Type) : Type :=
  | Ok (a : A)
  | Stop (s : stop).
Arguments Ok {A} a.
Arguments Stop {A} s.

#[global] Instance outcome_ret : MRet outcome := fun A a => Ok a.
#[global] Instance outcome_bind : MBind outcome := fun A B f m =>
  match m with Ok a => f a | Stop s => Stop s end.
#[global] Instance outcome_fmap : FMap outcome := fun A B f m =>
  match m with Ok a => Ok (f a) | Stop s => Stop s end.

(** [assert(b)] *)
Definition c_assert (b : bool) : outcome unit :=
  if b then Ok tt else Stop AssertFailed.

Definition stopped {A} (m : outcome A) : bool :=
  match m with Ok _ => false | Stop _ => true end.

Lemma bind_Ok_inv {A B} (m : outcome A) (f : A -> outcome B) b :
  (m ≫= f) = Ok b -> exists a, m = Ok a /\ f a = Ok b.
Proof. destruct m; simpl; [eauto | discriminate]. Qed.

Lemma c_assert_Ok b u : c_assert b = Ok u -> b = true.
Proof. destruct b; [done | discriminate]. Qed.

Lemma bind_assert_true {B} b (f : unit -> outcome B) :
  b = true -> (c_assert b ≫= f) = f tt.
Proof. intros ->. reflexivity. Qed.

(** Run the monad without unfolding anything else. *)
Ltac osimpl :=
  cbn [mbind outcome_bind mret outcome_ret fmap outcome_fmap c_assert
       negb andb orb fst snd].

(** Take apart a successful computation in the context. *)
Ltac inv_ok :=
  repeat match goal with
  | H : (_ ≫= _) = Ok _ |- _ => apply bind_Ok_inv in H as (? & ? & ?)
  | H : mbind _ _ = Ok _ |- _ => apply bind_Ok_inv in H as (? & ? & ?)
  | H : c_assert _ = Ok _ |- _ => apply c_assert_Ok in H
  | H : Ok _ = Ok _ |- _ => injection H as H
  | H : Stop _ = Ok _ |- _ => discriminate H
  | H : (if ?b then _ else Stop _) = Ok _ |- _ => destruct b eqn:?; [|discriminate H]
  end.

(** ** Records with many fields

    [set field v r] replaces one field of a record; an instance of [Eta] lists
    the record's fields once. *)
Class Eta (R : Type) := eta : R -> R.

Definition set_field {R T : Type} (proj : R -> T)
  (setter : (R -> T) -> R -> R) (v : T) (r : R) : R := setter (fun _ => v) r.

Arguments set_field {R T} proj setter v r /.

Ltac find_setter R proj :=
  let e := constr:(@eta R _) in
  let e := eval cbv [eta] in e in
  match type of proj with
  | _ -> ?T =>
      let e := eval hnf in e in
      match eval pattern proj in e with
      | ?f _ => exact f
      end
  end.

Notation "r <| f := v |>" :=
  (set_field f ltac:(let R := match type of f with ?R -> _ => R end in find_setter R f) v r)
  (at level 1, left associativity, f constr at level 9, v constr at level 200, only parsing).

(** ** Lists and maps *)
Lemma filter_all {A} (P : A -> Prop) `{!forall x, Decision (P x)} (l : list A) : Forall P l -> filter P l = l.
Proof. induction 1 as [|x l Hx _ IH]; [done|]. by rewrite filter_cons_True, IH. Qed.
Lemma filter_none {A} (P : A -> Prop) `{!forall x, Decision (P x)} (l : list A) :
  Forall (fun x => ~ P x) l -> filter P l = [].
Proof. induction 1 as [|x l Hx _ IH]; [done|]. by rewrite filter_cons_False. Qed.

(** An element taken out of a list without duplicates. *)
Lemma NoDup_app_remove (A B : list Z) x : NoDup (A ++ x :: B) -> NoDup (A ++ B) /\ x ∉ A ++ B.
Proof.
  intros Hn. apply (NoDup_Permutation_proper _ (x :: A ++ B)) in Hn; [|by rewrite Permutation_middle].
  apply NoDup_cons in Hn as [? ?]. done.
Qed.
Lemma filter_neq_app (A B : list Z) x : NoDup (A ++ x :: B) -> filter (fun p => p <> x) (A ++ x :: B) = A ++ B.
Proof.
  intros Hn. apply NoDup_app_remove in Hn as [_ Hx].
  rewrite filter_app, filter_cons_False, <- filter_app by (intros []; done).
  apply filter_all, Forall_forall. intros y Hy ->. done.
Qed.

(** Different keys of a map are at most as many as its size. *)
Lemma NoDup_size {A} (m : gmap Z A) (l : list Z) :
  (forall x, x ∈ l -> exists a, m !! x = Some a) -> NoDup l -> (length l <= size m)%nat.
Proof.
  intros Hl Hn. rewrite <- (size_list_to_set (C := gset Z) l) by done.
  rewrite <- (size_dom (D := gset Z) m). apply subseteq_size. intros x Hx.
  apply elem_of_list_to_set in Hx. apply elem_of_dom. destruct (Hl x Hx) as [a Ha]. by exists a.
Qed.

(** ** Flat memory: objects as byte lists *)
Definition mem_read (buf : list Z) (pos n : Z) : outcome (list Z) :=
  if (0 <=? pos) && (0 <=? n) && (pos + n <=? Z.of_nat (length buf))
  then Ok (take (Z.to_nat n) (drop (Z.to_nat pos) buf))
  else Stop OutOfBounds.

Definition mem_write (buf : list Z) (pos : Z) (src : list Z) : outcome (list Z) :=
  if (0 <=? pos) && (pos + Z.of_nat (length src) <=? Z.of_nat (length buf))
  then Ok (take (Z.to_nat pos) buf ++ src ++
           drop (Z.to_nat pos + length src) buf)
  else Stop OutOfBounds.

(** ** Ring buffers

    [ring_read b pos n] is the content of the [n] cells of the ring [b] that
    start at [pos]; positions are taken modulo the length of the ring. *)
Definition ring_read (b : list Z) (pos n : Z) : list Z :=
  (fun k => b !!! Z.to_nat ((pos + k) mod Z.of_nat (length b))) <$> seqZ 0 n.

Section Ring.
Implicit Types (b src : list Z) (pos n m i : Z).

Lemma mem_read_Ok b pos n :
  0 <= pos -> 0 <= n -> pos + n <= Z.of_nat (length b) ->
  mem_read b pos n = Ok (take (Z.to_nat n) (drop (Z.to_nat pos) b)).
Proof.
  intros. unfold mem_read.
  rewrite !(proj2 (Z.leb_le _ _)) by lia. reflexivity.
Qed.

Lemma mem_read_oob b pos n :
  Z.of_nat (length b) < pos + n -> mem_read b pos n = Stop OutOfBounds.
Proof.
  intros. unfold mem_read.
  rewrite (proj2 (Z.leb_gt (pos + n) _)) by lia. by rewrite andb_false_r.
Qed.

Lemma mem_write_Ok b pos src :
  0 <= pos -> pos + Z.of_nat (length src) <= Z.of_nat (length b) ->
  mem_write b pos src =
    Ok (take (Z.to_nat pos) b ++ src ++ drop (Z.to_nat pos + length src) b).
Proof.
  intros. unfold mem_write.
  rewrite !(proj2 (Z.leb_le _ _)) by lia. reflexivity.
Qed.

Lemma mem_write_length b pos src b' :
  mem_write b pos src = Ok b' -> length b' = length b.
Proof.
  unfold mem_write. intros. inv_ok. subst. bprop.
  rewrite !length_app, length_take, length_drop. lia.
Qed.

Lemma mem_write_lookup b pos src b' i :
  mem_write b pos src = Ok b' -> 0 <= i < Z.of_nat (length b) ->
  b' !!! Z.to_nat i =
    if (pos <=? i) && (i <? pos + Z.of_nat (length src))
    then src !!! Z.to_nat (i - pos) else b !!! Z.to_nat i.
Proof.
  unfold mem_write. intros Hw Hi. inv_ok. subst b'. bprop.
  rewrite !list_lookup_total_alt. f_equal.
  destruct (Z.leb_spec pos i); destruct (Z.ltb_spec i (pos + Z.of_nat (length src)));
    simpl; try lia.
  - rewrite lookup_app_r by (rewrite length_take; lia).
    rewrite length_take, lookup_app_l by lia. f_equal. f_equal. lia.
  - rewrite lookup_app_r by (rewrite length_take; lia).
    rewrite length_take, lookup_app_r by lia.
    rewrite lookup_drop. f_equal. f_equal. lia.
  - rewrite lookup_app_l by (rewrite length_take; lia).
    by rewrite lookup_take_lt by lia.
Qed.

Lemma ring_read_length b pos n : length (ring_read b pos n) = Z.to_nat n.
Proof. unfold ring_read. by rewrite length_fmap, length_seqZ. Qed.

Lemma ring_read_lookup b pos n (k : nat) :
  Z.of_nat k < n ->
  ring_read b pos n !! k =
    Some (b !!! Z.to_nat ((pos + Z.of_nat k) mod Z.of_nat (length b))).
Proof.
  intros. unfold ring_read. rewrite list_lookup_fmap, lookup_seqZ_lt by lia.
  done.
Qed.

(** Two ring reads agree when their cells agree one by one. *)
Lemma ring_read_ext b b' pos pos' n :
  (forall k, 0 <= k < n ->
     b !!! Z.to_nat ((pos + k) mod Z.of_nat (length b)) =
     b' !!! Z.to_nat ((pos' + k) mod Z.of_nat (length b'))) ->
  ring_read b pos n = ring_read b' pos' n.
Proof.
  intros Hk. unfold ring_read. apply list_fmap_ext. intros i x Hx.
  apply lookup_seqZ in Hx. apply Hk. lia.
Qed.

Lemma ring_read_zero b pos : ring_read b pos 0 = [].
Proof. reflexivity. Qed.

Lemma ring_read_app b pos n m :
  0 <= n -> 0 <= m ->
  ring_read b pos (n + m) = ring_read b pos n ++ ring_read b (pos + n) m.
Proof.
  intros. unfold ring_read. rewrite seqZ_app by lia. rewrite fmap_app. f_equal.
  replace (seqZ (0 + n) m) with (Z.add n <$> seqZ 0 m)
    by (rewrite fmap_add_seqZ; f_equal; lia).
  rewrite <- list_fmap_compose. apply list_fmap_ext. intros i x _. simpl.
  by rewrite Z.add_assoc.
Qed.

Lemma ring_read_mod b pos pos' n :
  pos mod Z.of_nat (length b) = pos' mod Z.of_nat (length b) ->
  ring_read b pos n = ring_read b pos' n.
Proof.
  intros H. apply ring_read_ext. intros k _. do 2 f_equal.
  rewrite <- (Zplus_mod_idemp_l pos), H, Zplus_mod_idemp_l. done.
Qed.

Lemma ring_read_wrap b pos n :
  ring_read b (pos - Z.of_nat (length b)) n = ring_read b pos n.
Proof.
  apply ring_read_mod.
  replace (pos - Z.of_nat (length b)) with (pos + (-1) * Z.of_nat (length b)) by lia.
  apply Z_mod_plus_full.
Qed.

Lemma ring_read_linear b pos n :
  0 <= pos -> 0 <= n -> pos + n <= Z.of_nat (length b) ->
  ring_read b pos n = take (Z.to_nat n) (drop (Z.to_nat pos) b).
Proof.
  intros. apply list_eq. intros k.
  destruct (decide (Z.of_nat k < n)) as [Hk|Hk].
  - rewrite ring_read_lookup by lia. rewrite Z.mod_small by lia.
    rewrite lookup_take_lt, lookup_drop by lia.
    replace (Z.to_nat (pos + Z.of_nat k)) with (Z.to_nat pos + k)%nat by lia.
    symmetry. apply list_lookup_lookup_total_lt. lia.
  - rewrite !lookup_ge_None_2; [done| |].
    + rewrite length_take, length_drop. lia.
    + rewrite ring_read_length. lia.
Qed.

Lemma mem_read_ring b pos n :
  0 <= pos -> 0 <= n -> pos + n <= Z.of_nat (length b) ->
  mem_read b pos n = Ok (ring_read b pos n).
Proof. intros. by rewrite mem_read_Ok, ring_read_linear. Qed.

Lemma ring_take b pos n k :
  0 <= k <= n -> take (Z.to_nat k) (ring_read b pos n) = ring_read b pos k.
Proof.
  intros. replace n with (k + (n - k)) by lia. rewrite ring_read_app by lia.
  rewrite <- (ring_read_length b pos k). apply take_app_length.
Qed.

Lemma ring_drop b pos n k :
  0 <= k <= n -> drop (Z.to_nat k) (ring_read b pos n) = ring_read b (pos + k) (n - k).
Proof.
  intros. replace (ring_read b pos n) with (ring_read b pos (k + (n - k)))
    by (f_equal; lia).
  rewrite ring_read_app by lia.
  rewrite <- (ring_read_length b pos k) at 1. apply drop_app_length.
Qed.

(** What a write puts in place, and what it leaves alone. *)
Lemma ring_write_same b pos src b' :
  mem_write b pos src = Ok b' ->
  ring_read b' pos (Z.of_nat (length src)) = src.
Proof.
  intros Hw. pose proof (mem_write_length _ _ _ _ Hw) as Hlen.
  assert (0 <= pos /\ pos + Z.of_nat (length src) <= Z.of_nat (length b)) as [? ?].
  { unfold mem_write in Hw. inv_ok. bprop. lia. }
  apply list_eq. intros k. destruct (decide (k < length src)%nat) as [Hk|Hk].
  - rewrite ring_read_lookup by lia. rewrite Hlen, Z.mod_small by lia.
    rewrite (mem_write_lookup _ _ _ _ _ Hw) by lia.
    rewrite (proj2 (Z.leb_le _ _)), (proj2 (Z.ltb_lt _ _)) by lia. simpl.
    replace (Z.to_nat (pos + Z.of_nat k - pos)) with k by lia.
    symmetry. apply list_lookup_lookup_total_lt. lia.
  - rewrite !lookup_ge_None_2; [done|lia|]. rewrite ring_read_length. lia.
Qed.

Lemma ring_cell_disjoint len p k n j m :
  0 < len -> 0 <= k < n -> 0 <= j < m -> n + m <= len ->
  (p + k) mod len <> (p + n + j) mod len.
Proof.
  intros Hlen Hk Hj Hs Heq.
  assert ((n + j - k) mod len = 0) as Hz.
  { replace (n + j - k) with ((p + n + j) - (p + k)) by lia.
    rewrite Zminus_mod, Heq, Z.sub_diag. apply Z.mod_0_l. lia. }
  rewrite Z.mod_small in Hz by lia. lia.
Qed.

Lemma ring_write_other b pos src b' p n :
  mem_write b pos src = Ok b' ->
  pos mod Z.of_nat (length b) = (p + n) mod Z.of_nat (length b) ->
  n + Z.of_nat (length src) <= Z.of_nat (length b) ->
  ring_read b' p n = ring_read b p n.
Proof.
  intros Hw Hpos Hfit. pose proof (mem_write_length _ _ _ _ Hw) as Hlen.
  assert (0 <= pos /\ pos + Z.of_nat (length src) <= Z.of_nat (length b)) as [? ?].
  { unfold mem_write in Hw. inv_ok. bprop. lia. }
  apply ring_read_ext. intros k Hk. rewrite Hlen.
  set (len := Z.of_nat (length b)) in *.
  pose proof (Z.mod_pos_bound (p + k) len ltac:(lia)) as Hb.
  rewrite (mem_write_lookup _ _ _ _ _ Hw) by lia.
  destruct (Z.leb_spec pos ((p + k) mod len)); [|done].
  destruct (Z.ltb_spec ((p + k) mod len) (pos + Z.of_nat (length src))); [|done].
  exfalso. set (j := (p + k) mod len - pos).
  apply (ring_cell_disjoint len p k n j (Z.of_nat (length src))); try lia.
  rewrite <- (Z.add_mod_idemp_l (p + n)), <- Hpos, Z.add_mod_idemp_l by lia.
  unfold j. replace (pos + ((p + k) mod len - pos)) with ((p + k) mod len) by lia.
  by rewrite Z.mod_mod by lia.
Qed.

End Ring.
