(* ===== verification/RdmaQueue.v ===== *)
(** * The RDMA byte queue (include/rdma_queue.h, lib/utils/rdma_queue.c)

    A single-producer single-consumer ring of bytes.  The unpaired form is used
    on the NIC between threads; in the paired form the producer holds a copy of
    the consumer's ring and copies bytes over with RDMA verbs. *)
From S2P Require Import Prelude.

#[local] Open Scope Z_scope.

(** ** Data *)

Definition RDMA_QUEUE_PAD : Z := 8.
(** [sizeof(struct rdma_queue)] and [offsetof(struct rdma_queue, buffer)] in
    the LP64 ABI. *)
Definition SIZEOF_RDMA_QUEUE : Z := 88.
Definition OFFSETOF_BUFFER : Z := 84.

Record rdma_queue_endpoint := mk_endpoint {
  ep_addr : Z;
  ep_offset : Z;
  ep_lkey : Z;
  ep_rkey : Z;
}.
#[export] Instance eta_endpoint : Eta rdma_queue_endpoint := fun e =>
  mk_endpoint (ep_addr e) (ep_offset e) (ep_lkey e) (ep_rkey e).

(** [self] is the address of the struct, the value of a [struct rdma_queue *]
    that points to it. [rx] and [tx] are [endpoints.rx] and [endpoints.tx]. *)
Record rdma_queue := mk_queue {
  self : Z;
  qp : Z;
  buffer_size : Z;
  flush_offset : Z;
  rx : rdma_queue_endpoint;
  tx : rdma_queue_endpoint;
  paired : bool;
  is_tx : bool;
  buffer : list Z;
}.
#[export] Instance eta_queue : Eta rdma_queue := fun q =>
  mk_queue (self q) (qp q) (buffer_size q) (flush_offset q) (rx q) (tx q)
    (paired q) (is_tx q) (buffer q).

Abbreviation rx_off q := (ep_offset (rx q)).
Abbreviation tx_off q := (ep_offset (tx q)).
Definition set_rx_off (v : Z) (q : rdma_queue) : rdma_queue :=
  q <| rx := (rx q) <| ep_offset := v |> |>.
Definition set_tx_off (v : Z) (q : rdma_queue) : rdma_queue :=
  q <| tx := (tx q) <| ep_offset := v |> |>.

(** ** The RDMA verbs

    The queue issues four shapes of work request, each at an [offsetof] of the
    remote struct. Posting one is [ibv_post_send], code of libibverbs, and is a
    parameter: every call returns the status of [rdma_write]/[rdma_read] (0 is
    success) and the link after it. [post_read_rx] also gives the value that
    [endpoints.rx.offset] of the local copy has when the call returns, given
    the value it had before. *)
Class RdmaLink (L : Type) := {
  post_write_buf : L -> Z -> list Z -> Z * L;
  post_write_tx : L -> Z -> Z * L;
  post_read_rx : L -> Z -> Z * Z * L;
  post_write_endpoints : L -> rdma_queue_endpoint -> rdma_queue_endpoint -> Z * L;
}.

(** ** Sizes *)

Definition rq_nbytes (q : rdma_queue) (from to : Z) (inner : bool) : outcome Z :=
  let rm :=
    if from <? to then i64 (u64 (to - from))
    else if from >? to then i64 (u64 (buffer_size q - from + to))
    else if inner then 0 else i64 (u64 (buffer_size q - RDMA_QUEUE_PAD)) in
  _ ← c_assert (rm >=? 0);
  mret (u64 rm).

Definition rq_nbytes_to_flush (q : rdma_queue) : outcome Z :=
  _ ← c_assert (ep_addr (tx q) =? self q);
  rq_nbytes q (flush_offset q) (tx_off q) true.

Definition rq_nbytes_enqueued (q : rdma_queue) : outcome Z :=
  _ ← c_assert (ep_addr (rx q) =? self q);
  if paired q then rq_nbytes q (rx_off q) (tx_off q) true
  else rq_nbytes q (rx_off q) (flush_offset q) true.

Definition rq_nbytes_empty (q : rdma_queue) : outcome Z :=
  bytes ← (if paired q
           then if is_tx q then rq_nbytes_to_flush q else rq_nbytes_enqueued q
           else rq_nbytes q (rx_off q) (tx_off q) true);
  mret (u64 (buffer_size q - i32 bytes - RDMA_QUEUE_PAD)).

Definition rq_nbytes_max_flush (q : rdma_queue) : outcome Z :=
  n ← rq_nbytes q (flush_offset q) (rx_off q) false;
  mret (i32 n).

(** The split [b1], [b2] of a range of [sz] bytes at [off]. *)
Definition rq_split (q : rdma_queue) (off sz : Z) : Z * Z :=
  let b1 := if u64 (off + sz) >? buffer_size q
            then i32 (u64 (buffer_size q - off)) else i32 sz in
  (b1, i32 (u64 (sz - b1))).

(** ** Flushing *)
Section Flush.
Context {L : Type} `{RdmaLink L}.

(** The refresh of the local copy of the receiver's offset. *)
Definition rq_refresh_rx (q : rdma_queue) (l : L) : Z * rdma_queue * L :=
  let '(rv, off, l) := post_read_rx l (rx_off q) in
  (rv, set_rx_off off q, l).

(** One copy of [bytes_to_flush] bytes to the receiver: [None] is the
    [return -1] of a failed write. *)
Definition rq_flush_bytes (q : rdma_queue) (l : L) (bytes_to_flush : Z)
  : outcome (option rdma_queue * rdma_queue * L) :=
  if bytes_to_flush >? 0 then
    let '(b1, b2) := rq_split q (flush_offset q) bytes_to_flush in
    d1 ← mem_read (buffer q) (flush_offset q) b1;
    let '(rv, l) := post_write_buf l (flush_offset q) d1 in
    if rv <? 0 then mret (None, q, l) else
    if b2 >? 0 then
      d2 ← mem_read (buffer q) 0 b2;
      let '(rv, l) := post_write_buf l 0 d2 in
      if rv <? 0 then mret (None, q, l)
      else let q := q <| flush_offset := b2 |> in mret (Some q, q, l)
    else
      let q := q <| flush_offset := u64 (flush_offset q + b1) |> in
      mret (Some q, q, l)
  else mret (Some q, q, l).

(** The two rounds of the loop of [rq_nflush]; the result is the value of
    [total_flushed] or [None] for [return -1]. *)
Fixpoint rq_flush_rounds (rounds : nat) (i : nat) (q : rdma_queue) (l : L)
  (max_bytes_to_flush total_flushed : Z)
  : outcome (option Z * rdma_queue * L) :=
  match rounds with
  | O => mret (Some total_flushed, q, l)
  | S rounds =>
      mx ← rq_nbytes_max_flush q;
      let max_bytes_can_flush := u64 mx in
      let bytes_to_flush :=
        if max_bytes_to_flush >? max_bytes_can_flush
        then max_bytes_can_flush else max_bytes_to_flush in
      '(ok, q, l) ← rq_flush_bytes q l bytes_to_flush;
      match ok with
      | None => mret (None, q, l)
      | Some _ =>
          let total_flushed := i32 (u64 (total_flushed + bytes_to_flush)) in
          if u64 total_flushed =? max_bytes_to_flush
          then mret (Some total_flushed, q, l)
          else if bool_decide (i = 0%nat) then
            let '(rv, q, l) := rq_refresh_rx q l in
            if negb (rv =? 0) then mret (None, q, l)
            else rq_flush_rounds rounds (S i) q l max_bytes_to_flush total_flushed
          else rq_flush_rounds rounds (S i) q l max_bytes_to_flush total_flushed
      end
  end.

Definition rq_nflush (q : rdma_queue) (l : L) (to_flush : Z)
  : outcome (Z * rdma_queue * L) :=
  _ ← c_assert (self q =? ep_addr (tx q));
  bytes_remaining_to_flush ← rq_nbytes_to_flush q;
  let max_bytes_to_flush :=
    if bytes_remaining_to_flush >? to_flush then to_flush
    else bytes_remaining_to_flush in
  if negb (paired q) then
    let new_flush_offset := u64 (flush_offset q + max_bytes_to_flush) in
    let new_flush_offset :=
      if new_flush_offset >? buffer_size q
      then u64 (new_flush_offset - buffer_size q) else new_flush_offset in
    mret (i32 max_bytes_to_flush, q <| flush_offset := new_flush_offset |>, l)
  else
    '(r, q, l) ← rq_flush_rounds 2 0 q l max_bytes_to_flush 0;
    match r with
    | None => mret (-1, q, l)
    | Some total_flushed =>
        if total_flushed >? 0 then
          let '(_, l) := post_write_tx l (tx_off q) in
          mret (total_flushed, q, l)
        else mret (total_flushed, q, l)
    end.

Definition rq_flush (q : rdma_queue) (l : L) : outcome (Z * rdma_queue * L) :=
  n ← rq_nbytes_to_flush q;
  rq_nflush q l n.

(** ** Enqueue and dequeue *)

(** [to_enqueue] is [None] for a [NULL] source: only the indices move. *)
Definition rq_try_enqueue (q : rdma_queue) (l : L) (to_enqueue : option (list Z))
  (sz : Z) : outcome (Z * rdma_queue * L) :=
  _ ← c_assert (self q =? ep_addr (tx q));
  empty ← rq_nbytes_empty q;
  if sz >? empty then
    '(rv, q, l) ← rq_flush q l;
    if rv <? 0 then mret (-1, q, l) else mret (1, q, l)
  else
    let '(b1, b2) := rq_split q (tx_off q) sz in
    buf ← match to_enqueue with
          | None => mret (buffer q)
          | Some data =>
              src ← mem_read data 0 b1;
              mem_write (buffer q) (tx_off q) src
          end;
    '(buf, new_tx_offset) ←
      (if b2 >? 0 then
         buf ← match to_enqueue with
               | None => mret buf
               | Some data =>
                   src ← mem_read data b2 b2;
                   mem_write buf 0 src
               end;
         mret (buf, b2)
       else
         _ ← c_assert (u64 b1 =? sz);
         mret (buf, u64 (tx_off q + b1)));
    mret (0, set_tx_off new_tx_offset (q <| buffer := buf |>), l).

End Flush.

(** [want] says whether the caller gave a buffer; the second component is what
    is written to it. *)
Definition rq_try_possible_dequeue (q : rdma_queue) (want : bool) (sz : Z)
  (dequeue : bool) : outcome (Z * list Z * rdma_queue) :=
  _ ← c_assert (self q =? ep_addr (rx q));
  n ← rq_nbytes_enqueued q;
  let bytes := i32 n in
  if u64 bytes <? sz then mret (1, [], q)
  else
    let '(b1, b2) := rq_split q (rx_off q) sz in
    d1 ← (if want then mem_read (buffer q) (rx_off q) b1 else mret []);
    '(d2, new_offset) ←
      (if b2 >? 0 then
         d2 ← (if want then mem_read (buffer q) 0 b2 else mret []);
         mret (d2, b2)
       else
         _ ← c_assert (sz =? u64 b1);
         mret ([], u64 (rx_off q + b1)));
    mret (0, d1 ++ d2, if dequeue then set_rx_off new_offset q else q).

Definition rq_try_peek (q : rdma_queue) (want : bool) (sz : Z) :=
  rq_try_possible_dequeue q want sz false.

Definition rq_try_dequeue (q : rdma_queue) (want : bool) (sz : Z) :=
  rq_try_possible_dequeue q want sz true.

(** ** Allocation and pairing *)

(** [raw] is the memory at [bytes], [self] its address. [memset] clears the
    first [sizeof] bytes, of which the last four belong to the buffer. *)
Definition rq_allocate_in_place (addr : Z) (raw : list Z) (nbytes qp lkey rkey : Z)
  : option rdma_queue :=
  let buffer_size := i32 (u64 (nbytes - SIZEOF_RDMA_QUEUE)) in
  if buffer_size <=? 0 then None
  else
    let cleared := replicate (Z.to_nat SIZEOF_RDMA_QUEUE) 0 ++
                   drop (Z.to_nat SIZEOF_RDMA_QUEUE) raw in
    let ep := mk_endpoint addr 0 lkey rkey in
    Some (mk_queue addr qp buffer_size 0 ep ep false false
            (take (Z.to_nat buffer_size) (drop (Z.to_nat OFFSETOF_BUFFER) cleared))).

Section Pairing.
Context {L : Type} `{RdmaLink L}.

Definition rq_pair_receiver (q : rdma_queue) (l : L)
  (rx_endpoint : rdma_queue_endpoint) : outcome (Z * rdma_queue * L) :=
  let q := q <| rx := rx_endpoint |> <| paired := true |> <| is_tx := true |> in
  _ ← c_assert (self q =? ep_addr (tx q));
  let '(rv, l) := post_write_endpoints l (rx q) (tx q) in
  if negb (rv =? 0) then mret (-1, q <| paired := false |>, l)
  else mret (0, q, l).

(** ** Reservation *)

Definition rq_nbytes_can_reserve (q : rdma_queue) (l : L)
  : outcome (Z * rdma_queue * L) :=
  _ ← c_assert (ep_addr (tx q) =? self q);
  mx ← rq_nbytes_max_flush q;
  let max_bytes_can_flush := u64 mx in
  bytes_to_flush ← rq_nbytes_to_flush q;
  let max_add_bytes := u64 (max_bytes_can_flush - bytes_to_flush) in
  if negb (paired q) then
    _ ← c_assert (max_bytes_can_flush >=? bytes_to_flush);
    mret (i64 max_add_bytes, q, l)
  else if max_bytes_can_flush <=? bytes_to_flush then
    let '(rv, q, l) := rq_refresh_rx q l in
    if negb (rv =? 0) then mret (-1, q, l)
    else if max_bytes_can_flush <? bytes_to_flush then mret (0, q, l)
    else mret (i64 (u64 (max_bytes_can_flush - bytes_to_flush)), q, l)
  else mret (i64 (u64 (max_bytes_can_flush - bytes_to_flush)), q, l).

Fixpoint rq_reserve_rounds (rounds i : nat) (q : rdma_queue) (l : L) (to_flush : Z)
  : outcome (Z * rdma_queue * L) :=
  match rounds with
  | O => mret (0, q, l)
  | S rounds =>
      mx ← rq_nbytes_max_flush q;
      let max_bytes_can_flush := u64 mx in
      bytes_to_flush ← rq_nbytes_to_flush q;
      if max_bytes_can_flush <? u64 (bytes_to_flush + to_flush) then
        if negb (paired q) then mret (0, q, l)
        else if bool_decide (i = 0%nat) then
          let '(rv, q, l) := rq_refresh_rx q l in
          if negb (rv =? 0) then mret (-1, q, l)
          else rq_reserve_rounds rounds (S i) q l to_flush
        else rq_reserve_rounds rounds (S i) q l to_flush
      else mret (1, q, l)
  end.

Definition rq_try_reserve_flush (q : rdma_queue) (l : L) (to_flush : Z)
  : outcome (Z * rdma_queue * L) :=
  _ ← c_assert (ep_addr (tx q) =? self q);
  rq_reserve_rounds 2 0 q l to_flush.

End Pairing.

(** ** Abstract specification: a bounded byte FIFO with a flush point

    [visible] is what the consumer may dequeue, [pending] what the producer has
    enqueued and not flushed. *)
Record fifo := mk_fifo { visible : list Z; pending : list Z }.

Definition fifo_size (s : fifo) : Z :=
  Z.of_nat (length (visible s)) + Z.of_nat (length (pending s)).

Definition fifo_flush (n : Z) (s : fifo) : fifo :=
  mk_fifo (visible s ++ take (Z.to_nat n) (pending s)) (drop (Z.to_nat n) (pending s)).

(** [room] is the capacity of the queue; a full queue answers 1 and flushes. *)
Definition fifo_enqueue (room : Z) (data : list Z) (s : fifo) : Z * fifo :=
  if Z.of_nat (length data) >? room - fifo_size s
  then (1, fifo_flush (Z.of_nat (length (pending s))) s)
  else (0, mk_fifo (visible s) (pending s ++ data)).

Definition fifo_dequeue (n : Z) (s : fifo) : Z * list Z * fifo :=
  if Z.of_nat (length (visible s)) <? n then (1, [], s)
  else (0, take (Z.to_nat n) (visible s),
        mk_fifo (drop (Z.to_nat n) (visible s)) (pending s)).

(** The queue's own way of moving an offset: [bs] is reached before 0. *)
Definition adv (bs pos n : Z) : Z := if pos + n >? bs then pos + n - bs else pos + n.

(** An unpaired queue [q] represents the FIFO [s]. *)
Record rep (q : rdma_queue) (s : fifo) : Prop := {
  rep_unpaired : paired q = false;
  rep_rx_self : ep_addr (rx q) = self q;
  rep_tx_self : ep_addr (tx q) = self q;
  rep_bs : RDMA_QUEUE_PAD < buffer_size q < 2147483648;
  rep_buf : Z.of_nat (length (buffer q)) = buffer_size q;
  rep_rx : 0 <= rx_off q <= buffer_size q;
  rep_flush : flush_offset q =
    adv (buffer_size q) (rx_off q) (Z.of_nat (length (visible s)));
  rep_tx : tx_off q =
    adv (buffer_size q) (flush_offset q) (Z.of_nat (length (pending s)));
  rep_fits : fifo_size s <= buffer_size q - RDMA_QUEUE_PAD;
  rep_visible : visible s =
    ring_read (buffer q) (rx_off q) (Z.of_nat (length (visible s)));
  rep_pending : pending s =
    ring_read (buffer q) (flush_offset q) (Z.of_nat (length (pending s)));
}.

(** ** Offset arithmetic *)

Lemma adv_range bs pos n :
  0 <= pos <= bs -> 0 <= n <= bs -> 0 <= adv bs pos n <= bs.
Proof. unfold adv. intros. bsplit; lia. Qed.

Lemma adv_zero bs pos : pos <= bs -> adv bs pos 0 = pos.
Proof. unfold adv. intros. bsplit; lia. Qed.

Lemma adv_add bs pos n m :
  0 <= pos <= bs -> 0 <= n -> 0 <= m -> n + m <= bs ->
  adv bs (adv bs pos n) m = adv bs pos (n + m).
Proof. unfold adv. intros. bsplit; lia. Qed.

Lemma adv_mod bs pos n : 0 < bs -> adv bs pos n mod bs = (pos + n) mod bs.
Proof.
  unfold adv. intros. bsplit; [|done].
  replace (pos + n - bs) with (pos + n + (-1) * bs) by lia. apply Z_mod_plus_full.
Qed.

Lemma ring_read_adv b pos n m bs :
  bs = Z.of_nat (length b) -> 0 < bs ->
  ring_read b (adv bs pos n) m = ring_read b (pos + n) m.
Proof. intros -> ?. apply ring_read_mod, adv_mod. lia. Qed.

Lemma size_checked rm :
  0 <= rm < 2147483648 ->
  (_ ← c_assert (i64 (u64 rm) >=? 0); mret (u64 (i64 (u64 rm)))) = Ok rm.
Proof.
  intros. rewrite (u64_small rm), i64_small by lia.
  rewrite (proj2 (Z.geb_le _ _)) by lia. simpl. by rewrite u64_small by lia.
Qed.

Lemma rq_nbytes_val (q : rdma_queue) (from to : Z) (inner : bool) (n : Z) :
  0 <= n < 2147483648 ->
  (if from <? to then to - from
   else if from >? to then buffer_size q - from + to
   else if inner then 0 else buffer_size q - RDMA_QUEUE_PAD) = n ->
  rq_nbytes q from to inner = Ok n.
Proof.
  intros Hn <-. unfold rq_nbytes.
  destruct (from <? to); [apply size_checked, Hn|].
  destruct (from >? to); [apply size_checked, Hn|].
  destruct inner; [reflexivity|apply size_checked, Hn].
Qed.

(** The three cases of [rq_nbytes] compute the distance of two offsets. *)
Lemma rq_nbytes_adv q pos n inner :
  RDMA_QUEUE_PAD < buffer_size q < 2147483648 ->
  0 <= pos <= buffer_size q -> 0 <= n <= buffer_size q - RDMA_QUEUE_PAD ->
  inner = true \/ 0 < n ->
  rq_nbytes q pos (adv (buffer_size q) pos n) inner = Ok n.
Proof.
  unfold RDMA_QUEUE_PAD. intros ? ? ? Hin. apply rq_nbytes_val; [lia|].
  unfold adv. bsplit; try lia. destruct Hin as [->|]; lia.
Qed.

(** The other direction: from the far offset back to the near one is the free
    space, padding included; equal offsets are an empty ring. *)
Lemma rq_nbytes_back q pos n :
  RDMA_QUEUE_PAD < buffer_size q < 2147483648 ->
  0 <= pos <= buffer_size q -> 0 <= n <= buffer_size q - RDMA_QUEUE_PAD ->
  rq_nbytes q (adv (buffer_size q) pos n) pos false =
    Ok (if n =? 0 then buffer_size q - RDMA_QUEUE_PAD else buffer_size q - n).
Proof.
  unfold RDMA_QUEUE_PAD. intros ? ? ?. apply rq_nbytes_val.
  - bsplit; lia.
  - unfold adv, RDMA_QUEUE_PAD. bsplit; lia.
Qed.

Section Rep.
Context (q : rdma_queue) (s : fifo) (R : rep q s).

Lemma rep_flush_range : 0 <= flush_offset q <= buffer_size q.
Proof.
  destruct R. rewrite rep_flush0. unfold fifo_size, RDMA_QUEUE_PAD in *.
  apply adv_range; lia.
Qed.

Lemma rep_tx_range : 0 <= tx_off q <= buffer_size q.
Proof.
  pose proof rep_flush_range. destruct R. rewrite rep_tx0.
  unfold fifo_size, RDMA_QUEUE_PAD in *. apply adv_range; lia.
Qed.

Lemma rep_tx_rx : tx_off q = adv (buffer_size q) (rx_off q) (fifo_size s).
Proof.
  destruct R. rewrite rep_tx0, rep_flush0.
  unfold fifo_size, RDMA_QUEUE_PAD in *. apply adv_add; lia.
Qed.

Lemma rep_to_flush :
  rq_nbytes_to_flush q = Ok (Z.of_nat (length (pending s))).
Proof.
  pose proof rep_flush_range. destruct R. unfold rq_nbytes_to_flush.
  rewrite bind_assert_true by (by apply Z.eqb_eq). rewrite rep_tx0.
  unfold fifo_size in *. apply rq_nbytes_adv; auto; lia.
Qed.

Lemma rep_enqueued :
  rq_nbytes_enqueued q = Ok (Z.of_nat (length (visible s))).
Proof.
  destruct R. unfold rq_nbytes_enqueued.
  rewrite bind_assert_true by (by apply Z.eqb_eq). rewrite rep_unpaired0, rep_flush0.
  unfold fifo_size in *. apply rq_nbytes_adv; auto; lia.
Qed.

Lemma rep_empty :
  rq_nbytes_empty q = Ok (buffer_size q - RDMA_QUEUE_PAD - fifo_size s).
Proof.
  pose proof rep_tx_rx as Htx. destruct R. unfold rq_nbytes_empty.
  unfold fifo_size, RDMA_QUEUE_PAD in *. rewrite rep_unpaired0, Htx.
  rewrite rq_nbytes_adv by (auto; unfold RDMA_QUEUE_PAD; lia). simpl.
  rewrite i32_small, u64_small by lia. f_equal. unfold RDMA_QUEUE_PAD. lia.
Qed.

Lemma rep_max_flush :
  rq_nbytes_max_flush q =
    Ok (if Z.of_nat (length (visible s)) =? 0 then buffer_size q - RDMA_QUEUE_PAD
        else buffer_size q - Z.of_nat (length (visible s))).
Proof.
  destruct R. unfold rq_nbytes_max_flush, fifo_size, RDMA_QUEUE_PAD in *.
  rewrite rep_flush0.
  rewrite rq_nbytes_back by (unfold RDMA_QUEUE_PAD; lia). simpl.
  unfold RDMA_QUEUE_PAD. bsplit; rewrite i32_small by lia; done.
Qed.

End Rep.

Lemma rq_split_spec q off sz :
  0 <= off <= buffer_size q -> 0 <= sz <= buffer_size q ->
  buffer_size q < 2147483648 ->
  rq_split q off sz =
    if off + sz >? buffer_size q
    then (buffer_size q - off, off + sz - buffer_size q) else (sz, 0).
Proof.
  intros. unfold rq_split. rewrite (u64_small (off + sz)) by lia.
  destruct (Z.gtb_spec (off + sz) (buffer_size q)).
  - rewrite (u64_small (buffer_size q - off)), (i32_small (buffer_size q - off)) by lia.
    rewrite u64_small, i32_small by lia. f_equal. lia.
  - rewrite (i32_small sz) by lia. rewrite Z.sub_diag. reflexivity.
Qed.

(** ** Refinement of the unpaired operations *)
Section Refine.
Context {L : Type} `{RdmaLink L}.
Implicit Types (q : rdma_queue) (s : fifo) (l : L).

(** The representation after an operation that moves the offsets only. *)
Lemma rep_intro q q' s s' :
  rep q s ->
  paired q' = paired q -> ep_addr (rx q') = ep_addr (rx q) ->
  ep_addr (tx q') = ep_addr (tx q) -> self q' = self q ->
  buffer_size q' = buffer_size q -> length (buffer q') = length (buffer q) ->
  0 <= rx_off q' <= buffer_size q ->
  flush_offset q' = adv (buffer_size q) (rx_off q') (Z.of_nat (length (visible s'))) ->
  tx_off q' = adv (buffer_size q) (flush_offset q') (Z.of_nat (length (pending s'))) ->
  fifo_size s' <= buffer_size q - RDMA_QUEUE_PAD ->
  visible s' = ring_read (buffer q') (rx_off q') (Z.of_nat (length (visible s'))) ->
  pending s' = ring_read (buffer q') (flush_offset q') (Z.of_nat (length (pending s'))) ->
  rep q' s'.
Proof.
  intros [] Hp Hrx Htx Hs Hb Hl. intros.
  constructor; rewrite ?Hp, ?Hrx, ?Htx, ?Hs, ?Hb, ?Hl; auto.
Qed.

Lemma fifo_flush_length n s :
  0 <= n ->
  Z.of_nat (length (visible (fifo_flush n s))) =
    Z.of_nat (length (visible s)) + Z.min n (Z.of_nat (length (pending s))) /\
  Z.of_nat (length (pending (fifo_flush n s))) =
    Z.of_nat (length (pending s)) - Z.min n (Z.of_nat (length (pending s))).
Proof.
  intros. unfold fifo_flush; simpl.
  rewrite length_app, length_take, length_drop. lia.
Qed.

(** Moving the flush point by [k] pending bytes. *)
Lemma rep_move_flush q s k fo :
  rep q s -> 0 <= k <= Z.of_nat (length (pending s)) ->
  fo = adv (buffer_size q) (flush_offset q) k ->
  rep (q <| flush_offset := fo |>) (fifo_flush k s).
Proof.
  intros R Hk ->. pose proof (rep_flush_range q s R) as Hfl.
  destruct (fifo_flush_length k s) as [Hv Hp]; [lia|].
  rewrite Z.min_l in Hv, Hp by lia.
  assert (visible (fifo_flush k s) = visible s ++ take (Z.to_nat k) (pending s)) as Ev by done.
  assert (pending (fifo_flush k s) = drop (Z.to_nat k) (pending s)) as Ep by done.
  revert Hv Hp Ev Ep. generalize (fifo_flush k s). intros s' Hv Hp Ev Ep.
  apply (rep_intro q _ s); auto; destruct R; simpl; unfold fifo_size, RDMA_QUEUE_PAD in *;
    rewrite ?Hv, ?Hp; auto; try lia.
  - rewrite rep_flush0. apply adv_add; lia.
  - rewrite rep_tx0, adv_add by lia. f_equal. lia.
  - rewrite Ev, ring_read_app, <- rep_visible0 by lia. f_equal.
    rewrite rep_pending0 at 1. rewrite ring_take, rep_flush0 by lia. apply ring_read_adv; lia.
  - rewrite Ep. rewrite rep_pending0 at 1. rewrite ring_drop, ring_read_adv by lia. done.
Qed.

Lemma rq_nflush_local q s l n :
  rep q s -> 0 <= n ->
  exists q', rq_nflush q l n = Ok (Z.min n (Z.of_nat (length (pending s))), q', l) /\
    rep q' (fifo_flush n s) /\ buffer q' = buffer q /\ rx_off q' = rx_off q /\
    tx_off q' = tx_off q /\ buffer_size q' = buffer_size q.
Proof.
  intros R Hn. pose proof (rep_flush_range q s R) as Hfl.
  unfold rq_nflush. rewrite (rep_to_flush q s R).
  rewrite bind_assert_true by (apply Z.eqb_eq; symmetry; apply R). osimpl.
  rewrite (rep_unpaired q s R). osimpl.
  set (p := Z.of_nat (length (pending s))).
  replace (if p >? n then n else p) with (Z.min n p) by (bsplit; lia).
  pose proof R as []. unfold fifo_size, RDMA_QUEUE_PAD in *.
  rewrite (u64_small (flush_offset q + _)), i32_small by lia.
  eexists. split; [reflexivity|]. split; [|done].
  replace (fifo_flush n s) with (fifo_flush (Z.min n p) s).
  - apply rep_move_flush; [done|lia|]. unfold adv.
    destruct (_ >? _) eqn:Hgt; [|done]. bprop. apply u64_small. lia.
  - unfold fifo_flush. destruct (Z.min_spec n p) as [[? ->]|[? ->]]; [done|].
    rewrite !take_ge, !drop_ge by lia. done.
Qed.

(** Appending [n] bytes at the tail of a buffer that agrees with the old one on
    the bytes in the queue. *)
Lemma rep_append q s n buf :
  rep q s -> 0 <= n <= buffer_size q - RDMA_QUEUE_PAD - fifo_size s ->
  length buf = length (buffer q) ->
  ring_read buf (rx_off q) (fifo_size s) = ring_read (buffer q) (rx_off q) (fifo_size s) ->
  rep (set_tx_off (adv (buffer_size q) (tx_off q) n) (q <| buffer := buf |>))
    (mk_fifo (visible s) (pending s ++ ring_read buf (tx_off q) n)).
Proof.
  intros R Hn Hlen Hold. pose proof (rep_flush_range q s R) as Hfl.
  assert (Z.of_nat (length (pending s ++ ring_read buf (tx_off q) n)) =
    Z.of_nat (length (pending s)) + n) as Hp
    by (rewrite length_app, ring_read_length; lia).
  apply (rep_intro q _ s); auto; destruct R; unfold fifo_size, RDMA_QUEUE_PAD in *;
    simpl in *; rewrite ?Hp; auto; try lia.
  - rewrite rep_tx0, adv_add by lia. done.
  - rewrite !ring_read_app in Hold by lia.
    apply app_inj_1 in Hold; [|by rewrite !ring_read_length].
    by destruct Hold as [-> _].
  - rewrite !ring_read_app in Hold by lia.
    apply app_inj_1 in Hold; [|by rewrite !ring_read_length].
    destruct Hold as [_ Hold].
    rewrite ring_read_app by lia. f_equal.
    + rewrite rep_flush0, ring_read_adv, Hold by lia. rewrite rep_pending0 at 1.
      rewrite rep_flush0. rewrite ring_read_adv by lia. done.
    + rewrite rep_tx0. apply ring_read_adv; lia.
Qed.

Lemma adv_split bs off sz :
  0 <= off <= bs -> 0 <= sz <= bs -> bs < 2147483648 ->
  (if off + sz >? bs then off + sz - bs else u64 (off + sz)) = adv bs off sz.
Proof. intros. unfold adv. bsplit; [done|]. apply u64_small; lia. Qed.

Lemma rq_enqueue_inplace q s l sz :
  rep q s -> 0 <= sz <= buffer_size q - RDMA_QUEUE_PAD - fifo_size s ->
  exists q', rq_try_enqueue q l None sz = Ok (0, q', l) /\
    rep q' (mk_fifo (visible s) (pending s ++ ring_read (buffer q) (tx_off q) sz)) /\
    q' = set_tx_off (adv (buffer_size q) (tx_off q) sz) q.
Proof.
  intros R Hsz. pose proof (rep_tx_range q s R) as Htx.
  unfold rq_try_enqueue. rewrite (rep_empty q s R).
  rewrite bind_assert_true by (apply Z.eqb_eq; symmetry; apply R). osimpl.
  destruct (Z.gtb_spec sz (buffer_size q - RDMA_QUEUE_PAD - fifo_size s)); [lia|].
  pose proof (rep_bs q s R). unfold RDMA_QUEUE_PAD, fifo_size in *.
  rewrite rq_split_spec by lia.
  assert (rep (set_tx_off (adv (buffer_size q) (tx_off q) sz) q)
    (mk_fifo (visible s) (pending s ++ ring_read (buffer q) (tx_off q) sz))) as Hrep.
  { pose proof (rep_append q s sz (buffer q) R ltac:(unfold RDMA_QUEUE_PAD, fifo_size; lia)
      eq_refl eq_refl) as Hr. destruct q; exact Hr. }
  exists (set_tx_off (adv (buffer_size q) (tx_off q) sz) q).
  split; [|split; [exact Hrep|reflexivity]].
  rewrite <- (adv_split (buffer_size q)) by lia.
  destruct (Z.gtb_spec (tx_off q + sz) (buffer_size q)); osimpl.
  - destruct (Z.gtb_spec (tx_off q + sz - buffer_size q) 0); [|lia]. osimpl.
    by destruct q.
  - rewrite (u64_small sz), Z.eqb_refl by lia. osimpl. by destruct q.
Qed.

Lemma rq_enqueue_data q s l data :
  rep q s ->
  Z.of_nat (length data) <= buffer_size q - RDMA_QUEUE_PAD - fifo_size s ->
  tx_off q + Z.of_nat (length data) <= buffer_size q ->
  exists q', rq_try_enqueue q l (Some data) (Z.of_nat (length data)) = Ok (0, q', l) /\
    rep q' (mk_fifo (visible s) (pending s ++ data)) /\
    tx_off q' = tx_off q + Z.of_nat (length data) /\ rx_off q' = rx_off q /\
    buffer_size q' = buffer_size q.
Proof.
  intros R Hsz Hlin. pose proof (rep_tx_range q s R) as Htx.
  pose proof (rep_buf q s R) as Hbuf.
  unfold rq_try_enqueue. rewrite (rep_empty q s R).
  rewrite bind_assert_true by (apply Z.eqb_eq; symmetry; apply R). osimpl.
  set (sz := Z.of_nat (length data)) in *.
  destruct (Z.gtb_spec sz (buffer_size q - RDMA_QUEUE_PAD - fifo_size s)); [lia|].
  pose proof (rep_bs q s R) as Hbs.
  assert (0 <= fifo_size s) by (unfold fifo_size; lia).
  unfold RDMA_QUEUE_PAD in *.
  rewrite rq_split_spec by lia.
  destruct (Z.gtb_spec (tx_off q + sz) (buffer_size q)); [lia|]. osimpl.
  rewrite (mem_read_Ok data 0 sz) by lia. osimpl.
  replace (take (Z.to_nat sz) (drop (Z.to_nat 0) data)) with data
    by (rewrite drop_0, take_ge by lia; done).
  destruct (mem_write (buffer q) (tx_off q) data) as [buf|] eqn:Hw;
    [|rewrite mem_write_Ok in Hw by lia; discriminate].
  osimpl. rewrite (u64_small sz), Z.eqb_refl by lia. osimpl.
  rewrite (u64_small (tx_off q + sz)) by lia.
  eexists. split; [reflexivity|].
  split; [|done].
  pose proof (rep_append q s sz buf R ltac:(unfold RDMA_QUEUE_PAD; lia)
    (mem_write_length _ _ _ _ Hw)) as Hr.
  pose proof (ring_write_same _ _ _ _ Hw) as Hsame. fold sz in Hsame.
  rewrite Hsame in Hr.
  replace (adv (buffer_size q) (tx_off q) sz) with (tx_off q + sz) in Hr
    by (unfold adv; bsplit; lia).
  apply Hr. eapply ring_write_other; [exact Hw| |fold sz; lia].
  rewrite (rep_tx_rx q s R), Hbuf. apply adv_mod. lia.
Qed.

(** What the code stores of data that crosses the end of the ring, [k] bytes ahead: the
    second part is taken from the offset that is its length, not from [k]. *)
Definition stored (k : Z) (data : list Z) : list Z :=
  let b2 := Z.of_nat (length data) - k in
  take (Z.to_nat k) data ++ take (Z.to_nat b2) (drop (Z.to_nat b2) data).

Lemma rq_enqueue_wrap q s l data :
  rep q s -> Z.of_nat (length data) <= buffer_size q - RDMA_QUEUE_PAD - fifo_size s ->
  let b1 := buffer_size q - tx_off q in
  b1 < Z.of_nat (length data) <= 2 * b1 ->
  exists q', rq_try_enqueue q l (Some data) (Z.of_nat (length data)) = Ok (0, q', l) /\
    rep q' (mk_fifo (visible s) (pending s ++ stored b1 data)).
Proof.
  intros R Hsz b1 Hb. pose proof (rep_tx_range q s R) as Htx. pose proof (rep_buf q s R) as Hbuf.
  pose proof (rep_bs q s R) as Hbs. assert (0 <= fifo_size s) by (unfold fifo_size; lia). unfold RDMA_QUEUE_PAD in *.
  unfold rq_try_enqueue. rewrite (rep_empty q s R).
  rewrite bind_assert_true by (apply Z.eqb_eq; symmetry; apply R). osimpl. unfold RDMA_QUEUE_PAD.
  set (sz := Z.of_nat (length data)) in *. destruct (Z.gtb_spec sz (buffer_size q - 8 - fifo_size s)); [lia|].
  rewrite rq_split_spec by lia. destruct (Z.gtb_spec (tx_off q + sz) (buffer_size q)); [|lia]. osimpl.
  fold b1. replace (tx_off q + sz - buffer_size q) with (sz - b1) by (unfold b1; lia). set (b2 := sz - b1) in *.
  rewrite (mem_read_Ok data 0 b1) by lia. change (Z.to_nat 0) with 0%nat. rewrite drop_0. osimpl.
  assert (Z.of_nat (length (take (Z.to_nat b1) data)) = b1) as L1 by (rewrite length_take; lia).
  destruct (mem_write (buffer q) (tx_off q) (take (Z.to_nat b1) data)) as [buf1|] eqn:W1; [|rewrite mem_write_Ok in W1 by lia; discriminate].
  pose proof (mem_write_length _ _ _ _ W1) as Len1. osimpl. destruct (Z.gtb_spec b2 0); [|lia].
  rewrite (mem_read_Ok data b2 b2) by lia. osimpl. set (d2 := take (Z.to_nat b2) (drop (Z.to_nat b2) data)).
  assert (Z.of_nat (length d2) = b2) as L2 by (unfold d2; rewrite length_take, length_drop; lia).
  destruct (mem_write buf1 0 d2) as [buf2|] eqn:W2; [|rewrite mem_write_Ok in W2 by lia; discriminate].
  pose proof (mem_write_length _ _ _ _ W2) as Len2. osimpl.
  assert (forall p n, (p + n) mod buffer_size q = tx_off q mod buffer_size q -> 0 <= n -> n + b1 + b2 <= buffer_size q ->
    ring_read buf2 p n = ring_read (buffer q) p n) as Hold.
  { intros p n Hp Hn Hf. assert (ring_read buf2 p (n + b1) = ring_read buf1 p (n + b1)) as E2.
    { eapply ring_write_other; [exact W2| |lia]. rewrite Len1, Hbuf. replace (p + (n + b1)) with (p + n + b1) by lia.
      rewrite <- Z.add_mod_idemp_l, Hp, Z.add_mod_idemp_l by lia. replace (tx_off q + b1) with (buffer_size q) by (unfold b1; lia).
      by rewrite Z_mod_same_full. }
    rewrite !ring_read_app in E2 by lia. apply app_inj_1 in E2 as [-> _]; [|by rewrite !ring_read_length].
    eapply ring_write_other; [exact W1| |lia]. by rewrite Hbuf, Hp. }
  assert (ring_read buf2 (tx_off q) sz = stored b1 data) as Hnew.
  { replace sz with (b1 + b2) by (unfold b2; lia). rewrite ring_read_app by lia. unfold stored. fold sz b2. f_equal.
    - assert (ring_read buf2 (tx_off q) b1 = ring_read buf1 (tx_off q) b1) as ->.
      { eapply ring_write_other; [exact W2| |lia]. rewrite Len1, Hbuf. replace (tx_off q + b1) with (buffer_size q) by (unfold b1; lia).
        by rewrite Z_mod_same_full. }
      pose proof (ring_write_same _ _ _ _ W1) as E. by rewrite L1 in E.
    - pose proof (ring_write_same _ _ _ _ W2) as E. rewrite L2 in E. fold d2. rewrite <- E. apply ring_read_mod.
      rewrite Len2, Len1, Hbuf. replace (tx_off q + b1) with (buffer_size q) by (unfold b1; lia). by rewrite Z_mod_same_full. }
  eexists. split; [reflexivity|].
  pose proof (rep_append q s sz buf2 R ltac:(unfold RDMA_QUEUE_PAD; lia) ltac:(lia)) as Hr. rewrite Hnew in Hr.
  replace (adv (buffer_size q) (tx_off q) sz) with b2 in Hr by (unfold adv, b2, b1; bsplit; lia).
  apply Hr, Hold; [|lia|unfold b2; lia]. rewrite (rep_tx_rx q s R). symmetry. apply adv_mod. lia.
Qed.

Lemma rq_enqueue_full q s l src sz :
  rep q s -> buffer_size q - RDMA_QUEUE_PAD - fifo_size s < sz ->
  exists q', rq_try_enqueue q l src sz = Ok (1, q', l) /\
    rep q' (fifo_flush (Z.of_nat (length (pending s))) s) /\
    rx_off q' = rx_off q /\ tx_off q' = tx_off q /\ buffer_size q' = buffer_size q.
Proof.
  intros R Hsz. unfold rq_try_enqueue. rewrite (rep_empty q s R).
  rewrite bind_assert_true by (apply Z.eqb_eq; symmetry; apply R). osimpl.
  destruct (Z.gtb_spec sz (buffer_size q - RDMA_QUEUE_PAD - fifo_size s)); [|lia].
  unfold rq_flush. rewrite (rep_to_flush q s R). osimpl.
  destruct (rq_nflush_local q s l (Z.of_nat (length (pending s))) R)
    as (q' & -> & R' & _ & ? & ? & ?); [lia|]. osimpl.
  destruct (Z.ltb_spec (Z.of_nat (length (pending s)) `min` Z.of_nat (length (pending s))) 0);
    [lia|]. eauto 8.
Qed.

Lemma rq_dequeue_local q s want sz dq :
  rep q s -> 0 <= sz ->
  let '(rv, data, s') := fifo_dequeue sz s in
  exists q', rq_try_possible_dequeue q want sz dq =
      Ok (rv, if want then data else [], q') /\
    rep q' (if dq then s' else s) /\ buffer_size q' = buffer_size q /\
    buffer q' = buffer q /\ tx_off q' = tx_off q /\ flush_offset q' = flush_offset q /\
    rx_off q' = (if dq then if rv =? 0 then adv (buffer_size q) (rx_off q) sz
                 else rx_off q else rx_off q).
Proof.
  intros R Hsz. pose proof R as [].
  unfold rq_try_possible_dequeue, fifo_dequeue. rewrite (rep_enqueued q s R).
  rewrite bind_assert_true by (apply Z.eqb_eq; symmetry; apply R). osimpl.
  unfold fifo_size, RDMA_QUEUE_PAD in *. set (v := Z.of_nat (length (visible s))) in *.
  rewrite i32_small, u64_small by lia.
  destruct (Z.ltb_spec v sz) as [Hlt|Hge]; osimpl.
  { exists q. destruct want, dq; auto 10. }
  rewrite rq_split_spec by lia.
  rewrite rep_visible0, ring_take by lia.
  set (off' := adv (buffer_size q) (rx_off q) sz).
  assert (rep (set_rx_off off' q)
    (mk_fifo (drop (Z.to_nat sz) (visible s)) (pending s))) as Hrep.
  { pose proof (adv_range (buffer_size q) (rx_off q) sz ltac:(lia) ltac:(lia)).
    assert (Z.of_nat (length (drop (Z.to_nat sz) (visible s))) = v - sz) as Hl
      by (rewrite length_drop; lia).
    apply (rep_intro q _ s); auto; simpl; unfold fifo_size, RDMA_QUEUE_PAD; simpl;
      rewrite ?Hl; auto; try lia.
    - unfold off'. rewrite adv_add by lia. rewrite rep_flush0. f_equal. lia.
    - rewrite rep_visible0 at 1. fold v. rewrite ring_drop by lia.
      unfold off'. rewrite ring_read_adv by lia. done. }
  fold v in Hrep. rewrite rep_visible0 in Hrep.
  exists (if dq then set_rx_off off' q else q).
  split; [|destruct dq; auto 10].
  destruct (Z.gtb_spec (rx_off q + sz) (buffer_size q)) as [Hw|Hl]; osimpl.
  - destruct (Z.gtb_spec (rx_off q + sz - buffer_size q) 0); [|lia].
    replace (rx_off q + sz - buffer_size q) with off' by (unfold off', adv; bsplit; lia).
    assert (0 <= off' <= buffer_size q) by (apply adv_range; lia).
    destruct want; osimpl; [|by destruct dq].
    rewrite (mem_read_ring _ (rx_off q)), (mem_read_ring _ 0) by lia. osimpl.
    assert (ring_read (buffer q) (rx_off q) sz =
      ring_read (buffer q) (rx_off q) (buffer_size q - rx_off q) ++
      ring_read (buffer q) 0 off') as ->; [|by destruct dq].
    replace sz with ((buffer_size q - rx_off q) + off')
      by (unfold off', adv; bsplit; lia).
    rewrite ring_read_app by lia. f_equal.
    rewrite <- ring_read_wrap. f_equal. lia.
  - rewrite (u64_small sz), Z.eqb_refl by lia. osimpl.
    rewrite u64_small by lia.
    replace (rx_off q + sz) with off' by (unfold off', adv; bsplit; lia).
    destruct want; osimpl; [|by destruct dq].
    rewrite (mem_read_ring _ (rx_off q) sz) by lia. change (0 >? 0) with false. osimpl.
    by rewrite app_nil_r.
Qed.

End Refine.

(** ** The producer's view

    What the producer relies on, paired or not: the [u] bytes before the tail
    are in use, the rest of the ring but the padding is free. *)
Definition used_base (q : rdma_queue) : Z :=
  if paired q && is_tx q then flush_offset q else rx_off q.

Record producer (q : rdma_queue) (u : Z) : Prop := {
  pr_tx_self : ep_addr (tx q) = self q;
  pr_rx_self : is_tx q = false -> ep_addr (rx q) = self q;
  pr_bs : RDMA_QUEUE_PAD < buffer_size q < 2147418112;
  pr_buf : Z.of_nat (length (buffer q)) = buffer_size q;
  pr_base : 0 <= used_base q <= buffer_size q;
  pr_used : 0 <= u <= buffer_size q - RDMA_QUEUE_PAD;
  pr_tx : tx_off q = adv (buffer_size q) (used_base q) u;
}.

Section Producer.
Context {L : Type} `{RdmaLink L}.

Lemma producer_tx_range q u : producer q u -> 0 <= tx_off q <= buffer_size q.
Proof. intros []. rewrite pr_tx0. unfold RDMA_QUEUE_PAD in *. apply adv_range; lia. Qed.

Lemma producer_empty q u :
  producer q u -> rq_nbytes_empty q = Ok (buffer_size q - RDMA_QUEUE_PAD - u).
Proof.
  intros []. unfold rq_nbytes_empty, used_base, RDMA_QUEUE_PAD in *.
  assert (forall base, 0 <= base <= buffer_size q -> tx_off q = adv (buffer_size q) base u ->
    rq_nbytes q base (tx_off q) true = Ok u) as Hn.
  { intros base Hb ->. apply rq_nbytes_adv; [unfold RDMA_QUEUE_PAD; lia|lia|unfold RDMA_QUEUE_PAD; lia|by left]. }
  assert ((if paired q then if is_tx q then rq_nbytes_to_flush q else rq_nbytes_enqueued q
           else rq_nbytes q (rx_off q) (tx_off q) true) = Ok u) as ->.
  { destruct (paired q) eqn:Hp; [destruct (is_tx q) eqn:Ht|]; simpl in *.
    - unfold rq_nbytes_to_flush. rewrite bind_assert_true by (by apply Z.eqb_eq). by apply Hn.
    - unfold rq_nbytes_enqueued. rewrite Hp, bind_assert_true by (apply Z.eqb_eq; auto). by apply Hn.
    - by apply Hn. }
  osimpl. unfold RDMA_QUEUE_PAD. rewrite i32_small, u64_small by lia. f_equal. lia.
Qed.

Lemma producer_enqueue q u (l : L) n :
  producer q u -> 0 <= n <= buffer_size q - RDMA_QUEUE_PAD - u ->
  rq_try_enqueue q l None n = Ok (0, set_tx_off (adv (buffer_size q) (tx_off q) n) q, l) /\
  producer (set_tx_off (adv (buffer_size q) (tx_off q) n) q) (u + n).
Proof.
  intros P Hn. pose proof (producer_tx_range q u P) as Htx.
  pose proof (pr_bs q u P) as Hbs. pose proof (pr_used q u P) as Hu. unfold RDMA_QUEUE_PAD in *. split.
  - unfold rq_try_enqueue. rewrite (producer_empty q u P).
    rewrite bind_assert_true by (apply Z.eqb_eq; symmetry; apply P). osimpl. unfold RDMA_QUEUE_PAD.
    destruct (Z.gtb_spec n (buffer_size q - 8 - u)); [lia|].
    rewrite rq_split_spec by lia. rewrite <- (adv_split (buffer_size q)) by lia.
    destruct (Z.gtb_spec (tx_off q + n) (buffer_size q)); osimpl.
    + destruct (Z.gtb_spec (tx_off q + n - buffer_size q) 0); [|lia]. osimpl. by destruct q.
    + rewrite (u64_small n), Z.eqb_refl by lia. osimpl. by destruct q.
  - destruct P. split; simpl; unfold RDMA_QUEUE_PAD in *; auto; try lia.
    rewrite pr_tx0. unfold used_base in *. simpl. apply adv_add; lia.
Qed.

Lemma rep_producer q s :
  rep q s -> buffer_size q < 2147418112 -> producer q (fifo_size s).
Proof.
  intros R Hbs. pose proof (rep_tx_rx q s R). destruct R. split; unfold used_base; rewrite ?rep_unpaired0; auto.
  - lia.
  - unfold fifo_size in *. lia.
Qed.

End Producer.

(** ** Traces of operations *)

Inductive rq_op : Type :=
  | OpEnqueueInPlace (sz : Z)
  | OpEnqueue (data : list Z)
  | OpDequeue (sz : Z)
  | OpPeek (sz : Z)
  | OpFlush (n : Z).

Definition op_arg (o : rq_op) : Z :=
  match o with
  | OpEnqueueInPlace n | OpDequeue n | OpPeek n | OpFlush n => n
  | OpEnqueue data => Z.of_nat (length data)
  end.

Section Traces.
Context {L : Type} `{RdmaLink L}.

Definition rq_step (q : rdma_queue) (l : L) (o : rq_op)
  : outcome (Z * list Z * rdma_queue * L) :=
  match o with
  | OpEnqueueInPlace sz =>
      '(rv, q, l) ← rq_try_enqueue q l None sz; mret (rv, [], q, l)
  | OpEnqueue data =>
      '(rv, q, l) ← rq_try_enqueue q l (Some data) (Z.of_nat (length data)); mret (rv, [], q, l)
  | OpDequeue sz => '(rv, d, q) ← rq_try_dequeue q true sz; mret (rv, d, q, l)
  | OpPeek sz => '(rv, d, q) ← rq_try_peek q true sz; mret (rv, d, q, l)
  | OpFlush n => '(rv, q, l) ← rq_nflush q l n; mret (rv, [], q, l)
  end.

Fixpoint rq_run (q : rdma_queue) (l : L) (ops : list rq_op)
  : outcome (list (Z * list Z) * rdma_queue * L) :=
  match ops with
  | [] => mret ([], q, l)
  | o :: ops =>
      '(rv, d, q, l) ← rq_step q l o;
      '(outs, q, l) ← rq_run q l ops;
      mret ((rv, d) :: outs, q, l)
  end.
End Traces.

(** What the FIFO may answer: an enqueue appends its data, in place the bytes its
    caller has put at the tail. *)
Inductive fifo_step (room : Z) : rq_op -> fifo -> Z * list Z -> fifo -> Prop :=
  | fifo_step_enqueue s data :
      Z.of_nat (length data) <= room - fifo_size s ->
      fifo_step room (OpEnqueueInPlace (Z.of_nat (length data))) s (0, [])
        (mk_fifo (visible s) (pending s ++ data))
  | fifo_step_full s sz :
      room - fifo_size s < sz ->
      fifo_step room (OpEnqueueInPlace sz) s (1, [])
        (mk_fifo (visible s ++ pending s) [])
  | fifo_step_enqueue_data s data :
      Z.of_nat (length data) <= room - fifo_size s ->
      fifo_step room (OpEnqueue data) s (0, []) (mk_fifo (visible s) (pending s ++ data))
  | fifo_step_full_data s data :
      room - fifo_size s < Z.of_nat (length data) ->
      fifo_step room (OpEnqueue data) s (1, []) (mk_fifo (visible s ++ pending s) [])
  | fifo_step_dequeue s sz rv data s' :
      fifo_dequeue sz s = (rv, data, s') ->
      fifo_step room (OpDequeue sz) s (rv, data) s'
  | fifo_step_peek s sz rv data s' :
      fifo_dequeue sz s = (rv, data, s') ->
      fifo_step room (OpPeek sz) s (rv, data) s
  | fifo_step_flush s n :
      fifo_step room (OpFlush n) s
        (Z.min n (Z.of_nat (length (pending s))), []) (fifo_flush n s).

Inductive fifo_run (room : Z) : list rq_op -> fifo -> list (Z * list Z) -> fifo -> Prop :=
  | fifo_run_nil s : fifo_run room [] s [] s
  | fifo_run_cons o ops s out s1 outs s2 :
      fifo_step room o s out s1 -> fifo_run room ops s1 outs s2 ->
      fifo_run room (o :: ops) s (out :: outs) s2.

Section TraceProofs.
Context {L : Type} `{RdmaLink L}.

Lemma fifo_flush_all s n :
  Z.of_nat (length (pending s)) <= n ->
  fifo_flush n s = mk_fifo (visible s ++ pending s) [].
Proof. intros. unfold fifo_flush. by rewrite take_ge, drop_ge by lia. Qed.

(** An enqueue of data that there is room for and that crosses the end of the ring. *)
Definition crosses (q : rdma_queue) (s : fifo) (o : rq_op) : bool :=
  match o with
  | OpEnqueue data => (Z.of_nat (length data) <=? buffer_size q - RDMA_QUEUE_PAD - fifo_size s) &&
                      (buffer_size q <? tx_off q + Z.of_nat (length data))
  | _ => false
  end.

Lemma rq_step_refines q s l o :
  rep q s -> 0 <= op_arg o -> crosses q s o = false ->
  exists rv d q' s', rq_step q l o = Ok (rv, d, q', l) /\
    fifo_step (buffer_size q - RDMA_QUEUE_PAD) o s (rv, d) s' /\ rep q' s' /\
    buffer_size q' = buffer_size q.
Proof.
  intros R Ho Hx. destruct o as [sz|data|sz|sz|n]; simpl in *.
  - destruct (Z.le_gt_cases sz (buffer_size q - RDMA_QUEUE_PAD - fifo_size s)).
    + destruct (rq_enqueue_inplace q s l sz R) as (q' & -> & R' & Hq); [lia|].
      osimpl. do 4 eexists. split; [reflexivity|]. split; [|split; [exact R'|by subst]].
      pose proof (ring_read_length (buffer q) (tx_off q) sz) as Hl.
      replace sz with (Z.of_nat (length (ring_read (buffer q) (tx_off q) sz))) at 1 by lia.
      constructor. lia.
    + destruct (rq_enqueue_full q s l None sz R) as (q' & -> & R' & ?); [lia|].
      osimpl. do 4 eexists. split; [reflexivity|].
      split; [|split; [exact R'|tauto]].
      rewrite fifo_flush_all by lia. by constructor.
  - destruct (Z.leb_spec (Z.of_nat (length data)) (buffer_size q - RDMA_QUEUE_PAD - fifo_size s)) as [Hf|Hf].
    + apply Z.ltb_ge in Hx. destruct (rq_enqueue_data q s l data R Hf Hx) as (q' & -> & R' & _ & _ & ?).
      osimpl. do 4 eexists. split; [reflexivity|]. split; [by constructor|done].
    + destruct (rq_enqueue_full q s l (Some data) _ R Hf) as (q' & -> & R' & ?).
      osimpl. do 4 eexists. split; [reflexivity|].
      split; [|split; [exact R'|tauto]].
      rewrite fifo_flush_all by lia. by constructor.
  - pose proof (rq_dequeue_local q s true sz true R Ho) as Hd.
    destruct (fifo_dequeue sz s) as [[rv d] s'] eqn:E. destruct Hd as (q' & Hq & R' & ? & _).
    unfold rq_try_dequeue. rewrite Hq. osimpl. do 4 eexists. split; [reflexivity|].
    split; [by constructor|]. split; [exact R'|tauto].
  - pose proof (rq_dequeue_local q s true sz false R Ho) as Hd.
    destruct (fifo_dequeue sz s) as [[rv d] s'] eqn:E. destruct Hd as (q' & Hq & R' & ? & _).
    unfold rq_try_peek. rewrite Hq. osimpl. do 4 eexists. split; [reflexivity|].
    split; [by econstructor|]. split; [exact R'|tauto].
  - destruct (rq_nflush_local q s l n R) as (q' & -> & R' & ?); [lia|]. osimpl.
    do 4 eexists. split; [reflexivity|].
    split; [constructor|]. split; [exact R'|tauto].
Qed.

(** Code bug: an enqueue that crosses the end of the ring copies its second
    part from offset [b2] of the source instead of [b1]; when the second part is
    the longer one this reads past the source. In particular every enqueue at
    the very end of the ring does, although it fits. *)
Theorem rq_enqueue_wrap_oob q s l data
  (R : rep q s)
  (Hfits : Z.of_nat (length data) <= buffer_size q - RDMA_QUEUE_PAD - fifo_size s)
  (Hwrap : buffer_size q - tx_off q < tx_off q + Z.of_nat (length data) - buffer_size q) :
  rq_try_enqueue q l (Some data) (Z.of_nat (length data)) = Stop OutOfBounds.
Proof.
  pose proof (rep_tx_range q s R). pose proof (rep_buf q s R). pose proof (rep_bs q s R).
  assert (0 <= fifo_size s) by (unfold fifo_size; lia).
  unfold rq_try_enqueue. rewrite (rep_empty q s R).
  rewrite bind_assert_true by (apply Z.eqb_eq; symmetry; apply R). osimpl.
  unfold RDMA_QUEUE_PAD in *. set (sz := Z.of_nat (length data)) in *.
  destruct (Z.gtb_spec sz (buffer_size q - 8 - fifo_size s)); [lia|].
  rewrite rq_split_spec by lia.
  destruct (Z.gtb_spec (tx_off q + sz) (buffer_size q)); [|lia]. osimpl.
  rewrite (mem_read_Ok data 0) by lia. osimpl.
  rewrite mem_write_Ok; cycle 1; [lia| |].
  { rewrite length_take, length_drop. lia. }
  osimpl. destruct (Z.gtb_spec (tx_off q + sz - buffer_size q) 0); [|lia].
  rewrite mem_read_oob by (fold sz; lia). reflexivity.
Qed.

(** What such an enqueue does: one half is stored wrongly, or memory behind the data
    is read. *)
Lemma crossing_step q s l data : rep q s -> crosses q s (OpEnqueue data) = true ->
  let b1 := buffer_size q - tx_off q in
  if Z.of_nat (length data) <=? 2 * b1
  then exists q', rq_step q l (OpEnqueue data) = Ok (0, [], q', l) /\ rep q' (mk_fifo (visible s) (pending s ++ stored b1 data))
  else rq_step q l (OpEnqueue data) = Stop OutOfBounds.
Proof.
  intros R Hx b1. cbn [crosses] in Hx. bprop. cbn [rq_step]. destruct (Z.leb_spec (Z.of_nat (length data)) (2 * b1)).
  - destruct (rq_enqueue_wrap q s l data R) as (q' & -> & R'); [done|fold b1; lia|]. osimpl. by exists q'.
  - by rewrite (rq_enqueue_wrap_oob q s l data R) by (unfold b1 in *; lia).
Qed.

(** C2. Refinement: from any state in which an unpaired queue represents a FIFO, every
    trace of enqueues (of data or in place), dequeues, peeks and flushes runs without
    failing an assertion or leaving the buffer, answers what the bounded FIFO answers,
    and represents the FIFO's state, to its end or up to the first enqueue of data that
    crosses the end of the ring. That one takes its second part from the wrong offset
    (rdma_queue.c:33): it stores other bytes, or reads behind the data. *)
Theorem rq_run_refines q s l ops
  (R : rep q s) (Hargs : Forall (fun o => 0 <= op_arg o) ops) :
  exists ran outs q' s', rq_run q l ran = Ok (outs, q', l) /\
    fifo_run (buffer_size q - RDMA_QUEUE_PAD) ran s outs s' /\ rep q' s' /\
    (ran = ops \/ exists data rest, ops = ran ++ OpEnqueue data :: rest /\ crosses q' s' (OpEnqueue data) = true /\
       let b1 := buffer_size q' - tx_off q' in
       if Z.of_nat (length data) <=? 2 * b1
       then exists q2, rq_step q' l (OpEnqueue data) = Ok (0, [], q2, l) /\
              rep q2 (mk_fifo (visible s') (pending s' ++ stored b1 data))
       else rq_step q' l (OpEnqueue data) = Stop OutOfBounds).
Proof.
  revert q s R. induction Hargs as [|o ops Ho _ IH]; intros q s R.
  - exists []. do 3 eexists. split; [reflexivity|]. split; [constructor|]. split; [exact R|by left].
  - destruct (crosses q s o) eqn:Hx.
    + destruct o as [|data| | |]; try discriminate Hx. exists [], [], q, s. split; [done|]. split; [constructor|]. split; [exact R|].
      right. exists data, ops. split; [done|]. split; [done|]. by apply crossing_step.
    + destruct (rq_step_refines q s l o R Ho Hx) as (rv & d & q1 & s1 & E1 & Hs & R1 & Hb).
      destruct (IH q1 s1 R1) as (ran & outs & q' & s' & E & Hr & R' & Hend). rewrite Hb in Hr.
      exists (o :: ran), ((rv, d) :: outs), q', s'. cbn [rq_run]. rewrite E1. osimpl. rewrite E. osimpl.
      split; [done|]. split; [by econstructor|]. split; [exact R'|].
      destruct Hend as [->|(data & rest & -> & Hc)]; [by left|right]. by exists data, rest.
Qed.

(** Allocation: carving a queue out of enough raw memory gives an empty
    queue over [nbytes - sizeof(struct rdma_queue)] bytes, of which all but the
    pad are usable. *)
Theorem rq_allocate_rep addr raw nbytes qpair lkey rkey
  (Hsz : SIZEOF_RDMA_QUEUE + RDMA_QUEUE_PAD < nbytes < 2147483648)
  (Hraw : nbytes <= Z.of_nat (length raw)) :
  exists q, rq_allocate_in_place addr raw nbytes qpair lkey rkey = Some q /\
    rep q (mk_fifo [] []) /\ buffer_size q = nbytes - SIZEOF_RDMA_QUEUE /\
    rq_nbytes_empty q = Ok (nbytes - SIZEOF_RDMA_QUEUE - RDMA_QUEUE_PAD).
Proof.
  unfold rq_allocate_in_place, SIZEOF_RDMA_QUEUE, RDMA_QUEUE_PAD, OFFSETOF_BUFFER in *.
  rewrite u64_small, i32_small by lia. rewrite (proj2 (Z.leb_gt _ _)) by lia.
  set (buf := take _ _).
  assert (Z.of_nat (length buf) = nbytes - 88) as Hbuf.
  { unfold buf. rewrite length_take, length_drop, length_app, length_replicate, length_drop.
    lia. }
  clearbody buf. eexists. split; [reflexivity|].
  match goal with |- rep ?q _ /\ _ => assert (rep q (mk_fifo [] [])) as R end.
  { constructor; unfold RDMA_QUEUE_PAD, fifo_size; simpl; try done; try lia;
      symmetry; apply adv_zero; lia. }
  split; [exact R|]. split; [reflexivity|].
  rewrite (rep_empty _ _ R). f_equal. unfold fifo_size, RDMA_QUEUE_PAD. simpl. lia.
Qed.

(** Round trip: on a queue with nothing pending, bytes enqueued before the
    end of the ring and then flushed come out of a dequeue after the bytes that
    were there, in order, and the queue is empty again. *)
Theorem rq_roundtrip q s l data
  (R : rep q s) (Hp : pending s = [])
  (Hfits : Z.of_nat (length data) <= buffer_size q - RDMA_QUEUE_PAD - fifo_size s)
  (Hlin : tx_off q + Z.of_nat (length data) <= buffer_size q) :
  exists q1 q2 q3,
    rq_try_enqueue q l (Some data) (Z.of_nat (length data)) = Ok (0, q1, l) /\
    rq_flush q1 l = Ok (Z.of_nat (length data), q2, l) /\
    rq_try_dequeue q2 true (fifo_size s + Z.of_nat (length data)) =
      Ok (0, visible s ++ data, q3) /\
    rep q3 (mk_fifo [] []).
Proof.
  destruct (rq_enqueue_data q s l data R Hfits Hlin) as (q1 & He & R1 & _).
  rewrite Hp in R1. simpl in R1.
  destruct (rq_nflush_local q1 _ l (Z.of_nat (length data)) R1)
    as (q2 & Hf & R2 & _); [lia|]. simpl in Hf. rewrite Z.min_id in Hf.
  rewrite fifo_flush_all in R2 by done. simpl in R2.
  set (n := fifo_size s + Z.of_nat (length data)).
  assert (n = Z.of_nat (length (visible s ++ data))) as Hn
    by (unfold n, fifo_size; rewrite Hp, length_app; simpl; lia).
  pose proof (rq_dequeue_local q2 _ true n true R2 ltac:(lia)) as Hd.
  unfold fifo_dequeue in Hd. simpl in Hd. rewrite Hn in Hd.
  rewrite Z.ltb_irrefl, Nat2Z.id, take_ge, drop_ge in Hd by done.
  destruct Hd as (q3 & Hd & R3 & _).
  exists q1, q2, q3. split; [exact He|]. split.
  - unfold rq_flush. by rewrite (rep_to_flush _ _ R1).
  - split; [|exact R3]. unfold rq_try_dequeue. by rewrite Hn.
Qed.

(** Reservation: on an unpaired queue [rq_try_reserve_flush] answers 1
    exactly when the bytes fit, where the pad is kept free only while nothing
    is visible. *)
Theorem rq_reserve_spec q s l n
  (R : rep q s) (Hn : 0 <= n < 2147483648) :
  rq_try_reserve_flush q l n =
    Ok (c_bool (fifo_size s + n <=?
          if Z.of_nat (length (visible s)) =? 0
          then buffer_size q - RDMA_QUEUE_PAD else buffer_size q), q, l).
Proof.
  unfold rq_try_reserve_flush.
  rewrite bind_assert_true by (apply Z.eqb_eq; apply R). simpl.
  rewrite (rep_max_flush q s R), (rep_to_flush q s R). osimpl.
  rewrite (rep_unpaired q s R). osimpl.
  pose proof (rep_fits q s R) as Hf. pose proof (rep_bs q s R) as Hb.
  unfold fifo_size, RDMA_QUEUE_PAD in *.
  rewrite (u64_small (_ + n)) by lia.
  rewrite u64_small by (destruct (_ =? 0); lia).
  destruct (Z.eqb_spec (Z.of_nat (length (visible s))) 0); unfold c_bool;
    bsplit; try lia; reflexivity.
Qed.

(** Code bug: a successful reservation does not mean that the enqueue that
    follows it succeeds. With the last [n] bytes of the ring free (the pad
    counted), the reservation of [n] bytes answers 1 and the enqueue answers 1
    ("full"), which callers such as [fast_kernel_packet] exclude by an
    assertion. *)
Theorem rq_reserve_enqueue_gap q s l data
  (R : rep q s) (Hvis : visible s <> [])
  (Hlast : fifo_size s + Z.of_nat (length data) = buffer_size q)
  (Hn : (0 < length data)%nat) :
  rq_try_reserve_flush q l (Z.of_nat (length data)) = Ok (1, q, l) /\
  exists q', rq_try_enqueue q l (Some data) (Z.of_nat (length data)) = Ok (1, q', l).
Proof.
  pose proof (rep_bs q s R). unfold fifo_size in Hlast.
  assert (Z.of_nat (length (visible s)) <> 0) by (by destruct (visible s)).
  split.
  - rewrite (rq_reserve_spec q s l _ R) by lia. unfold fifo_size.
    rewrite (proj2 (Z.eqb_neq _ _)) by done. by rewrite (proj2 (Z.leb_le _ _)) by lia.
  - destruct (rq_enqueue_full q s l (Some data) (Z.of_nat (length data)) R)
      as (q' & ? & _); [|eauto]. unfold fifo_size, RDMA_QUEUE_PAD. lia.
Qed.

End TraceProofs.

(** ** Paired queues: flushing to a peer

    A link whose verbs complete at once against the peer's copy of the ring. *)
Record peer := mk_peer { peer_buf : list Z; peer_rx : Z; peer_tx : Z }.
#[export] Instance eta_peer : Eta peer := fun p =>
  mk_peer (peer_buf p) (peer_rx p) (peer_tx p).

#[export] Instance PeerLink : RdmaLink peer := {
  post_write_buf p pos d :=
    match mem_write (peer_buf p) pos d with
    | Ok b => (0, p <| peer_buf := b |>)
    | Stop _ => (-1, p)
    end;
  post_write_tx p v := (0, p <| peer_tx := v |>);
  post_read_rx p _ := (0, peer_rx p, p);
  post_write_endpoints p e_rx e_tx :=
    (0, p <| peer_rx := ep_offset e_rx |> <| peer_tx := ep_offset e_tx |>);
}.

(** A paired transmitter with [p] pending bytes, all of which the receiver's
    offset, as last read, leaves room for. *)
Record ready (q : rdma_queue) (pl : peer) (p : Z) : Prop := {
  ready_paired : paired q = true;
  ready_self : ep_addr (tx q) = self q;
  ready_bs : RDMA_QUEUE_PAD < buffer_size q < 2147483648;
  ready_buf : Z.of_nat (length (buffer q)) = buffer_size q;
  ready_peer : Z.of_nat (length (peer_buf pl)) = buffer_size q;
  ready_flush : 0 <= flush_offset q <= buffer_size q;
  ready_pending : 0 < p <= buffer_size q - RDMA_QUEUE_PAD;
  ready_tx : tx_off q = adv (buffer_size q) (flush_offset q) p;
  ready_room : exists m, rq_nbytes_max_flush q = Ok m /\ p <= m < 2147483648;
}.

Lemma ready_to_flush q pl p : ready q pl p -> rq_nbytes_to_flush q = Ok p.
Proof.
  intros []. unfold rq_nbytes_to_flush.
  rewrite bind_assert_true by (by apply Z.eqb_eq). rewrite ready_tx0.
  apply rq_nbytes_adv; auto; lia.
Qed.

(** One round of copying: it lands where it should and nowhere else. *)
Lemma rq_flush_bytes_peer q pl p :
  ready q pl p ->
  exists q' pl', rq_flush_bytes q pl p = Ok (Some q', q', pl') /\
    q' = q <| flush_offset := tx_off q |> /\
    peer_rx pl' = peer_rx pl /\
    length (peer_buf pl') = length (peer_buf pl) /\
    ring_read (peer_buf pl') (flush_offset q) p =
      ring_read (buffer q) (flush_offset q) p /\
    ring_read (peer_buf pl') (flush_offset q + p) (buffer_size q - p) =
      ring_read (peer_buf pl) (flush_offset q + p) (buffer_size q - p).
Proof.
  intros []. unfold rq_flush_bytes, RDMA_QUEUE_PAD in *. set (fo := flush_offset q) in *.
  rewrite (proj2 (Z.gtb_lt p 0)) by lia. rewrite rq_split_spec by lia.
  set (bs := buffer_size q) in *.
  assert (forall pos src, 0 <= pos -> pos + Z.of_nat (length src) <= bs ->
    exists b, mem_write (peer_buf pl) pos src = Ok b) as Hw.
  { intros. eexists. apply mem_write_Ok; lia. }
  destruct (Z.gtb_spec (fo + p) bs) as [Hwrap|Hlin]; osimpl.
  - rewrite (mem_read_ring _ fo (bs - fo)) by lia. osimpl.
    set (d1 := ring_read (buffer q) fo (bs - fo)).
    assert (Z.of_nat (length d1) = bs - fo) as Hd1
      by (unfold d1; rewrite ring_read_length; lia).
    destruct (Hw fo d1) as [b Hb]; [lia|lia|].
    cbn [post_write_buf PeerLink]. rewrite Hb. cbv iota. change (0 <? 0) with false.
    rewrite (proj2 (Z.gtb_lt (fo + p - bs) 0)) by lia.
    rewrite (mem_read_ring _ 0) by lia. osimpl.
    set (d2 := ring_read (buffer q) 0 (fo + p - bs)).
    assert (Z.of_nat (length d2) = fo + p - bs) as Hd2
      by (unfold d2; rewrite ring_read_length; lia).
    pose proof (mem_write_length _ _ _ _ Hb) as Hlb.
    destruct (mem_write b 0 d2) as [b'|] eqn:Hb'; [|rewrite mem_write_Ok in Hb' by lia; done].
    cbn [peer_buf set_field]. rewrite Hb'. change (0 <? 0) with false.
    pose proof (mem_write_length _ _ _ _ Hb') as Hlb'.
    assert (tx_off q = fo + p - bs) as Htx by (rewrite ready_tx0; unfold adv; bsplit; lia).
    do 2 eexists. split; [reflexivity|]. rewrite Htx. split; [done|].
    cbn [peer_rx peer_buf set_field]. split; [done|]. split; [lia|].
    assert (forall c, Z.of_nat (length c) = bs ->
      ring_read c fo p = ring_read c fo (bs - fo) ++ ring_read c 0 (fo + p - bs)) as Hsp.
    { intros c Hc. replace p with ((bs - fo) + (fo + p - bs)) at 1 by lia.
      rewrite ring_read_app by lia. f_equal.
      rewrite <- ring_read_wrap. f_equal. lia. }
    split.
    + rewrite !Hsp by lia. fold d1 d2. f_equal.
      * rewrite (ring_write_other _ 0 d2 b' fo (bs - fo)) by
          (try exact Hb'; try lia; replace (fo + (bs - fo)) with bs by lia;
           rewrite Hlb, ready_peer0, Z.mod_0_l, Z.mod_same by lia; done).
        pose proof (ring_write_same _ _ _ _ Hb) as Hs. by rewrite Hd1 in Hs.
      * pose proof (ring_write_same _ _ _ _ Hb') as Hs. by rewrite Hd2 in Hs.
    + assert (forall c, Z.of_nat (length c) = bs ->
        ring_read c (fo + p) (bs - p) = ring_read c (fo + p - bs) (bs - p)) as Hsh.
      { intros c Hc. rewrite <- ring_read_wrap. f_equal. lia. }
      rewrite !Hsh by lia.
      apply ring_read_ext. intros k Hk. rewrite Hlb', Hlb, !Z.mod_small by lia.
      rewrite (mem_write_lookup _ _ _ _ _ Hb') by lia.
      rewrite (proj2 (Z.ltb_ge _ (0 + _))) by lia. rewrite andb_false_r.
      rewrite (mem_write_lookup _ _ _ _ _ Hb) by lia.
      by rewrite (proj2 (Z.leb_gt fo _)) by lia.
  - rewrite (mem_read_ring _ fo p) by lia. osimpl.
    set (d := ring_read (buffer q) fo p).
    assert (Z.of_nat (length d) = p) as Hd by (unfold d; rewrite ring_read_length; lia).
    destruct (Hw fo d) as [b Hb]; [lia|lia|].
    cbn [post_write_buf PeerLink]. rewrite Hb. cbv iota. change (0 <? 0) with false.
    change (0 >? 0) with false. cbv iota.
    pose proof (mem_write_length _ _ _ _ Hb) as Hlb.
    assert (tx_off q = fo + p) as Htx by (rewrite ready_tx0; unfold adv; bsplit; lia).
    rewrite (u64_small (fo + p)) by lia.
    do 2 eexists. split; [reflexivity|]. rewrite Htx. split; [done|].
    cbn [peer_rx peer_buf set_field]. split; [done|]. split; [lia|]. split.
    + pose proof (ring_write_same _ _ _ _ Hb) as Hs. by rewrite Hd in Hs.
    + rewrite (ring_write_other _ _ _ _ (fo + p) (bs - p) Hb); [done| |lia].
      rewrite ready_peer0. replace (fo + p + (bs - p)) with (fo + 1 * bs) by lia.
      by rewrite Z_mod_plus_full.
Qed.

(** Flushing a paired queue whose peer has room delivers exactly the pending
    bytes, at the same ring positions, leaves the peer's other bytes alone, and
    publishes the transmit offset. *)
Theorem rq_flush_delivers q pl p (R : ready q pl p) :
  exists q' pl', rq_flush q pl = Ok (p, q', pl') /\
    flush_offset q' = tx_off q /\ rq_nbytes_to_flush q' = Ok 0 /\
    peer_tx pl' = tx_off q /\ peer_rx pl' = peer_rx pl /\
    ring_read (peer_buf pl') (flush_offset q) p =
      ring_read (buffer q) (flush_offset q) p /\
    ring_read (peer_buf pl') (flush_offset q + p) (buffer_size q - p) =
      ring_read (peer_buf pl) (flush_offset q + p) (buffer_size q - p).
Proof.
  destruct (rq_flush_bytes_peer q pl p R) as (q' & pl' & Hf & -> & Hrx & _ & Hin & Hout).
  unfold rq_flush, rq_nflush. rewrite (ready_to_flush q pl p R). osimpl.
  rewrite bind_assert_true by (apply Z.eqb_eq; symmetry; apply R).
  rewrite (ready_paired q pl p R). osimpl.
  replace (if p >? p then p else p) with p by (by destruct (p >? p)).
  destruct (ready_room q pl p R) as (m & Hm & Hpm).
  pose proof R as []. unfold RDMA_QUEUE_PAD in *.
  cbn [rq_flush_rounds]. rewrite Hm. osimpl. rewrite (u64_small m) by lia.
  replace (if p >? m then m else p) with p by (destruct (Z.gtb_spec p m); lia).
  rewrite Hf. osimpl. rewrite Z.add_0_l, (u64_small p), i32_small, u64_small, Z.eqb_refl by lia.
  osimpl. rewrite (proj2 (Z.gtb_lt p 0)) by lia. osimpl.
  do 2 eexists. split; [reflexivity|]. split; [done|]. split; [|done].
  unfold rq_nbytes_to_flush. cbn [tx self flush_offset set_field].
  rewrite bind_assert_true by (by apply Z.eqb_eq).
  apply rq_nbytes_val; [lia|]. cbn [tx flush_offset set_field].
  bsplit; lia.
Qed.

(** Code bug: when the first round of [rq_nflush] is cut short by a stale
    receiver offset, the second round flushes the whole amount again, so more
    bytes than were pending are sent and the flush offset passes the transmit
    offset. *)
Theorem rq_nflush_overshoots :
  exists q pl q' pl' n,
    rq_nbytes_to_flush q = Ok n /\
    rq_flush q pl = Ok (n + 10, q', pl') /\
    flush_offset q' = tx_off q' + 10 /\
    rq_nbytes_to_flush q' = Ok (buffer_size q' - 10).
Proof.
  set (q := mk_queue 4096 7 100 0 (mk_endpoint 8192 10 0 0) (mk_endpoint 4096 60 0 0)
              true true (replicate 100 1)).
  set (pl := mk_peer (replicate 100 0) 95 0).
  exists q, pl. do 2 eexists. exists 60.
  split; [vm_compute; reflexivity|]. split; [vm_compute; reflexivity|].
  split; vm_compute; reflexivity.
Qed.

(** ** Witnesses *)
Module Demo.

(** A 64-byte queue at address 4096 with the given offsets. *)
Definition q64 (rx fl tx : Z) : rdma_queue :=
  mk_queue 4096 0 64 fl (mk_endpoint 4096 rx 0 0) (mk_endpoint 4096 tx 0 0)
    false false (replicate 64 0).
Definition link : peer := mk_peer (replicate 64 0) 0 0.
Definition zeros (n m : nat) : fifo := mk_fifo (replicate n 0) (replicate m 0).
Definition q_paired : rdma_queue :=
  mk_queue 4096 7 64 60 (mk_endpoint 8192 60 0 0) (mk_endpoint 4096 6 0 0)
    true true (replicate 64 5).

Ltac by_compute :=
  lazymatch goal with
  | |- _ /\ _ => split; by_compute
  | |- _ = _ => reflexivity
  | _ => vm_compute; congruence
  end.

Lemma rep_empty_at_60 : rep (q64 60 60 60) (zeros 0 0).
Proof. constructor; by_compute. Qed.

Lemma rep_mid : rep (q64 10 20 25) (zeros 10 5).
Proof. constructor; by_compute. Qed.

Lemma rep_last_slot : rep (q64 0 56 56) (zeros 56 0).
Proof. constructor; by_compute. Qed.

Lemma rep_ring_end : rep (q64 20 64 64) (zeros 44 0).
Proof. constructor; by_compute. Qed.

Lemma rep_start : rep (q64 0 8 8) (zeros 8 0).
Proof. constructor; by_compute. Qed.

Lemma paired_ready : ready q_paired link 10.
Proof.
  constructor; [by_compute..|]. exists 56. split; [reflexivity|split; by_compute].
Qed.

Definition ops : list rq_op :=
  [OpEnqueueInPlace 20; OpEnqueue [1; 2; 3]; OpFlush 30; OpDequeue 12; OpPeek 3; OpEnqueueInPlace 60].

End Demo.

Lemma rq_run_refines_witness :
  exists ran outs q' s', rq_run (Demo.q64 60 60 60) Demo.link ran = Ok (outs, q', Demo.link) /\
    fifo_run 56 ran (Demo.zeros 0 0) outs s' /\ rep q' s' /\
    (ran = Demo.ops \/ exists data rest, Demo.ops = ran ++ OpEnqueue data :: rest /\ crosses q' s' (OpEnqueue data) = true).
Proof.
  destruct (rq_run_refines (Demo.q64 60 60 60) (Demo.zeros 0 0) Demo.link Demo.ops Demo.rep_empty_at_60) as (ran & outs & q' & s' & E & F & R & X).
  - repeat constructor; simpl; lia.
  - exists ran, outs, q', s'. split; [exact E|]. split; [exact F|]. split; [exact R|].
    destruct X as [->|(data & rest & -> & Hc & _)]; [by left|right; by exists data, rest].
Defined.

Lemma rq_allocate_rep_witness :
  exists q, rq_allocate_in_place 4096 (replicate 200 9) 152 0 0 0 = Some q /\
    rep q (mk_fifo [] []) /\ buffer_size q = 152 - SIZEOF_RDMA_QUEUE /\
    rq_nbytes_empty q = Ok (152 - SIZEOF_RDMA_QUEUE - RDMA_QUEUE_PAD).
Proof.
  apply (rq_allocate_rep 4096 (replicate 200 9) 152 0 0 0);
    unfold SIZEOF_RDMA_QUEUE, RDMA_QUEUE_PAD; [lia | vm_compute; congruence].
Defined.

Lemma rq_roundtrip_witness :
  exists q1 q2 q3,
    rq_try_enqueue (Demo.q64 0 8 8) Demo.link (Some [1; 2; 3]) 3 = Ok (0, q1, Demo.link) /\
    rq_flush q1 Demo.link = Ok (3, q2, Demo.link) /\
    rq_try_dequeue q2 true (8 + 3) = Ok (0, replicate 8 0 ++ [1; 2; 3], q3) /\
    rep q3 (mk_fifo [] []).
Proof.
  apply (rq_roundtrip (Demo.q64 0 8 8) (Demo.zeros 8 0) Demo.link [1; 2; 3]).
  - exact Demo.rep_start.
  - reflexivity.
  - vm_compute; congruence.
  - vm_compute; congruence.
Defined.

Lemma rq_reserve_spec_witness :
  rq_try_reserve_flush (Demo.q64 10 20 25) Demo.link 49 = Ok (1, Demo.q64 10 20 25, Demo.link).
Proof.
  apply (rq_reserve_spec (Demo.q64 10 20 25) (Demo.zeros 10 5) Demo.link 49).
  - exact Demo.rep_mid.
  - lia.
Defined.

Lemma rq_reserve_enqueue_gap_witness :
  rq_try_reserve_flush (Demo.q64 0 56 56) Demo.link 8 = Ok (1, Demo.q64 0 56 56, Demo.link) /\
  exists q', rq_try_enqueue (Demo.q64 0 56 56) Demo.link (Some (replicate 8 1)) 8 =
    Ok (1, q', Demo.link).
Proof.
  apply (rq_reserve_enqueue_gap (Demo.q64 0 56 56) (Demo.zeros 56 0) Demo.link (replicate 8 1)).
  - exact Demo.rep_last_slot.
  - discriminate.
  - reflexivity.
  - simpl; lia.
Defined.

Lemma rq_enqueue_wrap_oob_witness :
  rq_try_enqueue (Demo.q64 20 64 64) Demo.link (Some [1; 2; 3; 4]) 4 = Stop OutOfBounds.
Proof.
  apply (rq_enqueue_wrap_oob (Demo.q64 20 64 64) (Demo.zeros 44 0) Demo.link [1; 2; 3; 4]).
  - exact Demo.rep_ring_end.
  - vm_compute; congruence.
  - vm_compute; congruence.
Defined.

Lemma rq_flush_delivers_witness :
  exists q' pl', rq_flush Demo.q_paired Demo.link = Ok (10, q', pl') /\
    flush_offset q' = tx_off Demo.q_paired /\ rq_nbytes_to_flush q' = Ok 0 /\
    peer_tx pl' = tx_off Demo.q_paired /\ peer_rx pl' = peer_rx Demo.link /\
    ring_read (peer_buf pl') 60 10 = ring_read (buffer Demo.q_paired) 60 10 /\
    ring_read (peer_buf pl') (60 + 10) (64 - 10) = ring_read (peer_buf Demo.link) (60 + 10) (64 - 10).
Proof. apply (rq_flush_delivers Demo.q_paired Demo.link 10), Demo.paired_ready. Defined.
