(* ===== verification/Packets.v ===== *)
(** * Packet headers (include/packet_defs.h)

    Header fields are kept in host order: the [f_beui*]/[t_beui*] conversions of
    the code are the identity on this representation. A packet is its three
    fixed headers and the bytes of its buffer that follow them. *)
From S2P Require Import Prelude.

#[local] Open Scope Z_scope.

(** ** Constants *)
Definition ETH_TYPE_IP : Z := 0x0800.
Definition ETH_TYPE_ARP : Z := 0x0806.
Definition IP_PROTO_TCP : Z := 6.
Definition IP_ECN_NONE : Z := 0.
Definition IP_ECN_ECT0 : Z := 2.
Definition IP_ECN_CE : Z := 3.
Definition TCP_FIN : Z := 0x01.
Definition TCP_SYN : Z := 0x02.
Definition TCP_RST : Z := 0x04.
Definition TCP_PSH : Z := 0x08.
Definition TCP_ACK : Z := 0x10.
Definition TCP_URG : Z := 0x20.
Definition TCP_ECE : Z := 0x40.
Definition TCP_CWR : Z := 0x80.
Definition TCP_FLAGS : Z := 0x1ff.
Definition TCP_OPT_END_OF_OPTIONS : Z := 0.
Definition TCP_OPT_NO_OP : Z := 1.
Definition TCP_OPT_MSS : Z := 2.
Definition TCP_OPT_TIMESTAMP : Z := 8.
(** [sizeof] of the packed structs. *)
Definition SIZEOF_ETH_HDR : Z := 14.
Definition SIZEOF_IP_HDR : Z := 20.
Definition SIZEOF_TCP_HDR : Z := 20.
Definition SIZEOF_PKT_TCP : Z := 54.
Definition SIZEOF_MSS_OPT : Z := 4.
Definition SIZEOF_TIMESTAMP_OPT : Z := 10.

(** ** Headers *)
Record eth_hdr := mk_eth { eth_dest : Z; eth_src : Z; eth_type : Z }.
#[export] Instance eta_eth : Eta eth_hdr := fun h =>
  mk_eth (eth_dest h) (eth_src h) (eth_type h).

Record ip_hdr := mk_ip {
  ip_v_hl : Z; ip_tos : Z; ip_len : Z; ip_id : Z; ip_offset : Z;
  ip_ttl : Z; ip_proto : Z; ip_chksum : Z; ip_src : Z; ip_dest : Z;
}.
#[export] Instance eta_ip : Eta ip_hdr := fun h =>
  mk_ip (ip_v_hl h) (ip_tos h) (ip_len h) (ip_id h) (ip_offset h)
    (ip_ttl h) (ip_proto h) (ip_chksum h) (ip_src h) (ip_dest h).

Record tcp_hdr := mk_tcp {
  tcp_src : Z; tcp_dest : Z; tcp_seqno : Z; tcp_ackno : Z;
  tcp_hdrlen_rsvd_flags : Z; tcp_wnd : Z; tcp_chksum : Z; tcp_urgp : Z;
}.
#[export] Instance eta_tcp : Eta tcp_hdr := fun h =>
  mk_tcp (tcp_src h) (tcp_dest h) (tcp_seqno h) (tcp_ackno h)
    (tcp_hdrlen_rsvd_flags h) (tcp_wnd h) (tcp_chksum h) (tcp_urgp h).

(** [p_rest] is the memory from [p + 1] to the end of the packet's buffer. *)
Record pkt_tcp := mk_pkt { p_eth : eth_hdr; p_ip : ip_hdr; p_tcp : tcp_hdr; p_rest : list Z }.
#[export] Instance eta_pkt : Eta pkt_tcp := fun p =>
  mk_pkt (p_eth p) (p_ip p) (p_tcp p) (p_rest p).

Definition IPH_V (h : ip_hdr) : Z := Z.shiftr (ip_v_hl h) 4.
Definition IPH_HL (h : ip_hdr) : Z := Z.land (ip_v_hl h) 0x0f.
Definition IPH_ECN (h : ip_hdr) : Z := Z.land (ip_tos h) 0x3.
Definition IPH_ECN_SET (h : ip_hdr) (e : Z) : ip_hdr :=
  h <| ip_tos := u8 (Z.lor (Z.land (ip_tos h) 0xffc) e) |>.
Definition TCPH_HDRLEN (h : tcp_hdr) : Z := Z.shiftr (tcp_hdrlen_rsvd_flags h) 12.
Definition TCPH_FLAGS (h : tcp_hdr) : Z := Z.land (tcp_hdrlen_rsvd_flags h) TCP_FLAGS.
Definition TCPH_HDRLEN_FLAGS_SET (h : tcp_hdr) (len flags : Z) : tcp_hdr :=
  h <| tcp_hdrlen_rsvd_flags := u16 (Z.lor (Z.shiftl len 12) flags) |>.

(** [(x & m) == m] and [(x & m) != 0] *)
Definition has_all (x m : Z) : bool := Z.land x m =? m.
Definition has_any (x m : Z) : bool := negb (Z.land x m =? 0).

(** Big-endian fields inside a byte buffer. *)
Definition read_byte (b : list Z) (off : Z) : outcome Z :=
  if (0 <=? off) then
    match b !! Z.to_nat off with Some x => Ok x | None => Stop OutOfBounds end
  else Stop OutOfBounds.

Definition be32 (bs : list Z) : Z := fold_left (fun acc b => acc * 256 + b) bs 0.
Definition to_be32 (x : Z) : list Z :=
  [u8 (Z.shiftr x 24); u8 (Z.shiftr x 16); u8 (Z.shiftr x 8); u8 x].
Definition to_be16 (x : Z) : list Z := [u8 (Z.shiftr x 8); u8 x].

Definition read_be32 (b : list Z) (off : Z) : outcome Z :=
  d ← mem_read b off 4; mret (be32 d).
Definition write_be32 (b : list Z) (off x : Z) : outcome (list Z) :=
  mem_write b off (to_be32 x).

(** The fields of a timestamp option at [off]. *)
Definition ts_val (b : list Z) (off : Z) : outcome Z := read_be32 b (off + 2).
Definition ts_ecr (b : list Z) (off : Z) : outcome Z := read_be32 b (off + 6).

Lemma be32_to_be32 x : 0 <= x < 4294967296 -> be32 (to_be32 x) = x.
Proof.
  intros. unfold be32, to_be32, u8. simpl.
  rewrite !Z.shiftr_div_pow2 by lia.
  change (2 ^ 24) with 16777216. change (2 ^ 16) with 65536. change (2 ^ 8) with 256.
  Z.div_mod_to_equations. lia.
Qed.

(** ** The option list walk

    The loop of [tcp_parse_options] (fast path) and [parse_options] (slow path):
    they differ in the options they recognise. [on_opt kind len off acc] is the
    part between reading the length byte and advancing; [None] is [return -1]. *)
Section Walk.
Context {A : Type} (on_opt : Z -> Z -> Z -> A -> option A).

Fixpoint walk_options (fuel : nat) (opt : list Z) (opts_len off : Z) (acc : A)
  : outcome (Z * A) :=
  match fuel with
  | O => Stop OutOfFuel
  | S fuel =>
      if off <? opts_len then
        opt_kind ← read_byte opt off;
        let opt_avail := u8 (opts_len - off) in
        if opt_kind =? TCP_OPT_END_OF_OPTIONS then mret (0, acc)
        else if opt_kind =? TCP_OPT_NO_OP then
          walk_options fuel opt opts_len (u16 (off + 1)) acc
        else if opt_avail <? 2 then mret (-1, acc)
        else
          opt_len ← read_byte opt (off + 1);
          match on_opt opt_kind opt_len off acc with
          | None => mret (-1, acc)
          | Some acc => walk_options fuel opt opts_len (u16 (off + opt_len)) acc
          end
      else mret (0, acc)
  end.

End Walk.

(** A header announces at most 40 bytes of options; every option that advances
    takes at least one. *)
Definition opt_fuel : nat := 64.
