(* ===== verification/FlowState.v ===== *)
(** * Shared fast-path memory (include/tas_memif.h): flow state and queue entries *)
From S2P Require Import Prelude RdmaQueue Packets.

#[local] Open Scope Z_scope.

Definition FLEXNIC_PL_FLOWST_NUM : Z := 128 * 1024.
Definition FLEXNIC_PL_FLOWHT_ENTRIES : Z := FLEXNIC_PL_FLOWST_NUM * 2.
Definition FLEXNIC_PL_FLOWHT_NBSZ : Z := 4.
Definition FLEXNIC_PL_APPST_NUM : Z := 8.
Definition FLEXNIC_PL_APPST_CTX_NUM : Z := 31.
Definition FLEXNIC_PL_APPCTX_NUM : Z := 16.

Definition FLEXNIC_PL_FLOWST_SLOWPATH : Z := 1.
Definition FLEXNIC_PL_FLOWST_ECN : Z := 8.
Definition FLEXNIC_PL_FLOWST_TXFIN : Z := 16.
Definition FLEXNIC_PL_FLOWST_RXFIN : Z := 32.

Definition FLEXTCP_PL_KRX_PACKET : Z := 1.
Definition FLEXTCP_PL_KTX_PACKET : Z := 1.
Definition FLEXTCP_PL_KTX_CONNRETRAN : Z := 2.
Definition FLEXTCP_PL_KTX_PACKET_NOTS : Z := 3.
Definition FLEXTCP_PL_ARX_CONNUPDATE : Z := 1.
Definition FLEXTCP_PL_ARX_FLRXDONE : Z := 1.
Definition FLEXTCP_PL_ATX_CONNUPDATE : Z := 1.
Definition FLEXTCP_PL_ATX_FLTXDONE : Z := 1.

(** [struct flextcp_pl_flowst]. The two queues are reached by pointers the flow
    owns; they are embedded here. *)
Record flowst := mk_flowst {
  opaque : Z;
  fs_rx : rdma_queue;
  rx_flags : Z;
  fs_tx : rdma_queue;
  local_ip : Z;
  remote_ip : Z;
  local_port : Z;
  remote_port : Z;
  remote_mac : Z;
  db_id : Z;
  flow_group : Z;
  bump_seq : Z;
  lock : Z;
  rx_next_seq : Z;
  rx_remote_avail : Z;
  rx_dupack_cnt : Z;
  rx_ooo_start : Z;
  rx_ooo_len : Z;
  tx_sent : Z;
  tx_next_seq : Z;
  tx_next_ts : Z;
  tx_rate : Z;
  cnt_tx_drops : Z;
  cnt_rx_acks : Z;
  cnt_rx_ack_bytes : Z;
  cnt_rx_ecn_bytes : Z;
  rtt_est : Z;
}.
#[export] Instance eta_flowst : Eta flowst := fun f =>
  mk_flowst (opaque f) (fs_rx f) (rx_flags f) (fs_tx f) (local_ip f) (remote_ip f)
    (local_port f) (remote_port f) (remote_mac f) (db_id f) (flow_group f)
    (bump_seq f) (lock f) (rx_next_seq f) (rx_remote_avail f) (rx_dupack_cnt f)
    (rx_ooo_start f) (rx_ooo_len f) (tx_sent f) (tx_next_seq f) (tx_next_ts f)
    (tx_rate f) (cnt_tx_drops f) (cnt_rx_acks f) (cnt_rx_ack_bytes f)
    (cnt_rx_ecn_bytes f) (rtt_est f).

(** [struct flextcp_pl_arx] (a [CONNUPDATE]) and [struct flextcp_pl_atx]. *)
Record arx_entry := mk_arx {
  arx_opaque : Z; arx_rx_bump : Z; arx_rx_pos : Z; arx_tx_bump : Z;
  arx_flags : Z; arx_type : Z;
}.
Record atx_entry := mk_atx {
  atx_rx_bump : Z; atx_tx_bump : Z; atx_flow_id : Z; atx_bump_seq : Z;
  atx_flags : Z; atx_type : Z;
}.
