(* ===== verification/TcpCommon.v ===== *)
(** * Sequence number checks and option parsing (tas_nic/fast/tcp_common.h) *)
From S2P Require Import Prelude RdmaQueue Packets FlowState.

#[local] Open Scope Z_scope.

(** ** Definitions *)

(** The four interval cases of [tcp_valid_rxseq]: [None] is [return -1]. *)
Definition valid_rxseq_cases (pseq_a pseq_b sseq_a sseq_b : Z) : option (Z * Z) :=
  if (pseq_a <=? pseq_b) && (sseq_a <=? sseq_b) then
    if pseq_b <? sseq_a then None
    else if pseq_a >? sseq_a then None
    else Some (u16 (u32 (sseq_a - pseq_a)),
               u16 (if pseq_b >? sseq_b then u32 (pseq_b - sseq_b) else 0))
  else if (pseq_a <=? pseq_b) && (sseq_a >? sseq_b) then
    if (pseq_a >=? sseq_b) && (pseq_b <? sseq_a) then None
    else if (pseq_a >? sseq_a) || (pseq_a <? sseq_b) then None
    else Some (u16 (u32 (sseq_a - pseq_a)), 0)
  else if (pseq_a >? pseq_b) && (sseq_a <=? sseq_b) then
    if pseq_b <? sseq_a then None
    else if pseq_a >? sseq_a then None
    else Some (u16 (u32 (sseq_a - pseq_a)),
               u16 (if pseq_b >? sseq_b then u32 (pseq_b - sseq_b) else 0))
  else
    if pseq_a >? sseq_a then None
    else Some (u16 (u32 (sseq_a - pseq_a)),
               u16 (if pseq_b >? sseq_b then u32 (pseq_b - sseq_b) else 0)).

(** [pkt_bytes] is a [uint16_t]: what callers pass is cut off. *)
Definition tcp_valid_rxseq (fs : flowst) (pkt_seq pkt_bytes : Z)
  : outcome (option (Z * Z)) :=
  empty ← rq_nbytes_empty (fs_rx fs);
  mret (valid_rxseq_cases pkt_seq (u32 (pkt_seq + u16 pkt_bytes))
          (rx_next_seq fs) (u32 (rx_next_seq fs + empty))).

Definition trim_rxbuf_cases (pseq_a pseq_b sseq_a sseq_b : Z) : option (Z * Z) :=
  if (pseq_a <=? pseq_b) && (sseq_a <=? sseq_b) then
    if pseq_b <? sseq_a then None
    else if pseq_a >? sseq_b then None
    else Some (u16 (if pseq_a <? sseq_a then u32 (sseq_a - pseq_a) else 0),
               u16 (if pseq_b >? sseq_b then u32 (pseq_b - sseq_b) else 0))
  else if (pseq_a <=? pseq_b) && (sseq_a >? sseq_b) then
    if (pseq_a >? sseq_b) && (pseq_b <? sseq_a) then None
    else Some (u16 (if (pseq_a >? sseq_b) && (pseq_a <? sseq_a)
                    then u32 (sseq_a - pseq_a) else 0),
               u16 (if (pseq_b >=? sseq_b) && (pseq_b <? sseq_a)
                    then u32 (pseq_b - sseq_b) else 0))
  else if (pseq_a >? pseq_b) && (sseq_a <=? sseq_b) then
    if (pseq_a >? sseq_b) && (pseq_b <? sseq_a) then None
    else Some (u16 (if (sseq_a <=? pseq_b) || (sseq_a >? pseq_a)
                    then u32 (sseq_a - pseq_a) else 0),
               u16 (if (pseq_b >? sseq_b) || (sseq_a >=? pseq_a)
                    then u32 (pseq_b - sseq_b) else 0))
  else
    Some (u16 (if pseq_a <? sseq_a then u32 (sseq_a - pseq_a) else 0),
          u16 (if pseq_b >? sseq_b then u32 (pseq_b - sseq_b) else 0)).

Definition tcp_trim_rxbuf (fs : flowst) (pkt_seq pkt_bytes : Z)
  : outcome (option (Z * Z)) :=
  empty ← rq_nbytes_empty (fs_rx fs);
  mret (trim_rxbuf_cases pkt_seq (u32 (pkt_seq + u16 pkt_bytes))
          (rx_next_seq fs) (u32 (rx_next_seq fs + empty))).

(** [ALLOW_FUTURE_ACKS] is defined. *)
Definition tcp_valid_rxack (fs : flowst) (ack : Z) : outcome (option Z) :=
  let fsack_a := u32 (tx_next_seq fs - tx_sent fs) in
  enq ← rq_nbytes_enqueued (fs_tx fs);
  let fsack_b := u32 (tx_next_seq fs + enq) in
  if fsack_a <=? fsack_b then
    if (ack <? fsack_a) || (ack >? fsack_b) then mret None
    else mret (Some (u32 (ack - fsack_a)))
  else
    if (fsack_a >? ack) && (ack >? fsack_b) then mret None
    else mret (Some (u32 (ack - fsack_a))).

(** [pavail] is [None] for [NULL]. *)
Definition tcp_txavail (fs : flowst) (pavail : option Z) : outcome Z :=
  buf_avail ← match pavail with
              | Some a => mret a
              | None => n ← rq_nbytes_enqueued (fs_tx fs); mret (u32 n)
              end;
  let fc_avail := u32 (rx_remote_avail fs - tx_sent fs) in
  mret (MIN buf_avail fc_avail).

(** [struct tcp_opts]: the timestamp pointer, as an offset from [p + 1]. *)
Definition on_fast_opt (opt_kind opt_len off : Z) (ts : option Z) : option (option Z) :=
  if opt_kind =? TCP_OPT_TIMESTAMP then
    if negb (opt_len =? SIZEOF_TIMESTAMP_OPT) then None else Some (Some off)
  else Some ts.

Definition tcp_parse_options (p : pkt_tcp) (len : Z) : outcome (Z * option Z) :=
  let hl := TCPH_HDRLEN (p_tcp p) in
  let opts_len := u16 (hl * 4 - 20) in
  if (hl <? 5) || (opts_len >? u64 (len - SIZEOF_PKT_TCP)) then mret (-1, None)
  else walk_options on_fast_opt opt_fuel (p_rest p) opts_len 0 None.

(** ** Specifications *)

(** Where a segment of [len] bytes at [seq] lies relative to a receive window of
    [W] bytes at [next], by signed distance: the bytes to cut at either end, or
    [None] when it lies outside. *)
Definition rx_trim_spec (next W seq len : Z) : option (Z * Z) :=
  let o := i32 (seq - next) in
  if (o + len <? 0) || (W <? o) then None
  else Some (Z.max 0 (- o), Z.max 0 (o + len - W)).

(** The configuration that [tcp_trim_rxbuf] gets wrong: the segment wraps around
    the sequence space, the window does not, and the segment starts inside it. *)
Definition trim_misjudged (next W seq len : Z) : bool :=
  (4294967296 <=? seq + len) && (next + W <? 4294967296) &&
  (next <? seq) && (seq <=? next + W).

(** The options of a TCP header, and their encoding. *)
Inductive tcp_option : Type :=
  | ONop
  | OTimestamp (val ecr : Z)
  | OOther (kind : Z) (body : list Z).

Definition encode_option (o : tcp_option) : list Z :=
  match o with
  | ONop => [TCP_OPT_NO_OP]
  | OTimestamp v e =>
      [TCP_OPT_TIMESTAMP; SIZEOF_TIMESTAMP_OPT] ++ to_be32 v ++ to_be32 e
  | OOther k body => [k; 2 + Z.of_nat (length body)] ++ body
  end.
Definition encode_options (os : list tcp_option) : list Z := concat (encode_option <$> os).

Definition option_ok (o : tcp_option) : Prop :=
  match o with
  | ONop => True
  | OTimestamp v e => 0 <= v < 4294967296 /\ 0 <= e < 4294967296
  | OOther k _ => k <> TCP_OPT_END_OF_OPTIONS /\ k <> TCP_OPT_NO_OP /\
                  k <> TCP_OPT_TIMESTAMP
  end.

(** The last timestamp option, with its offset and contents. *)
Fixpoint last_timestamp (off : Z) (os : list tcp_option) (acc : option (Z * Z * Z))
  : option (Z * Z * Z) :=
  match os with
  | [] => acc
  | o :: os =>
      last_timestamp (off + Z.of_nat (length (encode_option o))) os
        (match o with OTimestamp v e => Some (off, v, e) | _ => acc end)
  end.

(** ** Sequence number lemmas *)

Lemma u32_add_cases a b :
  0 <= a < 4294967296 -> 0 <= b < 4294967296 ->
  u32 (a + b) = if a + b <? 4294967296 then a + b else a + b - 4294967296.
Proof. intros. unfold u32. bsplit; Z.div_mod_to_equations; lia. Qed.

Lemma u32_sub_cases a b :
  0 <= a < 4294967296 -> 0 <= b < 4294967296 ->
  u32 (a - b) = if b <=? a then a - b else a - b + 4294967296.
Proof. intros. unfold u32. bsplit; Z.div_mod_to_equations; lia. Qed.

Lemma i32_sub_cases a b :
  0 <= a < 4294967296 -> 0 <= b < 4294967296 ->
  i32 (a - b) =
    if a - b <? -2147483648 then a - b + 4294967296
    else if 2147483648 <=? a - b then a - b - 4294967296 else a - b.
Proof.
  intros. unfold i32. rewrite u32_sub_cases by lia. cbv zeta. bsplit; lia.
Qed.

Lemma trim_cases_correct next W seq len :
  0 <= next < 4294967296 -> 0 <= W < 2147418112 ->
  0 <= seq < 4294967296 -> 0 <= len < 65536 ->
  trim_misjudged next W seq len = false ->
  trim_rxbuf_cases seq (u32 (seq + len)) next (u32 (next + W)) =
    rx_trim_spec next W seq len.
Proof.
  intros Hn HW Hs Hl Hm. unfold trim_rxbuf_cases, rx_trim_spec.
  rewrite !u32_add_cases by lia. rewrite i32_sub_cases by lia. cbv zeta.
  assert (forall x, 0 <= x < 65536 -> u16 (u32 x) = x) as Hu
    by (intros; rewrite u32_small, u16_small; lia).
  assert (forall x, -4294967296 <= x < -4294901760 -> u16 (u32 x) = x + 4294967296) as Hw.
  { intros. unfold u16, u32. Z.div_mod_to_equations. lia. }
  assert (~ (4294967296 <= seq + len /\ next + W < 4294967296 /\
             next < seq /\ seq <= next + W)) as Hm'.
  { intros (? & ? & ? & ?). unfold trim_misjudged in Hm.
    rewrite (proj2 (Z.leb_le _ _)), (proj2 (Z.ltb_lt (next + W) _)),
      (proj2 (Z.ltb_lt next _)), (proj2 (Z.leb_le seq _)) in Hm by lia.
    discriminate Hm. }
  clear Hm.
  destruct (Z.ltb_spec (seq + len) 4294967296), (Z.ltb_spec (next + W) 4294967296).
  all: bprune; try reflexivity.
  all: change (u16 0) with 0; do 2 f_equal;
    first [lia | rewrite Hu by lia; lia | rewrite Hw by lia; lia].
Qed.

(** The same for an interval of any length that starts less than 2^16 below the
    window and ends inside it. *)
Lemma trim_cases_inside next W seq len :
  0 <= next < 4294967296 -> 0 <= W < 2147418112 ->
  0 <= seq < 4294967296 -> 0 <= len ->
  -65536 < i32 (seq - next) -> i32 (seq - next) + len <= W ->
  trim_rxbuf_cases seq (u32 (seq + len)) next (u32 (next + W)) =
    rx_trim_spec next W seq len.
Proof.
  intros Hn HW Hs Hl Hlo Hhi. 
  unfold trim_rxbuf_cases, rx_trim_spec.
  rewrite i32_sub_cases in * by lia. 
  assert (len < 2147483648 ) by (revert Hlo Hhi; bsplit; lia).
  rewrite !u32_add_cases by lia. cbv zeta.
  assert (forall x, 0 <= x < 65536 -> u16 (u32 x) = x) as Hu
    by (intros; rewrite u32_small, u16_small; lia).
  assert (forall x, -4294967296 <= x < -4294901760 -> u16 (u32 x) = x + 4294967296) as Hw.
  { intros. unfold u16, u32. Z.div_mod_to_equations. lia. }
  destruct (Z.ltb_spec (seq + len) 4294967296), (Z.ltb_spec (next + W) 4294967296).
  all: revert Hlo Hhi; bprune; intros Hlo Hhi; try lia; try reflexivity.
  all: change (u16 0) with 0; do 2 f_equal;
    first [lia | rewrite Hu by lia; lia | rewrite Hw by lia; lia].
Qed.

Lemma rx_trim_spec_inside next W seq len ts te :
  0 <= W -> 0 <= len -> rx_trim_spec next W seq len = Some (ts, te) ->
  let o := i32 (seq - next) in
  0 <= ts /\ 0 <= te /\ ts + te <= len /\ 0 <= o + ts /\ o + len - te <= W.
Proof.
  unfold rx_trim_spec. intros ? ? Hs. destruct (_ || _) eqn:E; [discriminate|].
  bprop. injection Hs as <- <-. cbv zeta. lia.
Qed.

Section Checks.
Context (fs : flowst) (W : Z).
Hypothesis Hempty : rq_nbytes_empty (fs_rx fs) = Ok W.
Hypothesis Hnext : 0 <= rx_next_seq fs < 4294967296.
Hypothesis HW : 0 <= W < 2147418112.

(** Receive trimming: outside of the one misjudged configuration,
    [tcp_trim_rxbuf] rejects exactly the segments that do not touch the free
    window, and otherwise trims so that what is kept lies inside the window. *)
Theorem tcp_trim_rxbuf_correct seq len
  (Hseq : 0 <= seq < 4294967296) (Hlen : 0 <= len < 65536)
  (Hm : trim_misjudged (rx_next_seq fs) W seq len = false) :
  tcp_trim_rxbuf fs seq len = Ok (rx_trim_spec (rx_next_seq fs) W seq len) /\
  forall ts te, tcp_trim_rxbuf fs seq len = Ok (Some (ts, te)) ->
    0 <= ts /\ 0 <= te /\ ts + te <= len /\
    0 <= i32 (seq - rx_next_seq fs) + ts /\
    i32 (seq - rx_next_seq fs) + len - te <= W.
Proof using Hempty Hnext HW.
  assert (tcp_trim_rxbuf fs seq len = Ok (rx_trim_spec (rx_next_seq fs) W seq len)) as ->.
  { unfold tcp_trim_rxbuf. rewrite Hempty. osimpl. rewrite u16_small by lia. by rewrite trim_cases_correct. }
  split; [done|]. intros ts te Hs. injection Hs as Hs.
  apply rx_trim_spec_inside in Hs; [exact Hs|lia..].
Qed.

(** Code bug: in that configuration nothing is trimmed although the segment
    runs past the end of the window, so an out-of-order segment overwrites ring
    bytes the application has not read. *)
Theorem tcp_trim_rxbuf_overrun seq len
  (Hseq : 0 <= seq < 4294967296) (Hlen : 0 <= len < 65536)
  (Hm : trim_misjudged (rx_next_seq fs) W seq len = true) :
  tcp_trim_rxbuf fs seq len = Ok (Some (0, 0)) /\
  W < i32 (seq - rx_next_seq fs) + len.
Proof using Hempty Hnext HW.
  unfold trim_misjudged in Hm. bprop. split.
  - unfold tcp_trim_rxbuf. rewrite Hempty. osimpl. rewrite u16_small by lia. unfold trim_rxbuf_cases.
    rewrite !u32_add_cases by lia.
    rewrite (proj2 (Z.ltb_ge (seq + len) _)), (proj2 (Z.ltb_lt (_ + W) _)) by lia.
    do 2 f_equal. bprune. reflexivity.
  - rewrite i32_sub_cases by lia. bprune; lia.
Qed.

End Checks.

(** Acknowledgements: [tcp_valid_rxack] accepts exactly the numbers from the
    first unacknowledged byte to [tx_next_seq] plus the bytes in the transmit
    queue, in sequence space, and reports the distance from the former. *)
Theorem tcp_valid_rxack_correct fs enq ack
  (Henq : rq_nbytes_enqueued (fs_tx fs) = Ok enq)
  (Hnext : 0 <= tx_next_seq fs < 4294967296)
  (Hack : 0 <= ack < 4294967296)
  (Hsent : 0 <= tx_sent fs) (Henq0 : 0 <= enq)
  (Hspan : tx_sent fs + enq < 4294967296) :
  let una := u32 (tx_next_seq fs - tx_sent fs) in
  tcp_valid_rxack fs ack =
    Ok (if u32 (ack - una) <=? tx_sent fs + enq then Some (u32 (ack - una)) else None).
Proof.
  cbv zeta. unfold tcp_valid_rxack. rewrite Henq. osimpl.
  pose proof (u32_range (tx_next_seq fs - tx_sent fs)) as Hu.
  rewrite (u32_sub_cases ack) by lia.
  rewrite (u32_sub_cases (tx_next_seq fs)) in * by lia.
  rewrite (u32_add_cases (tx_next_seq fs)) by lia.
  bprune; try reflexivity; do 2 f_equal; lia.
Qed.

(** Sendable bytes: while the peer's window covers what is in flight,
    [tcp_txavail] is the smaller of the queue's bytes and the rest of the window;
    once the window has shrunk below the bytes in flight the subtraction wraps
    and the window no longer limits anything that fits in the gap. *)
Theorem tcp_txavail_cases fs enq
  (Henq : rq_nbytes_enqueued (fs_tx fs) = Ok enq)
  (Hq : 0 <= enq < 2147483648)
  (Hwnd : 0 <= rx_remote_avail fs < 65536)
  (Hsent : 0 <= tx_sent fs < 2147483648) :
  tcp_txavail fs None =
    Ok (if tx_sent fs <=? rx_remote_avail fs
        then Z.min enq (rx_remote_avail fs - tx_sent fs) else enq).
Proof.
  unfold tcp_txavail. rewrite Henq. osimpl. f_equal.
  rewrite (u32_small enq), u32_sub_cases by lia. unfold MIN. bprune; lia.
Qed.

(** ** Option parsing *)

Lemma read_byte_mid pre x l :
  read_byte (pre ++ x :: l) (Z.of_nat (length pre)) = Ok x.
Proof.
  unfold read_byte. rewrite (proj2 (Z.leb_le _ _)) by lia.
  rewrite Nat2Z.id, lookup_app_r, Nat.sub_diag by lia. reflexivity.
Qed.

Lemma mem_read_mid pre d l :
  mem_read (pre ++ d ++ l) (Z.of_nat (length pre)) (Z.of_nat (length d)) = Ok d.
Proof.
  rewrite mem_read_Ok by (rewrite ?length_app; lia). rewrite !Nat2Z.id.
  by rewrite drop_app_length, take_app_length.
Qed.

Lemma length_encode_options_cons o os :
  length (encode_options (o :: os)) =
    (length (encode_option o) + length (encode_options os))%nat.
Proof. unfold encode_options. simpl. by rewrite length_app. Qed.

(** The walk over an encoded option list, from any point of the header. *)
Lemma walk_encoded os : forall fuel pre pad rest opts_len acc,
  Forall option_ok os ->
  (length os < fuel)%nat ->
  opts_len = Z.of_nat (length (pre ++ encode_options os ++ pad)) ->
  opts_len <= 40 ->
  (pad = [] \/ exists pad', pad = TCP_OPT_END_OF_OPTIONS :: pad') ->
  walk_options on_fast_opt fuel (pre ++ encode_options os ++ pad ++ rest) opts_len
    (Z.of_nat (length pre)) (fst <$> (fst <$> acc)) =
  Ok (0, fst <$> (fst <$> last_timestamp (Z.of_nat (length pre)) os acc)).
Proof.
  induction os as [|o os IH]; intros fuel pre pad rest opts_len acc Hok Hfuel Hlen H40 Hpad.
  - destruct fuel as [|fuel]; [simpl in Hfuel; lia|]. unfold encode_options. simpl.
    destruct Hpad as [->|[pad' ->]].
    + rewrite (proj2 (Z.ltb_ge _ _)); [done|]. subst. simpl. rewrite !app_nil_r. lia.
    + rewrite (proj2 (Z.ltb_lt _ _))
        by (subst; rewrite !length_app; simpl; lia).
      rewrite <- app_comm_cons, read_byte_mid. reflexivity.
  - destruct fuel as [|fuel]; [simpl in Hfuel; lia|].
    inversion_clear Hok as [|? ? Ho Hos].
    change (encode_options (o :: os)) with (encode_option o ++ encode_options os) in *.
    assert (0 < Z.of_nat (length (encode_option o))) as Hpos
      by (destruct o; simpl; try rewrite length_app; simpl; lia).
    rewrite !length_app in Hlen.
    specialize (IH fuel (pre ++ encode_option o) pad rest opts_len
      (match o with OTimestamp v e => Some (Z.of_nat (length pre), v, e) | _ => acc end)
      Hos ltac:(simpl in Hfuel; lia) ltac:(rewrite !length_app; lia) H40 Hpad).
    rewrite length_app, Nat2Z.inj_add, <- !app_assoc in IH. rewrite <- !app_assoc.
    cbn [walk_options last_timestamp].
    rewrite (proj2 (Z.ltb_lt _ _)) by lia. rewrite <- IH. clear IH.
    destruct o as [|v e|k body]; cbn [encode_option].
    + rewrite <- app_comm_cons, read_byte_mid. osimpl. simpl.
      by rewrite u16_small by lia.
    + cbn [encode_option] in Hlen, Hpos. rewrite <- app_assoc, <- app_comm_cons, read_byte_mid.
      osimpl. change (TCP_OPT_TIMESTAMP =? TCP_OPT_END_OF_OPTIONS) with false.
      change (TCP_OPT_TIMESTAMP =? TCP_OPT_NO_OP) with false. cbv iota.
      rewrite length_app in Hlen. simpl length in Hlen.
      rewrite (proj2 (Z.ltb_ge (u8 _) 2)) by (unfold u8; rewrite Z.mod_small; lia).
      replace (pre ++ TCP_OPT_TIMESTAMP :: _) with
        ((pre ++ [TCP_OPT_TIMESTAMP]) ++ SIZEOF_TIMESTAMP_OPT ::
          (to_be32 v ++ to_be32 e) ++ encode_options os ++ pad ++ rest)
        by (by rewrite <- app_assoc).
      replace (Z.of_nat (length pre) + 1) with (Z.of_nat (length (pre ++ [TCP_OPT_TIMESTAMP])))
        by (rewrite length_app; simpl; lia).
      rewrite read_byte_mid. osimpl. simpl on_fast_opt. cbv iota.
      rewrite <- app_assoc. simpl app.
      rewrite u16_small by (simpl length; unfold SIZEOF_TIMESTAMP_OPT; lia).
      reflexivity.
    + cbn [encode_option] in Hlen, Hpos. destruct Ho as (Hk0 & Hk1 & Hk8).
      rewrite <- app_assoc, <- app_comm_cons, read_byte_mid. osimpl.
      rewrite !(proj2 (Z.eqb_neq k _)) by done.
      rewrite length_app in Hlen. simpl length in Hlen.
      rewrite (proj2 (Z.ltb_ge (u8 _) 2)) by (unfold u8; rewrite Z.mod_small; lia).
      replace (pre ++ k :: _) with
        ((pre ++ [k]) ++ (2 + Z.of_nat (length body)) ::
          body ++ encode_options os ++ pad ++ rest)
        by (by rewrite <- app_assoc).
      replace (Z.of_nat (length pre) + 1) with (Z.of_nat (length (pre ++ [k])))
        by (rewrite length_app; simpl; lia).
      rewrite read_byte_mid. osimpl. unfold on_fast_opt.
      rewrite (proj2 (Z.eqb_neq k _)) by done.
      rewrite <- app_assoc. simpl app. rewrite u16_small by lia.
      f_equal; simpl; lia.
Qed.

Lemma last_timestamp_contents os : forall pre rest acc off v e,
  Forall option_ok os ->
  (forall off v e, acc = Some (off, v, e) ->
     ts_val (pre ++ encode_options os ++ rest) off = Ok v /\
     ts_ecr (pre ++ encode_options os ++ rest) off = Ok e) ->
  last_timestamp (Z.of_nat (length pre)) os acc = Some (off, v, e) ->
  ts_val (pre ++ encode_options os ++ rest) off = Ok v /\
  ts_ecr (pre ++ encode_options os ++ rest) off = Ok e.
Proof.
  induction os as [|o os IH]; intros pre rest acc off v e Hok Hacc Hl; [by apply Hacc|].
  inversion_clear Hok as [|? ? Ho Hos].
  change (encode_options (o :: os)) with (encode_option o ++ encode_options os) in *.
  rewrite <- app_assoc in *. cbn [last_timestamp] in Hl.
  rewrite <- Nat2Z.inj_add, <- length_app in Hl.
  specialize (IH (pre ++ encode_option o) rest). rewrite <- !app_assoc in IH.
  eapply IH; [exact Hos| |exact Hl].
  intros off' v' e' Hacc'. destruct o as [|v0 e0|k body]; [by apply Hacc| |by apply Hacc].
  injection Hacc' as <- <- <-. destruct Ho as [Hv He].
  unfold ts_val, ts_ecr, read_be32. cbn [encode_option].
  set (tail := encode_options os ++ rest).
  replace (Z.of_nat (length pre) + 2)
    with (Z.of_nat (length (pre ++ [TCP_OPT_TIMESTAMP; SIZEOF_TIMESTAMP_OPT])))
    by (rewrite length_app; simpl; lia).
  replace (Z.of_nat (length pre) + 6)
    with (Z.of_nat (length (pre ++ [TCP_OPT_TIMESTAMP; SIZEOF_TIMESTAMP_OPT] ++ to_be32 v0)))
    by (rewrite !length_app; simpl; lia).
  rewrite <- (app_assoc _ _ tail), <- (app_assoc (to_be32 v0)). split.
  - rewrite app_assoc. change 4 with (Z.of_nat (length (to_be32 v0))).
    rewrite mem_read_mid. osimpl. by rewrite be32_to_be32.
  - rewrite (app_assoc [_; _] (to_be32 v0)), app_assoc.
    change 4 with (Z.of_nat (length (to_be32 e0))).
    rewrite mem_read_mid. osimpl. by rewrite be32_to_be32.
Qed.

(** Round trip: parsing a header whose option area holds an encoded list of
    options, padded with an end-of-options byte, succeeds and finds the last
    timestamp option, whose fields read back the encoded values. *)
Theorem tcp_parse_options_roundtrip p len os pad rest
  (Hrest : p_rest p = encode_options os ++ pad ++ rest)
  (Hok : Forall option_ok os)
  (Hpad : pad = [] \/ exists pad', pad = TCP_OPT_END_OF_OPTIONS :: pad')
  (Hhl : 5 <= TCPH_HDRLEN (p_tcp p) <= 15)
  (Hol : TCPH_HDRLEN (p_tcp p) * 4 - 20 = Z.of_nat (length (encode_options os ++ pad)))
  (Hlen : SIZEOF_PKT_TCP + Z.of_nat (length (encode_options os ++ pad)) <= len < 65536) :
  tcp_parse_options p len = Ok (0, fst <$> (fst <$> last_timestamp 0 os None)) /\
  forall off v e, last_timestamp 0 os None = Some (off, v, e) ->
    ts_val (p_rest p) off = Ok v /\ ts_ecr (p_rest p) off = Ok e.
Proof.
  unfold tcp_parse_options, SIZEOF_PKT_TCP in *. rewrite Hrest. split.
  - rewrite (proj2 (Z.ltb_ge _ 5)) by lia. rewrite u16_small by lia.
    rewrite u64_small by lia. rewrite Z.gtb_ltb, (proj2 (Z.ltb_ge _ _)) by lia. osimpl.
    rewrite Hol. apply (walk_encoded os opt_fuel [] pad rest _ None); try done; [|lia].
    assert (forall l, (length l <= length (encode_options l))%nat) as Hle.
    { induction l as [|o l IH]; [simpl; lia|]. rewrite length_encode_options_cons.
      destruct o; simpl; rewrite ?length_app; simpl; lia. }
    specialize (Hle os). rewrite length_app in Hol. unfold opt_fuel. lia.
  - intros off v e Hl. apply (last_timestamp_contents os [] (pad ++ rest) None); done.
Qed.

(** Code bug: an option (other than end and no-op) whose length byte is 0
    does not advance the walk: whatever the number of iterations allowed, the
    loop does not finish. *)
Theorem walk_options_zero_length_diverges p len
  (Hhl : 6 <= TCPH_HDRLEN (p_tcp p) <= 15)
  (Hlen : SIZEOF_PKT_TCP + 40 <= len < 65536)
  (Hopt : exists k l, p_rest p = k :: 0 :: l /\ k <> TCP_OPT_END_OF_OPTIONS /\
            k <> TCP_OPT_NO_OP /\ k <> TCP_OPT_TIMESTAMP) :
  tcp_parse_options p len = Stop OutOfFuel /\
  forall fuel ts, walk_options on_fast_opt fuel (p_rest p)
    (u16 (TCPH_HDRLEN (p_tcp p) * 4 - 20)) 0 ts = Stop OutOfFuel.
Proof.
  assert (forall fuel ts, walk_options on_fast_opt fuel (p_rest p)
    (u16 (TCPH_HDRLEN (p_tcp p) * 4 - 20)) 0 ts = Stop OutOfFuel) as Hloop.
  { destruct Hopt as (k & l & -> & H0 & H1 & H8). rewrite u16_small by lia.
    induction fuel as [|fuel IH]; intros ts; [done|]. cbn [walk_options].
    rewrite (proj2 (Z.ltb_lt 0 _)) by lia. change (read_byte _ 0) with (Ok k). osimpl.
    rewrite !(proj2 (Z.eqb_neq k _)) by done.
    rewrite (proj2 (Z.ltb_ge (u8 _) 2)) by (unfold u8; rewrite Z.mod_small; lia).
    change (read_byte _ (0 + 1)) with (Ok 0). osimpl. unfold on_fast_opt.
    rewrite (proj2 (Z.eqb_neq k _)) by done. apply IH. }
  split; [|exact Hloop]. unfold tcp_parse_options.
  rewrite (proj2 (Z.ltb_ge _ 5)), Z.gtb_ltb, (proj2 (Z.ltb_ge (u64 _) _))
    by (unfold SIZEOF_PKT_TCP in *; rewrite ?u16_small, ?u64_small by lia; lia).
  apply Hloop.
Qed.

(** ** Witnesses *)
Module Demo.

Definition flow (rxq txq : rdma_queue) (next wnd sent txnext : Z) : flowst :=
  mk_flowst 1 rxq 0 txq 10 20 80 90 5 0 0 0 0 next wnd 0 0 0 sent txnext 0 0 0 0 0 0 0.

(** An empty receive queue and 10 flushed bytes to transmit. *)
Definition fs (next : Z) : flowst :=
  flow (RdmaQueue.Demo.q64 60 60 60) (RdmaQueue.Demo.q64 10 20 20) next 100 4 4294967292.

Definition options : list tcp_option :=
  [ONop; OOther 2 [5; 180]; ONop; OTimestamp 77 66].

Definition pkt (hl : Z) (rest : list Z) : pkt_tcp :=
  mk_pkt (mk_eth 1 2 ETH_TYPE_IP) (mk_ip 0x45 0 80 3 0 255 IP_PROTO_TCP 0 20 10)
    (mk_tcp 90 80 1000 2000 (Z.lor (Z.shiftl hl 12) TCP_ACK) 500 0 0) rest.
End Demo.

Lemma tcp_trim_rxbuf_correct_witness :
  tcp_trim_rxbuf (Demo.fs 4294967290) 4294967280 100 = Ok (Some (10, 34)).
Proof.
  apply (tcp_trim_rxbuf_correct (Demo.fs 4294967290) 56); try reflexivity; simpl; lia.
Defined.

Lemma tcp_trim_rxbuf_overrun_witness :
  tcp_trim_rxbuf (Demo.fs 4294967196) 4294967216 200 = Ok (Some (0, 0)) /\
  56 < i32 (4294967216 - 4294967196) + 200.
Proof.
  apply (tcp_trim_rxbuf_overrun (Demo.fs 4294967196) 56); try reflexivity; simpl; lia.
Defined.

Lemma tcp_valid_rxack_correct_witness :
  tcp_valid_rxack (Demo.fs 0) 4294967293 = Ok (Some 5).
Proof.
  apply (tcp_valid_rxack_correct (Demo.fs 0) 10 4294967293); try reflexivity; simpl; lia.
Defined.

Lemma tcp_txavail_cases_witness : tcp_txavail (Demo.fs 0) None = Ok 10.
Proof. apply (tcp_txavail_cases (Demo.fs 0) 10); try reflexivity; simpl; lia. Defined.

Lemma tcp_parse_options_roundtrip_witness :
  tcp_parse_options (Demo.pkt 9 (encode_options Demo.options ++ [9; 9])) 80 = Ok (0, Some 6) /\
  forall off v e, last_timestamp 0 Demo.options None = Some (off, v, e) ->
    ts_val (p_rest (Demo.pkt 9 (encode_options Demo.options ++ [9; 9]))) off = Ok v /\
    ts_ecr (p_rest (Demo.pkt 9 (encode_options Demo.options ++ [9; 9]))) off = Ok e.
Proof.
  apply (tcp_parse_options_roundtrip _ 80 Demo.options [] [9; 9]); try reflexivity.
  - unfold Demo.options. repeat (apply Forall_cons_2; [vm_compute; intuition congruence|]).
    apply Forall_nil_2.
  - by left.
  - vm_compute; split; congruence.
  - vm_compute; split; congruence.
Defined.

Lemma walk_options_zero_length_diverges_witness :
  tcp_parse_options (Demo.pkt 7 [3; 0; 0; 0; 0; 0; 0; 0]) 100 = Stop OutOfFuel /\
  forall fuel ts, walk_options on_fast_opt fuel [3; 0; 0; 0; 0; 0; 0; 0] 8 0 ts = Stop OutOfFuel.
Proof.
  apply (walk_options_zero_length_diverges (Demo.pkt 7 [3; 0; 0; 0; 0; 0; 0; 0]) 100).
  - vm_compute; split; congruence.
  - vm_compute; split; congruence.
  - exists 3, [0; 0; 0; 0; 0; 0]. split; [reflexivity|]. vm_compute. repeat split; congruence.
Defined.
