(* ===== verification/Util.v ===== *)
(** * Utilities: random numbers, circular buffers, the completion queue
    (lib/utils/rng.c, include/utils_circ.h, include/utils_nbqueue.h) *)
From S2P Require Import Prelude.

#[local] Open Scope Z_scope.

(** ** Random number generator (lib/utils/rng.c) *)
Module Rng.

Definition a : Z := 0x5deece66d.
Definition c : Z := 0xb.
Definition m : Z := 281474976710656.  (* 1 << 48 *)

(** The state is [rng->seed]. *)
Definition utils_rng_init (seed : Z) : Z := Z.lxor seed a mod m.

Definition utils_rng_gen32 (seed : Z) : Z * Z :=
  let next := u64 (u64 (a * seed) + c) mod m in
  (u32 (Z.shiftr next 16), next).

(** [utils_rng_gen]: whole words, little-endian, then the top bytes of one more
    word. The result is the bytes written to [buf]. *)
Fixpoint gen_words (n : nat) (seed : Z) : list Z * Z :=
  match n with
  | O => ([], seed)
  | S n =>
      let '(x, seed) := utils_rng_gen32 seed in
      let '(bs, seed) := gen_words n seed in
      ([u8 x; u8 (Z.shiftr x 8); u8 (Z.shiftr x 16); u8 (Z.shiftr x 24)] ++ bs, seed)
  end.

Fixpoint gen_tail (n : nat) (x : Z) : list Z :=
  match n with
  | O => []
  | S n => u8 (Z.shiftr x 24) :: gen_tail n (u32 (Z.shiftl x 8))
  end.

Definition utils_rng_gen (seed size : Z) : list Z * Z :=
  let '(bs, seed) := gen_words (Z.to_nat (size / 4)) seed in
  let '(x, seed) := utils_rng_gen32 seed in
  (bs ++ gen_tail (Z.to_nat (size mod 4)) x, seed).

Lemma gen32_range seed :
  0 <= fst (utils_rng_gen32 seed) < 4294967296 /\ 0 <= snd (utils_rng_gen32 seed) < m.
Proof.
  unfold utils_rng_gen32. simpl. split; [apply u32_range|].
  apply Z.mod_pos_bound. reflexivity.
Qed.

End Rng.

(** ** Circular buffers (include/utils_circ.h) *)
Module Circ.

(** [circ_range]: the two pieces of [len] bytes at [pos], as (offset, length)
    pairs; the second is present when the range wraps. The code leaves the
    length of the second piece to the caller. *)
Definition circ_range (b_len pos len : Z) : Z * Z * option Z :=
  if u64 (pos + len) <=? b_len then (pos, len, None)
  else (pos, u64 (b_len - pos), Some 0).

Definition circ_offset (pos len off : Z) : Z :=
  let pos := u64 (pos + off) in
  if pos >=? len then u64 (pos - len) else pos.

Definition circ_in_interval (start end_ len pos : Z) : bool :=
  if start <? end_ then (pos >=? start) && (pos <=? end_)
  else (pos >=? start) || (pos <=? end_).

Definition circ_read (b : list Z) (b_len pos len : Z) : outcome (list Z) :=
  let '(b1, l, b2) := circ_range b_len pos len in
  match b2 with
  | None => mem_read b b1 l
  | Some b2 =>
      d1 ← mem_read b b1 l;
      d2 ← mem_read b b2 (u64 (len - l));
      mret (d1 ++ d2)
  end.

Definition circ_write (dst : list Z) (b : list Z) (b_len pos len : Z)
  : outcome (list Z) :=
  let '(b1, l, b2) := circ_range b_len pos len in
  match b2 with
  | None => s ← mem_read dst 0 l; mem_write b b1 s
  | Some b2 =>
      s1 ← mem_read dst 0 l;
      b ← mem_write b b1 s1;
      s2 ← mem_read dst l (u64 (len - l));
      mem_write b b2 s2
  end.

(** [split_write] and [split_read]: a logical buffer in two halves. *)
Definition split_write (src : list Z) (len : Z) (buf_1 buf_2 : list Z)
  (len_1 len_2 off : Z) : outcome (list Z * list Z) :=
  _ ← c_assert (u64 (len + off) <=? u64 (len_1 + len_2));
  if u64 (off + len) <=? len_1 then
    s ← mem_read src 0 len; b1 ← mem_write buf_1 off s; mret (b1, buf_2)
  else if off >=? len_1 then
    s ← mem_read src 0 len; b2 ← mem_write buf_2 (u64 (off - len_1)) s; mret (buf_1, b2)
  else
    let l := u64 (len_1 - off) in
    s1 ← mem_read src 0 l; b1 ← mem_write buf_1 off s1;
    s2 ← mem_read src l (u64 (len - l)); b2 ← mem_write buf_2 0 s2;
    mret (b1, b2).

Definition split_read (len : Z) (buf_1 buf_2 : list Z) (len_1 len_2 off : Z)
  : outcome (list Z) :=
  _ ← c_assert (u64 (len + off) <=? u64 (len_1 + len_2));
  if u64 (off + len) <=? len_1 then mem_read buf_1 off len
  else if off >=? len_1 then mem_read buf_2 (u64 (off - len_1)) len
  else
    let l := u64 (len_1 - off) in
    d1 ← mem_read buf_1 off l; d2 ← mem_read buf_2 0 (u64 (len - l));
    mret (d1 ++ d2).

(** A circular write followed by a read of the same range gives the bytes back;
    the rest of the ring is untouched. *)
Lemma circ_write_spec dst b b_len pos len :
  b_len = Z.of_nat (length b) -> 0 < b_len < 9223372036854775808 ->
  0 <= pos < b_len -> 0 <= len <= b_len -> len = Z.of_nat (length dst) ->
  exists b', circ_write dst b b_len pos len = Ok b' /\ length b' = length b /\
    circ_read b' b_len pos len = Ok dst /\
    ring_read b' (pos + len) (b_len - len) = ring_read b (pos + len) (b_len - len).
Proof.
  intros -> Hb Hp Hl Hd. unfold circ_write, circ_read, circ_range.
  rewrite (u64_small (pos + len)) by lia.
  destruct (Z.leb_spec (pos + len) (Z.of_nat (length b))) as [Hlin|Hwrap].
  - rewrite (mem_read_Ok dst 0) by lia. osimpl.
    replace (take _ (drop _ dst)) with dst by (rewrite drop_0, take_ge by lia; done).
    destruct (mem_write b pos dst) as [b'|] eqn:Hw; [|rewrite mem_write_Ok in Hw by lia; done].
    pose proof (mem_write_length _ _ _ _ Hw) as Hlen.
    exists b'. split; [done|]. split; [done|]. split.
    + rewrite mem_read_ring by lia. rewrite Hd. f_equal. by eapply ring_write_same.
    + eapply ring_write_other; [exact Hw| |lia].
      replace (pos + len + (Z.of_nat (length b) - len)) with (pos + 1 * Z.of_nat (length b)) by lia.
      by rewrite Z_mod_plus_full.
  - set (l := Z.of_nat (length b) - pos) in *.
    rewrite (u64_small l), (u64_small (len - l)) by lia.
    rewrite (mem_read_Ok dst 0 l), (mem_read_Ok dst l) by lia. osimpl.
    rewrite drop_0. set (s1 := take (Z.to_nat l) dst).
    set (s2 := take (Z.to_nat (len - l)) (drop (Z.to_nat l) dst)).
    assert (Z.of_nat (length s1) = l) as Hs1 by (unfold s1; rewrite length_take; lia).
    assert (Z.of_nat (length s2) = len - l) as Hs2
      by (unfold s2; rewrite ?length_take, ?length_drop; lia).
    destruct (mem_write b pos s1) as [b1|] eqn:Hw1; [|rewrite mem_write_Ok in Hw1 by lia; done].
    pose proof (mem_write_length _ _ _ _ Hw1) as Hlen1. osimpl.
    destruct (mem_write b1 0 s2) as [b2|] eqn:Hw2; [|rewrite mem_write_Ok in Hw2 by lia; done].
    pose proof (mem_write_length _ _ _ _ Hw2) as Hlen2.
    exists b2. split; [done|]. split; [lia|]. split.
    + rewrite !mem_read_ring by lia. osimpl. f_equal.
      replace (len - l) with (Z.of_nat (length s2)) by lia.
      rewrite (ring_write_same _ _ _ _ Hw2).
      rewrite (ring_write_other _ _ _ _ pos l Hw2); [| |lia].
      * replace l with (Z.of_nat (length s1)) at 1 by lia.
        rewrite (ring_write_same _ _ _ _ Hw1). unfold s1, s2.
        rewrite (take_ge (drop _ dst)) by (rewrite length_drop; lia). apply take_drop.
      * rewrite Hlen1. replace (pos + l) with (Z.of_nat (length b)) by lia.
        by rewrite Z.mod_0_l, Z.mod_same by lia.
    + apply ring_read_ext. intros k Hk. rewrite Hlen2, Hlen1.
      replace ((pos + len + k) mod Z.of_nat (length b)) with (pos + len + k - Z.of_nat (length b))
        by (rewrite mod_sub_once; lia).
      rewrite (mem_write_lookup _ _ _ _ _ Hw2) by lia.
      rewrite (proj2 (Z.ltb_ge _ (0 + _))) by lia. rewrite andb_false_r.
      rewrite (mem_write_lookup _ _ _ _ _ Hw1) by lia.
      by rewrite (proj2 (Z.leb_gt pos _)) by lia.
Qed.

End Circ.

(** ** The completion queue (include/utils_nbqueue.h)

    A singly-linked stack of elements under a mutex; dequeuing walks to the last
    element, the oldest one. The critical sections are atomic. Elements are
    addresses and [next] is the [el->next] field of each. *)
Module Nbqueue.

Record nbqueue := mk_nbqueue { head : option Z; next : gmap Z (option Z) }.

Definition nbqueue_init (heap : gmap Z (option Z)) : nbqueue := mk_nbqueue None heap.

Definition nbqueue_enq (q : nbqueue) (el : Z) : nbqueue :=
  mk_nbqueue (Some el) (<[el := head q]> (next q)).

(** The walk: [el] is the current element, [el_p] its predecessor. *)
Fixpoint walk (fuel : nat) (nx : gmap Z (option Z)) (el : Z) (el_p : option Z)
  : outcome (Z * option Z) :=
  match fuel with
  | O => Stop OutOfFuel
  | S fuel =>
      match nx !! el with
      | None => Stop OutOfBounds
      | Some None => mret (el, el_p)
      | Some (Some el') => walk fuel nx el' (Some el)
      end
  end.

Definition nbqueue_deq (q : nbqueue) : outcome (option Z * nbqueue) :=
  match head q with
  | None => mret (None, q)
  | Some el =>
      '(el, el_p) ← walk (S (size (next q))) (next q) el None;
      match el_p with
      | Some p => mret (Some el, mk_nbqueue (head q) (<[p := None]> (next q)))
      | None => mret (Some el, mk_nbqueue None (next q))
      end
  end.

(** [l] is the content, newest first. *)
Fixpoint chain (nx : gmap Z (option Z)) (h : option Z) (l : list Z) : Prop :=
  match l with
  | [] => h = None
  | x :: l => h = Some x /\ exists n, nx !! x = Some n /\ chain nx n l
  end.

Definition holds (q : nbqueue) (l : list Z) : Prop := NoDup l /\ chain (next q) (head q) l.

Lemma chain_insert_fresh nx h l x v :
  x ∉ l -> chain nx h l -> chain (<[x := v]> nx) h l.
Proof.
  revert h. induction l as [|y l IH]; intros h Hx Hc; [done|].
  apply not_elem_of_cons in Hx as [Hxy Hx]. destruct Hc as (-> & n & Hn & Hc).
  split; [done|]. exists n. rewrite lookup_insert_ne by done. auto.
Qed.

Lemma chain_size nx h l : NoDup l -> chain nx h l -> (length l <= size nx)%nat.
Proof.
  intros Hnd Hc. rewrite <- size_dom.
  rewrite <- (size_list_to_set (C := gset Z) l) by done.
  apply subseteq_size. intros x Hx. apply elem_of_list_to_set in Hx.
  apply elem_of_dom. clear Hnd. revert h Hc.
  induction l as [|y l IH]; intros h Hc; [by apply not_elem_of_nil in Hx|].
  destruct Hc as (-> & n & Hn & Hc). apply elem_of_cons in Hx as [->|Hx]; eauto.
Qed.

Lemma walk_last nx l : forall fuel x y p,
  chain nx (Some x) (l ++ [y]) -> (length l < fuel)%nat ->
  walk fuel nx x p = Ok (y, match last l with Some z => Some z | None => p end).
Proof.
  induction l as [|z l IH]; intros fuel x y p Hc Hf; destruct fuel as [|fuel]; try (simpl in Hf; lia).
  - destruct Hc as (Hx & n & Hn & ->). injection Hx as ->. simpl. by rewrite Hn.
  - destruct Hc as (Hx & n & Hn & Hc). injection Hx as ->. simpl. rewrite Hn.
    destruct n as [n|]; [|exfalso; clear IH; destruct l; simpl in Hc; destruct Hc as [? _]; discriminate].
    rewrite (IH fuel n y (Some z) Hc) by (simpl in Hf; lia).
    rewrite last_cons. by destruct (last l).
Qed.

Lemma chain_cut nx h l z y :
  NoDup (l ++ [z; y]) -> chain nx h (l ++ [z; y]) -> chain (<[z := None]> nx) h (l ++ [z]).
Proof.
  revert h. induction l as [|w l IH]; intros h Hnd Hc; simpl in *.
  - destruct Hc as (-> & n & Hn & Hc). split; [done|]. exists None.
    by rewrite lookup_insert_eq.
  - apply NoDup_cons in Hnd as [Hw Hnd]. destruct Hc as (-> & n & Hn & Hc).
    split; [done|]. exists n. rewrite lookup_insert_ne by set_solver. auto.
Qed.

(** Enqueued elements come out oldest first. *)
Lemma nbqueue_enq_holds q l el :
  holds q l -> el ∉ l -> holds (nbqueue_enq q el) (el :: l).
Proof.
  intros [Hnd Hc] Hel. split; [by constructor|]. split; [done|].
  exists (head q). simpl. rewrite lookup_insert_eq. split; [done|].
  by apply chain_insert_fresh.
Qed.

Lemma nbqueue_deq_holds q l y :
  holds q (l ++ [y]) ->
  exists q', nbqueue_deq q = Ok (Some y, q') /\ holds q' l.
Proof.
  intros [Hnd Hc]. unfold nbqueue_deq.
  pose proof (chain_size _ _ _ Hnd Hc) as Hsz. rewrite length_app in Hsz. simpl in Hsz.
  destruct (head q) as [h|] eqn:Hh; [|by destruct l; destruct Hc].
  rewrite (walk_last _ _ _ _ _ None Hc) by lia. osimpl.
  destruct l as [|z l _] using rev_ind; simpl.
  - eexists. split; [done|]. split; [constructor|done].
  - rewrite last_snoc. rewrite <- app_assoc in *. eexists. split; [done|].
    split; [|exact (chain_cut _ _ _ _ y Hnd Hc)].
    change [z; y] with ([z] ++ [y]) in Hnd. rewrite app_assoc in Hnd.
    by apply NoDup_app in Hnd as (? & _).
Qed.

End Nbqueue.
