(* ===== verification/Timeout.v ===== *)
(** * Timers (lib/utils/timeout.c, include/utils_timeout.h)

    Armed timers are in one of two doubly linked lists: those pending, ordered by
    their time, and those that are due and wait for their handler. Times are
    28-bit microsecond stamps that wrap around. *)
From stdpp Require Import sorting.
From S2P Require Import Prelude.

#[local] Open Scope Z_scope.

Definition TIMEOUT_BITS : Z := 28.
Definition TIMEOUT_MASK : Z := Z.shiftl 1 TIMEOUT_BITS - 1.
Definition MAX_TIMEOUTS : nat := 64.

(** ** State

    [timers] is the memory of the timer objects, by address. *)
Record timeout := mk_timeout {
  timeout_type : Z;
  to_next : option Z;
  to_prev : option Z;
}.
#[export] Instance eta_timeout : Eta timeout := fun t =>
  mk_timeout (timeout_type t) (to_next t) (to_prev t).

Record timeout_manager := mk_tmgr {
  timers : gmap Z timeout;
  timeouts_first : option Z;
  timeouts_last : option Z;
  due_first : option Z;
  due_last : option Z;
}.
#[export] Instance eta_tmgr : Eta timeout_manager := fun m =>
  mk_tmgr (timers m) (timeouts_first m) (timeouts_last m) (due_first m) (due_last m).

Definition get_to (m : timeout_manager) (p : Z) : outcome timeout :=
  match timers m !! p with Some t => Ok t | None => Stop OutOfBounds end.
Definition put_to (m : timeout_manager) (p : Z) (t : timeout) : timeout_manager :=
  m <| timers := <[p := t]> (timers m) |>.
(** [p->next = v] and [p->prev = v] *)
Definition set_next (m : timeout_manager) (p : Z) (v : option Z) : outcome timeout_manager :=
  t ← get_to m p; mret (put_to m p (t <| to_next := v |>)).
Definition set_prev (m : timeout_manager) (p : Z) (v : option Z) : outcome timeout_manager :=
  t ← get_to m p; mret (put_to m p (t <| to_prev := v |>)).

(** ** Time *)

(** [timestamp_us_long] and [timestamp_us] from the cycle counter. *)
Definition timestamp_us_long (tsc tsc_per_us : Z) : outcome Z :=
  if tsc_per_us =? 0 then Stop DivByZero else mret (u32 (tsc / tsc_per_us)).
Definition timestamp_us (tsc tsc_per_us : Z) : outcome Z :=
  t ← timestamp_us_long tsc tsc_per_us; mret (Z.land t TIMEOUT_MASK).

Definition rel_time (cur_ts : Z) (to : timeout) : Z :=
  let middle := Z.shiftl 1 (TIMEOUT_BITS - 1) in
  let to_ts := Z.land (timeout_type to) TIMEOUT_MASK in
  if cur_ts <? middle then
    let start := Z.land (u32 (cur_ts - middle)) TIMEOUT_MASK in
    let end_ := Z.shiftl 1 TIMEOUT_BITS in
    if (start <=? to_ts) && (to_ts <? end_) then i32 (u32 (to_ts - start - middle))
    else i32 (u32 (to_ts - cur_ts))
  else if cur_ts =? middle then i32 (u32 (to_ts - cur_ts))
  else
    let start := 0 in
    let end_ := u32 (Z.land (u32 (cur_ts + middle)) TIMEOUT_MASK + 1) in
    if (start <=? cur_ts) && (to_ts <? end_) then
      i32 (u32 (to_ts + u32 (Z.shiftl 1 TIMEOUT_BITS - cur_ts)))
    else i32 (u32 (to_ts - cur_ts)).

Definition timeout_due (to : timeout) (ts : Z) : bool := rel_time ts to <=? 0.

(** ** Operations *)
Definition util_timeout_init (m : timeout_manager) : timeout_manager :=
  m <| timeouts_first := (None : option Z) |> <| timeouts_last := (None : option Z) |>
    <| due_first := (None : option Z) |> <| due_last := (None : option Z) |>.

Definition list_fuel (m : timeout_manager) : nat := S (size (timers m)).

(** The body of the loop of [move_due_timeouts]: [to], the first pending timer, is
    taken out and put at the end of the due list. *)
Definition move_first (m : timeout_manager) (to : Z) : outcome timeout_manager :=
  t ← get_to m to;
  let next := to_next t in
  let m := m <| timeouts_first := next |> in
  m ← match next with
      | Some n => set_prev m n None
      | None => mret (m <| timeouts_last := (None : option Z) |>)
      end;
  m ← set_next m to None;
  m ← set_prev m to (due_last m);
  m ← match due_last m with
      | None => mret (m <| due_first := Some to |>)
      | Some d => set_next m d (Some to)
      end;
  mret (m <| due_last := Some to |>).

Fixpoint move_due_loop (fuel : nat) (m : timeout_manager) (cur_ts : Z) : outcome timeout_manager :=
  match fuel with
  | O => Stop OutOfFuel
  | S fuel =>
      match timeouts_first m with
      | None => mret m
      | Some to =>
          t ← get_to m to;
          if timeout_due t cur_ts then m ← move_first m to; move_due_loop fuel m cur_ts
          else mret m
      end
  end.
Definition move_due_timeouts (m : timeout_manager) (cur_ts : Z) : outcome timeout_manager :=
  move_due_loop (list_fuel m) m cur_ts.

(** The search from the back; [rel_time(...) > us] compares unsigned. *)
Fixpoint find_after (fuel : nat) (m : timeout_manager) (cur_ts us : Z) (tp : option Z)
  : outcome (option Z) :=
  match fuel with
  | O => Stop OutOfFuel
  | S fuel =>
      match tp with
      | None => mret None
      | Some p =>
          t ← get_to m p;
          if u32 (rel_time cur_ts t) >? us then find_after fuel m cur_ts us (to_prev t)
          else mret (Some p)
      end
  end.

Definition util_timeout_arm_ts (m : timeout_manager) (to us type cur_ts : Z)
  : outcome timeout_manager :=
  let cur_ts := Z.land cur_ts TIMEOUT_MASK in
  if us >=? Z.shiftl 1 (TIMEOUT_BITS - 1) then Stop Aborted
  else
    m ← move_due_timeouts m cur_ts;
    tp ← find_after (list_fuel m) m cur_ts us (timeouts_last m);
    tn ← match tp with
         | Some p => t ← get_to m p; mret (to_next t)
         | None => mret (timeouts_first m)
         end;
    let ty := Z.lor (u32 (Z.shiftl type TIMEOUT_BITS)) (Z.land (u32 (cur_ts + us)) TIMEOUT_MASK) in
    let m := put_to m to (mk_timeout ty tn tp) in
    m ← match tp with
        | None => mret (m <| timeouts_first := Some to |>)
        | Some p => set_next m p (Some to)
        end;
    match tn with
    | None => mret (m <| timeouts_last := Some to |>)
    | Some n => set_prev m n (Some to)
    end.

Definition is_ptr (o : option Z) (p : Z) : bool := bool_decide (o = Some p).

Definition util_timeout_disarm (m : timeout_manager) (to : Z) : outcome timeout_manager :=
  t ← get_to m to;
  let prev := to_prev t in
  let next := to_next t in
  m ← match prev with
      | None =>
          if is_ptr (timeouts_first m) to then mret (m <| timeouts_first := next |>)
          else if is_ptr (due_first m) to then mret (m <| due_first := next |>)
          else Stop Aborted
      | Some p => set_next m p next
      end;
  match next with
  | None =>
      if is_ptr (timeouts_last m) to then mret (m <| timeouts_last := prev |>)
      else if is_ptr (due_last m) to then mret (m <| due_last := prev |>)
      else Stop Aborted
  | Some n => set_prev m n prev
  end.

(** The result is a [uint32_t]; [-1U] when nothing is armed. *)
Definition util_timeout_next (m : timeout_manager) (cur_ts : Z) : outcome Z :=
  match due_first m with
  | Some _ => mret 0
  | None =>
      match timeouts_first m with
      | None => mret UINT32_MAX
      | Some p =>
          t ← get_to m p;
          let next := rel_time (Z.land cur_ts TIMEOUT_MASK) t in
          mret (if next <? 0 then 0 else next)
      end
  end.

(** The first due timer, taken out of its list. *)
Definition pop_due (m : timeout_manager) : outcome (option (Z * timeout) * timeout_manager) :=
  match due_first m with
  | None => mret (None, m)
  | Some to =>
      t ← get_to m to;
      let m := m <| due_first := to_next t |> in
      m ← match to_next t with
          | Some n => set_prev m n None
          | None => mret (m <| due_last := (None : option Z) |>)
          end;
      mret (Some (to, t), m)
  end.

Section Poll.
(** The handler runs on the state of the whole program, of which the manager is
    a part; it may arm and disarm timers. *)
Context {St : Type} (mgr : St -> timeout_manager) (set_mgr : timeout_manager -> St -> St).
Context (handler : Z -> Z -> St -> outcome St).

Fixpoint poll_due (n : nat) (s : St) : outcome St :=
  match n with
  | O => mret s
  | S n =>
      '(r, m) ← pop_due (mgr s);
      match r with
      | None => mret s
      | Some (to, t) =>
          s ← handler to (Z.shiftr (timeout_type t) TIMEOUT_BITS) (set_mgr m s);
          poll_due n s
      end
  end.

Definition util_timeout_poll_ts (s : St) (cur_ts : Z) : outcome St :=
  m ← move_due_timeouts (mgr s) (Z.land cur_ts TIMEOUT_MASK);
  poll_due MAX_TIMEOUTS (set_mgr m s).

Definition util_timeout_poll (s : St) (tsc tsc_per_us : Z) : outcome St :=
  ts ← timestamp_us tsc tsc_per_us; util_timeout_poll_ts s ts.
End Poll.

Definition util_timeout_arm (m : timeout_manager) (to us type tsc tsc_per_us : Z)
  : outcome timeout_manager :=
  ts ← timestamp_us tsc tsc_per_us; util_timeout_arm_ts m to us type ts.

(** ** Time stamps measure distances *)

(** The absolute times a 28-bit stamp stands for. *)
Abbreviation PERIOD := 268435456.
Abbreviation HALF := 134217728.

Lemma mask_mod x : Z.land x TIMEOUT_MASK = x mod PERIOD.
Proof. change TIMEOUT_MASK with (Z.ones 28). rewrite Z.land_ones by lia. reflexivity. Qed.

(** The stamp [d] away from the current time, nearer than half a period. *)
Lemma rel_deadline now dl t :
  timeout_type t mod PERIOD = dl mod PERIOD -> - HALF < dl - now < HALF ->
  rel_time (now mod PERIOD) t = dl - now.
Proof.
  intros Ht Hd. unfold rel_time. rewrite !mask_mod, Ht.
  change (Z.shiftl 1 (TIMEOUT_BITS - 1)) with HALF. change (Z.shiftl 1 TIMEOUT_BITS) with PERIOD.
  pose proof (Z.mod_pos_bound now PERIOD ltac:(lia)) as Hn.
  pose proof (Z.mod_pos_bound dl PERIOD ltac:(lia)) as Hl.
  assert (exists k, dl mod PERIOD - now mod PERIOD = dl - now + k * PERIOD) as [k Hk].
  { exists (now / PERIOD - dl / PERIOD).
    pose proof (Z.div_mod now PERIOD ltac:(lia)). pose proof (Z.div_mod dl PERIOD ltac:(lia)). lia. }
  remember (now mod PERIOD) as n. remember (dl mod PERIOD) as e. clear Heqn Heqe Ht.
  assert (k = -1 \/ k = 0 \/ k = 1) as Hk3 by lia.
  assert (forall x, - PERIOD <= x <= PERIOD -> i32 (u32 x) = x) as Hi.
  { intros x Hx. unfold i32. unfold u32 at 1 2. unfold u32. rewrite !Zmod_mod.
    fold (u32 x). fold (i32 x). apply i32_small. lia. }
  destruct (Z.ltb_spec n HALF).
  - assert (u32 (n - HALF) mod PERIOD = n + HALF) as ->.
    { unfold u32. rewrite (mod_add_once (n - HALF)) by lia. symmetry. apply Z.mod_unique with 15; lia. }
    destruct (Z.leb_spec (n + HALF) e), (Z.ltb_spec e PERIOD); cbn [andb]; rewrite Hi; lia.
  - destruct (Z.eqb_spec n HALF); [rewrite Hi; lia|].
    assert (u32 (u32 (n + HALF) mod PERIOD + 1) = n - HALF + 1) as ->.
    { rewrite (u32_small (n + HALF)) by lia. rewrite (mod_sub_once (n + HALF)) by lia. rewrite u32_small; lia. }
    rewrite (proj2 (Z.leb_le 0 n)) by lia. rewrite (u32_small (PERIOD - n)) by lia.
    destruct (Z.ltb_spec e (n - HALF + 1)); cbn [andb].
    + replace (e + (PERIOD - n)) with (dl - now + (k + 1) * PERIOD) by lia.
      rewrite Hi; lia.
    + rewrite Hi; lia.
Qed.

(** ** Linked lists *)

(** The ends of a list, with what lies beyond when it is empty. *)
Definition first_or (l : list Z) (n : option Z) : option Z := match l with [] => n | x :: _ => Some x end.
Definition last_or (l : list Z) (p : option Z) : option Z := match last l with None => p | Some x => Some x end.

(** The timers [l] are linked, after [p] and before [n]. *)
Fixpoint seg (ts : gmap Z timeout) (p : option Z) (l : list Z) (n : option Z) : Prop :=
  match l with
  | [] => True
  | x :: l => (exists t, ts !! x = Some t /\ to_prev t = p /\ to_next t = first_or l n) /\ seg ts (Some x) l n
  end.

Lemma first_or_app l1 l2 n : first_or (l1 ++ l2) n = first_or l1 (first_or l2 n).
Proof. by destruct l1. Qed.
Lemma last_or_cons x l p : last_or (x :: l) p = last_or l (Some x).
Proof. unfold last_or. destruct l as [|y l]; [done|]. rewrite last_cons_cons. by destruct (last (y :: l)) eqn:E; [|apply last_None in E]. Qed.
Lemma last_or_snoc l x p : last_or (l ++ [x]) p = Some x.
Proof. unfold last_or. by rewrite last_snoc. Qed.

Lemma links_app ts l1 l2 : forall p n, seg ts p (l1 ++ l2) n <->
  seg ts p l1 (first_or l2 n) /\ seg ts (last_or l1 p) l2 n.
Proof.
  induction l1 as [|x l1 IH]; intros p n; [simpl; tauto|].
  simpl. rewrite IH, first_or_app, last_or_cons. tauto.
Qed.

Lemma seg_frame ts l x t : forall p n, x ∉ l -> seg (<[x := t]> ts) p l n <-> seg ts p l n.
Proof.
  induction l as [|y l IH]; intros p n Hx; [done|]. apply not_elem_of_cons in Hx as [? ?].
  simpl. rewrite IH by done. by rewrite lookup_insert_ne by done.
Qed.

Lemma seg_in ts l x : forall p n, seg ts p l n -> x ∈ l -> exists t, ts !! x = Some t.
Proof.
  induction l as [|y l IH]; intros p n Hs Hx; [by apply elem_of_nil in Hx|].
  destruct Hs as [(t & ? & _) Hs]. apply elem_of_cons in Hx as [->|Hx]; eauto.
Qed.

Lemma seg_length ts l : forall p n, seg ts p l n -> NoDup l -> (length l <= size ts)%nat.
Proof. intros p n Hs. apply NoDup_size. intros x Hx. by eapply seg_in. Qed.

(** ** Abstract specification

    A timer that is armed: its object, its absolute time and its type. *)
Record entry := mk_entry { e_to : Z; e_dl : Z; e_type : Z }.

(** The pending timers by time, and the due ones in the order they became due. *)
Record tqueue := mk_tq { pend : list entry; dueq : list entry }.

Definition before (T : Z) (e : entry) : Prop := e_dl e <= T.
#[global] Instance before_dec T e : Decision (before T e).
Proof. unfold before. apply _. Defined.

Definition spec_move (now : Z) (s : tqueue) : tqueue :=
  mk_tq (filter (fun e => ~ before now e) (pend s)) (dueq s ++ filter (before now) (pend s)).
(** After every timer that is not later. *)
Definition spec_insert (e : entry) (l : list entry) : list entry :=
  filter (before (e_dl e)) l ++ e :: filter (fun e' => ~ before (e_dl e) e') l.
Definition spec_arm (now : Z) (e : entry) (s : tqueue) : tqueue :=
  let s := spec_move now s in mk_tq (spec_insert e (pend s)) (dueq s).
Definition spec_disarm (to : Z) (s : tqueue) : tqueue :=
  mk_tq (filter (fun e => e_to e <> to) (pend s)) (filter (fun e => e_to e <> to) (dueq s)).

Definition armed (s : tqueue) : list Z := e_to <$> (pend s ++ dueq s).

(** ** Representation *)
Definition by_time (a b : entry) : Prop := e_dl a <= e_dl b.

Definition holds (ts : gmap Z timeout) (e : entry) : Prop :=
  0 <= e_type e < 16 /\ exists t, ts !! e_to e = Some t /\
    timeout_type t = e_type e * PERIOD + e_dl e mod PERIOD.

(** The pointers of a manager that holds the lists [P] and [D]. *)
Definition ends (m : timeout_manager) (P D : list Z) : Prop :=
  timeouts_first m = first_or P None /\ timeouts_last m = last P /\
  due_first m = first_or D None /\ due_last m = last D.

Record rep (now : Z) (m : timeout_manager) (s : tqueue) : Prop := {
  rep_pend : seg (timers m) None (e_to <$> pend s) None;
  rep_due : seg (timers m) None (e_to <$> dueq s) None;
  rep_ends : ends m (e_to <$> pend s) (e_to <$> dueq s);
  rep_nodup : NoDup (armed s);
  rep_holds : Forall (holds (timers m)) (pend s ++ dueq s);
  rep_sorted : StronglySorted by_time (pend s);
  rep_near : Forall (fun e => - HALF < e_dl e - now < HALF) (pend s);
}.

(** ** Links as pure updates *)
Definition upd_next (ts : gmap Z timeout) (p : option Z) (v : option Z) : gmap Z timeout :=
  match p with None => ts | Some p => alter (fun t => t <| to_next := v |>) p ts end.
Definition upd_prev (ts : gmap Z timeout) (p : option Z) (v : option Z) : gmap Z timeout :=
  match p with None => ts | Some p => alter (fun t => t <| to_prev := v |>) p ts end.

(** Two memories with the same timers, of the same times and types. *)
Definition same_types (ts ts' : gmap Z timeout) : Prop :=
  forall k, timeout_type <$> ts !! k = timeout_type <$> ts' !! k.

Lemma same_types_next ts p v : same_types ts (upd_next ts p v).
Proof.
  intros k. destruct p as [p|]; [|done]. simpl. destruct (decide (p = k)) as [->|].
  - rewrite lookup_alter_eq. by destruct (ts !! k).
  - by rewrite lookup_alter_ne.
Qed.
Lemma same_types_prev ts p v : same_types ts (upd_prev ts p v).
Proof.
  intros k. destruct p as [p|]; [|done]. simpl. destruct (decide (p = k)) as [->|].
  - rewrite lookup_alter_eq. by destruct (ts !! k).
  - by rewrite lookup_alter_ne.
Qed.
Lemma same_types_trans a b c : same_types a b -> same_types b c -> same_types a c.
Proof. intros H1 H2 k. by rewrite H1. Qed.
Lemma same_types_in a b k t : same_types a b -> a !! k = Some t -> exists t', b !! k = Some t'.
Proof. intros Hs E. specialize (Hs k). rewrite E in Hs. destruct (b !! k); [eauto|done]. Qed.
Lemma holds_same a b e : same_types a b -> holds a e -> holds b e.
Proof.
  intros Hs (Ht & t & E & Hty). split; [done|]. specialize (Hs (e_to e)). rewrite E in Hs.
  destruct (b !! e_to e) as [t'|]; [|done]. exists t'. injection Hs as Hs. by rewrite <- Hs.
Qed.

Lemma upd_next_ne ts q v k : q <> Some k -> upd_next ts q v !! k = ts !! k.
Proof. destruct q as [q|]; [|done]. intros. simpl. rewrite lookup_alter_ne; congruence. Qed.
Lemma upd_prev_ne ts q v k : q <> Some k -> upd_prev ts q v !! k = ts !! k.
Proof. destruct q as [q|]; [|done]. intros. simpl. rewrite lookup_alter_ne; congruence. Qed.
Lemma upd_next_at ts k v : upd_next ts (Some k) v !! k = (fun t => t <| to_next := v |>) <$> ts !! k.
Proof. apply lookup_alter_eq. Qed.
Lemma upd_prev_at ts k v : upd_prev ts (Some k) v !! k = (fun t => t <| to_prev := v |>) <$> ts !! k.
Proof. apply lookup_alter_eq. Qed.

Lemma upd_next_in ts p v k : is_Some (ts !! k) -> is_Some (upd_next ts p v !! k).
Proof. intros [t E]. destruct (same_types_in _ _ _ _ (same_types_next ts p v) E). eauto. Qed.
Lemma upd_prev_in ts p v k : is_Some (ts !! k) -> is_Some (upd_prev ts p v !! k).
Proof. intros [t E]. destruct (same_types_in _ _ _ _ (same_types_prev ts p v) E). eauto. Qed.

Lemma set_next_ok m p v : is_Some (timers m !! p) ->
  set_next m p v = Ok (m <| timers := upd_next (timers m) (Some p) v |>).
Proof.
  intros [t E]. unfold set_next, get_to, put_to. rewrite E. osimpl. simpl. do 2 f_equal.
  apply map_eq. intros k. destruct (decide (p = k)) as [->|].
  - by rewrite lookup_alter_eq, lookup_insert_eq, E.
  - by rewrite lookup_alter_ne, lookup_insert_ne.
Qed.
Lemma set_prev_ok m p v : is_Some (timers m !! p) ->
  set_prev m p v = Ok (m <| timers := upd_prev (timers m) (Some p) v |>).
Proof.
  intros [t E]. unfold set_prev, get_to, put_to. rewrite E. osimpl. simpl. do 2 f_equal.
  apply map_eq. intros k. destruct (decide (p = k)) as [->|].
  - by rewrite lookup_alter_eq, lookup_insert_eq, E.
  - by rewrite lookup_alter_ne, lookup_insert_ne.
Qed.

Lemma seg_is_Some ts l x : forall p n, seg ts p l n -> x ∈ l -> is_Some (ts !! x).
Proof. intros. edestruct seg_in; eauto. Qed.

Lemma seg_next_frame ts l q v : forall p n, (forall x, q = Some x -> x ∉ l) ->
  seg (upd_next ts q v) p l n <-> seg ts p l n.
Proof.
  induction l as [|y l IH]; intros p n Hq; [done|]. simpl. rewrite IH.
  2: { intros x Hx Hin. apply (Hq x Hx). by right. }
  destruct q as [q|]; [|done]. simpl. rewrite lookup_alter_ne; [done|].
  intros ->. apply (Hq y eq_refl). left.
Qed.
Lemma seg_prev_frame ts l q v : forall p n, (forall x, q = Some x -> x ∉ l) ->
  seg (upd_prev ts q v) p l n <-> seg ts p l n.
Proof.
  induction l as [|y l IH]; intros p n Hq; [done|]. simpl. rewrite IH.
  2: { intros x Hx Hin. apply (Hq x Hx). by right. }
  destruct q as [q|]; [|done]. simpl. rewrite lookup_alter_ne; [done|].
  intros ->. apply (Hq y eq_refl). left.
Qed.

(** Redirecting the link out of either end. *)
Lemma seg_upd_next ts p l n v :
  seg ts p l n -> NoDup l -> seg (upd_next ts (last l) v) p l v.
Proof.
  destruct l as [|x l _] using rev_ind; [done|]. rewrite last_snoc, !links_app.
  intros [Hl [(t & Ht & Hp & _) _]] (_ & Hd & _)%NoDup_app. split.
  - apply seg_next_frame; [|done]. intros y [= <-] Hx. apply (Hd x Hx). left.
  - split; [|done]. exists (t <| to_next := v |>). simpl. by rewrite lookup_alter_eq, Ht.
Qed.
Lemma seg_upd_prev ts p l n v :
  seg ts p l n -> NoDup l -> seg (upd_prev ts (first_or l None) v) v l n.
Proof.
  destruct l as [|x l]; [done|]. intros [(t & Ht & _ & Hx) Hl] [Hin _]%NoDup_cons. split.
  - exists (t <| to_prev := v |>). simpl. by rewrite lookup_alter_eq, Ht.
  - apply seg_prev_frame; [|done]. by intros y [= <-].
Qed.

Lemma last_or_None l : last_or l None = last l.
Proof. unfold last_or. by destruct (last l). Qed.
Lemma last_in (l : list Z) x : last l = Some x -> x ∈ l.
Proof. intros [k ->]%last_Some. apply elem_of_app. right. left. Qed.
Lemma first_in (l : list Z) x : first_or l None = Some x -> x ∈ l.
Proof. destruct l; [done|]. intros [= <-]. left. Qed.

(** Taking [x] out of a list, and putting it in. *)
Lemma seg_unlink ts A x B : NoDup (A ++ x :: B) -> seg ts None (A ++ x :: B) None ->
  seg (upd_prev (upd_next ts (last A) (first_or B None)) (first_or B None) (last A)) None (A ++ B) None.
Proof.
  intros (HA & Hd & [Hx HB]%NoDup_cons)%NoDup_app [Hs1 [_ Hs2]]%links_app.
  assert (forall y, y ∈ A -> y ∉ B) as Hdis by (intros y Hy Hy'; apply (Hd y Hy); by right).
  apply links_app. rewrite last_or_None. split.
  - apply seg_prev_frame; [intros y Hy%first_in Hy'; by apply (Hdis y)|]. by eapply seg_upd_next.
  - eapply seg_upd_prev; [|done]. apply seg_next_frame; [|done].
    intros y Hy%last_in Hy'. by apply (Hdis y).
Qed.

Lemma seg_link ts ty A x B : NoDup (A ++ x :: B) -> seg ts None (A ++ B) None ->
  seg (upd_prev (upd_next (<[x := mk_timeout ty (first_or B None) (last A)]> ts) (last A) (Some x))
         (first_or B None) (Some x)) None (A ++ x :: B) None.
Proof.
  intros (HA & Hd & [Hx HB]%NoDup_cons)%NoDup_app [Hs1 Hs2]%links_app.
  assert (x ∉ A) as HxA by (intros Hy; apply (Hd x Hy); left).
  assert (forall y, y ∈ A -> y ∉ B) as Hdis by (intros y Hy Hy'; apply (Hd y Hy); by right).
  apply links_app. simpl first_or. rewrite last_or_None in *. split.
  - apply seg_prev_frame; [intros y Hy%first_in Hy'; by apply (Hdis y)|].
    eapply seg_upd_next; [|done]. by apply seg_frame.
  - split.
    + exists (mk_timeout ty (first_or B None) (last A)).
      destruct (first_or B None) as [b|] eqn:Eb; simpl; [rewrite lookup_alter_ne by (intros ->; by apply Hx, first_in)|];
        (destruct (last A) as [a|] eqn:Ea; simpl; [rewrite lookup_alter_ne by (intros ->; by apply HxA, last_in)|]);
        by rewrite lookup_insert_eq.
    + eapply seg_upd_prev; [|done]. apply seg_next_frame; [intros y Hy%last_in Hy'; by apply (Hdis y)|].
      by apply seg_frame.
Qed.

(** ** The operations refine the specification *)
Lemma holds_due now m s e : rep now m s -> e ∈ pend s ->
  exists t, timers m !! e_to e = Some t /\ timeout_due t (now mod PERIOD) = bool_decide (before now e) /\
    rel_time (now mod PERIOD) t = e_dl e - now.
Proof.
  intros R He. pose proof (proj1 (Forall_forall _ _) (rep_holds _ _ _ R) e) as Hh.
  destruct Hh as (_ & t & Et & Hty); [apply elem_of_app; by left|].
  pose proof (proj1 (Forall_forall _ _) (rep_near _ _ _ R) e He) as Hn. simpl in Hn.
  exists t. assert (rel_time (now mod PERIOD) t = e_dl e - now) as Hr.
  { apply rel_deadline; [|done]. rewrite Hty, Z.add_comm, Z_mod_plus_full. by rewrite Zmod_mod. }
  split; [done|]. split; [|done]. unfold timeout_due, before. rewrite Hr.
  case_bool_decide; [apply Z.leb_le|apply Z.leb_gt]; lia.
Qed.

Lemma move_first_ok m to P D :
  ends m (to :: P) D -> NoDup (to :: P ++ D) -> seg (timers m) None (to :: P) None -> seg (timers m) None D None ->
  exists m', move_first m to = Ok m' /\ ends m' P (D ++ [to]) /\ same_types (timers m) (timers m') /\
    seg (timers m') None P None /\ seg (timers m') None (D ++ [to]) None.
Proof.
  intros (_ & Htl & Hdf & Hdl) [Hto Hnd]%NoDup_cons [(t & Et & Hp & Hnx) HP] HD.
  apply not_elem_of_app in Hto as [HtP HtD]. apply NoDup_app in Hnd as (HPn & Hdis & HDn).
  set (ts := upd_next (upd_prev (upd_next (upd_prev (timers m) (first_or P None) None) (Some to) None)
               (Some to) (last D)) (last D) (Some to)).
  assert (same_types (timers m) ts) as Hst.
  { subst ts. do 4 (eapply same_types_trans; [|first [apply same_types_next|apply same_types_prev]]).
    by intros ?. }
  assert (exists m', move_first m to = Ok m' /\ ends m' P (D ++ [to]) /\ timers m' = ts) as (m' & Hm & He & Ets).
  { unfold move_first, get_to. rewrite Et. osimpl. rewrite Hnx. unfold ends. clear Hst.
    assert (is_Some (timers m !! to)) as Hsto by eauto.
    assert (forall d, last D = Some d -> is_Some (timers m !! d)) as Hsd
      by (intros d Hd%last_in; by eapply seg_is_Some).
    destruct P as [|p P]; simpl first_or in *; osimpl;
      [|rewrite set_prev_ok by (cbn [set_field timers]; eapply (seg_is_Some _ _ _ _ _ HP); left); osimpl];
      rewrite set_next_ok by (cbn [set_field timers]; auto using upd_prev_in); osimpl;
      rewrite set_prev_ok by (cbn [set_field timers]; auto using upd_next_in, upd_prev_in); osimpl;
      cbn [set_field due_last timers]; rewrite Hdl;
      destruct (last D) as [d|] eqn:Ed; osimpl;
      try (rewrite set_next_ok by (cbn [set_field timers]; auto 8 using upd_next_in, upd_prev_in)); osimpl;
      (eexists; split; [reflexivity|]; split; [|reflexivity]);
      cbn [set_field timeouts_first timeouts_last due_first due_last first_or]; rewrite last_snoc;
      (destruct D as [|d' D]; [try discriminate Ed|try (apply last_None in Ed; discriminate Ed)]);
      split_and!; done. }
  exists m'. rewrite Ets. split_and!; try done.
  - subst ts. apply seg_next_frame.
    { intros d Hd%last_in HdP. by apply (Hdis d). }
    apply seg_prev_frame; [by intros ? [= <-]|]. apply seg_next_frame; [by intros ? [= <-]|].
    by eapply seg_upd_prev.
  - subst ts. apply links_app. simpl first_or. split.
    + eapply seg_upd_next; [|done]. apply seg_prev_frame; [by intros ? [= <-]|].
      apply seg_next_frame; [by intros ? [= <-]|]. apply seg_prev_frame; [|done].
      intros y Hy%first_in HyD. by apply (Hdis y).
    + split; [|done].
      exists (mk_timeout (timeout_type t) None (last D)). rewrite last_or_None.
      rewrite upd_next_ne by (intros Hd%last_in; done). rewrite upd_prev_at, upd_next_at.
      rewrite upd_prev_ne by (intros Hd%first_in; done). by rewrite Et.
Qed.

Lemma armed_cons e l D : armed (mk_tq (e :: l) D) = e_to e :: (e_to <$> (l ++ D)).
Proof. done. Qed.

Lemma move_first_rep now m e l D :
  rep now m (mk_tq (e :: l) D) ->
  exists m', move_first m (e_to e) = Ok m' /\ rep now m' (mk_tq l (D ++ [e])).
Proof.
  intros [HP HD He Hn Hh Hs Hb]. simpl in *. unfold armed in *. simpl in Hn. rewrite fmap_app in Hn.
  destruct (move_first_ok m (e_to e) (e_to <$> l) (e_to <$> D) He Hn HP HD) as (m' & -> & He' & Hst & HP' & HD').
  exists m'. split; [done|]. rewrite <- (fmap_app e_to D [e]) in * || idtac.
  split; simpl; rewrite ?fmap_app; try done.
  - unfold armed. simpl. rewrite !fmap_app. simpl. rewrite (app_assoc (e_to <$> l)), <- Permutation_cons_append. done.
  - eapply Forall_impl; [|intros x; by apply holds_same].
    rewrite app_assoc, <- Permutation_cons_append. done.
  - by inversion Hs.
  - by inversion Hb.
Qed.

Lemma move_due_loop_ok now l : forall fuel m D,
  rep now m (mk_tq l D) -> (length l < fuel)%nat ->
  exists m', move_due_loop fuel m (now mod PERIOD) = Ok m' /\ rep now m' (spec_move now (mk_tq l D)).
Proof.
  unfold spec_move. simpl. induction l as [|e l IH]; intros [|fuel] m D R Hf; simpl in Hf; try lia;
    cbn [move_due_loop]; destruct (rep_ends _ _ _ R) as (-> & _); simpl.
  - exists m. by rewrite app_nil_r.
  - destruct (holds_due _ _ _ e R) as (t & Et & Hdue & _); [left|].
    unfold get_to. rewrite Et. osimpl. rewrite Hdue. case_bool_decide as Hb.
    + destruct (move_first_rep _ _ _ _ _ R) as (m1 & -> & R1). osimpl.
      destruct (IH fuel m1 (D ++ [e]) R1 ltac:(lia)) as (m' & -> & R'). exists m'. split; [done|].
      rewrite filter_cons_False, (filter_cons_True (before now)) by tauto. by rewrite <- app_assoc in R'.
    + assert (Forall (fun x => ~ before now x) (e :: l)) as Hall.
      { pose proof (rep_sorted _ _ _ R) as Hs. apply StronglySorted_inv in Hs as [_ Hs].
        constructor; [done|]. eapply Forall_impl; [exact Hs|]. unfold before, by_time in *. intros; lia. }
      exists m. split; [done|].
      by rewrite (filter_all (fun x => ~ before now x) _ Hall), (filter_none (before now) _ Hall), app_nil_r.
Qed.

Lemma rep_fuel now m s : rep now m s -> (length (pend s) < list_fuel m)%nat.
Proof.
  intros R. unfold list_fuel. pose proof (rep_nodup _ _ _ R) as Hn. unfold armed in Hn.
  rewrite fmap_app in Hn. apply NoDup_app in Hn as (Hn & _ & _).
  pose proof (seg_length _ _ _ _ (rep_pend _ _ _ R) Hn) as Hl. rewrite length_fmap in Hl. lia.
Qed.

Lemma move_due_timeouts_ok now m s : rep now m s ->
  exists m', move_due_timeouts m (now mod PERIOD) = Ok m' /\ rep now m' (spec_move now s).
Proof. intros R. destruct s as [l D]. by apply move_due_loop_ok; [|apply (rep_fuel now m (mk_tq l D))]. Qed.

Lemma armed_move now s : armed (spec_move now s) ≡ₚ armed s.
Proof.
  unfold armed, spec_move. simpl. apply fmap_Permutation. rewrite app_assoc, (Permutation_app_comm _ (dueq s)).
  rewrite <- app_assoc, (Permutation_app_comm (pend s)). apply Permutation_app_head.
  rewrite Permutation_app_comm. induction (pend s) as [|e l IH]; [done|].
  rewrite !filter_cons. destruct (decide (before now e)); [rewrite decide_False by tauto; simpl; by rewrite IH|].
  rewrite decide_True by done. rewrite <- Permutation_middle. by rewrite IH.
Qed.

(** *** Arming *)
Lemma split_sorted T l : StronglySorted by_time l ->
  l = filter (before T) l ++ filter (fun e => ~ before T e) l.
Proof.
  induction 1 as [|e l Hs IH Hl]; [done|]. rewrite !filter_cons.
  destruct (decide (before T e)) as [Hb|Hb].
  - rewrite decide_False by tauto. simpl. by rewrite <- IH.
  - rewrite decide_True by done. rewrite (filter_none (before T)), (filter_all (fun x => ~ before T x)); [done|..];
      (eapply Forall_impl; [exact Hl|]); unfold before, by_time in *; intros; lia.
Qed.

Lemma find_after_ok now m s us l1 l2 l3 : forall fuel,
  rep now m s -> pend s = l1 ++ l2 ++ l3 -> (length l2 < fuel)%nat -> 0 <= us < HALF ->
  Forall (fun e => now < e_dl e) (pend s) ->
  Forall (before (now + us)) l1 -> Forall (fun e => ~ before (now + us) e) l2 ->
  find_after fuel m (now mod PERIOD) us (last (e_to <$> (l1 ++ l2))) = Ok (last (e_to <$> l1)).
Proof.
  revert l3. induction l2 as [|e l2 IH] using rev_ind; intros l3 [|fuel] R Hp Hf Hus Hdue H1 H2;
    try (rewrite ?length_app in Hf; simpl in Hf; lia); cbn [find_after].
  - rewrite app_nil_r. destruct (last (e_to <$> l1)) as [p|] eqn:El; [|done].
    assert (exists e, e ∈ pend s /\ e_to e = p /\ before (now + us) e) as (e & He & <- & Hb).
    { apply last_in, list_elem_of_fmap in El as (e & -> & He). exists e. rewrite Hp.
      split; [apply elem_of_app; by left|]. split; [done|]. by eapply (proj1 (Forall_forall _ _) H1). }
    destruct (holds_due _ _ _ e R He) as (t & Et & _ & Hr). unfold get_to. rewrite Et. osimpl. rewrite Hr.
    pose proof (proj1 (Forall_forall _ _) Hdue e He) as Hlt. simpl in Hlt. unfold before in Hb.
    rewrite u32_small by lia. rewrite Z.gtb_ltb, (proj2 (Z.ltb_ge _ _)) by lia. done.
  - rewrite app_assoc, fmap_app. change (e_to <$> [e]) with [e_to e]. rewrite last_snoc. rewrite length_app in Hf. simpl in Hf.
    apply Forall_app in H2 as [H2 [He2 _]%Forall_cons].
    assert (e ∈ pend s) as He by (rewrite Hp; set_solver).
    destruct (holds_due _ _ _ e R He) as (t & Et & _ & Hr). unfold get_to. rewrite Et. osimpl. rewrite Hr.
    pose proof (proj1 (Forall_forall _ _) Hdue e He) as Hlt. simpl in Hlt. unfold before in He2.
    pose proof (proj1 (Forall_forall _ _) (rep_near _ _ _ R) e He) as Hnr. simpl in Hnr.
    rewrite u32_small by lia. rewrite Z.gtb_ltb, (proj2 (Z.ltb_lt _ _)) by lia.
    assert (to_prev t = last (e_to <$> (l1 ++ l2))) as ->.
    { pose proof (rep_pend _ _ _ R) as Hs. rewrite Hp in Hs.
      replace (l1 ++ (l2 ++ [e]) ++ l3) with ((l1 ++ l2) ++ e :: l3) in Hs by (by rewrite <- !app_assoc).
      rewrite fmap_app in Hs. apply links_app in Hs as [_ [(t' & Et' & Hpv & _) _]].
      rewrite Et in Et'. injection Et' as <-. by rewrite Hpv, last_or_None. }
    apply (IH (e :: l3)); try done; [|lia]. by rewrite Hp, <- app_assoc.
Qed.

Lemma seg_last_lookup ts l x : forall p n, seg ts p l n -> last l = Some x ->
  exists t, ts !! x = Some t /\ to_next t = n.
Proof.
  intros p n Hs [k ->]%last_Some. apply links_app in Hs as [_ [(t & Et & _ & Hn) _]]. eauto.
Qed.

(** Linking [to] between the timers [A] and [B]. *)
Lemma link_ok m to ty A B D :
  ends m (A ++ B) D -> NoDup (A ++ to :: B) -> seg (timers m) None (A ++ B) None ->
  let m1 := put_to m to (mk_timeout ty (first_or B None) (last A)) in
  exists m', (m ← match last A with
                  | None => mret (m1 <| timeouts_first := Some to |>)
                  | Some p => set_next m1 p (Some to)
                  end;
              match first_or B None with
              | None => mret (m <| timeouts_last := Some to |>)
              | Some n => set_prev m n (Some to)
              end) = Ok m' /\ ends m' (A ++ to :: B) D /\
    timers m' = upd_prev (upd_next (<[to := mk_timeout ty (first_or B None) (last A)]> (timers m))
                            (last A) (Some to)) (first_or B None) (Some to).
Proof.
  intros (Hf & Hl & Hdf & Hdl) Hn Hs m1.
  assert (forall x, x ∈ A ++ B -> is_Some (timers m1 !! x)) as Hin.
  { intros x Hx. apply elem_of_dom. unfold m1, put_to. simpl. rewrite dom_insert. apply elem_of_union_r.
    apply elem_of_dom. by eapply seg_is_Some. }
  destruct (last A) as [a|] eqn:Ea.
  - rewrite set_next_ok by (apply Hin, elem_of_app; left; by apply last_in). osimpl.
    destruct B as [|b B]; simpl first_or in *; osimpl.
    + eexists. split; [reflexivity|]. split; [|reflexivity].
      unfold ends. rewrite last_app_cons. destruct A as [|a' A]; [done|]. by split_and!.
    + rewrite set_prev_ok by (cbn [set_field timers]; apply upd_next_in, Hin; set_solver).
      eexists. split; [reflexivity|]. split; [|reflexivity].
      unfold ends. rewrite last_app_cons in *. destruct A as [|a' A]; [done|]. by split_and!.
  - apply last_None in Ea as ->. simpl in *. osimpl.
    destruct B as [|b B]; simpl first_or in *; osimpl.
    + eexists. split; [reflexivity|]. split; [|reflexivity]. by split_and!.
    + rewrite set_prev_ok by (cbn [set_field timers]; apply Hin; left).
      eexists. split; [reflexivity|]. split; [|reflexivity]. by split_and!.
Qed.

Definition fresh_entry (now to us type : Z) : entry := mk_entry to (now + us) type.

Lemma arm_ok now m s to us type :
  rep now m s -> to ∉ armed s -> 0 <= us < HALF -> 0 <= type < 16 ->
  exists m', util_timeout_arm_ts m to us type (now mod PERIOD) = Ok m' /\
    rep now m' (spec_arm now (fresh_entry now to us type) s).
Proof.
  intros R0 Hto0 Hus Hty. unfold util_timeout_arm_ts. cbv zeta. rewrite (mask_mod (now mod PERIOD)), Zmod_mod.
  change (Z.shiftl 1 (TIMEOUT_BITS - 1)) with HALF. rewrite Z.geb_leb, (proj2 (Z.leb_gt _ _)) by lia.
  destruct (move_due_timeouts_ok now m s R0) as (m1 & -> & R). osimpl.
  assert (to ∉ armed (spec_move now s)) as Hto by (by rewrite armed_move).
  unfold spec_arm. cbv zeta. set (s1 := spec_move now s) in *.
  assert (Forall (fun e => now < e_dl e) (pend s1)) as Hdue.
  { apply Forall_forall. intros e [He _]%list_elem_of_filter. unfold before in He. lia. }
  clearbody s1. clear R0 Hto0 m s. set (T := now + us).
  assert (pend s1 = filter (before T) (pend s1) ++ filter (fun e => ~ before T e) (pend s1)) as Hsp
    by apply split_sorted, (rep_sorted _ _ _ R).
  unfold spec_insert. simpl e_dl. fold T.
  set (A := filter (before T) (pend s1)) in *. set (B := filter (fun e => ~ before T e) (pend s1)) in *.
  assert (Forall (before T) A) as HA by (apply Forall_forall; by intros e [? _]%list_elem_of_filter).
  assert (Forall (fun e => ~ before T e) B) as HB by (apply Forall_forall; by intros e [? _]%list_elem_of_filter).
  clearbody A B. destruct s1 as [P D]. cbn [pend dueq] in *. subst P.
  pose proof (rep_fuel _ _ _ R) as Hfuel. simpl in Hfuel. rewrite length_app in Hfuel.
  destruct (rep_ends _ _ _ R) as (Hf & Hl & Hdf & Hdl). simpl in Hf, Hl.
  pose proof (find_after_ok now m1 (mk_tq (A ++ B) D) us A B []) as Hfind. rewrite app_nil_r in Hfind.
  rewrite Hl, Hfind by (done || unfold list_fuel in *; lia). osimpl. clear Hfind.
  pose proof (rep_pend _ _ _ R) as HS. simpl in HS. rewrite fmap_app in HS, Hf, Hl.
  pose proof (rep_ends _ _ _ R) as HE. simpl in HE. rewrite fmap_app in HE.
  assert (match last (e_to <$> A) with
          | Some p => t ← get_to m1 p; mret (to_next t)
          | None => mret (timeouts_first m1)
          end = Ok (first_or (e_to <$> B) None)) as ->.
  { destruct (last (e_to <$> A)) as [a|] eqn:Ea.
    - apply links_app in HS as [HS _]. destruct (seg_last_lookup _ _ _ _ _ HS Ea) as (t & Et & Ht).
      unfold get_to. rewrite Et. osimpl. by rewrite Ht.
    - apply last_None in Ea. rewrite Ea in Hf. by rewrite Hf. }
  osimpl. set (ty := Z.lor _ _).
  assert (ty = type * PERIOD + T mod PERIOD) as Ety.
  { subst ty T. rewrite mask_mod. pose proof (Z.mod_pos_bound now PERIOD ltac:(lia)).
    rewrite (u32_small (now mod PERIOD + us)), Zplus_mod_idemp_l by lia.
    rewrite u32_small by (change (Z.shiftl type TIMEOUT_BITS) with (Z.shiftl type 28); rewrite Z.shiftl_mul_pow2; simpl; lia).
    rewrite Z.lor_comm. unfold TIMEOUT_BITS. rewrite lor_shiftl by (simpl; try apply Z.mod_pos_bound; lia). simpl. lia. }
  pose proof (rep_nodup _ _ _ R) as Hn. unfold armed in Hto, Hn. cbn [pend dueq] in Hto, Hn.
  assert (NoDup ((e_to <$> A) ++ to :: (e_to <$> B) ++ (e_to <$> D))) as Hn2.
  { rewrite <- Permutation_middle. apply NoDup_cons. rewrite app_assoc, <- !fmap_app. done. }
  assert (NoDup ((e_to <$> A) ++ to :: (e_to <$> B))) as Hn3.
  { rewrite app_comm_cons, app_assoc in Hn2. by apply NoDup_app in Hn2 as (? & _ & _). }
  destruct (link_ok m1 to ty _ _ _ HE Hn3 HS) as (m' & -> & HE' & Etm). exists m'. split; [done|].
  assert (same_types (<[to := mk_timeout ty (first_or (e_to <$> B) None) (last (e_to <$> A))]> (timers m1))
    (timers m')) as Hst.
  { rewrite Etm. eapply same_types_trans; [|apply same_types_prev]. apply same_types_next. }
  split; simpl pend; simpl dueq.
  - rewrite fmap_app. simpl. rewrite Etm. by apply seg_link.
  - assert (forall x, x ∈ (e_to <$> A) ++ (e_to <$> B) -> x ∉ e_to <$> D) as Hdis.
    { rewrite !fmap_app in Hn. by apply NoDup_app in Hn as (_ & Hd & _). }
    rewrite Etm. apply seg_prev_frame; [intros x Hx%first_in; apply Hdis, elem_of_app; by right|].
    apply seg_next_frame; [intros x Hx%last_in; apply Hdis, elem_of_app; by left|].
    apply seg_frame; [|apply (rep_due _ _ _ R)]. rewrite fmap_app in Hto. set_solver.
  - by rewrite fmap_app.
  - unfold armed. simpl. rewrite !fmap_app. simpl. by rewrite <- app_assoc.
  - rewrite <- app_assoc. simpl. rewrite <- Permutation_middle, app_assoc. constructor.
    + split; [done|]. eapply holds_same; [exact Hst|]. split; [done|].
      exists (mk_timeout ty (first_or (e_to <$> B) None) (last (e_to <$> A))). simpl. rewrite lookup_insert_eq. auto.
    + apply Forall_forall. intros x Hx. eapply holds_same; [exact Hst|].
      destruct (proj1 (Forall_forall _ _) (rep_holds _ _ _ R) x Hx) as (? & t & Et & ?).
      split; [done|]. exists t. rewrite lookup_insert_ne; [done|]. intros ->. apply Hto. by apply list_elem_of_fmap_2.
  - pose proof (rep_sorted _ _ _ R) as Hsrt. simpl in Hsrt. apply StronglySorted_app in Hsrt as (Hc & SA & SB).
    apply StronglySorted_app. split_and!; [|done|].
    + intros x y Hx [->|Hy]%elem_of_cons; [|by apply Hc]. by eapply (proj1 (Forall_forall _ _) HA).
    + constructor; [done|]. eapply Forall_impl; [exact HB|]. unfold before, by_time. simpl. intros; lia.
  - pose proof (rep_near _ _ _ R) as Hnr. simpl in Hnr. apply Forall_app in Hnr as [? ?].
    apply Forall_app. split; [done|]. constructor; [simpl; subst T; lia|done].
Qed.

(** *** Disarming and firing *)
Lemma StronglySorted_sublist {A} (R : A -> A -> Prop) l k :
  sublist l k -> StronglySorted R k -> StronglySorted R l.
Proof.
  induction 1 as [|x l k Hs IH|x l k Hs IH]; [done|..]; intros [Hk Hx]%StronglySorted_inv; [|auto].
  constructor; [auto|]. apply Forall_forall. intros y Hy. apply (proj1 (Forall_forall _ _) Hx).
  by eapply elem_of_sublist.
Qed.
Lemma Forall_sublist {A} (P : A -> Prop) l k : sublist l k -> Forall P k -> Forall P l.
Proof. induction 1; inversion 1; auto. Qed.

(** Fewer timers in the lists, with the same times and types. *)
Lemma rep_without now m m' s s' :
  rep now m s -> same_types (timers m) (timers m') ->
  seg (timers m') None (e_to <$> pend s') None -> seg (timers m') None (e_to <$> dueq s') None ->
  ends m' (e_to <$> pend s') (e_to <$> dueq s') ->
  sublist (pend s') (pend s) -> sublist (dueq s') (dueq s) -> rep now m' s'.
Proof.
  intros R Hst HP HD HE H1 H2.
  assert (sublist (pend s' ++ dueq s') (pend s ++ dueq s)) as H3 by by apply sublist_app.
  split; try done.
  - eapply sublist_NoDup; [apply (rep_nodup _ _ _ R)|]. unfold armed. by apply fmap_sublist.
  - eapply Forall_impl; [eapply Forall_sublist; [exact H3|apply (rep_holds _ _ _ R)]|].
    intros e. by apply holds_same.
  - eapply StronglySorted_sublist; [exact H1|apply (rep_sorted _ _ _ R)].
  - eapply Forall_sublist; [exact H1|apply (rep_near _ _ _ R)].
Qed.

Lemma seg_middle ts A x B : seg ts None (A ++ x :: B) None ->
  exists t, ts !! x = Some t /\ to_prev t = last A /\ to_next t = first_or B None.
Proof. intros [_ [(t & Et & Hp & Hn) _]]%links_app. rewrite last_or_None in Hp. eauto. Qed.

Lemma unlinked_types ts A B :
  same_types ts (upd_prev (upd_next ts (last A) (first_or B None)) (first_or B None) (last A)).
Proof. eapply same_types_trans; [apply same_types_next|apply same_types_prev]. Qed.

(** A list that does not share a timer with the one [x] is unlinked from. *)
Lemma seg_unlink_frame ts A B l p n v w :
  (forall x, x ∈ A ++ B -> x ∉ l) ->
  seg (upd_prev (upd_next ts (last A) v) (first_or B None) w) p l n <-> seg ts p l n.
Proof.
  intros Hd. rewrite seg_prev_frame by (intros x Hx%first_in; apply Hd, elem_of_app; by right).
  apply seg_next_frame. intros x Hx%last_in. apply Hd, elem_of_app. by left.
Qed.

Lemma disarm_pend m D A to B :
  ends m (A ++ to :: B) D -> NoDup (A ++ to :: B) -> seg (timers m) None (A ++ to :: B) None ->
  exists m', util_timeout_disarm m to = Ok m' /\ ends m' (A ++ B) D /\
    timers m' = upd_prev (upd_next (timers m) (last A) (first_or B None)) (first_or B None) (last A).
Proof.
  intros (Hf & Hl & Hdf & Hdl) Hn Hs.
  destruct (seg_middle _ _ _ _ Hs) as (t & Et & Hpv & Hnx).
  assert (forall y, y ∈ A ++ to :: B -> is_Some (timers m !! y)) as Hin by (intros; by eapply seg_is_Some).
  unfold util_timeout_disarm, get_to. rewrite Et. osimpl. rewrite Hpv, Hnx. unfold is_ptr, ends.
  clear Hs Hn Et Hpv Hnx.
  destruct A as [|a A _] using rev_ind; destruct B as [|b B]; rewrite ?last_snoc; cbn [last first_or]; osimpl.
  - rewrite Hf, bool_decide_true by done. osimpl. cbn [set_field timeouts_last].
    rewrite Hl, bool_decide_true by done. eexists. split; [reflexivity|]. by split_and!.
  - rewrite Hf, bool_decide_true by done. osimpl.
    rewrite set_prev_ok by (cbn [set_field timers]; apply Hin; set_solver).
    eexists. split; [reflexivity|]. cbn [set_field timers timeouts_first timeouts_last due_first due_last].
    simpl in Hl. by split_and!.
  - rewrite set_next_ok by (apply Hin; set_solver). osimpl. cbn [set_field timeouts_last].
    rewrite Hl, last_app_cons, bool_decide_true by done. eexists. split; [reflexivity|].
    cbn [set_field timers timeouts_first timeouts_last due_first due_last]. rewrite app_nil_r, last_snoc.
    rewrite Hf, first_or_app. split_and!; try done. by destruct A.
  - rewrite set_next_ok by (apply Hin; set_solver). osimpl.
    rewrite set_prev_ok by (cbn [set_field timers]; apply upd_next_in, Hin; set_solver).
    eexists. split; [reflexivity|]. cbn [set_field timers timeouts_first timeouts_last due_first due_last].
    rewrite Hf, Hl, !last_app_cons. split_and!; try done. by destruct A.
Qed.

Lemma disarm_due m P A to B :
  ends m P (A ++ to :: B) -> to ∉ P -> NoDup (A ++ to :: B) -> seg (timers m) None (A ++ to :: B) None ->
  exists m', util_timeout_disarm m to = Ok m' /\ ends m' P (A ++ B) /\
    timers m' = upd_prev (upd_next (timers m) (last A) (first_or B None)) (first_or B None) (last A).
Proof.
  intros (Hf & Hl & Hdf & Hdl) HtP Hn Hs.
  destruct (seg_middle _ _ _ _ Hs) as (t & Et & Hpv & Hnx).
  assert (forall y, y ∈ A ++ to :: B -> is_Some (timers m !! y)) as Hin by (intros; by eapply seg_is_Some).
  unfold util_timeout_disarm, get_to. rewrite Et. osimpl. rewrite Hpv, Hnx. unfold is_ptr, ends.
  assert (timeouts_first m <> Some to) as Hnf by (rewrite Hf; by intros ?%first_in).
  assert (timeouts_last m <> Some to) as Hnl by (rewrite Hl; by intros ?%last_in).
  clear Hs Hn Et Hpv Hnx.
  destruct A as [|a A _] using rev_ind; destruct B as [|b B]; rewrite ?last_snoc; cbn [last first_or]; osimpl.
  - rewrite bool_decide_false by done. rewrite Hdf, bool_decide_true by done. osimpl.
    cbn [set_field timeouts_last due_last]. rewrite bool_decide_false by done.
    rewrite Hdl, bool_decide_true by done. eexists. split; [reflexivity|]. by split_and!.
  - rewrite bool_decide_false by done. rewrite Hdf, bool_decide_true by done. osimpl.
    rewrite set_prev_ok by (cbn [set_field timers]; apply Hin; set_solver).
    eexists. split; [reflexivity|]. cbn [set_field timers timeouts_first timeouts_last due_first due_last].
    simpl in Hdl. by split_and!.
  - rewrite set_next_ok by (apply Hin; set_solver). osimpl. cbn [set_field timeouts_last due_last].
    rewrite bool_decide_false by done.
    rewrite Hdl, last_app_cons, bool_decide_true by done. eexists. split; [reflexivity|].
    cbn [set_field timers timeouts_first timeouts_last due_first due_last]. rewrite app_nil_r, last_snoc.
    rewrite Hdf, first_or_app. split_and!; try done. by destruct A.
  - rewrite set_next_ok by (apply Hin; set_solver). osimpl.
    rewrite set_prev_ok by (cbn [set_field timers]; apply upd_next_in, Hin; set_solver).
    eexists. split; [reflexivity|]. cbn [set_field timers timeouts_first timeouts_last due_first due_last].
    rewrite Hdf, Hdl, !last_app_cons. split_and!; try done. by destruct A.
Qed.

Lemma armed_split to s : to ∈ armed s ->
  (exists A e B, pend s = A ++ e :: B /\ e_to e = to) \/ (exists A e B, dueq s = A ++ e :: B /\ e_to e = to).
Proof.
  unfold armed. rewrite fmap_app. intros [H|H]%elem_of_app; [left|right];
    apply list_elem_of_fmap in H as (e & -> & (A & B & ->)%list_elem_of_split); by exists A, e, B.
Qed.

Lemma filter_others to A e B : e_to e = to -> NoDup (e_to <$> (A ++ e :: B)) ->
  filter (fun e => e_to e <> to) (A ++ e :: B) = A ++ B.
Proof.
  intros <- Hn. rewrite fmap_app in Hn. apply NoDup_app in Hn as (_ & Hd & [Hx _]%NoDup_cons).
  rewrite filter_app, filter_cons_False by auto.
  rewrite !filter_all; [done|apply Forall_forall; intros y Hy E..].
  - apply Hx. rewrite <- E. by apply list_elem_of_fmap_2.
  - apply (Hd (e_to y)); [by apply list_elem_of_fmap_2|]. rewrite E. left.
Qed.
Lemma filter_absent to (l : list entry) : to ∉ e_to <$> l -> filter (fun e => e_to e <> to) l = l.
Proof. intros H. apply filter_all, Forall_forall. intros e He <-. by apply H, list_elem_of_fmap_2. Qed.

Lemma disarm_ok now m s to : rep now m s -> to ∈ armed s ->
  exists m', util_timeout_disarm m to = Ok m' /\ rep now m' (spec_disarm to s).
Proof.
  intros R Hto. pose proof (rep_nodup _ _ _ R) as Hn. unfold armed in Hn. rewrite fmap_app in Hn.
  apply NoDup_app in Hn as (HnP & Hdis & HnD). unfold spec_disarm.
  pose proof (rep_ends _ _ _ R) as HE. pose proof (rep_pend _ _ _ R) as HP. pose proof (rep_due _ _ _ R) as HD.
  destruct (armed_split _ _ Hto) as [(A & e & B & E & <-)|(A & e & B & E & <-)]; rewrite E in *.
  - assert (e_to e ∉ e_to <$> dueq s) as HtD by (apply Hdis; rewrite fmap_app; apply elem_of_app; right; left).
    rewrite (filter_others _ A e B), (filter_absent _ (dueq s)) by done.
    rewrite fmap_app in HE, HP, HnP, Hdis. simpl in HE, HP, HnP, Hdis.
    destruct (disarm_pend _ _ _ _ _ HE HnP HP) as (m' & -> & HE' & Et). exists m'. split; [done|].
    eapply (rep_without now m m' s); simpl; rewrite ?fmap_app, ?E; try done.
    + rewrite Et. apply unlinked_types.
    + rewrite Et. by apply (seg_unlink _ _ (e_to e)).
    + rewrite Et. apply seg_unlink_frame; [|done]. intros x Hx. apply Hdis. set_solver.
    + apply sublist_app; [reflexivity|by apply sublist_cons].
  - assert (e_to e ∉ e_to <$> pend s) as HtP by (intros H; apply (Hdis _ H); rewrite fmap_app; apply elem_of_app; right; left).
    rewrite (filter_others _ A e B), (filter_absent _ (pend s)) by done.
    rewrite fmap_app in HE, HD, HnD, Hdis. simpl in HE, HD, HnD, Hdis.
    destruct (disarm_due _ _ _ _ _ HE HtP HnD HD) as (m' & -> & HE' & Et). exists m'. split; [done|].
    eapply (rep_without now m m' s); simpl; rewrite ?fmap_app, ?E; try done.
    + rewrite Et. apply unlinked_types.
    + rewrite Et. apply seg_unlink_frame; [|done]. intros x Hx Hx'. apply (Hdis x Hx'). set_solver.
    + rewrite Et. by apply (seg_unlink _ _ (e_to e)).
    + apply sublist_app; [reflexivity|by apply sublist_cons].
Qed.

Lemma pop_due_ok now m P e D : rep now m (mk_tq P (e :: D)) ->
  exists t m', pop_due m = Ok (Some (e_to e, t), m') /\
    Z.shiftr (timeout_type t) TIMEOUT_BITS = e_type e /\ rep now m' (mk_tq P D).
Proof.
  intros R. pose proof (rep_nodup _ _ _ R) as Hn. unfold armed in Hn. rewrite fmap_app in Hn.
  apply NoDup_app in Hn as (HnP & Hdis & HnD). simpl in Hdis, HnD, HnP.
  pose proof (rep_due _ _ _ R) as HD. simpl in HD.
  destruct (rep_ends _ _ _ R) as (Hf & Hl & Hdf & Hdl). simpl in *.
  destruct (proj1 (Forall_forall _ _) (rep_holds _ _ _ R) e) as (Hty & t & Et & Ht); [simpl; set_solver|].
  destruct HD as [(t' & Et' & _ & Hnx) HD]. rewrite Et in Et'. injection Et' as <-.
  assert (Z.shiftr (timeout_type t) TIMEOUT_BITS = e_type e) as Hsh.
  { rewrite Ht, Z.shiftr_div_pow2 by done. change (2 ^ TIMEOUT_BITS) with PERIOD.
    symmetry. apply Z.div_unique with (e_dl e mod PERIOD); [|lia].
    left. by apply Z.mod_pos_bound. }
  apply NoDup_cons in HnD as [HeD HnD].
  assert (exists m', pop_due m = Ok (Some (e_to e, t), m') /\ ends m' (e_to <$> P) (e_to <$> D) /\
      timers m' = upd_prev (timers m) (first_or (e_to <$> D) None) None) as (m' & Em & HE & Etm).
  { unfold pop_due, get_to. rewrite Hdf, Et. osimpl. rewrite Hnx. destruct D as [|d D]; simpl; osimpl.
    - eexists. split; [reflexivity|]. split; [|done]. by split_and!.
    - rewrite set_prev_ok; [osimpl; eexists; split; [reflexivity|]; split; [|done]; by split_and!|].
      simpl. eapply (seg_is_Some _ _ _ _ _ HD). left. }
  exists t, m'. split; [done|]. split; [done|].
  eapply (rep_without now m m' (mk_tq P (e :: D))); try done.
  - rewrite Etm. apply same_types_prev.
  - rewrite Etm. apply seg_prev_frame; [|apply (rep_pend _ _ _ R)]. simpl. intros x Hx%first_in HxP.
    apply (Hdis x HxP). by right.
  - rewrite Etm. simpl. by eapply seg_upd_prev.
  - by constructor.
Qed.

Lemma pop_due_empty now m P : rep now m (mk_tq P []) -> pop_due m = Ok (None, m).
Proof. intros R. destruct (rep_ends _ _ _ R) as (_ & _ & Hd & _). unfold pop_due. by rewrite Hd. Qed.

Definition spec_next (now : Z) (s : tqueue) : Z :=
  match dueq s, pend s with
  | _ :: _, _ => 0
  | [], [] => UINT32_MAX
  | [], e :: _ => Z.max 0 (e_dl e - now)
  end.

Lemma next_ok now m s : rep now m s -> util_timeout_next m (now mod PERIOD) = Ok (spec_next now s).
Proof.
  intros R. destruct (rep_ends _ _ _ R) as (Hf & _ & Hd & _). unfold util_timeout_next, spec_next.
  rewrite Hd, Hf. destruct s as [[|e P] [|d D]]; simpl; try done.
  destruct (holds_due _ _ _ e R) as (t & Et & _ & Hr); [left|].
  unfold get_to. rewrite Et. osimpl. rewrite mask_mod, Zmod_mod, Hr.
  destruct (Z.ltb_spec (e_dl e - now) 0); unfold mret, outcome_ret; f_equal; lia.
Qed.

Lemma rep_tick now now' m s : rep now m s -> now <= now' -> Forall (fun e => now' - e_dl e < HALF) (pend s) ->
  rep now' m s.
Proof.
  intros [] Hle Hb. split; try done. apply Forall_forall. intros e He.
  pose proof (proj1 (Forall_forall _ _) Hb e He). pose proof (proj1 (Forall_forall _ _) rep_near0 e He).
  simpl in *. lia.
Qed.

(** ** Traces *)

(** A program that writes down what fires. *)
Definition logged : Type := timeout_manager * list (Z * Z).
Definition log_handler (to type : Z) (s : logged) : outcome logged := mret (s.1, s.2 ++ [(to, type)]).
Definition poll_log (m : timeout_manager) (cur_ts : Z) : outcome logged :=
  util_timeout_poll_ts (St := logged) fst (fun m s => (m, s.2)) log_handler (m, []) cur_ts.

Inductive timer_op :=
| OTick (us : Z)
| OArm (to us type : Z)
| ODisarm (to : Z)
| ONext
| OPoll.
Inductive timer_out := Quiet | Wait (us : Z) | Fired (l : list (Z * Z)).

(** One operation at the absolute time [now]. *)
Definition timer_step (now : Z) (m : timeout_manager) (o : timer_op) : outcome (timer_out * Z * timeout_manager) :=
  let cur_ts := now mod PERIOD in
  match o with
  | OTick us => mret (Quiet, now + us, m)
  | OArm to us type => m ← util_timeout_arm_ts m to us type cur_ts; mret (Quiet, now, m)
  | ODisarm to => m ← util_timeout_disarm m to; mret (Quiet, now, m)
  | ONext => w ← util_timeout_next m cur_ts; mret (Wait w, now, m)
  | OPoll => '(m, l) ← poll_log m cur_ts; mret (Fired l, now, m)
  end.
Fixpoint timer_run (now : Z) (m : timeout_manager) (os : list timer_op) : outcome (list timer_out * Z * timeout_manager) :=
  match os with
  | [] => mret ([], now, m)
  | o :: os =>
      '(r, now, m) ← timer_step now m o;
      '(rs, now, m) ← timer_run now m os;
      mret (r :: rs, now, m)
  end.

Definition fired (l : list entry) : list (Z * Z) := (fun e => (e_to e, e_type e)) <$> l.
Definition spec_poll (now : Z) (s : tqueue) : list (Z * Z) * tqueue :=
  let s := spec_move now s in
  (fired (take MAX_TIMEOUTS (dueq s)), mk_tq (pend s) (drop MAX_TIMEOUTS (dueq s))).
Definition spec_step (now : Z) (s : tqueue) (o : timer_op) : timer_out * Z * tqueue :=
  match o with
  | OTick us => (Quiet, now + us, s)
  | OArm to us type => (Quiet, now, spec_arm now (fresh_entry now to us type) s)
  | ODisarm to => (Quiet, now, spec_disarm to s)
  | ONext => (Wait (spec_next now s), now, s)
  | OPoll => let '(l, s) := spec_poll now s in (Fired l, now, s)
  end.
Fixpoint spec_run (now : Z) (s : tqueue) (os : list timer_op) : list timer_out * Z * tqueue :=
  match os with
  | [] => ([], now, s)
  | o :: os =>
      let '(r, now, s) := spec_step now s o in
      let '(rs, now, s) := spec_run now s os in
      (r :: rs, now, s)
  end.

(** What clients keep to: they arm a timer that is not armed, for less than half a
    period, disarm one that is, and let no pending timer wait for half a period
    past its time. *)
Definition op_ok (now : Z) (s : tqueue) (o : timer_op) : Prop :=
  match o with
  | OTick us => 0 <= us /\ Forall (fun e => now + us - e_dl e < HALF) (pend s)
  | OArm to us type => to ∉ armed s /\ 0 <= us < HALF /\ 0 <= type < 16
  | ODisarm to => to ∈ armed s
  | ONext | OPoll => True
  end.
Fixpoint ops_ok (now : Z) (s : tqueue) (os : list timer_op) : Prop :=
  match os with
  | [] => True
  | o :: os => op_ok now s o /\ let '(_, now, s) := spec_step now s o in ops_ok now s os
  end.

#[global] Instance op_ok_dec now s o : Decision (op_ok now s o).
Proof. destruct o; simpl; apply _. Defined.
#[global] Instance ops_ok_dec os : forall now s, Decision (ops_ok now s os).
Proof.
  induction os as [|o os IH]; intros now s; simpl; [apply _|].
  destruct (spec_step now s o) as [[r now1] s1]. apply _.
Defined.

Lemma poll_due_log now P n : forall D m l, rep now m (mk_tq P D) ->
  exists m', poll_due (St := logged) fst (fun m s => (m, s.2)) log_handler n (m, l) =
      Ok (m', l ++ fired (take n D)) /\ rep now m' (mk_tq P (drop n D)).
Proof.
  induction n as [|n IH]; intros D m l R; [exists m; by rewrite take_0, drop_0, app_nil_r|].
  cbn [poll_due fst]. destruct D as [|e D].
  - rewrite (pop_due_empty _ _ _ R). osimpl. exists m. by rewrite app_nil_r.
  - destruct (pop_due_ok _ _ _ _ _ R) as (t & m1 & -> & Ht & R1). osimpl. rewrite Ht.
    change (log_handler (e_to e) (e_type e) (m1, l)) with (Ok (A := logged) (m1, l ++ [(e_to e, e_type e)])). osimpl.
    destruct (IH D m1 (l ++ [(e_to e, e_type e)]) R1) as (m' & -> & R'). exists m'.
    split; [|done]. by rewrite <- app_assoc.
Qed.

Lemma poll_log_ok now m s : rep now m s ->
  exists m', poll_log m (now mod PERIOD) = Ok (m', (spec_poll now s).1) /\ rep now m' (spec_poll now s).2.
Proof.
  intros R. unfold poll_log, util_timeout_poll_ts. rewrite mask_mod, Zmod_mod. cbn [fst].
  destruct (move_due_timeouts_ok now m s R) as (m1 & -> & R1). osimpl.
  destruct (poll_due_log now _ MAX_TIMEOUTS _ m1 [] R1) as (m' & -> & R'). by exists m'.
Qed.

Lemma timer_step_ok now m s o : rep now m s -> op_ok now s o ->
  exists m', timer_step now m o = Ok ((spec_step now s o).1, m') /\
    rep (spec_step now s o).1.2 m' (spec_step now s o).2.
Proof.
  intros R Hok. destruct o as [us|to us type|to| |]; unfold timer_step; cbv zeta; simpl in Hok.
  - destruct Hok. exists m. split; [done|]. apply (rep_tick now); simpl; [done|lia|done].
  - destruct Hok as (? & ? & ?). destruct (arm_ok now m s to us type) as (m' & -> & R'); try done. by exists m'.
  - destruct (disarm_ok now m s to) as (m' & -> & R'); try done. by exists m'.
  - rewrite (next_ok _ _ _ R). by exists m.
  - destruct (poll_log_ok _ _ _ R) as (m' & -> & R'). exists m'.
    unfold spec_step. destruct (spec_poll now s) as [l s']. by split.
Qed.

(** C36. Refinement: run on any sequence of operations that clients may do, the
    timer lists behave as a queue of absolute times: no operation fails, a timer
    fires in the first poll after its time that has a place left among 64, in the
    order of times (of arming, for equal times), never early, with its type, and
    the wait until the next timer is reported to the microsecond, although only
    28-bit stamps that wrap around are kept. *)
Theorem timer_run_refines os : forall now m s,
  rep now m s -> ops_ok now s os ->
  exists m', timer_run now m os = Ok ((spec_run now s os).1, m') /\
    rep (spec_run now s os).1.2 m' (spec_run now s os).2.
Proof.
  induction os as [|o os IH]; intros now m s R Hok; [by exists m|].
  destruct Hok as [Hop Hok]. destruct (timer_step_ok now m s o R Hop) as (m1 & Em & R1).
  cbn [timer_run spec_run]. rewrite Em. osimpl.
  destruct (spec_step now s o) as [[r now1] s1]. simpl in *.
  destruct (IH now1 m1 s1 R1 Hok) as (m' & -> & R'). osimpl. exists m'.
  by destruct (spec_run now1 s1 os) as [[rs now2] s2].
Qed.

Definition all_fired (rs : list timer_out) : list (Z * Z) :=
  rs ≫= fun r => match r with Fired l => l | _ => [] end.

(** C37. Liveness: every timer whose time has come fires. However many are due,
    that many polls of 64 fire all of them, each once and in the order of their
    times, none that is not due, and then the manager reports how long to wait
    for the next. *)
Theorem due_timers_fire now m s k :
  rep now m s -> (length (dueq (spec_move now s)) <= MAX_TIMEOUTS * k)%nat -> (0 < k)%nat ->
  exists rs m', timer_run now m (replicate k OPoll) = Ok (rs, now, m') /\
    all_fired rs = fired (dueq s ++ filter (before now) (pend s)) /\
    rep now m' (mk_tq (filter (fun e => ~ before now e) (pend s)) []) /\
    util_timeout_next m' (now mod PERIOD) =
      Ok (match filter (fun e => ~ before now e) (pend s) with [] => UINT32_MAX | e :: _ => e_dl e - now end).
Proof.
  intros R Hlen Hk. cut (exists rs m', timer_run now m (replicate k OPoll) = Ok (rs, now, m') /\
    all_fired rs = fired (dueq (spec_move now s)) /\ rep now m' (mk_tq (pend (spec_move now s)) [])).
  { intros (rs & m' & ? & ? & R'). exists rs, m'. split_and!; [done|done|done|]. rewrite (next_ok _ _ _ R').
    unfold spec_next. simpl. destruct (filter _ _) as [|e l] eqn:E; [done|].
    assert (e ∈ filter (fun e => ~ before now e) (pend s)) as [He _]%list_elem_of_filter by (rewrite E; left).
    unfold before in He. by rewrite Z.max_r by lia. }
  revert m s R Hlen. induction k as [|k IH]; [lia|]. intros m s R Hlen. cbn [replicate timer_run timer_step].
  destruct (poll_log_ok now m s R) as (m1 & -> & R1). cbn [spec_poll fst snd] in R1 |- *. osimpl.
  set (s1 := spec_move now s) in *.
  assert (forall D, spec_move now (mk_tq (pend s1) D) = mk_tq (pend s1) D) as Hmv.
  { intros D. unfold spec_move. simpl pend. simpl dueq.
    assert (Forall (fun e => ~ before now e) (pend s1)) as Hall
      by (apply Forall_forall; by intros e [? _]%list_elem_of_filter).
    by rewrite (filter_all _ _ Hall), (filter_none (before now) _ Hall), app_nil_r. }
  destruct k as [|k].
  - exists [Fired (fired (take MAX_TIMEOUTS (dueq s1)))], m1. split; [done|].
    rewrite take_ge by lia. rewrite drop_ge in R1 by lia. split; [|done].
    unfold all_fired. simpl. by rewrite app_nil_r.
  - destruct (IH ltac:(lia) m1 _ R1) as (rs & m' & -> & Hrs & R').
    { rewrite Hmv. change (length (drop MAX_TIMEOUTS (dueq s1)) <= MAX_TIMEOUTS * S k)%nat.
      rewrite length_drop. unfold MAX_TIMEOUTS in *. lia. }
    rewrite Hmv in Hrs, R'. simpl in Hrs, R'. osimpl. eexists _, m'. split; [reflexivity|]. split; [|done].
    unfold all_fired in *. cbn [mbind list_bind app]. rewrite Hrs. unfold fired. by rewrite <- fmap_app, take_drop.
Qed.

Lemma init_rep now m : rep now (util_timeout_init m) (mk_tq [] []).
Proof. split; simpl; try done; constructor. Qed.

(** Which timers are armed. *)
Lemma armed_arm now e tq x : x ∈ armed (spec_arm now e tq) <-> x = e_to e \/ x ∈ armed tq.
Proof.
  rewrite <- (armed_move now tq). unfold spec_arm. cbv zeta. set (t := spec_move now tq). unfold armed, spec_insert.
  cbn [pend dueq]. assert (filter (before (e_dl e)) (pend t) ++ e :: filter (fun e' => ~ before (e_dl e) e') (pend t)
    ≡ₚ e :: pend t) as ->.
  { rewrite <- Permutation_middle. constructor. apply filter_app_complement. }
  rewrite <- app_comm_cons, fmap_cons. apply elem_of_cons.
Qed.

Lemma armed_disarm to tq x : x ∈ armed (spec_disarm to tq) <-> x <> to /\ x ∈ armed tq.
Proof.
  unfold armed, spec_disarm. cbn [pend dueq]. rewrite <- filter_app. rewrite !list_elem_of_fmap. split.
  - intros (e & -> & [He Hin]%list_elem_of_filter). split; [done|]. by exists e.
  - intros [Hx (e & -> & Hin)]. exists e. split; [done|]. by apply list_elem_of_filter.
Qed.

(** ** A concrete run *)
Module Demo.
Definition m : timeout_manager := util_timeout_init (mk_tmgr ∅ (Some 1) None None None).
(** Ten microseconds before the stamps wrap around. *)
Definition now : Z := 268435446.
Definition ops : list timer_op := [OArm 100 50 1; OArm 200 20 0; OArm 300 20 2; ONext; OTick 30; ODisarm 300; OPoll; ONext].
Lemma ops_ok : ops_ok now (mk_tq [] []) ops.
Proof. apply (bool_decide_unpack _). vm_compute. reflexivity. Qed.

(** Two timers armed, one of them due. *)
Lemma armed_two : exists m1, rep 268435476 m1 (mk_tq [mk_entry 200 268435466 0; mk_entry 100 268435496 1] []).
Proof.
  destruct (timer_step_ok now m (mk_tq [] []) (OArm 100 50 1) (init_rep _ _)) as (m1 & _ & R1);
    [apply (bool_decide_unpack _); vm_compute; reflexivity|].
  destruct (timer_step_ok _ m1 _ (OArm 200 20 0) R1) as (m2 & _ & R2);
    [apply (bool_decide_unpack _); vm_compute; reflexivity|].
  destruct (timer_step_ok _ m2 _ (OTick 30) R2) as (m3 & _ & R3);
    [apply (bool_decide_unpack _); vm_compute; reflexivity|].
  exists m3. vm_compute in R3. exact R3.
Qed.
End Demo.

Lemma timer_run_refines_witness :
  exists m', timer_run Demo.now Demo.m Demo.ops =
    Ok ([Quiet; Quiet; Quiet; Wait 20; Quiet; Quiet; Fired [(200, 0)]; Wait 20], 268435476, m').
Proof.
  destruct (timer_run_refines Demo.ops Demo.now Demo.m (mk_tq [] []) (init_rep _ _) Demo.ops_ok) as (m' & E & _).
  exists m'. rewrite E. vm_compute. reflexivity.
Defined.

Lemma due_timers_fire_witness :
  exists m1 rs m', timer_run 268435476 m1 (replicate 1 OPoll) = Ok (rs, 268435476, m') /\
    all_fired rs = [(200, 0)] /\ util_timeout_next m' (268435476 mod PERIOD) = Ok 20.
Proof.
  destruct Demo.armed_two as [m1 R].
  destruct (due_timers_fire _ _ _ 1 R) as (rs & m' & E & Hf & _ & Hw); [vm_compute; lia|lia|].
  exists m1, rs, m'. split; [exact E|]. split; [rewrite Hf|rewrite Hw]; vm_compute; reflexivity.
Defined.
