(* ===== verification/Qman.v ===== *)
(** * The queue manager (tas_nic/fast/qman.c)

    Per-core scheduling of flow transmit queues: a FIFO of queues without rate
    limit and a skip list of rate-limited queues ordered by virtual time. *)
From stdpp Require Import sorting.
From S2P Require Import Prelude Util.

#[local] Open Scope Z_scope.

Definition FLEXNIC_NUM_QMQUEUES : Z := 131072.
Definition QMAN_SKIPLIST_LEVELS : nat := 4.
Definition FLAG_INSKIPLIST : Z := 1.
Definition FLAG_INNOLIMITL : Z := 2.
Definition SKIPLIST_BITS : Z := 3.
Definition IDXLIST_INVAL : Z := 4294967295.
Definition RNG_SEED : Z := 0x12345678.
Definition QMAN_SET_RATE : Z := 1.
Definition QMAN_SET_MAXCHUNK : Z := 2.
Definition QMAN_SET_AVAIL : Z := 8.
Definition QMAN_ADD_AVAIL : Z := 16.

(** ** State *)
Record queue := mk_queue {
  next_idxs : list Z;
  next_ts : Z;
  rate : Z;
  avail : Z;
  max_chunk : Z;
  q_flags : Z;
}.
#[export] Instance eta_queue : Eta queue := fun q =>
  mk_queue (next_idxs q) (next_ts q) (rate q) (avail q) (max_chunk q) (q_flags q).

(** [calloc]ed memory. *)
Definition queue0 : queue := mk_queue [0; 0; 0; 0] 0 0 0 0 0.

(** [queues] is the array of queues; entries that were never written are absent
    from the map and read as zeroes. *)
Record qman_thread := mk_qman {
  queues : gmap Z queue;
  head_idx : list Z;
  nolimit_head_idx : Z;
  nolimit_tail_idx : Z;
  ts_real : Z;
  ts_virtual : Z;
  rng : Z;
  nolimit_first : bool;
}.
#[export] Instance eta_qman : Eta qman_thread := fun t =>
  mk_qman (queues t) (head_idx t) (nolimit_head_idx t) (nolimit_tail_idx t)
    (ts_real t) (ts_virtual t) (rng t) (nolimit_first t).

Definition q_of (t : qman_thread) (idx : Z) : queue := default queue0 (queues t !! idx).

(** [&t->queues[idx]] *)
Definition get_queue (t : qman_thread) (idx : Z) : outcome queue :=
  if (0 <=? idx) && (idx <? FLEXNIC_NUM_QMQUEUES) then Ok (q_of t idx) else Stop OutOfBounds.
Definition put_queue (t : qman_thread) (idx : Z) (q : queue) : qman_thread :=
  t <| queues := <[idx := q]> (queues t) |>.

(** ** Time *)

(** [timestamp]: nanoseconds from the cycle counter [cycles] of frequency [freq]. *)
Definition timestamp (cycles freq : Z) : outcome Z :=
  if freq =? 0 then Stop DivByZero
  else mret (u32 (u64 (cycles * 1000000000) / freq)).

Definition qman_timestamp (cycles freq : Z) : outcome Z :=
  if freq =? 0 then Stop DivByZero
  else mret (u32 (u64 (cycles * 1000000) / freq)).

(** Relative timestamp, ignoring wrap-arounds: 64-bit arithmetic, the result an
    [int64_t]. *)
Definition rel_time (cur_ts ts_in : Z) : Z :=
  let ts := ts_in in
  let middle := 2147483648 in
  if cur_ts <? middle then
    let start := Z.land (u64 (cur_ts - middle)) 0xffffffff in
    let end_ := 4294967296 in
    if (start <=? ts) && (ts <? end_) then i64 (u64 (u64 (ts - start) - middle))
    else i64 (u64 (ts - cur_ts))
  else if cur_ts =? middle then i64 (u64 (ts - cur_ts))
  else
    let start := 0 in
    let end_ := u64 (Z.land (u64 (cur_ts + middle)) 0xffffffff + 1) in
    if (start <=? cur_ts) && (ts <? end_) then i64 (u64 (ts + u64 (4294967296 - cur_ts)))
    else i64 (u64 (ts - cur_ts)).

Definition timestamp_lessthaneq (t : qman_thread) (a b : Z) : bool :=
  rel_time (ts_virtual t) a <=? rel_time (ts_virtual t) b.

(** ** Initialisation *)

(** [queues] is what [calloc] gave, [ts] the value of [timestamp()]; the random
    seed is computed in [int]. [None] is a failed allocation. *)
Definition qman_thread_init (t : qman_thread) (id ts : Z) (alloc_ok : bool) : Z * qman_thread :=
  if negb alloc_ok then (-1, t)
  else
    (0, t <| queues := (∅ : gmap Z queue) |>
          <| head_idx := replicate QMAN_SKIPLIST_LEVELS IDXLIST_INVAL |>
          <| nolimit_head_idx := IDXLIST_INVAL |>
          <| nolimit_tail_idx := IDXLIST_INVAL |>
          <| rng := Rng.utils_rng_init (u64 (i32 (RNG_SEED * id + id))) |>
          <| ts_virtual := 0 |>
          <| ts_real := ts |>).

(** ** The no-limit list *)
Definition queue_activate_nolimit (t : qman_thread) (idx : Z) : outcome qman_thread :=
  q ← get_queue t idx;
  _ ← c_assert (Z.land (q_flags q) (Z.lor FLAG_INSKIPLIST FLAG_INNOLIMITL) =? 0);
  let t := put_queue t idx
    (q <| q_flags := Z.lor (q_flags q) FLAG_INNOLIMITL |>
       <| next_idxs := <[0%nat := IDXLIST_INVAL]> (next_idxs q) |>) in
  if nolimit_tail_idx t =? IDXLIST_INVAL then
    mret (t <| nolimit_head_idx := idx |> <| nolimit_tail_idx := idx |>)
  else
    q_tail ← get_queue t (nolimit_tail_idx t);
    let t := put_queue t (nolimit_tail_idx t)
      (q_tail <| next_idxs := <[0%nat := idx]> (next_idxs q_tail) |>) in
    mret (t <| nolimit_tail_idx := idx |>).

(** ** The skip list *)
Definition queue_new_ts (t : qman_thread) (q : queue) (bytes : Z) : outcome Z :=
  if rate q =? 0 then Stop DivByZero
  else mret (u32 (ts_virtual t + u64 (u64 (bytes * 8) * 1000000) / rate q)).

(** [__builtin_ffs] *)
Definition ffs (x : Z) : Z := if x =? 0 then 0 else 1 + Z.log2 (Z.land x (- x)).

Definition queue_level (t : qman_thread) : nat * qman_thread :=
  let '(r, s) := Rng.utils_rng_gen32 (rng t) in
  let x := u8 (Z.quot (ffs r - 1) SKIPLIST_BITS) in
  (Z.to_nat (if x <? Z.of_nat QMAN_SKIPLIST_LEVELS then x
             else Z.of_nat QMAN_SKIPLIST_LEVELS - 1),
   t <| rng := s |>).

(** The [while] loop at level [l]: the last queue not after [ts]. *)
Fixpoint find_pred (fuel : nat) (t : qman_thread) (l : nat) (pred idx ts : Z) : outcome Z :=
  match fuel with
  | O => Stop OutOfFuel
  | S fuel =>
      if idx =? IDXLIST_INVAL then mret pred
      else
        q ← get_queue t idx;
        if timestamp_lessthaneq t (next_ts q) ts
        then find_pred fuel t l idx (next_idxs q !!! l) ts
        else mret pred
  end.

Definition list_fuel (t : qman_thread) : nat := S (S (size (queues t))).

(** Predecessors at the levels [n - 1, ..., 0], top-down; [preds !! l] is that
    of level [l]. *)
Fixpoint find_preds (n : nat) (t : qman_thread) (pred ts : Z) : outcome (list Z) :=
  match n with
  | O => mret []
  | S l =>
      let idx := if negb (pred =? IDXLIST_INVAL) then pred else head_idx t !!! l in
      pred ← find_pred (list_fuel t) t l pred idx ts;
      preds ← find_preds l t pred ts;
      mret (preds ++ [pred])
  end.

(** The insertion loop over the levels [n - 1, ..., 0]. *)
Definition insert_level (t : qman_thread) (q_idx : Z) (l level : nat) (preds : list Z)
  : outcome qman_thread :=
  q ← get_queue t q_idx;
  if (level <? l)%nat then
    mret (put_queue t q_idx (q <| next_idxs := <[l := IDXLIST_INVAL]> (next_idxs q) |>))
  else
    let idx := preds !!! l in
    if negb (idx =? IDXLIST_INVAL) then
      p ← get_queue t idx;
      let t := put_queue t q_idx (q <| next_idxs := <[l := next_idxs p !!! l]> (next_idxs q) |>) in
      p ← get_queue t idx;
      mret (put_queue t idx (p <| next_idxs := <[l := q_idx]> (next_idxs p) |>))
    else
      let t := put_queue t q_idx
        (q <| next_idxs := <[l := head_idx t !!! l]> (next_idxs q) |>) in
      mret (t <| head_idx := <[l := q_idx]> (head_idx t) |>).

Fixpoint insert_levels (n : nat) (t : qman_thread) (q_idx : Z) (level : nat) (preds : list Z)
  : outcome qman_thread :=
  match n with
  | O => mret t
  | S l =>
      t ← insert_level t q_idx l level preds;
      insert_levels l t q_idx level preds
  end.

(** The time stamp a queue is (re)inserted with: not in the past, not later than
    if it had just sent [max_chunk]. *)
Definition clamp_ts (t : qman_thread) (ts max_ts : Z) : Z :=
  if timestamp_lessthaneq t ts (ts_virtual t) then ts_virtual t
  else if negb (timestamp_lessthaneq t ts max_ts) then max_ts else ts.

Definition queue_activate_skiplist (t : qman_thread) (q_idx : Z) : outcome qman_thread :=
  q ← get_queue t q_idx;
  _ ← c_assert (Z.land (q_flags q) (Z.lor FLAG_INSKIPLIST FLAG_INNOLIMITL) =? 0);
  max_ts ← queue_new_ts t q (max_chunk q);
  let ts := clamp_ts t (next_ts q) max_ts in
  let t := put_queue t q_idx (q <| next_ts := ts |>) in
  preds ← find_preds QMAN_SKIPLIST_LEVELS t IDXLIST_INVAL ts;
  let '(level, t) := queue_level t in
  t ← insert_levels QMAN_SKIPLIST_LEVELS t q_idx level preds;
  q ← get_queue t q_idx;
  mret (put_queue t q_idx (q <| q_flags := Z.lor (q_flags q) FLAG_INSKIPLIST |>)).

(** ** Activation and firing *)
Definition queue_activate (t : qman_thread) (idx : Z) : outcome qman_thread :=
  q ← get_queue t idx;
  if rate q =? 0 then queue_activate_nolimit t idx else queue_activate_skiplist t idx.

Definition queue_fire (t : qman_thread) (idx : Z) : outcome (qman_thread * (Z * Z)) :=
  q ← get_queue t idx;
  _ ← c_assert (0 <? avail q);
  let bytes := if avail q <=? max_chunk q then avail q else max_chunk q in
  let q := q <| avail := u32 (avail q - bytes) |> in
  q ← (if 0 <? rate q then ts ← queue_new_ts t q bytes; mret (q <| next_ts := ts |>)
       else mret q);
  let t := put_queue t idx q in
  t ← (if 0 <? avail q then queue_activate t idx else mret t);
  mret (t, (idx, u16 bytes)).

(** ** Polling

    The arrays [q_ids] and [q_bytes] are returned as a list of pairs. *)
Fixpoint poll_nolimit_loop (fuel : nat) (t : qman_thread) (num cnt : Z)
  : outcome (list (Z * Z) * qman_thread) :=
  match fuel with
  | O => Stop OutOfFuel
  | S fuel =>
      if (cnt <? num) && negb (nolimit_head_idx t =? IDXLIST_INVAL) then
        let idx := nolimit_head_idx t in
        q ← get_queue t idx;
        let next := next_idxs q !!! 0%nat in
        let t := t <| nolimit_head_idx := next |> in
        let t := if next =? IDXLIST_INVAL then t <| nolimit_tail_idx := IDXLIST_INVAL |> else t in
        let q := q <| q_flags := Z.land (q_flags q) (Z.lnot FLAG_INNOLIMITL) |> in
        let t := put_queue t idx q in
        if 0 <? avail q then
          '(t, e) ← queue_fire t idx;
          '(es, t) ← poll_nolimit_loop fuel t num (cnt + 1);
          mret (e :: es, t)
        else poll_nolimit_loop fuel t num cnt
      else mret ([], t)
  end.

Definition poll_fuel (t : qman_thread) (num : Z) : nat :=
  S (Z.to_nat num + size (queues t)).

Definition poll_nolimit (t : qman_thread) (num : Z) : outcome (list (Z * Z) * qman_thread) :=
  poll_nolimit_loop (poll_fuel t num) t num 0.

(** [for (l = 0; l < LEVELS && t->head_idx[l] == idx; l++) ...] *)
Fixpoint pop_heads (n l : nat) (t : qman_thread) (idx : Z) (q : queue) : qman_thread :=
  match n with
  | O => t
  | S n =>
      if head_idx t !!! l =? idx then
        pop_heads n (S l) (t <| head_idx := <[l := next_idxs q !!! l]> (head_idx t) |>) idx q
      else t
  end.

Fixpoint poll_skiplist_loop (fuel : nat) (t : qman_thread) (max_vts num cnt : Z)
  : outcome (list (Z * Z) * qman_thread) :=
  match fuel with
  | O => Stop OutOfFuel
  | S fuel =>
      if cnt <? num then
        let idx := head_idx t !!! 0%nat in
        if idx =? IDXLIST_INVAL then mret ([], t <| ts_virtual := max_vts |>)
        else
          q ← get_queue t idx;
          if negb (timestamp_lessthaneq t (next_ts q) max_vts)
          then mret ([], t <| ts_virtual := max_vts |>)
          else
            let t := pop_heads QMAN_SKIPLIST_LEVELS 0 t idx q in
            _ ← c_assert (negb (Z.land (q_flags q) FLAG_INSKIPLIST =? 0));
            let q := q <| q_flags := Z.land (q_flags q) (Z.lnot FLAG_INSKIPLIST) |> in
            let t := (put_queue t idx q) <| ts_virtual := next_ts q |> in
            if 0 <? avail q then
              '(t, e) ← queue_fire t idx;
              '(es, t) ← poll_skiplist_loop fuel t max_vts num (cnt + 1);
              mret (e :: es, t)
            else poll_skiplist_loop fuel t max_vts num cnt
      else mret ([], t)
  end.

Definition poll_skiplist (t : qman_thread) (cur_ts num : Z)
  : outcome (list (Z * Z) * qman_thread) :=
  let max_vts := u32 (ts_virtual t + u32 (cur_ts - ts_real t)) in
  '(es, t) ← poll_skiplist_loop (poll_fuel t num) t max_vts num 0;
  t ← (if Z.of_nat (length es) =? num then
         let idx := head_idx t !!! 0%nat in
         if negb (idx =? IDXLIST_INVAL) then
           q ← get_queue t idx;
           if timestamp_lessthaneq t (next_ts q) max_vts
           then mret (t <| ts_virtual := next_ts q |>)
           else mret (t <| ts_virtual := max_vts |>)
         else mret (t <| ts_virtual := max_vts |>)
       else mret t);
  mret (es, t <| ts_real := cur_ts |>).

(** [ts] is the value of [timestamp()]. *)
Definition qman_poll (t : qman_thread) (ts num : Z) : outcome (list (Z * Z) * qman_thread) :=
  '(es, t) ← (if nolimit_first t then
     '(xs, t) ← poll_nolimit t num;
     '(ys, t) ← poll_skiplist t ts (num - Z.of_nat (length xs));
     mret (xs ++ ys, t)
   else
     '(xs, t) ← poll_skiplist t ts num;
     '(ys, t) ← poll_nolimit t (num - Z.of_nat (length xs));
     mret (xs ++ ys, t));
  mret (es, t <| nolimit_first := negb (nolimit_first t) |>).

Definition qman_next_ts (t : qman_thread) (ts : Z) : outcome Z :=
  let ret_ts := u32 (ts_virtual t + u32 (ts - ts_real t)) in
  if negb (nolimit_head_idx t =? IDXLIST_INVAL) then mret 0
  else
    let idx := head_idx t !!! 0%nat in
    if negb (idx =? IDXLIST_INVAL) then
      q ← get_queue t idx;
      if timestamp_lessthaneq t (next_ts q) ret_ts then mret 0
      else mret (u32 (Z.quot (rel_time ret_ts (next_ts q)) 1000))
    else mret (u32 (-1)).

(** ** Setting a queue's parameters *)
Definition set_queue (q : queue) (rate_ avail_ max_chunk_ flags : Z) : queue * bool :=
  let q := if negb (Z.land flags QMAN_SET_RATE =? 0) then q <| rate := rate_ |> else q in
  let q := if negb (Z.land flags QMAN_SET_MAXCHUNK =? 0)
           then q <| max_chunk := max_chunk_ |> else q in
  if negb (Z.land flags QMAN_SET_AVAIL =? 0) then (q <| avail := avail_ |>, true)
  else if negb (Z.land flags QMAN_ADD_AVAIL =? 0)
       then (q <| avail := u32 (avail q + avail_) |>, true)
       else (q, false).

Definition set_impl (t : qman_thread) (idx rate_ avail_ max_chunk_ flags : Z)
  : outcome qman_thread :=
  q ← get_queue t idx;
  let '(q, new_avail) := set_queue q rate_ avail_ max_chunk_ flags in
  let t := put_queue t idx q in
  if new_avail && (0 <? avail q)
     && (Z.land (q_flags q) (Z.lor FLAG_INSKIPLIST FLAG_INNOLIMITL) =? 0)
  then queue_activate t idx
  else mret t.

Definition qman_set (t : qman_thread) (id rate_ avail_ max_chunk_ flags : Z)
  : outcome (Z * qman_thread) :=
  if id >=? FLEXNIC_NUM_QMQUEUES then mret (-1, t)
  else t ← set_impl t id rate_ avail_ max_chunk_ flags; mret (0, t).

(** ** The linked structure

    [seg nx h l e]: the list [l] of queue indices is linked by [nx] from [h] and
    ends at [e]. *)
Fixpoint seg (nx : Z -> Z) (h : Z) (l : list Z) (e : Z) : Prop :=
  match l with
  | [] => h = e
  | x :: l => h = x /\ 0 <= x < FLEXNIC_NUM_QMQUEUES /\ seg nx (nx x) l e
  end.

Definition nxt (t : qman_thread) (l : nat) (i : Z) : Z := next_idxs (q_of t i) !!! l.

(** The flags of queue [i] when [nl] and [sl] are the members of the two lists. *)
Definition flags_of (nl sl : list Z) (i : Z) : Z :=
  if bool_decide (i ∈ nl) then FLAG_INNOLIMITL
  else if bool_decide (i ∈ sl) then FLAG_INSKIPLIST else 0.

(** [linked t nl sl]: [nl] is the FIFO of unlimited queues, [sl l] the members of
    the skip list at level [l]. *)
Record linked (t : qman_thread) (nl : list Z) (sl : nat -> list Z) : Prop := {
  lk_len : forall i, length (next_idxs (q_of t i)) = QMAN_SKIPLIST_LEVELS;
  lk_heads : length (head_idx t) = QMAN_SKIPLIST_LEVELS;
  lk_nl : seg (nxt t 0) (nolimit_head_idx t) nl IDXLIST_INVAL;
  lk_tail : nolimit_tail_idx t = default IDXLIST_INVAL (last nl);
  lk_sl : forall l, (l < QMAN_SKIPLIST_LEVELS)%nat ->
    seg (nxt t l) (head_idx t !!! l) (sl l) IDXLIST_INVAL;
  lk_sub : forall l, (S l < QMAN_SKIPLIST_LEVELS)%nat -> sublist (sl (S l)) (sl l);
  lk_nodup : NoDup (nl ++ sl 0%nat);
  lk_flags : forall i, q_flags (q_of t i) = flags_of nl (sl 0%nat) i;
}.

Section Segments.
Implicit Types (nx : Z -> Z) (l : list Z).

Lemma seg_ext nx nx' h l e :
  (forall x, x ∈ l -> nx' x = nx x) -> seg nx h l e -> seg nx' h l e.
Proof.
  revert h. induction l as [|x l IH]; intros h Hx; [done|].
  intros (-> & Hr & Hs). split; [done|]. split; [done|].
  rewrite Hx by set_solver. apply IH; [set_solver|done].
Qed.

Lemma seg_app nx h l l' e :
  seg nx h (l ++ l') e <-> exists m, seg nx h l m /\ seg nx m l' e.
Proof.
  revert h. induction l as [|x l IH]; intros h; simpl.
  - split; [by eauto|intros (m & -> & ?); done].
  - rewrite IH. split; [intros (? & ? & m & ? & ?)|intros (m & (? & ? & ?) & ?)]; eauto 6.
Qed.

Lemma seg_snoc nx h l x e :
  seg nx h (l ++ [x]) e <-> seg nx h l x /\ 0 <= x < FLEXNIC_NUM_QMQUEUES /\ nx x = e.
Proof.
  rewrite seg_app. simpl. split; [intros (m & ? & -> & ? & ?)|intros (? & ? & ?)]; eauto 6.
Qed.

Lemma seg_range nx h l e : seg nx h l e -> Forall (fun x => 0 <= x < FLEXNIC_NUM_QMQUEUES) l.
Proof.
  revert h. induction l as [|x l IH]; intros h; [constructor|].
  intros (_ & ? & ?). constructor; eauto.
Qed.

Lemma seg_head nx h l :
  seg nx h l IDXLIST_INVAL -> h = default IDXLIST_INVAL (head l).
Proof. destruct l; simpl; [done|by intros (-> & _)]. Qed.

Lemma seg_inval nx l : seg nx IDXLIST_INVAL l IDXLIST_INVAL -> l = [].
Proof.
  destruct l as [|x l]; [done|]. intros (<- & Hr & _).
  unfold IDXLIST_INVAL, FLEXNIC_NUM_QMQUEUES in Hr. lia.
Qed.

(** Redirecting the last element of a segment. *)
Lemma seg_relink nx nx' h l e e' :
  l <> [] -> NoDup l ->
  (forall x, x ∈ l -> nx' x = if bool_decide (last l = Some x) then e' else nx x) ->
  seg nx h l e -> seg nx' h l e'.
Proof.
  intros Hne Hnd Hx Hs. destruct l as [|y l _] using rev_ind; [done|].
  apply NoDup_app in Hnd as (_ & Hy & _). apply seg_snoc in Hs as (Hs & Hr & _).
  apply seg_snoc. split; [|split; [done|]].
  - eapply seg_ext; [|exact Hs]. intros x Hxl. rewrite Hx by set_solver.
    rewrite last_snoc, bool_decide_eq_false_2; [done|].
    intros [= ->]. apply (Hy x Hxl). set_solver.
  - rewrite Hx by set_solver. by rewrite last_snoc, bool_decide_eq_true_2.
Qed.

End Segments.

(** Sublists around a pivot. *)
Lemma sublist_pivot (a b c d : list Z) p :
  NoDup (c ++ p :: d) -> sublist (a ++ p :: b) (c ++ p :: d) -> sublist a c /\ sublist b d.
Proof.
  revert a. induction c as [|x c IH]; intros a Hnd Hs; simpl in *.
  - apply NoDup_cons in Hnd as [Hp Hnd].
    apply sublist_cons_r in Hs as [Hs|(l & Heq & Hs)].
    + exfalso. apply Hp. apply (sublist_subseteq _ _ Hs). set_solver.
    + destruct a as [|y a]; simpl in Heq; simplify_eq; [split; [constructor|done]|].
      exfalso. apply Hp. apply (sublist_subseteq _ _ Hs). set_solver.
  - apply NoDup_cons in Hnd as [Hx Hnd].
    apply sublist_cons_r in Hs as [Hs|(l & Heq & Hs)].
    + destruct (IH a Hnd Hs) as [? ?]. split; [by constructor|done].
    + destruct a as [|y a]; simpl in Heq; simplify_eq.
      * exfalso. apply Hx. set_solver.
      * destruct (IH a Hnd Hs) as [? ?]. split; [by constructor|done].
Qed.

Lemma sublist_skip_prefix (P : Z -> Prop) (b c d : list Z) :
  Forall P c -> (forall x, head b = Some x -> ~ P x) -> sublist b (c ++ d) -> sublist b d.
Proof.
  intros Hc Hb. induction Hc as [|x c Hx Hc IH]; [done|]. simpl. intros Hs.
  apply sublist_cons_r in Hs as [Hs|(l & -> & Hs)]; [auto|].
  exfalso. by apply (Hb x).
Qed.

(** ** Reading and writing queues *)
Lemma q_of_put t i q j :
  q_of (put_queue t i q) j = if bool_decide (i = j) then q else q_of t j.
Proof.
  unfold q_of, put_queue. simpl. case_bool_decide as H.
  - subst. by rewrite lookup_insert_eq.
  - by rewrite lookup_insert_ne by done.
Qed.

Lemma q_of_put_same t i q : q_of (put_queue t i q) i = q.
Proof. by rewrite q_of_put, bool_decide_eq_true_2. Qed.

Lemma get_queue_Ok t i : 0 <= i < FLEXNIC_NUM_QMQUEUES -> get_queue t i = Ok (q_of t i).
Proof.
  intros. unfold get_queue. rewrite (proj2 (Z.leb_le _ _)), (proj2 (Z.ltb_lt _ _)) by lia. done.
Qed.

(** Everything of a queue but its links, and of a thread but its skip list. *)
Definition core (q : queue) : Z * Z * Z * Z * Z :=
  (next_ts q, rate q, avail q, max_chunk q, q_flags q).
Definition others (t : qman_thread) : Z * Z * Z * Z * bool :=
  (nolimit_head_idx t, nolimit_tail_idx t, ts_real t, ts_virtual t, nolimit_first t).

(** [t'] differs from [t] in the links of the levels [P] only. *)
Record relinked (P : nat -> Prop) (t t' : qman_thread) : Prop := {
  rl_core : forall i, core (q_of t' i) = core (q_of t i);
  rl_others : others t' = others t;
  rl_len : forall i, length (next_idxs (q_of t' i)) = length (next_idxs (q_of t i));
  rl_heads : length (head_idx t') = length (head_idx t);
  rl_head : forall k, ~ P k -> head_idx t' !!! k = head_idx t !!! k;
  rl_nxt : forall k i, ~ P k -> nxt t' k i = nxt t k i;
}.

Lemma relinked_refl P t : relinked P t t.
Proof. by constructor. Qed.

Lemma relinked_trans (P Q R : nat -> Prop) t1 t2 t3 :
  (forall k, P k -> R k) -> (forall k, Q k -> R k) ->
  relinked P t1 t2 -> relinked Q t2 t3 -> relinked R t1 t3.
Proof.
  intros HP HQ [A1 A2 A3 A4 A5 A6] [B1 B2 B3 B4 B5 B6].
  split.
  - intros i. by rewrite B1.
  - by rewrite B2.
  - intros i. by rewrite B3.
  - by rewrite B4.
  - intros k Hk. rewrite B5, A5; auto.
  - intros k i Hk. rewrite B6, A6; auto.
Qed.

Lemma relinked_next_ts P t t' i : relinked P t t' -> next_ts (q_of t' i) = next_ts (q_of t i).
Proof. intros H. pose proof (rl_core _ _ _ H i) as Hc. unfold core in Hc. congruence. Qed.
Lemma relinked_flags P t t' i : relinked P t t' -> q_flags (q_of t' i) = q_flags (q_of t i).
Proof. intros H. pose proof (rl_core _ _ _ H i) as Hc. unfold core in Hc. congruence. Qed.
Lemma relinked_params P t t' i : relinked P t t' ->
  (rate (q_of t' i), avail (q_of t' i), max_chunk (q_of t' i)) =
  (rate (q_of t i), avail (q_of t i), max_chunk (q_of t i)).
Proof. intros H. pose proof (rl_core _ _ _ H i) as Hc. unfold core in Hc. congruence. Qed.

Definition set_next (t : qman_thread) (i : Z) (l : nat) (v : Z) : qman_thread :=
  put_queue t i ((q_of t i) <| next_idxs := <[l := v]> (next_idxs (q_of t i)) |>).

Lemma nxt_set_next t i l v k j :
  (l < length (next_idxs (q_of t i)))%nat ->
  nxt (set_next t i l v) k j = if bool_decide (j = i /\ k = l) then v else nxt t k j.
Proof.
  intros Hl. unfold nxt, set_next. rewrite q_of_put. case_bool_decide as H1.
  - subst j. simpl. case_bool_decide as H2.
    + destruct H2 as [_ ->]. by rewrite list_lookup_total_insert_eq.
    + rewrite list_lookup_total_insert_ne; [done|]. intros ->. by apply H2.
  - rewrite bool_decide_eq_false_2; [done|]. intros [-> _]. done.
Qed.

Lemma set_next_relinked t i l v :
  (l < length (next_idxs (q_of t i)))%nat -> relinked (eq l) t (set_next t i l v).
Proof.
  intros Hl. split; try done.
  - intros j. unfold set_next. rewrite q_of_put. case_bool_decide; by subst.
  - intros j. unfold set_next. rewrite q_of_put. case_bool_decide; [subst|done].
    simpl. by rewrite length_insert.
  - intros k j Hk. rewrite nxt_set_next by done.
    rewrite bool_decide_eq_false_2; [done|]. intros [_ ->]. done.
Qed.

Definition set_head (t : qman_thread) (l : nat) (v : Z) : qman_thread :=
  t <| head_idx := <[l := v]> (head_idx t) |>.

Lemma set_head_relinked t l v : relinked (eq l) t (set_head t l v).
Proof.
  split; try done; simpl.
  - by rewrite length_insert.
  - intros k Hk. by rewrite list_lookup_total_insert_ne.
Qed.

(** ** Insertion at one level *)
Section Insert.
Context (t : qman_thread) (x : Z) (l : nat).
Hypothesis (Hlen : forall i, length (next_idxs (q_of t i)) = QMAN_SKIPLIST_LEVELS).
Hypothesis (Hheads : length (head_idx t) = QMAN_SKIPLIST_LEVELS).
Hypothesis (Hl : (l < QMAN_SKIPLIST_LEVELS)%nat) (Hx : 0 <= x < FLEXNIC_NUM_QMQUEUES).

(** [t'] is [t] with [x] put after the members [A] of level [l]. *)
Definition inserted (t' : qman_thread) (A B : list Z) : Prop :=
  relinked (eq l) t t' /\
  seg (nxt t' l) (head_idx t' !!! l) (A ++ x :: B) IDXLIST_INVAL /\
  (forall i, i ∉ x :: A -> nxt t' l i = nxt t l i).

Lemma insert_first B :
  x ∉ B -> seg (nxt t l) (head_idx t !!! l) B IDXLIST_INVAL ->
  inserted (set_head (set_next t x l (head_idx t !!! l)) l x) [] B.
Proof.
  intros Hfresh Hs. set (t1 := set_next t x l (head_idx t !!! l)).
  assert (forall y, nxt (set_head t1 l x) l y =
    if bool_decide (y = x) then head_idx t !!! l else nxt t l y) as Hn.
  { intros y. change (nxt (set_head t1 l x) l y) with (nxt t1 l y). unfold t1.
    rewrite nxt_set_next by (by rewrite Hlen). repeat case_bool_decide; naive_solver. }
  split; [|split].
  - apply (relinked_trans (eq l) (eq l) _ _ t1); [done|done| |apply set_head_relinked].
    apply set_next_relinked. by rewrite Hlen.
  - split; [by simpl; rewrite list_lookup_total_insert_eq by lia|].
    split; [done|]. rewrite Hn, bool_decide_eq_true_2 by done.
    eapply seg_ext; [|exact Hs]. intros y Hy. rewrite Hn, bool_decide_eq_false_2; [done|].
    intros ->. done.
  - intros y Hy. rewrite Hn, bool_decide_eq_false_2; set_solver.
Qed.

Lemma insert_after A p B :
  x ∉ A ++ p :: B -> NoDup (A ++ p :: B) ->
  seg (nxt t l) (head_idx t !!! l) (A ++ p :: B) IDXLIST_INVAL ->
  inserted (set_next (set_next t x l (nxt t l p)) p l x) (A ++ [p]) B.
Proof.
  intros Hfresh Hnd Hs. set (t1 := set_next t x l (nxt t l p)).
  assert (relinked (eq l) t t1) as Hrl by (apply set_next_relinked; by rewrite Hlen).
  assert (length (next_idxs (q_of t1 p)) = QMAN_SKIPLIST_LEVELS) as Hlen1
    by (by rewrite (rl_len _ _ _ Hrl)).
  assert (x <> p) as Hxp by set_solver.
  assert (forall y, nxt (set_next t1 p l x) l y =
    if bool_decide (y = p) then x else if bool_decide (y = x) then nxt t l p else nxt t l y) as Hn.
  { intros y. rewrite nxt_set_next by (by rewrite Hlen1). unfold t1.
    rewrite nxt_set_next by (by rewrite Hlen). repeat case_bool_decide; naive_solver. }
  apply seg_app in Hs as (m & HA & -> & Hp & HB).
  apply NoDup_app in Hnd as (_ & Hnd1 & Hnd2). apply NoDup_cons in Hnd2 as [Hnd2 _].
  split; [|split].
  - apply (relinked_trans (eq l) (eq l) _ _ t1); [done|done|done|].
    apply set_next_relinked. by rewrite Hlen1.
  - change (head_idx (set_next t1 p l x)) with (head_idx t).
    rewrite <- app_assoc. apply seg_app. exists p. split; [|split; [done|]; split; [done|]].
    + eapply seg_ext; [|exact HA]. intros y Hy. rewrite Hn, !bool_decide_eq_false_2; set_solver.
    + rewrite Hn, bool_decide_eq_true_2 by done. split; [done|]. split; [done|].
      rewrite Hn, bool_decide_eq_false_2, bool_decide_eq_true_2 by done.
      eapply seg_ext; [|exact HB]. intros y Hy. rewrite Hn, !bool_decide_eq_false_2; set_solver.
  - intros y Hy. rewrite Hn, !bool_decide_eq_false_2; set_solver.
Qed.

Lemma insert_level_spec level preds A B :
  (l <= level)%nat -> NoDup (A ++ B) -> x ∉ A ++ B ->
  seg (nxt t l) (head_idx t !!! l) (A ++ B) IDXLIST_INVAL ->
  preds !!! l = default IDXLIST_INVAL (last A) ->
  exists t', insert_level t x l level preds = Ok t' /\ inserted t' A B.
Proof.
  intros Hlv Hnd Hfresh Hs Hp. unfold insert_level.
  rewrite (get_queue_Ok t x) by done. osimpl.
  rewrite (proj2 (Nat.ltb_ge _ _)) by done.
  rewrite Hp. destruct A as [|p A _] using rev_ind.
  - eexists. split; [done|]. by apply insert_first.
  - rewrite last_snoc. pose proof (seg_range _ _ _ _ Hs) as Hr.
    rewrite !Forall_app, Forall_singleton in Hr. destruct Hr as [[_ Hr] _].
    simpl. rewrite (proj2 (Z.eqb_neq p _))
      by (unfold IDXLIST_INVAL, FLEXNIC_NUM_QMQUEUES in *; lia).
    do 2 (rewrite (get_queue_Ok _ p) by done; osimpl).
    rewrite <- app_assoc in Hs, Hfresh, Hnd.
    eexists. split; [done|]. exact (insert_after _ _ _ Hfresh Hnd Hs).
Qed.

Lemma insert_level_skip level preds S :
  (level < l)%nat -> x ∉ S -> seg (nxt t l) (head_idx t !!! l) S IDXLIST_INVAL ->
  exists t', insert_level t x l level preds = Ok t' /\ relinked (eq l) t t' /\
    seg (nxt t' l) (head_idx t' !!! l) S IDXLIST_INVAL /\
    (forall i, i <> x -> nxt t' l i = nxt t l i).
Proof.
  intros Hlv Hfresh Hs. unfold insert_level.
  rewrite (get_queue_Ok t x) by done. osimpl. rewrite (proj2 (Nat.ltb_lt _ _)) by done.
  exists (set_next t x l IDXLIST_INVAL). split; [done|].
  assert (forall y, y <> x -> nxt (set_next t x l IDXLIST_INVAL) l y = nxt t l y) as Hn.
  { intros y Hy. rewrite nxt_set_next by (by rewrite Hlen).
    rewrite bool_decide_eq_false_2; [done|]. by intros [-> _]. }
  split; [apply set_next_relinked; by rewrite Hlen|]. split; [|exact Hn].
  eapply seg_ext; [|exact Hs]. intros y Hy. apply Hn. intros ->. done.
Qed.

End Insert.

(** ** Insertion at the levels below [n] *)
Lemma insert_levels_spec n : forall t x level preds (A B : nat -> list Z),
  (n <= QMAN_SKIPLIST_LEVELS)%nat ->
  (forall i, length (next_idxs (q_of t i)) = QMAN_SKIPLIST_LEVELS) ->
  length (head_idx t) = QMAN_SKIPLIST_LEVELS -> 0 <= x < FLEXNIC_NUM_QMQUEUES ->
  (forall l, (l < n)%nat -> NoDup (A l ++ B l) /\ x ∉ A l ++ B l /\
     seg (nxt t l) (head_idx t !!! l) (A l ++ B l) IDXLIST_INVAL /\
     preds !!! l = default IDXLIST_INVAL (last (A l))) ->
  exists t', insert_levels n t x level preds = Ok t' /\ relinked (fun k => (k < n)%nat) t t' /\
    (forall l, (l < n)%nat -> seg (nxt t' l) (head_idx t' !!! l)
       (if (level <? l)%nat then A l ++ B l else A l ++ x :: B l) IDXLIST_INVAL) /\
    (forall l i, (l < n)%nat -> i ∉ x :: A l -> nxt t' l i = nxt t l i).
Proof.
  induction n as [|l IH]; intros t x level preds A B Hn Hlen Hheads Hx HA.
  { exists t. split; [done|]. split; [apply relinked_refl|]. split; intros; lia. }
  destruct (HA l) as (Hnd & Hfresh & Hs & Hp); [lia|].
  assert (exists t1, insert_level t x l level preds = Ok t1 /\ relinked (eq l) t t1 /\
    seg (nxt t1 l) (head_idx t1 !!! l)
      (if (level <? l)%nat then A l ++ B l else A l ++ x :: B l) IDXLIST_INVAL /\
    (forall i, i ∉ x :: A l -> nxt t1 l i = nxt t l i)) as (t1 & Ht1 & Hrl & Hs1 & Hn1).
  { destruct (Nat.ltb_spec level l) as [Hlv|Hlv].
    - destruct (insert_level_skip t x l Hlen ltac:(lia) Hx level preds _ Hlv Hfresh Hs)
        as (t1 & ? & ? & ? & Hi). exists t1. split_and!; [done..|].
      intros i Hi'. apply Hi. set_solver.
    - by destruct (insert_level_spec t x l Hlen Hheads ltac:(lia) Hx level preds _ _ Hlv Hnd Hfresh Hs Hp)
        as (t1 & ? & ? & ? & ?); exists t1. }
  destruct (IH t1 x level preds A B) as (t' & Ht' & Hrl' & Hs' & Hn'); [lia| | |done| |].
  { intros i. by rewrite (rl_len _ _ _ Hrl). }
  { by rewrite (rl_heads _ _ _ Hrl). }
  { intros k Hk. destruct (HA k) as (? & ? & Hsk & ?); [lia|]. split_and!; [done..| |done].
    rewrite (rl_head _ _ _ Hrl) by lia. eapply seg_ext; [|exact Hsk].
    intros y _. apply (rl_nxt _ _ _ Hrl). lia. }
  exists t'. simpl. rewrite Ht1. split; [done|]. split.
  { apply (relinked_trans (eq l) (fun k => (k < l)%nat) _ _ t1); [lia|lia|exact Hrl|exact Hrl']. }
  split; intros k; [intros Hk|intros i Hk Hi]; destruct (decide (k = l)) as [->|Hkl].
  - rewrite (rl_head _ _ _ Hrl') by lia. eapply seg_ext; [|exact Hs1].
    intros y _. apply (rl_nxt _ _ _ Hrl'). lia.
  - apply Hs'. lia.
  - rewrite (rl_nxt _ _ _ Hrl') by lia. by apply Hn1.
  - rewrite Hn' by (done || lia). apply (rl_nxt _ _ _ Hrl). lia.
Qed.

(** ** Searching the skip list *)
Section Search.
Context (t : qman_thread) (ts : Z).

(** Queue [i] fires no later than [ts]. *)
Definition due (i : Z) : Prop := timestamp_lessthaneq t (next_ts (q_of t i)) ts = true.

Lemma find_pred_spec l C : forall fuel pred idx,
  seg (nxt t l) idx C IDXLIST_INVAL -> (length C < fuel)%nat ->
  exists C1 C2, C = C1 ++ C2 /\ Forall due C1 /\ (forall x, head C2 = Some x -> ~ due x) /\
    find_pred fuel t l pred idx ts = Ok (default pred (last C1)).
Proof.
  induction C as [|x C IH]; intros fuel pred idx Hs Hf;
    (destruct fuel as [|fuel]; [simpl in Hf; lia|]); simpl.
  - simpl in Hs. subst. exists [], []. split_and!; [done|constructor|done|done].
  - destruct Hs as (-> & Hr & Hs).
    rewrite (proj2 (Z.eqb_neq x _)) by (unfold IDXLIST_INVAL, FLEXNIC_NUM_QMQUEUES in *; lia).
    rewrite get_queue_Ok by done. osimpl.
    destruct (timestamp_lessthaneq t (next_ts (q_of t x)) ts) eqn:Hd.
    + change (next_idxs (q_of t x) !!! l) with (nxt t l x).
      destruct (IH fuel x _ Hs ltac:(simpl in Hf; lia)) as (C1 & C2 & -> & H1 & H2 & ->).
      exists (x :: C1), C2. split_and!; [done|by constructor|done|].
      rewrite last_cons. by destruct (last C1).
    + exists [], (x :: C). split_and!; [done|constructor| |done].
      intros y [= <-]. unfold due. by rewrite Hd.
Qed.

(** Where the new queue goes at one level: after [A], before [B]. *)
Definition split_at (S A B : list Z) : Prop :=
  S = A ++ B /\ (forall p, last A = Some p -> due p) /\ (forall x, head B = Some x -> ~ due x).

Lemma descend l S A' B' :
  NoDup S -> seg (nxt t l) (head_idx t !!! l) S IDXLIST_INVAL -> (length S < list_fuel t)%nat ->
  (forall p, last A' = Some p -> due p) -> (forall x, head B' = Some x -> ~ due x) ->
  sublist (A' ++ B') S ->
  let pred := default IDXLIST_INVAL (last A') in
  exists A B, split_at S A B /\ sublist A' A /\ sublist B' B /\
    find_pred (list_fuel t) t l pred
      (if negb (pred =? IDXLIST_INVAL) then pred else head_idx t !!! l) ts
      = Ok (default IDXLIST_INVAL (last A)).
Proof.
  intros Hnd Hs Hf HA' HB' Hsub pred.
  destruct A' as [|p A' _] using rev_ind.
  - destruct (find_pred_spec l S (list_fuel t) IDXLIST_INVAL _ Hs Hf) as (C1 & C2 & -> & H1 & H2 & He).
    exists C1, C2. split_and!; [split_and!; [done| |done]| |by eapply sublist_skip_prefix|exact He].
    + intros p Hp. rewrite Forall_forall in H1. apply H1. by apply last_Some_elem_of.
    + apply sublist_nil_l.
  - unfold pred. rewrite last_snoc. cbn [from_option id].
    pose proof (sublist_subseteq _ _ Hsub p ltac:(set_solver)) as Hin.
    apply list_elem_of_split in Hin as (C & D & ->).
    rewrite <- app_assoc in Hsub. simpl in Hsub.
    destruct (sublist_pivot _ _ _ _ _ Hnd Hsub) as [HC HD].
    apply seg_app in Hs as (m & HsC & HsD). assert (m = p) as -> by (by destruct HsD).
    pose proof (seg_range _ _ _ _ HsD) as Hr. apply Forall_cons in Hr as [Hr _].
    rewrite (proj2 (Z.eqb_neq p _)) by (unfold IDXLIST_INVAL, FLEXNIC_NUM_QMQUEUES in *; lia).
    cbn [negb]. rewrite length_app in Hf.
    destruct (find_pred_spec l (p :: D) (list_fuel t) p p HsD ltac:(lia))
      as (C1 & C2 & Heq & H1 & H2 & He).
    assert (due p) as Hdp by (apply HA'; by rewrite last_snoc).
    destruct C1 as [|q C1]; [exfalso; simpl in Heq; apply (H2 p); [by rewrite <- Heq|done]|].
    simpl in Heq. injection Heq as <- ->. apply Forall_cons in H1 as [_ H1].
    exists (C ++ p :: C1), C2. split_and!.
    + split_and!; [by rewrite <- app_assoc| |done].
      intros q Hq. rewrite last_app_cons, last_cons in Hq.
      destruct (last C1) as [r|] eqn:Hr1; [|by simplify_eq].
      injection Hq as <-. rewrite Forall_forall in H1. apply H1. by apply last_Some_elem_of.
    + apply sublist_app; [done|]. apply sublist_skip, sublist_nil_l.
    + by eapply sublist_skip_prefix.
    + rewrite He, last_app_cons, last_cons. by destruct (last C1).
Qed.

Lemma find_preds_spec (sl : nat -> list Z) n : forall (A' B' : list Z),
  (forall l, (l < n)%nat -> NoDup (sl l) /\ (length (sl l) < list_fuel t)%nat /\
     seg (nxt t l) (head_idx t !!! l) (sl l) IDXLIST_INVAL) ->
  (forall l, (S l < n)%nat -> sublist (sl (S l)) (sl l)) ->
  (forall p, last A' = Some p -> due p) -> (forall x, head B' = Some x -> ~ due x) ->
  (n = O \/ sublist (A' ++ B') (sl (pred n))) ->
  exists preds (A B : nat -> list Z),
    find_preds n t (default IDXLIST_INVAL (last A')) ts = Ok preds /\ length preds = n /\
    (forall l, (l < n)%nat -> split_at (sl l) (A l) (B l) /\
       preds !!! l = default IDXLIST_INVAL (last (A l))) /\
    (forall l, (S l < n)%nat -> sublist (A (S l)) (A l) /\ sublist (B (S l)) (B l)) /\
    (n = O \/ sublist A' (A (pred n)) /\ sublist B' (B (pred n))).
Proof.
  induction n as [|l IH]; intros A' B' Hsl Hsub HA' HB' Hin.
  { exists [], (fun _ => []), (fun _ => []). split_and!; [done|done|lia|lia|by left]. }
  destruct Hin as [?|Hin]; [done|]. simpl in Hin.
  destruct (Hsl l) as (Hnd & Hf & Hs); [lia|].
  destruct (descend l (sl l) A' B' Hnd Hs Hf HA' HB' Hin) as (A0 & B0 & Hsp & HA0 & HB0 & He).
  destruct (IH A0 B0) as (preds & A & B & Hp & Hlen & Hspl & Hsubs & Hlast).
  { intros k Hk. apply Hsl. lia. }
  { intros k Hk. apply Hsub. lia. }
  { apply Hsp. } { apply Hsp. }
  { destruct l as [|l]; [by left|right]. simpl. destruct Hsp as (<- & _). apply Hsub. lia. }
  exists (preds ++ [default IDXLIST_INVAL (last A0)]),
    (fun k => if decide (k = l) then A0 else A k), (fun k => if decide (k = l) then B0 else B k).
  cbn [find_preds]. rewrite He. osimpl. rewrite Hp. osimpl. split_and!; [done| | | |right].
  - rewrite length_app, Hlen. simpl. lia.
  - intros k Hk. destruct (decide (k = l)) as [->|Hkl].
    + split; [done|]. rewrite list_lookup_total_alt, lookup_app_r by lia.
      by rewrite Hlen, Nat.sub_diag.
    + rewrite list_lookup_total_alt, lookup_app_l, <- list_lookup_total_alt by lia.
      apply Hspl. lia.
  - intros k Hk. rewrite (decide_False (P := k = l)) by lia.
    rewrite (decide_False (P := k = l)) by lia.
    destruct (decide (S k = l)) as [<-|Hkl]; [|apply Hsubs; lia].
    destruct Hlast as [?|?]; [done|done].
  - by rewrite !decide_True by done.
Qed.

End Search.

(** ** The structure under updates *)
Lemma linked_put t nl sl i q :
  next_idxs q = next_idxs (q_of t i) -> q_flags q = q_flags (q_of t i) ->
  linked t nl sl -> linked (put_queue t i q) nl sl.
Proof.
  intros Hn Hf [H1 H2 H3 H4 H5 H6 H7 H8].
  assert (forall l j, nxt (put_queue t i q) l j = nxt t l j) as Hnxt.
  { intros l j. unfold nxt. rewrite q_of_put. case_bool_decide; [by subst; rewrite Hn|done]. }
  split; try done.
  - intros j. rewrite q_of_put. case_bool_decide; [by subst; rewrite Hn|done].
  - eapply seg_ext; [intros; apply Hnxt|done].
  - intros l Hl. eapply seg_ext; [intros; apply Hnxt|by apply H5].
  - intros j. rewrite q_of_put. case_bool_decide; [by subst; rewrite Hf|done].
Qed.

Lemma linked_in_map t nl sl i : linked t nl sl -> i ∈ nl ++ sl 0%nat -> i ∈ dom (queues t).
Proof.
  intros [_ _ _ _ _ _ _ Hf] Hi. apply elem_of_dom. specialize (Hf i).
  unfold q_of in Hf. destruct (queues t !! i) as [q|]; [by eexists|].
  simpl in Hf. unfold flags_of in Hf. apply elem_of_app in Hi as [Hi|Hi].
  - by rewrite bool_decide_eq_true_2 in Hf.
  - case_bool_decide; [done|]. by rewrite bool_decide_eq_true_2 in Hf.
Qed.

Lemma linked_size t nl sl : linked t nl sl -> (length (nl ++ sl 0%nat) <= size (queues t))%nat.
Proof.
  intros Hlk. rewrite <- (size_dom (D := gset Z)).
  rewrite <- (size_list_to_set (C := gset Z) (nl ++ sl 0%nat)) by apply Hlk.
  apply subseteq_size. intros i Hi. apply elem_of_list_to_set in Hi.
  by eapply linked_in_map.
Qed.

Lemma linked_level t nl sl l :
  linked t nl sl -> (l < QMAN_SKIPLIST_LEVELS)%nat -> sublist (sl l) (sl 0%nat).
Proof.
  intros Hlk. induction l as [|l IH]; intros Hl; [done|].
  etrans; [apply (lk_sub _ _ _ Hlk); lia|apply IH; lia].
Qed.

Lemma linked_level_ok t nl sl l :
  linked t nl sl -> (l < QMAN_SKIPLIST_LEVELS)%nat ->
  NoDup (sl l) /\ (length (sl l) < list_fuel t)%nat /\
  seg (nxt t l) (head_idx t !!! l) (sl l) IDXLIST_INVAL.
Proof.
  intros Hlk Hl. pose proof (linked_level _ _ _ _ Hlk Hl) as Hsub. split_and!.
  - eapply sublist_NoDup; [|exact Hsub]. pose proof (lk_nodup _ _ _ Hlk) as Hnd.
    by apply NoDup_app in Hnd as (_ & _ & ?).
  - pose proof (linked_size _ _ _ Hlk) as Hsz. apply sublist_length in Hsub.
    rewrite length_app in Hsz. unfold list_fuel. lia.
  - by apply Hlk.
Qed.

Lemma flags_none nl sl i : i ∉ nl ++ sl -> flags_of nl sl i = 0.
Proof. intros Hi. unfold flags_of. rewrite !bool_decide_eq_false_2; set_solver. Qed.

Lemma flags_idle t nl sl i :
  linked t nl sl -> i ∉ nl ++ sl 0%nat -> q_flags (q_of t i) = 0.
Proof. intros Hlk Hi. by rewrite (lk_flags _ _ _ Hlk), flags_none. Qed.

(** ** Activation *)
Definition params (q : queue) : Z * Z * Z := (rate q, avail q, max_chunk q).
Definition clock (t : qman_thread) : Z * Z * bool := (ts_real t, ts_virtual t, nolimit_first t).

(** [t'] is [t] with the idle queue [idx] added to one of the lists. *)
Record activated (t t' : qman_thread) (idx : Z) (nl : list Z) (sl : nat -> list Z)
  (nl' : list Z) (sl' : nat -> list Z) : Prop := {
  ac_linked : linked t' nl' sl';
  ac_params : forall i, params (q_of t' i) = params (q_of t i);
  ac_ts : forall i, i <> idx -> next_ts (q_of t' i) = next_ts (q_of t i);
  ac_clock : clock t' = clock t;
  ac_members : nl' ++ sl' 0%nat ≡ₚ idx :: nl ++ sl 0%nat;
  ac_nl : (length nl' <= S (length nl))%nat;
  ac_sl : (length (sl' 0%nat) <= S (length (sl 0%nat)))%nat;
}.

Lemma flags_of_snoc nl sl x i :
  x ∉ nl ++ sl -> flags_of (nl ++ [x]) sl i = if bool_decide (i = x) then 2 else flags_of nl sl i.
Proof.
  intros Hx. unfold flags_of. repeat case_bool_decide; try done; set_solver.
Qed.

Lemma flags_of_insert nl A B x i :
  x ∉ nl ++ A ++ B ->
  flags_of nl (A ++ x :: B) i = if bool_decide (i = x) then 1 else flags_of nl (A ++ B) i.
Proof.
  intros Hx. unfold flags_of. repeat case_bool_decide; try done; set_solver.
Qed.

Lemma linked_disjoint t nl sl l i :
  linked t nl sl -> (l < QMAN_SKIPLIST_LEVELS)%nat -> i ∈ sl l -> i ∉ nl.
Proof.
  intros Hlk Hl Hi. pose proof (lk_nodup _ _ _ Hlk) as Hnd.
  apply NoDup_app in Hnd as (_ & Hd & _). intros Hin. apply (Hd i Hin).
  by apply (sublist_subseteq _ _ (linked_level _ _ _ _ Hlk Hl)).
Qed.

Lemma NoDup_push nl sl (x : Z) : NoDup (nl ++ sl) -> x ∉ nl ++ sl -> NoDup ((nl ++ [x]) ++ sl).
Proof.
  intros Hnd Hx. rewrite <- app_assoc. simpl. rewrite <- Permutation_middle. by constructor.
Qed.

Lemma nolimit_pushed t t' nl sl idx :
  linked t nl sl -> idx ∉ nl ++ sl 0%nat ->
  (forall i, length (next_idxs (q_of t' i)) = QMAN_SKIPLIST_LEVELS) ->
  (forall i, params (q_of t' i) = params (q_of t i)) ->
  (forall i, next_ts (q_of t' i) = next_ts (q_of t i)) ->
  (forall i, q_flags (q_of t' i) = if bool_decide (i = idx) then 2 else q_flags (q_of t i)) ->
  (forall l i, i ∉ idx :: nl -> nxt t' l i = nxt t l i) ->
  seg (nxt t' 0) (nolimit_head_idx t') (nl ++ [idx]) IDXLIST_INVAL ->
  nolimit_tail_idx t' = idx -> head_idx t' = head_idx t -> clock t' = clock t ->
  activated t t' idx nl sl (nl ++ [idx]) sl.
Proof.
  intros Hlk Hi Hlen Hpar Hts Hfl Hn Hs Htail Hhead Hclk. split; auto.
  - split; auto.
    + rewrite Hhead. apply Hlk.
    + by rewrite last_snoc.
    + intros l Hl. rewrite Hhead. eapply seg_ext; [|by apply Hlk]. intros i Hil. apply Hn.
      pose proof (linked_disjoint _ _ _ _ _ Hlk Hl Hil).
      pose proof (sublist_subseteq _ _ (linked_level _ _ _ _ Hlk Hl) i Hil).
      intros [->|?]%elem_of_cons; set_solver.
    + apply Hlk.
    + apply NoDup_push; [apply Hlk|done].
    + intros i. rewrite Hfl, flags_of_snoc by done. by rewrite (lk_flags _ _ _ Hlk).
  - rewrite <- app_assoc. simpl. by rewrite <- Permutation_middle.
  - rewrite length_app. simpl. lia.
Qed.

(** The queue on its own: flagged, with no successor. *)
Definition marked (t : qman_thread) (idx : Z) : qman_thread :=
  put_queue t idx ((q_of t idx) <| q_flags := FLAG_INNOLIMITL |>
    <| next_idxs := <[0%nat := IDXLIST_INVAL]> (next_idxs (q_of t idx)) |>).

Lemma marked_spec t idx :
  (forall i, length (next_idxs (q_of t i)) = QMAN_SKIPLIST_LEVELS) ->
  (forall i, length (next_idxs (q_of (marked t idx) i)) = QMAN_SKIPLIST_LEVELS) /\
  (forall i, params (q_of (marked t idx) i) = params (q_of t i)) /\
  (forall i, next_ts (q_of (marked t idx) i) = next_ts (q_of t i)) /\
  (forall i, q_flags (q_of (marked t idx) i) =
     if bool_decide (i = idx) then 2 else q_flags (q_of t i)) /\
  (forall l i, nxt (marked t idx) l i =
     if bool_decide (i = idx /\ l = 0%nat) then IDXLIST_INVAL else nxt t l i).
Proof.
  intros Hlen. unfold marked. split_and!; intros; rewrite ?q_of_put.
  - case_bool_decide; subst; simpl; rewrite ?length_insert; done.
  - case_bool_decide; by subst.
  - case_bool_decide; by subst.
  - repeat case_bool_decide; by subst.
  - rewrite <- nxt_set_next by (rewrite Hlen; unfold QMAN_SKIPLIST_LEVELS; lia).
    unfold nxt, set_next. rewrite !q_of_put. by case_bool_decide.
Qed.

Lemma activate_nolimit_ok t nl sl idx :
  linked t nl sl -> 0 <= idx < FLEXNIC_NUM_QMQUEUES -> idx ∉ nl ++ sl 0%nat ->
  exists t', queue_activate_nolimit t idx = Ok t' /\
    activated t t' idx nl sl (nl ++ [idx]) sl.
Proof.
  intros Hlk Hr Hi. unfold queue_activate_nolimit. rewrite get_queue_Ok by done. osimpl.
  rewrite (flags_idle _ _ _ _ Hlk Hi). simpl (Z.land _ _ =? 0). osimpl.
  change (put_queue t idx _) with (marked t idx).
  destruct (marked_spec t idx (lk_len _ _ _ Hlk)) as (M1 & M2 & M3 & M4 & M5).
  change (nolimit_tail_idx (marked t idx)) with (nolimit_tail_idx t).
  rewrite (lk_tail _ _ _ Hlk). pose proof (lk_nl _ _ _ Hlk) as Hs.
  assert (forall l i, i ∉ idx :: nl -> nxt (marked t idx) l i = nxt t l i) as M6.
  { intros l i Hn. rewrite M5, bool_decide_eq_false_2; set_solver. }
  destruct nl as [|p nl _] using rev_ind; simpl.
  - eexists. split; [done|]. apply nolimit_pushed; try done.
    split; [done|]. split; [done|]. change (nxt _ 0 idx) with (nxt (marked t idx) 0 idx).
    rewrite M5. by rewrite bool_decide_eq_true_2.
  - rewrite last_snoc. simpl. apply seg_snoc in Hs as (Hs & Hp & Hp').
    rewrite (proj2 (Z.eqb_neq p _)) by (unfold IDXLIST_INVAL, FLEXNIC_NUM_QMQUEUES in *; lia).
    rewrite get_queue_Ok by done. osimpl. eexists. split; [done|].
    change (put_queue (marked t idx) p _) with (set_next (marked t idx) p 0 idx).
    assert (0 < length (next_idxs (q_of (marked t idx) p)))%nat as Hl0
      by (rewrite M1; unfold QMAN_SKIPLIST_LEVELS; lia).
    pose proof (set_next_relinked (marked t idx) p 0 idx Hl0) as Hrl.
    assert (forall l i, nxt (set_next (marked t idx) p 0 idx) l i =
      if bool_decide (i = p /\ l = 0%nat) then idx else nxt (marked t idx) l i) as Hn
      by (intros; by apply nxt_set_next).
    pose proof (lk_nodup _ _ _ Hlk) as Hnd. rewrite <- app_assoc in Hnd.
    apply NoDup_app in Hnd as (_ & Hnd & _).
    apply nolimit_pushed; try done.
    + intros i. etrans; [apply (rl_len _ _ _ Hrl)|apply M1].
    + intros i. etrans; [|apply M2]. exact (relinked_params _ _ _ _ Hrl).
    + intros i. etrans; [|apply M3]. exact (relinked_next_ts _ _ _ _ Hrl).
    + intros i. etrans; [|apply M4]. exact (relinked_flags _ _ _ _ Hrl).
    + intros l i Hin. etrans; [apply Hn|]. rewrite bool_decide_eq_false_2 by set_solver.
      by apply M6.
    + apply seg_snoc. split; [|split; [done|]].
      * apply seg_snoc. split; [|split; [done|]].
        -- eapply seg_ext; [|exact Hs]. intros y Hy. etrans; [apply Hn|].
           rewrite bool_decide_eq_false_2 by set_solver. rewrite M5, bool_decide_eq_false_2; set_solver.
        -- etrans; [apply Hn|]. by rewrite bool_decide_eq_true_2.
      * etrans; [apply Hn|]. rewrite bool_decide_eq_false_2 by set_solver.
        rewrite M5. by rewrite bool_decide_eq_true_2.
Qed.

Lemma linked_rng t nl sl s : linked t nl sl -> linked (t <| rng := s |>) nl sl.
Proof. intros [H1 H2 H3 H4 H5 H6 H7 H8]. by split. Qed.

Lemma queue_level_eq t : exists level s, queue_level t = (level, t <| rng := s |>).
Proof.
  unfold queue_level. destruct (Rng.utils_rng_gen32 (rng t)) as [r s]. by eexists _, _.
Qed.

(** The levels after insertion of [x] at the levels up to [level]. *)
Definition levels_insert (sl A B : nat -> list Z) (x : Z) (level : nat) (l : nat) : list Z :=
  if (level <? l)%nat then sl l else A l ++ x :: B l.

Lemma skiplist_inserted t t' nl sl x level A B :
  linked t nl sl -> x ∉ nl ++ sl 0%nat ->
  relinked (fun k => (k < QMAN_SKIPLIST_LEVELS)%nat) t t' ->
  (forall l, (l < QMAN_SKIPLIST_LEVELS)%nat -> sl l = A l ++ B l) ->
  (forall l, (S l < QMAN_SKIPLIST_LEVELS)%nat ->
     sublist (A (S l)) (A l) /\ sublist (B (S l)) (B l)) ->
  (forall l, (l < QMAN_SKIPLIST_LEVELS)%nat ->
     seg (nxt t' l) (head_idx t' !!! l) (levels_insert sl A B x level l) IDXLIST_INVAL) ->
  (forall l i, (l < QMAN_SKIPLIST_LEVELS)%nat -> i ∉ x :: A l -> nxt t' l i = nxt t l i) ->
  linked (put_queue t' x ((q_of t' x) <| q_flags := FLAG_INSKIPLIST |>)) nl
    (levels_insert sl A B x level).
Proof.
  intros Hlk Hx Hrl Hsl Hsub Hs Hn.
  assert (levels_insert sl A B x level 0 = A 0%nat ++ x :: B 0%nat) as H0 by done.
  assert (sl 0%nat = A 0%nat ++ B 0%nat) as Hsl0 by (apply Hsl; unfold QMAN_SKIPLIST_LEVELS; lia).
  pose proof (lk_nodup _ _ _ Hlk) as Hnd. rewrite Hsl0 in Hx, Hnd.
  set (t2 := put_queue _ _ _).
  assert (forall l i, nxt t2 l i = nxt t' l i) as Hn2.
  { intros l i. unfold nxt, t2. rewrite q_of_put. case_bool_decide; by subst. }
  pose proof (rl_others _ _ _ Hrl) as Ho. unfold others in Ho.
  injection Ho as Ho1 Ho2 Ho3 Ho4 Ho5. split.
  - intros i. transitivity (length (next_idxs (q_of t' i))).
    + unfold t2. rewrite q_of_put. case_bool_decide; by subst.
    + by rewrite (rl_len _ _ _ Hrl), (lk_len _ _ _ Hlk).
  - simpl. by rewrite (rl_heads _ _ _ Hrl), (lk_heads _ _ _ Hlk).
  - change (nolimit_head_idx t2) with (nolimit_head_idx t'). rewrite Ho1.
    eapply seg_ext; [|by apply Hlk]. intros y Hy. rewrite Hn2. apply Hn.
    + unfold QMAN_SKIPLIST_LEVELS; lia.
    + apply NoDup_app in Hnd as (_ & Hd & _). specialize (Hd y Hy). set_solver.
  - change (nolimit_tail_idx t2) with (nolimit_tail_idx t'). rewrite Ho2. apply Hlk.
  - intros l Hl. eapply seg_ext; [|by apply Hs]. intros; apply Hn2.
  - intros l Hl. unfold levels_insert.
    destruct (Nat.ltb_spec level (S l)); destruct (Nat.ltb_spec level l); try lia.
    + by apply Hlk.
    + etrans; [by apply (lk_sub _ _ _ Hlk)|]. rewrite Hsl by lia.
      apply sublist_app; [done|]. by apply sublist_cons.
    + destruct (Hsub l Hl). apply sublist_app; [done|]. by apply sublist_skip.
  - rewrite H0, app_assoc, <- Permutation_middle, <- app_assoc. by constructor.
  - intros i. rewrite H0, flags_of_insert, <- Hsl0, <- (lk_flags _ _ _ Hlk) by done.
    unfold t2. rewrite q_of_put. case_bool_decide as Hi.
    + subst. by rewrite bool_decide_eq_true_2.
    + rewrite bool_decide_eq_false_2 by congruence.
      exact (relinked_flags _ _ _ _ Hrl).
Qed.

(** Activation in the skip list puts the queue after the last queue that is due
    no later than it. *)
Lemma activate_skiplist_ok t nl sl idx :
  linked t nl sl -> 0 <= idx < FLEXNIC_NUM_QMQUEUES -> idx ∉ nl ++ sl 0%nat ->
  rate (q_of t idx) <> 0 ->
  exists t' sl' ts A B, queue_activate_skiplist t idx = Ok t' /\
    activated t t' idx nl sl nl sl' /\ next_ts (q_of t' idx) = ts /\
    sl' 0%nat = A ++ idx :: B /\ split_at t ts (sl 0%nat) A B /\
    (exists m, queue_new_ts t (q_of t idx) (max_chunk (q_of t idx)) = Ok m /\
       ts = clamp_ts t (next_ts (q_of t idx)) m).
Proof.
  intros Hlk Hr Hi Hrate. unfold queue_activate_skiplist. rewrite get_queue_Ok by done. osimpl.
  rewrite (flags_idle _ _ _ _ Hlk Hi). simpl (Z.land _ _ =? 0). osimpl.
  assert (exists m, queue_new_ts t (q_of t idx) (max_chunk (q_of t idx)) = Ok m) as [m Hm].
  { unfold queue_new_ts. rewrite (proj2 (Z.eqb_neq _ _)) by done. by eexists. }
  rewrite Hm. osimpl. set (ts := clamp_ts _ _ _). set (t1 := put_queue _ _ _).
  assert (linked t1 nl sl) as Hlk1 by (by apply linked_put).
  destruct (find_preds_spec t1 ts sl QMAN_SKIPLIST_LEVELS [] []) as
    (preds & A & B & Hp & _ & Hsp & Hsubs & _); [by intros l Hl; apply (linked_level_ok t1 nl)|apply Hlk1|done|done| |].
  { right. apply sublist_nil_l. }
  change (default IDXLIST_INVAL (last [])) with IDXLIST_INVAL in Hp.
  rewrite Hp. osimpl. destruct (queue_level_eq t1) as (level & s & ->).
  apply (linked_rng _ _ _ s) in Hlk1. set (t2 := t1 <| rng := s |>) in *.
  destruct (insert_levels_spec QMAN_SKIPLIST_LEVELS t2 idx level preds A B) as
    (t3 & H3 & Hrl & Hs3 & Hn3); [done|apply Hlk1|apply Hlk1|done| |].
  { intros l Hl. destruct (Hsp l Hl) as [(Heq & _) Hpl]. rewrite <- Heq.
    destruct (linked_level_ok _ _ _ l Hlk1 Hl) as (? & _ & ?). split_and!; try done.
    intros Hin. apply Hi. apply elem_of_app. right.
    by apply (sublist_subseteq _ _ (linked_level _ _ _ _ Hlk1 Hl)). }
  osimpl. rewrite H3. osimpl. rewrite get_queue_Ok by done. osimpl.
  assert (q_flags (q_of t3 idx) = 0) as Hf3.
  { rewrite (relinked_flags _ _ _ _ Hrl).
    exact (flags_idle _ _ _ _ Hlk1 Hi). }
  rewrite Hf3. change (Z.lor 0 FLAG_INSKIPLIST) with FLAG_INSKIPLIST.
  eexists _, (levels_insert sl A B idx level), ts, (A 0%nat), (B 0%nat). split; [done|].
  destruct (Hsp 0%nat ltac:(unfold QMAN_SKIPLIST_LEVELS; lia)) as [(Hsl0 & HA0 & HB0) _].
  assert (forall i, i ∈ sl 0%nat -> next_ts (q_of t1 i) = next_ts (q_of t i)) as Hts1.
  { intros i Hin. unfold t1. rewrite q_of_put, bool_decide_eq_false_2; [done|].
    intros ->. apply Hi. set_solver. }
  split_and!; [|rewrite q_of_put_same; simpl; rewrite (relinked_next_ts _ _ _ _ Hrl);
    exact (f_equal next_ts (q_of_put_same _ _ _))|done| |by exists m].
  - split.
    + eapply skiplist_inserted; [exact Hlk1|done|exact Hrl| |done| |done].
      * intros l Hl. by destruct (Hsp l Hl) as [(? & _) _].
      * intros l Hl. unfold levels_insert. specialize (Hs3 l Hl).
        destruct (Hsp l Hl) as [(-> & _) _]. done.
    + intros i. rewrite q_of_put. pose proof (rl_core _ _ _ Hrl i) as Hc.
      change (q_of t2 i) with (q_of t1 i) in Hc. unfold t1 in Hc. rewrite q_of_put in Hc.
      repeat case_bool_decide; subst; injection Hc as ? ? ? ? ?; unfold params; simpl in *; congruence.
    + intros i Hne. rewrite q_of_put, bool_decide_eq_false_2 by congruence.
      rewrite (relinked_next_ts _ _ _ _ Hrl).
      change (q_of t2 i) with (q_of t1 i). unfold t1.
      by rewrite q_of_put, bool_decide_eq_false_2 by congruence.
    + pose proof (rl_others _ _ _ Hrl) as Ho. unfold others in Ho. unfold clock. simpl in *. congruence.
    + change (levels_insert sl A B idx level 0) with (A 0%nat ++ idx :: B 0%nat).
      rewrite Hsl0, app_assoc, <- Permutation_middle, <- app_assoc. done.
    + lia.
    + change (levels_insert sl A B idx level 0) with (A 0%nat ++ idx :: B 0%nat).
      rewrite Hsl0, !length_app. simpl. lia.
  - split_and!; [done| |].
    + intros p Hlast. specialize (HA0 p Hlast). unfold due in *. rewrite Hts1 in HA0; [done|].
      rewrite Hsl0. apply last_Some_elem_of in Hlast. set_solver.
    + intros x Hx Hd. apply (HB0 x Hx). unfold due in *. rewrite Hts1; [done|].
      rewrite Hsl0. apply head_Some_elem_of in Hx. set_solver.
Qed.

(** The list of queues without limit is left as it is, or [x] is at its end. *)
Definition pushed_back (nl : list Z) (x : Z) (nl' : list Z) : Prop := nl' = nl \/ nl' = nl ++ [x].

Lemma queue_activate_ok t nl sl idx :
  linked t nl sl -> 0 <= idx < FLEXNIC_NUM_QMQUEUES -> idx ∉ nl ++ sl 0%nat ->
  exists t' nl' sl', queue_activate t idx = Ok t' /\ activated t t' idx nl sl nl' sl' /\
    (rate (q_of t idx) = 0 -> nl' = nl ++ [idx] /\ sl' = sl) /\ pushed_back nl idx nl'.
Proof.
  intros Hlk Hr Hi. unfold queue_activate. rewrite get_queue_Ok by done. osimpl.
  destruct (Z.eqb_spec (rate (q_of t idx)) 0) as [H0|H0].
  - destruct (activate_nolimit_ok t nl sl idx) as (t' & ? & ?); [done..|].
    exists t', (nl ++ [idx]), sl. split_and!; [done|done|done|by right].
  - destruct (activate_skiplist_ok t nl sl idx) as (t' & sl' & ? & ? & ? & ? & ? & _); [done..|].
    exists t', nl, sl'. split_and!; [done|done|done|by left].
Qed.

(** ** The invariant *)

(** The fields are in the range of their C types. *)
Definition sized (t : qman_thread) : Prop := forall i,
  0 <= rate (q_of t i) < 4294967296 /\ 0 <= avail (q_of t i) < 4294967296 /\
  0 <= max_chunk (q_of t i) < 65536.

(** No queue with pending bytes is forgotten. *)
Definition backlogged (t : qman_thread) (members : list Z) : Prop :=
  forall i, 0 < avail (q_of t i) -> i ∈ members.

Record qman_ok (t : qman_thread) (nl : list Z) (sl : nat -> list Z) : Prop := {
  qk_linked : linked t nl sl;
  qk_sized : sized t;
  qk_backlog : backlogged t (nl ++ sl 0%nat);
}.

(** Bytes a list of poll results gives to queue [i]. *)
Fixpoint bytes_of (i : Z) (es : list (Z * Z)) : Z :=
  match es with
  | [] => 0
  | (j, b) :: es => (if bool_decide (i = j) then b else 0) + bytes_of i es
  end.

(** From [t] to [t'] the bytes in [es] were taken, nothing else changed. *)
Definition taken (t t' : qman_thread) (es : list (Z * Z)) : Prop := forall i,
  rate (q_of t' i) = rate (q_of t i) /\ max_chunk (q_of t' i) = max_chunk (q_of t i) /\
  avail (q_of t i) = avail (q_of t' i) + bytes_of i es.

(** Every result is a chunk of a queue that had bytes. *)
Definition chunks_ok (t : qman_thread) (es : list (Z * Z)) : Prop :=
  Forall (fun e => 0 <= snd e <= max_chunk (q_of t (fst e))) es.

Lemma bytes_of_app i es es' : bytes_of i (es ++ es') = bytes_of i es + bytes_of i es'.
Proof. induction es as [|[j b] es IH]; simpl; [done|]. lia. Qed.

Lemma taken_refl t t' : (forall i, params (q_of t' i) = params (q_of t i)) -> taken t t' [].
Proof. intros H i. specialize (H i) as [= -> -> ->]. simpl. split_and!; lia. Qed.

Lemma taken_app t1 t2 t3 es es' : taken t1 t2 es -> taken t2 t3 es' -> taken t1 t3 (es ++ es').
Proof.
  intros H1 H2 i. destruct (H1 i) as (? & ? & ?), (H2 i) as (? & ? & ?).
  rewrite bytes_of_app. split_and!; lia.
Qed.

Lemma chunks_ok_taken t t' es es' : taken t t' es -> chunks_ok t' es' -> chunks_ok t es'.
Proof.
  intros Ht Hc. eapply Forall_impl; [exact Hc|]. intros [i b]. simpl. by destruct (Ht i) as (_ & -> & _).
Qed.

(** [queue_fire] on a queue that was just unlinked. *)
Lemma queue_fire_ok t nl sl idx :
  linked t nl sl -> sized t -> 0 <= idx < FLEXNIC_NUM_QMQUEUES -> idx ∉ nl ++ sl 0%nat ->
  backlogged t (idx :: nl ++ sl 0%nat) -> 0 < avail (q_of t idx) ->
  exists t' nl' sl' b, queue_fire t idx = Ok (t', (idx, b)) /\ qman_ok t' nl' sl' /\
    taken t t' [(idx, b)] /\ b = Z.min (avail (q_of t idx)) (max_chunk (q_of t idx)) /\
    clock t' = clock t /\ (length nl' <= S (length nl))%nat /\
    (length (sl' 0%nat) <= S (length (sl 0%nat)))%nat /\
    (rate (q_of t idx) = 0 -> sl' = sl /\
       nl' = if b <? avail (q_of t idx) then nl ++ [idx] else nl) /\ pushed_back nl idx nl'.
Proof.
  intros Hlk Hsz Hr Hi Hbl Hav. unfold queue_fire. rewrite get_queue_Ok by done. osimpl.
  rewrite (proj2 (Z.ltb_lt 0 (avail (q_of t idx)))) by done. osimpl.
  set (q := q_of t idx) in *. destruct (Hsz idx) as (Hs1 & Hs2 & Hs3). fold q in Hs1, Hs2, Hs3.
  set (bytes := if avail q <=? max_chunk q then avail q else max_chunk q).
  assert (bytes = Z.min (avail q) (max_chunk q)) as Hbytes by (unfold bytes; bsplit; lia).
  rewrite (u32_small (avail q - bytes)) by lia.
  assert (exists ts, (if 0 <? rate q then
      ts ← queue_new_ts t (q <| avail := avail q - bytes |>) bytes;
      mret (q <| avail := avail q - bytes |> <| next_ts := ts |>)
      else mret (q <| avail := avail q - bytes |>))
    = Ok (q <| avail := avail q - bytes |> <| next_ts := ts |>)) as [ts Hts].
  { unfold queue_new_ts. simpl. destruct (Z.ltb_spec 0 (rate q)) as [H0|H0].
    - rewrite (proj2 (Z.eqb_neq _ _)) by lia. by eexists.
    - exists (next_ts q). by destruct q. }
  simpl in Hts |- *. rewrite Hts. clear Hts. simpl. set (q' := mk_queue _ _ _ _ _ _).
  set (t1 := put_queue t idx q').
  assert (linked t1 nl sl) as Hlk1 by (by apply linked_put).
  assert (forall i, params (q_of t1 i) =
    if bool_decide (idx = i) then (rate q, avail q - bytes, max_chunk q) else params (q_of t i)) as Hp1.
  { intros i. unfold t1. rewrite q_of_put. by case_bool_decide. }
  assert (forall t', (forall i, params (q_of t' i) = params (q_of t1 i)) ->
    taken t t' [(idx, bytes)] /\ sized t') as Hfin.
  { intros t' Hp. split; intros i; specialize (Hp i); rewrite Hp1 in Hp; unfold params in Hp;
      specialize (Hsz i); simpl; repeat case_bool_decide; subst; injection Hp as ? ? ?;
      fold q in Hsz |- *; lia. }
  assert (backlogged t1 (idx :: nl ++ sl 0%nat)) as Hbl1.
  { intros i Hi'. destruct (decide (i = idx)) as [->|Hne]; [set_solver|].
    apply Hbl. specialize (Hp1 i). rewrite bool_decide_eq_false_2 in Hp1 by congruence.
    injection Hp1 as ? ? ?. lia. }
  rewrite (u16_small bytes) by lia. rewrite <- Hbytes.
  destruct (Z.ltb_spec 0 (avail q - bytes)) as [Hpos|Hpos].
  - destruct (queue_activate_ok t1 nl sl idx Hlk1 Hr Hi) as (t' & nl' & sl' & -> & Hac & Hnl & Hpb).
    exists t', nl', sl', bytes. split; [done|].
    destruct (Hfin t' (ac_params _ _ _ _ _ _ _ Hac)) as [? ?].
    split_and!; [|done|done|by rewrite (ac_clock _ _ _ _ _ _ _ Hac)|apply Hac|apply Hac| |done].
    2:{ unfold t1 in Hnl. rewrite q_of_put_same in Hnl. intros Hr0.
        rewrite (proj2 (Z.ltb_lt _ _)) by lia. by destruct (Hnl Hr0). }
    split; [apply Hac|done|]. intros i Hi'. rewrite (ac_members _ _ _ _ _ _ _ Hac).
    apply Hbl1. pose proof (ac_params _ _ _ _ _ _ _ Hac i) as [= _ <- _]. done.
  - exists t1, nl, sl, bytes. split; [done|]. destruct (Hfin t1) as [? ?]; [done|].
    split_and!; [|done|done|done|lia|lia|by rewrite (proj2 (Z.ltb_ge _ _)) by lia|by left].
    split; [done|done|].
    intros i Hi'. apply Hbl1 in Hi' as Hin. apply elem_of_cons in Hin as [->|?]; [|done].
    specialize (Hp1 idx). rewrite bool_decide_eq_true_2 in Hp1 by done. injection Hp1 as ? ? ?. lia.
Qed.

(** ** Unlinking the first queue *)

(** [t'] is [t] without queue [x], which is idle in [t']. *)
Record unlinked (t t' : qman_thread) (x : Z) (nl : list Z) (sl : nat -> list Z)
  (nl' : list Z) (sl' : nat -> list Z) : Prop := {
  un_linked : linked t' nl' sl';
  un_params : forall i, params (q_of t' i) = params (q_of t i);
  un_ts : forall i, next_ts (q_of t' i) = next_ts (q_of t i);
  un_members : nl ++ sl 0%nat ≡ₚ x :: nl' ++ sl' 0%nat;
}.

Lemma unlinked_fresh t t' x nl sl nl' sl' :
  linked t nl sl -> unlinked t t' x nl sl nl' sl' -> x ∉ nl' ++ sl' 0%nat.
Proof.
  intros Hlk Hun. pose proof (lk_nodup _ _ _ Hlk) as Hnd.
  rewrite (un_members _ _ _ _ _ _ _ Hun) in Hnd. by apply NoDup_cons in Hnd as [? _].
Qed.

Lemma unlinked_sized t t' x nl sl nl' sl' :
  unlinked t t' x nl sl nl' sl' -> sized t -> sized t'.
Proof.
  intros Hun Hsz i. pose proof (un_params _ _ _ _ _ _ _ Hun i) as Hp. unfold params in Hp.
  specialize (Hsz i). injection Hp as -> -> ->. done.
Qed.

Lemma unlinked_backlog t t' x nl sl nl' sl' :
  unlinked t t' x nl sl nl' sl' -> backlogged t (nl ++ sl 0%nat) ->
  backlogged t' (x :: nl' ++ sl' 0%nat).
Proof.
  intros Hun Hbl i Hi. rewrite <- (un_members _ _ _ _ _ _ _ Hun). apply Hbl.
  pose proof (un_params _ _ _ _ _ _ _ Hun i) as Hp. unfold params in Hp. congruence.
Qed.

(** A queue with no bytes left stays unlinked. *)
Lemma unlinked_empty t t' x nl sl nl' sl' :
  qman_ok t nl sl -> unlinked t t' x nl sl nl' sl' -> avail (q_of t' x) <= 0 ->
  qman_ok t' nl' sl'.
Proof.
  intros [Hlk Hsz Hbl] Hun Hav. split; [apply Hun|by eapply unlinked_sized|].
  intros i Hi. pose proof (unlinked_backlog _ _ _ _ _ _ _ Hun Hbl i Hi) as Hin.
  apply elem_of_cons in Hin as [->|?]; [lia|done].
Qed.

Lemma flags_clear x nl sl i :
  x ∉ sl -> x ∉ nl -> flags_of nl sl i = if bool_decide (i = x) then 0 else flags_of (x :: nl) sl i.
Proof. intros. unfold flags_of. repeat case_bool_decide; try done; set_solver. Qed.

Lemma flags_clear_sl x nl sl i :
  x ∉ sl -> x ∉ nl -> flags_of nl sl i = if bool_decide (i = x) then 0 else flags_of nl (x :: sl) i.
Proof. intros. unfold flags_of. repeat case_bool_decide; try done; set_solver. Qed.

Lemma pop_nolimit t x nl sl :
  linked t (x :: nl) sl ->
  let next := next_idxs (q_of t x) !!! 0%nat in
  let t1 := t <| nolimit_head_idx := next |> in
  let t1 := if next =? IDXLIST_INVAL then t1 <| nolimit_tail_idx := IDXLIST_INVAL |> else t1 in
  unlinked t (put_queue t1 x ((q_of t x) <| q_flags := 0 |>)) x (x :: nl) sl nl sl /\
  clock (put_queue t1 x ((q_of t x) <| q_flags := 0 |>)) = clock t.
Proof.
  intros Hlk next t1 t2. set (t3 := put_queue _ _ _).
  assert (queues t2 = queues t /\ head_idx t2 = head_idx t /\ clock t2 = clock t /\
    nolimit_head_idx t2 = next) as (E1 & E2 & E3 & E4) by (unfold t2; by case_match).
  assert (nolimit_tail_idx t2 = if next =? IDXLIST_INVAL then IDXLIST_INVAL else nolimit_tail_idx t)
    as E5 by (unfold t2; by case_match).
  assert (forall i, q_of t3 i = if bool_decide (x = i) then (q_of t x) <| q_flags := 0 |> else q_of t i) as Hq.
  { intros i. unfold t3. rewrite q_of_put. unfold q_of at 2. by rewrite E1. }
  assert (forall l i, nxt t3 l i = nxt t l i) as Hn.
  { intros l i. unfold nxt. rewrite Hq. case_bool_decide; by subst. }
  pose proof (lk_nl _ _ _ Hlk) as (Hh & Hx & Hs).
  pose proof (lk_nodup _ _ _ Hlk) as Hnd. simpl in Hnd. apply NoDup_cons in Hnd as [Hfresh Hnd].
  split; [|done]. split.
  - split.
    + intros i. rewrite Hq. case_bool_decide; apply Hlk.
    + simpl. rewrite E2. apply Hlk.
    + simpl. rewrite E4. eapply seg_ext; [|exact Hs]. intros; apply Hn.
    + simpl. rewrite E5. destruct nl as [|y nl].
      * simpl in Hs. unfold nxt in Hs. fold next in Hs. by rewrite Hs.
      * destruct Hs as (Hy & Hyr & _). unfold nxt in Hy. fold next in Hy. rewrite Hy.
        rewrite (proj2 (Z.eqb_neq y _)) by (unfold IDXLIST_INVAL, FLEXNIC_NUM_QMQUEUES in *; lia).
        by rewrite (lk_tail _ _ _ Hlk), last_cons_cons.
    + intros l Hl. simpl. rewrite E2. eapply seg_ext; [intros; apply Hn|by apply Hlk].
    + apply Hlk.
    + done.
    + intros i. rewrite (flags_clear x) by set_solver. rewrite Hq, <- (lk_flags _ _ _ Hlk).
      repeat case_bool_decide; subst; done.
  - intros i. rewrite Hq. case_bool_decide; by subst.
  - intros i. rewrite Hq. case_bool_decide; by subst.
  - done.
Qed.

(** *** Popping the skip list *)
Definition pop_first (x : Z) (s : list Z) : list Z :=
  match s with y :: s' => if x =? y then s' else s | [] => [] end.

Lemma pop_heads_spec x q n : forall l t,
  (n + l = QMAN_SKIPLIST_LEVELS)%nat -> length (head_idx t) = QMAN_SKIPLIST_LEVELS ->
  (forall k, (l <= k)%nat -> (S k < QMAN_SKIPLIST_LEVELS)%nat -> head_idx t !!! k <> x -> head_idx t !!! (S k) <> x) ->
  exists h, pop_heads n l t x q = t <| head_idx := h |> /\ length h = QMAN_SKIPLIST_LEVELS /\
    (forall k, (k < l)%nat -> h !!! k = head_idx t !!! k) /\
    (forall k, (l <= k < QMAN_SKIPLIST_LEVELS)%nat ->
       h !!! k = if head_idx t !!! k =? x then next_idxs q !!! k else head_idx t !!! k).
Proof.
  induction n as [|n IH]; intros l t Hnl Hlen Hmon.
  { exists (head_idx t). simpl. split_and!; [by destruct t|done|done|lia]. }
  cbn [pop_heads]. destruct (Z.eqb_spec (head_idx t !!! l) x) as [Heq|Hne].
  - destruct (IH (S l) (t <| head_idx := <[l := next_idxs q !!! l]> (head_idx t) |>))
      as (h & Hp & Hh1 & Hh2 & Hh3); [lia|simpl; by rewrite length_insert| |].
    { intros k Hlk Hk. simpl. rewrite !list_lookup_total_insert_ne by lia. apply Hmon; lia. }
    exists h. split_and!; [by rewrite Hp|done| |].
    + intros k Hk. rewrite Hh2 by lia. simpl. by rewrite list_lookup_total_insert_ne by lia.
    + intros k Hk. destruct (decide (k = l)) as [->|Hkl].
      * rewrite Hh2 by lia. simpl. rewrite list_lookup_total_insert_eq by lia.
        by rewrite (proj2 (Z.eqb_eq _ _)).
      * rewrite Hh3 by lia. simpl. by rewrite list_lookup_total_insert_ne by lia.
  - exists (head_idx t). split_and!; [by destruct t|done|done|].
    intros k Hk. assert (forall j, (l + j < QMAN_SKIPLIST_LEVELS)%nat -> head_idx t !!! (l + j)%nat <> x) as Hj.
    { intros j. induction j as [|j IHj]; intros Hj; [by rewrite Nat.add_0_r|].
      rewrite Nat.add_succ_r. apply Hmon; [lia|lia|]. apply IHj. lia. }
    specialize (Hj (k - l)%nat). replace (l + (k - l))%nat with k in Hj by lia.
    by rewrite (proj2 (Z.eqb_neq _ _)) by (apply Hj; lia).
Qed.

(** A level that does not start with the first queue does not contain it. *)
Lemma level_without_first t nl sl x s l :
  linked t nl sl -> sl 0%nat = x :: s -> (l < QMAN_SKIPLIST_LEVELS)%nat ->
  head (sl l) <> Some x -> x ∉ sl l.
Proof.
  intros Hlk H0 Hl Hh Hin. pose proof (linked_level _ _ _ _ Hlk Hl) as Hsub. rewrite H0 in Hsub.
  apply (sublist_skip_prefix (eq x) _ [x] s) in Hsub; [|by repeat constructor|congruence].
  pose proof (lk_nodup _ _ _ Hlk) as Hnd. rewrite H0 in Hnd.
  apply NoDup_app in Hnd as (_ & _ & Hnd). apply NoDup_cons in Hnd as [Hx _].
  apply Hx. by apply (sublist_subseteq _ _ Hsub).
Qed.

Lemma pop_first_head x s : head s = Some x -> s = x :: pop_first x s.
Proof. destruct s as [|y s]; simpl; [done|]. intros [= ->]. by rewrite Z.eqb_refl. Qed.

Lemma pop_first_other x s : head s <> Some x -> pop_first x s = s.
Proof.
  destruct s as [|y s]; simpl; [done|]. intros H. by rewrite (proj2 (Z.eqb_neq x y)) by congruence.
Qed.

Lemma pop_first_subseteq x s i : i ∈ pop_first x s -> i ∈ s.
Proof. destruct s as [|y s]; simpl; [done|]. destruct (x =? y); set_solver. Qed.

Lemma pop_first_sublist t nl sl x s l :
  linked t nl sl -> sl 0%nat = x :: s -> (S l < QMAN_SKIPLIST_LEVELS)%nat ->
  sublist (pop_first x (sl (S l))) (pop_first x (sl l)).
Proof.
  intros Hlk H0 Hl. pose proof (lk_sub _ _ _ Hlk l Hl) as Hsub.
  destruct (decide (head (sl l) = Some x)) as [Hh|Hh].
  - destruct (linked_level_ok _ _ _ l Hlk ltac:(lia)) as (Hnd & _ & _).
    rewrite (pop_first_head x (sl l) Hh) in Hsub, Hnd.
    destruct (decide (head (sl (S l)) = Some x)) as [Hh'|Hh'].
    + rewrite (pop_first_head _ _ Hh') in Hsub. by destruct (sublist_pivot [] _ [] _ _ Hnd Hsub).
    + rewrite (pop_first_other _ _ Hh').
      apply (sublist_skip_prefix (eq x) _ [x] _) in Hsub; [done|by repeat constructor|congruence].
  - rewrite (pop_first_other _ _ Hh), pop_first_other; [done|]. intros Hh'.
    apply (level_without_first _ _ _ _ _ l Hlk H0 ltac:(lia) Hh).
    apply (sublist_subseteq _ _ Hsub). apply head_Some_elem_of in Hh'. done.
Qed.

Lemma pop_skiplist t nl sl x s :
  linked t nl sl -> sl 0%nat = x :: s ->
  let t1 := pop_heads QMAN_SKIPLIST_LEVELS 0 t x (q_of t x) in
  let t2 := (put_queue t1 x ((q_of t x) <| q_flags := 0 |>)) <| ts_virtual := next_ts (q_of t x) |> in
  unlinked t t2 x nl sl nl (fun l => pop_first x (sl l)) /\
  ts_real t2 = ts_real t /\ nolimit_first t2 = nolimit_first t.
Proof.
  intros Hlk H0 t1 t2.
  assert (forall l, (l < QMAN_SKIPLIST_LEVELS)%nat ->
    head_idx t !!! l = default IDXLIST_INVAL (head (sl l))) as Hheads.
  { intros l Hl. by apply (seg_head (nxt t l)), Hlk. }
  pose proof (seg_range _ _ _ _ (lk_sl _ _ _ Hlk 0%nat ltac:(unfold QMAN_SKIPLIST_LEVELS; lia))) as Hx.
  rewrite H0 in Hx. apply Forall_cons in Hx as [Hx _].
  assert (x <> IDXLIST_INVAL) as Hxi by (unfold IDXLIST_INVAL, FLEXNIC_NUM_QMQUEUES in *; lia).
  assert (forall l, (l < QMAN_SKIPLIST_LEVELS)%nat ->
    head_idx t !!! l = x <-> head (sl l) = Some x) as Hfirst.
  { intros l Hl. rewrite Hheads by done. destruct (head (sl l)); simpl; split; congruence. }
  destruct (pop_heads_spec x (q_of t x) QMAN_SKIPLIST_LEVELS 0 t) as (h & Ht1 & Hlen & _ & Hh);
    [done|apply Hlk| |].
  { intros k _ Hk Hne Heq. apply Hne. apply Hfirst in Heq; [|done]. apply Hfirst; [lia|].
    destruct (decide (head (sl k) = Some x)) as [|Hh']; [done|exfalso].
    apply (level_without_first _ _ _ _ _ k Hlk H0 ltac:(lia) Hh').
    apply (sublist_subseteq _ _ (lk_sub _ _ _ Hlk k Hk)). by apply head_Some_elem_of. }
  assert (forall i, q_of t2 i = if bool_decide (x = i) then (q_of t x) <| q_flags := 0 |> else q_of t i) as Hq.
  { intros i. rewrite <- q_of_put. unfold t2, t1. rewrite Ht1. done. }
  assert (forall l i, nxt t2 l i = nxt t l i) as Hn.
  { intros l i. unfold nxt. rewrite Hq. case_bool_decide; by subst. }
  pose proof (lk_nodup _ _ _ Hlk) as Hnd. rewrite H0, <- Permutation_middle in Hnd.
  apply NoDup_cons in Hnd as [Hfresh Hnd].
  assert (pop_first x (sl 0%nat) = s) as Hs0 by (rewrite H0; simpl; by rewrite Z.eqb_refl).
  unfold t2, t1 in *. rewrite Ht1 in *. clear t1 t2 Ht1. split; [|done]. split.
  - split.
    + intros i. rewrite Hq. case_bool_decide; apply Hlk.
    + done.
    + eapply seg_ext; [intros; apply Hn|apply Hlk].
    + apply Hlk.
    + intros l Hl. eapply seg_ext; [intros; apply Hn|]. simpl. rewrite Hh by lia.
      pose proof (lk_sl _ _ _ Hlk l Hl) as Hs.
      destruct (decide (head (sl l) = Some x)) as [Hf|Hf].
      * rewrite (proj2 (Z.eqb_eq _ _)) by (by apply Hfirst).
        rewrite (pop_first_head _ _ Hf) in Hs. apply Hs.
      * rewrite (pop_first_other _ _ Hf). rewrite (proj2 (Z.eqb_neq _ _)); [done|].
        intros ?%Hfirst; done.
    + intros l Hl. by eapply pop_first_sublist.
    + by rewrite Hs0.
    + intros i. rewrite Hs0, (flags_clear_sl x), <- H0 by set_solver.
      rewrite Hq, <- (lk_flags _ _ _ Hlk). repeat case_bool_decide; subst; done.
  - intros i. rewrite Hq. case_bool_decide; by subst.
  - intros i. rewrite Hq. case_bool_decide; by subst.
  - by rewrite Hs0, H0, <- Permutation_middle.
Qed.

(** ** Polling *)

(** One iteration: an unlinked queue with bytes fires. *)
Lemma fire_unlinked t t1 x nl sl nl1 sl1 :
  qman_ok t nl sl -> unlinked t t1 x nl sl nl1 sl1 -> 0 <= x < FLEXNIC_NUM_QMQUEUES ->
  0 < avail (q_of t x) ->
  exists t' nl' sl' b, queue_fire t1 x = Ok (t', (x, b)) /\ qman_ok t' nl' sl' /\
    taken t t' [(x, b)] /\ chunks_ok t [(x, b)] /\ clock t' = clock t1 /\
    (length nl' <= S (length nl1))%nat /\
    (length (sl' 0%nat) <= S (length (sl1 0%nat)))%nat /\
    b = Z.min (avail (q_of t x)) (max_chunk (q_of t x)) /\
    (rate (q_of t x) = 0 -> sl' = sl1 /\ nl' = if b <? avail (q_of t x) then nl1 ++ [x] else nl1) /\
    pushed_back nl1 x nl'.
Proof.
  intros [Hlk Hsz Hbl] Hun Hx Hav.
  pose proof (un_params _ _ _ _ _ _ _ Hun x) as Hp. unfold params in Hp. injection Hp as Hp1 Hp2 Hp3.
  destruct (queue_fire_ok t1 nl1 sl1 x) as (t' & nl' & sl' & b & Hf & Hok & Ht & Hb & Hc & Hn & Hs & Hr & Hpb).
  - apply Hun.
  - by eapply unlinked_sized.
  - done.
  - by eapply unlinked_fresh.
  - by eapply unlinked_backlog.
  - lia.
  - exists t', nl', sl', b. rewrite <- Hp1, <- Hp2, <- Hp3. split_and!; try done.
    + apply (taken_app t t1 t' []); [|done]. apply taken_refl, Hun.
    + constructor; [|constructor]. simpl. specialize (Hsz x). lia.
Qed.

Lemma taken_params t t1 t' es :
  (forall i, params (q_of t1 i) = params (q_of t i)) -> taken t1 t' es -> taken t t' es.
Proof. intros H. apply (taken_app t t1 t' []), taken_refl, H. Qed.

Lemma chunks_ok_cons t t' e es :
  taken t t' [e] -> chunks_ok t [e] -> chunks_ok t' es -> chunks_ok t (e :: es).
Proof.
  intros Ht He Hes. apply (Forall_app _ [e] es). split; [done|]. by eapply chunks_ok_taken.
Qed.

(** What one visit gives a queue, and whether it is left with bytes. *)
Definition serve (t : qman_thread) (i : Z) : Z * Z :=
  (i, Z.min (avail (q_of t i)) (max_chunk (q_of t i))).
Definition left_over (t : qman_thread) (nl : list Z) : list Z :=
  filter (fun i => max_chunk (q_of t i) < avail (q_of t i)) nl.

Lemma left_over_cons t x nl :
  left_over t (x :: nl) = left_over t [x] ++ left_over t nl.
Proof. apply (filter_app _ [x]). Qed.

Lemma serve_ext t t' (nl : list Z) :
  (forall i, i ∈ nl -> params (q_of t' i) = params (q_of t i)) ->
  serve t' <$> nl = serve t <$> nl /\ left_over t' nl = left_over t nl.
Proof.
  induction nl as [|x nl IH]; intros H; [done|].
  destruct IH as [IH1 IH2]; [intros; apply H; by right|].
  assert (params (q_of t' x) = params (q_of t x)) as Hx by (apply H; by left).
  unfold params in Hx. injection Hx as Hx1 Hx2 Hx3.
  rewrite !fmap_cons, (left_over_cons t x), (left_over_cons t' x), IH1, IH2.
  unfold serve, left_over. by rewrite !filter_cons, Hx2, Hx3.
Qed.

(** What a walk over the queues [l] gives: a chunk for each that has bytes. *)
Definition front (t : qman_thread) (l : list Z) : list (Z * Z) :=
  serve t <$> filter (fun i => 0 < avail (q_of t i)) l.

Lemma front_ext t t' l :
  (forall i, i ∈ l -> params (q_of t' i) = params (q_of t i)) -> front t' l = front t l.
Proof.
  intros H. induction l as [|x l IH]; [done|].
  assert (params (q_of t' x) = params (q_of t x)) as Hx by (apply H; by left).
  unfold params in Hx. injection Hx as Hx1 Hx2 Hx3. unfold front in *. rewrite !filter_cons, Hx2.
  assert (serve t' x = serve t x) as Hs by (unfold serve; by rewrite Hx2, Hx3).
  case_decide; rewrite ?fmap_cons, ?Hs, IH; try done; intros; apply H; by right.
Qed.

Lemma front_cons t x l :
  front t (x :: l) = if 0 <? avail (q_of t x) then serve t x :: front t l else front t l.
Proof.
  unfold front. rewrite filter_cons. destruct (Z.ltb_spec 0 (avail (q_of t x))) as [H|H].
  - by rewrite decide_True.
  - by rewrite decide_False by lia.
Qed.

(** The results [es] give the queues of [A] a chunk each, in order, until [n]
    have one; those not reached stay before all others. *)
Definition from_front (t : qman_thread) (n : Z) (A nl' : list Z) (es : list (Z * Z)) : Prop :=
  exists k rest pushed, es = front t (take k A) ++ rest /\ nl' = drop k A ++ pushed /\
    ((length A <= k)%nat \/ Z.of_nat (length (front t (take k A))) = n).

Lemma from_front_nil t n nl' es : from_front t n [] nl' es.
Proof. exists 0%nat, es, nl'. split_and!; [done|done|left; simpl; lia]. Qed.

Lemma from_front_stop t A B : from_front t 0 A (A ++ B) [].
Proof. exists 0%nat, [], B. split_and!; [done|done|by right]. Qed.

Lemma from_front_cons t t2 n x A nl' es :
  (forall i, i ∈ A -> params (q_of t2 i) = params (q_of t i)) ->
  from_front t2 (if 0 <? avail (q_of t x) then n - 1 else n) A nl' es ->
  from_front t n (x :: A) nl' (if 0 <? avail (q_of t x) then serve t x :: es else es).
Proof.
  intros Hp (k & rest & pushed & -> & -> & Hk).
  rewrite (front_ext t) in * by (intros i Hi; apply Hp; by eapply subseteq_take).
  exists (S k), rest, pushed. simpl. rewrite front_cons.
  destruct (0 <? avail (q_of t x)); (split_and!; [done|done|]).
  - destruct Hk; [left; lia|right; simpl; lia].
  - destruct Hk; [left; lia|by right].
Qed.

Lemma taken_other t t' x b i : taken t t' [(x, b)] -> i <> x -> params (q_of t' i) = params (q_of t i).
Proof.
  intros Ht Hi. destruct (Ht i) as (H1 & H2 & H3). simpl in H3.
  rewrite bool_decide_eq_false_2 in H3 by done. unfold params. rewrite H1, H2. do 2 f_equal. lia.
Qed.

Lemma taken_untouched t t' es i :
  taken t t' es -> i ∉ es.*1 -> params (q_of t' i) = params (q_of t i).
Proof.
  intros Ht Hi. destruct (Ht i) as (H1 & H2 & H3).
  assert (bytes_of i es = 0) as H0.
  { clear - Hi. induction es as [|[j b] es IH]; [done|]. simpl in *.
    apply not_elem_of_cons in Hi as [Hi1 Hi2]. rewrite bool_decide_eq_false_2 by done.
    by rewrite IH. }
  unfold params. rewrite H1, H2. do 2 f_equal. lia.
Qed.

Lemma poll_nolimit_loop_ok fuel : forall t nl sl num cnt,
  qman_ok t nl sl -> 0 <= cnt <= num -> (length nl + Z.to_nat (num - cnt) < fuel)%nat ->
  exists es t' nl' sl', poll_nolimit_loop fuel t num cnt = Ok (es, t') /\ qman_ok t' nl' sl' /\
    taken t t' es /\ chunks_ok t es /\ Z.of_nat (length es) <= num - cnt /\
    (Z.of_nat (length es) < num - cnt -> nl' = []) /\ clock t' = clock t /\
    (forall A B, nl = A ++ B -> from_front t (num - cnt) A nl' es).
Proof.
  induction fuel as [|fuel IH]; intros t nl sl num cnt Hok Hcnt Hf; [lia|].
  cbn [poll_nolimit_loop]. pose proof (qk_linked _ _ _ Hok) as Hlk.
  pose proof (lk_nl _ _ _ Hlk) as Hs. destruct (Z.ltb_spec cnt num) as [Hlt|Hge].
  2:{ exists [], t, nl, sl. simpl. split_and!; try done; [by apply taken_refl|constructor|lia|lia|].
      intros A B ->. replace (num - cnt) with 0 by lia. apply from_front_stop. }
  destruct nl as [|x nl].
  { simpl in Hs. rewrite Hs, Z.eqb_refl. exists [], t, [], sl. simpl.
    split_and!; try done; [by apply taken_refl|constructor|lia|].
    intros A B HAB. symmetry in HAB. apply app_eq_nil in HAB as [-> ->]. apply from_front_nil. }
  destruct Hs as (Hh & Hx & _). rewrite Hh.
  rewrite (proj2 (Z.eqb_neq x _)) by (unfold IDXLIST_INVAL, FLEXNIC_NUM_QMQUEUES in *; lia).
  osimpl. rewrite get_queue_Ok by done. osimpl.
  rewrite (lk_flags _ _ _ Hlk x). unfold flags_of. rewrite bool_decide_eq_true_2 by set_solver.
  change (Z.land FLAG_INNOLIMITL (Z.lnot FLAG_INNOLIMITL)) with 0.
  destruct (pop_nolimit t x nl sl Hlk) as [Hun Hclk].
  set (t1 := put_queue _ x _) in *.
  change (avail ((q_of t x) <| q_flags := 0 |>)) with (avail (q_of t x)).
  destruct (Z.ltb_spec 0 (avail (q_of t x))) as [Hav|Hav].
  - destruct (fire_unlinked t t1 x (x :: nl) sl nl sl Hok Hun Hx Hav)
      as (t2 & nl2 & sl2 & b & -> & Hok2 & Ht2 & Hb2 & Hc2 & Hn2 & _ & Hbv & _ & Hpb). osimpl.
    destruct (IH t2 nl2 sl2 num (cnt + 1) Hok2) as
      (es & t' & nl' & sl' & -> & Hok' & Ht' & Hb' & Hl' & He' & Hc' & Hff'); [lia|simpl in Hf; lia|].
    osimpl. exists ((x, b) :: es), t', nl', sl'. split_and!; try done.
    + by apply (taken_app t t2 t' [(x, b)]).
    + eapply chunks_ok_cons; done.
    + simpl. lia.
    + simpl. intros. apply He'. lia.
    + by rewrite Hc', Hc2.
    + intros A B HAB. destruct A as [|y A]; [apply from_front_nil|]. injection HAB as <- ->.
      assert ((x, b) = serve t x) as -> by (unfold serve; by rewrite Hbv).
      assert (from_front t (num - cnt) (x :: A) nl'
        (if 0 <? avail (q_of t x) then serve t x :: es else es)) as Hgoal;
        [|by rewrite (proj2 (Z.ltb_lt _ _)) in Hgoal].
      apply (from_front_cons t t2).
      * intros i Hi. apply (taken_other t t2 x b); [done|]. intros ->.
        pose proof (lk_nodup _ _ _ Hlk) as Hnd. simpl in Hnd. apply NoDup_cons in Hnd as [Hnin _].
        apply Hnin, elem_of_app; left. by apply elem_of_app; left.
      * rewrite (proj2 (Z.ltb_lt _ _)) by done. replace (num - cnt - 1) with (num - (cnt + 1)) by lia.
        destruct Hpb as [-> | ->]; [by apply (Hff' A B)|].
        apply (Hff' A (B ++ [x])). by rewrite app_assoc.
  - destruct (IH t1 nl sl num cnt) as
      (es & t' & nl' & sl' & -> & Hok' & Ht' & Hb' & Hl' & He' & Hc' & Hff');
      [|done|simpl in Hf; lia|].
    { eapply unlinked_empty; [done|done|]. pose proof (un_params _ _ _ _ _ _ _ Hun x) as Hp.
      unfold params in Hp. injection Hp as Hp1 Hp2 Hp3. lia. }
    exists es, t', nl', sl'. split_and!; try done.
    + eapply taken_params; [apply Hun|done].
    + eapply chunks_ok_taken; [|done]. apply taken_refl, Hun.
    + by rewrite Hc'.
    + intros A B HAB. destruct A as [|y A]; [apply from_front_nil|]. injection HAB as <- ->.
      assert (from_front t (num - cnt) (x :: A) nl'
        (if 0 <? avail (q_of t x) then serve t x :: es else es)) as Hgoal;
        [|by rewrite (proj2 (Z.ltb_ge _ _)) in Hgoal].
      apply (from_front_cons t t1); [intros i _; apply Hun|].
      rewrite (proj2 (Z.ltb_ge _ _)) by done. by apply (Hff' A B).
Qed.

(** What polling the skip list [s] does for others: the queues without limit
    keep their places and get no bytes; the first queue of [s] is served
    first when its time has come. *)
Definition skip_served (t : qman_thread) (nl s : list Z) (max_vts n : Z) (es : list (Z * Z))
  (nl' : list Z) : Prop :=
  (exists pushed, nl' = nl ++ pushed) /\ Forall (fun i => i ∉ nl) es.*1 /\
  (forall x, 0 < n -> head s = Some x -> 0 < avail (q_of t x) ->
     timestamp_lessthaneq t (next_ts (q_of t x)) max_vts = true -> head es = Some (serve t x)).

Lemma poll_skiplist_loop_ok fuel : forall t nl sl max_vts num cnt,
  qman_ok t nl sl -> 0 <= cnt <= num -> (length (sl 0%nat) + Z.to_nat (num - cnt) < fuel)%nat ->
  exists es t' nl' sl', poll_skiplist_loop fuel t max_vts num cnt = Ok (es, t') /\
    qman_ok t' nl' sl' /\ taken t t' es /\ chunks_ok t es /\ Z.of_nat (length es) <= num - cnt /\
    nolimit_first t' = nolimit_first t /\ skip_served t nl (sl 0%nat) max_vts (num - cnt) es nl'.
Proof.
  induction fuel as [|fuel IH]; intros t nl sl max_vts num cnt Hok Hcnt Hf; [lia|].
  cbn [poll_skiplist_loop]. pose proof (qk_linked _ _ _ Hok) as Hlk.
  assert (forall v, qman_ok (t <| ts_virtual := v |>) nl sl) as Hts.
  { intros v. destruct Hok as [[H1 H2 H3 H4 H5 H6 H7 H8] ? ?]. by split. }
  destruct (Z.ltb_spec cnt num) as [Hlt|Hge].
  2:{ exists [], t, nl, sl. simpl. split_and!; try done; [by apply taken_refl|constructor|lia|].
      split_and!; [exists []; by rewrite app_nil_r|constructor|intros; lia]. }
  pose proof (lk_sl _ _ _ Hlk 0%nat ltac:(unfold QMAN_SKIPLIST_LEVELS; lia)) as Hs.
  assert ((forall x, head (sl 0%nat) = Some x ->
      timestamp_lessthaneq t (next_ts (q_of t x)) max_vts = false) ->
    exists es t' nl' sl', Ok ([], t <| ts_virtual := max_vts |>) = Ok (es, t') /\
    qman_ok t' nl' sl' /\ taken t t' es /\ chunks_ok t es /\ Z.of_nat (length es) <= num - cnt /\
    nolimit_first t' = nolimit_first t /\
    skip_served t nl (sl 0%nat) max_vts (num - cnt) es nl') as Hbreak.
  { intros Hnd. exists [], (t <| ts_virtual := max_vts |>), nl, sl.
    split_and!; try done; [by apply taken_refl|constructor|simpl; lia|].
    split_and!; [exists []; by rewrite app_nil_r|constructor|].
    intros y _ Hy _ Hd. by rewrite Hnd in Hd. }
  destruct (sl 0%nat) as [|x s] eqn:H0.
  { simpl in Hs. rewrite Hs, Z.eqb_refl. by apply Hbreak. }
  destruct Hs as (Hh & Hx & _). rewrite Hh.
  rewrite (proj2 (Z.eqb_neq x _)) by (unfold IDXLIST_INVAL, FLEXNIC_NUM_QMQUEUES in *; lia).
  rewrite get_queue_Ok by done. osimpl.
  destruct (timestamp_lessthaneq t (next_ts (q_of t x)) max_vts) eqn:Hd;
    [|apply Hbreak; by intros ? [= <-]]. osimpl. clear Hbreak.
  assert (q_flags (q_of t x) = 1) as Hfl.
  { rewrite (lk_flags _ _ _ Hlk x). unfold flags_of. rewrite bool_decide_eq_false_2.
    - rewrite bool_decide_eq_true_2; [done|]. rewrite H0. apply list_elem_of_here.
    - apply (linked_disjoint t nl sl 0); [done|unfold QMAN_SKIPLIST_LEVELS; lia|].
      rewrite H0. apply list_elem_of_here. }
  rewrite Hfl. change (negb (Z.land 1 FLAG_INSKIPLIST =? 0)) with true. osimpl.
  change (Z.land 1 (Z.lnot FLAG_INSKIPLIST)) with 0.
  destruct (pop_skiplist t nl sl x s Hlk H0) as (Hun & _ & Hclk).
  set (t1 := pop_heads _ _ _ _ _) in *.
  change (avail ((q_of t x) <| q_flags := 0 |>)) with (avail (q_of t x)).
  change (next_ts ((q_of t x) <| q_flags := 0 |>)) with (next_ts (q_of t x)).
  set (t2 := (put_queue t1 x ((q_of t x) <| q_flags := 0 |>)) <| ts_virtual := next_ts (q_of t x) |>) in *.
  assert (length (pop_first x (sl 0%nat)) = length s) as Hlen
    by (rewrite H0; simpl; by rewrite Z.eqb_refl).
  destruct (Z.ltb_spec 0 (avail (q_of t x))) as [Hav|Hav].
  - destruct (fire_unlinked t t2 x nl sl nl _ Hok Hun Hx Hav)
      as (t3 & nl3 & sl3 & b & -> & Hok3 & Ht3 & Hb3 & Hc3 & _ & Hn3 & Hbv & _ & Hpb). osimpl.
    destruct (IH t3 nl3 sl3 max_vts num (cnt + 1) Hok3) as
      (es & t' & nl' & sl' & -> & Hok' & Ht' & Hb' & Hl' & Hc' & Hsv'); [lia|simpl in Hf, Hn3; lia|].
    osimpl. exists ((x, b) :: es), t', nl', sl'. split_and!; try done.
    + by apply (taken_app t t3 t' [(x, b)]).
    + eapply chunks_ok_cons; done.
    + simpl. lia.
    + rewrite Hc', <- Hclk. unfold clock in Hc3. congruence.
    + destruct Hsv' as ([pushed ->] & Hni & _).
      assert (exists more, nl3 = nl ++ more) as [more ->]
        by (destruct Hpb as [-> | ->]; [exists []; by rewrite app_nil_r|by eexists]).
      split_and!; [exists (more ++ pushed); by rewrite app_assoc| |].
      * simpl. constructor; [|eapply Forall_impl; [exact Hni|]; set_solver].
        apply (linked_disjoint t nl sl 0); [done|unfold QMAN_SKIPLIST_LEVELS; lia|].
        rewrite H0. apply list_elem_of_here.
      * intros y _ [= <-] _ _. simpl. unfold serve. by rewrite Hbv.
  - destruct (IH t2 nl (fun l => pop_first x (sl l)) max_vts num cnt) as
      (es & t' & nl' & sl' & -> & Hok' & Ht' & Hb' & Hl' & Hc' & Hsv');
      [|done|simpl in Hf |- *; lia|].
    { eapply unlinked_empty; [done|done|]. pose proof (un_params _ _ _ _ _ _ _ Hun x) as Hp.
      unfold params in Hp. injection Hp as Hp1 Hp2 Hp3. lia. }
    exists es, t', nl', sl'. split_and!; try done.
    + eapply taken_params; [apply Hun|done].
    + eapply chunks_ok_taken; [|done]. apply taken_refl, Hun.
    + by rewrite Hc'.
    + destruct Hsv' as (? & ? & _). split_and!; [done|done|]. intros y _ [= <-]. lia.
Qed.

Lemma poll_nolimit_ok t nl sl num :
  qman_ok t nl sl -> 0 <= num ->
  exists es t' nl' sl', poll_nolimit t num = Ok (es, t') /\ qman_ok t' nl' sl' /\
    taken t t' es /\ chunks_ok t es /\ Z.of_nat (length es) <= num /\
    (Z.of_nat (length es) < num -> nl' = []) /\ clock t' = clock t /\
    (forall A B, nl = A ++ B -> from_front t num A nl' es).
Proof.
  intros Hok Hnum. unfold poll_nolimit.
  pose proof (linked_size _ _ _ (qk_linked _ _ _ Hok)) as Hsz. rewrite length_app in Hsz.
  destruct (poll_nolimit_loop_ok (poll_fuel t num) t nl sl num 0 Hok) as
    (es & t' & nl' & sl' & H); [lia|unfold poll_fuel; lia|].
  exists es, t', nl', sl'. rewrite Z.sub_0_r in H. exact H.
Qed.

Lemma qman_ok_clock t nl sl v r :
  qman_ok t nl sl -> qman_ok (t <| ts_virtual := v |> <| ts_real := r |>) nl sl.
Proof. intros [[H1 H2 H3 H4 H5 H6 H7 H8] ? ?]. by split. Qed.

(** The virtual time a poll at [ts] goes to. *)
Definition virtual_time (t : qman_thread) (ts : Z) : Z := u32 (ts_virtual t + u32 (ts - ts_real t)).

Lemma poll_skiplist_ok t nl sl ts num :
  qman_ok t nl sl -> 0 <= num ->
  exists es t' nl' sl', poll_skiplist t ts num = Ok (es, t') /\ qman_ok t' nl' sl' /\
    taken t t' es /\ chunks_ok t es /\ Z.of_nat (length es) <= num /\
    nolimit_first t' = nolimit_first t /\ ts_real t' = ts /\
    skip_served t nl (sl 0%nat) (virtual_time t ts) num es nl'.
Proof.
  intros Hok Hnum. unfold poll_skiplist. fold (virtual_time t ts). set (mv := virtual_time t ts).
  pose proof (linked_size _ _ _ (qk_linked _ _ _ Hok)) as Hsz. rewrite length_app in Hsz.
  destruct (poll_skiplist_loop_ok (poll_fuel t num) t nl sl mv num 0 Hok) as
    (es & t1 & nl1 & sl1 & -> & Hok1 & Ht1 & Hc1 & Hl1 & Hn1 & Hsv); [lia|unfold poll_fuel; lia|].
  rewrite Z.sub_0_r in Hsv.
  osimpl. assert (exists v, (if Z.of_nat (length es) =? num then
     let idx := head_idx t1 !!! 0%nat in
     if negb (idx =? IDXLIST_INVAL) then
       q ← get_queue t1 idx;
       if timestamp_lessthaneq t1 (next_ts q) mv
       then mret (t1 <| ts_virtual := next_ts q |>)
       else mret (t1 <| ts_virtual := mv |>)
     else mret (t1 <| ts_virtual := mv |>)
   else mret t1) = Ok (t1 <| ts_virtual := v |>)) as [v Hv].
  { cbv zeta. destruct (Z.of_nat (length es) =? num); [|exists (ts_virtual t1); by destruct t1].
    pose proof (lk_sl _ _ _ (qk_linked _ _ _ Hok1) 0%nat ltac:(unfold QMAN_SKIPLIST_LEVELS; lia)) as Hs.
    destruct (sl1 0%nat) as [|x s]; simpl in Hs.
    - rewrite Hs, Z.eqb_refl. by exists mv.
    - destruct Hs as (-> & Hx & _).
      rewrite (proj2 (Z.eqb_neq x _)) by (unfold IDXLIST_INVAL, FLEXNIC_NUM_QMQUEUES in *; lia).
      rewrite get_queue_Ok by done. osimpl. case_match; by eexists. }
  revert Hv. osimpl. intros ->. exists es, (t1 <| ts_virtual := v |> <| ts_real := ts |>), nl1, sl1.
  split_and!; try done; [by apply qman_ok_clock|lia].
Qed.

(** Which queues a poll serves: [xs] from the skip list when its turn is
    first; then the queues without limit, from the front of their list, a
    chunk each, until all have been looked at or [num] chunks are given; those
    not reached stay in front of every queue that is put back. *)
Definition fair (t : qman_thread) (nl s : list Z) (now num : Z) (es : list (Z * Z))
  (nl' : list Z) : Prop :=
  exists xs k rest pushed, es = xs ++ front t (take k nl) ++ rest /\ nl' = drop k nl ++ pushed /\
    ((length nl <= k)%nat \/ Z.of_nat (length (xs ++ front t (take k nl))) = num) /\
    (if nolimit_first t then xs = []
     else forall x, 0 < num -> head s = Some x -> 0 < avail (q_of t x) ->
       timestamp_lessthaneq t (next_ts (q_of t x)) now = true -> head xs = Some (serve t x)).

Lemma nolimit_fair t nl s now num xs ys nl1 nl2 more :
  nolimit_first t = true -> from_front t num nl nl1 xs -> nl2 = nl1 ++ more ->
  fair t nl s now num (xs ++ ys) nl2.
Proof.
  intros Hf (k & rest & pushed & -> & -> & Hk) ->.
  exists [], k, (rest ++ ys), (pushed ++ more). rewrite Hf, <- !app_assoc. by split_and!.
Qed.

Lemma skip_fair t t1 nl s now num xs ys nl1 nl2 :
  nolimit_first t = false -> taken t t1 xs -> skip_served t nl s now num xs nl1 ->
  (forall A B, nl1 = A ++ B -> from_front t1 (num - Z.of_nat (length xs)) A nl2 ys) ->
  fair t nl s now num (xs ++ ys) nl2.
Proof.
  intros Hf Ht ([pushed ->] & Hni & Hhd) Hff.
  destruct (Hff nl pushed eq_refl) as (k & rest & pushed' & -> & -> & Hk).
  rewrite (front_ext t) in Hk |- *.
  - exists xs, k, rest, pushed'. rewrite Hf. split_and!; [done|done| |done].
    rewrite length_app. destruct Hk; [by left|right; lia].
  - intros i Hi. apply (taken_untouched t t1 xs); [done|]. intros Hx.
    rewrite Forall_forall in Hni. apply (Hni i Hx). by eapply subseteq_take.
  - intros i Hi. apply (taken_untouched t t1 xs); [done|]. intros Hx.
    rewrite Forall_forall in Hni. apply (Hni i Hx). by eapply subseteq_take.
Qed.

(** C3. [qman_poll] never fails and keeps the queue manager consistent: the
    lists stay linked and duplicate-free, the flags tell the members, and no
    queue with bytes left is dropped from both lists. It returns at most [num]
    chunks, each at most the [max_chunk] of its queue, and every queue's [avail]
    decreases by exactly the bytes returned for it. Every queue is served in
    its turn: the queues without a limit are served from the front of their
    list, in order, and those not reached stay before all that are put back;
    in every second poll they come first, with [num] chunks for them; in the
    others the first queue of the skip list comes first if it is due. *)
Theorem qman_poll_correct t nl sl ts num :
  qman_ok t nl sl -> 0 <= num ->
  exists es t' nl' sl', qman_poll t ts num = Ok (es, t') /\ qman_ok t' nl' sl' /\
    taken t t' es /\ chunks_ok t es /\ Z.of_nat (length es) <= num /\
    nolimit_first t' = negb (nolimit_first t) /\
    fair t nl (sl 0%nat) (virtual_time t ts) num es nl'.
Proof.
  intros Hok Hnum. unfold qman_poll.
  assert (forall t nl sl b, qman_ok t nl sl -> qman_ok (t <| nolimit_first := b |>) nl sl) as Hb.
  { intros u ? ? b [[H1 H2 H3 H4 H5 H6 H7 H8] ? ?]. by split. }
  destruct (nolimit_first t) eqn:Hf.
  - destruct (poll_nolimit_ok t nl sl num Hok Hnum) as
      (xs & t1 & nl1 & sl1 & -> & Hok1 & Ht1 & Hc1 & Hl1 & _ & Hk1 & Hff). osimpl.
    destruct (poll_skiplist_ok t1 nl1 sl1 ts (num - Z.of_nat (length xs)) Hok1) as
      (ys & t2 & nl2 & sl2 & -> & Hok2 & Ht2 & Hc2 & Hl2 & Hk2 & _ & [more Hmore] & _); [lia|]. osimpl.
    exists (xs ++ ys), (t2 <| nolimit_first := negb (nolimit_first t2) |>), nl2, sl2.
    split_and!; [done|by apply Hb|by apply (taken_app t t1)|
      apply Forall_app; split; [done|by eapply chunks_ok_taken]|rewrite length_app; lia| |].
    + simpl. rewrite Hk2. injection Hk1 as _ _ ->. by rewrite Hf.
    + apply (nolimit_fair t nl _ _ num xs ys nl1 nl2 more); [done| |done].
      apply (Hff nl []). by rewrite app_nil_r.
  - destruct (poll_skiplist_ok t nl sl ts num Hok Hnum) as
      (xs & t1 & nl1 & sl1 & -> & Hok1 & Ht1 & Hc1 & Hl1 & Hk1 & _ & Hsv). osimpl.
    destruct (poll_nolimit_ok t1 nl1 sl1 (num - Z.of_nat (length xs)) Hok1) as
      (ys & t2 & nl2 & sl2 & -> & Hok2 & Ht2 & Hc2 & Hl2 & _ & Hk2 & Hff); [lia|]. osimpl.
    exists (xs ++ ys), (t2 <| nolimit_first := negb (nolimit_first t2) |>), nl2, sl2.
    split_and!; [done|by apply Hb|by apply (taken_app t t1)|
      apply Forall_app; split; [done|by eapply chunks_ok_taken]|rewrite length_app; lia| |].
    + simpl. injection Hk2 as _ _ ->. by rewrite Hk1, Hf.
    + by apply (skip_fair t t1 nl _ _ num xs ys nl1 nl2).
Qed.

Lemma poll_nolimit_loop_rr nl1 : forall fuel t nl2 sl num cnt,
  qman_ok t (nl1 ++ nl2) sl ->
  Forall (fun i => rate (q_of t i) = 0 /\ 0 < avail (q_of t i)) nl1 ->
  num - cnt = Z.of_nat (length nl1) -> (length nl1 < fuel)%nat ->
  exists t', poll_nolimit_loop fuel t num cnt = Ok (serve t <$> nl1, t') /\
    qman_ok t' (nl2 ++ left_over t nl1) sl.
Proof.
  induction nl1 as [|x nl1 IH]; intros fuel t nl2 sl num cnt Hok Hall Hn Hf;
    (destruct fuel as [|fuel]; [lia|]); cbn [poll_nolimit_loop].
  { rewrite (proj2 (Z.ltb_ge _ _)) by (simpl in Hn; lia). osimpl. exists t.
    rewrite app_nil_r. by split. }
  pose proof (qk_linked _ _ _ Hok) as Hlk. pose proof (lk_nl _ _ _ Hlk) as (Hh & Hx & _).
  rewrite (proj2 (Z.ltb_lt cnt num)) by (simpl in Hn; lia). rewrite Hh.
  rewrite (proj2 (Z.eqb_neq x _)) by (unfold IDXLIST_INVAL, FLEXNIC_NUM_QMQUEUES in *; lia).
  osimpl. rewrite get_queue_Ok by done. osimpl.
  rewrite (lk_flags _ _ _ Hlk x). unfold flags_of. rewrite bool_decide_eq_true_2 by (by left).
  change (Z.land FLAG_INNOLIMITL (Z.lnot FLAG_INNOLIMITL)) with 0.
  destruct (pop_nolimit t x (nl1 ++ nl2) sl Hlk) as [Hun _]. set (t1 := put_queue _ x _) in *.
  change (avail ((q_of t x) <| q_flags := 0 |>)) with (avail (q_of t x)).
  apply Forall_cons in Hall as [[Hr0 Hav] Hall]. rewrite (proj2 (Z.ltb_lt 0 _)) by done.
  destruct (fire_unlinked t t1 x _ sl _ sl Hok Hun Hx Hav)
    as (t2 & nl' & sl' & b & -> & Hok2 & Ht2 & _ & _ & _ & _ & Hb & Hrr). osimpl.
  destruct Hrr as [Hrr _]. destruct (Hrr Hr0) as [-> ->]. clear Hrr.
  assert ((if b <? avail (q_of t x) then (nl1 ++ nl2) ++ [x] else nl1 ++ nl2) =
    nl1 ++ (nl2 ++ left_over t [x])) as Heq.
  { unfold left_over. rewrite filter_cons, filter_nil, Hb.
    destruct (Z.ltb_spec (max_chunk (q_of t x)) (avail (q_of t x))) as [?|?].
    - rewrite (proj2 (Z.ltb_lt _ _)) by lia. rewrite decide_True by done. by rewrite !app_assoc.
    - rewrite (proj2 (Z.ltb_ge _ _)) by lia. rewrite decide_False by lia.
      by rewrite app_nil_r. }
  rewrite Heq in Hok2.
  pose proof (lk_nodup _ _ _ Hlk) as Hnd. apply NoDup_cons in Hnd as [Hfresh _].
  assert (forall i, i ∈ nl1 -> params (q_of t2 i) = params (q_of t i)) as Hpar.
  { intros i Hi. destruct (Ht2 i) as (H1 & H2 & H3). simpl in H3.
    rewrite bool_decide_eq_false_2 in H3 by (intros ->; set_solver).
    unfold params. rewrite H1, H2. do 2 f_equal. lia. }
  destruct (IH fuel t2 (nl2 ++ left_over t [x]) sl num (cnt + 1) Hok2) as (t' & -> & Hok');
    [|simpl in Hn; lia|simpl in Hf; lia|].
  { apply Forall_forall. intros i Hi. rewrite Forall_forall in Hall. specialize (Hall i Hi).
    pose proof (Hpar i Hi) as Hp. unfold params in Hp. injection Hp as -> -> _. done. }
  destruct (serve_ext t t2 nl1 Hpar) as [-> Hfil]. osimpl. exists t'. split.
  - rewrite fmap_cons. unfold serve at 2. by rewrite Hb.
  - rewrite Hfil, <- app_assoc, <- left_over_cons in Hok'. exact Hok'.
Qed.

(** Without rate limits the queue manager is a round robin: polling as many
    queues as a prefix of the list has serves that prefix in order, one chunk
    each, and moves those with bytes left to the end of the list, in the same
    order. *)
Theorem poll_nolimit_round_robin t nl1 nl2 sl :
  qman_ok t (nl1 ++ nl2) sl ->
  Forall (fun i => rate (q_of t i) = 0 /\ 0 < avail (q_of t i)) nl1 ->
  exists t',
    poll_nolimit t (Z.of_nat (length nl1)) = Ok (serve t <$> nl1, t') /\
    qman_ok t' (nl2 ++ left_over t nl1) sl.
Proof.
  intros Hok Hall. apply poll_nolimit_loop_rr; [done|done|lia|unfold poll_fuel; lia].
Qed.

(** ** Setting a queue *)

Lemma flags_idle_iff t nl sl i :
  linked t nl sl ->
  if Z.land (q_flags (q_of t i)) (Z.lor FLAG_INSKIPLIST FLAG_INNOLIMITL) =? 0
  then i ∉ nl ++ sl 0%nat else i ∈ nl ++ sl 0%nat.
Proof.
  intros Hlk. rewrite (lk_flags _ _ _ Hlk). unfold flags_of.
  case_bool_decide; [simpl; set_solver|]. case_bool_decide; simpl; set_solver.
Qed.

Lemma qman_set_ok t nl sl id r a c flags :
  qman_ok t nl sl -> 0 <= id < FLEXNIC_NUM_QMQUEUES ->
  0 <= r < 4294967296 -> 0 <= a < 4294967296 -> 0 <= c < 65536 ->
  exists t' nl' sl', qman_set t id r a c flags = Ok (0, t') /\ qman_ok t' nl' sl' /\
    (forall i, params (q_of t' i) =
       params (if bool_decide (i = id) then fst (set_queue (q_of t id) r a c flags)
               else q_of t i)) /\
    (forall i, i <> id -> (i ∈ nl' ++ sl' 0%nat <-> i ∈ nl ++ sl 0%nat)).
Proof.
  intros [Hlk Hsz Hbl] Hid Hr Ha Hc. unfold qman_set.
  rewrite Z.geb_leb, (proj2 (Z.leb_gt _ _)) by lia.
  unfold set_impl. rewrite get_queue_Ok by done. osimpl.
  destruct (set_queue (q_of t id) r a c flags) as [q new] eqn:Hset. osimpl.
  assert (next_idxs q = next_idxs (q_of t id) /\ q_flags q = q_flags (q_of t id) /\
    (0 <= rate q < 4294967296 /\ 0 <= avail q < 4294967296 /\ 0 <= max_chunk q < 65536) /\
    (new = false -> avail q = avail (q_of t id))) as (Hq1 & Hq2 & Hq3 & Hq4).
  { destruct (Hsz id) as (? & ? & ?). pose proof (u32_range (avail (q_of t id) + a)).
    unfold set_queue in Hset. repeat case_match; simplify_eq; simpl; split_and!; try done; lia. }
  set (t1 := put_queue t id q).
  assert (linked t1 nl sl) as Hlk1 by (by apply linked_put).
  assert (forall i, q_of t1 i = if bool_decide (i = id) then q else q_of t i) as Hq.
  { intros i. unfold t1. rewrite q_of_put. repeat case_bool_decide; congruence. }
  assert (forall t', (forall i, params (q_of t' i) = params (q_of t1 i)) -> sized t') as Hsz1.
  { intros t' Hp i. specialize (Hp i). rewrite Hq in Hp. specialize (Hsz i). unfold params in Hp.
    case_bool_decide; injection Hp as -> -> ->; done. }
  assert (forall t' nl' sl', linked t' nl' sl' -> (forall i, params (q_of t' i) = params (q_of t1 i)) ->
    (forall i, i ∈ nl ++ sl 0%nat -> i ∈ nl' ++ sl' 0%nat) ->
    (0 < avail q -> id ∈ nl' ++ sl' 0%nat) ->
    qman_ok t' nl' sl') as Hfin.
  { intros t' nl' sl' Hlk' Hp Hin Hid'. split; [done|by apply Hsz1|]. intros i Hi.
    specialize (Hp i). rewrite Hq in Hp. unfold params in Hp.
    case_bool_decide; injection Hp as _ Hp _; [subst i; apply Hid'|apply Hin, Hbl]; lia. }
  assert (forall t', (forall i, params (q_of t' i) = params (q_of t1 i)) ->
    forall i, params (q_of t' i) = params (if bool_decide (i = id) then q else q_of t i)) as Hpar.
  { intros t' Hp i. by rewrite Hp, Hq. }
  pose proof (flags_idle_iff _ _ _ id Hlk) as Hfl. rewrite <- Hq2 in Hfl.
  destruct (new && (0 <? avail q) && (Z.land (q_flags q) (Z.lor FLAG_INSKIPLIST FLAG_INNOLIMITL) =? 0))
    eqn:Hact.
  - bprop. rewrite (proj2 (Z.eqb_eq _ _)) in Hfl by done.
    destruct (queue_activate_ok t1 nl sl id Hlk1) as (t' & nl' & sl' & -> & Hac & _); [lia|done|].
    pose proof (ac_members _ _ _ _ _ _ _ Hac) as Hm.
    exists t', nl', sl'. split_and!; [done| |by apply Hpar, Hac|].
    + apply Hfin; [apply Hac|apply Hac| |]; intros; rewrite Hm; set_solver.
    + intros i Hi. rewrite Hm. set_solver.
  - exists t1, nl, sl. split_and!; [done| |by apply Hpar|done].
    apply Hfin; [done|done|done|]. intros Hav.
    destruct new; [|apply Hbl; rewrite <- Hq4; done].
    rewrite (proj2 (Z.ltb_lt _ _)) in Hact by done. simpl in Hact.
    by rewrite Hact in Hfl.
Qed.

(** [qman_set] rejects an out-of-range queue and changes nothing; on any
    other it writes the selected parameters to that queue only, and puts a queue
    that now has bytes in one of the lists. *)
Theorem qman_set_correct t nl sl id r a c flags :
  qman_ok t nl sl -> 0 <= id -> 0 <= r < 4294967296 -> 0 <= a < 4294967296 -> 0 <= c < 65536 ->
  if id <? FLEXNIC_NUM_QMQUEUES then
    exists t' nl' sl', qman_set t id r a c flags = Ok (0, t') /\ qman_ok t' nl' sl' /\
      (forall i, params (q_of t' i) =
         params (if bool_decide (i = id) then fst (set_queue (q_of t id) r a c flags)
                 else q_of t i)) /\
      (forall i, i <> id -> (i ∈ nl' ++ sl' 0%nat <-> i ∈ nl ++ sl 0%nat))
  else qman_set t id r a c flags = Ok (-1, t).
Proof.
  intros Hok Hid Hr Ha Hc. destruct (Z.ltb_spec id FLEXNIC_NUM_QMQUEUES) as [Hlt|Hge].
  - by apply qman_set_ok.
  - unfold qman_set. by rewrite Z.geb_leb, (proj2 (Z.leb_le _ _)).
Qed.

(** ** Time *)

Lemma i64_u64 x : i64 (u64 x) = i64 x.
Proof. unfold i64, u64. by rewrite Z.mod_mod by lia. Qed.

Lemma rel_time_cases cur ts :
  0 <= cur < 4294967296 -> 0 <= ts < 4294967296 ->
  rel_time cur ts =
    if cur <? 2147483648 then if cur + 2147483648 <=? ts then ts - cur - 4294967296 else ts - cur
    else if (2147483648 <? cur) && (ts <=? cur - 2147483648) then ts - cur + 4294967296
    else ts - cur.
Proof.
  intros Hc Ht. unfold rel_time. change 0xffffffff with (Z.ones 32). rewrite !Z.land_ones by lia.
  change (2 ^ 32) with 4294967296.
  destruct (Z.ltb_spec cur 2147483648) as [H|H].
  - assert (u64 (cur - 2147483648) mod 4294967296 = cur + 2147483648) as -> by word.
    rewrite (proj2 (Z.ltb_lt ts _)), andb_true_r by lia.
    destruct (Z.leb_spec (cur + 2147483648) ts).
    + rewrite (u64_small (ts - _)), i64_u64, i64_small by lia. lia.
    + by rewrite i64_u64, i64_small by lia.
  - destruct (Z.eqb_spec cur 2147483648) as [->|Hne].
    + by rewrite i64_u64, i64_small by lia.
    + rewrite (proj2 (Z.ltb_lt 2147483648 cur)) by lia.
      rewrite (u64_small (cur + _)) by lia. rewrite (mod_sub_once (cur + _)) by lia.
      rewrite (u64_small (cur + _ - _ + 1)) by lia. rewrite (proj2 (Z.leb_le 0 cur)) by lia. simpl.
      destruct (Z.ltb_spec ts (cur + 2147483648 - 4294967296 + 1)).
      * rewrite (proj2 (Z.leb_le _ _)) by lia.
        rewrite (u64_small (4294967296 - cur)), i64_u64, i64_small by lia. lia.
      * rewrite (proj2 (Z.leb_gt _ _)) by lia. by rewrite i64_u64, i64_small by lia.
Qed.

(** [rel_time cur ts] is the signed distance from [cur] to [ts]: it leads
    from [cur] to [ts] modulo 2^32, its magnitude is at most half the range, and
    it is the only such distance below half the range. *)
Theorem rel_time_distance cur ts :
  0 <= cur < 4294967296 -> 0 <= ts < 4294967296 ->
  u32 (cur + rel_time cur ts) = ts /\ -2147483648 <= rel_time cur ts <= 2147483648 /\
  (forall d, -2147483648 < d < 2147483648 -> u32 (cur + d) = ts -> rel_time cur ts = d).
Proof.
  intros Hc Ht. rewrite rel_time_cases by done.
  assert (forall d, u32 (cur + d) = ts <-> exists k, cur + d = ts + 4294967296 * k) as Hu.
  { intros d. unfold u32. split.
    - intros <-. exists ((cur + d) / 4294967296). pose proof (Z.div_mod (cur + d) 4294967296). lia.
    - intros [k ->]. rewrite Z.mul_comm, Z_mod_plus_full. by apply Z.mod_small. }
  split_and!.
  - apply Hu. bsplit; first [by (exists 0; lia) | by (exists (-1); lia) | by (exists 1; lia)].
  - bsplit; lia.
  - bsplit; lia.
  - intros d Hd [k Hk]%Hu. bsplit; lia.
Qed.

Lemma rel_time_self cur : 0 <= cur < 4294967296 -> rel_time cur cur = 0.
Proof. intros. rewrite rel_time_cases by done. bsplit; lia. Qed.

(** ** Order of the skip list *)

(** [s] is in the order of virtual time, seen from [ts_virtual t]. *)
Definition ordered (t : qman_thread) (s : list Z) : Prop :=
  StronglySorted (fun i j =>
    rel_time (ts_virtual t) (next_ts (q_of t i)) <= rel_time (ts_virtual t) (next_ts (q_of t j))) s.

Lemma ordered_ext t t' s :
  ts_virtual t' = ts_virtual t -> (forall i, i ∈ s -> next_ts (q_of t' i) = next_ts (q_of t i)) ->
  ordered t s -> ordered t' s.
Proof.
  intros Hv Hts. unfold ordered. rewrite Hv. induction 1 as [|x s Hs IH Hall]; [constructor|].
  constructor; [apply IH; intros; apply Hts; by right|].
  apply Forall_forall. intros y Hy. rewrite Forall_forall in Hall. rewrite !Hts by (by (left || right)).
  by apply Hall.
Qed.

Lemma ordered_insert t ts A x B :
  split_at t ts (A ++ B) A B -> next_ts (q_of t x) = ts ->
  ordered t (A ++ B) -> ordered t (A ++ x :: B).
Proof.
  intros (_ & HA & HB) Hx Ho. unfold ordered, due, timestamp_lessthaneq in *.
  apply StronglySorted_app in Ho as (Hab & HsA & HsB). apply StronglySorted_app. split_and!; [|done|].
  - intros y z Hy Hz. apply elem_of_cons in Hz as [->|Hz]; [|by apply Hab].
    destruct A as [|p A _] using rev_ind; [by apply not_elem_of_nil in Hy|].
    specialize (HA p). rewrite last_snoc in HA. specialize (HA eq_refl). apply Z.leb_le in HA.
    rewrite Hx. apply elem_of_app in Hy as [Hy|Hy].
    + apply StronglySorted_app in HsA as (HpA & _ & _). specialize (HpA y p Hy ltac:(by left)). lia.
    + apply list_elem_of_singleton in Hy as ->. lia.
  - constructor; [done|]. destruct B as [|y B]; [constructor|].
    specialize (HB y eq_refl). rewrite Z.leb_le in HB.
    constructor; [rewrite Hx; lia|]. inversion HsB as [|? ? _ Hall]; subst.
    eapply Forall_impl; [exact Hall|]. intros z Hz. simpl in *. lia.
Qed.

(** Activating a rate-limited queue keeps the skip list a skip list (every
    level linked and a sublist of the one below) and in the order of virtual
    time; the queue enters with a time stamp that is neither in the past nor
    later than if it had just sent [max_chunk] bytes. *)
Theorem queue_activate_skiplist_sorted t nl sl idx m :
  linked t nl sl -> 0 <= idx < FLEXNIC_NUM_QMQUEUES -> idx ∉ nl ++ sl 0%nat ->
  rate (q_of t idx) <> 0 -> ordered t (sl 0%nat) ->
  queue_new_ts t (q_of t idx) (max_chunk (q_of t idx)) = Ok m ->
  0 <= ts_virtual t < 4294967296 -> 0 <= rel_time (ts_virtual t) m ->
  exists t' sl', queue_activate_skiplist t idx = Ok t' /\ linked t' nl sl' /\
    ordered t' (sl' 0%nat) /\ sl' 0%nat ≡ₚ idx :: sl 0%nat /\
    0 <= rel_time (ts_virtual t) (next_ts (q_of t' idx)) <= rel_time (ts_virtual t) m.
Proof.
  intros Hlk Hr Hi Hrate Ho Hm Hv Hmv.
  destruct (activate_skiplist_ok t nl sl idx Hlk Hr Hi Hrate) as
    (t' & sl' & ts & A & B & He & Hac & Hts & Hsl' & Hsp & m' & Hm' & Hcl).
  rewrite Hm in Hm'. injection Hm' as <-.
  assert (sl 0%nat = A ++ B) as Hsl by apply Hsp. rewrite Hsl in *.
  assert (ts_virtual t' = ts_virtual t) as Hv'
    by (pose proof (ac_clock _ _ _ _ _ _ _ Hac) as Hc; by injection Hc).
  assert (forall i, i ∈ A ++ B -> next_ts (q_of t' i) = next_ts (q_of t i)) as Hts'.
  { intros i Hin. apply (ac_ts _ _ _ _ _ _ _ Hac). intros ->. set_solver. }
  exists t', sl'. split_and!; [done|apply Hac| |by rewrite Hsl', <- Permutation_middle| |].
  - rewrite Hsl'. apply ordered_insert with ts; [|done|by eapply ordered_ext].
    destruct Hsp as (_ & HA & HB). split_and!; [done| |].
    + intros p Hp. specialize (HA p Hp). unfold due, timestamp_lessthaneq in *. rewrite Hv'.
      rewrite Hts'; [done|]. apply last_Some_elem_of in Hp. set_solver.
    + intros y Hy. specialize (HB y Hy). unfold due, timestamp_lessthaneq in *. rewrite Hv'.
      rewrite Hts'; [done|]. apply head_Some_elem_of in Hy. set_solver.
  - rewrite Hts, Hcl. unfold clamp_ts, timestamp_lessthaneq. rewrite rel_time_self by done.
    bsplit; rewrite ?rel_time_self by done; lia.
  - rewrite Hts, Hcl. unfold clamp_ts, timestamp_lessthaneq. rewrite rel_time_self by done.
    bsplit; rewrite ?rel_time_self by done; lia.
Qed.

(** A freshly initialised thread satisfies the invariant, with both lists
    empty; a failed allocation leaves the thread as it was. *)
Theorem qman_thread_init_correct t id ts alloc_ok :
  match qman_thread_init t id ts alloc_ok with
  | (0, t') => alloc_ok = true /\ qman_ok t' [] (fun _ => []) /\ ts_real t' = ts
  | (_, t') => alloc_ok = false /\ t' = t
  end.
Proof.
  unfold qman_thread_init. destruct alloc_ok; simpl; [|done].
  split_and!; [done| |done].
  match goal with |- qman_ok ?u _ _ => set (t' := u) end.
  assert (forall i, q_of t' i = queue0) as Hq by (intros i; unfold q_of; simpl; by rewrite lookup_empty).
  split; [split| |].
  - intros i. by rewrite Hq.
  - done.
  - done.
  - done.
  - intros l Hl. unfold QMAN_SKIPLIST_LEVELS in *. do 4 (destruct l as [|l]; [done|]). lia.
  - done.
  - constructor.
  - intros i. by rewrite Hq.
  - intros i. rewrite Hq. simpl. lia.
  - intros i. rewrite Hq. simpl. lia.
Qed.

(** ** A concrete thread: queue 5 waits in the FIFO, queue 7 is rate-limited and
    idle. *)
Module Demo.

Definition t : qman_thread :=
  mk_qman {[ 5 := mk_queue [IDXLIST_INVAL; 0; 0; 0] 0 0 3000 1448 2;
             7 := mk_queue [0; 0; 0; 0] 0 1000000 0 1448 0 ]}
    (replicate 4 IDXLIST_INVAL) 5 5 0 0 42 true.

Lemma t_queue i :
  q_of t i = if bool_decide (i = 5) then mk_queue [IDXLIST_INVAL; 0; 0; 0] 0 0 3000 1448 2
             else if bool_decide (i = 7) then mk_queue [0; 0; 0; 0] 0 1000000 0 1448 0 else queue0.
Proof.
  unfold q_of, t. simpl. case_bool_decide as H5; [by subst|]. case_bool_decide as H7; [by subst|].
  rewrite lookup_insert_ne by congruence. by rewrite lookup_singleton_ne by congruence.
Qed.

Lemma t_linked : linked t [5] (fun _ => []).
Proof.
  split; try done.
  - intros i. rewrite t_queue. by repeat case_bool_decide.
  - intros l Hl. unfold QMAN_SKIPLIST_LEVELS in Hl. do 4 (destruct l as [|l]; [done|]). lia.
  - repeat constructor. set_solver.
  - intros i. rewrite t_queue. unfold flags_of. repeat case_bool_decide; try done; set_solver.
Qed.

Lemma t_ok : qman_ok t ([5] ++ []) (fun _ => []).
Proof.
  split; [apply t_linked| |]; intros i; rewrite t_queue; repeat case_bool_decide; simpl; try lia; set_solver.
Qed.

End Demo.

Lemma qman_poll_correct_witness :
  qman_poll Demo.t 1000 2 = Ok ([(5, 1448); (5, 1448)], snd (match qman_poll Demo.t 1000 2 with Ok r => r | Stop _ => ([], Demo.t) end)) /\
  exists es t' nl' sl', qman_poll Demo.t 1000 2 = Ok (es, t') /\ qman_ok t' nl' sl' /\
    taken Demo.t t' es /\ chunks_ok Demo.t es /\ Z.of_nat (length es) <= 2 /\
    nolimit_first t' = negb (nolimit_first Demo.t) /\
    fair Demo.t [5] [] (virtual_time Demo.t 1000) 2 es nl'.
Proof.
  split; [vm_compute; reflexivity|].
  apply (qman_poll_correct Demo.t [5] (fun _ => []) 1000 2 Demo.t_ok). lia.
Defined.

Lemma poll_nolimit_round_robin_witness :
  exists t', poll_nolimit Demo.t 1 = Ok ([(5, 1448)], t') /\
    qman_ok t' ([] ++ left_over Demo.t [5]) (fun _ => []).
Proof.
  apply (poll_nolimit_round_robin Demo.t [5] [] (fun _ => []) Demo.t_ok).
  repeat constructor.
Defined.

Lemma qman_set_correct_witness :
  exists t' nl' sl', qman_set Demo.t 7 0 100 0 QMAN_ADD_AVAIL = Ok (0, t') /\ qman_ok t' nl' sl' /\
    (forall i, params (q_of t' i) =
       params (if bool_decide (i = 7) then fst (set_queue (q_of Demo.t 7) 0 100 0 QMAN_ADD_AVAIL)
               else q_of Demo.t i)) /\
    (forall i, i <> 7 -> (i ∈ nl' ++ sl' 0%nat <-> i ∈ [5] ++ [])).
Proof.
  apply (qman_set_correct Demo.t [5] (fun _ => []) 7 0 100 0 QMAN_ADD_AVAIL Demo.t_ok); lia.
Defined.

Lemma rel_time_distance_witness :
  rel_time 4294967290 5 = 11 /\ u32 (4294967290 + rel_time 4294967290 5) = 5.
Proof.
  split; [reflexivity|]. apply (rel_time_distance 4294967290 5); lia.
Defined.

Lemma queue_activate_skiplist_sorted_witness :
  exists t' sl', queue_activate_skiplist Demo.t 7 = Ok t' /\ linked t' [5] sl' /\
    ordered t' (sl' 0%nat) /\ sl' 0%nat ≡ₚ 7 :: [] /\
    0 <= rel_time 0 (next_ts (q_of t' 7)) <= rel_time 0 11584.
Proof.
  apply (queue_activate_skiplist_sorted Demo.t [5] (fun _ => []) 7 11584 Demo.t_linked);
    [unfold FLEXNIC_NUM_QMQUEUES; lia|set_solver|vm_compute; discriminate|constructor|
     vm_compute; reflexivity|simpl; lia|vm_compute; discriminate].
Defined.
