(* ===== verification/FastCtx.v ===== *)
(** * Fast-path shared state (tas_nic/include/fastpath.h, include/tas_memif.h) and
    the helpers of tas_nic/fast/fastemu.h *)
From S2P Require Import Prelude RdmaQueue Packets FlowState Qman.

#[local] Open Scope Z_scope.

Definition BATCH_SIZE : Z := 16.
Definition BUFCACHE_SIZE : Z := 128.
Definition TXBUF_SIZE : Z := 2 * BATCH_SIZE.
Definition FLEXNIC_PL_FLOWHTE_VALID : Z := 2147483648.
Definition FLEXNIC_PL_FLOWHTE_POSSHIFT : Z := 29.
Definition FLEXNIC_PL_APPST_CTX_MCS : Z := 16.

(** ** Shared memory: [struct flextcp_pl_mem] *)
Record flowhte := mk_hte { hte_flow_id : Z; hte_flow_hash : Z }.

Record appctx := mk_appctx { actx_tx : rdma_queue; actx_rx : rdma_queue; enabled : bool }.
#[export] Instance eta_appctx : Eta appctx := fun a =>
  mk_appctx (actx_tx a) (actx_rx a) (enabled a).

(** [flowst_] holds the flow states whose queues were set up; [flowht] is zero
    where it was never written. [kctxs] and [appctxs] are the rows of one core. *)
Record fp_mem := mk_fp {
  flowst_ : gmap Z flowst;
  flowht : gmap Z flowhte;
  flow_group_steering : list Z;
  kctx : appctx;
  appctxs : gmap Z appctx;
}.
#[export] Instance eta_fp_mem : Eta fp_mem := fun m =>
  mk_fp (flowst_ m) (flowht m) (flow_group_steering m) (kctx m) (appctxs m).

Definition hte0 : flowhte := mk_hte 0 0.
Definition hte_at (ht : gmap Z flowhte) (k : Z) : flowhte := default hte0 (ht !! k).

(** [&fp_state->flowst[id]]: outside of the array, or a flow whose queue
    pointers are still [NULL]. *)
Definition get_flow (m : fp_mem) (id : Z) : outcome flowst :=
  if (0 <=? id) && (id <? FLEXNIC_PL_FLOWST_NUM) then
    match flowst_ m !! id with Some fs => Ok fs | None => Stop OutOfBounds end
  else Stop OutOfBounds.
Definition put_flow (m : fp_mem) (id : Z) (fs : flowst) : fp_mem :=
  m <| flowst_ := <[id := fs]> (flowst_ m) |>.

(** ** Per-core context: [struct dataplane_context]

    [tx_handles] holds the packets handed to [tx_send]: buffer, offset, length
    and contents; [arx_cache] the notifications with their context. [fwd] and
    [notified] record what was put on other cores' forwarding rings and whom the
    core woke up. [bufcache] is the ring of pre-allocated buffers. *)
Record tx_entry := mk_txe { te_nbh : Z; te_off : Z; te_len : Z; te_pkt : pkt_tcp }.

Record dataplane_context := mk_dctx {
  ctx_id : Z;
  qman : qman_thread;
  tx_handles : list tx_entry;
  arx_cache : list (Z * arx_entry);
  fwd : list (Z * Z);
  notified : list Z;
  poll_next_ctx : Z;
  bufcache_handles : list Z;
  bufcache_num : Z;
  bufcache_head : Z;
  kernel_drop : Z;
}.
#[export] Instance eta_dctx : Eta dataplane_context := fun c =>
  mk_dctx (ctx_id c) (qman c) (tx_handles c) (arx_cache c) (fwd c) (notified c)
    (poll_next_ctx c) (bufcache_handles c) (bufcache_num c) (bufcache_head c) (kernel_drop c).

Definition tx_num (c : dataplane_context) : Z := Z.of_nat (length (tx_handles c)).
Definition arx_num (c : dataplane_context) : Z := Z.of_nat (length (arx_cache c)).

Definition tx_send (c : dataplane_context) (nbh : Z) (p : pkt_tcp) (off len : Z)
  : outcome dataplane_context :=
  if tx_num c >=? TXBUF_SIZE then Stop Aborted
  else mret (c <| tx_handles := tx_handles c ++ [mk_txe nbh off len p] |>).

(** The cache has [BATCH_SIZE] entries and no check. *)
Definition arx_cache_add (c : dataplane_context) (cid opaque rx_bump rx_pos tx_bump type_flags : Z)
  : outcome dataplane_context :=
  if arx_num c >=? BATCH_SIZE then Stop OutOfBounds
  else mret (c <| arx_cache := arx_cache c ++
    [(cid, mk_arx opaque rx_bump rx_pos tx_bump (u8 (Z.shiftr type_flags 8))
             (Z.land type_flags 0xff))] |>).

(** [qman_set(...) != 0] is fatal wherever the fast path calls it. *)
Definition qman_set_or_abort (c : dataplane_context) (id rate avail max_chunk flags : Z)
  : outcome dataplane_context :=
  '(rv, t) ← qman_set (qman c) id rate avail max_chunk flags;
  if negb (rv =? 0) then Stop Aborted else mret (c <| qman := t |>).

(** ** Checksums

    [rte_ipv4_cksum] and [rte_ipv4_udptcp_cksum] are DPDK's; the latter sees the
    IP header, the TCP header and the bytes that follow. [fp_xsumoffload] is the
    configuration flag. *)
Class Checksums := {
  fp_xsumoffload : bool;
  rte_ipv4_cksum : ip_hdr -> Z;
  rte_ipv4_udptcp_cksum : ip_hdr -> tcp_hdr -> list Z -> Z;
}.

(** Fields in network byte order, as the code reads [.x] on a little-endian
    machine. *)
Definition bswap16 (x : Z) : Z := Z.lor (Z.shiftl (Z.land x 0xff) 8) (Z.shiftr x 8).
Definition bswap32 (x : Z) : Z :=
  Z.lor (Z.shiftl (bswap16 (Z.land x 0xffff)) 16) (bswap16 (Z.shiftr x 16)).

(** [network_ip_phdr_xsum] (tas_nic/fast/network.h) *)
Definition network_ip_phdr_xsum (ip_src ip_dst proto l3_paylen : Z) : Z :=
  let s := bswap32 ip_src in let d := bswap32 ip_dst in
  let sum := u32 (Z.land s 0xffff + Z.land (Z.shiftr s 16) 0xffff
                  + Z.land d 0xffff + Z.land (Z.shiftr d 16) 0xffff
                  + Z.shiftl proto 8 + bswap16 l3_paylen) in
  let sum := Z.shiftr (Z.land sum 0xffff0000) 16 + Z.land sum 0xffff in
  let sum := Z.shiftr (Z.land sum 0xffff0000) 16 + Z.land sum 0xffff in
  u16 sum.
