(* ===== verification/FastFlows.v ===== *)
(** * Fast-path flow processing (tas_nic/fast/fast_flows.c)

    The data path of an established connection: transmission of segments,
    processing of received segments, application bumps, retransmission, and the
    flow lookup. *)
From S2P Require Import Prelude RdmaQueue Packets FlowState TcpCommon Qman FastCtx.

#[local] Open Scope Z_scope.

Definition TCP_MSS : Z := 1448.
Definition TCP_MAX_RTT : Z := 100000.

(** ** The flow lock

    The critical sections of a flow exclude each other; a flow that is already
    locked makes the caller spin. *)
Definition fs_lock (fs : flowst) : outcome flowst :=
  if lock fs =? 0 then mret (fs <| lock := 1 |>) else Stop OutOfFuel.
Definition fs_unlock (fs : flowst) : flowst := fs <| lock := 0 |>.

(** ** Circular buffers of a flow *)
Definition flow_tx_read (fs : flowst) (pos len : Z) : outcome (list Z) :=
  let bs := buffer_size (fs_tx fs) in
  if u32 (pos + len) <=? bs then mem_read (buffer (fs_tx fs)) pos len
  else
    let part := u32 (bs - pos) in
    d1 ← mem_read (buffer (fs_tx fs)) pos part;
    d2 ← mem_read (buffer (fs_tx fs)) 0 (u32 (len - part));
    mret (d1 ++ d2).

Definition set_rx_buffer (fs : flowst) (b : list Z) : flowst :=
  fs <| fs_rx := (fs_rx fs) <| buffer := b |> |>.

(** [src] is the memory at the source pointer. *)
Definition flow_rx_write (fs : flowst) (pos len : Z) (src : list Z) : outcome flowst :=
  let bs := buffer_size (fs_rx fs) in
  if u32 (pos + len) <=? bs then
    d ← mem_read src 0 len;
    b ← mem_write (buffer (fs_rx fs)) pos d;
    mret (set_rx_buffer fs b)
  else
    let part := u32 (bs - pos) in
    d1 ← mem_read src 0 part;
    b ← mem_write (buffer (fs_rx fs)) pos d1;
    d2 ← mem_read src part (u32 (len - part));
    b ← mem_write b 0 d2;
    mret (set_rx_buffer fs b).

Definition flow_rx_seq_write (fs : flowst) (seq len : Z) (src : list Z) : outcome flowst :=
  let diff := u32 (seq - rx_next_seq fs) in
  let pos := u32 (tx_off (fs_rx fs) + diff) in
  let pos := if pos >=? buffer_size (fs_rx fs) then u32 (pos - buffer_size (fs_rx fs)) else pos in
  flow_rx_write fs pos len src.

Definition flow_reset_retransmit (fs : flowst) : flowst :=
  let fs := fs <| rx_dupack_cnt := 0 |> in
  let fs := fs <| rx_remote_avail := u32 (rx_remote_avail fs + tx_sent fs) |> in
  let fs := fs <| tx_sent := 0 |> in
  let fs := if cnt_tx_drops fs =? 0 then fs <| tx_rate := tx_rate fs / 2 |> else fs in
  fs <| cnt_tx_drops := u16 (cnt_tx_drops fs + 1) |>.

Section Packets.
Context `{Checksums} (eth_addr : Z).

(** ** Building packets *)
Definition tcp_checksums (p : pkt_tcp) (ip_s ip_d l3_paylen : Z) : pkt_tcp :=
  let p := p <| p_ip := (p_ip p) <| ip_chksum := 0 |> |> in
  if fp_xsumoffload then
    p <| p_tcp := (p_tcp p) <| tcp_chksum :=
      network_ip_phdr_xsum ip_s ip_d IP_PROTO_TCP l3_paylen |> |>
  else
    let p := p <| p_tcp := (p_tcp p) <| tcp_chksum := 0 |> |> in
    let p := p <| p_ip := (p_ip p) <| ip_chksum := rte_ipv4_cksum (p_ip p) |> |> in
    p <| p_tcp := (p_tcp p) <| tcp_chksum :=
      rte_ipv4_udptcp_cksum (p_ip p) (p_tcp p) (p_rest p) |> |>.

Definition fast_flows_kernelxsums (p : pkt_tcp) : pkt_tcp :=
  tcp_checksums p (ip_src (p_ip p)) (ip_dest (p_ip p)) (u16 (ip_len (p_ip p) - SIZEOF_IP_HDR)).

(** [p] is what the buffer held before. *)
Definition flow_tx_segment (c : dataplane_context) (nbh : Z) (p : pkt_tcp) (fs : flowst)
  (seq ack rxwnd payload payload_pos ts_echo ts_my : Z) (fin : bool)
  : outcome dataplane_context :=
  let optlen := Z.land (SIZEOF_TIMESTAMP_OPT + 3) (Z.lnot 3) in
  let hdrs_len := SIZEOF_PKT_TCP + optlen in
  let eth := mk_eth (remote_mac fs) eth_addr ETH_TYPE_IP in
  let ip := mk_ip 0x45 0 (u16 (hdrs_len - SIZEOF_ETH_HDR + payload)) 3 0 0xff IP_PROTO_TCP 0
              (local_ip fs) (remote_ip fs) in
  let ip := if has_all (rx_flags fs) FLEXNIC_PL_FLOWST_ECN then IPH_ECN_SET ip IP_ECN_ECT0 else ip in
  let fin_fl := if fin then TCP_FIN else 0 in
  let tcp := mk_tcp (local_port fs) (remote_port fs) seq ack
               (tcp_hdrlen_rsvd_flags (p_tcp p)) (u16 (MIN 0xFFFF rxwnd)) 0 0 in
  let tcp := TCPH_HDRLEN_FLAGS_SET tcp (5 + optlen / 4) (Z.lor (Z.lor TCP_PSH TCP_ACK) fin_fl) in
  rest ← mem_write (p_rest p) 0 (replicate (Z.to_nat optlen) 0);
  rest ← mem_write rest 0 [TCP_OPT_TIMESTAMP; SIZEOF_TIMESTAMP_OPT];
  rest ← write_be32 rest 2 ts_my;
  rest ← write_be32 rest 6 ts_echo;
  rest ← (if payload >? 0 then
            d ← flow_tx_read fs payload_pos payload;
            mem_write rest optlen d
          else mret rest);
  let p := tcp_checksums (mk_pkt eth ip tcp rest) (local_ip fs) (remote_ip fs)
             (u16 (hdrs_len - SIZEOF_ETH_HDR - SIZEOF_IP_HDR + payload)) in
  tx_send c nbh p 0 (u16 (hdrs_len + payload)).

(** The received packet [p], at offset [off] of its buffer, becomes the ACK;
    [ts_opt] is the offset of its timestamp option. *)
Definition flow_tx_ack (c : dataplane_context) (seq ack rxwnd echots myts nbh : Z)
  (p : pkt_tcp) (off ts_opt : Z) : outcome dataplane_context :=
  let hdrlen := u16 (SIZEOF_PKT_TCP + (TCPH_HDRLEN (p_tcp p) - 5) * 4) in
  let eth := (p_eth p) <| eth_src := eth_dest (p_eth p) |> <| eth_dest := eth_src (p_eth p) |> in
  let ip := (p_ip p) <| ip_src := ip_dest (p_ip p) |> <| ip_dest := ip_src (p_ip p) |> in
  let tcp := (p_tcp p) <| tcp_src := tcp_dest (p_tcp p) |> <| tcp_dest := tcp_src (p_tcp p) |> in
  let ecn_flags := if IPH_ECN ip =? IP_ECN_CE then TCP_ECE else 0 in
  let ip := IPH_ECN_SET ip IP_ECN_NONE in
  let tcp := tcp <| tcp_seqno := seq |> <| tcp_ackno := ack |> in
  let tcp := TCPH_HDRLEN_FLAGS_SET tcp (TCPH_HDRLEN tcp) (Z.lor TCP_ACK ecn_flags) in
  let tcp := tcp <| tcp_wnd := u16 (MIN 0xFFFF rxwnd) |> <| tcp_urgp := 0 |> in
  rest ← write_be32 (p_rest p) (ts_opt + 2) myts;
  rest ← write_be32 rest (ts_opt + 6) echots;
  let ip := ip <| ip_len := u16 (hdrlen - SIZEOF_ETH_HDR) |> <| ip_ttl := 0xff |> in
  let p := tcp_checksums (mk_pkt eth ip tcp rest) (ip_src ip) (ip_dest ip)
             (u16 (hdrlen - SIZEOF_ETH_HDR - SIZEOF_IP_HDR)) in
  tx_send c nbh p off hdrlen.

(** ** Sending: a queue of the queue manager fired *)

(** The part of [fast_flows_qman] between the locks, on the flow's home core;
    the result is -1 when there is nothing to send. *)
Definition fast_flows_qman_send (c : dataplane_context) (fs : flowst) (nbh : Z) (p : pkt_tcp) (ts : Z)
  : outcome (Z * flowst * dataplane_context) :=
  avail ← tcp_txavail fs None;
  if avail =? 0 then mret (-1, fs, c)
  else
    let len := MIN avail TCP_MSS in
    let tx_seq := tx_next_seq fs in
    empty ← rq_nbytes_empty (fs_rx fs);
    let rx_wnd := u32 empty in
    let ack := rx_next_seq fs in
    let send_offset := u64 (rx_off (fs_tx fs) + tx_sent fs) in
    let send_offset := if send_offset >? buffer_size (fs_tx fs)
                       then u64 (send_offset - buffer_size (fs_tx fs)) else send_offset in
    let fs := fs <| tx_next_seq := u32 (tx_next_seq fs + len) |>
                 <| tx_sent := u32 (tx_sent fs + len) |> in
    fin ← (if has_all (rx_flags fs) FLEXNIC_PL_FLOWST_TXFIN then
             enq ← rq_nbytes_enqueued (fs_tx fs); mret (enq >? 0)
           else mret false);
    len ← (if fin then _ ← c_assert (len >? 0); mret (u32 (len - 1)) else mret len);
    c ← flow_tx_segment c nbh p fs tx_seq ack rx_wnd (u16 len) (u32 send_offset)
          (tx_next_ts fs) ts fin;
    mret (0, fs, c).

(** [ring_ok] is whether the forwarding ring of the other core takes the flow. *)
Definition fast_flows_qman (m : fp_mem) (c : dataplane_context) (queue nbh : Z) (p : pkt_tcp)
  (ts : Z) (ring_ok : bool) : outcome (Z * fp_mem * dataplane_context) :=
  let flow_id := queue in
  fs ← get_flow m flow_id;
  fs ← fs_lock fs;
  match flow_group_steering m !! Z.to_nat (flow_group fs) with
  | None => Stop OutOfBounds
  | Some new_core =>
      if negb (new_core =? ctx_id c) then
        if negb ring_ok then Stop Aborted
        else
          let c := c <| fwd := fwd c ++ [(new_core, flow_id)] |> in
          c ← qman_set_or_abort c flow_id 0 0 0
                (Z.lor (Z.lor QMAN_SET_RATE QMAN_SET_MAXCHUNK) QMAN_SET_AVAIL);
          let c := c <| notified := notified c ++ [new_core] |> in
          mret (-1, put_flow m flow_id (fs_unlock fs), c)
      else
        '(ret, fs, c) ← fast_flows_qman_send c fs nbh p ts;
        mret (ret, put_flow m flow_id (fs_unlock fs), c)
  end.

(** The flow is given by its index in [flowst]; [flow_id] is a [uint16_t]. *)
Definition fast_flows_qman_fwd (m : fp_mem) (c : dataplane_context) (idx : Z)
  : outcome (Z * fp_mem * dataplane_context) :=
  let flow_id := u16 idx in
  fs ← get_flow m idx;
  fs ← fs_lock fs;
  avail ← tcp_txavail fs None;
  c ← qman_set_or_abort c flow_id (tx_rate fs) avail TCP_MSS
        (Z.lor (Z.lor QMAN_SET_RATE QMAN_SET_MAXCHUNK) QMAN_SET_AVAIL);
  mret (0, put_flow m idx (fs_unlock fs), c).

(** ** Receiving *)

(** One iteration of [fast_flows_packet_parse]: the option offset when the packet
    stays on the fast path. Every operand of the [|] chain is evaluated. *)
Definition fast_flows_packet_parse (p : pkt_tcp) (len : Z) : outcome (option Z) :=
  '(rv, ts) ← tcp_parse_options p len;
  let cond :=
    (len <? SIZEOF_PKT_TCP)
    || negb (eth_type (p_eth p) =? ETH_TYPE_IP)
    || negb (ip_proto (p_ip p) =? IP_PROTO_TCP)
    || negb (IPH_V (p_ip p) =? 4)
    || negb (IPH_HL (p_ip p) =? 5)
    || (TCPH_HDRLEN (p_tcp p) <? 5)
    || (len <? u64 (ip_len (p_ip p) + SIZEOF_ETH_HDR))
    || negb (rv =? 0)
    || bool_decide (ts = None) in
  mret (if cond then None else ts).

(** The offset of the payload from the start of the packet, and its length. *)
Definition packet_payload (p : pkt_tcp) : Z * Z :=
  let tcp_extra_hlen := u16 ((TCPH_HDRLEN (p_tcp p) - 5) * 4) in
  (SIZEOF_PKT_TCP + tcp_extra_hlen,
   u32 (ip_len (p_ip p) - (SIZEOF_IP_HDR + SIZEOF_TCP_HDR + tcp_extra_hlen))).

(** [Some no_permanent_sp] when the packet goes to the slow path. *)
Definition packet_slowpath (fs : flowst) (p : pkt_tcp) : option bool :=
  let flags := TCPH_FLAGS (p_tcp p) in
  if has_any (rx_flags fs) FLEXNIC_PL_FLOWST_SLOWPATH then Some false
  else if has_any flags (Z.lnot (Z.lor (Z.lor (Z.lor (Z.lor TCP_ACK TCP_PSH) TCP_ECE) TCP_CWR) TCP_FIN))
       then Some (has_any flags TCP_SYN)
  else None.

(** [rq_try_dequeue(fs->tx, NULL, n)], whose failure is fatal. *)
Definition packet_dequeue (fs : flowst) (n : Z) : outcome flowst :=
  '(rv, _, q) ← rq_try_dequeue (fs_tx fs) false n;
  if negb (rv =? 0) then
    _ ← c_assert (rv <? 0); Stop Aborted
  else mret (fs <| fs_tx := q |>).

(** The acknowledgement: whether to [goto unlock], the flow, [tx_bump]. *)
Definition packet_ack (fs : flowst) (p : pkt_tcp) (orig_payload : Z)
  : outcome (bool * flowst * Z) :=
  let flags := TCPH_FLAGS (p_tcp p) in
  if has_all flags TCP_ACK then
    let fs := fs <| cnt_rx_acks := u16 (cnt_rx_acks fs + 1) |> in
    r ← tcp_valid_rxack fs (tcp_ackno (p_tcp p));
    match r with
    | None => mret (false, fs, 0)
    | Some tx_bump =>
        let fs := fs <| cnt_rx_ack_bytes := u32 (cnt_rx_ack_bytes fs + tx_bump) |> in
        let fs := if has_all flags TCP_ECE
                  then fs <| cnt_rx_ecn_bytes := u32 (cnt_rx_ecn_bytes fs + tx_bump) |> else fs in
        fs ← (if tx_bump <=? tx_sent fs then
                fs ← packet_dequeue fs tx_bump;
                mret (fs <| tx_sent := u32 (tx_sent fs - tx_bump) |>)
              else
                let fs := fs <| tx_next_seq := u32 (tx_next_seq fs + (tx_bump - tx_sent fs)) |> in
                fs ← packet_dequeue fs (u32 (tx_bump - tx_sent fs));
                mret (fs <| tx_sent := 0 |>));
        if negb (tx_bump =? 0) then mret (false, fs <| rx_dupack_cnt := 0 |>, tx_bump)
        else if orig_payload =? 0 then
          let fs := fs <| rx_dupack_cnt := u32 (rx_dupack_cnt fs + 1) |> in
          if rx_dupack_cnt fs >=? 3 then mret (true, flow_reset_retransmit fs, tx_bump)
          else mret (false, fs, tx_bump)
        else mret (false, fs, tx_bump)
    end
  else mret (false, fs, 0).

(** An out-of-order segment, already trimmed, with payload; [payload] is the
    memory at the payload pointer. *)
Definition packet_ooo (fs : flowst) (seq payload_bytes : Z) (payload : list Z) : outcome flowst :=
  if rx_ooo_len fs =? 0 then
    let fs := fs <| rx_ooo_start := seq |> <| rx_ooo_len := payload_bytes |> in
    flow_rx_seq_write fs seq (u16 payload_bytes) payload
  else if u32 (seq + payload_bytes) =? rx_ooo_start fs then
    let fs := fs <| rx_ooo_start := seq |> <| rx_ooo_len := u32 (rx_ooo_len fs + payload_bytes) |> in
    flow_rx_seq_write fs seq (u16 payload_bytes) payload
  else if u32 (rx_ooo_start fs + rx_ooo_len fs) =? seq then
    let fs := fs <| rx_ooo_len := u32 (rx_ooo_len fs + payload_bytes) |> in
    flow_rx_seq_write fs seq (u16 payload_bytes) payload
  else mret fs.

(** The RTT estimate and the remote window, from an in-order segment. *)
Definition packet_rtt (fs : flowst) (p : pkt_tcp) (tsval tsecr ts : Z) : flowst :=
  let fs := fs <| tx_next_ts := tsval |> in
  let fs :=
    if has_all (TCPH_FLAGS (p_tcp p)) TCP_ACK && negb (tsecr =? 0) then
      let rtt := u32 (ts - tsecr) in
      if rtt <? TCP_MAX_RTT then
        if negb (rtt_est fs =? 0) then fs <| rtt_est := u32 (rtt_est fs * 7 + rtt) / 8 |>
        else fs <| rtt_est := rtt |>
      else fs
    else fs in
  fs <| rx_remote_avail := tcp_wnd (p_tcp p) |>.

Section Link.
Context {L : Type} `{RdmaLink L}.

(** [rq_try_enqueue(fs->rx, NULL, n)], with what happens when it fails. *)
Definition packet_enqueue (fs : flowst) (l : L) (n : Z) (fatal : bool) : outcome (flowst * L) :=
  '(rv, q, l) ← rq_try_enqueue (fs_rx fs) l None n;
  let fs := fs <| fs_rx := q |> in
  if negb (rv =? 0) then
    _ ← c_assert (rv <? 0);
    if fatal then Stop Aborted else mret (fs, l)
  else mret (fs, l).

(** After in-order data: the out-of-order interval may have become superfluous,
    or contiguous. *)
Definition packet_ooo_merge (fs : flowst) (l : L) (rx_bump : Z) : outcome (flowst * L * Z) :=
  if rx_ooo_len fs =? 0 then mret (fs, l, rx_bump)
  else
    tr ← tcp_trim_rxbuf fs (rx_ooo_start fs) (rx_ooo_len fs);
    match tr with
    | None => mret (fs <| rx_ooo_len := 0 |>, l, rx_bump)
    | Some (trim_start, trim_end) =>
        let fs := fs <| rx_ooo_start := u32 (rx_ooo_start fs + trim_start) |>
                     <| rx_ooo_len := u32 (rx_ooo_len fs - (trim_start + trim_end)) |> in
        if (rx_ooo_len fs >? 0) && (rx_ooo_start fs =? rx_next_seq fs) then
          '(fs, l) ← packet_enqueue fs l (rx_ooo_len fs) true;
          mret (fs <| rx_next_seq := u32 (rx_next_seq fs + rx_ooo_len fs) |> <| rx_ooo_len := 0 |>,
                l, u32 (rx_bump + rx_ooo_len fs))
        else mret (fs, l, rx_bump)
    end.

(** The payload of an in-order segment goes to the receive queue. *)
Definition packet_accept (fs : flowst) (l : L) (payload_bytes : Z) (payload : list Z)
  : outcome (flowst * L * Z) :=
  empty ← rq_nbytes_empty (fs_rx fs);
  _ ← c_assert (empty >=? payload_bytes);
  fs ← flow_rx_write fs (u32 (tx_off (fs_rx fs))) (u16 payload_bytes) payload;
  '(fs, l) ← packet_enqueue fs l payload_bytes false;
  let fs := fs <| rx_next_seq := u32 (rx_next_seq fs + payload_bytes) |> in
  packet_ooo_merge fs l payload_bytes.

(** The FIN of an in-order segment: the flow and [fin_bump]. *)
Definition packet_fin (fs : flowst) (p : pkt_tcp) (orig_payload : Z) : flowst * bool :=
  if has_all (TCPH_FLAGS (p_tcp p)) TCP_FIN
     && negb (has_any (rx_flags fs) FLEXNIC_PL_FLOWST_RXFIN) then
    if (rx_next_seq fs =? u32 (tcp_seqno (p_tcp p) + orig_payload)) && (rx_ooo_len fs =? 0) then
      (fs <| rx_flags := Z.lor (rx_flags fs) FLEXNIC_PL_FLOWST_RXFIN |>
          <| rx_next_seq := u32 (rx_next_seq fs + 1) |>, true)
    else (fs, false)
  else (fs, false).

(** From the trimming of the segment to [unlock:]. The result is the flow, the
    link, [rx_bump], [fin_bump] and [trigger_ack]. *)
Definition packet_data (fs : flowst) (l : L) (p : pkt_tcp) (ts_opt ts : Z)
  : outcome (flowst * L * Z * bool * bool) :=
  let '(payload_off, orig_payload) := packet_payload p in
  let seq := tcp_seqno (p_tcp p) in
  tr ← tcp_trim_rxbuf fs seq orig_payload;
  match tr with
  | None => mret (fs, l, 0, false, true)
  | Some (trim_start, trim_end) =>
      let payload_bytes := u32 (orig_payload - (trim_start + trim_end)) in
      let payload_off := u32 (payload_off + trim_start) in
      let seq := u32 (seq + trim_start) in
      let payload := drop (Z.to_nat (payload_off - SIZEOF_PKT_TCP)) (p_rest p) in
      if negb (seq =? rx_next_seq fs) then
        if payload_bytes =? 0 then mret (fs, l, 0, false, true)
        else fs ← packet_ooo fs seq payload_bytes payload; mret (fs, l, 0, false, true)
      else
        let trigger_ack := orig_payload >? 0 in
        tsval ← ts_val (p_rest p) ts_opt;
        tsecr ← ts_ecr (p_rest p) ts_opt;
        let fs := packet_rtt fs p tsval tsecr ts in
        if has_all (rx_flags fs) FLEXNIC_PL_FLOWST_RXFIN && (payload_bytes >? 0)
        then mret (fs, l, 0, false, trigger_ack)
        else
          '(fs, l, rx_bump) ←
            (if payload_bytes >? 0 then packet_accept fs l payload_bytes payload
             else mret (fs, l, 0));
          let '(fs, fin_bump) := packet_fin fs p orig_payload in
          mret (fs, l, rx_bump, fin_bump, trigger_ack || (payload_bytes >? 0) || fin_bump)
  end.

(** From [unlock:] to the end: notification, queue manager, ACK. [flow_id] is
    the truncated index. *)
Definition packet_finish (c : dataplane_context) (fs : flowst) (l : L) (p : pkt_tcp)
  (flow_id old_avail rx_pos rx_bump tx_bump : Z) (fin_bump trigger_ack : bool)
  (nbh off ts_opt ts : Z) : outcome (flowst * L * dataplane_context) :=
  '(fs, l, c) ←
    (if negb (rx_bump =? 0) || negb (tx_bump =? 0) || fin_bump then
       let type := if fin_bump
                   then Z.lor FLEXTCP_PL_ARX_CONNUPDATE (Z.shiftl FLEXTCP_PL_ARX_FLRXDONE 8)
                   else FLEXTCP_PL_ARX_CONNUPDATE in
       '(n_flushed, q, l) ← rq_nflush (fs_rx fs) l rx_bump;
       let fs := fs <| fs_rx := q |> in
       if n_flushed <? 0 then Stop Aborted
       else
         _ ← c_assert (n_flushed =? rx_bump);
         c ← arx_cache_add c (db_id fs) (opaque fs) rx_bump rx_pos tx_bump type;
         mret (fs, l, c)
     else mret (fs, l, c));
  new_avail ← tcp_txavail fs None;
  c ← (if new_avail >? old_avail then
         qman_set_or_abort c flow_id (tx_rate fs) (u32 (new_avail - old_avail)) TCP_MSS
           (Z.lor (Z.lor QMAN_SET_RATE QMAN_SET_MAXCHUNK) QMAN_ADD_AVAIL)
       else mret c);
  c ← (if trigger_ack then
         empty ← rq_nbytes_empty (fs_rx fs);
         flow_tx_ack c (tx_next_seq fs) (rx_next_seq fs) (u32 empty) (tx_next_ts fs) ts nbh p off ts_opt
       else mret c);
  mret (fs, l, c).

(** [fast_flows_packet]: the flow at [idx], the received packet [p] with its
    timestamp option at [ts_opt]; 1 or 0 says whether the buffer was used for an
    ACK, -1 that the packet goes to the slow path. *)
Definition fast_flows_packet (m : fp_mem) (c : dataplane_context) (l : L) (nbh off : Z) (p : pkt_tcp)
  (idx ts_opt ts : Z) : outcome (Z * fp_mem * dataplane_context * L) :=
  let flow_id := u16 idx in
  let orig_payload := snd (packet_payload p) in
  fs ← get_flow m idx;
  fs ← fs_lock fs;
  match packet_slowpath fs p with
  | Some no_permanent_sp =>
      let fs := if no_permanent_sp then fs
                else fs <| rx_flags := Z.lor (rx_flags fs) FLEXNIC_PL_FLOWST_SLOWPATH |> in
      mret (-1, put_flow m idx (fs_unlock fs), c, l)
  | None =>
      old_avail ← tcp_txavail fs None;
      let rx_pos := u32 (tx_off (fs_rx fs)) in
      '(unlock, fs, tx_bump) ← packet_ack fs p orig_payload;
      '(fs, l, rx_bump, fin_bump, trigger_ack) ←
        (if unlock : bool then mret (fs, l, 0, false, orig_payload >? 0)
         else packet_data fs l p ts_opt ts);
      '(fs, l, c) ← packet_finish c fs l p flow_id old_avail rx_pos rx_bump tx_bump
                      fin_bump trigger_ack nbh off ts_opt ts;
      mret (c_bool trigger_ack, put_flow m idx (fs_unlock fs), c, l)
  end.

End Link.

(** ** Application bumps *)

(** A bump that is older than the last one, in the 16-bit sequence space. *)
Definition bump_out_of_order (bump_seq fs_seq : Z) : bool :=
  ((bump_seq >=? fs_seq) && (bump_seq - fs_seq >? UINT16_MAX / 2))
  || ((bump_seq <? fs_seq)
      && ((fs_seq <? UINT16_MAX / 4 * 3) || (bump_seq >? UINT16_MAX / 4))).

Definition fast_flows_bump (m : fp_mem) (c : dataplane_context)
  (flow_id bump_seq_ rx_bump tx_bump flags nbh : Z) (p : pkt_tcp) (ts : Z)
  : outcome (Z * fp_mem * dataplane_context) :=
  fs ← get_flow m flow_id;
  fs ← fs_lock fs;
  if bump_out_of_order bump_seq_ (bump_seq fs) then mret (-1, put_flow m flow_id (fs_unlock fs), c)
  else
    let fs := fs <| bump_seq := bump_seq_ |> in
    let txfin := has_any (rx_flags fs) FLEXNIC_PL_FLOWST_TXFIN in
    let done_ := has_all flags FLEXTCP_PL_ATX_FLTXDONE in
    if done_ && negb txfin && (tx_bump =? 0) then mret (-1, put_flow m flow_id (fs_unlock fs), c)
    else
      let tx_bump := if txfin && negb (tx_bump =? 0) then 0 else tx_bump in
      tx_avail ← rq_nbytes_enqueued (fs_tx fs);
      old_avail ← tcp_txavail fs (Some (u32 (tx_avail - tx_bump)));
      new_avail ← tcp_txavail fs None;
      let fs := if done_ && negb txfin
                then fs <| rx_flags := Z.lor (rx_flags fs) FLEXNIC_PL_FLOWST_TXFIN |> else fs in
      c ← (if old_avail <? new_avail then
             qman_set_or_abort c flow_id (tx_rate fs) (u32 (new_avail - old_avail)) TCP_MSS
               (Z.lor (Z.lor QMAN_SET_RATE QMAN_SET_MAXCHUNK) QMAN_ADD_AVAIL)
           else mret c);
      empty ← rq_nbytes_empty (fs_rx fs);
      if (new_avail =? 0) && (empty =? 0) then
        c ← flow_tx_segment c nbh p fs (tx_next_seq fs) (rx_next_seq fs) (u32 empty) 0 0
              (tx_next_ts fs) ts false;
        mret (0, put_flow m flow_id (fs_unlock fs), c)
      else mret (-1, put_flow m flow_id (fs_unlock fs), c).

(** ** Retransmission on request of the slow path *)
Definition fast_flows_retransmit (m : fp_mem) (c : dataplane_context) (flow_id : Z)
  : outcome (fp_mem * dataplane_context) :=
  fs ← get_flow m flow_id;
  fs ← fs_lock fs;
  old_avail ← tcp_txavail fs None;
  if tx_sent fs =? 0 then mret (put_flow m flow_id (fs_unlock fs), c)
  else
    let fs := flow_reset_retransmit fs in
    new_avail ← tcp_txavail fs None;
    c ← (if new_avail >? old_avail then
           qman_set_or_abort c flow_id (tx_rate fs) (u32 (new_avail - old_avail)) TCP_MSS
             (Z.lor (Z.lor QMAN_SET_RATE QMAN_SET_MAXCHUNK) QMAN_ADD_AVAIL)
         else mret c);
    mret (put_flow m flow_id (fs_unlock fs), c).

End Packets.

(** ** Flow lookup *)
Section Lookup.

(** [rte_hash_crc_4byte] and [rte_hash_crc_8byte] of DPDK. *)
Context (crc4 : Z -> Z -> Z) (crc8 : Z -> Z -> Z).

Definition flow_hash (local_ip remote_ip local_port remote_port : Z) : Z :=
  crc4 (u32 (Z.lor (bswap16 local_port) (Z.shiftl (bswap16 remote_port) 16)))
       (crc8 (Z.lor (bswap32 local_ip) (Z.shiftl (bswap32 remote_ip) 32)) 0).

(** One probe of the bucket: the flow index of a live entry with hash [h]. *)
Definition probe (ht : gmap Z flowhte) (h j : Z) : option Z :=
  let e := hte_at ht (u32 (h + j) mod FLEXNIC_PL_FLOWHT_ENTRIES) in
  let ffid := hte_flow_id e in
  if negb (has_any ffid FLEXNIC_PL_FLOWHTE_VALID) || negb (hte_flow_hash e =? h) then None
  else Some (Z.land ffid (Z.shiftl 1 FLEXNIC_PL_FLOWHTE_POSSHIFT - 1)).

Definition fs_matches (fs : flowst) (p : pkt_tcp) : bool :=
  (local_ip fs =? ip_dest (p_ip p)) && (remote_ip fs =? ip_src (p_ip p))
  && (local_port fs =? tcp_dest (p_tcp p)) && (remote_port fs =? tcp_src (p_tcp p)).

(** The probes [j, ..., j + n - 1]. *)
Fixpoint probe_from (m : fp_mem) (h : Z) (p : pkt_tcp) (n : nat) (j : Z) : outcome (option Z) :=
  match n with
  | O => mret None
  | S n =>
      match probe (flowht m) h j with
      | None => probe_from m h p n (j + 1)
      | Some fid =>
          fs ← get_flow m fid;
          if fs_matches fs p then mret (Some fid) else probe_from m h p n (j + 1)
      end
  end.

(** One packet of [fast_flows_packet_fss]. *)
Definition fast_flows_packet_fss (m : fp_mem) (p : pkt_tcp) : outcome (option Z) :=
  let h := flow_hash (ip_dest (p_ip p)) (ip_src (p_ip p)) (tcp_dest (p_tcp p)) (tcp_src (p_tcp p)) in
  probe_from m h p (Z.to_nat FLEXNIC_PL_FLOWHT_NBSZ) 0.

End Lookup.
