(* ===== verification/FlowRx.v ===== *)
(** * Correctness of the receive path (tas_nic/fast/fast_flows.c)

    Whatever segments of a byte stream arrive, in order or not, overlapping or
    repeated, the bytes the fast path puts in the receive queue are the stream's,
    in order and without a gap. *)
From S2P Require Import Prelude RdmaQueue Packets FlowState TcpCommon Qman FastCtx FastFlows.

#[local] Open Scope Z_scope.

(** ** Specification *)

(** The cell of ring [b] that lies [k] after [base]. *)
Definition cell (b : list Z) (base k : Z) : Z := b !!! Z.to_nat ((base + k) mod Z.of_nat (length b)).

(** The free space of the receive queue when [u] bytes are in use. *)
Definition rx_space (fs : flowst) (u : Z) : Z := buffer_size (fs_rx fs) - RDMA_QUEUE_PAD - u.

(** The receive state of a flow whose peer sends the stream [S], byte [i] with
    sequence number [isn + i] modulo 2^32: the bytes before [N] were received,
    the last [u] of them are in the queue, and the out-of-order interval, if any,
    holds the bytes it claims to hold, inside of the free space. *)
Record rx_inv (S : Z -> Z) (isn : Z) (fs : flowst) (N u : Z) : Prop := {
  ri_queue : producer (fs_rx fs) u;
  ri_next : rx_next_seq fs = u32 (isn + N);
  ri_bytes : forall i, N - u <= i < N ->
    cell (buffer (fs_rx fs)) (tx_off (fs_rx fs)) (i - N) = S i;
  ri_ooo : 0 <= rx_ooo_len fs /\ (rx_ooo_len fs <> 0 -> exists O,
    rx_ooo_start fs = u32 (isn + O) /\ N <= O /\ O + rx_ooo_len fs <= N + rx_space fs u /\
    forall i, O <= i < O + rx_ooo_len fs ->
      cell (buffer (fs_rx fs)) (tx_off (fs_rx fs)) (i - N) = S i);
}.

(** The packet [p] is a segment of the stream: its payload is [S] from byte [A]. *)
Record segment_of (S : Z -> Z) (isn : Z) (p : pkt_tcp) (A : Z) : Prop := {
  sg_seq : tcp_seqno (p_tcp p) = u32 (isn + A);
  sg_len : 0 <= snd (packet_payload p) < 65536;
  sg_off : SIZEOF_PKT_TCP <= fst (packet_payload p) < 65536;
  sg_bytes : forall k, 0 <= k < snd (packet_payload p) ->
    p_rest p !! Z.to_nat (fst (packet_payload p) - SIZEOF_PKT_TCP + k) = Some (S (A + k));
}.

(** ** Ring cells *)
Lemma mod_eq_shift len a b x : 0 < len -> a mod len = b mod len -> (a + x) mod len = (b + x) mod len.
Proof. intros ? E. rewrite <- (Z.add_mod_idemp_l a), E, Z.add_mod_idemp_l by lia. done. Qed.

Lemma mod_inj_range len x k j :
  0 <= k < len -> 0 <= j < len -> (x + k) mod len = (x + j) mod len -> k = j.
Proof.
  intros Hk Hj E. destruct (Z.lt_trichotomy k j) as [?|[?|?]]; [exfalso|done|exfalso].
  - apply (ring_cell_disjoint len x k (k + 1) (j - k - 1) (j - k)); try lia.
    rewrite E. f_equal. lia.
  - apply (ring_cell_disjoint len x j (j + 1) (k - j - 1) (k - j)); try lia.
    rewrite <- E. f_equal. lia.
Qed.

Lemma mem_write_cells b pos src b' base a k :
  mem_write b pos src = Ok b' -> pos mod Z.of_nat (length b) = (base + a) mod Z.of_nat (length b) ->
  0 <= a -> a + Z.of_nat (length src) <= Z.of_nat (length b) -> 0 <= k < Z.of_nat (length b) ->
  cell b' base k =
    if (a <=? k) && (k <? a + Z.of_nat (length src)) then src !!! Z.to_nat (k - a) else cell b base k.
Proof.
  intros Hw Hpos Ha Hn Hk. pose proof (mem_write_length _ _ _ _ Hw) as Hlen.
  assert (0 <= pos /\ pos + Z.of_nat (length src) <= Z.of_nat (length b)) as [? ?].
  { unfold mem_write in Hw. inv_ok. bprop. lia. }
  unfold cell. rewrite Hlen. set (len := Z.of_nat (length b)) in *.
  pose proof (Z.mod_pos_bound (base + k) len ltac:(lia)) as Hb.
  rewrite (mem_write_lookup _ _ _ _ _ Hw) by lia.
  destruct ((a <=? k) && (k <? a + Z.of_nat (length src))) eqn:Hin.
  - bprop. assert ((base + k) mod len = pos + (k - a)) as ->.
    { replace (base + k) with (base + a + (k - a)) by lia.
      rewrite <- (mod_eq_shift len pos (base + a)) by (done || lia). apply Z.mod_small. lia. }
    rewrite (proj2 (Z.leb_le _ _)), (proj2 (Z.ltb_lt _ _)) by lia. simpl. do 2 f_equal. lia.
  - destruct ((pos <=? (base + k) mod len) && ((base + k) mod len <? pos + Z.of_nat (length src)))
      eqn:Hin'; [exfalso|done]. bprop.
    set (j := (base + k) mod len - pos).
    assert (k = a + j) as Hkj; [|apply andb_false_iff in Hin as [?|?]; bprop; lia].
    apply (mod_inj_range len base); [lia|lia|].
    rewrite Z.add_assoc, <- (mod_eq_shift len pos (base + a)) by (done || lia).
    replace (pos + j) with ((base + k) mod len) by (unfold j; lia). by rewrite Z.mod_mod by lia.
Qed.

Lemma lookup_total_take_Z (l : list Z) n j :
  0 <= j < n -> take (Z.to_nat n) l !!! Z.to_nat j = l !!! Z.to_nat j.
Proof. intros. rewrite !list_lookup_total_alt, lookup_take_lt by lia. done. Qed.

(** ** Writing to the receive ring *)
Section Write.
Context (fs : flowst) (base a len pos : Z) (src : list Z).
Let bs := buffer_size (fs_rx fs).
Let b := buffer (fs_rx fs).
Hypothesis (Hbuf : Z.of_nat (length b) = bs) (Hbs : 0 < bs < 2147483648).
Hypothesis (Ha : 0 <= a) (Hlen : 0 <= len) (Hfit : a + len <= bs).
Hypothesis (Hsrc : len <= Z.of_nat (length src)).
Hypothesis (Hpos : 0 <= pos <= bs).
Hypothesis (Hmod : pos mod bs = (base + a) mod bs).

Lemma flow_rx_write_cells :
  exists b', flow_rx_write fs pos len src = Ok (set_rx_buffer fs b') /\ length b' = length b /\
    forall k, 0 <= k < bs ->
      cell b' base k = if (a <=? k) && (k <? a + len) then src !!! Z.to_nat (k - a) else cell b base k.
Proof using Hbuf Hbs Ha Hlen Hfit Hsrc Hpos Hmod.
  unfold flow_rx_write. fold bs b. rewrite u32_small by lia.
  destruct (Z.leb_spec (pos + len) bs) as [Hl|Hw].
  - rewrite (mem_read_Ok src 0 len) by lia. osimpl. rewrite drop_0.
    assert (Z.of_nat (length (take (Z.to_nat len) src)) = len) as Hlt by (rewrite length_take; lia).
    destruct (mem_write b pos (take (Z.to_nat len) src)) as [b'|] eqn:Hwr;
      [|rewrite mem_write_Ok in Hwr by lia; done].
    exists b'. split; [done|]. split; [by eapply mem_write_length|]. intros k Hk.
    rewrite (mem_write_cells _ _ _ _ base a k Hwr) by (rewrite ?Hbuf, ?Hlt; done || lia).
    rewrite Hlt. case_match eqn:E; [|done]. bprop. apply lookup_total_take_Z. lia.
  - rewrite (u32_small (bs - pos)) by lia. set (part := bs - pos).
    rewrite (mem_read_Ok src 0 part), (mem_read_Ok src part) by (rewrite ?u32_small; lia).
    rewrite (u32_small (len - part)) by lia. osimpl. rewrite drop_0.
    set (s1 := take (Z.to_nat part) src). set (s2 := take _ (drop _ src)).
    assert (Z.of_nat (length s1) = part) as Hl1 by (unfold s1; rewrite length_take; lia).
    assert (Z.of_nat (length s2) = len - part) as Hl2
      by (unfold s2; rewrite length_take, length_drop; lia).
    destruct (mem_write b pos s1) as [b1|] eqn:Hw1; [|rewrite mem_write_Ok in Hw1 by lia; done].
    pose proof (mem_write_length _ _ _ _ Hw1) as Hb1. osimpl.
    destruct (mem_write b1 0 s2) as [b2|] eqn:Hw2; [|rewrite mem_write_Ok in Hw2 by lia; done].
    pose proof (mem_write_length _ _ _ _ Hw2) as Hb2.
    exists b2. split; [done|]. split; [lia|]. intros k Hk.
    rewrite (mem_write_cells _ _ _ _ base (a + part) k Hw2) by
      (rewrite ?Hb1, ?Hbuf, ?Hl2; try lia;
       rewrite Z.add_assoc, <- (mod_eq_shift bs pos (base + a)) by (done || lia);
       unfold part; rewrite Z.mod_0_l by lia; replace (pos + (bs - pos)) with bs by lia;
       by rewrite Z.mod_same by lia).
    rewrite (mem_write_cells _ _ _ _ base a k Hw1) by (rewrite ?Hbuf, ?Hl1; done || lia).
    rewrite Hl1, Hl2.
    replace (a + part + (len - part)) with (a + len) by lia.
    destruct (Z.leb_spec (a + part) k), (Z.ltb_spec k (a + len)), (Z.leb_spec a k),
      (Z.ltb_spec k (a + part)); simpl; try (exfalso; unfold part in *; lia); try done.
    + unfold s2. rewrite lookup_total_take_Z by lia.
      rewrite !list_lookup_total_alt, lookup_drop. do 2 f_equal. lia.
    + unfold s1. apply lookup_total_take_Z. lia.
Qed.

End Write.

Lemma flow_rx_seq_write_cells fs seq len d src u :
  producer (fs_rx fs) u -> 0 <= d -> 0 <= len -> d + len <= rx_space fs u ->
  len <= Z.of_nat (length src) -> u32 (seq - rx_next_seq fs) = d ->
  exists b', flow_rx_seq_write fs seq len src = Ok (set_rx_buffer fs b') /\
    length b' = length (buffer (fs_rx fs)) /\
    forall k, 0 <= k < buffer_size (fs_rx fs) ->
      cell b' (tx_off (fs_rx fs)) k =
        if (d <=? k) && (k <? d + len) then src !!! Z.to_nat (k - d)
        else cell (buffer (fs_rx fs)) (tx_off (fs_rx fs)) k.
Proof.
  intros P Hd Hl Hfit Hsrc Hdiff. unfold flow_rx_seq_write. rewrite Hdiff.
  pose proof (producer_tx_range _ _ P) as Htx. pose proof (pr_bs _ _ P) as Hbs.
  pose proof (pr_used _ _ P) as Hu. unfold rx_space, RDMA_QUEUE_PAD in *.
  rewrite (u32_small (_ + d)) by lia. rewrite Z.geb_leb.
  destruct (Z.leb_spec (buffer_size (fs_rx fs)) (tx_off (fs_rx fs) + d)) as [H1|H1].
  - rewrite u32_small by lia. apply flow_rx_write_cells; try lia; [apply P|].
    replace (tx_off (fs_rx fs) + d - buffer_size (fs_rx fs))
      with (tx_off (fs_rx fs) + d + (-1) * buffer_size (fs_rx fs)) by lia. apply Z_mod_plus_full.
  - apply flow_rx_write_cells; try lia. apply P.
Qed.

(** ** Sequence numbers *)
Lemma u32_u32_add a n : u32 (u32 a + n) = u32 (a + n).
Proof. unfold u32. apply Z.add_mod_idemp_l. lia. Qed.

Lemma u32_seq_eq a b : u32 a = u32 b -> -4294967296 < a - b < 4294967296 -> a = b.
Proof.
  unfold u32. intros E Hab. apply Z.cong_iff_ex in E as [k Hk]. lia.
Qed.

Lemma i32_seq_diff a b : -2147483648 <= a - b < 2147483648 -> i32 (u32 a - u32 b) = a - b.
Proof.
  intros Hab. rewrite <- (i32_small (a - b)) by lia. unfold i32. f_equal.
  all: unfold u32; by rewrite <- Zminus_mod.
Qed.

Lemma u32_seq_diff a b : 0 <= a - b < 4294967296 -> u32 (u32 a - u32 b) = a - b.
Proof. intros. unfold u32. rewrite <- Zminus_mod. by apply Z.mod_small. Qed.

(** ** The cells of a queue relative to its tail *)
Lemma cell_wrap b base k : cell b base (k + Z.of_nat (length b)) = cell b base k.
Proof.
  unfold cell. do 2 f_equal. rewrite Z.add_assoc, <- (Z.mul_1_l (Z.of_nat (length b))) at 1.
  apply Z_mod_plus_full.
Qed.

Lemma cell_adv b bs base n k :
  Z.of_nat (length b) = bs -> 0 < bs -> cell b (adv bs base n) k = cell b base (n + k).
Proof.
  intros Hl Hb. unfold cell. rewrite Hl. do 2 f_equal.
  rewrite (mod_eq_shift bs (adv bs base n) (base + n)); [f_equal; lia|lia|by apply adv_mod].
Qed.

(** Writing the stream's bytes from [A] on keeps every cell that holds a byte of
    the stream, and puts the written ones in place. *)
Section StreamWrite.
Context (S : Z -> Z) (N u : Z) (fs : flowst) (A len : Z) (src b' : list Z).
Let b := buffer (fs_rx fs).
Let tail := tx_off (fs_rx fs).
Hypothesis (P : producer (fs_rx fs) u) (HA : N <= A) (Hlen : 0 <= len).
Hypothesis (Hfit : A + len <= N + rx_space fs u).
Hypothesis (Hsrc : forall k, 0 <= k < len -> src !! Z.to_nat k = Some (S (A + k))).
Hypothesis (Hb' : length b' = length b).
Hypothesis (Hcells : forall k, 0 <= k < buffer_size (fs_rx fs) ->
  cell b' tail k = if (A - N <=? k) && (k <? A - N + len) then src !!! Z.to_nat (k - (A - N))
                   else cell b tail k).

Lemma stream_written i : A <= i < A + len -> cell b' tail (i - N) = S i.
Proof using All.
  intros Hi. pose proof (pr_bs _ _ P). pose proof (pr_used _ _ P).
  unfold rx_space, RDMA_QUEUE_PAD in *. rewrite Hcells by lia.
  rewrite (proj2 (Z.leb_le _ _)), (proj2 (Z.ltb_lt _ _)) by lia. simpl.
  replace (i - N - (A - N)) with (i - A) by lia.
  apply list_lookup_total_correct. rewrite Hsrc by lia. do 2 f_equal. lia.
Qed.

Lemma stream_kept i :
  N - u <= i < N + rx_space fs u -> cell b tail (i - N) = S i -> cell b' tail (i - N) = S i.
Proof using All.
  intros Hi Hc. pose proof (pr_bs _ _ P) as Hbs. pose proof (pr_used _ _ P). pose proof (pr_buf _ _ P) as Hbuf.
  unfold rx_space, RDMA_QUEUE_PAD in *. fold b in Hbuf.
  destruct (decide (i < N)) as [Hlt|Hge].
  - rewrite <- cell_wrap, Hb', Hbuf. rewrite <- cell_wrap, Hbuf in Hc. rewrite Hcells by lia.
    rewrite (proj2 (Z.ltb_ge _ _)), andb_false_r by lia. done.
  - destruct (decide (A <= i < A + len)); [by apply stream_written|].
    rewrite Hcells by lia. destruct (_ && _) eqn:E; [bprop; lia|done].
Qed.

End StreamWrite.

(** ** Out-of-order segments *)

(** Storing [len] bytes from [A] with the new interval [start, start + ilen),
    every byte of which was written or was in the interval before. *)
Lemma ooo_store S isn fs N u A len payload start ilen :
  rx_inv S isn fs N u -> N < A -> 0 <= len < 65536 -> A + len <= N + rx_space fs u ->
  (forall k, 0 <= k < len -> payload !! Z.to_nat k = Some (S (A + k))) ->
  N <= start -> 0 <= ilen -> start + ilen <= N + rx_space fs u ->
  (forall i, start <= i < start + ilen -> A <= i < A + len \/
     cell (buffer (fs_rx fs)) (tx_off (fs_rx fs)) (i - N) = S i) ->
  exists fs', flow_rx_seq_write (fs <| rx_ooo_start := u32 (isn + start) |> <| rx_ooo_len := ilen |>)
      (u32 (isn + A)) len payload = Ok fs' /\ rx_inv S isn fs' N u /\
    rx_flags fs' = rx_flags fs.
Proof.
  intros [P Hn Hb Ho] HA Hlen Hfit Hpay Hst Hil Hend Hcov.
  match goal with |- context [flow_rx_seq_write ?f _ _ _] => set (fs1 := f) end.
  pose proof (pr_bs _ _ P). pose proof (pr_used _ _ P). unfold rx_space, RDMA_QUEUE_PAD in *.
  assert (len <= Z.of_nat (length payload)) as Hpl.
  { destruct (decide (len = 0)); [lia|]. specialize (Hpay (len - 1) ltac:(lia)).
    apply lookup_lt_Some in Hpay. lia. }
  destruct (flow_rx_seq_write_cells fs1 (u32 (isn + A)) len (A - N) payload u) as
    (b' & -> & Hlen' & Hcells); [done|lia|lia|unfold rx_space, RDMA_QUEUE_PAD; simpl; lia|done| |].
  { simpl. rewrite Hn, u32_seq_diff by lia. lia. }
  exists (set_rx_buffer fs1 b'). split; [done|]. split; [|done].
  assert (forall i, N - u <= i < N + rx_space fs u ->
    cell (buffer (fs_rx fs)) (tx_off (fs_rx fs)) (i - N) = S i ->
    cell b' (tx_off (fs_rx fs)) (i - N) = S i) as Hkeep.
  { intros i. apply (stream_kept S N u fs A len payload b');
      unfold rx_space, RDMA_QUEUE_PAD; simpl in *; auto; lia. }
  split; simpl.
  - destruct P. split; simpl in *; auto. by rewrite Hlen'.
  - done.
  - intros i Hi. apply Hkeep; [unfold rx_space, RDMA_QUEUE_PAD; lia|by apply Hb].
  - split; [done|]. intros _. exists start. split_and!; [done|done|done|].
    intros i Hi. destruct (Hcov i Hi) as [Hw|Hc].
    + apply (stream_written S N u fs A len payload b');
        unfold rx_space, RDMA_QUEUE_PAD; simpl in *; auto; lia.
    + apply Hkeep; [unfold rx_space, RDMA_QUEUE_PAD; lia|done].
Qed.

Lemma packet_ooo_stream S isn fs N u A len payload :
  rx_inv S isn fs N u -> N < A -> 0 < len < 65536 -> A + len <= N + rx_space fs u ->
  (forall k, 0 <= k < len -> payload !! Z.to_nat k = Some (S (A + k))) ->
  exists fs', packet_ooo fs (u32 (isn + A)) len payload = Ok fs' /\ rx_inv S isn fs' N u /\
    rx_flags fs' = rx_flags fs.
Proof.
  intros I HA Hlen Hfit Hpay. pose proof I as [P Hn Hb [Ho0 Ho]].
  pose proof (pr_bs _ _ P). pose proof (pr_used _ _ P). unfold packet_ooo.
  rewrite (u16_small len) by lia. unfold rx_space, RDMA_QUEUE_PAD in *.
  destruct (Z.eqb_spec (rx_ooo_len fs) 0) as [Hz|Hnz].
  { apply (ooo_store S isn fs N u A len payload A len); unfold rx_space, RDMA_QUEUE_PAD; auto; lia. }
  destruct (Ho Hnz) as (O & HO & HNO & HOend & HOb). rewrite u32_u32_add, HO.
  destruct (Z.eqb_spec (u32 (isn + A + len)) (u32 (isn + O))) as [Heq|_].
  { apply u32_seq_eq in Heq; [|lia]. assert (O = A + len) as -> by lia. simpl.
    rewrite (u32_small (rx_ooo_len fs + len)) by lia.
    apply (ooo_store S isn fs N u A len payload A (rx_ooo_len fs + len));
      unfold rx_space, RDMA_QUEUE_PAD; auto; try lia.
    intros i Hi. destruct (decide (i < A + len)); [left; lia|right; apply HOb; lia]. }
  rewrite u32_u32_add.
  destruct (Z.eqb_spec (u32 (isn + O + rx_ooo_len fs)) (u32 (isn + A))) as [Heq|_].
  { apply u32_seq_eq in Heq; [|lia]. assert (O + rx_ooo_len fs = A) as Heq' by lia.
    rewrite (u32_small (rx_ooo_len fs + len)) by lia.
    destruct (ooo_store S isn fs N u A len payload O (rx_ooo_len fs + len)) as (fs' & Hw & ?);
      unfold rx_space, RDMA_QUEUE_PAD; auto; try lia.
    - intros i Hi. destruct (decide (i < A)); [right; apply HOb; lia|left; lia].
    - exists fs'. split; [|done]. rewrite <- Hw, <- HO. by destruct fs. }
  exists fs. auto.
Qed.

(** ** In-order data *)

(** After in-order data the interval may reach below the next byte. *)
Lemma ooo_merge_stream {L : Type} `{RdmaLink L} S isn fs (l : L) N u bump :
  producer (fs_rx fs) u -> rx_next_seq fs = u32 (isn + N) ->
  (forall i, N - u <= i < N -> cell (buffer (fs_rx fs)) (tx_off (fs_rx fs)) (i - N) = S i) ->
  0 <= rx_ooo_len fs -> (rx_ooo_len fs <> 0 -> exists O,
    rx_ooo_start fs = u32 (isn + O) /\ N - 65536 < O /\ O + rx_ooo_len fs <= N + rx_space fs u /\
    forall i, N <= i < O + rx_ooo_len fs ->
      O <= i -> cell (buffer (fs_rx fs)) (tx_off (fs_rx fs)) (i - N) = S i) ->
  0 <= bump < 65536 ->
  exists fs' n, packet_ooo_merge fs l bump = Ok (fs', l, bump + n) /\ 0 <= n <= rx_space fs u /\
    rx_inv S isn fs' (N + n) (u + n) /\ rx_flags fs' = rx_flags fs.
Proof.
  intros P Hn Hb Hl0 Ho Hbump. unfold packet_ooo_merge.
  pose proof (pr_bs _ _ P) as Hbs. pose proof (pr_used _ _ P) as Hu.
  assert (0 <= rx_space fs u) as Hsp by (unfold rx_space; lia).
  destruct (Z.eqb_spec (rx_ooo_len fs) 0) as [Hz|Hnz].
  { exists fs, 0. rewrite !Z.add_0_r. split_and!; [done|lia|lia| |done].
    split; [done|done|done|]. split; [lia|intros []; done]. }
  destruct (Ho Hnz) as (O & HO & HNO & HOend & HOb).
  unfold tcp_trim_rxbuf. rewrite (producer_empty _ _ P). osimpl. fold (rx_space fs u).
  unfold rx_space, RDMA_QUEUE_PAD in *.
  assert (i32 (rx_ooo_start fs - rx_next_seq fs) = O - N) as Hdiff
    by (rewrite HO, Hn, i32_seq_diff; lia).
  (* the length is cut off to 16 bits *)
  assert (0 <= u16 (rx_ooo_len fs) <= rx_ooo_len fs) as Hcut
    by (unfold u16; split; [apply Z.mod_pos_bound; lia|apply Z.mod_le; lia]).
  set (cut := u16 (rx_ooo_len fs)) in *. clearbody cut.
  rewrite trim_cases_inside by (rewrite ?Hdiff; rewrite ?HO, ?Hn; try apply u32_range; lia).
  unfold rx_trim_spec. rewrite Hdiff.
  destruct ((O - N + cut <? 0) || (buffer_size (fs_rx fs) - 8 - u <? O - N)) eqn:Hout.
  { exists (fs <| rx_ooo_len := 0 |>), 0. rewrite !Z.add_0_r. split_and!; [done|lia|lia| |done].
    split; [done|done|done|]. simpl. split; [lia|intros []; done]. }
  bprop. replace (Z.max 0 (O - N + cut - (buffer_size (fs_rx fs) - 8 - u))) with 0 by lia.
  set (st := Z.max 0 (- (O - N))). rewrite Z.add_0_r. simpl.
  rewrite HO, u32_u32_add, Hn. rewrite (u32_small (rx_ooo_len fs - st)) by lia.
  destruct (Z.gtb_spec (rx_ooo_len fs - st) 0) as [Hpos|Hpos]; simpl.
  2:{ osimpl. match goal with |- context [mret (?f, l, bump)] => exists f, 0 end.
      rewrite !Z.add_0_r. split_and!; [done|lia|lia| |done]. split; [done|done|done|]. simpl.
      split; [lia|]. lia. }
  destruct (Z.eqb_spec (u32 (isn + O + st)) (u32 (isn + N))) as [Heq|Hne].
  - apply u32_seq_eq in Heq; [|lia].
    set (n := rx_ooo_len fs - st) in *.
    match goal with |- context [packet_enqueue ?f l n true] => set (fs1 := f) end.
    unfold packet_enqueue. change (fs_rx fs1) with (fs_rx fs).
    destruct (producer_enqueue (fs_rx fs) u l n P) as [-> P']; [unfold RDMA_QUEUE_PAD; lia|].
    osimpl. simpl (negb (0 =? 0)). unfold fs1. simpl. fold n. rewrite u32_u32_add.
    rewrite (u32_small (bump + n)) by lia.
    match goal with |- context [mret (?f, l, bump + n)] => exists f, n end.
    split_and!; [done|lia|lia| |done]. split; simpl; [done|by rewrite Z.add_assoc| |].
    + intros i Hi. pose proof (pr_buf _ _ P). rewrite cell_adv by (done || lia).
      replace (n + (i - (N + n))) with (i - N) by lia.
      destruct (decide (i < N)); [apply Hb; lia|apply HOb; lia].
    + split; [lia|intros []; done].
  - osimpl. match goal with |- context [mret (?f, l, bump)] => exists f, 0 end.
    rewrite !Z.add_0_r. split_and!; [done|lia|lia| |done]. split; [done|done|done|]. simpl.
    split; [lia|]. intros _. exists (O + st). unfold rx_space, RDMA_QUEUE_PAD. simpl.
    split_and!; [by rewrite Z.add_assoc|lia|lia|]. intros i Hi. apply HOb; lia.
Qed.

Lemma producer_set_buffer q u b :
  producer q u -> length b = length (buffer q) -> producer (q <| buffer := b |>) u.
Proof. intros [] Hl. split; simpl in *; auto. by rewrite Hl. Qed.

Lemma packet_accept_stream {L : Type} `{RdmaLink L} S isn fs (l : L) N u len payload :
  rx_inv S isn fs N u -> 0 < len < 65536 -> len <= rx_space fs u ->
  (forall k, 0 <= k < len -> payload !! Z.to_nat k = Some (S (N + k))) ->
  exists fs' n, packet_accept fs l len payload = Ok (fs', l, n) /\ len <= n <= rx_space fs u /\
    rx_inv S isn fs' (N + n) (u + n) /\ rx_flags fs' = rx_flags fs.
Proof.
  intros [P Hn Hb [Hl0 Ho]] Hlen Hfit Hpay. unfold packet_accept.
  pose proof (pr_bs _ _ P) as Hbs. pose proof (pr_used _ _ P) as Hu. pose proof (pr_buf _ _ P) as Hbuf.
  pose proof (producer_tx_range _ _ P) as Htx.
  assert (len <= Z.of_nat (length payload)) as Hpl.
  { specialize (Hpay (len - 1) ltac:(lia)). apply lookup_lt_Some in Hpay. lia. }
  rewrite (producer_empty _ _ P). osimpl. fold (rx_space fs u).
  rewrite (proj2 (Z.geb_le _ _)) by lia. osimpl.
  unfold rx_space, RDMA_QUEUE_PAD in Hfit, Hu, Hbs.
  rewrite (u32_small (tx_off _)), (u16_small len) by lia.
  destruct (flow_rx_write_cells fs (tx_off (fs_rx fs)) 0 len (tx_off (fs_rx fs)) payload)
    as (b' & -> & Hlen' & Hcells); try lia; [by rewrite Z.add_0_r|]. osimpl.
  set (fs1 := set_rx_buffer fs b').
  assert (producer (fs_rx fs1) u) as P1 by (by apply producer_set_buffer).
  unfold packet_enqueue.
  destruct (producer_enqueue (fs_rx fs1) u l len P1) as [-> P2]; [unfold RDMA_QUEUE_PAD; simpl; lia|].
  osimpl. simpl (negb (0 =? 0)). osimpl.
  match goal with |- context [packet_ooo_merge ?f l len] => set (fs2 := f) end.
  assert (forall i, N - u <= i < N + rx_space fs u ->
    cell (buffer (fs_rx fs)) (tx_off (fs_rx fs)) (i - N) = S i ->
    cell (buffer (fs_rx fs2)) (tx_off (fs_rx fs2)) (i - (N + len)) = S i) as Hkeep.
  { intros i Hi Hc. simpl. rewrite cell_adv by (rewrite ?Hlen'; done || lia).
    replace (len + (i - (N + len))) with (i - N) by lia. revert Hc.
    apply (stream_kept S N u fs N len payload b'); auto; try lia; [unfold rx_space, RDMA_QUEUE_PAD; lia|].
    intros k Hk. rewrite Hcells by done. by rewrite Z.sub_diag. }
  assert (forall i, N <= i < N + len ->
    cell (buffer (fs_rx fs2)) (tx_off (fs_rx fs2)) (i - (N + len)) = S i) as Hnew.
  { intros i Hi. simpl. rewrite cell_adv by (rewrite ?Hlen'; done || lia).
    replace (len + (i - (N + len))) with (i - N) by lia.
    apply (stream_written S N u fs N len payload b'); auto; try lia;
      [unfold rx_space, RDMA_QUEUE_PAD; lia|].
    intros k Hk. rewrite Hcells by done. by rewrite Z.sub_diag. }
  destruct (ooo_merge_stream S isn fs2 l (N + len) (u + len) len) as (fs' & n & -> & Hn' & I & Hf).
  - exact P2.
  - simpl. by rewrite Hn, u32_u32_add, Z.add_assoc.
  - intros i Hi. destruct (decide (i < N)); [|apply Hnew; lia].
    apply Hkeep; [unfold rx_space, RDMA_QUEUE_PAD; lia|apply Hb; lia].
  - done.
  - intros Hnz. destruct (Ho Hnz) as (O & HO & HNO & HOend & HOb). exists O.
    unfold rx_space, RDMA_QUEUE_PAD in *. simpl. split_and!; [done|lia|lia|].
    intros i Hi HOi. destruct (decide (i < N + len)); [apply Hnew; lia|].
    apply Hkeep; [lia|apply HOb; lia].
  - lia.
  - exists fs', (len + n). unfold rx_space, RDMA_QUEUE_PAD in *. simpl in Hn'.
    split_and!; [done|lia|lia| |done]. by rewrite !Z.add_assoc.
Qed.

Lemma rx_inv_ext S isn fs fs' N u :
  fs_rx fs' = fs_rx fs -> rx_next_seq fs' = rx_next_seq fs ->
  rx_ooo_start fs' = rx_ooo_start fs -> rx_ooo_len fs' = rx_ooo_len fs ->
  rx_inv S isn fs N u -> rx_inv S isn fs' N u.
Proof.
  intros E1 E2 E3 E4 [P Hn Hb Ho].
  split; unfold rx_space in *; rewrite ?E1, ?E2, ?E3, ?E4; auto.
Qed.

Lemma packet_rtt_keeps fs p v e ts :
  fs_rx (packet_rtt fs p v e ts) = fs_rx fs /\
  rx_next_seq (packet_rtt fs p v e ts) = rx_next_seq fs /\
  rx_ooo_start (packet_rtt fs p v e ts) = rx_ooo_start fs /\
  rx_ooo_len (packet_rtt fs p v e ts) = rx_ooo_len fs /\
  rx_flags (packet_rtt fs p v e ts) = rx_flags fs.
Proof. unfold packet_rtt. repeat case_match; done. Qed.

Lemma rx_inv_rtt S isn fs N u p v e ts :
  rx_inv S isn fs N u -> rx_inv S isn (packet_rtt fs p v e ts) N u.
Proof.
  destruct (packet_rtt_keeps fs p v e ts) as (? & ? & ? & ? & _). by apply rx_inv_ext.
Qed.

Lemma packet_fin_result fs p orig :
  exists fb fs', packet_fin fs p orig = (fs', fb) /\
    (fs', fb) = (if fb then packet_fin fs p orig else (fs, false)).
Proof.
  unfold packet_fin. destruct (has_all _ _ && _); [|by eexists _, _].
  destruct ((rx_next_seq fs =? _) && _); by eexists _, _.
Qed.

Lemma misjudged_overrun S isn fs N u p A : rx_inv S isn fs N u -> segment_of S isn p A -> -2147483648 <= A - N < 2147483648 ->
  trim_misjudged (rx_next_seq fs) (rx_space fs u) (tcp_seqno (p_tcp p)) (snd (packet_payload p)) = true ->
  tcp_trim_rxbuf fs (tcp_seqno (p_tcp p)) (snd (packet_payload p)) = Ok (Some (0, 0)) /\
  rx_space fs u < A - N + snd (packet_payload p).
Proof.
  intros [P Hn _ _] [Hseq Hlen _ _] HA Hmis. pose proof (pr_bs _ _ P) as Hbs. pose proof (pr_used _ _ P) as Hu.
  assert (i32 (tcp_seqno (p_tcp p) - rx_next_seq fs) = A - N) as <- by (rewrite Hseq, Hn, i32_seq_diff; lia).
  unfold RDMA_QUEUE_PAD in Hbs, Hu.
  apply tcp_trim_rxbuf_overrun; rewrite ?Hseq, ?Hn; try apply u32_range; try done.
  - apply (producer_empty _ _ P).
  - unfold rx_space, RDMA_QUEUE_PAD. lia.
  - by rewrite <- Hseq, <- Hn.
Qed.

(** C1. The receive path delivers the stream. For a segment of the stream within
    2^31 of the next expected byte, [packet_data] neither fails nor loses the
    invariant: the receive queue holds exactly the stream's bytes up to a new
    position, which is ahead of the old one by the [rx_bump] announced to the
    application, and the out-of-order interval still holds the stream's bytes.
    The one configuration in which it does not is [trim_misjudged], which
    tcp_common.h:160 takes for another: the segment wraps around the sequence space,
    the window does not, and the segment starts inside it. There nothing is cut off,
    though the segment ends behind the window. *)
Theorem packet_data_delivers {L : Type} `{RdmaLink L} S isn fs (l : L) N u p A ts_opt ts v e :
  rx_inv S isn fs N u -> segment_of S isn p A -> -2147483648 <= A - N < 2147483648 ->
  ts_val (p_rest p) ts_opt = Ok v -> ts_ecr (p_rest p) ts_opt = Ok e ->
  let len := snd (packet_payload p) in
  if trim_misjudged (rx_next_seq fs) (rx_space fs u) (tcp_seqno (p_tcp p)) len
  then tcp_trim_rxbuf fs (tcp_seqno (p_tcp p)) len = Ok (Some (0, 0)) /\ rx_space fs u < A - N + len
  else exists fs1 fs' n fin_bump trigger_ack,
    packet_data fs l p ts_opt ts = Ok (fs', l, n, fin_bump, trigger_ack) /\
    rx_inv S isn fs1 (N + n) (u + n) /\ 0 <= n <= rx_space fs u /\
    (fs', fin_bump) = (if fin_bump then packet_fin fs1 p len else (fs1, false)) /\
    (0 < len -> trigger_ack = true).
Proof.
  intros I G HA Hv He. cbv zeta. destruct (trim_misjudged _ _ _ _) eqn:Hmis; [by apply (misjudged_overrun S isn fs N u p A)|].
  destruct G as [Hseq Hlen Hoff Hbytes]. pose proof I as [P Hn _ _].
  pose proof (pr_bs _ _ P) as Hbs. pose proof (pr_used _ _ P) as Hu. unfold RDMA_QUEUE_PAD in Hbs, Hu.
  unfold packet_data. destruct (packet_payload p) as [off orig]. cbn [fst snd] in Hlen, Hoff, Hbytes, Hmis |- *.
  unfold tcp_trim_rxbuf. rewrite (producer_empty _ _ P). osimpl. fold (rx_space fs u).
  set (W := rx_space fs u) in *. assert (W = buffer_size (fs_rx fs) - 8 - u) as HW by done.
  rewrite Hn, Hseq in *.
  rewrite (u16_small orig) by lia. rewrite trim_cases_correct by (try apply u32_range; done || lia).
  assert (i32 (u32 (isn + A) - u32 (isn + N)) = A - N) as Hdiff by (rewrite i32_seq_diff; lia).
  unfold rx_trim_spec. rewrite Hdiff.
  destruct ((A - N + orig <? 0) || (W <? A - N)) eqn:Hout.
  { eexists fs, fs, 0, false, true. rewrite !Z.add_0_r. split_and!; done || lia. }
  bprop. set (t1 := Z.max 0 (- (A - N))). set (t2 := Z.max 0 (A - N + orig - W)). osimpl.
  assert (0 <= t1 + t2 <= orig) by (unfold t1, t2; lia).
  assert (0 <= t1 <= orig) by (unfold t1; lia).
  rewrite (u32_small (orig - (t1 + t2))) by lia.
  rewrite (u32_small (off + t1)), u32_u32_add by (unfold SIZEOF_PKT_TCP in *; lia).
  set (len := orig - (t1 + t2)). replace (isn + A + t1) with (isn + (A + t1)) by lia.
  set (pay := drop _ (p_rest p)).
  assert (forall k, 0 <= k < len -> pay !! Z.to_nat k = Some (S (A + t1 + k))) as Hpay.
  { intros k Hk. unfold pay. rewrite lookup_drop.
    replace (Z.to_nat (off + t1 - SIZEOF_PKT_TCP) + Z.to_nat k)%nat
      with (Z.to_nat (off - SIZEOF_PKT_TCP + (t1 + k))) by (unfold SIZEOF_PKT_TCP in *; lia).
    rewrite Hbytes by lia. do 2 f_equal. lia. }
  destruct (Z.eqb_spec (u32 (isn + (A + t1))) (u32 (isn + N))) as [Heq|Hne]; osimpl.
  - apply u32_seq_eq in Heq; [|lia]. assert (A + t1 = N) as HAN by lia. rewrite HAN in Hpay.
    rewrite Hv, He. osimpl. pose proof (rx_inv_rtt S isn fs N u p v e ts I) as I'.
    set (fr := packet_rtt fs p v e ts) in *.
    destruct (has_all (rx_flags fr) FLEXNIC_PL_FLOWST_RXFIN && (len >? 0)).
    { eexists fr, fr, 0, false, _. rewrite !Z.add_0_r. split_and!; try done; try lia. }
    assert (exists f1 n, (if len >? 0 then packet_accept fr l len pay else mret (fr, l, 0)) = Ok (f1, l, n) /\
      0 <= n <= W /\ rx_inv S isn f1 (N + n) (u + n)) as (f1 & n & -> & Hn1 & I1).
    { destruct (Z.gtb_spec len 0) as [Hpos|Hz].
      - assert (rx_space fr u = W) as HW' by (unfold rx_space, fr; by rewrite (proj1 (packet_rtt_keeps _ _ _ _ _))).
        destruct (packet_accept_stream S isn fr l N u len pay I') as (f1 & n & -> & ? & ? & _); try lia; [done|].
        exists f1, n. split_and!; done || lia.
      - exists fr, 0. rewrite !Z.add_0_r. split_and!; done || lia. }
    osimpl. destruct (packet_fin_result f1 p orig) as (fb & f2 & Hfin & Hres). rewrite Hfin.
    eexists f1, f2, n, fb, _. split; [done|]. split_and!; try done; try lia.
  - assert (N < A + t1) as HA1 by (destruct (decide (A + t1 = N)) as [E|?]; [by rewrite E in Hne|lia]).
    destruct (Z.eqb_spec len 0) as [Hz|Hnz].
    { eexists fs, fs, 0, false, true. rewrite !Z.add_0_r. split_and!; done || lia. }
    destruct (packet_ooo_stream S isn fs N u (A + t1) len pay I) as (f1 & -> & I1 & _); try done; try lia.
    osimpl. eexists f1, f1, 0, false, true. rewrite !Z.add_0_r. split_and!; done || lia.
Qed.

(** Code bug: the length of the out-of-order interval is cut off to 16 bits. When the
    data in order has just reached into an interval of 65536 bytes, the interval is
    taken for superfluous and dropped, with the 65535 bytes that were received. *)
Lemma ooo_interval_dropped {L : Type} `{RdmaLink L} fs (l : L) bump W : rq_nbytes_empty (fs_rx fs) = Ok W ->
  1 <= rx_next_seq fs -> rx_next_seq fs + 65535 <= rx_next_seq fs + W < 4294967296 ->
  rx_ooo_start fs = rx_next_seq fs - 1 -> rx_ooo_len fs = 65536 ->
  packet_ooo_merge fs l bump = Ok (fs <| rx_ooo_len := 0 |>, l, bump).
Proof.
  intros HW H1 H2 Hs Hl. unfold packet_ooo_merge. rewrite Hl. change (65536 =? 0) with false. cbv iota.
  unfold tcp_trim_rxbuf. rewrite HW, Hs. osimpl. change (u16 65536) with 0. rewrite Z.add_0_r.
  rewrite !u32_small by lia. unfold trim_rxbuf_cases.
  rewrite Z.leb_refl, (proj2 (Z.leb_le (rx_next_seq fs) _)) by lia.
  cbn [andb]. rewrite (proj2 (Z.ltb_lt _ _)) by lia. done.
Qed.

(** ** A concrete segment *)
Module Demo.

(** The stream 1, 2, 3, ..., and a segment with its first 28 bytes. *)
Definition stream (i : Z) : Z := i + 1.
Definition options : list Z := encode_options [OTimestamp 77 66; ONop; ONop].
Definition p : pkt_tcp := TcpCommon.Demo.pkt 8 (options ++ (stream <$> seqZ 0 28)).
Definition fs : flowst := TcpCommon.Demo.fs 1000.

Lemma fs_inv : rx_inv stream 1000 fs 0 0.
Proof.
  split; [|reflexivity|lia|split; [simpl; lia|intros []; reflexivity]].
  split; unfold used_base, RDMA_QUEUE_PAD; simpl; try lia; reflexivity.
Qed.

Lemma p_segment : segment_of stream 1000 p 0.
Proof.
  split; [reflexivity|vm_compute; split; congruence|vm_compute; split; congruence|].
  change (snd (packet_payload p)) with 28. change (fst (packet_payload p) - SIZEOF_PKT_TCP) with 12.
  intros k Hk. change (p_rest p) with (options ++ (stream <$> seqZ 0 28)).
  rewrite lookup_app_r by (change (length options) with 12%nat; lia).
  rewrite list_lookup_fmap, lookup_seqZ_lt by (change (length options) with 12%nat; lia).
  simpl. f_equal. unfold stream. change (length options) with 12%nat. lia.
Qed.

End Demo.

Lemma packet_data_delivers_witness :
  exists fs1 fs' n fin_bump trigger_ack,
    packet_data Demo.fs RdmaQueue.Demo.link Demo.p 0 5 = Ok (fs', RdmaQueue.Demo.link, n, fin_bump, trigger_ack) /\
    rx_inv Demo.stream 1000 fs1 (0 + n) (0 + n) /\ 0 <= n <= rx_space Demo.fs 0 /\
    (fs', fin_bump) = (if fin_bump then packet_fin fs1 Demo.p (snd (packet_payload Demo.p)) else (fs1, false)) /\
    (0 < snd (packet_payload Demo.p) -> trigger_ack = true).
Proof.
  apply (packet_data_delivers Demo.stream 1000 Demo.fs RdmaQueue.Demo.link 0 0 Demo.p 0 0 5 77 66
    Demo.fs_inv Demo.p_segment); [lia|reflexivity|reflexivity].
Defined.
