(* ===== verification/FlowTx.v ===== *)
(** * Correctness of the transmit path (tas_nic/fast/fast_flows.c)

    Segments the fast path builds, the accounting of sent and acknowledged bytes,
    retransmission, and the flow lookup. *)
From S2P Require Import Prelude RdmaQueue Packets FlowState TcpCommon Qman FastCtx FastFlows.

#[local] Open Scope Z_scope.

(** ** Reading the transmit ring *)
Lemma flow_tx_read_ring fs pos len :
  Z.of_nat (length (buffer (fs_tx fs))) = buffer_size (fs_tx fs) ->
  0 < buffer_size (fs_tx fs) < 2147483648 ->
  0 <= pos <= buffer_size (fs_tx fs) -> 0 <= len <= buffer_size (fs_tx fs) ->
  flow_tx_read fs pos len = Ok (ring_read (buffer (fs_tx fs)) pos len).
Proof.
  intros Hbuf Hbs Hpos Hlen. unfold flow_tx_read. rewrite (u32_small (pos + len)) by lia.
  set (bs := buffer_size (fs_tx fs)) in *.
  destruct (Z.leb_spec (pos + len) bs) as [Hl|Hw]; [by rewrite mem_read_ring by lia|].
  rewrite (u32_small (bs - pos)), (u32_small (len - (bs - pos))) by lia.
  rewrite !mem_read_ring by lia. osimpl. f_equal.
  replace len with ((bs - pos) + (len - (bs - pos))) at 2 by lia.
  rewrite ring_read_app by lia. f_equal.
  rewrite <- (ring_read_wrap _ (pos + (bs - pos))). f_equal. lia.
Qed.

(** ** Segments *)

(** The options of an outgoing segment. *)
Definition segment_options (ts_my ts_echo : Z) : list Z :=
  [TCP_OPT_TIMESTAMP; SIZEOF_TIMESTAMP_OPT] ++ to_be32 ts_my ++ to_be32 ts_echo ++ [0; 0].

Lemma mem_write_front src rest :
  (length src <= length rest)%nat -> mem_write rest 0 src = Ok (src ++ drop (length src) rest).
Proof. intros. rewrite mem_write_Ok by lia. done. Qed.

(** Writing the option fields one after the other gives [segment_options]. *)
Lemma write_options rest ts_my ts_echo :
  (12 <= length rest)%nat ->
  (rest ← mem_write rest 0 (replicate 12 0);
   rest ← mem_write rest 0 [TCP_OPT_TIMESTAMP; SIZEOF_TIMESTAMP_OPT];
   rest ← write_be32 rest 2 ts_my;
   write_be32 rest 6 ts_echo) = Ok (segment_options ts_my ts_echo ++ drop 12 rest).
Proof.
  intros Hl. rewrite mem_write_front by (rewrite length_replicate; lia). osimpl.
  set (tail := drop _ rest). rewrite mem_write_front by (simpl; lia). osimpl.
  unfold write_be32. rewrite mem_write_Ok by (simpl; lia). osimpl.
  rewrite mem_write_Ok by (simpl; lia). done.
Qed.

Lemma mem_write_after pre src rest n :
  n = Z.of_nat (length pre) -> (length src <= length rest)%nat ->
  mem_write (pre ++ rest) n src = Ok (pre ++ src ++ drop (length src) rest).
Proof.
  intros -> Hl. rewrite mem_write_Ok by (rewrite ?length_app; lia).
  rewrite Nat2Z.id, take_app_length, drop_app_ge by lia.
  do 4 f_equal. lia.
Qed.

(** A parsed segment: what a receiver sees in the packet [p] of [len] bytes. *)
Record segment (p : pkt_tcp) (len seq ack flags wnd tsv tse : Z) (payload : list Z) : Prop := {
  se_accepted : fast_flows_packet_parse p len = Ok (Some 0);
  se_tsval : ts_val (p_rest p) 0 = Ok tsv;
  se_tsecr : ts_ecr (p_rest p) 0 = Ok tse;
  se_seq : tcp_seqno (p_tcp p) = seq;
  se_ack : tcp_ackno (p_tcp p) = ack;
  se_flags : TCPH_FLAGS (p_tcp p) = flags;
  se_wnd : tcp_wnd (p_tcp p) = wnd;
  se_len : packet_payload p = (SIZEOF_PKT_TCP + 12, Z.of_nat (length payload));
  se_payload : mem_read (p_rest p) 12 (Z.of_nat (length payload)) = Ok payload;
}.

(** The checksums leave everything else alone. *)
Lemma tcp_checksums_keeps `{Checksums} p s d n :
  p_eth (tcp_checksums p s d n) = p_eth p /\ p_rest (tcp_checksums p s d n) = p_rest p /\
  (exists x, p_ip (tcp_checksums p s d n) = (p_ip p) <| ip_chksum := x |>) /\
  (exists x, p_tcp (tcp_checksums p s d n) = (p_tcp p) <| tcp_chksum := x |>).
Proof.
  unfold tcp_checksums. destruct fp_xsumoffload; split_and!; try done; by eexists.
Qed.

Lemma parse_segment p len tsv tse rest :
  p_rest p = segment_options tsv tse ++ rest -> eth_type (p_eth p) = ETH_TYPE_IP ->
  ip_proto (p_ip p) = IP_PROTO_TCP -> ip_v_hl (p_ip p) = 0x45 ->
  Z.shiftr (tcp_hdrlen_rsvd_flags (p_tcp p)) 12 = 8 -> ip_len (p_ip p) + SIZEOF_ETH_HDR = len ->
  66 <= len < 65536 ->
  fast_flows_packet_parse p len = Ok (Some 0).
Proof.
  intros Hrest Heth Hproto Hv Hhl Hlen Hr. unfold fast_flows_packet_parse, tcp_parse_options, TCPH_HDRLEN.
  rewrite Hhl. simpl (8 <? 5). change (u16 (8 * 4 - 20)) with 12. osimpl.
  unfold SIZEOF_PKT_TCP, SIZEOF_ETH_HDR in *. rewrite (u64_small (len - 54)) by lia.
  rewrite Z.gtb_ltb, (proj2 (Z.ltb_ge _ 12)) by lia.
  assert (walk_options on_fast_opt opt_fuel (p_rest p) 12 0 None = Ok (0, Some 0)) as ->
    by (rewrite Hrest; reflexivity).
  osimpl. unfold IPH_V, IPH_HL. rewrite Heth, Hproto, Hv, Hlen, u64_small by lia.
  rewrite Z.ltb_irrefl, (proj2 (Z.ltb_ge len 54)) by lia. done.
Qed.

Lemma hdrlen_flags_fin (fin : bool) :
  let x := u16 (Z.lor (Z.shiftl 8 12) (Z.lor (Z.lor TCP_PSH TCP_ACK) (if fin then TCP_FIN else 0))) in
  Z.shiftr x 12 = 8 /\ Z.land x TCP_FLAGS = Z.lor (Z.lor TCP_PSH TCP_ACK) (if fin then TCP_FIN else 0).
Proof. by destruct fin. Qed.

Lemma segment_opts_read tsv tse rest :
  0 <= tsv < 4294967296 -> 0 <= tse < 4294967296 ->
  ts_val (segment_options tsv tse ++ rest) 0 = Ok tsv /\
  ts_ecr (segment_options tsv tse ++ rest) 0 = Ok tse.
Proof.
  intros Hv He. unfold ts_val, ts_ecr, read_be32.
  rewrite !mem_read_Ok by (rewrite ?length_app; change (length (segment_options tsv tse)) with 12%nat; lia).
  split; [rewrite <- (be32_to_be32 tsv Hv) at 2|rewrite <- (be32_to_be32 tse He) at 2]; reflexivity.
Qed.

Lemma parsed_length p n :
  Z.shiftr (tcp_hdrlen_rsvd_flags (p_tcp p)) 12 = 8 -> ip_len (p_ip p) = n + 52 -> 0 <= n < 65484 ->
  packet_payload p = (SIZEOF_PKT_TCP + 12, n).
Proof.
  intros Hh Hl Hn. unfold packet_payload, TCPH_HDRLEN. rewrite Hh, Hl.
  change (u16 ((8 - 5) * 4)) with 12. unfold SIZEOF_IP_HDR, SIZEOF_TCP_HDR.
  rewrite u32_small by lia. f_equal. lia.
Qed.

Section Segments.
Context `{Checksums} (eth_addr : Z).

Lemma flow_tx_segment_spec c nbh p fs seq ack rxwnd len pos ts_echo ts_my fin :
  tx_num c < TXBUF_SIZE -> 0 <= len < 65470 ->
  12 + len <= Z.of_nat (length (p_rest p)) ->
  Z.of_nat (length (buffer (fs_tx fs))) = buffer_size (fs_tx fs) ->
  0 < buffer_size (fs_tx fs) < 2147483648 -> 0 <= pos <= buffer_size (fs_tx fs) ->
  len <= buffer_size (fs_tx fs) -> 0 <= rxwnd ->
  0 <= ts_my < 4294967296 -> 0 <= ts_echo < 4294967296 ->
  exists q, flow_tx_segment eth_addr c nbh p fs seq ack rxwnd len pos ts_echo ts_my fin =
      Ok (c <| tx_handles := tx_handles c ++ [mk_txe nbh 0 (66 + len) q] |>) /\
    segment q (66 + len) seq ack (Z.lor (Z.lor TCP_PSH TCP_ACK) (if fin then TCP_FIN else 0))
      (Z.min 65535 rxwnd) ts_my ts_echo (ring_read (buffer (fs_tx fs)) pos len) /\
    eth_dest (p_eth q) = remote_mac fs /\ eth_src (p_eth q) = eth_addr /\
    ip_src (p_ip q) = local_ip fs /\ ip_dest (p_ip q) = remote_ip fs /\
    tcp_src (p_tcp q) = local_port fs /\ tcp_dest (p_tcp q) = remote_port fs.
Proof.
  intros Htx Hlen Hrest Hbuf Hbs Hpos Hfit Hwnd Hmy Hecho. unfold flow_tx_segment.
  change (Z.land (SIZEOF_TIMESTAMP_OPT + 3) (Z.lnot 3)) with 12. cbv zeta.
  change (Z.to_nat 12) with 12%nat. change (SIZEOF_PKT_TCP + 12) with 66.
  pose proof (write_options (p_rest p) ts_my ts_echo ltac:(lia)) as Hopt.
  apply bind_Ok_inv in Hopt as (r1 & E1 & Hopt). apply bind_Ok_inv in Hopt as (r2 & E2 & Hopt).
  apply bind_Ok_inv in Hopt as (r3 & E3 & E4).
  rewrite E1. osimpl. rewrite E2. osimpl. rewrite E3. osimpl. rewrite E4. osimpl. clear E1 E2 E3 E4 r1 r2 r3.
  set (opts := segment_options ts_my ts_echo). set (tail := drop 12 (p_rest p)).
  assert (length opts = 12%nat) as Ho by done.
  assert (Z.of_nat (length tail) = Z.of_nat (length (p_rest p)) - 12) as Ht
    by (unfold tail; rewrite length_drop; lia).
  set (data := ring_read (buffer (fs_tx fs)) pos len).
  assert (Z.of_nat (length data) = len) as Hd by (unfold data; rewrite ring_read_length; lia).
  assert ((if len >? 0 then d ← flow_tx_read fs pos len; mem_write (opts ++ tail) 12 d
           else mret (opts ++ tail)) = Ok (opts ++ data ++ drop (length data) tail)) as ->.
  { destruct (Z.gtb_spec len 0).
    - rewrite flow_tx_read_ring by lia. osimpl. fold data. apply mem_write_after; lia.
    - destruct data; [done|simpl in Hd; lia]. }
  osimpl.
  set (ip0 := if has_all _ _ then _ else _). set (tcp0 := TCPH_HDRLEN_FLAGS_SET _ _ _).
  assert (ip_v_hl ip0 = 0x45 /\ ip_proto ip0 = IP_PROTO_TCP /\ ip_len ip0 = len + 52 /\
    ip_src ip0 = local_ip fs /\ ip_dest ip0 = remote_ip fs) as (I1 & I2 & I3 & I4 & I5).
  { unfold ip0, SIZEOF_ETH_HDR. rewrite (u16_small (66 - 14 + len)) by lia.
    destruct (has_all _ _); simpl; split_and!; try done; lia. }
  set (pk := mk_pkt _ ip0 tcp0 _).
  match goal with |- context [tcp_checksums pk ?s ?d ?n] =>
    destruct (tcp_checksums_keeps pk s d n) as (C1 & C2 & (x & C3) & (y & C4));
    set (q := tcp_checksums pk s d n) in * end.
  unfold tx_send. rewrite Z.geb_leb, (proj2 (Z.leb_gt _ _)) by done.
  rewrite (u16_small (66 + len)) by lia. exists q. split; [done|].
  destruct (hdrlen_flags_fin fin) as [F1 F2].
  destruct (segment_opts_read ts_my ts_echo (data ++ drop (length data) tail) Hmy Hecho) as [V1 V2].
  fold opts in V1, V2.
  split; [|rewrite C1, C3, C4; simpl; by split_and!].
  split; unfold TCPH_FLAGS, TCPH_HDRLEN; rewrite ?C1, ?C2, ?C3, ?C4; try done.
  - apply (parse_segment _ _ ts_my ts_echo (data ++ drop (length data) tail));
      rewrite ?C1, ?C2, ?C3, ?C4; try done; [|lia]. simpl. rewrite I3. unfold SIZEOF_ETH_HDR. lia.
  - simpl. unfold MIN. destruct (Z.ltb_spec rxwnd 65535); rewrite u16_small by lia; lia.
  - rewrite Hd. apply parsed_length; rewrite ?C3, ?C4; try done. lia.
  - rewrite Hd. change (p_rest pk) with (opts ++ data ++ drop (length data) tail).
    rewrite mem_read_Ok by (rewrite ?length_app, ?Ho; lia).
    change (Z.to_nat 12) with (length opts). rewrite drop_app_length.
    f_equal. replace (Z.to_nat len) with (length data) by lia. apply take_app_length.
Qed.

(** ** The queue manager fires *)

(** A flow whose turn it is: [s] is its transmit queue; [tx_sent] bytes count as in
    flight, no more than the ring has; [u] bytes of its receive queue are in use; the
    transmit batch has room and the buffer [p] can take a full segment. *)
Record sendable (c : dataplane_context) (fs : flowst) (s : fifo) (u : Z) (p : pkt_tcp) : Prop := {
  sd_tx : rep (fs_tx fs) s;
  sd_rx : producer (fs_rx fs) u;
  sd_sent : 0 <= tx_sent fs <= buffer_size (fs_tx fs);
  sd_wnd : 0 <= rx_remote_avail fs < 4294967296;
  sd_echo : 0 <= tx_next_ts fs < 4294967296;
  sd_room : tx_num c < TXBUF_SIZE;
  sd_buf : 12 + TCP_MSS <= Z.of_nat (length (p_rest p));
}.

(** The sequence numbers a segment takes: limited by the queue, the peer's window
    less what is in flight (a 32-bit difference), and the MSS. *)
Definition send_len (fs : flowst) (s : fifo) : Z :=
  Z.min TCP_MSS (Z.min (Z.of_nat (length (visible s))) (u32 (rx_remote_avail fs - tx_sent fs))).
(** A flow whose transmit side is closed sends FINs, which take one of them. *)
Definition tx_fin (fs : flowst) : bool := has_all (rx_flags fs) FLEXNIC_PL_FLOWST_TXFIN.
Definition payload_len (fs : flowst) (s : fifo) : Z := send_len fs s - Z.b2z (tx_fin fs).
Definition seg_flags (fs : flowst) : Z := Z.lor (Z.lor TCP_PSH TCP_ACK) (if tx_fin fs then TCP_FIN else 0).

Lemma txavail_rep fs s :
  rep (fs_tx fs) s ->
  tcp_txavail fs None = Ok (Z.min (Z.of_nat (length (visible s))) (u32 (rx_remote_avail fs - tx_sent fs))).
Proof.
  intros R. unfold tcp_txavail. rewrite (rep_enqueued _ _ R). osimpl.
  pose proof (rep_fits _ _ R). pose proof (rep_bs _ _ R). unfold fifo_size, RDMA_QUEUE_PAD in *.
  rewrite (u32_small (Z.of_nat _)) by lia. unfold MIN. f_equal. bsplit; lia.
Qed.

Lemma qman_send_general c fs s u p nbh ts :
  sendable c fs s u p -> 0 < send_len fs s -> 0 <= ts < 4294967296 ->
  exists q, fast_flows_qman_send eth_addr c fs nbh p ts =
      Ok (0, fs <| tx_next_seq := u32 (tx_next_seq fs + send_len fs s) |>
                <| tx_sent := tx_sent fs + send_len fs s |>,
          c <| tx_handles := tx_handles c ++ [mk_txe nbh 0 (66 + payload_len fs s) q] |>) /\
    segment q (66 + payload_len fs s) (tx_next_seq fs) (rx_next_seq fs) (seg_flags fs)
      (Z.min 65535 (buffer_size (fs_rx fs) - RDMA_QUEUE_PAD - u)) ts (tx_next_ts fs)
      (ring_read (buffer (fs_tx fs)) (rx_off (fs_tx fs) + tx_sent fs) (payload_len fs s)).
Proof.
  intros [R P Hs Hw He Htx Hb] Hlen Hts. unfold fast_flows_qman_send.
  rewrite (txavail_rep fs s R). osimpl. unfold payload_len, seg_flags, send_len in *.
  pose proof (rep_fits _ _ R) as Hfits. pose proof (rep_bs _ _ R) as Hbs. pose proof (rep_rx _ _ R) as Hrx.
  pose proof (pr_bs _ _ P) as Hrbs. pose proof (pr_used _ _ P) as Hu. pose proof (rep_buf _ _ R) as Hbuf.
  unfold fifo_size, RDMA_QUEUE_PAD, TCP_MSS in *.
  assert (0 <= u32 (rx_remote_avail fs - tx_sent fs)) by (apply Z.mod_pos_bound; lia).
  set (av := Z.min (Z.of_nat (length (visible s))) (u32 (rx_remote_avail fs - tx_sent fs))) in *.
  set (len := Z.min 1448 av) in *.
  rewrite (proj2 (Z.eqb_neq av 0)) by lia.
  assert (MIN av 1448 = len) as -> by (unfold MIN, len; bsplit; lia).
  rewrite (producer_empty _ _ P). osimpl. unfold RDMA_QUEUE_PAD.
  rewrite (u64_small (rx_off _ + _)) by lia.
  assert ((if rx_off (fs_tx fs) + tx_sent fs >? buffer_size (fs_tx fs)
           then u64 (rx_off (fs_tx fs) + tx_sent fs - buffer_size (fs_tx fs))
           else rx_off (fs_tx fs) + tx_sent fs) =
          adv (buffer_size (fs_tx fs)) (rx_off (fs_tx fs)) (tx_sent fs)) as ->
    by (unfold adv; bsplit; [apply u64_small; lia|done]).
  pose proof (adv_range (buffer_size (fs_tx fs)) (rx_off (fs_tx fs)) (tx_sent fs) ltac:(lia) ltac:(lia)) as Hadv.
  match goal with |- context [has_all (rx_flags ?f) _] => set (fs1 := f) end.
  change (rx_flags fs1) with (rx_flags fs). fold (tx_fin fs).
  assert (rep (fs_tx fs1) s) as R1 by exact R.
  assert ((if tx_fin fs then enq ← rq_nbytes_enqueued (fs_tx fs1); mret (enq >? 0) else mret false)
    = Ok (tx_fin fs)) as ->.
  { destruct (tx_fin fs); [|done]. rewrite (rep_enqueued _ _ R1). osimpl. f_equal. apply Z.gtb_lt. lia. }
  osimpl.
  assert ((if tx_fin fs then _ ← c_assert (len >? 0); mret (u32 (len - 1)) else mret len)
    = Ok (len - Z.b2z (tx_fin fs))) as ->.
  { destruct (tx_fin fs); simpl Z.b2z; [|by rewrite Z.sub_0_r].
    rewrite bind_assert_true by (apply Z.gtb_lt; lia). by rewrite u32_small by lia. }
  osimpl. set (k := len - Z.b2z (tx_fin fs)).
  assert (0 <= k <= len) as Hk by (unfold k; destruct (tx_fin fs); simpl; lia).
  rewrite (u16_small k), (u32_small (adv _ _ _)) by lia.
  destruct (flow_tx_segment_spec c nbh p fs1 (tx_next_seq fs) (rx_next_seq fs)
    (u32 (buffer_size (fs_rx fs) - 8 - u)) k
    (adv (buffer_size (fs_tx fs)) (rx_off (fs_tx fs)) (tx_sent fs)) (tx_next_ts fs) ts (tx_fin fs))
    as (q & Hq & Hseg & _); try solve [simpl; rewrite ?u32_small by lia; done || lia].
  change (tx_next_ts fs1) with (tx_next_ts fs). rewrite Hq. osimpl.
  exists q. split.
  - unfold fs1. rewrite (u32_small (tx_sent fs + len)) by lia. done.
  - rewrite (u32_small (buffer_size _ - 8 - u)) in Hseg by lia. unfold RDMA_QUEUE_PAD.
    change (buffer (fs_tx fs1)) with (buffer (fs_tx fs)) in Hseg.
    rewrite ring_read_adv in Hseg by lia. exact Hseg.
Qed.

Lemma rep_visible_range q s n len :
  rep q s -> 0 <= n -> 0 <= len -> n + len <= Z.of_nat (length (visible s)) ->
  ring_read (buffer q) (rx_off q + n) len = take (Z.to_nat len) (drop (Z.to_nat n) (visible s)).
Proof.
  intros R Hn Hl Hfit. rewrite (rep_visible _ _ R), ring_drop, ring_take by lia. done.
Qed.

(** The payload of a segment: the queue's bytes that follow those in flight,
    and after them, where these are too few, bytes of the ring behind the queue. *)
Lemma segment_payload q s n k :
  rep q s -> 0 <= n -> 0 <= k ->
  exists stale, ring_read (buffer q) (rx_off q + n) k = take (Z.to_nat k) (drop (Z.to_nat n) (visible s)) ++ stale /\
    Z.of_nat (length stale) = Z.max 0 (n + k - Z.max n (Z.of_nat (length (visible s)))).
Proof.
  intros R Hn Hk. set (v := Z.of_nat (length (visible s))) in *.
  destruct (Z.le_gt_cases (n + k) v) as [Hf|Hf].
  - exists []. rewrite (rep_visible_range _ s) by (done || lia). rewrite app_nil_r. split; [done|simpl; lia].
  - destruct (Z.le_gt_cases v n) as [Hv|Hv].
    + rewrite (drop_ge (visible s)), take_nil by lia. exists (ring_read (buffer q) (rx_off q + n) k). split; [reflexivity|]. rewrite ring_read_length; lia.
    + exists (ring_read (buffer q) (rx_off q + v) (n + k - v)). split; [|rewrite ring_read_length; lia].
      rewrite take_ge by (rewrite length_drop; lia).
      replace k with (v - n + (n + k - v)) at 1 by lia. rewrite ring_read_app by lia.
      rewrite (rep_visible_range _ s n (v - n)) by (done || lia).
      rewrite take_ge by (rewrite length_drop; lia). do 2 f_equal. lia.
Qed.

(** C38. Transmission: when a flow's queue fires on its core, and the transmit
    batch has room, the fast path sends one segment that a receiver's parser
    accepts, or none if the queue is empty or the peer's window is used up to the
    byte. It has the next sequence number, the cumulative acknowledgement, the
    free receive space as window and both time stamps; a flow whose transmit side
    is closed sets FIN, which takes one of the sequence numbers; the accounting
    advances by its length. Its payload is the bytes of the transmit queue that
    follow those in flight, when there are so many of them. Code bug: the length
    is taken from the whole queue, bytes in flight included (the comment promises
    the number of unsent bytes); when fewer unsent bytes are left, the segment is
    filled up with exactly the missing number of stale bytes of the ring, under
    fresh sequence numbers. The peer's window less the bytes in flight is a 32-bit
    difference, so a window smaller than those does not hold the flow back. *)
Theorem fast_flows_qman_sends c fs s u p nbh ts :
  sendable c fs s u p -> 0 <= ts < 4294967296 ->
  let n := send_len fs s in let k := payload_len fs s in
  if n =? 0 then fast_flows_qman_send eth_addr c fs nbh p ts = Ok (-1, fs, c)
  else exists q stale, fast_flows_qman_send eth_addr c fs nbh p ts =
      Ok (0, fs <| tx_next_seq := u32 (tx_next_seq fs + n) |> <| tx_sent := tx_sent fs + n |>,
          c <| tx_handles := tx_handles c ++ [mk_txe nbh 0 (66 + k) q] |>) /\
    segment q (66 + k) (tx_next_seq fs) (rx_next_seq fs) (seg_flags fs)
      (Z.min 65535 (buffer_size (fs_rx fs) - RDMA_QUEUE_PAD - u)) ts (tx_next_ts fs)
      (take (Z.to_nat k) (drop (Z.to_nat (tx_sent fs)) (visible s)) ++ stale) /\
    Z.of_nat (length stale) = Z.max 0 (tx_sent fs + k - Z.max (tx_sent fs) (Z.of_nat (length (visible s)))).
Proof.
  intros Hsd Hts n k.
  assert (0 <= u32 (rx_remote_avail fs - tx_sent fs)) as Hu by (apply Z.mod_pos_bound; lia).
  assert (0 <= n) as Hn by (unfold n, send_len, TCP_MSS; lia).
  destruct (Z.eqb_spec n 0) as [E|E].
  - unfold fast_flows_qman_send. rewrite (txavail_rep fs s) by apply Hsd. osimpl.
    rewrite (proj2 (Z.eqb_eq _ 0)); [done|]. unfold n, send_len, TCP_MSS in E. lia.
  - destruct (qman_send_general c fs s u p nbh ts Hsd ltac:(fold n; lia) Hts) as (q & Hq & Hseg).
    destruct (segment_payload (fs_tx fs) s (tx_sent fs) k) as (stale & E' & Hst); [apply Hsd..| |].
    { unfold k, payload_len. fold n. destruct (tx_fin fs); simpl; lia. }
    fold k in Hseg. rewrite E' in Hseg. by exists q, stale.
Qed.

End Segments.

(** ** Acknowledgements *)

(** [packet_dequeue] frees [n] bytes of the transmit queue. *)
Lemma packet_dequeue_spec fs s n :
  rep (fs_tx fs) s -> 0 <= n <= Z.of_nat (length (visible s)) ->
  exists q, packet_dequeue fs n = Ok (fs <| fs_tx := q |>) /\
    rep q (mk_fifo (drop (Z.to_nat n) (visible s)) (pending s)).
Proof.
  intros R Hn. unfold packet_dequeue, rq_try_dequeue.
  pose proof (rq_dequeue_local (fs_tx fs) s false n true R ltac:(lia)) as Hd.
  unfold fifo_dequeue in Hd. rewrite (proj2 (Z.ltb_ge _ n)) in Hd by lia.
  destruct Hd as (q & -> & Hrep & _). osimpl. exists q. by split.
Qed.

(** The number of bytes the packet acknowledges. *)
Definition acked (fs : flowst) (p : pkt_tcp) : Z :=
  u32 (tcp_ackno (p_tcp p) - u32 (tx_next_seq fs - tx_sent fs)).

(** A flow that receives an ACK for bytes of its transmit queue [s]. *)
Record ackable (fs : flowst) (s : fifo) (p : pkt_tcp) : Prop := {
  ab_tx : rep (fs_tx fs) s;
  ab_flag : has_all (TCPH_FLAGS (p_tcp p)) TCP_ACK = true;
  ab_next : 0 <= tx_next_seq fs < 4294967296;
  ab_sent : 0 <= tx_sent fs <= Z.of_nat (length (visible s));
  ab_ack : 0 <= tcp_ackno (p_tcp p) < 4294967296;
}.

Lemma ackable_valid fs s p :
  ackable fs s p -> acked fs p <= Z.of_nat (length (visible s)) ->
  tcp_valid_rxack fs (tcp_ackno (p_tcp p)) = Ok (Some (acked fs p)).
Proof.
  intros [R _ Hnext Hsent Hack] Hn. unfold tcp_valid_rxack. rewrite (rep_enqueued _ _ R). osimpl.
  pose proof (rep_fits _ _ R). pose proof (rep_bs _ _ R). unfold fifo_size, RDMA_QUEUE_PAD, acked in *.
  set (v := Z.of_nat (length (visible s))) in *. set (ack := tcp_ackno (p_tcp p)) in *.
  pose proof (u32_range (tx_next_seq fs - tx_sent fs)) as Hu.
  rewrite u32_add_cases by lia. rewrite u32_sub_cases in Hn by lia.
  rewrite (u32_sub_cases (tx_next_seq fs)) in * by lia.
  revert Hn. bsplit; intros; try done; lia.
Qed.

(** Whether an ACK completes three duplicates. *)
Definition third_dupack (fs : flowst) (n orig_payload : Z) : bool :=
  (n =? 0) && (orig_payload =? 0) && (u32 (rx_dupack_cnt fs + 1) >=? 3).

Lemma acked_una y x :
  0 <= x < 4294967296 -> u32 (y + u32 (x - u32 y)) = x.
Proof.
  intros Hx. unfold u32. rewrite Z.add_mod_idemp_r by lia.
  replace (y + (x - y mod 4294967296)) with (y + x - y mod 4294967296) by lia.
  rewrite Zminus_mod_idemp_r. replace (y + x - y) with x by lia. by apply Z.mod_small.
Qed.

(** C39. An ACK for bytes in flight frees exactly those bytes of the transmit
    queue and moves the first unacknowledged byte to the acknowledged number; the
    third duplicate in a row starts a retransmission instead. *)
Theorem packet_ack_frees fs s p orig_payload :
  ackable fs s p -> acked fs p <= tx_sent fs ->
  exists fs', packet_ack fs p orig_payload =
      Ok (third_dupack fs (acked fs p) orig_payload, fs', acked fs p) /\
    rep (fs_tx fs') (mk_fifo (drop (Z.to_nat (acked fs p)) (visible s)) (pending s)) /\
    tx_next_seq fs' = tx_next_seq fs /\
    (if third_dupack fs (acked fs p) orig_payload then tx_sent fs' = 0
     else tx_sent fs' = tx_sent fs - acked fs p /\
          u32 (tx_next_seq fs' - tx_sent fs') = tcp_ackno (p_tcp p)).
Proof.
  intros Hab Hn. pose proof Hab as [R Hflag Hnext Hsent Hack].
  assert (0 <= acked fs p) as H0 by apply u32_range.
  assert (u32 (tx_next_seq fs - (tx_sent fs - acked fs p)) = tcp_ackno (p_tcp p)) as Huna.
  { replace (tx_next_seq fs - (tx_sent fs - acked fs p))
      with (tx_next_seq fs - tx_sent fs + acked fs p) by lia. by apply acked_una. }
  pose proof (rep_fits _ _ R). pose proof (rep_bs _ _ R). unfold fifo_size, RDMA_QUEUE_PAD in *.
  unfold packet_ack. rewrite Hflag.
  pose proof (ackable_valid fs s p Hab ltac:(lia)) as Hv.
  match goal with |- context [tcp_valid_rxack ?f ?a] =>
    change (tcp_valid_rxack f a) with (tcp_valid_rxack fs a) end.
  rewrite Hv. osimpl. set (n := acked fs p) in *.
  match goal with |- context [if has_all _ TCP_ECE then ?f else ?g] =>
    set (f1 := if has_all _ TCP_ECE then f else g);
    assert (fs_tx f1 = fs_tx fs /\ tx_sent f1 = tx_sent fs /\ tx_next_seq f1 = tx_next_seq fs /\
      rx_dupack_cnt f1 = rx_dupack_cnt fs) as (E1 & E2 & E3 & E4) by (unfold f1; by case_match) end.
  rewrite E2, (proj2 (Z.leb_le n _)) by done.
  destruct (packet_dequeue_spec f1 s n) as (q & -> & Hq); [by rewrite E1|lia|]. osimpl. simpl (tx_sent _).
  rewrite E2, (u32_small (_ - n)) by lia. unfold third_dupack.
  destruct (Z.eqb_spec n 0) as [Hz|Hnz]; osimpl.
  - destruct (orig_payload =? 0); osimpl.
    + simpl (rx_dupack_cnt _). rewrite E4. destruct (u32 (rx_dupack_cnt fs + 1) >=? 3).
      * eexists. split; [done|]. unfold flow_reset_retransmit. simpl. by case_match.
      * eexists. split; [done|]. simpl. rewrite E3. by split_and!.
    + eexists. split; [done|]. simpl. rewrite E3. by split_and!.
  - eexists. split; [done|]. simpl. rewrite E3. by split_and!.
Qed.

(** Code bug: an ACK beyond the bytes in flight (accepted since
    [ALLOW_FUTURE_ACKS] is set) moves the first unacknowledged byte by all the
    acknowledged bytes, but frees only those beyond the ones in flight: the queue
    still starts with bytes that were acknowledged, which will be sent again as
    the bytes after them. *)
Theorem packet_ack_future_underfrees fs s p orig_payload :
  ackable fs s p -> tx_sent fs < acked fs p <= Z.of_nat (length (visible s)) ->
  exists fs', packet_ack fs p orig_payload = Ok (false, fs', acked fs p) /\
    u32 (tx_next_seq fs' - tx_sent fs') = tcp_ackno (p_tcp p) /\ tx_sent fs' = 0 /\
    rep (fs_tx fs') (mk_fifo (drop (Z.to_nat (acked fs p - tx_sent fs)) (visible s)) (pending s)).
Proof.
  intros Hab Hn. pose proof Hab as [R Hflag Hnext Hsent Hack].
  pose proof (rep_fits _ _ R). pose proof (rep_bs _ _ R). unfold fifo_size, RDMA_QUEUE_PAD in *.
  unfold packet_ack. rewrite Hflag.
  pose proof (ackable_valid fs s p Hab ltac:(lia)) as Hv.
  match goal with |- context [tcp_valid_rxack ?f ?a] =>
    change (tcp_valid_rxack f a) with (tcp_valid_rxack fs a) end.
  rewrite Hv. osimpl. pose proof (acked_una (tx_next_seq fs - tx_sent fs) _ Hack) as Huna.
  fold (acked fs p) in Huna. set (n := acked fs p) in *.
  match goal with |- context [if has_all _ TCP_ECE then ?f else ?g] =>
    set (f1 := if has_all _ TCP_ECE then f else g);
    assert (fs_tx f1 = fs_tx fs /\ tx_sent f1 = tx_sent fs /\ tx_next_seq f1 = tx_next_seq fs)
      as (E1 & E2 & E3) by (unfold f1; by case_match) end.
  rewrite E2, (proj2 (Z.leb_gt n _)) by lia. simpl (tx_sent _). rewrite E2, (u32_small (n - _)) by lia.
  match goal with |- context [packet_dequeue ?f _] => set (f2 := f) end.
  destruct (packet_dequeue_spec f2 s (n - tx_sent fs)) as (q & -> & Hq); [by simpl; rewrite E1|lia|].
  osimpl. rewrite (proj2 (Z.eqb_neq n 0)) by lia. osimpl. eexists. split; [done|].
  simpl. rewrite E3, Z.sub_0_r. split_and!; [|done|done].
  etrans; [|exact Huna]. unfold u32. rewrite Z.mod_mod by lia. f_equal. lia.
Qed.

(** ** Retransmission *)

(** Code bug: [flow_reset_retransmit] is meant to reset the flow "as if we
    never transmitted those segments" but keeps [tx_next_seq]. The segment sent
    next carries the first unacknowledged bytes of the queue under the sequence
    number after the last byte sent, which is not theirs. *)
Theorem retransmit_wrong_seq `{Checksums} eth_addr c fs s u p nbh ts :
  sendable c (flow_reset_retransmit fs) s u p -> tx_fin fs = false -> 0 < send_len (flow_reset_retransmit fs) s ->
  0 <= ts < 4294967296 -> 0 < tx_sent fs < 4294967296 -> 0 <= tx_next_seq fs < 4294967296 ->
  exists q fs' c',
    fast_flows_qman_send eth_addr c (flow_reset_retransmit fs) nbh p ts = Ok (0, fs', c') /\
    tx_handles c' = tx_handles c ++ [q] /\
    (exists wnd, segment (te_pkt q) (te_len q) (tx_next_seq fs) (rx_next_seq fs)
       (Z.lor TCP_PSH TCP_ACK) wnd ts (tx_next_ts fs)
       (take (Z.to_nat (send_len (flow_reset_retransmit fs) s)) (visible s))) /\
    tx_next_seq fs <> u32 (tx_next_seq fs - tx_sent fs).
Proof.
  intros Hsd Hfin Hlen Hts Hsent Hnext. set (fr := flow_reset_retransmit fs) in *.
  assert (tx_next_seq fr = tx_next_seq fs /\ rx_next_seq fr = rx_next_seq fs /\
    tx_next_ts fr = tx_next_ts fs /\ tx_sent fr = 0 /\ tx_fin fr = tx_fin fs) as (E1 & E2 & E3 & E4 & E5)
    by (unfold fr, flow_reset_retransmit; simpl; by case_match).
  destruct (qman_send_general eth_addr c fr s u p nbh ts Hsd Hlen Hts) as (q & Hq & Hseg).
  pose proof (sd_tx _ _ _ _ _ Hsd) as R.
  unfold payload_len, seg_flags in *. rewrite E5, Hfin in *. simpl Z.b2z in *. rewrite Z.sub_0_r in *.
  rewrite (rep_visible_range _ s) in Hseg by (rewrite ?E4; unfold send_len in *; done || lia).
  rewrite E1, E2, E3, E4, drop_0 in Hseg.
  eexists _, _, _. split; [exact Hq|]. split; [done|]. split; [by eexists|].
  intros E. rewrite u32_sub_cases in E by lia. revert E. bsplit; lia.
Qed.

(** ** The 16-bit flow index *)

(** Code bug: [fast_flows_qman_fwd] (and [fast_flows_packet]) keep the index
    of the flow in a [uint16_t], but there are 131072 flows. For the upper half
    the re-armed queue is that of another flow; the flow's own queue stays as it
    was, so a flow that moved to this core is never served. *)
Theorem fast_flows_qman_fwd_wrong_queue m c idx fs avail_ nl sl :
  65536 <= idx < FLEXNIC_PL_FLOWST_NUM -> get_flow m idx = Ok fs -> lock fs = 0 ->
  tcp_txavail fs None = Ok avail_ -> 0 < avail_ < 4294967296 -> 0 <= tx_rate fs < 4294967296 ->
  qman_ok (qman c) nl sl -> idx ∉ nl ++ sl 0%nat ->
  exists m' c' nl' sl', fast_flows_qman_fwd m c idx = Ok (0, m', c') /\ qman_ok (qman c') nl' sl' /\
    params (q_of (qman c') idx) = params (q_of (qman c) idx) /\ idx ∉ nl' ++ sl' 0%nat /\
    params (q_of (qman c') (idx - 65536)) = (tx_rate fs, avail_, TCP_MSS) /\
    (idx - 65536) ∈ nl' ++ sl' 0%nat.
Proof.
  intros Hidx Hfs Hlock Hav Hr1 Hr2 Hok Hidle. unfold FLEXNIC_PL_FLOWST_NUM in Hidx.
  unfold fast_flows_qman_fwd. rewrite Hfs. osimpl. unfold fs_lock.
  rewrite (proj2 (Z.eqb_eq _ _)) by done. osimpl.
  match goal with |- context [tcp_txavail ?f None] =>
    change (tcp_txavail f None) with (tcp_txavail fs None) end.
  rewrite Hav. osimpl. assert (u16 idx = idx - 65536) as -> by (unfold u16; apply mod_sub_once; lia).
  simpl (tx_rate _). unfold qman_set_or_abort.
  destruct (qman_set_ok (qman c) nl sl (idx - 65536) (tx_rate fs) avail_ TCP_MSS
    (Z.lor (Z.lor QMAN_SET_RATE QMAN_SET_MAXCHUNK) QMAN_SET_AVAIL) Hok)
    as (t' & nl' & sl' & -> & Hok' & Hp & Hmem); try (unfold FLEXNIC_NUM_QMQUEUES, TCP_MSS; lia).
  osimpl. simpl (negb _). osimpl. eexists _, _, nl', sl'. split; [done|]. split; [done|].
  simpl (qman _). split_and!.
  - by rewrite Hp, bool_decide_eq_false_2 by lia.
  - by rewrite Hmem by lia.
  - rewrite Hp, bool_decide_eq_true_2 by done. reflexivity.
  - apply (qk_backlog _ _ _ Hok'). pose proof (Hp (idx - 65536)) as Hq.
    rewrite bool_decide_eq_true_2 in Hq by done. unfold params in Hq. simpl in Hq.
    injection Hq as _ -> _. lia.
Qed.

(** ** Flow lookup *)
Section Lookup.
Context (crc4 crc8 : Z -> Z -> Z) (m : fp_mem) (p : pkt_tcp).
Let h := flow_hash crc4 crc8 (ip_dest (p_ip p)) (ip_src (p_ip p)) (tcp_dest (p_tcp p)) (tcp_src (p_tcp p)).

(** Every live entry of the bucket refers to a flow that is set up. *)
Definition bucket_ok : Prop := forall j fid,
  0 <= j < FLEXNIC_PL_FLOWHT_NBSZ -> probe (flowht m) h j = Some fid ->
  exists fs, get_flow m fid = Ok fs.

(** The flow [fid] has the packet's addresses and an entry in the bucket. *)
Definition in_bucket (fid : Z) : Prop := exists j fs,
  0 <= j < FLEXNIC_PL_FLOWHT_NBSZ /\ probe (flowht m) h j = Some fid /\
  get_flow m fid = Ok fs /\ fs_matches fs p = true.

Lemma probe_from_spec n : forall j,
  (forall i fid, j <= i < j + Z.of_nat n -> probe (flowht m) h i = Some fid ->
     exists fs, get_flow m fid = Ok fs) ->
  exists r, probe_from m h p n j = Ok r /\
    match r with
    | Some fid => exists i fs, j <= i < j + Z.of_nat n /\ probe (flowht m) h i = Some fid /\
        get_flow m fid = Ok fs /\ fs_matches fs p = true
    | None => forall i fid fs, j <= i < j + Z.of_nat n -> probe (flowht m) h i = Some fid ->
        get_flow m fid = Ok fs -> fs_matches fs p = false
    end.
Proof.
  induction n as [|n IH]; intros j Hok; simpl.
  { exists None. split; [done|]. lia. }
  destruct (IH (j + 1)) as (r & Hr & Hres); [intros i fid Hi; apply Hok; lia|].
  destruct (probe (flowht m) h j) as [fid|] eqn:Hp.
  - destruct (Hok j fid) as (fs & Hfs); [lia|done|]. rewrite Hfs. osimpl.
    destruct (fs_matches fs p) eqn:Hm.
    + exists (Some fid). split; [done|]. exists j, fs. split_and!; try done; lia.
    + exists r. split; [done|]. destruct r as [fid'|].
      * destruct Hres as (i & fs' & ? & ?). exists i, fs'. split; [lia|done].
      * intros i fid' fs' Hi Hp' Hfs'. destruct (decide (i = j)) as [->|?]; [congruence|].
        apply (Hres i fid'); [lia|done|done].
  - exists r. split; [done|]. destruct r as [fid'|].
    + destruct Hres as (i & fs' & ? & ?). exists i, fs'. split; [lia|done].
    + intros i fid' fs' Hi Hp' Hfs'. destruct (decide (i = j)) as [->|?]; [congruence|].
      apply (Hres i fid'); [lia|done|done].
Qed.

(** The flow lookup finds the flow of a packet exactly when it has an entry
    in the bucket; with one flow per connection it finds that flow. *)
Theorem fast_flows_packet_fss_finds :
  bucket_ok -> (forall a b, in_bucket a -> in_bucket b -> a = b) ->
  exists r, fast_flows_packet_fss crc4 crc8 m p = Ok r /\ forall fid, r = Some fid <-> in_bucket fid.
Proof using All.
  intros Hok Huniq. destruct (probe_from_spec 4 0) as (r & Hr & Hres);
    [intros i fid Hi; apply Hok; unfold FLEXNIC_PL_FLOWHT_NBSZ; lia|].
  exists r. split; [exact Hr|]. intros fid. destruct r as [f|].
  - assert (in_bucket f) as Hf by (destruct Hres as (i & fs & ? & ?); exists i, fs;
      unfold FLEXNIC_PL_FLOWHT_NBSZ; split; [lia|done]).
    split; [by intros [= <-]|]. intros Hfid. f_equal. by apply Huniq.
  - split; [done|]. intros (i & fs & Hi & Hp & Hfs & Hm). unfold FLEXNIC_PL_FLOWHT_NBSZ in Hi.
    rewrite (Hres i fid fs) in Hm by (done || lia). done.
Qed.

End Lookup.

(** ** Concrete flows *)
Module Demo.

#[export] Instance checksums : Checksums := {|
  fp_xsumoffload := true; rte_ipv4_cksum := fun _ => 0; rte_ipv4_udptcp_cksum := fun _ _ _ => 0 |}.

Definition ctx : dataplane_context :=
  mk_dctx 0 Qman.Demo.t [] [] [] [] 0 (replicate 128 0) 0 0 0.

(** Ten bytes to transmit, [sent] of them in flight. *)
Definition queued : fifo := RdmaQueue.Demo.zeros 10 0.
Definition flow (sent : Z) : flowst :=
  TcpCommon.Demo.flow (RdmaQueue.Demo.q64 60 60 60) (RdmaQueue.Demo.q64 10 20 20) 1000 100 sent 4294967292.
Definition buf : pkt_tcp := TcpCommon.Demo.pkt 5 (replicate 1500 0).
Definition ack_pkt (ack : Z) : pkt_tcp :=
  buf <| p_tcp := (p_tcp buf) <| tcp_ackno := ack |> |>.

Lemma queued_rep : rep (RdmaQueue.Demo.q64 10 20 20) queued.
Proof. constructor; RdmaQueue.Demo.by_compute. Qed.

Lemma flow_sendable sent : 0 <= sent <= 10 -> sendable ctx (flow sent) queued 0 buf.
Proof.
  intros Hs. split; try done; first [apply queued_rep|simpl; lia|vm_compute; split; congruence].
Qed.

Lemma flow_ackable sent ack :
  0 <= sent <= 10 -> 0 <= ack < 4294967296 -> ackable (flow sent) queued (ack_pkt ack).
Proof. intros Hs Ha. split; first [apply queued_rep|reflexivity|simpl; lia]. Qed.

Lemma reset_sendable : sendable ctx (flow_reset_retransmit (flow 4)) queued 0 buf.
Proof.
  split; try done; first [apply queued_rep|simpl; lia|vm_compute; split; congruence].
Qed.

(** Flow 70000 exists; flow 5 is in bucket 0 of the flow table. *)
Definition mem : fp_mem :=
  mk_fp {[ 70000 := flow 4; 5 := TcpCommon.Demo.fs 1000 ]}
    {[ 0 := mk_hte (2147483648 + 5) 0 ]} [] (mk_appctx (RdmaQueue.Demo.q64 60 60 60)
    (RdmaQueue.Demo.q64 60 60 60) true) ∅.

End Demo.

#[local] Existing Instance Demo.checksums.

Lemma fast_flows_qman_sends_witness :
  (exists q, fast_flows_qman_send 9 Demo.ctx (Demo.flow 0) 3 Demo.buf 55 =
      Ok (0, (Demo.flow 0) <| tx_next_seq := 6 |> <| tx_sent := 10 |>,
          Demo.ctx <| tx_handles := [mk_txe 3 0 76 q] |>) /\
    segment q 76 4294967292 1000 24 56 55 0 (replicate 10 0)) /\
  exists q stale, segment q 76 4294967292 1000 24 56 55 0 (replicate 6 0 ++ stale) /\ length stale = 4%nat.
Proof.
  pose proof (fast_flows_qman_sends 9 Demo.ctx (Demo.flow 0) Demo.queued 0 Demo.buf 3 55
    (Demo.flow_sendable 0 ltac:(lia)) ltac:(lia)) as (q & stale & E & Hs & Hl).
  pose proof (fast_flows_qman_sends 9 Demo.ctx (Demo.flow 4) Demo.queued 0 Demo.buf 3 55
    (Demo.flow_sendable 4 ltac:(lia)) ltac:(lia)) as (q' & stale' & E' & Hs' & Hl').
  split.
  - exists q. destruct stale; [|vm_compute in Hl; discriminate]. split; [exact E|exact Hs].
  - exists q', stale'. split; [exact Hs'|]. apply Nat2Z.inj. exact Hl'.
Defined.

Lemma packet_ack_frees_witness :
  exists fs', packet_ack (Demo.flow 4) (Demo.ack_pkt 4294967290) 0 = Ok (false, fs', 2) /\
    rep (fs_tx fs') (mk_fifo (replicate 8 0) []) /\ tx_next_seq fs' = 4294967292 /\
    (tx_sent fs' = 4 - 2 /\ u32 (tx_next_seq fs' - tx_sent fs') = 4294967290).
Proof.
  apply (packet_ack_frees (Demo.flow 4) Demo.queued (Demo.ack_pkt 4294967290) 0);
    [apply Demo.flow_ackable; lia|vm_compute; congruence].
Defined.

Lemma packet_ack_future_underfrees_witness :
  exists fs', packet_ack (Demo.flow 4) (Demo.ack_pkt 4294967294) 0 = Ok (false, fs', 6) /\
    u32 (tx_next_seq fs' - tx_sent fs') = 4294967294 /\ tx_sent fs' = 0 /\
    rep (fs_tx fs') (mk_fifo (replicate 8 0) []).
Proof.
  apply (packet_ack_future_underfrees (Demo.flow 4) Demo.queued (Demo.ack_pkt 4294967294) 0);
    [apply Demo.flow_ackable; lia|split; [reflexivity|vm_compute; congruence]].
Defined.

Lemma retransmit_wrong_seq_witness :
  exists q fs' c',
    fast_flows_qman_send 9 Demo.ctx (flow_reset_retransmit (Demo.flow 4)) 3 Demo.buf 55 = Ok (0, fs', c') /\
    tx_handles c' = [] ++ [q] /\
    (exists wnd, segment (te_pkt q) (te_len q) 4294967292 1000 24 wnd 55 0 (replicate 10 0)) /\
    4294967292 <> 4294967288.
Proof.
  apply (retransmit_wrong_seq 9 Demo.ctx (Demo.flow 4) Demo.queued 0 Demo.buf 3 55);
    [exact Demo.reset_sendable|reflexivity|vm_compute; reflexivity|lia|simpl; lia|simpl; lia].
Defined.

Lemma fast_flows_qman_fwd_wrong_queue_witness :
  exists m' c' nl' sl', fast_flows_qman_fwd Demo.mem Demo.ctx 70000 = Ok (0, m', c') /\
    qman_ok (qman c') nl' sl' /\
    params (q_of (qman c') 70000) = params (q_of Qman.Demo.t 70000) /\ 70000 ∉ nl' ++ sl' 0%nat /\
    params (q_of (qman c') 4464) = (0, 10, TCP_MSS) /\ 4464 ∈ nl' ++ sl' 0%nat.
Proof.
  apply (fast_flows_qman_fwd_wrong_queue Demo.mem Demo.ctx 70000 (Demo.flow 4) 10 ([5] ++ []) (fun _ => []));
    [vm_compute; split; congruence|reflexivity|reflexivity|reflexivity|lia|vm_compute; split; congruence|
     exact Qman.Demo.t_ok|set_solver].
Defined.

Lemma fast_flows_packet_fss_finds_witness :
  exists r, fast_flows_packet_fss (fun _ _ => 0) (fun _ _ => 0) Demo.mem Demo.buf = Ok r /\
    forall fid, r = Some fid <-> in_bucket (fun _ _ => 0) (fun _ _ => 0) Demo.mem Demo.buf fid.
Proof.
  assert (forall j fid, 0 <= j < FLEXNIC_PL_FLOWHT_NBSZ ->
    probe (flowht Demo.mem) 0 j = Some fid -> fid = 5) as Hp.
  { intros j fid Hj. unfold FLEXNIC_PL_FLOWHT_NBSZ in Hj.
    assert (j = 0 \/ j = 1 \/ j = 2 \/ j = 3) as [ -> | [ -> | [ -> | -> ] ] ] by lia;
      vm_compute; congruence. }
  apply (fast_flows_packet_fss_finds (fun _ _ => 0) (fun _ _ => 0) Demo.mem Demo.buf).
  - intros j fid Hj H. apply (Hp j fid Hj) in H as ->. exists (TcpCommon.Demo.fs 1000). reflexivity.
  - intros a b (j & fs & Hj & Ha & _) (k & fs' & Hk & Hb & _).
    rewrite (Hp j a Hj Ha), (Hp k b Hk Hb). reflexivity.
Defined.
