(* ===== verification/Wire.v ===== *)
(** * Memory layouts: packets, queue entries and the DMA region

    The structs of include/packet_defs.h and include/tas_memif.h as the bytes
    they are in memory (packed, little endian but for the network-order fields),
    and the accessors of tas_nic/fast/dma.h. *)
From S2P Require Import Prelude RdmaQueue Packets FlowState.

#[local] Open Scope Z_scope.

(** ** Integers as bytes *)
Fixpoint le_bytes (n : nat) (x : Z) : list Z :=
  match n with O => [] | S n => u8 x :: le_bytes n (x / 256) end.
Fixpoint le_value (bs : list Z) : Z :=
  match bs with [] => 0 | b :: bs => b + 256 * le_value bs end.

(** The little-endian and the big-endian field of [n] bytes at [off]. *)
Definition field (bs : list Z) (off n : nat) : list Z := take n (drop off bs).
Definition get_le (bs : list Z) (off n : nat) : Z := le_value (field bs off n).
Definition get_be (bs : list Z) (off n : nat) : Z := le_value (rev (field bs off n)).
Definition be_bytes (n : nat) (x : Z) : list Z := rev (le_bytes n x).

Lemma length_le_bytes n x : length (le_bytes n x) = n.
Proof. revert x. induction n; intros x; simpl; [done|by rewrite IHn]. Qed.
Lemma length_be_bytes n x : length (be_bytes n x) = n.
Proof. unfold be_bytes. by rewrite length_rev, length_le_bytes. Qed.

Lemma le_value_bytes n x : le_value (le_bytes n x) = x mod 256 ^ Z.of_nat n.
Proof.
  revert x. induction n as [|n IH]; intros x; [simpl; by rewrite Z.mod_1_r|].
  simpl le_bytes. simpl le_value. rewrite IH. unfold u8.
  replace (Z.of_nat (S n)) with (1 + Z.of_nat n) by lia.
  rewrite Z.pow_add_r, Z.pow_1_r by lia.
  rewrite Z.rem_mul_r by lia. lia.
Qed.

Lemma le_value_small n x : 0 <= x < 256 ^ Z.of_nat n -> le_value (le_bytes n x) = x.
Proof. intros. by rewrite le_value_bytes, Z.mod_small. Qed.
Lemma be_value_small n x : 0 <= x < 256 ^ Z.of_nat n -> le_value (rev (be_bytes n x)) = x.
Proof. intros. unfold be_bytes. by rewrite rev_involutive, le_value_small. Qed.

(** ** Queue entries *)
Record krx_entry := mk_krx { krx_addr : Z; krx_len : Z; krx_fn_core : Z; krx_flow_group : Z; krx_type : Z }.

(** The message of a [struct flextcp_pl_ktx], with the alternatives of its union. *)
Inductive ktx_entry :=
  | KtxPacket (addr len : Z)
  | KtxPacketNots (addr len : Z)
  | KtxConnretran (flow_id : Z)
  | KtxOther (type : Z).

Definition SIZEOF_KRX : Z := 64.
Definition SIZEOF_KTX : Z := 64.
Definition SIZEOF_ARX : Z := 32.
Definition SIZEOF_ATX : Z := 16.

(** The bytes of a union that a message does not use are not read by anyone;
    they are zero here. *)
Definition encode_krx (e : krx_entry) : list Z :=
  le_bytes 8 (krx_addr e) ++ le_bytes 2 (krx_len e) ++ le_bytes 2 (krx_fn_core e)
  ++ le_bytes 2 (krx_flow_group e) ++ replicate 49 0 ++ le_bytes 1 (krx_type e).
Definition decode_krx (b : list Z) : krx_entry :=
  mk_krx (get_le b 0 8) (get_le b 8 2) (get_le b 10 2) (get_le b 12 2) (get_le b 63 1).

Definition encode_ktx (e : ktx_entry) : list Z :=
  match e with
  | KtxPacket a l => le_bytes 8 a ++ le_bytes 2 l ++ replicate 53 0 ++ le_bytes 1 FLEXTCP_PL_KTX_PACKET
  | KtxPacketNots a l =>
      le_bytes 8 a ++ le_bytes 2 l ++ replicate 53 0 ++ le_bytes 1 FLEXTCP_PL_KTX_PACKET_NOTS
  | KtxConnretran f => le_bytes 4 f ++ replicate 59 0 ++ le_bytes 1 FLEXTCP_PL_KTX_CONNRETRAN
  | KtxOther t => replicate 63 0 ++ le_bytes 1 t
  end.
Definition decode_ktx (b : list Z) : ktx_entry :=
  let t := get_le b 63 1 in
  if t =? FLEXTCP_PL_KTX_PACKET then KtxPacket (get_le b 0 8) (get_le b 8 2)
  else if t =? FLEXTCP_PL_KTX_PACKET_NOTS then KtxPacketNots (get_le b 0 8) (get_le b 8 2)
  else if t =? FLEXTCP_PL_KTX_CONNRETRAN then KtxConnretran (get_le b 0 4)
  else KtxOther t.

Definition encode_arx (e : arx_entry) : list Z :=
  le_bytes 8 (arx_opaque e) ++ le_bytes 4 (arx_rx_bump e) ++ le_bytes 4 (arx_rx_pos e)
  ++ le_bytes 4 (arx_tx_bump e) ++ le_bytes 1 (arx_flags e) ++ replicate 10 0 ++ le_bytes 1 (arx_type e).
Definition decode_arx (b : list Z) : arx_entry :=
  mk_arx (get_le b 0 8) (get_le b 8 4) (get_le b 12 4) (get_le b 16 4) (get_le b 20 1) (get_le b 31 1).

Definition encode_atx (e : atx_entry) : list Z :=
  le_bytes 4 (atx_rx_bump e) ++ le_bytes 4 (atx_tx_bump e) ++ le_bytes 4 (atx_flow_id e)
  ++ le_bytes 2 (atx_bump_seq e) ++ le_bytes 1 (atx_flags e) ++ le_bytes 1 (atx_type e).
Definition decode_atx (b : list Z) : atx_entry :=
  mk_atx (get_le b 0 4) (get_le b 4 4) (get_le b 8 4) (get_le b 12 2) (get_le b 14 1) (get_le b 15 1).

(** ** Packets

    MAC addresses and the two checksums are read as native integers, the other
    fields of more than a byte are in network order. *)
Definition pkt_of_bytes (b : list Z) : pkt_tcp :=
  mk_pkt (mk_eth (get_le b 0 6) (get_le b 6 6) (get_be b 12 2))
    (mk_ip (get_le b 14 1) (get_le b 15 1) (get_be b 16 2) (get_be b 18 2) (get_be b 20 2)
       (get_le b 22 1) (get_le b 23 1) (get_le b 24 2) (get_be b 26 4) (get_be b 30 4))
    (mk_tcp (get_be b 34 2) (get_be b 36 2) (get_be b 38 4) (get_be b 42 4) (get_be b 46 2)
       (get_be b 48 2) (get_le b 50 2) (get_be b 52 2))
    (drop 54 b).

Definition eth_bytes (h : eth_hdr) : list Z :=
  le_bytes 6 (eth_dest h) ++ le_bytes 6 (eth_src h) ++ be_bytes 2 (eth_type h).
Definition ip_bytes (h : ip_hdr) : list Z :=
  le_bytes 1 (ip_v_hl h) ++ le_bytes 1 (ip_tos h) ++ be_bytes 2 (ip_len h) ++ be_bytes 2 (ip_id h)
  ++ be_bytes 2 (ip_offset h) ++ le_bytes 1 (ip_ttl h) ++ le_bytes 1 (ip_proto h)
  ++ le_bytes 2 (ip_chksum h) ++ be_bytes 4 (ip_src h) ++ be_bytes 4 (ip_dest h).
Definition tcp_bytes (h : tcp_hdr) : list Z :=
  be_bytes 2 (tcp_src h) ++ be_bytes 2 (tcp_dest h) ++ be_bytes 4 (tcp_seqno h)
  ++ be_bytes 4 (tcp_ackno h) ++ be_bytes 2 (tcp_hdrlen_rsvd_flags h) ++ be_bytes 2 (tcp_wnd h)
  ++ le_bytes 2 (tcp_chksum h) ++ be_bytes 2 (tcp_urgp h).
Definition bytes_of_pkt (p : pkt_tcp) : list Z :=
  eth_bytes (p_eth p) ++ ip_bytes (p_ip p) ++ tcp_bytes (p_tcp p) ++ p_rest p.

(** ** The DMA region: [tas_shm], [config.shm_len] bytes. The asserts compare
    machine words. *)
Definition dma_read (shm : list Z) (addr len : Z) : outcome (list Z) :=
  let e := u64 (addr + len) in
  _ ← c_assert ((addr <=? e) && (e <=? Z.of_nat (length shm)));
  mem_read shm addr len.
Definition dma_write (shm : list Z) (addr : Z) (d : list Z) : outcome (list Z) :=
  let e := u64 (addr + Z.of_nat (length d)) in
  _ ← c_assert ((addr <=? e) && (e <=? Z.of_nat (length shm)));
  mem_write shm addr d.

(** ** Round trips *)

(** A field is where the bytes before it end. *)
Lemma field_here pre d post off n :
  length pre = off -> length d = n -> field (pre ++ d ++ post) off n = d.
Proof. intros <- <-. unfold field. by rewrite drop_app_length, take_app_length. Qed.


Ltac concat_length :=
  rewrite ?length_app, ?length_le_bytes, ?length_be_bytes, ?length_replicate; reflexivity.

Definition word_ok (n : nat) (x : Z) : Prop := 0 <= x < 256 ^ Z.of_nat n.

Lemma get_le_here pre n x post off :
  length pre = off -> word_ok n x -> get_le (pre ++ le_bytes n x ++ post) off n = x.
Proof.
  intros Hp Hx. unfold get_le. rewrite field_here by (done || apply length_le_bytes).
  by apply le_value_small.
Qed.
Lemma get_be_here pre n x post off :
  length pre = off -> word_ok n x -> get_be (pre ++ be_bytes n x ++ post) off n = x.
Proof.
  intros Hp Hx. unfold get_be. rewrite field_here by (done || apply length_be_bytes).
  by apply be_value_small.
Qed.

Lemma get_skip d t off n k :
  length d = k -> (k <= off)%nat -> field (d ++ t) off n = field t (off - k) n.
Proof. intros <- Hk. unfold field. by rewrite drop_app_ge. Qed.
Lemma field_head d t n : length d = n -> field (d ++ t) 0 n = d.
Proof. apply (field_here [] d t 0 n eq_refl). Qed.
Lemma field_last d n : length d = n -> field d 0 n = d.
Proof. intros <-. unfold field. by rewrite drop_0, firstn_all. Qed.

(** Look a field up in a concatenation of encoded fields. *)
Ltac layout_lookup :=
  unfold get_le, get_be;
  repeat (
    rewrite <- ?app_assoc;
    first
    [ rewrite field_head by concat_length
    | rewrite field_last by concat_length
    | erewrite get_skip; [|concat_length|simpl; lia]; cbn [Nat.sub] ]).

Ltac field_values :=
  rewrite ?le_value_small, ?be_value_small by assumption.

(** Decide the tests of closed terms. *)
Ltac closed_ifs :=
  cbv zeta;
  repeat match goal with
  | |- context [if ?b then _ else _] => let v := eval vm_compute in b in change b with v; cbv iota
  end.

Definition krx_ok (e : krx_entry) : Prop :=
  word_ok 8 (krx_addr e) /\ word_ok 2 (krx_len e) /\ word_ok 2 (krx_fn_core e) /\
  word_ok 2 (krx_flow_group e) /\ word_ok 1 (krx_type e).
Definition ktx_ok (e : ktx_entry) : Prop :=
  match e with
  | KtxPacket a l | KtxPacketNots a l => word_ok 8 a /\ word_ok 2 l
  | KtxConnretran f => word_ok 4 f
  | KtxOther t => word_ok 1 t /\ t <> FLEXTCP_PL_KTX_PACKET /\ t <> FLEXTCP_PL_KTX_PACKET_NOTS /\
                  t <> FLEXTCP_PL_KTX_CONNRETRAN
  end.
Definition arx_ok (e : arx_entry) : Prop :=
  word_ok 8 (arx_opaque e) /\ word_ok 4 (arx_rx_bump e) /\ word_ok 4 (arx_rx_pos e) /\
  word_ok 4 (arx_tx_bump e) /\ word_ok 1 (arx_flags e) /\ word_ok 1 (arx_type e).
Definition atx_ok (e : atx_entry) : Prop :=
  word_ok 4 (atx_rx_bump e) /\ word_ok 4 (atx_tx_bump e) /\ word_ok 4 (atx_flow_id e) /\
  word_ok 2 (atx_bump_seq e) /\ word_ok 1 (atx_flags e) /\ word_ok 1 (atx_type e).

Lemma krx_roundtrip e : krx_ok e -> decode_krx (encode_krx e) = e.
Proof.
  destruct e as [a l c g t]. intros (H1 & H2 & H3 & H4 & H5). simpl in *.
  unfold decode_krx, encode_krx; simpl krx_addr; simpl krx_len; simpl krx_fn_core;
    simpl krx_flow_group; simpl krx_type.
  f_equal; layout_lookup; field_values; reflexivity.
Qed.

Lemma ktx_roundtrip e : ktx_ok e -> decode_ktx (encode_ktx e) = e.
Proof.
  destruct e as [a l|a l|f|t]; unfold decode_ktx, encode_ktx, ktx_ok.
  - intros [H1 H2]. replace (get_le _ 63 1) with FLEXTCP_PL_KTX_PACKET by (layout_lookup; reflexivity).
    closed_ifs. f_equal; layout_lookup; field_values; reflexivity.
  - intros [H1 H2]. replace (get_le _ 63 1) with FLEXTCP_PL_KTX_PACKET_NOTS by (layout_lookup; reflexivity).
    closed_ifs. f_equal; layout_lookup; field_values; reflexivity.
  - intros H1. replace (get_le _ 63 1) with FLEXTCP_PL_KTX_CONNRETRAN by (layout_lookup; reflexivity).
    closed_ifs. f_equal; layout_lookup; field_values; reflexivity.
  - intros (H1 & Hp & Hn & Hc). replace (get_le _ 63 1) with t by (layout_lookup; field_values; reflexivity).
    cbv zeta. by rewrite !(proj2 (Z.eqb_neq _ _)).
Qed.

Lemma arx_roundtrip e : arx_ok e -> decode_arx (encode_arx e) = e.
Proof.
  destruct e as [a b c d f t]. intros (H1 & H2 & H3 & H4 & H5 & H6). simpl in *.
  unfold decode_arx, encode_arx. cbn [arx_opaque arx_rx_bump arx_rx_pos arx_tx_bump arx_flags arx_type].
  f_equal; layout_lookup; field_values; reflexivity.
Qed.

Lemma atx_roundtrip e : atx_ok e -> decode_atx (encode_atx e) = e.
Proof.
  destruct e as [a b c d f t]. intros (H1 & H2 & H3 & H4 & H5 & H6). simpl in *.
  unfold decode_atx, encode_atx. cbn [atx_rx_bump atx_tx_bump atx_flow_id atx_bump_seq atx_flags atx_type].
  f_equal; layout_lookup; field_values; reflexivity.
Qed.

Lemma entry_lengths (k : krx_entry) (x : ktx_entry) (a : arx_entry) (b : atx_entry) :
  Z.of_nat (length (encode_krx k)) = SIZEOF_KRX /\ Z.of_nat (length (encode_ktx x)) = SIZEOF_KTX /\
  Z.of_nat (length (encode_arx a)) = SIZEOF_ARX /\ Z.of_nat (length (encode_atx b)) = SIZEOF_ATX.
Proof. destruct x; unfold encode_krx, encode_ktx, encode_arx, encode_atx; split_and!; concat_length. Qed.

Definition eth_ok (h : eth_hdr) : Prop :=
  word_ok 6 (eth_dest h) /\ word_ok 6 (eth_src h) /\ word_ok 2 (eth_type h).
Definition ip_ok (h : ip_hdr) : Prop :=
  word_ok 1 (ip_v_hl h) /\ word_ok 1 (ip_tos h) /\ word_ok 2 (ip_len h) /\ word_ok 2 (ip_id h) /\
  word_ok 2 (ip_offset h) /\ word_ok 1 (ip_ttl h) /\ word_ok 1 (ip_proto h) /\
  word_ok 2 (ip_chksum h) /\ word_ok 4 (ip_src h) /\ word_ok 4 (ip_dest h).
Definition tcp_ok (h : tcp_hdr) : Prop :=
  word_ok 2 (tcp_src h) /\ word_ok 2 (tcp_dest h) /\ word_ok 4 (tcp_seqno h) /\
  word_ok 4 (tcp_ackno h) /\ word_ok 2 (tcp_hdrlen_rsvd_flags h) /\ word_ok 2 (tcp_wnd h) /\
  word_ok 2 (tcp_chksum h) /\ word_ok 2 (tcp_urgp h).
Definition pkt_ok (p : pkt_tcp) : Prop := eth_ok (p_eth p) /\ ip_ok (p_ip p) /\ tcp_ok (p_tcp p).

Lemma pkt_roundtrip p : pkt_ok p -> pkt_of_bytes (bytes_of_pkt p) = p.
Proof.
  intros Hp.
  destruct p as [[e1 e2 e3] [i1 i2 i3 i4 i5 i6 i7 i8 i9 i10] [t1 t2 t3 t4 t5 t6 t7 t8] r].
  destruct Hp as ((E1 & E2 & E3) & (I1 & I2 & I3 & I4 & I5 & I6 & I7 & I8 & I9 & I10) &
                  (T1 & T2 & T3 & T4 & T5 & T6 & T7 & T8)). simpl in *.
  unfold pkt_of_bytes, bytes_of_pkt, eth_bytes, ip_bytes, tcp_bytes. simpl p_eth. simpl p_ip. simpl p_tcp.
  simpl p_rest. cbn [eth_dest eth_src eth_type ip_v_hl ip_tos ip_len ip_id ip_offset ip_ttl ip_proto
    ip_chksum ip_src ip_dest tcp_src tcp_dest tcp_seqno tcp_ackno tcp_hdrlen_rsvd_flags tcp_wnd
    tcp_chksum tcp_urgp].
  f_equal; f_equal; layout_lookup; field_values; reflexivity.
Qed.

(** Round trips of the memory layouts: a packet, and the entries of the four
    kinds of context queue, read back from their bytes as they were written, and
    the entries have the sizes the queues are used with. *)
Theorem layouts_roundtrip p k x a b :
  pkt_ok p -> krx_ok k -> ktx_ok x -> arx_ok a -> atx_ok b ->
  pkt_of_bytes (bytes_of_pkt p) = p /\
  decode_krx (encode_krx k) = k /\ Z.of_nat (length (encode_krx k)) = SIZEOF_KRX /\
  decode_ktx (encode_ktx x) = x /\ Z.of_nat (length (encode_ktx x)) = SIZEOF_KTX /\
  decode_arx (encode_arx a) = a /\ Z.of_nat (length (encode_arx a)) = SIZEOF_ARX /\
  decode_atx (encode_atx b) = b /\ Z.of_nat (length (encode_atx b)) = SIZEOF_ATX.
Proof.
  intros Hp Hk Hx Ha Hb. destruct (entry_lengths k x a b) as (? & ? & ? & ?).
  split_and!; auto using pkt_roundtrip, krx_roundtrip, ktx_roundtrip, arx_roundtrip, atx_roundtrip.
Qed.

Lemma layouts_roundtrip_witness :
  let p := mk_pkt (mk_eth 1 2 ETH_TYPE_IP) (mk_ip 69 0 40 3 0 255 6 0 7 8)
             (mk_tcp 80 4000 4294967295 1 20480 100 0 0) [1; 2; 3] in
  pkt_of_bytes (bytes_of_pkt p) = p /\
  decode_krx (encode_krx (mk_krx 4096 60 1 2 1)) = mk_krx 4096 60 1 2 1 /\
  Z.of_nat (length (encode_krx (mk_krx 4096 60 1 2 1))) = 64 /\
  decode_ktx (encode_ktx (KtxPacket 4096 60)) = KtxPacket 4096 60 /\
  Z.of_nat (length (encode_ktx (KtxPacket 4096 60))) = 64 /\
  decode_arx (encode_arx (mk_arx 1 2 3 4 5 1)) = mk_arx 1 2 3 4 5 1 /\
  Z.of_nat (length (encode_arx (mk_arx 1 2 3 4 5 1))) = 32 /\
  decode_atx (encode_atx (mk_atx 1 2 3 4 5 1)) = mk_atx 1 2 3 4 5 1 /\
  Z.of_nat (length (encode_atx (mk_atx 1 2 3 4 5 1))) = 16.
Proof.
  apply (layouts_roundtrip
    (mk_pkt (mk_eth 1 2 ETH_TYPE_IP) (mk_ip 69 0 40 3 0 255 6 0 7 8)
       (mk_tcp 80 4000 4294967295 1 20480 100 0 0) [1; 2; 3])
    (mk_krx 4096 60 1 2 1) (KtxPacket 4096 60) (mk_arx 1 2 3 4 5 1) (mk_atx 1 2 3 4 5 1));
    vm_compute; split_and!; congruence.
Defined.
