(* ===== verification/FastEmu.v ===== *)
(** * The fast-path main loop (tas_nic/fast/fastemu.c, fast_kernel.c, fast_appctx.c,
    tas_nic/blocking.c)

    One iteration of [dataplane_loop] on one core: receiving, the forwarding ring,
    the queue manager, application contexts, the kernel context, and the transmit
    buffer; with the cache of pre-allocated buffers they share. *)
From stdpp Require Import functions.
From S2P Require Import Prelude RdmaQueue Packets FlowState TcpCommon Qman FastCtx FastFlows Wire.

#[local] Open Scope Z_scope.

(** ** What the core is connected to

    DPDK's buffer pool: [pool_alloc] is [network_buf_alloc] (at most the requested
    number of buffers), [pool_free] is [network_free] of one buffer. *)
Class Mempool (P : Type) := {
  pool_alloc : P -> Z -> list Z * P;
  pool_free : P -> Z -> P;
  pool_alloc_bound p n : 0 <= n -> Z.of_nat (length (fst (pool_alloc p n))) <= n;
}.

(** The remote ends of the queues the core writes to. *)
Record links (L : Type) := mk_links { l_flow : Z -> L; l_kctx : L; l_app : Z -> L }.
Arguments mk_links {L}.
Arguments l_flow {L}.
Arguments l_kctx {L}.
Arguments l_app {L}.

(** Everything an operation of the core can change. *)
Record core (L P : Type) := mk_core {
  co_mem : fp_mem; co_ctx : dataplane_context; co_shm : list Z; co_links : links L; co_pool : P;
}.
Arguments mk_core {L P}.
Arguments co_mem {L P}.
Arguments co_ctx {L P}.
Arguments co_shm {L P}.
Arguments co_links {L P}.
Arguments co_pool {L P}.

(** A received buffer: its handle, the data offset and length, the memory from
    there on, and the hash if the device computed one. *)
Record rx_pkt := mk_rxp { rx_nbh : Z; rx_at : Z; rx_len : Z; rx_bytes : list Z; rx_rss : option Z }.
Definition rx_hdr (r : rx_pkt) : pkt_tcp := pkt_of_bytes (rx_bytes r).

(** ** Buffer cache *)
Section Bufcache.
Context {P : Type} `{Mempool P}.

(** [network_buf_alloc(num, handles + pos)]: an incomplete allocation ends with
    the [NULL] that stopped it. *)
Definition network_buf_alloc (handles : list Z) (pos num : Z) (pool : P)
  : outcome (Z * list Z * P) :=
  let '(hs, pool) := pool_alloc pool num in
  let res := Z.of_nat (length hs) in
  handles ← mem_write handles pos (if res <? num then hs ++ [0] else hs);
  mret (res, handles, pool).

(** The refill of an empty-enough cache. *)
Definition bufcache_refill (c : dataplane_context) (pool : P) : outcome (dataplane_context * P) :=
  let grow := u16 (BUFCACHE_SIZE - bufcache_num c) in
  let head := Z.land (bufcache_head c + bufcache_num c) (BUFCACHE_SIZE - 1) in
  '(res, hs, pool) ←
    (if head + grow <=? BUFCACHE_SIZE then network_buf_alloc (bufcache_handles c) head grow pool
     else
       let g := BUFCACHE_SIZE - head in
       '(res, hs, pool) ← network_buf_alloc (bufcache_handles c) head g pool;
       if res =? g then
         '(res', hs, pool) ← network_buf_alloc hs 0 (grow - g) pool;
         mret (res + res', hs, pool)
       else mret (res, hs, pool));
  mret (c <| bufcache_handles := hs |> <| bufcache_num := u16 (bufcache_num c + res) |>, pool).

(** The result is the number of handles and the window of the cache the returned
    pointer gives access to. *)
Definition bufcache_prealloc (c : dataplane_context) (num : Z) (pool : P)
  : outcome (Z * list Z * dataplane_context * P) :=
  '(c, pool) ← (if bufcache_num c <? num then bufcache_refill c pool else mret (c, pool));
  let avail := if bufcache_head c + bufcache_num c <=? BUFCACHE_SIZE
               then bufcache_num c else BUFCACHE_SIZE - bufcache_head c in
  let num := u8 (MIN num avail) in
  mret (num, drop (Z.to_nat (bufcache_head c)) (bufcache_handles c), c, pool).

Definition bufcache_alloc (c : dataplane_context) (num : Z) : outcome dataplane_context :=
  _ ← c_assert (num <=? bufcache_num c);
  mret (c <| bufcache_head := Z.land (bufcache_head c + num) (BUFCACHE_SIZE - 1) |>
          <| bufcache_num := u16 (bufcache_num c - num) |>).

Definition bufcache_free (c : dataplane_context) (handle : Z) (pool : P)
  : outcome (dataplane_context * P) :=
  let num := bufcache_num c in
  if num <? BUFCACHE_SIZE then
    let head := Z.land (bufcache_head c + num) (BUFCACHE_SIZE - 1) in
    hs ← mem_write (bufcache_handles c) head [handle];
    mret (c <| bufcache_handles := hs |> <| bufcache_num := u16 (num + 1) |>, pool)
  else mret (c, pool_free pool handle).

End Bufcache.

(** ** Transmit buffer

    [ret] is what [network_send] answers; the packets that were sent come first. *)
Definition tx_flush (c : dataplane_context) (ret : Z) : list tx_entry * dataplane_context :=
  if tx_num c =? 0 then ([], c)
  else if ret =? tx_num c then (tx_handles c, c <| tx_handles := ([] : list tx_entry) |>)
  else if ret >? 0 then
    (take (Z.to_nat ret) (tx_handles c),
     c <| tx_handles := drop (Z.to_nat ret) (tx_handles c) |>)
  else ([], c).

(** ** Kernel context *)
Section Loop.
Context `{Checksums} (eth_addr : Z) (rss_reta_size : Z).
Context (crc4 crc8 : Z -> Z -> Z).

Definition inject_tcp_ts (p : pkt_tcp) (len ts : Z) : outcome pkt_tcp :=
  if (len <? SIZEOF_PKT_TCP) || negb (eth_type (p_eth p) =? ETH_TYPE_IP)
     || negb (ip_proto (p_ip p) =? IP_PROTO_TCP) then mret p
  else
    '(rv, opt) ← tcp_parse_options p len;
    if negb (rv =? 0) then mret p
    else match opt with
         | None => mret p
         | Some off =>
             rest ← write_be32 (p_rest p) (off + 2) ts;
             mret (fast_flows_kernelxsums (p <| p_rest := rest |>))
         end.

(** [buf] is what the buffer [nbh] holds. *)
Definition fast_kernel_poll (m : fp_mem) (c : dataplane_context) (shm : list Z)
  (nbh : Z) (buf : list Z) (ts : Z) : outcome (Z * fp_mem * dataplane_context) :=
  if negb (enabled (kctx m)) then mret (-1, m, c)
  else
    '(rv, d, q) ← rq_try_dequeue (actx_tx (kctx m)) true SIZEOF_KTX;
    if negb (rv =? 0) then _ ← c_assert (rv >? 0); mret (-1, m, c)
    else
      let m := m <| kctx := (kctx m) <| actx_tx := q |> |> in
      match decode_ktx d with
      | KtxPacket addr len =>
          d ← dma_read shm addr len;
          b ← mem_write buf 0 d;
          p ← inject_tcp_ts (pkt_of_bytes b) len ts;
          c ← tx_send c nbh p 0 len;
          mret (0, m, c)
      | KtxPacketNots addr len =>
          d ← dma_read shm addr len;
          b ← mem_write buf 0 d;
          c ← tx_send c nbh (pkt_of_bytes b) 0 len;
          mret (0, m, c)
      | KtxConnretran flow_id =>
          if flow_id >=? FLEXNIC_PL_FLOWST_NUM then Stop Aborted
          else
            '(m, c) ← fast_flows_retransmit m c flow_id;
            mret (1, m, c)
      | KtxOther _ => Stop Aborted
      end.

Definition network_buf_flowgroup (r : rx_pkt) : Z :=
  match rx_rss r with None => 0 | Some h => u16 (Z.land h (rss_reta_size - 1)) end.

(** The slow path's core among the notified ones. *)
Definition SLOWPATH_CORE : Z := -1.

Context {L : Type} `{RdmaLink L}.

(** The queue entry at the transmit offset holds the address of the packet buffer
    the slow path put there. A result [< sizeof(krx)] is compared unsigned. *)
Definition fast_kernel_packet (m : fp_mem) (c : dataplane_context) (l : L) (shm : list Z) (r : rx_pkt)
  : outcome (fp_mem * dataplane_context * L * list Z) :=
  if negb (enabled (kctx m)) then mret (m, c, l, shm)
  else
    let q := actx_rx (kctx m) in
    '(rv, q, l) ← rq_try_reserve_flush q l SIZEOF_KRX;
    if negb (rv =? 1) then
      _ ← c_assert (rv =? 0);
      mret (m <| kctx := (kctx m) <| actx_rx := q |> |>, c <| kernel_drop := u64 (kernel_drop c + 1) |>, l, shm)
    else
      let len := rx_len r in
      _ ← c_assert (tx_off q mod SIZEOF_KRX =? 0);
      a ← mem_read (buffer q) (tx_off q) 8;
      let addr := le_value a in
      d ← mem_read (rx_bytes r) 0 len;
      shm ← dma_write shm addr d;
      let krx := mk_krx addr len (ctx_id c) (network_buf_flowgroup r) FLEXTCP_PL_KRX_PACKET in
      '(rv, q, l) ← rq_try_enqueue q l (Some (encode_krx krx)) SIZEOF_KRX;
      if negb (rv =? 0) then _ ← c_assert (rv <? 0); Stop Aborted
      else
        '(rv, q, l) ← rq_flush q l;
        if u64 rv <? SIZEOF_KRX then _ ← c_assert (rv <? 0); Stop Aborted
        else mret (m <| kctx := (kctx m) <| actx_rx := q |> |>,
                   c <| notified := notified c ++ [SLOWPATH_CORE] |>, l, shm).

(** ** Application contexts *)
Definition get_appctx (m : fp_mem) (id : Z) : outcome appctx :=
  match appctxs m !! id with Some a => Ok a | None => Stop OutOfBounds end.
Definition put_appctx (m : fp_mem) (id : Z) (a : appctx) : fp_mem :=
  m <| appctxs := <[id := a]> (appctxs m) |>.

Definition fast_appctx_poll_fetch (m : fp_mem) (id : Z) : outcome (option atx_entry * fp_mem) :=
  actx ← get_appctx m id;
  if negb (enabled actx) then mret (None, m)
  else
    '(rv, d, q) ← rq_try_dequeue (actx_tx actx) true SIZEOF_ATX;
    if negb (rv =? 0) then _ ← c_assert (rv >? 0); mret (None, m)
    else
      let atx := decode_atx d in
      if negb (atx_type atx =? FLEXTCP_PL_ATX_CONNUPDATE) then Stop Aborted
      else if atx_flow_id atx >=? FLEXNIC_PL_FLOWST_NUM then Stop Aborted
      else mret (Some atx, put_appctx m id (actx <| actx_tx := q |>)).

Definition fast_appctx_poll_bump (m : fp_mem) (c : dataplane_context) (atx : atx_entry)
  (nbh : Z) (p : pkt_tcp) (ts : Z) : outcome (Z * fp_mem * dataplane_context) :=
  '(ret, m, c) ← fast_flows_bump eth_addr m c (atx_flow_id atx) (atx_bump_seq atx)
                   (atx_rx_bump atx) (atx_tx_bump atx) (atx_flags atx) nbh p ts;
  mret (if negb (ret =? 0) then 1 else ret, m, c).

(** ** Notifications to applications: [arx_cache_flush] *)
Fixpoint arx_enqueue_all (es : list (Z * arx_entry)) (m : fp_mem) (ls : Z -> L)
  : outcome (fp_mem * (Z -> L)) :=
  match es with
  | [] => mret (m, ls)
  | (cid, e) :: es =>
      actx ← get_appctx m cid;
      _ ← c_assert (enabled actx);
      '(rv, q, l) ← rq_try_enqueue (actx_rx actx) (ls cid) (Some (encode_arx e)) SIZEOF_ARX;
      if negb (rv =? 0) then Stop Aborted
      else arx_enqueue_all es (put_appctx m cid (actx <| actx_rx := q |>)) (<[cid := l]> ls)
  end.

(** [cur] is the context [actx] still points to from the loop before; the result
    also lists the contexts notified. *)
Fixpoint arx_flush_all (es : list (Z * arx_entry)) (cur : Z) (m : fp_mem) (ls : Z -> L)
  : outcome (fp_mem * (Z -> L) * list Z) :=
  match es with
  | [] => mret (m, ls, [])
  | (cid, _) :: es =>
      actx ← get_appctx m cur;
      '(rv, q, l) ← rq_flush (actx_rx actx) (ls cur);
      if u64 rv <? SIZEOF_ARX then Stop Aborted
      else
        let m := put_appctx m cur (actx <| actx_rx := q |>) in
        '(m, ls, ns) ← arx_flush_all es cid m (<[cur := l]> ls);
        mret (m, ls, cid :: ns)
  end.

Definition arx_cache_flush (m : fp_mem) (c : dataplane_context) (ls : Z -> L)
  : outcome (fp_mem * dataplane_context * (Z -> L) * list Z) :=
  match last (arx_cache c) with
  | None => mret (m, c, ls, [])
  | Some (cur, _) =>
      '(m, ls) ← arx_enqueue_all (arx_cache c) m ls;
      '(m, ls, ns) ← arx_flush_all (arx_cache c) cur m ls;
      mret (m, c <| arx_cache := ([] : list (Z * arx_entry)) |>, ls, ns)
  end.

(** ** Polling *)

Context {P : Type} `{Mempool P}.

(** The room for packets in the transmit buffer, at most a batch. *)
Definition tx_room (c : dataplane_context) : Z :=
  if TXBUF_SIZE - tx_num c <? BATCH_SIZE then u16 (TXBUF_SIZE - tx_num c) else BATCH_SIZE.

(** Flow lookup and parsing, before any packet is processed: the flow and the
    offset of the timestamp option of a packet that stays on the fast path. *)
Fixpoint rx_classify (m : fp_mem) (rs : list rx_pkt) : outcome (list (rx_pkt * option (Z * Z))) :=
  match rs with
  | [] => mret []
  | r :: rs =>
      fss ← fast_flows_packet_fss crc4 crc8 m (rx_hdr r);
      fast ← match fss with
             | None => mret None
             | Some idx =>
                 opt ← fast_flows_packet_parse (rx_hdr r) (rx_len r);
                 mret (pair idx <$> opt)
             end;
      rest ← rx_classify m rs;
      mret ((r, fast) :: rest)
  end.

(** The result lists the buffers to free. *)
Fixpoint rx_process (rs : list (rx_pkt * option (Z * Z))) (m : fp_mem) (c : dataplane_context)
  (ls : links L) (shm : list Z) (ts : Z)
  : outcome (list Z * fp_mem * dataplane_context * links L * list Z) :=
  match rs with
  | [] => mret ([], m, c, ls, shm)
  | (r, fast) :: rs =>
      '(ret, m, c, ls) ←
        match fast with
        | None => mret (-1, m, c, ls)
        | Some (idx, opt) =>
            '(ret, m, c, l) ← fast_flows_packet m c (l_flow ls idx) (rx_nbh r) (rx_at r)
                                (rx_hdr r) idx opt ts;
            mret (ret, m, c, mk_links (<[idx := l]> (l_flow ls)) (l_kctx ls) (l_app ls))
        end;
      '(m, c, ls, shm) ←
        (if ret <? 0 then
           '(m, c, l, shm) ← fast_kernel_packet m c (l_kctx ls) shm r;
           mret (m, c, mk_links (l_flow ls) l (l_app ls), shm)
         else mret (m, c, ls, shm));
      '(fs, m, c, ls, shm) ← rx_process rs m c ls shm ts;
      mret (if ret >? 0 then fs else rx_nbh r :: fs, m, c, ls, shm)
  end.

Fixpoint free_all (hs : list Z) (c : dataplane_context) (pool : P) : outcome (dataplane_context * P) :=
  match hs with
  | [] => mret (c, pool)
  | h :: hs => '(c, pool) ← bufcache_free c h pool; free_all hs c pool
  end.

(** [rx] is what [network_poll] delivers when asked for [tx_room] packets. The
    result also lists the contexts that were notified. *)
Definition poll_rx (k : core L P) (rx : list rx_pkt) (ts : Z) : outcome (Z * core L P * list Z) :=
  match rx with
  | [] => mret (0, k, [])
  | _ =>
      rs ← rx_classify (co_mem k) rx;
      '(fs, m, c, ls, shm) ← rx_process rs (co_mem k) (co_ctx k) (co_links k) (co_shm k) ts;
      '(m, c, la, ns) ← arx_cache_flush m c (l_app ls);
      '(c, pool) ← free_all fs c (co_pool k);
      mret (Z.of_nat (length rx), mk_core m c shm (mk_links (l_flow ls) (l_kctx ls) la) pool, ns)
  end.

(** The entries of one context, at most [n]. *)
Fixpoint fetch_ctx (n : nat) (m : fp_mem) (id : Z) : outcome (list atx_entry * fp_mem) :=
  match n with
  | O => mret ([], m)
  | S n =>
      '(a, m) ← fast_appctx_poll_fetch m id;
      match a with
      | None => mret ([], m)
      | Some a => '(es, m) ← fetch_ctx n m id; mret (a :: es, m)
      end
  end.

(** Up to [n] contexts, until [max] entries are fetched. *)
Fixpoint fetch_all (n : nat) (m : fp_mem) (c : dataplane_context) (max : Z)
  : outcome (list atx_entry * fp_mem * dataplane_context) :=
  match n with
  | O => mret ([], m, c)
  | S n =>
      if max >? 0 then
        '(es, m) ← fetch_ctx (Z.to_nat (Z.min BATCH_SIZE max)) m (poll_next_ctx c);
        let c := c <| poll_next_ctx := (poll_next_ctx c + 1) mod FLEXNIC_PL_APPCTX_NUM |> in
        '(es', m, c) ← fetch_all n m c (max - Z.of_nat (length es));
        mret (es ++ es', m, c)
      else mret ([], m, c)
  end.

(** What a handle's buffer holds; a window that ends too early is a handle out
    of bounds. *)
Definition first_handle (hs : list Z) : outcome Z :=
  match hs with [] => Stop OutOfBounds | h :: _ => Ok h end.

Context (bufmem : Z -> list Z).

Fixpoint bump_all (es : list atx_entry) (hs : list Z) (m : fp_mem) (c : dataplane_context) (ts : Z)
  : outcome (Z * fp_mem * dataplane_context) :=
  match es with
  | [] => mret (0, m, c)
  | e :: es =>
      h ← first_handle hs;
      '(ret, m, c) ← fast_appctx_poll_bump m c e h (pkt_of_bytes (bufmem h)) ts;
      if ret =? 0 then '(n, m, c) ← bump_all es (drop 1 hs) m c ts; mret (n + 1, m, c)
      else bump_all es hs m c ts
  end.

Definition poll_queues (k : core L P) (ts : Z) : outcome (Z * core L P) :=
  '(max, hs, c, pool) ← bufcache_prealloc (co_ctx k) (tx_room (co_ctx k)) (co_pool k);
  '(es, m, c) ← fetch_all (Z.to_nat FLEXNIC_PL_APPCTX_NUM) (co_mem k) c max;
  '(num_bufs, m, c) ← bump_all es hs m c ts;
  c ← bufcache_alloc c num_bufs;
  mret (Z.of_nat (length es), mk_core m c (co_shm k) (co_links k) pool).

(** The result is [k], the buffers used, and [total]. *)
Fixpoint kernel_loop (fuel : nat) (max : Z) (hs : list Z) (m : fp_mem) (c : dataplane_context)
  (shm : list Z) (ts : Z) : outcome (Z * Z * fp_mem * dataplane_context) :=
  match fuel with
  | O => Stop OutOfFuel
  | S fuel =>
      if max >? 0 then
        h ← first_handle hs;
        '(ret, m, c) ← fast_kernel_poll m c shm h (bufmem h) ts;
        if ret <? 0 then mret (0, 0, m, c)
        else if ret =? 0 then
          '(k, total, m, c) ← kernel_loop fuel (max - 1) (drop 1 hs) m c shm ts;
          mret (k + 1, total + 1, m, c)
        else
          '(k, total, m, c) ← kernel_loop fuel max hs m c shm ts;
          mret (k, total + 1, m, c)
      else mret (0, 0, m, c)
  end.

(** Every round takes an entry out of the kernel's queue, or is the last. *)
Definition kernel_fuel (m : fp_mem) : nat := S (S (Z.to_nat (buffer_size (actx_tx (kctx m))))).

Definition poll_kernel (k : core L P) (ts : Z) : outcome (Z * core L P) :=
  let max := tx_room (co_ctx k) in
  let max := if max >? 8 then 8 else max in
  '(max, hs, c, pool) ← bufcache_prealloc (co_ctx k) max (co_pool k);
  '(n, total, m, c) ← kernel_loop (kernel_fuel (co_mem k)) max hs (co_mem k) c (co_shm k) ts;
  c ← bufcache_alloc c n;
  mret (total, mk_core m c (co_shm k) (co_links k) pool).

(** [ring_ok] is whether the other cores' forwarding rings have room. *)
Fixpoint qman_all (qs : list (Z * Z)) (hs : list Z) (m : fp_mem) (c : dataplane_context)
  (ts : Z) (ring_ok : bool) : outcome (Z * fp_mem * dataplane_context) :=
  match qs with
  | [] => mret (0, m, c)
  | (id, _) :: qs =>
      h ← first_handle hs;
      '(use, m, c) ← fast_flows_qman eth_addr m c id h (pkt_of_bytes (bufmem h)) ts ring_ok;
      if use =? 0 then '(n, m, c) ← qman_all qs (drop 1 hs) m c ts ring_ok; mret (n + 1, m, c)
      else qman_all qs hs m c ts ring_ok
  end.

(** [now] is the time [qman_poll] reads. *)
Definition poll_qman (k : core L P) (ts now : Z) (ring_ok : bool) : outcome (Z * core L P) :=
  '(max, hs, c, pool) ← bufcache_prealloc (co_ctx k) (tx_room (co_ctx k)) (co_pool k);
  '(qs, t) ← qman_poll (qman c) now max;
  let c := c <| qman := t |> in
  match qs with
  | [] => mret (0, mk_core (co_mem k) c (co_shm k) (co_links k) pool)
  | _ =>
      '(off, m, c) ← qman_all qs hs (co_mem k) c ts ring_ok;
      c ← bufcache_alloc c off;
      mret (Z.of_nat (length qs), mk_core m c (co_shm k) (co_links k) pool)
  end.

(** [flow_states] is the burst taken from the forwarding ring. *)
Fixpoint fwd_all (flow_states : list Z) (m : fp_mem) (c : dataplane_context)
  : outcome (fp_mem * dataplane_context) :=
  match flow_states with
  | [] => mret (m, c)
  | idx :: rest => '(_, m, c) ← fast_flows_qman_fwd m c idx; fwd_all rest m c
  end.

Definition poll_qman_fwd (k : core L P) (flow_states : list Z) : outcome (Z * core L P) :=
  '(m, c) ← fwd_all flow_states (co_mem k) (co_ctx k);
  mret (Z.of_nat (length flow_states), mk_core m c (co_shm k) (co_links k) (co_pool k)).

(** ** The main loop

    What the outside world does during one iteration. *)
Record world := mk_world {
  w_ts : Z;
  w_now : Z;
  w_rx : list rx_pkt;
  w_fwd : list Z;
  w_sent_1 : Z;
  w_sent_2 : Z;
  w_ring_ok : bool;
}.

Definition co_flush (k : core L P) (ret : Z) : list tx_entry * core L P :=
  let '(sent, c) := tx_flush (co_ctx k) ret in
  (sent, mk_core (co_mem k) c (co_shm k) (co_links k) (co_pool k)).

(** One iteration of [dataplane_loop]: the work done, the packets sent and the
    contexts notified. (Scaling and blocking follow it, see below.) *)
Definition dataplane_iteration (k : core L P) (w : world)
  : outcome (Z * core L P * list tx_entry * list Z) :=
  '(n1, k, ns) ← poll_rx k (w_rx w) (w_ts w);
  let '(s1, k) := co_flush k (w_sent_1 w) in
  '(n2, k) ← poll_qman_fwd k (w_fwd w);
  '(n3, k) ← poll_qman k (w_ts w) (w_now w) (w_ring_ok w);
  '(n4, k) ← poll_queues k (w_ts w);
  '(n5, k) ← poll_kernel k (w_ts w);
  let '(s2, k) := co_flush k (w_sent_2 w) in
  mret (n1 + n2 + n3 + n4 + n5, k, s1 ++ s2, ns).

End Loop.

(** ** Scaling: [fp_cores_cur] and [fp_scale_to]; [ok] is whether the network's
    reconfiguration succeeds. *)
Definition poll_scale (cur to : Z) (ok : bool) : outcome (Z * Z) :=
  if to =? 0 then mret (cur, to)
  else if (to <? cur) || (to >? cur) then if ok then mret (to, 0) else Stop Aborted
  else mret (to, 0).

(** ** Blocking and notification (tas_nic/blocking.c) *)
Record notify_blockstate := mk_nbs { last_active_ts : Z; can_block : bool; second_bar : bool }.

Definition UINT64_MAX : Z := 18446744073709551615.

Definition notify_canblock (poll_cycle : Z) (nbs : notify_blockstate) (had_data : bool) (tsc : Z)
  : bool * notify_blockstate :=
  if poll_cycle =? UINT64_MAX then (false, nbs)
  else if had_data then (false, mk_nbs tsc false false)
  else if second_bar nbs then (true, mk_nbs tsc false false)
  else if can_block nbs && (u64 (tsc - last_active_ts nbs) >? poll_cycle)
       then (false, mk_nbs (last_active_ts nbs) (can_block nbs) true)
  else (false, mk_nbs (last_active_ts nbs) true (second_bar nbs)).

Definition notify_canblock_reset (nbs : notify_blockstate) : notify_blockstate :=
  mk_nbs (last_active_ts nbs) false false.

(** Whether a wake-up is sent, and the new [last_ts]. *)
Definition notify_communicator (last_ts tsc delta : Z) : bool * Z :=
  if delta =? UINT64_MAX then (false, last_ts)
  else (u64 (tsc - last_ts) >? delta, tsc).
