(* ===== verification/FastLoop.v ===== *)
(** * The fast-path main loop: theorems about FastEmu

    The buffer cache as a queue of handles, the conservation of packet buffers
    by one iteration of the main loop, and the notification of applications. *)
From stdpp Require Import functions.
From S2P Require Import Prelude RdmaQueue Packets FlowState TcpCommon Qman FastCtx FastFlows Wire FastEmu.

#[local] Open Scope Z_scope.

(** ** The buffer cache *)

(** The handles in the cache, oldest first. *)
Definition cache (c : dataplane_context) : list Z :=
  ring_read (bufcache_handles c) (bufcache_head c) (bufcache_num c).

Record cache_ok (c : dataplane_context) : Prop := {
  ck_len : Z.of_nat (length (bufcache_handles c)) = BUFCACHE_SIZE;
  ck_head : 0 <= bufcache_head c < BUFCACHE_SIZE;
  ck_num : 0 <= bufcache_num c <= BUFCACHE_SIZE;
}.

Lemma cache_mask x : Z.land x (BUFCACHE_SIZE - 1) = x mod BUFCACHE_SIZE.
Proof. unfold BUFCACHE_SIZE. change (128 - 1) with (Z.ones 7). by rewrite Z.land_ones. Qed.

Lemma cache_length c : cache_ok c -> Z.of_nat (length (cache c)) = bufcache_num c.
Proof. intros [_ _ ?]. unfold cache. rewrite ring_read_length. lia. Qed.

Lemma ring_append b head n pos src b' :
  mem_write b pos src = Ok b' -> 0 <= n ->
  pos mod Z.of_nat (length b) = (head + n) mod Z.of_nat (length b) ->
  n + Z.of_nat (length src) <= Z.of_nat (length b) ->
  ring_read b' head (n + Z.of_nat (length src)) = ring_read b head n ++ src.
Proof.
  intros Hw Hn Hp Hl. rewrite ring_read_app by lia. f_equal.
  - by eapply ring_write_other.
  - rewrite <- (ring_write_same b pos src b' Hw) at 2. apply ring_read_mod.
    by rewrite (mem_write_length _ _ _ _ Hw).
Qed.

(** What a pool hands out and takes back. *)
Section Cache.
Context {P : Type} `{Mempool P}.

Inductive pool_run : P -> list Z -> list Z -> P -> Prop :=
  | pool_idle p : pool_run p [] [] p
  | pool_get p n got back p' :
      0 <= n -> pool_run (snd (pool_alloc p n)) got back p' ->
      pool_run p (fst (pool_alloc p n) ++ got) back p'
  | pool_put p h got back p' :
      pool_run (pool_free p h) got back p' -> pool_run p got (h :: back) p'.

Lemma pool_run_trans p g b p' g' b' p'' :
  pool_run p g b p' -> pool_run p' g' b' p'' -> pool_run p (g ++ g') (b ++ b') p''.
Proof.
  induction 1; simpl; intros; [done| |].
  - rewrite <- app_assoc. constructor; auto.
  - constructor; auto.
Qed.

Lemma pool_get_one p n : 0 <= n -> pool_run p (fst (pool_alloc p n)) [] (snd (pool_alloc p n)).
Proof.
  intros. rewrite <- (app_nil_r (fst _)). by constructor; [|constructor].
Qed.

Lemma network_buf_alloc_ok b head n pos num pool :
  0 <= n -> 0 <= num -> 0 <= pos -> pos + num <= Z.of_nat (length b) ->
  pos mod Z.of_nat (length b) = (head + n) mod Z.of_nat (length b) ->
  n + num <= Z.of_nat (length b) ->
  exists b' hs pool', network_buf_alloc b pos num pool = Ok (Z.of_nat (length hs), b', pool') /\
    pool_run pool hs [] pool' /\ Z.of_nat (length hs) <= num /\ length b' = length b /\
    ring_read b' head (n + Z.of_nat (length hs)) = ring_read b head n ++ hs.
Proof.
  intros Hn Hnum Hpos Hin Hp Hl. unfold network_buf_alloc.
  pose proof (pool_alloc_bound pool num Hnum) as Hb.
  pose proof (pool_get_one pool num Hnum) as Hr.
  destruct (pool_alloc pool num) as [hs pool']. simpl in Hb, Hr.
  set (src := if _ <? num then _ else _).
  assert (Z.of_nat (length src) <= num /\ exists x, src = hs ++ x) as [Hs [x Hx]].
  { subst src. destruct (Z.ltb_spec (Z.of_nat (length hs)) num).
    - rewrite length_app. simpl. split; [lia|by eexists].
    - split; [lia|exists []; by rewrite app_nil_r]. }
  destruct (mem_write b pos src) as [b'|] eqn:Hw;
    [|rewrite mem_write_Ok in Hw by lia; discriminate].
  osimpl. exists b', hs, pool'. split_and!; [done|done|done|by eapply mem_write_length|].
  pose proof (ring_append b head n pos src b' Hw Hn Hp ltac:(lia)) as Ha.
  rewrite <- (ring_take b' head (n + Z.of_nat (length src))), Ha by (rewrite Hx, length_app; lia).
  rewrite Hx, app_assoc, take_app_length'; [done|].
  rewrite length_app, ring_read_length. lia.
Qed.

Lemma bufcache_refill_ok c pool :
  cache_ok c ->
  exists c' new pool', bufcache_refill c pool = Ok (c', pool') /\ pool_run pool new [] pool' /\
    cache_ok c' /\ cache c' = cache c ++ new /\ tx_handles c' = tx_handles c /\
    bufcache_head c' = bufcache_head c.
Proof.
  intros [Hlen Hh Hn]. unfold bufcache_refill. rewrite cache_mask.
  pose proof (Z.mod_pos_bound (bufcache_head c + bufcache_num c) BUFCACHE_SIZE ltac:(done)) as Hm.
  set (pos := (bufcache_head c + bufcache_num c) mod BUFCACHE_SIZE) in *.
  assert (pos mod Z.of_nat (length (bufcache_handles c))
          = (bufcache_head c + bufcache_num c) mod Z.of_nat (length (bufcache_handles c))) as Hpos.
  { rewrite Hlen. subst pos. by rewrite Z.mod_mod. }
  rewrite (u16_small (_ - _)) by (unfold BUFCACHE_SIZE in *; lia).
  destruct (Z.leb_spec (pos + (BUFCACHE_SIZE - bufcache_num c)) BUFCACHE_SIZE) as [Hfit|Hfit].
  - destruct (network_buf_alloc_ok (bufcache_handles c) (bufcache_head c) (bufcache_num c) pos
      (BUFCACHE_SIZE - bufcache_num c) pool) as (b' & hs & pool' & -> & Hr & Hb & Hl & Ha); try lia.
    osimpl. rewrite u16_small by (unfold BUFCACHE_SIZE in *; lia).
    do 3 eexists. split; [reflexivity|]. split; [done|].
    split_and!; [split; simpl; lia|done|done|done].
  - set (g := BUFCACHE_SIZE - pos).
    destruct (network_buf_alloc_ok (bufcache_handles c) (bufcache_head c) (bufcache_num c) pos
      g pool) as (b' & hs & pool' & -> & Hr & Hb & Hl & Ha); try lia.
    osimpl. destruct (Z.eqb_spec (Z.of_nat (length hs)) g) as [Hg|Hg].
    + destruct (network_buf_alloc_ok b' (bufcache_head c) (bufcache_num c + Z.of_nat (length hs)) 0
        (BUFCACHE_SIZE - bufcache_num c - g) pool') as (b2 & hs2 & pool2 & -> & Hr2 & Hb2 & Hl2 & Ha2);
        try lia.
      { rewrite Hl, Hlen. rewrite Z.mod_0_l by done. rewrite Hg. unfold g, pos.
        symmetry. replace (bufcache_head c + (bufcache_num c + (BUFCACHE_SIZE -
          (bufcache_head c + bufcache_num c) mod BUFCACHE_SIZE)))
          with (((bufcache_head c + bufcache_num c) / BUFCACHE_SIZE + 1) * BUFCACHE_SIZE)
          by (pose proof (Z.div_mod (bufcache_head c + bufcache_num c) BUFCACHE_SIZE); lia).
        by apply Z.mod_mul. }
      osimpl. rewrite u16_small by (unfold BUFCACHE_SIZE in *; lia).
      do 2 eexists. exists pool2. split; [reflexivity|]. split; [exact (pool_run_trans _ _ _ _ _ _ _ Hr Hr2)|].
      split_and!; [split; simpl; lia| |done|done].
      unfold cache; simpl. rewrite Z.add_assoc, Ha2, Ha. by rewrite app_assoc.
    + osimpl. rewrite u16_small by (unfold BUFCACHE_SIZE in *; lia).
      do 3 eexists. split; [reflexivity|]. split; [done|].
      split_and!; [split; simpl; lia|done|done|done].
Qed.

Lemma bufcache_alloc_ok c n :
  cache_ok c -> 0 <= n <= bufcache_num c ->
  exists c', bufcache_alloc c n = Ok c' /\ cache_ok c' /\ cache c' = drop (Z.to_nat n) (cache c) /\
    tx_handles c' = tx_handles c.
Proof.
  intros [Hlen Hh Hn] Hk. unfold bufcache_alloc. rewrite bind_assert_true by lia.
  rewrite cache_mask, u16_small by (unfold BUFCACHE_SIZE in *; lia).
  pose proof (Z.mod_pos_bound (bufcache_head c + n) BUFCACHE_SIZE ltac:(done)).
  eexists. split; [reflexivity|]. split_and!; [split; simpl; lia| |done].
  unfold cache; simpl. rewrite ring_drop by lia. apply ring_read_mod.
  rewrite Hlen. by rewrite Z.mod_mod.
Qed.

Lemma bufcache_free_ok c h pool :
  cache_ok c ->
  exists c' pool', bufcache_free c h pool = Ok (c', pool') /\ cache_ok c' /\
    tx_handles c' = tx_handles c /\
    if bufcache_num c <? BUFCACHE_SIZE then cache c' = cache c ++ [h] /\ pool' = pool
    else c' = c /\ pool' = pool_free pool h.
Proof.
  intros [Hlen Hh Hn]. unfold bufcache_free. rewrite cache_mask.
  pose proof (Z.mod_pos_bound (bufcache_head c + bufcache_num c) BUFCACHE_SIZE ltac:(done)) as Hm.
  destruct (Z.ltb_spec (bufcache_num c) BUFCACHE_SIZE).
  - destruct (mem_write _ _ _) as [b'|] eqn:Hw;
      [|rewrite mem_write_Ok in Hw by (simpl; lia); discriminate].
    osimpl. rewrite u16_small by (unfold BUFCACHE_SIZE in *; lia).
    pose proof (mem_write_length _ _ _ _ Hw).
    do 2 eexists. split; [reflexivity|]. split_and!; [split; simpl; lia|done| |done].
    unfold cache; simpl.
    apply (ring_append (bufcache_handles c) (bufcache_head c) (bufcache_num c) _ [h] b' Hw);
      [lia| |simpl; lia].
    rewrite Hlen. by rewrite Z.mod_mod.
  - osimpl. do 2 eexists. split; [reflexivity|]. split_and!; done.
Qed.

Lemma bufcache_prealloc_grows c num pool :
  cache_ok c ->
  exists n c' new pool',
    bufcache_prealloc c num pool =
      Ok (n, drop (Z.to_nat (bufcache_head c')) (bufcache_handles c'), c', pool') /\
    pool_run pool new [] pool' /\ cache_ok c' /\ cache c' = cache c ++ new /\
    tx_handles c' = tx_handles c /\
    n = u8 (Z.min num (Z.min (bufcache_num c') (BUFCACHE_SIZE - bufcache_head c'))).
Proof.
  intros Hc.
  assert (exists c' new pool', (if bufcache_num c <? num then bufcache_refill c pool
            else mret (c, pool)) = Ok (c', pool') /\ pool_run pool new [] pool' /\
    cache_ok c' /\ cache c' = cache c ++ new /\ tx_handles c' = tx_handles c)
    as (c' & new & pool' & Hr & Hp & Hc' & Hca & Htx).
  { destruct (_ <? _).
    - destruct (bufcache_refill_ok c pool Hc) as (c' & new & pool' & ? & ? & ? & ? & ? & ?). eauto 10.
    - exists c, [], pool. rewrite app_nil_r. split_and!; [done|constructor|done..]. }
  unfold bufcache_prealloc. rewrite Hr. osimpl. do 4 eexists. split; [reflexivity|].
  split_and!; [done..|]. f_equal. unfold MIN.
  destruct (Z.leb_spec (bufcache_head c' + bufcache_num c') BUFCACHE_SIZE); bsplit; lia.
Qed.

(** The window at the head is the oldest part of the cache. *)
Lemma cache_window c k :
  cache_ok c -> (k <= length (drop (Z.to_nat (bufcache_head c)) (bufcache_handles c)))%nat ->
  Z.of_nat k <= bufcache_num c ->
  take k (drop (Z.to_nat (bufcache_head c)) (bufcache_handles c)) = take k (cache c).
Proof.
  intros [Hlen Hh Hn] Hk Hkn. rewrite length_drop in Hk. unfold cache.
  rewrite <- (Nat2Z.id k), ring_take by lia. rewrite ring_read_linear by lia. by rewrite !Nat2Z.id.
Qed.

Lemma bufcache_prealloc_ok c num pool :
  cache_ok c -> 0 <= num < 256 ->
  exists n hs c' new pool', bufcache_prealloc c num pool = Ok (n, hs, c', pool') /\
    pool_run pool new [] pool' /\ cache_ok c' /\ cache c' = cache c ++ new /\
    tx_handles c' = tx_handles c /\ 0 <= n <= num /\ n <= bufcache_num c' /\
    take (Z.to_nat n) hs = take (Z.to_nat n) (cache c').
Proof.
  intros Hc Hnum. destruct (bufcache_prealloc_grows c num pool Hc)
    as (n & c' & new & pool' & -> & Hp & Hc' & Hca & Htx & ->).
  destruct (Hc') as [Hlen Hh Hn]. unfold u8. rewrite Z.mod_small by lia.
  do 5 eexists. split; [reflexivity|]. split_and!; [done..|lia|lia|lia|].
  apply cache_window; [done| |lia]. rewrite length_drop. lia.
Qed.

(** The buffer cache is a queue of buffers over the pool: preallocation
    appends what it draws from the pool and gives access to at most [num] handles,
    the oldest ones; taking [k] of them removes exactly those; and a freed buffer
    goes to the end of the cache, or to the pool when the cache is full. No
    access leaves the array. *)
Theorem bufcache_is_queue c num k h pool :
  cache_ok c -> 0 <= num < 256 -> 0 <= k ->
  exists n hs c1 new pool1, bufcache_prealloc c num pool = Ok (n, hs, c1, pool1) /\
    pool_run pool new [] pool1 /\ cache c1 = cache c ++ new /\ n <= num /\
    take (Z.to_nat n) hs = take (Z.to_nat n) (cache c1) /\
    (k <= n -> exists c2 c3 pool2,
      bufcache_alloc c1 k = Ok c2 /\ cache c2 = drop (Z.to_nat k) (cache c1) /\
      bufcache_free c2 h pool1 = Ok (c3, pool2) /\ cache_ok c3 /\
      (cache c3 = cache c2 ++ [h] /\ pool2 = pool1 \/
       cache c3 = cache c2 /\ Z.of_nat (length (cache c2)) = BUFCACHE_SIZE /\ pool2 = pool_free pool1 h)).
Proof.
  intros Hc Hnum Hk.
  destruct (bufcache_prealloc_ok c num pool Hc Hnum)
    as (n & hs & c1 & new & pool1 & -> & Hr & Hc1 & Hca & _ & Hn & Hnn & Hw).
  do 5 eexists. split_and!; [reflexivity|exact Hr|exact Hca|lia|exact Hw|]. intros Hkn.
  destruct (bufcache_alloc_ok c1 k Hc1 ltac:(lia)) as (c2 & -> & Hc2 & Hd & _).
  destruct (bufcache_free_ok c2 h pool1 Hc2) as (c3 & pool2 & Hf & Hc3 & _ & Hif).
  exists c2, c3, pool2. split_and!; [done|done|done|done|].
  pose proof (cache_length c2 Hc2). pose proof (ck_num _ Hc2).
  destruct (Z.ltb_spec (bufcache_num c2) BUFCACHE_SIZE); destruct Hif as [-> ->]; [by left|].
  right. split_and!; [done|lia|done].
Qed.

End Cache.

(** ** Which buffers an operation uses

    [uses c c' hs]: the operation handed exactly the buffers [hs] to the
    transmit buffer, and left the buffer cache alone. *)
Record uses (c c' : dataplane_context) (hs : list Z) : Prop := {
  us_tx : te_nbh <$> tx_handles c' = (te_nbh <$> tx_handles c) ++ hs;
  us_handles : bufcache_handles c' = bufcache_handles c;
  us_num : bufcache_num c' = bufcache_num c;
  us_head : bufcache_head c' = bufcache_head c;
}.

Lemma uses_refl c : uses c c [].
Proof. split; [by rewrite app_nil_r|done..]. Qed.
Lemma uses_trans c c1 c2 h1 h2 : uses c c1 h1 -> uses c1 c2 h2 -> uses c c2 (h1 ++ h2).
Proof. intros [A1 A2 A3 A4] [B1 B2 B3 B4]. split; [by rewrite B1, A1, app_assoc|congruence..]. Qed.
Lemma uses_then c c1 c2 h1 : uses c c1 h1 -> uses c1 c2 [] -> uses c c2 h1.
Proof. intros H1 H2. rewrite <- (app_nil_r h1). by eapply uses_trans. Qed.
Lemma uses_after c c1 c2 h2 : uses c c1 [] -> uses c1 c2 h2 -> uses c c2 h2.
Proof. intros. by apply (uses_trans c c1 c2 [] h2). Qed.

Lemma uses_cache c c' hs : uses c c' hs -> cache c' = cache c.
Proof. intros [_ A B C]. unfold cache. by rewrite A, B, C. Qed.
Lemma uses_cache_ok c c' hs : uses c c' hs -> cache_ok c -> cache_ok c'.
Proof. intros [_ A B C] [? ? ?]. split; by rewrite ?A, ?B, ?C. Qed.

#[local] Hint Resolve uses_refl : core.

(** Take a successful run apart down to its branches. *)
Ltac branches :=
  repeat (cbv zeta in *; inv_ok;
    match goal with
    | H : (let '(_, _) := ?x in _) = Ok _ |- _ => destruct x eqn:?; simplify_eq
    | H : (if ?b then _ else _) = Ok _ |- _ => destruct b eqn:?
    | H : (match ?x with _ => _ end) = Ok _ |- _ => destruct x eqn:?
    | H : mret _ = Ok _ |- _ => injection H as H; try subst
    | H : (_, _) = (_, _) |- _ => injection H as H; try subst
    | x : (_ * _)%type |- _ => destruct x
    end); inv_ok; simplify_eq.

Create HintDb uses.

Lemma tx_send_uses c nbh p off len c' : tx_send c nbh p off len = Ok c' -> uses c c' [nbh].
Proof. unfold tx_send. intros Hr. branches. split; [by simpl; rewrite fmap_app|done..]. Qed.
Lemma arx_cache_add_uses c a b d e f g c' : arx_cache_add c a b d e f g = Ok c' -> uses c c' [].
Proof. unfold arx_cache_add. intros Hr. branches. split; simpl; by rewrite ?app_nil_r. Qed.
Lemma qman_set_uses c a b d e f c' : qman_set_or_abort c a b d e f = Ok c' -> uses c c' [].
Proof. unfold qman_set_or_abort. intros Hr. branches. split; simpl; by rewrite ?app_nil_r. Qed.

#[local] Hint Resolve tx_send_uses arx_cache_add_uses qman_set_uses uses_then uses_after : uses.

Section Uses.
Context `{Checksums} (eth_addr rss_reta_size : Z) (crc4 crc8 : Z -> Z -> Z).
Context {L : Type} `{RdmaLink L}.

Lemma flow_tx_segment_uses c nbh p fs a1 a2 a3 a4 a5 a6 a7 fin c' :
  flow_tx_segment eth_addr c nbh p fs a1 a2 a3 a4 a5 a6 a7 fin = Ok c' -> uses c c' [nbh].
Proof. unfold flow_tx_segment. intros Hr. cbv zeta in *. inv_ok. eauto with uses. Qed.
Lemma flow_tx_ack_uses c a1 a2 a3 a4 a5 nbh p off opt c' :
  flow_tx_ack c a1 a2 a3 a4 a5 nbh p off opt = Ok c' -> uses c c' [nbh].
Proof. unfold flow_tx_ack. intros Hr. cbv zeta in *. inv_ok. eauto with uses. Qed.

#[local] Hint Resolve flow_tx_segment_uses flow_tx_ack_uses : uses.

Lemma fast_flows_qman_uses m c id nbh p ts ok ret m' c' :
  fast_flows_qman eth_addr m c id nbh p ts ok = Ok (ret, m', c') ->
  uses c c' (if ret =? 0 then [nbh] else []).
Proof.
  unfold fast_flows_qman, fast_flows_qman_send. intros Hr. branches; simpl; eauto with uses.
  match goal with H : qman_set_or_abort _ _ _ _ _ _ = Ok _ |- _ => apply qman_set_uses in H as [A1 A2 A3 A4] end.
  split; simpl in *; congruence.
Qed.

Lemma fast_flows_qman_fwd_uses m c idx ret m' c' :
  fast_flows_qman_fwd m c idx = Ok (ret, m', c') -> uses c c' [].
Proof. unfold fast_flows_qman_fwd. intros Hr. branches. eauto with uses. Qed.

Lemma fast_flows_retransmit_uses m c id m' c' :
  fast_flows_retransmit m c id = Ok (m', c') -> uses c c' [].
Proof. unfold fast_flows_retransmit. intros Hr. branches; eauto with uses. Qed.

Lemma fast_flows_bump_uses m c id a1 a2 a3 a4 nbh p ts ret m' c' :
  fast_flows_bump eth_addr m c id a1 a2 a3 a4 nbh p ts = Ok (ret, m', c') ->
  uses c c' (if ret =? 0 then [nbh] else []).
Proof. unfold fast_flows_bump. intros Hr. branches; simpl; eauto with uses. Qed.

Lemma packet_finish_uses c fs l p a1 a2 a3 a4 a5 fin ack nbh off opt ts fs' l' c' :
  packet_finish c fs l p a1 a2 a3 a4 a5 fin ack nbh off opt ts = Ok (fs', l', c') ->
  uses c c' (if ack then [nbh] else []).
Proof.
  unfold packet_finish. intros Hr. branches; eauto 8 with uses.
Qed.

Lemma fast_flows_packet_uses m c l nbh off p idx opt ts ret m' c' l' :
  fast_flows_packet m c l nbh off p idx opt ts = Ok (ret, m', c', l') ->
  uses c c' (if ret >? 0 then [nbh] else []).
Proof.
  unfold fast_flows_packet. intros Hr. branches; simpl;
    try match goal with H : packet_finish _ _ _ _ _ _ _ _ _ _ ?a _ _ _ _ = Ok _ |- _ =>
      apply packet_finish_uses in H; by destruct a end; eauto.
Qed.

Lemma fast_kernel_poll_uses m c shm nbh buf ts ret m' c' :
  fast_kernel_poll m c shm nbh buf ts = Ok (ret, m', c') ->
  uses c c' (if ret =? 0 then [nbh] else []).
Proof.
  unfold fast_kernel_poll. intros Hr. branches; simpl; eauto using fast_flows_retransmit_uses with uses.
Qed.

Lemma fast_kernel_packet_uses m c l shm r m' c' l' shm' :
  fast_kernel_packet rss_reta_size m c l shm r = Ok (m', c', l', shm') -> uses c c' [].
Proof.
  unfold fast_kernel_packet. intros Hr. branches; eauto; split; simpl; by rewrite ?app_nil_r.
Qed.

Lemma arx_cache_flush_uses m c (ls : Z -> L) m' c' ls' ns :
  arx_cache_flush m c ls = Ok (m', c', ls', ns) -> uses c c' [].
Proof. unfold arx_cache_flush. intros Hr. branches; eauto; split; simpl; by rewrite ?app_nil_r. Qed.

End Uses.

(** ** Conservation of buffers *)

(** The buffers a core holds: waiting to be sent, and cached. *)
Definition buffers (c : dataplane_context) : list Z := (te_nbh <$> tx_handles c) ++ cache c.

Section Conservation.
Context `{Checksums} (eth_addr rss_reta_size : Z) (crc4 crc8 : Z -> Z -> Z).
Context {L P : Type} `{RdmaLink L} `{Mempool P} (bufmem : Z -> list Z).
Implicit Types (c : dataplane_context) (m : fp_mem).

Lemma first_handle_Ok hs h : first_handle hs = Ok h -> hs = h :: drop 1 hs.
Proof. destruct hs as [|z hs]; [done|]. intros [= ->]. by rewrite skipn_cons, drop_0. Qed.

(** A loop that uses the handles of a window from the front. *)
Definition uses_front c c' (n : Z) (hs : list Z) : Prop :=
  0 <= n <= Z.of_nat (length hs) /\ uses c c' (take (Z.to_nat n) hs).

Lemma uses_front_zero c c' hs : uses c c' [] -> uses_front c c' 0 hs.
Proof. split; [lia|done]. Qed.
Lemma uses_front_cons c c1 c' n hs h :
  first_handle hs = Ok h -> uses c c1 [h] -> uses_front c1 c' n (drop 1 hs) ->
  uses_front c c' (n + 1) hs.
Proof.
  intros Hh U [Hn U']. apply first_handle_Ok in Hh. rewrite Hh in *. simpl in *.
  rewrite drop_0 in *. split; [simpl; lia|].
  replace (Z.to_nat (n + 1)) with (S (Z.to_nat n)) by lia. by eapply (uses_trans _ _ _ [h]).
Qed.
Lemma uses_front_skip c c1 c' n hs : uses c c1 [] -> uses_front c1 c' n hs -> uses_front c c' n hs.
Proof. intros U [Hn U']. split; [done|by eapply uses_after]. Qed.

Lemma qman_all_uses qs : forall hs m c ts ok n m' c',
  qman_all eth_addr bufmem qs hs m c ts ok = Ok (n, m', c') -> uses_front c c' n hs.
Proof.
  induction qs as [|[id b] qs IH]; intros hs m c ts ok n m' c' Hr; simpl in Hr.
  - branches. by apply uses_front_zero.
  - branches; match goal with H : fast_flows_qman _ _ _ _ _ _ _ _ = Ok (?r, _, _) |- _ =>
      apply fast_flows_qman_uses in H end.
    + replace (z =? 0) with true in * by (symmetry; assumption). eapply uses_front_cons; eauto.
    + replace (z =? 0) with false in * by (symmetry; assumption). eapply uses_front_skip; eauto.
Qed.

Lemma bump_all_uses es : forall hs m c ts n m' c',
  bump_all eth_addr bufmem es hs m c ts = Ok (n, m', c') -> uses_front c c' n hs.
Proof.
  induction es as [|e es IH]; intros hs m c ts n m' c' Hr; simpl in Hr.
  - branches. by apply uses_front_zero.
  - unfold fast_appctx_poll_bump in Hr. branches;
      match goal with H : fast_flows_bump _ _ _ _ _ _ _ _ _ _ _ = Ok (?r, _, _) |- _ =>
        apply fast_flows_bump_uses in H; destruct (Z.eqb_spec r 0); simpl in * end;
      try (bprop; lia).
    + eapply uses_front_cons; eauto.
    + eapply uses_front_skip; eauto.
Qed.

Lemma kernel_loop_uses fuel : forall mx hs m c shm ts n t m' c',
  kernel_loop bufmem fuel mx hs m c shm ts = Ok (n, t, m', c') -> uses_front c c' n hs.
Proof.
  induction fuel as [|fuel IH]; intros mx hs m c shm ts n t m' c' Hr; simpl in Hr; [done|].
  branches; try (by apply uses_front_zero);
    match goal with H : fast_kernel_poll _ _ _ _ _ _ = Ok (?r, _, _) |- _ =>
      apply fast_kernel_poll_uses in H; destruct (Z.eqb_spec r 0); simpl in * end; try (bprop; lia).
  - by apply uses_front_zero.
  - eapply uses_front_cons; eauto.
  - eapply uses_front_skip; eauto.
Qed.

Lemma fetch_all_uses n : forall m c mx es m' c',
  fetch_all n m c mx = Ok (es, m', c') -> uses c c' [].
Proof.
  induction n as [|n IH]; intros m c mx es m' c' Hr; simpl in Hr; branches; eauto.
  eapply uses_after; [|by eapply IH]. split; simpl; by rewrite ?app_nil_r.
Qed.

Lemma fwd_all_uses fl : forall m c m' c', fwd_all fl m c = Ok (m', c') -> uses c c' [].
Proof.
  induction fl as [|f fl IH]; intros m c m' c' Hr; simpl in Hr; branches; eauto.
  match goal with H : fast_flows_qman_fwd _ _ _ = Ok _ |- _ => apply fast_flows_qman_fwd_uses in H end.
  eapply uses_after; eauto.
Qed.

(** Buffers that come in, from the pool or the network, are held, go back to the
    pool, or were sent. *)
Record conserves (k k' : core L P) (received sent : list Z) : Prop := {
  cv_ok : cache_ok (co_ctx k');
  cv_balance : exists new back, pool_run (co_pool k) new back (co_pool k') /\
    buffers (co_ctx k') ++ back ++ sent ≡ₚ buffers (co_ctx k) ++ new ++ received;
}.

Lemma conserves_trans k k1 k2 r1 s1 r2 s2 :
  conserves k k1 r1 s1 -> conserves k1 k2 r2 s2 -> conserves k k2 (r1 ++ r2) (s1 ++ s2).
Proof.
  intros [O1 (n1 & b1 & R1 & E1)] [O2 (n2 & b2 & R2 & E2)]. split; [done|].
  exists (n1 ++ n2), (b1 ++ b2). split; [by eapply pool_run_trans|].
  transitivity ((buffers (co_ctx k2) ++ b2 ++ s2) ++ b1 ++ s1); [solve_Permutation|].
  rewrite E2. transitivity ((buffers (co_ctx k1) ++ b1 ++ s1) ++ n2 ++ r2); [solve_Permutation|].
  rewrite E1. solve_Permutation.
Qed.

(** The common frame of the polls: reserve, use from the front, apply. *)
Lemma prealloc_uses_alloc c num pool n hs c1 pool1 c2 used c3 :
  cache_ok c -> bufcache_prealloc c num pool = Ok (n, hs, c1, pool1) ->
  uses_front c1 c2 used hs -> bufcache_alloc c2 used = Ok c3 ->
  cache_ok c3 /\ exists new, pool_run pool new [] pool1 /\ buffers c3 = buffers c ++ new.
Proof.
  intros Hc Hp [Hu U] Ha.
  destruct (bufcache_prealloc_grows c num pool Hc)
    as (n' & c1' & new & pool' & Hp' & Hr & Hc1 & Hca & Htx & _).
  rewrite Hp in Hp'. injection Hp' as <- -> <- <-.
  assert (cache_ok c2) as Hc2 by by eapply uses_cache_ok.
  assert (used <= bufcache_num c2) as Hle.
  { unfold bufcache_alloc in Ha. branches. bprop. lia. }
  destruct (bufcache_alloc_ok c2 used Hc2 ltac:(lia)) as (c3' & Ha' & Hc3 & Hd & Ht).
  rewrite Ha in Ha'. injection Ha' as <-. split; [done|]. exists new. split; [done|].
  unfold buffers. rewrite Ht, Hd, (us_tx _ _ _ U), (uses_cache _ _ _ U), Htx.
  rewrite cache_window by (done || lia || (rewrite <- (us_num _ _ _ U); lia)).
  rewrite <- !app_assoc. f_equal. by rewrite take_drop, Hca.
Qed.

Lemma frame_conserves (k : core L P) num n hs c1 pool1 c2 used c3 m' shm' ls' :
  cache_ok (co_ctx k) -> bufcache_prealloc (co_ctx k) num (co_pool k) = Ok (n, hs, c1, pool1) ->
  uses_front c1 c2 used hs -> bufcache_alloc c2 used = Ok c3 ->
  conserves k (mk_core m' c3 shm' ls' pool1) [] [].
Proof.
  intros Hc Hp Hu Ha.
  destruct (prealloc_uses_alloc _ _ _ _ _ _ _ _ _ _ Hc Hp Hu Ha) as (Hc3 & new & Hr & Hb).
  split; [done|]. exists new, []. split; [done|]. simpl. by rewrite Hb, !app_nil_r.
Qed.

Lemma poll_kernel_conserves k ts n k' :
  cache_ok (co_ctx k) -> poll_kernel bufmem k ts = Ok (n, k') -> conserves k k' [] [].
Proof.
  unfold poll_kernel. intros Hc Hr. cbv zeta in Hr. branches.
  eapply frame_conserves; eauto using kernel_loop_uses.
Qed.

Lemma poll_queues_conserves k ts n k' :
  cache_ok (co_ctx k) -> poll_queues eth_addr bufmem k ts = Ok (n, k') -> conserves k k' [] [].
Proof.
  unfold poll_queues. intros Hc Hr. branches.
  eapply frame_conserves; [done|eassumption| |eassumption].
  eapply uses_front_skip; [by eapply fetch_all_uses|by eapply bump_all_uses].
Qed.

Lemma uses_qman c t : uses c (c <| qman := t |>) [].
Proof. split; simpl; by rewrite ?app_nil_r. Qed.

Lemma alloc_none c : cache_ok c -> bufcache_alloc c 0 = Ok c.
Proof.
  intros [? ? ?]. unfold bufcache_alloc. rewrite bind_assert_true by lia.
  rewrite cache_mask, Z.add_0_r, Z.sub_0_r, Z.mod_small, u16_small by (unfold BUFCACHE_SIZE in *; lia).
  by destruct c.
Qed.

Lemma poll_qman_conserves k ts now ok n k' :
  cache_ok (co_ctx k) -> poll_qman eth_addr bufmem k ts now ok = Ok (n, k') -> conserves k k' [] [].
Proof.
  unfold poll_qman. intros Hc Hr. branches.
  - match goal with H : bufcache_prealloc _ _ _ = _ |- _ => rename H into Hp end.
    pose proof Hp as Hp'. destruct (bufcache_prealloc_grows (co_ctx k) (tx_room (co_ctx k)) (co_pool k) Hc)
      as (n' & c1' & new & pool' & Hg & _ & Hc1 & _).
    rewrite Hp in Hg. injection Hg as _ _ <- _.
    eapply (frame_conserves k _ _ _ _ _ _ 0); [done|exact Hp| |].
    + apply uses_front_zero, uses_qman.
    + apply alloc_none. by eapply uses_cache_ok; [apply uses_qman|].
  - eapply frame_conserves; [done|eassumption| |eassumption]. eapply uses_front_skip; [apply uses_qman|by eapply qman_all_uses].
Qed.

Lemma uses_conserves (k : core L P) c' m' shm' ls' :
  cache_ok (co_ctx k) -> uses (co_ctx k) c' [] -> conserves k (mk_core m' c' shm' ls' (co_pool k)) [] [].
Proof.
  intros Hc U. split; [by eapply uses_cache_ok|]. exists [], []. split; [constructor|].
  unfold buffers; simpl. by rewrite (us_tx _ _ _ U), (uses_cache _ _ _ U), !app_nil_r.
Qed.

Lemma poll_qman_fwd_conserves k fl n k' :
  cache_ok (co_ctx k) -> poll_qman_fwd k fl = Ok (n, k') -> conserves k k' [] [].
Proof.
  unfold poll_qman_fwd. intros Hc Hr. branches. apply uses_conserves; [done|by eapply fwd_all_uses].
Qed.

Lemma rx_classify_keeps m rx : forall rs, rx_classify crc4 crc8 m rx = Ok rs -> fst <$> rs = rx.
Proof.
  induction rx as [|r rx IH]; intros rs Hr; simpl in Hr; branches; [done| |];
    simpl; f_equal; eauto.
Qed.

Lemma rx_process_uses rs : forall m c (ls : links L) shm ts fs m' c' ls' shm',
  rx_process rss_reta_size rs m c ls shm ts = Ok (fs, m', c', ls', shm') ->
  exists acks, uses c c' acks /\ fs ++ acks ≡ₚ (rx_nbh ∘ fst) <$> rs.
Proof.
  induction rs as [|[r fast] rs IH]; intros m c ls shm ts fs m' c' ls' shm' Hr; simpl in Hr.
  - branches. exists []. split; [apply uses_refl|done].
  - apply bind_Ok_inv in Hr as ([[[ret m1] c1] ls1] & Hfast & Hr).
    assert (uses c c1 (if ret >? 0 then [rx_nbh r] else [])) as U1.
    { branches; first [by eapply fast_flows_packet_uses|apply uses_refl]. }
    apply bind_Ok_inv in Hr as ([[[m2 c2] ls2] shm2] & Hslow & Hr).
    assert (uses c1 c2 []) as U2.
    { branches; first [by eapply fast_kernel_packet_uses|apply uses_refl]. }
    apply bind_Ok_inv in Hr as ([[[[fs' m3] c3] ls3] shm3] & Hrest & Hr).
    injection Hr as <- <- <- <- <-. destruct (IH _ _ _ _ _ _ _ _ _ _ Hrest) as (acks & U3 & Hp).
    eexists. split; [eapply uses_trans; [exact U1|by eapply uses_after]|].
    simpl. rewrite <- Hp. destruct (ret >? 0); simpl; solve_Permutation.
Qed.

Lemma free_all_conserves hs : forall c (pool : P) c' pool',
  cache_ok c -> free_all hs c pool = Ok (c', pool') ->
  cache_ok c' /\ tx_handles c' = tx_handles c /\
  exists back, pool_run pool [] back pool' /\ cache c' ++ back ≡ₚ cache c ++ hs.
Proof.
  induction hs as [|h hs IH]; intros c pool c' pool' Hc Hr; simpl in Hr.
  - branches. split_and!; [done|done|]. exists []. split; [constructor|done].
  - destruct (bufcache_free_ok c h pool Hc) as (c1 & pool1 & Hf & Hc1 & Ht & Hif).
    rewrite Hf in Hr. simpl in Hr.
    destruct (IH _ _ _ _ Hc1 Hr) as (Hc' & Ht' & back & Hrun & Hp).
    split_and!; [done|congruence|].
    destruct (bufcache_num c <? BUFCACHE_SIZE); destruct Hif as [E ->].
    + exists back. split; [done|]. rewrite Hp, E. solve_Permutation.
    + subst c1. exists (h :: back). split; [by constructor|].
      transitivity (h :: (cache c' ++ back)); [solve_Permutation|]. rewrite Hp. solve_Permutation.
Qed.

Lemma poll_rx_conserves k rx ts n k' ns :
  cache_ok (co_ctx k) ->
  poll_rx rss_reta_size crc4 crc8 k rx ts = Ok (n, k', ns) -> conserves k k' (rx_nbh <$> rx) [].
Proof.
  unfold poll_rx. intros Hc Hr. destruct rx as [|r rx].
  - branches. split; [done|]. exists [], []. split; [constructor|done].
  - cbv beta iota in Hr. remember (r :: rx) as rxs eqn:Erx.
    apply bind_Ok_inv in Hr as (rs & Hcl & Hr).
    apply bind_Ok_inv in Hr as ([[[[fs m1] c1] ls1] shm1] & Hpr & Hr).
    apply bind_Ok_inv in Hr as ([[[m2 c2] la] ns'] & Har & Hr).
    apply bind_Ok_inv in Hr as ([c3 pool3] & Hfr & Hr). injection Hr as <- <- <-.
    apply rx_classify_keeps in Hcl.
    destruct (rx_process_uses _ _ _ _ _ _ _ _ _ _ _ Hpr) as (acks & U1 & Hp).
    rewrite list_fmap_compose, Hcl in Hp.
    pose proof (uses_then _ _ _ _ U1 (arx_cache_flush_uses _ _ _ _ _ _ _ Har)) as U.
    destruct (free_all_conserves _ _ _ _ _ (uses_cache_ok _ _ _ U Hc) Hfr)
      as (Hc3 & Ht & back & Hrun & Hb).
    split; [done|]. exists [], back. split; [done|]. simpl. unfold buffers.
    rewrite Ht, (us_tx _ _ _ U), <- Hp.
    transitivity ((te_nbh <$> tx_handles (co_ctx k)) ++ acks ++ cache c3 ++ back); [solve_Permutation|].
    rewrite Hb, (uses_cache _ _ _ U). solve_Permutation.
Qed.

Lemma tx_flush_split c ret :
  tx_handles c = fst (tx_flush c ret) ++ tx_handles (snd (tx_flush c ret)) /\
  cache (snd (tx_flush c ret)) = cache c /\ (cache_ok c -> cache_ok (snd (tx_flush c ret))).
Proof.
  unfold tx_flush. destruct (Z.eqb_spec (tx_num c) 0); [done|].
  destruct (Z.eqb_spec ret (tx_num c)).
  { simpl. split_and!; [by rewrite app_nil_r|done|]. by intros [? ? ?]. }
  destruct (ret >? 0); simpl; [|done].
  split_and!; [by rewrite take_drop|done|]. by intros [? ? ?].
Qed.

Lemma co_flush_conserves (k : core L P) ret :
  cache_ok (co_ctx k) -> conserves k (snd (co_flush k ret)) [] (te_nbh <$> fst (co_flush k ret)).
Proof.
  intros Hc. unfold co_flush. destruct (tx_flush_split (co_ctx k) ret) as (Ht & Hca & Hok).
  destruct (tx_flush (co_ctx k) ret) as [sent c'] eqn:E. simpl in *.
  split; [by apply Hok|]. exists [], []. split; [constructor|].
  simpl. unfold buffers. rewrite Ht, Hca, fmap_app. solve_Permutation.
Qed.

(** C4. One iteration of the main loop conserves the packet buffers: whatever
    was held in the transmit buffer and the cache, drawn from the pool or received
    is afterwards held, given back to the pool or sent, each buffer exactly once;
    none is leaked and none is used twice. *)
Theorem dataplane_iteration_conserves k w n k' sent ns :
  cache_ok (co_ctx k) ->
  dataplane_iteration eth_addr rss_reta_size crc4 crc8 bufmem k w = Ok (n, k', sent, ns) ->
  cache_ok (co_ctx k') /\ exists new back, pool_run (co_pool k) new back (co_pool k') /\
    buffers (co_ctx k') ++ back ++ (te_nbh <$> sent) ≡ₚ
    buffers (co_ctx k) ++ new ++ (rx_nbh <$> w_rx w).
Proof.
  intros Hc Hr. unfold dataplane_iteration in Hr.
  apply bind_Ok_inv in Hr as ([[n1 k1] ns1] & I1 & Hr).
  apply poll_rx_conserves in I1; [|done].
  pose proof (co_flush_conserves k1 (w_sent_1 w) (cv_ok _ _ _ _ I1)) as F1.
  destruct (co_flush k1 (w_sent_1 w)) as [s1 k2]. simpl in F1.
  apply bind_Ok_inv in Hr as ([n2 k3] & I2 & Hr).
  apply poll_qman_fwd_conserves in I2; [|by apply F1].
  apply bind_Ok_inv in Hr as ([n3 k4] & I3 & Hr).
  apply poll_qman_conserves in I3; [|by apply I2].
  apply bind_Ok_inv in Hr as ([n4 k5] & I4 & Hr).
  apply poll_queues_conserves in I4; [|by apply I3].
  apply bind_Ok_inv in Hr as ([n5 k6] & I5 & Hr).
  apply poll_kernel_conserves in I5; [|by apply I4].
  pose proof (co_flush_conserves k6 (w_sent_2 w) (cv_ok _ _ _ _ I5)) as F2.
  destruct (co_flush k6 (w_sent_2 w)) as [s2 k7]. simpl in F2. injection Hr as <- <- <- <-.
  pose proof (conserves_trans _ _ _ _ _ _ _ (conserves_trans _ _ _ _ _ _ _ (conserves_trans _ _ _ _ _ _ _
    (conserves_trans _ _ _ _ _ _ _ (conserves_trans _ _ _ _ _ _ _ (conserves_trans _ _ _ _ _ _ _
      I1 F1) I2) I3) I4) I5) F2) as [Hok (new & back & Hrun & Hb)].
  split; [done|]. exists new, back. split; [done|]. rewrite fmap_app.
  by rewrite ?app_nil_r, ?app_nil_l in Hb.
Qed.

End Conservation.

(** ** The fuel of the kernel queue's loop is enough

    Every round takes an entry out of the queue, so that any amount of fuel from
    [kernel_fuel] on gives the same result. *)
Section KernelFuel.
Context `{Checksums} (bufmem : Z -> list Z).

Lemma fast_flows_retransmit_kctx m c id m' c' :
  fast_flows_retransmit m c id = Ok (m', c') -> kctx m' = kctx m.
Proof. unfold fast_flows_retransmit. intros Hr. by branches. Qed.

Lemma fast_kernel_poll_progress m c shm h buf ts s r m' c' :
  rep (actx_tx (kctx m)) s -> fast_kernel_poll m c shm h buf ts = Ok (r, m', c') -> 0 <= r ->
  exists s', rep (actx_tx (kctx m')) s' /\ buffer_size (actx_tx (kctx m')) = buffer_size (actx_tx (kctx m)) /\
    (length (visible s') < length (visible s))%nat.
Proof.
  intros Hrep Hr Hpos. unfold fast_kernel_poll in Hr.
  destruct (negb (enabled (kctx m))); [injection Hr as <- _ _; lia|].
  pose proof (rq_dequeue_local _ _ true SIZEOF_KTX true Hrep ltac:(done)) as Hd.
  unfold fifo_dequeue in Hd. unfold rq_try_dequeue in Hr.
  destruct (Z.ltb_spec (Z.of_nat (length (visible s))) SIZEOF_KTX) as [|Hlen];
    destruct Hd as (q' & Eq & Hq' & Hbs & _); rewrite Eq in Hr; osimpl.
  { injection Hr as <- _ _. lia. }
  exists (mk_fifo (drop (Z.to_nat SIZEOF_KTX) (visible s)) (pending s)).
  unfold SIZEOF_KTX in *. simpl. rewrite length_drop.
  assert (kctx m' = (kctx m) <| actx_tx := q' |>) as ->; [|split_and!; [done|done|lia]].
  branches; try done.
  match goal with Hx : fast_flows_retransmit _ _ _ = Ok _ |- _ => apply fast_flows_retransmit_kctx in Hx end.
  done.
Qed.

Lemma kernel_loop_more_fuel f1 : forall f2 mx hs m c shm ts s,
  rep (actx_tx (kctx m)) s -> (length (visible s) < f1)%nat -> (length (visible s) < f2)%nat ->
  kernel_loop bufmem f1 mx hs m c shm ts = kernel_loop bufmem f2 mx hs m c shm ts.
Proof.
  induction f1 as [|f1 IH]; intros [|f2] mx hs m c shm ts s Hrep H1 H2; try lia. cbn [kernel_loop].
  destruct (mx >? 0); [|done]. destruct (first_handle hs) as [h|]; [|done]. osimpl.
  destruct (fast_kernel_poll m c shm h (bufmem h) ts) as [[[r m'] c']|] eqn:E; [|done]. osimpl.
  destruct (Z.ltb_spec r 0); [done|].
  destruct (fast_kernel_poll_progress _ _ _ _ _ _ _ _ _ _ Hrep E ltac:(done)) as (s' & Hs' & _ & Hl).
  by destruct (r =? 0); rewrite (IH f2 _ _ _ _ _ _ s') by (done || lia).
Qed.

Lemma kernel_fuel_enough fuel mx hs m c shm ts s :
  rep (actx_tx (kctx m)) s -> (kernel_fuel m <= fuel)%nat ->
  kernel_loop bufmem fuel mx hs m c shm ts = kernel_loop bufmem (kernel_fuel m) mx hs m c shm ts.
Proof.
  intros Hrep Hf. pose proof (rep_fits _ _ Hrep). pose proof (rep_bs _ _ Hrep). unfold fifo_size in *.
  unfold kernel_fuel, RDMA_QUEUE_PAD in *. apply (kernel_loop_more_fuel _ _ _ _ _ _ _ _ s); [done|lia..].
Qed.

End KernelFuel.

(** ** Notifying applications *)
Section Arx.
Context {L : Type} `{RdmaLink L}.
Implicit Types (S : Z -> fifo) (m : fp_mem) (ls : Z -> L) (es : list (Z * arx_entry)).

(** The receive queue of every application context represents its FIFO. *)
Definition arx_holds m S : Prop :=
  forall cid a, appctxs m !! cid = Some a -> rep (actx_rx a) (S cid).

(** Context [cid] is in use and takes [n] more bytes before the end of its ring. *)
Definition arx_room m S (n cid : Z) : Prop :=
  exists a, appctxs m !! cid = Some a /\ enabled a = true /\ pending (S cid) = [] /\
    fifo_size (S cid) + n <= buffer_size (actx_rx a) - RDMA_QUEUE_PAD /\
    tx_off (actx_rx a) + n <= buffer_size (actx_rx a).

Lemma arx_length e : Z.of_nat (length (encode_arx e)) = SIZEOF_ARX.
Proof. by destruct (entry_lengths (mk_krx 0 0 0 0 0) (KtxOther 0) e (mk_atx 0 0 0 0 0 0)) as (_ & _ & ? & _). Qed.

(** The enqueue of one notification. *)
Lemma arx_enqueue_one m S ls cid e a :
  arx_holds m S -> appctxs m !! cid = Some a ->
  fifo_size (S cid) + SIZEOF_ARX <= buffer_size (actx_rx a) - RDMA_QUEUE_PAD ->
  tx_off (actx_rx a) + SIZEOF_ARX <= buffer_size (actx_rx a) ->
  exists q, rq_try_enqueue (actx_rx a) (ls cid) (Some (encode_arx e)) SIZEOF_ARX = Ok (0, q, ls cid) /\
    arx_holds (put_appctx m cid (a <| actx_rx := q |>))
      (<[cid := mk_fifo (visible (S cid)) (pending (S cid) ++ encode_arx e)]> S) /\
    tx_off q = tx_off (actx_rx a) + SIZEOF_ARX /\ buffer_size q = buffer_size (actx_rx a).
Proof.
  intros Hh Ha Hr Ht.
  destruct (rq_enqueue_data (actx_rx a) (S cid) (ls cid) (encode_arx e) (Hh _ _ Ha))
    as (q & He & R & Htx & _ & Hbs); [rewrite arx_length; lia..|].
  rewrite arx_length in *. exists q. split_and!; [done| |done|done].
  intros c b Hb. simpl in Hb. destruct (decide (c = cid)) as [->|Hne].
  - rewrite lookup_insert_eq in Hb. injection Hb as <-. by rewrite fn_lookup_insert.
  - rewrite lookup_insert_ne in Hb by done. rewrite fn_lookup_insert_ne by done. by apply Hh.
Qed.

Lemma arx_room_other m S cid c a s n :
  c <> cid -> arx_room m S n c -> arx_room (put_appctx m cid a) (<[cid := s]> S) n c.
Proof.
  intros Hne (b & Hb & ?). exists b. simpl. rewrite lookup_insert_ne, fn_lookup_insert_ne by done. done.
Qed.

Lemma arx_enqueue_distinct es : forall m S ls,
  arx_holds m S -> NoDup es.*1 -> Forall (arx_room m S SIZEOF_ARX) es.*1 ->
  exists m' S' ls', arx_enqueue_all es m ls = Ok (m', ls') /\ arx_holds m' S' /\
    (forall cid, is_Some (appctxs m !! cid) -> is_Some (appctxs m' !! cid)) /\
    (forall cid e, (cid, e) ∈ es -> S' cid = mk_fifo (visible (S cid)) (encode_arx e)) /\
    (forall cid, cid ∉ es.*1 -> S' cid = S cid).
Proof.
  induction es as [|[cid e] es IH]; intros m S ls Hh Hnd Hall;
    rewrite ?fmap_cons in *; cbn [fst arx_enqueue_all] in *.
  { exists m, S, ls. split_and!; [done..| |done]. intros ? ? []%elem_of_nil. }
  apply NoDup_cons in Hnd as [Hni Hnd]. apply Forall_cons in Hall as [(a & Ha & Hen & Hp & Hr & Ht) Hall].
  unfold get_appctx. rewrite Ha. osimpl. rewrite Hen. osimpl.
  destruct (arx_enqueue_one m S ls cid e a Hh Ha Hr Ht) as (q & -> & Hh1 & _). osimpl. cbn [Z.eqb negb].
  rewrite Hp, app_nil_l in Hh1.
  destruct (IH _ _ (<[cid := ls cid]> ls) Hh1 Hnd) as (m' & S' & ls' & -> & Hh' & Hdom & Hin & Hout).
  { rewrite Forall_forall in Hall |- *. intros c Hc. apply arx_room_other; [by intros ->|by apply Hall]. }
  exists m', S', ls'. split_and!; [done|done| | |].
  - intros c Hc. apply Hdom. simpl. destruct (decide (c = cid)) as [->|].
    + rewrite lookup_insert_eq. by eexists.
    + by rewrite lookup_insert_ne.
  - intros c e' [[= -> ->]|Hce]%elem_of_cons.
    + rewrite Hout by done. by rewrite fn_lookup_insert.
    + rewrite (Hin c e' Hce). rewrite fn_lookup_insert_ne; [done|]. intros ->. apply Hni.
      apply list_elem_of_fmap. by exists (c, e').
  - intros c [Hne Hc]%not_elem_of_cons. rewrite Hout by done. by rewrite fn_lookup_insert_ne.
Qed.

(** The contexts [arx_flush_all] flushes, in order. *)
Fixpoint flush_order (cur : Z) es : list Z :=
  match es with [] => [] | (cid, _) :: es => cur :: flush_order cid es end.

Lemma flush_order_eq cur es : cur :: es.*1 = flush_order cur es ++ [default cur (last es.*1)].
Proof.
  revert cur. induction es as [|[cid e] es IH]; intros cur; [done|].
  rewrite fmap_cons. cbn [fst flush_order app]. f_equal.
  etransitivity; [apply IH|]. do 2 f_equal. destruct (es.*1) as [|x l]; [done|].
  cbn [last]. destruct (last (x :: l)) eqn:E; [done|by apply last_None in E].
Qed.

Lemma arx_flush_one m S ls cur a :
  arx_holds m S -> appctxs m !! cur = Some a ->
  exists q, rq_flush (actx_rx a) (ls cur) = Ok (Z.of_nat (length (pending (S cur))), q, ls cur) /\
    arx_holds (put_appctx m cur (a <| actx_rx := q |>))
      (<[cur := mk_fifo (visible (S cur) ++ pending (S cur)) []]> S).
Proof.
  intros Hh Ha. unfold rq_flush. rewrite (rep_to_flush _ _ (Hh _ _ Ha)). osimpl.
  destruct (rq_nflush_local (actx_rx a) (S cur) (ls cur) (Z.of_nat (length (pending (S cur)))) (Hh _ _ Ha))
    as (q & -> & R & _); [lia|].
  rewrite fifo_flush_all, Z.min_id in * by lia. exists q. split; [done|].
  intros c b Hb. simpl in Hb. destruct (decide (c = cur)) as [->|Hne].
  - rewrite lookup_insert_eq in Hb. injection Hb as <-. by rewrite fn_lookup_insert.
  - rewrite lookup_insert_ne in Hb by done. rewrite fn_lookup_insert_ne by done. by apply Hh.
Qed.

Lemma arx_flush_distinct es : forall m S ls cur,
  arx_holds m S -> NoDup (flush_order cur es) ->
  (forall c, c ∈ flush_order cur es -> is_Some (appctxs m !! c) /\
     SIZEOF_ARX <= Z.of_nat (length (pending (S c))) < 2147483648) ->
  exists m' S' ls', arx_flush_all es cur m ls = Ok (m', ls', es.*1) /\ arx_holds m' S' /\
    forall c, S' c = if decide (c ∈ flush_order cur es)
                     then mk_fifo (visible (S c) ++ pending (S c)) [] else S c.
Proof.
  induction es as [|[cid e] es IH]; intros m S ls cur Hh Hnd Hall;
    rewrite ?fmap_cons in *; cbn [fst arx_flush_all flush_order] in *.
  { exists m, S, ls. split_and!; [done..|]. intros c. by destruct (decide _) as [[]%elem_of_nil|]. }
  apply NoDup_cons in Hnd as [Hni Hnd].
  destruct (Hall cur ltac:(set_solver)) as [[a Ha] Hp].
  unfold get_appctx. rewrite Ha. osimpl.
  destruct (arx_flush_one m S ls cur a Hh Ha) as (q & -> & Hh1). osimpl.
  rewrite u64_small by lia. rewrite (proj2 (Z.ltb_ge _ _)) by lia.
  destruct (IH _ _ (<[cur := ls cur]> ls) cid Hh1 Hnd) as (m' & S' & ls' & -> & Hh' & HS').
  { intros c Hc. destruct (decide (c = cur)) as [->|Hne]; [done|]. simpl.
    rewrite lookup_insert_ne, fn_lookup_insert_ne by done. apply Hall. set_solver. }
  osimpl. exists m', S', ls'. split_and!; [done|done|]. intros c. rewrite HS'.
  destruct (decide (c = cur)) as [->|Hne].
  - rewrite decide_False by done. rewrite decide_True by set_solver. by rewrite fn_lookup_insert.
  - rewrite fn_lookup_insert_ne by done.
    destruct (decide (c ∈ flush_order cid es)); [rewrite decide_True by set_solver|rewrite decide_False by set_solver]; done.
Qed.

(** Notifications: when the cached notifications are for different
    contexts and each has room before the end of its ring, every application
    context finds its notification at the end of its queue, all of them are
    woken up, and the cache is empty. *)
Theorem arx_cache_flush_delivers m c ls S :
  arx_holds m S -> NoDup (arx_cache c).*1 ->
  Forall (arx_room m S SIZEOF_ARX) (arx_cache c).*1 ->
  exists m' c' ls' S', arx_cache_flush m c ls = Ok (m', c', ls', (arx_cache c).*1) /\
    arx_holds m' S' /\ arx_cache c' = [] /\
    (forall cid e, (cid, e) ∈ arx_cache c -> S' cid = mk_fifo (visible (S cid) ++ encode_arx e) []) /\
    (forall cid, cid ∉ (arx_cache c).*1 -> S' cid = S cid).
Proof.
  intros Hh Hnd Hall. unfold arx_cache_flush. set (es := arx_cache c) in *.
  destruct (last es) as [[cur e0]|] eqn:Hlast.
  - assert (last es.*1 = Some cur) as Hl1 by by rewrite fmap_last, Hlast.
    assert (flush_order cur es ≡ₚ es.*1) as Hperm.
    { pose proof (flush_order_eq cur es) as Hp. rewrite Hl1 in Hp. simpl in Hp.
      apply (Permutation_cons_inv (a := cur)). rewrite Hp. by rewrite <- Permutation_cons_append. }
    destruct (arx_enqueue_distinct es m S ls Hh Hnd Hall) as (m1 & S1 & ls1 & -> & Hh1 & Hdom & Hin & Hout).
    osimpl. destruct (arx_flush_distinct es m1 S1 ls1 cur Hh1) as (m2 & S2 & ls2 & -> & Hh2 & HS2).
    { by rewrite Hperm. }
    { intros x Hx. rewrite Hperm in Hx. split.
      - apply Hdom. rewrite Forall_forall in Hall. destruct (Hall x Hx) as (a & Ha & _). by eexists.
      - apply list_elem_of_fmap in Hx as ([x' e] & -> & Hx). cbn [fst]. rewrite (Hin _ _ Hx). cbn [pending].
        rewrite arx_length. by split. }
    osimpl. do 4 eexists. split_and!; [reflexivity|exact Hh2|done| |].
    + intros cid e He. rewrite HS2, decide_True.
      * by rewrite (Hin _ _ He).
      * rewrite Hperm. apply list_elem_of_fmap. by exists (cid, e).
    + intros cid Hcid. rewrite HS2, decide_False by by rewrite Hperm. by apply Hout.
  - apply last_None in Hlast. rewrite Hlast. osimpl. exists m, c, ls, S.
    split_and!; [done|done|done| |done]. intros ? ? []%elem_of_nil.
Qed.

(** Code bug: when two received packets notify the same context in one
    batch, the first flush takes both notifications along, the second finds
    nothing to flush, and the fast path aborts. *)
Theorem arx_cache_flush_same_context m c ls S cid e1 e2 :
  arx_holds m S -> arx_cache c = [(cid, e1); (cid, e2)] -> arx_room m S (2 * SIZEOF_ARX) cid ->
  arx_cache_flush m c ls = Stop Aborted.
Proof.
  intros Hh Hc (a & Ha & Hen & Hp & Hr & Ht). unfold arx_cache_flush. rewrite Hc.
  cbn [last arx_enqueue_all]. unfold get_appctx. rewrite Ha. osimpl. rewrite Hen. osimpl.
  assert (0 < SIZEOF_ARX < 2147483648) as HS by done.
  destruct (arx_enqueue_one m S ls cid e1 a Hh Ha) as (q1 & -> & Hh1 & Ht1 & Hb1); [lia..|].
  osimpl. cbn [Z.eqb negb]. set (a1 := a <| actx_rx := q1 |>) in *.
  set (S1 := <[cid := _]> S) in *. set (m1 := put_appctx m cid a1) in *.
  assert (appctxs m1 !! cid = Some a1) as Ha1 by apply lookup_insert_eq.
  rewrite Ha1. osimpl. change (enabled a1) with (enabled a). rewrite Hen. osimpl.
  assert (S1 cid = mk_fifo (visible (S cid)) (encode_arx e1)) as HS1.
  { unfold S1. by rewrite fn_lookup_insert, Hp. }
  destruct (arx_enqueue_one m1 S1 (<[cid := ls cid]> ls) cid e2 a1 Hh1 Ha1) as (q2 & -> & Hh2 & _).
  { rewrite HS1. unfold fifo_size in *. cbn [visible pending]. rewrite arx_length.
    change (actx_rx a1) with q1. rewrite Hp in Hr. simpl in Hr. lia. }
  { change (actx_rx a1) with q1. lia. }
  osimpl. cbn [Z.eqb negb arx_flush_all]. set (a2 := a1 <| actx_rx := q2 |>) in *.
  set (S2 := <[cid := _]> S1) in *. set (m2 := put_appctx m1 cid a2) in *.
  assert (appctxs m2 !! cid = Some a2) as Ha2 by apply lookup_insert_eq.
  unfold get_appctx. osimpl. rewrite Ha2. osimpl.
  destruct (arx_flush_one m2 S2 (<[cid := ls cid]> (<[cid := ls cid]> ls)) cid a2 Hh2 Ha2)
    as (q3 & Hfl & Hh3).
  assert (Z.of_nat (length (pending (S2 cid))) = 2 * SIZEOF_ARX) as Hp2.
  { unfold S2. rewrite fn_lookup_insert. cbn [pending]. rewrite HS1, length_app. cbn [pending].
    pose proof (arx_length e1). pose proof (arx_length e2). lia. }
  rewrite !fn_lookup_insert in Hfl. repeat rewrite fn_lookup_insert. rewrite Hfl, Hp2. osimpl.
  rewrite u64_small, (proj2 (Z.ltb_ge _ _)) by lia. simpl appctxs. rewrite lookup_insert_eq. osimpl.
  repeat rewrite fn_lookup_insert.
  match goal with Hh3 : arx_holds ?m3 ?S3 |- context [rq_flush _ ?l] =>
    destruct (arx_flush_one m3 S3 (fun _ => l) cid _ Hh3 (lookup_insert_eq _ _ _)) as (q4 & Hf4 & _) end.
  rewrite fn_lookup_insert in Hf4. cbn [pending] in Hf4. cbn [set_field actx_rx] in Hf4 |- *. rewrite Hf4. by osimpl.
Qed.

End Arx.

(** ** Concrete cores *)
Module Demo.

#[export] Instance checksums : Checksums := {|
  fp_xsumoffload := true; rte_ipv4_cksum := fun _ => 0; rte_ipv4_udptcp_cksum := fun _ _ _ => 0 |}.

(** A pool that hands out its free buffers in order. *)
#[export, refine] Instance list_pool : Mempool (list Z) := {
  pool_alloc p n := (take (Z.to_nat n) p, drop (Z.to_nat n) p);
  pool_free p h := p ++ [h];
}.
Proof. intros p n Hn. simpl. rewrite length_take. lia. Defined.

Definition queue_at (addr size : Z) : rdma_queue :=
  RdmaQueue.mk_queue addr 0 size 0 (mk_endpoint addr 0 0 0) (mk_endpoint addr 0 0 0) false false
    (replicate (Z.to_nat size) 0).
Definition app (on : bool) : appctx := mk_appctx (queue_at 4096 128) (queue_at 8192 128) on.
Definition apps : gmap Z appctx :=
  list_to_map (imap (fun i a => (Z.of_nat i, a)) (replicate 16 (app true))).
Definition mem : fp_mem := mk_fp ∅ ∅ [] (app false) apps.
Definition empty : fifo := mk_fifo [] [].

Definition ctx (arx : list (Z * arx_entry)) : dataplane_context :=
  mk_dctx 0 (mk_qman ∅ (replicate 4 IDXLIST_INVAL) IDXLIST_INVAL IDXLIST_INVAL 0 0 0 false)
    [mk_txe 7 0 60 (pkt_of_bytes (replicate 64 0))] arx [] [] 0 (replicate 126 0 ++ [21; 22]) 2 126 0.

Lemma ctx_ok arx : cache_ok (ctx arx).
Proof. split; [done|done|done]. Qed.

Definition link : links RdmaQueue.peer :=
  mk_links (fun _ => RdmaQueue.Demo.link) RdmaQueue.Demo.link (fun _ => RdmaQueue.Demo.link).
Definition core0 : core RdmaQueue.peer (list Z) := mk_core mem (ctx []) [] link (seqZ 100 200).

(** A packet for no flow arrives; the transmit buffer goes out. *)
Definition w : world := mk_world 5 5 [mk_rxp 9 0 64 (replicate 64 0) None] [] 1 0 true.

Lemma holds : arx_holds mem (fun _ => empty).
Proof.
  intros cid a Ha. apply elem_of_list_to_map_2 in Ha.
  apply elem_of_lookup_imap in Ha as (i & b & [= -> ->] & Hb).
  apply lookup_replicate in Hb as [-> _].
  constructor; RdmaQueue.Demo.by_compute.
Qed.

End Demo.

#[local] Existing Instance Demo.checksums.
#[local] Existing Instance Demo.list_pool.

Lemma bufcache_is_queue_witness :
  exists n hs c1 new pool1, bufcache_prealloc (Demo.ctx []) 16 (seqZ 100 200) = Ok (n, hs, c1, pool1) /\
    pool_run (seqZ 100 200) new [] pool1 /\ cache c1 = cache (Demo.ctx []) ++ new /\ n <= 16 /\
    take (Z.to_nat n) hs = take (Z.to_nat n) (cache c1) /\
    (2 <= n -> exists c2 c3 pool2,
      bufcache_alloc c1 2 = Ok c2 /\ cache c2 = drop 2 (cache c1) /\
      bufcache_free c2 5 pool1 = Ok (c3, pool2) /\ cache_ok c3 /\
      (cache c3 = cache c2 ++ [5] /\ pool2 = pool1 \/
       cache c3 = cache c2 /\ Z.of_nat (length (cache c2)) = BUFCACHE_SIZE /\ pool2 = pool_free pool1 5)).
Proof. apply (bufcache_is_queue (Demo.ctx []) 16 2 5); [apply Demo.ctx_ok|lia|lia]. Defined.

Lemma dataplane_iteration_conserves_witness :
  exists n k' sent ns,
    dataplane_iteration 0 512 (fun _ _ => 0) (fun _ _ => 0) (fun _ => replicate 2048 0) Demo.core0 Demo.w =
      Ok (n, k', sent, ns) /\
    cache_ok (co_ctx k') /\ exists new back, pool_run (co_pool Demo.core0) new back (co_pool k') /\
    buffers (co_ctx k') ++ back ++ (te_nbh <$> sent) ≡ₚ
    buffers (co_ctx Demo.core0) ++ new ++ (rx_nbh <$> w_rx Demo.w).
Proof.
  destruct (dataplane_iteration 0 512 (fun _ _ => 0) (fun _ _ => 0) (fun _ => replicate 2048 0)
    Demo.core0 Demo.w) as [[[[n k'] sent] ns]|s] eqn:E; [|vm_compute in E; discriminate E].
  exists n, k', sent, ns. split; [reflexivity|].
  exact (dataplane_iteration_conserves 0 512 (fun _ _ => 0) (fun _ _ => 0) (fun _ => replicate 2048 0)
    Demo.core0 Demo.w n k' sent ns (Demo.ctx_ok []) E).
Defined.

Lemma arx_cache_flush_delivers_witness :
  exists m' c' ls' S', arx_cache_flush Demo.mem (Demo.ctx [(3, mk_arx 1 2 3 4 5 1); (8, mk_arx 6 7 8 9 0 1)])
      (l_app Demo.link) = Ok (m', c', ls', [3; 8]) /\
    arx_holds m' S' /\ arx_cache c' = [] /\
    (forall cid e, (cid, e) ∈ [(3, mk_arx 1 2 3 4 5 1); (8, mk_arx 6 7 8 9 0 1)] ->
       S' cid = mk_fifo ([] ++ encode_arx e) []) /\
    (forall cid, cid ∉ [3; 8] -> S' cid = Demo.empty).
Proof.
  apply (arx_cache_flush_delivers Demo.mem
    (Demo.ctx [(3, mk_arx 1 2 3 4 5 1); (8, mk_arx 6 7 8 9 0 1)]) (l_app Demo.link) (fun _ => Demo.empty)).
  - exact Demo.holds.
  - apply (bool_decide_unpack (NoDup [3; 8])). reflexivity.
  - repeat constructor; exists (Demo.app true);
      (split; [reflexivity|]; split; [reflexivity|]; split; [reflexivity|]; split; vm_compute; congruence).
Defined.

Lemma arx_cache_flush_same_context_witness :
  arx_cache_flush Demo.mem (Demo.ctx [(3, mk_arx 1 2 3 4 5 1); (3, mk_arx 6 7 8 9 0 1)])
    (l_app Demo.link) = Stop Aborted.
Proof.
  apply (arx_cache_flush_same_context Demo.mem _ (l_app Demo.link) (fun _ => Demo.empty) 3
    (mk_arx 1 2 3 4 5 1) (mk_arx 6 7 8 9 0 1)); [exact Demo.holds|reflexivity|].
  exists (Demo.app true).
  split; [reflexivity|]; split; [reflexivity|]; split; [reflexivity|]; split; vm_compute; congruence.
Defined.
