(* ===== verification/Scaling.v ===== *)
(** * Scaling the number of cores (tas_nic/fast/network.c, tas_nic/tas_nic.c)

    The redirection table of the NIC, which distributes flow groups over the cores,
    as it is set up and changed when the number of cores changes; the load monitor,
    which decides about the number; and the request in between ([fp_scale_to]). *)
From S2P Require Import Prelude FastCtx FastEmu.

#[local] Open Scope Z_scope.

(** ** The device

    DPDK's [rte_eth_dev_rss_reta_update] is given the masks, the table and its size;
    the result is 0 on success. *)
Class RetaDev (D : Type) := {
  reta_update : D -> list Z -> list Z -> Z -> Z * D;
  reta_table : D -> list Z;
}.

Definition RTE_RETA_GROUP_SIZE : Z := 64.
Definition mask_bit (masks : list Z) (k : Z) : bool :=
  Z.testbit (masks !!! Z.to_nat (k / RTE_RETA_GROUP_SIZE)) (k mod RTE_RETA_GROUP_SIZE).

(** As documented: entries whose bit is set are replaced, the others stay; a table of
    another size is resized, with all entries replaced. Nothing changes on failure. *)
Class RetaDevOk (D : Type) `{RetaDev D} := {
  reta_update_ok d masks reta size rv d' : reta_update d masks reta size = (rv, d') ->
    if rv =? 0 then
      forall k, 0 <= k < size -> reta_table d' !! Z.to_nat k =
        if mask_bit masks k then reta !! Z.to_nat k else reta_table d !! Z.to_nat k
    else d' = d;
}.

(** A device that takes every update of its whole table, and of part of it when the
    size is the one it has. *)
#[export] Instance list_dev : RetaDev (list Z) := {
  reta_update d masks reta size :=
    if (size =? Z.of_nat (length reta)) &&
       ((size =? Z.of_nat (length d)) || forallb (mask_bit masks) (seqZ 0 size))
    then (0, imap (fun k v => if mask_bit masks (Z.of_nat k) then v else d !!! k) reta)
    else (-1, d);
  reta_table d := d;
}.

(** ** The table

    [rss_reta] without the division into groups, the masks of the groups, the number
    of entries of each core, and the steering of flow groups, which the fast path and
    the slow path read. *)
Section Reta.
Context {D : Type} `{RetaDev D}.

Record reta_state := mk_reta {
  rss_reta_size : Z;
  rss_reta : list Z;
  rss_mask : list Z;
  rss_core_buckets : list Z;
  rt_steering : list Z;
  rt_dev : D;
}.
#[export] Instance eta_reta : Eta reta_state := fun s =>
  mk_reta (rss_reta_size s) (rss_reta s) (rss_mask s) (rss_core_buckets s) (rt_steering s) (rt_dev s).

(** Reading and writing an array. *)
Definition aget (l : list Z) (i : Z) : outcome Z :=
  if i <? 0 then Stop OutOfBounds else match l !! Z.to_nat i with Some v => Ok v | None => Stop OutOfBounds end.
Definition aput (l : list Z) (i v : Z) : outcome (list Z) :=
  _ ← aget l i; mret (<[Z.to_nat i := v]> l).

Definition UINT8_MAX : Z := 255.

Fixpoint core_min_loop (n : nat) (b : list Z) (i i_min v_min : Z) : outcome Z :=
  match n with
  | O => mret i_min
  | S n =>
      v ← aget b i;
      if v <? v_min then core_min_loop n b (i + 1) i v else core_min_loop n b (i + 1) i_min v_min
  end.
Definition core_min (b : list Z) (num : Z) : outcome Z := core_min_loop (Z.to_nat num) b 0 0 UINT8_MAX.

Fixpoint core_max_loop (n : nat) (b : list Z) (i i_max v_max : Z) : outcome Z :=
  match n with
  | O => mret i_max
  | S n =>
      v ← aget b i;
      if v >=? v_max then core_max_loop n b (i + 1) i v else core_max_loop n b (i + 1) i_max v_max
  end.
Definition core_max (b : list Z) (num : Z) : outcome Z := core_max_loop (Z.to_nat num) b 0 0 0.

(** The next entry of core [c], from [k] on and around. *)
Fixpoint next_entry (fuel : nat) (s : reta_state) (c k : Z) : outcome Z :=
  match fuel with
  | O => Stop OutOfFuel
  | S fuel =>
      v ← aget (rss_reta s) k;
      if v =? c then mret k else next_entry fuel s c ((k + 1) mod rss_reta_size s)
  end.

(** Entry [k] goes to core [j]; its core was [c]. *)
Definition move_entry (s : reta_state) (k c j : Z) : outcome reta_state :=
  m ← aget (rss_mask s) (k / RTE_RETA_GROUP_SIZE);
  masks ← aput (rss_mask s) (k / RTE_RETA_GROUP_SIZE) (Z.lor m (u64 (Z.shiftl 1 (k mod RTE_RETA_GROUP_SIZE))));
  reta ← aput (rss_reta s) k j;
  steer ← aput (rt_steering s) k (u8 j);
  v ← aget (rss_core_buckets s) c; b ← aput (rss_core_buckets s) c (u16 (v - 1));
  w ← aget b j; b ← aput b j (u16 (w + 1));
  mret (s <| rss_mask := masks |> <| rss_reta := reta |> <| rt_steering := steer |> <| rss_core_buckets := b |>).

Definition clear_mask (s : reta_state) : reta_state :=
  s <| rss_mask := replicate (length (rss_mask s)) 0 |>.
Definition update_dev (s : reta_state) : Z * reta_state :=
  let '(rv, d) := reta_update (rt_dev s) (rss_mask s) (rss_reta s) (rss_reta_size s) in
  (if rv =? 0 then 0 else -1, s <| rt_dev := d |>).

(** The inner loop of [network_scale_up]: [n] entries for core [j]. *)
Fixpoint fill_core (n : nat) (s : reta_state) (old j k : Z) : outcome (Z * reta_state) :=
  match n with
  | O => mret (k, s)
  | S n =>
      c ← core_max (rss_core_buckets s) old;
      k ← next_entry (S (Z.to_nat (rss_reta_size s))) s c k;
      s ← move_entry s k c j;
      fill_core n s old j k
  end.
Fixpoint fill_cores (n : nat) (s : reta_state) (old j share k : Z) : outcome reta_state :=
  match n with
  | O => mret s
  | S n => '(k, s) ← fill_core (Z.to_nat share) s old j k; fill_cores n s old (j + 1) share k
  end.
Definition network_scale_up (s : reta_state) (old new : Z) : outcome (Z * reta_state) :=
  if new =? 0 then Stop DivByZero
  else
    s ← fill_cores (Z.to_nat (new - old)) (clear_mask s) old old (rss_reta_size s / new) 0;
    mret (update_dev s).

(** The loop of [network_scale_down] over the entries. *)
Fixpoint leave_cores (n : nat) (s : reta_state) (new i : Z) : outcome reta_state :=
  match n with
  | O => mret s
  | S n =>
      o_c ← aget (rss_reta s) i;
      if o_c >=? new then
        n_c ← core_min (rss_core_buckets s) new;
        s ← move_entry s i o_c n_c;
        leave_cores n s new (i + 1)
      else leave_cores n s new (i + 1)
  end.
Definition network_scale_down (s : reta_state) (old new : Z) : outcome (Z * reta_state) :=
  s ← leave_cores (Z.to_nat (rss_reta_size s)) (clear_mask s) new 0;
  mret (update_dev s).

(** [reta_setup]: the cores in turn. *)
Definition FLEXNIC_PL_MAX_FLOWGROUPS : Z := 4096.
Fixpoint deal (n : nat) (reta buckets steer : list Z) (i c cur : Z) : outcome (list Z * list Z * list Z) :=
  match n with
  | O => mret (reta, buckets, steer)
  | S n =>
      v ← aget buckets c; buckets ← aput buckets c (u16 (v + 1));
      reta ← aput reta i c; steer ← aput steer i (u8 c);
      if cur =? 0 then Stop DivByZero else deal n reta buckets steer (i + 1) ((c + 1) mod cur) cur
  end.
Definition groups (size : Z) : Z := (size + RTE_RETA_GROUP_SIZE - 1) / RTE_RETA_GROUP_SIZE.
Definition reta_setup (d : D) (size cores_max cur : Z) (steer : list Z) (alloc : bool) : outcome (Z * option reta_state) :=
  if negb alloc then mret (-1, None)
  else if size >? FLEXNIC_PL_MAX_FLOWGROUPS then Stop Aborted
  else
    '(reta, buckets, steer) ← deal (Z.to_nat size) (replicate (Z.to_nat size) 0) (replicate (Z.to_nat cores_max) 0) steer 0 0 cur;
    let '(rv, s) := update_dev (mk_reta size reta (replicate (Z.to_nat (groups size)) (u64 (-1))) buckets steer d) in
    mret (rv, Some s).

(** [reta_mlx5_resize]: the size to ask for. *)
Definition reta_mlx5_resize (mlx5 : bool) (reta_size : Z) : Z := if mlx5 then 512 else reta_size.

(** [poll_scale] with what it does to the table ([FastEmu.poll_scale] is the decision). *)
Definition poll_scale_net (s : reta_state) (cur to : Z) : outcome (Z * Z * reta_state) :=
  if to =? 0 then mret (cur, to, s)
  else
    '(rv, s) ← (if to <? cur then network_scale_down s cur to
                else if to >? cur then network_scale_up s cur to else mret (0, s));
    '(cur, to) ← poll_scale cur to (rv =? 0);
    mret (cur, to, s).

End Reta.
Arguments reta_state : clear implicits.

(** ** The load monitor *)

(** The static variables of [flexnic_loadmon], the busy cycles seen at the last call
    for each core, and the shared variables for the number of cores. *)
Record loadmon := mk_lm {
  lm_core_loads : list Z;
  ewma_busy : Z;
  ewma_cycles : Z;
  last_tsc : Z;
  lm_kdrops : Z;
  lm_waiting : bool;
  waiting_n : Z;
  lm_count : Z;
  fp_cores_cur : Z;
  fp_scale_to : Z;
}.
#[export] Instance eta_lm : Eta loadmon := fun l =>
  mk_lm (lm_core_loads l) (ewma_busy l) (ewma_cycles l) (last_tsc l) (lm_kdrops l) (lm_waiting l)
    (waiting_n l) (lm_count l) (fp_cores_cur l) (fp_scale_to l).
Definition loadmon0 (cores_max : Z) : loadmon :=
  mk_lm (replicate (Z.to_nat cores_max) 0) 0 0 0 0 true 0 0 1 0.

(** The counters of a core's context: the cycles it was busy, and the packets for the
    slow path it dropped. *)
Record core_ctx := mk_cctx { loadmon_cyc_busy : Z; kernel_drop : Z }.

(** The second result is whether core 0 is woken. *)
Definition flexnic_scale_to (l : loadmon) (cores : Z) : Z * bool * loadmon :=
  if negb (fp_scale_to l =? 0) then (-1, false, l)
  else (0, true, l <| fp_scale_to := u32 cores |>).

(** The sum over the cores; [None] when one is not running yet. The counters read up
    to then are remembered all the same. *)
Fixpoint sum_cores (n : nat) (ctxs : list (option core_ctx)) (l : loadmon) (i cyc_busy : Z)
  : outcome (option Z * loadmon * list (option core_ctx)) :=
  match n with
  | O => mret (Some cyc_busy, l, ctxs)
  | S n =>
      match ctxs !! Z.to_nat i with
      | None => Stop OutOfBounds
      | Some None => mret (None, l, ctxs)
      | Some (Some c) =>
          old ← aget (lm_core_loads l) i; loads ← aput (lm_core_loads l) i (loadmon_cyc_busy c);
          let l := l <| lm_core_loads := loads |> <| lm_kdrops := u64 (lm_kdrops l + kernel_drop c) |> in
          let ctxs := <[Z.to_nat i := Some (mk_cctx (loadmon_cyc_busy c) 0)]> ctxs in
          sum_cores n ctxs l (i + 1) (u64 (cyc_busy + u64 (loadmon_cyc_busy c - old)))
      end
  end.

Definition ewma (avg x : Z) : Z := u64 (u64 (7 * avg) + x) / 8.

(** The idle cycles, and the decision: the number of cores to scale to. *)
Definition idle_cycles (num : Z) (busy cycles : Z) : Z :=
  if u64 (num * cycles) >? busy then u64 (u64 (num * cycles) - busy) else 0.
Definition decide_cores (cores_max num busy cycles : Z) : option Z :=
  let id_cyc := idle_cycles num busy cycles in
  if (num >? 1) && (id_cyc >? u64 (cycles * 5) / 4) then Some (num - 1)
  else if (num <? cores_max) && (id_cyc <? cycles / 5) then Some (num + 1)
  else None.

(** The result is whether core 0 is woken. *)
Definition flexnic_loadmon (cores_max : Z) (ctxs : list (option core_ctx)) (tsc : Z) (l : loadmon)
  : outcome (bool * loadmon * list (option core_ctx)) :=
  '(busy, l, ctxs) ← sum_cores (Z.to_nat (fp_cores_cur l)) ctxs l 0 0;
  match busy with
  | None => mret (false, l, ctxs)
  | Some cyc_busy =>
      if last_tsc l =? 0 then mret (false, l <| last_tsc := tsc |>, ctxs)
      else
        let cycles := u64 (tsc - last_tsc l) in
        let l := l <| last_tsc := tsc |> <| ewma_busy := ewma (ewma_busy l) cyc_busy |>
                   <| ewma_cycles := ewma (ewma_cycles l) cycles |> in
        let l := if Z.rem (lm_count l) 100 =? 0 then l <| lm_kdrops := 0 |> else l in
        let l := l <| lm_count := i32 (lm_count l + 1) |> in
        let l := if lm_waiting l then l <| waiting_n := i32 (waiting_n l + 1) |> else l in
        if lm_waiting l && (waiting_n l <? 10) then mret (false, l, ctxs)
        else
          match decide_cores cores_max (fp_cores_cur l) (ewma_busy l) (ewma_cycles l) with
          | None => mret (false, l, ctxs)
          | Some n =>
              let '(_, woken, l) := flexnic_scale_to l n in
              mret (woken, l <| lm_waiting := true |> <| waiting_n := 0 |>, ctxs)
          end
  end.
