(* ===== verification/ScalingSpec.v ===== *)
(** * Scaling: the redirection table stays consistent and fair

    Whatever sequence of scalings: the table, what the NIC uses and the steering of
    the fast path are the same, all flow groups are on running cores, and no core has
    less than its share when cores are added. The load monitor stays within bounds. *)
From S2P Require Import Prelude FastCtx FastEmu Scaling.

#[local] Open Scope Z_scope.

(** ** Counting *)
Fixpoint occ (c : Z) (l : list Z) : Z :=
  match l with [] => 0 | x :: l => (if x =? c then 1 else 0) + occ c l end.
Fixpoint occ_below (n : Z) (l : list Z) : Z :=
  match l with [] => 0 | x :: l => (if x <? n then 1 else 0) + occ_below n l end.

Lemma occ_range c l : 0 <= occ c l <= Z.of_nat (length l).
Proof. induction l as [|x l IH]; simpl; [lia|]. destruct (x =? c); lia. Qed.
Lemma occ_below_range n l : 0 <= occ_below n l <= Z.of_nat (length l).
Proof. induction l as [|x l IH]; simpl; [lia|]. destruct (x <? n); lia. Qed.
Lemma occ_insert c l i a b : l !! i = Some a ->
  occ c (<[i := b]> l) = occ c l - (if a =? c then 1 else 0) + (if b =? c then 1 else 0).
Proof.
  revert i. induction l as [|x l IH]; intros [|i] E; simpl in *; try done.
  - injection E as ->. lia.
  - rewrite (IH _ E). lia.
Qed.
Lemma occ_below_insert n l i a b : l !! i = Some a ->
  occ_below n (<[i := b]> l) = occ_below n l - (if a <? n then 1 else 0) + (if b <? n then 1 else 0).
Proof.
  revert i. induction l as [|x l IH]; intros [|i] E; simpl in *; try done.
  - injection E as ->. lia.
  - rewrite (IH _ E). lia.
Qed.
Lemma occ_pos c l : 0 < occ c l -> exists i, l !! i = Some c.
Proof.
  induction l as [|x l IH]; simpl; [lia|]. destruct (Z.eqb_spec x c) as [->|]; [by exists O|].
  intros H. destruct IH as [i Hi]; [lia|]. by exists (S i).
Qed.
Lemma occ_zero c l : (forall i, l !! i <> Some c) -> occ c l = 0.
Proof.
  intros H. pose proof (occ_range c l). destruct (Z.eq_dec (occ c l) 0); [done|].
  destruct (occ_pos c l) as [i Hi]; [lia|]. by destruct (H i).
Qed.
Lemma occ_below_all n l : Forall (fun x => x < n) l -> occ_below n l = Z.of_nat (length l).
Proof. induction 1 as [|x l Hx _ IH]; simpl; [done|]. destruct (Z.ltb_spec x n); lia. Qed.

(** If no core below [n] has more than [m] entries, they have [n * m] at most. *)
Lemma occ_below_bound n m l : 0 <= n -> Forall (fun x => 0 <= x) l -> (forall c, 0 <= c < n -> occ c l <= m) -> occ_below n l <= n * m.
Proof.
  intros Hn Hl. pattern n. apply natlike_ind; [|clear n Hn|done].
  - intros _. assert (occ_below 0 l = 0) as ->; [|lia].
    induction Hl as [|x l Hx _ IH]; simpl; [done|]. destruct (Z.ltb_spec x 0); lia.
  - intros n Hn IH Hc. assert (occ_below (Z.succ n) l = occ_below n l + occ n l) as ->.
    { clear. induction l as [|x l IH]; simpl; [done|].
      destruct (Z.ltb_spec x (Z.succ n)), (Z.ltb_spec x n), (Z.eqb_spec x n); lia. }
    pose proof (IH ltac:(intros; apply Hc; lia)). pose proof (Hc n ltac:(lia)). lia.
Qed.

(** ** Arrays *)
Lemma aget_ok l i v : 0 <= i -> l !! Z.to_nat i = Some v -> aget l i = Ok v.
Proof. intros Hi E. unfold aget. rewrite (proj2 (Z.ltb_ge i 0)), E by lia. done. Qed.
Lemma aput_ok l i v : 0 <= i < Z.of_nat (length l) -> aput l i v = Ok (<[Z.to_nat i := v]> l).
Proof.
  intros Hi. destruct (lookup_lt_is_Some_2 l (Z.to_nat i)) as [x Ex]; [lia|].
  unfold aput. rewrite (aget_ok l i x) by (done || lia). done.
Qed.
Lemma lookup_in (l : list Z) i : 0 <= i < Z.of_nat (length l) -> exists v, l !! Z.to_nat i = Some v.
Proof. intros Hi. apply lookup_lt_is_Some_2. lia. Qed.

(** [core_max]: a core with most entries. *)
Lemma core_max_loop_ok n b i im vm : 0 <= i -> i + Z.of_nat n <= Z.of_nat (length b) ->
  (0 <= im < i + Z.of_nat n) -> (i = 0 -> vm = 0) ->
  (0 < i -> 0 <= im < i /\ b !! Z.to_nat im = Some vm) ->
  (forall c v, 0 <= c < i -> b !! Z.to_nat c = Some v -> v <= vm) -> Forall (fun v => 0 <= v) b ->
  exists c v, core_max_loop n b i im vm = Ok c /\ 0 <= c < i + Z.of_nat n /\ b !! Z.to_nat c = Some v /\
    forall c' v', 0 <= c' < i + Z.of_nat n -> b !! Z.to_nat c' = Some v' -> v' <= v.
Proof.
  revert i im vm. induction n as [|n IH]; intros i im vm Hi Hl Him H0 Hm Hmax Hb.
  - exists im, vm. destruct Hm as [Hm1 Hm2]; [lia|]. split_and!; [done|lia|lia|done|].
    intros c' v' Hc. apply Hmax. lia.
  - cbn [core_max_loop]. destruct (lookup_in b i) as [v Ev]; [lia|]. rewrite (aget_ok b i v) by done. osimpl.
    pose proof (Forall_lookup_1 _ _ _ _ Hb Ev) as Hv. simpl in Hv.
    assert (forall c' v' m, (forall c v, 0 <= c < i -> b !! Z.to_nat c = Some v -> v <= m) -> v <= m ->
      0 <= c' < i + 1 -> b !! Z.to_nat c' = Some v' -> v' <= m) as Hstep.
    { intros c' v' m Hm' Hvm Hc' Ec'. destruct (Z.eq_dec c' i) as [->|]; [|apply (Hm' c'); [lia|done]].
      rewrite Ev in Ec'. injection Ec' as <-. done. }
    replace (i + Z.of_nat (S n)) with (i + 1 + Z.of_nat n) in * by lia.
    destruct (v >=? vm) eqn:Eg; rewrite Z.geb_leb in Eg; bprop.
    + apply IH; [lia|lia|lia|lia| | |done].
      * intros _. split; [lia|done].
      * intros c v' Hc Ec. eapply Hstep; [|reflexivity|exact Hc|exact Ec]. intros c1 v1 Hc1 Ec1.
        specialize (Hmax c1 v1 Hc1 Ec1). lia.
    + assert (0 < i) as Hi' by (destruct (Z.eq_dec i 0); [specialize (H0 e); lia|lia]).
      destruct (Hm Hi') as [Hm1 Hm2]. apply IH; [lia|lia|lia|lia| | |done].
      * intros _. split; [lia|done].
      * intros c v' Hc Ec. eapply Hstep; [exact Hmax|lia|exact Hc|exact Ec].
Qed.
Lemma core_max_ok b num : 0 < num <= Z.of_nat (length b) -> Forall (fun v => 0 <= v) b ->
  exists c v, core_max b num = Ok c /\ 0 <= c < num /\ b !! Z.to_nat c = Some v /\
    forall c' v', 0 <= c' < num -> b !! Z.to_nat c' = Some v' -> v' <= v.
Proof.
  intros Hn Hb. unfold core_max.
  destruct (core_max_loop_ok (Z.to_nat num) b 0 0 0) as (c & v & E & Hc & Ec & Hm); try lia; try done.
  rewrite E. exists c, v. split_and!; [done|lia|lia|done|]. intros c' v' Hc'. apply Hm. lia.
Qed.

(** [core_min]: a core with fewest entries, as long as some core has less than 255. *)
Lemma core_min_loop_ok n b i im vm : 0 <= i -> i + Z.of_nat n <= Z.of_nat (length b) -> 0 <= im ->
  (im < i + Z.of_nat n) -> exists c, core_min_loop n b i im vm = Ok c /\ 0 <= c < i + Z.of_nat n.
Proof.
  revert i im vm. induction n as [|n IH]; intros i im vm Hi Hl H0 Him.
  - exists im. split; [done|lia].
  - cbn [core_min_loop]. destruct (lookup_in b i) as [v Ev]; [lia|]. rewrite (aget_ok b i v) by done. osimpl.
    replace (i + Z.of_nat (S n)) with (i + 1 + Z.of_nat n) in * by lia.
    destruct (v <? vm); apply IH; lia.
Qed.
Lemma core_min_ok b num : 0 < num <= Z.of_nat (length b) -> exists c, core_min b num = Ok c /\ 0 <= c < num.
Proof.
  intros Hn. unfold core_min. destruct (core_min_loop_ok (Z.to_nat num) b 0 0 UINT8_MAX) as (c & E & Hc); [lia..|].
  rewrite E. exists c. split; [done|lia].
Qed.

(** ** The invariant of the table *)
Section Reta.
Context {D : Type} `{RetaDevOk D}.
Implicit Types s : reta_state D.

(** Up to a change that is under way: [bound] limits the cores, and entries whose
    mask bit is clear are as the device has them. *)
Record reta_inv s (cores_max bound : Z) : Prop := {
  rv_size : 0 < rss_reta_size s <= FLEXNIC_PL_MAX_FLOWGROUPS;
  rv_bound : 0 < bound <= cores_max;
  rv_cores : cores_max <= 255;
  rv_reta : Z.of_nat (length (rss_reta s)) = rss_reta_size s;
  rv_mask : Z.of_nat (length (rss_mask s)) = groups (rss_reta_size s);
  rv_buckets : Z.of_nat (length (rss_core_buckets s)) = cores_max;
  rv_steer : Z.of_nat (length (rt_steering s)) = FLEXNIC_PL_MAX_FLOWGROUPS;
  rv_entries : Forall (fun c => 0 <= c < bound) (rss_reta s);
  rv_same : forall k, 0 <= k < rss_reta_size s -> rt_steering s !! Z.to_nat k = rss_reta s !! Z.to_nat k;
  rv_counts : forall c, 0 <= c < cores_max -> rss_core_buckets s !! Z.to_nat c = Some (occ c (rss_reta s));
  rv_dev : forall k, 0 <= k < rss_reta_size s -> mask_bit (rss_mask s) k = false ->
    reta_table (rt_dev s) !! Z.to_nat k = rss_reta s !! Z.to_nat k;
}.

(** After a change has been handed to the device: it has the table. *)
Definition synced s : Prop := forall k, 0 <= k < rss_reta_size s ->
  reta_table (rt_dev s) !! Z.to_nat k = rss_reta s !! Z.to_nat k.

Lemma group_range s m b k : reta_inv s m b -> 0 <= k < rss_reta_size s ->
  0 <= k / RTE_RETA_GROUP_SIZE < Z.of_nat (length (rss_mask s)).
Proof.
  intros I Hk. rewrite (rv_mask _ _ _ I). unfold groups, RTE_RETA_GROUP_SIZE.
  split; [apply Z.div_pos; lia|]. Z.div_mod_to_equations. lia.
Qed.

(** A bit that is set, and the others. *)
Lemma mask_bit_set masks k k' m : 0 <= k -> 0 <= k' -> masks !! Z.to_nat (k / 64) = Some m ->
  mask_bit (<[Z.to_nat (k / 64) := Z.lor m (u64 (Z.shiftl 1 (k mod 64)))]> masks) k' = mask_bit masks k' || (k' =? k).
Proof.
  intros Hk Hk' Em. unfold mask_bit, RTE_RETA_GROUP_SIZE.
  pose proof (Z.mod_pos_bound k 64 ltac:(lia)). pose proof (Z.mod_pos_bound k' 64 ltac:(lia)).
  assert (u64 (Z.shiftl 1 (k mod 64)) = 2 ^ (k mod 64)) as Eu.
  { rewrite Z.shiftl_mul_pow2, Z.mul_1_l by lia. apply u64_small. split; [apply Z.pow_nonneg; lia|].
    change 18446744073709551616 with (2 ^ 64). apply Z.pow_lt_mono_r; lia. }
  destruct (Z.eq_dec (k' / 64) (k / 64)) as [E|E].
  - rewrite E, list_lookup_total_insert_eq by (by eapply lookup_lt_Some).
    rewrite (list_lookup_total_correct masks _ m Em), Z.lor_spec, Eu, Z.pow2_bits_eqb by lia. f_equal.
    destruct (Z.eqb_spec (k mod 64) (k' mod 64)), (Z.eqb_spec k' k); try done; exfalso; Z.div_mod_to_equations; lia.
  - rewrite list_lookup_total_insert_ne.
    + destruct (Z.eqb_spec k' k); [subst; done|by rewrite orb_false_r].
    + intros Hn. apply E. apply Z2Nat.inj in Hn; [done|apply Z.div_pos; lia..].
Qed.

(** Moving an entry from [c] to [j]. *)
Lemma move_entry_ok s m b k c j : reta_inv s m b -> 0 <= k < rss_reta_size s -> rss_reta s !! Z.to_nat k = Some c ->
  0 <= j < b -> c <> j -> exists s', move_entry s k c j = Ok s' /\ reta_inv s' m b /\
    rss_reta s' = <[Z.to_nat k := j]> (rss_reta s) /\ rss_reta_size s' = rss_reta_size s /\ rt_dev s' = rt_dev s.
Proof.
  intros I Hk Ec Hj Hcj. pose proof (group_range _ _ _ _ I Hk) as Hg. pose proof I as [I1 I2 I3 I4 I5 I6 I7 I8 I9 Ia Ib].
  pose proof (Forall_lookup_1 _ _ _ _ I8 Ec) as Hc. simpl in Hc. unfold move_entry.
  destruct (lookup_in (rss_mask s) _ Hg) as [mk Emk]. rewrite (aget_ok _ _ mk (proj1 Hg) Emk). osimpl.
  rewrite (aput_ok (rss_mask s) _ _ Hg). osimpl.
  do 2 (rewrite aput_ok by (rewrite ?I4, ?I7; lia); osimpl).
  pose proof (Ia c ltac:(lia)) as Bc. pose proof (Ia j ltac:(lia)) as Bj.
  rewrite (aget_ok _ c _ ltac:(lia) Bc). osimpl. rewrite aput_ok by lia. osimpl.
  rewrite (aget_ok _ j (occ j (rss_reta s))) by (lia || (rewrite list_lookup_insert_ne by lia; done)). osimpl.
  rewrite aput_ok by (rewrite length_insert; lia). osimpl. eexists. split; [reflexivity|].
  split; [|done]. assert (u8 j = j) as Eu by (unfold u8; apply Z.mod_small; lia).
  assert (1 <= occ c (rss_reta s)) as Hp.
  { pose proof (occ_insert c _ _ c (c + 1) Ec) as Hi. pose proof (occ_range c (<[Z.to_nat k := c + 1]> (rss_reta s))).
    rewrite Z.eqb_refl in Hi. destruct (Z.eqb_spec (c + 1) c); lia. }
  pose proof (occ_range c (rss_reta s)). pose proof (occ_range j (rss_reta s)). unfold FLEXNIC_PL_MAX_FLOWGROUPS in *.
  constructor; simpl; rewrite ?length_insert; try done.
  - apply Forall_insert; [done|lia].
  - intros k' Hk'. destruct (Z.eq_dec k' k) as [->|Hne].
    + rewrite !list_lookup_insert_eq by lia. by rewrite Eu.
    + rewrite !list_lookup_insert_ne by lia. auto.
  - intros c' Hc'. rewrite (occ_insert _ _ _ _ _ Ec). destruct (Z.eq_dec c' j) as [->|Hj'].
    + rewrite list_lookup_insert_eq by (rewrite length_insert; lia). rewrite Z.eqb_refl.
      destruct (Z.eqb_spec c j); [lia|]. f_equal. unfold u16. rewrite Z.mod_small; lia.
    + rewrite list_lookup_insert_ne by lia. destruct (Z.eqb_spec j c'); [lia|]. destruct (Z.eqb_spec c c') as [->|].
      * rewrite list_lookup_insert_eq by lia. f_equal. unfold u16. rewrite Z.mod_small; lia.
      * rewrite list_lookup_insert_ne by lia. rewrite Ia by lia. f_equal. lia.
  - intros k' Hk' Hb. unfold RTE_RETA_GROUP_SIZE in *. rewrite (mask_bit_set _ k k' mk) in Hb by (done || lia).
    apply orb_false_iff in Hb as [Hb Hne]. apply Z.eqb_neq in Hne. rewrite list_lookup_insert_ne by lia. auto.
Qed.

Lemma next_entry_ok s c k k0 : Z.of_nat (length (rss_reta s)) = rss_reta_size s ->
  0 <= k < rss_reta_size s -> 0 <= k0 < rss_reta_size s -> rss_reta s !! Z.to_nat k0 = Some c ->
  exists k', next_entry (S (Z.to_nat (rss_reta_size s))) s c k = Ok k' /\ 0 <= k' < rss_reta_size s /\
    rss_reta s !! Z.to_nat k' = Some c.
Proof.
  intros Hl Hk Hk0 E0. set (n := rss_reta_size s) in *.
  assert (forall fuel k, 0 <= k < n -> (k0 - k) mod n < Z.of_nat fuel ->
    exists k', next_entry fuel s c k = Ok k' /\ 0 <= k' < n /\ rss_reta s !! Z.to_nat k' = Some c) as F.
  { clear k Hk. induction fuel as [|fuel IH]; intros k Hk Hf; [pose proof (Z.mod_pos_bound (k0 - k) n); lia|].
    cbn [next_entry]. destruct (lookup_in (rss_reta s) k) as [v Ev]; [lia|]. rewrite (aget_ok _ _ v (proj1 Hk) Ev). osimpl.
    destruct (Z.eqb_spec v c) as [->|Hv]; [by exists k|]. fold n.
    apply IH; [apply Z.mod_pos_bound; lia|].
    assert (k <> k0) by congruence. rewrite Zminus_mod_idemp_r.
    replace (k0 - (k + 1)) with (k0 - k - 1) by lia.
    pose proof (Z.mod_pos_bound (k0 - k) n ltac:(lia)) as Hm.
    assert (0 < (k0 - k) mod n) as Hp.
    { destruct (Z.eq_dec ((k0 - k) mod n) 0) as [E|]; [|lia]. exfalso. apply Z.mod_divide in E as [z Ez]; [|lia].
      destruct (Z.lt_trichotomy z 0) as [|[->|]]; nia. }
    rewrite <- Zminus_mod_idemp_l, Z.mod_small by lia. lia. }
  apply F; [done|]. pose proof (Z.mod_pos_bound (k0 - k) n ltac:(lia)). lia.
Qed.

Lemma inv_weaken s m b b' : reta_inv s m b -> b <= b' <= m -> reta_inv s m b'.
Proof.
  intros [I1 I2 I3 I4 I5 I6 I7 I8 I9 Ia Ib] Hb. constructor; try done; [lia|].
  eapply Forall_impl; [exact I8|]. simpl. lia.
Qed.
Lemma clear_inv s m b : reta_inv s m b -> synced s -> reta_inv (clear_mask s) m b.
Proof. intros [I1 I2 I3 I4 I5 I6 I7 I8 I9 Ia Ib] Hs. constructor; simpl; rewrite ?length_replicate; try done. auto. Qed.

Lemma update_dev_ok s m b rv s' : reta_inv s m b -> update_dev s = (rv, s') ->
  reta_inv s' m b \/ rv <> 0.
Proof.
  intros I. unfold update_dev. destruct (reta_update _ _ _ _) as [r d] eqn:E. intros [= <- <-].
  pose proof (reta_update_ok _ _ _ _ _ _ E) as R. destruct (r =? 0); [|by right]. left.
  destruct I as [I1 I2 I3 I4 I5 I6 I7 I8 I9 Ia Ib]. constructor; try done. simpl. intros k Hk Hb. rewrite R, Hb by done. auto.
Qed.
Lemma update_synced s m b s' : reta_inv s m b -> update_dev s = (0, s') ->
  synced s' /\ reta_inv s' m b /\ rss_reta s' = rss_reta s /\ rss_reta_size s' = rss_reta_size s.
Proof.
  intros I E. pose proof (update_dev_ok _ _ _ _ _ I E) as [I'|]; [|done]. revert E. unfold update_dev.
  destruct (reta_update _ _ _ _) as [r d] eqn:E. intros [= Er <-]. split; [|done].
  pose proof (reta_update_ok _ _ _ _ _ _ E) as R. destruct (r =? 0); [|done].
  intros k Hk. simpl in *. rewrite R by done. destruct (mask_bit (rss_mask s) k) eqn:Eb; [done|].
  by apply (rv_dev _ _ _ I).
Qed.

(** ** More cores *)

(** While core [j] is filled, with [i] entries already: the cores up to it have their
    share, those after it nothing, and the old ones at least their share or what they
    had in [before]. *)
Record filling (before : list Z) (size : Z) s (m old new share j i : Z) : Prop := {
  fl_inv : reta_inv s m new;
  fl_size : rss_reta_size s = size /\ size / new = share;
  fl_below : occ_below old (rss_reta s) = size - (j - old) * share - i;
  fl_new : forall c, old <= c < new -> occ c (rss_reta s) = if c <? j then share else if c =? j then i else 0;
  fl_old : forall c, 0 <= c < old -> Z.min (occ c before) share <= occ c (rss_reta s);
}.

Lemma fill_core_ok before size n s m old new share j i k : filling before size s m old new share j i ->
  0 < old -> old <= j < new -> 0 <= i -> i + Z.of_nat n = share -> 0 <= k < rss_reta_size s ->
  exists k' s', fill_core n s old j k = Ok (k', s') /\ 0 <= k' < rss_reta_size s' /\
    filling before size s' m old new share (j + 1) 0.
Proof.
  revert s i k. induction n as [|n IH]; intros s i k F Ho Hj Hi Hn Hk.
  - exists k, s. split_and!; [done|lia|lia|]. destruct F as [F1 F2 F3 F4 F5]. constructor; try done; [lia|].
    intros c Hc. rewrite F4 by done. destruct (Z.ltb_spec c j), (Z.ltb_spec c (j + 1)), (Z.eqb_spec c j), (Z.eqb_spec c (j + 1)); lia.
  - destruct F as [F1 [F0 F2] F3 F4 F5]. pose proof F1 as [I1 I2 I3 I4 I5 I6 I7 I8 I9 Ia Ib]. cbn [fill_core].
    assert (Forall (fun v => 0 <= v) (rss_core_buckets s)) as Hb.
    { apply Forall_lookup. intros x v Ex. pose proof (lookup_lt_Some _ _ _ Ex).
      specialize (Ia (Z.of_nat x) ltac:(lia)). rewrite Nat2Z.id, Ex in Ia. injection Ia as ->. apply occ_range. }
    destruct (core_max_ok (rss_core_buckets s) old ltac:(lia) Hb) as (c & v & Ec & Hc & Ev & Hmax). rewrite Ec. osimpl.
    assert (v = occ c (rss_reta s)) as -> by (rewrite Ia in Ev by lia; by injection Ev).
    assert (share < occ c (rss_reta s)) as Hgt.
    { destruct (Z.lt_ge_cases share (occ c (rss_reta s))) as [|Hle]; [done|exfalso].
      pose proof (occ_below_bound old share (rss_reta s) ltac:(lia)) as Hbd. rewrite F3 in Hbd.
      pose proof (Z.mul_div_le size new ltac:(lia)) as Hs. rewrite F2 in Hs.
      assert (size - (j - old) * share - i <= old * share); [|nia]. apply Hbd.
      - eapply Forall_impl; [exact I8|]. simpl. lia.
      - intros c' Hc'. specialize (Hmax c' (occ c' (rss_reta s)) Hc'). rewrite Ia in Hmax by lia. specialize (Hmax eq_refl). lia. }
    destruct (occ_pos c (rss_reta s)) as [x Ex]; [lia|]. pose proof (lookup_lt_Some _ _ _ Ex).
    destruct (next_entry_ok s c k (Z.of_nat x) I4 Hk ltac:(lia)) as (k1 & -> & Hk1 & E1); [by rewrite Nat2Z.id|]. osimpl.
    destruct (move_entry_ok s m new k1 c j F1 Hk1 E1 ltac:(lia) ltac:(lia)) as (s1 & -> & F1' & R1 & R2 & _). osimpl.
    rewrite <- R2 in Hk1. apply (IH s1 (i + 1)); [|lia..]. constructor; rewrite ?R1, ?R2; [done|done|..].
    + rewrite (occ_below_insert _ _ _ _ _ E1), F3. destruct (Z.ltb_spec c old), (Z.ltb_spec j old); lia.
    + intros c' Hc'. rewrite (occ_insert _ _ _ _ _ E1), F4 by done.
      destruct (Z.eqb_spec c c'), (Z.eqb_spec j c'), (Z.ltb_spec c' j), (Z.eqb_spec c' j); lia.
    + intros c' Hc'. rewrite (occ_insert _ _ _ _ _ E1). specialize (F5 c' Hc').
      destruct (Z.eqb_spec c c'), (Z.eqb_spec j c'); subst; lia.
Qed.

Lemma fill_cores_ok before size n s m old new share j k : filling before size s m old new share j 0 ->
  0 < old -> old <= j -> j + Z.of_nat n = new -> 0 <= k < rss_reta_size s -> 0 <= share ->
  exists s', fill_cores n s old j share k = Ok s' /\ filling before size s' m old new share new 0.
Proof.
  revert s j k. induction n as [|n IH]; intros s j k F Ho Hj Hn Hk Hs.
  - exists s. split; [done|]. assert (j = new) as -> by lia. done.
  - cbn [fill_cores]. destruct (fill_core_ok before size (Z.to_nat share) s m old new share j 0 k F) as (k1 & s1 & -> & Hk1 & F1);
      [lia..|]. osimpl. apply (IH s1 (j + 1)); [done|lia..].
Qed.

Lemma scale_up_ok s m old new : reta_inv s m old -> synced s -> old < new <= m ->
  exists rv s', network_scale_up s old new = Ok (rv, s') /\ (rv = 0 \/ rv = -1) /\
    (rv = 0 -> reta_inv s' m new /\ synced s' /\ rss_reta_size s' = rss_reta_size s /\
      (forall c, old <= c < new -> occ c (rss_reta s') = rss_reta_size s / new) /\
      (forall c, 0 <= c < old -> Z.min (occ c (rss_reta s)) (rss_reta_size s / new) <= occ c (rss_reta s'))).
Proof.
  intros I Hs Hn. pose proof (rv_bound _ _ _ I) as Ho. unfold network_scale_up.
  rewrite (proj2 (Z.eqb_neq new 0)) by lia.
  assert (0 <= rss_reta_size s / new) by (pose proof (rv_size _ _ _ I); apply Z.div_pos; lia).
  destruct (fill_cores_ok (rss_reta s) (rss_reta_size s) (Z.to_nat (new - old)) (clear_mask s) m old new (rss_reta_size s / new) old 0)
    as (s1 & -> & [G1 [G0 G2] G3 G4 G5]); [|lia|lia|lia|pose proof (rv_size _ _ _ I); simpl; lia|done|].
  { constructor; simpl; [eapply inv_weaken; [by apply clear_inv|lia]|done| | |intros; lia].
    - rewrite occ_below_all; [|eapply Forall_impl; [apply (rv_entries _ _ _ I)|]; simpl; lia]. pose proof (rv_reta _ _ _ I). lia.
    - intros c Hc. rewrite occ_zero; [destruct (Z.ltb_spec c old); [lia|by destruct (c =? old)]|].
      intros x Ex. pose proof (Forall_lookup_1 _ _ _ _ (rv_entries _ _ _ I) Ex). simpl in *. lia. }
  osimpl. destruct (update_dev s1) as [rv s2] eqn:E. exists rv, s2. split; [done|]. split.
  { revert E. unfold update_dev. destruct (reta_update _ _ _ _) as [r ?]. destruct (r =? 0); intros [= <- _]; auto. }
  intros ->. destruct (update_synced _ _ _ _ G1 E) as (S1 & S2 & S3 & S4). rewrite S3.
  split_and!; [done|done|congruence| |].
  - intros c Hc. rewrite G4 by lia. by rewrite (proj2 (Z.ltb_lt c new)) by lia.
  - exact G5.
Qed.

(** ** Fewer cores *)
Lemma leave_cores_ok n s m old new i : reta_inv s m old -> 0 < new < old -> 0 <= i ->
  i + Z.of_nat n = rss_reta_size s ->
  (forall k c, 0 <= k < i -> rss_reta s !! Z.to_nat k = Some c -> c < new) ->
  exists s', leave_cores n s new i = Ok s' /\ reta_inv s' m old /\ rss_reta_size s' = rss_reta_size s /\
    Forall (fun c => c < new) (rss_reta s') /\
    (forall k c, rss_reta s !! k = Some c -> c < new -> rss_reta s' !! k = Some c).
Proof.
  revert s i. induction n as [|n IH]; intros s i I Hn Hi Hl Hd.
  - exists s. split_and!; try done. apply Forall_lookup. intros k c Ec. pose proof (lookup_lt_Some _ _ _ Ec).
    pose proof (rv_reta _ _ _ I). apply (Hd (Z.of_nat k)); [lia|]. by rewrite Nat2Z.id.
  - cbn [leave_cores]. destruct (lookup_in (rss_reta s) i) as [o_c Eo]; [rewrite (rv_reta _ _ _ I); lia|].
    rewrite (aget_ok _ _ _ Hi Eo). osimpl. rewrite Z.geb_leb. destruct (Z.leb_spec new o_c) as [Ho|Ho].
    + destruct (core_min_ok (rss_core_buckets s) new) as (n_c & -> & Hc);
        [pose proof (rv_buckets _ _ _ I); pose proof (rv_bound _ _ _ I); lia|]. osimpl.
      destruct (move_entry_ok s m old i o_c n_c I ltac:(lia) Eo ltac:(lia) ltac:(lia)) as (s1 & -> & I1 & R1 & R2 & _). osimpl.
      destruct (IH s1 (i + 1) I1 Hn) as (s2 & E2 & I2 & S2 & F2 & K2); [lia|rewrite R2; lia| |].
      { intros k c Hk Ek. rewrite R1 in Ek. destruct (Z.eq_dec k i) as [->|Hne].
        - rewrite list_lookup_insert_eq in Ek by (by eapply lookup_lt_Some). injection Ek as <-. lia.
        - rewrite list_lookup_insert_ne in Ek by lia. apply (Hd k); [lia|done]. }
      exists s2. split_and!; try done; [congruence|]. intros k c Ek Hc'. apply K2; [|done]. rewrite R1.
      destruct (decide (k = Z.to_nat i)) as [->|]; [|by rewrite list_lookup_insert_ne].
      rewrite Eo in Ek. injection Ek as ->. lia.
    + destruct (IH s (i + 1) I Hn) as (s2 & E2 & R); [lia|lia| |by exists s2].
      intros k c Hk Ek. destruct (Z.eq_dec k i) as [->|]; [congruence|]. apply (Hd k); [lia|done].
Qed.

Lemma scale_down_ok s m old new : reta_inv s m old -> synced s -> 0 < new < old ->
  exists rv s', network_scale_down s old new = Ok (rv, s') /\ (rv = 0 \/ rv = -1) /\
    (rv = 0 -> reta_inv s' m new /\ synced s' /\ rss_reta_size s' = rss_reta_size s /\
      (forall k c, rss_reta s !! k = Some c -> c < new -> rss_reta s' !! k = Some c)).
Proof.
  intros I Hs Hn. unfold network_scale_down. pose proof (rv_size _ _ _ I).
  destruct (leave_cores_ok (Z.to_nat (rss_reta_size s)) (clear_mask s) m old new 0) as (s1 & -> & I1 & R1 & F1 & K1);
    [by apply clear_inv|done|lia|simpl; lia|intros; lia|]. osimpl.
  destruct (update_dev s1) as [rv s2] eqn:E. exists rv, s2. split; [done|]. split.
  { revert E. unfold update_dev. destruct (reta_update _ _ _ _) as [r ?]. destruct (r =? 0); intros [= <- _]; auto. }
  intros ->. destruct (update_synced _ _ _ _ I1 E) as (S1 & S2 & S3 & S4). rewrite S3. simpl in *.
  split_and!; [|done|congruence|done].
  destruct S2 as [J1 J2 J3 J4 J5 J6 J7 J8 J9 Ja Jb]. constructor; try done; [lia|].
  rewrite S3 in J8 |- *. apply Forall_lookup. intros k c Ek.
  pose proof (Forall_lookup_1 _ _ _ _ J8 Ek). pose proof (Forall_lookup_1 _ _ _ _ F1 Ek). simpl in *. lia.
Qed.

(** ** Setting the table up *)
Lemma deal_ok n reta b steer i c cur size :
  0 < cur <= Z.of_nat (length b) -> 0 <= c < cur -> 0 <= i -> i + Z.of_nat n = size -> size <= 4096 ->
  Z.of_nat (length reta) = size -> size <= Z.of_nat (length steer) -> cur <= 255 ->
  (forall k, 0 <= k < i -> exists v, reta !! Z.to_nat k = Some v /\ 0 <= v < cur /\ steer !! Z.to_nat k = Some v) ->
  (forall c, 0 <= c < Z.of_nat (length b) -> b !! Z.to_nat c = Some (occ c (take (Z.to_nat i) reta))) ->
  exists reta' b' steer', deal n reta b steer i c cur = Ok (reta', b', steer') /\
    length reta' = length reta /\ length b' = length b /\ length steer' = length steer /\
    (forall k, 0 <= k < size -> exists v, reta' !! Z.to_nat k = Some v /\ 0 <= v < cur /\ steer' !! Z.to_nat k = Some v) /\
    (forall c, 0 <= c < Z.of_nat (length b) -> b' !! Z.to_nat c = Some (occ c (take (Z.to_nat size) reta'))).
Proof.
  revert reta b steer i c. induction n as [|n IH]; intros reta b steer i c Hc0 Hc Hi Hn Hs Hl1 Hl2 Hc1 Hk Hb.
  - exists reta, b, steer. replace i with size in * by lia. done.
  - cbn [deal]. pose proof (Hb c ltac:(lia)) as Ev. rewrite (aget_ok b c _ (proj1 Hc) Ev). osimpl.
    rewrite aput_ok by lia. osimpl. rewrite aput_ok by lia. osimpl. rewrite aput_ok by lia. osimpl.
    rewrite (proj2 (Z.eqb_neq cur 0)) by lia.
    assert (u8 c = c) as -> by (unfold u8; apply Z.mod_small; lia).
    pose proof (occ_range c (take (Z.to_nat i) reta)) as Ho. rewrite length_take in Ho.
    assert (take (Z.to_nat (i + 1)) (<[Z.to_nat i := c]> reta) = take (Z.to_nat i) reta ++ [c]) as Et.
    { replace (Z.to_nat (i + 1)) with (S (Z.to_nat i)) by lia.
      rewrite (take_S_r _ _ c) by (apply list_lookup_insert_eq; lia). by rewrite take_insert_ge by lia. }
    assert (forall c' l, occ c' (l ++ [c]) = occ c' l + (if c =? c' then 1 else 0)) as Ea.
    { intros c' l. induction l as [|x l IHl]; simpl; [lia|]. rewrite IHl. lia. }
    destruct (IH (<[Z.to_nat i := c]> reta) (<[Z.to_nat c := u16 (occ c (take (Z.to_nat i) reta) + 1)]> b)
      (<[Z.to_nat i := c]> steer) (i + 1) ((c + 1) mod cur)) as (r' & b' & s' & E & L1 & L2 & L3 & R1 & R2);
      rewrite ?length_insert in *; try lia; try done.
    + apply Z.mod_pos_bound. lia.
    + intros k Hk'. destruct (Z.eq_dec k i) as [->|].
      * exists c. rewrite !list_lookup_insert_eq by lia. done.
      * rewrite !list_lookup_insert_ne by lia. apply Hk. lia.
    + intros c' Hc'. rewrite Et, Ea. destruct (Z.eqb_spec c c') as [->|].
      * rewrite list_lookup_insert_eq by lia. f_equal. unfold u16. rewrite Z.mod_small; lia.
      * rewrite list_lookup_insert_ne by lia. rewrite Hb by lia. f_equal. lia.
    + by exists r', b', s'.
Qed.

Lemma reta_setup_ok d size m cur steer rv os : 0 < size -> 0 < cur <= m -> m <= 255 ->
  Z.of_nat (length steer) = FLEXNIC_PL_MAX_FLOWGROUPS ->
  reta_setup d size m cur steer true = Ok (rv, os) -> rv = 0 -> exists s, os = Some s /\ reta_inv s m cur /\ synced s.
Proof.
  intros Hs Hc Hm Hl E ->. unfold reta_setup in E. simpl in E.
  rewrite Z.gtb_ltb in E. destruct (Z.ltb_spec FLEXNIC_PL_MAX_FLOWGROUPS size) as [|Hsz]; [done|].
  unfold FLEXNIC_PL_MAX_FLOWGROUPS in *.
  destruct (deal_ok (Z.to_nat size) (replicate (Z.to_nat size) 0) (replicate (Z.to_nat m) 0) steer 0 0 cur size)
    as (reta & b & st & Ed & L1 & L2 & L3 & R1 & R2); rewrite ?length_replicate in *; try lia; try (intros; lia).
  { intros c Hc'. simpl. rewrite lookup_replicate_2 by lia. done. }
  rewrite Ed in E. osimpl. simpl in E. destruct (update_dev _) as [r s] eqn:Eu. injection E as -> <-. exists s. split; [done|].
  set (s0 := mk_reta _ _ _ _ _ _) in Eu.
  assert (reta_inv s0 m cur) as I0.
  { constructor; simpl; rewrite ?length_replicate; try done; try (unfold FLEXNIC_PL_MAX_FLOWGROUPS; lia).
    - unfold groups, RTE_RETA_GROUP_SIZE. rewrite Z2Nat.id; [done|]. apply Z.div_pos; lia.
    - apply Forall_lookup. intros k v Ek. pose proof (lookup_lt_Some _ _ _ Ek).
      destruct (R1 (Z.of_nat k) ltac:(lia)) as (v' & Ev' & Hv' & _). rewrite Nat2Z.id in Ev'. congruence.
    - intros k Hk. destruct (R1 k Hk) as (v & -> & _ & ->). done.
    - intros c Hc'. rewrite R2 by lia. rewrite take_ge by lia. done.
    - intros k Hk Hb. exfalso. revert Hb. unfold mask_bit, RTE_RETA_GROUP_SIZE.
      rewrite lookup_total_replicate_2 by (unfold groups, RTE_RETA_GROUP_SIZE; Z.div_mod_to_equations; lia).
      change (u64 (-1)) with (Z.ones 64). rewrite Z.ones_spec_low by (apply Z.mod_pos_bound; lia). done. }
  destruct (update_synced _ _ _ _ I0 Eu) as (? & ? & _). done.
Qed.

(** ** Every sequence of scalings *)

(** A table that is set up, and what [poll_scale] makes of it on requests for between
    one core and all of them. *)
Inductive scaled (m : Z) : reta_state D -> Z -> Prop :=
| sc_setup d size cur steer s : 0 < size -> 0 < cur <= m -> Z.of_nat (length steer) = FLEXNIC_PL_MAX_FLOWGROUPS ->
    reta_setup d size m cur steer true = Ok (0, Some s) -> scaled m s cur
| sc_poll s cur to cur' to' s' : scaled m s cur -> 0 <= to <= m ->
    poll_scale_net s cur to = Ok (cur', to', s') -> scaled m s' cur'.

Lemma poll_scale_net_ok s m cur to : reta_inv s m cur -> synced s -> 0 <= to <= m ->
  match poll_scale_net s cur to with
  | Ok (cur', to', s') => to' = 0 /\ cur' = (if to =? 0 then cur else to) /\ reta_inv s' m cur' /\ synced s' /\
      rss_reta_size s' = rss_reta_size s /\
      (forall c, cur <= c < cur' -> occ c (rss_reta s') = rss_reta_size s / cur') /\
      (forall c, cur <= cur' -> 0 <= c < cur -> Z.min (occ c (rss_reta s)) (rss_reta_size s / cur') <= occ c (rss_reta s')) /\
      (forall k c, cur' <= cur -> rss_reta s !! k = Some c -> c < cur' -> rss_reta s' !! k = Some c)
  | Stop r => r = Aborted
  end.
Proof.
  intros I Hs Ht. unfold poll_scale_net. pose proof (rv_bound _ _ _ I).
  destruct (Z.eqb_spec to 0) as [->|Hne]; [split_and!; try done; [intros; lia|intros; lia]|].
  destruct (Z.ltb_spec to cur).
  - destruct (scale_down_ok s m cur to I Hs) as (rv & s' & -> & Hrv & R); [lia|]. osimpl. unfold poll_scale.
    rewrite (proj2 (Z.eqb_neq to 0)), (proj2 (Z.ltb_lt to cur)) by lia. simpl.
    destruct Hrv as [->| ->]; [|done]. destruct (R eq_refl) as (R1 & R2 & R3 & R4). simpl.
    split_and!; try done; intros; try lia. by eapply R4.
  - destruct (Z.gtb_spec to cur).
    + destruct (scale_up_ok s m cur to I Hs) as (rv & s' & -> & Hrv & R); [lia|]. osimpl. unfold poll_scale.
      rewrite (proj2 (Z.eqb_neq to 0)), (proj2 (Z.gtb_lt to cur)), orb_true_r by lia.
      destruct Hrv as [->| ->]; [|done]. destruct (R eq_refl) as (R1 & R2 & R3 & R4 & R5). simpl.
      split_and!; try done; intros; try lia. by apply R5.
    + osimpl. unfold poll_scale. assert (to = cur) as -> by lia.
      rewrite (proj2 (Z.eqb_neq cur 0)), Z.ltb_irrefl, Z.gtb_ltb, Z.ltb_irrefl by lia. simpl.
      split_and!; try done; intros; lia.
Qed.

Lemma scaled_inv m s cur : m <= 255 -> scaled m s cur -> reta_inv s m cur /\ synced s.
Proof.
  intros Hm Hsc. induction Hsc as [d size cur steer s H1 H2 H3 E|s cur to cur' to' s' _ [I Hs] Ht E].
  - destruct (reta_setup_ok d size m cur steer 0 (Some s) H1 H2 Hm H3 E eq_refl) as (s1 & [= <-] & ?). done.
  - pose proof (poll_scale_net_ok s m cur to I Hs Ht) as R. rewrite E in R. naive_solver.
Qed.

(** C22. After the table is set up and through every sequence of scalings to between one
    core and all there are (0 is no request; the code does not check the number that an
    application asks for, and more cores than there are make it write outside of its
    counters, see [too_many_cores]): the NIC, the fast path's steering of flow groups and the table say the
    same of every flow group, and it is a core that runs. The next scaling ends, unless
    the device refuses; it gives a new core exactly its share of the flow groups, takes
    from no other core more than leaves it its share, and moves, when cores are taken
    away, only the flow groups of those cores. *)
Theorem scaling_consistent m s cur to : m <= 255 -> scaled m s cur -> 0 <= to <= m ->
  (forall k, 0 <= k < rss_reta_size s -> exists c, 0 <= c < cur /\ rss_reta s !! Z.to_nat k = Some c /\
     rt_steering s !! Z.to_nat k = Some c /\ reta_table (rt_dev s) !! Z.to_nat k = Some c) /\
  match poll_scale_net s cur to with
  | Ok (cur', to', s') => to' = 0 /\ cur' = (if to =? 0 then cur else to) /\
      (forall c, cur <= c < cur' -> occ c (rss_reta s') = rss_reta_size s / cur') /\
      (forall c, cur <= cur' -> 0 <= c < cur -> Z.min (occ c (rss_reta s)) (rss_reta_size s / cur') <= occ c (rss_reta s')) /\
      (forall k c, cur' <= cur -> rss_reta s !! k = Some c -> c < cur' -> rss_reta s' !! k = Some c)
  | Stop r => r = Aborted
  end.
Proof.
  intros Hm Hsc Ht. destruct (scaled_inv _ _ _ Hm Hsc) as [I Hs]. split.
  - intros k Hk. destruct (lookup_in (rss_reta s) k) as [c Ec]; [rewrite (rv_reta _ _ _ I); lia|].
    exists c. rewrite (rv_same _ _ _ I), Hs, Ec by done. pose proof (Forall_lookup_1 _ _ _ _ (rv_entries _ _ _ I) Ec). done.
  - pose proof (poll_scale_net_ok s m cur to I Hs Ht) as R. destruct (poll_scale_net s cur to) as [[[c t] s']|]; [|done].
    naive_solver.
Qed.

End Reta.

(** ** Concrete runs *)

#[export] Instance list_dev_ok : RetaDevOk (list Z).
Proof.
  constructor. intros d masks reta size rv d'. cbn [reta_update list_dev].
  destruct ((size =? _) && _) eqn:E; intros [= <- <-]; simpl; [|done].
  apply andb_prop in E as [El E]. apply Z.eqb_eq in El. intros k Hk. rewrite list_lookup_imap.
  destruct (lookup_in reta k) as [v Ev]; [lia|]. rewrite Ev. simpl. rewrite Z2Nat.id by lia.
  destruct (mask_bit masks k) eqn:Eb; [done|]. apply orb_prop in E as [E|E].
  - apply Z.eqb_eq in E. destruct (lookup_in d k) as [w Ew]; [lia|]. by rewrite (list_lookup_total_correct _ _ _ Ew).
  - rewrite forallb_forall in E. rewrite E in Eb; [done|]. apply list_elem_of_In, elem_of_seqZ. lia.
Qed.

Module ScaleEx.

(** Four entries; one core, then three of at most three, then two. *)
Definition steer0 : list Z := replicate 4096 0.
Definition s0 : outcome (Z * option (reta_state (list Z))) := reta_setup [] 4 3 1 steer0 true.
Definition table (r : outcome (Z * Z * reta_state (list Z))) : outcome (Z * list Z * list Z) :=
  '(cur, _, s) ← r; mret (cur, rss_reta s, rss_core_buckets s).
Definition st0 : reta_state (list Z) :=
  Eval vm_compute in match s0 with Ok (_, Some s) => s | _ => mk_reta 0 [] [] [] [] [] end.
Definition st1 : reta_state (list Z) :=
  Eval vm_compute in match poll_scale_net st0 1 3 with Ok (_, _, s) => s | _ => st0 end.

Lemma up_and_down :
  table (poll_scale_net st0 1 3) = Ok (3, [1; 2; 0; 0], [2; 1; 1]) /\
  table (poll_scale_net st1 3 2) = Ok (2, [1; 1; 0; 0], [2; 2; 0]).
Proof. by vm_compute. Qed.

(** [kin_req_scale] hands the number an application asks for on unchecked: with more
    cores than there are, entries are counted outside of [rss_core_buckets]. *)
Lemma too_many_cores : table (poll_scale_net st0 1 4) = Stop OutOfBounds.
Proof. by vm_compute. Qed.

(** [core_min] looks for less than [UINT8_MAX] entries, in counters of 16 bits: with
    large tables it does not find the core with the fewest entries. *)
Lemma fewest_missed : core_min [600; 300] 2 = Ok 0.
Proof. by vm_compute. Qed.

End ScaleEx.

Lemma scaling_consistent_witness : scaled 3 ScaleEx.st1 3 /\
  match poll_scale_net ScaleEx.st1 3 2 with Ok (cur', _, _) => cur' = 2 | Stop r => r = Aborted end.
Proof.
  assert (scaled 3 ScaleEx.st1 3) as Hs.
  { apply (sc_poll 3 ScaleEx.st0 1 3 3 0); [|lia|by vm_compute].
    apply (sc_setup 3 [] 4 1 ScaleEx.steer0); [lia|lia|by vm_compute|by vm_compute]. }
  split; [done|]. destruct (scaling_consistent 3 ScaleEx.st1 3 2 ltac:(lia) Hs ltac:(lia)) as [_ R].
  destruct (poll_scale_net ScaleEx.st1 3 2) as [[[cur' to'] s']|]; [|exact R]. exact (proj1 (proj2 R)).
Defined.

(** ** The load monitor *)

(** What the monitor keeps between calls. *)
Record lm_inv (cores_max : Z) (ctxs : list (option core_ctx)) (l : loadmon) : Prop := {
  li_cores : 1 <= fp_cores_cur l <= cores_max /\ cores_max <= 255;
  li_loads : Z.of_nat (length (lm_core_loads l)) = cores_max;
  li_ctxs : Z.of_nat (length ctxs) = cores_max;
}.

Lemma sum_cores_ok m n ctxs l i busy : lm_inv m ctxs l -> 0 <= i -> i + Z.of_nat n <= m ->
  exists b l' ctxs', sum_cores n ctxs l i busy = Ok (b, l', ctxs') /\ lm_inv m ctxs' l' /\
    fp_cores_cur l' = fp_cores_cur l /\ fp_scale_to l' = fp_scale_to l /\
    lm_waiting l' = lm_waiting l /\ waiting_n l' = waiting_n l.
Proof.
  revert ctxs l i busy. induction n as [|n IH]; intros ctxs l i busy I Hi Hn; [by eexists _, _, _|].
  cbn [sum_cores]. pose proof I as [I1 I2 I3].
  destruct (lookup_lt_is_Some_2 ctxs (Z.to_nat i)) as [[c|] E]; [lia| |]; rewrite E; [|by eexists _, _, _].
  destruct (lookup_in (lm_core_loads l) i) as [old Eo]; [lia|].
  rewrite (aget_ok _ _ _ Hi Eo). osimpl. rewrite aput_ok by lia. osimpl.
  edestruct IH as (b & l' & ctxs' & -> & I' & R); [|lia|lia|by eexists _, _, _].
  constructor; simpl; rewrite ?length_insert; done.
Qed.

Lemma decide_range m num busy cycles n : 1 <= num <= m -> decide_cores m num busy cycles = Some n ->
  1 <= n <= m /\ Z.abs (n - num) = 1.
Proof.
  intros Hn. unfold decide_cores. destruct (_ && _) eqn:E.
  - intros [= <-]. apply andb_prop in E as [E _]. rewrite Z.gtb_ltb in E. lia.
  - destruct (Z.ltb_spec num m); [|done]. simpl. destruct (_ <? _); [|done]. intros [= <-]. lia.
Qed.

(** C25. The load monitor runs without a fault on any counters, never asks for less than
    one core or more than there are, changes the number by one at a time, does not
    replace a request that is pending, wakes core 0 exactly when it makes one, and, after
    a decision, makes none before the tenth call. *)
Theorem loadmon_bounded cores_max ctxs tsc l : lm_inv cores_max ctxs l ->
  exists woken l' ctxs', flexnic_loadmon cores_max ctxs tsc l = Ok (woken, l', ctxs') /\
    lm_inv cores_max ctxs' l' /\ fp_cores_cur l' = fp_cores_cur l /\
    (if woken then fp_scale_to l = 0 /\ 1 <= fp_scale_to l' <= cores_max /\
       Z.abs (fp_scale_to l' - fp_cores_cur l) = 1 /\ lm_waiting l' = true /\ waiting_n l' = 0
     else fp_scale_to l' = fp_scale_to l) /\
    (lm_waiting l = true -> 0 <= waiting_n l < 9 -> woken = false /\ lm_waiting l' = true /\
       waiting_n l <= waiting_n l' <= waiting_n l + 1).
Proof.
  intros I. unfold flexnic_loadmon. pose proof (li_cores _ _ _ I) as Hc.
  destruct (sum_cores_ok cores_max (Z.to_nat (fp_cores_cur l)) ctxs l 0 0 I) as (b & l1 & c1 & -> & I1 & R1 & R2 & R3 & R4);
    [lia..|]. osimpl. destruct I1 as [J1 J2 J3].
  destruct l1 as [loads eb ec lt kd w wn n cur to]. simpl in *. subst cur to w wn.
  destruct b as [busy|]; [|eexists _, _, _; split_and!; try done; intros; simpl; split_and!; done || lia].
  destruct (lt =? 0); [eexists _, _, _; split_and!; try done; intros; simpl; split_and!; done || lia|].
  pose proof (fun n => decide_range cores_max (fp_cores_cur l) (ewma eb busy) (ewma ec (u64 (tsc - lt))) n (proj1 Hc)) as Hd.
  assert (0 <= waiting_n l < 9 -> i32 (waiting_n l + 1) = waiting_n l + 1) as Hw by (intros; apply i32_small; lia).
  assert (forall x, 1 <= x <= cores_max -> u32 x = x) as Hu by (intros; apply Z.mod_small; lia).
  destruct (Z.rem n 100 =? 0); simpl; destruct (lm_waiting l) eqn:Ew; simpl;
    try (destruct (Z.ltb_spec (i32 (waiting_n l + 1)) 10);
         [eexists _, _, _; split_and!; try done; intros; simpl; split_and!; done || lia|]);
    (destruct (decide_cores _ _ _ _) as [x|]; [destruct (Hd x eq_refl) as [Hx Hx1]; unfold flexnic_scale_to; simpl;
      destruct (Z.eqb_spec (fp_scale_to l) 0); simpl|]);
    eexists _, _, _; rewrite ?Hu by done; split_and!; try done; intros; exfalso; lia.
Qed.

Lemma loadmon_bounded_witness : lm_inv 2 [Some (mk_cctx 5 0); None] (loadmon0 2) /\
  exists l' ctxs', flexnic_loadmon 2 [Some (mk_cctx 5 0); None] 7 (loadmon0 2) = Ok (false, l', ctxs').
Proof.
  assert (lm_inv 2 [Some (mk_cctx 5 0); None] (loadmon0 2)) as I by (constructor; simpl; lia).
  split; [done|]. destruct (loadmon_bounded 2 _ 7 _ I) as (w & l' & c' & E & _ & _ & _ & R).
  destruct (R eq_refl ltac:(simpl; lia)) as [-> _]. by exists l', c'.
Defined.
