(* ===== verification/PacketMem.v ===== *)
(** * The packet memory allocator (tas_nic/slow/packetmem.c)

    A first-fit allocator for the DMA region. Its free list is a linked list of
    malloc'ed handles; a handle that is allocated is out of the list. *)
From S2P Require Import Prelude.

#[local] Open Scope Z_scope.

(** ** Data *)
Record packetmem_handle := mk_ph { ph_base : Z; ph_len : Z; ph_next : option Z }.
#[export] Instance eta_ph : Eta packetmem_handle := fun h =>
  mk_ph (ph_base h) (ph_len h) (ph_next h).

(** The handles by address, and the static [freelist]. *)
Record packetmem := mk_pm { handles : gmap Z packetmem_handle; freelist : option Z }.
#[export] Instance eta_pm : Eta packetmem := fun s => mk_pm (handles s) (freelist s).

(** Following a pointer that is not to a handle is out of bounds. *)
Definition get_ph (s : packetmem) (p : Z) : outcome packetmem_handle :=
  match handles s !! p with Some h => Ok h | None => Stop OutOfBounds end.
Definition put_ph (s : packetmem) (p : Z) (h : packetmem_handle) : packetmem :=
  s <| handles := <[p := h]> (handles s) |>.
Definition ph_free (s : packetmem) (p : Z) : packetmem :=
  s <| handles := delete p (handles s) |>.

(** ** Operations

    [fresh] is what [malloc] returns: an unused address or [NULL]. *)
Definition packetmem_init (dma_mem_size : Z) (fresh : option Z) : Z * packetmem :=
  match fresh with
  | None => (-1, mk_pm ∅ None)
  | Some p => (0, mk_pm {[ p := mk_ph 0 dma_mem_size None ]} (Some p))
  end.

(** First fit: the predecessor and the handle found. *)
Fixpoint find_fit (fuel : nat) (s : packetmem) (length : Z) (ph_prev ph : option Z)
  : outcome (option Z * option Z) :=
  match fuel with
  | O => Stop OutOfFuel
  | S fuel =>
      match ph with
      | None => mret (ph_prev, None)
      | Some p =>
          h ← get_ph s p;
          if ph_len h <? length then find_fit fuel s length (Some p) (ph_next h)
          else mret (ph_prev, Some p)
      end
  end.

Definition list_fuel (s : packetmem) : nat := S (size (handles s)).

(** [prev->next = q], or the head of the list when there is no [prev]. *)
Definition set_link (s : packetmem) (prev q : option Z) : outcome packetmem :=
  match prev with
  | None => mret (s <| freelist := q |>)
  | Some p => h ← get_ph s p; mret (put_ph s p (h <| ph_next := q |>))
  end.

(** The result is the return value, and the offset and handle when it is 0. *)
Definition packetmem_alloc (s : packetmem) (length : Z) (fresh : option Z)
  : outcome (Z * option (Z * Z) * packetmem) :=
  '(ph_prev, ph) ← find_fit (list_fuel s) s length None (freelist s);
  match ph with
  | None => mret (-1, None, s)
  | Some p =>
      h ← get_ph s p;
      if ph_len h =? length then
        s ← set_link s ph_prev (ph_next h);
        mret (0, Some (ph_base h, p), s)
      else
        match fresh with
        | None => mret (-1, None, s)
        | Some n =>
            let s := put_ph s n (mk_ph (ph_base h) length None) in
            let s := put_ph s p (h <| ph_base := u64 (ph_base h + length) |>
                                   <| ph_len := u64 (ph_len h - length) |>) in
            mret (0, Some (ph_base h, n), s)
        end
  end.

(** The search of [packetmem_free]. *)
Fixpoint find_place (fuel : nat) (s : packetmem) (base : Z) (ph_prev ph : option Z)
  : outcome (option Z * option Z) :=
  match fuel with
  | O => Stop OutOfFuel
  | S fuel =>
      match ph with
      | None => mret (ph_prev, None)
      | Some p =>
          h ← get_ph s p;
          match ph_next h with
          | None => mret (ph_prev, Some p)
          | Some q =>
              hq ← get_ph s q;
              if ph_base hq <? base then find_place fuel s base (Some p) (Some q)
              else mret (ph_prev, Some p)
          end
      end
  end.

(** Merging [p] with the handle after it, if they touch. *)
Definition merge_next (s : packetmem) (p : Z) : outcome packetmem :=
  h ← get_ph s p;
  match ph_next h with
  | None => mret s
  | Some q =>
      hq ← get_ph s q;
      if u64 (ph_base h + ph_len h) =? ph_base hq then
        mret (ph_free (put_ph s p (h <| ph_len := u64 (ph_len h + ph_len hq) |>
                                     <| ph_next := ph_next hq |>)) q)
      else mret s
  end.

Definition merge_items (s : packetmem) (ph_prev : option Z) : outcome packetmem :=
  match ph_prev with
  | Some pp =>
      hp ← get_ph s pp;
      match ph_next hp with
      | None => Stop OutOfBounds
      | Some p =>
          h ← get_ph s p;
          if u64 (ph_base hp + ph_len hp) =? ph_base h then
            s ← merge_next s pp;
            merge_next s pp
          else merge_next s p
      end
  | None =>
      match freelist s with
      | None => Stop OutOfBounds
      | Some p => merge_next s p
      end
  end.

Definition packetmem_free (s : packetmem) (handle : Z) : outcome packetmem :=
  hh ← get_ph s handle;
  '(ph_prev, _) ← find_place (list_fuel s) s (ph_base hh) None (freelist s);
  s ←
    match ph_prev with
    | None => mret ((put_ph s handle (hh <| ph_next := freelist s |>)) <| freelist := Some handle |>)
    | Some pp =>
        hp ← get_ph s pp;
        let s := put_ph s handle (hh <| ph_next := ph_next hp |>) in
        hp ← get_ph s pp;
        mret (put_ph s pp (hp <| ph_next := Some handle |>))
    end;
  merge_items s ph_prev.

(** ** The free list as a list *)

(** The handles [l] linked from [p], ending in [e]. *)
Fixpoint chain (hs : gmap Z packetmem_handle) (p : option Z) (l : list Z) (e : option Z) : Prop :=
  match l with
  | [] => p = e
  | x :: l => p = Some x /\ exists h, hs !! x = Some h /\ chain hs (ph_next h) l e
  end.

Definition extent (hs : gmap Z packetmem_handle) (x : Z) : list Z :=
  match hs !! x with Some h => seqZ (ph_base h) (ph_len h) | None => [] end.

(** The free handles [fl] and the allocated ones [live] together hold every byte
    of the region of [size] bytes exactly once. *)
Record partitioned (size : Z) (s : packetmem) (fl live : list Z) : Prop := {
  pt_chain : chain (handles s) (freelist s) fl None;
  pt_nodup : NoDup (fl ++ live);
  pt_dom : forall x, x ∈ fl ++ live <-> is_Some (handles s !! x);
  pt_nonneg : forall x h, handles s !! x = Some h -> 0 <= ph_base h /\ 0 <= ph_len h /\ ph_base h + ph_len h <= size;
  pt_bytes : (fl ++ live) ≫= extent (handles s) ≡ₚ seqZ 0 size;
}.

Lemma chain_app hs p l1 l2 e :
  chain hs p (l1 ++ l2) e <-> exists m, chain hs p l1 m /\ chain hs m l2 e.
Proof.
  revert p. induction l1 as [|x l1 IH]; intros p; simpl.
  - split; [intros; by exists p|]. by intros (m & -> & ?).
  - split.
    + intros (-> & h & Hh & Hc). apply IH in Hc as (m & ? & ?). exists m. split; [|done]. eauto.
    + intros (m & (-> & h & Hh & Hc) & Hc2). split; [done|]. exists h. split; [done|]. apply IH. eauto.
Qed.

Lemma chain_ext hs hs' p l e :
  chain hs p l e -> (forall x, x ∈ l -> ph_next <$> hs' !! x = ph_next <$> hs !! x) -> chain hs' p l e.
Proof.
  revert p. induction l as [|x l IH]; intros p; simpl; [done|].
  intros (-> & h & Hh & Hc) Hx. split; [done|]. pose proof (Hx x ltac:(set_solver)) as E. rewrite Hh in E.
  destruct (hs' !! x) as [h'|] eqn:Hh'; [|done]. injection E as E. exists h'. split; [done|].
  rewrite E. apply IH; [done|]. intros y Hy. apply Hx. set_solver.
Qed.

Lemma chain_head hs p l : chain hs p l None -> p = head l.
Proof. destruct l; simpl; [done|]. by intros (-> & _). Qed.

Lemma partitioned_fuel size s fl live : partitioned size s fl live -> (length fl < list_fuel s)%nat.
Proof.
  intros Hp. unfold list_fuel.
  assert (list_to_set fl ⊆ dom (handles s)) as Hsub.
  { intros x Hx. apply elem_of_dom, (pt_dom _ _ _ _ Hp). set_solver. }
  apply subseteq_size in Hsub.
  rewrite size_list_to_set, size_dom in Hsub; [lia|].
  pose proof (pt_nodup _ _ _ _ Hp) as Hn. by apply NoDup_app in Hn as [? _].
Qed.

(** The search stops at a split of the free list. *)
Lemma find_fit_split fuel s n prev p l :
  chain (handles s) p l None -> (length l < fuel)%nat ->
  (forall x, x ∈ l -> is_Some (handles s !! x)) ->
  exists l1 l2, l = l1 ++ l2 /\
    find_fit fuel s n prev p = Ok (match last l1 with Some x => Some x | None => prev end, head l2) /\
    (forall x h, x ∈ l1 -> handles s !! x = Some h -> ph_len h < n) /\
    match l2 with [] => True | x :: _ => exists h, handles s !! x = Some h /\ n <= ph_len h end.
Proof.
  revert prev p l. induction fuel as [|fuel IH]; intros prev p l Hc Hf Hd; [lia|].
  destruct l as [|x l]; simpl in Hc.
  - subst. exists [], []. split_and!; [done|done| |done]. by intros ? ? []%elem_of_nil.
  - destruct Hc as (-> & h & Hh & Hc). simpl. unfold get_ph. rewrite Hh. osimpl.
    destruct (Z.ltb_spec (ph_len h) n).
    + simpl in Hf. destruct (IH (Some x) (ph_next h) l Hc ltac:(lia) ltac:(set_solver))
        as (l1 & l2 & -> & Hr & Hs & Hl2).
      exists (x :: l1), l2. split_and!; [done| | |done].
      * rewrite Hr. destruct l1 as [|y l1]; [done|]. rewrite last_cons_cons.
        destruct (last (y :: l1)) eqn:E; [done|by apply last_None in E].
      * intros y hy [->|Hy]%elem_of_cons; [|by apply Hs]. intros. by simplify_eq.
    + exists [], (x :: l). split_and!; [done|done| |by eauto]. by intros ? ? []%elem_of_nil.
Qed.

(** ** Byte accounting *)
Lemma extent_insert_ne hs p h x : x <> p -> extent (<[p := h]> hs) x = extent hs x.
Proof. intros. unfold extent. by rewrite lookup_insert_ne. Qed.
Lemma extent_insert hs p h : extent (<[p := h]> hs) p = seqZ (ph_base h) (ph_len h).
Proof. unfold extent. by rewrite lookup_insert_eq. Qed.
Lemma bind_extent_ext hs hs' l :
  (forall x, x ∈ l -> extent hs' x = extent hs x) -> l ≫= extent hs' = l ≫= extent hs.
Proof.
  induction l as [|x l IH]; intros He; [done|].
  rewrite !bind_cons. rewrite (He x) by set_solver. f_equal. apply IH. set_solver.
Qed.
Lemma bind_insert_ne hs p h l : p ∉ l -> l ≫= extent (<[p := h]> hs) = l ≫= extent hs.
Proof. intros Hp. apply bind_extent_ext. intros x Hx. apply extent_insert_ne. by intros ->. Qed.
Lemma bind_delete hs p l : p ∉ l -> l ≫= extent (delete p hs) = l ≫= extent hs.
Proof.
  intros Hp. apply bind_extent_ext. intros x Hx. unfold extent. rewrite lookup_delete_ne; [done|].
  by intros ->.
Qed.

(** The links of the free list after a change behind [prev]. *)
Lemma set_link_ok s fl l1 l2 l3 q e :
  fl = l1 ++ l2 -> chain (handles s) (freelist s) fl e -> NoDup l1 ->
  chain (handles s) q l3 e -> (forall x, x ∈ l3 -> x ∉ l1) ->
  exists s', set_link s (last l1) q = Ok s' /\
    chain (handles s') (freelist s') (l1 ++ l3) e /\
    (forall x, ph_base <$> handles s' !! x = ph_base <$> handles s !! x) /\
    (forall x, ph_len <$> handles s' !! x = ph_len <$> handles s !! x).
Proof.
  intros -> Hc Hnd Hq Hdis. destruct (last l1) as [p|] eqn:Hl.
  - apply last_Some in Hl as [l1' ->]. rewrite <- app_assoc in Hc.
    apply chain_app in Hc as (m & Hc1 & Hc2). simpl in Hc2. destruct Hc2 as (-> & h & Hh & Hc2).
    simpl. unfold get_ph. rewrite Hh. osimpl. eexists. split; [reflexivity|].
    apply NoDup_app in Hnd as (Hnd1 & Hnd2 & _).
    split_and!.
    + simpl. rewrite <- app_assoc. apply chain_app. exists (Some p). split.
      * eapply chain_ext; [exact Hc1|]. intros x Hx. simpl. rewrite lookup_insert_ne; [done|].
        intros ->. eapply Hnd2; set_solver.
      * split; [done|]. eexists. split; [apply lookup_insert_eq|]. simpl.
        eapply chain_ext; [exact Hq|]. intros x Hx. rewrite lookup_insert_ne; [done|].
        intros ->. eapply Hdis; set_solver.
    + intros x. simpl. destruct (decide (x = p)) as [->|];
        [by rewrite lookup_insert_eq, Hh|by rewrite lookup_insert_ne].
    + intros x. simpl. destruct (decide (x = p)) as [->|];
        [by rewrite lookup_insert_eq, Hh|by rewrite lookup_insert_ne].
  - apply last_None in Hl as ->. simpl. eexists. split; [reflexivity|]. split_and!; done.
Qed.

Lemma extent_same hs hs' x :
  ph_base <$> hs' !! x = ph_base <$> hs !! x -> ph_len <$> hs' !! x = ph_len <$> hs !! x ->
  extent hs' x = extent hs x.
Proof.
  unfold extent. destruct (hs' !! x), (hs !! x); simpl; try done. by intros [= ->] [= ->].
Qed.

Section Ops.
Context (size : Z) (Hsize : 0 <= size < 18446744073709551616).
Implicit Types (s : packetmem) (fl live : list Z).

(** Other operations of the same shape: the bytes of every handle are kept. *)
Lemma bind_same hs hs' l :
  (forall x, x ∈ l -> ph_base <$> hs' !! x = ph_base <$> hs !! x) ->
  (forall x, x ∈ l -> ph_len <$> hs' !! x = ph_len <$> hs !! x) -> l ≫= extent hs' = l ≫= extent hs.
Proof. intros. apply bind_extent_ext. intros. apply extent_same; auto. Qed.

Lemma fmap_is_Some {A B} (f : A -> B) (a b : option A) : f <$> a = f <$> b -> is_Some a <-> is_Some b.
Proof. destruct a, b; simpl; intros; try done; split; intros []; done. Qed.

Lemma partitioned_get s fl live x :
  partitioned size s fl live -> x ∈ fl ++ live ->
  exists h, handles s !! x = Some h /\ 0 <= ph_base h /\ 0 <= ph_len h /\ ph_base h + ph_len h <= size.
Proof.
  intros Hp Hx. apply (pt_dom _ _ _ _ Hp) in Hx as [h Hh]. exists h. split; [done|].
  by apply (pt_nonneg _ _ _ _ Hp x).
Qed.

Lemma packetmem_alloc_ok s fl live n fresh :
  partitioned size s fl live -> 0 <= n -> (forall p, fresh = Some p -> handles s !! p = None) ->
  (exists p base fl' s' nx, packetmem_alloc s n fresh = Ok (0, Some (base, p), s') /\
     partitioned size s' fl' (p :: live) /\ handles s' !! p = Some (mk_ph base n nx) /\
     (forall x, x ∈ live -> handles s' !! x = handles s !! x)) \/
  (packetmem_alloc s n fresh = Ok (-1, None, s) /\
     (fresh = None \/ forall x h, x ∈ fl -> handles s !! x = Some h -> ph_len h < n)).
Proof.
  intros Hp Hn Hfresh. pose proof Hp as [Hc Hnd Hdom Hnn Hb].
  destruct (find_fit_split (list_fuel s) s n None (freelist s) fl Hc)
    as (l1 & l2 & -> & Hr & Hsm & Hl2).
  { by eapply partitioned_fuel. }
  { intros x Hx. apply Hdom. set_solver. }
  unfold packetmem_alloc. rewrite Hr. osimpl.
  destruct l2 as [|p l2]; cbn [head]; cbv beta iota.
  { right. split; [done|]. right. intros x h Hx. apply Hsm. set_solver. }
  destruct Hl2 as (h & Hh & Hlen). unfold get_ph. rewrite Hh. osimpl.
  rewrite <- app_assoc in Hnd. pose proof Hnd as (Hnd1 & Hdis & Hnd2)%NoDup_app.
  apply chain_app in Hc as (m & Hc1 & Hc2). simpl in Hc2. destruct Hc2 as (-> & h' & Hh' & Hc2).
  rewrite Hh in Hh'. injection Hh' as <-. destruct (Hnn p h Hh) as (Hb0 & Hl0 & Hbl).
  destruct (Z.eqb_spec (ph_len h) n) as [Heq|Hne].
  - left. destruct (set_link_ok s (l1 ++ p :: l2) l1 (p :: l2) l2 (ph_next h) None) as (s' & Hs & Hc' & Hsb & Hsl);
      [done|apply chain_app; exists (Some p); simpl; eauto|done|done|set_solver|].
    replace (match last l1 with Some x => Some x | None => None end) with (last l1) by by destruct (last l1).
    rewrite Hs. osimpl.
    assert (handles s' !! p = Some (mk_ph (ph_base h) n (ph_next h))) as Hp'.
    { (* the links changed are those of [l1] *)
      unfold set_link in Hs. destruct (last l1) as [y|] eqn:Hl.
      - unfold get_ph in Hs. destruct (handles s !! y) as [hy|]; [|done]. simpl in Hs. injection Hs as <-.
        simpl. rewrite lookup_insert_ne, Hh; [by destruct h; simpl in *; subst|].
        intros ->. apply last_Some in Hl as [? ->]. eapply (Hdis p); set_solver.
      - injection Hs as <-. simpl. rewrite Hh. by destruct h; simpl in *; subst. }
    assert (forall x, x ∈ live -> handles s' !! x = handles s !! x) as Hlive.
    { intros x Hx. unfold set_link in Hs. destruct (last l1) as [y|] eqn:Hl.
      - unfold get_ph in Hs. destruct (handles s !! y) as [hy|]; [|done]. simpl in Hs. injection Hs as <-.
        simpl. rewrite lookup_insert_ne; [done|].
        intros ->. apply last_Some in Hl as [? ->]. eapply (Hdis x); set_solver.
      - by injection Hs as <-. }
    exists p, (ph_base h), (l1 ++ l2), s', (ph_next h). split_and!; [done| |done|done].
    assert (l1 ++ p :: l2 ++ live ≡ₚ (l1 ++ l2) ++ p :: live) as Hperm by solve_Permutation.
    split; [done| | | |].
    + rewrite <- Hperm. exact Hnd.
    + intros x. rewrite <- Hperm. rewrite (fmap_is_Some _ _ _ (Hsb x)), <- Hdom. by rewrite <- app_assoc.
    + intros x hx Hx. pose proof (Hsb x) as E1. pose proof (Hsl x) as E2. rewrite Hx in E1, E2.
      destruct (handles s !! x) as [hx0|] eqn:Hx0; [|done]. simpl in *.
      injection E1 as ->. injection E2 as ->. by apply (Hnn x).
    + rewrite <- Hperm. rewrite (bind_same (handles s)) by auto. rewrite <- app_assoc in Hb. exact Hb.
  - destruct fresh as [q|]; [|right; split; [done|by left]]. left.
    assert (handles s !! q = None) as Hq by by apply Hfresh.
    assert (q <> p) by congruence.
    assert (q ∉ l1 ++ (p :: l2) ++ live) as Hqn.
    { rewrite app_assoc. intros Hin. apply Hdom in Hin. rewrite Hq in Hin. by destruct Hin. }
    rewrite !u64_small by lia.
    do 5 eexists. split; [reflexivity|]. split_and!.
    + split; simpl.
      * instantiate (1 := l1 ++ p :: l2).
        apply (chain_ext (handles s)); [apply chain_app; exists (Some p); simpl; eauto|].
        intros x Hx. destruct (decide (x = p)) as [->|];
          [by rewrite lookup_insert_eq, Hh|rewrite lookup_insert_ne by done].
        rewrite lookup_insert_ne; [done|]. intros ->. apply Hqn. set_solver.
      * assert ((l1 ++ p :: l2) ++ q :: live ≡ₚ q :: l1 ++ (p :: l2) ++ live) as -> by solve_Permutation.
        constructor; done.
      * intros x. assert ((l1 ++ p :: l2) ++ q :: live ≡ₚ q :: l1 ++ (p :: l2) ++ live) as -> by solve_Permutation.
        rewrite elem_of_cons. rewrite app_assoc, Hdom.
        destruct (decide (x = p)) as [->|]; [rewrite lookup_insert_eq, Hh; split; intros _; [by eexists|right; by eexists]|].
        rewrite lookup_insert_ne by done. destruct (decide (x = q)) as [->|].
        -- rewrite lookup_insert_eq. split; intros _; [by eexists|by left].
        -- rewrite lookup_insert_ne by done. split; [by intros [|]|by right].
      * intros x hx. destruct (decide (x = p)) as [->|].
        { rewrite lookup_insert_eq. intros [= <-]. simpl. lia. }
        rewrite lookup_insert_ne by done. destruct (decide (x = q)) as [->|].
        { rewrite lookup_insert_eq. intros [= <-]. simpl. lia. }
        rewrite lookup_insert_ne by done. apply Hnn.
      * rewrite <- Hb. rewrite <- !app_assoc. simpl. repeat rewrite ?bind_app, ?bind_cons.
        rewrite extent_insert, (extent_insert_ne _ p _ q), extent_insert by done. simpl.
        assert (p ∉ l1 /\ p ∉ l2 /\ p ∉ live) as (? & ? & ?).
        { split; [|split]; intros Hin; [by eapply (Hdis p); set_solver|..];
            apply NoDup_cons in Hnd2 as [Hx _]; apply Hx; set_solver. }
        rewrite !bind_insert_ne by set_solver.
        assert (extent (handles s) p = seqZ (ph_base h) n ++ seqZ (ph_base h + n) (ph_len h - n)) as ->.
        { unfold extent. rewrite Hh. rewrite <- seqZ_app by lia. f_equal. lia. }
        solve_Permutation.
    + simpl. rewrite lookup_insert_ne by done. apply lookup_insert_eq.
    + intros x Hx. simpl. rewrite lookup_insert_ne, lookup_insert_ne; [done| |].
      * intros ->. apply Hqn. set_solver.
      * intros ->. apply NoDup_cons in Hnd2 as [Hy _]. apply Hy. set_solver.
Qed.

(** Merging two neighbours of the list that touch. *)
Lemma merge_next_ok s l1 p l3 live :
  partitioned size s (l1 ++ p :: l3) live ->
  exists s' l3', merge_next s p = Ok s' /\ partitioned size s' (l1 ++ p :: l3') live /\
    (l3' = l3 \/ exists q, l3 = q :: l3') /\
    (forall x, x ∈ live -> handles s' !! x = handles s !! x).
Proof.
  intros Hp. pose proof Hp as [Hc Hnd Hdom Hnn Hb].
  apply chain_app in Hc as (m & Hc1 & Hc2). simpl in Hc2. destruct Hc2 as (-> & h & Hh & Hc2).
  unfold merge_next, get_ph. rewrite Hh. osimpl. destruct (Hnn p h Hh) as (? & ? & ?).
  destruct l3 as [|q l3]; simpl in Hc2.
  { rewrite Hc2. exists s, []. split_and!; [done|done|by left|done]. }
  destruct Hc2 as (Hq & hq & Hhq & Hc3). rewrite Hq, Hhq. osimpl.
  destruct (Hnn q hq Hhq) as (? & ? & ?).
  destruct (Z.eqb_spec (u64 (ph_base h + ph_len h)) (ph_base hq)) as [E|_].
  2: { exists s, (q :: l3). split_and!; [done|done|by left|done]. }
  rewrite u64_small in E by lia.
  assert (p <> q /\ p ∉ l1 /\ q ∉ l1 /\ p ∉ l3 /\ q ∉ l3 /\ p ∉ live /\ q ∉ live) as (? & ? & ? & ? & ? & ? & ?).
  { rewrite <- app_assoc in Hnd. apply NoDup_app in Hnd as (_ & Hd & Hn). simpl in Hn.
    apply NoDup_cons in Hn as [Hp1 Hn]. apply NoDup_cons in Hn as [Hq1 _].
    split_and!; try set_solver; intros Hin; eapply Hd; set_solver. }
  eexists _, l3. split; [reflexivity|]. split_and!; [|by right; exists q|].
  - split; simpl.
    + apply chain_app. exists (Some p). split.
      * eapply chain_ext; [exact Hc1|]. intros x Hx.
        rewrite lookup_delete_ne, lookup_insert_ne by (intros ->; done). done.
      * split; [done|]. eexists. split; [rewrite lookup_delete_ne by done; apply lookup_insert_eq|].
        simpl. eapply chain_ext; [exact Hc3|]. intros x Hx.
        rewrite lookup_delete_ne, lookup_insert_ne by (intros ->; done). done.
    + assert ((l1 ++ p :: q :: l3) ++ live ≡ₚ q :: (l1 ++ p :: l3) ++ live) as Hperm by solve_Permutation.
      rewrite Hperm in Hnd. by apply NoDup_cons in Hnd as [_ ?].
    + intros x. destruct (decide (x = q)) as [->|].
      { rewrite lookup_delete_eq. split; [set_solver|by intros []]. }
      rewrite lookup_delete_ne by done.
      assert (x ∈ (l1 ++ p :: l3) ++ live <-> x ∈ (l1 ++ p :: q :: l3) ++ live) as -> by set_solver.
      rewrite Hdom. destruct (decide (x = p)) as [->|]; [rewrite lookup_insert_eq, Hh; split; by eexists|].
      by rewrite lookup_insert_ne.
    + intros x hx. destruct (decide (x = q)) as [->|]; [by rewrite lookup_delete_eq|].
      rewrite lookup_delete_ne by done. destruct (decide (x = p)) as [->|].
      * rewrite lookup_insert_eq. intros [= <-]. simpl. rewrite u64_small by lia. lia.
      * rewrite lookup_insert_ne by done. apply Hnn.
    + rewrite <- Hb. rewrite <- !app_assoc. repeat rewrite ?bind_app, ?bind_cons.
      rewrite !bind_delete, !bind_insert_ne by done.
      assert (extent (delete q (<[p := h <| ph_len := u64 (ph_len h + ph_len hq) |> <| ph_next := ph_next hq |>]>
        (handles s))) p = extent (handles s) p ++ extent (handles s) q) as Hpe.
      { unfold extent. rewrite lookup_delete_ne, lookup_insert_eq, Hh, Hhq by done. simpl.
        rewrite u64_small by lia. rewrite seqZ_app by lia. by rewrite E. }
      simpl in Hpe.
      rewrite Hpe. solve_Permutation.
  - intros x Hx. simpl. rewrite lookup_delete_ne, lookup_insert_ne; [done|by intros ->|by intros ->].
Qed.

Lemma merge_items_ok s l1 p l3 live :
  partitioned size s (l1 ++ p :: l3) live ->
  exists s' fl', merge_items s (last l1) = Ok s' /\ partitioned size s' fl' live /\
    (forall x, x ∈ live -> handles s' !! x = handles s !! x).
Proof.
  intros Hp. unfold merge_items. destruct (last l1) as [pp|] eqn:Hl.
  - apply last_Some in Hl as [l1' ->]. rewrite <- app_assoc in Hp. simpl in Hp.
    pose proof (pt_chain _ _ _ _ Hp) as Hc. apply chain_app in Hc as (m & _ & Hc). simpl in Hc.
    destruct Hc as (-> & hp & Hhp & Hn & h & Hh & _).
    unfold get_ph. rewrite Hhp. osimpl. rewrite Hn. rewrite Hh. osimpl.
    destruct (_ =? _).
    + destruct (merge_next_ok s l1' pp (p :: l3) live Hp) as (s1 & l3' & -> & Hp1 & _ & E1). osimpl.
      destruct (merge_next_ok s1 l1' pp l3' live Hp1) as (s2 & l4 & -> & Hp2 & _ & E2).
      exists s2, (l1' ++ pp :: l4). split_and!; [done|done|]. intros x Hx. by rewrite E2, E1.
    + assert (l1' ++ pp :: p :: l3 = (l1' ++ [pp]) ++ p :: l3) as E by by rewrite <- app_assoc.
      rewrite E in Hp. destruct (merge_next_ok s _ p l3 live Hp) as (s1 & l3' & -> & Hp1 & _ & E1). eauto.
  - apply last_None in Hl as ->. simpl in Hp. pose proof (pt_chain _ _ _ _ Hp) as [-> _].
    destruct (merge_next_ok s [] p l3 live Hp) as (s1 & l3' & -> & Hp1 & _ & E1). eauto.
Qed.

(** The place [packetmem_free] finds is a position of the list. *)
Lemma find_place_split fuel s b prev p l :
  chain (handles s) p l None -> (length l < fuel)%nat ->
  (forall x, x ∈ l -> is_Some (handles s !! x)) ->
  exists l1 l2 r, l = l1 ++ l2 /\
    find_place fuel s b prev p = Ok (match last l1 with Some x => Some x | None => prev end, r).
Proof.
  revert prev p l. induction fuel as [|fuel IH]; intros prev p l Hc Hf Hd; [lia|].
  destruct l as [|x l]; simpl in Hc.
  - subst. exists [], [], None. done.
  - destruct Hc as (-> & h & Hh & Hc). simpl. unfold get_ph. rewrite Hh. osimpl.
    destruct l as [|y l]; simpl in Hc.
    { rewrite Hc. by exists [], [x], (Some x). }
    destruct Hc as (Hy & hy & Hhy & Hc). rewrite Hy, Hhy. osimpl.
    destruct (_ <? _).
    + destruct (IH (Some x) (Some y) (y :: l)) as (l1 & l2 & r & E & Hr).
      { simpl. eauto. } { simpl in *. lia. } { intros z Hz. apply Hd. set_solver. }
      exists (x :: l1), l2, r. rewrite E. split; [done|]. rewrite Hr.
      destruct l1 as [|z l1]; [done|]. rewrite last_cons_cons.
      destruct (last (z :: l1)) eqn:El; [done|by apply last_None in El].
    + by exists [], (x :: y :: l), (Some x).
Qed.

Lemma packetmem_free_ok s fl a p b :
  partitioned size s fl (a ++ p :: b) ->
  exists s' fl', packetmem_free s p = Ok s' /\ partitioned size s' fl' (a ++ b) /\
    (forall x, x ∈ a ++ b -> handles s' !! x = handles s !! x).
Proof.
  intros Hp. pose proof Hp as [Hc Hnd Hdom Hnn Hb].
  destruct (partitioned_get s fl _ p Hp) as (h & Hh & _); [set_solver|].
  unfold packetmem_free, get_ph. rewrite Hh. osimpl.
  destruct (find_place_split (list_fuel s) s (ph_base h) None (freelist s) fl Hc)
    as (l1 & l2 & r & -> & Hr).
  { by eapply partitioned_fuel. }
  { intros x Hx. apply Hdom. set_solver. }
  rewrite Hr. osimpl.
  replace (match last l1 with Some x => Some x | None => None end) with (last l1) by by destruct (last l1).
  pose proof Hc as (m & Hc1 & Hc2)%chain_app.
  assert (p ∉ l1 /\ p ∉ l2 /\ p ∉ a ++ b) as (Hp1 & Hp2 & Hp3).
  { assert ((l1 ++ l2) ++ a ++ p :: b ≡ₚ p :: l1 ++ l2 ++ a ++ b) as Hperm by solve_Permutation.
    rewrite Hperm in Hnd. apply NoDup_cons in Hnd as [Hx _]. set_solver. }
  (* the insertion is a [set_link] after [p] was pointed at the rest *)
  set (s1 := put_ph s p (h <| ph_next := m |>)).
  assert (chain (handles s1) (freelist s1) (l1 ++ l2) None) as Hcs1.
  { eapply chain_ext; [exact Hc|]. intros x Hx. simpl. rewrite lookup_insert_ne; [done|].
    intros ->. apply elem_of_app in Hx as []; done. }
  assert (chain (handles s1) (Some p) (p :: l2) None) as Hcp.
  { split; [done|]. eexists. split; [apply lookup_insert_eq|]. simpl.
    eapply chain_ext; [exact Hc2|]. intros x Hx. rewrite lookup_insert_ne; [done|]. by intros ->. }
  assert (NoDup l1 /\ forall x, x ∈ p :: l2 -> x ∉ l1) as [Hn1 Hdis].
  { apply NoDup_app in Hnd as (Hn & _). apply NoDup_app in Hn as (? & Hd & _). split; [done|].
    intros x Hx Hx1. apply elem_of_cons in Hx as [->|Hx]; [done|by apply (Hd x)]. }
  destruct (set_link_ok s1 (l1 ++ l2) l1 l2 (p :: l2) (Some p) None) as (s2 & Hs2 & Hc' & Hsb & Hsl);
    [done|exact Hcs1|done|exact Hcp|done|].
  match goal with |- context [mbind _ ?ins] => assert (ins = Ok s2) as -> end.
  { unfold set_link in Hs2. destruct (last l1) as [pp|] eqn:Hl.
    - apply last_Some in Hl as [l1' ->]. apply chain_app in Hc1 as (m' & _ & (-> & hpp & Hhpp & Hm)).
      simpl in Hm. unfold get_ph in *. rewrite Hhpp. osimpl. rewrite Hm. exact Hs2.
    - apply last_None in Hl as ->. simpl in Hc1. rewrite Hc1. exact Hs2. }
  osimpl.
  assert (forall x, x ∈ a ++ b -> handles s2 !! x = handles s !! x) as Hlive.
  { intros x Hx. assert (x ∉ l1) as Hx1.
    { intros Hx1. apply NoDup_app in Hnd as (_ & Hd & _). apply (Hd x); set_solver. }
    assert (x <> p) by (by intros ->).
    unfold set_link in Hs2. destruct (last l1) as [pp|] eqn:Hl.
    - unfold get_ph in Hs2. destruct (handles s1 !! pp) as [hpp|]; [|done]. simpl in Hs2. injection Hs2 as <-.
      apply last_Some in Hl as [l1' ->]. simpl. rewrite !lookup_insert_ne; [done|done|].
      intros ->. apply Hx1. set_solver.
    - injection Hs2 as <-. simpl. by rewrite lookup_insert_ne. }
  assert (forall x, ph_base <$> handles s2 !! x = ph_base <$> handles s !! x) as Eb.
  { intros x. rewrite Hsb. simpl. destruct (decide (x = p)) as [->|];
      [by rewrite lookup_insert_eq, Hh|by rewrite lookup_insert_ne]. }
  assert (forall x, ph_len <$> handles s2 !! x = ph_len <$> handles s !! x) as El.
  { intros x. rewrite Hsl. simpl. destruct (decide (x = p)) as [->|];
      [by rewrite lookup_insert_eq, Hh|by rewrite lookup_insert_ne]. }
  assert (partitioned size s2 (l1 ++ p :: l2) (a ++ b)) as Hp'.
  { assert ((l1 ++ l2) ++ a ++ p :: b ≡ₚ (l1 ++ p :: l2) ++ a ++ b) as Hperm by solve_Permutation.
    split.
    - exact Hc'.
    - by rewrite <- Hperm.
    - intros x. by rewrite <- Hperm, (fmap_is_Some _ _ _ (Eb x)).
    - intros x hx Hx. specialize (Eb x). specialize (El x). rewrite Hx in Eb, El.
      destruct (handles s !! x) as [hx0|] eqn:Hx0; [|done]. simpl in *.
      injection Eb as ->. injection El as ->. by apply (Hnn x).
    - rewrite <- Hperm. rewrite (bind_same (handles s)) by auto. exact Hb. }
  destruct (merge_items_ok s2 l1 p l2 (a ++ b) Hp') as (s3 & fl3 & Hm & Hp3' & E3).
  exists s3, fl3. split_and!; [done|done|]. intros x Hx. by rewrite E3, Hlive.
Qed.

End Ops.

(** ** Reachable states *)
Inductive pm_reach (size : Z) : packetmem -> list Z -> Prop :=
  | reach_init p : pm_reach size (snd (packetmem_init size (Some p))) []
  | reach_alloc s live n fresh base p s' :
      pm_reach size s live -> 0 <= n -> (forall q, fresh = Some q -> handles s !! q = None) ->
      packetmem_alloc s n fresh = Ok (0, Some (base, p), s') -> pm_reach size s' (p :: live)
  | reach_free s a p b s' :
      pm_reach size s (a ++ p :: b) -> packetmem_free s p = Ok s' -> pm_reach size s' (a ++ b).

Lemma pm_init_partitioned size p :
  0 <= size -> partitioned size (snd (packetmem_init size (Some p))) [p] [].
Proof.
  intros Hs. split; simpl.
  - split; [done|]. eexists. split; [apply lookup_singleton_eq|done].
  - apply NoDup_singleton.
  - intros x. destruct (decide (x = p)) as [->|]; [rewrite lookup_singleton_eq; split; [by eexists|set_solver]|].
    rewrite lookup_singleton_ne by done. split; [set_solver|by intros []].
  - intros x h Hx. apply lookup_singleton_Some in Hx as [_ <-]. simpl. lia.
  - unfold extent. rewrite lookup_singleton_eq. simpl. by rewrite app_nil_r.
Qed.

Lemma pm_reach_partitioned size s live :
  0 <= size < 18446744073709551616 -> pm_reach size s live -> exists fl, partitioned size s fl live.
Proof.
  intros Hs Hr. induction Hr as [p|s live n fresh base p s' Hr [fl Hp] Hn Hf Ha|s a p b s' Hr [fl Hp] Hf].
  - exists [p]. apply pm_init_partitioned. lia.
  - destruct (packetmem_alloc_ok size Hs s fl live n fresh Hp Hn Hf)
      as [(p' & b' & fl' & s2 & nx & Ha' & Hp' & _)|[Ha' _]]; rewrite Ha in Ha'; [|done].
    injection Ha' as <- <- <-. eauto.
  - destruct (packetmem_free_ok size Hs s fl a p b Hp) as (s2 & fl' & Hf' & Hp' & _).
    rewrite Hf in Hf'. injection Hf' as <-. eauto.
Qed.

(** C40. The packet memory allocator is safe: in every state it can reach, the
    free and the allocated blocks hold each byte of the region exactly once; an
    allocation returns a block of the requested length that overlaps none of the
    blocks in use and leaves those as they are, or fails without an effect when
    no free block is long enough (or [malloc] fails); and a block in use can be
    freed. *)
Theorem packetmem_safe size s live :
  0 <= size < 18446744073709551616 -> pm_reach size s live ->
  exists fl, partitioned size s fl live /\
    (forall n fresh, 0 <= n -> (forall q, fresh = Some q -> handles s !! q = None) ->
       (exists p base s', packetmem_alloc s n fresh = Ok (0, Some (base, p), s') /\
          extent (handles s') p = seqZ base n /\
          (forall x, x ∈ live -> extent (handles s') x = extent (handles s) x /\
             forall y, y ∈ seqZ base n -> y ∉ extent (handles s) x)) \/
       packetmem_alloc s n fresh = Ok (-1, None, s) /\
         (fresh = None \/ forall x h, x ∈ fl -> handles s !! x = Some h -> ph_len h < n)) /\
    (forall p, p ∈ live -> exists s', packetmem_free s p = Ok s').
Proof.
  intros Hs Hr. destruct (pm_reach_partitioned size s live Hs Hr) as [fl Hp].
  exists fl. split; [done|]. split.
  - intros n fresh Hn Hf.
    destruct (packetmem_alloc_ok size Hs s fl live n fresh Hp Hn Hf)
      as [(p & base & fl' & s' & nx & Ha & Hp' & Hh & Hl)|[Ha Hno]]; [left|by right].
    assert (extent (handles s') p = seqZ base n) as He by (unfold extent; by rewrite Hh).
    exists p, base, s'. split_and!; [done|done|]. intros x Hx.
    assert (extent (handles s') x = extent (handles s) x) as Ex by (unfold extent; by rewrite Hl).
    split; [done|]. intros y Hy Hy'. rewrite <- Ex in Hy'. rewrite <- He in Hy.
    pose proof (pt_bytes _ _ _ _ Hp') as Hb. rewrite bind_app, bind_cons in Hb.
    assert (NoDup (seqZ 0 size)) as Hnd by apply NoDup_seqZ. rewrite <- Hb in Hnd.
    apply NoDup_app in Hnd as (_ & _ & Hnd). apply NoDup_app in Hnd as (_ & Hd & _).
    apply (Hd y Hy). apply list_elem_of_bind. exists x. by split.
  - intros p Hin. apply list_elem_of_split in Hin as (a & b & ->).
    destruct (packetmem_free_ok size Hs s fl a p b Hp) as (s' & fl' & Hf & _). eauto.
Qed.

(** Code bug: [packetmem_free] inserts a block one place too early in the
    list, so neighbours are not merged. Three blocks are allocated and freed;
    nothing is in use any more, yet the region can no longer be allocated as a
    whole, which it could be at the start. *)
Theorem packetmem_free_fragments :
  exists s, pm_reach 100 s [] /\ packetmem_alloc s 100 (Some 9) = Ok (-1, None, s) /\
    packetmem_alloc (snd (packetmem_init 100 (Some 1))) 100 (Some 9) =
      Ok (0, Some (0, 1), (snd (packetmem_init 100 (Some 1))) <| freelist := (None : option Z) |>).
Proof.
  pose proof (reach_alloc 100 _ _ 10 (Some 2) _ _ _ (reach_init 100 1) ltac:(lia)
    ltac:(intros q [= <-]; reflexivity) eq_refl) as H1.
  pose proof (reach_alloc 100 _ _ 10 (Some 3) _ _ _ H1 ltac:(lia)
    ltac:(intros q [= <-]; reflexivity) eq_refl) as H2.
  pose proof (reach_alloc 100 _ _ 10 (Some 4) _ _ _ H2 ltac:(lia)
    ltac:(intros q [= <-]; reflexivity) eq_refl) as H3.
  pose proof (reach_free 100 _ [4] 3 [2] _ H3 eq_refl) as H4.
  pose proof (reach_free 100 _ [] 4 [2] _ H4 eq_refl) as H5.
  pose proof (reach_free 100 _ [] 2 [] _ H5 eq_refl) as H6.
  eexists. split; [exact H6|]. split; reflexivity.
Qed.

Lemma packetmem_safe_witness :
  exists fl, partitioned 100 (snd (packetmem_init 100 (Some 1))) fl [] /\
    (forall n fresh, 0 <= n ->
       (forall q, fresh = Some q -> handles (snd (packetmem_init 100 (Some 1))) !! q = None) ->
       (exists p base s', packetmem_alloc (snd (packetmem_init 100 (Some 1))) n fresh = Ok (0, Some (base, p), s') /\
          extent (handles s') p = seqZ base n /\
          (forall x, x ∈ [] -> extent (handles s') x = extent (handles (snd (packetmem_init 100 (Some 1)))) x /\
             forall y, y ∈ seqZ base n -> y ∉ extent (handles (snd (packetmem_init 100 (Some 1)))) x)) \/
       packetmem_alloc (snd (packetmem_init 100 (Some 1))) n fresh =
         Ok (-1, None, snd (packetmem_init 100 (Some 1))) /\
         (fresh = None \/ forall x h, x ∈ fl -> handles (snd (packetmem_init 100 (Some 1))) !! x = Some h -> ph_len h < n)) /\
    (forall p, p ∈ [] -> exists s', packetmem_free (snd (packetmem_init 100 (Some 1))) p = Ok s').
Proof. apply (packetmem_safe 100 _ []); [lia|apply reach_init]. Defined.
