(* ===== verification/FlowTable.v ===== *)
(** * The slow path's side of the NIC interface (tas_nic/slow/nicif.c)

    Flow ids, the flow hash table the fast path looks flows up in, setting up
    and tearing down the state of a flow, and the kernel queues. *)
From S2P Require Import Prelude RdmaQueue Packets FlowState TcpCommon Qman FastCtx FastFlows FlowTx Wire.

#[local] Open Scope Z_scope.

(** ** Flow ids: a free list over the array [flow_id_items] *)
Record flow_ids := mk_ids { id_next : gmap Z (option Z); id_free : option Z }.

(** The items from [i] on, linked one to the next; [num] is
    [FLEXNIC_PL_FLOWST_NUM]. *)
Fixpoint link_items (n : nat) (i num : Z) (next : gmap Z (option Z)) : gmap Z (option Z) :=
  match n with
  | O => next
  | S n => link_items n (i + 1) num (<[i := if i + 1 <? num then Some (i + 1) else None]> next)
  end.
Definition flow_id_alloc_init (num : Z) : flow_ids :=
  mk_ids (link_items (Z.to_nat num) 0 num ∅) (if 0 <? num then Some 0 else None).

Definition flow_id_alloc (s : flow_ids) : outcome (option Z * flow_ids) :=
  match id_free s with
  | None => mret (None, s)
  | Some it =>
      match id_next s !! it with
      | None => Stop OutOfBounds
      | Some nx => mret (Some it, mk_ids (id_next s) nx)
      end
  end.

Definition flow_id_free (s : flow_ids) (flow_id : Z) : outcome flow_ids :=
  match id_next s !! flow_id with
  | None => Stop OutOfBounds
  | Some _ => mret (mk_ids (<[flow_id := id_free s]> (id_next s)) (Some flow_id))
  end.

(** ** The flow hash table *)
Abbreviation ENTRIES := FLEXNIC_PL_FLOWHT_ENTRIES.
Abbreviation NBSZ := FLEXNIC_PL_FLOWHT_NBSZ.

Definition e_valid (e : flowhte) : bool := has_any (hte_flow_id e) FLEXNIC_PL_FLOWHTE_VALID.
(** The two bits that say how far from its hash's slot the entry is. *)
Definition e_pos (e : flowhte) : Z :=
  Z.land (Z.shiftr (hte_flow_id e) FLEXNIC_PL_FLOWHTE_POSSHIFT) (NBSZ - 1).
Definition e_fid (e : flowhte) : Z :=
  Z.land (hte_flow_id e) (Z.shiftl 1 FLEXNIC_PL_FLOWHTE_POSSHIFT - 1).
Definition mk_fid (d fid : Z) : Z :=
  u32 (Z.lor (Z.lor FLEXNIC_PL_FLOWHTE_VALID (Z.shiftl d FLEXNIC_PL_FLOWHTE_POSSHIFT)) fid).

(** The loops [for (i = ...; i != stop; i = (i + 1) % ENTRIES)] that look for a
    free slot: the slot with the count of steps, or the end. *)
Fixpoint scan_empty (fuel : nat) (ht : gmap Z flowhte) (i stop d : Z) : outcome (option (Z * Z)) :=
  match fuel with
  | O => Stop OutOfFuel
  | S fuel =>
      if i =? stop then mret None
      else if negb (e_valid (hte_at ht i)) then mret (Some (i, d))
      else scan_empty fuel ht (u32 (i + 1) mod ENTRIES) stop (u32 (d + 1))
  end.

(** The search for an entry that may move up to the free slot [k]. *)
Fixpoint scan_move (fuel : nat) (ht : gmap Z flowhte) (i k : Z) : outcome (option Z) :=
  match fuel with
  | O => Stop OutOfFuel
  | S fuel =>
      if i =? k then mret None
      else
        _ ← c_assert (e_valid (hte_at ht i));
        let d := u32 (NBSZ - 1 - e_pos (hte_at ht i)) in
        if u32 (k - i) mod ENTRIES <=? d then mret (Some i)
        else scan_move fuel ht (u32 (i + 1) mod ENTRIES) k
  end.

(** Moving the entry [i] to the free slot [k]; its position bits are copied. *)
Definition move_up (ht : gmap Z flowhte) (i k : Z) : gmap Z flowhte :=
  let e := hte_at ht i in
  let ht := <[k := mk_hte (mk_fid (e_pos e) (e_fid e)) (hte_flow_hash e)]> ht in
  <[i := mk_hte 0 (hte_flow_hash e)]> ht.

(** The condition of the [while] loop: [i] is not one of the slots from [j] to
    before [l]. *)
Definition out_of_range (i j l : Z) : bool :=
  ((j >? l) || ((i <? j) || (i >=? l))) && ((j <? l) || ((i >=? l) && (i <? j))).

Fixpoint displace (fuel : nat) (ht : gmap Z flowhte) (i j l : Z)
  : outcome (option Z * gmap Z flowhte) :=
  match fuel with
  | O => Stop OutOfFuel
  | S fuel =>
      if out_of_range i j l then
        let k := i in
        m ← scan_move 8 ht (u32 (k - NBSZ) mod ENTRIES) k;
        match m with
        | None => mret (None, ht)
        | Some i =>
            _ ← c_assert (negb (e_valid (hte_at ht k)));
            displace fuel (move_up ht i k) i j l
        end
      else mret (Some i, ht)
  end.

(** The result is the slot and its distance from the hash's slot, or [None] for
    -1. The scans pass at most [NBSZ] and [4 * NBSZ] slots. *)
Definition flow_slot_alloc (ht : gmap Z flowhte) (h : Z) : outcome (option (Z * Z) * gmap Z flowhte) :=
  let j := h mod ENTRIES in
  let l := u32 (j + NBSZ) mod ENTRIES in
  r ← scan_empty 8 ht j l 0;
  match r with
  | Some (i, d) => mret (Some (i, d), ht)
  | None =>
      let k := u32 (l + 4 * NBSZ) mod ENTRIES in
      r ← scan_empty 32 ht l k 0;
      match r with
      | None => mret (None, ht)
      | Some (i, _) =>
          '(r, ht) ← displace 32 ht i j l;
          match r with
          | None => mret (None, ht)
          | Some i => mret (Some (i, u32 (i - j) mod ENTRIES), ht)
          end
      end
  end.

(** The probes [j, ..., j + n - 1] of [flow_slot_clear]. *)
Fixpoint clear_from (n : nat) (ht : gmap Z flowhte) (h f_id j : Z) : Z * gmap Z flowhte :=
  match n with
  | O => (-1, ht)
  | S n =>
      let k := u32 (h + j) mod ENTRIES in
      let e := hte_at ht k in
      if negb (e_valid e) || negb (hte_flow_hash e =? h) then clear_from n ht h f_id (j + 1)
      else if e_fid e =? f_id then
        (0, <[k := mk_hte (Z.land (hte_flow_id e) (u32 (Z.lnot FLEXNIC_PL_FLOWHTE_VALID)))
                     (hte_flow_hash e)]> ht)
      else clear_from n ht h f_id (j + 1)
  end.

(** ** The state of the NIC interface

    [ni_mem] holds the flow states and the hash table shared with the fast path;
    [ni_appctx] the application context registers of all cores. The queues and
    buffer addresses are one per core; [ni_shm] is the DMA region. *)
Record nicif := mk_nicif {
  ni_mem : fp_mem;
  ni_ids : flow_ids;
  ni_appst : gmap Z (list Z);
  ni_appctx : gmap (Z * Z) (Z * appctx);
  ni_cores : Z;
  ni_rxq : list rdma_queue;
  ni_rxq_bufs : list (list Z);
  ni_rxq_next : Z;
  ni_txq : list rdma_queue;
  ni_txq_bufs : list (list Z);
  ni_shm : list Z;
  ni_woken : list Z;
}.
#[export] Instance eta_nicif : Eta nicif := fun s =>
  mk_nicif (ni_mem s) (ni_ids s) (ni_appst s) (ni_appctx s) (ni_cores s) (ni_rxq s) (ni_rxq_bufs s)
    (ni_rxq_next s) (ni_txq s) (ni_txq_bufs s) (ni_shm s) (ni_woken s).

Definition set_flow (s : nicif) (id : Z) (fs : flowst) : nicif :=
  s <| ni_mem := put_flow (ni_mem s) id fs |>.
Definition set_ht (s : nicif) (ht : gmap Z flowhte) : nicif :=
  s <| ni_mem := (ni_mem s) <| flowht := ht |> |>.

Section Nicif.
(** [rte_hash_crc] of DPDK: the CRC of bytes from an initial value. *)
Context (rte_hash_crc : list Z -> Z -> Z).

(** [flow_hash]: the CRC of the packed key, in network byte order. *)
Definition flow_hash (lip rip lp rp : Z) : Z :=
  rte_hash_crc (be_bytes 4 lip ++ be_bytes 4 rip ++ be_bytes 2 lp ++ be_bytes 2 rp) 0.

Definition NICIF_CONN_ECN : Z := 4.

(** A flow state that was never written: zeroes. *)
Definition queue_null : rdma_queue :=
  RdmaQueue.mk_queue 0 0 0 0 (mk_endpoint 0 0 0 0) (mk_endpoint 0 0 0 0) false false [].
Definition flowst0 : flowst :=
  mk_flowst 0 queue_null 0 queue_null 0 0 0 0 0 0 0 0 0 0 0 0 0 0 0 0 0 0 0 0 0 0 0.

(** The fields [nicif_connection_add] writes; the others keep what the previous
    flow with this id left. *)
Definition init_flow (fs : flowst) (db mac_remote ip_local port_local ip_remote port_remote : Z)
  (rx tx : rdma_queue) (remote_seq local_seq app_opaque flags rate flow_group_ remote_avail : Z) : flowst :=
  let rx_fl := if has_all flags NICIF_CONN_ECN then FLEXNIC_PL_FLOWST_ECN else 0 in
  let fs := fs <| opaque := app_opaque |> <| rx_flags := rx_fl |> in
  let fs := fs <| fs_rx := rx |> <| fs_tx := tx |> in
  let fs := fs <| remote_mac := mac_remote mod 2 ^ 48 |> <| db_id := u16 db |> in
  let fs := fs <| local_ip := ip_local |> <| remote_ip := ip_remote |> in
  let fs := fs <| local_port := port_local |> <| remote_port := port_remote |> in
  let fs := fs <| flow_group := flow_group_ |> <| lock := 0 |> <| bump_seq := 0 |> in
  let fs := fs <| rx_next_seq := remote_seq |> <| rx_remote_avail := remote_avail |> in
  let fs := fs <| tx_sent := 0 |> <| tx_next_seq := local_seq |> <| tx_next_ts := 0 |> in
  fs <| tx_rate := rate |> <| rtt_est := 0 |>.

Definition nicif_connection_add (s : nicif)
  (db mac_remote ip_local port_local ip_remote port_remote : Z) (rx tx : rdma_queue)
  (remote_seq local_seq app_opaque flags rate flow_group_ : Z) : outcome (option Z * nicif) :=
  '(f, ids) ← flow_id_alloc (ni_ids s);
  match f with
  | None => mret (None, s)
  | Some f_id =>
      let hash := flow_hash ip_local ip_remote port_local port_remote in
      '(slot, ht) ← flow_slot_alloc (flowht (ni_mem s)) hash;
      let s := set_ht s ht in
      match slot with
      | None =>
          ids ← flow_id_free ids f_id;
          mret (None, s <| ni_ids := ids |>)
      | Some (i, d) =>
          _ ← c_assert (i <? ENTRIES);
          _ ← c_assert (d <? NBSZ);
          _ ← c_assert (ep_addr (RdmaQueue.tx rx) =? self rx);
          _ ← c_assert (ep_addr (RdmaQueue.rx tx) =? self tx);
          remote_avail ← rq_nbytes_empty rx;
          let fs := init_flow (default flowst0 (flowst_ (ni_mem s) !! f_id)) db mac_remote
                      ip_local port_local ip_remote port_remote rx tx remote_seq local_seq
                      app_opaque flags rate flow_group_ (u32 remote_avail) in
          let s := set_flow s f_id fs in
          let s := set_ht s (<[i := mk_hte (mk_fid d f_id) hash]> ht) in
          mret (Some f_id, s <| ni_ids := ids |>)
      end
  end.

Definition flow_slot_clear (ht : gmap Z flowhte) (f_id lip lp rip rp : Z) : Z * gmap Z flowhte :=
  clear_from (Z.to_nat NBSZ) ht (flow_hash lip rip lp rp) f_id 0.

(** The result is [tx_seq], [rx_seq], [tx_closed] and [rx_closed]. *)
Definition nicif_connection_disable (s : nicif) (f_id : Z) : outcome (Z * Z * bool * bool * nicif) :=
  fs ← get_flow (ni_mem s) f_id;
  fs ← fs_lock fs;
  let fs := fs <| rx_flags := Z.lor (rx_flags fs) FLEXNIC_PL_FLOWST_SLOWPATH |> in
  let rx_closed := has_any (rx_flags fs) FLEXNIC_PL_FLOWST_RXFIN in
  let tx_closed := has_any (rx_flags fs) FLEXNIC_PL_FLOWST_TXFIN && (tx_sent fs =? 0) in
  let s := set_flow s f_id (fs_unlock fs) in
  let '(_, ht) := flow_slot_clear (flowht (ni_mem s)) f_id (local_ip fs) (local_port fs)
                    (remote_ip fs) (remote_port fs) in
  mret (tx_next_seq fs, rx_next_seq fs, tx_closed, rx_closed, set_ht s ht).

Definition nicif_connection_free (s : nicif) (f_id : Z) : outcome nicif :=
  ids ← flow_id_free (ni_ids s) f_id; mret (s <| ni_ids := ids |>).

Definition nicif_connection_move (s : nicif) (dst_db f_id : Z) : outcome nicif :=
  fs ← get_flow (ni_mem s) f_id;
  mret (set_flow s f_id (fs <| db_id := u16 dst_db |>)).

Record nicif_connection_stats_ := mk_stats {
  c_drops : Z; c_acks : Z; c_ackb : Z; c_ecnb : Z; txp : bool; rtt : Z;
}.
Definition nicif_connection_stats (s : nicif) (f_id : Z) : outcome (option nicif_connection_stats_) :=
  if f_id >=? FLEXNIC_PL_FLOWST_NUM then mret None
  else
    fs ← get_flow (ni_mem s) f_id;
    mret (Some (mk_stats (cnt_tx_drops fs) (cnt_rx_acks fs) (cnt_rx_ack_bytes fs)
                  (cnt_rx_ecn_bytes fs) (negb (tx_sent fs =? 0)) (rtt_est fs))).

Definition nicif_connection_setrate (s : nicif) (f_id rate : Z) : outcome (Z * nicif) :=
  if f_id >=? FLEXNIC_PL_FLOWST_NUM then mret (-1, s)
  else
    fs ← get_flow (ni_mem s) f_id;
    mret (0, set_flow s f_id (fs <| tx_rate := rate |>)).

(** ** Application contexts *)
Definition nicif_appctx_add (s : nicif) (appid db : Z) (rx tx : list rdma_queue) : outcome (Z * nicif) :=
  if appid >=? FLEXNIC_PL_APPST_NUM then mret (-1, s)
  else
    let ctxs := default [] (ni_appst s !! appid) in
    if Z.of_nat (length ctxs) + 1 >=? FLEXNIC_PL_APPST_CTX_NUM then mret (-1, s)
    else
      if (Z.of_nat (length rx) <? ni_cores s) || (Z.of_nat (length tx) <? ni_cores s)
         || ((0 <? ni_cores s) && (db >=? FLEXNIC_PL_APPCTX_NUM))
      then Stop OutOfBounds
      else
        let regs := imap (fun i q => ((Z.of_nat i, db), (appid, mk_appctx (fst q) (snd q) true)))
                      (zip (take (Z.to_nat (ni_cores s)) tx) (take (Z.to_nat (ni_cores s)) rx)) in
        mret (0, s <| ni_appctx := list_to_map regs ∪ ni_appctx s |>
                   <| ni_appst := <[appid := ctxs ++ [db]]> (ni_appst s) |>).

(** ** Kernel queues *)
Context {L : Type} `{RdmaLink L}.

Definition nth_core {A} (l : list A) (core : Z) : outcome A :=
  if core <? 0 then Stop OutOfBounds
  else match l !! Z.to_nat core with Some a => Ok a | None => Stop OutOfBounds end.
Definition set_txq (s : nicif) (core : Z) (q : rdma_queue) : nicif :=
  s <| ni_txq := <[Z.to_nat core := q]> (ni_txq s) |>.

(** Reserve, enqueue and flush one entry for core [core]; -1 when there is no
    room. [rq_flush(...) < sizeof(ktx)] compares unsigned. *)
Definition send_ktx (s : nicif) (l : L) (core : Z) (e : ktx_entry) : outcome (Z * nicif * L) :=
  q ← nth_core (ni_txq s) core;
  '(rv, q, l) ← rq_try_reserve_flush q l SIZEOF_KTX;
  if negb (rv =? 1) then _ ← c_assert (rv =? 0); mret (-1, set_txq s core q, l)
  else
    '(rv, q, l) ← rq_try_enqueue q l (Some (encode_ktx e)) SIZEOF_KTX;
    if negb (rv =? 0) then _ ← c_assert (rv <? 0); Stop Aborted
    else
      '(rv, q, l) ← rq_flush q l;
      if u64 rv <? SIZEOF_KTX then _ ← c_assert (rv <? 0); Stop Aborted
      else mret (0, (set_txq s core q) <| ni_woken := ni_woken s ++ [core] |>, l).

Definition nicif_connection_retransmit (s : nicif) (l : L) (f_id flow_group_ : Z)
  : outcome (Z * nicif * L) :=
  core ← nth_core (flow_group_steering (ni_mem s)) flow_group_;
  send_ktx s l core (KtxConnretran f_id).

(** [nicif_get_rxbuf] and [nicif_get_txbuf]: the index of the buffer that belongs
    to the queue entry at the offset; the code gets its address, which is within
    the array or its end, and only reads the buffer later. *)
Definition nicif_get_buf (off : Z) : outcome Z :=
  let offset := i32 off in
  _ ← c_assert (u64 offset mod SIZEOF_KTX =? 0);
  mret (u64 offset / SIZEOF_KTX).

Definition nicif_tx_send (s : nicif) (l : L) (to_send : list Z) (no_ts : bool)
  : outcome (Z * nicif * L) :=
  let len := Z.of_nat (length to_send) in
  q ← nth_core (ni_txq s) 0;
  empty ← rq_nbytes_empty q;
  if empty <? SIZEOF_KTX then mret (-1, s, l)
  else
    bufs ← nth_core (ni_txq_bufs s) 0;
    buf ← nicif_get_buf (tx_off q);
    addr ← nth_core bufs buf;
    shm ← mem_write (ni_shm s) addr to_send;
    send_ktx (s <| ni_shm := shm |>) l 0
      (if no_ts then KtxPacketNots addr len else KtxPacket addr len).

(** Who gets a packet from the fast path: [tcp_rv] is what [tcp_packet] returns. *)
Inductive handed := ToArp | ToTcp | ToKni.

Definition SIZEOF_PKT_ARP : Z := 42.
Definition process_packet (buf : list Z) (len tcp_rv : Z) : list handed :=
  let type := eth_type (p_eth (pkt_of_bytes buf)) in
  if type =? ETH_TYPE_ARP then
    if len <? SIZEOF_PKT_ARP then [] else [ToArp; ToKni]
  else if type =? ETH_TYPE_IP then
    if len <? SIZEOF_ETH_HDR + SIZEOF_IP_HDR then []
    else if ip_proto (p_ip (pkt_of_bytes buf)) =? IP_PROTO_TCP then
      if len <? SIZEOF_ETH_HDR + SIZEOF_IP_HDR + SIZEOF_TCP_HDR then []
      else if negb (tcp_rv =? 0) then [ToTcp; ToKni] else [ToTcp]
    else [ToKni]
  else [ToKni].

(** The result is 0 with the packet taken (its bytes, length, core and flow
    group), or -1 when the queue is empty. *)
Definition rxq_poll (s : nicif) : outcome (Z * option (list Z * Z * Z * Z) * nicif) :=
  let core := ni_rxq_next s in
  q ← nth_core (ni_rxq s) core;
  if ni_cores s =? 0 then Stop DivByZero
  else
    let s := s <| ni_rxq_next := u32 (core + 1) mod ni_cores s |> in
    bufs ← nth_core (ni_rxq_bufs s) core;
    buf ← nicif_get_buf (rx_off q);
    '(rv, d, q) ← rq_try_dequeue q true SIZEOF_KRX;
    if negb (rv =? 0) then _ ← c_assert (rv >? 0); mret (-1, None, s)
    else
      let s := s <| ni_rxq := <[Z.to_nat core := q]> (ni_rxq s) |> in
      let krx := decode_krx d in
      if krx_type krx =? FLEXTCP_PL_KRX_PACKET then
        addr ← nth_core bufs buf;
        mret (0, Some (drop (Z.to_nat addr) (ni_shm s), krx_len krx, krx_fn_core krx, krx_flow_group krx), s)
      else mret (0, None, s).

Fixpoint poll_rounds (n : nat) (s : nicif) : outcome (Z * list (list Z * Z * Z * Z) * nicif) :=
  match n with
  | O => mret (0, [], s)
  | S n =>
      '(x, p, s) ← rxq_poll s;
      '(ret, ps, s) ← poll_rounds n s;
      mret ((if x =? -1 then 0 else 1) + ret, option_list p ++ ps, s)
  end.
Definition nicif_poll (s : nicif) := poll_rounds 512 s.

End Nicif.

(** ** Entries *)
Lemma mk_fid_sum d f : 0 <= d < 4 -> 0 <= f < 536870912 ->
  mk_fid d f = 2147483648 + d * 536870912 + f.
Proof.
  intros Hd Hf. unfold mk_fid, FLEXNIC_PL_FLOWHTE_VALID, FLEXNIC_PL_FLOWHTE_POSSHIFT.
  assert (Z.lor 2147483648 (Z.shiftl d 29) = Z.shiftl (4 + d) 29) as ->.
  { assert (d = 0 \/ d = 1 \/ d = 2 \/ d = 3) as [->|[->|[->| ->]]] by lia; reflexivity. }
  rewrite Z.lor_comm, lor_shiftl by (simpl; lia). rewrite u32_small; simpl; lia.
Qed.

Lemma e_mk_fid d f h : 0 <= d < 4 -> 0 <= f < 536870912 ->
  e_valid (mk_hte (mk_fid d f) h) = true /\ e_pos (mk_hte (mk_fid d f) h) = d /\
  e_fid (mk_hte (mk_fid d f) h) = f.
Proof.
  intros Hd Hf. unfold e_valid, e_pos, e_fid, has_any. cbn [hte_flow_id]. rewrite mk_fid_sum by done.
  unfold FLEXNIC_PL_FLOWHTE_POSSHIFT, FLEXNIC_PL_FLOWHT_NBSZ, FLEXNIC_PL_FLOWHTE_VALID.
  split_and!.
  - apply negb_true_iff, Z.eqb_neq. intros E.
    assert (Z.testbit (2147483648 + d * 536870912 + f) 31 = true) as Ht.
    { apply Z.testbit_true; [lia|]. change (2 ^ 31) with 2147483648.
      replace ((2147483648 + d * 536870912 + f) / 2147483648) with 1; [done|].
      apply Z.div_unique with (d * 536870912 + f); lia. }
    apply (f_equal (fun z => Z.testbit z 31)) in E. rewrite Z.land_spec, Ht in E. by vm_compute in E.
  - rewrite Z.shiftr_div_pow2 by lia. change (2 ^ 29) with 536870912.
    replace ((2147483648 + d * 536870912 + f) / 536870912) with (4 + d)
      by (apply Z.div_unique with f; lia).
    change (4 - 1) with (Z.ones 2). rewrite Z.land_ones by lia.
    change (2 ^ 2) with 4. Z.div_mod_to_equations. lia.
  - change (Z.shiftl 1 29 - 1) with (Z.ones 29). rewrite Z.land_ones by lia.
    change (2 ^ 29) with 536870912. Z.div_mod_to_equations. lia.
Qed.

Lemma e_range e : 0 <= e_pos e < 4 /\ 0 <= e_fid e < 536870912.
Proof.
  unfold e_pos, e_fid. change (FLEXNIC_PL_FLOWHT_NBSZ - 1) with (Z.ones 2).
  change (Z.shiftl 1 FLEXNIC_PL_FLOWHTE_POSSHIFT - 1) with (Z.ones 29).
  rewrite !Z.land_ones by lia. split; apply Z.mod_pos_bound; lia.
Qed.

Lemma e_zero h : e_valid (mk_hte 0 h) = false.
Proof. reflexivity. Qed.

(** ** Slots *)
Definition slot (j s : Z) : Z := (j + s) mod ENTRIES.

Lemma u32_mod_entries x : u32 x mod ENTRIES = x mod ENTRIES.
Proof.
  unfold u32, FLEXNIC_PL_FLOWHT_ENTRIES, FLEXNIC_PL_FLOWST_NUM.
  symmetry. apply Znumtheory.Zmod_div_mod; [lia|lia|]. exists 16384. reflexivity.
Qed.
Lemma slot_range j s : 0 <= slot j s < ENTRIES.
Proof. apply Z.mod_pos_bound. done. Qed.
Lemma slot_add j s n : (slot j s + n) mod ENTRIES = slot j (s + n).
Proof. unfold slot. rewrite Zplus_mod_idemp_l. f_equal. lia. Qed.
Lemma slot_step j s n : u32 (slot j s + n) mod ENTRIES = slot j (s + n).
Proof. by rewrite u32_mod_entries, slot_add. Qed.
Lemma slot_sub j s t : 0 <= t - s < ENTRIES -> (slot j t - slot j s) mod ENTRIES = t - s.
Proof.
  intros. unfold slot. rewrite <- Zminus_mod. replace (j + t - (j + s)) with (t - s) by lia.
  by apply Z.mod_small.
Qed.
Lemma slot_eq j s t : 0 <= t - s < ENTRIES -> slot j s = slot j t <-> s = t.
Proof.
  intros Hr. split; [|by intros ->]. intros E.
  pose proof (slot_sub j s t Hr) as Hs. rewrite E, Z.sub_diag in Hs. change (0 mod ENTRIES) with 0 in Hs. lia.
Qed.
Lemma slot_zero j : slot j 0 = j mod ENTRIES.
Proof. unfold slot. f_equal. lia. Qed.

Lemma hte_at_insert ht k e i :
  hte_at (<[k := e]> ht) i = if decide (i = k) then e else hte_at ht i.
Proof.
  unfold hte_at. destruct (decide (i = k)) as [->|]; [by rewrite lookup_insert_eq|by rewrite lookup_insert_ne].
Qed.

(** The scan stops at the first free slot. *)
Lemma scan_empty_ok ht j t : forall fuel s d,
  0 <= t - s < Z.of_nat fuel -> t - s < ENTRIES -> 0 <= d -> d + (t - s) < 4294967296 ->
  exists r, scan_empty fuel ht (slot j s) (slot j t) d = Ok r /\
    match r with
    | None => forall x, s <= x < t -> e_valid (hte_at ht (slot j x)) = true
    | Some (i, d') => exists x, s <= x < t /\ i = slot j x /\ d' = d + (x - s) /\
        e_valid (hte_at ht (slot j x)) = false /\
        forall y, s <= y < x -> e_valid (hte_at ht (slot j y)) = true
    end.
Proof.
  induction fuel as [|fuel IH]; intros s d Hf He Hd Hdm; [lia|]. cbn [scan_empty].
  destruct (Z.eqb_spec (slot j s) (slot j t)) as [E|E].
  - apply slot_eq in E as ->; [|lia]. exists None. split; [done|]. intros. lia.
  - assert (s <> t) by (by intros ->).
    destruct (e_valid (hte_at ht (slot j s))) eqn:Hv; osimpl.
    + rewrite slot_step, u32_small by lia.
      destruct (IH (s + 1) (d + 1)) as (r & -> & Hr); [lia..|]. exists r. split; [done|].
      destruct r as [[i d']|].
      * destruct Hr as (x & ? & -> & -> & ? & Hb). exists x. split_and!; [lia|lia|done|lia|done|].
        intros y Hy. destruct (decide (y = s)) as [->|]; [done|apply Hb; lia].
      * intros x Hx. destruct (decide (x = s)) as [->|]; [done|apply Hr; lia].
    + exists (Some (slot j s, d)). split; [done|]. exists s. split_and!; [lia|lia|done|lia|done|]. lia.
Qed.

(** The scan for a movable entry below the free slot [t]. *)
Lemma scan_move_ok ht j t : forall fuel s,
  0 <= t - s < Z.of_nat fuel -> t - s <= 4 ->
  (forall x, s <= x < t -> e_valid (hte_at ht (slot j x)) = true) ->
  exists r, scan_move fuel ht (slot j s) (slot j t) = Ok r /\
    match r with
    | None => True
    | Some i => exists x, s <= x < t /\ i = slot j x /\ e_pos (hte_at ht (slot j x)) + (t - x) < 4
    end.
Proof.
  induction fuel as [|fuel IH]; intros s Hf He Hv; [lia|]. cbn [scan_move].
  assert (4 < ENTRIES) by done.
  destruct (Z.eqb_spec (slot j s) (slot j t)) as [E|E]; [by exists None|].
  assert (s <> t) by (by intros ->).
  rewrite bind_assert_true by (apply Hv; lia). rewrite u32_mod_entries, slot_sub by lia.
  pose proof (e_range (hte_at ht (slot j s))) as [He1 _].
  unfold FLEXNIC_PL_FLOWHT_NBSZ. rewrite u32_small by lia.
  destruct (Z.leb_spec (t - s) (4 - 1 - e_pos (hte_at ht (slot j s)))).
  - exists (Some (slot j s)). split; [done|]. exists s. split_and!; [lia|lia|done|lia].
  - rewrite slot_step. destruct (IH (s + 1)) as (r & -> & Hr); [lia|lia|intros; apply Hv; lia|].
    exists r. split; [done|]. destruct r as [i|]; [|done].
    destruct Hr as (x & ? & -> & ?). exists x. split_and!; [lia|lia|done|done].
Qed.

Lemma out_of_range_slot j t : 0 <= j < ENTRIES -> 0 <= t < 64 ->
  out_of_range (slot j t) j (slot j 4) = (4 <=? t).
Proof.
  intros Hj Ht. unfold out_of_range.
  assert (forall s, 0 <= s < 64 -> slot j s = if j + s <? ENTRIES then j + s else j + s - ENTRIES) as Hs.
  { intros s Hs. unfold slot. destruct (Z.ltb_spec (j + s) ENTRIES); [by apply Z.mod_small; lia|].
    apply mod_sub_once. unfold FLEXNIC_PL_FLOWHT_ENTRIES, FLEXNIC_PL_FLOWST_NUM in *. lia. }
  rewrite !Hs by lia. unfold FLEXNIC_PL_FLOWHT_ENTRIES, FLEXNIC_PL_FLOWST_NUM in *. bsplit; lia.
Qed.

(** ** The table *)

(** Every live entry is one of the slots its hash is looked up in; and it knows
    which. *)
Definition reachable (ht : gmap Z flowhte) : Prop := forall i, 0 <= i < ENTRIES ->
  e_valid (hte_at ht i) = true -> (i - hte_flow_hash (hte_at ht i)) mod ENTRIES < NBSZ.
Definition tagged (ht : gmap Z flowhte) : Prop := forall i, 0 <= i < ENTRIES ->
  e_valid (hte_at ht i) = true -> (i - hte_flow_hash (hte_at ht i)) mod ENTRIES = e_pos (hte_at ht i).

(** The hash and the flow id of the live entries. *)
Definition stored (ht : gmap Z flowhte) (h fid : Z) : Prop := exists i, 0 <= i < ENTRIES /\
  e_valid (hte_at ht i) = true /\ hte_flow_hash (hte_at ht i) = h /\ e_fid (hte_at ht i) = fid.

Lemma tagged_reachable ht : tagged ht -> reachable ht.
Proof. intros Ht i Hi Hv. rewrite Ht by done. apply e_range. Qed.

Lemma move_up_at ht i k x : i <> k ->
  hte_at (move_up ht i k) x =
    if decide (x = i) then mk_hte 0 (hte_flow_hash (hte_at ht i))
    else if decide (x = k) then
      mk_hte (mk_fid (e_pos (hte_at ht i)) (e_fid (hte_at ht i))) (hte_flow_hash (hte_at ht i))
    else hte_at ht x.
Proof. intros. unfold move_up. cbv zeta. rewrite !hte_at_insert. by repeat case_decide. Qed.

Lemma move_up_stored ht i k h fid :
  0 <= i < ENTRIES -> 0 <= k < ENTRIES -> i <> k ->
  e_valid (hte_at ht i) = true -> e_valid (hte_at ht k) = false ->
  stored (move_up ht i k) h fid <-> stored ht h fid.
Proof.
  intros Hi Hk Hne Hvi Hvk. destruct (e_range (hte_at ht i)) as [Hr1 Hr2].
  destruct (e_mk_fid (e_pos (hte_at ht i)) (e_fid (hte_at ht i)) (hte_flow_hash (hte_at ht i)) Hr1 Hr2)
    as (Hm1 & _ & Hm3).
  split; intros (x & Hx & Hv & Hh & Hf).
  - rewrite move_up_at in Hv, Hh, Hf by done. destruct (decide (x = i)); [done|].
    destruct (decide (x = k)) as [->|].
    + exists i. rewrite Hm3 in Hf. done.
    + by exists x.
  - destruct (decide (x = i)) as [->|].
    + exists k. rewrite move_up_at, decide_False, decide_True by done. rewrite Hm3. done.
    + exists x. rewrite move_up_at, decide_False, decide_False by (done || intros ->; congruence). done.
Qed.

(** The loop invariant: the slots before [t] hold live entries that know their
    position, [t] is free. *)
Record hole (ht : gmap Z flowhte) (j t : Z) : Prop := {
  ho_below : forall s, 0 <= s < t -> e_valid (hte_at ht (slot j s)) = true /\
    (slot j s - hte_flow_hash (hte_at ht (slot j s))) mod ENTRIES = e_pos (hte_at ht (slot j s));
  ho_free : e_valid (hte_at ht (slot j t)) = false;
  ho_reach : reachable ht;
}.

Lemma hole_move ht j t s : 0 <= s < t -> t - s <= 4 -> t < 64 ->
  hole ht j t -> e_pos (hte_at ht (slot j s)) + (t - s) < 4 ->
  hole (move_up ht (slot j s) (slot j t)) j s.
Proof.
  intros Hs Hts Ht [Hb Hf Hr] Hp.
  assert (forall x y, 0 <= x -> x < y -> y < 64 -> slot j x <> slot j y) as Hne.
  { intros x y Hx Hy Hy' E. apply slot_eq in E;
      unfold FLEXNIC_PL_FLOWHT_ENTRIES, FLEXNIC_PL_FLOWST_NUM in *; lia. }
  assert (slot j s <> slot j t) as Hst by (apply Hne; lia).
  destruct (e_range (hte_at ht (slot j s))) as [Hr1 Hr2].
  destruct (e_mk_fid _ _ (hte_flow_hash (hte_at ht (slot j s))) Hr1 Hr2) as (Hm1 & Hm2 & _).
  split.
  - intros x Hx. rewrite move_up_at, decide_False, decide_False by (done || apply Hne; lia).
    apply Hb. lia.
  - by rewrite move_up_at, decide_True.
  - intros i Hi. rewrite move_up_at by done. destruct (decide (i = slot j s)); [done|].
    destruct (decide (i = slot j t)) as [->|]; [|by apply Hr].
    intros _. cbn [hte_flow_hash]. destruct (Hb s Hs) as [_ Htag].
    set (h := hte_flow_hash (hte_at ht (slot j s))) in *.
    replace (slot j t - h) with ((slot j t - slot j s) + (slot j s - h)) by lia.
    rewrite Zplus_mod, slot_sub, Htag by (unfold FLEXNIC_PL_FLOWHT_ENTRIES, FLEXNIC_PL_FLOWST_NUM in *; lia).
    unfold FLEXNIC_PL_FLOWHT_NBSZ, FLEXNIC_PL_FLOWHT_ENTRIES, FLEXNIC_PL_FLOWST_NUM in *.
    rewrite Z.mod_small; lia.
Qed.

Lemma displace_ok j : 0 <= j < ENTRIES -> forall fuel ht t,
  hole ht j t -> 0 <= t < Z.of_nat fuel -> t < 64 ->
  exists r ht', displace fuel ht (slot j t) j (slot j 4) = Ok (r, ht') /\ reachable ht' /\
    (forall h f, stored ht' h f <-> stored ht h f) /\
    match r with
    | None => True
    | Some i => exists t', 0 <= t' < 4 /\ i = slot j t' /\ e_valid (hte_at ht' i) = false
    end.
Proof.
  intros Hj. induction fuel as [|fuel IH]; intros ht t Ho Hf Ht; [lia|]. cbn [displace].
  rewrite out_of_range_slot by lia. destruct (Z.leb_spec 4 t).
  2: { exists (Some (slot j t)), ht. split_and!; [done|by apply Ho|done|].
       exists t. split_and!; [lia|lia|done|by apply Ho]. }
  cbv zeta. unfold FLEXNIC_PL_FLOWHT_NBSZ.
  replace (slot j t - 4) with (slot j t + (-4)) by lia. rewrite slot_step.
  destruct (scan_move_ok ht j t 8 (t + -4)) as (m & -> & Hm); [lia|lia| |].
  { intros x Hx. apply (ho_below _ _ _ Ho). lia. }
  osimpl. destruct m as [i|]; [|exists None, ht; split_and!; [done|by apply Ho|done|done]].
  destruct Hm as (s & Hs & -> & Hp).
  rewrite bind_assert_true by by rewrite (ho_free _ _ _ Ho).
  pose proof (hole_move ht j t s ltac:(lia) ltac:(lia) ltac:(lia) Ho Hp) as Ho'.
  destruct (IH _ s Ho' ltac:(lia) ltac:(lia)) as (r & ht' & -> & Hr & Hst & Hres).
  exists r, ht'. split_and!; [done|done| |done]. intros h f. rewrite Hst.
  apply move_up_stored; try apply slot_range; [| |apply Ho].
  - rewrite slot_eq; [lia|unfold FLEXNIC_PL_FLOWHT_ENTRIES, FLEXNIC_PL_FLOWST_NUM; lia].
  - apply (ho_below _ _ _ Ho). lia.
Qed.

(** One of the entries in which [h] is looked up is free. *)
Definition free_near (ht : gmap Z flowhte) (h : Z) : Prop :=
  exists x, 0 <= x < NBSZ /\ e_valid (hte_at ht (slot (h mod ENTRIES) x)) = false.

Lemma slot_dist h x : 0 <= x < 4 -> (slot (h mod ENTRIES) x - h) mod ENTRIES = x.
Proof.
  intros Hx. unfold slot. rewrite Zminus_mod, Zplus_mod_idemp_l, Z.mod_mod, <- Zminus_mod by done.
  replace (h + x - h) with x by lia. apply Z.mod_small. unfold FLEXNIC_PL_FLOWHT_ENTRIES, FLEXNIC_PL_FLOWST_NUM. lia.
Qed.

(** Then it is taken, and nothing is moved. *)
Lemma flow_slot_alloc_free ht h : free_near ht h ->
  exists i d, flow_slot_alloc ht h = Ok (Some (i, d), ht) /\ 0 <= i < ENTRIES /\ 0 <= d < NBSZ /\
    (i - h) mod ENTRIES = d /\ e_valid (hte_at ht i) = false.
Proof.
  intros (y & Hy & Hfree). set (j := h mod ENTRIES) in *.
  assert (0 <= j < ENTRIES) as Hj by (apply Z.mod_pos_bound; done). unfold flow_slot_alloc. fold j.
  replace (u32 (j + NBSZ) mod ENTRIES) with (slot j 4) by (by rewrite u32_mod_entries).
  destruct (scan_empty_ok ht j 4 8 0 0) as (r & Hscan & Hres);
    [lia|unfold FLEXNIC_PL_FLOWHT_ENTRIES, FLEXNIC_PL_FLOWST_NUM; lia|lia|lia|].
  rewrite slot_zero in Hscan. rewrite Z.mod_small in Hscan by done. rewrite Hscan. osimpl.
  unfold FLEXNIC_PL_FLOWHT_NBSZ in *. destruct r as [[i d]|].
  - destruct Hres as (x & Hx & -> & -> & Hv & _). exists (slot j x), (0 + (x - 0)).
    replace (0 + (x - 0)) with x by lia.
    split_and!; [done|apply slot_range|apply slot_range|lia|lia|by apply slot_dist|done].
  - exfalso. rewrite (Hres y) in Hfree by lia. done.
Qed.

Lemma flow_slot_alloc_ok ht h :
  tagged ht -> 0 <= h < 4294967296 ->
  exists r ht', flow_slot_alloc ht h = Ok (r, ht') /\ reachable ht' /\
    (forall h' f, stored ht' h' f <-> stored ht h' f) /\
    match r with
    | None => True
    | Some (i, d) => 0 <= i < ENTRIES /\ 0 <= d < NBSZ /\ (i - h) mod ENTRIES = d /\
                     e_valid (hte_at ht' i) = false
    end.
Proof.
  intros Ht Hh. pose proof (tagged_reachable ht Ht) as Hr. set (j := h mod ENTRIES).
  assert (0 <= j < ENTRIES) as Hj by (apply Z.mod_pos_bound; done).
  assert (forall s, 0 <= s < 4 -> (slot j s - h) mod ENTRIES = s) as Hd.
  { intros s Hs. unfold slot, j. rewrite Zminus_mod, Zplus_mod_idemp_l, Z.mod_mod, <- Zminus_mod by done.
    replace (h + s - h) with s by lia. apply Z.mod_small.
    unfold FLEXNIC_PL_FLOWHT_ENTRIES, FLEXNIC_PL_FLOWST_NUM. lia. }
  unfold flow_slot_alloc. fold j. replace (u32 (j + NBSZ) mod ENTRIES) with (slot j 4)
    by (by rewrite u32_mod_entries).
  destruct (scan_empty_ok ht j 4 8 0 0) as (r & Hscan & Hres);
    [lia|unfold FLEXNIC_PL_FLOWHT_ENTRIES, FLEXNIC_PL_FLOWST_NUM; lia|lia|lia|].
  rewrite slot_zero in Hscan. rewrite Z.mod_small in Hscan by done. rewrite Hscan. osimpl.
  destruct r as [[i d]|].
  { destruct Hres as (x & Hx & -> & -> & Hv & _). exists (Some (slot j x, 0 + (x - 0))), ht.
    replace (0 + (x - 0)) with x by lia. unfold FLEXNIC_PL_FLOWHT_NBSZ.
    split_and!; [done|done|done|apply slot_range|apply slot_range|lia|lia|by apply Hd|done]. }
  replace (u32 (slot j 4 + 4 * NBSZ) mod ENTRIES) with (slot j 20)
    by (by rewrite slot_step).
  destruct (scan_empty_ok ht j 20 32 4 0) as (r2 & -> & Hres2);
    [lia|unfold FLEXNIC_PL_FLOWHT_ENTRIES, FLEXNIC_PL_FLOWST_NUM; lia|lia|lia|].
  osimpl. destruct r2 as [[i d]|]; [|exists None, ht; done].
  destruct Hres2 as (t & Hx & -> & _ & Hfree & Hbelow).
  assert (hole ht j t) as Ho.
  { split; [|done|done]. intros s Hs.
    assert (e_valid (hte_at ht (slot j s)) = true) as Hv.
    { destruct (Z.ltb_spec s 4); [apply Hres; lia|apply Hbelow; lia]. }
    split; [done|]. apply Ht; [apply slot_range|done]. }
  destruct (displace_ok j Hj 32 ht t Ho) as (r3 & ht' & -> & Hr' & Hst & Hres3); [lia|lia|].
  osimpl. destruct r3 as [i|]; [|by exists None, ht'].
  destruct Hres3 as (t' & Ht' & -> & Hv'). exists (Some (slot j t', t')), ht'.
  assert (u32 (slot j t' - j) mod ENTRIES = t') as ->.
  { rewrite u32_mod_entries. pose proof (slot_sub j 0 t') as Hs. rewrite slot_zero, (Z.mod_small j) in Hs by done.
    rewrite Hs; unfold FLEXNIC_PL_FLOWHT_ENTRIES, FLEXNIC_PL_FLOWST_NUM; lia. }
  unfold FLEXNIC_PL_FLOWHT_NBSZ.
  split_and!; [done|done|done|apply slot_range|apply slot_range|lia|lia|by apply Hd|done].
Qed.

Lemma flow_slot_alloc_cases ht h :
  reachable ht -> free_near ht h \/ tagged ht -> 0 <= h < 4294967296 ->
  exists r ht', flow_slot_alloc ht h = Ok (r, ht') /\ reachable ht' /\
    (forall h' f, stored ht' h' f <-> stored ht h' f) /\
    (free_near ht h -> r <> None /\ ht' = ht) /\
    match r with
    | None => True
    | Some (i, d) => 0 <= i < ENTRIES /\ 0 <= d < NBSZ /\ (i - h) mod ENTRIES = d /\
                     e_valid (hte_at ht' i) = false
    end.
Proof.
  intros Hr Ht Hh.
  assert (forall Hn : free_near ht h, exists i d, flow_slot_alloc ht h = Ok (Some (i, d), ht) /\ 0 <= i < ENTRIES /\
    0 <= d < NBSZ /\ (i - h) mod ENTRIES = d /\ e_valid (hte_at ht i) = false) as Hfree by apply flow_slot_alloc_free.
  destruct Ht as [Hn|Ht].
  - destruct (Hfree Hn) as (i & d & E & Hres). exists (Some (i, d)), ht.
    split; [done|]. split; [done|]. split; [done|]. split; [by split|exact Hres].
  - destruct (flow_slot_alloc_ok ht h Ht Hh) as (r & ht' & E & Hr' & Hst & Hres). exists r, ht'.
    split_and!; try done. intros Hn. destruct (Hfree Hn) as (i & d & E' & _). rewrite E in E'. by injection E' as -> ->.
Qed.

(** ** Both halves compute the same hash *)
Lemma le_value_app a b : le_value (a ++ b) = le_value a + 256 ^ Z.of_nat (length a) * le_value b.
Proof.
  induction a as [|x a IH]; [simpl; lia|]. simpl le_value. rewrite IH, length_cons, Nat2Z.inj_succ, Z.pow_succ_r by lia.
  lia.
Qed.

Lemma be_bytes_bswap16 x : 0 <= x < 65536 -> le_value (be_bytes 2 x) = bswap16 x /\ 0 <= bswap16 x < 65536.
Proof.
  intros Hx. unfold bswap16. change 0xff with (Z.ones 8). rewrite Z.land_ones, Z.shiftr_div_pow2 by lia.
  change (2 ^ 8) with 256.
  rewrite Z.lor_comm, lor_shiftl by (simpl; Z.div_mod_to_equations; lia).
  unfold be_bytes, u8. cbn [le_bytes rev app le_value]. change (2 ^ 8) with 256.
  unfold u8. split; Z.div_mod_to_equations; lia.
Qed.

Lemma be_bytes_bswap32 x : 0 <= x < 4294967296 ->
  le_value (be_bytes 4 x) = bswap32 x /\ 0 <= bswap32 x < 4294967296.
Proof.
  intros Hx. unfold bswap32. change 0xffff with (Z.ones 16). rewrite Z.land_ones, Z.shiftr_div_pow2 by lia.
  change (2 ^ 16) with 65536.
  destruct (be_bytes_bswap16 (x mod 65536)) as [E1 H1]; [Z.div_mod_to_equations; lia|].
  destruct (be_bytes_bswap16 (x / 65536)) as [E2 H2]; [Z.div_mod_to_equations; lia|].
  rewrite Z.lor_comm, lor_shiftl by (simpl; lia). change (2 ^ 16) with 65536.
  split; [|lia]. rewrite <- E1, <- E2.
  unfold be_bytes, u8. cbn [le_bytes rev app le_value]. unfold u8. Z.div_mod_to_equations. lia.
Qed.

Lemma be_bytes_app_bswap n a b x y :
  le_value a = x -> le_value b = y -> length a = n -> 0 <= x < 2 ^ (8 * Z.of_nat n) ->
  le_value (a ++ b) = Z.lor x (Z.shiftl y (8 * Z.of_nat n)).
Proof.
  intros <- <- <- Hx. rewrite lor_shiftl, le_value_app by (done || lia).
  rewrite (Z.pow_mul_r 2 8) by lia. change (2 ^ 8) with 256. lia.
Qed.

(** ** Lookup after insertion *)
Section Lookup.
Context (rte_hash_crc : list Z -> Z -> Z) (crc4 crc8 : Z -> Z -> Z).
(** DPDK computes the CRC of 12 bytes as that of the first 8 and then of the
    last 4, taken as little-endian words. *)
Hypothesis rte_hash_crc_12 : forall b8 b4 init, length b8 = 8%nat -> length b4 = 4%nat ->
  rte_hash_crc (b8 ++ b4) init = crc4 (le_value b4) (crc8 (le_value b8) init).
Abbreviation hash := (FastFlows.flow_hash crc4 crc8).

Lemma flow_hash_agrees lip rip lp rp :
  0 <= lip < 4294967296 -> 0 <= rip < 4294967296 -> 0 <= lp < 65536 -> 0 <= rp < 65536 ->
  FlowTable.flow_hash rte_hash_crc lip rip lp rp = hash lip rip lp rp.
Proof.
  intros H1 H2 H3 H4. unfold FlowTable.flow_hash, FastFlows.flow_hash. rewrite (app_assoc (be_bytes 4 lip)).
  destruct (be_bytes_bswap32 lip H1) as [E1 R1], (be_bytes_bswap32 rip H2) as [E2 R2].
  destruct (be_bytes_bswap16 lp H3) as [E3 R3], (be_bytes_bswap16 rp H4) as [E4 R4].
  rewrite rte_hash_crc_12 by (by rewrite length_app, !length_be_bytes).
  rewrite (be_bytes_app_bswap 4 _ _ _ _ E1 E2), (be_bytes_app_bswap 2 _ _ _ _ E3 E4)
    by (done || apply length_be_bytes).
  rewrite u32_small; [done|]. change (8 * Z.of_nat 2) with 16. rewrite lor_shiftl by (simpl; lia). simpl. lia.
Qed.

(** The fast path's hash of the flow of a flow state. *)
Definition fs_hash (fs : flowst) : Z :=
  hash (local_ip fs) (remote_ip fs) (local_port fs) (remote_port fs).

(** Every live entry can be found, belongs to a flow that is set up, and has that
    flow's hash. *)
Record table_ok (m : fp_mem) : Prop := {
  tk_reach : reachable (flowht m);
  tk_flow h f : stored (flowht m) h f -> exists fs, get_flow m f = Ok fs /\ fs_hash fs = h;
}.

Lemma probe_slot ht h j fid : probe ht h j = Some fid <->
  e_valid (hte_at ht (slot h j)) = true /\ hte_flow_hash (hte_at ht (slot h j)) = h /\
  e_fid (hte_at ht (slot h j)) = fid.
Proof.
  unfold probe. rewrite u32_mod_entries. fold (slot h j). unfold e_valid, e_fid.
  destruct (has_any _ _); simpl; [|by split; [|intros [? _]]].
  destruct (Z.eqb_spec (hte_flow_hash (hte_at ht (slot h j))) h); simpl.
  - split; [by intros [= <-]|by intros (_ & _ & <-)].
  - by split; [|intros (_ & ? & _)].
Qed.

Lemma stored_probe ht h fid : reachable ht -> stored ht h fid ->
  exists j, 0 <= j < 4 /\ probe ht h j = Some fid.
Proof.
  intros Hr (i & Hi & Hv & Hh & Hf). exists ((i - h) mod ENTRIES).
  pose proof (Hr i Hi Hv) as Hd. rewrite Hh in Hd. unfold FLEXNIC_PL_FLOWHT_NBSZ in Hd.
  pose proof (Z.mod_pos_bound (i - h) ENTRIES ltac:(done)).
  split; [lia|]. apply probe_slot.
  assert (slot h ((i - h) mod ENTRIES) = i) as ->; [|done].
  unfold slot. rewrite Zplus_mod_idemp_r. replace (h + (i - h)) with i by lia. by apply Z.mod_small.
Qed.

Lemma probe_stored ht h j fid : probe ht h j = Some fid -> stored ht h fid.
Proof. intros (? & ? & ?)%probe_slot. exists (slot h j). split; [apply slot_range|done]. Qed.

(** The fast path finds a stored flow that alone has the packet's addresses. *)
Lemma fss_finds m p f fs :
  table_ok m -> stored (flowht m) (fs_hash fs) f -> get_flow m f = Ok fs -> fs_matches fs p = true ->
  (forall h f' fs', stored (flowht m) h f' -> get_flow m f' = Ok fs' -> fs_matches fs' p = true -> f' = f) ->
  fast_flows_packet_fss crc4 crc8 m p = Ok (Some f).
Proof.
  intros [Hr Hfl] Hst Hget Hm Huniq.
  assert (hash (ip_dest (p_ip p)) (ip_src (p_ip p)) (tcp_dest (p_tcp p)) (tcp_src (p_tcp p)) = fs_hash fs) as Eh.
  { unfold fs_matches in Hm. bprop. unfold fs_hash. congruence. }
  destruct (probe_from_spec crc4 crc8 m p 4 0) as (r & Hpr & Hres).
  { intros i fid _ Hp. apply probe_stored, Hfl in Hp as (fs' & ? & _). eauto. }
  unfold fast_flows_packet_fss. change (Z.to_nat FLEXNIC_PL_FLOWHT_NBSZ) with 4%nat. rewrite Hpr.
  destruct r as [f'|].
  - destruct Hres as (i & fs' & _ & Hp & Hg & Hm'). do 2 f_equal.
    apply probe_stored in Hp. by eapply Huniq.
  - destruct (stored_probe _ _ _ Hr Hst) as (j & Hj & Hp). rewrite <- Eh in Hp.
    by rewrite (Hres j f fs ltac:(lia) Hp Hget) in Hm.
Qed.

Lemma get_put_flow m id fs : 0 <= id < FLEXNIC_PL_FLOWST_NUM -> get_flow (put_flow m id fs) id = Ok fs.
Proof.
  intros. unfold get_flow, put_flow. rewrite (proj2 (Z.leb_le _ _)), (proj2 (Z.ltb_lt _ _)) by lia.
  simpl. by rewrite lookup_insert_eq.
Qed.
Lemma get_put_flow_ne m id id' fs : id' <> id -> get_flow (put_flow m id fs) id' = get_flow m id'.
Proof. intros. unfold get_flow, put_flow. simpl. by rewrite lookup_insert_ne. Qed.

Lemma stored_insert ht i d f h h' f' :
  0 <= i < ENTRIES -> 0 <= d < 4 -> 0 <= f < 536870912 -> e_valid (hte_at ht i) = false ->
  stored (<[i := mk_hte (mk_fid d f) h]> ht) h' f' <-> (h' = h /\ f' = f) \/ stored ht h' f'.
Proof.
  intros Hi Hd Hf Hv. destruct (e_mk_fid d f h Hd Hf) as (Hm1 & _ & Hm3). split.
  - intros (x & Hx & Hvx & Hh & Hfx). rewrite hte_at_insert in Hvx, Hh, Hfx. case_decide.
    + left. split; [by rewrite <- Hh|by rewrite <- Hfx, Hm3].
    + right. by exists x.
  - intros [[-> ->]|(x & Hx & Hvx & Hh & Hfx)].
    + exists i. by rewrite hte_at_insert, decide_True, Hm3.
    + exists x. rewrite hte_at_insert, decide_False; [done|]. intros ->. congruence.
Qed.

Lemma tagged_insert ht i d f h :
  tagged ht -> 0 <= d < 4 -> 0 <= f < 536870912 -> (i - h) mod ENTRIES = d ->
  tagged (<[i := mk_hte (mk_fid d f) h]> ht).
Proof.
  intros Hr Hd Hf Hi x Hx. rewrite hte_at_insert. case_decide as E; [|by apply Hr].
  intros _. destruct (e_mk_fid d f h Hd Hf) as (_ & -> & _). cbn [hte_flow_hash]. by rewrite E, Hi.
Qed.

Lemma reachable_insert ht i d f h :
  reachable ht -> 0 <= d < 4 -> 0 <= f < 536870912 -> (i - h) mod ENTRIES = d ->
  reachable (<[i := mk_hte (mk_fid d f) h]> ht).
Proof.
  intros Hr Hd Hf Hi x Hx. rewrite hte_at_insert. case_decide as E; [|by apply Hr].
  intros _. cbn [hte_flow_hash]. rewrite E, Hi. unfold FLEXNIC_PL_FLOWHT_NBSZ. lia.
Qed.


End Lookup.

(** ** The flow id allocator hands out every id once *)
Fixpoint id_chain (next : gmap Z (option Z)) (h : option Z) (l : list Z) : Prop :=
  match l with
  | [] => h = None
  | x :: l => h = Some x /\ exists nx, next !! x = Some nx /\ id_chain next nx l
  end.

(** The allocator with the ids its client holds; only these are given back. *)
Inductive fid_step : flow_ids * list Z -> flow_ids * list Z -> Prop :=
| step_alloc s held f s' : flow_id_alloc s = Ok (Some f, s') -> fid_step (s, held) (s', f :: held)
| step_free s h1 f h2 s' : flow_id_free s f = Ok s' -> fid_step (s, h1 ++ f :: h2) (s', h1 ++ h2).

Lemma id_chain_insert next h l x v : x ∉ l -> id_chain next h l -> id_chain (<[x := v]> next) h l.
Proof.
  revert h. induction l as [|y l IH]; intros h Hx; [done|]. simpl.
  intros (-> & nx & Hn & Hc). apply not_elem_of_cons in Hx as [? ?]. split; [done|].
  exists nx. rewrite lookup_insert_ne by done. auto.
Qed.

Definition ids_inv (num : Z) (s : flow_ids) (held : list Z) : Prop :=
  exists l, id_chain (id_next s) (id_free s) l /\ held ++ l ≡ₚ seqZ 0 num /\
    forall f, 0 <= f < num -> is_Some (id_next s !! f).

Lemma link_items_chain n i num next :
  num = i + Z.of_nat n ->
  id_chain (link_items n i num next) (if i <? num then Some i else None) (seqZ i (num - i)) /\
  (forall f, i <= f < num -> is_Some (link_items n i num next !! f)) /\
  (forall f, f < i -> link_items n i num next !! f = next !! f).
Proof.
  revert i next. induction n as [|n IH]; intros i next Hn.
  - rewrite Z.ltb_irrefl || (replace (i <? num) with false by (symmetry; apply Z.ltb_ge; lia)).
    rewrite seqZ_nil by lia. split_and!; [done|intros; lia|done].
  - cbn [link_items]. destruct (IH (i + 1) (<[i := if i + 1 <? num then Some (i + 1) else None]> next)
      ltac:(lia)) as (Hc & Hin & Hlt).
    rewrite (proj2 (Z.ltb_lt i num)), (seqZ_cons i) by lia.
    assert (link_items n (i + 1) num (<[i := if i + 1 <? num then Some (i + 1) else None]> next) !! i
      = Some (if i + 1 <? num then Some (i + 1) else None)) as Hi
      by (rewrite Hlt by lia; apply lookup_insert_eq).
    split_and!.
    + split; [done|]. eexists; split; [exact Hi|].
      by replace (Z.pred (num - i)) with (num - (i + 1)) by lia.
    + intros f Hf. destruct (Z.eq_dec f i) as [->|]; [by rewrite Hi|]. apply Hin; lia.
    + intros f Hf. rewrite Hlt by lia. apply lookup_insert_ne. lia.
Qed.

Lemma ids_inv_init num : 0 <= num -> ids_inv num (flow_id_alloc_init num) [].
Proof.
  intros. destruct (link_items_chain (Z.to_nat num) 0 num ∅ ltac:(lia)) as (Hc & Hin & _).
  exists (seqZ 0 num). rewrite Z.sub_0_r in Hc. split_and!; [exact Hc|done|]. intros; by apply Hin.
Qed.

Lemma ids_inv_alloc num s held f s' :
  ids_inv num s held -> flow_id_alloc s = Ok (Some f, s') -> ids_inv num s' (f :: held).
Proof.
  intros (l & Hc & Hp & Hd) Ha. unfold flow_id_alloc in Ha.
  destruct l as [|x l]; simpl in Hc; [by rewrite Hc in Ha|].
  destruct Hc as (E & nx & En & Hc). rewrite E, En in Ha. injection Ha as <- <-.
  exists l. split_and!; [done| |done]. rewrite <- Hp. simpl. by rewrite Permutation_middle.
Qed.

Lemma ids_inv_free num s h1 f h2 s' :
  ids_inv num s (h1 ++ f :: h2) -> flow_id_free s f = Ok s' -> ids_inv num s' (h1 ++ h2).
Proof.
  intros (l & Hc & Hp & Hd) Ha. unfold flow_id_free in Ha.
  destruct (id_next s !! f) eqn:En; [|done]. injection Ha as <-.
  assert (NoDup ((h1 ++ f :: h2) ++ l)) as Hnd by (rewrite Hp; apply NoDup_seqZ).
  rewrite <- app_assoc in Hnd. simpl in Hnd. rewrite <- Permutation_middle in Hnd.
  apply NoDup_cons in Hnd as [Hf _]. rewrite !elem_of_app in Hf.
  exists (f :: l). split_and!.
  - split; [done|]. exists (id_free s). simpl. rewrite lookup_insert_eq. split; [done|].
    apply id_chain_insert; [tauto|done].
  - rewrite <- Hp, <- !app_assoc. apply Permutation_app_head. simpl. symmetry. apply Permutation_middle.
  - intros g Hg. simpl. destruct (decide (f = g)) as [->|].
    + rewrite lookup_insert_eq. eauto.
    + rewrite lookup_insert_ne by done. by apply Hd.
Qed.

Lemma ids_inv_run num s held s' held' :
  ids_inv num s held -> rtc fid_step (s, held) (s', held') -> ids_inv num s' held'.
Proof.
  intros Hi Hr. remember (s, held) as a eqn:Ea. remember (s', held') as b eqn:Eb.
  revert s held Ea Hi. induction Hr as [|a b c Hs Hr IH]; intros s0 h0 Ea Hi; subst.
  - by injection Ea as <- <-.
  - inversion Hs; subst; eapply IH; eauto using ids_inv_alloc, ids_inv_free.
Qed.

(** Whatever ids are handed out and given back, no id is held twice, every
    held id is below the size of the table and can be given back, an allocation
    succeeds, with an id nobody holds, exactly while some id is not held, and
    reports exhaustion without a change otherwise. *)
Theorem flow_ids_safe num s held :
  0 <= num -> rtc fid_step (flow_id_alloc_init num, []) (s, held) ->
  NoDup held /\ (forall f, f ∈ held -> 0 <= f < num /\ exists s', flow_id_free s f = Ok s') /\
  Z.of_nat (length held) <= num /\
  (Z.of_nat (length held) < num ->
     exists f s', flow_id_alloc s = Ok (Some f, s') /\ 0 <= f < num /\ f ∉ held) /\
  (Z.of_nat (length held) = num -> flow_id_alloc s = Ok (None, s)).
Proof.
  intros Hn Hr. destruct (ids_inv_run _ _ _ _ _ (ids_inv_init num Hn) Hr) as (l & Hc & Hp & Hd).
  assert (NoDup (held ++ l)) as Hnd by (rewrite Hp; apply NoDup_seqZ).
  assert (Z.of_nat (length held + length l) = num) as Hlen.
  { rewrite <- length_app, Hp, length_seqZ. lia. }
  assert (forall f, f ∈ held \/ f ∈ l -> 0 <= f < num) as Hrange.
  { intros f Hf. rewrite <- elem_of_app, Hp, elem_of_seqZ in Hf. lia. }
  apply NoDup_app in Hnd as (Hn1 & Hdis & _). split_and!; [done| |lia| |].
  - intros f Hf. assert (0 <= f < num) as Hf' by auto. split; [done|].
    destruct (Hd f Hf') as [v Ev]. unfold flow_id_free. rewrite Ev. eauto.
  - intros Hlt. destruct l as [|f l]; [simpl in Hlen; lia|]. destruct Hc as (E & nx & En & _).
    exists f. eexists. unfold flow_id_alloc. rewrite E, En. split; [reflexivity|].
    split; [apply Hrange; right; left|]. intros Hin. apply (Hdis f Hin). left.
  - intros Heq. destruct l as [|f l]; [|simpl in Hlen; lia]. unfold flow_id_alloc. by rewrite Hc.
Qed.

(** ** What a moved entry loses *)

(** Registering flows one after the other, as [nicif_connection_add] does: a slot
    is allocated for the hash and the entry written to it. *)
Fixpoint register_all (ht : gmap Z flowhte) (l : list (Z * Z)) : outcome (gmap Z flowhte) :=
  match l with
  | [] => mret ht
  | (h, f) :: l =>
      '(r, ht) ← flow_slot_alloc ht h;
      match r with
      | None => Stop Aborted
      | Some (i, d) => register_all (<[i := mk_hte (mk_fid d f) h]> ht) l
      end
  end.

Lemma probe_from_probe m h p n j f : probe_from m h p n j = Ok (Some f) ->
  exists k, j <= k < j + Z.of_nat n /\ probe (flowht m) h k = Some f.
Proof.
  revert j. induction n as [|n IH]; intros j; [done|]. cbn [probe_from].
  destruct (probe (flowht m) h j) as [g|] eqn:E.
  - destruct (get_flow m g) as [fs|]; [|done]. osimpl. destruct (fs_matches fs p).
    + intros [= <-]. exists j. split; [lia|done].
    + intros (k & ? & ?)%IH. exists k. split; [lia|done].
  - intros (k & ? & ?)%IH. exists k. split; [lia|done].
Qed.

(** An entry that [flow_slot_alloc] moves keeps the position bits of its
    old slot, so a later call takes it to be nearer to its hash's slot than it
    is and moves it out of reach. After these eight registrations in an empty
    table flow 4 is still in the table, and the fast path can find it in no
    state of the flows and for no packet with its hash. *)
Theorem flow_slot_alloc_stale_tag :
  exists ht, register_all ∅ [(97, 1); (97, 2); (97, 3); (100, 4); (102, 5); (103, 6); (97, 7); (98, 8)]
      = Ok ht /\ stored ht 100 4 /\
    forall crc4 crc8 m p, flowht m = ht ->
      FastFlows.flow_hash crc4 crc8 (ip_dest (p_ip p)) (ip_src (p_ip p)) (tcp_dest (p_tcp p))
        (tcp_src (p_tcp p)) = 100 ->
      fast_flows_packet_fss crc4 crc8 m p <> Ok (Some 4).
Proof.
  destruct (register_all ∅ _) as [ht|] eqn:E; [|vm_compute in E; discriminate E].
  exists ht. split; [done|]. vm_compute in E. injection E as E. split.
  - exists 104. subst ht. split_and!; [done|vm_compute; reflexivity..].
  - intros crc4 crc8 m p Em Eh Hf. unfold fast_flows_packet_fss in Hf. rewrite Eh in Hf.
    apply probe_from_probe in Hf as (k & Hk & Hp). rewrite Em in Hp.
    assert (k = 0 \/ k = 1 \/ k = 2 \/ k = 3) as Hk'
      by (change (Z.of_nat (Z.to_nat FLEXNIC_PL_FLOWHT_NBSZ)) with 4 in Hk; lia).
    subst ht. clear -Hp Hk'. by destruct Hk' as [->|[->|[->| ->]]]; vm_compute in Hp.
Qed.

(** ** The state of a new flow *)

(** A connection that is added gets the state the caller asks for, on the id
    at the head of the free list; its out-of-order interval, its count of
    duplicate acknowledgements and its statistics are those of the flow that had
    the id before. *)
Theorem nicif_connection_add_inherits rte_hash_crc s db mac lip lp rip rp rx tx rseq lseq opq flags rate fg f s' :
  nicif_connection_add rte_hash_crc s db mac lip lp rip rp rx tx rseq lseq opq flags rate fg = Ok (Some f, s') ->
  exists fs, flowst_ (ni_mem s') !! f = Some fs /\ id_free (ni_ids s) = Some f /\
    fs_rx fs = rx /\ fs_tx fs = tx /\
    (local_ip fs, local_port fs, remote_ip fs, remote_port fs) = (lip, lp, rip, rp) /\
    (rx_next_seq fs, tx_next_seq fs, tx_sent fs) = (rseq, lseq, 0) /\
    (lock fs, bump_seq fs, tx_rate fs, opaque fs) = (0, 0, rate, opq) /\
    let old := default flowst0 (flowst_ (ni_mem s) !! f) in
    (rx_ooo_start fs, rx_ooo_len fs, rx_dupack_cnt fs) = (rx_ooo_start old, rx_ooo_len old, rx_dupack_cnt old) /\
    (cnt_tx_drops fs, cnt_rx_acks fs, cnt_rx_ack_bytes fs, cnt_rx_ecn_bytes fs) =
    (cnt_tx_drops old, cnt_rx_acks old, cnt_rx_ack_bytes old, cnt_rx_ecn_bytes old) /\
    (forall g, g <> f -> flowst_ (ni_mem s') !! g = flowst_ (ni_mem s) !! g).
Proof.
  unfold nicif_connection_add. destruct (flow_id_alloc (ni_ids s)) as [[g ids]|] eqn:Ea; [|done]. osimpl.
  destruct g as [g|]; [|done].
  destruct (flow_slot_alloc _ _) as [[r ht]|]; [|done]. osimpl. destruct r as [[i d]|].
  2: { by destruct (flow_id_free ids g); osimpl. }
  destruct (i <? ENTRIES); [|done]. destruct (d <? NBSZ); [|done].
  destruct (ep_addr _ =? self rx); [|done]. destruct (ep_addr _ =? self tx); [|done]. osimpl.
  destruct (rq_nbytes_empty rx) as [av|]; [|done]. osimpl. intros [= <- <-].
  eexists. split; [apply lookup_insert_eq|]. split.
  { unfold flow_id_alloc in Ea. destruct (id_free (ni_ids s)) as [h|]; [|done].
    destruct (id_next (ni_ids s) !! h); [|done]. by injection Ea as -> _. }
  split_and!; try reflexivity. intros h Hh. simpl. by rewrite lookup_insert_ne.
Qed.

(** ** Kernel queues at the end of their ring *)
Lemma nth_core_end {A} (l : list A) : nth_core l (Z.of_nat (length l)) = Stop OutOfBounds.
Proof.
  unfold nth_core. destruct (Z.of_nat (length l) <? 0) eqn:E; [done|].
  by rewrite Nat2Z.id, lookup_ge_None_2.
Qed.

Section KernelQueues.
Context {L : Type} `{RdmaLink L}.

(** When the transmit offset of the kernel queue has reached the end of the
    ring, as it does after each round, and there is room, [nicif_tx_send] takes
    the buffer after the last one of the core instead of the first. *)
Theorem nicif_tx_send_ring_end s (l : L) to_send no_ts q bufs qs bs empty :
  ni_txq s = q :: qs -> ni_txq_bufs s = bufs :: bs ->
  tx_off q = buffer_size q -> 0 <= buffer_size q < 2147483648 ->
  buffer_size q = Z.of_nat (length bufs) * SIZEOF_KTX ->
  rq_nbytes_empty q = Ok empty -> SIZEOF_KTX <= empty ->
  nicif_tx_send s l to_send no_ts = Stop OutOfBounds.
Proof.
  intros Eq Eb Hoff Hr Hsz He Hroom. unfold nicif_tx_send. rewrite Eq, Eb.
  change (nth_core (q :: qs) 0) with (Ok q). change (nth_core (bufs :: bs) 0) with (Ok bufs).
  osimpl. rewrite He. osimpl.
  rewrite (proj2 (Z.ltb_ge _ _)) by done. osimpl.
  unfold nicif_get_buf, SIZEOF_KTX in *. rewrite Hoff, i32_small, u64_small by lia.
  rewrite Hsz, Z_mod_mult, Z.div_mul by lia. osimpl.
  change (0 =? 0) with true. osimpl. by rewrite nth_core_end.
Qed.

End KernelQueues.

(** ** Concrete states *)
Module Demo.

(** A queue of [n] entries of 64 bytes, its indices at [off]. *)
Definition kqueue (n off : Z) : rdma_queue :=
  RdmaQueue.mk_queue 4096 0 (n * SIZEOF_KTX) off (mk_endpoint 4096 off 0 0) (mk_endpoint 4096 off 0 0)
    false false (replicate (Z.to_nat (n * SIZEOF_KTX)) 0).

(** Four entries, the last one to be filled; 4 buffers of 16 bytes. *)
Definition s : nicif :=
  mk_nicif (mk_fp ∅ ∅ [] (mk_appctx (kqueue 4 0) (kqueue 4 0) true) ∅) (flow_id_alloc_init 2) ∅ ∅ 1
    [] [] 0 [kqueue 4 192] [[0; 16; 32; 48]] (replicate 64 0) [].

(** A hash with the step structure of the CRC. *)
Definition crc (w init : Z) : Z := (w + 31 * init) mod 4294967296.
Definition hash_crc (b : list Z) (init : Z) : Z :=
  crc (le_value (drop 8 b)) (crc (le_value (take 8 b)) init).

Lemma hash_crc_12 b8 b4 init : length b8 = 8%nat -> length b4 = 4%nat ->
  hash_crc (b8 ++ b4) init = crc (le_value b4) (crc (le_value b8) init).
Proof. intros H8 _. unfold hash_crc. by rewrite drop_app_length', take_app_length'. Qed.

Lemma s_table : table_ok crc crc (ni_mem s).
Proof. split; [by intros i ? [=]|]. intros h f (i & _ & [=] & _). Qed.

(** One connection is registered. *)
Definition s1 : nicif :=
  match nicif_connection_add hash_crc s 2 5 10 80 20 90 (kqueue 4 0) (kqueue 4 0) 7 8 9 0 100 1 with
  | Ok (_, s) => s | Stop _ => s
  end.
Definition h1 : Z := Eval vm_compute in FastFlows.flow_hash crc crc 10 20 80 90.
Definition i1 : Z := Eval vm_compute in h1 mod FLEXNIC_PL_FLOWHT_ENTRIES.
Lemma s1_flows : flowht (ni_mem s1) = {[ i1 := mk_hte (mk_fid 0 0) h1 ]}.
Proof. vm_compute. reflexivity. Qed.
Lemma s1_stored h f : stored (flowht (ni_mem s1)) h f <-> h = h1 /\ f = 0.
Proof.
  rewrite s1_flows. split.
  - intros (i & _ & Hv & Hh & Hf). unfold hte_at in *. destruct (decide (i = i1)) as [->|Hi].
    + rewrite lookup_singleton_eq in *. split; [by rewrite <- Hh|by rewrite <- Hf].
    + rewrite lookup_singleton_ne in Hv by done. discriminate Hv.
  - intros [-> ->]. exists i1. unfold hte_at. rewrite lookup_singleton_eq. by vm_compute.
Qed.
Lemma s1_table : table_ok crc crc (ni_mem s1).
Proof.
  split.
  - rewrite s1_flows. intros i Hi Hv. unfold hte_at in *. destruct (decide (i = i1)) as [->|Hne].
    + rewrite lookup_singleton_eq. by vm_compute.
    + rewrite lookup_singleton_ne in Hv by done. discriminate Hv.
  - intros h f [-> ->]%s1_stored. eexists. split; [vm_compute; reflexivity|by vm_compute].
Qed.
Lemma s1_near : free_near (flowht (ni_mem s1)) (FastFlows.flow_hash crc crc 10 20 80 91).
Proof. exists 3. split; [by vm_compute|]. by vm_compute. Qed.
End Demo.


Lemma nicif_connection_add_inherits_witness :
  exists s', nicif_connection_add Demo.hash_crc
      (set_flow Demo.s 0 (flowst0 <| rx_ooo_start := 1004 |> <| rx_ooo_len := 8 |>))
      2 5 10 80 20 90 (Demo.kqueue 4 0) (Demo.kqueue 4 0) 1000 8 9 0 100 1 = Ok (Some 0, s') /\
    exists fs, flowst_ (ni_mem s') !! 0 = Some fs /\ rx_next_seq fs = 1000 /\
      rx_ooo_start fs = 1004 /\ rx_ooo_len fs = 8.
Proof.
  destruct (nicif_connection_add Demo.hash_crc
      (set_flow Demo.s 0 (flowst0 <| rx_ooo_start := 1004 |> <| rx_ooo_len := 8 |>))
      2 5 10 80 20 90 (Demo.kqueue 4 0) (Demo.kqueue 4 0) 1000 8 9 0 100 1) as [[[f|] s']|e] eqn:E;
    [|vm_compute in E; discriminate E..].
  assert (f = 0) as -> by (vm_compute in E; congruence).
  exists s'. split; [reflexivity|].
  destruct (nicif_connection_add_inherits _ _ _ _ _ _ _ _ _ _ _ _ _ _ _ _ _ _ E)
    as (fs & Hf & _ & _ & _ & _ & Hs & _ & Ho & _).
  exists fs. split; [exact Hf|]. injection Hs as -> _ _. injection Ho as -> -> _. repeat split.
Defined.

Lemma flow_ids_safe_witness :
  exists s, rtc fid_step (flow_id_alloc_init 3, []) (s, [1]) /\ NoDup [1] /\
    exists f s', flow_id_alloc s = Ok (Some f, s') /\ 0 <= f < 3 /\ f ∉ [1].
Proof.
  eexists. assert (rtc fid_step (flow_id_alloc_init 3, [])
    (mk_ids {[ 0 := Some 2; 1 := Some 2; 2 := None ]} (Some 0), [1])) as Hr.
  { eapply rtc_l; [apply (step_alloc _ _ 0); vm_compute; reflexivity|].
    eapply rtc_l; [apply (step_alloc _ _ 1); vm_compute; reflexivity|].
    eapply rtc_l; [apply (step_free _ [1] 0 []); vm_compute; reflexivity|]. apply rtc_refl. }
  split; [exact Hr|]. destruct (flow_ids_safe 3 _ _ ltac:(lia) Hr) as (Hn & _ & _ & Ha & _).
  split; [exact Hn|]. apply Ha. simpl. lia.
Defined.

(** The send that fills the last entry succeeds; once it was taken from the
    queue, the next send is out of bounds. *)
Lemma nicif_tx_send_ring_end_witness :
  exists s' q d, nicif_tx_send Demo.s RdmaQueue.Demo.link [1; 2; 3] true = Ok (0, s', RdmaQueue.Demo.link) /\
    nth_core (ni_txq s') 0 ≫= (fun q => rq_try_dequeue q true SIZEOF_KTX) = Ok (0, d, q) /\
    nicif_tx_send (set_txq s' 0 q) RdmaQueue.Demo.link [4; 5; 6] true = Stop OutOfBounds.
Proof.
  destruct (nicif_tx_send Demo.s RdmaQueue.Demo.link [1; 2; 3] true) as [[[r s'] l]|e] eqn:E;
    [|vm_compute in E; discriminate E].
  vm_compute in E. injection E as <- <- <-.
  do 3 eexists. split; [reflexivity|]. split; [vm_compute; reflexivity|].
  eapply (nicif_tx_send_ring_end (L := RdmaQueue.peer) _ RdmaQueue.Demo.link [4; 5; 6] true);
    [reflexivity|reflexivity|reflexivity|vm_compute; split; congruence|reflexivity|reflexivity|vm_compute; congruence].
Defined.
