(* ===== verification/SlowState.v ===== *)
(** * The state of the slow path (tas_nic/slow/internal.h, tas_nic/include/config.h)

    The configuration and the connections, which congestion control (CongCtl) and
    the TCP slow path (TcpSlow) share. *)
From S2P Require Import Prelude RdmaQueue.

#[local] Open Scope Z_scope.

(** ** Configuration: the fields of [struct configuration] the slow path reads *)
Inductive config_cc_algorithm :=
| CONFIG_CC_DCTCP_WIN | CONFIG_CC_DCTCP_RATE | CONFIG_CC_TIMELY | CONFIG_CC_CONST_RATE.

Record config_route := mk_route { cr_ip : Z; cr_ip_prefix : Z; cr_next_hop_ip : Z }.

Record configuration := mk_config {
  tcp_rxbuf_len : Z;
  tcp_txbuf_len : Z;
  tcp_rtt_init : Z;
  tcp_link_bw : Z;
  tcp_handshake_to : Z;
  tcp_handshake_retries : Z;
  cf_ip : Z;
  cf_ip_prefix : Z;
  cf_nic_ip : Z;
  cf_routes : list config_route;
  arp_to : Z;
  arp_to_max : Z;
  cc_algorithm : config_cc_algorithm;
  cc_control_granularity : Z;
  cc_control_interval : Z;
  cc_rexmit_ints : Z;
  cc_dctcp_weight : Z;
  cc_dctcp_init : Z;
  cc_dctcp_step : Z;
  cc_dctcp_mimd : Z;
  cc_dctcp_min : Z;
  cc_dctcp_minpkts : Z;
  cc_const_rate : Z;
  cc_timely_tlow : Z;
  cc_timely_thigh : Z;
  cc_timely_step : Z;
  cc_timely_init : Z;
  cc_timely_alpha : Z;
  cc_timely_beta : Z;
  cc_timely_min_rtt : Z;
  cc_timely_min_rate : Z;
  cf_kni_name : bool;
}.

(** ** Connections *)
Inductive connection_status :=
| CONN_SYN_WAIT | CONN_ARP_PENDING | CONN_SYN_SENT | CONN_REG_SYNACK | CONN_OPEN | CONN_CLOSED | CONN_FAILED.
#[global] Instance status_eq_dec : EqDecision connection_status.
Proof. solve_decision. Defined.

Record connection_cc_dctcp_win := mk_dwin { dw_ecn_rate : Z; dw_window : Z; dw_slowstart : bool }.
Record connection_cc_dctcp_rate := mk_drate {
  dr_unproc_acks : Z; dr_unproc_ackb : Z; dr_unproc_ecnb : Z; dr_unproc_drops : Z;
  dr_ecn_rate : Z; dr_act_rate : Z; dr_slowstart : bool;
}.
Record connection_cc_timely := mk_timely {
  tl_rtt_prev : Z; tl_rtt_diff : Z; tl_hai_cnt : Z; tl_act_rate : Z; tl_last_ts : Z; tl_slowstart : bool;
}.
#[export] Instance eta_dwin : Eta connection_cc_dctcp_win := fun d =>
  mk_dwin (dw_ecn_rate d) (dw_window d) (dw_slowstart d).
#[export] Instance eta_drate : Eta connection_cc_dctcp_rate := fun d =>
  mk_drate (dr_unproc_acks d) (dr_unproc_ackb d) (dr_unproc_ecnb d) (dr_unproc_drops d)
    (dr_ecn_rate d) (dr_act_rate d) (dr_slowstart d).
#[export] Instance eta_timely : Eta connection_cc_timely := fun t =>
  mk_timely (tl_rtt_prev t) (tl_rtt_diff t) (tl_hai_cnt t) (tl_act_rate t) (tl_last_ts t) (tl_slowstart t).

(** The congestion control fields of [struct connection]. Of the union [cc] one
    variant is in use, as the algorithm is fixed by the configuration. *)
Record connection_cc := mk_cc {
  cc_last_ts : Z;
  cc_rtt : Z;
  cc_last_drops : Z;
  cc_last_acks : Z;
  cc_last_ackb : Z;
  cc_last_ecnb : Z;
  cc_rate : Z;
  cc_rexmits : Z;
  cc_dctcp_win : connection_cc_dctcp_win;
  cc_timely : connection_cc_timely;
  cc_dctcp_rate : connection_cc_dctcp_rate;
  cnt_tx_pending : Z;
  ts_tx_pending : Z;
  cc_next : option Z;
}.
#[export] Instance eta_cc : Eta connection_cc := fun c =>
  mk_cc (cc_last_ts c) (cc_rtt c) (cc_last_drops c) (cc_last_acks c) (cc_last_ackb c)
    (cc_last_ecnb c) (cc_rate c) (cc_rexmits c) (cc_dctcp_win c) (cc_timely c) (cc_dctcp_rate c)
    (cnt_tx_pending c) (ts_tx_pending c) (cc_next c).

(** [struct connection]. Its queues are embedded. Its timer [to], its completion
    [comp] and the field [remote_mac] are known by the address of the connection to
    the timer lists and to ARP (Arp), which keep their contents. *)
Record connection := mk_conn {
  cn_opaque : Z;
  cn_ctx : Z;
  cn_app_next : option Z;
  cn_db_id : Z;
  cn_rx_handle : Z;
  cn_tx_handle : Z;
  cn_rx : rdma_queue;
  cn_tx : rdma_queue;
  cn_remote_ip : Z;
  cn_local_ip : Z;
  cn_remote_port : Z;
  cn_local_port : Z;
  cn_status : connection_status;
  cn_remote_seq : Z;
  cn_local_seq : Z;
  cn_syn_ts : Z;
  cn_timeout : Z;
  cn_to_attempts : Z;
  cn_to_armed : bool;
  cn_cc : connection_cc;
  ht_next : option Z;
  cn_flow_id : Z;
  cn_fn_core : Z;
  cn_flags : Z;
  cn_flow_group : Z;
}.
#[export] Instance eta_conn : Eta connection := fun c =>
  mk_conn (cn_opaque c) (cn_ctx c) (cn_app_next c) (cn_db_id c) (cn_rx_handle c) (cn_tx_handle c)
    (cn_rx c) (cn_tx c) (cn_remote_ip c) (cn_local_ip c) (cn_remote_port c)
    (cn_local_port c) (cn_status c) (cn_remote_seq c) (cn_local_seq c) (cn_syn_ts c) (cn_timeout c)
    (cn_to_attempts c) (cn_to_armed c) (cn_cc c) (ht_next c) (cn_flow_id c)
    (cn_fn_core c) (cn_flags c) (cn_flow_group c).

(** The memory of the connections, by address. *)
Abbreviation conn_heap := (gmap Z connection).
Definition get_conn (h : conn_heap) (p : Z) : outcome connection :=
  match h !! p with Some c => Ok c | None => Stop OutOfBounds end.

(** [struct kernel_statistics] *)
Record kernel_statistics := mk_kstats { ks_drops : Z; ks_kernel_rexmit : Z; ks_ecn_marked : Z; ks_acks : Z }.
#[export] Instance eta_kstats : Eta kernel_statistics := fun k =>
  mk_kstats (ks_drops k) (ks_kernel_rexmit k) (ks_ecn_marked k) (ks_acks k).
