(* ===== verification/CongCtl.v ===== *)
(** * Congestion control (tas_nic/slow/cc.c)

    The slow path runs a control loop for every open connection, at most once per
    control interval: it reads the counters of the fast path, computes a rate with
    one of four algorithms, looks for flows that do not move, and sets the rate.
    The connections are in a list that each poll walks on from where the last one
    stopped. *)
From S2P Require Import Prelude RdmaQueue FlowState FastCtx FlowTable SlowState.

#[local] Open Scope Z_scope.

Definition CONF_MSS : Z := 1400.

Definition c_div (a b : Z) : outcome Z := if b =? 0 then Stop DivByZero else mret (a / b).

(** ** Window-based DCTCP *)

Definition window_to_rate (cfg : configuration) (window rtt : Z) : outcome Z :=
  time ← c_div (u64 (u64 (window * 8) * 1000)) (tcp_link_bw cfg);
  let time := time / 1000 in
  let time := if time <? u32 (rtt * 1000) then u32 (rtt * 1000) else time in
  _ ← c_assert (negb (time =? 0));
  let rate := u64 (u64 (window * 8) * 1000000) / time in
  let rate := if rate >? UINT32_MAX then UINT32_MAX else rate in
  mret (u32 rate).

Definition dctcp_win_init (cfg : configuration) (c : connection_cc) : outcome connection_cc :=
  let window := 2 * CONF_MSS in
  rate ← window_to_rate cfg window (tcp_rtt_init cfg);
  let c := c <| cc_rate := rate |> in
  mret (c <| cc_dctcp_win := mk_dwin 0 window true |>).

(** The moving average of the share of marked bytes, in units of [UINT32_MAX]. *)
Definition ecn_ewma (weight old c_ecnb c_ackb : Z) : outcome Z :=
  ecn_rate ← c_div (u64 (c_ecnb * UINT32_MAX)) c_ackb;
  let ecn_rate := u64 (u64 (ecn_rate * weight) + u64 (old * u32 (UINT32_MAX - weight))) in
  mret (u32 (ecn_rate / UINT32_MAX)).

(** [stats->c_ecnb] is at most [stats->c_ackb], and the average is updated. *)
Definition ecn_update (weight old c_ecnb c_ackb : Z) : outcome (Z * Z) :=
  if c_ackb >? 0 then
    let c_ecnb := if c_ecnb <=? c_ackb then c_ecnb else c_ackb in
    e ← ecn_ewma weight old c_ecnb c_ackb;
    mret (c_ecnb, e)
  else mret (c_ecnb, old).

(** The block under [if (!cc->slowstart)]. The result is the window and the
    average. *)
Definition win_avoidance (cfg : configuration) (win ecn_rate rexmits : Z)
  (stats : nicif_connection_stats_) : outcome (Z * Z) :=
  if (c_drops stats >? 0) || (rexmits >? 0) then mret (win / 2, ecn_rate)
  else
    '(ecnb, ecn_rate) ← ecn_update (cc_dctcp_weight cfg) ecn_rate (c_ecnb stats) (c_ackb stats);
    if ecnb >? 0 then
      mret (u32 (u64 (win * u32 (UINT32_MAX - ecn_rate / 2)) / UINT32_MAX), ecn_rate)
    else
      _ ← c_assert (negb (win =? 0));
      incr ← c_div (u64 (c_ackb stats * CONF_MSS)) win;
      mret (if u32 (win + incr) >? win then u32 (win + incr) else win, ecn_rate).

Definition dctcp_win_update (cfg : configuration) (tx_buffer_size : Z) (c : connection_cc)
  (stats : nicif_connection_stats_) : outcome connection_cc :=
  let cc := cc_dctcp_win c in
  let win := dw_window cc in
  _ ← c_assert (win >=? CONF_MSS);
  let rtt := if rtt stats =? 0 then tcp_rtt_init cfg else rtt stats in
  let calm := (c_drops stats =? 0) && (c_ecnb stats =? 0) && (cc_rexmits c =? 0) in
  let win := if dw_slowstart cc && calm && (u32 (win + c_ackb stats) >? win)
             then u32 (win + c_ackb stats) else win in
  let slowstart := dw_slowstart cc && calm in
  '(win, ecn_rate) ← (if slowstart then mret (win, dw_ecn_rate cc)
                      else win_avoidance cfg win (dw_ecn_rate cc) (cc_rexmits c) stats);
  let win := if win <? CONF_MSS then CONF_MSS else win in
  let win := if win >? tx_buffer_size then u32 tx_buffer_size else win in
  rate ← window_to_rate cfg win rtt;
  _ ← c_assert (win >=? CONF_MSS);
  let c := c <| cc_rtt := rtt |> in
  let c := c <| cc_rate := rate |> in
  let c := c <| cc_dctcp_win := mk_dwin ecn_rate win slowstart |> in
  mret (c <| cc_rexmits := 0 |>).

(** ** Rate-based DCTCP *)

Definition dctcp_rate_init (cfg : configuration) (c : connection_cc) : connection_cc :=
  let c := c <| cc_rate := cc_dctcp_init cfg |> in
  c <| cc_dctcp_rate := mk_drate 0 0 0 0 0 (dr_act_rate (cc_dctcp_rate c)) true |>.

(** [act_rate]: the rate since the last update, from bytes and microseconds, and
    its moving average. The results are the larger of both and the average. *)
Definition actual_rate (ackb cur_ts last avg : Z) : outcome (Z * Z) :=
  act ← (if negb (last =? 0) then c_div (u32 (u32 (ackb * 8) * 1000)) (u32 (cur_ts - last)) else mret 0);
  let avg := u32 (u32 (7 * avg) + act) / 8 in
  mret (if act >=? avg then act else avg, avg).

Definition clamp_used (rate act_rate : Z) : Z :=
  if rate >? act_rate * 12 / 10 then act_rate * 12 / 10 else rate.

Definition rate_avoidance (cfg : configuration) (rate ecn_rate rexmits c_drops c_ecnb c_ackb : Z)
  : outcome (Z * Z) :=
  if (c_drops >? 0) || (rexmits >? 0) then mret (rate / 2, ecn_rate)
  else
    '(ecnb, ecn_rate) ← ecn_update (cc_dctcp_weight cfg) ecn_rate c_ecnb c_ackb;
    mret (if ecnb >? 0 then u32 (u64 (rate * u32 (UINT32_MAX - ecn_rate / 2)) / UINT32_MAX)
          else if cc_dctcp_mimd cfg =? 0 then u32 (rate + cc_dctcp_step cfg)
          else u32 (rate + u64 (rate * cc_dctcp_mimd cfg) / UINT32_MAX), ecn_rate).

Definition dctcp_rate_update (cfg : configuration) (c : connection_cc)
  (stats : nicif_connection_stats_) (cur_ts : Z) : outcome connection_cc :=
  let cc := cc_dctcp_rate c in
  let rtt := if rtt stats =? 0 then tcp_rtt_init cfg else rtt stats in
  let c := c <| cc_rtt := rtt |> in
  let c_ecnb := u32 (dr_unproc_ecnb cc + c_ecnb stats) in
  let c_acks := u32 (dr_unproc_acks cc + c_acks stats) in
  let c_ackb := u32 (dr_unproc_ackb cc + c_ackb stats) in
  let c_drops := u32 (dr_unproc_drops cc + c_drops stats) in
  if c_acks <? cc_dctcp_minpkts cfg then
    mret (c <| cc_dctcp_rate := mk_drate c_acks c_ackb c_ecnb c_drops (dr_ecn_rate cc)
                                  (dr_act_rate cc) (dr_slowstart cc) |>)
  else
    '(act_rate, avg) ← actual_rate c_ackb cur_ts (cc_last_ts c) (dr_act_rate cc);
    let rate := clamp_used (cc_rate c) act_rate in
    let calm := (c_drops =? 0) && (c_ecnb =? 0) && (cc_rexmits c =? 0) in
    let slowstart := dr_slowstart cc && calm in
    '(rate, ecn_rate) ←
      (if slowstart then
         mret (if u32 (rate * 2) >=? rate then u32 (rate * 2) else UINT32_MAX, dr_ecn_rate cc)
       else rate_avoidance cfg rate (dr_ecn_rate cc) (cc_rexmits c) c_drops c_ecnb c_ackb);
    let rate := if rate <? cc_dctcp_min cfg then cc_dctcp_min cfg else rate in
    let c := c <| cc_rate := rate |> in
    let c := c <| cc_dctcp_rate := mk_drate 0 0 0 0 ecn_rate avg slowstart |> in
    mret (c <| cc_rexmits := 0 |>).

(** ** TIMELY *)

Definition timely_init (cfg : configuration) (c : connection_cc) : connection_cc :=
  let c := c <| cc_rate := cc_timely_init cfg |> in
  c <| cc_timely := mk_timely 0 0 0 (tl_act_rate (cc_timely c)) 0 true |>.

(** The new gradient and its normalised value, from the last two RTTs. Mixing
    [uint64_t] and [int32_t] the code computes modulo 2^64. *)
Definition timely_gradient (cfg : configuration) (cc : connection_cc_timely) (new_rtt : Z)
  : outcome (Z * Z) :=
  if negb (tl_rtt_prev cc =? 0) then
    let new_rtt_diff := i32 (new_rtt - tl_rtt_prev cc) in
    let factor := cc_timely_alpha cfg / 2 in
    let x := i64 (u64 (INT32_MAX - factor) * tl_rtt_diff cc + factor * new_rtt_diff) in
    let rtt_diff := i32 (Z.quot x INT32_MAX) in
    if cc_timely_min_rtt cfg =? 0 then Stop DivByZero
    else mret (rtt_diff, Z.quot (i64 (rtt_diff * INT16_MAX)) (cc_timely_min_rtt cfg))
  else mret (tl_rtt_diff cc, 0).

(** The new rate and [hai_cnt]: the chain of conditions after [orig_rate]. *)
Definition timely_rate (cfg : configuration) (slowstart : bool) (rate new_rtt hai_cnt gradient : Z)
  : outcome (Z * Z) :=
  if slowstart then mret (u32 (rate * 2), hai_cnt)
  else if new_rtt <? cc_timely_tlow cfg then mret (u32 (rate + cc_timely_step cfg), 0)
  else if new_rtt >? cc_timely_thigh cfg then
    q ← c_div (u64 (UINT32_MAX * cc_timely_thigh cfg)) new_rtt;
    let d := u32 q in
    let b := u32 (UINT32_MAX - d) in
    let a := u32 (u64 (cc_timely_beta cfg * b) / UINT32_MAX) in
    mret (u32 (u64 (rate * u32 (UINT32_MAX - a)) / UINT32_MAX), 0)
  else if gradient <=? 0 then
    let hai_cnt := u32 (hai_cnt + 1) in
    if hai_cnt >=? 5 then mret (u32 (rate + u32 (cc_timely_step cfg * 5)), u32 (hai_cnt - 1))
    else mret (u32 (rate + cc_timely_step cfg), hai_cnt)
  else
    let a := i64 ((cc_timely_beta cfg / 2) * gradient) in
    let b := Z.quot a INT16_MAX in
    let d := if b <=? INT32_MAX then i64 (INT32_MAX - b) else 0 in
    let f := Z.quot (i64 (rate * d)) INT32_MAX in
    mret (u32 f, 0).

Definition timely_update (cfg : configuration) (c : connection_cc)
  (stats : nicif_connection_stats_) (cur_ts : Z) : outcome connection_cc :=
  let cc := cc_timely c in
  let new_rtt := rtt stats in
  '(act_rate, avg) ← actual_rate (c_ackb stats) cur_ts (tl_last_ts cc) (tl_act_rate cc);
  let cc := cc <| tl_act_rate := avg |> in
  if new_rtt =? 0 then mret (c <| cc_timely := cc |>)
  else
    let slowstart :=
      tl_slowstart cc && negb (new_rtt >? u32 (cc_timely_tlow cfg + cc_timely_thigh cfg) / 2) in
    let rate := if negb slowstart then clamp_used (cc_rate c) act_rate else cc_rate c in
    '(rtt_diff, gradient) ← timely_gradient cfg cc new_rtt;
    let orig_rate := rate in
    '(rate, hai_cnt) ← timely_rate cfg slowstart rate new_rtt (tl_hai_cnt cc) gradient;
    let rate := if rate <? orig_rate / 2 then orig_rate / 2 else rate in
    let rate := if rate <? cc_timely_min_rate cfg then cc_timely_min_rate cfg else rate in
    let c := c <| cc_rate := rate |> in
    let c := c <| cc_rtt := rtt stats |> in
    let c := c <| cc_timely := mk_timely new_rtt rtt_diff hai_cnt (tl_act_rate cc) cur_ts slowstart |> in
    mret (c <| cc_rexmits := 0 |>).

(** ** Constant rate *)

Definition const_rate_init (cfg : configuration) (c : connection_cc) : connection_cc :=
  c <| cc_rate := cc_const_rate cfg |>.

Definition const_rate_update (cfg : configuration) (c : connection_cc)
  (stats : nicif_connection_stats_) : connection_cc :=
  let c := c <| cc_rtt := (if negb (rtt stats =? 0) then rtt stats else tcp_rtt_init cfg) |> in
  c <| cc_rexmits := 0 |>.

(** ** The list of connections *)

(** The static variables of cc.c, and the statistics. *)
Record cc_globals := mk_ccg {
  last_ts : Z;
  cc_conns : option Z;
  next_conn : option Z;
  kstats : kernel_statistics;
}.
#[export] Instance eta_ccg : Eta cc_globals := fun g =>
  mk_ccg (last_ts g) (cc_conns g) (next_conn g) (kstats g).

Definition upd_cc (c : connection) (f : connection_cc) : connection := c <| cn_cc := f |>.
Definition next_of (c : connection) : option Z := cc_next (cn_cc c).

Definition cc_conn_init (cfg : configuration) (cur_ts : Z) (h : conn_heap) (g : cc_globals) (conn : Z)
  : outcome (conn_heap * cc_globals) :=
  c ← get_conn h conn;
  let cc := cn_cc c in
  let cc := cc <| cc_next := cc_conns g |> in
  let g := g <| cc_conns := Some conn |> in
  let cc := cc <| cc_last_ts := cur_ts |> in
  let cc := cc <| cc_rtt := tcp_rtt_init cfg |> in
  let cc := cc <| cc_rexmits := 0 |> in
  cc ← match cc_algorithm cfg with
       | CONFIG_CC_DCTCP_WIN => dctcp_win_init cfg cc
       | CONFIG_CC_DCTCP_RATE => mret (dctcp_rate_init cfg cc)
       | CONFIG_CC_TIMELY => mret (timely_init cfg cc)
       | CONFIG_CC_CONST_RATE => mret (const_rate_init cfg cc)
       end;
  mret (<[conn := upd_cc c cc]> h, g).

(** The search for the predecessor of [conn]. *)
Fixpoint find_pred (fuel : nat) (h : conn_heap) (cp : option Z) (conn : Z) : outcome Z :=
  match fuel with
  | O => Stop OutOfFuel
  | S fuel =>
      match cp with
      | None => Stop Aborted
      | Some p =>
          c ← get_conn h p;
          if bool_decide (next_of c = Some conn) then mret p else find_pred fuel h (next_of c) conn
      end
  end.

Definition heap_fuel (h : conn_heap) : nat := S (size h).

Definition cc_conn_remove (h : conn_heap) (g : cc_globals) (conn : Z)
  : outcome (conn_heap * cc_globals) :=
  c ← get_conn h conn;
  let g := if bool_decide (next_conn g = Some conn) then g <| next_conn := next_of c |> else g in
  if bool_decide (cc_conns g = Some conn) then mret (h, g <| cc_conns := next_of c |>)
  else
    cp ← find_pred (heap_fuel h) h (cc_conns g) conn;
    p ← get_conn h cp;
    mret (<[cp := upd_cc p ((cn_cc p) <| cc_next := next_of c |>)]> h, g).

(** The loop of [cc_next_ts]. *)
Fixpoint next_ts_loop (fuel : nat) (cfg : configuration) (h : conn_heap) (cur_ts : Z) (c : option Z) (ts : Z)
  : outcome Z :=
  match fuel with
  | O => Stop OutOfFuel
  | S fuel =>
      match c with
      | None => mret ts
      | Some p =>
          c ← get_conn h p;
          let next_ts := i32 (u32 (cc_rtt (cn_cc c) * cc_control_interval cfg)
                              - u32 (cur_ts - cc_last_ts (cn_cc c))) in
          let ts := if negb (bool_decide (cn_status c = CONN_OPEN)) then ts
                    else if next_ts >=? 0 then MIN ts next_ts else 0 in
          next_ts_loop fuel cfg h cur_ts (next_of c) ts
      end
  end.

Definition cc_next_ts (cfg : configuration) (h : conn_heap) (g : cc_globals) (cur_ts : Z) : outcome Z :=
  _ ← c_assert (cur_ts >=? last_ts g);
  ts ← next_ts_loop (heap_fuel h) cfg h cur_ts (cc_conns g) UINT32_MAX;
  mret (if ts =? UINT32_MAX then UINT32_MAX
        else MAX ts (u32 (cc_control_granularity cfg - u32 (cur_ts - last_ts g)))).

(** ** The control loop *)
Section Poll.
Context {L : Type} `{RdmaLink L}.

Record cc_state := mk_ccs {
  cs_conns : conn_heap;
  cs_g : cc_globals;
  cs_nic : nicif;
  cs_link : L;
}.
#[export] Instance eta_ccs : Eta cc_state := fun s =>
  mk_ccs (cs_conns s) (cs_g s) (cs_nic s) (cs_link s).

Definition issue_retransmits (cfg : configuration) (s : cc_state) (c : connection)
  (stats : nicif_connection_stats_) (cur_ts : Z) : outcome (connection * cc_state) :=
  let cc := cn_cc c in
  let rtt := if negb (rtt stats =? 0) then rtt stats else tcp_rtt_init cfg in
  if txp stats && (c_ackb stats =? 0) then
    let pending := cnt_tx_pending cc in
    let cc := cc <| cnt_tx_pending := u32 (pending + 1) |> in
    if pending =? 0 then mret (upd_cc c (cc <| ts_tx_pending := cur_ts |>), s)
    else if (cnt_tx_pending cc >=? cc_rexmit_ints cfg)
            && (u32 (cur_ts - ts_tx_pending cc) >=? u32 (2 * rtt)) then
      '(rv, nic, l) ← nicif_connection_retransmit (cs_nic s) (cs_link s) (cn_flow_id c) (cn_flow_group c);
      let s := (s <| cs_nic := nic |>) <| cs_link := l |> in
      if rv =? 0 then
        let cc := cc <| cnt_tx_pending := 0 |> in
        let cc := cc <| cc_rexmits := u32 (cc_rexmits cc + 1) |> in
        let k := kstats (cs_g s) in
        let k := k <| ks_kernel_rexmit := u64 (ks_kernel_rexmit k + 1) |> in
        mret (upd_cc c cc, s <| cs_g := (cs_g s) <| kstats := k |> |>)
      else mret (upd_cc c cc, s)
    else mret (upd_cc c cc, s)
  else mret (upd_cc c (cc <| cnt_tx_pending := 0 |>), s).

(** What happened since the last control interval: the counters minus the values
    remembered, which are replaced. *)
Definition stats_diff (cc : connection_cc) (stats : nicif_connection_stats_)
  : connection_cc * nicif_connection_stats_ :=
  let d := mk_stats (u16 (c_drops stats - cc_last_drops cc)) (u16 (c_acks stats - cc_last_acks cc))
             (u32 (c_ackb stats - cc_last_ackb cc)) (u32 (c_ecnb stats - cc_last_ecnb cc))
             (txp stats) (rtt stats) in
  let cc := cc <| cc_last_drops := c_drops stats |> in
  let cc := cc <| cc_last_acks := c_acks stats |> in
  let cc := cc <| cc_last_ackb := c_ackb stats |> in
  (cc <| cc_last_ecnb := c_ecnb stats |>, d).

Definition add_kstats (k : kernel_statistics) (d : nicif_connection_stats_) : kernel_statistics :=
  let k := k <| ks_drops := u64 (ks_drops k + c_drops d) |> in
  let k := k <| ks_ecn_marked := u64 (ks_ecn_marked k + c_ecnb d) |> in
  k <| ks_acks := u64 (ks_acks k + c_ackb d) |>.

Definition cc_update (cfg : configuration) (c : connection) (cc : connection_cc)
  (stats : nicif_connection_stats_) (cur_ts : Z) : outcome connection_cc :=
  match cc_algorithm cfg with
  | CONFIG_CC_DCTCP_WIN => dctcp_win_update cfg (buffer_size (cn_tx c)) cc stats
  | CONFIG_CC_DCTCP_RATE => dctcp_rate_update cfg cc stats cur_ts
  | CONFIG_CC_TIMELY => timely_update cfg cc stats cur_ts
  | CONFIG_CC_CONST_RATE => mret (const_rate_update cfg cc stats)
  end.

Definition put_conn (s : cc_state) (p : Z) (c : connection) : cc_state :=
  s <| cs_conns := <[p := c]> (cs_conns s) |>.

(** The body of the loop of [cc_poll] for the connection at [p]. *)
Definition cc_control (cfg : configuration) (cur_ts : Z) (s : cc_state) (p : Z) : outcome cc_state :=
  c ← get_conn (cs_conns s) p;
  if negb (bool_decide (cn_status c = CONN_OPEN)) then mret s
  else if u32 (cur_ts - cc_last_ts (cn_cc c)) <? u32 (cc_rtt (cn_cc c) * cc_control_interval cfg) then mret s
  else
    st ← nicif_connection_stats (cs_nic s) (cn_flow_id c);
    match st with
    | None => Stop Aborted
    | Some stats =>
        let '(cc, d) := stats_diff (cn_cc c) stats in
        let s := s <| cs_g := (cs_g s) <| kstats := add_kstats (kstats (cs_g s)) d |> |> in
        cc ← cc_update cfg c cc d cur_ts;
        '(c, s) ← issue_retransmits cfg s (upd_cc c cc) d cur_ts;
        '(_, nic) ← nicif_connection_setrate (cs_nic s) (cn_flow_id c) (cc_rate (cn_cc c));
        let s := s <| cs_nic := nic |> in
        mret (put_conn s p (upd_cc c ((cn_cc c) <| cc_last_ts := cur_ts |>)))
    end.

(** The successor in the walk around the list. *)
Definition cc_succ (s : cc_state) (p : Z) : outcome (option Z) :=
  c ← get_conn (cs_conns s) p;
  mret (match next_of c with Some q => Some q | None => cc_conns (cs_g s) end).

(** The loop: [k] more rounds are allowed, [n] were made, the next is at [c]. *)
Fixpoint cc_rounds (k : nat) (cfg : configuration) (cur_ts : Z) (first : option Z) (n : Z)
  (s : cc_state) (c : option Z) : outcome (option Z * Z * cc_state) :=
  match k with
  | O => mret (c, n, s)
  | S k =>
      if (n =? 0) || negb (bool_decide (c = first)) then
        match c with
        | None => Stop OutOfBounds
        | Some p =>
            s ← cc_control cfg cur_ts s p;
            c ← cc_succ s p;
            cc_rounds k cfg cur_ts first (n + 1) s c
        end
      else mret (c, n, s)
  end.

Definition CC_ROUNDS : nat := 128.

Definition cc_poll (cfg : configuration) (cur_ts : Z) (s : cc_state) : outcome (Z * cc_state) :=
  let first := match next_conn (cs_g s) with Some p => Some p | None => cc_conns (cs_g s) end in
  match first with
  | None => mret (0, s <| cs_g := (cs_g s) <| last_ts := cur_ts |> |>)
  | Some _ =>
      '(c, n, s) ← cc_rounds CC_ROUNDS cfg cur_ts first 0 s first;
      let g := cs_g s in
      let g := g <| next_conn := c |> in
      mret (n, s <| cs_g := g <| last_ts := cur_ts |> |>)
  end.

End Poll.
Arguments cc_state : clear implicits.

(** ** What the window-based algorithm computes *)

(** The values a C variable of the given width may have. *)
Definition is_u16 (x : Z) : Prop := 0 <= x < 65536.
Definition is_u32 (x : Z) : Prop := 0 <= x < 4294967296.

Record stats_ok (st : nicif_connection_stats_) : Prop := {
  so_drops : is_u16 (c_drops st);
  so_acks : is_u16 (c_acks st);
  so_ackb : is_u32 (c_ackb st);
  so_ecnb : is_u32 (c_ecnb st);
  so_rtt : is_u32 (rtt st);
}.

(** The round-trip time that is used: the estimate, or the configured value. *)
Definition eff_rtt (cfg : configuration) (st : nicif_connection_stats_) : Z :=
  if rtt st =? 0 then tcp_rtt_init cfg else rtt st.

(** The reference rate, without wrap-around: a window per round trip, unless the
    link takes longer to send it. *)
Definition ref_rate (cfg : configuration) (window rtt : Z) : Z :=
  Z.min UINT32_MAX (window * 8000000 / Z.max (window * 8000 / tcp_link_bw cfg / 1000) (rtt * 1000)).

(** The time in nanoseconds the code divides by: it multiplies the round trip in
    32 bits, which is a nanosecond count up to 4.29 s. *)
Definition window_time (cfg : configuration) (window rtt : Z) : Z :=
  Z.max (window * 8000 / tcp_link_bw cfg / 1000) (u32 (rtt * 1000)).
Definition rate_over (window time : Z) : Z := Z.min UINT32_MAX (window * 8000000 / time).

Lemma window_to_rate_total cfg window rtt :
  is_u32 window -> 0 <= tcp_link_bw cfg ->
  window_to_rate cfg window rtt =
    if tcp_link_bw cfg =? 0 then Stop DivByZero
    else if window_time cfg window rtt =? 0 then Stop AssertFailed
    else Ok (rate_over window (window_time cfg window rtt)).
Proof.
  intros Hw Hb. unfold is_u32 in *. unfold window_to_rate, c_div, rate_over, window_time.
  destruct (Z.eqb_spec (tcp_link_bw cfg) 0) as [E|E]; [done|]. osimpl.
  rewrite (u64_small (window * 8)), (u64_small (window * 8 * 1000)), (u64_small (window * 8 * 1000000)) by lia.
  replace (window * 8 * 1000) with (window * 8000) by lia.
  replace (window * 8 * 1000000) with (window * 8000000) by lia.
  set (t := window * 8000 / tcp_link_bw cfg / 1000). set (x := u32 (rtt * 1000)).
  assert (0 <= x < 4294967296) by (apply Z.mod_pos_bound; lia).
  replace (if t <? x then x else t) with (Z.max t x) by (bsplit; lia).
  set (m := Z.max t x). assert (0 <= m) by (unfold m; lia).
  destruct (Z.eqb_spec m 0) as [->|Hm]; [done|]. osimpl.
  assert (0 <= window * 8000000 / m) by (apply Z.div_pos; lia).
  replace (if window * 8000000 / m >? UINT32_MAX then UINT32_MAX else window * 8000000 / m)
    with (Z.min UINT32_MAX (window * 8000000 / m)) by (bsplit; lia).
  rewrite u32_small by (unfold UINT32_MAX; lia). done.
Qed.

(** Below 4.29 s the rate is the reference's. *)
Lemma rate_over_ref cfg window rtt :
  is_u32 window -> 0 < tcp_link_bw cfg -> 0 < rtt -> rtt * 1000 < 4294967296 ->
  0 < window_time cfg window rtt /\
  rate_over window (window_time cfg window rtt) = ref_rate cfg window rtt /\
  ref_rate cfg window rtt * rtt <= window * 8000.
Proof.
  intros Hw Hb Hr Hr'. unfold is_u32 in *. unfold window_time, rate_over, ref_rate.
  rewrite (u32_small (rtt * 1000)) by lia. set (t := window * 8000 / tcp_link_bw cfg / 1000).
  set (m := Z.max t (rtt * 1000)). assert (rtt * 1000 <= m) by (unfold m; lia).
  split_and!; [lia|done|]. set (r := Z.min UINT32_MAX (window * 8000000 / m)).
  assert (0 <= window * 8000000 / m) by (apply Z.div_pos; lia).
  assert (r <= window * 8000000 / m) by (unfold r; lia).
  assert (m * (window * 8000000 / m) <= window * 8000000) by (apply Z.mul_div_le; lia).
  assert (0 <= r) by (unfold r, UINT32_MAX; lia). nia.
Qed.

(** The moving average is one. *)
Definition ref_avg (weight old marked acked : Z) : Z :=
  (marked * UINT32_MAX / acked * weight + old * (UINT32_MAX - weight)) / UINT32_MAX.

Lemma ref_avg_range weight old marked acked :
  is_u32 weight -> is_u32 old -> 0 <= marked <= acked -> 0 < acked -> is_u32 (ref_avg weight old marked acked).
Proof.
  unfold is_u32, ref_avg, UINT32_MAX. intros.
  assert (0 <= marked * 4294967295 / acked <= 4294967295).
  { split; [apply Z.div_pos; lia|]. apply Z.div_le_upper_bound; nia. }
  split; [apply Z.div_pos; nia|]. apply Z.div_lt_upper_bound; nia.
Qed.

Lemma ecn_update_ok weight old ecnb ackb :
  is_u32 weight -> is_u32 old -> is_u32 ecnb -> is_u32 ackb ->
  ecn_update weight old ecnb ackb =
    Ok (if 0 <? ackb then Z.min ecnb ackb else ecnb,
        if 0 <? ackb then ref_avg weight old (Z.min ecnb ackb) ackb else old).
Proof.
  intros Hw Ho He Ha. unfold ecn_update. rewrite Z.gtb_ltb.
  destruct (Z.ltb_spec 0 ackb) as [Hp|]; [|done].
  replace (if ecnb <=? ackb then ecnb else ackb) with (Z.min ecnb ackb) by (bsplit; lia).
  unfold is_u32 in *. set (m := Z.min ecnb ackb). assert (0 <= m <= ackb) by lia.
  pose proof (ref_avg_range weight old m ackb Hw Ho ltac:(lia) Hp) as Hr.
  unfold ecn_ewma, c_div. rewrite (proj2 (Z.eqb_neq ackb 0)) by lia. osimpl.
  assert (0 <= m * 4294967295 / ackb <= 4294967295).
  { split; [apply Z.div_pos; lia|]. apply Z.div_le_upper_bound; nia. }
  unfold UINT32_MAX, is_u32 in *.
  rewrite (u64_small (m * _)), (u64_small (m * _ / _ * _)), (u32_small (4294967295 - weight)),
    (u64_small (old * _)) by nia.
  rewrite u64_small by nia. unfold ref_avg, UINT32_MAX in *. by rewrite u32_small by lia.
Qed.

(** The least and the largest window of a connection. *)
Definition clamp (buf w : Z) : Z := Z.min buf (Z.max CONF_MSS w).

(** The reference for one control interval: no wrap-around, one equation for each
    regime. The result is the new window, average and phase. *)
Definition ref_win (cfg : configuration) (buf : Z) (cc : connection_cc_dctcp_win) (rexmits : Z)
  (st : nicif_connection_stats_) : connection_cc_dctcp_win :=
  let w := dw_window cc in
  let acked := c_ackb st in
  let grown g := if w + g <? 4294967296 then w + g else w in
  let lost := (0 <? c_drops st) || (0 <? rexmits) in
  let marked := if 0 <? acked then Z.min (c_ecnb st) acked else c_ecnb st in
  let e := if 0 <? acked then ref_avg (cc_dctcp_weight cfg) (dw_ecn_rate cc) (Z.min (c_ecnb st) acked) acked else dw_ecn_rate cc in
  if dw_slowstart cc && negb lost && (c_ecnb st =? 0) then
    mk_dwin (dw_ecn_rate cc) (clamp buf (grown acked)) true
  else if lost then mk_dwin (dw_ecn_rate cc) (clamp buf (w / 2)) false
  else if 0 <? marked then mk_dwin e (clamp buf (w * (UINT32_MAX - e / 2) / UINT32_MAX)) false
  else mk_dwin e (clamp buf (grown (acked * CONF_MSS / w))) false.

Record win_ok (buf : Z) (cc : connection_cc_dctcp_win) : Prop := {
  wo_window : CONF_MSS <= dw_window cc <= buf;
  wo_ecn : is_u32 (dw_ecn_rate cc);
}.

Lemma grown_ok w g : is_u32 w -> 0 <= g < 4294967296 ->
  (if w <? u32 (w + g) then u32 (w + g) else w) = if w + g <? 4294967296 then w + g else w.
Proof.
  unfold is_u32. intros Hw Hg. destruct (Z.ltb_spec (w + g) 4294967296).
  - rewrite u32_small by lia. destruct (Z.ltb_spec w (w + g)); lia.
  - unfold u32. rewrite (mod_sub_once (w + g)) by lia. bprune. done.
Qed.

Lemma clamp_ok buf w : CONF_MSS <= buf -> buf < 4294967296 ->
  (let w := if w <? CONF_MSS then CONF_MSS else w in if w >? buf then u32 buf else w) = clamp buf w.
Proof. intros. unfold clamp, CONF_MSS in *. cbv zeta. rewrite (u32_small buf) by lia. bsplit; lia. Qed.

Lemma win_avoidance_ok cfg buf w e rexmits st :
  stats_ok st -> is_u32 rexmits -> is_u32 (cc_dctcp_weight cfg) -> buf < 4294967296 ->
  win_ok buf (mk_dwin e w false) ->
  exists w', win_avoidance cfg w e rexmits st = Ok (w', dw_ecn_rate (ref_win cfg buf (mk_dwin e w false) rexmits st)) /\
    clamp buf w' = dw_window (ref_win cfg buf (mk_dwin e w false) rexmits st).
Proof.
  intros [Hd _ Ha He _] Hr Hw Hbuf [Hwin Hecn]. simpl in *. unfold win_avoidance, ref_win. simpl.
  rewrite !Z.gtb_ltb. destruct ((0 <? c_drops st) || (0 <? rexmits)) eqn:El; simpl; [eexists; split; reflexivity|].
  rewrite ecn_update_ok by done. osimpl. rewrite !Z.gtb_ltb.
  set (m := if 0 <? c_ackb st then _ else _). set (e' := if 0 <? c_ackb st then ref_avg _ _ _ _ else e).
  assert (is_u32 e') as He'.
  { unfold e'. destruct (Z.ltb_spec 0 (c_ackb st)); [|done]. unfold is_u32 in *. apply ref_avg_range; unfold is_u32; lia. }
  unfold is_u32, CONF_MSS, UINT32_MAX in *. destruct (Z.ltb_spec 0 m).
  - eexists. split; [reflexivity|]. simpl. do 2 f_equal.
    assert (0 <= e' / 2 < 4294967296) by (split; [apply Z.div_pos|apply Z.div_lt_upper_bound]; lia).
    assert (2 * (e' / 2) <= e') by (apply Z.mul_div_le; lia).
    rewrite (u32_small (_ - _)), u64_small by nia.
    rewrite u32_small; [done|]. split; [apply Z.div_pos; nia|]. apply Z.div_lt_upper_bound; nia.
  - rewrite (proj2 (Z.eqb_neq w 0)) by lia. osimpl. unfold c_div.
    rewrite (proj2 (Z.eqb_neq w 0)) by lia. osimpl. rewrite (u64_small (c_ackb st * 1400)) by lia.
    eexists. split; [reflexivity|]. simpl. rewrite Z.gtb_ltb, grown_ok; [done|unfold is_u32; lia|].
    split; [apply Z.div_pos; lia|]. apply Z.div_lt_upper_bound; nia.
Qed.

Lemma ref_win_ok cfg buf cc r st :
  stats_ok st -> is_u32 (cc_dctcp_weight cfg) -> win_ok buf cc -> win_ok buf (ref_win cfg buf cc r st).
Proof.
  intros [_ _ Ha He _] Hw [Hwin Hecn]. unfold ref_win.
  set (e := if 0 <? c_ackb st then ref_avg _ _ _ _ else _). assert (is_u32 e).
  { unfold e. destruct (Z.ltb_spec 0 (c_ackb st)); [|done]. unfold is_u32 in *.
    apply ref_avg_range; unfold is_u32; lia. }
  assert (forall w, CONF_MSS <= clamp buf w <= buf) as Hcl by (unfold clamp; lia).
  repeat match goal with |- context [if ?b then mk_dwin _ _ _ else _] => destruct b end; (constructor; [apply Hcl|done]).
Qed.

(** Out of slow start the phase does not matter. *)
Lemma ref_win_avoid cfg buf cc r st :
  dw_slowstart cc && negb ((0 <? c_drops st) || (0 <? r)) && (c_ecnb st =? 0) = false ->
  ref_win cfg buf cc r st = ref_win cfg buf (mk_dwin (dw_ecn_rate cc) (dw_window cc) false) r st /\
  dw_slowstart (ref_win cfg buf cc r st) = false.
Proof.
  unfold ref_win. intros ->. simpl.
  repeat match goal with |- context [if ?b then mk_dwin _ _ _ else _] => destruct b end; done.
Qed.


(** ** TIMELY *)

(** Round-trip times for which no intermediate value of [timely_update] leaves its
    type: 131 ms. *)
Definition RTT_MAX : Z := 131071.

Record timely_ok (t : connection_cc_timely) : Prop := {
  to_prev_rtt : 0 <= tl_rtt_prev t <= RTT_MAX;
  to_diff : - RTT_MAX <= tl_rtt_diff t <= RTT_MAX;
}.

Record timely_cfg_ok (cfg : configuration) : Prop := {
  tc_tlow : is_u32 (cc_timely_tlow cfg);
  tc_thigh : is_u32 (cc_timely_thigh cfg);
  tc_step : is_u32 (cc_timely_step cfg);
  tc_alpha : is_u32 (cc_timely_alpha cfg);
  tc_beta : is_u32 (cc_timely_beta cfg);
  tc_min_rtt : 0 < cc_timely_min_rtt cfg < 4294967296;
  tc_min_rate : is_u32 (cc_timely_min_rate cfg);
}.

Lemma quot_bounds a b m : 0 < b -> - (m * b) <= a <= m * b -> - m <= Z.quot a b <= m.
Proof.
  intros Hb Ha. pose proof (Z.quot_rem' a b). pose proof (Z.rem_bound_abs a b ltac:(lia)).
  destruct (Z.le_ge_cases 0 a).
  - pose proof (Z.quot_pos a b). pose proof (Z.rem_nonneg a b). split; nia.
  - pose proof (Z.rem_nonpos a b).
    assert (Z.quot a b <= 0) by (rewrite <- (Z.opp_involutive a), Z.quot_opp_l by lia;
      pose proof (Z.quot_pos (-a) b); lia). split; nia.
Qed.

(** The reference for the gradient: the weighted mean of the last difference and
    the new one, and its share of the minimal RTT in units of [INT16_MAX]. *)
Definition ref_gradient (cfg : configuration) (t : connection_cc_timely) (new_rtt : Z) : Z * Z :=
  if tl_rtt_prev t =? 0 then (tl_rtt_diff t, 0)
  else
    let f := cc_timely_alpha cfg / 2 in
    let d := Z.quot ((INT32_MAX - f) * tl_rtt_diff t + f * (new_rtt - tl_rtt_prev t)) INT32_MAX in
    (d, Z.quot (d * INT16_MAX) (cc_timely_min_rtt cfg)).

Lemma timely_gradient_ok cfg t new_rtt :
  timely_cfg_ok cfg -> timely_ok t -> 0 <= new_rtt <= RTT_MAX ->
  timely_gradient cfg t new_rtt = Ok (ref_gradient cfg t new_rtt) /\
  - RTT_MAX <= (ref_gradient cfg t new_rtt).1 <= RTT_MAX /\
  - (RTT_MAX * INT16_MAX) <= (ref_gradient cfg t new_rtt).2 <= RTT_MAX * INT16_MAX.
Proof.
  intros [_ _ _ Hal _ Hm _] [Hp Hd] Hn. unfold timely_gradient, ref_gradient, is_u32 in *.
  destruct (Z.eqb_spec (tl_rtt_prev t) 0); simpl; [unfold RTT_MAX, INT16_MAX in *; split_and!; [done|lia..]|].
  unfold RTT_MAX, INT32_MAX, INT16_MAX in *.
  assert (0 <= cc_timely_alpha cfg / 2 <= 2147483647) as Hf by
    (split; [apply Z.div_pos; lia|assert (cc_timely_alpha cfg / 2 < 2147483648); [apply Z.div_lt_upper_bound|]; lia]).
  set (f := cc_timely_alpha cfg / 2) in *.
  rewrite (i32_small (new_rtt - _)), (u64_small (_ - f)) by lia.
  set (x := (2147483647 - f) * _ + _).
  assert (- (131071 * 2147483647) <= x <= 131071 * 2147483647) by (unfold x; nia).
  pose proof (quot_bounds x 2147483647 131071 ltac:(lia) ltac:(lia)) as Hq.
  rewrite (i64_small x), (i32_small (Z.quot x _)) by lia.
  rewrite (proj2 (Z.eqb_neq (cc_timely_min_rtt cfg) 0)) by lia. rewrite i64_small by lia.
  split_and!; [done|lia|lia| |]; apply (quot_bounds _ _ (131071 * 32767)); try lia; nia.
Qed.

(** One control interval on unbounded integers: doubling, additive increase (five
    steps after five intervals of falling RTTs), or a decrease by [beta] times how
    far the RTT is above the threshold or by [beta] times the gradient. *)
Definition ref_timely_rate (cfg : configuration) (slowstart : bool) (rate new_rtt hai gradient : Z) : Z :=
  let beta := cc_timely_beta cfg in
  if slowstart then u32 (rate * 2)
  else if new_rtt <? cc_timely_tlow cfg then u32 (rate + cc_timely_step cfg)
  else if cc_timely_thigh cfg <? new_rtt then
    let over := UINT32_MAX - UINT32_MAX * cc_timely_thigh cfg / new_rtt in
    rate * (UINT32_MAX - beta * over / UINT32_MAX) / UINT32_MAX
  else if gradient <=? 0 then
    u32 (rate + (if 5 <=? hai + 1 then u32 (cc_timely_step cfg * 5) else cc_timely_step cfg))
  else
    let a := beta / 2 * gradient / INT16_MAX in
    rate * Z.max 0 (INT32_MAX - a) / INT32_MAX.

Lemma timely_rate_ok cfg slowstart rate new_rtt hai g :
  timely_cfg_ok cfg -> is_u32 rate -> 0 < new_rtt <= RTT_MAX -> 0 <= hai < 4294967295 ->
  - (RTT_MAX * INT16_MAX) <= g <= RTT_MAX * INT16_MAX ->
  exists hai', timely_rate cfg slowstart rate new_rtt hai g =
      Ok (ref_timely_rate cfg slowstart rate new_rtt hai g, hai') /\ (hai <= 4 -> 0 <= hai' <= 4).
Proof.
  intros [Hl Hh Hs _ Hb _ _] Hr Hn Hhai Hg. unfold timely_rate, ref_timely_rate, is_u32 in *.
  rewrite !Z.gtb_ltb, Z.geb_leb. unfold RTT_MAX, UINT32_MAX, INT32_MAX, INT16_MAX in *.
  destruct slowstart; [eexists; split; [reflexivity|lia]|].
  destruct (Z.ltb_spec new_rtt (cc_timely_tlow cfg)); [eexists; split; [reflexivity|lia]|].
  destruct (Z.ltb_spec (cc_timely_thigh cfg) new_rtt) as [Ht|Ht].
  - rewrite (u64_small (_ * cc_timely_thigh cfg)) by lia. unfold c_div.
    rewrite (proj2 (Z.eqb_neq new_rtt 0)) by lia. osimpl.
    assert (0 <= 4294967295 * cc_timely_thigh cfg / new_rtt <= 4294967295) as Hd.
    { split; [apply Z.div_pos; lia|]. apply Z.div_le_upper_bound; lia. }
    set (d := 4294967295 * cc_timely_thigh cfg / new_rtt) in *.
    rewrite (u32_small d), (u32_small (4294967295 - d)), (u64_small (cc_timely_beta cfg * _)) by nia.
    assert (0 <= cc_timely_beta cfg * (4294967295 - d) / 4294967295 <= 4294967295) as Ha.
    { split; [apply Z.div_pos; nia|]. apply Z.div_le_upper_bound; nia. }
    set (a := _ / 4294967295) in *. rewrite (u32_small a), (u32_small (_ - a)), (u64_small (rate * _)) by nia.
    rewrite u32_small; [eexists; split; [reflexivity|lia]|].
    split; [apply Z.div_pos; nia|]. apply Z.div_lt_upper_bound; nia.
  - destruct (Z.leb_spec g 0).
    + rewrite (u32_small (hai + 1)) by lia. destruct (Z.leb_spec 5 (hai + 1));
        (eexists; split; [reflexivity|]); try rewrite u32_small by lia; lia.
    + assert (0 <= cc_timely_beta cfg / 2 < 2147483648) as Hb2 by
        (split; [apply Z.div_pos; lia|apply Z.div_lt_upper_bound; lia]).
      set (b2 := cc_timely_beta cfg / 2) in *.
      assert (0 <= b2 * g <= 2147483647 * (131071 * 32767)) by
        (split; [apply Z.mul_nonneg_nonneg|apply Z.mul_le_mono_nonneg]; lia).
      rewrite (i64_small (b2 * g)), (Z.quot_div_nonneg (b2 * g)) by lia.
      set (a := b2 * g / 32767). assert (0 <= a) by (apply Z.div_pos; lia).
      replace (if a <=? 2147483647 then i64 (2147483647 - a) else 0) with (Z.max 0 (2147483647 - a))
        by (bsplit; rewrite ?i64_small; lia).
      set (d := Z.max 0 (2147483647 - a)). assert (0 <= d <= 2147483647) by lia.
      rewrite i64_small, Z.quot_div_nonneg by nia.
      rewrite u32_small; [eexists; split; [reflexivity|lia]|].
      split; [apply Z.div_pos; nia|]. apply Z.div_lt_upper_bound; nia.
Qed.

Lemma timely_rate_range cfg ss rate new_rtt hai g :
  timely_cfg_ok cfg -> is_u32 rate -> 0 < new_rtt -> is_u32 (ref_timely_rate cfg ss rate new_rtt hai g).
Proof.
  intros [Hl Hh Hs _ Hb _ _] Hr Hn. unfold ref_timely_rate, is_u32 in *.
  destruct ss; [apply u32_range|]. destruct (Z.ltb_spec new_rtt (cc_timely_tlow cfg)); [apply u32_range|].
  unfold UINT32_MAX, INT32_MAX, INT16_MAX.
  destruct (Z.ltb_spec (cc_timely_thigh cfg) new_rtt).
  - assert (0 <= 4294967295 * cc_timely_thigh cfg / new_rtt <= 4294967295) as Hd.
    { split; [apply Z.div_pos; lia|]. apply Z.div_le_upper_bound; lia. }
    set (d := 4294967295 * cc_timely_thigh cfg / new_rtt) in *.
    assert (0 <= cc_timely_beta cfg * (4294967295 - d) / 4294967295 <= 4294967295) as Ha.
    { split; [apply Z.div_pos; nia|]. apply Z.div_le_upper_bound; nia. }
    set (a := _ / 4294967295) in *.
    split; [apply Z.div_pos; nia|]. apply Z.div_lt_upper_bound; nia.
  - destruct (Z.leb_spec g 0); [apply u32_range|].
    assert (0 <= cc_timely_beta cfg / 2 * g / 32767).
    { apply Z.div_pos; [apply Z.mul_nonneg_nonneg; [apply Z.div_pos|]|]; lia. }
    set (d := Z.max 0 _). assert (0 <= d <= 2147483647) by lia.
    split; [apply Z.div_pos; nia|]. apply Z.div_lt_upper_bound; nia.
Qed.

Lemma clamp_used_min rate act : clamp_used rate act = Z.min rate (act * 12 / 10).
Proof. unfold clamp_used. bsplit; lia. Qed.

Lemma actual_rate_ok ackb cur_ts last avg : last = 0 \/ u32 (cur_ts - last) <> 0 ->
  exists used avg', actual_rate ackb cur_ts last avg = Ok (used, avg') /\ 0 <= used.
Proof.
  intros Hl. unfold actual_rate, c_div. destruct (Z.eqb_spec last 0); simpl.
  - eexists _, _. split; [reflexivity|]. rewrite Z.geb_leb.
    assert (0 <= u32 (u32 (7 * avg) + 0) / 8) by (apply Z.div_pos; [apply u32_range|lia]).
    destruct (Z.leb_spec (u32 (u32 (7 * avg) + 0) / 8) 0); lia.
  - rewrite (proj2 (Z.eqb_neq (u32 _) 0)) by (destruct Hl; done). osimpl. eexists _, _. split; [reflexivity|].
    rewrite Z.geb_leb. set (a := _ / u32 (cur_ts - last)).
    assert (0 <= u32 (u32 (7 * avg) + a) / 8) by (apply Z.div_pos; [apply u32_range|lia]).
    destruct (Z.leb_spec (u32 (u32 (7 * avg) + a) / 8) a); lia.
Qed.

(** TIMELY: for round-trip times up to 131 ms no intermediate value leaves its
    type, and the mixed signed and unsigned arithmetic computes the rate of the
    reference. In one interval a rate is at most halved, from what the flow used,
    and never falls under the configured minimum. *)
Theorem timely_update_correct cfg c st cur_ts :
  timely_cfg_ok cfg -> stats_ok st -> 0 < rtt st <= RTT_MAX ->
  timely_ok (cc_timely c) -> 0 <= tl_hai_cnt (cc_timely c) <= 4 -> is_u32 (cc_rate c) ->
  (tl_last_ts (cc_timely c) = 0 \/ u32 (cur_ts - tl_last_ts (cc_timely c)) <> 0) ->
  exists used avg c',
    actual_rate (c_ackb st) cur_ts (tl_last_ts (cc_timely c)) (tl_act_rate (cc_timely c)) = Ok (used, avg) /\
    timely_update cfg c st cur_ts = Ok c' /\
    let t := cc_timely c in
    let ss := tl_slowstart t && (rtt st <=? u32 (cc_timely_tlow cfg + cc_timely_thigh cfg) / 2) in
    let from := if ss then cc_rate c else Z.min (cc_rate c) (used * 12 / 10) in
    cc_rate c' = Z.max (cc_timely_min_rate cfg) (Z.max (from / 2)
      (ref_timely_rate cfg ss from (rtt st) (tl_hai_cnt t) (ref_gradient cfg t (rtt st)).2)) /\
    is_u32 (cc_rate c') /\ timely_ok (cc_timely c') /\ 0 <= tl_hai_cnt (cc_timely c') <= 4 /\
    tl_slowstart (cc_timely c') = ss /\ tl_rtt_diff (cc_timely c') = (ref_gradient cfg t (rtt st)).1 /\
    tl_rtt_prev (cc_timely c') = rtt st /\ cc_rtt c' = rtt st /\ cc_rexmits c' = 0.
Proof.
  intros Hc Hs Hrtt Ht Hh Hr Hl.
  destruct (actual_rate_ok (c_ackb st) cur_ts _ (tl_act_rate (cc_timely c)) Hl) as (used & avg & Ea & Hu).
  exists used, avg. unfold timely_update. rewrite Ea. osimpl. rewrite (proj2 (Z.eqb_neq (rtt st) 0)) by lia.
  cbn [set_field tl_slowstart tl_hai_cnt tl_act_rate]. rewrite Z.gtb_ltb, <- Z.leb_antisym.
  set (ss := tl_slowstart _ && _). rewrite clamp_used_min.
  assert ((if negb ss then cc_rate c `min` (used * 12 / 10) else cc_rate c) =
    (if ss then cc_rate c else cc_rate c `min` (used * 12 / 10))) as -> by (by destruct ss).
  set (from := if ss then _ else _).
  assert (is_u32 from).
  { unfold from, is_u32 in *. assert (0 <= used * 12 / 10) by (apply Z.div_pos; lia). destruct ss; lia. }
  set (t' := mk_timely _ _ _ _ _ _).
  destruct (timely_gradient_ok cfg t' (rtt st) Hc) as (-> & Hg1 & Hg2);
    [destruct Ht; by constructor|lia|].
  assert (ref_gradient cfg t' (rtt st) = ref_gradient cfg (cc_timely c) (rtt st)) as Eg by done.
  rewrite Eg in *. set (rg := ref_gradient cfg (cc_timely c) (rtt st)) in *. clearbody rg. destruct rg as [d g].
  simpl in Hg1, Hg2. osimpl.
  destruct (timely_rate_ok cfg ss from (rtt st) (tl_hai_cnt (cc_timely c)) g Hc) as (hai & -> & Hhai);
    [done|done|lia|done|].
  pose proof (timely_rate_range cfg ss from (rtt st) (tl_hai_cnt (cc_timely c)) g Hc) as Hrr.
  osimpl. set (r := ref_timely_rate _ _ _ _ _ _) in *. clearbody r. specialize (Hrr ltac:(done) ltac:(lia)).
  eexists. split; [done|]. split; [reflexivity|]. simpl.
  assert (is_u32 (cc_timely_min_rate cfg)) as Hm by apply Hc.
  assert (0 <= from / 2 <= from) by (unfold is_u32 in *; split; [apply Z.div_pos; lia|apply Z.div_le_upper_bound; lia]).
  assert ((let r1 := if r <? from / 2 then from / 2 else r in
     if r1 <? cc_timely_min_rate cfg then cc_timely_min_rate cfg else r1) =
     Z.max (cc_timely_min_rate cfg) (Z.max (from / 2) r)) as Em by (cbv zeta; bsplit; lia).
  cbv zeta in Em. rewrite Em. clear Em. unfold is_u32 in *.
  split_and!; try done; try lia; constructor; simpl; lia.
Qed.

(** ** Concrete values *)
Module Demo.
Definition cfg (a : config_cc_algorithm) : configuration :=
  mk_config 8192 8192 50000 10 1000000 10 0 24 0 [] 500000 10000000 a 50 2 4
    268435456 10000 10000 0 10000 2 5000 30 150 40000 10000 42949672 858993459 11 10000 false.
Definition cc0 (nx : option Z) : connection_cc :=
  mk_cc 1000 50 0 0 0 0 100000 0 (mk_dwin 0 2800 true) (mk_timely 40 5 0 0 1000 false) (mk_drate 0 0 0 0 0 0 true) 0 0 nx.
Definition stats : nicif_connection_stats_ := mk_stats 0 3 300000 100000 true 60.

Lemma stats_fit : stats_ok stats.
Proof. by constructor. Qed.
Lemma cfg_fit a : timely_cfg_ok (cfg a).
Proof. by constructor. Qed.
End Demo.


Lemma timely_update_correct_witness :
  exists c', timely_update (Demo.cfg CONFIG_CC_TIMELY) (Demo.cc0 None) Demo.stats 2000 = Ok c' /\
    cc_rate c' = 90909 /\ timely_ok (cc_timely c').
Proof.
  destruct (timely_update_correct (Demo.cfg CONFIG_CC_TIMELY) (Demo.cc0 None) Demo.stats 2000)
    as (used & avg & c' & _ & E & H).
  - apply Demo.cfg_fit.
  - exact Demo.stats_fit.
  - by vm_compute.
  - by constructor.
  - by vm_compute.
  - by vm_compute.
  - right. by vm_compute.
  - exists c'. split; [exact E|]. split; [|apply H]. vm_compute in E. by injection E as <-.
Defined.
