(* ===== verification/CcLoop.v ===== *)
(** * The loop of congestion control (tas_nic/slow/cc.c)

    The connections under congestion control as a list, the poll as a walk around
    it, and that every connection gets its turn. *)
From S2P Require Import Prelude RdmaQueue FlowState FastCtx FlowTable SlowState CongCtl.

#[local] Open Scope Z_scope.

(** ** The list of connections as a list *)

Fixpoint cc_chain (h : conn_heap) (o : option Z) (l : list Z) : Prop :=
  match l with
  | [] => o = None
  | x :: l => o = Some x /\ exists c, h !! x = Some c /\ cc_chain h (next_of c) l
  end.

(** The connections under congestion control, in the order of the list. *)
Record cc_list (h : conn_heap) (g : cc_globals) (l : list Z) : Prop := {
  cl_chain : cc_chain h (cc_conns g) l;
  cl_nodup : NoDup l;
  cl_next : forall p, next_conn g = Some p -> p ∈ l;
}.

Definition link_at (h : conn_heap) (p : Z) : option (option Z) := next_of <$> h !! p.
Definition same_links (h h' : conn_heap) : Prop := forall p, link_at h p = link_at h' p.

Lemma cc_chain_agree h h' l : forall o, (forall p, p ∈ l -> link_at h p = link_at h' p) ->
  cc_chain h o l -> cc_chain h' o l.
Proof.
  induction l as [|x l IH]; intros o Hl; simpl; [done|]. intros [-> (c & Hx & Hc)]. split; [done|].
  assert (link_at h x = link_at h' x) as E by (apply Hl; set_solver).
  unfold link_at in E. rewrite Hx in E. simpl in E. destruct (h' !! x) as [c'|]; [|done]. simpl in E.
  injection E as E. exists c'. split; [done|]. rewrite <- E. apply IH; [|done]. set_solver.
Qed.

Lemma cc_chain_lookup h o A p B : cc_chain h o (A ++ p :: B) ->
  exists c, h !! p = Some c /\ next_of c = head B.
Proof.
  revert o. induction A as [|a A IH]; simpl; intros o.
  - intros (_ & c & Hc & Hn). exists c. split; [done|]. destruct B; simpl in Hn; [done|]. by destruct Hn.
  - intros (_ & c & Hc & Hn). by apply IH in Hn.
Qed.

Lemma cc_chain_size h o l : cc_chain h o l -> NoDup l -> (length l <= size h)%nat.
Proof.
  intros Hc. apply NoDup_size. intros x Hx. apply list_elem_of_split in Hx as (A & B & ->).
  apply cc_chain_lookup in Hc as (c & Hc & _). eauto.
Qed.

(** A new connection is the first. *)
Lemma cc_conn_init_list cfg cur_ts h g l conn h' g' :
  cc_list h g l -> conn ∉ l -> cc_conn_init cfg cur_ts h g conn = Ok (h', g') ->
  cc_list h' g' (conn :: l) /\ next_conn g' = next_conn g /\
  forall p, p <> conn -> h' !! p = h !! p.
Proof.
  intros [Hc Hn Hx] Hnot E. unfold cc_conn_init in E. cbv zeta in E.
  apply bind_Ok_inv in E as (c & Hg & E). apply bind_Ok_inv in E as (cc & Ecc & E). inv_ok.
  injection E as <- <-.
  assert (cc_next cc = cc_conns g) as En.
  { destruct (cc_algorithm cfg); [|injection Ecc as <-; reflexivity..].
    unfold dctcp_win_init in Ecc. apply bind_Ok_inv in Ecc as (r & _ & Ecc). by injection Ecc as <-. }
  split; [|split; [done|intros; by rewrite lookup_insert_ne]]. constructor.
  - split; [done|]. exists (upd_cc c cc). split; [by rewrite lookup_insert_eq|].
    unfold next_of, upd_cc. simpl. rewrite En. eapply cc_chain_agree; [|exact Hc].
    intros p Hp. unfold link_at. rewrite lookup_insert_ne; [done|]. intros ->. done.
  - by constructor.
  - simpl. intros p Hp. apply Hx in Hp. set_solver.
Qed.

Lemma cc_chain_unlink h c cp p A x B o :
  cc_chain h o (A ++ cp :: x :: B) -> NoDup (A ++ cp :: x :: B) ->
  h !! x = Some c -> h !! cp = Some p ->
  cc_chain (<[cp := upd_cc p ((cn_cc p) <| cc_next := next_of c |>)]> h) o (A ++ cp :: B).
Proof.
  revert o. induction A as [|a A IH]; simpl; intros o Hc Hn Hx Hp.
  - destruct Hc as (-> & p' & Hp' & Hc). split; [done|]. eexists. split; [by rewrite lookup_insert_eq|].
    unfold next_of at 1, upd_cc. simpl. simpl in Hc. destruct Hc as (_ & c' & Hc' & Hc).
    rewrite Hx in Hc'. injection Hc' as ->. eapply cc_chain_agree; [|exact Hc].
    intros q Hq. unfold link_at. rewrite lookup_insert_ne; [done|].
    apply NoDup_cons in Hn as [Hn _]. set_solver.
  - destruct Hc as (-> & a' & Ha & Hc). split; [done|]. apply NoDup_cons in Hn as [Hna Hn].
    exists a'. split; [rewrite lookup_insert_ne; [done|set_solver]|]. by apply IH.
Qed.

Lemma find_pred_ok h A cp x B : forall fuel o,
  cc_chain h o (A ++ cp :: x :: B) -> NoDup (A ++ cp :: x :: B) -> (length A < fuel)%nat ->
  find_pred fuel h o x = Ok cp.
Proof.
  induction A as [|a A IH]; intros [|fuel] o Hc Hn Hf; simpl in *; try lia.
  - destruct Hc as (-> & c & Hc & En & _). unfold get_conn. rewrite Hc. osimpl. rewrite En.
    by rewrite bool_decide_eq_true_2.
  - destruct Hc as (-> & c & Hc & Hcc). unfold get_conn. rewrite Hc. osimpl.
    apply NoDup_cons in Hn as [Hna Hn]. rewrite bool_decide_eq_false_2.
    + apply IH; [done|done|lia].
    + intros E. rewrite E in Hcc. destruct A as [|b A]; simpl in Hcc; destruct Hcc as [[= <-] _].
      * apply NoDup_cons in Hn as [Hn _]. set_solver.
      * apply NoDup_cons in Hn as [Hn _]. set_solver.
Qed.

Lemma cc_conn_remove_list h g l conn :
  cc_list h g l -> conn ∈ l ->
  exists h' g', cc_conn_remove h g conn = Ok (h', g') /\
    cc_list h' g' (filter (fun p => p <> conn) l) /\
    next_conn g' <> Some conn /\ last_ts g' = last_ts g /\ kstats g' = kstats g /\
    forall p, (fun c => upd_cc c ((cn_cc c) <| cc_next := (None : option Z) |>)) <$> h' !! p =
              (fun c => upd_cc c ((cn_cc c) <| cc_next := (None : option Z) |>)) <$> h !! p.
Proof.
  intros [Hc Hn Hx] Hin. apply list_elem_of_split in Hin as (A & B & ->).
  destruct (cc_chain_lookup _ _ _ _ _ Hc) as (c & Hcon & Hnext).
  pose proof (NoDup_app_remove _ _ _ Hn) as [HnAB Hnot].
  rewrite filter_neq_app by done. unfold cc_conn_remove, get_conn. rewrite Hcon. osimpl.
  set (g1 := if bool_decide (next_conn g = Some conn) then _ else g).
  assert (cc_conns g1 = cc_conns g /\ last_ts g1 = last_ts g /\ kstats g1 = kstats g) as (E1 & E2 & E3)
    by (unfold g1; by destruct (bool_decide _)).
  assert (forall p, next_conn g1 = Some p -> p ∈ A ++ B) as Hx1.
  { unfold g1. case_bool_decide as Hd; simpl.
    - rewrite Hnext. intros p Hp. destruct B; [done|]. injection Hp as ->. set_solver.
    - intros p Hp. specialize (Hx p Hp). assert (p <> conn) by congruence. set_solver. }
  assert (next_conn g1 <> Some conn) as Hne.
  { intros E. by apply Hx1 in E. }
  destruct A as [|a A].
  - simpl in Hc. destruct Hc as (Hf & c' & Hc' & Hc). rewrite Hcon in Hc'. injection Hc' as <-.
    rewrite E1, bool_decide_eq_true_2 by done. exists h, (g1 <| cc_conns := next_of c |>).
    split_and!; done.
  - rewrite E1, bool_decide_eq_false_2.
    2: { intros E. destruct Hc as [Hf _]. rewrite Hf in E. injection E as ->.
         apply NoDup_cons in Hn as [Hn _]. set_solver. }
    destruct (exists_last (l := a :: A)) as (A' & cp & EA); [done|]. rewrite EA in *. clear EA a A.
    rewrite <- !app_assoc in *. cbn [app] in *.
    rewrite (find_pred_ok h A' cp conn B) by
      (try done; pose proof (cc_chain_size _ _ _ Hc Hn) as Hs; rewrite length_app in Hs; simpl in Hs;
       unfold heap_fuel; lia).
    osimpl. destruct (cc_chain_lookup _ _ _ _ _ Hc) as (p & Hp & Hpn). rewrite Hp. osimpl.
    exists (<[cp := upd_cc p ((cn_cc p) <| cc_next := next_of c |>)]> h), g1. split; [done|].
    split_and!; try done.
    + constructor; [rewrite E1; by apply cc_chain_unlink with conn|done|done].
    + intros q. destruct (decide (q = cp)) as [->|]; [|by rewrite lookup_insert_ne].
      rewrite lookup_insert_eq, Hp. done.
Qed.

(** The list of connections under congestion control is a list: a connection
    that is initialised is put in front, one that is removed is taken out wherever
    it is, without failing, and the connection the next poll starts from is never
    one that was removed. Nothing but the links of other connections changes. *)
Theorem cc_list_ops_correct cfg cur_ts h g l : cc_list h g l ->
  (forall conn h' g', conn ∉ l -> cc_conn_init cfg cur_ts h g conn = Ok (h', g') ->
    cc_list h' g' (conn :: l) /\ next_conn g' = next_conn g /\
    forall p, p <> conn -> h' !! p = h !! p) /\
  (forall conn, conn ∈ l -> exists h' g', cc_conn_remove h g conn = Ok (h', g') /\
    cc_list h' g' (filter (fun p => p <> conn) l) /\
    next_conn g' <> Some conn /\ last_ts g' = last_ts g /\ kstats g' = kstats g /\
    forall p, (fun c => upd_cc c ((cn_cc c) <| cc_next := (None : option Z) |>)) <$> h' !! p =
              (fun c => upd_cc c ((cn_cc c) <| cc_next := (None : option Z) |>)) <$> h !! p).
Proof.
  intros Hl. split.
  - intros conn h' g' Hn E. by eapply cc_conn_init_list.
  - intros conn Hin. by apply cc_conn_remove_list.
Qed.

(** ** A poll is a walk around the list *)
Section Walk.
Context {L : Type} `{RdmaLink L}.
Implicit Types (s : cc_state L) (g : cc_globals).

(** What the walk may change: of the global variables only the statistics. *)
Definition same_list_vars (g g' : cc_globals) : Prop :=
  cc_conns g' = cc_conns g /\ next_conn g' = next_conn g /\ last_ts g' = last_ts g.

Lemma cc_update_next cfg c cc st ts cc' : cc_update cfg c cc st ts = Ok cc' -> cc_next cc' = cc_next cc.
Proof.
  unfold cc_update, dctcp_win_update, dctcp_rate_update, timely_update. intros E.
  destruct (cc_algorithm cfg);
    repeat (match goal with
    | H : (if ?b then _ else _) = Ok _ |- _ => destruct b
    | H : (let '(_, _) := ?x in _) = Ok _ |- _ => destruct x
    | H : mbind _ _ = Ok _ |- _ => apply bind_Ok_inv in H as (? & ? & H)
    end; cbv zeta in * ); injection E as <-; reflexivity.
Qed.

Lemma issue_retransmits_frame cfg s c st ts c' s' : issue_retransmits cfg s c st ts = Ok (c', s') ->
  next_of c' = next_of c /\ cn_status c' = cn_status c /\ cc_last_ts (cn_cc c') = cc_last_ts (cn_cc c) /\
  cc_rtt (cn_cc c') = cc_rtt (cn_cc c) /\ cc_rate (cn_cc c') = cc_rate (cn_cc c) /\ cn_flow_id c' = cn_flow_id c /\
  cs_conns s' = cs_conns s /\ same_list_vars (cs_g s) (cs_g s').
Proof.
  unfold issue_retransmits. cbv zeta. intros E.
  repeat (match goal with
    | H : (if ?b then _ else _) = Ok _ |- _ => destruct b
    | H : (let '(_, _) := ?x in _) = Ok _ |- _ => destruct x
    | H : mbind _ _ = Ok _ |- _ => apply bind_Ok_inv in H as (? & ? & H)
    end; cbv zeta in * ); injection E as <- <-; by repeat split.
Qed.

Lemma cc_control_frame cfg ts s p s' : cc_control cfg ts s p = Ok s' ->
  same_links (cs_conns s) (cs_conns s') /\ same_list_vars (cs_g s) (cs_g s') /\
  forall q, q <> p -> cs_conns s' !! q = cs_conns s !! q.
Proof.
  unfold cc_control. intros E. apply bind_Ok_inv in E as (c & Hc & E).
  unfold get_conn in Hc. destruct (cs_conns s !! p) as [c0|] eqn:Hp; [|done]. injection Hc as ->.
  destruct (negb _); [by injection E as <-|]. destruct (_ <? _); [by injection E as <-|].
  apply bind_Ok_inv in E as (st & _ & E). destruct st as [stats|]; [|done].
  destruct (stats_diff (cn_cc c) stats) as [cc d] eqn:Ed. cbv zeta in E.
  apply bind_Ok_inv in E as (cc' & Eu & E). apply bind_Ok_inv in E as ([c' s1] & Ei & E).
  apply bind_Ok_inv in E as ([rv nic] & _ & E). injection E as <-.
  apply issue_retransmits_frame in Ei as (Hn & _ & _ & _ & _ & _ & Hh & Hg). simpl in Hh, Hg |- *. rewrite Hh.
  split_and!; [|done|intros q Hq; by rewrite lookup_insert_ne].
  intros q. unfold link_at. destruct (decide (q = p)) as [->|]; [|by rewrite lookup_insert_ne].
  rewrite lookup_insert_eq, Hp. simpl. f_equal.
  assert (next_of c' = next_of c) as En.
  { rewrite Hn. unfold next_of. simpl. apply cc_update_next in Eu. rewrite Eu.
    unfold stats_diff in Ed. by injection Ed as <- _. }
  unfold next_of in *. simpl. done.
Qed.

(** Run the control loop for some connections in turn. *)
Fixpoint control_all (cfg : configuration) (ts : Z) (s : cc_state L) (ps : list Z) : outcome (cc_state L) :=
  match ps with
  | [] => mret s
  | p :: ps => s ← cc_control cfg ts s p; control_all cfg ts s ps
  end.

(** The list [l] of connections and the index of the one where the next poll
    starts. *)
Record cc_ring (s : cc_state L) (l : list Z) (i : Z) : Prop := {
  cr_chain : cc_chain (cs_conns s) (cc_conns (cs_g s)) l;
  cr_nodup : NoDup l;
  cr_pos : 0 <= i < Z.of_nat (length l);
  cr_next : match next_conn (cs_g s) with Some p => l !! Z.to_nat i = Some p | None => i = 0 end;
}.

Definition cell (l : list Z) (i : Z) : Z := l !!! Z.to_nat (i mod Z.of_nat (length l)).

Lemma ring_read_cons (l : list Z) i n : 0 < n -> ring_read l i n = cell l i :: ring_read l (i + 1) (n - 1).
Proof.
  intros Hn. replace n with (1 + (n - 1)) by lia. rewrite ring_read_app by lia.
  replace (1 + (n - 1) - 1) with (n - 1) by lia. unfold ring_read at 1, cell. simpl. by rewrite Z.add_0_r.
Qed.

Lemma cc_succ_ok s l i : cc_chain (cs_conns s) (cc_conns (cs_g s)) l -> (0 < length l)%nat ->
  cc_succ s (cell l i) = Ok (Some (cell l (i + 1))).
Proof.
  intros Hc Hl. unfold cell. set (n := Z.of_nat (length l)).
  pose proof (Z.mod_pos_bound i n ltac:(lia)) as Hi.
  assert (l !! Z.to_nat (i mod n) = Some (l !!! Z.to_nat (i mod n))) as Hk by (apply list_lookup_lookup_total_lt; lia).
  apply list_elem_of_split_length in Hk as (A & B & El & EA).
  set (p := l !!! Z.to_nat (i mod n)) in *. clearbody p.
  assert (n = Z.of_nat (length A) + 1 + Z.of_nat (length B)) as En.
  { unfold n. rewrite El, length_app. simpl. lia. }
  rewrite El in Hc. destruct (cc_chain_lookup _ _ _ _ _ Hc) as (c & Hp & Hnx).
  unfold cc_succ, get_conn. rewrite Hp. osimpl. rewrite Hnx. do 2 f_equal.
  destruct B as [|b B]; simpl.
  - assert ((i + 1) mod n = 0) as -> by (rewrite <- Z.add_mod_idemp_l by lia; simpl in En;
      replace (i mod n + 1) with n by lia; by rewrite Z.mod_same by lia).
    destruct A as [|a A]; simpl in Hc; destruct Hc as [-> _]; by rewrite El.
  - assert ((i + 1) mod n = i mod n + 1) as -> by (rewrite <- Z.add_mod_idemp_l by lia;
      apply Z.mod_small; simpl in En; lia).
    rewrite Z2Nat.inj_add, EA by lia. f_equal. rewrite El. rewrite lookup_total_app_r by lia.
    replace (length A + Z.to_nat 1 - length A)%nat with 1%nat by lia. done.
Qed.

Lemma cell_elem (l : list Z) i : l <> [] -> cell l i ∈ l.
Proof.
  intros Hl. assert (0 < length l)%nat by (destruct l; [done|simpl; lia]).
  pose proof (Z.mod_pos_bound i (Z.of_nat (length l)) ltac:(lia)).
  apply list_elem_of_lookup_2 with (Z.to_nat (i mod Z.of_nat (length l))).
  apply list_lookup_lookup_total_lt. lia.
Qed.

Lemma cell_inj (l : list Z) i n : NoDup l -> 0 < n < Z.of_nat (length l) -> cell l (i + n) <> cell l i.
Proof.
  intros Hn Hr E. unfold cell in E. set (len := Z.of_nat (length l)) in *.
  pose proof (Z.mod_pos_bound i len ltac:(lia)). pose proof (Z.mod_pos_bound (i + n) len ltac:(lia)).
  assert (Z.to_nat ((i + n) mod len) = Z.to_nat (i mod len)) as E'.
  { eapply NoDup_lookup; [done| |]; [apply list_lookup_lookup_total_lt; lia|].
    rewrite E. apply list_lookup_lookup_total_lt. lia. }
  apply (ring_cell_disjoint len i 0 n 0 (len - n)); try lia. rewrite !Z.add_0_r. lia.
Qed.

Lemma cell_mod (l : list Z) i : cell l (i mod Z.of_nat (length l)) = cell l i.
Proof. unfold cell. by rewrite Zmod_mod. Qed.

Lemma control_all_frame cfg ts ps : forall s s', control_all cfg ts s ps = Ok s' ->
  same_links (cs_conns s) (cs_conns s') /\ same_list_vars (cs_g s) (cs_g s') /\
  forall q, q ∉ ps -> cs_conns s' !! q = cs_conns s !! q.
Proof.
  induction ps as [|p ps IH]; simpl; intros s s' E; [injection E as <-; by repeat split|].
  apply bind_Ok_inv in E as (s1 & E1 & E2). apply cc_control_frame in E1 as (A1 & (B1 & B2 & B3) & C1).
  apply IH in E2 as (A2 & (D1 & D2 & D3) & C2). split; [|split].
  - intros q. by rewrite A1, A2.
  - repeat split; congruence.
  - intros q Hq. rewrite C2, C1; [done| |]; set_solver.
Qed.

Lemma cc_rounds_ok cfg ts l i : NoDup l -> forall k s n,
  cc_chain (cs_conns s) (cc_conns (cs_g s)) l -> 0 <= n <= Z.of_nat (length l) -> (0 < length l)%nat ->
  let m := Z.min (Z.of_nat k) (Z.of_nat (length l) - n) in
  cc_rounds k cfg ts (Some (cell l i)) n s (Some (cell l (i + n))) =
    (s' ← control_all cfg ts s (ring_read l (i + n) m); mret (Some (cell l (i + n + m)), n + m, s')).
Proof.
  intros Hn. induction k as [|k IH]; intros s n Hc Hr Hl m.
  - replace m with 0 by lia. simpl. by rewrite !Z.add_0_r.
  - cbn [cc_rounds]. destruct (Z.eq_dec n (Z.of_nat (length l))) as [En|En].
    + replace m with 0 by lia. rewrite (proj2 (Z.eqb_neq n 0)) by lia.
      assert (cell l (i + n) = cell l i) as ->.
      { unfold cell. rewrite En. replace (i + Z.of_nat (length l)) with (i + 1 * Z.of_nat (length l)) by lia.
        by rewrite Z_mod_plus_full. }
      rewrite bool_decide_eq_true_2 by done. simpl. rewrite !Z.add_0_r. do 4 f_equal. unfold cell. rewrite En.
      replace (i + Z.of_nat (length l)) with (i + 1 * Z.of_nat (length l)) by lia. by rewrite Z_mod_plus_full.
    + assert ((n =? 0) || negb (bool_decide (Some (cell l (i + n)) = Some (cell l i))) = true) as ->.
      { destruct (Z.eqb_spec n 0); [done|]. simpl. rewrite bool_decide_eq_false_2; [done|].
        intros E. injection E. apply cell_inj; [done|lia]. }
      rewrite ring_read_cons by lia. simpl. destruct (cc_control cfg ts s (cell l (i + n))) as [s1|] eqn:E1; [|done].
      simpl. apply cc_control_frame in E1 as (Hs1 & (Hg1 & _) & _).
      assert (cc_chain (cs_conns s1) (cc_conns (cs_g s1)) l) as Hc1.
      { rewrite Hg1. eapply cc_chain_agree; [|exact Hc]. intros p _. apply Hs1. }
      rewrite (cc_succ_ok s1 l (i + n)) by done. simpl. rewrite <- Z.add_assoc, IH by (try done; lia).
      replace (Z.min (Z.of_nat k) (Z.of_nat (length l) - (n + 1))) with (m - 1) by lia.
      rewrite !Z.add_assoc. replace (i + n + 1 + (m - 1)) with (i + n + m) by lia.
      by replace (n + 1 + (m - 1)) with (n + m) by lia.
Qed.

Lemma cc_ring_first s l i : cc_ring s l i ->
  match next_conn (cs_g s) with Some p => Some p | None => cc_conns (cs_g s) end = Some (cell l i).
Proof.
  intros [Hc _ Hi Hx]. unfold cell. rewrite Z.mod_small by lia. destruct (next_conn (cs_g s)).
  - f_equal. symmetry. by apply list_lookup_total_correct.
  - subst i. destruct l; [simpl in Hi; lia|]. by destruct Hc as [-> _].
Qed.

(** The state a poll at time [ts] leaves, when its walk ended at [c]. *)
Definition poll_end (s : cc_state L) (c ts : Z) : cc_state L :=
  let g := (cs_g s) <| next_conn := Some c |> in
  mk_ccs (cs_conns s) (g <| last_ts := ts |>) (cs_nic s) (cs_link s).

Lemma cc_poll_walk cfg ts s l i : cc_ring s l i ->
  let n := Z.min 128 (Z.of_nat (length l)) in
  cc_poll cfg ts s =
    (s' ← control_all cfg ts s (ring_read l i n); mret (n, poll_end s' (cell l (i + n)) ts)) /\
  forall s', control_all cfg ts s (ring_read l i n) = Ok s' ->
    cc_ring (poll_end s' (cell l (i + n)) ts) l ((i + n) mod Z.of_nat (length l)).
Proof.
  intros Hring n. pose proof (cc_ring_first _ _ _ Hring) as Hf. destruct Hring as [Hc Hn Hi Hx]. split.
  - unfold cc_poll. rewrite Hf. rewrite <- (Z.add_0_r i) at 2. rewrite cc_rounds_ok by (try done; lia).
    rewrite Z.add_0_r. replace (Z.min (Z.of_nat CC_ROUNDS) _) with n by (unfold CC_ROUNDS; lia).
    rewrite !Z.add_0_l. by destruct (control_all cfg ts s (ring_read l i n)).
  - intros s' E. apply control_all_frame in E as (Hl & (Hg & _) & _).
    pose proof (Z.mod_pos_bound (i + n) (Z.of_nat (length l)) ltac:(lia)). constructor; simpl.
    + rewrite Hg. eapply cc_chain_agree; [|exact Hc]. intros p _. apply Hl.
    + done.
    + done.
    + unfold cell. apply list_lookup_lookup_total_lt. lia.
Qed.

(** C34. A poll is one walk around the list: it runs the control loop for the next
    connections from where the last poll stopped, once for each of at most 128, in
    the order of the list, stopping after a whole round, and leaves the place for
    the next. The loop over pointers that compares with its first element is this
    walk also when a step of it stops. *)
Theorem cc_poll_round_robin cfg ts s l i : cc_ring s l i ->
  let n := Z.min 128 (Z.of_nat (length l)) in
  cc_poll cfg ts s =
    (s' ← control_all cfg ts s (ring_read l i n); mret (n, poll_end s' (cell l (i + n)) ts)) /\
  (forall s', control_all cfg ts s (ring_read l i n) = Ok s' ->
    cc_ring (poll_end s' (cell l (i + n)) ts) l ((i + n) mod Z.of_nat (length l))) /\
  NoDup (ring_read l i n).
Proof.
  intros Hring n. destruct (cc_poll_walk cfg ts s l i Hring) as [E1 E2]. split; [done|]. split; [done|].
  destruct Hring as [_ Hn Hi _]. apply NoDup_alt. intros a b x Ha Hb.
  assert (forall (c : nat) y, ring_read l i n !! c = Some y -> Z.of_nat c < n /\ y = cell l (i + Z.of_nat c)) as Hcell.
  { intros c y Hc. assert (Z.of_nat c < n).
    { apply lookup_lt_Some in Hc. rewrite ring_read_length in Hc. lia. }
    split; [done|]. rewrite ring_read_lookup in Hc by done. by injection Hc. }
  apply Hcell in Ha as [Ha Exa]. apply Hcell in Hb as [Hb Exb]. rewrite Exa in Exb.
  destruct (lt_eq_lt_dec a b) as [[Hab|]|Hab]; [exfalso|done|exfalso].
  - apply (cell_inj l (i + Z.of_nat a) (Z.of_nat b - Z.of_nat a)); [done|lia|].
    rewrite Exb. f_equal. lia.
  - apply (cell_inj l (i + Z.of_nat b) (Z.of_nat a - Z.of_nat b)); [done|lia|].
    rewrite <- Exb. f_equal. lia.
Qed.

(** ** Every connection gets its turn *)

Fixpoint cc_polls (cfg : configuration) (s : cc_state L) (ts : list Z) : outcome (cc_state L) :=
  match ts with
  | [] => mret s
  | t :: ts => '(_, s) ← cc_poll cfg t s; cc_polls cfg s ts
  end.

(** The control loop of [c] ran at time [t], or had nothing to do then. *)
Definition attended (cfg : configuration) (t : Z) (c : connection) : Prop :=
  cn_status c <> CONN_OPEN \/ cc_last_ts (cn_cc c) = t \/
  u32 (t - cc_last_ts (cn_cc c)) < u32 (cc_rtt (cn_cc c) * cc_control_interval cfg).

Definition attended_at (cfg : configuration) (T : list Z) (s : cc_state L) (p : Z) : Prop :=
  exists t c, t ∈ T /\ cs_conns s !! p = Some c /\ attended cfg t c.

Lemma cc_control_attends cfg t s p s' : cc_control cfg t s p = Ok s' ->
  exists c, cs_conns s' !! p = Some c /\ attended cfg t c.
Proof.
  unfold cc_control, attended. intros E. apply bind_Ok_inv in E as (c & Hc & E).
  unfold get_conn in Hc. destruct (cs_conns s !! p) as [c0|] eqn:Hp; [|done]. injection Hc as ->.
  case_bool_decide as Ho; simpl in E; [|injection E as <-; exists c; by eauto].
  destruct (Z.ltb_spec (u32 (t - cc_last_ts (cn_cc c))) (u32 (cc_rtt (cn_cc c) * cc_control_interval cfg)));
    [injection E as <-; exists c; by eauto|].
  apply bind_Ok_inv in E as (st & _ & E). destruct st as [stats|]; [|done].
  destruct (stats_diff (cn_cc c) stats) as [cc d]. cbv zeta in E.
  apply bind_Ok_inv in E as (cc' & Eu & E). apply bind_Ok_inv in E as ([c' s1] & Ei & E).
  apply bind_Ok_inv in E as ([rv nic] & _ & E). injection E as <-. simpl.
  eexists. split; [by rewrite lookup_insert_eq|]. simpl. by eauto.
Qed.

Lemma control_all_attends cfg t ps : forall s s' T, control_all cfg t s ps = Ok s' ->
  (forall p, p ∈ ps -> attended_at cfg [t] s' p) /\
  (forall p, attended_at cfg T s p -> attended_at cfg (t :: T) s' p).
Proof.
  induction ps as [|q ps IH]; simpl; intros s s' T E.
  - injection E as <-. split; [by intros p Hp%elem_of_nil|].
    intros p (t' & c & Ht & Hc & Ha). exists t', c. split; [set_solver|done].
  - apply bind_Ok_inv in E as (s1 & E1 & E2). pose proof (cc_control_attends _ _ _ _ _ E1) as (c & Hc & Ha).
    apply cc_control_frame in E1 as (_ & _ & Hf). split.
    + intros p Hp. destruct (IH s1 s' [] E2) as [IH1 _]. destruct (IH s1 s' [t] E2) as [_ IH2].
      destruct (decide (p ∈ ps)); [by apply IH1|]. assert (p = q) as -> by set_solver.
      destruct (IH2 q) as (t' & c' & Ht & ?); [exists t, c; set_solver|]. exists t', c'. set_solver.
    + intros p (t' & c' & Ht & Hc' & Ha'). destruct (decide (p = q)) as [->|Hpq].
      * destruct (IH s1 s' [t] E2) as [_ IH2].
        destruct (IH2 q) as (t2 & c2 & Ht2 & ?); [exists t, c; set_solver|]. exists t2, c2. set_solver.
      * destruct (IH s1 s' T E2) as [_ IH2]. apply IH2. exists t', c'. by rewrite Hf.
Qed.

Lemma ring_read_elem (l : list Z) i n j : 0 <= j < n -> cell l (i + j) ∈ ring_read l i n.
Proof.
  intros Hj. apply list_elem_of_lookup_2 with (Z.to_nat j). rewrite ring_read_lookup by lia.
  unfold cell. do 4 f_equal. lia.
Qed.

Lemma cc_polls_ok cfg l ts : forall s s' i, cc_ring s l i -> cc_polls cfg s ts = Ok s' ->
  let n := Z.min 128 (Z.of_nat (length l)) in
  (exists i', cc_ring s' l i') /\
  (forall T p, attended_at cfg T s p -> attended_at cfg (T ++ ts) s' p) /\
  forall j, 0 <= j < Z.of_nat (length ts) * n -> attended_at cfg ts s' (cell l (i + j)).
Proof.
  induction ts as [|t ts IH]; intros s s' i Hr E n.
  - simpl in E. injection E as <-. split; [by exists i|]. split; [|simpl; lia].
    intros T p. by rewrite app_nil_r.
  - cbn [cc_polls] in E. destruct (cc_poll_walk cfg t s l i Hr) as [Ew Hr'].
    apply bind_Ok_inv in E as ([rv s1] & E1 & E2). rewrite Ew in E1.
    apply bind_Ok_inv in E1 as (s0 & E0 & E1). injection E1 as _ <-.
    specialize (Hr' s0 E0). fold n in E0, Hr', E2.
    destruct (IH _ _ _ Hr' E2) as (Hr2 & Hkeep & Hcov). split; [done|].
    assert (forall T p, attended_at cfg T s p -> attended_at cfg (T ++ t :: ts) s' p) as Hk.
    { intros T p Hp. destruct (control_all_attends _ _ _ _ _ T E0) as [_ H2].
      apply H2 in Hp. destruct (Hkeep (t :: T) p) as (t' & c & Ht & ?).
      - destruct Hp as (t' & c & ? & ? & ?). by exists t', c.
      - exists t', c. set_solver. }
    split; [done|]. intros j Hj. cbn [length] in Hj. destruct (Z.lt_ge_cases j n) as [Hjn|Hjn].
    + destruct (control_all_attends _ _ _ _ _ [] E0) as [H1 _].
      destruct (Hkeep [t] (cell l (i + j))) as (t' & c & Ht & ?).
      * destruct (H1 (cell l (i + j))) as (t' & c & ?); [apply ring_read_elem; lia|]. by exists t', c.
      * exists t', c. set_solver.
    + destruct (Hcov (j - n)) as (t' & c & Ht & Hc); [fold n; lia|].
      assert (cell l ((i + n) mod Z.of_nat (length l) + (j - n)) = cell l (i + j)) as E.
      { pose proof (cr_pos _ _ _ Hr). unfold cell. rewrite Z.add_mod_idemp_l by lia. do 3 f_equal. lia. }
      rewrite E in Hc. exists t', c. set_solver.
Qed.

(** C35. Liveness: with any number of connections, as many polls as blocks of 128
    attend to every one of them: for each open connection there is one of the
    polls at whose time its control loop ran, or was not yet due. *)
Theorem cc_polls_attend_all cfg l ts s s' i :
  cc_ring s l i -> cc_polls cfg s ts = Ok s' -> Z.of_nat (length l) <= 128 * Z.of_nat (length ts) ->
  forall p, p ∈ l -> exists t c, t ∈ ts /\ cs_conns s' !! p = Some c /\
    (cn_status c = CONN_OPEN -> cc_last_ts (cn_cc c) = t \/
       u32 (t - cc_last_ts (cn_cc c)) < u32 (cc_rtt (cn_cc c) * cc_control_interval cfg)).
Proof.
  intros Hr E Hlen p Hp. destruct (cc_polls_ok cfg l ts s s' i Hr E) as (_ & _ & Hcov).
  pose proof (cr_pos _ _ _ Hr) as Hi. apply list_elem_of_lookup_1 in Hp as [k Hk].
  pose proof (lookup_lt_Some _ _ _ Hk) as Hkl. set (len := Z.of_nat (length l)) in *.
  destruct (Hcov ((Z.of_nat k - i) mod len)) as (t & c & Ht & Hc & Ha).
  { pose proof (Z.mod_pos_bound (Z.of_nat k - i) len ltac:(lia)). destruct ts; simpl in *; lia. }
  assert (cell l (i + (Z.of_nat k - i) mod len) = p) as Ep.
  { unfold cell. fold len. rewrite Z.add_mod_idemp_r by lia. replace (i + (Z.of_nat k - i)) with (Z.of_nat k) by lia.
    rewrite Z.mod_small, Nat2Z.id by lia. by apply list_lookup_total_correct. }
  rewrite Ep in Hc. exists t, c. split_and!; [done|done|]. intros Ho. destruct Ha as [Ha|Ha]; [done|exact Ha].
Qed.
End Walk.

(** ** Concrete states *)
Module Demo.
Definition conn (fid : Z) (nx : option Z) : connection :=
  mk_conn 0 0 None 0 0 0 queue_null queue_null 0 0 0 0 CONN_OPEN 0 0 0 0 0 false (CongCtl.Demo.cc0 nx) None fid 0 0 0.
Definition conns : conn_heap := {[ 300 := conn 0 (Some 200); 200 := conn 1 (Some 100); 100 := conn 0 None ]}.
Definition g : cc_globals := mk_ccg 1000 (Some 300) (Some 200) (mk_kstats 0 0 0 0).
Definition nic : nicif := set_flow (set_flow FlowTable.Demo.s 0 flowst0) 1 flowst0.
Definition s : cc_state RdmaQueue.peer := mk_ccs conns g nic RdmaQueue.Demo.link.
Lemma chain : cc_chain conns (Some 300) [300; 200; 100].
Proof. simpl. repeat (split; [reflexivity|]; eexists; split; [reflexivity|]). reflexivity. Qed.
Lemma distinct : NoDup [300; 200; 100].
Proof. apply (bool_decide_unpack _). vm_compute. exact I. Qed.
Lemma s_list : cc_list conns g [300; 200; 100].
Proof. split; [exact chain|exact distinct|]. intros p [= <-]. set_solver. Qed.
Lemma s_ring : cc_ring s [300; 200; 100] 1.
Proof. split; [exact chain|exact distinct|simpl; lia|reflexivity]. Qed.
End Demo.

Lemma cc_list_ops_correct_witness :
  exists h' g', cc_conn_remove Demo.conns Demo.g 200 = Ok (h', g') /\ cc_list h' g' [300; 100] /\
    next_conn g' = Some 100.
Proof.
  destruct (cc_list_ops_correct (CongCtl.Demo.cfg CONFIG_CC_TIMELY) 5 Demo.conns Demo.g [300; 200; 100] Demo.s_list)
    as [_ H]. destruct (H 200) as (h' & g' & E & Hl & _); [set_solver|].
  exists h', g'. split; [exact E|]. split; [exact Hl|]. vm_compute in E. by injection E as _ <-.
Defined.

Lemma cc_poll_round_robin_witness :
  exists s', cc_poll (CongCtl.Demo.cfg CONFIG_CC_CONST_RATE) 2000 Demo.s = Ok (3, s') /\ cc_ring s' [300; 200; 100] 1 /\
    option_map (fun c => cc_last_ts (cn_cc c)) (cs_conns s' !! 300) = Some 2000.
Proof.
  destruct (cc_poll_round_robin (CongCtl.Demo.cfg CONFIG_CC_CONST_RATE) 2000 Demo.s [300; 200; 100] 1 Demo.s_ring)
    as (E & Hr & _).
  destruct (control_all (CongCtl.Demo.cfg CONFIG_CC_CONST_RATE) 2000 Demo.s
    (ring_read [300; 200; 100] 1 (Z.min 128 (Z.of_nat (length [300; 200; 100]))))) as [s0|e] eqn:E0;
    [|vm_compute in E0; discriminate E0].
  eexists. split; [exact E|]. split; [exact (Hr s0 eq_refl)|]. vm_compute in E0. injection E0 as <-. reflexivity.
Defined.

Lemma cc_polls_attend_all_witness :
  exists s', cc_polls (CongCtl.Demo.cfg CONFIG_CC_CONST_RATE) Demo.s [2000] = Ok s' /\
    forall p, p ∈ [300; 200; 100] -> exists t c, t ∈ [2000] /\ cs_conns s' !! p = Some c /\
    (cn_status c = CONN_OPEN -> cc_last_ts (cn_cc c) = t \/
       u32 (t - cc_last_ts (cn_cc c)) < u32 (cc_rtt (cn_cc c) * 2)).
Proof.
  destruct (cc_polls (CongCtl.Demo.cfg CONFIG_CC_CONST_RATE) Demo.s [2000]) as [s'|e] eqn:E;
    [|vm_compute in E; discriminate E].
  exists s'. split; [reflexivity|].
  exact (cc_polls_attend_all (CongCtl.Demo.cfg CONFIG_CC_CONST_RATE) [300; 200; 100] [2000] Demo.s s' 1
    Demo.s_ring E ltac:(simpl; lia)).
Defined.
