(* ===== verification/Cli.v ===== *)
(** * Command lines (include/cli.h, lib/utils/utils.c)

    Numbers and addresses as text: the functions of the C library the parsers are
    built on ([strtoul], [strtod], [inet_pton], [strchr], [strrchr],
    [getopt_long]), [parse_int8] to [parse_double] of include/cli.h,
    [util_parse_ipv4] and [util_parse_mac]. A [string] is a C string up to its
    terminator. Printing is not part of the program; it is here to state what
    parsing inverts. *)
From S2P Require Import Prelude.
From Stdlib Require Import Ascii String SpecFloat.

#[local] Open Scope string_scope.
#[local] Open Scope Z_scope.

(** ** Characters *)
Definition code (c : ascii) : Z := Z.of_nat (nat_of_ascii c).
Definition isspace (c : ascii) : bool := (code c =? 32) || (9 <=? code c) && (code c <=? 13).
Definition lower (c : ascii) : Z := if (65 <=? code c) && (code c <=? 90) then code c + 32 else code c.

(** The value of a digit in base 16; decimal digits are those below 10. *)
Definition xdigit (c : ascii) : option Z :=
  if (48 <=? code c) && (code c <=? 57) then Some (code c - 48)
  else if (97 <=? lower c) && (lower c <=? 102) then Some (lower c - 87)
  else None.
Definition digit_of (base : Z) (c : ascii) : option Z :=
  d ← xdigit c; if d <? base then Some d else None.

Fixpoint skip_space (s : string) : string :=
  match s with
  | String c t => if isspace c then skip_space t else s
  | EmptyString => s
  end.

(** An optional sign: is it a minus, and what follows. *)
Definition sign (s : string) : bool * string :=
  match s with
  | String "-" t => (true, t)
  | String "+" t => (false, t)
  | _ => (false, s)
  end.

(** The digits at the start of a string: their value on top of [acc], how many
    they are, and the rest. *)
Fixpoint digits (base acc n : Z) (s : string) : Z * Z * string :=
  match s with
  | String c t =>
      match digit_of base c with
      | Some d => digits base (base * acc + d) (n + 1) t
      | None => (acc, n, s)
      end
  | EmptyString => (acc, n, s)
  end.

(** ** Integers *)
Definition ULONG_MAX : Z := 18446744073709551615.

(** [strtoul(s, &end, 10)]: the value, and the string at [end]. *)
Definition strtoul (s : string) : Z * string :=
  let '(neg, t) := sign (skip_space s) in
  let '(v, n, rest) := digits 10 0 0 t in
  if n =? 0 then (0, s)
  else (if ULONG_MAX <? v then ULONG_MAX else if neg then u64 (- v) else v, rest).

(** What the parsers of include/cli.h check: [!*s || *end]. *)
Definition consumed (s rest : string) : bool := negb (String.eqb s "") && String.eqb rest "".

(** The value is stored whether parsing succeeds or not. *)
Definition parse_int64 (s : string) : Z * bool := let '(v, rest) := strtoul s in (v, consumed s rest).
Definition parse_int32 (s : string) : Z * bool := let '(v, rest) := strtoul s in (u32 v, consumed s rest).
Definition parse_int16 (s : string) : Z * bool := let '(v, rest) := strtoul s in (u16 v, consumed s rest).
Definition parse_int8 (s : string) : Z * bool := let '(v, rest) := strtoul s in (u8 v, consumed s rest).

(** ** Floating point: binary64 *)
Definition PREC : Z := 53.
Definition EMAX : Z := 1024.
Definition double_of (m : Z) : spec_float := binary_normalize PREC EMAX m 0 false.
Definition negate (neg : bool) (d : spec_float) : spec_float := if neg then SFopp d else d.

(** The double nearest to [m * 10 ^ e]. *)
Definition dec_double (m e : Z) : spec_float :=
  match m with
  | Zpos p =>
      if 0 <=? e then binary_normalize PREC EMAX (m * 10 ^ e) 0 false
      else
        let '(q, x, l) := SFdiv_core_binary PREC EMAX m 0 (10 ^ (- e)) 0 in
        binary_round_aux PREC EMAX false q x l
  | _ => S754_zero false
  end.
Definition hex_double (m e : Z) : spec_float := binary_normalize PREC EMAX m e false.

(** An exponent after one of two letters; without digits the letter is not part of
    the number. *)
Definition exponent (letter : Z) (s : string) : Z * string :=
  match s with
  | String c t =>
      if lower c =? letter then
        let '(neg, t) := sign t in
        let '(e, n, rest) := digits 10 0 0 t in
        if n =? 0 then (0, s) else (if neg then - e else e, rest)
      else (0, s)
  | EmptyString => (0, s)
  end.

(** Digits with an optional fraction: the value of all digits, how many they are,
    how many are in the fraction, and the rest. *)
Definition mantissa (base : Z) (s : string) : Z * Z * Z * string :=
  let '(v, n, rest) := digits base 0 0 s in
  match rest with
  | String "." t => let '(w, k, rest) := digits base v 0 t in (w, n + k, k, rest)
  | _ => (v, n, 0, rest)
  end.

(** A prefix without regard to case. *)
Fixpoint word (w s : string) : option string :=
  match w, s with
  | EmptyString, _ => Some s
  | String a w, String b s => if code a =? lower b then word w s else None
  | _, EmptyString => None
  end.

(** [n-char-sequence] in parentheses after [nan]. *)
Definition name_char (c : ascii) : bool :=
  match digit_of 10 c with
  | Some _ => true
  | None => (97 <=? lower c) && (lower c <=? 122) || (code c =? 95)
  end.
Fixpoint payload (s : string) : option string :=
  match s with
  | String ")" t => Some t
  | String c t => if name_char c then payload t else None
  | EmptyString => None
  end.

Definition decimal (s : string) : option (spec_float * string) :=
  let '(m, n, k, rest) := mantissa 10 s in
  if n =? 0 then None
  else let '(e, rest) := exponent 101 rest in Some (dec_double m (e - k), rest).

Definition hexadecimal (s : string) : option (spec_float * string) :=
  t ← word "0x" s;
  let '(m, n, k, rest) := mantissa 16 t in
  if n =? 0 then None
  else let '(e, rest) := exponent 112 rest in Some (hex_double m (e - 4 * k), rest).

(** [strtod(s, &end)] *)
Definition strtod (s : string) : spec_float * string :=
  let '(neg, t) := sign (skip_space s) in
  match word "infinity" t, word "inf" t, word "nan" t with
  | Some rest, _, _ => (S754_infinity neg, rest)
  | None, Some rest, _ => (S754_infinity neg, rest)
  | None, None, Some rest =>
      (S754_nan, match rest with String "(" r => default rest (payload r) | _ => rest end)
  | None, None, None =>
      match hexadecimal t with
      | Some (d, rest) => (negate neg d, rest)
      | None =>
          match decimal t with
          | Some (d, rest) => (negate neg d, rest)
          | None => (S754_zero false, s)
          end
      end
  end.

Definition parse_double (s : string) : spec_float * bool := let '(d, rest) := strtod s in (d, consumed s rest).

(** A double converted to [uint32_t]: the fraction is dropped; C leaves it
    undefined when the rest is out of range. *)
Definition double_to_u32 (d : spec_float) : outcome Z :=
  match d with
  | S754_zero _ => mret 0
  | S754_finite s m e =>
      let z := (if s then -1 else 1) * Z.quot (Zpos m * 2 ^ Z.max e 0) (2 ^ Z.max (- e) 0) in
      if (0 <=? z) && (z <? 4294967296) then mret z else Stop Undefined
  | _ => Stop Undefined
  end.

(** ** Searching *)

(** [strchr] and [strrchr]: what is before and after the first or the last [c]. *)
Fixpoint strchr (c : ascii) (s : string) : option (string * string) :=
  match s with
  | EmptyString => None
  | String x t =>
      if Ascii.eqb x c then Some ("", t)
      else match strchr c t with Some (a, b) => Some (String x a, b) | None => None end
  end.
Fixpoint strrchr (c : ascii) (s : string) : option (string * string) :=
  match s with
  | EmptyString => None
  | String x t =>
      match strrchr c t with
      | Some (a, b) => Some (String x a, b)
      | None => if Ascii.eqb x c then Some ("", t) else None
      end
  end.

(** ** Addresses *)

(** [inet_pton(AF_INET, ...)]: [octs] are the finished octets, [cur] the one that is
    read, which has a digit already when [saw]. *)
Fixpoint pton4 (s : string) (octs : list Z) (cur : Z) (saw : bool) : option (list Z) :=
  match s with
  | EmptyString =>
      if saw && (List.length octs =? 3)%nat then Some (octs ++ [cur])%list else None
  | String c t =>
      match digit_of 10 c with
      | Some d =>
          if saw && (cur =? 0) then None
          else if 255 <? 10 * cur + d then None
          else pton4 t octs (10 * cur + d) true
      | None =>
          if Ascii.eqb c "." && saw && (List.length octs <? 3)%nat then pton4 t (octs ++ [cur])%list 0 false else None
      end
  end.
Definition inet_pton (s : string) : option (list Z) := pton4 s [] 0 false.

(** Most significant octet first, which is what [htonl] makes of the octets in
    memory. *)
Definition of_octets (l : list Z) : Z := fold_left (fun a o => 256 * a + o) l 0.
Definition util_parse_ipv4 (s : string) : option Z := of_octets <$> inet_pton s.

(** [util_parse_mac]: the loop goes from the last octet to the first; the first one
    ends up lowest. *)
Fixpoint mac_octets (idx : list nat) (s : string) (y : Z) : option Z :=
  match idx with
  | [] => Some y
  | i :: idx =>
      match String.get (3 * i) s ≫= xdigit, String.get (3 * i + 1) s ≫= xdigit with
      | Some hi, Some lo => mac_octets idx s (Z.lor (u64 (Z.shiftl y 8)) (16 * hi + lo))
      | _, _ => None
      end
  end.
Definition is_colon (s : string) (i : nat) : bool :=
  match String.get i s with Some c => Ascii.eqb c ":" | None => false end.
Definition util_parse_mac (s : string) : option Z :=
  if negb (String.length s =? 17)%nat || negb (forallb (is_colon s) [2; 5; 8; 11; 14]%nat) then None
  else mac_octets [5; 4; 3; 2; 1; 0]%nat s 0.

(** ** Options *)
Inductive arg_kind := no_argument | required_argument.

Section getopt.
Context {V : Type}.

Record long_option := mk_option { name : string; has_arg : arg_kind; val : V }.

Inductive opt_result :=
| Opt (v : V) (optarg : string)   (** the value of an option, and [optarg] *)
| Question                        (** an error, reported by the library *)
| Done.                           (** no more options: -1 *)

Context `{EqDecision V}.

#[local] Instance kind_eq_dec : EqDecision arg_kind.
Proof. solve_decision. Defined.

Definition same_option (a b : long_option) : bool :=
  bool_decide (has_arg a = has_arg b) && bool_decide (val a = val b).

(** A name is found when it is equal to an option's, or the start of one, and of
    no other that would mean something else. *)
Definition find_option (opts : list long_option) (n : string) : option long_option :=
  match List.find (fun o => String.eqb (name o) n) opts with
  | Some o => Some o
  | None =>
      match List.filter (fun o => String.prefix n (name o)) opts with
      | [] => None
      | o :: l => if forallb (same_option o) l then Some o else None
      end
  end.

(** What follows the two dashes, with the arguments after it. *)
Definition long_opt (opts : list long_option) (s : string) (args : list string)
  : opt_result * list string :=
  let '(n, v) := match strchr "=" s with Some (n, v) => (n, Some v) | None => (s, None) end in
  match find_option opts n with
  | None => (Question, args)
  | Some o =>
      match has_arg o, v, args with
      | no_argument, None, _ => (Opt (val o) "", args)
      | no_argument, Some _, _ => (Question, args)
      | required_argument, Some v, _ => (Opt (val o) v, args)
      | required_argument, None, a :: args => (Opt (val o) a, args)
      | required_argument, None, [] => (Question, args)
      end
  end.

(** [getopt_long(argc, argv, "", opts, NULL)]: the arguments that are left, and
    those that are not options, which are moved behind the others. *)
Fixpoint getopt_long (opts : list long_option) (args nonopts : list string)
  : opt_result * list string * list string :=
  match args with
  | [] => (Done, [], nonopts)
  | String "-" (String "-" EmptyString) :: args => (Done, [], nonopts ++ args)%list
  | String "-" (String "-" s) :: args => (long_opt opts s args, nonopts)
  | String "-" (String _ _) :: args => (Question, args, nonopts)
  | a :: args => getopt_long opts args (nonopts ++ [a])%list
  end.
End getopt.
Arguments long_option V : clear implicits.
Arguments opt_result V : clear implicits.

(** ** Printing *)
Definition digit_char (d : Z) : ascii := ascii_of_nat (Z.to_nat (if d <? 10 then 48 + d else 87 + d)).
Fixpoint dec_digits (fuel : nat) (n : Z) (acc : string) : string :=
  match fuel with
  | O => acc
  | S fuel =>
      let acc := String (digit_char (n mod 10)) acc in
      if n / 10 =? 0 then acc else dec_digits fuel (n / 10) acc
  end.
(** Decimal, for numbers of up to 64 bits. *)
Definition dec (n : Z) : string := dec_digits 20 n "".
Definition octet (i x : Z) : Z := x / 2 ^ (8 * i) mod 256.
Definition print_ipv4 (ip : Z) : string :=
  dec (octet 3 ip) ++ "." ++ dec (octet 2 ip) ++ "." ++ dec (octet 1 ip) ++ "." ++ dec (octet 0 ip).
Definition hex2 (o : Z) : string := String (digit_char (o / 16)) (String (digit_char (o mod 16)) "").
Definition print_mac (m : Z) : string :=
  hex2 (octet 0 m) ++ ":" ++ hex2 (octet 1 m) ++ ":" ++ hex2 (octet 2 m) ++ ":" ++
  hex2 (octet 3 m) ++ ":" ++ hex2 (octet 4 m) ++ ":" ++ hex2 (octet 5 m).

(** ** Strings without a character *)
Definition lacks (c : ascii) (s : string) : Prop := strchr c s = None.

Lemma lacks_cons c x s : lacks c (String x s) <-> x <> c /\ lacks c s.
Proof.
  unfold lacks. simpl. destruct (Ascii.eqb_spec x c); [naive_solver|].
  destruct (strchr c s) as [[]|]; naive_solver.
Qed.
Lemma append_cons x a b : String x a ++ b = String x (a ++ b).
Proof. reflexivity. Qed.
Lemma lacks_app c a b : lacks c a -> lacks c b -> lacks c (a ++ b).
Proof.
  induction a as [|x a IH]; [done|]. rewrite append_cons, !lacks_cons. intros [? ?] ?. auto.
Qed.
Lemma strchr_app c a b : lacks c a -> strchr c (a ++ String c b) = Some (a, b).
Proof.
  induction a as [|x a IH]; [simpl; by rewrite Ascii.eqb_refl|]. rewrite append_cons, lacks_cons. intros [Hx Ha].
  simpl. rewrite IH by done. by destruct (Ascii.eqb_spec x c).
Qed.
Lemma strrchr_none c s : strrchr c s = None <-> lacks c s.
Proof.
  induction s as [|x s IH]; [done|]. rewrite lacks_cons, <- IH. simpl.
  destruct (strrchr c s) as [[]|]; [naive_solver|]. destruct (Ascii.eqb_spec x c); naive_solver.
Qed.
Lemma strrchr_app c a b : lacks c b -> strrchr c (a ++ String c b) = Some (a, b).
Proof.
  intros Hb%strrchr_none. induction a as [|x a IH]; [simpl; by rewrite Hb, Ascii.eqb_refl|]. rewrite append_cons. simpl. by rewrite IH.
Qed.

(** ** Numbers that are read back *)
Lemma range_cases (P : Z -> Prop) n d : Forall P (seqZ 0 n) -> 0 <= d < n -> P d.
Proof. intros H Hd. rewrite Forall_forall in H. apply H, elem_of_seqZ. lia. Qed.

Lemma xdigit_char d : 0 <= d < 16 -> xdigit (digit_char d) = Some d.
Proof. refine (range_cases (fun d => xdigit (digit_char d) = Some d) 16 d _). by repeat constructor. Qed.
Lemma digit_char_of d : 0 <= d < 10 -> digit_of 10 (digit_char d) = Some d.
Proof. intros H. unfold digit_of. rewrite xdigit_char by lia. simpl. by rewrite (proj2 (Z.ltb_lt _ _)) by lia. Qed.

Lemma digits_dec fuel n acc k : 0 <= n < 10 ^ Z.of_nat fuel -> (0 < fuel)%nat -> 0 <= k ->
  exists k', k < k' /\ digits 10 0 k (dec_digits fuel n acc) = digits 10 n k' acc.
Proof.
  revert n acc k. induction fuel as [|fuel IH]; intros n acc k Hn Hf Hk; [lia|]. cbn [dec_digits].
  pose proof (Z.mod_pos_bound n 10 ltac:(lia)). pose proof (Z.div_mod n 10 ltac:(lia)) as E.
  destruct (Z.eqb_spec (n / 10) 0) as [E0|E0].
  - exists (k + 1). split; [lia|]. cbn [digits]. rewrite digit_char_of by done. f_equal. lia.
  - rewrite Nat2Z.inj_succ, Z.pow_succ_r in Hn by lia. assert (0 <= n / 10 < 10 ^ Z.of_nat fuel) as Hq.
    { split; [apply Z.div_pos; lia|]. apply Z.div_lt_upper_bound; lia. }
    destruct fuel as [|fuel]; [simpl in Hq; lia|].
    destruct (IH (n / 10) (String (digit_char (n mod 10)) acc) k Hq ltac:(lia) Hk) as (k' & Hk' & ->).
    exists (k' + 1). split; [lia|]. cbn [digits]. rewrite digit_char_of by done. f_equal. lia.
Qed.

Lemma dec_digits_head fuel n acc : 0 <= n -> exists d t, 0 <= d < 10 /\
  dec_digits (S fuel) n acc = String (digit_char d) t.
Proof.
  revert n acc. induction fuel as [|fuel IH]; intros n acc Hn; pose proof (Z.mod_pos_bound n 10 ltac:(lia));
    cbn [dec_digits]; destruct (n / 10 =? 0); eauto.
  apply IH. apply Z.div_pos; lia.
Qed.
Lemma dec_head n : 0 <= n -> exists d t, 0 <= d < 10 /\ dec n = String (digit_char d) t.
Proof. apply dec_digits_head. Qed.

Lemma number_start d : 0 <= d < 10 -> forall t,
  sign (skip_space (String (digit_char d) t)) = (false, String (digit_char d) t).
Proof. refine (range_cases (fun d => forall t, _ = (false, String (digit_char d) t)) 10 d _). by repeat constructor. Qed.

Lemma strtoul_dec n : 0 <= n <= ULONG_MAX -> strtoul (dec n) = (n, "").
Proof.
  intros Hn. unfold ULONG_MAX in Hn. destruct (dec_head n ltac:(lia)) as (d & t & Hd & E).
  destruct (digits_dec 20 n "" 0 ltac:(simpl; lia) ltac:(lia) ltac:(lia)) as (k & Hk & D). fold (dec n) in D.
  unfold strtoul. rewrite E, number_start, <- E, D by done. cbn [digits].
  rewrite (proj2 (Z.eqb_neq k 0)), (proj2 (Z.ltb_ge ULONG_MAX n)) by (unfold ULONG_MAX; lia). done.
Qed.

Lemma dec_consumed n : 0 <= n -> consumed (dec n) "" = true.
Proof. intros Hn. destruct (dec_head n Hn) as (d & t & _ & ->). done. Qed.

(** A number is stored if it fits. *)
Lemma parse_int64_dec n : 0 <= n < 18446744073709551616 -> parse_int64 (dec n) = (n, true).
Proof. intros H. unfold parse_int64. rewrite strtoul_dec, dec_consumed by (unfold ULONG_MAX; lia). done. Qed.
Lemma parse_int32_dec n : 0 <= n < 4294967296 -> parse_int32 (dec n) = (n, true).
Proof. intros H. unfold parse_int32. rewrite strtoul_dec, dec_consumed, u32_small by (unfold ULONG_MAX; lia). done. Qed.
Lemma parse_int16_dec n : 0 <= n < 65536 -> parse_int16 (dec n) = (n, true).
Proof. intros H. unfold parse_int16. rewrite strtoul_dec, dec_consumed, u16_small by (unfold ULONG_MAX; lia). done. Qed.
Lemma parse_int8_dec n : 0 <= n < 256 -> parse_int8 (dec n) = (n, true).
Proof. intros H. unfold parse_int8. rewrite strtoul_dec, dec_consumed by (unfold ULONG_MAX; lia). unfold u8. by rewrite Z.mod_small. Qed.

(** One that does not fit is cut off without an error. *)
Lemma parse_int16_wraps n : 0 <= n <= ULONG_MAX -> parse_int16 (dec n) = (u16 n, true).
Proof. intros H. unfold parse_int16. by rewrite strtoul_dec, dec_consumed by lia. Qed.
Lemma parse_int8_wraps n : 0 <= n <= ULONG_MAX -> parse_int8 (dec n) = (u8 n, true).
Proof. intros H. unfold parse_int8. by rewrite strtoul_dec, dec_consumed by lia. Qed.

Lemma dec_digits_lacks c fuel n acc : 0 <= n -> digit_of 10 c = None -> lacks c acc -> lacks c (dec_digits fuel n acc).
Proof.
  intros Hn Hc. revert n acc Hn. induction fuel as [|fuel IH]; intros n acc Hn Ha; [done|]. cbn [dec_digits].
  pose proof (Z.mod_pos_bound n 10 ltac:(lia)).
  assert (lacks c (String (digit_char (n mod 10)) acc)).
  { apply lacks_cons. split; [|done]. intros <-. by rewrite digit_char_of in Hc. }
  destruct (n / 10 =? 0); [done|]. apply IH; [apply Z.div_pos; lia|done].
Qed.
Lemma dec_lacks c n : 0 <= n -> digit_of 10 c = None -> lacks c (dec n).
Proof. intros. by apply dec_digits_lacks. Qed.

(** ** Addresses that are read back *)
Lemma octet_range i x : 0 <= octet i x < 256.
Proof. apply Z.mod_pos_bound. lia. Qed.

Lemma pton4_dec o : 0 <= o < 256 -> forall r octs, pton4 (dec o ++ r) octs 0 false = pton4 r octs o true.
Proof. refine (range_cases (fun o => forall r octs, _ = pton4 r octs o true) 256 o _). by repeat constructor. Qed.

Lemma pton4_dot r octs o : (List.length octs < 3)%nat ->
  pton4 ("." ++ r) octs o true = pton4 r (octs ++ [o])%list 0 false.
Proof. intros H. apply Nat.ltb_lt in H. change ("." ++ r) with (String "." r). cbn [pton4]. by rewrite H. Qed.
Lemma append_nil (s : string) : s ++ "" = s.
Proof. induction s as [|x s IH]; [done|]. by rewrite append_cons, IH. Qed.

Lemma inet_pton_print ip : inet_pton (print_ipv4 ip) = Some [octet 3 ip; octet 2 ip; octet 1 ip; octet 0 ip].
Proof.
  unfold inet_pton, print_ipv4.
  do 3 (rewrite pton4_dec, pton4_dot by (apply octet_range || (simpl; lia))).
  by rewrite <- (append_nil (dec (octet 0 ip))), pton4_dec by apply octet_range.
Qed.

(** An address that is printed is read back. *)
Lemma parse_print_ipv4 ip : 0 <= ip < 4294967296 -> util_parse_ipv4 (print_ipv4 ip) = Some ip.
Proof.
  intros H. unfold util_parse_ipv4. rewrite inet_pton_print. unfold octet, of_octets. simpl. f_equal.
  change (Z.pow_pos 2 24) with 16777216. change (Z.pow_pos 2 16) with 65536.
  change (Z.pow_pos 2 8) with 256. Z.div_mod_to_equations. lia.
Qed.

Lemma hex2_digits o : 0 <= o < 256 -> exists a b, hex2 o = String a (String b "") /\
  xdigit a = Some (o / 16) /\ xdigit b = Some (o mod 16).
Proof.
  intros H. eexists _, _. split; [done|].
  by rewrite !xdigit_char by (split; [apply Z.div_pos || apply Z.mod_pos_bound|apply Z.div_lt_upper_bound || apply Z.mod_pos_bound]; lia).
Qed.

(** The octets of a hardware address are read with the first one lowest. *)
Lemma parse_print_mac m : 0 <= m < 281474976710656 -> util_parse_mac (print_mac m) = Some m.
Proof.
  intros H. unfold util_parse_mac, print_mac.
  destruct (hex2_digits _ (octet_range 0 m)) as (a0 & b0 & -> & A0 & B0).
  destruct (hex2_digits _ (octet_range 1 m)) as (a1 & b1 & -> & A1 & B1).
  destruct (hex2_digits _ (octet_range 2 m)) as (a2 & b2 & -> & A2 & B2).
  destruct (hex2_digits _ (octet_range 3 m)) as (a3 & b3 & -> & A3 & B3).
  destruct (hex2_digits _ (octet_range 4 m)) as (a4 & b4 & -> & A4 & B4).
  destruct (hex2_digits _ (octet_range 5 m)) as (a5 & b5 & -> & A5 & B5).
  cbn [append String.length Nat.eqb negb orb forallb is_colon String.get Ascii.eqb andb Bool.eqb].
  cbn [mac_octets]. simpl String.get. cbn [mbind option_bind].
  rewrite A0, A1, A2, A3, A4, A5, B0, B1, B2, B3, B4, B5. f_equal.
  assert (forall o, 16 * (o / 16) + o mod 16 = o) as E by (intros o; Z.div_mod_to_equations; lia). rewrite !E.
  assert (forall y o, 0 <= y < 2 ^ 56 -> 0 <= o < 256 -> Z.lor (u64 (Z.shiftl y 8)) o = 256 * y + o) as L.
  { intros y o Hy Ho. rewrite u64_small, Z.lor_comm, lor_shiftl by (rewrite ?Z.shiftl_mul_pow2; lia). lia. }
  pose proof (octet_range 0 m); pose proof (octet_range 1 m); pose proof (octet_range 2 m).
  pose proof (octet_range 3 m); pose proof (octet_range 4 m); pose proof (octet_range 5 m).
  repeat match goal with |- context [Z.lor (u64 (Z.shiftl ?y 8)) ?o] =>
    lazymatch y with context [Z.lor] => fail | _ => rewrite (L y o) by lia end end.
  unfold octet in *. simpl.
  change (Z.pow_pos 2 40) with 1099511627776. change (Z.pow_pos 2 32) with 4294967296.
  change (Z.pow_pos 2 24) with 16777216. change (Z.pow_pos 2 16) with 65536.
  change (Z.pow_pos 2 8) with 256. clear -H. Z.div_mod_to_equations. lia.
Qed.

Lemma print_ipv4_lacks c ip : digit_of 10 c = None -> c <> "."%char -> lacks c (print_ipv4 ip).
Proof.
  intros Hd Hc. unfold print_ipv4.
  repeat (apply lacks_app; [apply dec_lacks; [apply octet_range|done]|]; apply lacks_cons; split; [done|]; simpl).
  apply dec_lacks; [apply octet_range|done].
Qed.

(** ** Options that are written out *)
Section getopt_lemmas.
Context {V : Type} `{EqDecision V}.
Implicit Types (o : long_option V) (opts : list (long_option V)).

(** The table names every option once, with names that can be written. *)
Definition well_named opts : Prop :=
  NoDup (map name opts) /\ Forall (fun o => name o <> "" /\ lacks "=" (name o)) opts.

Lemma find_option_name opts o : well_named opts -> o ∈ opts -> find_option opts (name o) = Some o.
Proof.
  intros [Hn _] Ho. unfold find_option.
  assert (List.find (fun o' => String.eqb (name o') (name o)) opts = Some o) as ->; [|done].
  induction opts as [|o' opts IH]; [by apply not_elem_of_nil in Ho|]. simpl in *.
  apply NoDup_cons in Hn as [Hn1 Hn2]. destruct (String.eqb_spec (name o') (name o)) as [E|E].
  - apply elem_of_cons in Ho as [->|Ho]; [done|]. destruct Hn1. rewrite E. by apply list_elem_of_fmap_2.
  - apply elem_of_cons in Ho as [->|Ho]; [done|]. by apply IH.
Qed.

Lemma getopt_long_dashes opts s args nonopts : s <> "" ->
  getopt_long opts (("--" ++ s)%string :: args) nonopts = (long_opt opts s args, nonopts).
Proof. by destruct s. Qed.

(** [--name=value], [--name value] and [--name] give the option of that name. *)
Lemma getopt_joined opts o v args nonopts : well_named opts -> o ∈ opts -> has_arg o = required_argument ->
  getopt_long opts (("--" ++ name o ++ "=" ++ v)%string :: args) nonopts = (Opt (val o) v, args, nonopts).
Proof.
  intros Hw Ho Ha. pose proof Hw as [_ Hf]. rewrite Forall_forall in Hf. destruct (Hf o Ho) as [He Hl].
  rewrite getopt_long_dashes by (by destruct (name o)). unfold long_opt.
  change (name o ++ "=" ++ v)%string with (name o ++ String "=" v)%string.
  by rewrite strchr_app, find_option_name, Ha.
Qed.
Lemma getopt_alone opts o args nonopts : well_named opts -> o ∈ opts ->
  getopt_long opts (("--" ++ name o)%string :: args) nonopts =
    (match has_arg o, args with
     | no_argument, _ => (Opt (val o) "", args)
     | required_argument, v :: args => (Opt (val o) v, args)
     | required_argument, [] => (Question, args)
     end, nonopts).
Proof.
  intros Hw Ho. pose proof Hw as [_ Hf]. rewrite Forall_forall in Hf. destruct (Hf o Ho) as [He Hl].
  rewrite getopt_long_dashes by done. unfold long_opt. unfold lacks in Hl.
  rewrite Hl, find_option_name by done. by destruct (has_arg o), args.
Qed.

(** Each call takes at least one argument, but for the last. *)
Lemma getopt_long_shorter opts args nonopts p a args' nonopts' :
  getopt_long opts args nonopts = (Opt p a, args', nonopts') -> (List.length args' < List.length args)%nat.
Proof.
  assert (forall s args r args', long_opt opts s args = (r, args') -> (List.length args' <= List.length args)%nat) as L.
  { intros s l r l'. unfold long_opt. destruct (strchr "=" s) as [[? ?]|]; destruct (find_option opts _) as [o|];
      [|by intros [= <- <-]| |by intros [= <- <-]]; destruct (has_arg o), l; intros [= <- <-]; simpl; lia. }
  revert nonopts. induction args as [|x args IH]; intros nonopts E; [done|]. simpl in E.
  destruct x as [|c x]; [apply IH in E; simpl; lia|].
  destruct (ascii_dec c "-") as [->|Hc].
  - destruct x as [|c2 x]; [apply IH in E; simpl; lia|]. destruct (ascii_dec c2 "-") as [->|Hc2].
    + destruct x as [|c3 x]; [done|]. destruct (long_opt opts (String c3 x) args) as [r l] eqn:El.
      injection E as -> -> ->. apply L in El. simpl. lia.
    + destruct c2 as [[] [] [] [] [] [] [] []]; done.
  - destruct c as [[] [] [] [] [] [] [] []]; try done; apply IH in E; simpl; lia.
Qed.
End getopt_lemmas.
