(* ===== verification/Config.v ===== *)
(** * The configuration of the NIC and the host process (tas_nic/config.c,
    tas_host/config.c)

    The options of the command line, how each changes the configuration, and the
    loop of [config_parse]. Theorems are in ConfigSpec. *)
From S2P Require Import Prelude Cli SlowState.
From Stdlib Require Import Ascii String SpecFloat.

#[local] Open Scope string_scope.
#[local] Open Scope Z_scope.

Inductive cfg_params :=
| CP_SHM_LEN | CP_NIC_RX_LEN | CP_NIC_TX_LEN | CP_APP_KIN_LEN | CP_APP_KOUT_LEN
| CP_ARP_TO | CP_ARP_TO_MAX | CP_TCP_RTT_INIT | CP_TCP_LINK_BW | CP_TCP_RXBUF_LEN
| CP_TCP_TXBUF_LEN | CP_TCP_HANDSHAKE_TO | CP_TCP_HANDSHAKE_RETRIES | CP_CC
| CP_CC_CONTROL_GRANULARITY | CP_CC_CONTROL_INTERVAL | CP_CC_REXMIT_INTS
| CP_CC_DCTCP_WEIGHT | CP_CC_DCTCP_INIT | CP_CC_DCTCP_STEP | CP_CC_DCTCP_MIMD
| CP_CC_DCTCP_MIN | CP_CC_DCTCP_MINPKTS | CP_CC_CONST_RATE | CP_CC_TIMELY_TLOW
| CP_CC_TIMELY_THIGH | CP_CC_TIMELY_STEP | CP_CC_TIMELY_INIT | CP_CC_TIMELY_ALPHA
| CP_CC_TIMELY_BETA | CP_CC_TIMELY_MINRTT | CP_CC_TIMELY_MINRATE | CP_IP_ROUTE
| CP_IP_ADDR | CP_FP_CORES_MAX | CP_FP_NO_INTS | CP_FP_NO_XSUMOFFLOAD
| CP_FP_NO_AUTOSCALE | CP_FP_NO_HUGEPAGES | CP_FP_VLAN_STRIP | CP_FP_POLL_INTERVAL_TAS
| CP_FP_POLL_INTERVAL_APP | CP_KNI_NAME | CP_READY_FD | CP_DPDK_EXTRA | CP_QUIET
| CP_NIC_IP_ADDR | CP_NIC_PORT | CP_HIDE.
#[export] Instance cfg_params_eq_dec : EqDecision cfg_params.
Proof. solve_decision. Defined.

Definition opts : list (long_option cfg_params) := [
  mk_option "shm-len" required_argument CP_SHM_LEN;
  mk_option "nic-rx-len" required_argument CP_NIC_RX_LEN;
  mk_option "nic-tx-len" required_argument CP_NIC_TX_LEN;
  mk_option "app-kin-len" required_argument CP_APP_KIN_LEN;
  mk_option "app-kout-len" required_argument CP_APP_KOUT_LEN;
  mk_option "arp-timout" required_argument CP_ARP_TO;
  mk_option "arp-timeout-max" required_argument CP_ARP_TO;
  mk_option "tcp-rtt-init" required_argument CP_TCP_RTT_INIT;
  mk_option "tcp-link-bw" required_argument CP_TCP_LINK_BW;
  mk_option "tcp-rxbuf-len" required_argument CP_TCP_RXBUF_LEN;
  mk_option "tcp-txbuf-len" required_argument CP_TCP_TXBUF_LEN;
  mk_option "tcp-handshake-timeout" required_argument CP_TCP_HANDSHAKE_TO;
  mk_option "tcp-handshake-retries" required_argument CP_TCP_HANDSHAKE_RETRIES;
  mk_option "cc" required_argument CP_CC;
  mk_option "cc-control-granularity" required_argument CP_CC_CONTROL_GRANULARITY;
  mk_option "cc-control-interval" required_argument CP_CC_CONTROL_INTERVAL;
  mk_option "cc-rexmit-ints" required_argument CP_CC_REXMIT_INTS;
  mk_option "cc-dctcp-weight" required_argument CP_CC_DCTCP_WEIGHT;
  mk_option "cc-dctcp-init" required_argument CP_CC_DCTCP_INIT;
  mk_option "cc-dctcp-step" required_argument CP_CC_DCTCP_STEP;
  mk_option "cc-dctcp-mimd" required_argument CP_CC_DCTCP_MIMD;
  mk_option "cc-dctcp-min" required_argument CP_CC_DCTCP_MIN;
  mk_option "cc-dctcp-minpkts" required_argument CP_CC_DCTCP_MINPKTS;
  mk_option "cc-const-rate" required_argument CP_CC_CONST_RATE;
  mk_option "cc-timely-tlow" required_argument CP_CC_TIMELY_TLOW;
  mk_option "cc-timely-thigh" required_argument CP_CC_TIMELY_THIGH;
  mk_option "cc-timely-step" required_argument CP_CC_TIMELY_STEP;
  mk_option "cc-timely-init" required_argument CP_CC_TIMELY_INIT;
  mk_option "cc-timely-alpha" required_argument CP_CC_TIMELY_ALPHA;
  mk_option "cc-timely-beta" required_argument CP_CC_TIMELY_BETA;
  mk_option "cc-timely-minrtt" required_argument CP_CC_TIMELY_MINRTT;
  mk_option "cc-timely-minrate" required_argument CP_CC_TIMELY_MINRATE;
  mk_option "ip-route" required_argument CP_IP_ROUTE;
  mk_option "ip-addr" required_argument CP_IP_ADDR;
  mk_option "fp-cores-max" required_argument CP_FP_CORES_MAX;
  mk_option "fp-no-ints" no_argument CP_FP_NO_INTS;
  mk_option "fp-no-xsumoffload" no_argument CP_FP_NO_XSUMOFFLOAD;
  mk_option "fp-no-autoscale" no_argument CP_FP_NO_AUTOSCALE;
  mk_option "fp-no-hugepages" no_argument CP_FP_NO_HUGEPAGES;
  mk_option "fp-vlan-strip" no_argument CP_FP_VLAN_STRIP;
  mk_option "fp-poll-interval-tas" required_argument CP_FP_POLL_INTERVAL_TAS;
  mk_option "fp-poll-interval-app" required_argument CP_FP_POLL_INTERVAL_APP;
  mk_option "kni-name" required_argument CP_KNI_NAME;
  mk_option "ready-fd" required_argument CP_READY_FD;
  mk_option "dpdk-extra" required_argument CP_DPDK_EXTRA;
  mk_option "quiet" no_argument CP_QUIET;
  mk_option "nic-ip" required_argument CP_NIC_IP_ADDR;
  mk_option "nic-port" required_argument CP_NIC_PORT;
  mk_option "hide" no_argument CP_HIDE].

(** ** The configuration

    [struct configuration]: the fields the slow path reads are SlowState's; the
    others are here. [dpdk_argv] is the array with its [dpdk_argc] entries, NULL when
    it could not be allocated. *)
Record nic_configuration := mk_nic_config {
  cg_slow : configuration;
  shm_len : Z;
  nic_rx_len : Z;
  nic_tx_len : Z;
  app_kin_len : Z;
  app_kout_len : Z;
  nic_ip_prefix : Z;
  nic_port : Z;
  fp_cores_max : Z;
  fp_interrupts : Z;
  fp_xsumoffload : Z;
  fp_autoscale : Z;
  fp_hugepages : Z;
  fp_vlan_strip : Z;
  fp_poll_interval_tas : Z;
  fp_poll_interval_app : Z;
  kni_name : option string;
  ready_fd : Z;
  quiet : Z;
  dpdk_argv : option (list string);
  hide : Z;
}.
#[export] Instance eta_configuration : Eta configuration := fun s => mk_config
  (tcp_rxbuf_len s) (tcp_txbuf_len s) (tcp_rtt_init s) (tcp_link_bw s) (tcp_handshake_to s)
  (tcp_handshake_retries s) (cf_ip s) (cf_ip_prefix s) (cf_nic_ip s) (cf_routes s) (arp_to s)
  (arp_to_max s) (cc_algorithm s) (cc_control_granularity s) (cc_control_interval s)
  (cc_rexmit_ints s) (cc_dctcp_weight s) (cc_dctcp_init s) (cc_dctcp_step s) (cc_dctcp_mimd s)
  (cc_dctcp_min s) (cc_dctcp_minpkts s) (cc_const_rate s) (cc_timely_tlow s)
  (cc_timely_thigh s) (cc_timely_step s) (cc_timely_init s) (cc_timely_alpha s)
  (cc_timely_beta s) (cc_timely_min_rtt s) (cc_timely_min_rate s) (cf_kni_name s).
#[export] Instance eta_nic_configuration : Eta nic_configuration := fun c => mk_nic_config
  (cg_slow c) (shm_len c) (nic_rx_len c) (nic_tx_len c) (app_kin_len c) (app_kout_len c)
  (nic_ip_prefix c) (nic_port c) (fp_cores_max c) (fp_interrupts c) (fp_xsumoffload c)
  (fp_autoscale c) (fp_hugepages c) (fp_vlan_strip c) (fp_poll_interval_tas c)
  (fp_poll_interval_app c) (kni_name c) (ready_fd c) (quiet c) (dpdk_argv c) (hide c).

Definition slow_set {T} (store : configuration -> T -> configuration) (c : nic_configuration) (v : T) :=
  c <| cg_slow := store (cg_slow c) v |>.

(** [0.02 * UINT32_MAX] and [0.8 * UINT32_MAX] ([default_weights]). *)
Definition TIMELY_ALPHA : Z := 85899345.
Definition TIMELY_BETA : Z := 3435973836.

(** What [config_defaults] assigns; the prefix lengths and the routes stay. *)
Definition default_fields (c : nic_configuration) : nic_configuration :=
  let s := cg_slow c in
  mk_nic_config
    (mk_config 8192 8192 50 10 10000 10 0 (cf_ip_prefix s) 0 (cf_routes s) 500 10000000
       CONFIG_CC_DCTCP_RATE 50 2 4 (UINT32_MAX / 16) 10000 10000 0 0 50 0 30 150 10000 10000
       TIMELY_ALPHA TIMELY_BETA 11 10000 false)
    (1024 * 1024 * 1024) (16 * 1024) (16 * 1024) (1024 * 1024) (1024 * 1024) (nic_ip_prefix c) 0
    1 1 1 1 1 0 10000 10000 None (-1) 0 (dpdk_argv c) 0.
Definition config_defaults (alloc : bool) (c : nic_configuration) (progname : string)
  : bool * nic_configuration :=
  let c := default_fields c in
  if alloc then (true, c <| dpdk_argv := Some [progname] |>) else (false, c <| dpdk_argv := (None : option (list string)) |>).

(** ** Parsing one option

    The result is [false] when parsing failed; what was stored by then is kept. *)
Definition int_arg (parse : string -> Z * bool) (store : Z -> nic_configuration) (optarg : string)
  : outcome (bool * nic_configuration) :=
  let '(v, ok) := parse optarg in mret (ok, store v).

(** A weight between [off] and [off + 1], stored as a fraction of [UINT32_MAX]. *)
Definition weight_arg (off : Z) (store : Z -> nic_configuration) (c : nic_configuration) (optarg : string)
  : outcome (bool * nic_configuration) :=
  let '(d, ok) := parse_double optarg in
  if negb ok || SFltb d (double_of off) || SFltb (double_of (off + 1)) d then mret (false, c)
  else
    let d := if off =? 0 then d else SFsub PREC EMAX d (double_of off) in
    w ← double_to_u32 (SFmul PREC EMAX (double_of UINT32_MAX) d);
    mret (true, store w).

Definition algorithm (s : string) : option config_cc_algorithm :=
  if String.eqb s "dctcp-win" then Some CONFIG_CC_DCTCP_WIN
  else if String.eqb s "dctcp-rate" then Some CONFIG_CC_DCTCP_RATE
  else if String.eqb s "const-rate" then Some CONFIG_CC_CONST_RATE
  else if String.eqb s "timely" then Some CONFIG_CC_TIMELY
  else None.

(** [ip] and [prefix] are what is at the pointers; the results are what is there
    afterwards. *)
Definition parse_cidr (s : string) (ip prefix : Z) : bool * Z * Z :=
  let '(addr, p, ok) :=
    match strrchr "/" s with
    | Some (a, len) => let '(p, ok) := parse_int8 len in (a, p, ok)
    | None => (s, prefix, true)
    end in
  if negb ok then (false, ip, p)
  else match util_parse_ipv4 addr with
       | Some ip => (true, ip, p)
       | None => (false, ip, p)
       end.

Definition parse_route (alloc : bool) (s : string) (c : nic_configuration) : bool * nic_configuration :=
  if negb alloc then (false, c)
  else
    match strchr "," s with
    | None => (false, c)
    | Some (dest, hop) =>
        let '(ok, ip, prefix) := parse_cidr dest 0 32 in
        if negb ok then (false, c)
        else match util_parse_ipv4 hop with
             | None => (false, c)
             | Some hop =>
                 (true, slow_set (fun s v => s <| cf_routes := v |>) c
                          (cf_routes (cg_slow c) ++ [mk_route ip prefix hop])%list)
             end
    end.

(** [realloc] and [strdup] succeed together. *)
Definition parse_arg_append (alloc : bool) (s : string) (c : nic_configuration) : bool * nic_configuration :=
  if alloc then (true, c <| dpdk_argv := Some (default [] (dpdk_argv c) ++ [s])%list |>) else (false, c).

(** The [switch] of [config_parse]. *)
Definition handle_option (alloc : bool) (p : cfg_params) (optarg : string) (c : nic_configuration)
  : outcome (bool * nic_configuration) :=
  match p with
  | CP_SHM_LEN => int_arg parse_int64 (fun v => c <| shm_len := v |>) optarg
  | CP_NIC_RX_LEN => int_arg parse_int64 (fun v => c <| nic_rx_len := v |>) optarg
  | CP_NIC_TX_LEN => int_arg parse_int64 (fun v => c <| nic_tx_len := v |>) optarg
  | CP_APP_KIN_LEN => int_arg parse_int64 (fun v => c <| app_kin_len := v |>) optarg
  | CP_APP_KOUT_LEN => int_arg parse_int64 (fun v => c <| app_kout_len := v |>) optarg
  | CP_ARP_TO => int_arg parse_int32 (slow_set (fun s v => s <| arp_to := v |>) c) optarg
  | CP_ARP_TO_MAX => int_arg parse_int32 (slow_set (fun s v => s <| arp_to_max := v |>) c) optarg
  | CP_TCP_RTT_INIT =>
      int_arg parse_int32 (slow_set (fun s v => s <| tcp_rtt_init := v |>) c) optarg
  | CP_TCP_LINK_BW => int_arg parse_int32 (slow_set (fun s v => s <| tcp_link_bw := v |>) c) optarg
  | CP_TCP_RXBUF_LEN =>
      int_arg parse_int64 (slow_set (fun s v => s <| tcp_rxbuf_len := v |>) c) optarg
  | CP_TCP_TXBUF_LEN =>
      int_arg parse_int64 (slow_set (fun s v => s <| tcp_txbuf_len := v |>) c) optarg
  | CP_TCP_HANDSHAKE_TO =>
      int_arg parse_int32 (slow_set (fun s v => s <| tcp_handshake_to := v |>) c) optarg
  | CP_TCP_HANDSHAKE_RETRIES =>
      int_arg parse_int32 (slow_set (fun s v => s <| tcp_handshake_retries := v |>) c) optarg
  | CP_CC =>
      mret (match algorithm optarg with
            | Some a => (true, slow_set (fun s v => s <| cc_algorithm := v |>) c a)
            | None => (false, c)
            end)
  | CP_CC_CONTROL_GRANULARITY =>
      int_arg parse_int32 (slow_set (fun s v => s <| cc_control_granularity := v |>) c) optarg
  | CP_CC_CONTROL_INTERVAL =>
      int_arg parse_int32 (slow_set (fun s v => s <| cc_control_interval := v |>) c) optarg
  | CP_CC_REXMIT_INTS =>
      int_arg parse_int32 (slow_set (fun s v => s <| cc_rexmit_ints := v |>) c) optarg
  | CP_CC_DCTCP_WEIGHT =>
      weight_arg 0 (slow_set (fun s v => s <| cc_dctcp_weight := v |>) c) c optarg
  | CP_CC_DCTCP_INIT =>
      int_arg parse_int32 (slow_set (fun s v => s <| cc_dctcp_init := v |>) c) optarg
  | CP_CC_DCTCP_STEP =>
      int_arg parse_int32 (slow_set (fun s v => s <| cc_dctcp_step := v |>) c) optarg
  | CP_CC_DCTCP_MIMD => weight_arg 1 (slow_set (fun s v => s <| cc_dctcp_mimd := v |>) c) c optarg
  | CP_CC_DCTCP_MIN =>
      int_arg parse_int32 (slow_set (fun s v => s <| cc_dctcp_min := v |>) c) optarg
  | CP_CC_DCTCP_MINPKTS =>
      int_arg parse_int32 (slow_set (fun s v => s <| cc_dctcp_minpkts := v |>) c) optarg
  | CP_CC_CONST_RATE =>
      int_arg parse_int32 (slow_set (fun s v => s <| cc_const_rate := v |>) c) optarg
  | CP_CC_TIMELY_TLOW =>
      int_arg parse_int32 (slow_set (fun s v => s <| cc_timely_tlow := v |>) c) optarg
  | CP_CC_TIMELY_THIGH =>
      int_arg parse_int32 (slow_set (fun s v => s <| cc_timely_thigh := v |>) c) optarg
  | CP_CC_TIMELY_STEP =>
      int_arg parse_int32 (slow_set (fun s v => s <| cc_timely_step := v |>) c) optarg
  | CP_CC_TIMELY_INIT =>
      int_arg parse_int32 (slow_set (fun s v => s <| cc_timely_init := v |>) c) optarg
  | CP_CC_TIMELY_ALPHA =>
      weight_arg 0 (slow_set (fun s v => s <| cc_timely_alpha := v |>) c) c optarg
  | CP_CC_TIMELY_BETA => weight_arg 0 (slow_set (fun s v => s <| cc_timely_beta := v |>) c) c optarg
  | CP_CC_TIMELY_MINRTT =>
      int_arg parse_int32 (slow_set (fun s v => s <| cc_timely_min_rtt := v |>) c) optarg
  | CP_CC_TIMELY_MINRATE =>
      int_arg parse_int32 (slow_set (fun s v => s <| cc_timely_min_rate := v |>) c) optarg
  | CP_IP_ROUTE => mret (parse_route alloc optarg c)
  | CP_IP_ADDR =>
      let '(ok, ip, prefix) := parse_cidr optarg (cf_ip (cg_slow c)) 0 in
      mret (ok, slow_set (fun s v => s <| cf_ip := ip |> <| cf_ip_prefix := v |>) c prefix)
  | CP_FP_CORES_MAX => int_arg parse_int32 (fun v => c <| fp_cores_max := v |>) optarg
  | CP_FP_NO_INTS =>
      mret (true, c <| fp_interrupts := 0 |> <| fp_poll_interval_tas := UINT32_MAX |>)
  | CP_FP_NO_XSUMOFFLOAD => mret (true, c <| fp_xsumoffload := 0 |>)
  | CP_FP_NO_AUTOSCALE => mret (true, c <| fp_autoscale := 0 |>)
  | CP_FP_NO_HUGEPAGES => mret (true, c <| fp_hugepages := 0 |>)
  | CP_FP_VLAN_STRIP => mret (true, c <| fp_vlan_strip := 1 |>)
  | CP_FP_POLL_INTERVAL_TAS =>
      (* the case has no [break] and goes on with the next one *)
      let '(v, ok) := parse_int32 optarg in
      let c := c <| fp_poll_interval_tas := v |> in
      if negb ok then mret (false, c)
      else int_arg parse_int32 (fun v => c <| fp_poll_interval_app := v |>) optarg
  | CP_FP_POLL_INTERVAL_APP =>
      int_arg parse_int32 (fun v => c <| fp_poll_interval_app := v |>) optarg
  | CP_KNI_NAME =>
      mret (if alloc then (true, slow_set (fun s v => s <| cf_kni_name := v |>) (c <| kni_name := Some optarg |>) true)
            else (false, slow_set (fun s v => s <| cf_kni_name := v |>) (c <| kni_name := (None : option string) |>) false))
  | CP_READY_FD => int_arg parse_int32 (fun v => c <| ready_fd := i32 v |>) optarg
  | CP_DPDK_EXTRA => mret (parse_arg_append alloc optarg c)
  | CP_QUIET => mret (true, c <| quiet := 1 |>)
  | CP_NIC_IP_ADDR =>
      let c := c <| nic_ip_prefix := 0 |> in
      mret (match util_parse_ipv4 optarg with
            | Some ip => (true, slow_set (fun s v => s <| cf_nic_ip := v |>) c ip)
            | None => (false, c)
            end)
  | CP_NIC_PORT => int_arg parse_int16 (fun v => c <| nic_port := v |>) optarg
  | CP_HIDE => mret (true, c <| hide := 1 |>)
  end.

(** ** The command line

    The loop of [config_parse], with [alloc] telling for each option whether memory
    can be allocated; the result has the arguments that are not options. *)
Fixpoint parse_options (fuel : nat) (alloc : nat -> bool) (args nonopts : list string) (c : nic_configuration)
  : outcome (bool * list string * nic_configuration) :=
  match fuel with
  | O => Stop OutOfFuel
  | S fuel =>
      let '(ret, args, nonopts) := getopt_long opts args nonopts in
      match ret with
      | Done => mret (true, nonopts, c)
      | Question => mret (false, nonopts, c)
      | Opt p optarg =>
          '(ok, c) ← handle_option (alloc fuel) p optarg c;
          if (ok : bool) then parse_options fuel alloc args nonopts c else mret (false, nonopts, c)
      end
  end.

(** [failed:] *)
Definition config_failed (alloc : bool) (c : nic_configuration) (progname : string) : outcome (Z * nic_configuration) :=
  mret (-1, (config_defaults alloc c progname).2).

(** [first] and [last] are for the allocations of [config_defaults]. *)
Definition config_parse (first last : bool) (alloc : nat -> bool) (c : nic_configuration)
  (progname : string) (args : list string) : outcome (Z * nic_configuration) :=
  let '(ok, c) := config_defaults first c progname in
  if negb ok then config_failed last c progname
  else
    '(ok, nonopts, c) ← parse_options (S (List.length args)) alloc args [] c;
    if negb ok then config_failed last c progname
    else match nonopts with
         | _ :: _ => config_failed last c progname
         | [] =>
             if cf_ip (cg_slow c) =? 0 then mret (-1, c)
             else if cf_nic_ip (cg_slow c) =? 0 then mret (-1, c)
             else mret (0, c)
         end.

(** The configuration is a global variable: all zero before [main]. *)
Definition zero_configuration : nic_configuration :=
  mk_nic_config
    (mk_config 0 0 0 0 0 0 0 0 0 [] 0 0 CONFIG_CC_DCTCP_WIN 0 0 0 0 0 0 0 0 0 0 0 0 0 0 0 0 0 0 false)
    0 0 0 0 0 0 0 0 0 0 0 0 0 0 0 None 0 0 None 0.

(** ** The host process (tas_host/config.c) *)
Module Host.

Inductive cfg_params := CP_SHM_LEN | CP_IP_ADDR | CP_IP_ROUTE | CP_PORT | CP_FP_NO_HUGEPAGES.
#[global] Instance host_params_eq_dec : EqDecision cfg_params.
Proof. solve_decision. Defined.

Definition opts : list (long_option cfg_params) := [
  mk_option "shm-len" required_argument CP_SHM_LEN;
  mk_option "ip-addr" required_argument CP_IP_ADDR;
  mk_option "port" required_argument CP_PORT;
  mk_option "fp-no-hugepages" no_argument CP_FP_NO_HUGEPAGES].

(** The list of routes is never used. *)
Record host_configuration := mk_host_config { h_shm_len : Z; h_ip : Z; h_port : Z; h_hugepages : Z }.
#[global] Instance eta_host : Eta host_configuration := fun c =>
  mk_host_config (h_shm_len c) (h_ip c) (h_port c) (h_hugepages c).

Definition config_defaults : host_configuration := mk_host_config (1024 * 1024 * 1024) 0 0 1.

Definition handle_option (p : cfg_params) (optarg : string) (c : host_configuration)
  : outcome (bool * host_configuration) :=
  match p with
  | CP_SHM_LEN => let '(v, ok) := parse_int64 optarg in mret (ok, c <| h_shm_len := v |>)
  | CP_IP_ADDR =>
      mret (match util_parse_ipv4 optarg with Some ip => (true, c <| h_ip := ip |>) | None => (false, c) end)
  | CP_PORT => let '(v, ok) := parse_int16 optarg in mret (ok, c <| h_port := v |>)
  | CP_FP_NO_HUGEPAGES => mret (true, c <| h_hugepages := 0 |>)
  | CP_IP_ROUTE => Stop Aborted
  end.

(** An unknown option has no case of its own and ends in [abort]. *)
Fixpoint parse_options (fuel : nat) (args nonopts : list string) (c : host_configuration)
  : outcome (bool * list string * host_configuration) :=
  match fuel with
  | O => Stop OutOfFuel
  | S fuel =>
      let '(ret, args, nonopts) := getopt_long opts args nonopts in
      match ret with
      | Done => mret (true, nonopts, c)
      | Question => Stop Aborted
      | Opt p optarg =>
          '(ok, c) ← handle_option p optarg c;
          if (ok : bool) then parse_options fuel args nonopts c else mret (false, nonopts, c)
      end
  end.

Definition config_parse (args : list string) : outcome (Z * host_configuration) :=
  '(ok, nonopts, c) ← parse_options (S (List.length args)) args [] config_defaults;
  if negb ok then mret (-1, config_defaults)
  else match nonopts with
       | _ :: _ => mret (-1, config_defaults)
       | [] => if h_ip c =? 0 then mret (-1, c) else mret (0, c)
       end.

End Host.
