(* ===== verification/ConfigSpec.v ===== *)
(** * The command line as a description of the configuration

    Settings are written as options of the command line; [config_parse] reads the
    configuration they describe. *)
From S2P Require Import Prelude Cli SlowState CongCtl Config.
From stdpp Require Import strings.
From Stdlib Require Import Ascii String SpecFloat.

#[local] Open Scope string_scope.
#[local] Open Scope Z_scope.

(** ** Settings *)

(** What is given with an option. *)
Inductive value :=
| VUnit
| VInt (n : Z)
| VAlg (a : config_cc_algorithm)
| VIp (ip : Z)
| VNet (ip : Z) (len : option Z)
| VRoute (ip : Z) (len : option Z) (hop : Z)
| VText (s : string).

Definition alg_name (a : config_cc_algorithm) : string :=
  match a with
  | CONFIG_CC_DCTCP_WIN => "dctcp-win"
  | CONFIG_CC_DCTCP_RATE => "dctcp-rate"
  | CONFIG_CC_CONST_RATE => "const-rate"
  | CONFIG_CC_TIMELY => "timely"
  end.

Definition print_net (ip : Z) (len : option Z) : string :=
  match len with
  | Some len => print_ipv4 ip ++ "/" ++ dec len
  | None => print_ipv4 ip
  end.
Definition show (v : value) : string :=
  match v with
  | VUnit => ""
  | VInt n => dec n
  | VAlg a => alg_name a
  | VIp ip => print_ipv4 ip
  | VNet ip len => print_net ip len
  | VRoute ip len hop => print_net ip len ++ "," ++ print_ipv4 hop
  | VText s => s
  end.

(** The bits of an integer option. *)
Definition width (p : cfg_params) : option Z :=
  match p with
  | CP_SHM_LEN | CP_NIC_RX_LEN | CP_NIC_TX_LEN | CP_APP_KIN_LEN | CP_APP_KOUT_LEN |
    CP_TCP_RXBUF_LEN | CP_TCP_TXBUF_LEN => Some 64
  | CP_NIC_PORT => Some 16
  | CP_READY_FD => Some 31
  | CP_ARP_TO | CP_ARP_TO_MAX | CP_TCP_RTT_INIT | CP_TCP_LINK_BW | CP_TCP_HANDSHAKE_TO |
    CP_TCP_HANDSHAKE_RETRIES | CP_CC_CONTROL_GRANULARITY | CP_CC_CONTROL_INTERVAL |
    CP_CC_REXMIT_INTS | CP_CC_DCTCP_INIT | CP_CC_DCTCP_STEP | CP_CC_DCTCP_MIN |
    CP_CC_DCTCP_MINPKTS | CP_CC_CONST_RATE | CP_CC_TIMELY_TLOW | CP_CC_TIMELY_THIGH |
    CP_CC_TIMELY_STEP | CP_CC_TIMELY_INIT | CP_CC_TIMELY_MINRTT | CP_CC_TIMELY_MINRATE |
    CP_FP_CORES_MAX | CP_FP_POLL_INTERVAL_APP | CP_FP_POLL_INTERVAL_TAS => Some 32
  | _ => None
  end.

Definition address (ip : Z) : Prop := 0 <= ip < 4294967296.
Definition length_ok (len : option Z) : Prop := match len with Some l => 0 <= l < 256 | None => True end.

(** Values that belong to an option. The weights of congestion control, which are
    fractions, are left out. *)
Definition fits (p : cfg_params) (v : value) : Prop :=
  match p, v with
  | CP_CC, VAlg _ => True
  | CP_IP_ROUTE, VRoute ip len hop => address ip /\ length_ok len /\ address hop
  | CP_IP_ADDR, VNet ip len => address ip /\ length_ok len
  | CP_NIC_IP_ADDR, VIp ip => address ip
  | CP_KNI_NAME, VText _ | CP_DPDK_EXTRA, VText _ => True
  | (CP_FP_NO_INTS | CP_FP_NO_XSUMOFFLOAD | CP_FP_NO_AUTOSCALE | CP_FP_NO_HUGEPAGES | CP_FP_VLAN_STRIP
    | CP_QUIET | CP_HIDE), VUnit => True
  | _, VInt n => match width p with Some w => 0 <= n < 2 ^ w | None => False end
  | _, _ => False
  end.

(** ** What a configuration says of an option *)
Inductive reading :=
| RInt (n : Z)
| RAlg (a : config_cc_algorithm)
| RNet (ip prefix : Z)
| RRoutes (l : list config_route)
| RText (s : option string)
| RArgs (l : option (list string)).

Definition reads (p : cfg_params) (c : nic_configuration) : reading :=
  match p with
  | CP_SHM_LEN => RInt (shm_len c)
  | CP_NIC_RX_LEN => RInt (nic_rx_len c)
  | CP_NIC_TX_LEN => RInt (nic_tx_len c)
  | CP_APP_KIN_LEN => RInt (app_kin_len c)
  | CP_APP_KOUT_LEN => RInt (app_kout_len c)
  | CP_ARP_TO => RInt (arp_to (cg_slow c))
  | CP_ARP_TO_MAX => RInt (arp_to_max (cg_slow c))
  | CP_TCP_RTT_INIT => RInt (tcp_rtt_init (cg_slow c))
  | CP_TCP_LINK_BW => RInt (tcp_link_bw (cg_slow c))
  | CP_TCP_RXBUF_LEN => RInt (tcp_rxbuf_len (cg_slow c))
  | CP_TCP_TXBUF_LEN => RInt (tcp_txbuf_len (cg_slow c))
  | CP_TCP_HANDSHAKE_TO => RInt (tcp_handshake_to (cg_slow c))
  | CP_TCP_HANDSHAKE_RETRIES => RInt (tcp_handshake_retries (cg_slow c))
  | CP_CC => RAlg (cc_algorithm (cg_slow c))
  | CP_CC_CONTROL_GRANULARITY => RInt (cc_control_granularity (cg_slow c))
  | CP_CC_CONTROL_INTERVAL => RInt (cc_control_interval (cg_slow c))
  | CP_CC_REXMIT_INTS => RInt (cc_rexmit_ints (cg_slow c))
  | CP_CC_DCTCP_WEIGHT => RInt (cc_dctcp_weight (cg_slow c))
  | CP_CC_DCTCP_INIT => RInt (cc_dctcp_init (cg_slow c))
  | CP_CC_DCTCP_STEP => RInt (cc_dctcp_step (cg_slow c))
  | CP_CC_DCTCP_MIMD => RInt (cc_dctcp_mimd (cg_slow c))
  | CP_CC_DCTCP_MIN => RInt (cc_dctcp_min (cg_slow c))
  | CP_CC_DCTCP_MINPKTS => RInt (cc_dctcp_minpkts (cg_slow c))
  | CP_CC_CONST_RATE => RInt (cc_const_rate (cg_slow c))
  | CP_CC_TIMELY_TLOW => RInt (cc_timely_tlow (cg_slow c))
  | CP_CC_TIMELY_THIGH => RInt (cc_timely_thigh (cg_slow c))
  | CP_CC_TIMELY_STEP => RInt (cc_timely_step (cg_slow c))
  | CP_CC_TIMELY_INIT => RInt (cc_timely_init (cg_slow c))
  | CP_CC_TIMELY_ALPHA => RInt (cc_timely_alpha (cg_slow c))
  | CP_CC_TIMELY_BETA => RInt (cc_timely_beta (cg_slow c))
  | CP_CC_TIMELY_MINRTT => RInt (cc_timely_min_rtt (cg_slow c))
  | CP_CC_TIMELY_MINRATE => RInt (cc_timely_min_rate (cg_slow c))
  | CP_IP_ROUTE => RRoutes (cf_routes (cg_slow c))
  | CP_IP_ADDR => RNet (cf_ip (cg_slow c)) (cf_ip_prefix (cg_slow c))
  | CP_FP_CORES_MAX => RInt (fp_cores_max c)
  | CP_FP_NO_INTS => RInt (fp_interrupts c)
  | CP_FP_NO_XSUMOFFLOAD => RInt (fp_xsumoffload c)
  | CP_FP_NO_AUTOSCALE => RInt (fp_autoscale c)
  | CP_FP_NO_HUGEPAGES => RInt (fp_hugepages c)
  | CP_FP_VLAN_STRIP => RInt (fp_vlan_strip c)
  | CP_FP_POLL_INTERVAL_TAS => RInt (fp_poll_interval_tas c)
  | CP_FP_POLL_INTERVAL_APP => RInt (fp_poll_interval_app c)
  | CP_KNI_NAME => RText (kni_name c)
  | CP_READY_FD => RInt (ready_fd c)
  | CP_DPDK_EXTRA => RArgs (dpdk_argv c)
  | CP_QUIET => RInt (quiet c)
  | CP_NIC_IP_ADDR => RNet (cf_nic_ip (cg_slow c)) (nic_ip_prefix c)
  | CP_NIC_PORT => RInt (nic_port c)
  | CP_HIDE => RInt (hide c)
  end.

(** What a setting makes of it: options replace the reading, routes and extra
    arguments are added at the end. Turning interrupts off sets an interval as well,
    and so does the interval of TAS, which also replaces that of applications. *)
Definition set_to (p : cfg_params) (v : value) (old : reading) : reading :=
  match v, old with
  | VUnit, _ => RInt (match p with CP_FP_VLAN_STRIP | CP_QUIET | CP_HIDE => 1 | _ => 0 end)
  | VInt n, _ => RInt n
  | VAlg a, _ => RAlg a
  | VIp ip, _ => RNet ip 0
  | VNet ip len, _ => RNet ip (default 0 len)
  | VRoute ip len hop, RRoutes l => RRoutes (l ++ [mk_route ip (default 32 len) hop])%list
  | VText s, RArgs l => RArgs (Some (default [] l ++ [s])%list)
  | VText s, _ => RText (Some s)
  | _, _ => old
  end.
Definition effect (p : cfg_params) (v : value) (q : cfg_params) (old : reading) : reading :=
  if decide (p = q) then set_to p v old
  else match p, q with
       | CP_FP_NO_INTS, CP_FP_POLL_INTERVAL_TAS => RInt UINT32_MAX
       | CP_FP_POLL_INTERVAL_TAS, CP_FP_POLL_INTERVAL_APP => set_to p v old
       | _, _ => old
       end.

(** A setting on the command line: an option, its value, and whether they are one
    argument. *)
Record setting := mk_setting { st_opt : long_option cfg_params; st_value : value; st_joined : bool }.
Definition render (st : setting) : list string :=
  match has_arg (st_opt st) with
  | no_argument => ["--" ++ name (st_opt st)]
  | required_argument =>
      if st_joined st then ["--" ++ name (st_opt st) ++ "=" ++ show (st_value st)]
      else ["--" ++ name (st_opt st); show (st_value st)]
  end.
Definition setting_ok (st : setting) : Prop :=
  st_opt st ∈ opts /\ fits (val (st_opt st)) (st_value st).

(** What the usage text says of a setting: it is for the option that has its name, and
    turning interrupts off stands for the longest interval of TAS. *)
Definition meant (st : setting) : cfg_params :=
  if String.eqb (name (st_opt st)) "arp-timeout-max" then CP_ARP_TO_MAX else val (st_opt st).
Definition intended (st : setting) (q : cfg_params) (old : reading) : reading :=
  if decide (meant st = q) then set_to (meant st) (st_value st) old
  else match meant st, q with
       | CP_FP_NO_INTS, CP_FP_POLL_INTERVAL_TAS => RInt UINT32_MAX
       | _, _ => old
       end.
Definition documented (c : nic_configuration) (sts : list setting) (p : cfg_params) : reading :=
  foldl (fun old st => intended st p old) (reads p c) sts.

(** What the code makes of the settings of an option, after the defaults. *)
Definition described (c : nic_configuration) (sts : list setting) (p : cfg_params) : reading :=
  foldl (fun old st => effect (val (st_opt st)) (st_value st) p old) (reads p c) sts.

(** ** Parsing a value *)
Lemma net_lacks c ip len : digit_of 10 c = None -> c <> "."%char -> c <> "/"%char -> length_ok len ->
  lacks c (print_net ip len).
Proof.
  intros Hd H1 H2 Hl. destruct len as [l|]; simpl; [|by apply print_ipv4_lacks].
  apply lacks_app; [by apply print_ipv4_lacks|]. apply lacks_cons. split; [done|]. apply dec_lacks; [simpl in Hl; lia|done].
Qed.

Lemma parse_cidr_print ip len ip0 p0 : address ip -> length_ok len ->
  parse_cidr (print_net ip len) ip0 p0 = (true, ip, default p0 len).
Proof.
  intros Hi Hl. unfold parse_cidr. destruct len as [l|]; simpl in *.
  - change (print_ipv4 ip ++ "/" ++ dec l) with (print_ipv4 ip ++ String "/" (dec l)).
    rewrite strrchr_app by (apply dec_lacks; [lia|done]). rewrite parse_int8_dec by lia. simpl.
    by rewrite parse_print_ipv4.
  - rewrite (proj2 (strrchr_none _ _)) by (by apply print_ipv4_lacks). simpl. by rewrite parse_print_ipv4.
Qed.

Lemma parse_route_print ip len hop c : address ip -> length_ok len -> address hop ->
  parse_route true (print_net ip len ++ "," ++ print_ipv4 hop) c =
    (true, slow_set (fun s v => s <| cf_routes := v |>) c
             (cf_routes (cg_slow c) ++ [mk_route ip (default 32 len) hop])%list).
Proof.
  intros Hi Hl Hh. unfold parse_route. simpl negb. cbv iota.
  change (print_net ip len ++ "," ++ print_ipv4 hop) with (print_net ip len ++ String "," (print_ipv4 hop)).
  rewrite strchr_app by (by apply net_lacks). rewrite parse_cidr_print by done. simpl. by rewrite parse_print_ipv4.
Qed.

Lemma parse_int31 n : 0 <= n < 2 ^ 31 -> i32 n = n.
Proof. intros H. apply i32_small. lia. Qed.

Lemma handle_fits p v c : fits p v ->
  exists c', handle_option true p (show v) c = Ok (true, c') /\ forall q, reads q c' = effect p v q (reads q c).
Proof.
  intros Hf. destruct p, v; simpl in Hf; try done;
    unfold handle_option, int_arg, show;
    try rewrite parse_int64_dec by lia; try rewrite parse_int32_dec by lia; try rewrite parse_int16_dec by lia;
    try rewrite parse_int31 by lia.
  all: try (eexists; split; [reflexivity|]; intros []; reflexivity).
  - destruct a; (eexists; split; [reflexivity|]; intros []; reflexivity).
  - destruct Hf as (? & ? & ?). rewrite parse_route_print by done.
    eexists; split; [reflexivity|]; intros []; reflexivity.
  - destruct Hf as (? & ?). rewrite parse_cidr_print by done.
    eexists; split; [reflexivity|]; intros []; reflexivity.
  - rewrite parse_print_ipv4 by done. eexists; split; [reflexivity|]; intros []; reflexivity.
Qed.

(** ** Parsing a command line *)
Lemma opts_well_named : well_named opts.
Proof.
  split; [apply (bool_decide_unpack _); by vm_compute|]. unfold opts. repeat constructor; done.
Qed.

Lemma getopt_render st args nonopts : setting_ok st ->
  getopt_long opts (render st ++ args)%list nonopts = (Opt (val (st_opt st)) (show (st_value st)), args, nonopts).
Proof.
  intros [Ho Hf]. unfold render.
  destruct (has_arg (st_opt st)) eqn:Ea; [|destruct (st_joined st)].
  - assert (show (st_value st) = "") as ->.
    { unfold opts in Ho. repeat (apply elem_of_cons in Ho as [Ho|Ho]; [rewrite Ho in Ea, Hf; simpl in Ea, Hf;
        try done; by destruct (st_value st)|]). by apply elem_of_nil in Ho. }
    simpl app. rewrite getopt_alone by (done || apply opts_well_named). by rewrite Ea.
  - by apply getopt_joined; [apply opts_well_named|..].
  - simpl app. rewrite getopt_alone by (done || apply opts_well_named). by rewrite Ea.
Qed.

Lemma parse_options_render sts fuel c : Forall setting_ok sts -> (List.length (List.concat (map render sts)) < fuel)%nat ->
  exists c', parse_options fuel (fun _ => true) (List.concat (map render sts)) [] c = Ok (true, [], c') /\
    forall p, reads p c' = described c sts p.
Proof.
  intros Hs. revert fuel c. induction Hs as [|st sts Hst _ IH]; intros fuel c Hf.
  - destruct fuel as [|fuel]; [simpl in Hf; lia|]. by exists c.
  - simpl map in *. simpl List.concat in *. rewrite length_app in Hf.
    assert (1 <= List.length (render st))%nat as Hr.
    { unfold render. destruct (has_arg _); [simpl; lia|]. destruct (st_joined st); simpl; lia. }
    destruct fuel as [|fuel]; [lia|]. cbn [parse_options]. rewrite getopt_render by done.
    destruct (handle_fits (val (st_opt st)) (st_value st) c) as (c1 & -> & R1); [apply Hst|]. osimpl.
    destruct (IH fuel c1) as (c' & -> & R); [lia|]. exists c'. split; [done|].
    intros p. rewrite R. unfold described. simpl. by rewrite R1.
Qed.

Definition net_of (r : reading) : Z := match r with RNet ip _ => ip | _ => 0 end.

(** The configuration all settings start from. *)
Definition initial (c : nic_configuration) (progname : string) : nic_configuration :=
  (config_defaults true c progname).2.

(** The code does what the text says, but for two options: the longest timeout of ARP is
    stored as the first one, and the interval of TAS for applications as well. *)
Definition well_directed (sts : list setting) (p : cfg_params) : Prop :=
  match p with
  | CP_ARP_TO | CP_ARP_TO_MAX => Forall (fun st => name (st_opt st) <> "arp-timeout-max") sts
  | CP_FP_POLL_INTERVAL_APP => Forall (fun st => val (st_opt st) <> CP_FP_POLL_INTERVAL_TAS) sts
  | _ => True
  end.

Lemma arp_timeout_max_option o : o ∈ opts -> name o = "arp-timeout-max" -> val o = CP_ARP_TO.
Proof.
  intros Ho. assert (Forall (fun o => name o = "arp-timeout-max" -> val o = CP_ARP_TO) opts) as H
    by (unfold opts; repeat constructor; done).
  rewrite Forall_forall in H. by apply H.
Qed.

Lemma effect_intended st p old : setting_ok st -> well_directed [st] p ->
  effect (val (st_opt st)) (st_value st) p old = intended st p old.
Proof.
  intros [Ho _] Hw. unfold effect, intended, meant.
  destruct (String.eqb_spec (name (st_opt st)) "arp-timeout-max") as [E|E].
  - rewrite (arp_timeout_max_option _ Ho E). destruct p; try done; simpl in Hw; inversion Hw; by subst.
  - destruct (decide (val (st_opt st) = p)); [done|]. destruct (val (st_opt st)) eqn:Ev; try done.
    destruct p; try done. simpl in Hw. inversion Hw; by subst.
Qed.

Lemma well_directed_cons st sts p : well_directed (st :: sts) p -> well_directed [st] p /\ well_directed sts p.
Proof. intros Hw. destruct p; simpl in *; try done; inversion Hw; subst; (split; [by repeat constructor|done]). Qed.

Lemma described_documented c sts p : Forall setting_ok sts -> well_directed sts p ->
  described c sts p = documented c sts p.
Proof.
  unfold described, documented. intros Hs. generalize (reads p c). induction Hs as [|st sts Hst _ IH]; intros old Hw; [done|].
  apply well_directed_cons in Hw as [Hw1 Hw2]. simpl. rewrite effect_intended by done. by apply IH.
Qed.


(** ** Widths *)
Definition fields64 (c : nic_configuration) : list Z :=
  [shm_len c; nic_rx_len c; nic_tx_len c; app_kin_len c; app_kout_len c;
   tcp_rxbuf_len (cg_slow c); tcp_txbuf_len (cg_slow c)].
Definition fields32 (c : nic_configuration) : list Z :=
  let s := cg_slow c in
  [tcp_rtt_init s; tcp_link_bw s; tcp_handshake_to s; tcp_handshake_retries s; cf_ip s; cf_nic_ip s;
   arp_to s; arp_to_max s; cc_control_granularity s; cc_control_interval s; cc_rexmit_ints s;
   cc_dctcp_weight s; cc_dctcp_init s; cc_dctcp_step s; cc_dctcp_mimd s; cc_dctcp_min s;
   cc_dctcp_minpkts s; cc_const_rate s; cc_timely_tlow s; cc_timely_thigh s; cc_timely_step s;
   cc_timely_init s; cc_timely_alpha s; cc_timely_beta s; cc_timely_min_rtt s; cc_timely_min_rate s;
   fp_cores_max c; fp_interrupts c; fp_xsumoffload c; fp_autoscale c; fp_hugepages c; fp_vlan_strip c;
   fp_poll_interval_tas c; fp_poll_interval_app c].
Definition fields8 (c : nic_configuration) : list Z := [cf_ip_prefix (cg_slow c); nic_ip_prefix c].
Definition route_in_range (r : config_route) : Prop :=
  address (cr_ip r) /\ 0 <= cr_ip_prefix r < 256 /\ address (cr_next_hop_ip r).

Definition below (n x : Z) : Prop := 0 <= x < n.
Record in_range (c : nic_configuration) : Prop := {
  rg_64 : Forall (below 18446744073709551616) (fields64 c);
  rg_32 : Forall (below 4294967296) (fields32 c);
  rg_16 : below 65536 (nic_port c);
  rg_8 : Forall (below 256) (fields8 c);
  rg_routes : Forall route_in_range (cf_routes (cg_slow c));
  rg_fd : - 2147483648 <= ready_fd c < 2147483648;
}.

Lemma digits_nonneg base s acc n v k rest : 0 <= base -> 0 <= acc -> digits base acc n s = (v, k, rest) -> 0 <= v.
Proof.
  intros Hb. revert acc n. induction s as [|x s IH]; simpl; intros acc n Ha E; [congruence|].
  destruct (digit_of base x) as [d|] eqn:Ed; [|congruence]. apply (IH _ _) in E; [done|].
  assert (0 <= d); [|nia]. unfold digit_of, xdigit in Ed.
  destruct ((48 <=? code x) && _) eqn:E1; [|destruct ((97 <=? lower x) && _) eqn:E2; [|done]]; simpl in Ed;
    bprop; destruct (_ <? base); simplify_eq; lia.
Qed.
Lemma strtoul_range s : below 18446744073709551616 (strtoul s).1.
Proof.
  unfold strtoul, below. destruct (sign _) as [neg t]. destruct (digits 10 0 0 t) as [[v k] rest] eqn:E.
  apply digits_nonneg in E; [|lia..]. destruct (k =? 0); simpl; [lia|]. unfold ULONG_MAX.
  destruct (Z.ltb_spec 18446744073709551615 v); [lia|]. destruct neg; [apply u64_range|lia].
Qed.
Lemma parse_int64_range s v ok : parse_int64 s = (v, ok) -> below 18446744073709551616 v.
Proof. unfold parse_int64. pose proof (strtoul_range s). destruct (strtoul s). by intros [= <- <-]. Qed.
Lemma parse_int32_range s v ok : parse_int32 s = (v, ok) -> below 4294967296 v.
Proof. unfold parse_int32. destruct (strtoul s). intros [= <- <-]. apply u32_range. Qed.
Lemma parse_int16_range s v ok : parse_int16 s = (v, ok) -> below 65536 v.
Proof. unfold parse_int16. destruct (strtoul s). intros [= <- <-]. apply u16_range. Qed.
Lemma parse_int8_range s v ok : parse_int8 s = (v, ok) -> below 256 v.
Proof. unfold parse_int8. destruct (strtoul s). intros [= <- <-]. apply u8_range. Qed.

Lemma pton4_octets s octs cur saw l : Forall (below 256) octs -> below 256 cur ->
  pton4 s octs cur saw = Some l -> Forall (below 256) l /\ List.length l = 4%nat.
Proof.
  revert octs cur saw. induction s as [|x s IH]; simpl; intros octs cur saw Ho Hc E.
  - destruct (saw && _) eqn:Es; [|done]. injection E as <-. bprop.
    match goal with H : (_ =? _)%nat = true |- _ => apply Nat.eqb_eq in H; rename H into Hl end.
    split; [by apply Forall_app; repeat constructor; try apply Hc|]. rewrite length_app, Hl. done.
  - destruct (digit_of 10 x) as [d|] eqn:Ed.
    + destruct (saw && (cur =? 0)); [done|]. destruct (Z.ltb_spec 255 (10 * cur + d)); [done|].
      apply IH in E; [done..|]. unfold below in *. split; [|lia].
      unfold digit_of, xdigit in Ed.
      destruct ((48 <=? code x) && _) eqn:E1; [|destruct ((97 <=? lower x) && _) eqn:E2; [|done]]; simpl in Ed;
        bprop; destruct (_ <? 10); simplify_eq; lia.
    + destruct (_ && _ && _); [|done]. apply IH in E; [done| |done]. by apply Forall_app; repeat constructor; try apply Hc.
Qed.
Lemma parse_ipv4_range s ip : util_parse_ipv4 s = Some ip -> address ip.
Proof.
  unfold util_parse_ipv4, inet_pton. destruct (pton4 s [] 0 false) as [l|] eqn:E; [|done].
  apply pton4_octets in E as [Hl Hn]; [|constructor|by split].
  destruct l as [|a [|b [|c [|d []]]]]; try done. rewrite !Forall_cons in Hl. unfold below in Hl.
  intros [= <-]. unfold address, of_octets. simpl. lia.
Qed.

Lemma double_to_u32_range d v : double_to_u32 d = Ok v -> below 4294967296 v.
Proof.
  unfold double_to_u32. destruct d; try done; [by intros [= <-]|]. destruct (_ && _) eqn:E; [|done].
  intros [= <-]. bprop. by split.
Qed.
Lemma i32_range x : - 2147483648 <= i32 x < 2147483648.
Proof. unfold i32. pose proof (u32_range x). destruct (Z.ltb_spec (u32 x) 2147483648); lia. Qed.

Lemma parse_cidr_range s ip p ok ip' p' : address ip -> below 256 p ->
  parse_cidr s ip p = (ok, ip', p') -> address ip' /\ below 256 p'.
Proof.
  intros Hi Hp. unfold parse_cidr. destruct (strrchr "/" s) as [[a len]|].
  - destruct (parse_int8 len) as [q ok'] eqn:E. apply parse_int8_range in E.
    destruct ok'; simpl; [|by intros [= <- <- <-]].
    destruct (util_parse_ipv4 a) eqn:Ea; intros [= <- <- <-]; [|done]. by apply parse_ipv4_range in Ea.
  - simpl. destruct (util_parse_ipv4 s) eqn:Ea; intros [= <- <- <-]; [|done]. by apply parse_ipv4_range in Ea.
Qed.

Ltac fields := unfold fields64, fields32, fields8 in *; simpl in *.

Lemma range_store c c' : in_range c ->
  Forall (below 18446744073709551616) (fields64 c') -> Forall (below 4294967296) (fields32 c') ->
  below 65536 (nic_port c') -> Forall (below 256) (fields8 c') ->
  Forall route_in_range (cf_routes (cg_slow c')) -> - 2147483648 <= ready_fd c' < 2147483648 -> in_range c'.
Proof. by constructor. Qed.

(** A store into one field: the others are as before. *)
Ltac store_one :=
  match goal with H : in_range ?c |- in_range ?c' =>
    let H64 := fresh in let H32 := fresh in let H16 := fresh in let H8 := fresh in let Hr := fresh in let Hf := fresh in
    destruct H as [H64 H32 H16 H8 Hr Hf]; constructor; fields;
    first [assumption | repeat match goal with H : Forall _ (_ :: _) |- _ => apply Forall_cons in H as [? H] end;
      repeat (apply Forall_cons; split); first [assumption | apply Forall_nil; done | done | lia] ] end.

(** A parsed option stays within the fields, and only a weight can be undefined. *)
Lemma handle_range alloc p s c : in_range c ->
  match handle_option alloc p s c with
  | Ok (_, c') => in_range c'
  | Stop r => r = Undefined
  end.
Proof.
  intros H.
  assert (forall off store, (forall w, below 4294967296 w -> in_range (store w)) ->
    match weight_arg off store c s with Ok (_, c') => in_range c' | Stop r => r = Undefined end) as Hw.
  { intros off store Hs. unfold weight_arg. destruct (parse_double s) as [d ok]. destruct (_ || _); [done|].
    match goal with |- context [double_to_u32 ?x] => destruct (double_to_u32 x) as [w|r] eqn:Ew end; osimpl.
    - apply Hs. by apply double_to_u32_range in Ew.
    - unfold double_to_u32 in Ew. destruct (SFmul _ _ _ _); [done|by injection Ew|by injection Ew|].
      destruct (_ && _); [done|by injection Ew]. }
  destruct p; unfold handle_option, int_arg.
  all: try (apply Hw; intros w Hwr; unfold slow_set; store_one).
  all: try match goal with |- context [parse_int64 ?x] => destruct (parse_int64 x) as [v ok] eqn:E; apply parse_int64_range in E end.
  all: try match goal with |- context [parse_int32 ?x] => destruct (parse_int32 x) as [v ok] eqn:E; apply parse_int32_range in E end.
  all: try match goal with |- context [parse_int16 ?x] => destruct (parse_int16 x) as [v ok] eqn:E; apply parse_int16_range in E end.
  all: osimpl; unfold slow_set; try (store_one; fail).
  - destruct (algorithm s); [store_one|done].
  - unfold parse_route. destruct alloc; [|done]. simpl negb. cbv iota. destruct (strchr "," s) as [[d h]|]; [|done].
    destruct (parse_cidr d 0 32) as [[ok ip] q] eqn:Ec. apply parse_cidr_range in Ec as [Hi Hq]; [|done..].
    destruct ok; [|done]. simpl negb. cbv iota. destruct (util_parse_ipv4 h) as [hop|] eqn:Eh; [|done].
    apply parse_ipv4_range in Eh. unfold slow_set. destruct H as [Q1 Q2 Q3 Q4 Q5 Q6].
    constructor; fields; try done. apply Forall_app. split; [done|]. apply Forall_cons. split; [exact (conj Hi (conj Hq Eh))|by apply Forall_nil].
  - destruct (parse_cidr s _ 0) as [[ok ip] q] eqn:Ec. apply parse_cidr_range in Ec as [? ?];
      [|destruct H as [_ H _ _ _ _]; fields; rewrite !Forall_cons in H; apply H|done]. osimpl. store_one.
  - destruct ok; osimpl; store_one.
  - destruct alloc; store_one.
  - pose proof (i32_range v). store_one.
  - unfold parse_arg_append. destruct alloc; [store_one|done].
  - destruct (util_parse_ipv4 s) as [ip|] eqn:Ei; [apply parse_ipv4_range in Ei|]; store_one.
Qed.

(** ** Every command line *)
Lemma long_opt_in s args p a args' : long_opt opts s args = (Opt p a, args') -> exists o, o ∈ opts /\ p = val o.
Proof.
  unfold long_opt. intros E.
  assert (forall n o, find_option opts n = Some o -> o ∈ opts) as F.
  { intros n o. unfold find_option. destruct (List.find _ opts) as [o'|] eqn:Ef.
    - intros [= <-]. apply List.find_some in Ef as [Ef _]. by apply list_elem_of_In.
    - destruct (List.filter _ opts) as [|o' l] eqn:El; [done|]. destruct (forallb _ l); [|done]. intros [= <-].
      assert (In o' (List.filter (fun o => String.prefix n (name o)) opts)) as Hi by (rewrite El; by left).
      apply List.filter_In in Hi as [Hi _]. by apply list_elem_of_In. }
  destruct (strchr "=" s) as [[n v]|].
  - destruct (find_option opts n) as [o|] eqn:Eo; [|done]. exists o. split; [by eapply F|].
    destruct (has_arg o); by simplify_eq.
  - destruct (find_option opts s) as [o|] eqn:Eo; [|done]. exists o. split; [by eapply F|].
    destruct (has_arg o), args; by simplify_eq.
Qed.
Lemma getopt_long_in args nonopts p a args' nonopts' :
  getopt_long opts args nonopts = (Opt p a, args', nonopts') -> exists o, o ∈ opts /\ p = val o.
Proof.
  revert nonopts. induction args as [|x args IH]; intros nonopts E; [done|]. simpl in E.
  destruct x as [|c x]; [by apply IH in E|].
  destruct (ascii_dec c "-") as [->|Hc].
  - destruct x as [|c2 x]; [by apply IH in E|]. destruct (ascii_dec c2 "-") as [->|Hc2].
    + destruct x as [|c3 x]; [done|]. destruct (long_opt opts (String c3 x) args) as [r l] eqn:El.
      injection E as -> -> ->. by apply long_opt_in in El.
    + destruct c2 as [[] [] [] [] [] [] [] []]; done.
  - destruct c as [[] [] [] [] [] [] [] []]; try done; by apply IH in E.
Qed.

(** What no option of the table changes. *)
Lemma handle_arp_to_max alloc o s c b c' : o ∈ opts ->
  handle_option alloc (val o) s c = Ok (b, c') -> arp_to_max (cg_slow c') = arp_to_max (cg_slow c).
Proof.
  intros Ho E. assert (val o <> CP_ARP_TO_MAX) as Hn.
  { unfold opts in Ho. repeat (apply elem_of_cons in Ho as [->|Ho]; [done|]). by apply elem_of_nil in Ho. }
  destruct (val o); try done; unfold handle_option, int_arg, weight_arg, parse_route, parse_arg_append, slow_set, mret, outcome_ret in E.
  all: repeat (case_match || (destruct (double_to_u32 _); cbn [mbind outcome_bind] in E)); simplify_eq/=; try done.
Qed.

Lemma defaults_range a c progname : in_range c ->
  in_range (config_defaults a c progname).2 /\ arp_to_max (cg_slow (config_defaults a c progname).2) = 10000000.
Proof.
  intros [H1 H2 H3 H4 H5 H6]. split; [|by destruct a]. unfold config_defaults. constructor; destruct a; fields;
    try (repeat (apply Forall_cons; split; [by split|]); apply Forall_nil); try done.
Qed.

Lemma parse_options_range alloc fuel args nonopts c : in_range c -> (List.length args < fuel)%nat ->
  match parse_options fuel alloc args nonopts c with
  | Ok (_, _, c') => in_range c' /\ arp_to_max (cg_slow c') = arp_to_max (cg_slow c)
  | Stop r => r = Undefined
  end.
Proof.
  revert args nonopts c. induction fuel as [|fuel IH]; intros args nonopts c Hc Hn; [lia|]. cbn [parse_options].
  destruct (getopt_long opts args nonopts) as [[r args'] nonopts'] eqn:Eg. destruct r as [p a| |]; [|done..].
  pose proof (getopt_long_in _ _ _ _ _ _ Eg) as (o & Ho & ->). apply getopt_long_shorter in Eg.
  pose proof (handle_range (alloc fuel) (val o) a c Hc) as Hr.
  destruct (handle_option (alloc fuel) (val o) a c) as [[ok c1]|] eqn:Eh; [|done]. osimpl.
  apply handle_arp_to_max in Eh; [|done]. destruct ok; [|done].
  specialize (IH args' nonopts' c1 Hr ltac:(lia)). rewrite <- Eh. exact IH.
Qed.

(** C24. For every command line [config_parse] ends, accepting it, or refusing it with
    -1, or converting a weight that C does not define; it never reaches the abort of
    its switch. What it leaves has all fields within their types, routes included; if
    it accepts, both addresses are set. No command line changes the longest ARP
    timeout: the table gives its option the meaning of another one. *)
Theorem config_parse_safe first last alloc c progname args : in_range c ->
  match config_parse first last alloc c progname args with
  | Ok (r, c') =>
      in_range c' /\ arp_to_max (cg_slow c') = 10000000 /\
      (r = -1 \/ r = 0 /\ cf_ip (cg_slow c') <> 0 /\ cf_nic_ip (cg_slow c') <> 0)
  | Stop r => r = Undefined
  end.
Proof.
  intros Hc. assert (forall c, in_range c -> let c' := (config_defaults last c progname).2 in
    in_range c' /\ arp_to_max (cg_slow c') = 10000000 /\ (-1 = -1 \/ -1 = 0 /\ cf_ip (cg_slow c') <> 0 /\ cf_nic_ip (cg_slow c') <> 0)) as Hf.
  { intros c0 H0. destruct (defaults_range last c0 progname H0). split_and!; [done..|by left]. }
  unfold config_parse. pose proof (defaults_range first c progname Hc) as [Hc1 Ha1].
  destruct (config_defaults first c progname) as [ok c1]. simpl in Hc1, Ha1.
  destruct ok; simpl negb; cbv iota; [|by apply Hf].
  pose proof (parse_options_range alloc (S (List.length args)) args [] c1 Hc1 ltac:(lia)) as Hl.
  destruct (parse_options _ _ _ _ _) as [[[ok nonopts] c2]|r]; [|done]. osimpl. destruct Hl as [Hc2 Ha2].
  destruct ok; simpl negb; cbv iota; [|by apply Hf]. destruct nonopts; [|by apply Hf].
  rewrite Ha1 in Ha2.
  destruct (Z.eqb_spec (cf_ip (cg_slow c2)) 0); [by split_and!; try left|].
  destruct (Z.eqb_spec (cf_nic_ip (cg_slow c2)) 0); [by split_and!; try left|].
  split_and!; [done..|by right].
Qed.

(** ** The configuration and what uses it *)

(** The parameters of TIMELY are within the bounds of its arithmetic (CongCtl), but
    for a minimal RTT of zero, by which it would divide. *)
Lemma in_range_timely c : in_range c -> cc_timely_min_rtt (cg_slow c) <> 0 -> timely_cfg_ok (cg_slow c).
Proof.
  intros [_ H _ _ _ _] Hm. fields. rewrite !Forall_cons in H. destruct_and?. unfold below in *.
  constructor; unfold is_u32; lia.
Qed.

(** The weights that the compiler computes for the defaults. *)
Lemma default_weights :
  double_to_u32 (SFmul PREC EMAX (dec_double 2 (-2)) (double_of UINT32_MAX)) = Ok TIMELY_ALPHA /\
  double_to_u32 (SFmul PREC EMAX (dec_double 8 (-1)) (double_of UINT32_MAX)) = Ok TIMELY_BETA.
Proof. by vm_compute. Qed.

(** ** The host process *)
Module HostSpec.

(** An option the table does not have ends the host process with [abort], where the
    process on the NIC explains its usage. *)
Lemma unknown_option_aborts n args : find_option Host.opts n = None -> n <> "" -> lacks "=" n ->
  Host.config_parse (("--" ++ n)%string :: args) = Stop Aborted.
Proof.
  intros Hf Hn Hl. unfold Host.config_parse. cbn [Host.parse_options List.length].
  rewrite getopt_long_dashes by done. unfold long_opt. unfold lacks in Hl. by rewrite Hl, Hf.
Qed.

Lemma opts_host_named : well_named Host.opts.
Proof. split; [apply (bool_decide_unpack _); by vm_compute|]. unfold Host.opts. repeat constructor; done. Qed.

(** Address, port and length are read back, in any of the two forms. *)
Lemma host_settings ip port len : address ip -> ip <> 0 -> 0 <= port < 65536 -> 0 <= len < 18446744073709551616 ->
  Host.config_parse ["--ip-addr=" ++ print_ipv4 ip; "--port"; dec port; "--shm-len=" ++ dec len; "--fp-no-hugepages"] =
    Ok (0, Host.mk_host_config len ip port 0).
Proof.
  intros Hi Hi0 Hp Hl. unfold Host.config_parse. cbn [List.length Host.parse_options].
  pose proof opts_host_named as W.
  assert (forall v args, getopt_long Host.opts (("--ip-addr=" ++ v)%string :: args) [] = (Opt Host.CP_IP_ADDR v, args, [])) as ->
    by (intros; apply (getopt_joined _ (mk_option "ip-addr" required_argument Host.CP_IP_ADDR)); [done|by right; left|done]).
  cbn [Host.handle_option]. rewrite parse_print_ipv4 by done. osimpl.
  assert (forall v args, getopt_long Host.opts ("--port" :: v :: args) [] = (Opt Host.CP_PORT v, args, [])) as ->
    by (intros; apply (getopt_alone _ (mk_option "port" required_argument Host.CP_PORT)); [done|by right; right; left]).
  cbn [Host.handle_option]. rewrite parse_int16_dec by lia. osimpl.
  assert (forall v args, getopt_long Host.opts (("--shm-len=" ++ v)%string :: args) [] = (Opt Host.CP_SHM_LEN v, args, [])) as ->
    by (intros; apply (getopt_joined _ (mk_option "shm-len" required_argument Host.CP_SHM_LEN)); [done|by left|done]).
  cbn [Host.handle_option]. rewrite parse_int64_dec by lia. osimpl.
  simpl. by rewrite (proj2 (Z.eqb_neq _ _) Hi0).
Qed.

End HostSpec.

(** ** Command lines that are not understood as meant *)
Module ConfigEx.

Definition run (args : list string) := config_parse true true (fun _ => true) zero_configuration "tas" args.
Definition addrs : list string := ["--ip-addr=10.0.0.1/24"; "--nic-ip=10.0.1.1"].
Definition get {T} (f : nic_configuration -> T) (args : list string) : option (Z * T) :=
  match run (addrs ++ args)%list with Ok (r, c) => Some (r, f c) | Stop _ => None end.

(** The option for the longest ARP timeout sets the first one. *)
Lemma arp_timeout_max_sets_timeout :
  get (fun c => (arp_to (cg_slow c), arp_to_max (cg_slow c))) ["--arp-timeout-max=9"] = Some (0, (9, 10000000)).
Proof. by vm_compute. Qed.
(** The interval of TAS is stored for applications as well, even after theirs. *)
Lemma tas_interval_sets_both :
  get (fun c => (fp_poll_interval_tas c, fp_poll_interval_app c)) ["--fp-poll-interval-app=7"; "--fp-poll-interval-tas=9"]
  = Some (0, (9, 9)).
Proof. by vm_compute. Qed.
(** The usage text says [--nic-ip-addr]; the table has [nic-ip]. *)
Lemma nic_ip_addr_refused : get (fun _ => tt) ["--nic-ip-addr=10.0.1.1"] = Some (-1, tt).
Proof. by vm_compute. Qed.
(** Numbers that do not fit are cut off: port 65616 is 80, prefix length 280 is 24;
    a prefix length of 33 is accepted. *)
Lemma numbers_cut_off :
  get nic_port ["--nic-port=65616"] = Some (0, 80) /\
  get (fun c => cf_ip_prefix (cg_slow c)) ["--ip-addr=10.0.0.1/280"] = Some (0, 24) /\
  get (fun c => cf_ip_prefix (cg_slow c)) ["--ip-addr=10.0.0.1/33"] = Some (0, 33).
Proof. by vm_compute. Qed.
(** Not a number passes both comparisons of a weight. *)
Lemma nan_is_a_weight : run (addrs ++ ["--cc-timely-alpha=nan"])%list = Stop Undefined.
Proof. by vm_compute. Qed.

Definition opt (i : nat) : long_option cfg_params := nth i opts (mk_option "" no_argument CP_HIDE).
Definition sts : list setting := [
  mk_setting (opt 33) (VNet 167772161 (Some 24)) true;
  mk_setting (opt 0) (VInt 4096) false;
  mk_setting (opt 32) (VRoute 167772416 (Some 24) 167772254) true;
  mk_setting (opt 13) (VAlg CONFIG_CC_TIMELY) false;
  mk_setting (opt 32) (VRoute 0 (Some 0) 167772254) false;
  mk_setting (opt 35) VUnit true;
  mk_setting (opt 46) (VIp 167772162) true].

End ConfigEx.


Lemma config_parse_safe_witness :
  in_range zero_configuration /\
  match config_parse true true (fun _ => true) zero_configuration "tas" ConfigEx.addrs with
  | Ok (r, c') => in_range c' /\ arp_to_max (cg_slow c') = 10000000 /\
      (r = -1 \/ r = 0 /\ cf_ip (cg_slow c') <> 0 /\ cf_nic_ip (cg_slow c') <> 0)
  | Stop r => r = Undefined
  end.
Proof.
  assert (in_range zero_configuration) as H.
  { constructor; try (unfold fields64, fields32, fields8; simpl; repeat (apply Forall_cons; split; [by split|]); apply Forall_nil; exact I);
      try (simpl; by constructor); by split. }
  split; [exact H|]. apply config_parse_safe. exact H.
Defined.
