(* ===== verification/Arp.v ===== *)
(** * ARP (tas_nic/slow/arp.c)

    The cache of resolved and pending addresses. A client that asks for an address
    that is not known leaves a completion, which is put in its queue when the
    answer or the last timeout arrives. *)
From S2P Require Import Prelude RdmaQueue Packets Wire FlowTable Util Timeout SlowState.
Import Util.Nbqueue.

#[local] Open Scope Z_scope.

(** ** Sending packets

    What the slow path needs to send a packet: [nicif_tx_send], with the state it
    works on. *)
Class PacketTx (N : Type) := tx_send : N -> list Z -> bool -> outcome (Z * N).

#[export] Instance nicif_tx {L} `{RdmaLink L} : PacketTx (nicif * L) := fun n p no_ts =>
  '(rv, s, l) ← nicif_tx_send n.1 n.2 p no_ts; mret (rv, (s, l)).

(** Packets that are only recorded: a transmitter that is always ready. *)
#[export] Instance log_tx : PacketTx (list (list Z)) := fun n p _ => mret (0, n ++ [p]).

(** ** ARP packets *)
Definition ARP_OPER_REQUEST : Z := 1.
Definition ARP_OPER_REPLY : Z := 2.
Definition ARP_HTYPE_ETHERNET : Z := 1.
Definition ARP_PTYPE_IPV4 : Z := 0x0800.
Definition ETH_BROADCAST : Z := 0xffffffffffff.

Record arp_hdr := mk_arph {
  arp_htype : Z; arp_ptype : Z; arp_hlen : Z; arp_plen : Z; arp_oper : Z;
  arp_sha : Z; arp_spa : Z; arp_tha : Z; arp_tpa : Z;
}.
Record pkt_arp := mk_parp { pa_eth : eth_hdr; pa_arp : arp_hdr }.

Definition arp_bytes (h : arp_hdr) : list Z :=
  be_bytes 2 (arp_htype h) ++ be_bytes 2 (arp_ptype h) ++ le_bytes 1 (arp_hlen h)
  ++ le_bytes 1 (arp_plen h) ++ be_bytes 2 (arp_oper h) ++ le_bytes 6 (arp_sha h)
  ++ be_bytes 4 (arp_spa h) ++ le_bytes 6 (arp_tha h) ++ be_bytes 4 (arp_tpa h).
Definition bytes_of_arp (p : pkt_arp) : list Z := eth_bytes (pa_eth p) ++ arp_bytes (pa_arp p).
Definition arp_of_bytes (b : list Z) : pkt_arp :=
  mk_parp (mk_eth (get_le b 0 6) (get_le b 6 6) (get_be b 12 2))
    (mk_arph (get_be b 14 2) (get_be b 16 2) (get_le b 18 1) (get_le b 19 1) (get_be b 20 2)
       (get_le b 22 6) (get_be b 28 4) (get_le b 32 6) (get_be b 38 4)).

(** The packet [response_tx] and [request_tx] fill in. *)
Definition arp_packet_to (eth_addr my_ip dst_mac dst_ip oper : Z) : pkt_arp :=
  mk_parp (mk_eth dst_mac eth_addr ETH_TYPE_ARP)
    (mk_arph ARP_HTYPE_ETHERNET ARP_PTYPE_IPV4 6 4 oper eth_addr my_ip dst_mac dst_ip).

(** ** State *)

(** [struct arp_entry]; its timer is known to the timer lists by the address of
    the entry. *)
Record arp_entry := mk_ae {
  ae_status : Z;
  ae_ip : Z;
  ae_mac : Z;
  ae_compl : option Z;
  ae_timeout : Z;
  ae_prev : option Z;
  ae_next : option Z;
}.
#[export] Instance eta_ae : Eta arp_entry := fun a =>
  mk_ae (ae_status a) (ae_ip a) (ae_mac a) (ae_compl a) (ae_timeout a) (ae_prev a) (ae_next a).

Section Arp.
Context {N : Type} `{PacketTx N}.
(** The address of the card, and the configuration. *)
Context (eth_addr : Z) (cfg : configuration).

(** Completions are known by their address: [ar_q] is the queue they are put in,
    whose links are the field [el.next] also used for the list of an entry;
    [ar_status] and [ar_ptr] are their fields [status] and [ptr], and [ar_macs] is
    the memory the latter points to. All completions have the same queue and no
    descriptor to notify. *)
Record arp_state := mk_as {
  ar_heap : gmap Z arp_entry;
  ar_table : option Z;
  ar_timers : timeout_manager;
  ar_q : nbqueue;
  ar_status : gmap Z Z;
  ar_ptr : gmap Z Z;
  ar_macs : gmap Z Z;
  ar_tx : N;
}.
#[export] Instance eta_as : Eta arp_state := fun s =>
  mk_as (ar_heap s) (ar_table s) (ar_timers s) (ar_q s) (ar_status s) (ar_ptr s) (ar_macs s) (ar_tx s).

Definition set_ar_tx (s : arp_state) (n : N) : arp_state := s <| ar_tx := n |>.
Definition set_ar_timers (s : arp_state) (m : timeout_manager) : arp_state := s <| ar_timers := m |>.
Definition set_ar_q (s : arp_state) (q : nbqueue) : arp_state := s <| ar_q := q |>.
Definition set_ar_status (s : arp_state) (comp v : Z) : arp_state :=
  s <| ar_status := <[comp := v]> (ar_status s) |>.

Definition TO_ARP_REQ : Z := 0.

Definition get_ae (s : arp_state) (p : Z) : outcome arp_entry :=
  match ar_heap s !! p with Some a => Ok a | None => Stop OutOfBounds end.
Definition put_ae (s : arp_state) (p : Z) (a : arp_entry) : arp_state :=
  s <| ar_heap := <[p := a]> (ar_heap s) |>.

(** [comp->el.next = v] *)
Definition set_el_next (s : arp_state) (comp : Z) (v : option Z) : arp_state :=
  s <| ar_q := mk_nbqueue (head (ar_q s)) (<[comp := v]> (next (ar_q s))) |>.
(** [*mac = v] *)
Definition set_mac (s : arp_state) (mac v : Z) : arp_state := s <| ar_macs := <[mac := v]> (ar_macs s) |>.

(** ** Operations *)

(** [fresh] is what [malloc] returns. *)
Definition arp_init (s : arp_state) (fresh : option Z) : outcome arp_state :=
  match fresh with
  | None => Stop AssertFailed
  | Some lb =>
      let s := put_ae s lb (mk_ae 0 (cf_ip cfg) eth_addr None 0 None None) in
      mret (s <| ar_table := Some lb |>)
  end.

Fixpoint ae_find (fuel : nat) (h : gmap Z arp_entry) (ae : option Z) (ip : Z) : outcome (option Z) :=
  match fuel with
  | O => Stop OutOfFuel
  | S fuel =>
      match ae with
      | None => mret None
      | Some p =>
          match h !! p with
          | None => Stop OutOfBounds
          | Some a => if ae_ip a =? ip then mret (Some p) else ae_find fuel h (ae_next a) ip
          end
      end
  end.
Definition ae_lookup (s : arp_state) (ip : Z) : outcome (option Z) :=
  ae_find (S (size (ar_heap s))) (ar_heap s) (ar_table s) ip.

Definition arp_tx (s : arp_state) (dst_mac dst_ip oper : Z) : outcome (Z * arp_state) :=
  '(rv, n) ← tx_send (ar_tx s) (bytes_of_arp (arp_packet_to eth_addr (cf_ip cfg) dst_mac dst_ip oper)) false;
  mret (if negb (rv =? 0) then -1 else 0, s <| ar_tx := n |>).
Definition response_tx (s : arp_state) (dst_mac dst_ip : Z) := arp_tx s dst_mac dst_ip ARP_OPER_REPLY.
Definition request_tx (s : arp_state) (dst_ip : Z) := arp_tx s ETH_BROADCAST dst_ip ARP_OPER_REQUEST.

Definition arm_ae (s : arp_state) (p us now : Z) : outcome arp_state :=
  m ← util_timeout_arm_ts (ar_timers s) p us TO_ARP_REQ now; mret (s <| ar_timers := m |>).

Definition disarm_ae (s : arp_state) (p : Z) : outcome arp_state :=
  m ← util_timeout_disarm (ar_timers s) p; mret (s <| ar_timers := m |>).

(** A new entry [a] at [p] is put in front of the list. *)
Definition ae_insert (s : arp_state) (p : Z) (a : arp_entry) : outcome arp_state :=
  let a := a <| ae_prev := (None : option Z) |> in
  let s := put_ae s p (a <| ae_next := ar_table s |>) in
  s ← match ar_table s with
      | Some t => b ← get_ae s t; mret (put_ae s t (b <| ae_prev := Some p |>))
      | None => mret s
      end;
  mret (s <| ar_table := Some p |>).

(** [now] is the time stamp [util_timeout_arm] takes. *)
Definition arp_request (s : arp_state) (comp ip mac now : Z) (fresh : option Z) : outcome (Z * arp_state) :=
  let s := set_mac s mac 0 in
  ae ← ae_lookup s ip;
  match ae with
  | Some p =>
      a ← get_ae s p;
      if ae_status a =? 0 then mret (0, set_mac s mac (ae_mac a))
      else
        let s := s <| ar_ptr := <[comp := mac]> (ar_ptr s) |> in
        let s := set_el_next s comp (ae_compl a) in
        mret (1, put_ae s p (a <| ae_compl := Some comp |>))
  | None =>
      match fresh with
      | None => mret (-1, s)
      | Some p =>
          let s := set_el_next s comp None in
          let s := s <| ar_ptr := <[comp := mac]> (ar_ptr s) |> in
          '(_, s) ← request_tx s ip;
          s ← arm_ae s p (arp_to cfg) now;
          s ← ae_insert s p (mk_ae 1 ip 0 (Some comp) (arp_to cfg) None None);
          mret (1, s)
      end
  end.

(** The loops over the completions of an entry: each gets its status, the address
    when there is one, and goes to the queue. *)
Fixpoint notify_all (fuel : nat) (s : arp_state) (comp : option Z) (status : Z) (mac : option Z)
  : outcome arp_state :=
  match fuel with
  | O => Stop OutOfFuel
  | S fuel =>
      match comp with
      | None => mret s
      | Some c =>
          match next (ar_q s) !! c, ar_ptr s !! c with
          | Some comp_next, Some ptr =>
              let s := match mac with Some m => set_mac s ptr m | None => s end in
              let s := s <| ar_status := <[c := status]> (ar_status s) |> in
              let s := s <| ar_q := nbqueue_enq (ar_q s) c |> in
              notify_all fuel s comp_next status mac
          | _, _ => Stop OutOfBounds
          end
      end
  end.
Definition notify_fuel (s : arp_state) : nat := S (size (next (ar_q s))).

Definition arp_reply (s : arp_state) (ip mac : Z) : outcome arp_state :=
  ae ← ae_lookup s ip;
  match ae with
  | None => mret s
  | Some p =>
      a ← get_ae s p;
      s ← (if ae_status a =? 1 then disarm_ae s p else mret s);
      let a := a <| ae_mac := mac |> in
      let a := a <| ae_status := 0 |> in
      s ← notify_all (notify_fuel s) (put_ae s p a) (ae_compl a) 0 (Some mac);
      mret (put_ae s p (a <| ae_compl := (None : option Z) |>))
  end.

Definition arp_valid (h : arp_hdr) : bool :=
  (arp_htype h =? ARP_HTYPE_ETHERNET) && (arp_ptype h =? ARP_PTYPE_IPV4)
  && (arp_hlen h =? 6) && (arp_plen h =? 4).

Definition arp_packet (s : arp_state) (pkt : list Z) : outcome arp_state :=
  let arp := pa_arp (arp_of_bytes pkt) in
  if negb (arp_valid arp) then mret s
  else if arp_oper arp =? ARP_OPER_REQUEST then
    if negb (arp_tpa arp =? cf_ip cfg) && negb (arp_tpa arp =? cf_nic_ip cfg) then mret s
    else '(_, s) ← response_tx s (arp_sha arp) (arp_spa arp); mret s
  else if arp_oper arp =? ARP_OPER_REPLY then arp_reply s (arp_spa arp) (arp_sha arp)
  else mret s.

(** [ae->prev->next] or [arp_table], and [ae->next->prev], when an entry is taken out. *)
Definition unlink_prev (s : arp_state) (a : arp_entry) : outcome arp_state :=
  match ae_prev a with
  | Some q => b ← get_ae s q; mret (put_ae s q (b <| ae_next := ae_next a |>))
  | None => mret (s <| ar_table := ae_next a |>)
  end.
Definition unlink_next (s : arp_state) (a : arp_entry) : outcome arp_state :=
  match ae_next a with
  | Some q => b ← get_ae s q; mret (put_ae s q (b <| ae_prev := ae_prev a |>))
  | None => mret s
  end.

Definition arp_timeout (s : arp_state) (p now : Z) : outcome arp_state :=
  a ← get_ae s p;
  if ae_status a =? 0 then Stop Aborted
  else if u32 (ae_timeout a * 2) >=? arp_to_max cfg then
    s ← notify_all (notify_fuel s) s (ae_compl a) (-1) None;
    s ← unlink_prev s a;
    s ← unlink_next s a;
    mret (s <| ar_heap := delete p (ar_heap s) |>)
  else
    '(_, s) ← request_tx s (ae_ip a);
    let us := u32 (ae_timeout a * 2) in
    let s := put_ae s p (a <| ae_timeout := us |>) in
    arm_ae s p us now.

End Arp.
Arguments arp_state : clear implicits.
