(* ===== verification/ArpSpec.v ===== *)
(** * The ARP cache as a list of addresses (tas_nic/slow/arp.c)

    The abstract specification of Arp: what is known of which address, who waits
    for it, and who was told. Every operation of the implementation, on linked
    entries and linked completions that share their link field with the queue, is
    simulated by one of the specification. *)
From S2P Require Import Prelude RdmaQueue Packets Wire FlowTable Util Timeout SlowState Arp.
Import Util.Nbqueue.

#[local] Open Scope Z_scope.

(** ** Specification *)

(** An address is resolved, or some wait for it, the last one first; then [us] is
    the time until the next request. *)
Inductive resolution := Resolved (mac : Z) | Waiting (ws : list Z) (us : Z).
Record slot := mk_slot { sl_addr : Z; sl_ip : Z; sl_res : resolution }.

Definition waiters (x : slot) : list Z := match sl_res x with Waiting ws _ => ws | Resolved _ => [] end.

Section Spec.
Context {N : Type} `{PacketTx N}.
Context (eth_addr : Z) (cfg : configuration).

(** [sp_done] is the queue of completions, the last one first. *)
Record arp_spec := mk_spec {
  sp_cache : list slot;
  sp_done : list Z;
  sp_timers : tqueue;
  sp_status : gmap Z Z;
  sp_ptr : gmap Z Z;
  sp_macs : gmap Z Z;
  sp_tx : N;
}.

Fixpoint find_ip (ip : Z) (c : list slot) : option slot :=
  match c with [] => None | x :: c => if sl_ip x =? ip then Some x else find_ip ip c end.
Definition set_res (ip : Z) (r : resolution) (c : list slot) : list slot :=
  (fun x => if sl_ip x =? ip then mk_slot (sl_addr x) ip r else x) <$> c.
Definition all_waiting (c : list slot) : list Z := c ≫= waiters.

Definition tx_step (n : N) (p : pkt_arp) : N :=
  match tx_send n (bytes_of_arp p) false with Ok (_, n) => n | Stop _ => n end.
Definition arp_req_to (ip : Z) : pkt_arp := arp_packet_to eth_addr (cf_ip cfg) ETH_BROADCAST ip ARP_OPER_REQUEST.

Definition spec_request (sp : arp_spec) (comp ip mac now : Z) (fresh : option Z) : Z * arp_spec :=
  let macs := <[mac := 0]> (sp_macs sp) in
  match find_ip ip (sp_cache sp) with
  | Some (mk_slot _ _ (Resolved m)) =>
      (0, mk_spec (sp_cache sp) (sp_done sp) (sp_timers sp) (sp_status sp) (sp_ptr sp) (<[mac := m]> macs) (sp_tx sp))
  | Some (mk_slot _ _ (Waiting ws us)) =>
      (1, mk_spec (set_res ip (Waiting (comp :: ws) us) (sp_cache sp)) (sp_done sp) (sp_timers sp)
            (sp_status sp) (<[comp := mac]> (sp_ptr sp)) macs (sp_tx sp))
  | None =>
      match fresh with
      | None => (-1, mk_spec (sp_cache sp) (sp_done sp) (sp_timers sp) (sp_status sp) (sp_ptr sp) macs (sp_tx sp))
      | Some p =>
          (1, mk_spec (mk_slot p ip (Waiting [comp] (arp_to cfg)) :: sp_cache sp) (sp_done sp)
                (spec_arm now (fresh_entry now p (arp_to cfg) TO_ARP_REQ) (sp_timers sp))
                (sp_status sp) (<[comp := mac]> (sp_ptr sp)) macs (tx_step (sp_tx sp) (arp_req_to ip)))
      end
  end.

(** Each of [ws] gets the status and, when there is one, the address. *)
Definition mark_all (status : Z) (ws : list Z) (m : gmap Z Z) : gmap Z Z :=
  foldl (fun m w => <[w := status]> m) m ws.
Definition give_all (mac : option Z) (ptr : gmap Z Z) (ws : list Z) (m : gmap Z Z) : gmap Z Z :=
  match mac with
  | Some a => foldl (fun m w => <[ptr !!! w := a]> m) m ws
  | None => m
  end.

Definition spec_reply (sp : arp_spec) (ip mac : Z) : arp_spec :=
  match find_ip ip (sp_cache sp) with
  | None => sp
  | Some x =>
      let ws := waiters x in
      mk_spec (set_res ip (Resolved mac) (sp_cache sp)) (rev ws ++ sp_done sp)
        (match sl_res x with Waiting _ _ => spec_disarm (sl_addr x) (sp_timers sp) | Resolved _ => sp_timers sp end)
        (mark_all 0 ws (sp_status sp)) (sp_ptr sp) (give_all (Some mac) (sp_ptr sp) ws (sp_macs sp)) (sp_tx sp)
  end.

Definition spec_timeout (sp : arp_spec) (x : slot) (now : Z) : arp_spec :=
  match sl_res x with
  | Resolved _ => sp
  | Waiting ws us =>
      if 2 * us >=? arp_to_max cfg then
        mk_spec (filter (fun y => sl_ip y <> sl_ip x) (sp_cache sp)) (rev ws ++ sp_done sp) (sp_timers sp)
          (mark_all (-1) ws (sp_status sp)) (sp_ptr sp) (sp_macs sp) (sp_tx sp)
      else
        mk_spec (set_res (sl_ip x) (Waiting ws (2 * us)) (sp_cache sp)) (sp_done sp)
          (spec_arm now (fresh_entry now (sl_addr x) (2 * us) TO_ARP_REQ) (sp_timers sp))
          (sp_status sp) (sp_ptr sp) (sp_macs sp) (tx_step (sp_tx sp) (arp_req_to (sl_ip x)))
  end.

(** ** Representation *)

(** The entries [l] doubly linked, after the entry [p]. *)
Fixpoint ae_seg (h : gmap Z arp_entry) (p : option Z) (l : list Z) : Prop :=
  match l with
  | [] => True
  | x :: l => (exists a, h !! x = Some a /\ ae_prev a = p /\ ae_next a = first_or l None) /\ ae_seg h (Some x) l
  end.

(** An entry and its place in the specification. *)
Definition slot_ok (h : gmap Z arp_entry) (nx : gmap Z (option Z)) (x : slot) : Prop :=
  exists a, h !! sl_addr x = Some a /\ ae_ip a = sl_ip x /\
    match sl_res x with
    | Resolved m => ae_status a = 0 /\ ae_mac a = m /\ ae_compl a = None
    | Waiting ws us => ae_status a = 1 /\ ae_timeout a = us /\ chain nx (ae_compl a) ws /\
        0 <= us /\ (us = arp_to cfg \/ us < arp_to_max cfg)
    end.

(** [firing] is the entry whose timer was just taken from the timer lists. *)
Definition timer_right (tq : tqueue) (firing : option Z) (x : slot) : Prop :=
  match sl_res x with
  | Resolved _ => sl_addr x ∉ armed tq
  | Waiting _ _ => if decide (firing = Some (sl_addr x)) then sl_addr x ∉ armed tq else sl_addr x ∈ armed tq
  end.

Record arp_rep (now : Z) (firing : option Z) (s : arp_state N) (sp : arp_spec) : Prop := {
  ar_seg : ae_seg (ar_heap s) None (sl_addr <$> sp_cache sp);
  ar_first : ar_table s = first_or (sl_addr <$> sp_cache sp) None;
  ar_slots : Forall (slot_ok (ar_heap s) (next (ar_q s))) (sp_cache sp);
  ar_ips : NoDup (sl_ip <$> sp_cache sp);
  ar_addrs : NoDup (sl_addr <$> sp_cache sp);
  ar_done : chain (next (ar_q s)) (head (ar_q s)) (sp_done sp);
  ar_once : NoDup (all_waiting (sp_cache sp) ++ sp_done sp);
  ar_ptrs : Forall (fun w => is_Some (ar_ptr s !! w)) (all_waiting (sp_cache sp));
  ar_tq : rep now (ar_timers s) (sp_timers sp);
  ar_timed : Forall (timer_right (sp_timers sp) firing) (sp_cache sp);
  ar_maps : ar_status s = sp_status sp /\ ar_ptr s = sp_ptr sp /\ ar_macs s = sp_macs sp;
  ar_same_tx : ar_tx s = sp_tx sp;
}.

(** ** Lists of entries *)

Definition ae_links (h : gmap Z arp_entry) (p : Z) : option (option Z * option Z) :=
  (fun a => (ae_prev a, ae_next a)) <$> h !! p.

Lemma ae_seg_agree h h' l : forall p, (forall x, x ∈ l -> ae_links h x = ae_links h' x) ->
  ae_seg h p l -> ae_seg h' p l.
Proof.
  induction l as [|x l IH]; intros p Hl; simpl; [done|]. intros [(a & Ha & <- & Hn) Hs].
  assert (ae_links h x = ae_links h' x) as E by (apply Hl; set_solver). unfold ae_links in E. rewrite Ha in E.
  simpl in E. destruct (h' !! x) as [a'|]; [|done]. injection E as Ep En.
  split; [exists a'; by rewrite <- En, <- Ep|]. apply IH; [set_solver|done].
Qed.

Lemma ae_seg_in h l x : forall p, ae_seg h p l -> x ∈ l -> exists a, h !! x = Some a.
Proof.
  induction l as [|y l IH]; intros p Hs Hx; [by apply elem_of_nil in Hx|].
  destruct Hs as [(a & Ha & _) Hs]. apply elem_of_cons in Hx as [->|Hx]; eauto.
Qed.

Lemma ae_seg_put h p l x a a' : h !! x = Some a -> ae_prev a' = ae_prev a -> ae_next a' = ae_next a ->
  ae_seg h p l -> ae_seg (<[x := a']> h) p l.
Proof.
  intros Hx Hp Hn. apply ae_seg_agree. intros y _. unfold ae_links.
  destruct (decide (y = x)) as [->|]; [|by rewrite lookup_insert_ne].
  rewrite lookup_insert_eq, Hx. simpl. congruence.
Qed.

Lemma ae_seg_middle h A x B : forall p, ae_seg h p (A ++ x :: B) ->
  exists a, h !! x = Some a /\ ae_prev a = match A with [] => p | _ => last A end /\ ae_next a = first_or B None.
Proof.
  induction A as [|y A IH]; intros p; simpl.
  - intros [(a & ? & ? & ?) _]. by exists a.
  - intros [_ Hs]. destruct (IH _ Hs) as (a & ? & Hp & ?). exists a. split_and!; [done| |done].
    rewrite Hp. destruct A; [done|]. by rewrite last_cons_cons.
Qed.

Lemma find_ip_split ip c x : find_ip ip c = Some x -> NoDup (sl_ip <$> c) ->
  exists A B, c = A ++ x :: B /\ sl_ip x = ip /\
    (forall r, set_res ip r c = A ++ mk_slot (sl_addr x) ip r :: B) /\
    filter (fun y => sl_ip y <> ip) c = A ++ B.
Proof.
  assert (forall B, ip ∉ sl_ip <$> B -> (forall r, set_res ip r B = B) /\ filter (fun y => sl_ip y <> ip) B = B) as Hrest.
  { intros B HB. split.
    - intros r. unfold set_res. transitivity (id <$> B); [|by rewrite list_fmap_id].
      apply list_fmap_ext. intros i y Hy. apply list_elem_of_lookup_2 in Hy.
      rewrite (proj2 (Z.eqb_neq _ _)); [done|]. intros <-. apply HB. by apply list_elem_of_fmap_2.
    - apply filter_all, Forall_forall. intros y Hy <-. apply HB. by apply list_elem_of_fmap_2. }
  induction c as [|y c IH]; simpl; [done|]. intros E Hn. apply NoDup_cons in Hn as [Hy Hn].
  destruct (Z.eqb_spec (sl_ip y) ip) as [Hip|Hip].
  - injection E as ->. rewrite Hip in Hy. destruct (Hrest c Hy) as [H1 H2].
    exists [], c. split_and!; [done|done| |].
    + intros r. by rewrite H1.
    + by rewrite filter_cons_False, H2 by (intros []; done).
  - destruct (IH E Hn) as (A & B & -> & Hx & H1 & H2). exists (y :: A), B. split_and!; [done|done| |].
    + intros r. simpl. by rewrite H1.
    + by rewrite filter_cons_True, H2.
Qed.

Lemma find_ip_None ip c : find_ip ip c = None -> ip ∉ sl_ip <$> c.
Proof.
  induction c as [|y c IH]; simpl; [intros _; apply not_elem_of_nil|].
  destruct (Z.eqb_spec (sl_ip y) ip); [done|]. intros E. apply not_elem_of_cons. split; [done|]. by apply IH.
Qed.

Lemma ae_find_ok h nx ip c : forall fuel p, ae_seg h p (sl_addr <$> c) -> Forall (slot_ok h nx) c ->
  (length c < fuel)%nat ->
  ae_find fuel h (first_or (sl_addr <$> c) None) ip = Ok (sl_addr <$> find_ip ip c).
Proof.
  induction c as [|x c IH]; intros [|fuel] p Hs Hf Hl; simpl in *; try lia; [done|].
  destruct Hs as [(a & Ha & _ & Hn) Hs]. apply Forall_cons in Hf as [(a' & Ha' & Hip & _) Hf].
  rewrite Ha in Ha' |- *. injection Ha' as <-. rewrite Hip. destruct (sl_ip x =? ip); [done|].
  rewrite Hn. apply IH with (Some (sl_addr x)); [done|done|lia].
Qed.

Lemma slots_frame h nx h' nx' c : Forall (slot_ok h nx) c ->
  (forall y, y ∈ c -> h' !! sl_addr y = h !! sl_addr y) ->
  (forall y ws us o, y ∈ c -> sl_res y = Waiting ws us -> chain nx o ws -> chain nx' o ws) ->
  Forall (slot_ok h' nx') c.
Proof.
  rewrite !Forall_forall. intros Hf Hh Hc y Hy. destruct (Hf y Hy) as (a & Ha & Hip & Hr).
  exists a. rewrite Hh by done. split_and!; [done|done|]. destruct (sl_res y) eqn:Ey; [done|].
  destruct Hr as (? & ? & Hw & ? & ?). split_and!; [done|done|exact (Hc y ws us _ Hy Ey Hw)|done|done].
Qed.

Lemma all_waiting_app A B : all_waiting (A ++ B) = all_waiting A ++ all_waiting B.
Proof. unfold all_waiting. apply bind_app. Qed.
Lemma all_waiting_cons x B : all_waiting (x :: B) = waiters x ++ all_waiting B.
Proof. done. Qed.
Lemma waiters_in y c : y ∈ c -> waiters y ⊆ all_waiting c.
Proof. intros Hy w Hw. apply list_elem_of_bind. by exists y. Qed.

Lemma chain_frame nx nx' l : (forall x, x ∈ l -> nx' !! x = nx !! x) -> forall o, chain nx o l -> chain nx' o l.
Proof.
  induction l as [|x l IH]; intros Hl o; simpl; [done|]. intros (-> & n & Hn & Hc). split; [done|].
  exists n. rewrite Hl by set_solver. split; [done|]. apply IH; [set_solver|done].
Qed.

Lemma chain_Some nx l x : forall o, chain nx o l -> x ∈ l -> is_Some (nx !! x).
Proof.
  induction l as [|y l IH]; intros o Hc Hx; [by apply elem_of_nil in Hx|].
  destruct Hc as (_ & n & Hn & Hc). apply elem_of_cons in Hx as [->|Hx]; eauto.
Qed.

(** The loop over the completions of an entry, of which [l] are left. *)
Lemma notify_all_ok (st : Z) (mac : option Z) l : forall fuel (s : arp_state N) o D,
  chain (next (ar_q s)) o l -> chain (next (ar_q s)) (head (ar_q s)) D -> NoDup (l ++ D) ->
  Forall (fun w => is_Some (ar_ptr s !! w)) l -> (length l < fuel)%nat ->
  exists q, notify_all fuel s o st mac = Ok (mk_as (ar_heap s) (ar_table s) (ar_timers s) q
      (mark_all st l (ar_status s)) (ar_ptr s) (give_all mac (ar_ptr s) l (ar_macs s)) (ar_tx s)) /\
    chain (next q) (head q) (rev l ++ D) /\
    forall x, x ∉ l -> next q !! x = next (ar_q s) !! x.
Proof.
  induction l as [|w l IH]; intros [|fuel] s o D Hc HD Hn Hp Hf; simpl in *; try lia.
  - subst o. exists (ar_q s). split; [destruct s, mac; done|]. by split.
  - destruct Hc as (-> & n & Hw & Hc). apply Forall_cons in Hp as [[ptr Hptr] Hp]. rewrite Hw, Hptr.
    apply NoDup_cons in Hn as [Hwn Hn].
    match goal with |- context [notify_all fuel ?s' n st mac] => set (s1 := s') end.
    destruct (IH fuel s1 n (w :: D)) as (q & E & Hq & Hx).
    + simpl. apply chain_frame with (next (ar_q s)); [|by destruct mac].
      intros x Hx. unfold s1. destruct mac; simpl; apply lookup_insert_ne; set_solver.
    + unfold s1. assert (chain (next (nbqueue_enq (ar_q s) w)) (head (nbqueue_enq (ar_q s) w)) (w :: D)) as Hd.
      { simpl. split; [done|]. exists (head (ar_q s)). rewrite lookup_insert_eq. split; [done|].
        apply chain_insert_fresh; [set_solver|done]. }
      by destruct mac.
    + rewrite <- Permutation_middle. by constructor.
    + unfold s1. by destruct mac.
    + lia.
    + exists q. split.
      * rewrite E. unfold s1. destruct mac; simpl; [|done]. by rewrite (lookup_total_correct _ _ _ Hptr).
      * split; [by rewrite <- app_assoc|]. intros x Hx1. rewrite Hx by set_solver.
        unfold s1. destruct mac; simpl; apply lookup_insert_ne; set_solver.
Qed.

(** ** The operations *)
Record arp_cfg_ok : Prop := {
  ac_to : 0 <= arp_to cfg < HALF;
  ac_max : arp_to_max cfg <= HALF;
}.

Implicit Types (s : arp_state N) (sp : arp_spec).

Lemma ae_lookup_ok now f s sp ip : arp_rep now f s sp -> ae_lookup s ip = Ok (sl_addr <$> find_ip ip (sp_cache sp)).
Proof.
  intros R. unfold ae_lookup. rewrite (ar_first _ _ _ _ R).
  apply ae_find_ok with (next (ar_q s)) None; [apply R|apply R|].
  pose proof (NoDup_size (ar_heap s) (sl_addr <$> sp_cache sp)) as Hs. rewrite length_fmap in Hs.
  assert (length (sp_cache sp) <= size (ar_heap s))%nat; [|lia]. apply Hs; [|apply R].
  intros x Hx. eapply ae_seg_in; [apply R|done].
Qed.

(** Fuel for the loops over completions: they all have a link. *)
Lemma notify_fuel_ok now f s sp : arp_rep now f s sp -> (length (all_waiting (sp_cache sp)) < notify_fuel s)%nat.
Proof.
  intros R. unfold notify_fuel. assert (length (all_waiting (sp_cache sp)) <= size (next (ar_q s)))%nat; [|lia].
  apply NoDup_size; [|by pose proof (ar_once _ _ _ _ R) as (? & _)%NoDup_app].
  intros w (x & Hw & Hx)%list_elem_of_bind. pose proof (ar_slots _ _ _ _ R) as Hs. rewrite Forall_forall in Hs.
  destruct (Hs x Hx) as (a & _ & _ & Hr). unfold waiters in Hw. destruct (sl_res x); [by apply elem_of_nil in Hw|].
  destruct Hr as (_ & _ & Hc & _). by destruct (chain_Some _ _ _ _ Hc Hw) as [n ?]; exists n.
Qed.

(** The middle slot of a cache that satisfies [Forall P]. *)
Lemma Forall_mid (P : slot -> Prop) A x B : Forall P (A ++ x :: B) <-> P x /\ Forall P (A ++ B).
Proof. rewrite !Forall_app, Forall_cons. tauto. Qed.

Lemma all_waiting_mid A x B : all_waiting (A ++ x :: B) ≡ₚ waiters x ++ all_waiting (A ++ B).
Proof.
  rewrite !all_waiting_app, all_waiting_cons, !app_assoc.
  by rewrite (Permutation_app_comm (all_waiting A) (waiters x)).
Qed.

(** Another slot has another address and other waiters. *)
Lemma other_slot A x B D y : NoDup (sl_addr <$> A ++ x :: B) -> NoDup (all_waiting (A ++ x :: B) ++ D) -> y ∈ A ++ B ->
  sl_addr y <> sl_addr x /\ (forall w, w ∈ waiters y -> w ∉ waiters x /\ w ∉ D).
Proof.
  intros Ha Hw Hy. split.
  - intros E. rewrite fmap_app, fmap_cons in Ha. apply NoDup_app_remove in Ha as [_ Ha]. apply Ha.
    rewrite <- fmap_app, <- E. by apply list_elem_of_fmap_2.
  - intros w Hwy. rewrite all_waiting_mid in Hw. pose proof (waiters_in y _ Hy w Hwy) as Hin.
    apply NoDup_app in Hw as (Hw1 & Hw2 & _). apply NoDup_app in Hw1 as (_ & Hw3 & _).
    split; [|apply Hw2; set_solver]. intros Hwx. by apply (Hw3 w).
Qed.

Lemma get_ae_Some s p a : ar_heap s !! p = Some a -> get_ae s p = Ok a.
Proof. unfold get_ae. by intros ->. Qed.

(** An entry of the list is written, its links kept: the list is the same. *)
Lemma first_or_mid (A : list slot) x y B : sl_addr x = sl_addr y ->
  sl_addr <$> A ++ x :: B = sl_addr <$> A ++ y :: B.
Proof. intros E. by rewrite !fmap_app, !fmap_cons, E. Qed.

Lemma ips_mid (A : list slot) x y B : sl_ip x = sl_ip y -> sl_ip <$> A ++ x :: B = sl_ip <$> A ++ y :: B.
Proof. intros E. by rewrite !fmap_app, !fmap_cons, E. Qed.

(** One slot is replaced, at the same address and for the same IP. *)
Lemma rep_replace now f f' s s' sp sp' A x x' B a a' :
  arp_rep now f s sp -> sp_cache sp = A ++ x :: B -> sp_cache sp' = A ++ x' :: B ->
  sl_addr x' = sl_addr x -> sl_ip x' = sl_ip x -> ar_heap s !! sl_addr x = Some a ->
  ar_heap s' = <[sl_addr x := a']> (ar_heap s) -> ae_prev a' = ae_prev a -> ae_next a' = ae_next a ->
  ar_table s' = ar_table s -> slot_ok (ar_heap s') (next (ar_q s')) x' ->
  (forall y w, y ∈ A ++ B -> w ∈ waiters y -> next (ar_q s') !! w = next (ar_q s) !! w) ->
  chain (next (ar_q s')) (head (ar_q s')) (sp_done sp') ->
  NoDup (all_waiting (A ++ x' :: B) ++ sp_done sp') ->
  Forall (fun w => is_Some (ar_ptr s' !! w)) (all_waiting (A ++ x' :: B)) ->
  rep now (ar_timers s') (sp_timers sp') ->
  Forall (timer_right (sp_timers sp') f') (x' :: A ++ B) ->
  ar_status s' = sp_status sp' /\ ar_ptr s' = sp_ptr sp' /\ ar_macs s' = sp_macs sp' -> ar_tx s' = sp_tx sp' ->
  arp_rep now f' s' sp'.
Proof.
  intros R Ec Ec' Ea Ei Ha Eh Hp Hn Et Hslot Hnx Hd Honce Hptr Htq Htr Hm Htx.
  pose proof (ar_seg _ _ _ _ R) as R1. pose proof (ar_first _ _ _ _ R) as R2.
  pose proof (ar_slots _ _ _ _ R) as R3. pose proof (ar_ips _ _ _ _ R) as R4.
  pose proof (ar_addrs _ _ _ _ R) as R5. pose proof (ar_once _ _ _ _ R) as R6. rewrite Ec in *.
  constructor; rewrite ?Ec', ?(first_or_mid A x' x B Ea), ?(ips_mid A x' x B Ei); try done.
  - rewrite Eh. by apply ae_seg_put with a.
  - by rewrite Et.
  - apply Forall_mid. split; [done|]. apply Forall_mid in R3 as [_ R3].
    apply (slots_frame _ _ _ _ _ R3).
    + intros y Hy. rewrite Eh. apply lookup_insert_ne. intros E.
      destruct (other_slot A x B (sp_done sp) y R5 R6 Hy) as [? _]. congruence.
    + intros y ws us o Hy Ey. apply chain_frame. intros w Hw. apply (Hnx y); [done|].
      unfold waiters. by rewrite Ey.
  - apply Forall_mid. by apply Forall_cons.
Qed.

Lemma slot_entry h nx x : slot_ok h nx x -> exists a, h !! sl_addr x = Some a /\ ae_ip a = sl_ip x.
Proof. intros (a & ? & ? & _). by exists a. Qed.

(** A completion is added to the ones that wait for an address. *)
Lemma once_add A x x' B D comp : NoDup (all_waiting (A ++ x :: B) ++ D) ->
  comp ∉ all_waiting (A ++ x :: B) ++ D -> waiters x' = comp :: waiters x ->
  NoDup (all_waiting (A ++ x' :: B) ++ D).
Proof.
  intros Hn Hc E. rewrite all_waiting_mid in *. rewrite E. simpl. by constructor.
Qed.

Lemma arp_request_waiting now s sp comp ip mac fresh ad ip' ws us :
  arp_rep now None s sp -> comp ∉ all_waiting (sp_cache sp) ++ sp_done sp ->
  find_ip ip (sp_cache sp) = Some (mk_slot ad ip' (Waiting ws us)) ->
  exists s', arp_request eth_addr cfg s comp ip mac (now mod PERIOD) fresh =
      Ok ((spec_request sp comp ip mac now fresh).1, s') /\
    arp_rep now None s' (spec_request sp comp ip mac now fresh).2.
Proof.
  intros R Hc Ef. pose proof (find_ip_split _ _ _ Ef (ar_ips _ _ _ _ R)) as (A & B & Ecache & Hip & Hset & _).
  unfold arp_request, spec_request. rewrite Ef.
  assert (ae_lookup (set_mac s mac 0) ip = ae_lookup s ip) as -> by done.
  rewrite (ae_lookup_ok _ _ _ _ ip R), Ef. cbn [fmap option_fmap option_map sl_addr]. osimpl. simpl in Hip. subst ip'.
  pose proof (ar_slots _ _ _ _ R) as Hs. rewrite Ecache in Hs. apply Forall_mid in Hs as [Hx _].
  destruct Hx as (a & Ha & Hip & Hst & Hto & Hch & Hus). simpl in Ha, Hip.
  rewrite (get_ae_Some (set_mac s mac 0) ad a) by done. osimpl. rewrite Hst. cbn [Z.eqb]. cbv iota.
  eexists. split; [reflexivity|]. cbn [snd]. rewrite (Hset (Waiting (comp :: ws) us)) in *.
  assert (forall y w, y ∈ A ++ B -> w ∈ waiters y -> w <> comp) as Hne.
  { intros y w Hy Hw ->. apply Hc. apply elem_of_app. left. rewrite Ecache, all_waiting_mid.
    apply elem_of_app. right. by apply (waiters_in y). }
  rewrite Ecache in Hc. rewrite all_waiting_mid in Hc. unfold waiters in Hc at 1. simpl in Hc.
  assert (comp ∉ ws /\ comp ∉ sp_done sp) as [Hcw Hcd] by set_solver.
  eapply (rep_replace now None None s _ sp _ A _ (mk_slot ad ip (Waiting (comp :: ws) us)) B a);
    [exact R|exact Ecache|reflexivity|reflexivity|reflexivity|exact Ha|reflexivity|reflexivity|reflexivity|reflexivity|..]; simpl.
  - eexists. simpl. rewrite lookup_insert_eq. do 4 (split; [done|]). split; [|exact Hus].
    simpl. split; [done|]. exists (ae_compl a). rewrite lookup_insert_eq. split; [done|].
    by apply chain_insert_fresh.
  - intros y w Hy Hw. apply lookup_insert_ne. intros ->. by apply (Hne y w).
  - apply chain_insert_fresh; [done|apply R].
  - pose proof (ar_once _ _ _ _ R) as Ho. rewrite Ecache in Ho.
    eapply once_add; [exact Ho| |reflexivity]. rewrite all_waiting_mid. unfold waiters at 1. simpl. set_solver.
  - pose proof (ar_ptrs _ _ _ _ R) as Hp. rewrite Ecache in Hp. rewrite all_waiting_mid in *.
    apply Forall_app in Hp as [Hp1 Hp2].
    assert (forall l, Forall (fun w => is_Some (ar_ptr s !! w)) l -> Forall (fun w => is_Some (<[comp:=mac]> (ar_ptr s) !! w)) l) as Hi.
    { intros l Hl. eapply Forall_impl; [exact Hl|]. intros w ?. apply lookup_insert_is_Some'. by right. }
    apply Forall_app. split; [|by apply Hi]. apply Forall_cons. split; [rewrite lookup_insert_eq; done|by apply Hi].
  - apply R.
  - pose proof (ar_timed _ _ _ _ R) as Ht. rewrite Ecache in Ht. apply Forall_mid in Ht as [Ht1 Ht2].
    by apply Forall_cons.
  - destruct (ar_maps _ _ _ _ R) as (-> & -> & ->). done.
  - apply R.
Qed.

Lemma arp_request_resolved now s sp comp ip mac fresh ad ip' m :
  arp_rep now None s sp -> find_ip ip (sp_cache sp) = Some (mk_slot ad ip' (Resolved m)) ->
  exists s', arp_request eth_addr cfg s comp ip mac (now mod PERIOD) fresh =
      Ok ((spec_request sp comp ip mac now fresh).1, s') /\
    arp_rep now None s' (spec_request sp comp ip mac now fresh).2.
Proof.
  intros R Ef. pose proof (find_ip_split _ _ _ Ef (ar_ips _ _ _ _ R)) as (A & B & Ecache & Hip & _).
  unfold arp_request, spec_request. rewrite Ef.
  assert (ae_lookup (set_mac s mac 0) ip = ae_lookup s ip) as -> by done.
  rewrite (ae_lookup_ok _ _ _ _ ip R), Ef. cbn [fmap option_fmap option_map sl_addr]. osimpl.
  pose proof (ar_slots _ _ _ _ R) as Hs. rewrite Ecache in Hs. apply Forall_mid in Hs as [Hx _].
  destruct Hx as (a & Ha & _ & Hst & Hm & _). simpl in Ha.
  rewrite (get_ae_Some (set_mac s mac 0) ad a) by done. osimpl. rewrite Hst. cbn [Z.eqb]. cbv iota.
  eexists. split; [reflexivity|]. destruct R, ar_maps0 as (E1 & E2 & E3). constructor; simpl; try done.
  rewrite E3, Hm. done.
Qed.

(** A new entry in front of the list. *)
Lemma ae_seg_front h p l e : p ∉ l -> ae_seg h None l -> ae_prev e = None -> ae_next e = first_or l None ->
  ae_seg (match l with
          | t :: _ => match h !! t with
                      | Some a => <[t := a <| ae_prev := Some p |>]> (<[p := e]> h) | None => <[p := e]> h end
          | [] => <[p := e]> h end) None (p :: l).
Proof.
  intros Hp Hs He Hn. destruct l as [|t l].
  - split; [|done]. exists e. by rewrite lookup_insert_eq.
  - destruct Hs as [(a & Ha & Hpa & Hna) Hs]. rewrite Ha. apply not_elem_of_cons in Hp as [Hpt Hp].
    split; [exists e; by rewrite lookup_insert_ne, lookup_insert_eq by done|]. split.
    + eexists. rewrite lookup_insert_eq. split; [done|]. by split.
    + destruct (decide (t ∈ l)) as [Ht|Ht].
      * exfalso. (* The first entry would have two predecessors. *)
        apply list_elem_of_split in Ht as (A & B & ->). apply ae_seg_middle in Hs as (a' & Ha' & Hp' & _).
        rewrite Ha in Ha'. injection Ha' as <-. rewrite Hpa in Hp'. destruct A as [|y A]; [done|].
        by destruct (last_is_Some (y :: A)) as [_ []]; [done|congruence].
      * eapply ae_seg_agree; [|exact Hs]. intros x Hx. unfold ae_links.
        rewrite !lookup_insert_ne; [done| |]; set_solver.
Qed.

(** The transmitter takes the packet. *)
Definition takes (n : N) (p : pkt_arp) : Prop := exists r, tx_send n (bytes_of_arp p) false = Ok r.

Lemma tx_step_ok n p : takes n p -> exists rv, tx_send n (bytes_of_arp p) false = Ok (rv, tx_step n p).
Proof. unfold tx_step. intros [[rv n'] ->]. by exists rv. Qed.

Lemma request_tx_ok s ip : takes (ar_tx s) (arp_req_to ip) -> exists rv,
  request_tx eth_addr cfg s ip = Ok (rv, mk_as (ar_heap s) (ar_table s) (ar_timers s) (ar_q s) (ar_status s)
    (ar_ptr s) (ar_macs s) (tx_step (ar_tx s) (arp_req_to ip))).
Proof.
  intros Ht. unfold request_tx, arp_tx. destruct (tx_step_ok _ _ Ht) as [rv E].
  unfold arp_req_to in *. rewrite E. osimpl. by eexists.
Qed.

Lemma timer_right_arm now e tq f c : Forall (timer_right tq f) c -> e_to e ∉ sl_addr <$> c ->
  Forall (timer_right (spec_arm now e tq) f) c.
Proof.
  rewrite !Forall_forall. intros Ht He x Hx. specialize (Ht x Hx). unfold timer_right in *.
  assert (sl_addr x <> e_to e) by (intros E; apply He; rewrite <- E; by apply list_elem_of_fmap_2).
  destruct (sl_res x); [|case_decide]; rewrite armed_arm; tauto.
Qed.

Lemma ae_insert_ok s p a l : p ∉ l -> ar_heap s !! p = None -> ae_seg (ar_heap s) None l ->
  ar_table s = first_or l None ->
  exists h e, ae_insert s p a = Ok (mk_as h (Some p) (ar_timers s) (ar_q s) (ar_status s) (ar_ptr s) (ar_macs s) (ar_tx s)) /\
    ae_seg h None (p :: l) /\ h !! p = Some e /\
    (ae_status e = ae_status a /\ ae_ip e = ae_ip a /\ ae_mac e = ae_mac a /\ ae_compl e = ae_compl a /\
     ae_timeout e = ae_timeout a) /\
    forall x b, ar_heap s !! x = Some b -> exists b', h !! x = Some b' /\ ae_status b' = ae_status b /\
      ae_ip b' = ae_ip b /\ ae_mac b' = ae_mac b /\ ae_compl b' = ae_compl b /\ ae_timeout b' = ae_timeout b.
Proof.
  intros Hp Hnew Hs Ht. unfold ae_insert. cbv zeta.
  set (e := (a <| ae_prev := (None : option Z) |>) <| ae_next := ar_table s |>).
  pose proof (ae_seg_front (ar_heap s) p l e Hp Hs eq_refl Ht) as Hseg. simpl ar_table. rewrite Ht.
  destruct l as [|t l]; cbn [first_or].
  - osimpl. eexists _, e. split; [reflexivity|]. simpl. split; [done|].
    rewrite lookup_insert_eq. split; [done|]. split; [done|].
    intros x b Hx. exists b. by rewrite lookup_insert_ne by congruence.
  - destruct Hs as [(b & Hb & _) _]. rewrite Hb in Hseg. apply not_elem_of_cons in Hp as [Hpt Hp].
    rewrite (get_ae_Some _ t b) by (simpl; by rewrite lookup_insert_ne). osimpl.
    eexists _, e. split; [reflexivity|]. simpl. split; [done|].
    simpl. rewrite lookup_insert_ne, lookup_insert_eq by done. split; [done|]. split; [done|].
    intros x c Hx. destruct (decide (x = t)) as [->|].
    + rewrite Hb in Hx. injection Hx as <-. eexists. rewrite lookup_insert_eq. split; [done|]. by repeat split.
    + exists c. by rewrite !lookup_insert_ne by congruence.
Qed.

Lemma arp_request_new now s sp comp ip mac p : arp_cfg_ok ->
  arp_rep now None s sp -> comp ∉ all_waiting (sp_cache sp) ++ sp_done sp ->
  find_ip ip (sp_cache sp) = None -> ar_heap s !! p = None -> p ∉ armed (sp_timers sp) -> takes (ar_tx s) (arp_req_to ip) ->
  exists s', arp_request eth_addr cfg s comp ip mac (now mod PERIOD) (Some p) =
      Ok ((spec_request sp comp ip mac now (Some p)).1, s') /\
    arp_rep now None s' (spec_request sp comp ip mac now (Some p)).2.
Proof.
  intros [Hto Hmax] R Hc Ef Hp Hpa Htk.
  assert (p ∉ sl_addr <$> sp_cache sp) as Hpc.
  { intros Hin. destruct (ae_seg_in _ _ _ _ (ar_seg _ _ _ _ R) Hin) as [a ?]. congruence. }
  destruct (arm_ok now (ar_timers s) (sp_timers sp) p (arp_to cfg) TO_ARP_REQ (ar_tq _ _ _ _ R) Hpa Hto)
    as (tm & Etm & Rtm); [by split|].
  unfold arp_request, spec_request. rewrite Ef.
  assert (ae_lookup (set_mac s mac 0) ip = ae_lookup s ip) as -> by done.
  rewrite (ae_lookup_ok _ _ _ _ ip R), Ef. cbn [fmap option_fmap option_map]. osimpl.
  match goal with |- context [request_tx eth_addr cfg ?x ip] => destruct (request_tx_ok x ip Htk) as [rv ->] end.
  osimpl. unfold arm_ae. simpl ar_timers. rewrite Etm. osimpl.
  match goal with |- context [ae_insert ?s1 p ?a] =>
    destruct (ae_insert_ok s1 p a (sl_addr <$> sp_cache sp) Hpc Hp (ar_seg _ _ _ _ R) (ar_first _ _ _ _ R))
      as (h & e & -> & Hseg & He & Hea & Hold) end.
  osimpl. eexists. split; [reflexivity|]. simpl in *. apply not_elem_of_app in Hc as [Hcw Hcd].
  destruct Hea as (Ha1 & Ha2 & _ & Ha4 & Ha5). destruct (ar_maps _ _ _ _ R) as (Em1 & Em2 & Em3).
  constructor; simpl; try done; rewrite ?Em1, ?Em2, ?Em3, ?(ar_same_tx _ _ _ _ R); try done.
  - apply Forall_cons. split.
    + exists e. simpl. rewrite Ha4. split_and!; try done; [|lia|by left].
      exists None. by rewrite lookup_insert_eq.
    + pose proof (ar_slots _ _ _ _ R) as Hsl. rewrite Forall_forall in *. intros y Hy.
      destruct (Hsl y Hy) as (b & Hb & Hip & Hr). destruct (Hold _ _ Hb) as (b' & Hb' & E1 & E2 & E3 & E4 & E5).
      exists b'. rewrite E1, E2, E3, E4, E5. split; [done|]. split; [done|].
      destruct (sl_res y) eqn:Ey; [done|]. destruct Hr as (? & ? & Hch & ? & ?). split_and!; try done.
      apply chain_insert_fresh; [|done]. intros Hin. apply Hcw. apply (waiters_in y); [done|].
      unfold waiters. by rewrite Ey.
  - constructor; [by apply find_ip_None|apply R].
  - constructor; [done|apply R].
  - apply chain_insert_fresh; [done|apply R].
  - constructor; [|apply R]. by apply not_elem_of_app.
  - apply Forall_cons. split; [by rewrite lookup_insert_eq|].
    pose proof (ar_ptrs _ _ _ _ R) as Hpt. rewrite Em2 in Hpt. eapply Forall_impl; [exact Hpt|].
    intros w ?. apply lookup_insert_is_Some'. by right.
  - apply Forall_cons. split.
    + unfold timer_right. simpl. rewrite armed_arm. by left.
    + apply timer_right_arm; [apply R|done].
Qed.

(** The completions of a slot are told; the slot holds none any more. *)
Lemma once_notify A x x' B D : NoDup (all_waiting (A ++ x :: B) ++ D) -> waiters x' = [] ->
  NoDup (all_waiting (A ++ x' :: B) ++ rev (waiters x) ++ D) /\ NoDup (all_waiting (A ++ B) ++ rev (waiters x) ++ D).
Proof.
  intros Hn E. rewrite all_waiting_mid in Hn. rewrite all_waiting_mid, E. simpl.
  assert (all_waiting (A ++ B) ++ rev (waiters x) ++ D ≡ₚ (waiters x ++ all_waiting (A ++ B)) ++ D) as ->; [|done].
  rewrite <- Permutation_rev. rewrite !app_assoc. by rewrite (Permutation_app_comm (waiters x)).
Qed.

Lemma spec_reply_ok now s sp ip mac : arp_rep now None s sp ->
  exists s', arp_reply s ip mac = Ok s' /\ arp_rep now None s' (spec_reply sp ip mac).
Proof.
  intros R. unfold arp_reply, spec_reply. rewrite (ae_lookup_ok _ _ _ _ ip R).
  destruct (find_ip ip (sp_cache sp)) as [x|] eqn:Ef; cbn [fmap option_fmap option_map]; osimpl; [|by exists s].
  destruct (find_ip_split _ _ _ Ef (ar_ips _ _ _ _ R)) as (A & B & Ecache & Hip & Hset & _).
  pose proof (notify_fuel_ok _ _ _ _ R) as Hfuel.
  pose proof (ar_slots _ _ _ _ R) as Hs. pose proof (ar_once _ _ _ _ R) as Ho. pose proof (ar_ptrs _ _ _ _ R) as Hp.
  pose proof (ar_timed _ _ _ _ R) as Ht. pose proof (ar_addrs _ _ _ _ R) as Had.
  rewrite Ecache in Hs, Ho, Hp, Ht, Hfuel, Had. apply Forall_mid in Hs as [(a & Ha & Hia & Hx) _].
  apply Forall_mid in Ht as [Htx Ht]. rewrite (get_ae_Some _ _ _ Ha). osimpl.
  assert (exists m, (if ae_status a =? 1 then disarm_ae s (sl_addr x) else mret s) =
    Ok (mk_as (ar_heap s) (ar_table s) m (ar_q s) (ar_status s) (ar_ptr s) (ar_macs s) (ar_tx s)) /\
    rep now m (match sl_res x with Waiting _ _ => spec_disarm (sl_addr x) (sp_timers sp) | Resolved _ => sp_timers sp end) /\
    chain (next (ar_q s)) (ae_compl a) (waiters x)) as (m & -> & Hm & Hch).
  { unfold timer_right in Htx. unfold waiters. destruct (sl_res x).
    - destruct Hx as (-> & _ & ->). exists (ar_timers s). split; [by destruct s|]. split; [apply R|done].
    - destruct Hx as (-> & _ & Hch & _). rewrite decide_False in Htx by done. cbn [Z.eqb Pos.eqb]. unfold disarm_ae.
      destruct (disarm_ok now (ar_timers s) (sp_timers sp) _ (ar_tq _ _ _ _ R) Htx) as (m & -> & Hm).
      by exists m. }
  osimpl. set (a1 := (a <| ae_mac := mac |>) <| ae_status := 0 |>).
  match goal with |- context [notify_all _ ?s0 _ 0 (Some mac)] => set (s1 := s0) end.
  match goal with |- context [notify_all ?f s1 ?o] => change (notify_all f s1 o) with (notify_all (notify_fuel s) s1 (ae_compl a)) end.
  assert (NoDup (waiters x ++ sp_done sp) /\ Forall (fun w => is_Some (ar_ptr s !! w)) (waiters x) /\
    (length (waiters x) < notify_fuel s)%nat) as (Hn & Hpw & Hlw).
  { rewrite all_waiting_mid in Ho, Hp, Hfuel. rewrite length_app in Hfuel. apply Forall_app in Hp as [Hp _].
    split_and!; [|done|lia]. apply NoDup_app in Ho as (Ho1 & Ho2 & Ho3). apply NoDup_app in Ho1 as (Ho1 & _ & _).
    apply NoDup_app. split_and!; [done| |done]. intros w Hw. apply Ho2. set_solver. }
  destruct (notify_all_ok 0 (Some mac) (waiters x) (notify_fuel s) s1 (ae_compl a) (sp_done sp))
    as (q & -> & Hq & Hqx); [exact Hch|apply R|exact Hn|exact Hpw|exact Hlw|].
  osimpl. eexists. split; [reflexivity|].
  destruct (once_notify A x (mk_slot (sl_addr x) ip (Resolved mac)) B (sp_done sp) Ho eq_refl) as [Ho' _].
  destruct (ar_maps _ _ _ _ R) as (Em1 & Em2 & Em3).
  eapply (rep_replace now None None s _ sp _ A x (mk_slot (sl_addr x) ip (Resolved mac)) B a
    (a1 <| ae_compl := (None : option Z) |>)); simpl; try done.
  - by rewrite insert_insert_eq.
  - eexists. rewrite insert_insert_eq, lookup_insert_eq. split; [done|]. simpl. by rewrite Hia.
  - intros y w Hy Hw. rewrite Hqx; [done|].
    by destruct (other_slot A x B (sp_done sp) y Had Ho Hy) as [_ Hd]; apply Hd.
  - rewrite all_waiting_mid in *. by apply Forall_app in Hp as [_ Hp].
  - apply Forall_cons. unfold timer_right. split.
    + simpl. unfold timer_right in Htx. destruct (sl_res x); [done|]. rewrite armed_disarm. tauto.
    + destruct (sl_res x); [done|]. rewrite Forall_forall in *. intros y Hy. specialize (Ht y Hy).
      destruct (other_slot A x B (sp_done sp) y Had Ho Hy) as [Hne _].
      unfold timer_right in Ht. destruct (sl_res y); [|rewrite decide_False in * by done]; rewrite armed_disarm; tauto.
  - rewrite <- Em1, <- Em2, <- Em3. done.
  - apply R.
Qed.

(** The links of the entries, as those of a list of timers. *)
Definition lk (h : gmap Z arp_entry) : gmap Z timeout := (fun a => mk_timeout 0 (ae_next a) (ae_prev a)) <$> h.

Lemma ae_seg_lk h l : forall p, ae_seg h p l <-> seg (lk h) p l None.
Proof.
  induction l as [|x l IH]; intros p; simpl; [done|]. rewrite IH. unfold lk. rewrite lookup_fmap.
  split; intros [(a & Ha & Hp & Hn) Hs]; (split; [|done]).
  - exists (mk_timeout 0 (ae_next a) (ae_prev a)). by rewrite Ha.
  - destruct (h !! x) as [b|]; [|done]. injection Ha as <-. by exists b.
Qed.

(** Entries with the same contents, but for the links. *)
Definition same_entries (h h' : gmap Z arp_entry) : Prop :=
  forall x b, h !! x = Some b -> exists b', h' !! x = Some b' /\ ae_status b' = ae_status b /\
    ae_ip b' = ae_ip b /\ ae_mac b' = ae_mac b /\ ae_compl b' = ae_compl b /\ ae_timeout b' = ae_timeout b.

Lemma set_next_lk s q b v : ar_heap s !! q = Some b ->
  lk (ar_heap (put_ae s q (b <| ae_next := v |>))) = upd_next (lk (ar_heap s)) (Some q) v /\
  same_entries (ar_heap s) (ar_heap (put_ae s q (b <| ae_next := v |>))).
Proof.
  intros Hb. split.
  - apply map_eq. intros k. unfold upd_next, lk. simpl. rewrite lookup_fmap.
    destruct (decide (k = q)) as [->|].
    + by rewrite lookup_insert_eq, lookup_alter_eq, lookup_fmap, Hb.
    + by rewrite lookup_insert_ne, lookup_alter_ne, lookup_fmap.
  - intros x c Hx. simpl. destruct (decide (x = q)) as [->|].
    + rewrite Hb in Hx. injection Hx as <-. eexists. rewrite lookup_insert_eq. split; [done|]. by repeat split.
    + exists c. by rewrite lookup_insert_ne.
Qed.

Lemma set_prev_lk s q b v : ar_heap s !! q = Some b ->
  lk (ar_heap (put_ae s q (b <| ae_prev := v |>))) = upd_prev (lk (ar_heap s)) (Some q) v /\
  same_entries (ar_heap s) (ar_heap (put_ae s q (b <| ae_prev := v |>))).
Proof.
  intros Hb. split.
  - apply map_eq. intros k. unfold upd_prev, lk. simpl. rewrite lookup_fmap.
    destruct (decide (k = q)) as [->|].
    + by rewrite lookup_insert_eq, lookup_alter_eq, lookup_fmap, Hb.
    + by rewrite lookup_insert_ne, lookup_alter_ne, lookup_fmap.
  - intros x c Hx. simpl. destruct (decide (x = q)) as [->|].
    + rewrite Hb in Hx. injection Hx as <-. eexists. rewrite lookup_insert_eq. split; [done|]. by repeat split.
    + exists c. by rewrite lookup_insert_ne.
Qed.

Lemma same_entries_refl h : same_entries h h.
Proof. intros x b Hx. by exists b. Qed.
Lemma same_entries_trans h1 h2 h3 : same_entries h1 h2 -> same_entries h2 h3 -> same_entries h1 h3.
Proof.
  intros H1 H2 x b Hx. destruct (H1 x b Hx) as (b2 & Hx2 & ? & ? & ? & ? & ?).
  destruct (H2 x b2 Hx2) as (b3 & Hx3 & ? & ? & ? & ? & ?). exists b3. split_and!; [done|congruence..].
Qed.

Lemma ae_unlink_ok s x a A B : NoDup (A ++ x :: B) -> ae_seg (ar_heap s) None (A ++ x :: B) ->
  ar_table s = first_or (A ++ x :: B) None -> ar_heap s !! x = Some a ->
  exists h, (s ← unlink_prev s a; unlink_next s a) = Ok (mk_as h (first_or (A ++ B) None) (ar_timers s) (ar_q s) (ar_status s) (ar_ptr s)
      (ar_macs s) (ar_tx s)) /\ ae_seg (delete x h) None (A ++ B) /\ same_entries (ar_heap s) h.
Proof.
  intros Hn Hs Ht Ha. destruct (ae_seg_middle _ _ _ _ _ Hs) as (a' & Ha' & Hp & Hnx). rewrite Ha in Ha'. injection Ha' as <-.
  assert (ae_prev a = last A) as Hp' by (rewrite Hp; by destruct A).
  pose proof (seg_unlink _ A x B Hn (proj1 (ae_seg_lk _ _ _) Hs)) as Hseg.
  apply NoDup_app_remove in Hn as [Hn Hx].
  assert (forall h, lk h = upd_prev (upd_next (lk (ar_heap s)) (last A) (first_or B None)) (first_or B None) (last A) ->
    ae_seg (delete x h) None (A ++ B)) as Hfin.
  { intros h E. rewrite <- E in Hseg. apply ae_seg_lk in Hseg. eapply ae_seg_agree; [|exact Hseg].
    intros y Hy. unfold ae_links. rewrite lookup_delete_ne; [done|]. by intros ->. }
  assert (exists s1, unlink_prev s a = Ok s1 /\
    s1 = mk_as (ar_heap s1) (first_or (A ++ B) None) (ar_timers s) (ar_q s) (ar_status s) (ar_ptr s) (ar_macs s) (ar_tx s) /\
    lk (ar_heap s1) = upd_next (lk (ar_heap s)) (last A) (first_or B None) /\ same_entries (ar_heap s) (ar_heap s1))
    as (s1 & -> & E1 & L1 & S1).
  { unfold unlink_prev. rewrite Hp', Hnx. destruct (last A) as [q|] eqn:Eq.
    - assert (q ∈ A) as Hq by by apply last_in. destruct (ae_seg_in _ _ q _ Hs ltac:(set_solver)) as [b Hb].
      rewrite (get_ae_Some _ _ _ Hb). osimpl. eexists. split; [reflexivity|].
      destruct (set_next_lk s q b (first_or B None) Hb) as [? ?]. split; [|done].
      replace (first_or (A ++ B) None) with (ar_table s) by (rewrite Ht; by destruct A). done.
    - destruct A; [|by apply last_None in Eq]. eexists. split; [reflexivity|]. split; [done|].
      split; [done|apply same_entries_refl]. }
  osimpl. unfold unlink_next. rewrite Hp', Hnx, E1. clear E1. set (h1 := ar_heap s1) in *. clearbody h1. clear s1.
  destruct (first_or B None) as [q|] eqn:Eq.
  - assert (q ∈ B) as Hq by by apply first_in. destruct (ae_seg_in _ _ q _ Hs ltac:(set_solver)) as [b Hb].
    destruct (S1 q b Hb) as (b' & Hb' & _).
    match goal with |- context [get_ae ?s2 q] => rewrite (get_ae_Some s2 q b' Hb');
      destruct (set_prev_lk s2 q b' (last A) Hb') as [L2 S2] end.
    osimpl. eexists. split; [reflexivity|]. split; [|by eapply same_entries_trans].
    apply Hfin. by rewrite <- L1.
  - eexists. split; [reflexivity|]. split; [by apply Hfin|done].
Qed.

Lemma timer_right_other tq f c ad : Forall (timer_right tq f) c -> f = Some ad -> ad ∉ sl_addr <$> c ->
  Forall (timer_right tq None) c.
Proof.
  rewrite !Forall_forall. intros Ht -> Had x Hx. specialize (Ht x Hx). unfold timer_right in *.
  assert (sl_addr x <> ad) by (intros <-; apply Had; by apply list_elem_of_fmap_2).
  destruct (sl_res x); [done|]. rewrite decide_False in Ht by congruence. by rewrite decide_False.
Qed.

Lemma addr_not_other A x B : NoDup (sl_addr <$> A ++ x :: B) -> sl_addr x ∉ sl_addr <$> A ++ B.
Proof. rewrite !fmap_app, fmap_cons. by intros [_ ?]%NoDup_app_remove. Qed.

(** The last timeout: who waits is told that there is no answer, the entry goes. *)
Lemma arp_timeout_last now s sp x ws us : arp_cfg_ok ->
  arp_rep now (Some (sl_addr x)) s sp -> x ∈ sp_cache sp -> sl_res x = Waiting ws us -> arp_to_max cfg <= 2 * us ->
  exists s', arp_timeout eth_addr cfg s (sl_addr x) (now mod PERIOD) = Ok s' /\
    arp_rep now None s' (spec_timeout sp x now).
Proof.
  intros [Hto Hmax] R Hx Er Hus. unfold arp_timeout, spec_timeout. rewrite Er, Z.geb_leb.
  rewrite (proj2 (Z.leb_le _ _)) by done.
  apply list_elem_of_split in Hx as (A & B & Ecache).
  pose proof (notify_fuel_ok _ _ _ _ R) as Hfuel.
  pose proof (ar_slots _ _ _ _ R) as Hs. pose proof (ar_once _ _ _ _ R) as Ho. pose proof (ar_ptrs _ _ _ _ R) as Hp.
  pose proof (ar_timed _ _ _ _ R) as Ht. pose proof (ar_addrs _ _ _ _ R) as Had. pose proof (ar_ips _ _ _ _ R) as Hips.
  pose proof (ar_seg _ _ _ _ R) as Hseg. pose proof (ar_first _ _ _ _ R) as Hfirst.
  rewrite Ecache in *. apply Forall_mid in Hs as [(a & Ha & Hia & Hxx) Hs]. rewrite Er in Hxx.
  destruct Hxx as (Hst & Hta & Hch & Hu0 & Hu).
  rewrite (get_ae_Some _ _ _ Ha). osimpl. rewrite Hst, Hta. cbn [Z.eqb]. cbv iota.
  rewrite u32_small, Z.geb_leb, (proj2 (Z.leb_le _ _)) by lia.
  assert (waiters x = ws) as Ew by (unfold waiters; by rewrite Er).
  assert (NoDup (ws ++ sp_done sp) /\ Forall (fun w => is_Some (ar_ptr s !! w)) ws /\
    (length ws < notify_fuel s)%nat) as (Hn & Hpw & Hlw).
  { rewrite all_waiting_mid, Ew in Ho, Hp, Hfuel. rewrite length_app in Hfuel. apply Forall_app in Hp as [Hp _].
    split_and!; [|done|lia]. apply NoDup_app in Ho as (Ho1 & Ho2 & Ho3). apply NoDup_app in Ho1 as (Ho1 & _ & _).
    apply NoDup_app. split_and!; [done| |done]. intros w Hw. apply Ho2. set_solver. }
  destruct (notify_all_ok (-1) None ws (notify_fuel s) s (ae_compl a) (sp_done sp))
    as (q & -> & Hq & Hqx); [exact Hch|apply R|exact Hn|exact Hpw|exact Hlw|]. osimpl.
  rewrite fmap_app, fmap_cons in Hseg, Hfirst.
  match goal with |- context [unlink_prev ?s0 a] =>
    destruct (ae_unlink_ok s0 (sl_addr x) a (sl_addr <$> A) (sl_addr <$> B)) as (h & E & Hseg' & Hsame) end;
    [by rewrite <- fmap_cons, <- fmap_app|done|done|done|].
  apply bind_Ok_inv in E as (s1 & -> & E). osimpl. rewrite E. osimpl. eexists. split; [reflexivity|].
  assert (filter (fun y => sl_ip y <> sl_ip x) (A ++ x :: B) = A ++ B) as ->.
  { rewrite fmap_app, fmap_cons in Hips. apply NoDup_app_remove in Hips as [_ Hnot].
    rewrite filter_app, filter_cons_False, <- filter_app by (intros []; done). apply filter_all, Forall_forall.
    intros y Hy Eq. apply Hnot. rewrite <- fmap_app, <- Eq. by apply list_elem_of_fmap_2. }
  destruct (once_notify A x (mk_slot (sl_addr x) (sl_ip x) (Resolved 0)) B (sp_done sp) Ho eq_refl) as [_ Ho'].
  rewrite Ew in Ho'. destruct (ar_maps _ _ _ _ R) as (Em1 & Em2 & Em3). apply Forall_mid in Ht as [_ Ht].
  constructor; simpl; try done; rewrite ?fmap_app; try done.
  - rewrite Forall_forall in *. intros y Hy. destruct (Hs y Hy) as (b & Hb & Hip & Hr).
    destruct (Hsame _ _ Hb) as (b' & Hb' & E1 & E2 & E3 & E4 & E5).
    destruct (other_slot A x B (sp_done sp) y Had Ho Hy) as [Hne Hd].
    exists b'. rewrite lookup_delete_ne, E1, E2, E3, E4, E5 by congruence. split; [done|]. split; [done|].
    destruct (sl_res y) eqn:Ey; [done|]. destruct Hr as (? & ? & Hcy & ? & ?). split_and!; try done.
    apply chain_frame with (next (ar_q s)); [|done]. intros w Hw. apply Hqx. rewrite <- Ew. apply Hd.
    unfold waiters. by rewrite Ey.
  - rewrite fmap_app, fmap_cons in Hips. rewrite <- fmap_app. apply NoDup_app_remove in Hips as [Hips _]. by rewrite fmap_app.
  - rewrite fmap_app, fmap_cons in Had. apply NoDup_app_remove in Had as [Had _]. done.
  - rewrite all_waiting_mid in Hp. by apply Forall_app in Hp as [_ Hp].
  - apply R.
  - eapply timer_right_other; [exact Ht|reflexivity|]. by apply addr_not_other.
  - by rewrite Em1, Em2, Em3.
  - apply R.
Qed.

(** Another request, and twice the time for the answer. *)
Lemma arp_timeout_again now s sp x ws us : arp_cfg_ok ->
  arp_rep now (Some (sl_addr x)) s sp -> x ∈ sp_cache sp -> sl_res x = Waiting ws us -> 2 * us < arp_to_max cfg ->
  takes (ar_tx s) (arp_req_to (sl_ip x)) ->
  exists s', arp_timeout eth_addr cfg s (sl_addr x) (now mod PERIOD) = Ok s' /\
    arp_rep now None s' (spec_timeout sp x now).
Proof.
  intros [Hto Hmax] R Hx Er Hus Htk. unfold arp_timeout, spec_timeout. rewrite Er, Z.geb_leb.
  rewrite (proj2 (Z.leb_gt _ _)) by done.
  assert (find_ip (sl_ip x) (sp_cache sp) = Some x) as Ef.
  { pose proof (ar_ips _ _ _ _ R) as Hips. clear -Hx Hips. induction (sp_cache sp) as [|y c IH]; [by apply elem_of_nil in Hx|].
    apply NoDup_cons in Hips as [Hy Hc]. simpl. apply elem_of_cons in Hx as [->|Hx]; [by rewrite Z.eqb_refl|].
    rewrite (proj2 (Z.eqb_neq _ _)); [by apply IH|]. intros E. apply Hy. rewrite E. by apply list_elem_of_fmap_2. }
  destruct (find_ip_split _ _ _ Ef (ar_ips _ _ _ _ R)) as (A & B & Ecache & _ & Hset & _).
  pose proof (ar_slots _ _ _ _ R) as Hs. pose proof (ar_once _ _ _ _ R) as Ho. pose proof (ar_ptrs _ _ _ _ R) as Hp.
  pose proof (ar_timed _ _ _ _ R) as Ht. pose proof (ar_addrs _ _ _ _ R) as Had.
  rewrite Ecache in Hs, Ho, Hp, Ht, Had. apply Forall_mid in Hs as [(a & Ha & Hia & Hxx) Hs]. rewrite Er in Hxx.
  destruct Hxx as (Hst & Hta & Hch & Hu0 & Hu). apply Forall_mid in Ht as [Htx Ht].
  unfold timer_right in Htx. rewrite Er, decide_True in Htx by done.
  rewrite (get_ae_Some _ _ _ Ha). osimpl. rewrite Hst, Hta. cbn [Z.eqb]. cbv iota.
  rewrite u32_small, Z.geb_leb, (proj2 (Z.leb_gt _ _)) by lia. rewrite Hia.
  destruct (request_tx_ok s (sl_ip x) Htk) as [rv ->]. osimpl. unfold arm_ae. simpl ar_timers.
  destruct (arm_ok now (ar_timers s) (sp_timers sp) (sl_addr x) (2 * us) TO_ARP_REQ (ar_tq _ _ _ _ R) Htx)
    as (tm & Etm & Rtm); [lia|by split|]. replace (us * 2) with (2 * us) by lia. rewrite Etm. osimpl.
  eexists. split; [reflexivity|]. destruct (ar_maps _ _ _ _ R) as (Em1 & Em2 & Em3).
  assert (waiters x = ws) as Ew by (unfold waiters; by rewrite Er).
  set (x' := mk_slot (sl_addr x) (sl_ip x) (Waiting ws (2 * us))).
  assert (all_waiting (A ++ x' :: B) = all_waiting (A ++ x :: B)) as Eaw.
  { rewrite !all_waiting_app, !all_waiting_cons, Ew. done. }
  eapply (rep_replace now _ None s _ sp _ A x x' B a (a <| ae_timeout := 2 * us |>)); [exact R|exact Ecache|..];
    try done; simpl.
  - exact (Hset _).
  - eexists. rewrite lookup_insert_eq. split; [done|]. simpl. split_and!; try done; [lia|by right].
  - apply R.
  - by rewrite Eaw.
  - by rewrite Eaw.
  - apply Forall_cons. split.
    + unfold timer_right. simpl. rewrite armed_arm. by left.
    + apply timer_right_arm; [|by apply addr_not_other].
      eapply timer_right_other; [exact Ht|reflexivity|]. by apply addr_not_other.
  - by rewrite (ar_same_tx _ _ _ _ R).
Qed.

(** ** Results *)

Definition spec_tx (sp : arp_spec) (p : pkt_arp) : arp_spec :=
  mk_spec (sp_cache sp) (sp_done sp) (sp_timers sp) (sp_status sp) (sp_ptr sp) (sp_macs sp) (tx_step (sp_tx sp) p).

(** A request for an address of this host is answered, an answer is taken, and
    everything else is ignored. *)
Definition spec_packet (sp : arp_spec) (h : arp_hdr) : arp_spec :=
  if negb (arp_valid h) then sp
  else if arp_oper h =? ARP_OPER_REQUEST then
    if (arp_tpa h =? cf_ip cfg) || (arp_tpa h =? cf_nic_ip cfg) then
      spec_tx sp (arp_packet_to eth_addr (cf_ip cfg) (arp_sha h) (arp_spa h) ARP_OPER_REPLY)
    else sp
  else if arp_oper h =? ARP_OPER_REPLY then spec_reply sp (arp_spa h) (arp_sha h)
  else sp.

(** The packet that is sent in answer to one, if any. *)
Definition answer_to (h : arp_hdr) : option pkt_arp :=
  if arp_valid h && (arp_oper h =? ARP_OPER_REQUEST) && ((arp_tpa h =? cf_ip cfg) || (arp_tpa h =? cf_nic_ip cfg))
  then Some (arp_packet_to eth_addr (cf_ip cfg) (arp_sha h) (arp_spa h) ARP_OPER_REPLY) else None.

Lemma arp_packet_ok now s sp pkt : arp_rep now None s sp ->
  (forall p, answer_to (pa_arp (arp_of_bytes pkt)) = Some p -> takes (ar_tx s) p) ->
  exists s', arp_packet eth_addr cfg s pkt = Ok s' /\
    arp_rep now None s' (spec_packet sp (pa_arp (arp_of_bytes pkt))).
Proof.
  intros R Htk. unfold arp_packet, spec_packet. cbv zeta. unfold answer_to in Htk. set (h := pa_arp (arp_of_bytes pkt)) in *.
  destruct (arp_valid h); cbn [negb]; [|exists s; split; [reflexivity|exact R]].
  destruct (arp_oper h =? ARP_OPER_REQUEST).
  - rewrite <- negb_orb. destruct ((arp_tpa h =? cf_ip cfg) || (arp_tpa h =? cf_nic_ip cfg)); cbn [negb]; [|exists s; split; [reflexivity|exact R]].
    unfold response_tx, arp_tx.
    destruct (tx_step_ok _ _ (Htk _ eq_refl)) as [rv ->].
    osimpl. eexists. split; [reflexivity|]. destruct R. constructor; simpl; try done. congruence.
  - destruct (arp_oper h =? ARP_OPER_REPLY); [|exists s; split; [reflexivity|exact R]]. by apply spec_reply_ok.
Qed.

(** A due timer that is taken from the timer lists fires. *)
Lemma arp_pop now s sp P e D : arp_rep now None s sp -> sp_timers sp = mk_tq P (e :: D) ->
  exists t m, pop_due (ar_timers s) = Ok (Some (e_to e, t), m) /\
    forall x ws us, x ∈ sp_cache sp -> sl_addr x = e_to e -> sl_res x = Waiting ws us ->
      arp_rep now (Some (sl_addr x))
        (mk_as (ar_heap s) (ar_table s) m (ar_q s) (ar_status s) (ar_ptr s) (ar_macs s) (ar_tx s))
        (mk_spec (sp_cache sp) (sp_done sp) (mk_tq P D) (sp_status sp) (sp_ptr sp) (sp_macs sp) (sp_tx sp)).
Proof.
  intros R E. pose proof (ar_tq _ _ _ _ R) as Rt. rewrite E in Rt.
  destruct (pop_due_ok _ _ _ _ _ Rt) as (t & m & Epop & _ & Rm). exists t, m. split; [done|].
  intros x ws us Hx Hxe Ex. pose proof (rep_nodup _ _ _ Rt) as Hn.
  assert (armed (mk_tq P (e :: D)) ≡ₚ e_to e :: armed (mk_tq P D)) as Hp.
  { unfold armed. simpl. rewrite <- Permutation_middle. done. }
  assert (e_to e ∉ armed (mk_tq P D)) as Hnot.
  { rewrite Hp in Hn. by apply NoDup_cons in Hn as [? _]. }
  destruct R. constructor; simpl; try done.
  rewrite Forall_forall in ar_timed0 |- *. intros y Hy. specialize (ar_timed0 y Hy).
  unfold timer_right in *. rewrite E in ar_timed0.
  destruct (sl_res y) eqn:Ey.
  - intros Hin. apply ar_timed0. rewrite Hp. by right.
  - rewrite decide_False in ar_timed0 by done. rewrite Hp in ar_timed0. apply elem_of_cons in ar_timed0.
    case_decide as Hd; [injection Hd as Hd; by rewrite <- Hd, Hxe|].
    destruct ar_timed0 as [Hy'|]; [|done]. congruence.
Qed.

(** The packet that a request for an address sends, if any, and a timer that fires. *)
Definition request_sent (sp : arp_spec) (ip : Z) (fresh : option Z) : option pkt_arp :=
  match find_ip ip (sp_cache sp), fresh with None, Some _ => Some (arp_req_to ip) | _, _ => None end.
Definition timeout_sent (x : slot) (us : Z) : option pkt_arp :=
  if arp_to_max cfg <=? 2 * us then None else Some (arp_req_to (sl_ip x)).

(** The operation [run] stops where the transmitter stops on the packet it sends;
    otherwise it returns [rv] and a state that represents [sp]. *)
Definition simulated (now : Z) (n : N) (p : option pkt_arp) {A} (run : outcome A) (res : arp_state N -> A) (sp : arp_spec) : Prop :=
  match p with
  | Some p =>
      match tx_send n (bytes_of_arp p) false with
      | Stop e => run = Stop e
      | Ok _ => exists s', run = Ok (res s') /\ arp_rep now None s' sp
      end
  | None => exists s', run = Ok (res s') /\ arp_rep now None s' sp
  end.

Lemma simulated_intro now n p {A} (run : outcome A) res sp :
  ((forall q, p = Some q -> takes n q) -> exists s', run = Ok (res s') /\ arp_rep now None s' sp) ->
  (forall q e, p = Some q -> tx_send n (bytes_of_arp q) false = Stop e -> run = Stop e) ->
  simulated now n p run res sp.
Proof.
  intros H1 H2. unfold simulated. destruct p as [p|]; [|by apply H1].
  destruct (tx_send n (bytes_of_arp p) false) as [r|e] eqn:E; [|by apply (H2 p)].
  apply H1. intros q [= <-]. by exists r.
Qed.

(** C27. Refinement: the cache on linked entries behaves as the specification.
    Asking for an address gives it when it is known, waits when a request is under
    way, and else sends one request and arms a timer; a packet is answered,
    completes an entry or is ignored; a timer that fires asks again, or gives up
    and takes the entry out; an entry has its timer armed as long as somebody waits
    for it. Whatever transmitter there is, an operation fails only where the
    transmitter fails on the packet that the specification sends (that of the NIC
    does at the end of its ring, [nicif_tx_send_ring_end]). *)
Theorem arp_refines now s sp : arp_cfg_ok ->
  (forall comp ip mac fresh, arp_rep now None s sp -> comp ∉ all_waiting (sp_cache sp) ++ sp_done sp ->
    (forall p, fresh = Some p -> ar_heap s !! p = None /\ p ∉ armed (sp_timers sp)) ->
    simulated now (ar_tx s) (request_sent sp ip fresh) (arp_request eth_addr cfg s comp ip mac (now mod PERIOD) fresh)
      (fun s' => ((spec_request sp comp ip mac now fresh).1, s')) (spec_request sp comp ip mac now fresh).2) /\
  (forall pkt, arp_rep now None s sp ->
    simulated now (ar_tx s) (answer_to (pa_arp (arp_of_bytes pkt))) (arp_packet eth_addr cfg s pkt)
      id (spec_packet sp (pa_arp (arp_of_bytes pkt)))) /\
  (forall x ws us, arp_rep now (Some (sl_addr x)) s sp -> x ∈ sp_cache sp -> sl_res x = Waiting ws us ->
    simulated now (ar_tx s) (timeout_sent x us) (arp_timeout eth_addr cfg s (sl_addr x) (now mod PERIOD))
      id (spec_timeout sp x now)).
Proof.
  intros Hc. split_and!.
  - intros comp ip mac fresh R Hcomp Hf. apply simulated_intro; unfold request_sent.
    + intros Htk. destruct (find_ip ip (sp_cache sp)) as [[ad ip' [m|ws us]]|] eqn:Ef.
      * by eapply arp_request_resolved.
      * by eapply arp_request_waiting.
      * destruct fresh as [p|]; [destruct (Hf p eq_refl); by apply arp_request_new; auto|].
        unfold arp_request, spec_request. rewrite Ef.
        assert (ae_lookup (set_mac s mac 0) ip = ae_lookup s ip) as -> by done.
        rewrite (ae_lookup_ok _ _ _ _ ip R), Ef. cbn [fmap option_fmap option_map]. osimpl.
        eexists. split; [reflexivity|]. destruct R, ar_maps0 as (E1 & E2 & E3). constructor; simpl; try done.
        by rewrite E3.
    + intros q e Hq E. destruct (find_ip ip (sp_cache sp)) as [y|] eqn:Ef; [done|]. destruct fresh as [p|]; [|done].
      injection Hq as <-. unfold arp_request.
      assert (ae_lookup (set_mac s mac 0) ip = ae_lookup s ip) as -> by done.
      rewrite (ae_lookup_ok _ _ _ _ ip R), Ef. cbn [fmap option_fmap option_map]. osimpl.
      unfold request_tx, arp_tx. simpl ar_tx. unfold arp_req_to in E. by rewrite E.
  - intros pkt R. apply simulated_intro; [by apply arp_packet_ok|].
    intros q e Hq E. unfold arp_packet. cbv zeta. unfold answer_to in Hq. set (h := pa_arp (arp_of_bytes pkt)) in *.
    destruct (arp_valid h); [|done]. destruct (arp_oper h =? ARP_OPER_REQUEST); [|done]. simpl in Hq |- *. rewrite <- negb_orb.
    destruct (_ || _); [|done]. injection Hq as <-. simpl. unfold response_tx, arp_tx. by rewrite E.
  - intros x ws us R Hx Er. apply simulated_intro; unfold timeout_sent.
    + intros Htk. destruct (Z.leb_spec (arp_to_max cfg) (2 * us)).
      * by eapply arp_timeout_last.
      * eapply arp_timeout_again; try done. by apply Htk.
    + intros q e Hq E. destruct (Z.leb_spec (arp_to_max cfg) (2 * us)) as [|Hus]; [done|]. injection Hq as <-.
      unfold arp_timeout. pose proof (ar_slots _ _ _ _ R) as Hs. rewrite Forall_forall in Hs.
      destruct (Hs x Hx) as (a & Ha & Hia & Hxx). rewrite Er in Hxx. destruct Hxx as (Hst & Hta & _ & Hu0 & Hu).
      rewrite (get_ae_Some _ _ _ Ha). osimpl. rewrite Hst, Hta. cbn [Z.eqb]. cbv iota. destruct Hc as [Hto Hmax].
      rewrite u32_small, Z.geb_leb, (proj2 (Z.leb_gt _ _)) by lia. rewrite Hia.
      unfold request_tx, arp_tx. unfold arp_req_to in E. by rewrite E.
Qed.

Lemma mark_all_in st ws w : forall m, w ∈ ws -> mark_all st ws m !! w = Some st.
Proof.
  assert (forall l (m : gmap Z Z), w ∉ l -> foldl (fun m w => <[w := st]> m) m l !! w = m !! w) as Hout.
  { induction l as [|y l IH]; intros m Hw; simpl; [done|].
    rewrite IH, lookup_insert_ne by set_solver. done. }
  unfold mark_all. induction ws as [|y ws IH]; intros m Hw; simpl; [by apply elem_of_nil in Hw|].
  destruct (decide (w ∈ ws)) as [Hin|Hnot]; [by apply IH|].
  assert (w = y) as -> by set_solver. by rewrite Hout, lookup_insert_eq.
Qed.

Lemma give_all_in mac ptr ws w : forall m, w ∈ ws -> give_all (Some mac) ptr ws m !! (ptr !!! w) = Some mac.
Proof.
  assert (forall l (m : gmap Z Z) k, m !! k = Some mac ->
    foldl (fun m w => <[ptr !!! w := mac]> m) m l !! k = Some mac) as Hkeep.
  { induction l as [|y l IH]; intros m k Hk; simpl; [done|]. apply IH.
    destruct (decide (k = ptr !!! y)) as [->|]; [by rewrite lookup_insert_eq|by rewrite lookup_insert_ne]. }
  unfold give_all. induction ws as [|y ws IH]; intros m Hw; simpl; [by apply elem_of_nil in Hw|].
  apply elem_of_cons in Hw as [->|Hw]; [|by apply IH]. apply Hkeep. by rewrite lookup_insert_eq.
Qed.


End Spec.

(** ** Two hosts *)

Definition arp_fits (p : pkt_arp) : Prop :=
  (word_ok 6 (eth_dest (pa_eth p)) /\ word_ok 6 (eth_src (pa_eth p)) /\ word_ok 2 (eth_type (pa_eth p))) /\
  (word_ok 2 (arp_htype (pa_arp p)) /\ word_ok 2 (arp_ptype (pa_arp p)) /\ word_ok 1 (arp_hlen (pa_arp p)) /\
   word_ok 1 (arp_plen (pa_arp p)) /\ word_ok 2 (arp_oper (pa_arp p)) /\ word_ok 6 (arp_sha (pa_arp p)) /\
   word_ok 4 (arp_spa (pa_arp p)) /\ word_ok 6 (arp_tha (pa_arp p)) /\ word_ok 4 (arp_tpa (pa_arp p))).

Lemma arp_roundtrip p : arp_fits p -> arp_of_bytes (bytes_of_arp p) = p.
Proof.
  destruct p as [[d s t] [h1 h2 h3 h4 h5 h6 h7 h8 h9]].
  intros [(? & ? & ?) (? & ? & ? & ? & ? & ? & ? & ? & ?)]. simpl in *.
  unfold arp_of_bytes, bytes_of_arp, eth_bytes, arp_bytes. simpl pa_eth. simpl pa_arp.
  simpl eth_dest. simpl eth_src. simpl eth_type. simpl arp_htype. simpl arp_ptype. simpl arp_hlen. simpl arp_plen.
  simpl arp_oper. simpl arp_sha. simpl arp_spa. simpl arp_tha. simpl arp_tpa.
  f_equal; f_equal; layout_lookup; field_values; reflexivity.
Qed.

Lemma arp_packet_fits eth_addr my_ip dst_mac dst_ip oper :
  word_ok 6 eth_addr -> word_ok 4 my_ip -> word_ok 6 dst_mac -> word_ok 4 dst_ip -> word_ok 2 oper ->
  arp_fits (arp_packet_to eth_addr my_ip dst_mac dst_ip oper).
Proof. intros. unfold arp_fits. simpl. split_and!; try done; by vm_compute. Qed.

Lemma log_takes (l : list (list Z)) p : takes l p.
Proof. by eexists. Qed.
Lemma log_step (l : list (list Z)) p : tx_step l p = l ++ [bytes_of_arp p].
Proof. done. Qed.

(** C29. Resolution works end to end: host A asks for the address of host B, B is
    given the bytes A sends, A is given the bytes B sends back. Then the client of
    A has B's hardware address, its completion is in the queue with status 0, and
    no request is left waiting or timer armed for it. *)
Theorem arp_exchange now ea eb ca cb (sa sb : arp_state (list (list Z))) spa spb comp mac p :
  arp_cfg_ok ca -> arp_cfg_ok cb ->
  word_ok 6 ea -> word_ok 6 eb -> word_ok 4 (cf_ip ca) -> word_ok 4 (cf_ip cb) ->
  arp_rep ca now None sa spa -> arp_rep cb now None sb spb ->
  find_ip (cf_ip cb) (sp_cache spa) = None -> comp ∉ all_waiting (sp_cache spa) ++ sp_done spa ->
  ar_heap sa !! p = None -> p ∉ armed (sp_timers spa) ->
  exists sa1 req sb1 rep sa2,
    arp_request ea ca sa comp (cf_ip cb) mac (now mod PERIOD) (Some p) = Ok (1, sa1) /\
    ar_tx sa1 = ar_tx sa ++ [req] /\
    arp_packet eb cb sb req = Ok sb1 /\ ar_tx sb1 = ar_tx sb ++ [rep] /\
    arp_packet ea ca sa1 rep = Ok sa2 /\ ar_macs sa2 !! mac = Some eb /\ ar_status sa2 !! comp = Some 0 /\
    chain (next (ar_q sa2)) (head (ar_q sa2)) (comp :: sp_done spa) /\
    (exists sp2, arp_rep ca now None sa2 sp2 /\ p ∉ armed (sp_timers sp2) /\
       sp_cache sp2 = mk_slot p (cf_ip cb) (Resolved eb) :: sp_cache spa).
Proof.
  intros Hca Hcb Hea Heb Hia Hib Ra Rb Ef Hc Hp Hpa.
  destruct (arp_request_new ea ca now sa spa comp (cf_ip cb) mac p Hca Ra Hc Ef Hp Hpa (log_takes _ _)) as (sa1 & E1 & R1).
  unfold spec_request in E1, R1. rewrite Ef in E1, R1. cbn [fst snd] in E1, R1.
  set (rq := arp_req_to ea ca (cf_ip cb)) in *.
  assert (arp_fits rq) as Hrq by (apply arp_packet_fits; (done || by vm_compute)).
  destruct (arp_packet_ok eb cb now sb spb (bytes_of_arp rq) Rb ltac:(intros; apply log_takes)) as (sb1 & E2 & R2).
  rewrite (arp_roundtrip rq Hrq) in R2. unfold spec_packet, rq, arp_req_to in R2. simpl in R2.
  rewrite Z.eqb_refl in R2. simpl in R2.
  set (rp := arp_packet_to eb (cf_ip cb) ea (cf_ip ca) ARP_OPER_REPLY) in *.
  assert (arp_fits rp) as Hrp by (apply arp_packet_fits; (done || by vm_compute)).
  destruct (arp_packet_ok ea ca now sa1 _ (bytes_of_arp rp) R1 ltac:(intros; apply log_takes)) as (sa2 & E3 & R3).
  rewrite (arp_roundtrip rp Hrp) in R3. unfold spec_packet, rp in R3. simpl in R3.
  unfold spec_reply in R3. simpl in R3. rewrite Z.eqb_refl in R3. cbn [waiters sl_res rev app] in R3.
  exists sa1, (bytes_of_arp rq), sb1, (bytes_of_arp rp), sa2. split; [done|].
  destruct (ar_maps _ _ _ _ _ R3) as (Em1 & _ & Em3).
  split; [rewrite (ar_same_tx _ _ _ _ _ R1), (ar_same_tx _ _ _ _ _ Ra); apply log_step|].
  split; [done|]. split; [rewrite (ar_same_tx _ _ _ _ _ R2), (ar_same_tx _ _ _ _ _ Rb); apply log_step|].
  split; [done|]. rewrite Em1, Em3. simpl.
  split; [by rewrite lookup_total_insert_eq, lookup_insert_eq|]. split; [by rewrite lookup_insert_eq|].
  split; [apply (ar_done _ _ _ _ _ R3)|]. eexists. split; [exact R3|]. simpl. split.
  - rewrite armed_disarm. by intros [? _].
  - f_equal. pose proof (find_ip_None _ _ Ef) as Hno. transitivity (id <$> sp_cache spa); [|by rewrite list_fmap_id].
    apply list_fmap_ext. intros i y Hy%list_elem_of_lookup_2.
    rewrite (proj2 (Z.eqb_neq _ _)); [done|]. intros E. apply Hno. rewrite <- E. by apply list_elem_of_fmap_2.
Qed.

(** ** Concrete hosts *)
Module Demo.
Definition cfg (my_ip : Z) : configuration :=
  mk_config 8192 8192 50 10 1000000 10 my_ip 24 my_ip [] 500000 10000000 CONFIG_CC_CONST_RATE 50 2 4
    0 0 0 0 0 0 5000 0 0 0 0 0 0 0 0 false.
Definition empty : arp_state (list (list Z)) :=
  mk_as ∅ None (util_timeout_init (mk_tmgr ∅ None None None None)) (mk_nbqueue None ∅) ∅ ∅ ∅ [].
(** The state after [arp_init]: the host itself. *)
Definition host (mac my_ip : Z) : arp_state (list (list Z)) :=
  mk_as {[ 64 := mk_ae 0 my_ip mac None 0 None None ]} (Some 64) (ar_timers empty) (ar_q empty) ∅ ∅ ∅ [].
Definition spec (mac my_ip : Z) : arp_spec (N := list (list Z)) :=
  mk_spec [mk_slot 64 my_ip (Resolved mac)] [] (mk_tq [] []) ∅ ∅ ∅ [].

Lemma host_init mac my_ip : arp_init mac (cfg my_ip) empty (Some 64) = Ok (host mac my_ip).
Proof. reflexivity. Qed.

Lemma cfg_ok my_ip : arp_cfg_ok (cfg my_ip).
Proof. split; simpl; lia. Qed.

Lemma host_rep now mac my_ip : arp_rep (cfg my_ip) now None (host mac my_ip) (spec mac my_ip).
Proof.
  constructor; simpl; try done.
  - split; [|done]. eexists. by rewrite lookup_singleton_eq.
  - apply Forall_singleton. eexists. simpl. by rewrite lookup_singleton_eq.
  - apply NoDup_singleton.
  - apply NoDup_singleton.
  - constructor.
  - apply init_rep.
  - apply Forall_singleton. apply not_elem_of_nil.
Qed.
End Demo.

Lemma arp_refines_witness :
  exists s' sp', arp_request 5 (Demo.cfg 10) (Demo.host 5 10) 300 20 301 (777 mod PERIOD) (Some 128) = Ok (1, s') /\
    arp_rep (Demo.cfg 10) 777 None s' sp' /\ waiters (hd (mk_slot 0 0 (Resolved 0)) (sp_cache sp')) = [300].
Proof.
  destruct (arp_refines 5 (Demo.cfg 10) 777 (Demo.host 5 10) (Demo.spec 5 10) (Demo.cfg_ok 10)) as [H _].
  destruct (H 300 20 301 (Some 128) (Demo.host_rep 777 5 10)) as (s' & E & R).
  - simpl. apply not_elem_of_nil.
  - intros p [= <-]. split; [reflexivity|apply not_elem_of_nil].
  - exists s'. eexists. split; [exact E|]. split; [exact R|reflexivity].
Defined.

Lemma arp_exchange_witness :
  exists sa1 req sb1 rep sa2,
    arp_request 5 (Demo.cfg 10) (Demo.host 5 10) 300 20 301 (777 mod PERIOD) (Some 128) = Ok (1, sa1) /\
    arp_packet 7 (Demo.cfg 20) (Demo.host 7 20) req = Ok sb1 /\ ar_tx sb1 = [rep] /\
    arp_packet 5 (Demo.cfg 10) sa1 rep = Ok sa2 /\ ar_macs sa2 !! 301 = Some 7.
Proof.
  destruct (arp_exchange 777 5 7 (Demo.cfg 10) (Demo.cfg 20) (Demo.host 5 10) (Demo.host 7 20)
    (Demo.spec 5 10) (Demo.spec 7 20) 300 301 128) as (sa1 & rq & sb1 & rp & sa2 & E1 & _ & E2 & Et & E3 & Em & _).
  - apply Demo.cfg_ok.
  - apply Demo.cfg_ok.
  - by vm_compute.
  - by vm_compute.
  - by vm_compute.
  - by vm_compute.
  - apply Demo.host_rep.
  - apply Demo.host_rep.
  - reflexivity.
  - apply not_elem_of_nil.
  - reflexivity.
  - apply not_elem_of_nil.
  - exists sa1, rq, sb1, rp, sa2. split; [exact E1|]. split; [exact E2|]. split; [exact Et|]. split; [exact E3|exact Em].
Defined.
