(* ===== verification/Routing.v ===== *)
(** * Routing (tas_nic/slow/routing.c)

    The table of routes, in the order of the configuration, and the resolution of
    an address: the first route that matches gives the next hop, which is looked up
    again until a route is direct; its address goes to ARP. *)
From S2P Require Import Prelude FlowTable Util Timeout SlowState Arp.

#[local] Open Scope Z_scope.

Record routing_table_entry := mk_rte { dest_ip : Z; dest_mask : Z; next_hop : Z }.

(** The prefix length is at most 32; C leaves a longer one undefined. *)
Definition prefix_len_mask (len : Z) : Z := u32 (Z.lnot (u64 (Z.shiftl 1 (32 - len)) - 1)).

(** The routes of the configuration; [None] is the failure of a route whose
    address has bits outside of its mask. *)
Fixpoint fill_routes (l : list config_route) : option (list routing_table_entry) :=
  match l with
  | [] => Some []
  | cr :: l =>
      let mask := prefix_len_mask (cr_ip_prefix cr) in
      if negb (Z.land mask (cr_ip cr) =? cr_ip cr) then None
      else t ← fill_routes l; Some (mk_rte (cr_ip cr) mask (cr_next_hop_ip cr) :: t)
  end.

(** [alloc] tells whether [calloc] succeeds. *)
Definition routing_init (cfg : configuration) (alloc : bool) : option (list routing_table_entry) :=
  if negb alloc then None
  else
    let mask := prefix_len_mask (cf_ip_prefix cfg) in
    t ← fill_routes (cf_routes cfg);
    Some (mk_rte (Z.land (cf_ip cfg) mask) mask 0 :: t).

Fixpoint resolve (t : list routing_table_entry) (ip : Z) : option routing_table_entry :=
  match t with
  | [] => None
  | e :: t => if dest_ip e =? Z.land ip (dest_mask e) then Some e else resolve t ip
  end.

(** The loop of [routing_resolve]: the address to ask ARP for, or [None] when no
    route matches. *)
Fixpoint next_hops (fuel : nat) (t : list routing_table_entry) (ip : Z) : outcome (option Z) :=
  match fuel with
  | O => Stop OutOfFuel
  | S fuel =>
      match resolve t ip with
      | None => mret None
      | Some rte => if next_hop rte =? 0 then mret (Some ip) else next_hops fuel t (next_hop rte)
      end
  end.

Definition routing_resolve {N} `{PacketTx N} (eth_addr : Z) (cfg : configuration) (fuel : nat)
  (t : list routing_table_entry) (s : arp_state N) (comp ip mac now : Z) (fresh : option Z)
  : outcome (Z * arp_state N) :=
  hop ← next_hops fuel t ip;
  match hop with
  | None => mret (-1, s)
  | Some ip => arp_request eth_addr cfg s comp ip mac now fresh
  end.

(** ** Masks *)

Definition is_ip (x : Z) : Prop := 0 <= x < 4294967296.

Lemma prefix_len_mask_spec len ip : 0 <= len <= 32 -> is_ip ip ->
  Z.land ip (prefix_len_mask len) = ip / 2 ^ (32 - len) * 2 ^ (32 - len).
Proof.
  intros Hl Hip. unfold is_ip in Hip. set (k := 32 - len). assert (0 <= k <= 32) as Hk by lia.
  assert (prefix_len_mask len = 4294967296 - 2 ^ k) as ->.
  { unfold prefix_len_mask. fold k. rewrite Z.shiftl_mul_pow2, Z.mul_1_l by lia.
    assert (1 <= 2 ^ k <= 2 ^ 32) by (split; [change 1 with (2 ^ 0)|]; apply Z.pow_le_mono_r; lia).
    change (2 ^ 32) with 4294967296 in *. rewrite u64_small by lia.
    replace (Z.lnot (2 ^ k - 1)) with (- 2 ^ k) by (unfold Z.lnot; lia).
    unfold u32. rewrite mod_add_once by lia. lia. }
  apply Z.bits_inj'. intros i Hi. rewrite Z.land_spec.
  assert (Z.testbit (4294967296 - 2 ^ k) i = (k <=? i) && (i <? 32)) as ->.
  { replace (4294967296 - 2 ^ k) with (Z.ones (32 - k) * 2 ^ k).
    - rewrite Z.mul_pow2_bits by lia. destruct (Z.leb_spec k i) as [Hki|Hki]; simpl.
      + destruct (Z.ltb_spec i 32); [apply Z.ones_spec_low|apply Z.ones_spec_high]; lia.
      + apply Z.testbit_neg_r. lia.
    - rewrite Z.ones_equiv. unfold Z.pred. rewrite Z.mul_add_distr_r, <- Z.pow_add_r by lia.
      replace (32 - k + k) with 32 by lia. change (2 ^ 32) with 4294967296. lia. }
  rewrite Z.mul_pow2_bits by lia. destruct (Z.leb_spec k i) as [Hki|Hki]; simpl.
  - rewrite Z.div_pow2_bits by lia. replace (i - k + k) with i by lia.
    destruct (Z.ltb_spec i 32); [by rewrite andb_true_r|]. rewrite andb_false_r. symmetry.
    destruct (Z.eq_dec ip 0) as [->|]; [apply Z.bits_0|]. apply Z.bits_above_log2; [lia|].
    apply Z.log2_lt_pow2; [lia|]. apply Z.lt_le_trans with (2 ^ 32); [exact (proj2 Hip)|]. apply Z.pow_le_mono_r; lia.
  - rewrite andb_false_r. symmetry. apply Z.testbit_neg_r. lia.
Qed.

(** ** Termination

    Following next hops, after as many hops as there are routes an address comes
    back: the loop has ended by then or never ends. *)

(** The address after [k] hops, while there is one. *)
Fixpoint hops (t : list routing_table_entry) (k : nat) (ip : Z) : option Z :=
  match k with
  | O => Some ip
  | S k => match resolve t ip with
           | Some e => if next_hop e =? 0 then None else hops t k (next_hop e)
           | None => None
           end
  end.

Lemma next_hops_fuel t k : forall ip, next_hops k t ip = Stop OutOfFuel <-> is_Some (hops t k ip).
Proof.
  induction k as [|k IH]; intros ip; simpl; [split; [by eexists|done]|].
  destruct (resolve t ip) as [e|]; [|by split; [|intros []]].
  destruct (next_hop e =? 0); [by split; [|intros []]|]. apply IH.
Qed.

Lemma hops_add t j : forall k ip, hops t (j + k) ip = (hops t j ip ≫= hops t k).
Proof.
  induction j as [|j IH]; intros k ip; simpl; [done|]. destruct (resolve t ip) as [e|]; [|done].
  destruct (next_hop e =? 0); [done|apply IH].
Qed.

Lemma hops_prefix t j k ip : is_Some (hops t (j + k) ip) -> is_Some (hops t j ip).
Proof. rewrite hops_add. destruct (hops t j ip); [by eexists|by intros []]. Qed.

Lemma resolve_in t ip e : resolve t ip = Some e -> e ∈ t.
Proof.
  induction t as [|a t IH]; simpl; [done|]. destruct (_ =? _); [intros [= ->]; by left|]. intros E. right. by apply IH.
Qed.

Lemma hops_in t k ip x : hops t (S k) ip = Some x -> x ∈ next_hop <$> t.
Proof.
  revert ip. induction k as [|k IH]; intros ip E.
  - simpl in E. destruct (resolve t ip) as [e|] eqn:Er; [|done]. destruct (next_hop e =? 0); [done|].
    injection E as <-. apply list_elem_of_fmap_2. by eapply resolve_in.
  - cbn [hops] in E. destruct (resolve t ip) as [e|] eqn:Er; [|done]. destruct (next_hop e =? 0); [done|].
    by eapply IH.
Qed.

(** An address that comes back keeps coming back. *)
Lemma hops_cycle t d x : hops t (S d) x = Some x -> forall q, hops t (q * S d) x = Some x.
Proof.
  intros Hd. induction q as [|q IH]; [done|]. change (S q * S d)%nat with (S d + q * S d)%nat.
  by rewrite hops_add, Hd.
Qed.

Lemma hops_repeat t ip i d x m : hops t i ip = Some x -> hops t (i + S d) ip = Some x ->
  is_Some (hops t m ip).
Proof.
  intros Ei Ej. rewrite hops_add, Ei in Ej. simpl in Ej.
  apply (hops_prefix t m (i + m * S d - m)).
  replace (m + (i + m * S d - m))%nat with (i + m * S d)%nat by lia.
  rewrite hops_add, Ei. simpl. rewrite (hops_cycle t d x Ej). by eexists.
Qed.

Lemma hops_forever t ip m : is_Some (hops t (S (length t)) ip) -> is_Some (hops t m ip).
Proof.
  intros Hlong. destruct (hops t m ip) as [y|] eqn:Em; [by eexists|]. exfalso.
  set (f := fun k => hops t (S k) ip).
  assert (forall k, (k < S (length t))%nat -> is_Some (f k)) as Hsome.
  { intros k Hk. apply (hops_prefix t (S k) (length t - k)).
    by replace (S k + (length t - k))%nat with (S (length t)) by lia. }
  assert (forall k d x, f k = Some x -> f (k + S d)%nat = Some x -> False) as Hrep.
  { intros k d x E1 E2. destruct (hops_repeat t ip (S k) d x m E1) as [? E]; [exact E2|congruence]. }
  assert (NoDup (f <$> seq 0 (S (length t)))) as Hn.
  { apply NoDup_alt. intros i j o Hi Hj. rewrite list_lookup_fmap in Hi, Hj.
    destruct (seq 0 (S (length t)) !! i) as [a|] eqn:Ea; [|done]. destruct (seq 0 (S (length t)) !! j) as [b|] eqn:Eb; [|done].
    apply lookup_seq in Ea as [-> Ha], Eb as [-> Hb]. injection Hi as Hi. injection Hj as Hj.
    destruct (Hsome i Ha) as [x Ex]. simpl in Hi, Hj. rewrite Ex in Hi. subst o.
    destruct (lt_eq_lt_dec i j) as [[Hij|]|Hij]; [|done|].
    - exfalso. apply (Hrep i (j - i - 1)%nat x Ex). by replace (i + S (j - i - 1))%nat with j by lia.
    - exfalso. apply (Hrep j (i - j - 1)%nat x Hj). by replace (j + S (i - j - 1))%nat with i by lia. }
  assert (f <$> seq 0 (S (length t)) ⊆+ Some <$> (next_hop <$> t)) as Hs.
  { apply NoDup_submseteq; [done|]. intros o (k & -> & Hk)%list_elem_of_fmap. apply elem_of_seq in Hk.
    destruct (Hsome k ltac:(lia)) as [x Ex]. rewrite Ex. apply list_elem_of_fmap_2. by eapply hops_in. }
  apply submseteq_length in Hs. rewrite !length_fmap, length_seq in Hs. lia.
Qed.

(** Termination: fuel of one more than the number of routes is enough. With
    that much [routing_resolve] returns, unless the code's loop never ends, as it
    does when the next hops lead back to an address that was seen; there is no
    check for that. If every next hop is directly reachable the loop takes at most
    two rounds. *)
Theorem next_hops_terminates t ip :
  (next_hops (S (length t)) t ip = Stop OutOfFuel -> forall fuel, next_hops fuel t ip = Stop OutOfFuel) /\
  (forall i d x, hops t i ip = Some x -> hops t (i + S d) ip = Some x ->
    forall fuel, next_hops fuel t ip = Stop OutOfFuel) /\
  ((forall e, e ∈ t -> next_hop e <> 0 ->
      exists e', resolve t (next_hop e) = Some e' /\ next_hop e' = 0) ->
    forall fuel, (2 <= fuel)%nat -> next_hops fuel t ip =
      Ok (match resolve t ip with
          | None => None
          | Some e => Some (if next_hop e =? 0 then ip else next_hop e)
          end)).
Proof.
  split_and!.
  - rewrite next_hops_fuel. intros H fuel. apply next_hops_fuel. by apply hops_forever.
  - intros i d x Ei Ej fuel. apply next_hops_fuel. by apply (hops_repeat t ip i d x).
  - intros Hd [|[|fuel]] Hf; [lia|lia|]. cbn [next_hops]. destruct (resolve t ip) as [e|] eqn:Er; [|done].
    destruct (Z.eqb_spec (next_hop e) 0) as [Hz|Hz]; [done|].
    destruct (Hd e (resolve_in _ _ _ Er) Hz) as (e' & -> & He'). by rewrite He'.
Qed.

(** ** The table *)

Lemma fill_routes_ok l t : fill_routes l = Some t ->
  t = (fun cr => mk_rte (cr_ip cr) (prefix_len_mask (cr_ip_prefix cr)) (cr_next_hop_ip cr)) <$> l.
Proof.
  revert t. induction l as [|cr l IH]; simpl; intros t E; [by injection E as <-|].
  destruct (negb _); [done|]. destruct (fill_routes l) as [t'|]; [|done]. simpl in E. injection E as <-.
  by rewrite (IH t' eq_refl).
Qed.

(** An address lies in the network of [ip] with prefix length [len]. *)
Definition in_network (ip len addr : Z) : Prop := addr / 2 ^ (32 - len) = ip / 2 ^ (32 - len).

Lemma match_network ip len addr : 0 <= len <= 32 -> is_ip ip -> is_ip addr ->
  Z.land ip (prefix_len_mask len) = Z.land addr (prefix_len_mask len) <-> in_network ip len addr.
Proof.
  intros Hl Hi Ha. rewrite !prefix_len_mask_spec by done. unfold in_network.
  assert (0 < 2 ^ (32 - len)) by (apply Z.pow_pos_nonneg; lia). split; [nia|congruence].
Qed.

#[export] Instance in_network_dec ip len addr : Decision (in_network ip len addr).
Proof. unfold in_network. apply _. Defined.

(** The first configured route for an address. *)
Definition route_for (cfg : configuration) (addr : Z) : option config_route :=
  head (filter (fun cr => in_network (cr_ip cr) (cr_ip_prefix cr) addr) (cf_routes cfg)).

Record routes_ok (cfg : configuration) : Prop := {
  ro_ip : is_ip (cf_ip cfg) /\ 0 <= cf_ip_prefix cfg <= 32;
  ro_routes : Forall (fun cr => is_ip (cr_ip cr) /\ 0 <= cr_ip_prefix cr <= 32) (cf_routes cfg);
  (** The gateways are in the network of the host. *)
  ro_gateways : Forall (fun cr => is_ip (cr_next_hop_ip cr) /\
    in_network (cf_ip cfg) (cf_ip_prefix cfg) (cr_next_hop_ip cr)) (cf_routes cfg);
}.

Lemma land_masked ip m : Z.land (Z.land ip m) m = Z.land ip m.
Proof. by rewrite <- Z.land_assoc, Z.land_diag. Qed.

Lemma resolve_routes l t addr : Forall (fun cr => is_ip (cr_ip cr) /\ 0 <= cr_ip_prefix cr <= 32) l ->
  fill_routes l = Some t -> is_ip addr ->
  next_hop <$> resolve t addr =
    cr_next_hop_ip <$> head (filter (fun cr => in_network (cr_ip cr) (cr_ip_prefix cr) addr) l).
Proof.
  revert t. induction l as [|cr l IH]; simpl; intros t Hl E Ha; [by injection E as <-|].
  apply Forall_cons in Hl as [[Hi Hp] Hl].
  destruct (Z.eqb_spec (Z.land (prefix_len_mask (cr_ip_prefix cr)) (cr_ip cr)) (cr_ip cr)) as [Em|]; [|done].
  simpl in E. destruct (fill_routes l) as [t'|] eqn:Ef; [|done]. injection E as <-. simpl.
  destruct (Z.eqb_spec (cr_ip cr) (Z.land addr (prefix_len_mask (cr_ip_prefix cr)))) as [Eq|Eq].
  - rewrite filter_cons_True; [done|]. apply match_network; [done..|]. by rewrite <- Eq, Z.land_comm.
  - rewrite filter_cons_False; [by apply IH|]. intros Hin. apply match_network in Hin; [|done..].
    apply Eq. by rewrite <- Hin, Z.land_comm.
Qed.

(** Routing: with gateways in the host's network, a packet to that network is
    sent to its destination, any other to the gateway of the first configured route
    that contains its address, and one without a route is refused. The masks of the
    table compare exactly the first bits that the prefix lengths give. *)
Theorem next_hops_correct cfg t addr fuel :
  routes_ok cfg -> routing_init cfg true = Some t -> is_ip addr -> (2 <= fuel)%nat ->
  next_hops fuel t addr =
    Ok (if decide (in_network (cf_ip cfg) (cf_ip_prefix cfg) addr) then Some addr
        else cr ← route_for cfg addr; Some (if cr_next_hop_ip cr =? 0 then addr else cr_next_hop_ip cr)).
Proof.
  intros [[Hi Hp] Hr Hg] Et Ha Hf. unfold routing_init in Et. simpl in Et.
  destruct (fill_routes (cf_routes cfg)) as [t'|] eqn:Ef; [|done]. simpl in Et. injection Et as <-.
  set (e0 := mk_rte _ _ 0).
  assert (forall x, is_ip x -> resolve (e0 :: t') x =
    if decide (in_network (cf_ip cfg) (cf_ip_prefix cfg) x) then Some e0 else resolve t' x) as Hres.
  { intros x Hx. simpl. case_decide as Hd.
    - apply match_network in Hd; [|done..]. by rewrite Hd, Z.eqb_refl.
    - rewrite (proj2 (Z.eqb_neq _ _)); [done|]. intros E. apply Hd. by apply match_network. }
  destruct fuel as [|[|fuel]]; [lia|lia|]. cbn [next_hops]. rewrite (Hres addr Ha). case_decide as Hd; [done|].
  pose proof (resolve_routes _ _ addr Hr Ef Ha) as Hh. fold (route_for cfg addr) in Hh.
  destruct (route_for cfg addr) as [cr|] eqn:Ec; simpl in Hh; destruct (resolve t' addr) as [e|]; try done.
  injection Hh as ->. cbn [mbind option_bind]. destruct (Z.eqb_spec (cr_next_hop_ip cr) 0); [done|].
  unfold route_for in Ec. assert (cr ∈ cf_routes cfg) as Hcr.
  { assert (cr ∈ filter (fun cr => in_network (cr_ip cr) (cr_ip_prefix cr) addr) (cf_routes cfg)) as Hin
      by (destruct (filter _ _); [done|injection Ec as ->; by left]).
    by apply list_elem_of_filter in Hin as [_ ?]. }
  rewrite Forall_forall in Hg. destruct (Hg cr Hcr) as [Hn Hin]. rewrite Hres by done.
  by rewrite decide_True.
Qed.

(** ** Concrete tables *)
Module Demo.
(** 10.0.0.1/24 with a default route over 10.0.0.254. *)
Definition cfg : configuration :=
  mk_config 8192 8192 50 10 1000000 10 167772161 24 167772161 [mk_route 0 0 167772414] 500000 10000000
    CONFIG_CC_CONST_RATE 50 2 4 0 0 0 0 0 0 5000 0 0 0 0 0 0 0 0 false.
(** A default route over a gateway that only the default route reaches. *)
Definition looping : list routing_table_entry :=
  [mk_rte 167772160 4294967040 0; mk_rte 0 0 3232235777].
End Demo.

Lemma next_hops_terminates_witness :
  hops Demo.looping 1 1 = Some 3232235777 /\ hops Demo.looping 2 1 = Some 3232235777 /\
  forall fuel, next_hops fuel Demo.looping 1 = Stop OutOfFuel.
Proof.
  split; [reflexivity|]. split; [reflexivity|].
  exact (proj1 (proj2 (next_hops_terminates Demo.looping 1)) 1%nat 0%nat 3232235777 eq_refl eq_refl).
Defined.

Lemma next_hops_correct_witness :
  exists t, routing_init Demo.cfg true = Some t /\ next_hops 2 t 134744072 = Ok (Some 167772414) /\
    next_hops 2 t 167772170 = Ok (Some 167772170).
Proof.
  destruct (routing_init Demo.cfg true) as [t|] eqn:E; [|vm_compute in E; discriminate E].
  assert (routes_ok Demo.cfg) as Hok.
  { split; [by vm_compute|apply Forall_singleton; by vm_compute|apply Forall_singleton; by vm_compute]. }
  exists t. split; [reflexivity|]. split.
  - rewrite (next_hops_correct Demo.cfg t 134744072 2 Hok E) by (by vm_compute || lia).
    rewrite decide_False by (vm_compute; discriminate). reflexivity.
  - rewrite (next_hops_correct Demo.cfg t 167772170 2 Hok E) by (by vm_compute || lia).
    rewrite decide_True by (vm_compute; reflexivity). reflexivity.
Defined.
