(* ===== verification/Ports.v ===== *)
(** * The TCP ports of the slow path (tas_nic/slow/tcp.c)

    What each port is used for, the allocation of local ports of outgoing
    connections, and the listener a packet is for. *)
From S2P Require Import Prelude Packets.

#[local] Open Scope Z_scope.

Definition PORT_MAX : Z := 65535.
Definition PORT_FIRST_EPH : Z := 8192.
Definition LISTEN_MULTI_MAX : Z := 32.

(** An entry of [ports]: a pointer, with its type in the two low bits. *)
Inductive port_entry :=
| PORT_TYPE_UNUSED
| PORT_TYPE_LISTEN (l : Z)
| PORT_TYPE_LMULTI (lm : Z)
| PORT_TYPE_CONN (c : Z).

(** The ports that are not in the map are unused. *)
Abbreviation port_table := (gmap Z port_entry).
Definition port_at (ports : port_table) (p : Z) : port_entry := default PORT_TYPE_UNUSED (ports !! p).
Definition unused (ports : port_table) (p : Z) : bool :=
  match port_at ports p with PORT_TYPE_UNUSED => true | _ => false end.

(** ** Allocation *)

Definition port_next (p : Z) : Z := if u16 (p + 1) <? PORT_FIRST_EPH then PORT_FIRST_EPH else u16 (p + 1).

(** The loop: the port found with the new hint, or [None] when it is back at the start. *)
Fixpoint port_loop (fuel : nat) (ports : port_table) (p p_start : Z) : outcome (option (Z * Z)) :=
  match fuel with
  | O => Stop OutOfFuel
  | S fuel =>
      let p_next := port_next p in
      if unused ports p then mret (Some (p, p_next))
      else if p_next =? p_start then mret None
      else port_loop fuel ports p_next p_start
  end.

Definition port_fuel : nat := Z.to_nat 65536.

(** The port, 0 when there is none, and the hint after it. *)
Definition port_alloc (ports : port_table) (port_eph_hint : Z) : outcome (Z * Z) :=
  r ← port_loop port_fuel ports port_eph_hint port_eph_hint;
  mret (match r with Some (p, hint) => (p, hint) | None => (0, port_eph_hint) end).

(** The hint [tcp_init] starts from, [r] being a random number. *)
Definition port_hint_init (r : Z) : Z := r mod (65535 - PORT_FIRST_EPH).

(** ** Listeners *)

(** [struct listen_multi]: the listeners that share a port. *)
Record listen_multi := mk_lm { lm_ls : list Z }.

Definition hash_64_to_32 (key : Z) : Z :=
  let key := u64 (Z.lnot key + Z.shiftl key 18) in
  let key := Z.lxor key (Z.shiftr key 31) in
  let key := u64 (key * 21) in
  let key := Z.lxor key (Z.shiftr key 11) in
  let key := u64 (key + Z.shiftl key 6) in
  let key := Z.lxor key (Z.shiftr key 22) in
  u32 key.

Definition listener_lookup (ports : port_table) (multis : gmap Z listen_multi) (p : pkt_tcp)
  : outcome (option Z) :=
  let local_port := tcp_dest (p_tcp p) in
  match port_at ports local_port with
  | PORT_TYPE_LISTEN l => mret (Some l)
  | PORT_TYPE_LMULTI m =>
      match multis !! m with
      | None => Stop OutOfBounds
      | Some lm =>
          let hash := hash_64_to_32 (Z.lor (Z.lor (Z.shiftl (ip_src (p_ip p)) 32)
                        (Z.shiftl (tcp_src (p_tcp p)) 16)) local_port) in
          if Z.of_nat (length (lm_ls lm)) =? 0 then Stop DivByZero
          else match lm_ls lm !! Z.to_nat (hash mod Z.of_nat (length (lm_ls lm))) with
               | Some l => mret (Some l)
               | None => Stop OutOfBounds
               end
      end
  | _ => mret None
  end.

(** ** Allocation is a cyclic search *)

Abbreviation EPH := 57344.

Definition ephemeral (p : Z) : Prop := PORT_FIRST_EPH <= p <= PORT_MAX.

(** The port [k] steps after [hint] in the cycle of the ephemeral ports. *)
Definition eph_after (hint k : Z) : Z := PORT_FIRST_EPH + (hint - PORT_FIRST_EPH + k) mod EPH.

Lemma eph_after_range hint k : ephemeral (eph_after hint k).
Proof.
  unfold ephemeral, eph_after, PORT_FIRST_EPH, PORT_MAX. pose proof (Z.mod_pos_bound (hint - 8192 + k) EPH). lia.
Qed.

Lemma eph_after_0 hint : ephemeral hint -> eph_after hint 0 = hint.
Proof.
  unfold ephemeral, eph_after, PORT_FIRST_EPH, PORT_MAX. intros Hh. rewrite Z.mod_small; lia.
Qed.

Lemma port_next_eph p : ephemeral p -> port_next p = eph_after p 1.
Proof.
  unfold ephemeral, port_next, eph_after, PORT_FIRST_EPH, PORT_MAX. intros Hp. unfold u16.
  destruct (Z.eq_dec p 65535) as [->|]; [done|].
  rewrite (Z.mod_small (p + 1)), (proj2 (Z.ltb_ge _ _)), Z.mod_small by lia. lia.
Qed.

Lemma port_next_after hint k : port_next (eph_after hint k) = eph_after hint (k + 1).
Proof.
  rewrite port_next_eph by apply eph_after_range. unfold eph_after. f_equal.
  replace (PORT_FIRST_EPH + (hint - PORT_FIRST_EPH + k) mod EPH - PORT_FIRST_EPH + 1)
    with ((hint - PORT_FIRST_EPH + k) mod EPH + 1) by lia.
  rewrite Zplus_mod_idemp_l. f_equal. lia.
Qed.

(** Before a whole turn the start does not come back. *)
Lemma eph_after_start hint k : ephemeral hint -> 0 < k <= EPH -> (eph_after hint k =? hint) = (k =? EPH).
Proof.
  unfold ephemeral, eph_after, PORT_FIRST_EPH, PORT_MAX. intros Hh Hk.
  destruct (Z.eqb_spec k EPH) as [->|Hne].
  - apply Z.eqb_eq. rewrite <- Z.add_mod_idemp_r, Z_mod_same_full, Z.add_0_r, Z.mod_small by lia. lia.
  - apply Z.eqb_neq. intros E. Z.div_mod_to_equations. lia.
Qed.

(** What the search gives: the first unused port from [hint] on, at distance [k]. *)
Definition first_unused (ports : port_table) (hint k : Z) : Prop :=
  0 <= k < EPH /\ unused ports (eph_after hint k) = true /\
  forall j, 0 <= j < k -> unused ports (eph_after hint j) = false.

Lemma port_loop_ok ports hint fuel : forall k, ephemeral hint -> 0 <= k < EPH -> EPH - k <= Z.of_nat fuel ->
  (forall j, 0 <= j < k -> unused ports (eph_after hint j) = false) ->
  (exists k', first_unused ports hint k' /\
     port_loop fuel ports (eph_after hint k) hint = Ok (Some (eph_after hint k', eph_after hint (k' + 1)))) \/
  ((forall p, ephemeral p -> unused ports p = false) /\
     port_loop fuel ports (eph_after hint k) hint = Ok None).
Proof.
  induction fuel as [|fuel IH]; intros k Hh Hk Hf Hprev; [lia|]. cbn [port_loop].
  destruct (unused ports (eph_after hint k)) eqn:Eu.
  { left. exists k. split; [by split_and!; try lia|]. by rewrite port_next_after. }
  assert (forall j, 0 <= j < k + 1 -> unused ports (eph_after hint j) = false) as Hprev'.
  { intros j Hj. destruct (Z.eq_dec j k) as [->|]; [done|apply Hprev; lia]. }
  rewrite port_next_after, eph_after_start by (done || lia). destruct (Z.eqb_spec (k + 1) EPH) as [He|Hne].
  - right. split; [|done]. intros p Hp. rewrite <- (Hprev' ((p - hint) mod EPH)).
    + f_equal. unfold eph_after, ephemeral, PORT_FIRST_EPH, PORT_MAX in *. rewrite Zplus_mod_idemp_r.
      rewrite Z.mod_small; lia.
    + pose proof (Z.mod_pos_bound (p - hint) EPH). lia.
  - apply IH; try done; lia.
Qed.

(** The allocation of local ports ends, and is a fair cyclic search: from a
    hint in the ephemeral range it returns the first unused port at or after the
    hint, wrapping from the last port to the first ephemeral one, and the next
    search starts behind it, so that a port is not used again before all others
    were tried; it returns 0 exactly when no ephemeral port is unused, and then
    leaves the hint alone. *)
Theorem port_alloc_correct ports hint : ephemeral hint ->
  exists p hint', port_alloc ports hint = Ok (p, hint') /\ ephemeral hint' /\
    if decide (p = 0) then hint' = hint /\ forall q, ephemeral q -> unused ports q = false
    else ephemeral p /\ exists k, first_unused ports hint k /\ p = eph_after hint k /\ hint' = eph_after hint (k + 1).
Proof.
  intros Hh. unfold port_alloc.
  destruct (port_loop_ok ports hint port_fuel 0 Hh) as [(k & Hk & E)|[Hall E]]; try (unfold port_fuel; lia);
    rewrite eph_after_0 in E by done; rewrite E; osimpl.
  - do 2 eexists. split; [reflexivity|]. split; [apply eph_after_range|].
    pose proof (eph_after_range hint k) as Hr. rewrite decide_False; [split; [done|by exists k]|].
    unfold ephemeral, PORT_FIRST_EPH in Hr. lia.
  - exists 0, hint. split; [done|]. split; [done|]. by rewrite decide_True.
Qed.

(** A search that starts below the ephemeral ports never meets its start again. *)
Lemma port_loop_low ports start fuel : 0 <= start < PORT_FIRST_EPH ->
  (forall p, ephemeral p -> unused ports p = false) ->
  forall p, ephemeral p -> port_loop fuel ports p start = Stop OutOfFuel.
Proof.
  intros Hs Hall. induction fuel as [|fuel IH]; intros p Hp; [done|]. cbn [port_loop].
  rewrite Hall by done. rewrite port_next_eph by done. pose proof (eph_after_range p 1) as Hr.
  rewrite (proj2 (Z.eqb_neq _ _)) by (unfold ephemeral in Hr; lia). by apply IH.
Qed.

Lemma port_next_low p : 0 <= p < PORT_FIRST_EPH -> port_next p = PORT_FIRST_EPH.
Proof.
  unfold port_next, PORT_FIRST_EPH. intros Hp. rewrite u16_small by lia.
  destruct (Z.ltb_spec (p + 1) 8192); lia.
Qed.

(** Code bug: the hint [tcp_init] draws is a distance from the first
    ephemeral port, to which that port is not added. A draw below 8192 is used as
    a port as it is: when that port is unused it is handed out although it is not
    ephemeral, for the draw 0 as the port 0, which the caller takes for a failure;
    and when it and all ephemeral ports are in use, the search never ends. *)
Theorem port_hint_not_ephemeral ports r : 0 <= r < PORT_FIRST_EPH ->
  port_hint_init r = r /\
  (unused ports r = true -> port_alloc ports (port_hint_init r) = Ok (r, PORT_FIRST_EPH)) /\
  (unused ports r = false -> (forall p, ephemeral p -> unused ports p = false) ->
   forall fuel, port_loop fuel ports (port_hint_init r) (port_hint_init r) = Stop OutOfFuel).
Proof.
  intros Hr. assert (port_hint_init r = r) as ->.
  { unfold port_hint_init, PORT_FIRST_EPH in *. rewrite Z.mod_small; lia. }
  split; [done|]. split.
  - intros Hu. unfold port_alloc. replace port_fuel with (S (Z.to_nat 65535)) by (unfold port_fuel; lia). cbn [port_loop].
    rewrite Hu, port_next_low by done. done.
  - intros Hu Hall [|fuel]; [done|]. cbn [port_loop]. rewrite Hu, port_next_low by done.
    rewrite (proj2 (Z.eqb_neq _ _)) by lia. apply port_loop_low; try done.
Qed.

Lemma port_alloc_correct_witness :
  let ports := {[ 65535 := PORT_TYPE_CONN 4096; 8192 := PORT_TYPE_LISTEN 64 ]} in
  ephemeral 65535 /\ exists p hint', port_alloc ports 65535 = Ok (p, hint') /\ ephemeral hint' /\
    if decide (p = 0) then hint' = 65535 /\ forall q, ephemeral q -> unused ports q = false
    else ephemeral p /\ exists k, first_unused ports 65535 k /\ p = eph_after 65535 k /\ hint' = eph_after 65535 (k + 1).
Proof.
  intros ports. assert (ephemeral 65535) as Hh by (unfold ephemeral, PORT_FIRST_EPH, PORT_MAX; lia).
  split; [exact Hh|]. exact (port_alloc_correct ports 65535 Hh).
Defined.

Lemma port_hint_not_ephemeral_witness :
  port_hint_init 0 = 0 /\
  (unused ∅ 0 = true -> port_alloc ∅ (port_hint_init 0) = Ok (0, 8192)) /\
  (unused ∅ 0 = false -> (forall p, ephemeral p -> unused ∅ p = false) ->
   forall fuel, port_loop fuel ∅ (port_hint_init 0) (port_hint_init 0) = Stop OutOfFuel).
Proof. apply (port_hint_not_ephemeral ∅ 0). split; [discriminate|reflexivity]. Defined.

Lemma ports_example :
  port_alloc {[ 65535 := PORT_TYPE_CONN 4096; 8192 := PORT_TYPE_LISTEN 64 ]} 65535 = Ok (8193, 8194).
Proof. reflexivity. Qed.
