(* ===== verification/Listener.v ===== *)
(** * Listeners and their backlog (tas_nic/slow/tcp.c, internal.h)

    SYN packets wait in the backlog of a listener, a ring of copies, until the
    application accepts a connection. *)
From S2P Require Import Prelude Packets Wire.

#[local] Open Scope Z_scope.

Definition BACKLOG_BUF : Z := 126.
Record backlog_slot := mk_bls { bls_buf : list Z; bls_len : Z }.

(** [struct listener]; [backlog_ptrs] is the array of the slots, as the pointers
    are set once, in order. *)
Record listener := mk_listener {
  li_opaque : Z;
  li_ctx : Z;
  li_app_next : option Z;
  li_db_id : Z;
  backlog_len : Z;
  backlog_pos : Z;
  backlog_used : Z;
  backlog_ptrs : list backlog_slot;
  backlog_cores : list Z;
  backlog_fgs : list Z;
  wait_conns : option Z;
  li_port : Z;
  li_flags : Z;
}.
#[export] Instance eta_listener : Eta listener := fun l =>
  mk_listener (li_opaque l) (li_ctx l) (li_app_next l) (li_db_id l) (backlog_len l) (backlog_pos l)
    (backlog_used l) (backlog_ptrs l) (backlog_cores l) (backlog_fgs l) (wait_conns l) (li_port l) (li_flags l).

(** ** Operations *)

(** An element of an array. *)
Definition at_index {A} (a : list A) (i : Z) : outcome A :=
  if i <? 0 then Stop OutOfBounds
  else match a !! Z.to_nat i with Some x => Ok x | None => Stop OutOfBounds end.
Definition set_index {A} (a : list A) (i : Z) (x : A) : outcome (list A) :=
  _ ← at_index a i; mret (<[Z.to_nat i := x]> a).

Definition same_4tuple (p q : pkt_tcp) : bool :=
  (ip_src (p_ip p) =? ip_src (p_ip q)) && (ip_dest (p_ip p) =? ip_dest (p_ip q))
  && (tcp_src (p_tcp p) =? tcp_src (p_tcp q)) && (tcp_dest (p_tcp p) =? tcp_dest (p_tcp q)).

(** The loop over the used slots; [n] are left. *)
Fixpoint backlog_has (n : nat) (l : listener) (p : pkt_tcp) (bp : Z) : outcome bool :=
  match n with
  | O => mret false
  | S n =>
      bls ← at_index (backlog_ptrs l) bp;
      if same_4tuple p (pkt_of_bytes (bls_buf bls)) then mret true
      else if backlog_len l =? 0 then Stop DivByZero
      else backlog_has n l p (u32 (bp + 1) mod backlog_len l)
  end.

(** The part of [listener_packet] that puts the SYN [pkt] in the backlog; [None]
    when it is dropped: too long, already there, or no room. *)
Definition backlog_add (l : listener) (pkt : list Z) (fn_core flow_group : Z) : outcome (option listener) :=
  let p := pkt_of_bytes pkt in
  let len := u16 (SIZEOF_ETH_HDR + ip_len (p_ip p)) in
  if len >? BACKLOG_BUF then mret None
  else
    dup ← backlog_has (Z.to_nat (backlog_used l)) l p (backlog_pos l);
    if dup : bool then mret None
    else if backlog_len l =? backlog_used l then mret None
    else
      let bp := u32 (backlog_pos l + backlog_used l) in
      let bp := if bp >=? backlog_len l then u32 (bp - backlog_len l) else bp in
      cores ← set_index (backlog_cores l) bp fn_core;
      fgs ← set_index (backlog_fgs l) bp flow_group;
      bls ← at_index (backlog_ptrs l) bp;
      d ← mem_read pkt 0 len;
      buf ← mem_write (bls_buf bls) 0 d;
      ptrs ← set_index (backlog_ptrs l) bp (mk_bls buf len);
      let l := l <| backlog_cores := cores |> in
      let l := l <| backlog_fgs := fgs |> in
      let l := l <| backlog_ptrs := ptrs |> in
      mret (Some (l <| backlog_used := u32 (backlog_used l + 1) |>)).

(** The first slot, with its core and flow group. *)
Definition backlog_head (l : listener) : outcome (backlog_slot * Z * Z) :=
  bls ← at_index (backlog_ptrs l) (backlog_pos l);
  fn_core ← at_index (backlog_cores l) (backlog_pos l);
  flow_group ← at_index (backlog_fgs l) (backlog_pos l);
  mret (bls, fn_core, flow_group).

Definition backlog_pop (l : listener) : listener :=
  let l := l <| backlog_used := u32 (backlog_used l - 1) |> in
  let pos := u32 (backlog_pos l + 1) in
  l <| backlog_pos := if pos >=? backlog_len l then u32 (pos - backlog_len l) else pos |>.

(** The listener [tcp_listen] fills in; [bls] is the memory of the slots. *)
Definition new_listener (ctx opaque local_port backlog : Z) (bls : list backlog_slot) : listener :=
  mk_listener opaque ctx None 0 backlog 0 0 bls
    (replicate (Z.to_nat backlog) 0) (replicate (Z.to_nat backlog) 0) None local_port 0.

(** ** Specification: a bounded queue of SYN packets, one of each connection *)
Record syn := mk_syn { syn_bytes : list Z; syn_core : Z; syn_fg : Z }.

Definition spec_add (cap : Z) (q : list syn) (x : syn) : option (list syn) :=
  if BACKLOG_BUF <? Z.of_nat (length (syn_bytes x)) then None
  else if existsb (fun y => same_4tuple (pkt_of_bytes (syn_bytes x)) (pkt_of_bytes (syn_bytes y))) q then None
  else if Z.of_nat (length q) =? cap then None else Some (q ++ [x]).

(** The slot [bp] holds [x]. *)
Definition slot_holds (l : listener) (bp : Z) (x : syn) : Prop :=
  exists b, backlog_ptrs l !! Z.to_nat bp = Some (mk_bls b (Z.of_nat (length (syn_bytes x)))) /\
    Z.of_nat (length b) = BACKLOG_BUF /\ take (length (syn_bytes x)) b = syn_bytes x /\
    SIZEOF_PKT_TCP <= Z.of_nat (length (syn_bytes x)) <= BACKLOG_BUF /\
    backlog_cores l !! Z.to_nat bp = Some (syn_core x) /\ backlog_fgs l !! Z.to_nat bp = Some (syn_fg x).

Record backlog_rep (l : listener) (q : list syn) : Prop := {
  br_len : 0 <= backlog_len l < 2147483648;
  br_pos : 0 <= backlog_pos l < Z.max 1 (backlog_len l);
  br_used : backlog_used l = Z.of_nat (length q);
  br_fits : Z.of_nat (length q) <= backlog_len l;
  br_ptrs : Z.of_nat (length (backlog_ptrs l)) = backlog_len l;
  br_cores : Z.of_nat (length (backlog_cores l)) = backlog_len l;
  br_fgs : Z.of_nat (length (backlog_fgs l)) = backlog_len l;
  br_bufs : Forall (fun s => Z.of_nat (length (bls_buf s)) = BACKLOG_BUF) (backlog_ptrs l);
  br_slots : forall i x, q !! i = Some x ->
    slot_holds l ((backlog_pos l + Z.of_nat i) mod backlog_len l) x;
}.

(** ** Packets and their copies *)

Lemma field_app (a b : list Z) off n : (off + n <= length a)%nat -> field (a ++ b) off n = field a off n.
Proof. intros Hl. unfold field. rewrite drop_app_le by lia. apply take_app_le. rewrite length_drop. lia. Qed.

(** The headers are read from the first 54 bytes. *)
Lemma headers_app a b : (54 <= length a)%nat ->
  p_eth (pkt_of_bytes (a ++ b)) = p_eth (pkt_of_bytes a) /\
  p_ip (pkt_of_bytes (a ++ b)) = p_ip (pkt_of_bytes a) /\
  p_tcp (pkt_of_bytes (a ++ b)) = p_tcp (pkt_of_bytes a).
Proof.
  intros Hl. unfold pkt_of_bytes. simpl p_eth. simpl p_ip. simpl p_tcp. unfold get_le, get_be.
  by rewrite !field_app by lia.
Qed.

Lemma headers_take n b : (54 <= n)%nat -> (n <= length b)%nat ->
  p_eth (pkt_of_bytes b) = p_eth (pkt_of_bytes (take n b)) /\
  p_ip (pkt_of_bytes b) = p_ip (pkt_of_bytes (take n b)) /\
  p_tcp (pkt_of_bytes b) = p_tcp (pkt_of_bytes (take n b)).
Proof.
  intros Hn Hb. rewrite <- (take_drop n b) at 1 3 5. apply headers_app. rewrite length_take. lia.
Qed.

Lemma at_index_Ok {A} (a : list A) i x : 0 <= i -> a !! Z.to_nat i = Some x -> at_index a i = Ok x.
Proof. intros Hi E. unfold at_index. by rewrite (proj2 (Z.ltb_ge _ _)), E by lia. Qed.
Lemma at_index_in {A} (a : list A) i : 0 <= i < Z.of_nat (length a) -> exists x, at_index a i = Ok x /\ a !! Z.to_nat i = Some x.
Proof.
  intros Hi. destruct (lookup_lt_is_Some_2 a (Z.to_nat i)) as [x E]; [lia|]. exists x. split; [|done].
  apply at_index_Ok; [lia|done].
Qed.
Lemma set_index_Ok {A} (a : list A) i x : 0 <= i < Z.of_nat (length a) -> set_index a i x = Ok (<[Z.to_nat i := x]> a).
Proof. intros Hi. unfold set_index. destruct (at_index_in a i Hi) as (y & -> & _). done. Qed.

Lemma same_4tuple_ext p p' q q' :
  p_ip p = p_ip p' -> p_tcp p = p_tcp p' -> p_ip q = p_ip q' -> p_tcp q = p_tcp q' ->
  same_4tuple p q = same_4tuple p' q'.
Proof. unfold same_4tuple. by intros -> -> -> ->. Qed.

Section Proofs.
Context (l : listener) (q : list syn) (R : backlog_rep l q).

Lemma cap_pos : q <> [] -> 0 < backlog_len l.
Proof. intros Hq. pose proof (br_fits _ _ R). destruct q; [done|simpl in *; lia]. Qed.

Lemma pos_mod : q <> [] -> backlog_pos l mod backlog_len l = backlog_pos l.
Proof. intros Hq. pose proof (cap_pos Hq). apply Z.mod_small. pose proof (br_pos _ _ R). lia. Qed.

(** The slot of the position after the last one, as [backlog_add] computes it. *)
Lemma tail_slot : Z.of_nat (length q) < backlog_len l ->
  (let bp := u32 (backlog_pos l + backlog_used l) in
   if bp >=? backlog_len l then u32 (bp - backlog_len l) else bp)
  = (backlog_pos l + Z.of_nat (length q)) mod backlog_len l.
Proof.
  intros Hl. pose proof (br_pos _ _ R). pose proof (br_len _ _ R). rewrite (br_used _ _ R).
  cbv zeta. rewrite u32_small by lia. rewrite Z.geb_leb. destruct (Z.leb_spec (backlog_len l) (backlog_pos l + Z.of_nat (length q))).
  - rewrite u32_small by lia. rewrite mod_sub_once by lia. done.
  - by rewrite Z.mod_small by lia.
Qed.

Lemma backlog_has_ok p p' : p_ip p = p_ip p' -> p_tcp p = p_tcp p' -> forall q2 q1, q = q1 ++ q2 ->
  (q2 <> [] -> 0 < backlog_len l) ->
  backlog_has (length q2) l p ((backlog_pos l + Z.of_nat (length q1)) mod backlog_len l)
  = Ok (existsb (fun y => same_4tuple p' (pkt_of_bytes (syn_bytes y))) q2).
Proof.
  intros E1 E2. induction q2 as [|x q2 IH]; intros q1 Hq Hcap; [done|]. specialize (Hcap ltac:(done)).
  cbn [length backlog_has existsb].
  destruct (br_slots _ _ R (length q1) x) as (b & Eb & Hb & Ht & Hlen & _).
  { rewrite Hq. by apply list_lookup_middle. }
  pose proof (Z.mod_pos_bound (backlog_pos l + Z.of_nat (length q1)) (backlog_len l) Hcap) as Hbp.
  set (bp := (backlog_pos l + Z.of_nat (length q1)) mod backlog_len l) in *.
  rewrite (at_index_Ok _ _ _ (proj1 Hbp) Eb). osimpl. simpl bls_buf.
  destruct (headers_take (length (syn_bytes x)) b) as (_ & Hi & Hp);
    [unfold SIZEOF_PKT_TCP in *; lia|unfold BACKLOG_BUF in *; lia|].
  rewrite Ht in Hi, Hp. rewrite (same_4tuple_ext p p' _ _ E1 E2 Hi Hp).
  destruct (same_4tuple _ _); [done|]. rewrite (proj2 (Z.eqb_neq _ 0)) by lia. simpl orb.
  pose proof (br_len _ _ R). rewrite u32_small by lia.
  replace ((bp + 1) mod backlog_len l) with ((backlog_pos l + Z.of_nat (length (q1 ++ [x]))) mod backlog_len l).
  - apply IH; [by rewrite Hq, <- app_assoc|done].
  - unfold bp. rewrite Zplus_mod_idemp_l, length_app. f_equal. simpl. lia.
Qed.

Lemma slot_pos_range i : 0 < backlog_len l -> 0 <= (backlog_pos l + i) mod backlog_len l < backlog_len l.
Proof. intros H. by apply Z.mod_pos_bound. Qed.

(** Different positions have different slots. *)
Lemma slot_inj i j : 0 <= i < backlog_len l -> 0 <= j < backlog_len l -> i <> j ->
  Z.to_nat ((backlog_pos l + i) mod backlog_len l) <> Z.to_nat ((backlog_pos l + j) mod backlog_len l).
Proof.
  intros Hi Hj Hne E. pose proof (slot_pos_range i ltac:(lia)). pose proof (slot_pos_range j ltac:(lia)).
  assert ((backlog_pos l + i) mod backlog_len l = (backlog_pos l + j) mod backlog_len l) as E' by lia.
  set (L := backlog_len l) in *. rewrite !Z.mod_eq in E' by lia.
  set (a := (backlog_pos l + i) / L) in *. set (b := (backlog_pos l + j) / L) in *.
  assert (i - j = L * (a - b)) by lia. destruct (Z.lt_trichotomy a b) as [|[|]]; nia.
Qed.

Lemma has_dup p p' : p_ip p = p_ip p' -> p_tcp p = p_tcp p' ->
  backlog_has (Z.to_nat (backlog_used l)) l p (backlog_pos l)
  = Ok (existsb (fun y => same_4tuple p' (pkt_of_bytes (syn_bytes y))) q).
Proof.
  intros E1 E2. rewrite (br_used _ _ R), Nat2Z.id. destruct (decide (q = [])) as [->|Hq]; [done|].
  rewrite <- (pos_mod Hq). replace (backlog_pos l) with (backlog_pos l + Z.of_nat (@length syn [])) by (simpl; lia).
  apply (backlog_has_ok p p' E1 E2 q []); [done|intros _; by apply cap_pos].
Qed.

(** The copy of the SYN in its slot. *)
Lemma copy_in pkt len b : 0 <= len <= Z.of_nat (length pkt) -> len <= Z.of_nat (length b) ->
  (d ← mem_read pkt 0 len; mem_write b 0 d)
  = Ok (take (Z.to_nat len) pkt ++ drop (Z.to_nat len) b).
Proof.
  intros Hl Hb. rewrite mem_read_Ok by lia. osimpl. rewrite drop_0.
  rewrite mem_write_Ok by (rewrite ?length_take; lia). change (Z.to_nat 0) with 0%nat.
  rewrite take_0, length_take. simpl app. repeat f_equal. lia.
Qed.

(** Writing the slot behind the last one. *)
Lemma rep_add x buf : Z.of_nat (length q) < backlog_len l ->
  SIZEOF_PKT_TCP <= Z.of_nat (length (syn_bytes x)) <= BACKLOG_BUF ->
  Z.of_nat (length buf) = BACKLOG_BUF -> take (length (syn_bytes x)) buf = syn_bytes x ->
  let bp := Z.to_nat ((backlog_pos l + Z.of_nat (length q)) mod backlog_len l) in
  backlog_rep (mk_listener (li_opaque l) (li_ctx l) (li_app_next l) (li_db_id l) (backlog_len l) (backlog_pos l)
    (Z.of_nat (length q) + 1)
    (<[bp := mk_bls buf (Z.of_nat (length (syn_bytes x)))]> (backlog_ptrs l))
    (<[bp := syn_core x]> (backlog_cores l)) (<[bp := syn_fg x]> (backlog_fgs l))
    (wait_conns l) (li_port l) (li_flags l)) (q ++ [x]).
Proof.
  intros Hroom Hx Hbuf Htake bp. pose proof R as [].
  assert (0 < backlog_len l) as Hcap by lia. pose proof (slot_pos_range (Z.of_nat (length q)) Hcap) as Hbp.
  constructor; cbn [backlog_len backlog_pos backlog_used backlog_ptrs backlog_cores backlog_fgs]; try done;
    rewrite ?length_insert, ?length_app; try (simpl; lia).
  - by apply Forall_insert.
  - intros i y Hi. unfold slot_holds. cbn [backlog_pos backlog_len backlog_ptrs backlog_cores backlog_fgs].
    destruct (decide (i = length q)) as [->|Hne].
    + rewrite list_lookup_middle in Hi by done. injection Hi as <-. exists buf. fold bp.
      rewrite !list_lookup_insert_eq by lia. done.
    + rewrite lookup_app_l in Hi by (apply lookup_lt_Some in Hi; rewrite length_app in Hi; simpl in Hi; lia).
      pose proof (lookup_lt_Some _ _ _ Hi).
      assert (bp <> Z.to_nat ((backlog_pos l + Z.of_nat i) mod backlog_len l)) as Hd by (apply slot_inj; lia).
      rewrite !list_lookup_insert_ne by done. by apply br_slots0.
Qed.

Lemma rep_pop x q' : q = x :: q' -> backlog_rep (backlog_pop l) q' /\
  (exists buf, backlog_head l = Ok (mk_bls buf (Z.of_nat (length (syn_bytes x))), syn_core x, syn_fg x) /\
     Z.of_nat (length buf) = BACKLOG_BUF /\ take (length (syn_bytes x)) buf = syn_bytes x).
Proof.
  intros Hq. pose proof R as []. assert (q <> []) as Hne by (by rewrite Hq). pose proof (cap_pos Hne) as Hcap.
  assert (Z.of_nat (length q) = Z.of_nat (length q') + 1) as Hl by (rewrite Hq; simpl; lia). split.
  - unfold backlog_pop. simpl backlog_len. simpl backlog_pos.
    assert ((if u32 (backlog_pos l + 1) >=? backlog_len l then u32 (u32 (backlog_pos l + 1) - backlog_len l)
             else u32 (backlog_pos l + 1)) = (backlog_pos l + 1) mod backlog_len l) as ->.
    { rewrite (u32_small (backlog_pos l + 1)), Z.geb_leb by lia. destruct (Z.leb_spec (backlog_len l) (backlog_pos l + 1)).
      - rewrite u32_small by lia. rewrite mod_sub_once by lia. done.
      - by rewrite Z.mod_small by lia. }
    rewrite br_used0, u32_small by lia. pose proof (slot_pos_range 1 Hcap).
    constructor; simpl; try done; try lia. intros i y Hi.
    rewrite Zplus_mod_idemp_l, <- Z.add_assoc. replace (1 + Z.of_nat i) with (Z.of_nat (S i)) by lia.
    apply (br_slots0 (S i) y). by rewrite Hq.
  - destruct (br_slots0 0%nat x) as (buf & E1 & E2 & E3 & E4 & E5 & E6); [by rewrite Hq|].
    rewrite Z.add_0_r, (pos_mod Hne) in E1, E5, E6. exists buf. split; [|done]. unfold backlog_head.
    rewrite (at_index_Ok _ _ _ (proj1 br_pos0) E1), (at_index_Ok _ _ _ (proj1 br_pos0) E5),
      (at_index_Ok _ _ _ (proj1 br_pos0) E6). done.
Qed.

(** The [SYN] in [pkt] is whole. *)
Definition whole (pkt : list Z) : Prop :=
  40 <= ip_len (p_ip (pkt_of_bytes pkt)) < 65522 /\
  SIZEOF_ETH_HDR + ip_len (p_ip (pkt_of_bytes pkt)) <= Z.of_nat (length pkt).

(** The entry for the SYN in [pkt]: the frame, without what follows it in the buffer. *)
Definition syn_of (pkt : list Z) (core fg : Z) : syn :=
  mk_syn (take (Z.to_nat (SIZEOF_ETH_HDR + ip_len (p_ip (pkt_of_bytes pkt)))) pkt) core fg.

Lemma backlog_add_ok pkt core fg : whole pkt ->
  exists r, backlog_add l pkt core fg = Ok r /\
    match spec_add (backlog_len l) q (syn_of pkt core fg) with
    | None => r = None
    | Some q' => exists l', r = Some l' /\ backlog_rep l' q' /\
        li_opaque l' = li_opaque l /\ li_ctx l' = li_ctx l /\ li_db_id l' = li_db_id l /\ backlog_len l' = backlog_len l /\
        wait_conns l' = wait_conns l /\ li_port l' = li_port l /\ li_flags l' = li_flags l
    end.
Proof.
  intros [Hip Hfit]. set (len := SIZEOF_ETH_HDR + ip_len (p_ip (pkt_of_bytes pkt))) in *.
  pose proof R as []. assert (54 <= len < 65536) by (unfold len, SIZEOF_ETH_HDR; lia). unfold backlog_add, spec_add. cbv zeta.
  fold len. rewrite (u16_small len) by lia.
  assert (Z.of_nat (length (syn_bytes (syn_of pkt core fg))) = len) as El.
  { unfold syn_of. cbn [syn_bytes]. fold len. rewrite length_take. lia. }
  rewrite El, Z.gtb_ltb. destruct (Z.ltb_spec BACKLOG_BUF len); [by exists None|].
  destruct (headers_take (Z.to_nat len) pkt) as (_ & Hi & Hp); [lia|lia|].
  rewrite (has_dup _ (pkt_of_bytes (syn_bytes (syn_of pkt core fg))) Hi Hp). osimpl.
  destruct (existsb _ q); [by exists None|]. rewrite br_used0, Z.eqb_sym.
  destruct (Z.eqb_spec (Z.of_nat (length q)) (backlog_len l)); [by exists None|].
  assert (Z.of_nat (length q) < backlog_len l) as Hroom by lia. assert (0 < backlog_len l) as Hcap by lia.
  pose proof (tail_slot Hroom) as Htail. cbv zeta in Htail. rewrite br_used0 in Htail. rewrite Htail.
  pose proof (slot_pos_range (Z.of_nat (length q)) Hcap) as Hbp.
  rewrite !set_index_Ok by lia. osimpl.
  destruct (at_index_in (backlog_ptrs l) ((backlog_pos l + Z.of_nat (length q)) mod backlog_len l)) as (b & -> & Eb); [lia|].
  osimpl. assert (Z.of_nat (length (bls_buf b)) = BACKLOG_BUF) as Hb by exact (Forall_lookup_1 _ _ _ _ br_bufs0 Eb).
  pose proof (copy_in pkt len (bls_buf b) ltac:(lia) ltac:(lia)) as Hcopy.
  apply bind_Ok_inv in Hcopy as (d & Hd & Hw). rewrite Hd. osimpl. rewrite Hw. osimpl.
  rewrite set_index_Ok by lia. osimpl. eexists. split; [reflexivity|]. eexists. split; [reflexivity|].
  split; [|done]. cbn. rewrite br_used0, u32_small by lia.
  match goal with |- context [mk_bls ?buf len] => pose proof (rep_add (syn_of pkt core fg) buf Hroom) as Ra end.
  rewrite El in Ra. apply Ra; try done.
  - unfold SIZEOF_PKT_TCP. lia.
  - rewrite length_app, length_take, length_drop. lia.
  - unfold syn_of. cbn [syn_bytes]. fold len. rewrite take_app_length'; [done|]. rewrite !length_take. lia.
Qed.

(** A packet whose IP header gives another length than that of a whole frame: too
    few bytes for the headers, or a sum that leaves 16 bits. The slot takes that
    many bytes and keeps, behind them, what it held before. *)
Definition copied (pkt : list Z) : Z := u16 (SIZEOF_ETH_HDR + ip_len (p_ip (pkt_of_bytes pkt))).
Definition part_slot (pkt : list Z) (core fg : Z) (l' : listener) : Prop :=
  let n := copied pkt in
  let bp := (backlog_pos l + Z.of_nat (length q)) mod backlog_len l in
  exists b, backlog_ptrs l !! Z.to_nat bp = Some b /\
    l' = l <| backlog_cores := <[Z.to_nat bp := core]> (backlog_cores l) |>
           <| backlog_fgs := <[Z.to_nat bp := fg]> (backlog_fgs l) |>
           <| backlog_ptrs := <[Z.to_nat bp := mk_bls (take (Z.to_nat n) pkt ++ drop (Z.to_nat n) (bls_buf b)) n]>
                (backlog_ptrs l) |>
           <| backlog_used := backlog_used l + 1 |>.

Lemma backlog_add_part pkt core fg : BACKLOG_BUF < copied pkt \/ copied pkt <= Z.of_nat (length pkt) ->
  exists r, backlog_add l pkt core fg = Ok r /\
    if (BACKLOG_BUF <? copied pkt)
       || existsb (fun y => same_4tuple (pkt_of_bytes pkt) (pkt_of_bytes (syn_bytes y))) q
       || (Z.of_nat (length q) =? backlog_len l)
    then r = None else exists l', r = Some l' /\ part_slot pkt core fg l'.
Proof.
  intros Hfit. pose proof R as []. unfold backlog_add, part_slot. cbv zeta. fold (copied pkt).
  assert (0 <= copied pkt) as Hn by (apply Z.mod_pos_bound; lia).
  set (n := copied pkt) in *. rewrite Z.gtb_ltb.
  destruct (Z.ltb_spec BACKLOG_BUF n) as [|Hle]; [by exists None|].
  rewrite (has_dup _ (pkt_of_bytes pkt) eq_refl eq_refl). osimpl.
  destruct (existsb _ q); [by exists None|]. rewrite br_used0, Z.eqb_sym.
  destruct (Z.eqb_spec (Z.of_nat (length q)) (backlog_len l)); [by exists None|].
  assert (Z.of_nat (length q) < backlog_len l) as Hroom by lia. assert (0 < backlog_len l) as Hcap by lia.
  pose proof (tail_slot Hroom) as Htail. cbv zeta in Htail. rewrite br_used0 in Htail. rewrite Htail.
  pose proof (slot_pos_range (Z.of_nat (length q)) Hcap) as Hbp.
  rewrite !set_index_Ok by lia. osimpl.
  destruct (at_index_in (backlog_ptrs l) ((backlog_pos l + Z.of_nat (length q)) mod backlog_len l)) as (b & -> & Eb); [lia|].
  osimpl. assert (Z.of_nat (length (bls_buf b)) = BACKLOG_BUF) as Hb by exact (Forall_lookup_1 _ _ _ _ br_bufs0 Eb).
  pose proof (copy_in pkt n (bls_buf b) ltac:(lia) ltac:(lia)) as Hcopy.
  apply bind_Ok_inv in Hcopy as (d & Hd & Hw). rewrite Hd. osimpl. rewrite Hw. osimpl.
  rewrite set_index_Ok by lia. osimpl. eexists. split; [reflexivity|]. eexists. split; [reflexivity|].
  exists b. split; [done|]. cbn. rewrite br_used0, u32_small by lia. done.
Qed.

End Proofs.

(** No two entries are of the same connection. *)
Definition distinct_syns (q : list syn) : Prop := forall i j x y, q !! i = Some x -> q !! j = Some y -> i <> j ->
  same_4tuple (pkt_of_bytes (syn_bytes x)) (pkt_of_bytes (syn_bytes y)) = false.

Lemma same_4tuple_sym p q : same_4tuple p q = same_4tuple q p.
Proof.
  unfold same_4tuple. by rewrite (Z.eqb_sym (ip_src (p_ip p))), (Z.eqb_sym (ip_dest (p_ip p))),
    (Z.eqb_sym (tcp_src (p_tcp p))), (Z.eqb_sym (tcp_dest (p_tcp p))).
Qed.

Lemma spec_add_distinct cap q x q' : distinct_syns q -> spec_add cap q x = Some q' -> distinct_syns q'.
Proof.
  intros Hd E. unfold spec_add in E. destruct (_ <? _); [done|]. destruct (existsb _ q) eqn:Ex; [done|].
  destruct (_ =? _); [done|]. injection E as <-.
  assert (forall k y, q !! k = Some y -> same_4tuple (pkt_of_bytes (syn_bytes x)) (pkt_of_bytes (syn_bytes y)) = false) as Hx.
  { intros k y Ey. apply not_true_is_false. intros Et. apply not_true_iff_false in Ex. apply Ex, existsb_exists.
    exists y. split; [|done]. apply list_elem_of_In. by eapply list_elem_of_lookup_2. }
  intros i j a b Ha Hb Hij. apply lookup_app_Some in Ha, Hb.
  destruct Ha as [Ha|[Hi Ha]], Hb as [Hb|[Hj Hb]].
  - by apply (Hd i j).
  - apply list_lookup_singleton_Some in Hb as [_ <-]. rewrite same_4tuple_sym. by apply (Hx i).
  - apply list_lookup_singleton_Some in Ha as [_ <-]. by apply (Hx j).
  - apply list_lookup_singleton_Some in Ha as [? _], Hb as [? _]. lia.
Qed.

(** C30. The backlog of a listener implements a bounded queue with one entry of
    each connection: a whole SYN packet - its IP length covers the headers and,
    with the Ethernet header, neither leaves 16 bits nor the buffer - is added
    behind the others exactly when it is not too long, no waiting SYN has its
    addresses and ports, and there is room, and nothing else of the listener
    changes; the head of the ring is the oldest SYN, byte for byte, with its core
    and flow group, and taking it out leaves the others in order. Code bug: the IP
    length of the packet is not compared with anything else. One below 40, or one
    from 65522 on (the sum with the Ethernet header is cut to 16 bits), passes the
    same tests, but the entry has less than the headers of the packet, and behind
    them the bytes the slot held before. *)
Theorem backlog_refines l q : backlog_rep l q -> distinct_syns q ->
  (forall pkt core fg, whole pkt -> exists r, backlog_add l pkt core fg = Ok r /\
    match spec_add (backlog_len l) q (syn_of pkt core fg) with
    | None => r = None
    | Some q' => distinct_syns q' /\ exists l', r = Some l' /\ backlog_rep l' q' /\
        li_opaque l' = li_opaque l /\ li_ctx l' = li_ctx l /\ backlog_len l' = backlog_len l /\
        wait_conns l' = wait_conns l /\ li_port l' = li_port l /\ li_flags l' = li_flags l
    end) /\
  (forall pkt core fg, ~ 40 <= ip_len (p_ip (pkt_of_bytes pkt)) < 65522 ->
    BACKLOG_BUF < copied pkt \/ copied pkt <= Z.of_nat (length pkt) ->
    exists r, backlog_add l pkt core fg = Ok r /\
    if (BACKLOG_BUF <? copied pkt)
       || existsb (fun y => same_4tuple (pkt_of_bytes pkt) (pkt_of_bytes (syn_bytes y))) q
       || (Z.of_nat (length q) =? backlog_len l)
    then r = None else exists l', r = Some l' /\ part_slot l q pkt core fg l') /\
  (forall x q', q = x :: q' -> backlog_rep (backlog_pop l) q' /\
    exists buf, backlog_head l = Ok (mk_bls buf (Z.of_nat (length (syn_bytes x))), syn_core x, syn_fg x) /\
      take (length (syn_bytes x)) buf = syn_bytes x).
Proof.
  intros R Hd. split_and!.
  - intros pkt core fg Hw. destruct (backlog_add_ok l q R pkt core fg Hw) as (r & E & Hr).
    exists r. split; [done|]. destruct (spec_add _ q _) as [q'|] eqn:Es; [|done].
    split; [by eapply spec_add_distinct|]. destruct Hr as (l' & -> & R' & H1 & H2 & _ & H4 & H5 & H6 & H7). eauto 10.
  - intros pkt core fg _ Hf. by apply backlog_add_part.
  - intros x q' Hq. destruct (rep_pop l q R x q' Hq) as (R' & buf & E & _ & Ht). eauto.
Qed.

(** A new listener has an empty backlog. *)
Lemma new_listener_rep ctx opaque port backlog bls :
  0 <= backlog < 2147483648 -> Z.of_nat (length bls) = backlog ->
  Forall (fun s => Z.of_nat (length (bls_buf s)) = BACKLOG_BUF) bls ->
  backlog_rep (new_listener ctx opaque port backlog bls) [].
Proof. intros Hb Hl Hf. constructor; simpl; rewrite ?length_replicate; try done; lia. Qed.

(** The length of the copy is a 16-bit sum: an IP length of 65522 gives 0, which
    is not too long; nothing is copied, and the entry is what the slot held. *)
Lemma backlog_add_wraps l pkt core fg : backlog_rep l [] -> 0 < backlog_len l ->
  ip_len (p_ip (pkt_of_bytes pkt)) = 65522 ->
  exists l' s, backlog_add l pkt core fg = Ok (Some l') /\ backlog_used l' = 1 /\
    at_index (backlog_ptrs l) (backlog_pos l) = Ok s /\ backlog_head l' = Ok (mk_bls (bls_buf s) 0, core, fg).
Proof.
  intros R Hcap Hip. pose proof R as []. assert (backlog_pos l < backlog_len l) as Hp by lia.
  assert (backlog_used l = 0) as Hu by done.
  unfold backlog_add. rewrite Hip, Hu. cbv zeta. change (u16 (SIZEOF_ETH_HDR + 65522)) with 0.
  change (0 >? BACKLOG_BUF) with false. change (Z.to_nat 0) with 0%nat. cbn [backlog_has]. osimpl. rewrite (proj2 (Z.eqb_neq (backlog_len l) 0)) by lia.
  rewrite Z.add_0_r, (u32_small (backlog_pos l)), Z.geb_leb, (proj2 (Z.leb_gt _ _)) by lia.
  rewrite !set_index_Ok by lia. osimpl.
  destruct (at_index_in (backlog_ptrs l) (backlog_pos l)) as (s & -> & Es); [lia|]. osimpl.
  assert (mem_write (bls_buf s) 0 [] = Ok (bls_buf s)) as Hw.
  { rewrite mem_write_Ok by (simpl; lia). done. }
  rewrite mem_read_Ok by lia. change (Z.to_nat 0) with 0%nat. rewrite take_0. osimpl. rewrite Hw. osimpl.
  rewrite set_index_Ok by lia. osimpl. do 2 eexists. split; [reflexivity|]. split; [by cbn; rewrite Hu|]. split; [done|].
  unfold backlog_head. cbn.
  rewrite (at_index_Ok (<[_:=mk_bls (bls_buf s) 0]> _) _ (mk_bls (bls_buf s) 0)), (at_index_Ok (<[_:=core]> _) _ core),
    (at_index_Ok (<[_:=fg]> _) _ fg); rewrite ?list_lookup_insert_eq by lia; try lia; done.
Qed.

(** ** Witnesses *)
Module Demo.
Definition pkt (sport : Z) : list Z :=
  bytes_of_pkt (mk_pkt (mk_eth 7 5 ETH_TYPE_IP) (mk_ip 0x45 0 56 3 0 255 IP_PROTO_TCP 0 20 10)
    (mk_tcp sport 80 1000 0 (Z.lor (Z.shiftl 9 12) TCP_SYN) 11680 0 0) (replicate 16 1)).
Definition l : listener := new_listener 1 2 80 2 (replicate 2 (mk_bls (replicate 126 0) 0)).
End Demo.

Lemma backlog_refines_witness :
  distinct_syns [syn_of (Demo.pkt 4000) 0 0] /\ exists l', backlog_add Demo.l (Demo.pkt 4000) 0 0 = Ok (Some l') /\
    backlog_rep l' [syn_of (Demo.pkt 4000) 0 0].
Proof.
  assert (backlog_rep Demo.l []) as R.
  { apply new_listener_rep; [lia|reflexivity|]. repeat constructor. }
  assert (distinct_syns []) as Hd by (intros i j x y E; discriminate E).
  destruct (backlog_refines Demo.l [] R Hd) as [H _].
  assert (whole (Demo.pkt 4000)) as Hw by (vm_compute; split; [split; congruence|congruence]).
  destruct (H (Demo.pkt 4000) 0 0 Hw) as (r & E & Hr).
  replace (spec_add (backlog_len Demo.l) [] (syn_of (Demo.pkt 4000) 0 0))
    with (Some [syn_of (Demo.pkt 4000) 0 0]) in Hr by reflexivity.
  destruct Hr as (Hd' & l' & -> & R' & _). split; [exact Hd'|]. exists l'. split; [exact E|exact R'].
Defined.
