(* ===== verification/ConnTable.v ===== *)
(** * The hash table of connections (tas_nic/slow/tcp.c)

    Connections of a bucket are linked through their field [ht_next]. *)
From S2P Require Import Prelude RdmaQueue Packets SlowState.

#[local] Open Scope Z_scope.

Definition TCP_HTSIZE : Z := 4096.

(** The heads of the buckets; those that are not in the map are empty. *)
Abbreviation hashtable := (gmap Z (option Z)).
Definition bucket_head (ht : hashtable) (b : Z) : option Z := default None (ht !! b).

Definition set_ht_next (c : connection) (v : option Z) : connection := c <| ht_next := v |>.

Lemma get_conn_Ok h p c : h !! p = Some c -> get_conn h p = Ok c.
Proof. unfold get_conn. by intros ->. Qed.

(** The search for the predecessor of [conn] in a list linked by the field [next]. *)
Fixpoint find_before (next : connection -> option Z) (fuel : nat) (h : conn_heap) (cp : option Z) (conn : Z)
  : outcome Z :=
  match fuel with
  | O => Stop OutOfFuel
  | S fuel =>
      match cp with
      | None => Stop Aborted
      | Some p =>
          c ← get_conn h p;
          if bool_decide (next c = Some conn) then mret p else find_before next fuel h (next c) conn
      end
  end.

Definition chain_fuel (h : conn_heap) : nat := S (size h).

Section Table.
(** [rte_hash_crc_4byte] and [rte_hash_crc_8byte] of DPDK. *)
Context (crc4 : Z -> Z -> Z) (crc8 : Z -> Z -> Z).

Definition conn_hash (l_ip r_ip l_po r_po : Z) : Z :=
  crc4 (Z.lor l_po (Z.shiftl r_po 16)) (crc8 (Z.lor l_ip (Z.shiftl r_ip 32)) 0).

(** The bucket of a connection. *)
Definition conn_bucket (c : connection) : Z :=
  conn_hash (cn_local_ip c) (cn_remote_ip c) (cn_local_port c) (cn_remote_port c) mod TCP_HTSIZE.

Definition conn_register (h : conn_heap) (ht : hashtable) (conn : Z) : outcome (conn_heap * hashtable) :=
  c ← get_conn h conn;
  let b := conn_bucket c in
  mret (<[conn := set_ht_next c (bucket_head ht b)]> h, <[b := Some conn]> ht).

Definition conn_unregister (h : conn_heap) (ht : hashtable) (conn : Z) : outcome (conn_heap * hashtable) :=
  c ← get_conn h conn;
  let b := conn_bucket c in
  if bool_decide (bucket_head ht b = Some conn) then mret (h, <[b := ht_next c]> ht)
  else
    cp ← find_before ht_next (chain_fuel h) h (bucket_head ht b) conn;
    p ← get_conn h cp;
    mret (<[cp := set_ht_next p (ht_next c)]> h, ht).

(** The comparison in [conn_lookup]. *)
Definition conn_matches (p : pkt_tcp) (c : connection) : bool :=
  (ip_src (p_ip p) =? cn_remote_ip c) && (tcp_dest (p_tcp p) =? cn_local_port c)
  && (tcp_src (p_tcp p) =? cn_remote_port c).

Fixpoint chain_find (fuel : nat) (h : conn_heap) (o : option Z) (p : pkt_tcp) : outcome (option Z) :=
  match fuel with
  | O => Stop OutOfFuel
  | S fuel =>
      match o with
      | None => mret None
      | Some q =>
          c ← get_conn h q;
          if conn_matches p c then mret (Some q) else chain_find fuel h (ht_next c) p
      end
  end.

Definition packet_bucket (p : pkt_tcp) : Z :=
  conn_hash (ip_dest (p_ip p)) (ip_src (p_ip p)) (tcp_dest (p_tcp p)) (tcp_src (p_tcp p)) mod TCP_HTSIZE.

Definition conn_lookup (h : conn_heap) (ht : hashtable) (p : pkt_tcp) : outcome (option Z) :=
  chain_find (chain_fuel h) h (bucket_head ht (packet_bucket p)) p.

(** ** The table is a set of connections *)

Fixpoint ht_chain (h : conn_heap) (o : option Z) (l : list Z) : Prop :=
  match l with
  | [] => o = None
  | x :: l => o = Some x /\ exists c, h !! x = Some c /\ ht_chain h (ht_next c) l
  end.

(** [tbl b] are the connections of bucket [b], the newest first. *)
Record conn_table (h : conn_heap) (ht : hashtable) (tbl : Z -> list Z) : Prop := {
  ct_chain : forall b, ht_chain h (bucket_head ht b) (tbl b);
  ct_nodup : forall b, NoDup (tbl b);
  ct_bucket : forall b p c, p ∈ tbl b -> h !! p = Some c -> conn_bucket c = b;
}.

Definition upd_tbl (tbl : Z -> list Z) (b : Z) (l : list Z) (b' : Z) : list Z :=
  if b' =? b then l else tbl b'.

Lemma ht_chain_lookup h l : forall o, ht_chain h o l -> forall p, p ∈ l -> exists c, h !! p = Some c.
Proof.
  induction l as [|x l IH]; intros o H p Hp; [by apply elem_of_nil in Hp|].
  destruct H as (_ & c & Hc & H). apply elem_of_cons in Hp as [->|Hp]; [by exists c|by eapply IH].
Qed.

(** A chain does not depend on other connections, nor on other fields. *)
Lemma ht_chain_agree h h' l : (forall p, p ∈ l -> ht_next <$> h !! p = ht_next <$> h' !! p) ->
  forall o, ht_chain h o l -> ht_chain h' o l.
Proof.
  induction l as [|x l IH]; intros Ha o H; [done|]. destruct H as (-> & c & Hc & H). split; [done|].
  pose proof (Ha x ltac:(by left)) as E. rewrite Hc in E. simpl in E.
  destruct (h' !! x) as [c'|]; [|done]. injection E as E. exists c'. split; [done|]. rewrite <- E.
  apply IH; [|done]. intros p Hp. apply Ha. by right.
Qed.

Lemma ht_chain_put h p c v l o : p ∉ l -> ht_chain h o l -> ht_chain (<[p := set_ht_next c v]> h) o l.
Proof. intros Hp. apply ht_chain_agree. intros q Hq. rewrite lookup_insert_ne by (by intros ->). done. Qed.

Lemma tbl_fuel h ht tbl b : conn_table h ht tbl -> (length (tbl b) < chain_fuel h)%nat.
Proof.
  intros T. unfold chain_fuel. assert (length (tbl b) <= size h)%nat; [|lia]. apply NoDup_size; [|apply (ct_nodup _ _ _ T)].
  intros p Hp. by eapply ht_chain_lookup; [apply (ct_chain _ _ _ T)|].
Qed.

(** A connection is in the bucket of its addresses only. *)
Lemma tbl_other h ht tbl b b' p : conn_table h ht tbl -> p ∈ tbl b -> b' <> b -> p ∉ tbl b'.
Proof.
  intros T Hp Hb Hp'. destruct (ht_chain_lookup _ _ _ (ct_chain _ _ _ T b) p Hp) as [c Hc].
  apply Hb. rewrite <- (ct_bucket _ _ _ T b p c Hp Hc). symmetry. by apply (ct_bucket _ _ _ T b' p c).
Qed.

Lemma conn_register_ok h ht tbl p c : conn_table h ht tbl -> h !! p = Some c ->
  p ∉ tbl (conn_bucket c) ->
  exists h' ht', conn_register h ht p = Ok (h', ht') /\
    h' = <[p := set_ht_next c (bucket_head ht (conn_bucket c))]> h /\
    conn_table h' ht' (upd_tbl tbl (conn_bucket c) (p :: tbl (conn_bucket c))).
Proof.
  intros T Hc Hn. unfold conn_register. rewrite (get_conn_Ok _ _ _ Hc). osimpl. do 2 eexists. split; [reflexivity|]. split; [done|].
  set (b := conn_bucket c) in *. set (h' := <[p := _]> h).
  assert (forall b', p ∉ tbl b') as Hall.
  { intros b' Hp. assert (conn_bucket c = b') as E by (by eapply ct_bucket). apply Hn. unfold b. by rewrite E. }
  constructor.
  - intros b'. unfold upd_tbl, bucket_head. destruct (Z.eqb_spec b' b) as [->|Hne].
    + rewrite lookup_insert_eq. simpl. split; [done|]. exists (set_ht_next c (bucket_head ht b)).
      split; [by apply lookup_insert_eq|]. apply ht_chain_put; [done|apply (ct_chain _ _ _ T)].
    + rewrite lookup_insert_ne by done. apply ht_chain_put; [done|apply (ct_chain _ _ _ T)].
  - intros b'. unfold upd_tbl. destruct (b' =? b); [apply NoDup_cons; split; [done|]|]; apply (ct_nodup _ _ _ T).
  - intros b' q d Hq Hd. unfold upd_tbl in Hq. destruct (decide (q = p)) as [->|Hne].
    + unfold h' in Hd. rewrite lookup_insert_eq in Hd. injection Hd as <-.
      destruct (Z.eqb_spec b' b) as [Eb|]; [by rewrite Eb|]. by apply Hall in Hq.
    + unfold h' in Hd. rewrite lookup_insert_ne in Hd by done.
      destruct (Z.eqb_spec b' b) as [Eb|]; [rewrite Eb; apply elem_of_cons in Hq as [?|Hq]; [done|]|]; by eapply ct_bucket.
Qed.

(** ** Removal *)
Lemma ht_pred_ok h p c2 l1 : forall q l2 o fuel, ht_chain h o (l1 ++ q :: p :: l2) -> NoDup (l1 ++ q :: p :: l2) ->
  h !! q = Some c2 -> (length l1 < fuel)%nat -> find_before ht_next fuel h o p = Ok q.
Proof.
  induction l1 as [|x l1 IH]; intros q l2 o fuel H Hn Hq Hf.
  - destruct fuel as [|fuel]; [simpl in Hf; lia|]. destruct H as (-> & c & Hc & Hnx & _).
    cbn [find_before]. rewrite (get_conn_Ok _ _ _ Hc). osimpl. by rewrite Hnx, bool_decide_true.
  - destruct fuel as [|fuel]; [simpl in Hf; lia|]. destruct H as (-> & c & Hc & H).
    cbn [find_before]. rewrite (get_conn_Ok _ _ _ Hc). osimpl. apply NoDup_cons in Hn as [Hx Hn].
    rewrite bool_decide_false; [by eapply IH; try done; simpl in Hf; lia|].
    intros E. rewrite E in H. destruct l1 as [|y l1].
    + destruct H as [[= Epq] _]. apply NoDup_cons in Hn as [Hn _]. apply Hn. rewrite Epq. by left.
    + destruct H as [[= <-] _]. apply NoDup_cons in Hn as [Hn _]. apply Hn. apply elem_of_app. right. right. by left.
Qed.

Lemma ht_chain_unlink h p c q c2 l1 l2 : forall o, ht_chain h o (l1 ++ q :: p :: l2) -> NoDup (l1 ++ q :: p :: l2) ->
  h !! p = Some c -> h !! q = Some c2 ->
  ht_chain (<[q := set_ht_next c2 (ht_next c)]> h) o (l1 ++ q :: l2).
Proof.
  induction l1 as [|x l1 IH]; intros o H Hn Hp Hq.
  - destruct H as (-> & c2' & Hq' & _ & c' & Hp' & H). rewrite Hp in Hp'. injection Hp' as <-. split; [done|].
    eexists. split; [by apply lookup_insert_eq|]. simpl. apply ht_chain_put; [|done].
    apply NoDup_cons in Hn as [Hn _]. intros ?. apply Hn. by right.
  - destruct H as (-> & d & Hd & H). apply NoDup_cons in Hn as [Hx Hn]. split; [done|]. exists d.
    split; [|by apply IH]. rewrite lookup_insert_ne; [done|]. intros <-. apply Hx. apply elem_of_app. right. by left.
Qed.

(** The table without a connection. *)
Definition without (tbl : Z -> list Z) (p : Z) (b : Z) : list Z := filter (fun q => q <> p) (tbl b).

Lemma without_other h ht tbl b b' p : conn_table h ht tbl -> p ∈ tbl b -> b' <> b -> without tbl p b' = tbl b'.
Proof.
  intros T Hp Hb. apply filter_all, Forall_forall. intros q Hq ->. by apply (tbl_other h ht tbl b b' p).
Qed.

(** Other changes of the heap keep the table. *)
Lemma conn_table_sub h h' ht ht' tbl tbl' : conn_table h ht tbl ->
  (forall b, ht_chain h' (bucket_head ht' b) (tbl' b)) -> (forall b, sublist (tbl' b) (tbl b)) ->
  (forall q d', h' !! q = Some d' -> exists d, h !! q = Some d /\ conn_bucket d' = conn_bucket d) ->
  conn_table h' ht' tbl'.
Proof.
  intros T Hch Hsub Hh. constructor; [done|intros b; eapply sublist_NoDup; [apply (ct_nodup _ _ _ T)|apply Hsub]|].
  intros b q d' Hq Hd'. destruct (Hh q d' Hd') as (d & Hd & ->). eapply (ct_bucket _ _ _ T); [|done].
  eapply sublist_subseteq in Hq; [done|apply Hsub].
Qed.

(** What [conn_unregister] changes: one link, of another connection in [l]. *)
Definition one_link (h h' : conn_heap) (l : list Z) (p : Z) : Prop :=
  h' = h \/ exists q d v, q <> p /\ q ∈ l /\ h !! q = Some d /\ h' = <[q := set_ht_next d v]> h.

Lemma conn_unregister_ok h ht tbl p c : conn_table h ht tbl -> h !! p = Some c -> p ∈ tbl (conn_bucket c) ->
  exists h' ht', conn_unregister h ht p = Ok (h', ht') /\ one_link h h' (tbl (conn_bucket c)) p /\ conn_table h' ht' (without tbl p).
Proof.
  intros T Hc Hp. set (b := conn_bucket c) in *. pose proof (ct_nodup _ _ _ T b) as Hn.
  pose proof (ct_chain _ _ _ T b) as Hch. pose proof (tbl_fuel _ _ _ b T) as Hf.
  unfold conn_unregister. rewrite (get_conn_Ok _ _ _ Hc). osimpl. fold b.
  assert (forall b', sublist (without tbl p b') (tbl b')) as Hsub by (intros b'; apply sublist_filter).
  apply list_elem_of_split in Hp as (A & B & E).
  assert (without tbl p b = A ++ B) as Ew by (unfold without; rewrite E in *; by apply filter_neq_app).
  assert (forall b', b' <> b -> without tbl p b' = tbl b') as Hw.
  { intros b' Hb'. eapply without_other; [done| |done]. rewrite E. apply elem_of_app. right. by left. }
  rewrite E in *. destruct A as [|a A _] using rev_ind.
  - destruct Hch as (Eh & c' & Hc' & Hch). rewrite Hc in Hc'. injection Hc' as <-.
    rewrite Eh, bool_decide_true by done. do 2 eexists. split; [reflexivity|]. split; [by left|].
    apply (conn_table_sub h h ht _ tbl); try done; [|by eauto].
    intros b'. destruct (decide (b' = b)) as [->|Hb'].
    + unfold bucket_head. by rewrite lookup_insert_eq, Ew.
    + unfold bucket_head. rewrite lookup_insert_ne, Hw by done. apply (ct_chain _ _ _ T).
  - rewrite <- app_assoc in E, Hch, Hn, Hf, Ew. simpl in E, Hch, Hn, Hf, Ew.
    destruct (ht_chain_lookup _ _ _ Hch a) as [c2 Hc2]; [apply elem_of_app; right; by left|].
    assert (bucket_head ht b <> Some p) as Hne.
    { intros Eh. rewrite Eh in Hch. destruct A as [|x A]; destruct Hch as [[= <-] _]; simpl in Hn.
      - apply NoDup_cons in Hn as [Hn _]. apply Hn. by left.
      - apply NoDup_cons in Hn as [Hn _]. apply Hn. apply elem_of_app. right. right. by left. }
    rewrite bool_decide_false by done. rewrite (ht_pred_ok h p c2 A a B _ _ Hch Hn Hc2) by (rewrite length_app in Hf; lia).
    osimpl. rewrite (get_conn_Ok _ _ _ Hc2). osimpl. do 2 eexists. split; [reflexivity|].
    assert (a <> p) as Hap.
    { intros ->. apply NoDup_app in Hn as (_ & _ & Hn). apply NoDup_cons in Hn as [Hn _]. apply Hn. by left. }
    split.
    { right. exists a, c2, (ht_next c). split_and!; try done.
      apply elem_of_app. left. apply elem_of_app. right. by left. } apply (conn_table_sub h _ ht ht tbl); try done.
    + intros b'. destruct (decide (b' = b)) as [->|Hb'].
      * rewrite Ew. by apply (ht_chain_unlink h p c a c2 A B).
      * rewrite Hw by done. apply ht_chain_put; [|apply (ct_chain _ _ _ T)]. eapply (tbl_other h ht tbl b); [done| |done].
        rewrite E. apply elem_of_app. right. by left.
    + intros q d' Hq. destruct (decide (q = a)) as [->|Hqa].
      * rewrite lookup_insert_eq in Hq. injection Hq as <-. by exists c2.
      * rewrite lookup_insert_ne in Hq by done. by exists d'.
Qed.

(** ** Look-up *)
Lemma chain_find_ok h p l : forall o fuel, ht_chain h o l -> (length l < fuel)%nat ->
  exists r, chain_find fuel h o p = Ok r /\
    match r with
    | Some q => q ∈ l /\ exists c, h !! q = Some c /\ conn_matches p c = true
    | None => forall q c, q ∈ l -> h !! q = Some c -> conn_matches p c = false
    end.
Proof.
  induction l as [|x l IH]; intros o fuel H Hf; (destruct fuel as [|fuel]; [simpl in Hf; lia|]).
  - rewrite H. exists None. split; [done|]. intros q c Hq. by apply elem_of_nil in Hq.
  - destruct H as (-> & c & Hc & H). cbn [chain_find]. rewrite (get_conn_Ok _ _ _ Hc). osimpl.
    destruct (conn_matches p c) eqn:Em.
    { exists (Some x). split; [done|]. split; [by left|by exists c]. }
    destruct (IH (ht_next c) fuel H) as (r & -> & Hr); [simpl in Hf; lia|]. exists r. split; [done|].
    destruct r as [q|].
    + destruct Hr as [Hq Hr]. split; [by right|done].
    + intros q c' Hq Hc'. apply elem_of_cons in Hq as [->|Hq]; [congruence|by eapply Hr].
Qed.

(** [p] is a packet of the connection [c]. *)
Definition packet_of (p : pkt_tcp) (c : connection) : Prop :=
  ip_dest (p_ip p) = cn_local_ip c /\ conn_matches p c = true.

Lemma packet_of_bucket p c : packet_of p c -> conn_bucket c = packet_bucket p.
Proof.
  unfold packet_of, conn_matches, conn_bucket, packet_bucket. intros [-> Hm].
  apply andb_prop in Hm as [[H1 H2]%andb_prop H3]. apply Z.eqb_eq in H1, H2, H3. by rewrite H1, H2, H3.
Qed.

Lemma conn_lookup_ok h ht tbl p : conn_table h ht tbl ->
  exists r, conn_lookup h ht p = Ok r /\
    match r with
    | Some q => exists c, h !! q = Some c /\ q ∈ tbl (conn_bucket c) /\ conn_matches p c = true
    | None => forall q c, h !! q = Some c -> q ∈ tbl (conn_bucket c) -> ~ packet_of p c
    end.
Proof.
  intros T. destruct (chain_find_ok h p (tbl (packet_bucket p)) (bucket_head ht (packet_bucket p)) (chain_fuel h))
    as (r & E & Hr); [apply (ct_chain _ _ _ T)|by eapply tbl_fuel|].
  exists r. split; [done|]. destruct r as [q|].
  - destruct Hr as (Hq & c & Hc & Hm). exists c. by rewrite (ct_bucket _ _ _ T _ q c Hq Hc).
  - intros q c Hc Hq Hp. rewrite (packet_of_bucket p c Hp) in Hq. destruct Hp as [_ Hp].
    by rewrite (Hr q c Hq Hc) in Hp.
Qed.

(** C31. The hash table is a set of connections: a connection that is registered
    is added, and one that is unregistered is taken out wherever it is in the
    chain of its bucket, with every other connection kept and only links changed;
    a packet is given to a registered connection with its ports and remote
    address, and there is always one when the packet is of a registered
    connection. The walks along a chain end. *)
Theorem conn_table_correct h ht tbl : conn_table h ht tbl ->
  (forall p c, h !! p = Some c -> p ∉ tbl (conn_bucket c) -> exists h' ht',
     conn_register h ht p = Ok (h', ht') /\ h' = <[p := set_ht_next c (bucket_head ht (conn_bucket c))]> h /\
     conn_table h' ht' (upd_tbl tbl (conn_bucket c) (p :: tbl (conn_bucket c)))) /\
  (forall p c, h !! p = Some c -> p ∈ tbl (conn_bucket c) -> exists h' ht',
     conn_unregister h ht p = Ok (h', ht') /\ one_link h h' (tbl (conn_bucket c)) p /\ conn_table h' ht' (without tbl p)) /\
  (forall p, exists r, conn_lookup h ht p = Ok r /\
     match r with
     | Some q => exists c, h !! q = Some c /\ q ∈ tbl (conn_bucket c) /\ conn_matches p c = true
     | None => forall q c, h !! q = Some c -> q ∈ tbl (conn_bucket c) -> ~ packet_of p c
     end).
Proof.
  intros T. split_and!.
  - intros p c Hc Hp. destruct (conn_register_ok h ht tbl p c T Hc Hp) as (h' & ht' & E & Eh & T'). eauto.
  - intros p c Hc Hp. by apply (conn_unregister_ok h ht tbl p c).
  - intros p. by apply conn_lookup_ok.
Qed.

End Table.

(** ** Witnesses *)
Module Demo.
Definition crc (w init : Z) : Z := 0.
Definition cc0 : connection_cc :=
  mk_cc 0 0 0 0 0 0 0 0 (mk_dwin 0 0 true) (mk_timely 0 0 0 0 0 true) (mk_drate 0 0 0 0 0 0 true) 0 0 None.
Definition q0 : rdma_queue :=
  RdmaQueue.mk_queue 0 0 0 0 (mk_endpoint 0 0 0 0) (mk_endpoint 0 0 0 0) false false [].
Definition conn (rport : Z) (nx : option Z) : connection :=
  mk_conn 0 0 None 0 0 0 q0 q0 20 10 rport 80 CONN_OPEN 0 0 0 0 0 false cc0 nx 0 0 0 0.
Definition h : conn_heap := {[ 300 := conn 3 (Some 200); 200 := conn 2 (Some 100); 100 := conn 1 None ]}.
Definition ht : hashtable := {[ 0 := Some 300 ]}.
Definition tbl (b : Z) : list Z := if b =? 0 then [300; 200; 100] else [].

Lemma table : conn_table crc crc h ht tbl.
Proof.
  constructor; intros b.
  - unfold tbl, bucket_head, ht. destruct (Z.eqb_spec b 0) as [->|].
    + repeat (split; [reflexivity|]; eexists; split; [reflexivity|]). reflexivity.
    + by rewrite lookup_singleton_ne by done.
  - unfold tbl. destruct (b =? 0); [|constructor]. apply (bool_decide_unpack _). by vm_compute.
  - intros p c Hp _. unfold tbl in Hp. destruct (Z.eqb_spec b 0) as [->|]; [done|]. by apply elem_of_nil in Hp.
Qed.
End Demo.

Lemma conn_table_correct_witness :
  exists h' ht', conn_unregister Demo.crc Demo.crc Demo.h Demo.ht 200 = Ok (h', ht') /\
    conn_table Demo.crc Demo.crc h' ht' (without Demo.tbl 200) /\ without Demo.tbl 200 0 = [300; 100].
Proof.
  destruct (conn_table_correct Demo.crc Demo.crc Demo.h Demo.ht Demo.tbl Demo.table) as (_ & Hu & _).
  destruct (Hu 200 (Demo.conn 2 (Some 100))) as (h' & ht' & E & _ & T).
  - reflexivity.
  - right. left.
  - exists h', ht'. split; [exact E|]. split; [exact T|]. reflexivity.
Defined.
