(* ===== verification/AppMsg.v ===== *)
(** * Messages between applications and the slow path (include/kernel_appif.h)

    Entries of 64 bytes of the queues of an application context: a union of 63
    bytes, then the type. *)
From S2P Require Import Prelude Wire.

#[local] Open Scope Z_scope.

(** ** From the slow path to the application *)
Definition KERNEL_APPIN_STATUS_CONN_CLOSE : Z := 1.
Definition KERNEL_APPIN_STATUS_CONN_MOVE : Z := 2.
Definition KERNEL_APPIN_STATUS_LISTEN_OPEN : Z := 3.
Definition KERNEL_APPIN_STATUS_LISTEN_CLOSE : Z := 4.
Definition KERNEL_APPIN_STATUS_REQ_SCALE : Z := 5.
Definition KERNEL_APPIN_CONN_OPENED : Z := 6.
Definition KERNEL_APPIN_LISTEN_NEWCONN : Z := 7.
Definition KERNEL_APPIN_ACCEPTED_CONN : Z := 8.
Definition SIZEOF_KERNEL_APPIN : Z := 64.

Record kernel_appin_conn_opened := mk_ai_opened {
  aio_rx_off : Z; aio_tx_off : Z; aio_seq_rx : Z; aio_seq_tx : Z; aio_flow_id : Z;
  aio_local_ip : Z; aio_local_port : Z; aio_fn_core : Z;
}.
Record kernel_appin_accept_conn := mk_ai_accept {
  aia_rx_off : Z; aia_tx_off : Z; aia_seq_rx : Z; aia_seq_tx : Z; aia_flow_id : Z;
  aia_local_ip : Z; aia_remote_ip : Z; aia_remote_port : Z; aia_fn_core : Z;
}.

(** [struct kernel_appin]. The entries that report a failure only have their
    opaque value and status. *)
Inductive kernel_appin :=
| AppinStatus (type opaque status : Z)
| AppinConnOpened (opaque : Z) (d : kernel_appin_conn_opened)
| AppinConnFailed (opaque status : Z)
| AppinNewconn (opaque remote_ip remote_port : Z)
| AppinAccepted (opaque : Z) (d : kernel_appin_accept_conn)
| AppinAcceptFailed (opaque status : Z).

(** Fields that are not written hold what was on the stack, here zeroes. *)
Definition pad_entry (type : Z) (d : list Z) : list Z :=
  d ++ replicate (63 - length d) 0 ++ le_bytes 1 type.

Definition encode_appin (e : kernel_appin) : list Z :=
  match e with
  | AppinStatus t o st => pad_entry t (le_bytes 8 o ++ le_bytes 4 (u32 st))
  | AppinConnOpened o d =>
      pad_entry KERNEL_APPIN_CONN_OPENED
        (le_bytes 8 o ++ le_bytes 8 (aio_rx_off d) ++ le_bytes 8 (aio_tx_off d) ++ le_bytes 4 0
         ++ le_bytes 4 (aio_seq_rx d) ++ le_bytes 4 (aio_seq_tx d) ++ le_bytes 4 (aio_flow_id d)
         ++ le_bytes 4 (aio_local_ip d) ++ le_bytes 2 (aio_local_port d) ++ le_bytes 2 (aio_fn_core d))
  | AppinConnFailed o st =>
      pad_entry KERNEL_APPIN_CONN_OPENED (le_bytes 8 o ++ replicate 16 0 ++ le_bytes 4 (u32 st))
  | AppinNewconn o ip port =>
      pad_entry KERNEL_APPIN_LISTEN_NEWCONN (le_bytes 8 o ++ le_bytes 4 ip ++ le_bytes 2 port)
  | AppinAccepted o d =>
      pad_entry KERNEL_APPIN_ACCEPTED_CONN
        (le_bytes 8 o ++ le_bytes 8 (aia_rx_off d) ++ le_bytes 8 (aia_tx_off d) ++ le_bytes 4 0
         ++ le_bytes 4 (aia_seq_rx d) ++ le_bytes 4 (aia_seq_tx d) ++ le_bytes 4 (aia_flow_id d)
         ++ le_bytes 4 (aia_local_ip d) ++ le_bytes 4 (aia_remote_ip d)
         ++ le_bytes 2 (aia_remote_port d) ++ le_bytes 2 (aia_fn_core d))
  | AppinAcceptFailed o st =>
      pad_entry KERNEL_APPIN_ACCEPTED_CONN (le_bytes 8 o ++ replicate 16 0 ++ le_bytes 4 (u32 st))
  end.

(** ** From the application to the slow path *)
Definition KERNEL_APPOUT_CONN_OPEN : Z := 1.
Definition KERNEL_APPOUT_CONN_CLOSE : Z := 2.
Definition KERNEL_APPOUT_CONN_MOVE : Z := 3.
Definition KERNEL_APPOUT_LISTEN_OPEN : Z := 4.
Definition KERNEL_APPOUT_LISTEN_CLOSE : Z := 5.
Definition KERNEL_APPOUT_ACCEPT_CONN : Z := 6.
Definition KERNEL_APPOUT_REQ_SCALE : Z := 7.
Definition KERNEL_APPOUT_LISTEN_REUSEPORT : Z := 1.
Definition SIZEOF_KERNEL_APPOUT : Z := 64.

Record kernel_appout_conn_open := mk_ao_open {
  ao_opaque : Z; ao_remote_ip : Z; ao_flags : Z; ao_remote_port : Z; ao_opaque_tx : Z; ao_opaque_rx : Z;
  ao_lkey : Z; ao_rkey : Z;
}.
Record kernel_appout_conn_id := mk_ao_id {
  ai_opaque : Z; ai_remote_ip : Z; ai_local_ip : Z; ai_remote_port : Z; ai_local_port : Z;
}.
Record kernel_appout_accept_conn := mk_ao_accept {
  aa_listen_opaque : Z; aa_conn_opaque : Z; aa_local_port : Z; aa_opaque_tx : Z; aa_opaque_rx : Z;
  aa_lkey : Z; aa_rkey : Z;
}.

Inductive kernel_appout :=
| AppoutOpen (d : kernel_appout_conn_open)
| AppoutClose (d : kernel_appout_conn_id) (flags : Z)
| AppoutMove (d : kernel_appout_conn_id) (db_id : Z)
| AppoutListen (opaque backlog local_port flags : Z)
| AppoutListenClose (opaque local_port : Z)
| AppoutAccept (d : kernel_appout_accept_conn)
| AppoutScale (num_cores : Z)
| AppoutOther (type : Z).

Definition encode_appout (e : kernel_appout) : list Z :=
  match e with
  | AppoutOpen d =>
      pad_entry KERNEL_APPOUT_CONN_OPEN
        (le_bytes 8 (ao_opaque d) ++ le_bytes 4 (ao_remote_ip d) ++ le_bytes 4 (ao_flags d)
         ++ le_bytes 2 (ao_remote_port d) ++ le_bytes 8 (ao_opaque_tx d) ++ le_bytes 8 (ao_opaque_rx d)
         ++ le_bytes 4 (ao_lkey d) ++ le_bytes 4 (ao_rkey d))
  | AppoutClose d flags =>
      pad_entry KERNEL_APPOUT_CONN_CLOSE
        (le_bytes 8 (ai_opaque d) ++ le_bytes 4 (ai_remote_ip d) ++ le_bytes 4 (ai_local_ip d)
         ++ le_bytes 2 (ai_remote_port d) ++ le_bytes 2 (ai_local_port d) ++ le_bytes 4 flags)
  | AppoutMove d db =>
      pad_entry KERNEL_APPOUT_CONN_MOVE
        (le_bytes 8 (ai_opaque d) ++ le_bytes 4 (ai_remote_ip d) ++ le_bytes 4 (ai_local_ip d)
         ++ le_bytes 2 (ai_remote_port d) ++ le_bytes 2 (ai_local_port d) ++ le_bytes 2 db)
  | AppoutListen o b port flags =>
      pad_entry KERNEL_APPOUT_LISTEN_OPEN
        (le_bytes 8 o ++ le_bytes 4 b ++ le_bytes 2 port ++ le_bytes 1 flags)
  | AppoutListenClose o port =>
      pad_entry KERNEL_APPOUT_LISTEN_CLOSE (le_bytes 8 o ++ le_bytes 2 port)
  | AppoutAccept d =>
      pad_entry KERNEL_APPOUT_ACCEPT_CONN
        (le_bytes 8 (aa_listen_opaque d) ++ le_bytes 8 (aa_conn_opaque d) ++ le_bytes 2 (aa_local_port d)
         ++ le_bytes 8 (aa_opaque_tx d) ++ le_bytes 8 (aa_opaque_rx d) ++ le_bytes 4 (aa_lkey d)
         ++ le_bytes 4 (aa_rkey d))
  | AppoutScale n => pad_entry KERNEL_APPOUT_REQ_SCALE (le_bytes 4 n)
  | AppoutOther t => pad_entry t []
  end.

Definition decode_conn_id (b : list Z) : kernel_appout_conn_id :=
  mk_ao_id (get_le b 0 8) (get_le b 8 4) (get_le b 12 4) (get_le b 16 2) (get_le b 18 2).

Definition decode_appout (b : list Z) : kernel_appout :=
  let t := get_le b 63 1 in
  if t =? KERNEL_APPOUT_CONN_OPEN then
    AppoutOpen (mk_ao_open (get_le b 0 8) (get_le b 8 4) (get_le b 12 4) (get_le b 16 2) (get_le b 18 8)
      (get_le b 26 8) (get_le b 34 4) (get_le b 38 4))
  else if t =? KERNEL_APPOUT_CONN_CLOSE then AppoutClose (decode_conn_id b) (get_le b 20 4)
  else if t =? KERNEL_APPOUT_CONN_MOVE then AppoutMove (decode_conn_id b) (get_le b 20 2)
  else if t =? KERNEL_APPOUT_LISTEN_OPEN then
    AppoutListen (get_le b 0 8) (get_le b 8 4) (get_le b 12 2) (get_le b 14 1)
  else if t =? KERNEL_APPOUT_LISTEN_CLOSE then AppoutListenClose (get_le b 0 8) (get_le b 8 2)
  else if t =? KERNEL_APPOUT_ACCEPT_CONN then
    AppoutAccept (mk_ao_accept (get_le b 0 8) (get_le b 8 8) (get_le b 16 2) (get_le b 18 8) (get_le b 26 8)
      (get_le b 34 4) (get_le b 38 4))
  else if t =? KERNEL_APPOUT_REQ_SCALE then AppoutScale (get_le b 0 4)
  else AppoutOther t.

(** ** Round trips *)
Definition conn_id_ok (d : kernel_appout_conn_id) : Prop :=
  word_ok 8 (ai_opaque d) /\ word_ok 4 (ai_remote_ip d) /\ word_ok 4 (ai_local_ip d) /\
  word_ok 2 (ai_remote_port d) /\ word_ok 2 (ai_local_port d).
Definition appout_ok (e : kernel_appout) : Prop :=
  match e with
  | AppoutOpen d =>
      word_ok 8 (ao_opaque d) /\ word_ok 4 (ao_remote_ip d) /\ word_ok 4 (ao_flags d) /\
      word_ok 2 (ao_remote_port d) /\ word_ok 8 (ao_opaque_tx d) /\ word_ok 8 (ao_opaque_rx d) /\
      word_ok 4 (ao_lkey d) /\ word_ok 4 (ao_rkey d)
  | AppoutClose d flags => conn_id_ok d /\ word_ok 4 flags
  | AppoutMove d db => conn_id_ok d /\ word_ok 2 db
  | AppoutListen o b port flags => word_ok 8 o /\ word_ok 4 b /\ word_ok 2 port /\ word_ok 1 flags
  | AppoutListenClose o port => word_ok 8 o /\ word_ok 2 port
  | AppoutAccept d =>
      word_ok 8 (aa_listen_opaque d) /\ word_ok 8 (aa_conn_opaque d) /\ word_ok 2 (aa_local_port d) /\
      word_ok 8 (aa_opaque_tx d) /\ word_ok 8 (aa_opaque_rx d) /\ word_ok 4 (aa_lkey d) /\ word_ok 4 (aa_rkey d)
  | AppoutScale n => word_ok 4 n
  | AppoutOther t => word_ok 1 t /\ (t = 0 \/ KERNEL_APPOUT_REQ_SCALE < t)
  end.

Lemma length_pad_entry t d : (length d <= 63)%nat -> length (pad_entry t d) = 64%nat.
Proof. intros Hd. unfold pad_entry. rewrite !length_app, length_replicate, length_le_bytes. lia. Qed.

Lemma entry_type t d : (length d <= 63)%nat -> word_ok 1 t -> get_le (pad_entry t d) 63 1 = t.
Proof.
  intros Hd Ht. unfold pad_entry. rewrite app_assoc, <- (app_nil_r (le_bytes 1 t)).
  apply get_le_here; [|done]. rewrite length_app, length_replicate. lia.
Qed.

Ltac entry_roundtrip :=
  cbv zeta; rewrite entry_type by (rewrite ?length_app, ?length_le_bytes; simpl; lia || by vm_compute);
  closed_ifs; unfold decode_conn_id, pad_entry; f_equal; try f_equal;
  layout_lookup; field_values; reflexivity.

Lemma appout_roundtrip e : appout_ok e ->
  decode_appout (encode_appout e) = e /\ Z.of_nat (length (encode_appout e)) = SIZEOF_KERNEL_APPOUT.
Proof.
  intros He. split.
  - destruct e as [[]|[] f|[] db|o b p f|o p|[]|n|t]; cbn in He; cbn [encode_appout]; unfold decode_appout.
    8: { destruct He as [Ht Hn]. cbv zeta. rewrite entry_type by (simpl; lia || done).
         unfold KERNEL_APPOUT_REQ_SCALE in *. change (256 ^ Z.of_nat 1) with 256 in Ht.
         rewrite !(proj2 (Z.eqb_neq t _)) by
           (unfold KERNEL_APPOUT_CONN_OPEN, KERNEL_APPOUT_CONN_CLOSE, KERNEL_APPOUT_CONN_MOVE,
              KERNEL_APPOUT_LISTEN_OPEN, KERNEL_APPOUT_LISTEN_CLOSE, KERNEL_APPOUT_ACCEPT_CONN; lia).
         done. }
    all: unfold conn_id_ok in *; destruct_and?; entry_roundtrip.
  - unfold SIZEOF_KERNEL_APPOUT. destruct e; cbn [encode_appout]; rewrite length_pad_entry; try done;
      rewrite ?length_app, ?length_le_bytes; simpl; lia.
Qed.
