(* ===== verification/TcpWire.v ===== *)
(** * Packets of the TCP slow path (tas_nic/slow/tcp.c)

    Control packets, which open, refuse and acknowledge connections, and the
    parsing of the options of what is received. *)
From S2P Require Import Prelude RdmaQueue Packets FlowState FastCtx Wire FlowTable Arp SlowState.

#[local] Open Scope Z_scope.

Definition TCP_MSS : Z := 1460.

(** ** Options

    [struct tcp_opts]: the pointers to the options, as offsets from [p + 1]. *)
Record tcp_opts := mk_opts { opt_mss : option Z; opt_ts : option Z }.
#[export] Instance eta_opts : Eta tcp_opts := fun o => mk_opts (opt_mss o) (opt_ts o).

Definition on_slow_opt (opt_kind opt_len off : Z) (opts : tcp_opts) : option tcp_opts :=
  if opt_kind =? TCP_OPT_MSS then
    if negb (opt_len =? SIZEOF_MSS_OPT) then None else Some (opts <| opt_mss := Some off |>)
  else if opt_kind =? TCP_OPT_TIMESTAMP then
    if negb (opt_len =? SIZEOF_TIMESTAMP_OPT) then None else Some (opts <| opt_ts := Some off |>)
  else Some opts.

Definition parse_options (p : pkt_tcp) (len : Z) : outcome (Z * tcp_opts) :=
  let opts := mk_opts None None in
  let opts_len := u16 (TCPH_HDRLEN (p_tcp p) * 4 - 20) in
  if (TCPH_HDRLEN (p_tcp p) <? 5) || (opts_len >? u64 (len - SIZEOF_PKT_TCP)) then mret (-1, opts)
  else walk_options on_slow_opt opt_fuel (p_rest p) opts_len 0 opts.

(** The value of the MSS option at [off]. *)
Definition mss_val (b : list Z) (off : Z) : outcome Z :=
  d ← mem_read b (off + 2) 2; mret (be32 d).

(** ** Sending *)
Section Send.
Context `{Checksums} (eth_addr : Z) (cfg : configuration).

Definition control_optlen (ts_opt : bool) (mss_opt : Z) : Z :=
  let optlen := if c_true mss_opt then SIZEOF_MSS_OPT else 0 in
  let optlen := optlen + (if ts_opt then SIZEOF_TIMESTAMP_OPT else 0) in
  Z.land (optlen + 3) (Z.lnot 3).

(** The bytes after the header. *)
Definition control_options (ts_opt : bool) (ts_echo mss_opt : Z) : outcome (list Z) :=
  let off_mss := 0 in
  let off_ts := if c_true mss_opt then SIZEOF_MSS_OPT else 0 in
  let rest := replicate (Z.to_nat (control_optlen ts_opt mss_opt)) 0 in
  rest ← (if c_true mss_opt
          then mem_write rest off_mss ([TCP_OPT_MSS; SIZEOF_MSS_OPT] ++ to_be16 mss_opt)
          else mret rest);
  if ts_opt
  then mem_write rest off_ts ([TCP_OPT_TIMESTAMP; SIZEOF_TIMESTAMP_OPT] ++ to_be32 0 ++ to_be32 ts_echo)
  else mret rest.

Definition control_packet (remote_mac remote_ip remote_port local_port local_seq remote_seq flags : Z)
  (ts_opt : bool) (ts_echo mss_opt : Z) : outcome pkt_tcp :=
  let optlen := control_optlen ts_opt mss_opt in
  let len := SIZEOF_PKT_TCP + optlen in
  let eth := mk_eth (remote_mac mod 2 ^ 48) eth_addr ETH_TYPE_IP in
  let ip := mk_ip 0x45 0 (u16 (len - SIZEOF_ETH_HDR)) 3 0 0xff IP_PROTO_TCP 0 (cf_ip cfg) remote_ip in
  let tcp := TCPH_HDRLEN_FLAGS_SET (mk_tcp local_port remote_port local_seq remote_seq 0 11680 0 0)
               (5 + optlen / 4) flags in
  rest ← control_options ts_opt ts_echo mss_opt;
  let ip := ip <| ip_chksum := u16 (rte_ipv4_cksum ip) |> in
  let tcp := tcp <| tcp_chksum := u16 (rte_ipv4_udptcp_cksum ip tcp rest) |> in
  mret (mk_pkt eth ip tcp rest).

Context {N : Type} `{PacketTx N}.

Definition send_control_raw (n : N)
  (remote_mac remote_ip remote_port local_port local_seq remote_seq flags : Z)
  (ts_opt : bool) (ts_echo mss_opt : Z) : outcome (Z * N) :=
  p ← control_packet remote_mac remote_ip remote_port local_port local_seq remote_seq flags
        ts_opt ts_echo mss_opt;
  '(rv, n) ← tx_send n (bytes_of_pkt p) false;
  mret (if negb (rv =? 0) then -1 else 0, n).

(** [mac] is [conn->remote_mac], which ARP writes. *)
Definition send_control (n : N) (conn : connection) (mac flags : Z) (ts_opt : bool) (ts_echo mss_opt : Z)
  : outcome (Z * N) :=
  send_control_raw n mac (cn_remote_ip conn) (cn_remote_port conn) (cn_local_port conn)
    (cn_local_seq conn) (cn_remote_seq conn) flags ts_opt ts_echo mss_opt.

(** Without a timestamp option the echoed value is not used. *)
Definition send_reset (n : N) (p : pkt_tcp) (opts : tcp_opts) : outcome (Z * N) :=
  echo ← match opt_ts opts with Some off => ts_val (p_rest p) off | None => mret 0 end;
  send_control_raw n (eth_src (p_eth p)) (ip_src (p_ip p)) (tcp_src (p_tcp p)) (tcp_dest (p_tcp p))
    (tcp_ackno (p_tcp p)) (u32 (tcp_seqno (p_tcp p) + 1)) (Z.lor TCP_RST TCP_ACK)
    (bool_decide (is_Some (opt_ts opts))) echo 0.

End Send.

(** ** What is sent is what is received *)

(** The arguments of [send_control_raw] fit their types. *)
Record control_ok (cfg : configuration) (eth_addr mac rip rport lport lseq rseq flags echo mss : Z) : Prop := {
  co_eth : word_ok 6 eth_addr;
  co_mac : word_ok 6 mac;
  co_lip : word_ok 4 (cf_ip cfg);
  co_rip : word_ok 4 rip;
  co_rport : word_ok 2 rport;
  co_lport : word_ok 2 lport;
  co_lseq : word_ok 4 lseq;
  co_rseq : word_ok 4 rseq;
  co_flags : 0 <= flags < 512;
  co_echo : word_ok 4 echo;
  co_mss : word_ok 2 mss;
}.

(** The option area: MSS first, then the time stamp, padded to whole words. *)
Definition option_bytes (ts : bool) (echo mss : Z) : list Z :=
  (if c_true mss then [TCP_OPT_MSS; SIZEOF_MSS_OPT] ++ to_be16 mss else [])
  ++ (if ts then [TCP_OPT_TIMESTAMP; SIZEOF_TIMESTAMP_OPT] ++ to_be32 0 ++ to_be32 echo ++ [0; 0] else []).

(** What the receiver reads off the bytes [b]. *)
Record control_received (cfg : configuration) (eth_addr mac rip rport lport lseq rseq flags : Z)
  (ts : bool) (echo mss : Z) (b : list Z) (opts : tcp_opts) : Prop := {
  cr_len : Z.of_nat (length b) = SIZEOF_PKT_TCP + control_optlen ts mss;
  cr_iplen : SIZEOF_ETH_HDR + ip_len (p_ip (pkt_of_bytes b)) = Z.of_nat (length b);
  cr_kind : eth_type (p_eth (pkt_of_bytes b)) = ETH_TYPE_IP /\ ip_proto (p_ip (pkt_of_bytes b)) = IP_PROTO_TCP;
  cr_macs : eth_dest (p_eth (pkt_of_bytes b)) = mac /\ eth_src (p_eth (pkt_of_bytes b)) = eth_addr;
  cr_ips : ip_dest (p_ip (pkt_of_bytes b)) = rip /\ ip_src (p_ip (pkt_of_bytes b)) = cf_ip cfg;
  cr_ports : tcp_dest (p_tcp (pkt_of_bytes b)) = rport /\ tcp_src (p_tcp (pkt_of_bytes b)) = lport;
  cr_seqs : tcp_seqno (p_tcp (pkt_of_bytes b)) = lseq /\ tcp_ackno (p_tcp (pkt_of_bytes b)) = rseq;
  cr_flags : TCPH_FLAGS (p_tcp (pkt_of_bytes b)) = flags;
  cr_hdrlen : TCPH_HDRLEN (p_tcp (pkt_of_bytes b)) = 5 + control_optlen ts mss / 4;
  cr_rest : p_rest (pkt_of_bytes b) = option_bytes ts echo mss;
  cr_parse : parse_options (pkt_of_bytes b) (Z.of_nat (length b)) = Ok (0, opts);
  cr_mss : if c_true mss then exists off, opt_mss opts = Some off /\ mss_val (p_rest (pkt_of_bytes b)) off = Ok mss
           else opt_mss opts = None;
  cr_ts : if ts then exists off, opt_ts opts = Some off /\ ts_val (p_rest (pkt_of_bytes b)) off = Ok 0
                                 /\ ts_ecr (p_rest (pkt_of_bytes b)) off = Ok echo
          else opt_ts opts = None;
}.

Lemma hdrlen_flags_read h len flags : 0 <= len < 16 -> 0 <= flags < 512 ->
  TCPH_HDRLEN (TCPH_HDRLEN_FLAGS_SET h len flags) = len /\
  TCPH_FLAGS (TCPH_HDRLEN_FLAGS_SET h len flags) = flags.
Proof.
  intros Hl Hf. unfold TCPH_HDRLEN, TCPH_FLAGS, TCPH_HDRLEN_FLAGS_SET. simpl tcp_hdrlen_rsvd_flags.
  rewrite Z.lor_comm, lor_shiftl by (change (2 ^ 12) with 4096; lia). change (2 ^ 12) with 4096.
  rewrite u16_small by lia. split.
  - rewrite Z.shiftr_div_pow2 by lia. change (2 ^ 12) with 4096. Z.div_mod_to_equations. lia.
  - change TCP_FLAGS with (Z.ones 9). rewrite Z.land_ones by lia. change (2 ^ 9) with 512.
    Z.div_mod_to_equations. lia.
Qed.

Lemma control_options_bytes ts echo mss : control_options ts echo mss = Ok (option_bytes ts echo mss).
Proof. unfold control_options, control_optlen, option_bytes. by destruct (c_true mss), ts. Qed.

Lemma length_option_bytes ts echo mss :
  Z.of_nat (length (option_bytes ts echo mss)) = control_optlen ts mss.
Proof. unfold option_bytes, control_optlen. by destruct (c_true mss), ts. Qed.

Definition sent_opts (ts : bool) (mss : Z) : tcp_opts :=
  mk_opts (if c_true mss then Some 0 else None)
    (if ts then Some (if c_true mss then SIZEOF_MSS_OPT else 0) else None).

Lemma walk_option_bytes ts echo mss rest :
  walk_options on_slow_opt opt_fuel (option_bytes ts echo mss ++ rest) (control_optlen ts mss) 0 (mk_opts None None)
  = Ok (0, sent_opts ts mss).
Proof. unfold option_bytes, control_optlen, sent_opts. destruct (c_true mss), ts; reflexivity. Qed.

Lemma be32_to_be16 x : word_ok 2 x -> be32 (to_be16 x) = x.
Proof.
  unfold word_ok. intros Hx. change (256 ^ Z.of_nat 2) with 65536 in Hx.
  unfold be32, to_be16, u8. simpl. rewrite Z.shiftr_div_pow2 by lia. change (2 ^ 8) with 256.
  Z.div_mod_to_equations. lia.
Qed.

(** The contents of the options. *)
Lemma option_bytes_mss ts echo mss : word_ok 2 mss ->
  if c_true mss then mss_val (option_bytes ts echo mss) 0 = Ok mss else True.
Proof.
  intros Hm. unfold option_bytes. destruct (c_true mss); [|done]. unfold mss_val.
  rewrite mem_read_Ok by (rewrite ?length_app; simpl; lia).
  rewrite <- (be32_to_be16 mss Hm) at 2. destruct ts; reflexivity.
Qed.

Lemma option_bytes_ts echo mss rest : word_ok 4 echo ->
  let off := if c_true mss then SIZEOF_MSS_OPT else 0 in
  ts_val (option_bytes true echo mss ++ rest) off = Ok 0 /\ ts_ecr (option_bytes true echo mss ++ rest) off = Ok echo.
Proof.
  intros He off. pose proof (length_option_bytes true echo mss) as Hl.
  assert (off + 10 <= control_optlen true mss /\ 0 <= off) as [Ho Ho0] by (unfold off, control_optlen; by destruct (c_true mss)).
  unfold ts_val, ts_ecr, read_be32. rewrite !mem_read_Ok by (rewrite ?length_app; lia).
  unfold off, option_bytes. split; [by destruct (c_true mss)|]. transitivity (Ok (be32 (to_be32 echo))); [by destruct (c_true mss)|].
  by rewrite be32_to_be32.
Qed.

Section RoundTrip.
Context `{Checksums}.

(** The headers of a control packet, with the checksums [c1] and [c2]. *)
Definition control_headers (eth_addr : Z) (cfg : configuration)
  (mac rip rport lport lseq rseq flags : Z) (ts : bool) (echo mss c1 c2 : Z) : pkt_tcp :=
  let optlen := control_optlen ts mss in
  mk_pkt (mk_eth mac eth_addr ETH_TYPE_IP)
    (mk_ip 0x45 0 (SIZEOF_PKT_TCP + optlen - SIZEOF_ETH_HDR) 3 0 0xff IP_PROTO_TCP c1 (cf_ip cfg) rip)
    ((TCPH_HDRLEN_FLAGS_SET (mk_tcp lport rport lseq rseq 0 11680 0 0) (5 + optlen / 4) flags)
       <| tcp_chksum := c2 |>)
    (option_bytes ts echo mss).

Lemma control_optlen_range ts mss : 0 <= control_optlen ts mss <= 16 /\ control_optlen ts mss mod 4 = 0.
Proof. unfold control_optlen. by destruct (c_true mss), ts. Qed.

Lemma control_packet_headers eth_addr cfg mac rip rport lport lseq rseq flags ts echo mss :
  word_ok 6 mac -> exists c1 c2, word_ok 2 c1 /\ word_ok 2 c2 /\
  control_packet eth_addr cfg mac rip rport lport lseq rseq flags ts echo mss =
    Ok (control_headers eth_addr cfg mac rip rport lport lseq rseq flags ts echo mss c1 c2).
Proof.
  intros Hm. unfold control_packet. rewrite control_options_bytes. osimpl.
  pose proof (control_optlen_range ts mss) as [Hr _].
  rewrite (u16_small (_ + _ - _)) by (unfold SIZEOF_PKT_TCP, SIZEOF_ETH_HDR; lia).
  rewrite (Z.mod_small mac) by exact Hm. do 2 eexists. split; [apply u16_range|]. split; [apply u16_range|].
  reflexivity.
Qed.

Lemma control_headers_ok eth_addr cfg mac rip rport lport lseq rseq flags ts echo mss c1 c2 :
  control_ok cfg eth_addr mac rip rport lport lseq rseq flags echo mss -> word_ok 2 c1 -> word_ok 2 c2 ->
  pkt_ok (control_headers eth_addr cfg mac rip rport lport lseq rseq flags ts echo mss c1 c2).
Proof.
  intros [] H1 H2. pose proof (control_optlen_range ts mss) as [Hr _].
  unfold pkt_ok, eth_ok, ip_ok, tcp_ok. simpl. split_and!; try done.
  1: { unfold word_ok, SIZEOF_PKT_TCP, SIZEOF_ETH_HDR. change (256 ^ Z.of_nat 2) with 65536. lia. }
  apply u16_range.
Qed.

Lemma length_bytes_of_pkt p : length (bytes_of_pkt p) = (54 + length (p_rest p))%nat.
Proof.
  unfold bytes_of_pkt, eth_bytes, ip_bytes, tcp_bytes. rewrite !length_app, !length_be_bytes, !length_le_bytes. lia.
Qed.

Lemma control_headers_received eth_addr cfg mac rip rport lport lseq rseq flags ts echo mss c1 c2 :
  control_ok cfg eth_addr mac rip rport lport lseq rseq flags echo mss -> word_ok 2 c1 -> word_ok 2 c2 ->
  control_received cfg eth_addr mac rip rport lport lseq rseq flags ts echo mss
    (bytes_of_pkt (control_headers eth_addr cfg mac rip rport lport lseq rseq flags ts echo mss c1 c2))
    (sent_opts ts mss).
Proof.
  intros Hok H1 H2. pose proof (control_optlen_range ts mss) as [Hr Hm4].
  assert (0 <= 5 + control_optlen ts mss / 4 < 16) as Hhl by (Z.div_mod_to_equations; lia).
  pose proof (control_headers_ok _ _ _ _ _ _ _ _ _ ts _ _ c1 c2 Hok H1 H2) as Hp.
  set (p := control_headers _ _ _ _ _ _ _ _ _ _ _ _ _ _) in *.
  assert (TCPH_HDRLEN (p_tcp p) = 5 + control_optlen ts mss / 4 /\ TCPH_FLAGS (p_tcp p) = flags) as [Eh Ef]
    by exact (hdrlen_flags_read (mk_tcp lport rport lseq rseq 0 11680 0 0) _ _ Hhl (co_flags _ _ _ _ _ _ _ _ _ _ _ Hok)).
  assert (Z.of_nat (length (bytes_of_pkt p)) = SIZEOF_PKT_TCP + control_optlen ts mss) as El.
  { rewrite length_bytes_of_pkt. change (p_rest p) with (option_bytes ts echo mss).
    rewrite Nat2Z.inj_add, length_option_bytes. done. }
  constructor; rewrite ?(pkt_roundtrip p Hp); try done.
  - rewrite El. simpl. unfold SIZEOF_ETH_HDR, SIZEOF_PKT_TCP. lia.
  - unfold parse_options. rewrite Eh, El. replace ((5 + control_optlen ts mss / 4) * 4 - 20) with (control_optlen ts mss)
      by (Z.div_mod_to_equations; lia).
    rewrite u16_small, u64_small by (unfold SIZEOF_PKT_TCP in *; lia).
    rewrite (proj2 (Z.ltb_ge _ 5)), Z.gtb_ltb, (proj2 (Z.ltb_ge _ _)) by (Z.div_mod_to_equations; lia).
    osimpl. change (p_rest p) with (option_bytes ts echo mss). rewrite <- (app_nil_r (option_bytes _ _ _)). apply walk_option_bytes.
  - change (p_rest p) with (option_bytes ts echo mss). pose proof (option_bytes_mss ts echo mss (co_mss _ _ _ _ _ _ _ _ _ _ _ Hok)).
    unfold sent_opts. simpl opt_mss. destruct (c_true mss); [by exists 0|done].
  - change (p_rest p) with (option_bytes ts echo mss). unfold sent_opts. simpl opt_ts. destruct ts; [|done].
    destruct (option_bytes_ts echo mss [] (co_echo _ _ _ _ _ _ _ _ _ _ _ Hok)) as [E1 E2]. rewrite app_nil_r in E1, E2.
    by eexists.
Qed.

(** C32. Round trip: whatever control packet the slow path sends, the host that
    gets its bytes reads the addresses, ports, sequence numbers and flags it was
    sent with, and the options that were asked for: parsing succeeds and finds
    the MSS and the time stamp, with their values, exactly when they were sent. *)
Theorem control_packet_roundtrip eth_addr cfg mac rip rport lport lseq rseq flags ts echo mss :
  control_ok cfg eth_addr mac rip rport lport lseq rseq flags echo mss ->
  exists p, control_packet eth_addr cfg mac rip rport lport lseq rseq flags ts echo mss = Ok p /\
    control_received cfg eth_addr mac rip rport lport lseq rseq flags ts echo mss (bytes_of_pkt p)
      (sent_opts ts mss).
Proof.
  intros Hok.
  destruct (control_packet_headers eth_addr cfg mac rip rport lport lseq rseq flags ts echo mss (co_mac _ _ _ _ _ _ _ _ _ _ _ Hok))
    as (c1 & c2 & H1 & H2 & ->).
  eexists. split; [reflexivity|]. by apply control_headers_received.
Qed.
End RoundTrip.

(** ** Witnesses *)
Module Demo.
#[export] Instance checksums : Checksums := {
  fp_xsumoffload := false;
  rte_ipv4_cksum _ := 0;
  rte_ipv4_udptcp_cksum _ _ _ := 0;
}.
Definition cfg (ip : Z) : configuration :=
  mk_config 1024 1024 50 10 10000 3 ip 24 0 [] 500 2000 CONFIG_CC_CONST_RATE 50 2 4 0 0 0 0 0 0 10000
    0 0 0 0 0 0 0 0 false.
Lemma syn_ok : control_ok (cfg 10) 5 7 20 80 8192 0 0 (Z.lor TCP_SYN TCP_ECE) 0 TCP_MSS.
Proof. constructor; vm_compute; split; congruence. Qed.
End Demo.

Lemma control_packet_roundtrip_witness :
  exists p, control_packet (H := Demo.checksums) 5 (Demo.cfg 10) 7 20 80 8192 0 0 (Z.lor TCP_SYN TCP_ECE) true 0 TCP_MSS = Ok p /\
    control_received (Demo.cfg 10) 5 7 20 80 8192 0 0 (Z.lor TCP_SYN TCP_ECE) true 0 TCP_MSS (bytes_of_pkt p)
      (sent_opts true TCP_MSS).
Proof. exact (control_packet_roundtrip 5 (Demo.cfg 10) 7 20 80 8192 0 0 (Z.lor TCP_SYN TCP_ECE) true 0 TCP_MSS Demo.syn_ok). Defined.
