(* ===== verification/TcpState.v ===== *)
(** * The state of the TCP slow path (tas_nic/slow/tcp.c, appif.h)

    What [tcp.c] and the application interface share, the interfaces they use,
    and the allocation of connections. *)
From S2P Require Import Prelude RdmaQueue Packets FlowState Util Timeout PacketMem FlowTable SlowState CongCtl Arp.
From S2P Require Import Ports Listener ConnTable AppMsg.

#[local] Open Scope Z_scope.

(** ** Interfaces *)

(** The arguments of [nicif_connection_add]. *)
Record flow_req := mk_freq {
  fr_db : Z; fr_mac_remote : Z; fr_ip_local : Z; fr_port_local : Z; fr_ip_remote : Z; fr_port_remote : Z;
  fr_rx : rdma_queue; fr_tx : rdma_queue; fr_remote_seq : Z; fr_local_seq : Z; fr_opaque : Z;
  fr_flags : Z; fr_rate : Z; fr_flow_group : Z;
}.

(** The flow table of the fast path, as the slow path uses it: add a flow, which
    gives its id unless there is no room, disable it, free its id, and move it to
    another context. *)
Class FlowIf (N : Type) := {
  flow_add : N -> flow_req -> outcome (option Z * N);
  flow_disable : N -> Z -> outcome (Z * Z * bool * bool * N);
  flow_free : N -> Z -> outcome N;
  flow_move : N -> Z -> Z -> outcome N;
}.

#[export] Instance nicif_flows {L} (rte_hash_crc : list Z -> Z -> Z) : FlowIf (nicif * L) := {
  flow_add n r :=
    '(f, s) ← nicif_connection_add rte_hash_crc n.1 (fr_db r) (fr_mac_remote r) (fr_ip_local r)
                (fr_port_local r) (fr_ip_remote r) (fr_port_remote r) (fr_rx r) (fr_tx r)
                (fr_remote_seq r) (fr_local_seq r) (fr_opaque r) (fr_flags r) (fr_rate r) (fr_flow_group r);
    mret (f, (s, n.2));
  flow_disable n f :=
    '(tx_seq, rx_seq, tx_c, rx_c, s) ← nicif_connection_disable rte_hash_crc n.1 f;
    mret (tx_seq, rx_seq, tx_c, rx_c, (s, n.2));
  flow_free n f := s ← nicif_connection_free n.1 f; mret (s, n.2);
  flow_move n db f := s ← nicif_connection_move n.1 db f; mret (s, n.2);
}.

(** The queues of the application contexts: whether there is room for a message
    ([kout_reserve]), putting one in the queue, waking the application, taking
    its next request, whether there is space for an answer, and pairing a queue
    with the one of a remote application. *)
Class AppQueues (A : Type) := {
  kout_reserve : A -> Z -> outcome (bool * A);
  kout_put : A -> Z -> kernel_appin -> outcome A;
  kout_kick : A -> Z -> outcome A;
  kout_full : A -> Z -> outcome bool;
  kin_get : A -> Z -> outcome (option kernel_appout * A);
  app_pair : A -> rdma_queue -> rdma_queue_endpoint -> outcome (Z * rdma_queue * A);
}.

(** The queues of contexts as RDMA queues, by the address of the context. *)
Record app_queues (L : Type) := mk_aq {
  aq_kin : gmap Z rdma_queue; aq_kout : gmap Z rdma_queue; aq_kicked : list Z; aq_link : L;
}.
Arguments mk_aq {L}. Arguments aq_kin {L}. Arguments aq_kout {L}. Arguments aq_kicked {L}. Arguments aq_link {L}.

Definition ctx_queue (m : gmap Z rdma_queue) (ctx : Z) : outcome rdma_queue :=
  match m !! ctx with Some q => Ok q | None => Stop OutOfBounds end.

(** [enqueue_and_flush_kout] assigns the comparison [!= 0] to [rv], so that the
    assertion that follows fails for every error. *)
#[export] Instance rdma_app_queues {L} `{RdmaLink L} : AppQueues (app_queues L) := {
  kout_reserve a ctx :=
    q ← ctx_queue (aq_kout a) ctx;
    '(rv, q, l) ← rq_try_reserve_flush q (aq_link a) SIZEOF_KERNEL_APPIN;
    let a := mk_aq (aq_kin a) (<[ctx := q]> (aq_kout a)) (aq_kicked a) l in
    if rv =? 1 then mret (true, a) else _ ← c_assert (rv =? 0); mret (false, a);
  kout_put a ctx e :=
    q ← ctx_queue (aq_kout a) ctx;
    '(rv, q, l) ← rq_try_enqueue q (aq_link a) (Some (encode_appin e)) SIZEOF_KERNEL_APPIN;
    if negb (rv =? 0) then Stop AssertFailed
    else
      '(rv, q, l) ← rq_flush q l;
      if u64 rv <? SIZEOF_KERNEL_APPIN then _ ← c_assert (rv <? 0); Stop Aborted
      else mret (mk_aq (aq_kin a) (<[ctx := q]> (aq_kout a)) (aq_kicked a) l);
  kout_kick a ctx := mret (mk_aq (aq_kin a) (aq_kout a) (aq_kicked a ++ [ctx]) (aq_link a));
  kout_full a ctx :=
    q ← ctx_queue (aq_kout a) ctx;
    n ← rq_nbytes_empty q; mret (n <? SIZEOF_KERNEL_APPIN);
  kin_get a ctx :=
    q ← ctx_queue (aq_kin a) ctx;
    '(rv, d, q) ← rq_try_dequeue q true SIZEOF_KERNEL_APPOUT;
    if negb (rv =? 0) then _ ← c_assert (rv >? 0); mret (None, a)
    else mret (Some (decode_appout d), mk_aq (<[ctx := q]> (aq_kin a)) (aq_kout a) (aq_kicked a) (aq_link a));
  app_pair a q ep :=
    '(rv, q, l) ← rq_pair_receiver q (aq_link a) ep;
    mret (rv, q, mk_aq (aq_kin a) (aq_kout a) (aq_kicked a) l);
}.

(** The other side only recorded: a card that sends every packet and takes every
    flow, numbering them, and applications that always have room. *)
Record recorder := mk_rec { rc_sent : list (list Z); rc_flows : list flow_req }.
#[export] Instance recorder_tx : PacketTx recorder := fun n p _ =>
  mret (0, mk_rec (rc_sent n ++ [p]) (rc_flows n)).
#[export] Instance recorder_flows : FlowIf recorder := {
  flow_add n r := mret (Some (Z.of_nat (length (rc_flows n))), mk_rec (rc_sent n) (rc_flows n ++ [r]));
  flow_disable n f :=
    match rc_flows n !! Z.to_nat f with
    | Some r => mret (fr_local_seq r, fr_remote_seq r, true, true, n)
    | None => Stop OutOfBounds
    end;
  flow_free n f := mret n;
  flow_move n db f := mret n;
}.
Record mailbox := mk_mail { mb_out : list (Z * kernel_appin); mb_kicked : list Z }.
#[export] Instance mailbox_queues : AppQueues mailbox := {
  kout_reserve a ctx := mret (true, a);
  kout_put a ctx e := mret (mk_mail (mb_out a ++ [(ctx, e)]) (mb_kicked a));
  kout_kick a ctx := mret (mk_mail (mb_out a) (mb_kicked a ++ [ctx]));
  kout_full a ctx := mret false;
  kin_get a ctx := mret (None, a);
  app_pair a q ep := mret (0, q, a);
}.

(** ** State *)

(** [struct app_context] and [struct application]; the queues of the former are
    kept by [AppQueues]. *)
Record app_context := mk_actx { ac_app : Z; ac_db_id : Z; ac_next : option Z }.
Record application := mk_app {
  ap_qp : Z; ap_contexts : option Z; ap_conns : option Z; ap_listeners : option Z;
}.
#[export] Instance eta_actx : Eta app_context := fun c => mk_actx (ac_app c) (ac_db_id c) (ac_next c).
#[export] Instance eta_app : Eta application := fun a =>
  mk_app (ap_qp a) (ap_contexts a) (ap_conns a) (ap_listeners a).

Section State.
Context {N A : Type} `{AppQueues A}.

(** The static variables of tcp.c, and the state of the components it calls. The
    queue [conn_async_q], the timers and the completions are part of [ts_arp]. *)
Record tcp_state := mk_tcps {
  ts_conns : conn_heap;
  ts_ht : hashtable;
  ts_cc : cc_globals;
  ts_arp : arp_state N;
  ts_pm : packetmem;
  ts_ports : port_table;
  ts_hint : Z;
  ts_rng : Z;
  ts_listeners : gmap Z listener;
  ts_multis : gmap Z listen_multi;
  ts_ctxs : gmap Z app_context;
  ts_apps : gmap Z application;
  ts_app : A;
}.
#[export] Instance eta_tcps : Eta tcp_state := fun s =>
  mk_tcps (ts_conns s) (ts_ht s) (ts_cc s) (ts_arp s) (ts_pm s) (ts_ports s) (ts_hint s) (ts_rng s)
    (ts_listeners s) (ts_multis s) (ts_ctxs s) (ts_apps s) (ts_app s).

Definition set_conns (s : tcp_state) v : tcp_state := s <| ts_conns := v |>.
Definition set_ht (s : tcp_state) v : tcp_state := s <| ts_ht := v |>.
Definition set_cc (s : tcp_state) v : tcp_state := s <| ts_cc := v |>.
Definition set_arp (s : tcp_state) v : tcp_state := s <| ts_arp := v |>.
Definition set_pm (s : tcp_state) v : tcp_state := s <| ts_pm := v |>.
Definition set_ports (s : tcp_state) v : tcp_state := s <| ts_ports := v |>.
Definition set_hint (s : tcp_state) v : tcp_state := s <| ts_hint := v |>.
Definition set_rng (s : tcp_state) v : tcp_state := s <| ts_rng := v |>.
Definition set_multis (s : tcp_state) v : tcp_state := s <| ts_multis := v |>.
Definition set_app (s : tcp_state) v : tcp_state := s <| ts_app := v |>.

Definition put_conn (s : tcp_state) (p : Z) (c : connection) : tcp_state :=
  set_conns s (<[p := c]> (ts_conns s)).
Definition conn_at (s : tcp_state) (p : Z) : outcome connection := get_conn (ts_conns s) p.
Definition listener_at (s : tcp_state) (l : Z) : outcome listener :=
  match ts_listeners s !! l with Some x => Ok x | None => Stop OutOfBounds end.
Definition put_listener (s : tcp_state) (l : Z) (x : listener) : tcp_state :=
  s <| ts_listeners := <[l := x]> (ts_listeners s) |>.
Definition ctx_at (s : tcp_state) (x : Z) : outcome app_context :=
  match ts_ctxs s !! x with Some c => Ok c | None => Stop OutOfBounds end.
Definition app_at (s : tcp_state) (x : Z) : outcome application :=
  match ts_apps s !! x with Some a => Ok a | None => Stop OutOfBounds end.
Definition put_app (s : tcp_state) (x : Z) (a : application) : tcp_state :=
  s <| ts_apps := <[x := a]> (ts_apps s) |>.
Definition set_nic (s : tcp_state) (n : N) : tcp_state := set_arp s (set_ar_tx (ts_arp s) n).
Definition set_timers (s : tcp_state) (m : timeout_manager) : tcp_state := set_arp s (set_ar_timers (ts_arp s) m).

(** ** Allocation of connections *)

(** The address and keys of the memory region of the queues. *)
Context (cfg : configuration) (tas_shm mr_lkey mr_rkey : Z).

(** What the allocators return, and what the memory holds. *)
Record conn_mem := mk_cmem {
  cm_conn : option (Z * connection);
  cm_rx : option Z; cm_tx : option Z;
  cm_rx_raw : list Z; cm_tx_raw : list Z;
}.

(** [rq_pair_receiver], when the application is remote. *)
Definition pair_rx (s : tcp_state) (rx : rdma_queue) (rq_addr lkey rkey : Z) : outcome (rdma_queue * tcp_state) :=
  if rq_addr =? 0 then mret (rx, s)
  else
    '(rv, rx, a) ← app_pair (ts_app s) rx (mk_endpoint rq_addr 0 lkey rkey);
    _ ← c_assert (rv =? 0);
    mret (rx, set_app s a).

(** Queues of no size are [NULL], which the next operation on them dereferences;
    the configuration does not ask for them. *)
Definition conn_alloc (s : tcp_state) (ctx rq_addr lkey rkey : Z) (m : conn_mem)
  : outcome (option Z * tcp_state) :=
  match cm_conn m with
  | None => mret (None, s)
  | Some (p, conn) =>
      let rx_len := u64 (tcp_rxbuf_len cfg + SIZEOF_RDMA_QUEUE) in
      '(_, r, pm) ← packetmem_alloc (ts_pm s) rx_len (cm_rx m);
      match r with
      | None => mret (None, set_pm s pm)
      | Some (off_rx, rx_handle) =>
          let tx_len := u64 (tcp_txbuf_len cfg + SIZEOF_RDMA_QUEUE) in
          '(_, r, pm) ← packetmem_alloc pm tx_len (cm_tx m);
          match r with
          | None => pm ← packetmem_free pm rx_handle; mret (None, set_pm s pm)
          | Some (off_tx, tx_handle) =>
              qp ← (if rq_addr =? 0 then mret 0
                    else c ← ctx_at s ctx; a ← app_at s (ac_app c); mret (ap_qp a));
              let local_lkey := if rq_addr =? 0 then UINT32_MAX else mr_lkey in
              let local_rkey := if rq_addr =? 0 then UINT32_MAX else mr_rkey in
              match rq_allocate_in_place (tas_shm + off_rx) (cm_rx_raw m) rx_len qp local_lkey local_rkey,
                    rq_allocate_in_place (tas_shm + off_tx) (cm_tx_raw m) tx_len qp local_lkey local_rkey with
              | Some rx, Some tx =>
                  '(rx, s) ← pair_rx (set_pm s pm) rx rq_addr lkey rkey;
                  let conn := conn <| cn_rx_handle := rx_handle |> in
                  let conn := conn <| cn_tx_handle := tx_handle |> in
                  let conn := conn <| cn_ctx := ctx |> in
                  let conn := conn <| cn_rx := rx |> in
                  let conn := conn <| cn_tx := tx |> in
                  let conn := conn <| cn_to_armed := false |> in
                  mret (Some p, put_conn s p conn)
              | _, _ => Stop OutOfBounds
              end
          end
      end
  end.

Definition conn_free (s : tcp_state) (conn : Z) : outcome tcp_state :=
  c ← conn_at s conn;
  pm ← packetmem_free (ts_pm s) (cn_tx_handle c);
  pm ← packetmem_free pm (cn_rx_handle c);
  let s := set_pm s pm in
  mret (set_conns s (delete conn (ts_conns s))).

Definition tcp_destroy (s : tcp_state) (conn : Z) : outcome tcp_state :=
  c ← conn_at s conn;
  _ ← c_assert (bool_decide (cn_status c = CONN_FAILED));
  conn_free s conn.

(** ** Telling the application (tas_nic/slow/appif_ctx.c) *)

(** The message goes out and the application is woken. *)
Definition post_kout (s : tcp_state) (ctx : Z) (e : kernel_appin) : outcome tcp_state :=
  a ← kout_put (ts_app s) ctx e;
  a ← kout_kick a ctx;
  mret (set_app s a).

(** The offset of a queue, which has to be its own endpoint. *)
Definition queue_off (self_ ep : Z) : outcome Z :=
  _ ← c_assert (self_ =? ep); mret (u64 (self_ - tas_shm)).

Definition appif_conn_opened (s : tcp_state) (conn status : Z) : outcome tcp_state :=
  c ← conn_at s conn;
  '(room, a) ← kout_reserve (ts_app s) (cn_ctx c);
  let s := set_app s a in
  if negb room then mret s
  else if status =? 0 then
    rx_off ← queue_off (self (cn_rx c)) (ep_addr (RdmaQueue.tx (cn_rx c)));
    tx_off ← queue_off (self (cn_tx c)) (ep_addr (RdmaQueue.rx (cn_tx c)));
    post_kout s (cn_ctx c) (AppinConnOpened (cn_opaque c)
      (mk_ai_opened rx_off tx_off (cn_remote_seq c) (cn_local_seq c) (cn_flow_id c) (cf_ip cfg)
         (cn_local_port c) (u16 (cn_fn_core c))))
  else
    s ← tcp_destroy s conn;
    post_kout s (cn_ctx c) (AppinConnFailed (cn_opaque c) status).

(** Take a connection out of the list of its application. *)
Definition app_conn_remove (s : tcp_state) (app conn : Z) (c : connection) : outcome tcp_state :=
  a ← app_at s app;
  if bool_decide (ap_conns a = Some conn) then mret (put_app s app (a <| ap_conns := cn_app_next c |>))
  else
    c_i ← find_before cn_app_next (chain_fuel (ts_conns s)) (ts_conns s) (ap_conns a) conn;
    d ← conn_at s c_i;
    mret (put_conn s c_i (d <| cn_app_next := cn_app_next c |>)).

Definition appif_conn_closed (s : tcp_state) (conn status : Z) : outcome tcp_state :=
  c ← conn_at s conn;
  ctx ← ctx_at s (cn_ctx c);
  '(room, a) ← kout_reserve (ts_app s) (cn_ctx c);
  let s := set_app s a in
  if negb room then mret s
  else
    s ← post_kout s (cn_ctx c) (AppinStatus KERNEL_APPIN_STATUS_CONN_CLOSE (cn_opaque c) status);
    app_conn_remove s (ac_app ctx) conn c.

Definition appif_listen_newconn (s : tcp_state) (l remote_ip remote_port : Z) : outcome tcp_state :=
  x ← listener_at s l;
  '(room, a) ← kout_reserve (ts_app s) (li_ctx x);
  let s := set_app s a in
  if negb room then mret s
  else post_kout s (li_ctx x) (AppinNewconn (li_opaque x) remote_ip remote_port).

(** A full queue is only reported; the message is put in it all the same. *)
Definition appif_accept_conn (s : tcp_state) (conn status : Z) : outcome tcp_state :=
  c ← conn_at s conn;
  ctx ← ctx_at s (cn_ctx c);
  '(_, a) ← kout_reserve (ts_app s) (cn_ctx c);
  let s := set_app s a in
  if status =? 0 then
    rx_off ← queue_off (self (cn_rx c)) (ep_addr (RdmaQueue.tx (cn_rx c)));
    tx_off ← queue_off (self (cn_tx c)) (ep_addr (RdmaQueue.rx (cn_tx c)));
    app ← app_at s (ac_app ctx);
    let s := put_conn s conn (c <| cn_app_next := ap_conns app |>) in
    let s := put_app s (ac_app ctx) (app <| ap_conns := Some conn |>) in
    post_kout s (cn_ctx c) (AppinAccepted (cn_opaque c)
      (mk_ai_accept rx_off tx_off (cn_remote_seq c) (cn_local_seq c) (cn_flow_id c) (cf_ip cfg)
         (cn_remote_ip c) (cn_remote_port c) (u16 (cn_fn_core c))))
  else
    s ← tcp_destroy s conn;
    post_kout s (cn_ctx c) (AppinAcceptFailed (cn_opaque c) status).

End State.
Arguments tcp_state : clear implicits.
