(* ===== verification/TcpSlow.v ===== *)
(** * The TCP slow path (tas_nic/slow/tcp.c)

    Opening, accepting and closing connections: what happens on requests of the
    applications, on packets the fast path passes on, on resolved addresses and on
    timeouts. *)
From S2P Require Import Prelude RdmaQueue Packets FlowState FastCtx Wire Util Timeout PacketMem FlowTable SlowState.
From S2P Require Import CongCtl Arp Routing Ports Listener ConnTable AppMsg TcpWire TcpState.

#[local] Open Scope Z_scope.

Definition TO_TCP_HANDSHAKE : Z := 1.
Definition TO_TCP_CLOSED : Z := 3.

(** ** Field updates of connections *)
Definition with_status (c : connection) (v : connection_status) : connection := c <| cn_status := v |>.
Definition with_armed (c : connection) (v : bool) : connection := c <| cn_to_armed := v |>.
Definition with_flow_id (c : connection) (v : Z) : connection := c <| cn_flow_id := v |>.
Definition with_app_next (c : connection) (v : option Z) : connection := c <| cn_app_next := v |>.

Section Tcp.
Context {N A : Type} `{PacketTx N} `{FlowIf N} `{AppQueues A} `{Checksums}.
(** The CRCs of DPDK. *)
Context (crc4 : Z -> Z -> Z) (crc8 : Z -> Z -> Z).
(** The address of the card, the configuration, the memory region of the queues
    with its keys, and the routing table with the hops to try. *)
Context (eth_addr : Z) (cfg : configuration) (tas_shm mr_lkey mr_rkey : Z).
Context (routes : list routing_table_entry) (hop_fuel : nat).
(** The time stamps taken during one call: of the timers, and of congestion control. *)
Context (now cur_ts : Z).

Abbreviation state := (tcp_state N A).
Implicit Types (s : state) (c : connection).

(** [alloc] tells whether [calloc] succeeds. *)
Definition tcp_init s (time_us : Z) (alloc : bool) : Z * state :=
  let s := set_arp s (set_ar_q (ts_arp s) (Nbqueue.nbqueue_init (Nbqueue.next (ar_q (ts_arp s))))) in
  let '(r, seed) := Rng.utils_rng_gen32 (Rng.utils_rng_init time_us) in
  let s := set_hint (set_rng s seed) (port_hint_init r) in
  if alloc then (0, set_ht s ∅) else (-1, s).

(** ** Packets and timers *)

(** [conn->remote_mac] *)
Definition mac_of s (conn : Z) : Z := default 0 (ar_macs (ts_arp s) !! conn).

(** [send_control]; no caller looks at the result. *)
Definition conn_send s (conn : Z) (flags : Z) (ts_opt : bool) (ts_echo mss_opt : Z) : outcome state :=
  c ← conn_at s conn;
  '(_, n) ← send_control eth_addr cfg (ar_tx (ts_arp s)) c (mac_of s conn) flags ts_opt ts_echo mss_opt;
  mret (set_nic s n).

Definition reset_send s (p : pkt_tcp) (opts : tcp_opts) : outcome state :=
  '(_, n) ← send_reset eth_addr cfg (ar_tx (ts_arp s)) p opts;
  mret (set_nic s n).

(** The type is ignored: the timeout is always of a handshake. *)
Definition conn_timeout_arm s (conn : Z) (type : Z) : outcome state :=
  c ← conn_at s conn;
  _ ← c_assert (negb (cn_to_armed c));
  let s := put_conn s conn (with_armed c true) in
  if cn_timeout c =? 0 then Stop DivByZero
  else
    let '(r, seed) := Rng.utils_rng_gen32 (ts_rng s) in
    let s := set_rng s seed in
    let to := u32 (cn_timeout c / 2 + r mod cn_timeout c) in
    m ← util_timeout_arm_ts (ar_timers (ts_arp s)) conn to TO_TCP_HANDSHAKE now;
    mret (set_timers s m).

Definition conn_timeout_disarm s (conn : Z) : outcome state :=
  c ← conn_at s conn;
  _ ← c_assert (cn_to_armed c);
  let s := put_conn s conn (with_armed c false) in
  m ← util_timeout_disarm (ar_timers (ts_arp s)) conn;
  mret (set_timers s m).

(** ** The hash table *)
Definition register s (conn : Z) : outcome state :=
  '(h, ht) ← conn_register crc4 crc8 (ts_conns s) (ts_ht s) conn;
  mret (set_ht (set_conns s h) ht).
Definition unregister s (conn : Z) : outcome state :=
  '(h, ht) ← conn_unregister crc4 crc8 (ts_conns s) (ts_ht s) conn;
  mret (set_ht (set_conns s h) ht).

Definition cc_init s (conn : Z) : outcome state :=
  '(h, g) ← cc_conn_init cfg cur_ts (ts_conns s) (ts_cc s) conn;
  mret (set_cc (set_conns s h) g).
Definition cc_remove s (conn : Z) : outcome state :=
  '(h, g) ← cc_conn_remove (ts_conns s) (ts_cc s) conn;
  mret (set_cc (set_conns s h) g).

(** [comp->status = 0]; all connections have the same queue and no descriptor. *)
Definition comp_reset s (conn : Z) : state := set_arp s (set_ar_status (ts_arp s) conn 0).

(** ** The state machine *)

Definition conn_failed s (conn status : Z) : outcome state :=
  s ← unregister s conn;
  c ← conn_at s conn;
  s ← (if cn_to_armed c then conn_timeout_disarm s conn else mret s);
  c ← conn_at s conn;
  appif_conn_opened cfg tas_shm (put_conn s conn (with_status c CONN_FAILED)) conn status.

Definition SYN_FLAGS : Z := Z.lor (Z.lor TCP_SYN TCP_ECE) TCP_CWR.

Definition conn_arp_done s (conn : Z) : outcome (Z * state) :=
  c ← conn_at s conn;
  let c := with_status c CONN_SYN_SENT in
  let c := c <| cn_to_attempts := 0 |> in
  let c := c <| cn_timeout := tcp_handshake_to cfg |> in
  s ← conn_timeout_arm (put_conn s conn c) conn TO_TCP_HANDSHAKE;
  s ← conn_send s conn SYN_FLAGS true 0 TCP_MSS;
  mret (0, s).

(** [nicif_connection_add] for a connection; [local_seq] is the next sequence number. *)
Definition add_flow s (conn : Z) (local_seq : Z) : outcome (option Z * state) :=
  c ← conn_at s conn;
  '(f, n) ← flow_add (ar_tx (ts_arp s))
     (mk_freq (cn_db_id c) (mac_of s conn) (cn_local_ip c) (cn_local_port c) (cn_remote_ip c)
        (cn_remote_port c) (cn_rx c) (cn_tx c) (cn_remote_seq c) local_seq (cn_opaque c) (cn_flags c)
        (cc_rate (cn_cc c)) (cn_flow_group c));
  mret (f, set_nic s n).

Definition conn_syn_sent_packet s (conn : Z) (p : pkt_tcp) (opts : tcp_opts) : outcome (Z * state) :=
  let ecn_flags := Z.land (TCPH_FLAGS (p_tcp p)) (Z.lor TCP_ECE TCP_CWR) in
  s ← conn_timeout_disarm s conn;
  if negb (has_all (TCPH_FLAGS (p_tcp p)) (Z.lor TCP_SYN TCP_ACK)) then mret (-1, s)
  else
    match opt_ts opts with
    | None => mret (-1, s)
    | Some off =>
        syn_ts ← ts_val (p_rest p) off;
        c ← conn_at s conn;
        let c := c <| cn_remote_seq := u32 (tcp_seqno (p_tcp p) + 1) |> in
        let c := c <| cn_local_seq := tcp_ackno (p_tcp p) |> in
        let c := c <| cn_syn_ts := syn_ts |> in
        let c := if ecn_flags =? TCP_ECE then c <| cn_flags := Z.lor (cn_flags c) NICIF_CONN_ECN |> else c in
        s ← cc_init (put_conn s conn c) conn;
        let s := comp_reset s conn in
        c ← conn_at s conn;
        '(f, s) ← add_flow s conn (cn_local_seq c);
        match f with
        | None => mret (-1, s)
        | Some flow_id =>
            c ← conn_at s conn;
            let s := put_conn s conn (with_status (with_flow_id c flow_id) CONN_OPEN) in
            s ← conn_send s conn TCP_ACK true (cn_syn_ts c) 0;
            s ← appif_conn_opened cfg tas_shm s conn 0;
            mret (0, s)
        end
    end.

Definition ecn_reply c : Z := if has_all (cn_flags c) NICIF_CONN_ECN then TCP_ECE else 0.

Definition conn_reg_synack s (conn : Z) : outcome (Z * state) :=
  c ← conn_at s conn;
  let s := put_conn s conn (with_status c CONN_OPEN) in
  s ← conn_send s conn (Z.lor (Z.lor TCP_SYN TCP_ACK) (ecn_reply c)) true (cn_syn_ts c) TCP_MSS;
  s ← appif_accept_conn cfg tas_shm s conn 0;
  mret (0, s).

(** [ecn_flags] is 0 where the flags are compared with [TCP_SYN]. *)
Definition conn_packet s (conn : Z) (p : pkt_tcp) (opts : tcp_opts) (fn_core flow_group : Z) : outcome state :=
  c ← conn_at s conn;
  let flags := TCPH_FLAGS (p_tcp p) in
  if bool_decide (cn_status c = CONN_SYN_SENT) then
    let c := c <| cn_fn_core := fn_core |> in
    let c := c <| cn_flow_group := flow_group |> in
    '(ret, s) ← conn_syn_sent_packet (put_conn s conn c) conn p opts;
    if negb (ret =? 0) then conn_failed s conn ret else mret s
  else if bool_decide (cn_status c = CONN_OPEN) && (flags =? TCP_SYN) then
    match opt_ts opts with
    | None => conn_failed s conn (-1)
    | Some off =>
        echo ← ts_val (p_rest p) off;
        conn_send s conn (Z.lor (Z.lor TCP_SYN TCP_ACK) (ecn_reply c)) true echo TCP_MSS
    end
  else if bool_decide (cn_status c = CONN_OPEN) && has_all flags TCP_SYN then mret s
  else if bool_decide (cn_status c = CONN_CLOSED) && has_all flags TCP_FIN then
    conn_send s conn TCP_ACK true 0 0
  else mret s.

(** One connection of the queue. *)
Definition tcp_poll_one s (conn : Z) : outcome state :=
  c ← conn_at s conn;
  let status := default 0 (ar_status (ts_arp s) !! conn) in
  if bool_decide (cn_status c = CONN_ARP_PENDING) then
    if negb (status =? 0) then conn_failed s conn status
    else '(ret, s) ← conn_arp_done s conn; if negb (ret =? 0) then conn_failed s conn ret else mret s
  else if bool_decide (cn_status c = CONN_REG_SYNACK) then
    if negb (status =? 0) then conn_failed s conn status
    else '(ret, s) ← conn_reg_synack s conn; if negb (ret =? 0) then conn_failed s conn ret else mret s
  else mret s.

Fixpoint tcp_poll_loop (fuel : nat) s : outcome state :=
  match fuel with
  | O => Stop OutOfFuel
  | S fuel =>
      '(r, q) ← Nbqueue.nbqueue_deq (ar_q (ts_arp s));
      match r with
      | None => mret s
      | Some conn => s ← tcp_poll_one (set_arp s (set_ar_q (ts_arp s) q)) conn; tcp_poll_loop fuel s
      end
  end.
Definition tcp_poll s : outcome state := tcp_poll_loop (S (size (Nbqueue.next (ar_q (ts_arp s))))) s.

(** ** Requests of the application *)

(** The fields [tcp_open] sets. *)
Definition open_conn c (ctx : Z) (d : kernel_appout_conn_open) (db_id local_port : Z) : connection :=
  let c := c <| cn_ctx := ctx |> in
  let c := c <| cn_opaque := ao_opaque d |> in
  let c := with_status c CONN_ARP_PENDING in
  let c := c <| cn_remote_ip := ao_remote_ip d |> in
  let c := c <| cn_local_ip := cf_ip cfg |> in
  let c := c <| cn_remote_port := ao_remote_port d |> in
  let c := c <| cn_local_port := local_port |> in
  let c := c <| cn_local_seq := 0 |> in
  let c := c <| cn_remote_seq := 0 |> in
  let c := c <| cn_cc := (cn_cc c) <| cnt_tx_pending := 0 |> |> in
  let c := c <| cn_db_id := db_id |> in
  c <| cn_flags := 0 |>.

(** [m] and [arp_fresh] are what the allocators return. [conn_alloc] takes the
    address of the queue of a remote application as 32 bits. *)
Definition tcp_open s (ctx : Z) (d : kernel_appout_conn_open) (db_id : Z) (m : conn_mem) (arp_fresh : option Z)
  : outcome (Z * option Z * state) :=
  '(r, s) ← conn_alloc cfg tas_shm mr_lkey mr_rkey s ctx (u32 (ao_opaque_rx d)) (ao_lkey d) (ao_rkey d) m;
  match r with
  | None => mret (-1, None, s)
  | Some conn =>
      '(local_port, hint) ← port_alloc (ts_ports s) (ts_hint s);
      let s := set_hint s hint in
      if local_port =? 0 then s ← conn_free s conn; mret (-1, None, s)
      else
        c ← conn_at s conn;
        let s := put_conn s conn (open_conn c ctx d db_id local_port) in
        let s := comp_reset s conn in
        '(ret, a) ← routing_resolve eth_addr cfg hop_fuel routes (ts_arp s) conn (ao_remote_ip d) conn now arp_fresh;
        let s := set_arp s a in
        if ret <? 0 then s ← conn_free s conn; mret (-1, None, s)
        else
          s ← register s conn;
          '(ret, s) ← (if ret =? 0 then conn_arp_done s conn else mret (0, s));
          mret (ret, Some conn, set_ports s (<[local_port := PORT_TYPE_CONN conn]> (ts_ports s)))
  end.

(** The part of [tcp_listen] after the allocations: [lm] is the new
    [listen_multi] of a port that gets one. *)
Definition listen_add s (reuseport : bool) (local_port lst : Z) (lm : option Z) : outcome state :=
  if negb reuseport then mret (set_ports s (<[local_port := PORT_TYPE_LISTEN lst]> (ts_ports s)))
  else
    match lm, port_at (ts_ports s) local_port with
    | Some m, _ =>
        let s := set_multis s (<[m := mk_lm [lst]]> (ts_multis s)) in
        mret (set_ports s (<[local_port := PORT_TYPE_LMULTI m]> (ts_ports s)))
    | None, PORT_TYPE_LMULTI m =>
        match ts_multis s !! m with
        | Some x => mret (set_multis s (<[m := mk_lm (lm_ls x ++ [lst])]> (ts_multis s)))
        | None => Stop OutOfBounds
        end
    | None, _ => Stop OutOfBounds
    end.

(** [lm_fresh] and [lst_fresh] are what the allocators return, the latter with the
    memory of the backlog buffers. *)
Definition tcp_listen s (ctx opaque local_port backlog : Z) (reuseport : bool)
  (lm_fresh : option Z) (lst_fresh : option (Z * list backlog_slot)) : outcome (Z * option Z * state) :=
  let add lm :=
    match lst_fresh with
    | None => mret (-1, None, s)
    | Some (lst, bls) =>
        let s := put_listener s lst (new_listener ctx opaque local_port backlog bls) in
        s ← listen_add s reuseport local_port lst lm;
        mret (0, Some lst, s)
    end in
  match port_at (ts_ports s) local_port with
  | PORT_TYPE_UNUSED =>
      if reuseport then match lm_fresh with None => mret (-1, None, s) | Some m => add (Some m) end
      else add None
  | PORT_TYPE_LMULTI m =>
      if negb reuseport then mret (-1, None, s)
      else
        match ts_multis s !! m with
        | None => Stop OutOfBounds
        | Some x => if Z.of_nat (length (lm_ls x)) =? LISTEN_MULTI_MAX then mret (-1, None, s) else add None
        end
  | _ => mret (-1, None, s)
  end.

(** ** Passive opening *)

(** The fields [listener_accept] takes from the SYN [p]. *)
Definition syn_conn c (x : listener) (p : pkt_tcp) (syn_ts fn_core flow_group : Z) : connection :=
  let ecn_flags := Z.land (TCPH_FLAGS (p_tcp p)) (Z.lor TCP_ECE TCP_CWR) in
  let c := c <| cn_fn_core := fn_core |> in
  let c := c <| cn_flow_group := flow_group |> in
  let c := c <| cn_remote_ip := ip_src (p_ip p) |> in
  let c := c <| cn_local_ip := cf_ip cfg |> in
  let c := c <| cn_remote_port := tcp_src (p_tcp p) |> in
  let c := c <| cn_local_port := li_port x |> in
  let c := c <| cn_remote_seq := u32 (tcp_seqno (p_tcp p) + 1) |> in
  let c := c <| cn_local_seq := 1 |> in
  let c := c <| cn_syn_ts := syn_ts |> in
  if ecn_flags =? Z.lor TCP_ECE TCP_CWR then c <| cn_flags := Z.lor (cn_flags c) NICIF_CONN_ECN |> else c.

Definition set_wait_conns (x : listener) (v : option Z) : listener := x <| wait_conns := v |>.

(** The SYN at the head of the backlog and the first waiting connection, [conn]. *)
Definition accept_head s (l : Z) (x : listener) (conn : Z) (p : pkt_tcp) (syn_ts fn_core flow_group : Z)
  : outcome state :=
  c ← conn_at s conn;
  let s := put_conn s conn (syn_conn c x p syn_ts fn_core flow_group) in
  let s := set_arp s (set_mac (ts_arp s) conn (eth_src (p_eth p))) in
  s ← cc_init s conn;
  c ← conn_at s conn;
  let s := put_conn s conn (with_status c CONN_REG_SYNACK) in
  let s := comp_reset s conn in
  '(f, s) ← add_flow s conn (u32 (cn_local_seq c + 1));
  match f with
  | None => mret s
  | Some flow_id =>
      c ← conn_at s conn;
      let s := put_conn s conn (with_flow_id c flow_id) in
      let s := put_listener s l (set_wait_conns x (ht_next c)) in
      s ← register s conn;
      mret (set_arp s (set_ar_q (ts_arp s) (Nbqueue.nbqueue_enq (ar_q (ts_arp s)) conn)))
  end.

Definition listener_accept s (l : Z) : outcome state :=
  x ← listener_at s l;
  match wait_conns x with
  | None => Stop AssertFailed
  | Some conn =>
      _ ← c_assert (backlog_used x >? 0);
      '(bls, fn_core, flow_group) ← backlog_head x;
      let p := pkt_of_bytes (bls_buf bls) in
      '(ret, opts) ← parse_options p (bls_len bls);
      s ← match (if ret =? 0 then opt_ts opts else None) with
          | None => mret s
          | Some off => syn_ts ← ts_val (p_rest p) off; accept_head s l x conn p syn_ts fn_core flow_group
          end;
      x ← listener_at s l;
      mret (put_listener s l (backlog_pop x))
  end.

(** The fields [tcp_accept] sets. *)
Definition accept_conn c (ctx : Z) (d : kernel_appout_accept_conn) (x : listener) (db_id : Z) : connection :=
  let c := c <| cn_ctx := ctx |> in
  let c := c <| cn_opaque := aa_conn_opaque d |> in
  let c := with_status c CONN_SYN_WAIT in
  let c := c <| cn_local_port := li_port x |> in
  let c := c <| cn_db_id := db_id |> in
  let c := c <| cn_flags := li_flags x |> in
  let c := c <| cn_cc := (cn_cc c) <| cnt_tx_pending := 0 |> |> in
  set_ht_next c (wait_conns x).

(** [listen] is [None] when the caller found no listener, which is not checked. *)
Definition tcp_accept s (ctx : Z) (d : kernel_appout_accept_conn) (listen : option Z) (db_id : Z) (m : conn_mem)
  : outcome (Z * state) :=
  '(r, s) ← conn_alloc cfg tas_shm mr_lkey mr_rkey s ctx (u32 (aa_opaque_rx d)) (aa_lkey d) (aa_rkey d) m;
  match r with
  | None => mret (-1, s)
  | Some conn =>
      match listen with
      | None => Stop OutOfBounds
      | Some l =>
          x ← listener_at s l;
          c ← conn_at s conn;
          let s := put_conn s conn (accept_conn c ctx d x db_id) in
          let s := put_listener s l (set_wait_conns x (Some conn)) in
          s ← (if backlog_used x >? 0 then listener_accept s l else mret s);
          mret (0, s)
      end
  end.

Definition listener_packet s (l : Z) (pkt : list Z) (opts : tcp_opts) (fn_core flow_group : Z) : outcome state :=
  let p := pkt_of_bytes pkt in
  if negb (Z.land (TCPH_FLAGS (p_tcp p)) (Z.lnot (Z.lor TCP_ECE TCP_CWR)) =? TCP_SYN)
  then reset_send s p opts
  else
    x ← listener_at s l;
    r ← backlog_add x pkt fn_core flow_group;
    match r with
    | None => mret s
    | Some x =>
        s ← appif_listen_newconn (put_listener s l x) l (ip_src (p_ip p)) (tcp_src (p_tcp p));
        match wait_conns x with
        | Some _ => listener_accept s l
        | None => mret s
        end
    end.

(** ** Packets the fast path passes on

    [pkt] is the buffer, which may be longer than the [len] bytes of the packet. *)
Definition tcp_packet s (pkt : list Z) (len fn_core flow_group : Z) : outcome (Z * state) :=
  let p := pkt_of_bytes pkt in
  if len <? SIZEOF_PKT_TCP then mret (-1, s)
  else if negb (ip_dest (p_ip p) =? cf_ip cfg) then mret (-1, s)
  else
    '(ret, opts) ← parse_options p len;
    if negb (ret =? 0) then mret (-1, s)
    else
      c ← conn_lookup crc4 crc8 (ts_conns s) (ts_ht s) p;
      match c with
      | Some conn => s ← conn_packet s conn p opts fn_core flow_group; mret (0, s)
      | None =>
          l ← listener_lookup (ts_ports s) (ts_multis s) p;
          match l with
          | Some l => s ← listener_packet s l pkt opts fn_core flow_group; mret (0, s)
          | None =>
              s ← (if negb (has_any (TCPH_FLAGS (p_tcp p)) TCP_RST) && negb (cf_kni_name cfg)
                   then reset_send s p opts else mret s);
              mret (-1, s)
          end
      end.

(** ** Closing *)

Definition tcp_close s (conn : Z) : outcome (Z * state) :=
  c ← conn_at s conn;
  if negb (bool_decide (cn_status c = CONN_OPEN)) then mret (-1, s)
  else
    '(tx_seq, rx_seq, tx_c, rx_c, n) ← flow_disable (ar_tx (ts_arp s)) (cn_flow_id c);
    let c := c <| cn_remote_seq := rx_seq |> in
    let c := c <| cn_local_seq := tx_seq |> in
    let s := put_conn (set_nic s n) conn c in
    s ← (if negb tx_c || negb rx_c then conn_send s conn TCP_RST false 0 0 else mret s);
    s ← cc_remove s conn;
    c ← conn_at s conn;
    let s := put_conn s conn (with_status c CONN_CLOSED) in
    _ ← c_assert (negb (cn_to_armed c));
    m ← util_timeout_arm_ts (ar_timers (ts_arp s)) conn 10000 TO_TCP_CLOSED now;
    let s := set_timers s m in
    mret (0, put_conn s conn (with_armed (with_status c CONN_CLOSED) true)).

Definition port_release s (local_port : Z) : state :=
  match port_at (ts_ports s) local_port with
  | PORT_TYPE_CONN _ => set_ports s (<[local_port := PORT_TYPE_UNUSED]> (ts_ports s))
  | _ => s
  end.

Definition conn_close_timeout s (conn : Z) : outcome state :=
  c ← conn_at s conn;
  let s := port_release s (cn_local_port c) in
  s ← unregister s conn;
  pm ← packetmem_free (ts_pm s) (cn_tx_handle c);
  pm ← packetmem_free pm (cn_rx_handle c);
  let s := set_pm s pm in
  n ← flow_free (ar_tx (ts_arp s)) (cn_flow_id c);
  let s := port_release (set_nic s n) (cn_local_port c) in
  s ← appif_conn_closed s conn 0;
  mret (set_conns s (delete conn (ts_conns s))).

Definition tcp_timeout s (conn type : Z) : outcome state :=
  c ← conn_at s conn;
  _ ← c_assert (cn_to_armed c);
  let c := with_armed c false in
  let s := put_conn s conn c in
  if type =? TO_TCP_CLOSED then conn_close_timeout s conn
  else if negb (type =? TO_TCP_HANDSHAKE) then Stop Aborted
  else if negb (bool_decide (cn_status c = CONN_SYN_SENT)) then Stop Aborted
  else
    let c := c <| cn_to_attempts := i32 (cn_to_attempts c + 1) |> in
    let s := put_conn s conn c in
    if u32 (cn_to_attempts c) >? tcp_handshake_retries cfg then conn_failed s conn (-1)
    else
      let c := c <| cn_timeout := u32 (cn_timeout c * 2) |> in
      s ← conn_timeout_arm (put_conn s conn c) conn TO_TCP_HANDSHAKE;
      conn_send s conn SYN_FLAGS true 0 TCP_MSS.

End Tcp.
