(* ===== verification/AppCtx.v ===== *)
(** * Requests of the applications (tas_nic/slow/appif_ctx.c)

    The queue of an application context is polled: a request is carried out by the
    TCP slow path (TcpSlow) and answered, unless the answer comes later. *)
From S2P Require Import Prelude RdmaQueue Packets FlowState FastCtx Util Timeout PacketMem FlowTable SlowState.
From S2P Require Import CongCtl Arp Routing Ports Listener ConnTable AppMsg TcpWire TcpState TcpSlow.

#[local] Open Scope Z_scope.

(** What the allocators return while a request is carried out. *)
Record req_mem := mk_rmem {
  rm_conn : conn_mem; rm_arp : option Z; rm_lm : option Z; rm_lst : option (Z * list backlog_slot);
}.

Definition with_li_app_next (x : listener) (v : option Z) : listener := x <| li_app_next := v |>.

(** ** Lists *)

(** The connection a request names. *)
Definition conn_is (d : kernel_appout_conn_id) (c : connection) : bool :=
  (cn_local_ip c =? ai_local_ip d) && (cn_remote_ip c =? ai_remote_ip d)
  && (cn_local_port c =? ai_local_port d) && (cn_remote_port c =? ai_remote_port d)
  && (cn_opaque c =? ai_opaque d).

Fixpoint find_conn (fuel : nat) (h : conn_heap) (o : option Z) (d : kernel_appout_conn_id) : outcome (option Z) :=
  match fuel with
  | O => Stop OutOfFuel
  | S fuel =>
      match o with
      | None => mret None
      | Some p => c ← get_conn h p; if conn_is d c then mret (Some p) else find_conn fuel h (cn_app_next c) d
      end
  end.

Fixpoint find_ctx (fuel : nat) (m : gmap Z app_context) (o : option Z) (db_id : Z) : outcome (option app_context) :=
  match fuel with
  | O => Stop OutOfFuel
  | S fuel =>
      match o with
      | None => mret None
      | Some p =>
          match m !! p with
          | None => Stop OutOfBounds
          | Some c => if ac_db_id c =? db_id then mret (Some c) else find_ctx fuel m (ac_next c) db_id
          end
      end
  end.

Fixpoint find_listener (fuel : nat) (m : gmap Z listener) (o : option Z) (port opaque : Z) : outcome (option Z) :=
  match fuel with
  | O => Stop OutOfFuel
  | S fuel =>
      match o with
      | None => mret None
      | Some p =>
          match m !! p with
          | None => Stop OutOfBounds
          | Some x =>
              if (li_port x =? port) && (li_opaque x =? opaque) then mret (Some p)
              else find_listener fuel m (li_app_next x) port opaque
          end
      end
  end.

Section Requests.
Context {N A : Type} `{PacketTx N} `{FlowIf N} `{AppQueues A} `{Checksums}.
Context (crc4 : Z -> Z -> Z) (crc8 : Z -> Z -> Z).
Context (eth_addr : Z) (cfg : configuration) (tas_shm mr_lkey mr_rkey : Z).
Context (routes : list routing_table_entry) (hop_fuel : nat) (now cur_ts : Z).
(** Changing the number of cores of the fast path (tas_nic/tas_nic.c). *)
Context (flexnic_scale_to : Z -> tcp_state N A -> outcome (tcp_state N A)).

Abbreviation state := (tcp_state N A).
Implicit Types (s : state).

(** The answers are those to be sent at once; [app] and [ctx] are addresses. *)
Definition kin_conn_open s (app ctx : Z) (d : kernel_appout_conn_open) (m : req_mem)
  : outcome (option kernel_appin * state) :=
  x ← ctx_at s ctx;
  '(ret, conn, s) ← tcp_open crc4 crc8 eth_addr cfg tas_shm mr_lkey mr_rkey routes hop_fuel now
                      s ctx d (ac_db_id x) (rm_conn m) (rm_arp m);
  match (if ret =? 0 then conn else None) with
  | None => mret (Some (AppinConnFailed (ao_opaque d) (-1)), s)
  | Some conn =>
      a ← app_at s app;
      c ← conn_at s conn;
      let s := put_conn s conn (with_app_next c (ap_conns a)) in
      mret (None, put_app s app (a <| ap_conns := Some conn |>))
  end.

Definition kin_conn_move s (app : Z) (d : kernel_appout_conn_id) (db_id : Z)
  : outcome (option kernel_appin * state) :=
  let answer st := Some (AppinStatus KERNEL_APPIN_STATUS_CONN_MOVE (ai_opaque d) st) in
  a ← app_at s app;
  r ← find_conn (chain_fuel (ts_conns s)) (ts_conns s) (ap_conns a) d;
  match r with
  | None => mret (answer (-1), s)
  | Some conn =>
      x ← find_ctx (S (size (ts_ctxs s))) (ts_ctxs s) (ap_contexts a) db_id;
      match x with
      | None => mret (answer (-1), s)
      | Some x =>
          c ← conn_at s conn;
          if negb (bool_decide (cn_status c = CONN_OPEN)) then mret (answer (-1), s)
          else
            n ← flow_move (ar_tx (ts_arp s)) (ac_db_id x) (cn_flow_id c);
            mret (answer 0, set_nic s n)
      end
  end.

Definition kin_conn_close s (app : Z) (d : kernel_appout_conn_id) : outcome (option kernel_appin * state) :=
  let failed := Some (AppinStatus KERNEL_APPIN_STATUS_CONN_CLOSE (ai_opaque d) (-1)) in
  a ← app_at s app;
  r ← find_conn (chain_fuel (ts_conns s)) (ts_conns s) (ap_conns a) d;
  match r with
  | None => mret (failed, s)
  | Some conn =>
      '(ret, s) ← tcp_close eth_addr cfg now s conn;
      mret (if ret =? 0 then None else failed, s)
  end.

Definition kin_listen_open s (app ctx : Z) (opaque backlog local_port flags : Z) (m : req_mem)
  : outcome (option kernel_appin * state) :=
  let answer st := Some (AppinStatus KERNEL_APPIN_STATUS_LISTEN_OPEN opaque st) in
  '(ret, lst, s) ← tcp_listen s ctx opaque local_port backlog (has_any flags KERNEL_APPOUT_LISTEN_REUSEPORT)
                     (rm_lm m) (rm_lst m);
  match (if ret =? 0 then lst else None) with
  | None => mret (answer (-1), s)
  | Some lst =>
      a ← app_at s app;
      x ← listener_at s lst;
      let s := put_listener s lst (with_li_app_next x (ap_listeners a)) in
      mret (answer 0, put_app s app (a <| ap_listeners := Some lst |>))
  end.

(** A request for a listener that does not exist is not refused. *)
Definition kin_accept_conn s (app ctx : Z) (d : kernel_appout_accept_conn) (m : req_mem)
  : outcome (option kernel_appin * state) :=
  a ← app_at s app;
  l ← find_listener (S (size (ts_listeners s))) (ts_listeners s) (ap_listeners a) (aa_local_port d)
        (aa_listen_opaque d);
  x ← ctx_at s ctx;
  '(ret, s) ← tcp_accept crc4 crc8 cfg tas_shm mr_lkey mr_rkey cur_ts s ctx d l (ac_db_id x) (rm_conn m);
  if negb (ret =? 0) then
    q ← kout_kick (ts_app s) ctx;
    mret (Some (AppinAcceptFailed (aa_conn_opaque d) (-1)), set_app s q)
  else mret (None, s).

Definition kin_request s (app ctx : Z) (kin : kernel_appout) (m : req_mem)
  : outcome (option kernel_appin * state) :=
  match kin with
  | AppoutOpen d => kin_conn_open s app ctx d m
  | AppoutMove d db => kin_conn_move s app d db
  | AppoutClose d _ => kin_conn_close s app d
  | AppoutListen o b port flags => kin_listen_open s app ctx o b port flags m
  | AppoutAccept d => kin_accept_conn s app ctx d m
  | AppoutScale n => s ← flexnic_scale_to n s; mret (None, s)
  | AppoutListenClose _ _ | AppoutOther _ => mret (None, s)
  end.

(** The result is 1 when a request was taken. *)
Definition appif_ctx_poll s (app ctx : Z) (m : req_mem) : outcome (Z * state) :=
  full ← kout_full (ts_app s) ctx;
  if full : bool then mret (0, s)
  else
    '(r, q) ← kin_get (ts_app s) ctx;
    match r with
    | None => mret (0, set_app s q)
    | Some kin =>
        '(kout, s) ← kin_request (set_app s q) app ctx kin m;
        match kout with
        | None => mret (1, s)
        | Some e =>
            '(room, q) ← kout_reserve (ts_app s) ctx;
            if negb room then Stop Aborted
            else s ← post_kout (set_app s q) ctx e; mret (1, s)
        end
    end.

End Requests.
