(* ===== verification/AppReg.v ===== *)
(** * Registration of applications (tas_nic/slow/appif.c, appif.h)

    An application connects to a Unix socket and asks for contexts. A thread of its
    own serves the socket ([uxsocket_thread]); the slow path registers the contexts
    with the fast path and polls them ([appif_poll]). The two threads pass
    applications to each other through two queues, [ux_to_poll] and [poll_to_ux];
    each handler is one step of its thread. Theorems are in AppRegSpec. *)
From S2P Require Import Prelude RdmaQueue Wire Util PacketMem.
Import Nbqueue.

#[local] Open Scope Z_scope.

(** ** Data *)
Inductive communicator :=
| CtLocal (fd : Z)
| CtRemote (fd conn : Z).

(** [struct kernel_uxsock_response]; the sizes of the flexible array are the cores. *)
Record uxsock_response := mk_resp {
  rs_app_out_off : Z; rs_app_in_off : Z; rs_status : Z; rs_db_id : Z; rs_qs_num : Z; rs_qs : list (Z * Z);
}.
#[export] Instance eta_resp : Eta uxsock_response := fun r =>
  mk_resp (rs_app_out_off r) (rs_app_in_off r) (rs_status r) (rs_db_id r) (rs_qs_num r) (rs_qs r).

(** What a remote application's queues are described by. *)
Record remote_queues := mk_rq { qs_base : Z; qs_in_len : Z; qs_out_len : Z; qs_lkey : Z; qs_rkey : Z }.

(** [struct application], but for its connections and listeners, which belong to the
    part that polls. The union [buffer] is two fields, as the code uses each only
    under its type. *)
Record reg_app := mk_rapp {
  ra_id : Z;
  ra_comm : communicator;
  ra_req_rx : Z;
  ra_req : list Z;
  ra_resp : uxsock_response;
  ra_queues : remote_queues;
  ra_contexts : list Z;
  ra_need_reg_ctx : option Z;
  ra_need_reg_ctx_done : option Z;
  ra_status : Z;
  ra_closed : bool;
}.
#[export] Instance eta_rapp : Eta reg_app := fun a =>
  mk_rapp (ra_id a) (ra_comm a) (ra_req_rx a) (ra_req a) (ra_resp a) (ra_queues a) (ra_contexts a)
    (ra_need_reg_ctx a) (ra_need_reg_ctx_done a) (ra_status a) (ra_closed a).

(** [struct app_context]: its application, doorbell, the addresses of the queues to
    and from the slow path, and its packet memory handles. *)
Record reg_ctx := mk_rctx {
  rc_app : Z; rc_doorbell : Z; rc_kin : option Z; rc_kout : option Z; rc_ready : bool;
  rc_comm : communicator; rc_handles : list Z;
}.
#[export] Instance eta_rctx : Eta reg_ctx := fun c =>
  mk_rctx (rc_app c) (rc_doorbell c) (rc_kin c) (rc_kout c) (rc_ready c) (rc_comm c) (rc_handles c).

(** What registration uses of the rest of the slow path: the packet memory, the
    registration of a context with the fast path ([nicif_appctx_add]), the news of
    applications and contexts for the part that polls, and polling a context
    ([appif_ctx_poll]). *)
Class SlowApps (T : Type) := {
  sa_pm : T -> packetmem;
  sa_set_pm : T -> packetmem -> T;
  sa_appctx_add : T -> Z -> Z -> list rdma_queue -> list rdma_queue -> communicator -> outcome (Z * T);
  sa_new_app : T -> Z -> T;
  sa_new_ctx : T -> Z -> Z -> Z -> option rdma_queue -> option rdma_queue -> T;
  sa_poll : T -> Z -> Z -> outcome (Z * T);
}.

Definition FLEXNIC_PL_APPST_CTX_NUM : Z := 31.
Definition SIZEOF_UXSOCK_REQUEST : Z := 8.
Definition SIZEOF_POINTER : Z := 8.

Definition KERNEL_EPOLLIN : Z := 1.
Definition EPOLLERR_HUP : Z := 0x2018.  (* EPOLLRDHUP | EPOLLHUP | EPOLLERR *)

(** ** Initialisation *)

(** The freelist of doorbells: the loop counts down and adds each at the head.
    [alloc] tells for each whether memory can be allocated. *)
Fixpoint make_doorbells (n : nat) (alloc : Z -> bool) (free : list Z) : option (list Z) :=
  match n with
  | O => Some free
  | S k => let i := Z.of_nat n in if alloc i then make_doorbells k alloc (i :: free) else None
  end.

(** ** The descriptors a new application gets

    The first message has the descriptor to wake the slow path, the others up to four
    descriptors of cores each. *)
Fixpoint fd_batches (fuel : nat) (fds : list Z) : list (list Z) :=
  match fuel, fds with
  | S fuel, _ :: _ => take 4 fds :: fd_batches fuel (drop 4 fds)
  | _, _ => []
  end.
Definition fd_messages (kernel_notifyfd : Z) (evfds : list Z) : list (list Z) :=
  [kernel_notifyfd] :: fd_batches (length evfds) evfds.

(** What [malloc] gives for an application: an address, if any, whether there is
    memory for the response, and what is in the fields that are not initialised. *)
Record app_mem := mk_amem { am_app : option Z; am_resp : bool; am_req_rx : Z; am_req : list Z; am_status : Z }.
(** What the allocations for a context give: its address, the addresses of handles
    that packet memory asks for, and the contents of the memory. *)
Record ctx_mem := mk_xmem { xm_ctx : option Z; xm_handles : list (option Z); xm_raw : Z -> list Z }.

Section Reg.
Context {T : Type} `{SlowApps T}.

(** Both threads' static variables. [rg_mem] is what is in the shared memory at the
    address of a queue; [rg_epoll] the applications whose socket is watched, and
    whether for requests; [rg_registered], [rg_sent] and [rg_closed] record, in
    order, the contexts the fast path took (application id and doorbell), the
    responses by the descriptor they were sent to, the descriptors closed, and what
    remote applications are told: their queues, the doorbell and how many queues. *)
Record reg_state := mk_reg {
  rg_slow : T;
  rg_doorbells : list Z;
  rg_next_id : Z;
  rg_apps : gmap Z reg_app;
  rg_ctxs : gmap Z reg_ctx;
  rg_applications : list Z;
  rg_ux_to_poll : nbqueue;
  rg_poll_to_ux : nbqueue;
  rg_mem : gmap Z rdma_queue;
  rg_epoll : gmap Z bool;
  rg_registered : list (Z * Z);
  rg_sent : list (Z * uxsock_response);
  rg_closed : list Z;
  rg_acked : list (Z * (remote_queues * Z * Z));
}.
#[export] Instance eta_reg : Eta reg_state := fun s =>
  mk_reg (rg_slow s) (rg_doorbells s) (rg_next_id s) (rg_apps s) (rg_ctxs s) (rg_applications s)
    (rg_ux_to_poll s) (rg_poll_to_ux s) (rg_mem s) (rg_epoll s) (rg_registered s) (rg_sent s) (rg_closed s) (rg_acked s).

(** The number of cores, the base of the shared memory, and the configuration. *)
Context (cores_num tas_shm app_kin_len app_kout_len : Z).
Implicit Types s : reg_state.

Definition appif_init (t : T) (ux_ok thread_ok : bool) (alloc : Z -> bool) : option reg_state :=
  if negb ux_ok then None
  else
    free ← make_doorbells (Z.to_nat FLEXNIC_PL_APPST_CTX_NUM) alloc [];
    if thread_ok
    then Some (mk_reg t free 0 ∅ ∅ [] (nbqueue_init ∅) (nbqueue_init ∅) ∅ ∅ [] [] [] [])
    else None.

Definition get_rapp s (app : Z) : outcome reg_app :=
  match rg_apps s !! app with Some a => Ok a | None => Stop OutOfBounds end.
Definition get_rctx s (ctx : Z) : outcome reg_ctx :=
  match rg_ctxs s !! ctx with Some c => Ok c | None => Stop OutOfBounds end.
Definition put_rapp s (app : Z) (a : reg_app) : reg_state := s <| rg_apps := <[app := a]> (rg_apps s) |>.
Definition put_rctx s (ctx : Z) (c : reg_ctx) : reg_state := s <| rg_ctxs := <[ctx := c]> (rg_ctxs s) |>.

Definition set_epoll s (v : gmap Z bool) : reg_state := s <| rg_epoll := v |>.

Definition set_poll_to_ux s (q : nbqueue) : reg_state := s <| rg_poll_to_ux := q |>.
Definition set_ux_to_poll s (q : nbqueue) : reg_state := s <| rg_ux_to_poll := q |>.

Definition set_registered s (l : list (Z * Z)) : reg_state := s <| rg_registered := l |>.
Definition set_mem s (m : gmap Z rdma_queue) : reg_state := s <| rg_mem := m |>.
Definition set_slow s (t : T) : reg_state := s <| rg_slow := t |>.

(** Closing a descriptor takes it out of the epoll as well. *)
Definition communicator_close s (app : Z) (c : communicator) : reg_state :=
  match c with
  | CtLocal fd => s <| rg_closed := rg_closed s ++ [fd] |> <| rg_epoll := delete app (rg_epoll s) |>
  | CtRemote _ _ => s
  end.

Definition uxsocket_error s (app : Z) : outcome reg_state :=
  a ← get_rapp s app;
  mret (put_rapp (communicator_close s app (ra_comm a)) app (a <| ra_closed := true |>)).

(** ** Accepting an application *)
Definition resp0 : uxsock_response := mk_resp 0 0 0 0 0 (replicate (Z.to_nat cores_num) (0, 0)).
Definition queues0 : remote_queues := mk_rq 0 0 0 0 0.

(** NULL when memory is short; the connection is closed then. *)
Definition allocate_application s (comm : communicator) (m : app_mem) : option Z * reg_state :=
  let local := match comm with CtLocal _ => true | CtRemote _ _ => false end in
  match am_app m with
  | None => (None, match comm with CtLocal fd => s <| rg_closed := rg_closed s ++ [fd] |> | _ => s end)
  | Some app =>
      if local && negb (am_resp m)
      then (None, match comm with CtLocal fd => s <| rg_closed := rg_closed s ++ [fd] |> | _ => s end)
      else
        let a := mk_rapp (rg_next_id s) comm (am_req_rx m) (am_req m) resp0 queues0 [] None None (am_status m) false in
        (Some app, (put_rapp s app a) <| rg_next_id := u16 (rg_next_id s + 1) |>
                     <| rg_ux_to_poll := nbqueue_enq (rg_ux_to_poll s) app |>)
  end.

(** [cfd] is what [accept] returns, if it does; [sent] how many of the messages with
    descriptors can be sent (a failure of the first is only reported); [epoll_ok]
    whether the socket can be watched. *)
Definition uxsocket_accept s (cfd : option Z) (evfds : list Z) (kernel_notifyfd : Z) (sent : nat -> bool)
  (m : app_mem) (epoll_ok : bool) : outcome reg_state :=
  match cfd with
  | None => mret s
  | Some cfd =>
      if negb (forallb sent (seq 1 (length (fd_messages kernel_notifyfd evfds) - 1))) then Stop Aborted
      else
        let '(app, s) := allocate_application s (CtLocal cfd) m in
        match app with
        | None => mret s
        | Some app =>
            if epoll_ok then mret (set_epoll s (<[app := true]> (rg_epoll s)))
            else mret (s <| rg_apps := delete app (rg_apps s) |> <| rg_closed := rg_closed s ++ [cfd] |>)
        end
  end.

(** ** Requests *)
Definition ux_rxq_len (req : list Z) : Z := get_le req 0 4.
Definition ux_txq_len (req : list Z) : Z := get_le req 4 4.

(** [packetmem_alloc] on the shared packet memory; the next of the handles that
    [malloc] gives. *)
Definition pm_alloc s (len : Z) (hs : list (option Z)) : outcome (Z * option (Z * Z) * list (option Z) * reg_state) :=
  '(rv, r, pm) ← packetmem_alloc (sa_pm (rg_slow s)) len (match hs with h :: _ => h | [] => None end);
  mret (rv, r, tail hs, s <| rg_slow := sa_set_pm (rg_slow s) pm |>).
Definition pm_free s (handle : Z) : outcome reg_state :=
  pm ← packetmem_free (sa_pm (rg_slow s)) handle;
  mret (s <| rg_slow := sa_set_pm (rg_slow s) pm |>).

(** A queue is written into the memory at [addr], if it is large enough. *)
Definition place_queue s (raw : Z -> list Z) (addr nbytes qp lkey rkey : Z) : option Z * reg_state :=
  match rq_allocate_in_place addr (raw addr) nbytes qp lkey rkey with
  | Some q => (Some addr, s <| rg_mem := <[addr := q]> (rg_mem s) |>)
  | None => (None, s)
  end.

(** The queues of one core: [None] when packet memory is short, with the first of
    the two freed again. *)
Definition core_queues s (raw : Z -> list Z) (app : Z) (i : Z) (hs : list (option Z))
  : outcome (option (list Z) * list (option Z) * reg_state) :=
  a ← get_rapp s app;
  '(rv, rx, hs, s) ← pm_alloc s (ux_rxq_len (ra_req a)) hs;
  match rx with
  | None => mret (None, hs, s)
  | Some (off_rxq, h_rx) =>
      '(rv, tx, hs, s) ← pm_alloc s (ux_txq_len (ra_req a)) hs;
      match tx with
      | None => s ← pm_free s h_rx; mret (None, hs, s)
      | Some (off_txq, h_tx) =>
          let '(_, s) := place_queue s raw (tas_shm + off_rxq) (ux_rxq_len (ra_req a)) 0 (-1) (-1) in
          let '(_, s) := place_queue s raw (tas_shm + off_txq) (ux_txq_len (ra_req a)) 0 (-1) (-1) in
          let qs := <[Z.to_nat i := (off_rxq, off_txq)]> (rs_qs (ra_resp a)) in
          mret (Some [h_rx; h_tx], hs, put_rapp s app (a <| ra_resp := (ra_resp a) <| rs_qs := qs |> |>))
      end
  end.
Fixpoint all_queues (n : nat) s (raw : Z -> list Z) (app : Z) (i : Z) (hs : list (option Z))
  : outcome (option (list Z) * reg_state) :=
  match n with
  | O => mret (Some [], s)
  | S n =>
      '(r, hs, s) ← core_queues s raw app i hs;
      match r with
      | None => mret (None, s)
      | Some l =>
          '(r, s) ← all_queues n s raw app (i + 1) hs;
          mret (match r with Some l' => Some (l ++ l') | None => None end, s)
      end
  end.

(** [error_pktmem]: the queues of the cores that were allocated are not freed. *)
Definition error_pktmem s (app pm_in pm_out : Z) : outcome (option Z * reg_state) :=
  s ← pm_free s pm_out; s ← pm_free s pm_in; s ← uxsocket_error s app; mret (None, s).

Definition local_resp (r : uxsock_response) (off_in off_out db : Z) : uxsock_response :=
  r <| rs_app_out_off := off_in |> <| rs_app_in_off := off_out |> <| rs_db_id := u16 db |>
    <| rs_qs_num := u16 cores_num |> <| rs_status := 0 |>.

Definition allocate_local_app_context s (app : Z) (ctx_comm : communicator) (qp lkey rkey : Z) (m : ctx_mem)
  : outcome (option Z * reg_state) :=
  a ← get_rapp s app;
  _ ← c_assert (match ra_comm a with CtLocal _ => true | _ => false end);
  match xm_ctx m with
  | None => s ← uxsocket_error s app; mret (None, s)
  | Some ctx =>
      let kin_qsize := app_kin_len + SIZEOF_POINTER in
      let kout_qsize := app_kout_len + SIZEOF_POINTER in
      '(rv, r_in, hs, s) ← pm_alloc s kin_qsize (xm_handles m);
      match r_in with
      | None => s ← uxsocket_error s app; mret (None, s)
      | Some (off_in, pm_in) =>
          '(rv, r_out, hs, s) ← pm_alloc s kout_qsize hs;
          match r_out with
          | None => s ← pm_free s pm_in; s ← uxsocket_error s app; mret (None, s)
          | Some (off_out, pm_out) =>
              '(r, s) ← all_queues (Z.to_nat cores_num) s (xm_raw m) app 0 hs;
              match r, rg_doorbells s with
              | Some qs, db :: free =>
                  let s := s <| rg_doorbells := free |> in
                  let '(kin, s) := place_queue s (xm_raw m) (tas_shm + off_in) kin_qsize qp lkey rkey in
                  (* the code passes the size of the other queue *)
                  let '(kout, s) := place_queue s (xm_raw m) (tas_shm + off_out) kin_qsize qp lkey rkey in
                  a ← get_rapp s app;
                  let s := put_rctx s ctx (mk_rctx app db kin kout false ctx_comm (pm_in :: pm_out :: qs)) in
                  let t := sa_new_ctx (rg_slow s) app ctx db (kin ≫= fun q => rg_mem s !! q) (kout ≫= fun q => rg_mem s !! q) in
                  let a := a <| ra_contexts := ctx :: ra_contexts a |>
                             <| ra_resp := local_resp (ra_resp a) off_in off_out db |>
                             <| ra_need_reg_ctx_done := Some ctx |> <| ra_need_reg_ctx := Some ctx |> in
                  mret (Some ctx, (put_rapp s app a) <| rg_slow := t |>)
              | _, _ => error_pktmem s app pm_in pm_out
              end
          end
      end
  end.

(** A remote application's context. The result is NULL whether it worked or not. *)
Definition remote_kin (q : remote_queues) : Z := qs_base q.
Definition queue_after s (addr : Z) : outcome Z :=
  match rg_mem s !! addr with
  | Some q => mret (addr + SIZEOF_RDMA_QUEUE + buffer_size q)
  | None => Stop OutOfBounds
  end.
Definition allocate_remote_app_context s (app : Z) (ctx_comm : communicator) (q : remote_queues) (m : ctx_mem)
  : outcome (option Z * reg_state) :=
  a ← get_rapp s app;
  _ ← c_assert (match ra_comm a with CtRemote _ _ => true | _ => false end);
  match xm_ctx m with
  | None => s ← uxsocket_error s app; mret (None, s)
  | Some ctx =>
      let s := put_rapp s app (a <| ra_queues := q |>) in
      match rg_doorbells s with
      | [] => mret (None, s)
      | db :: free =>
          kout ← queue_after s (remote_kin q);
          let s := put_rctx (s <| rg_doorbells := free |>) ctx
                     (mk_rctx app db (Some (remote_kin q)) (Some kout) false ctx_comm []) in
          let t := sa_new_ctx (rg_slow s) app ctx db (rg_mem s !! remote_kin q) (rg_mem s !! kout) in
          let a := a <| ra_queues := q |> <| ra_contexts := ctx :: ra_contexts a |>
                     <| ra_need_reg_ctx_done := Some ctx |> <| ra_need_reg_ctx := Some ctx |> in
          mret (None, (put_rapp s app a) <| rg_slow := t |>)
      end
  end.

(** [rx] is the data [recvmsg] returns, if it does, and [evfd] the descriptor that
    comes with it. What arrives is always put at the start of [req]. *)
Definition uxsocket_receive s (app : Z) (rx : option (list Z)) (evfd : option Z) (m : ctx_mem) (epoll_ok : bool)
  : outcome reg_state :=
  a ← get_rapp s app;
  _ ← c_assert (match ra_comm a with CtLocal _ => true | _ => false end);
  match rx with
  | None => uxsocket_error s app
  | Some data =>
      req ← mem_write (ra_req a) 0 data;
      let n := Z.of_nat (length data) in
      let a := a <| ra_req := req |> in
      if u64 (n + ra_req_rx a) <? SIZEOF_UXSOCK_REQUEST
      then mret (put_rapp s app (a <| ra_req_rx := u64 (ra_req_rx a + n) |>))
      else
        '(r, s) ← allocate_local_app_context (put_rapp s app (a <| ra_req_rx := 0 |>)) app
                    (CtLocal (default 0 evfd)) 0 (-1) (-1) m;
        match r with
        | None => uxsocket_error s app
        | Some _ =>
            if epoll_ok then mret (set_epoll s (<[app := false]> (rg_epoll s))) else Stop Aborted
        end
  end.

(** ** Completions *)

(** [send_ok]: the response was sent, completely. *)
Definition uxsocket_notify_app s (app : Z) (send_ok epoll_ok : bool) : outcome reg_state :=
  a ← get_rapp s app;
  if negb (ra_status a =? 0) then uxsocket_error s app
  else
    match ra_need_reg_ctx_done a with
    | None => Stop OutOfBounds
    | Some ctx =>
        c ← get_rctx s ctx;
        let s := put_rctx s ctx (c <| rc_ready := true |>) in
        match ra_comm a with
        | CtLocal fd =>
            if negb send_ok then uxsocket_error s app
            else if epoll_ok
            then mret (set_epoll (s <| rg_sent := rg_sent s ++ [(fd, ra_resp a)] |>) (<[app := true]> (rg_epoll s)))
            else Stop Aborted
        | CtRemote _ _ =>
            if send_ok
            then mret (s <| rg_acked := rg_acked s ++ [(app, (ra_queues a, u16 (rc_doorbell c), u16 cores_num))] |>)
            else Stop Aborted
        end
    end.

Fixpoint notify_loop (fuel : nat) s (send_ok epoll_ok : Z -> bool) : outcome reg_state :=
  match fuel with
  | O => Stop OutOfFuel
  | S fuel =>
      '(app, q) ← nbqueue_deq (rg_poll_to_ux s);
      match app with
      | None => mret (set_poll_to_ux s q)
      | Some app =>
          s ← uxsocket_notify_app (set_poll_to_ux s q) app (send_ok app) (epoll_ok app);
          notify_loop fuel s send_ok epoll_ok
      end
  end.

(** [read_ok]: the descriptor could be read, or had nothing. *)
Definition uxsocket_notify s (read_ok : bool) (send_ok epoll_ok : Z -> bool) : outcome reg_state :=
  if negb read_ok then Stop Aborted
  else notify_loop (S (size (next (rg_poll_to_ux s)))) s send_ok epoll_ok.

(** ** The thread of the socket: one event *)
Inductive ux_event :=
| EvListen (cfd : option Z) (evfds : list Z) (kernel_notifyfd : Z) (sent : nat -> bool) (m : app_mem) (epoll_ok : bool)
| EvNotify (read_ok : bool) (send_ok epoll_ok : Z -> bool)
| EvApp (app events : Z) (rx : option (list Z)) (evfd : option Z) (m : ctx_mem) (epoll_ok : bool).

Definition ux_handle s (e : ux_event) : outcome reg_state :=
  match e with
  | EvListen cfd evfds nfd sent m ok => uxsocket_accept s cfd evfds nfd sent m ok
  | EvNotify r w e => uxsocket_notify s r w e
  | EvApp app events rx evfd m ok =>
      if negb (Z.land events EPOLLERR_HUP =? 0) then uxsocket_error s app
      else if negb (Z.land events KERNEL_EPOLLIN =? 0) then uxsocket_receive s app rx evfd m ok
      else mret s
  end.

(** ** The slow path's side *)

(** New applications. *)
Fixpoint new_apps (fuel : nat) s : outcome reg_state :=
  match fuel with
  | O => Stop OutOfFuel
  | S fuel =>
      '(app, q) ← nbqueue_deq (rg_ux_to_poll s);
      match app with
      | None => mret (set_ux_to_poll s q)
      | Some app =>
          _ ← get_rapp s app;
          new_apps fuel ((set_ux_to_poll s q) <| rg_applications := app :: rg_applications s |>
                           <| rg_slow := sa_new_app (rg_slow s) app |>)
      end
  end.

(** The address of a core's queues, [app_get_flexnic_rq] and [app_get_flexnic_tq]. *)
Definition app_get_flexnic_rq s (a : reg_app) (q : Z) : outcome Z :=
  match ra_comm a with
  | CtLocal _ =>
      match rs_qs (ra_resp a) !! Z.to_nat q with
      | Some (rx, _) => mret (tas_shm + rx)
      | None => Stop OutOfBounds
      end
  | CtRemote _ _ =>
      kout ← queue_after s (remote_kin (ra_queues a));
      e ← queue_after s kout;
      mret (e + i32 (u64 (2 * SIZEOF_RDMA_QUEUE + qs_in_len (ra_queues a) + qs_out_len (ra_queues a))) * q)
  end.
Definition app_get_flexnic_tq s (a : reg_app) (q : Z) : outcome Z :=
  match ra_comm a with
  | CtLocal _ =>
      match rs_qs (ra_resp a) !! Z.to_nat q with
      | Some (_, tx) => mret (tas_shm + tx)
      | None => Stop OutOfBounds
      end
  | CtRemote _ _ => rq ← app_get_flexnic_rq s a q; queue_after s rq
  end.

(** A queue that is to be there: its own address is in one of its end points. Where
    no queue was set up, the memory does not hold its address. *)
Definition queue_at s (addr : Z) (end_ : rdma_queue -> rdma_queue_endpoint) : outcome rdma_queue :=
  match rg_mem s !! addr with
  | Some q => _ ← c_assert (ep_addr (end_ q) =? addr); mret q
  | None => Stop AssertFailed
  end.

Fixpoint core_rqs (n : nat) s (a : reg_app) (i : Z) : outcome (list rdma_queue * list rdma_queue) :=
  match n with
  | O => mret ([], [])
  | S n =>
      ra ← app_get_flexnic_rq s a i; r ← queue_at s ra tx;
      ta ← app_get_flexnic_tq s a i; t ← queue_at s ta rx;
      '(rs, ts) ← core_rqs n s a (i + 1);
      mret (r :: rs, t :: ts)
  end.

(** Registration of the context an application waits for: [false] when it failed. *)
Definition register_ctx s (app : Z) (a : reg_app) (ctx : Z) : outcome (bool * reg_state) :=
  let s := put_rapp s app (a <| ra_need_reg_ctx := (None : option Z) |>) in
  '(rxqs, txqs) ← core_rqs (Z.to_nat cores_num) s a 0;
  c ← get_rctx s ctx;
  '(rv, t) ← sa_appctx_add (rg_slow s) (ra_id a) (rc_doorbell c) rxqs txqs (rc_comm c);
  let s := set_slow s t in
  if negb (rv =? 0) then s ← uxsocket_error s app; mret (false, s)
  else mret (true, set_poll_to_ux (set_registered s (rg_registered s ++ [(ra_id a, rc_doorbell c)]))
                     (nbqueue_enq (rg_poll_to_ux s) app)).

Fixpoint poll_ctxs s (app : Z) (l : list Z) (n : Z) : outcome (Z * reg_state) :=
  match l with
  | [] => mret (n, s)
  | ctx :: l =>
      c ← get_rctx s ctx;
      if negb (rc_ready c) then poll_ctxs s app l n
      else '(k, t) ← sa_poll (rg_slow s) app ctx; poll_ctxs (set_slow s t) app l (u32 (n + k))
  end.

Fixpoint poll_apps s (l : list Z) (n : Z) : outcome (Z * reg_state) :=
  match l with
  | [] => mret (n, s)
  | app :: l =>
      a ← get_rapp s app;
      '(ok, s) ← match ra_need_reg_ctx a with
                 | Some ctx => register_ctx s app a ctx
                 | None => mret (true, s)
                 end;
      if negb ok then poll_apps s l n
      else '(n, s) ← poll_ctxs s app (ra_contexts a) n; poll_apps s l n
  end.

Definition appif_poll s : outcome (Z * reg_state) :=
  s ← new_apps (S (size (next (rg_ux_to_poll s)))) s;
  poll_apps s (rg_applications s) 0.

(** ** The two threads *)
Inductive reg_step := RsEvent (e : ux_event) | RsPoll.
Definition reg_do s (o : reg_step) : outcome reg_state :=
  match o with
  | RsEvent e => ux_handle s e
  | RsPoll => '(_, s) ← appif_poll s; mret s
  end.
Fixpoint reg_run s (l : list reg_step) : outcome reg_state :=
  match l with
  | [] => mret s
  | o :: l => s ← reg_do s o; reg_run s l
  end.

End Reg.
Arguments reg_state : clear implicits.
