(* ===== verification/AppRegSpec.v ===== *)
(** * Registration of applications: what holds of every interleaving

    The thread of the socket and the slow path take turns in any order; in every
    state they reach doorbells belong to one context each, a context that is polled
    is one the fast path knows, and an application waits for at most one context. *)
From S2P Require Import Prelude RdmaQueue Wire Util PacketMem FlowTable AppReg.
Import Nbqueue.

#[local] Open Scope Z_scope.

Section Inv.
Context {T : Type} `{SlowApps T}.
Context (cores_num tas_shm app_kin_len app_kout_len : Z).
Implicit Types s : reg_state T.

(** ** The part of an application the two threads hand over *)
Record core := mk_core { co_id : Z; co_ctxs : list Z; co_need : option Z; co_done : option Z }.
Definition core_of (a : reg_app) : core :=
  mk_core (ra_id a) (ra_contexts a) (ra_need_reg_ctx a) (ra_need_reg_ctx_done a).
Definition cores s : gmap Z core := core_of <$> rg_apps s.

Lemma cores_lookup s app a : rg_apps s !! app = Some a -> cores s !! app = Some (core_of a).
Proof. intros E. unfold cores. by rewrite lookup_fmap, E. Qed.
Lemma cores_put s app a : cores (put_rapp s app a) = <[app := core_of a]> (cores s).
Proof. unfold cores. simpl. by rewrite fmap_insert. Qed.
Lemma cores_put_same s app a b : rg_apps s !! app = Some b -> core_of a = core_of b ->
  cores (put_rapp s app a) = cores s.
Proof. intros E Ea. rewrite cores_put, Ea. apply insert_id, cores_lookup, E. Qed.

(** ** The invariant

    [u] and [l] are what is in the queues to the slow path and from it. *)
Definition doorbell_ok (d : Z) : Prop := 1 <= d <= FLEXNIC_PL_APPST_CTX_NUM.
Definition waits_for s (a : core) (c : Z) : Prop :=
  co_done a = Some c /\ c ∈ co_ctxs a /\ exists x, rg_ctxs s !! c = Some x /\ rc_ready x = false.

Record reg_inv s (u l : list Z) : Prop := {
  ri_ux : holds (rg_ux_to_poll s) u;
  ri_po : holds (rg_poll_to_ux s) l;
  ri_nodup : NoDup (u ++ rg_applications s);
  ri_apps : forall app, is_Some (cores s !! app) <-> app ∈ u ++ rg_applications s;
  ri_free : NoDup (rg_doorbells s) /\ Forall doorbell_ok (rg_doorbells s);
  ri_ctx : forall c x, rg_ctxs s !! c = Some x -> doorbell_ok (rc_doorbell x) /\
    rc_doorbell x ∉ rg_doorbells s /\ exists a, cores s !! rc_app x = Some a /\ c ∈ co_ctxs a;
  ri_db : forall c1 c2 x1 x2, rg_ctxs s !! c1 = Some x1 -> rg_ctxs s !! c2 = Some x2 ->
    rc_doorbell x1 = rc_doorbell x2 -> c1 = c2;
  ri_own : forall app a c, cores s !! app = Some a -> c ∈ co_ctxs a ->
    exists x, rg_ctxs s !! c = Some x /\ rc_app x = app;
  ri_ready : forall c x a, rg_ctxs s !! c = Some x -> rc_ready x = true ->
    cores s !! rc_app x = Some a -> (co_id a, rc_doorbell x) ∈ rg_registered s;
  ri_pending : forall app a c, cores s !! app = Some a -> co_need a = Some c -> app ∉ l /\ waits_for s a c;
  ri_done : forall app, app ∈ l -> exists a c, cores s !! app = Some a /\ co_need a = None /\ waits_for s a c /\
    forall x, rg_ctxs s !! c = Some x -> (co_id a, rc_doorbell x) ∈ rg_registered s;
  ri_idle : forall app, rg_epoll s !! app = Some true -> app ∉ l /\
    exists a, cores s !! app = Some a /\ co_need a = None;
}.

(** States that agree in all of it. *)
Record same s s' : Prop := {
  sm_cores : cores s' = cores s;
  sm_ctxs : rg_ctxs s' = rg_ctxs s;
  sm_free : rg_doorbells s' = rg_doorbells s;
  sm_apps : rg_applications s' = rg_applications s;
  sm_ux : rg_ux_to_poll s' = rg_ux_to_poll s;
  sm_po : rg_poll_to_ux s' = rg_poll_to_ux s;
  sm_reg : rg_registered s' = rg_registered s;
  sm_epoll : forall app, rg_epoll s' !! app = Some true -> rg_epoll s !! app = Some true;
}.
Lemma same_refl s : same s s.
Proof. by constructor. Qed.
Lemma same_trans s s1 s2 : same s s1 -> same s1 s2 -> same s s2.
Proof. intros [] []. constructor; try congruence. auto. Qed.

Lemma same_inv s s' u l : same s s' -> reg_inv s u l -> reg_inv s' u l.
Proof.
  intros [E1 E2 E3 E4 E5 E6 E7 E8] [I1 I2 I3 I4 I5 I6 I7 I8 I9 Ia Ib Ic].
  constructor; unfold waits_for in *; rewrite ?E1, ?E2, ?E3, ?E4, ?E5, ?E6, ?E7 in *; auto.
Qed.

Lemma put_same s app a b : rg_apps s !! app = Some b -> core_of a = core_of b -> same s (put_rapp s app a).
Proof. intros E Ea. constructor; try done. by apply cores_put_same with b. Qed.

(** ** Operations that leave it alone *)
Ltac ok_inv :=
  repeat match goal with
  | H : Ok _ = Ok _ |- _ => injection H as H
  | H : (_, _) = (_, _) |- _ => injection H as H
  | H : Some _ = Some _ |- _ => injection H as H
  | H : mret _ = Ok _ |- _ => injection H as H
  | H : (_ ≫= _) = Ok _ |- _ => apply bind_Ok_inv in H as (? & ? & H)
  end; subst.

Lemma get_rapp_ok s app a : get_rapp s app = Ok a -> rg_apps s !! app = Some a.
Proof. unfold get_rapp. destruct (rg_apps s !! app); [|done]. by intros [= ->]. Qed.
Lemma get_rctx_ok s c x : get_rctx s c = Ok x -> rg_ctxs s !! c = Some x.
Proof. unfold get_rctx. destruct (rg_ctxs s !! c); [|done]. by intros [= ->]. Qed.

Lemma error_same s app s' : uxsocket_error s app = Ok s' -> same s s'.
Proof.
  unfold uxsocket_error. intros E. ok_inv. apply get_rapp_ok in H0.
  assert (same s (communicator_close s app (ra_comm x))) as Hc.
  { destruct (ra_comm x); simpl; constructor; try done. simpl. intros app' E. by apply lookup_delete_Some in E as [_ E]. }
  eapply same_trans; [exact Hc|]. apply put_same with x; [|done]. by destruct (ra_comm x).
Qed.
Lemma pm_alloc_same s len hs r h s' rv : pm_alloc s len hs = Ok (rv, r, h, s') -> same s s' /\ rg_apps s' = rg_apps s.
Proof. unfold pm_alloc. intros E. ok_inv. destruct x as [[? ?] ?]. ok_inv. split; [by constructor|done]. Qed.
Lemma pm_free_same s h s' : pm_free s h = Ok s' -> same s s' /\ rg_apps s' = rg_apps s.
Proof. unfold pm_free. intros E. ok_inv. split; [by constructor|done]. Qed.
Lemma place_same s raw addr n qp lk rk r s' : place_queue s raw addr n qp lk rk = (r, s') ->
  same s s' /\ rg_apps s' = rg_apps s.
Proof. unfold place_queue. destruct (rq_allocate_in_place _ _ _ _ _ _); intros [= <- <-]; (split; [by constructor|done]). Qed.

(** Of the application only the response has changed. *)
Definition but_resp (a b : reg_app) : Prop := exists r, b = a <| ra_resp := r |>.
Definition kept s s' app : Prop := same s s' /\
  forall a, rg_apps s !! app = Some a -> exists b, rg_apps s' !! app = Some b /\ but_resp a b.

Lemma kept_same s s' app : same s s' -> rg_apps s' = rg_apps s -> kept s s' app.
Proof. intros Hs Ha. split; [done|]. intros a Ea. exists a. rewrite Ha. split; [done|]. exists (ra_resp a). by destruct a. Qed.
Lemma apps_kept_trans s s1 s2 app : kept s s1 app -> kept s1 s2 app -> kept s s2 app.
Proof.
  intros [H1 H2] [H3 H4]. split; [by eapply same_trans|]. intros a Ea.
  destruct (H2 a Ea) as (b & Eb & r & ->). destruct (H4 _ Eb) as (b & Eb' & r' & ->).
  eexists. split; [done|]. exists r'. by destruct a.
Qed.
Lemma apps_kept_refl s app : kept s s app.
Proof. by apply kept_same; [apply same_refl|]. Qed.

Lemma core_queues_kept s raw app i hs r h s' : core_queues tas_shm s raw app i hs = Ok (r, h, s') -> kept s s' app.
Proof.
  unfold core_queues. intros E. ok_inv. destruct x0 as [[[? rx] ?] s1]. apply get_rapp_ok in H0.
  apply pm_alloc_same in H1 as [S1 A1]. destruct rx as [[off_rxq h_rx]|]; [|ok_inv; by apply kept_same].
  ok_inv. destruct x0 as [[[? tx] ?] s2]. apply pm_alloc_same in H1 as [S2 A2].
  destruct tx as [[off_txq h_tx]|].
  - destruct (place_queue s2 _ _ _ _ _ _) as [? s3] eqn:P1. destruct (place_queue s3 _ _ _ _ _ _) as [? s4] eqn:P2.
    ok_inv. apply place_same in P1 as [S3 A3]. apply place_same in P2 as [S4 A4].
    assert (rg_apps s4 !! app = Some x) as Ex by (by rewrite A4, A3, A2, A1).
    assert (same s s4) as S by (repeat (eapply same_trans; [eassumption|]); apply same_refl).
    split; [eapply same_trans; [exact S|]; by apply put_same with x|].
    intros a Ea. rewrite Ea in H0. injection H0 as <-. eexists. split; [apply lookup_insert_eq|]. by eexists.
  - ok_inv. apply pm_free_same in H1 as [S3 A3]. apply kept_same; [|congruence].
    repeat (eapply same_trans; [eassumption|]); apply same_refl.
Qed.
Lemma all_queues_kept n s raw app i hs r s' : all_queues tas_shm n s raw app i hs = Ok (r, s') -> kept s s' app.
Proof.
  revert s i hs r s'. induction n as [|n IH]; intros s i hs r s' E; simpl in E; [ok_inv; apply apps_kept_refl|].
  ok_inv. destruct x as [[r1 h1] s1]. apply core_queues_kept in H0. destruct r1 as [l1|]; [|by ok_inv].
  ok_inv. destruct x as [r2 s2]. ok_inv. eapply apps_kept_trans; [exact H0|]. by eapply IH.
Qed.

(** ** A new context *)
Record took s s' (app ctx db : Z) (a : core) : Prop := {
  tk_core : cores s !! app = Some a;
  tk_cores : cores s' = <[app := mk_core (co_id a) (ctx :: co_ctxs a) (Some ctx) (Some ctx)]> (cores s);
  tk_ctx : exists x, rg_ctxs s' = <[ctx := x]> (rg_ctxs s) /\ rc_app x = app /\ rc_doorbell x = db /\ rc_ready x = false;
  tk_free : rg_doorbells s = db :: rg_doorbells s';
  tk_apps : rg_applications s' = rg_applications s;
  tk_ux : rg_ux_to_poll s' = rg_ux_to_poll s;
  tk_po : rg_poll_to_ux s' = rg_poll_to_ux s;
  tk_reg : rg_registered s' = rg_registered s;
  tk_epoll : forall app, rg_epoll s' !! app = Some true -> rg_epoll s !! app = Some true;
}.

Lemma error_pktmem_same s app i o r s' : error_pktmem s app i o = Ok (r, s') -> r = None /\ same s s'.
Proof.
  unfold error_pktmem. intros E. ok_inv. apply pm_free_same in H0 as [S1 _]. apply pm_free_same in H1 as [S2 _].
  apply error_same in H2. split; [done|]. repeat (eapply same_trans; [eassumption|]); apply same_refl.
Qed.

(** The steps of the allocation after the packet memory of the two queues. *)
Lemma allocate_local_cases s app comm qp lk rk m r s' :
  allocate_local_app_context cores_num tas_shm app_kin_len app_kout_len s app comm qp lk rk m = Ok (r, s') ->
  (r = None /\ same s s') \/
  exists ctx db a, r = Some ctx /\ xm_ctx m = Some ctx /\ took s s' app ctx db a.
Proof.
  unfold allocate_local_app_context. intros E. ok_inv. apply get_rapp_ok in H0.
  destruct (xm_ctx m) as [ctx|]; [|ok_inv; left; split; [done|by eapply error_same]].
  ok_inv. destruct x1 as [[[? r_in] ?] s1]. apply pm_alloc_same in H2 as [S1 A1].
  destruct r_in as [[off_in pm_in]|].
  2: { ok_inv. apply error_same in H2. left. split; [done|]. by eapply same_trans. }
  ok_inv. destruct x1 as [[[? r_out] ?] s2]. apply pm_alloc_same in H2 as [S2 A2].
  destruct r_out as [[off_out pm_out]|].
  2: { ok_inv. apply pm_free_same in H2 as [S3 _]. apply error_same in H3. left. split; [done|].
       repeat (eapply same_trans; [eassumption|]); apply same_refl. }
  ok_inv. destruct x1 as [r3 s3]. apply all_queues_kept in H2.
  assert (kept s s3 app) as K3.
  { eapply apps_kept_trans; [by apply (kept_same s s1)|]. eapply apps_kept_trans; [by apply (kept_same s1 s2)|done]. }
  destruct r3 as [qs|]; [|apply error_pktmem_same in E as [-> S4]; left; split; [done|]; eapply same_trans; [apply K3|done]].
  destruct (rg_doorbells s3) as [|db free] eqn:Ed;
    [apply error_pktmem_same in E as [-> S4]; left; split; [done|]; eapply same_trans; [apply K3|done]|].
  match type of E with context [place_queue ?a ?b (_ + off_in) ?d ?e ?f ?g] =>
    destruct (place_queue a b (tas_shm + off_in) d e f g) as [kin s4] eqn:P1 end.
  destruct (place_queue s4 _ _ _ _ _ _) as [kout s5] eqn:P2. ok_inv.
  apply place_same in P1 as [S4 A4]. apply place_same in P2 as [S5 A5]. apply get_rapp_ok in H3.
  destruct K3 as [K3 K4]. destruct (K4 _ H0) as (b & Eb & rsp & ->).
  rewrite A5, A4 in H3. simpl in H3. rewrite Eb in H3. injection H3 as <-.
  pose proof (same_trans _ _ _ S4 S5) as [F1 F2 F3 F4 F5 F6 F7 F8]. destruct K3 as [G1 G2 G3 G4 G5 G6 G7 G8].
  right. exists ctx, db, (core_of x). split; [done|]. split; [done|]. constructor; simpl in *; try congruence.
  - by apply cores_lookup.
  - unfold cores in *. simpl in *. rewrite fmap_insert. simpl. by rewrite F1, G1.
  - eexists. by rewrite F2, G2.
  - auto.
Qed.

Lemma took_inv s s' u l app ctx db a : reg_inv s u l -> rg_ctxs s !! ctx = None ->
  app ∉ l -> co_need a = None -> took s s' app ctx db a ->
  reg_inv (set_epoll s' (<[app := false]> (rg_epoll s'))) u l.
Proof.
  intros [I1 I2 I3 I4 I5 I6 I7 I8 I9 Ia Ib Ic] Hf Hl Hn [E1 E2 (x & E3 & Xa & Xd & Xr) E4 E5 E6 E7 E8 E9].
  rewrite E4 in I5. destruct I5 as [I5 I5']. apply NoDup_cons in I5 as [I5 I5n]. apply Forall_cons in I5' as [I5d I5'].
  assert (ctx ∉ co_ctxs a) as Hc by (intros Hc; destruct (I8 _ _ _ E1 Hc) as (y & Ey & _); congruence).
  assert (forall c y, rg_ctxs s !! c = Some y -> rc_doorbell y <> db) as Hdb.
  { intros c y Ey Ed. destruct (I6 c y Ey) as (_ & Hd & _). rewrite E4, Ed in Hd. by destruct Hd; left. }
  constructor; unfold cores in *; simpl; rewrite ?E2, ?E3, ?E5, ?E6, ?E7, ?E8; try done.
  - intros app'. rewrite <- I4. destruct (decide (app' = app)) as [->|]; [rewrite lookup_insert_eq, E1; split; by eexists|].
    by rewrite lookup_insert_ne.
  - intros c y Ey. apply lookup_insert_Some in Ey as [[<- <-]|[Hne Ey]].
    + rewrite Xd, Xa. split_and!; [done..|]. eexists. rewrite lookup_insert_eq. split; [done|by left].
    + destruct (I6 c y Ey) as (? & Hd & b & Eb & Hb). rewrite E4 in Hd. split_and!; [done|set_solver|].
      destruct (decide (rc_app y = app)) as [Ea|].
      * rewrite Ea in *. rewrite E1 in Eb. injection Eb as <-. eexists. rewrite lookup_insert_eq. split; [done|by right].
      * exists b. by rewrite lookup_insert_ne.
  - intros c1 c2 x1 x2 H1 H2 Hd. apply lookup_insert_Some in H1 as [[<- <-]|[? H1]];
      apply lookup_insert_Some in H2 as [[<- <-]|[? H2]]; [done|..|by eapply I7].
    + exfalso. by apply (Hdb c2 x2 H2); congruence.
    + exfalso. by apply (Hdb c1 x1 H1); congruence.
  - intros app' b c Eb Hb. apply lookup_insert_Some in Eb as [[<- <-]|[? Eb]].
    + simpl in Hb. apply elem_of_cons in Hb as [->|Hb]; [exists x; by rewrite lookup_insert_eq|].
      destruct (I8 _ _ _ E1 Hb) as (y & Ey & ?). exists y. rewrite lookup_insert_ne by congruence. done.
    + destruct (I8 _ _ _ Eb Hb) as (y & Ey & ?). exists y. rewrite lookup_insert_ne by congruence. done.
  - intros c y b Ey Hy Eb. apply lookup_insert_Some in Ey as [[<- <-]|[? Ey]]; [congruence|].
    apply lookup_insert_Some in Eb as [[Ea <-]|[? Eb]]; [|by eapply I9]. simpl. eapply I9; [done..|]. by rewrite <- Ea.
  - intros app' b c Eb Hb. apply lookup_insert_Some in Eb as [[<- <-]|[? Eb]].
    + simpl in Hb. injection Hb as <-. split; [done|]. split_and!; [done|by left|]. exists x. simpl. rewrite E3, lookup_insert_eq. done.
    + destruct (Ia _ _ _ Eb Hb) as (? & ? & ? & y & Ey & ?). split; [done|]. split_and!; [done..|].
      exists y. simpl. rewrite E3, lookup_insert_ne by congruence. done.
  - intros app' Ha. destruct (Ib _ Ha) as (b & c & Eb & Hb & (? & ? & y & Ey & ?) & Hr). exists b, c.
    rewrite lookup_insert_ne by congruence. split_and!; [done..| |].
    + split_and!; [done..|]. exists y. simpl. rewrite E3, lookup_insert_ne by congruence. done.
    + intros z Ez. rewrite lookup_insert_ne in Ez by congruence. auto.
  - intros app' He. apply lookup_insert_Some in He as [[_ He]|[Hne He]]; [done|]. destruct (Ic _ (E9 _ He)) as (? & b & Eb & ?).
    split; [done|]. exists b. by rewrite lookup_insert_ne.
Qed.

(** ** The handlers of the socket's thread *)
Lemma receive_inv s u l app rx evfd m ok s' : reg_inv s u l ->
  rg_epoll s !! app = Some true -> (forall c, xm_ctx m = Some c -> rg_ctxs s !! c = None) ->
  uxsocket_receive cores_num tas_shm app_kin_len app_kout_len s app rx evfd m ok = Ok s' -> reg_inv s' u l.
Proof.
  intros Hi He Hf E. unfold uxsocket_receive in E. ok_inv. apply get_rapp_ok in H0.
  destruct rx as [data|]; [|by eapply same_inv; [eapply error_same|]]. ok_inv.
  destruct (_ <? SIZEOF_UXSOCK_REQUEST); ok_inv; [by eapply same_inv; [eapply put_same|]|].
  destruct x2 as [r s1]. set (s0 := put_rapp s app _) in H3.
  assert (same s s0) as S0 by (by eapply put_same). apply allocate_local_cases in H3.
  destruct H3 as [[-> S1]|(ctx & db & a & -> & Em & Tk)].
  - apply error_same in E. eapply same_inv; [|done]. repeat (eapply same_trans; [eassumption|]); apply same_refl.
  - destruct ok; [|done]. ok_inv. destruct (ri_idle _ _ _ Hi _ He) as (Hl & b & Eb & Hb).
    eapply took_inv; [by eapply same_inv|by apply Hf|done| |exact Tk].
    pose proof (tk_core _ _ _ _ _ _ Tk) as Ea. rewrite (sm_cores _ _ S0), Eb in Ea. by injection Ea as <-.
Qed.

(** An application that is new to the queue, and the slow path's list of them. *)
Lemma accept_inv s u l cfd evfds nfd sent m s' : reg_inv s u l ->
  (forall p, am_app m = Some p -> rg_apps s !! p = None) ->
  uxsocket_accept cores_num s cfd evfds nfd sent m true = Ok s' -> exists u', reg_inv s' u' l.
Proof.
  intros Hi Hf E. unfold uxsocket_accept in E. destruct cfd as [cfd|]; [|ok_inv; by exists u].
  destruct (negb _); [done|]. unfold allocate_application in E.
  destruct (am_app m) as [app|]; [|ok_inv; exists u; apply (same_inv s); [by constructor|done]].
  destruct (am_resp m); simpl in E; ok_inv; [|exists u; apply (same_inv s); [by constructor|done]].
  assert (cores s !! app = None) as Ha by (unfold cores; by rewrite lookup_fmap, (Hf app eq_refl)).
  destruct Hi as [I1 I2 I3 I4 I5 I6 I7 I8 I9 Ia Ib Ic].
  assert (app ∉ u ++ rg_applications s) as Hn by (rewrite <- I4, Ha; by intros []).
  assert (forall app' a, cores s !! app' = Some a -> app' <> app) as Hne by congruence.
  exists (app :: u). constructor; unfold cores in *; simpl; rewrite ?fmap_insert; try done.
  - apply nbqueue_enq_holds; [done|]. set_solver.
  - by constructor.
  - intros app'. rewrite elem_of_cons. destruct (decide (app' = app)) as [->|];
      [rewrite lookup_insert_eq; split; [by left|by eexists]|rewrite lookup_insert_ne by done; rewrite I4; naive_solver].
  - intros c x Ex. destruct (I6 c x Ex) as (? & ? & a & Ea & ?). split_and!; [done..|]. exists a.
    by rewrite lookup_insert_ne by (symmetry; by eapply Hne).
  - intros app' a c Ea Hc. apply lookup_insert_Some in Ea as [[<- <-]|[? Ea]]; [by apply elem_of_nil in Hc|by eapply I8].
  - intros c x a Ex Hx Ea. apply lookup_insert_Some in Ea as [[Ea <-]|[? Ea]]; [|by eapply I9].
    destruct (I6 c x Ex) as (_ & _ & b & Eb & _). by rewrite <- Ea, Ha in Eb.
  - intros app' a c Ea Hc. apply lookup_insert_Some in Ea as [[<- <-]|[? Ea]]; [done|by eapply Ia].
  - intros app' Hl. destruct (Ib _ Hl) as (a & c & Ea & Hr). exists a, c.
    by rewrite lookup_insert_ne by (symmetry; by eapply Hne).
  - intros app' He. apply lookup_insert_Some in He as [[<- _]|[? He]].
    + split; [|eexists; by rewrite lookup_insert_eq]. intros Hl. destruct (Ib _ Hl) as (a & c & Ea & _). congruence.
    + destruct (Ic _ He) as (? & a & Ea & ?). split; [done|]. exists a. by rewrite lookup_insert_ne.
Qed.

(** The oldest completion is taken out of the queue. *)
Lemma deq_cases q (l : list Z) : holds q l ->
  (l = [] /\ nbqueue_deq q = Ok (None, q)) \/
  exists l' y q', l = l' ++ [y] /\ nbqueue_deq q = Ok (Some y, q') /\ holds q' l'.
Proof.
  intros Hq. destruct l as [|y l' _] using rev_ind.
  - left. split; [done|]. destruct Hq as [_ Hc]. simpl in Hc. unfold nbqueue_deq. by rewrite Hc.
  - right. destruct (nbqueue_deq_holds _ _ _ Hq) as (q' & E & Hq'). by exists l', y, q'.
Qed.

Lemma pop_inv s u l app q : reg_inv s u (l ++ [app]) -> holds q l -> reg_inv (set_poll_to_ux s q) u l.
Proof.
  intros [I1 I2 I3 I4 I5 I6 I7 I8 I9 Ia Ib Ic] Hq. constructor; try done.
  - intros app' a c Ea Hc. destruct (Ia _ _ _ Ea Hc). set_solver.
  - intros app' Hl. apply Ib. set_solver.
  - intros app' He. destruct (Ic _ He) as [? ?]. set_solver.
Qed.

Lemma ready_inv s u l app a c x : reg_inv s u l -> cores s !! app = Some a -> co_need a = None -> app ∉ l ->
  rg_ctxs s !! c = Some x -> rc_app x = app -> (co_id a, rc_doorbell x) ∈ rg_registered s ->
  reg_inv (put_rctx s c (x <| rc_ready := true |>)) u l.
Proof.
  intros [I1 I2 I3 I4 I5 I6 I7 I8 I9 Ia Ib Ic] Ea Hn Hl Ex Hx Hr.
  assert (forall app' b c', cores s !! app' = Some b -> app' <> app -> c' ∈ co_ctxs b -> c <> c') as Hc.
  { intros app' b c' Eb Hne Hc' <-. destruct (I8 _ _ _ Eb Hc') as (y & Ey & Hy). congruence. }
  constructor; simpl; try done.
  - intros c' y Ey. apply lookup_insert_Some in Ey as [[<- <-]|[? Ey]]; [by apply (I6 c x)|by apply (I6 c')].
  - intros c1 c2 x1 x2 H1 H2. apply lookup_insert_Some in H1 as [[<- <-]|[? H1]];
      apply lookup_insert_Some in H2 as [[<- <-]|[? H2]]; simpl; eauto.
  - intros app' b c' Eb Hb. change (cores s !! app' = Some b) in Eb. destruct (I8 _ _ _ Eb Hb) as (y & Ey & Hy).
    destruct (decide (c = c')) as [<-|]; [|exists y; by rewrite lookup_insert_ne].
    eexists. rewrite lookup_insert_eq. split; [done|]. simpl. congruence.
  - intros c' y b Ey Hy Eb. apply lookup_insert_Some in Ey as [[<- <-]|[? Ey]]; [|by eapply I9].
    change (cores s !! rc_app x = Some b) in Eb. simpl. by replace b with a by congruence.
  - intros app' b c' Eb Hb. change (cores s !! app' = Some b) in Eb. destruct (Ia _ _ _ Eb Hb) as (? & ? & ? & y & Ey & ?). split; [done|]. split_and!; [done..|].
    exists y. simpl. rewrite lookup_insert_ne; [done|]. eapply Hc; [exact Eb|congruence|done].
  - intros app' Ha. destruct (Ib _ Ha) as (b & c' & Eb & Hb & (? & ? & y & Ey & ?) & Hr').
    assert (c <> c') as Hne by (eapply Hc; [exact Eb|congruence|done]).
    exists b, c'. split_and!; [done..| |].
    + split_and!; [done..|]. exists y. simpl. by rewrite lookup_insert_ne.
    + intros z Ez. rewrite lookup_insert_ne in Ez by done. auto.
Qed.

Lemma watch_inv s u l app a : reg_inv s u l -> cores s !! app = Some a -> co_need a = None -> app ∉ l ->
  reg_inv (set_epoll s (<[app := true]> (rg_epoll s))) u l.
Proof.
  intros [I1 I2 I3 I4 I5 I6 I7 I8 I9 Ia Ib Ic] Ea Hn Hl. constructor; try done. simpl.
  intros app' He. apply lookup_insert_Some in He as [[<- _]|[? He]]; [by eauto|auto].
Qed.

Lemma notify_app_inv s u l app q ok eok s' : reg_inv s u (l ++ [app]) -> holds q l ->
  uxsocket_notify_app cores_num (set_poll_to_ux s q) app ok eok = Ok s' -> reg_inv s' u l.
Proof.
  intros Hi Hq E. pose proof (pop_inv _ _ _ _ _ Hi Hq) as Hp.
  assert (app ∉ l) as Hl.
  { destruct (ri_po _ _ _ Hi) as [Hn _]. apply NoDup_app in Hn as (_ & Hn & _). set_solver. }
  destruct (ri_done _ _ _ Hi app) as (a & c & Ea & Hn & (Hd & Hc & x & Ex & Hx) & Hr); [set_solver|].
  destruct (ri_own _ _ _ Hi _ _ _ Ea Hc) as (y & Ey & Hy). rewrite Ex in Ey. injection Ey as <-.
  unfold uxsocket_notify_app in E. apply bind_Ok_inv in E as (b & Eb & E). apply get_rapp_ok in Eb.
  pose proof (cores_lookup _ _ _ Eb) as Ea'.
  change (cores s !! app = Some (core_of b)) in Ea'. rewrite Ea in Ea'. injection Ea' as ->.
  destruct (negb _); [by eapply same_inv; [eapply error_same|]|].
  simpl in Hd. rewrite Hd in E. apply bind_Ok_inv in E as (z & Ez & E). apply get_rctx_ok in Ez. simpl in Ez.
  rewrite Ex in Ez. injection Ez as <-.
  pose proof (ready_inv _ _ _ _ _ _ _ Hp Ea Hn Hl Ex Hy (Hr x Ex)) as Hp'.
  destruct (ra_comm b); destruct ok; simpl in E; try done;
    [|apply error_same in E; eapply same_inv; [exact E|exact Hp']|injection E as <-; eapply same_inv; [|exact Hp']; by constructor].
  destruct eok; [|done]. injection E as <-.
  match goal with |- reg_inv (set_epoll ?s1 _) _ _ => assert (reg_inv s1 u l) as H1 end.
  { eapply same_inv; [|exact Hp']. by constructor. }
  exact (watch_inv _ _ _ app (core_of b) H1 Ea Hn Hl).
Qed.

Lemma notify_inv s u l rok ok eok s' : reg_inv s u l -> uxsocket_notify cores_num s rok ok eok = Ok s' -> reg_inv s' u [].
Proof.
  unfold uxsocket_notify. destruct (negb rok); [done|]. generalize (S (size (next (rg_poll_to_ux s)))) as fuel.
  intros fuel. revert s l. induction fuel as [|fuel IH]; intros s l Hi E; [done|]. cbn [notify_loop] in E.
  destruct (deq_cases _ _ (ri_po _ _ _ Hi)) as [[-> Eq]|(l' & y & q' & -> & Eq & Hq)]; rewrite Eq in E; simpl in E.
  - injection E as <-. by apply (same_inv s); [by constructor|].
  - ok_inv. eapply notify_app_inv in H0; [|done..]. by eapply IH.
Qed.

(** ** The slow path *)
Lemma new_apps_inv fuel s u l s' : reg_inv s u l -> new_apps fuel s = Ok s' -> reg_inv s' [] l.
Proof.
  revert s u. induction fuel as [|fuel IH]; intros s u Hi E; [done|]. cbn [new_apps] in E.
  destruct (deq_cases _ _ (ri_ux _ _ _ Hi)) as [[-> Eq]|(u' & y & q' & -> & Eq & Hq)]; rewrite Eq in E; simpl in E.
  - injection E as <-. by apply (same_inv s); [by constructor|].
  - ok_inv. eapply IH; [|exact E]. destruct Hi as [I1 I2 I3 I4 I5 I6 I7 I8 I9 Ia Ib Ic].
    rewrite <- app_assoc in I3, I4. constructor; done.
Qed.

(** The application no longer waits for registration, and is given back. *)
Lemma unneed_inv s u l app a : reg_inv s u l -> rg_apps s !! app = Some a ->
  reg_inv (put_rapp s app (a <| ra_need_reg_ctx := (None : option Z) |>)) u l.
Proof.
  intros [I1 I2 I3 I4 I5 I6 I7 I8 I9 Ia Ib Ic] Ea. pose proof (cores_lookup _ _ _ Ea) as Ec.
  assert (forall app' b, cores s !! app' = Some b -> exists b', <[app := core_of (a <| ra_need_reg_ctx := (None : option Z) |>)]> (cores s) !! app' = Some b'
    /\ co_id b' = co_id b /\ co_ctxs b' = co_ctxs b /\ co_done b' = co_done b /\ (co_need b' = None \/ co_need b' = co_need b)) as F.
  { intros app' b Eb. destruct (decide (app' = app)) as [->|].
    - rewrite Ec in Eb. injection Eb as <-. eexists. rewrite lookup_insert_eq. split; [done|]. by split_and!; try left.
    - exists b. rewrite lookup_insert_ne by done. split_and!; try done. by right. }
  assert (forall app' b', <[app := core_of (a <| ra_need_reg_ctx := (None : option Z) |>)]> (cores s) !! app' = Some b' ->
    exists b, cores s !! app' = Some b /\ co_id b' = co_id b /\ co_ctxs b' = co_ctxs b /\ co_done b' = co_done b /\
      (co_need b' = None \/ co_need b' = co_need b)) as G.
  { intros app' b' Eb. assert (is_Some (cores s !! app')) as [b Eb'].
    { apply lookup_insert_Some in Eb as [[<- _]|[_ Eb]]; by eexists. }
    exists b. split; [done|]. destruct (F _ _ Eb') as (b2 & E2 & Hb2). rewrite Eb in E2. by injection E2 as <-. }
  constructor; unfold waits_for in *; rewrite ?cores_put; simpl; try done.
  - intros app'. rewrite <- I4. split; intros [b Eb]; [destruct (G _ _ Eb) as (? & ? & _)|destruct (F _ _ Eb) as (? & ? & _)]; by eexists.
  - intros c x Ex. destruct (I6 c x Ex) as (? & ? & b & Eb & Hb). split_and!; [done..|].
    destruct (F _ _ Eb) as (b' & Eb' & _ & Hc & _). exists b'. by rewrite Hc.
  - intros app' b' c Eb Hc. destruct (G _ _ Eb) as (b & Eb' & _ & Hcs & _). rewrite Hcs in Hc. by eapply I8.
  - intros c x b' Ex Hx Eb. destruct (G _ _ Eb) as (b & Eb' & -> & _). by eapply I9.
  - intros app' b' c Eb Hn. destruct (G _ _ Eb) as (b & Eb' & _ & Hcs & Hd & [Hn'|Hn']); [congruence|].
    rewrite Hn' in Hn. rewrite Hcs, Hd. by eapply Ia.
  - intros app' Hl. destruct (Ib _ Hl) as (b & c & Eb & Hn & Hw & Hr).
    destruct (F _ _ Eb) as (b' & Eb' & Hi & Hcs & Hd & Hn'). exists b', c. rewrite Hi, Hcs, Hd.
    split; [done|]. split; [destruct Hn'; congruence|]. by split.
  - intros app' He. destruct (Ic _ He) as (? & b & Eb & Hn). split; [done|].
    destruct (F _ _ Eb) as (b' & Eb' & _ & _ & _ & Hn'). exists b'. split; [done|]. destruct Hn'; congruence.
Qed.

Lemma give_back_inv s u l app a c x : reg_inv s u l -> cores s !! app = Some a -> co_need a = None ->
  waits_for s a c -> rg_ctxs s !! c = Some x -> app ∉ l -> rg_epoll s !! app <> Some true ->
  reg_inv (set_poll_to_ux (set_registered s (rg_registered s ++ [(co_id a, rc_doorbell x)]))
             (nbqueue_enq (rg_poll_to_ux s) app)) u (app :: l).
Proof.
  intros [I1 I2 I3 I4 I5 I6 I7 I8 I9 Ia Ib Ic] Ea Hn Hw Ex Hl He. constructor; simpl; try done.
  - by apply nbqueue_enq_holds.
  - intros c' y b Ey Hy Eb. apply elem_of_app. left. by eapply I9.
  - intros app' b c' Eb Hb. destruct (Ia _ _ _ Eb Hb) as [Hl' Hw']. split; [|done].
    apply not_elem_of_cons. split; [|done]. intros ->. change (cores s !! app = Some b) in Eb. congruence.
  - intros app' Hl'. apply elem_of_cons in Hl' as [->|Hl'].
    + exists a, c. split_and!; [done..|]. intros y Ey. apply elem_of_app. right. rewrite Ex in Ey. injection Ey as <-. by left.
    + destruct (Ib _ Hl') as (b & c' & Eb & Hb & Hw' & Hr). exists b, c'. split_and!; [done..|].
      intros y Ey. apply elem_of_app. left. auto.
  - intros app' He'. destruct (Ic _ He') as [? ?]. split; [|done]. apply not_elem_of_cons. split; [congruence|done].
Qed.

Lemma register_inv s u l app a ctx s' ok : reg_inv s u l -> rg_apps s !! app = Some a -> ra_need_reg_ctx a = Some ctx ->
  register_ctx cores_num tas_shm s app a ctx = Ok (ok, s') -> exists l', reg_inv s' u l' /\ (forall x, x ∈ l' -> x = app \/ x ∈ l).
Proof.
  intros Hi Ea Hn E. pose proof (unneed_inv _ _ _ _ _ Hi Ea) as Hi0. pose proof (cores_lookup _ _ _ Ea) as Ec.
  destruct (ri_pending _ _ _ Hi _ _ _ Ec Hn) as [Hl (Hd & Hc & y & Ey & Hy)].
  assert (rg_epoll s !! app <> Some true) as He.
  { intros He. destruct (ri_idle _ _ _ Hi _ He) as (_ & b & Eb & Hb). rewrite Ec in Eb. injection Eb as <-. simpl in Hb. congruence. }
  unfold register_ctx in E. set (s0 := put_rapp s app _) in *. apply bind_Ok_inv in E as ([rxqs txqs] & _ & E).
  apply bind_Ok_inv in E as (x & Ex & E). apply get_rctx_ok in Ex. change (rg_ctxs s !! ctx = Some x) in Ex.
  rewrite Ey in Ex. injection Ex as <-. apply bind_Ok_inv in E as ([rv t] & _ & E).
  assert (reg_inv (set_slow s0 t) u l) as Hi1 by (apply (same_inv s0); [by constructor|done]).
  destruct (negb _).
  - apply bind_Ok_inv in E as (s2 & E2 & E). injection E as <- <-. apply error_same in E2. exists l. split; [|by right].
    by eapply same_inv.
  - injection E as <- <-. exists (app :: l). split; [|intros z Hz; by apply elem_of_cons in Hz].
    assert (cores (set_slow s0 t) !! app = Some (core_of (a <| ra_need_reg_ctx := (None : option Z) |>))) as Ec'.
    { change (cores (put_rapp s app (a <| ra_need_reg_ctx := (None : option Z) |>)) !! app = Some (core_of (a <| ra_need_reg_ctx := (None : option Z) |>))).
      by rewrite cores_put, lookup_insert_eq. }
    refine (give_back_inv _ _ _ _ _ ctx y Hi1 Ec' eq_refl _ Ey Hl He). split_and!; [done..|by exists y].
Qed.

Lemma poll_ctxs_same s app l n r s' : poll_ctxs s app l n = Ok (r, s') -> same s s' /\ rg_apps s' = rg_apps s.
Proof.
  revert s n. induction l as [|c l IH]; intros s n E; simpl in E; [injection E as <- <-; by split; [apply same_refl|]|].
  apply bind_Ok_inv in E as (x & _ & E). destruct (negb _); [by eapply IH|].
  apply bind_Ok_inv in E as ([k t] & _ & E). apply IH in E as [S A]. split; [|done].
  eapply same_trans; [|exact S]. by constructor.
Qed.

Lemma poll_apps_inv s u l apps n r s' : reg_inv s u l -> poll_apps cores_num tas_shm s apps n = Ok (r, s') ->
  exists l', reg_inv s' u l'.
Proof.
  revert s l n. induction apps as [|app apps IH]; intros s l n Hi E; simpl in E; [injection E as <- <-; by exists l|].
  apply bind_Ok_inv in E as (a & Ea & E). apply get_rapp_ok in Ea. apply bind_Ok_inv in E as ([ok s1] & E1 & E).
  assert (exists l1, reg_inv s1 u l1) as [l1 Hi1].
  { destruct (ra_need_reg_ctx a) as [ctx|] eqn:En; [|injection E1 as _ <-; by exists l].
    destruct (register_inv _ _ _ _ _ _ _ _ Hi Ea En E1) as (l1 & H1 & _). by exists l1. }
  destruct (negb ok); [by eapply IH|]. apply bind_Ok_inv in E as ([n2 s2] & E2 & E).
  apply poll_ctxs_same in E2 as [S2 _]. eapply IH; [|exact E]. by eapply same_inv.
Qed.

(** ** An application that cannot be watched *)

(** The socket is accepted, but watching it fails. *)
Definition unwatched (o : reg_step) : option Z :=
  match o with
  | RsEvent (EvListen (Some _) _ _ _ m false) => if am_resp m then am_app m else None
  | _ => None
  end.

Lemma holds_size q l : holds q l -> (length l <= size (next q))%nat.
Proof.
  intros [Hn Hc]. apply NoDup_size; [|done]. revert Hc. clear Hn. generalize (head q).
  induction l as [|x l IH]; intros h Hc y Hy; [by apply elem_of_nil in Hy|].
  destruct Hc as (_ & n & Hx & Hc). apply elem_of_cons in Hy as [->|Hy]; [by eexists|by eapply IH].
Qed.

(** The slow path comes upon it after those that were there before. *)
Lemma new_apps_gone fuel s app u : holds (rg_ux_to_poll s) (app :: u) -> rg_apps s !! app = None ->
  (forall x, x ∈ u -> is_Some (rg_apps s !! x)) -> (length u < fuel)%nat -> new_apps fuel s = Stop OutOfBounds.
Proof.
  revert s u. induction fuel as [|fuel IH]; intros s u Hh Ha Hu Hf; [lia|]. cbn [new_apps].
  destruct u as [|y u _] using rev_ind.
  - destruct (nbqueue_deq_holds _ [] _ Hh) as (q' & -> & _). osimpl. unfold get_rapp. by rewrite Ha.
  - rewrite app_comm_cons in Hh. destruct (nbqueue_deq_holds _ _ _ Hh) as (q' & -> & Hq'). osimpl.
    destruct (Hu y) as [a Hy]; [set_solver|]. unfold get_rapp. rewrite Hy. osimpl.
    apply (IH _ u); simpl; [done|done| |rewrite length_app in Hf; simpl in Hf; lia].
    intros x Hx. apply Hu. set_solver.
Qed.

Lemma unwatched_then_poll s u l o app s' : reg_inv s u l -> unwatched o = Some app -> rg_apps s !! app = None ->
  reg_do cores_num tas_shm app_kin_len app_kout_len s o = Ok s' ->
  rg_apps s' !! app = None /\ reg_do cores_num tas_shm app_kin_len app_kout_len s' RsPoll = Stop OutOfBounds.
Proof.
  intros Hi Ho Ha E. destruct o as [[[cfd|] evfds nfd sent m [|]|rok ok eok|app' ev rx fd m ok]|]; try discriminate Ho.
  simpl in Ho, E. unfold uxsocket_accept in E. destruct (negb _); [done|]. unfold allocate_application in E.
  destruct (am_resp m); [|done]. rewrite Ho in E. simpl in E. injection E as E.
  assert (exists a, rg_apps s' = delete app (<[app := a]> (rg_apps s))) as [a A1] by (rewrite <- E; by eexists).
  assert (A2 : rg_ux_to_poll s' = nbqueue_enq (rg_ux_to_poll s) app) by by rewrite <- E. clear E.
  split; [rewrite A1; apply lookup_delete_eq|]. unfold reg_do, appif_poll. rewrite A2.
  assert (app ∉ u ++ rg_applications s) as Hn by (rewrite <- (ri_apps _ _ _ Hi); unfold cores; rewrite lookup_fmap, Ha; by intros []).
  assert (Hh : holds (nbqueue_enq (rg_ux_to_poll s) app) (app :: u)) by (apply nbqueue_enq_holds; [apply Hi|set_solver]).
  rewrite (new_apps_gone _ _ app u); [done|by rewrite A2|rewrite A1; apply lookup_delete_eq| |].
  - intros x Hx. assert (x <> app) by set_solver. rewrite A1, lookup_delete_ne, lookup_insert_ne by done.
    destruct (proj2 (ri_apps _ _ _ Hi x)) as [b Hxa]; [set_solver|]. unfold cores in Hxa. rewrite lookup_fmap in Hxa.
    by destruct (rg_apps s !! x); [eexists|].
  - pose proof (holds_size _ _ Hh) as Hs. cbn [length] in Hs. lia.
Qed.

(** ** Every interleaving *)

(** Events the kernel can report: of sockets that are watched, requests only where
    they are asked for; memory that [malloc] returns is not in use. *)
Definition possible s (o : reg_step) : Prop :=
  match o with
  | RsPoll => True
  | RsEvent (EvListen _ _ _ _ m _) => forall p, am_app m = Some p -> rg_apps s !! p = None
  | RsEvent (EvNotify _ _ _) => True
  | RsEvent (EvApp app events rx _ m _) =>
      (Z.land events EPOLLERR_HUP = 0 -> Z.land events KERNEL_EPOLLIN <> 0 -> rg_epoll s !! app = Some true) /\
      forall c, xm_ctx m = Some c -> rg_ctxs s !! c = None
  end.
Definition step_ok s (o : reg_step) : Prop := possible s o /\ unwatched o = None.

Inductive reg_reach (ok : reg_state T -> reg_step -> Prop) (s0 : reg_state T) : reg_state T -> Prop :=
| reach_start : reg_reach ok s0 s0
| reach_step s o s' : reg_reach ok s0 s -> ok s o ->
    reg_do cores_num tas_shm app_kin_len app_kout_len s o = Ok s' -> reg_reach ok s0 s'.

Lemma step_inv s u l o s' : reg_inv s u l -> step_ok s o ->
  reg_do cores_num tas_shm app_kin_len app_kout_len s o = Ok s' -> exists u' l', reg_inv s' u' l'.
Proof.
  intros Hi Hok E. destruct o as [[cfd evfds nfd sent m ok|rok ok eok|app ev rx fd m ok]|]; simpl in *.
  - destruct Hok as [Hf Hw]. simpl in Hf, Hw. destruct ok.
    { destruct (accept_inv _ _ _ _ _ _ _ _ _ Hi Hf E) as [u' ?]. by exists u', l. }
    exists u, l. unfold uxsocket_accept in E. destruct cfd as [cfd|]; [|by injection E as <-].
    destruct (negb _); [done|]. unfold allocate_application in E. destruct (am_app m) as [p|]; simpl in E.
    + destruct (am_resp m); [done|]. injection E as <-. apply (same_inv s); [by constructor|done].
    + injection E as <-. apply (same_inv s); [by constructor|done].
  - exists u, []. by eapply notify_inv.
  - destruct Hok as [[He Hf] _]. exists u, l. destruct (Z.eqb_spec (Z.land ev EPOLLERR_HUP) 0); simpl in E;
      [|by eapply same_inv; [eapply error_same|]].
    destruct (Z.eqb_spec (Z.land ev KERNEL_EPOLLIN) 0); simpl in E; [by injection E as <-|].
    eapply receive_inv; [done|auto|exact Hf|exact E].
  - apply bind_Ok_inv in E as ([n s1] & E & E1). injection E1 as ->. unfold appif_poll in E.
    apply bind_Ok_inv in E as (s2 & E2 & E). eapply new_apps_inv in E2; [|done].
    destruct (poll_apps_inv _ _ _ _ _ _ _ E2 E) as [l' ?]. by exists [], l'.
Qed.

Lemma make_doorbells_ok n alloc free r : make_doorbells n alloc free = Some r ->
  Forall (fun d => Z.of_nat n < d <= FLEXNIC_PL_APPST_CTX_NUM) free -> NoDup free -> Z.of_nat n <= FLEXNIC_PL_APPST_CTX_NUM ->
  NoDup r /\ Forall doorbell_ok r.
Proof.
  revert free. induction n as [|n IH]; intros free E Hf Hn Hm; cbn [make_doorbells] in E.
  - injection E as <-. split; [done|]. eapply Forall_impl; [exact Hf|]. unfold doorbell_ok. simpl. lia.
  - destruct (alloc (Z.of_nat (S n))); [|done]. eapply IH; [exact E| |constructor; [|done]|lia].
    + apply Forall_cons. split; [lia|]. eapply Forall_impl; [exact Hf|]. simpl. lia.
    + rewrite Forall_forall in Hf. intros Hin. specialize (Hf _ Hin). lia.
Qed.

Lemma init_inv t uok tok alloc s : appif_init t uok tok alloc = Some s -> reg_inv s [] [].
Proof.
  unfold appif_init. destruct (negb uok); [done|]. destruct (make_doorbells _ alloc []) as [free|] eqn:Em; [|done]. simpl.
  destruct tok; [|done]. intros [= <-]. apply make_doorbells_ok in Em; [|by constructor|by constructor|done].
  assert (holds (nbqueue_init ∅) []) as Hq by (by split; [constructor|]).
  constructor; simpl; try done; try (by constructor).
  - intros app. split; [|by intros ?%elem_of_nil]. unfold cores. simpl. rewrite fmap_empty. by intros [].
  - by intros app ?%elem_of_nil.
Qed.

Lemma reach_inv t uok tok alloc s0 s : appif_init t uok tok alloc = Some s0 -> reg_reach step_ok s0 s -> exists u l, reg_inv s u l.
Proof.
  intros H0 Hr. induction Hr as [|s o s' _ (u & l & Hi) Hok E]; [exists [], []; by eapply init_inv|].
  by eapply step_inv.
Qed.

(** What registration keeps. *)
Definition reg_safe s : Prop :=
  (forall c x, rg_ctxs s !! c = Some x -> 1 <= rc_doorbell x <= FLEXNIC_PL_APPST_CTX_NUM /\
     rc_doorbell x ∉ rg_doorbells s /\
     exists a, rg_apps s !! rc_app x = Some a /\ c ∈ ra_contexts a /\
       (rc_ready x = true -> (ra_id a, rc_doorbell x) ∈ rg_registered s)) /\
  (forall c1 c2 x1 x2, rg_ctxs s !! c1 = Some x1 -> rg_ctxs s !! c2 = Some x2 ->
     rc_doorbell x1 = rc_doorbell x2 -> c1 = c2) /\
  (forall app a, rg_apps s !! app = Some a -> rg_epoll s !! app = Some true -> ra_need_reg_ctx a = None).

Lemma inv_safe s u l : reg_inv s u l -> reg_safe s.
Proof.
  intros Hi. split_and!.
  - intros c x Ex. destruct (ri_ctx _ _ _ Hi _ _ Ex) as (Hd & Hf & a & Ea & Hc). split_and!; [apply Hd..|done|].
    unfold cores in Ea. rewrite lookup_fmap in Ea. destruct (rg_apps s !! rc_app x) as [b|] eqn:Eb; [|done].
    injection Ea as <-. exists b. split_and!; [done..|]. intros Hy. exact (ri_ready _ _ _ Hi c x (core_of b) Ex Hy (cores_lookup _ _ _ Eb)).
  - apply Hi.
  - intros app a Ea He. destruct (ri_idle _ _ _ Hi _ He) as (_ & b & Eb & Hb). rewrite (cores_lookup _ _ _ Ea) in Eb.
    by injection Eb as <-.
Qed.

Lemma first_unwatched s0 s : reg_reach possible s0 s -> reg_reach step_ok s0 s \/
  exists s1 o app s2, reg_reach step_ok s0 s1 /\ possible s1 o /\ unwatched o = Some app /\
    reg_do cores_num tas_shm app_kin_len app_kout_len s1 o = Ok s2 /\ reg_reach possible s2 s.
Proof.
  induction 1 as [|s o s' _ [IH|(s1 & o1 & app & s2 & H1 & H2 & H3 & H4 & H5)] Ho E]; [left; constructor| |].
  - destruct (unwatched o) as [app|] eqn:Eo; [right|left; by eapply reach_step].
    exists s, o, app, s'. split_and!; [done..|]. constructor.
  - right. exists s1, o1, app, s2. split_and!; [done..|]. by eapply reach_step.
Qed.

(** C19. Whatever the order in which the socket's thread and the slow path take turns,
    and whatever fails on the way: no two contexts of any applications have the same
    doorbell, and none a doorbell that is still free; a context belongs to one
    application; a context is only polled for requests once the fast path has taken it
    under its application's id and doorbell; and an application whose next request
    would be read has no context that is still being registered. One failure is not
    handled: when the socket of a new application cannot be watched, the code frees the
    application, but leaves it in the queue to the slow path, whose next poll uses it. *)
Theorem registration_safe t uok tok alloc s0 s : appif_init t uok tok alloc = Some s0 -> reg_reach possible s0 s ->
  reg_safe s \/
  exists s1 o app s2, reg_safe s1 /\ reg_reach step_ok s0 s1 /\ unwatched o = Some app /\
    reg_do cores_num tas_shm app_kin_len app_kout_len s1 o = Ok s2 /\ rg_apps s2 !! app = None /\
    reg_do cores_num tas_shm app_kin_len app_kout_len s2 RsPoll = Stop OutOfBounds /\ reg_reach possible s2 s.
Proof.
  intros H0 [Hr|(s1 & o & app & s2 & H1 & H2 & H3 & H4 & H5)]%first_unwatched.
  - left. destruct (reach_inv _ _ _ _ _ _ H0 Hr) as (u & l & Hi). by eapply inv_safe.
  - right. destruct (reach_inv _ _ _ _ _ _ H0 H1) as (u & l & Hi). exists s1, o, app, s2.
    assert (rg_apps s1 !! app = None) as Ha.
    { destruct o as [[[cfd|] ? ? ? m [|]| |]|]; try discriminate H3. simpl in H2, H3. destruct (am_resp m); [by apply H2|done]. }
    destruct (unwatched_then_poll s1 u l o app s2 Hi H3 Ha H4) as [? ?].
    split_and!; try done. by eapply inv_safe.
Qed.

End Inv.

(** ** Runs *)
Module RegEx.

(** The slow path with its packet memory and the registers of the fast path; polling
    is recorded. *)
Record slow := mk_slow { sl_pm : packetmem; sl_nic : nicif; sl_polled : list (Z * Z) }.
#[global] Instance slow_apps : SlowApps slow := {
  sa_pm := sl_pm;
  sa_set_pm t pm := mk_slow pm (sl_nic t) (sl_polled t);
  sa_appctx_add t id db rx tx _ := '(rv, n) ← nicif_appctx_add (sl_nic t) id db rx tx; mret (rv, mk_slow (sl_pm t) n (sl_polled t));
  sa_new_app t _ := t;
  sa_new_ctx t _ _ _ _ _ := t;
  sa_poll t app ctx := mret (1, mk_slow (sl_pm t) (sl_nic t) (sl_polled t ++ [(app, ctx)]));
}.
Definition slow0 : slow := mk_slow (packetmem_init 1000000 (Some 1)).2 FlowTable.Demo.s [].
Definition start : reg_state slow := default (mk_reg slow0 [] 0 ∅ ∅ [] (nbqueue_init ∅) (nbqueue_init ∅) ∅ ∅ [] [] [] [])
  (appif_init slow0 true true (fun _ => true)).

Section Run.
Context (kin kout : Z).
Definition go := reg_run 1 4096 kin kout.
Definition connect (app fd status : Z) : reg_step :=
  RsEvent (EvListen (Some fd) [70] 60 (fun _ => true) (mk_amem (Some app) true 0 (replicate 8 0) status) true).
Definition mem (ctx : Z) : ctx_mem := mk_xmem (Some ctx) (map (fun i => Some (ctx + i)) [10; 11; 12; 13]) (fun _ => []).
Definition request (app ctx : Z) (data : list Z) : reg_step :=
  RsEvent (EvApp app KERNEL_EPOLLIN (Some data) (Some 9) (mem ctx) true).
Definition hang_up (app : Z) : reg_step := RsEvent (EvApp app 0x10 None None (mem 0) true).
Definition notify : reg_step := RsEvent (EvNotify true (fun _ => true) (fun _ => true)).
End Run.
Definition req (rx tx : Z) : list Z := le_bytes 4 rx ++ le_bytes 4 tx.
Definition seen {A} (f : reg_state slow -> A) (kin kout : Z) (l : list reg_step) : outcome A := f <$> go kin kout start l.

(** Connecting, asking for a context, registration, completion, polling. *)
Definition normal : list reg_step := [connect 1000 5 0; RsPoll; request 1000 2000 (req 256 128); RsPoll; notify; RsPoll].
Lemma normal_run :
  seen (fun s => (rg_sent s, sl_polled (rg_slow s), rg_registered s)) 1024 1024 normal =
  Ok ([(5, mk_resp 0 1032 0 1 1 [(2064, 2320)])], [(1000, 2000)], [(0, 1)]).
Proof. by vm_compute. Qed.

(** A request that arrives in two pieces: the second overwrites the first, and the
    lengths are those of other bytes. *)
Lemma split_request_misread :
  seen (fun s => (fun a => (ux_rxq_len (ra_req a), ux_txq_len (ra_req a))) <$> rg_apps s !! 1000) 1024 1024
    [connect 1000 5 0; request 1000 2000 (le_bytes 4 256); request 1000 2000 (le_bytes 4 128)] = Ok (Some (128, 0)).
Proof. by vm_compute. Qed.

(** The queue to the application gets the size of the other one: with the lengths
    1024 and 200 its block of packet memory has 208 bytes, the queue 1032. *)
Lemma kout_overruns_block :
  seen (fun s =>
      (c ← rg_ctxs s !! 2000; h ← rc_handles c !! 1%nat; ph_len <$> handles (sl_pm (rg_slow s)) !! h,
       c ← rg_ctxs s !! 2000; q ← rc_kout c ≫= (rg_mem s !!.); Some (SIZEOF_RDMA_QUEUE + buffer_size q)))
    1024 200 normal = Ok (Some 208, Some 1032).
Proof. by vm_compute. Qed.

(** A request for queues that are smaller than their own header stops the slow path. *)
Lemma small_request_stops : seen (fun _ => tt) 1024 1024
  [connect 1000 5 0; request 1000 2000 (req 16 128); RsPoll] = Stop AssertFailed.
Proof. by vm_compute. Qed.

(** The sixteenth context: there are doorbells for it, but the fast path has registers
    for sixteen only, the first of which is never used. *)
Definition contexts (n : nat) : list reg_step :=
  connect 1000 5 0 :: flat_map (fun i => [request 1000 (2000 + 100 * Z.of_nat i) (req 256 256); RsPoll; notify]) (seq 0 n).
Lemma sixteenth_context_stops :
  seen (fun s => length (rg_sent s)) 1024 1024 (contexts 15) = Ok 15%nat /\
  seen (fun s => length (rg_sent s)) 1024 1024 (contexts 16) = Stop OutOfBounds.
Proof. by vm_compute. Qed.

(** The ninth application since the start is refused, even if the others are gone. *)
Definition apps (n : nat) : list reg_step :=
  flat_map (fun i => let app := 1000 + Z.of_nat i in
    [connect app 5 0; request app (2000 + 100 * Z.of_nat i) (req 256 256); RsPoll; notify; hang_up app]) (seq 0 n).
Lemma ninth_application_refused :
  seen (fun s => length (rg_sent s)) 1024 1024 (apps 8) = Ok 8%nat /\
  seen (fun s => length (rg_sent s)) 1024 1024 (apps 9) = Ok 8%nat.
Proof. by vm_compute. Qed.

(** A context that cannot be allocated: the socket is closed twice. *)
Lemma failed_context_closes_twice :
  seen rg_closed 1024 1024
    [connect 1000 5 0; RsEvent (EvApp 1000 KERNEL_EPOLLIN (Some (req 256 256)) (Some 9) (mk_xmem None [] (fun _ => [])) true)]
  = Ok [5; 5].
Proof. by vm_compute. Qed.

(** An application whose socket cannot be watched is freed, but stays in the queue. *)
Lemma unwatched_application_used :
  seen (fun _ => tt) 1024 1024
    [RsEvent (EvListen (Some 5) [70] 60 (fun _ => true) (mk_amem (Some 1000) true 0 (replicate 8 0) 0) false); RsPoll]
  = Stop OutOfBounds.
Proof. by vm_compute. Qed.

(** The status of the completion is never set: with another value in the memory the
    application is closed instead of answered. *)
Lemma status_not_initialised :
  seen (fun s => (rg_sent s, rg_closed s)) 1024 1024 (connect 1000 5 7 :: tail normal) = Ok ([], [5]).
Proof. by vm_compute. Qed.

(** An application that hangs up while its context is registered: the descriptor is
    given to the next application, which gets the answer. *)
Lemma answer_to_another :
  seen (fun s => (rg_sent s, rg_closed s, ra_contexts <$> rg_apps s !! 1001)) 1024 1024
    [connect 1000 5 0; request 1000 2000 (req 256 256); hang_up 1000; connect 1001 5 0; RsPoll; notify]
  = Ok ([(5, mk_resp 0 1032 0 1 1 [(2064, 2320)])], [5], Some []).
Proof. by vm_compute. Qed.

End RegEx.

Lemma registration_safe_witness : exists s,
  RegEx.go 1024 1024 RegEx.start RegEx.normal = Ok s /\
  (reg_safe s \/
   exists s1 o app s2, reg_safe s1 /\ reg_reach 1 4096 1024 1024 step_ok RegEx.start s1 /\ unwatched o = Some app /\
     reg_do 1 4096 1024 1024 s1 o = Ok s2 /\ rg_apps s2 !! app = None /\
     reg_do 1 4096 1024 1024 s2 RsPoll = Stop OutOfBounds /\ reg_reach 1 4096 1024 1024 possible s2 s).
Proof.
  destruct (RegEx.go 1024 1024 RegEx.start RegEx.normal) as [s|] eqn:E; [|vm_compute in E; discriminate].
  exists s. split; [done|].
  assert (forall l s1 s2, reg_reach 1 4096 1024 1024 possible RegEx.start s1 ->
    (fix ok (l : list reg_step) (s : reg_state RegEx.slow) : Prop :=
       match l with
       | [] => True
       | o :: l => possible s o /\ match reg_do 1 4096 1024 1024 s o with Ok s' => ok l s' | Stop _ => True end
       end) l s1 ->
    RegEx.go 1024 1024 s1 l = Ok s2 -> reg_reach 1 4096 1024 1024 possible RegEx.start s2) as R.
  { induction l as [|o l IH]; intros s1 s2 H1 Hok Hr; [injection Hr as <-; exact H1|].
    destruct Hok as [Ho Hok]. simpl in Hr. destruct (reg_do 1 4096 1024 1024 s1 o) as [s'|] eqn:Es; [|discriminate].
    apply (IH s'); [by eapply reach_step|exact Hok|exact Hr]. }
  apply (registration_safe 1 4096 1024 1024 RegEx.slow0 true true (fun _ => true) RegEx.start s).
  - vm_compute. reflexivity.
  - apply (R RegEx.normal RegEx.start s); [apply reach_start| |exact E].
    vm_compute. repeat split; try discriminate; intros; simplify_eq; reflexivity.
Defined.
