(* ===== verification/RdmaMsg.v ===== *)
(** * Messages over RDMA (include/rdma.h, lib/utils/rdma.c, lib/host_nic/rdma_common.c)

    The processes on the NIC and the host exchange messages over reliable queue
    pairs: a message is copied into a ring of send buffers and posted, completions are
    polled and handed to the process's handlers. Theorems are in RdmaMsgSpec. *)
From S2P Require Import Prelude.

#[local] Open Scope Z_scope.

(** ** Messages *)

Definition RDMA_MSG_INVALID : Z := 0.
Definition RDMA_MSG_SEND_BASES : Z := 1.
Definition RDMA_MSG_APP_REG : Z := 2.
Definition RDMA_MSG_ACK_APP_REG : Z := 3.
Definition RDMA_MSG_REGISTER_CTX : Z := 4.
Definition RDMA_MSG_ACK_CTX_REG : Z := 5.
Definition RDMA_MSG_WAKEUP_TAS : Z := 6.
Definition RDMA_MSG_WAKEUP_APP : Z := 7.
Definition RDMA_MSG_LAST_VALUE : Z := 8.

Definition RDMA_IMM_INVALID : Z := 0.
Definition RDMA_IMM_TAS_INFO : Z := 1.
Definition RDMA_IMM_SIGNAL : Z := 2.
Definition RDMA_IMM_LAST_VALUE : Z := 3.

Record rdma_register_ctx := mk_reg_ctx {
  cr_memq_base : Z; cr_lkey : Z; cr_rkey : Z; cr_tx_len : Z; cr_rx_len : Z; cr_evfd : Z;
}.
Record rdma_ack_ctx_register := mk_ctx_ack {
  ca_memq_base : Z; ca_lkey : Z; ca_rkey : Z; ca_db_id : Z; ca_qs_num : Z;
}.
Record rdma_ack_app_register := mk_app_ack { aa_shm : Z; aa_rkey : Z; aa_lkey : Z; aa_success : Z }.

(** [struct rdma_msg]: the member of the union is the one that [type] says, which is
    the only one handlers read. [MsgOther] has a type without a member. *)
Inductive rdma_msg :=
| MsgBases (tas_info_opaque tas_info_rkey : Z)
| MsgAppReg (magic : list Z)
| MsgAckAppReg (a : rdma_ack_app_register)
| MsgRegisterCtx (r : rdma_register_ctx)
| MsgAckCtxReg (a : rdma_ack_ctx_register)
| MsgWakeupTas (wakeup_slow wakeup_fast : Z)
| MsgWakeupApp (fd : Z)
| MsgOther (type : Z).

Definition msg_type (m : rdma_msg) : Z :=
  match m with
  | MsgBases _ _ => RDMA_MSG_SEND_BASES
  | MsgAppReg _ => RDMA_MSG_APP_REG
  | MsgAckAppReg _ => RDMA_MSG_ACK_APP_REG
  | MsgRegisterCtx _ => RDMA_MSG_REGISTER_CTX
  | MsgAckCtxReg _ => RDMA_MSG_ACK_CTX_REG
  | MsgWakeupTas _ _ => RDMA_MSG_WAKEUP_TAS
  | MsgWakeupApp _ => RDMA_MSG_WAKEUP_APP
  | MsgOther t => t
  end.

(** ** Connections *)

Definition RC_MAX_OUTGOING : Z := 100.
Definition RC_MAX_INGOING : Z := 100.

Inductive rconn_type := RCONN_TYPE_INTERFACE | RCONN_TYPE_APP.

(** Work requests in the send queue of the queue pair: a message in a slot of the send
    buffer, or a write with an immediate, whose [wr_id] is the connection. *)
Inductive work :=
| WSend (slot : Z)
| WWriteImm (imm to key size : Z).

(** [struct rdma_connection] with its queue pair: the work requests that were posted
    and not completed, and the receive buffers that were posted. *)
Record rdma_connection := mk_conn {
  n_to_send : Z;
  send_off : Z;
  send_buffer : list rdma_msg;
  context_type : rconn_type;
  context : option Z;
  rc_sq : list work;
  rc_rq : list Z;
}.
#[export] Instance eta_conn : Eta rdma_connection := fun c =>
  mk_conn (n_to_send c) (send_off c) (send_buffer c) (context_type c) (context c) (rc_sq c) (rc_rq c).

(** How posting goes: without memory for [struct rdma_buffer_addrs], which the code does
    not check, refused by [ibv_post_send] or [ibv_post_recv], or accepted. *)
Inductive posting := NoMemory | Refused | Posted.
#[export] Instance posting_eq_dec : EqDecision posting.
Proof. solve_decision. Defined.

Definition rdma_send_msg (c : rdma_connection) (m : rdma_msg) (p : posting)
  : outcome (Z * rdma_connection) :=
  if n_to_send c >=? RC_MAX_OUTGOING then mret (-1, c)
  else
    _ ← c_assert (send_off c <? RC_MAX_OUTGOING);
    let slot := send_off c in
    let off := u64 (slot + 1) in
    let c := c <| send_buffer := <[Z.to_nat slot := m]> (send_buffer c) |>
               <| send_off := if off >=? RC_MAX_OUTGOING then u64 (off - RC_MAX_OUTGOING) else off |>
               <| n_to_send := u64 (n_to_send c + 1) |> in
    match p with
    | NoMemory => Stop OutOfBounds
    | Refused => mret (-1, c)
    | Posted => mret (0, c <| rc_sq := rc_sq c ++ [WSend slot] |>)
    end.

Definition rdma_write_with_imm (c : rdma_connection) (imm to key size : Z) (ok : bool)
  : Z * rdma_connection :=
  if ok then (0, c <| rc_sq := rc_sq c ++ [WWriteImm imm to key size] |>) else (-1, c).

Definition rdma_common_post_receive_buffer (c : rdma_connection) (slot : Z) (p : posting)
  : outcome (Z * rdma_connection) :=
  match p with
  | NoMemory => Stop OutOfBounds
  | Refused => mret (-1, c)
  | Posted => mret (0, c <| rc_rq := rc_rq c ++ [slot] |>)
  end.

(** The completion of a message that was sent. *)
Definition send_done (c : rdma_connection) : rdma_connection := c <| n_to_send := u64 (n_to_send c - 1) |>.

(** ** Handlers

    [H] are the handlers of a process, [A] the rest of its state, and [E] what the
    calls of a handler return. *)
Class Handlers (H A E : Type) := {
  run_recv : H -> Z -> rdma_msg -> E -> gmap Z rdma_connection -> A -> outcome (Z * gmap Z rdma_connection * A);
  run_plain : H -> Z -> E -> gmap Z rdma_connection -> A -> outcome (Z * gmap Z rdma_connection * A);
  handle_recv_invalid : H;
  handle_imm_invalid : H;
  handle_send_invalid : H;
}.

Section Process.
Context {H A E : Type} `{Handlers H A E}.

(** The tables of handlers, the devices' context ([verbs] of the first connection) and
    the connections. *)
Record rdma_state := mk_rdma {
  rdma_recv_handlers : list (option H);
  rdma_imm_handlers : list (option H);
  rdma_send_handlers : list (option H);
  rd_ctx : option Z;
  rd_conns : gmap Z rdma_connection;
  rd_proc : A;
}.
#[export] Instance eta_rdma : Eta rdma_state := fun s =>
  mk_rdma (rdma_recv_handlers s) (rdma_imm_handlers s) (rdma_send_handlers s) (rd_ctx s) (rd_conns s) (rd_proc s).
Implicit Types s : rdma_state.
Definition set_proc s (a : A) : rdma_state := s <| rd_proc := a |>.
Definition set_conns s (cs : gmap Z rdma_connection) : rdma_state := s <| rd_conns := cs |>.

Definition add_handler (last : Z) (tbl : list (option H)) (type : Z) (h : H) : outcome (Z * list (option H)) :=
  if type >=? last then mret (-1, tbl)
  else match tbl !! Z.to_nat type with
       | None => Stop OutOfBounds
       | Some (Some _) => mret (-1, tbl)
       | Some None => mret (0, <[Z.to_nat type := Some h]> tbl)
       end.
Definition add_recv_handler s (type : Z) (h : H) : outcome (Z * rdma_state) :=
  '(rv, t) ← add_handler RDMA_MSG_LAST_VALUE (rdma_recv_handlers s) type h; mret (rv, s <| rdma_recv_handlers := t |>).
Definition add_imm_handler s (type : Z) (h : H) : outcome (Z * rdma_state) :=
  '(rv, t) ← add_handler RDMA_IMM_LAST_VALUE (rdma_imm_handlers s) type h; mret (rv, s <| rdma_imm_handlers := t |>).
Definition add_send_handler s (type : Z) (h : H) : outcome (Z * rdma_state) :=
  '(rv, t) ← add_handler RDMA_MSG_LAST_VALUE (rdma_send_handlers s) type h; mret (rv, s <| rdma_send_handlers := t |>).

(** The tables are allocated; the code does not check the one for sending. *)
Definition rdma_common_init s (recv imm send : bool) : outcome (Z * rdma_state) :=
  let table (ok : bool) (n : Z) : list (option H) := if ok then replicate (Z.to_nat n) None else [] in
  let s := s <| rdma_recv_handlers := table recv RDMA_MSG_LAST_VALUE |>
             <| rdma_imm_handlers := table imm RDMA_IMM_LAST_VALUE |>
             <| rdma_send_handlers := table send RDMA_MSG_LAST_VALUE |> in
  if negb recv || negb imm then mret (-1, s)
  else
    '(rv, s) ← add_recv_handler s RDMA_MSG_INVALID handle_recv_invalid;
    if negb (rv =? 0) then mret (-1, s)
    else
      '(rv, s) ← add_imm_handler s RDMA_IMM_INVALID handle_imm_invalid;
      if negb (rv =? 0) then mret (-1, s)
      else '(_, s) ← add_send_handler s RDMA_IMM_INVALID handle_send_invalid; mret (0, s).

Definition get_conn (m : gmap Z rdma_connection) (conn : Z) : outcome rdma_connection :=
  match m !! conn with Some c => Ok c | None => Stop OutOfBounds end.

(** ** Completions *)

(** The opcode with what goes with it: the buffer and, for a message that was received,
    what the device put there. [WcWriteImm] is the completion of a write with an
    immediate, whose [wr_id] is the connection itself; [WcWrite] that of a read or write
    of a queue, whose [wr_id] is 0. *)
Inductive wc_op :=
| WcRecv (slot : Z) (m : rdma_msg)
| WcRecvImm (slot imm : Z)
| WcSend (slot : Z)
| WcWriteImm
| WcWrite.
Record ibv_wc := mk_wc { wc_success : bool; wc_conn : Z; wc_opcode : wc_op }.

Definition look_up (tbl : list (option H)) (i : Z) : outcome (option H) :=
  if i <? 0 then Stop OutOfBounds
  else match tbl !! Z.to_nat i with Some h => Ok h | None => Stop OutOfBounds end.

(** A handler, if there is one, changes the connections and the process. *)
Definition handled s (r : outcome (Z * gmap Z rdma_connection * A)) : outcome (Z * rdma_state) :=
  '(rv, cs, a) ← r; mret (rv, set_proc (set_conns s cs) a).

(** One round of the loop; [repost] and [e] are what posting the buffer again and the
    handler's calls give. The result is what to return, or 0 to go on. *)
Definition on_wc s (w : ibv_wc) (repost : posting) (e : E) : outcome (Z * rdma_state) :=
  if negb (wc_success w) then mret (-1, s)
  else
    let conn := wc_conn w in
    match wc_opcode w with
    | WcRecv slot m =>
        c ← get_conn (rd_conns s) conn;
        '(rv, c) ← rdma_common_post_receive_buffer c slot repost;
        if negb (rv =? 0) then mret (-1, s)
        else
          let s := s <| rd_conns := <[conn := c]> (rd_conns s) |> in
          if msg_type m >=? RDMA_MSG_LAST_VALUE then mret (-1, s)
          else
            h ← look_up (rdma_recv_handlers s) (msg_type m);
            match h with
            | Some h => handled s (run_recv h conn m e (rd_conns s) (rd_proc s))
            | None => mret (0, s)
            end
    | WcRecvImm slot imm =>
        c ← get_conn (rd_conns s) conn;
        '(rv, c) ← rdma_common_post_receive_buffer c slot repost;
        if negb (rv =? 0) then mret (-1, s)
        else
          let s := s <| rd_conns := <[conn := c]> (rd_conns s) |> in
          if imm >=? RDMA_IMM_LAST_VALUE then mret (-1, s)
          else
            h ← look_up (rdma_imm_handlers s) imm;
            match h with
            | Some h =>
                '(rv, s) ← handled s (run_plain h conn e (rd_conns s) (rd_proc s));
                mret (if rv =? 0 then 0 else -1, s)
            | None => mret (0, s)
            end
    | WcSend slot =>
        c ← get_conn (rd_conns s) conn;
        m ← (match send_buffer c !! Z.to_nat slot with Some m => Ok m | None => Stop OutOfBounds end);
        let s := s <| rd_conns := <[conn := send_done c]> (rd_conns s) |> in
        if msg_type m >=? RDMA_MSG_LAST_VALUE then mret (-1, s)
        else
          h ← look_up (rdma_send_handlers s) (msg_type m);
          match h with
          | Some h => handled s (run_plain h conn e (rd_conns s) (rd_proc s))
          | None => mret (0, s)
          end
    | WcWriteImm =>
        (* [free(addrs)], with what is the connection *)
        mret (0, s <| rd_conns := delete conn (rd_conns s) |>)
    | WcWrite => mret (0, s)
    end.

Fixpoint poll_cq s (l : list (ibv_wc * posting * E)) : outcome (Z * rdma_state) :=
  match l with
  | [] => mret (0, s)
  | (w, p, e) :: l =>
      '(rv, s) ← on_wc s w p e;
      if rv =? 0 then poll_cq s l else mret (rv, s)
  end.

(** [event] and [rearmed] are whether the completion event could be taken and the
    queue be armed again. *)
Definition rdma_common_on_completion s (event rearmed : bool) (l : list (ibv_wc * posting * E))
  : outcome (Z * rdma_state) :=
  if negb event then mret (-1, s)
  else if negb rearmed then mret (-1, s)
  else poll_cq s l.

(** ** Building a connection *)

(** The context is that of the device of the first connection; it is kept even when it
    could not be created completely. *)
Definition rdma_common_build_context s (verbs : Z) (created : bool) : Z * rdma_state :=
  match rd_ctx s with
  | Some v => (if v =? verbs then 0 else -1, s)
  | None => (if created then 0 else -1, s <| rd_ctx := Some verbs |>)
  end.

(** The posts of the receive buffers. *)
Fixpoint post_receives (n : nat) (c : rdma_connection) (bi : Z) (posts : Z -> posting)
  : outcome (Z * rdma_connection) :=
  match n with
  | O => mret (0, c)
  | S n =>
      '(rv, c) ← rdma_common_post_receive_buffer c bi (posts bi);
      if negb (rv =? 0) then mret (-1, c) else post_receives n c (bi + 1) posts
  end.

(** What the calls give: the context, the queue pair, the address of the connection,
    the buffers with what is in the one for sending, their registration and posts. *)
Record build_env := mk_build {
  be_verbs : Z; be_created : bool; be_qp : bool; be_conn : option Z;
  be_send : option (list rdma_msg); be_recv : bool; be_reg : bool; be_posts : Z -> posting;
}.

Definition rdma_common_build_connection s (b : build_env) : outcome (option Z * rdma_state) :=
  let '(rv, s) := rdma_common_build_context s (be_verbs b) (be_created b) in
  if negb (rv =? 0) then mret (None, s)
  else if negb (be_qp b) then mret (None, s)
  else
    match be_conn b with
    | None => Stop OutOfBounds
    | Some conn =>
        match be_send b, be_recv b with
        | Some buf, true =>
            let c := mk_conn 0 0 (take (Z.to_nat RC_MAX_OUTGOING) buf) RCONN_TYPE_INTERFACE None [] [] in
            if negb (be_reg b) then mret (None, s <| rd_conns := <[conn := c]> (rd_conns s) |>)
            else
              '(rv, c) ← post_receives (Z.to_nat RC_MAX_INGOING) c 0 (be_posts b);
              mret (if rv =? 0 then Some conn else None, s <| rd_conns := <[conn := c]> (rd_conns s) |>)
        | _, _ => Stop AssertFailed
        end
    end.

End Process.
Arguments rdma_state : clear implicits.

(** ** The context of a connection between the NIC and the host (lib/host_nic)

    Where the other side has its [tas_info], the registration of the own one, and flags. *)
Definition RC_FLAG_RECEIVED_BASES : Z := 1.
Definition RC_FLAG_RECEIVED_INFO : Z := 2.
Record host_nic_context := mk_hn { hn_bases : Z * Z; hn_mr : Z * Z; hn_flags : Z }.
#[export] Instance eta_hn : Eta host_nic_context := fun h => mk_hn (hn_bases h) (hn_mr h) (hn_flags h).

(** The memory and the registration (its two keys). The code does not check the former. *)
Definition allocate_host_nic_context (m : gmap Z host_nic_context) (mem : option Z) (mr : option (Z * Z))
  : outcome (option Z * gmap Z host_nic_context) :=
  match mem with
  | None => Stop OutOfBounds
  | Some h => mret (match mr with
                    | Some keys => (Some h, <[h := mk_hn (0, 0) keys 0]> m)
                    | None => (None, m)
                    end)
  end.

Definition send_on (cs : gmap Z rdma_connection) (conn : Z) (m : rdma_msg) (p : posting)
  : outcome (Z * gmap Z rdma_connection) :=
  c ← get_conn cs conn; '(rv, c) ← rdma_send_msg c m p; mret (rv, <[conn := c]> cs).

Definition rdma_common_send_bases (cs : gmap Z rdma_connection) (m : gmap Z host_nic_context) (tas_info conn : Z)
  (mem : option Z) (mr : option (Z * Z)) (p : posting) : outcome (Z * gmap Z rdma_connection * gmap Z host_nic_context) :=
  c ← get_conn cs conn;
  '(h, m) ← allocate_host_nic_context m mem mr;
  let c := c <| context := h |> in
  match h, mr with
  | Some _, Some (_, rkey) =>
      let c := c <| context_type := RCONN_TYPE_INTERFACE |> in
      '(rv, cs) ← send_on (<[conn := c]> cs) conn (MsgBases tas_info rkey) p;
      mret (if rv =? 0 then 0 else -1, cs, m)
  | _, _ => mret (-1, <[conn := c]> cs, m)
  end.

(** What goes with a connection; [munmap] of the context, which [calloc] gave, is what
    the result is of. *)
Definition rdma_common_free_conn_context (c : rdma_connection) (m : gmap Z host_nic_context) (unmapped : bool)
  : Z * gmap Z host_nic_context :=
  match context c, context_type c with
  | Some h, RCONN_TYPE_INTERFACE => (if unmapped then 0 else -1, delete h m)
  | _, _ => (0, m)
  end.
