(* ===== verification/RdmaMsgSpec.v ===== *)
(** * Messages over RDMA: every message arrives once, in order

    The device reads a message out of its slot some time after it was posted. The
    slots are used in turn; none is used again before its message has gone out. *)
From S2P Require Import Prelude RdmaMsg.
From Stdlib Require Import Sorted.

#[local] Open Scope Z_scope.

(** ** The sending end of a connection

    The software's calls, the device that takes work requests in order, and the
    completions in order. [ch_gone] is how many requests at the front of the send queue
    have gone out, [ch_wire] are the messages that went out, [ch_sent] those whose
    sending succeeded. The completion of a write with an immediate frees what its
    request names, which is the connection itself ([write_frees_connection] below):
    nothing is done on a connection after that. *)
Record channel := mk_channel {
  ch_conn : rdma_connection;
  ch_gone : nat;
  ch_wire : list rdma_msg;
  ch_sent : list rdma_msg;
  ch_freed : bool;
}.

Inductive channel_step : channel -> channel -> Prop :=
| cs_send c k w l m p rv c' : rdma_send_msg c m p = Ok (rv, c') ->
    channel_step (mk_channel c k w l false) (mk_channel c' k w (if rv =? 0 then l ++ [m] else l) false)
| cs_write c k w l imm to key size ok :
    channel_step (mk_channel c k w l false) (mk_channel (rdma_write_with_imm c imm to key size ok).2 k w l false)
| cs_out_send c k w l slot m : rc_sq c !! k = Some (WSend slot) -> send_buffer c !! Z.to_nat slot = Some m ->
    channel_step (mk_channel c k w l false) (mk_channel c (S k) (w ++ [m]) l false)
| cs_out_write c k w l imm to key size : rc_sq c !! k = Some (WWriteImm imm to key size) ->
    channel_step (mk_channel c k w l false) (mk_channel c (S k) w l false)
| cs_done_send c k w l slot q : rc_sq c = WSend slot :: q ->
    channel_step (mk_channel c (S k) w l false) (mk_channel (send_done (c <| rc_sq := q |>)) k w l false)
| cs_done_write c k w l imm to key size q : rc_sq c = WWriteImm imm to key size :: q ->
    channel_step (mk_channel c (S k) w l false) (mk_channel (c <| rc_sq := q |>) k w l true).

Definition fresh_connection (c : rdma_connection) : Prop :=
  n_to_send c = 0 /\ send_off c = 0 /\ Z.of_nat (length (send_buffer c)) = RC_MAX_OUTGOING /\ rc_sq c = [].
Inductive channel_reach : channel -> Prop :=
| cr_start c : fresh_connection c -> channel_reach (mk_channel c 0 [] [] false)
| cr_step x y : channel_reach x -> channel_step x y -> channel_reach y.

(** ** The invariant *)
Definition sends (q : list work) : list Z :=
  omap (fun w => match w with WSend s => Some s | WWriteImm _ _ _ _ => None end) q.
Lemma sends_app q q' : sends (q ++ q') = sends q ++ sends q'.
Proof. apply omap_app. Qed.
Lemma sends_split k q : sends q = sends (take k q) ++ sends (drop k q).
Proof. by rewrite <- sends_app, take_drop. Qed.

Lemma slots_contents (b : list rdma_msg) (l : list (Z * rdma_msg)) :
  Forall (fun o => b !! Z.to_nat (o.1 mod RC_MAX_OUTGOING) = Some o.2) l ->
  omap (fun slot => b !! Z.to_nat slot) ((fun o => o.1 mod RC_MAX_OUTGOING) <$> l) = l.*2.
Proof. induction 1 as [|o l Ho _ IH]; simpl; [done|]. rewrite Ho. f_equal. exact IH. Qed.

(** [P] slots were used so far and [C] messages are complete; [os] are the messages that
    are not, each with the number of its slot's use. *)
Record channel_inv (x : channel) (P C : Z) (done : list rdma_msg) (os : list (Z * rdma_msg)) : Prop := {
  ci_range : 0 <= C <= P;
  ci_count : n_to_send (ch_conn x) = P - C /\ P - C <= RC_MAX_OUTGOING;
  ci_off : send_off (ch_conn x) = P mod RC_MAX_OUTGOING;
  ci_len : Z.of_nat (length (send_buffer (ch_conn x))) = RC_MAX_OUTGOING;
  ci_os : Forall (fun o => C <= o.1 < P) os;
  ci_order : StronglySorted (fun a b => a.1 < b.1) os;
  ci_slots : sends (rc_sq (ch_conn x)) = (fun o => o.1 mod RC_MAX_OUTGOING) <$> os;
  ci_buf : Forall (fun o => send_buffer (ch_conn x) !! Z.to_nat (o.1 mod RC_MAX_OUTGOING) = Some o.2) os;
  ci_gone : (ch_gone x <= length (rc_sq (ch_conn x)))%nat;
  ci_sent : ch_sent x = done ++ os.*2;
  ci_wire : ch_wire x = done ++ (take (length (sends (take (ch_gone x) (rc_sq (ch_conn x))))) os).*2;
}.

Lemma send_slot_range P : 0 <= P mod RC_MAX_OUTGOING < RC_MAX_OUTGOING.
Proof. apply Z.mod_pos_bound. done. Qed.

Lemma next_off P : 0 <= P -> P mod RC_MAX_OUTGOING < RC_MAX_OUTGOING ->
  (if u64 (P mod RC_MAX_OUTGOING + 1) >=? RC_MAX_OUTGOING
   then u64 (u64 (P mod RC_MAX_OUTGOING + 1) - RC_MAX_OUTGOING) else u64 (P mod RC_MAX_OUTGOING + 1)) =
  (P + 1) mod RC_MAX_OUTGOING.
Proof.
  intros HP H. pose proof (send_slot_range P) as Hr. unfold RC_MAX_OUTGOING in *. rewrite (u64_small (P mod 100 + 1)) by lia.
  rewrite Z.geb_leb. destruct (Z.leb_spec 100 (P mod 100 + 1)).
  - rewrite u64_small by lia. rewrite <- Zplus_mod_idemp_l. replace (P mod 100 + 1) with 100 by lia. done.
  - rewrite <- Zplus_mod_idemp_l, (Z.mod_small (P mod 100 + 1)) by lia. done.
Qed.

(** Slots of messages that are not complete differ from the next. *)
Lemma slot_differs P C p : C <= p < P -> P - C < RC_MAX_OUTGOING -> p mod RC_MAX_OUTGOING <> P mod RC_MAX_OUTGOING.
Proof.
  intros Hp Hc E. unfold RC_MAX_OUTGOING in *.
  pose proof (Z.div_mod p 100 ltac:(lia)). pose proof (Z.div_mod P 100 ltac:(lia)). nia.
Qed.

(** Sending a message, whether it is posted or not. *)
Lemma send_inv c k w l b m p rv c' P C done os : channel_inv (mk_channel c k w l b) P C done os ->
  rdma_send_msg c m p = Ok (rv, c') ->
  exists P' os', channel_inv (mk_channel c' k w (if rv =? 0 then l ++ [m] else l) b) P' C done os'.
Proof.
  intros [I1 [I2 I2'] I3 I4 I5 I6 I7 I8 I9 Ia Ib] E. simpl in *. unfold rdma_send_msg in E.
  rewrite Z.geb_leb in E. destruct (Z.leb_spec RC_MAX_OUTGOING (n_to_send c)); [injection E as <- <-; by exists P, os|].
  pose proof (send_slot_range P) as Hr. rewrite I3, (proj2 (Z.ltb_lt _ _)) in E by lia. osimpl. rewrite next_off in E by lia.
  assert (forall q, Forall (fun o : Z * rdma_msg => <[Z.to_nat (P mod RC_MAX_OUTGOING):=q]> (send_buffer c) !! Z.to_nat (o.1 mod RC_MAX_OUTGOING) = Some o.2) os) as Hb.
  { intros q. apply Forall_lookup. intros i o Eo. pose proof (Forall_lookup_1 _ _ _ _ I5 Eo) as Ho.
    pose proof (Forall_lookup_1 _ _ _ _ I8 Eo) as Ho'. pose proof (slot_differs P C o.1 Ho ltac:(lia)).
    pose proof (send_slot_range o.1). rewrite list_lookup_insert_ne by lia. done. }
  assert (u64 (n_to_send c + 1) = P + 1 - C) as Hn by (unfold RC_MAX_OUTGOING in *; rewrite u64_small; lia).
  assert (Forall (fun o : Z * rdma_msg => C <= o.1 < P + 1) os) as Ho by (eapply Forall_impl; [exact I5|]; simpl; lia).
  destruct p; [done|..]; injection E as <- <-; simpl.
  - exists (P + 1), os. constructor; simpl; rewrite ?length_insert; try done; lia.
  - exists (P + 1), (os ++ [(P, m)]). constructor; simpl; rewrite ?length_insert, ?length_app; try done; try lia.
    + apply Forall_app. split; [done|]. repeat constructor; simpl; lia.
    + clear - I5 I6. induction I6 as [|o os Hs IH Hf]; simpl; [repeat constructor|]. inversion I5; subst.
      constructor; [by apply IH|]. apply Forall_app. split; [done|]. repeat constructor; simpl in *; lia.
    + rewrite sends_app, I7, fmap_app. done.
    + apply Forall_app. split; [apply Hb|]. repeat constructor. simpl. apply list_lookup_insert_eq. lia.
    + by rewrite Ia, fmap_app, app_assoc.
    + rewrite Ib. rewrite (take_app_le (rc_sq c)) by lia. f_equal. f_equal. rewrite take_app_le; [done|].
      rewrite <- (length_fmap (fun o => o.1 mod RC_MAX_OUTGOING)), <- I7.
      rewrite (sends_split k (rc_sq c)), length_app. lia.
Qed.

Lemma channel_step_inv x y P C done os : channel_inv x P C done os -> channel_step x y ->
  exists P' C' done' os', channel_inv y P' C' done' os'.
Proof.
  intros I S. destruct S as [c k w l m p rv c' E|c k w l imm to key size ok|c k w l slot m E Em|c k w l imm to key size E
    |c k w l slot q E|c k w l imm to key size q E].
  - destruct (send_inv _ _ _ _ _ _ _ _ _ _ _ _ _ I E) as (P' & os' & I'). eauto.
  - exists P, C, done, os. destruct I as [I1 I2 I3 I4 I5 I6 I7 I8 I9 Ia Ib]. unfold rdma_write_with_imm.
    destruct ok; simpl in *; [|by constructor]. constructor; simpl; try done.
    + rewrite sends_app. simpl. by rewrite app_nil_r.
    + rewrite length_app. lia.
    + by rewrite take_app_le by lia.
  - exists P, C, done, os. pose proof I as [I1 I2 I3 I4 I5 I6 I7 I8 I9 Ia Ib]. simpl in *.
    pose proof (lookup_lt_Some _ _ _ E). constructor; try done. simpl.
    assert (sends (take (S k) (rc_sq c)) = sends (take k (rc_sq c)) ++ [slot]) as Et by (by rewrite (take_S_r _ _ _ E), sends_app).
    assert (sends (rc_sq c) !! length (sends (take k (rc_sq c))) = Some slot) as El.
    { rewrite (sends_split (S k) (rc_sq c)), Et, <- app_assoc. by rewrite lookup_app_r, Nat.sub_diag by lia. }
    rewrite I7, list_lookup_fmap in El. destruct (os !! length (sends (take k (rc_sq c)))) as [o|] eqn:Eo; [|done].
    injection El as Es. pose proof (Forall_lookup_1 _ _ _ _ I8 Eo) as Em'. simpl in *. rewrite Es, Em in Em'. injection Em' as ->.
    rewrite Et, length_app, Nat.add_1_r, (take_S_r _ _ _ Eo), fmap_app, app_assoc. by rewrite Ib.
  - exists P, C, done, os. destruct I as [I1 I2 I3 I4 I5 I6 I7 I8 I9 Ia Ib]. simpl in *.
    pose proof (lookup_lt_Some _ _ _ E). constructor; try done. simpl.
    rewrite (take_S_r _ _ _ E), sends_app. simpl. by rewrite app_nil_r.
  - destruct I as [I1 [I2 I2'] I3 I4 I5 I6 I7 I8 I9 Ia Ib]. simpl in *. rewrite E in *. simpl in *.
    destruct os as [|o os]; [done|]. injection I7 as Es I7. inversion I5 as [|? ? Ho I5']; subst.
    inversion I6 as [|? ? I6' Hlt]; subst. inversion I8; subst. simpl in Ho.
    exists P, (C + 1), (done ++ [o.2]), os. unfold RC_MAX_OUTGOING in *.
    constructor; simpl; rewrite <- ?app_assoc; try done; try lia.
    + unfold RC_MAX_OUTGOING. rewrite u64_small; lia.
    + apply Forall_forall. intros o' Hin. rewrite Forall_forall in I5', Hlt. specialize (I5' _ Hin). specialize (Hlt _ Hin). simpl in *. lia.
  - destruct I as [I1 I2 I3 I4 I5 I6 I7 I8 I9 Ia Ib]. simpl in *. rewrite E in *. simpl in *.
    exists P, C, done, os. constructor; simpl; try done. lia.
Qed.

Lemma reach_channel_inv x : channel_reach x -> exists P C done os, channel_inv x P C done os.
Proof.
  induction 1 as [c (H1 & H2 & H3 & H4)|x y _ (P & C & done & os & I) S]; [|by eapply channel_step_inv].
  exists 0, 0, [], []. constructor; simpl; rewrite ?H4; try done; try (unfold RC_MAX_OUTGOING; lia); constructor.
Qed.

(** C21. Over a connection the messages that go out are those whose sending succeeded,
    each once and in order, whatever else is posted and however late the device reads
    the slots: until the connection is freed, what has not gone out yet is still in the
    slots, unchanged. Every message under way has one of the 100 places, and a message
    is accepted as long as a place is left and it can be posted; a post that is refused
    keeps its place. The completion of a write with an immediate frees the connection,
    and what has not gone out by then is not in memory any more. *)
Theorem messages_delivered x : channel_reach x ->
  (exists rest, ch_sent x = ch_wire x ++ rest /\
     (ch_freed x = false -> omap (fun slot => send_buffer (ch_conn x) !! Z.to_nat slot)
       (sends (drop (ch_gone x) (rc_sq (ch_conn x)))) = rest)) /\
  Z.of_nat (length (sends (rc_sq (ch_conn x)))) <= n_to_send (ch_conn x) <= RC_MAX_OUTGOING /\
  (ch_freed x = false -> forall m p, p <> NoMemory -> exists c', rdma_send_msg (ch_conn x) m p =
    Ok (if bool_decide (p = Posted) && (n_to_send (ch_conn x) <? RC_MAX_OUTGOING) then 0 else -1, c')) /\
  (ch_freed x = true -> forall y, ~ channel_step x y).
Proof.
  intros R. destruct (reach_channel_inv x R) as (P & C & done & os & [I1 [I2 I2'] I3 I4 I5 I6 I7 I8 I9 Ia Ib]).
  set (k := length (sends (take (ch_gone x) (rc_sq (ch_conn x))))) in *.
  assert (sends (drop (ch_gone x) (rc_sq (ch_conn x))) = (fun o => o.1 mod RC_MAX_OUTGOING) <$> drop k os) as Ed.
  { rewrite fmap_drop, <- I7, (sends_split (ch_gone x) (rc_sq (ch_conn x))). subst k. by rewrite drop_app_length. }
  split_and!.
  - exists ((drop k os).*2). split; [by rewrite Ia, Ib, <- app_assoc, <- fmap_app, take_drop|].
    intros _. rewrite Ed. apply slots_contents. by apply Forall_drop.
  - rewrite I7, length_fmap, I2. clear - I5 I6 I1. revert C I5 I1. induction I6 as [|o l _ IH Hf]; intros C H5 H1; simpl; [lia|].
    inversion H5 as [|? ? Ho H5']; subst. simpl in Ho.
    assert (Forall (fun x => o.1 + 1 <= x.1 < P) l) as Hl; [|specialize (IH (o.1 + 1) Hl ltac:(lia)); lia].
    apply Forall_forall. intros x Hx. rewrite Forall_forall in H5', Hf. specialize (H5' x Hx). specialize (Hf x Hx). simpl in *. lia.
  - lia.
  - intros _ m p Hp. unfold rdma_send_msg. rewrite Z.geb_leb. pose proof (send_slot_range P).
    destruct (Z.leb_spec RC_MAX_OUTGOING (n_to_send (ch_conn x))).
    + rewrite (proj2 (Z.ltb_ge _ _)) by lia. rewrite andb_false_r. by eexists.
    + rewrite (proj2 (Z.ltb_lt (n_to_send _) _)) by lia. rewrite I3, (proj2 (Z.ltb_lt _ _)) by lia. osimpl.
      destruct p; [done|by eexists..].
  - intros Hf y S. by destruct S.
Qed.

(** A message sent, gone out, completed, and another one sent. *)
Definition some_conn : rdma_connection := mk_conn 0 0 (replicate 100 (MsgOther 0)) RCONN_TYPE_APP None [] [].
Definition sent_on (c : rdma_connection) (m : rdma_msg) : rdma_connection :=
  match rdma_send_msg c m Posted with Ok (_, c) => c | Stop _ => c end.
Definition conn1 : rdma_connection := sent_on some_conn (MsgWakeupApp 7).
Definition conn2 : rdma_connection := send_done (conn1 <| rc_sq := ([] : list work) |>).
Definition conn3 : rdma_connection := sent_on conn2 (MsgWakeupApp 8).
Lemma messages_delivered_witness :
  channel_reach (mk_channel conn3 0 [MsgWakeupApp 7] [MsgWakeupApp 7; MsgWakeupApp 8] false) /\
  (exists rest, [MsgWakeupApp 7; MsgWakeupApp 8] = [MsgWakeupApp 7] ++ rest /\
    (false = false -> omap (fun slot => send_buffer conn3 !! Z.to_nat slot) (sends (drop 0 (rc_sq conn3))) = rest)).
Proof.
  assert (channel_reach (mk_channel conn3 0 [MsgWakeupApp 7] ([MsgWakeupApp 7] ++ [MsgWakeupApp 8]) false)) as R.
  { eapply (cr_step (mk_channel conn2 0 _ _ false)); [|apply (cs_send conn2 0 _ _ _ Posted 0); vm_compute; reflexivity].
    eapply (cr_step (mk_channel conn1 1 _ _ false)); [|apply (cs_done_send conn1 0 _ _ 0); vm_compute; reflexivity].
    eapply (cr_step (mk_channel conn1 0 [] _ false)); [|apply (cs_out_send conn1 0 [] _ 0 (MsgWakeupApp 7)); vm_compute; reflexivity].
    eapply (cr_step (mk_channel some_conn 0 [] [] false)); [apply cr_start; by vm_compute|].
    apply (cs_send some_conn 0 [] [] _ Posted 0); vm_compute; reflexivity. }
  split; [exact R|]. exact (proj1 (messages_delivered _ R)).
Defined.

(** ** What goes wrong *)
Section Wrong.
Context {H A E : Type} `{Handlers H A E}.
Implicit Types s : rdma_state H A.

(** When a write with an immediate completes, the connection is freed: what completes
    on it next uses memory after its release. *)
Lemma write_frees_connection s conn c e e' repost repost' slot m : rd_conns s !! conn = Some c ->
  exists s', on_wc s (mk_wc true conn WcWriteImm) repost e = Ok (0, s') /\
    on_wc s' (mk_wc true conn (WcRecv slot m)) repost' e' = Stop OutOfBounds.
Proof. intros _. eexists. split; [done|]. unfold on_wc, get_conn. simpl. by rewrite lookup_delete_eq. Qed.

(** A message type from the other side is compared as a signed number. *)
Lemma negative_type s conn c slot t e : rd_conns s !! conn = Some c -> t < 0 ->
  on_wc s (mk_wc true conn (WcRecv slot (MsgOther t))) Posted e = Stop OutOfBounds.
Proof.
  intros Hc Ht. unfold on_wc, get_conn. simpl. rewrite Hc. osimpl. simpl. unfold RDMA_MSG_LAST_VALUE, look_up.
  rewrite Z.geb_leb, (proj2 (Z.leb_gt _ _)) by lia. by rewrite (proj2 (Z.ltb_lt _ _)) by lia.
Qed.
End Wrong.

(** A post that is refused uses up a place for good: after 100 of them nothing can be
    sent any more. *)
Fixpoint refused (n : nat) (c : rdma_connection) : outcome rdma_connection :=
  match n with O => mret c | S n => '(_, c) ← rdma_send_msg c (MsgOther 0) Refused; refused n c end.
Lemma refused_posts_block c m p : fresh_connection c -> exists c', refused 100 c = Ok c' /\ rc_sq c' = [] /\
  rdma_send_msg c' m p = Ok (-1, c').
Proof.
  intros (H1 & H2 & H3 & H4). destruct c as [n off buf t x sq rq]. cbn in H1, H2, H3, H4. subst.
  assert (forall k o b, Z.of_nat k <= 100 -> 0 <= o < 100 -> exists o' b', refused k (mk_conn (100 - Z.of_nat k) o b t x [] rq) = Ok (mk_conn 100 o' b' t x [] rq)) as L.
  { induction k as [|k IH]; intros o b Hk Ho; [by eexists _, _|]. cbn [refused]. unfold rdma_send_msg, RC_MAX_OUTGOING. simpl.
    rewrite Z.geb_leb, (proj2 (Z.leb_gt _ _)) by lia. rewrite (proj2 (Z.ltb_lt _ _)) by lia. osimpl.
    replace (u64 (100 - Z.of_nat (S k) + 1)) with (100 - Z.of_nat k) by (rewrite u64_small; lia). apply IH; [lia|].
    rewrite (u64_small (o + 1)) by lia. rewrite Z.geb_leb. destruct (Z.leb_spec 100 (o + 1)); rewrite ?u64_small; lia. }
  destruct (L 100%nat 0 buf ltac:(lia) ltac:(lia)) as (o & b & E). replace (100 - Z.of_nat 100) with 0 in E by lia.
  exists (mk_conn 100 o b t x [] rq). split_and!; [exact E|reflexivity..].
Qed.
