(* ===== verification/RdmaNic.v ===== *)
(** * Remote applications and the host, seen from the NIC (tas_nic/slow/rdmaif.c)

    A thread of the slow path serves the RDMA connections: of the host process, which
    is sent a copy of [tas_info] and relays wake-ups, and of applications on the host,
    which register themselves and their contexts. Theorems are in RdmaSetup. *)
From S2P Require Import Prelude RdmaQueue Util PacketMem AppReg RdmaMsg.

#[local] Open Scope Z_scope.

(** [FLEXNIC_MAGIC_STR], as the four bytes of [char magic[4]]. *)
Definition FLEXNIC_MAGIC : list Z := [84; 65; 83; 0].
Definition FLEXNIC_INFO_BYTES : Z := 0x1000.

(** The descriptors that are written to wake somebody. *)
Inductive wake := WakeSlow | WakeCore (core : Z).

Section Nic.
Context {T L : Type} `{SlowApps T} `{RdmaLink L}.

(** What the thread keeps besides its connections: the registration of applications,
    the memory of remote applications as reached through their queue pairs, contexts of
    the host's connection, the keys of the registered memories (local and remote), and
    who was woken. *)
Record nic_proc := mk_nic {
  np_reg : reg_state T;
  np_link : L;
  np_hn : gmap Z host_nic_context;
  tas_host_conn : option Z;
  tas_shm_mr : option (Z * Z);
  tas_info_mr : option (Z * Z);
  np_woken : list wake;
}.
#[export] Instance eta_nic : Eta nic_proc := fun a =>
  mk_nic (np_reg a) (np_link a) (np_hn a) (tas_host_conn a) (tas_shm_mr a) (tas_info_mr a) (np_woken a).
Implicit Types a : nic_proc.
Implicit Types cs : gmap Z rdma_connection.
Definition set_reg a (r : reg_state T) (l : L) : nic_proc := a <| np_reg := r |> <| np_link := l |>.

(** What calls give while a message is handled: posts, writes with an immediate, writes
    to descriptors, memory with its contents, and registrations of memory. *)
Record nic_env := mk_nenv {
  ne_post : posting; ne_write_imm : bool; ne_notify : wake -> bool; ne_mem : option Z;
  ne_mr : option (Z * Z); ne_app : app_mem; ne_ctx : ctx_mem;
}.

(** The number of cores, the addresses of the shared memory and of [tas_info] with its
    magic bytes, and the lengths of the queues to and from the slow path. *)
Context (cores_num tas_shm tas_info app_kin_len app_kout_len : Z) (info_magic : list Z).

Definition set_conn_context (c : rdma_connection) (p : option Z) : rdma_connection := c <| context := p |>.

(** ** The host process *)
Definition handle_recv_bases (conn opaque rkey : Z) (e : nic_env) cs a
  : outcome (Z * gmap Z rdma_connection * nic_proc) :=
  '(rv, cs, hn) ← rdma_common_send_bases cs (np_hn a) tas_info conn (ne_mem e) (ne_mr e) (ne_post e);
  let a := a <| np_hn := hn |> in
  if negb (rv =? 0) then mret (-1, cs, a)
  else
    c ← get_conn cs conn;
    match context c ≫= fun h => (h,.) <$> np_hn a !! h with
    | None => Stop OutOfBounds
    | Some (h, x) =>
        let x := x <| hn_bases := (opaque, rkey) |> <| hn_flags := Z.lor (hn_flags x) RC_FLAG_RECEIVED_BASES |> in
        mret (0, cs, a <| np_hn := <[h := x]> (np_hn a) |>)
    end.

(** When the own bases have gone out. *)
Definition handle_send_bases (conn : Z) (e : nic_env) cs a : outcome (Z * gmap Z rdma_connection * nic_proc) :=
  c ← get_conn cs conn;
  _ ← c_assert (match context_type c with RCONN_TYPE_INTERFACE => true | _ => false end);
  let a := a <| tas_host_conn := Some conn |> in
  _ ← c_assert (bool_decide (info_magic = FLEXNIC_MAGIC));
  match context c ≫= (np_hn a !!.) with
  | None => Stop OutOfBounds
  | Some x =>
      let '(rv, c) := rdma_write_with_imm c RDMA_IMM_TAS_INFO (hn_bases x).1 (hn_bases x).2 FLEXNIC_INFO_BYTES (ne_write_imm e) in
      mret (if rv =? 0 then 0 else -1, <[conn := c]> cs, a)
  end.

Definition handle_imm_signal (conn : Z) cs a : outcome (Z * gmap Z rdma_connection * nic_proc) :=
  c ← get_conn cs conn;
  _ ← c_assert (match context_type c with RCONN_TYPE_INTERFACE => true | _ => false end);
  mret (0, cs, a).

(** The loop over the bits of [wakeup_fast]: [None] when a write failed. [ctxs] has an
    entry for each core. *)
Fixpoint wake_cores (fuel : nat) (wakeup_fast to_wakeup : Z) (e : nic_env) (woken : list wake) : outcome (bool * list wake) :=
  match fuel with
  | O => Stop OutOfFuel
  | S fuel =>
      if wakeup_fast <=? 0 then mret (true, woken)
      else if to_wakeup >? cores_num then mret (true, woken)
      else if negb (Z.land wakeup_fast 1 =? 0) then
        if to_wakeup >=? cores_num then Stop OutOfBounds
        else
          let woken := woken ++ [WakeCore to_wakeup] in
          if ne_notify e (WakeCore to_wakeup)
          then wake_cores fuel (Z.shiftr wakeup_fast 1) (to_wakeup + 1) e woken
          else mret (false, woken)
      else wake_cores fuel (Z.shiftr wakeup_fast 1) (to_wakeup + 1) e woken
  end.
Definition handle_recv_wakeup (conn wakeup_slow wakeup_fast : Z) (e : nic_env) cs a
  : outcome (Z * gmap Z rdma_connection * nic_proc) :=
  c ← get_conn cs conn;
  _ ← c_assert (match context_type c with RCONN_TYPE_INTERFACE => true | _ => false end);
  let slow := negb (wakeup_slow =? 0) in
  let a := if slow then a <| np_woken := np_woken a ++ [WakeSlow] |> else a in
  if slow && negb (ne_notify e WakeSlow) then mret (-1, cs, a)
  else
    '(ok, woken) ← wake_cores 65 wakeup_fast 0 e (np_woken a);
    mret (if (ok : bool) then 0 else -1, cs, a <| np_woken := woken |>).

(** ** Applications *)
Definition handle_recv_app_reg (conn : Z) (magic : list Z) (e : nic_env) cs a
  : outcome (Z * gmap Z rdma_connection * nic_proc) :=
  _ ← c_assert (bool_decide (magic = FLEXNIC_MAGIC));
  let '(app, r) := allocate_application cores_num (np_reg a) (CtRemote (-1) conn) (ne_app e) in
  let a := a <| np_reg := r |> in
  c ← get_conn cs conn;
  let c := c <| context_type := RCONN_TYPE_APP |> in
  let c := match app with Some p => set_conn_context c (Some p) | None => c end in
  match tas_shm_mr a with
  | None => Stop OutOfBounds
  | Some (lkey, rkey) =>
      let ack := mk_app_ack tas_shm (u32 rkey) (u32 lkey) (if app then 1 else 0) in
      '(rv, cs) ← send_on (<[conn := c]> cs) conn (MsgAckAppReg ack) (ne_post e);
      if rv =? 0 then mret (0, cs, a) else Stop Aborted
  end.

(** A queue in the buffer of a context, [offset] from its start, and its pairing with
    the queue at [ep] in the memory of the application. The code takes it for granted
    that there is a queue. *)
Definition queue_in_buffer (r : reg_state T) (raw : Z -> list Z) (base offset nbytes qp lkey rkey : Z)
  : outcome (Z * reg_state T) :=
  match place_queue r raw (u64 (base + offset)) nbytes qp lkey rkey with
  | (Some q, r) => mret (q, r)
  | (None, _) => Stop OutOfBounds
  end.
Definition pair_queue (r : reg_state T) (l : L) (q : Z) (ep : rdma_queue_endpoint) : outcome (Z * reg_state T * L) :=
  match rg_mem r !! q with
  | None => Stop OutOfBounds
  | Some x =>
      '(rv, x, l) ← rq_pair_receiver x l ep;
      mret (rv, set_mem r (<[q := x]> (rg_mem r)), l)
  end.
(** The queue ends where the next one starts. *)
Definition ends_at (r : reg_state T) (q end_ : Z) : outcome unit :=
  match rg_mem r !! q with
  | None => Stop OutOfBounds
  | Some x => c_assert (u64 (q + buffer_size x + SIZEOF_RDMA_QUEUE) =? end_)
  end.
Definition advance (ep : rdma_queue_endpoint) (n : Z) : rdma_queue_endpoint := ep <| ep_addr := u64 (ep_addr ep + n) |>.

(** The queues of one core: the one to the application is paired here, the other by
    the application. Whether the pairing worked is not looked at. *)
Fixpoint nic_core_queues (n : nat) (r : reg_state T) (l : L) (raw : Z -> list Z) (base offset qp lkey rkey : Z)
  (ep : rdma_queue_endpoint) (rx_len tx_len : Z) : outcome (Z * reg_state T * L) :=
  match n with
  | O => mret (offset, r, l)
  | S n =>
      '(q, r) ← queue_in_buffer r raw base offset rx_len qp lkey rkey;
      '(_, r, l) ← pair_queue r l q ep;
      let offset := i32 (u64 (offset + rx_len)) in
      let ep := advance ep rx_len in
      _ ← ends_at r q (u64 (base + offset));
      '(q, r) ← queue_in_buffer r raw base offset tx_len qp lkey rkey;
      let offset := i32 (u64 (offset + tx_len)) in
      let ep := advance ep tx_len in
      _ ← ends_at r q (u64 (base + offset));
      nic_core_queues n r l raw base offset qp lkey rkey ep rx_len tx_len
  end.

(** The queue to the slow path, the one from it, then those of the cores. [qp] is the
    connection's queue pair. *)
Definition handle_recv_reg_ctx (conn qp : Z) (m : rdma_register_ctx) (e : nic_env) cs a
  : outcome (Z * gmap Z rdma_connection * nic_proc) :=
  c ← get_conn cs conn;
  _ ← c_assert (match context_type c with RCONN_TYPE_APP => true | _ => false end);
  let kin_qsize := u64 (app_kin_len + SIZEOF_RDMA_QUEUE) in
  let kout_qsize := u64 (app_kout_len + SIZEOF_RDMA_QUEUE) in
  let nic_rx_len := u64 (cr_rx_len m + SIZEOF_RDMA_QUEUE) in
  let nic_tx_len := u64 (cr_tx_len m + SIZEOF_RDMA_QUEUE) in
  let bytes_needed := u64 (u64 (kin_qsize + kout_qsize) + u64 (u64 (nic_rx_len + nic_tx_len) * cores_num)) in
  match ne_mr e, ne_mem e with
  | None, _ => mret (-1, cs, a)
  | Some _, None => Stop OutOfBounds
  | Some (lkey, rkey), Some base =>
      let raw := xm_raw (ne_ctx e) in
      let ep := mk_endpoint (cr_memq_base m) 0 (cr_lkey m) (cr_rkey m) in
      '(q, r) ← queue_in_buffer (np_reg a) raw base 0 kin_qsize qp lkey rkey;
      let offset := i32 kin_qsize in
      let ep := advance ep kin_qsize in
      _ ← ends_at r q (u64 (base + offset));
      '(q, r) ← queue_in_buffer r raw base offset kout_qsize qp lkey rkey;
      '(rv, r, l) ← pair_queue r (np_link a) q ep;
      _ ← c_assert (rv =? 0);
      let offset := i32 (u64 (offset + kout_qsize)) in
      let ep := advance ep kout_qsize in
      _ ← ends_at r q (u64 (base + offset));
      '(offset, r, l) ← nic_core_queues (Z.to_nat cores_num) r l raw base offset qp lkey rkey ep nic_rx_len nic_tx_len;
      _ ← c_assert (u64 offset =? bytes_needed);
      match context c with
      | None => Stop OutOfBounds
      | Some app =>
          '(_, r) ← allocate_remote_app_context r app (CtRemote (cr_evfd m) conn)
                      (mk_rq base (i32 (cr_rx_len m)) (i32 (cr_tx_len m)) lkey rkey) (ne_ctx e);
          mret (0, cs, set_reg a r l)
      end
  end.

(** ** The table of handlers *)
Inductive nic_handler := NInvalid | NRecvBases | NSendBases | NImmSignal | NAppReg | NRegCtx | NWakeup.

Definition nic_recv (h : nic_handler) (conn : Z) (m : rdma_msg) (e : nic_env) cs a
  : outcome (Z * gmap Z rdma_connection * nic_proc) :=
  match h, m with
  | NRecvBases, MsgBases o k => handle_recv_bases conn o k e cs a
  | NAppReg, MsgAppReg magic => handle_recv_app_reg conn magic e cs a
  | NRegCtx, MsgRegisterCtx r => handle_recv_reg_ctx conn conn r e cs a
  | NWakeup, MsgWakeupTas slow fast => handle_recv_wakeup conn slow fast e cs a
  | _, _ => mret (-1, cs, a)
  end.
Definition nic_plain (h : nic_handler) (conn : Z) (e : nic_env) cs a : outcome (Z * gmap Z rdma_connection * nic_proc) :=
  match h with
  | NSendBases => handle_send_bases conn e cs a
  | NImmSignal => handle_imm_signal conn cs a
  | _ => mret (-1, cs, a)
  end.
#[export] Instance nic_handlers : Handlers nic_handler nic_proc nic_env := {
  run_recv := nic_recv; run_plain := nic_plain;
  handle_recv_invalid := NInvalid; handle_imm_invalid := NInvalid; handle_send_invalid := NInvalid;
}.

Definition rdma_server_handlers (s : rdma_state nic_handler nic_proc) (recv imm send : bool)
  : outcome (rdma_state nic_handler nic_proc) :=
  '(rv, s) ← rdma_common_init s recv imm send; _ ← c_assert (rv =? 0);
  '(rv, s) ← add_recv_handler s RDMA_MSG_SEND_BASES NRecvBases; _ ← c_assert (rv =? 0);
  '(rv, s) ← add_send_handler s RDMA_MSG_SEND_BASES NSendBases; _ ← c_assert (rv =? 0);
  '(rv, s) ← add_imm_handler s RDMA_IMM_SIGNAL NImmSignal; _ ← c_assert (rv =? 0);
  '(rv, s) ← add_recv_handler s RDMA_MSG_APP_REG NAppReg; _ ← c_assert (rv =? 0);
  '(rv, s) ← add_recv_handler s RDMA_MSG_REGISTER_CTX NRegCtx; _ ← c_assert (rv =? 0);
  '(rv, s) ← add_recv_handler s RDMA_MSG_WAKEUP_TAS NWakeup; _ ← c_assert (rv =? 0);
  mret s.

(** ** Events of the connection manager *)
Inductive cm_event :=
| CmConnectRequest (b : build_env) (added accepted : bool)
| CmEstablished (shm_mr info_mr : option (Z * Z))
| CmDisconnected (conn : Z) (unmapped : bool)
| CmOther.

Definition on_cm_event (s : rdma_state nic_handler nic_proc) (ev : cm_event)
  : outcome (Z * rdma_state nic_handler nic_proc) :=
  match ev with
  | CmConnectRequest b added accepted =>
      let add := bool_decide (rd_ctx s = None) in
      '(conn, s) ← rdma_common_build_connection s b;
      match conn with
      | None => mret (-1, s)
      | Some _ => _ ← c_assert (negb add || added); mret (if accepted then 0 else -1, s)
      end
  | CmEstablished shm info =>
      let s := set_proc s ((rd_proc s) <| tas_shm_mr := shm |>) in
      if shm then
        let s := set_proc s ((rd_proc s) <| tas_info_mr := info |>) in
        mret (if info then 0 else -1, s)
      else mret (-1, s)
  | CmDisconnected conn unmapped =>
      c ← get_conn (rd_conns s) conn;
      let '(_, hn) := rdma_common_free_conn_context c (np_hn (rd_proc s)) unmapped in
      mret (0, set_proc (set_conns s (delete conn (rd_conns s))) ((rd_proc s) <| np_hn := hn |>))
  | CmOther => mret (-1, s)
  end.

End Nic.
Arguments nic_proc : clear implicits.
