(* ===== verification/TcpInv.v ===== *)
(** * The connections of the TCP slow path: invariant and state machine

    Every connection is in the hash table, waits at one listener, or has failed;
    the operations of TcpSlow keep it so, and each changes the status of one
    connection at most, along an edge of the state machine that belongs to it. *)
From S2P Require Import Prelude RdmaQueue Packets FlowState FastCtx Wire Util Timeout PacketMem FlowTable SlowState.
From S2P Require Import CongCtl Arp Routing Ports Listener ConnTable AppMsg TcpWire TcpState TcpSlow.
From stdpp Require Import relations.

#[local] Open Scope Z_scope.

(** Take one step of a computation that returned, in the hypothesis [H]. *)
Ltac step_in H :=
  let a := fresh "a" in let E := fresh "E" in
  apply bind_Ok_inv in H as (a & E & H);
  repeat match type of H with
  | context [match ?x with (_, _) => _ end] => is_var x; destruct x
  end; cbv beta iota in H.
Ltac ret_in H := injection H as H.

(** ** The state machine *)

(** Statuses; [None] is no connection at an address. *)
Definition status_rel : Type := option connection_status -> option connection_status -> Prop.

(** A connection that fails is freed when its application takes the report, and
    otherwise left over. *)
Definition ends (b : option connection_status) : Prop := b = None \/ b = Some CONN_FAILED.

(** What the slow path reacts to, with what the allocators return then. *)
Inductive tcp_event :=
| EvPacket (pkt : list Z) (len fn_core flow_group : Z)
| EvPolled (conn : Z)
| EvTimeout (conn type : Z)
| EvOpen (ctx : Z) (d : kernel_appout_conn_open) (db_id : Z) (m : conn_mem) (arp_fresh : option Z)
| EvListen (ctx opaque port backlog : Z) (reuse : bool) (lm : option Z) (lst : option (Z * list backlog_slot))
| EvAccept (ctx : Z) (d : kernel_appout_accept_conn) (l : option Z) (db_id : Z) (m : conn_mem)
| EvClose (conn : Z).

(** The edges that belong to an event, and the connection they are of: the one the
    event is about, or the new one at the address the allocator returned. *)
Inductive event_edge : tcp_event -> Z -> status_rel :=
| edge_syn_ack pkt len cr fg p : event_edge (EvPacket pkt len cr fg) p (Some CONN_SYN_SENT) (Some CONN_OPEN)
| edge_no_syn_ack pkt len cr fg p b : ends b -> event_edge (EvPacket pkt len cr fg) p (Some CONN_SYN_SENT) b
| edge_bad_syn pkt len cr fg p b : ends b -> event_edge (EvPacket pkt len cr fg) p (Some CONN_OPEN) b
| edge_syn pkt len cr fg p : event_edge (EvPacket pkt len cr fg) p (Some CONN_SYN_WAIT) (Some CONN_REG_SYNACK)
| edge_resolved p : event_edge (EvPolled p) p (Some CONN_ARP_PENDING) (Some CONN_SYN_SENT)
| edge_unresolved p b : ends b -> event_edge (EvPolled p) p (Some CONN_ARP_PENDING) b
| edge_registered p : event_edge (EvPolled p) p (Some CONN_REG_SYNACK) (Some CONN_OPEN)
| edge_unregistered p b : ends b -> event_edge (EvPolled p) p (Some CONN_REG_SYNACK) b
| edge_retries p b : ends b -> event_edge (EvTimeout p TO_TCP_HANDSHAKE) p (Some CONN_SYN_SENT) b
| edge_freed p : event_edge (EvTimeout p TO_TCP_CLOSED) p (Some CONN_CLOSED) None
| edge_open x d db m af p c b : cm_conn m = Some (p, c) -> In b [CONN_ARP_PENDING; CONN_SYN_SENT] ->
    event_edge (EvOpen x d db m af) p None (Some b)
| edge_accept x d l db m p c b : cm_conn m = Some (p, c) -> In b [CONN_SYN_WAIT; CONN_REG_SYNACK] ->
    event_edge (EvAccept x d l db m) p None (Some b)
| edge_close p : event_edge (EvClose p) p (Some CONN_OPEN) (Some CONN_CLOSED).

Section Inv.
Context {N A : Type} `{PacketTx N} `{FlowIf N} `{AppQueues A} `{Checksums}.
Context (crc4 : Z -> Z -> Z) (crc8 : Z -> Z -> Z).
Context (eth_addr : Z) (cfg : configuration) (tas_shm mr_lkey mr_rkey : Z).
Context (routes : list routing_table_entry) (hop_fuel : nat) (now cur_ts : Z).

Abbreviation state := (tcp_state N A).
Implicit Types (s : state) (c : connection).
Abbreviation bucket := (conn_bucket crc4 crc8).
Abbreviation table := (conn_table crc4 crc8).

Definition status_at s (p : Z) : option connection_status := cn_status <$> ts_conns s !! p.

(** No status changes but that of the connection at [p], along one edge of [R]. *)
Definition moves (p : Z) (R : status_rel) s s' : Prop := forall q,
  status_at s' q = status_at s q \/ q = p /\ R (status_at s q) (status_at s' q).

(** The statuses of connections in the table, and of those that wait. *)
Definition st_registered (st : connection_status) : Prop :=
  st = CONN_ARP_PENDING \/ st = CONN_SYN_SENT \/ st = CONN_REG_SYNACK \/ st = CONN_OPEN \/ st = CONN_CLOSED.
Definition st_waiting (st : connection_status) : Prop := st = CONN_SYN_WAIT \/ st = CONN_REG_SYNACK.

(** [x] is a connection that is on its way from one list to another. *)
Record tcp_inv (x : option Z) s (tbl : Z -> list Z) (waits : Z -> list Z) : Prop := {
  ti_table : table (ts_conns s) (ts_ht s) tbl;
  ti_chain : forall l y, ts_listeners s !! l = Some y -> ht_chain (ts_conns s) (wait_conns y) (waits l);
  ti_nodup : forall l, NoDup (waits l);
  ti_none : forall l, ts_listeners s !! l = None -> waits l = [];
  ti_apart : forall l p b, p ∈ waits l -> p ∉ tbl b;
  ti_one : forall l l' p, p ∈ waits l -> p ∈ waits l' -> l = l';
  ti_reg : forall b p c, p ∈ tbl b -> ts_conns s !! p = Some c -> st_registered (cn_status c);
  ti_wait : forall l p c, p ∈ waits l -> ts_conns s !! p = Some c -> st_waiting (cn_status c);
  ti_all : forall p c, ts_conns s !! p = Some c -> Some p <> x -> cn_status c <> CONN_FAILED ->
    p ∈ tbl (bucket c) \/ exists l, p ∈ waits l;
  ti_moving : forall p, x = Some p -> (forall b, p ∉ tbl b) /\ (forall l, p ∉ waits l);
}.

(** ** What the invariant depends on *)
Definition cview (c : connection) : connection_status * option Z * Z := (cn_status c, ht_next c, bucket c).
Definition core s : gmap Z (connection_status * option Z * Z) * hashtable * gmap Z (option Z) :=
  (cview <$> ts_conns s, ts_ht s, wait_conns <$> ts_listeners s).

Lemma fmap_agree {X Y} (f : X -> Y) (m m' : gmap Z X) p x : f <$> m = f <$> m' -> m !! p = Some x ->
  exists y, m' !! p = Some y /\ f y = f x.
Proof.
  intros E Hx. assert ((f <$> m') !! p = Some (f x)) as Hy by (rewrite <- E, lookup_fmap, Hx; done).
  rewrite lookup_fmap in Hy. destruct (m' !! p) as [y|]; [|done]. injection Hy as Hy. by exists y.
Qed.
Lemma fmap_agree_None {X Y} (f : X -> Y) (m m' : gmap Z X) p : f <$> m = f <$> m' -> m !! p = None -> m' !! p = None.
Proof.
  intros E Hx. assert ((f <$> m') !! p = None) as Hy by (rewrite <- E, lookup_fmap, Hx; done).
  rewrite lookup_fmap in Hy. by destruct (m' !! p).
Qed.

Lemma core_chain (h h' : conn_heap) o l : cview <$> h = cview <$> h' -> ht_chain h o l -> ht_chain h' o l.
Proof.
  intros E. apply ht_chain_agree. intros p _. destruct (h !! p) as [c|] eqn:Ec.
  - destruct (fmap_agree _ _ _ _ _ E Ec) as (c' & -> & E'). simpl. f_equal. unfold cview in E'. congruence.
  - by rewrite (fmap_agree_None _ _ _ _ E Ec).
Qed.

Lemma core_inv x s s' tbl waits : core s' = core s -> tcp_inv x s tbl waits -> tcp_inv x s' tbl waits.
Proof.
  unfold core. intros [= Eh Et El] [T Hc Hn Hno Ha Ho Hr Hw Hall Hm].
  assert (forall p c', ts_conns s' !! p = Some c' -> exists c, ts_conns s !! p = Some c /\
    cn_status c' = cn_status c /\ bucket c' = bucket c) as Hh.
  { intros p c' Hp. destruct (fmap_agree _ _ _ _ _ Eh Hp) as (c & Hc' & E). exists c. unfold cview in E. split; [done|].
    split; congruence. }
  constructor; try done.
  - destruct T as [T1 T2 T3]. rewrite Et. constructor; [|done|].
    + intros b. by eapply core_chain.
    + intros b p c' Hp Hc'. destruct (Hh p c' Hc') as (c & Hpc & _ & ->). by apply (T3 b p).
  - intros l y Hy. destruct (fmap_agree _ _ _ _ _ El Hy) as (y' & Hy' & E). rewrite <- E.
    eapply core_chain; [symmetry; exact Eh|]. by apply Hc.
  - intros l Hy. apply Hno. by eapply fmap_agree_None.
  - intros b p c' Hp Hc'. destruct (Hh p c' Hc') as (c & Hpc & -> & _). by apply (Hr b p).
  - intros l p c' Hp Hc'. destruct (Hh p c' Hc') as (c & Hpc & -> & _). by apply (Hw l p).
  - intros p c' Hp. destruct (Hh p c' Hp) as (c & Hpc & -> & ->). by apply Hall.
Qed.

Lemma core_status s s' : core s' = core s -> forall p, status_at s' p = status_at s p.
Proof.
  unfold core, status_at. intros [= Eh _ _] p. destruct (ts_conns s' !! p) as [c|] eqn:Ec.
  - destruct (fmap_agree _ _ _ _ _ Eh Ec) as (c' & -> & E). unfold cview in E. simpl. congruence.
  - by rewrite (fmap_agree_None _ _ _ _ Eh Ec).
Qed.

Lemma core_moves p R s s' : core s' = core s -> moves p R s s'.
Proof. intros E q. left. by apply core_status. Qed.

Lemma moves_l p R s s1 s' : core s1 = core s -> moves p R s1 s' -> moves p R s s'.
Proof. intros E M q. pose proof (M q) as Hq. by rewrite (core_status _ _ E) in Hq. Qed.
Lemma moves_r p R s s1 s' : moves p R s s1 -> core s' = core s1 -> moves p R s s'.
Proof. intros M E q. rewrite (core_status _ _ E). apply M. Qed.
Lemma moves_mono p (R R' : status_rel) s s' : (forall a b, R a b -> R' a b) -> moves p R s s' -> moves p R' s s'.
Proof. intros Hr M q. destruct (M q) as [?|[? ?]]; [by left|right; auto]. Qed.
(** Two steps of the same connection. *)
Lemma moves_seq p (R1 R2 R : status_rel) s s1 s' : moves p R1 s s1 -> moves p R2 s1 s' ->
  (forall a b, R1 a b -> R a b) -> (forall a b, R2 a b -> status_at s p = a -> R a b) ->
  (forall a b d, R1 a b -> R2 b d -> R a d) -> moves p R s s'.
Proof.
  intros M1 M2 F1 F2 F3 q. destruct (M1 q) as [E1|[Eq1 Q1]], (M2 q) as [E2|[Eq2 Q2]].
  - left. congruence.
  - right. subst q. rewrite E1 in Q2. split; [done|]. by apply F2.
  - right. rewrite E2. split; [done|by apply F1].
  - right. split; [done|]. by eapply F3.
Qed.

(** ** Operations that keep the core *)
Lemma conn_at_Ok s p c : conn_at s p = Ok c -> ts_conns s !! p = Some c.
Proof. unfold conn_at, get_conn. destruct (_ !! _); [by intros [= ->]|done]. Qed.
Lemma listener_at_Ok s l y : listener_at s l = Ok y -> ts_listeners s !! l = Some y.
Proof. unfold listener_at. destruct (_ !! _); [by intros [= ->]|done]. Qed.

Lemma core_put s p c c' : ts_conns s !! p = Some c -> cview c' = cview c -> core (put_conn s p c') = core s.
Proof.
  intros Hc E. unfold core, put_conn, set_conns. simpl. rewrite fmap_insert, insert_id; [done|].
  by rewrite lookup_fmap, Hc, E.
Qed.
Lemma core_put_listener s l y y' : ts_listeners s !! l = Some y -> wait_conns y' = wait_conns y ->
  core (put_listener s l y') = core s.
Proof.
  intros Hy E. unfold core, put_listener. simpl. rewrite fmap_insert, insert_id; [done|].
  by rewrite lookup_fmap, Hy, E.
Qed.

Lemma conn_send_core s p fl ts e m s' : conn_send eth_addr cfg s p fl ts e m = Ok s' -> core s' = core s.
Proof. unfold conn_send. intros E. step_in E. step_in E. by ret_in E; subst. Qed.
Lemma reset_send_core s p o s' : reset_send eth_addr cfg s p o = Ok s' -> core s' = core s.
Proof. unfold reset_send. intros E. step_in E. by ret_in E; subst. Qed.
Lemma timeout_arm_core s p t s' : conn_timeout_arm now s p t = Ok s' -> core s' = core s.
Proof.
  unfold conn_timeout_arm. intros E. step_in E. step_in E. apply conn_at_Ok in E0.
  destruct (_ =? 0); [done|]. destruct (Rng.utils_rng_gen32 _). step_in E. ret_in E. subst s'.
  by apply (core_put s p a).
Qed.
Lemma timeout_disarm_core s p s' : conn_timeout_disarm s p = Ok s' -> core s' = core s.
Proof.
  unfold conn_timeout_disarm. intros E. step_in E. step_in E. step_in E. apply conn_at_Ok in E0. ret_in E. subst s'.
  by apply (core_put s p a).
Qed.
Lemma add_flow_core s p q r s' : add_flow s p q = Ok (r, s') -> core s' = core s.
Proof. unfold add_flow. intros E. step_in E. step_in E. by injection E as _ <-. Qed.
Lemma cc_init_core s p s' : cc_init cfg cur_ts s p = Ok s' -> core s' = core s.
Proof.
  unfold cc_init, cc_conn_init. intros E. step_in E. step_in E0. step_in E0. injection E0 as <- <-. ret_in E. subst s'.
  eapply (core_put s p a); [exact (conn_at_Ok s p a E1)|done].
Qed.
Lemma cc_remove_core s p s' : cc_remove s p = Ok s' -> core s' = core s.
Proof.
  unfold cc_remove, cc_conn_remove. intros E. step_in E. ret_in E. subst s'. step_in E0.
  destruct (bool_decide (cc_conns _ = _)); [by injection E0 as <- <-|].
  step_in E0. step_in E0. injection E0 as <- <-.
  eapply (core_put s); [by apply conn_at_Ok|done].
Qed.
Lemma post_kout_core s x e s' : post_kout s x e = Ok s' -> core s' = core s.
Proof. unfold post_kout. intros E. step_in E. step_in E. by ret_in E; subst. Qed.
Lemma conn_opened_core s p s' : appif_conn_opened cfg tas_shm s p 0 = Ok s' -> core s' = core s.
Proof.
  unfold appif_conn_opened. intros E. step_in E. step_in E. destruct (negb _); [by ret_in E; subst|].
  cbv iota zeta in E. rewrite Z.eqb_refl in E. step_in E. step_in E. by apply post_kout_core in E.
Qed.
Lemma conn_closed_core s p st s' : appif_conn_closed s p st = Ok s' -> core s' = core s.
Proof.
  unfold appif_conn_closed, app_conn_remove. intros E. step_in E. step_in E. step_in E.
  destruct (negb _); [by ret_in E; subst|]. step_in E. apply post_kout_core in E3. etransitivity; [|exact E3]. clear E3.
  step_in E. destruct (bool_decide _); [by ret_in E; subst|]. step_in E. step_in E. ret_in E. subst s'.
  by eapply core_put; [apply conn_at_Ok|].
Qed.
Lemma newconn_core s l ip port s' : appif_listen_newconn s l ip port = Ok s' -> core s' = core s.
Proof.
  unfold appif_listen_newconn. intros E. step_in E. step_in E. destruct (negb _); [by ret_in E; subst|].
  by apply post_kout_core in E.
Qed.
Lemma accept_conn_core s p s' : appif_accept_conn cfg tas_shm s p 0 = Ok s' -> core s' = core s.
Proof.
  unfold appif_accept_conn. intros E. step_in E. step_in E. step_in E. cbv zeta in E. rewrite Z.eqb_refl in E.
  step_in E. step_in E. step_in E. apply post_kout_core in E. rewrite E.
  apply conn_at_Ok in E0. by apply (core_put s p a).
Qed.

(** ** Changes of one connection *)
Lemma ht_chain_upd (h : conn_heap) p c' o l :
  (p ∈ l -> exists c, h !! p = Some c /\ ht_next c' = ht_next c) ->
  ht_chain h o l -> ht_chain (<[p := c']> h) o l.
Proof.
  intros Hp. apply ht_chain_agree. intros q Hq. destruct (decide (q = p)) as [->|Hne].
  - destruct (Hp Hq) as (c & -> & E). rewrite lookup_insert_eq. simpl. by rewrite E.
  - by rewrite lookup_insert_ne by done.
Qed.

Lemma lookup_put s p c' q d : ts_conns (put_conn s p c') !! q = Some d ->
  (q = p /\ d = c') \/ (q <> p /\ ts_conns s !! q = Some d).
Proof.
  simpl. destruct (decide (q = p)) as [->|Hne]; [rewrite lookup_insert_eq; intros [= <-]; by left|].
  rewrite lookup_insert_ne by done. by right.
Qed.

Lemma status_put s p c' q : status_at (put_conn s p c') q = if decide (q = p) then Some (cn_status c') else status_at s q.
Proof.
  unfold status_at. simpl. destruct (decide (q = p)) as [->|]; [by rewrite lookup_insert_eq|].
  by rewrite lookup_insert_ne by done.
Qed.

Lemma moves_put (R : status_rel) s p c c' : ts_conns s !! p = Some c ->
  cn_status c' = cn_status c \/ R (Some (cn_status c)) (Some (cn_status c')) ->
  moves p R s (put_conn s p c').
Proof.
  intros Hc Hr q. rewrite status_put. destruct (decide (q = p)) as [->|]; [|by left]. unfold status_at. rewrite Hc.
  simpl. destruct Hr as [->|Hr]; [by left|by right].
Qed.

(** A connection in the table, whose link and addresses stay. *)
Lemma inv_put_registered x s tbl waits p c c' b : tcp_inv x s tbl waits -> ts_conns s !! p = Some c -> p ∈ tbl b ->
  bucket c' = bucket c -> ht_next c' = ht_next c -> st_registered (cn_status c') ->
  tcp_inv x (put_conn s p c') tbl waits.
Proof.
  intros [[T1 T2 T3] Hc Hn Hno Ha Ho Hr Hw Hall Hm] Hp Hb Eb En Es. constructor; try done.
  - constructor; [|done|].
    + intros b'. apply ht_chain_upd; [by exists c|apply T1].
    + intros b' q d Hq [[-> ->]|[_ Hd]]%lookup_put; [rewrite Eb|]; by eapply T3.
  - intros l y Hy. apply ht_chain_upd; [by exists c|by apply Hc].
  - intros b' q d Hq [[-> ->]|[_ Hd]]%lookup_put; [done|by eapply Hr].
  - intros l q d Hq [[-> ->]|[_ Hd]]%lookup_put; [by destruct (Ha l p b)|by eapply Hw].
  - intros q d [[-> ->]|[_ Hd]]%lookup_put Hx Hf; [|by apply Hall].
    left. rewrite Eb. by rewrite (T3 b p c Hb Hp).
Qed.

(** A connection that waits, whose link stays. *)
Lemma inv_put_waiting x s tbl waits p c c' l : tcp_inv x s tbl waits -> ts_conns s !! p = Some c -> p ∈ waits l ->
  ht_next c' = ht_next c -> st_waiting (cn_status c') -> tcp_inv x (put_conn s p c') tbl waits.
Proof.
  intros [[T1 T2 T3] Hc Hn Hno Ha Ho Hr Hw Hall Hm] Hp Hl En Es. constructor; try done.
  - constructor; [|done|].
    + intros b'. apply ht_chain_upd; [by exists c|apply T1].
    + intros b' q d Hq [[-> ->]|[_ Hd]]%lookup_put; [by destruct (Ha l p b')|by eapply T3].
  - intros l' y Hy. apply ht_chain_upd; [by exists c|by apply Hc].
  - intros b' q d Hq [[-> ->]|[_ Hd]]%lookup_put; [by destruct (Ha l p b')|by eapply Hr].
  - intros l' q d Hq [[-> ->]|[_ Hd]]%lookup_put; [done|by eapply Hw].
  - intros q d [[-> ->]|[_ Hd]]%lookup_put Hx Hf; [|by apply Hall]. right. by exists l.
Qed.

(** A connection in no list, old or new. *)
Lemma inv_put_moving x s tbl waits p c' : tcp_inv x s tbl waits -> x = None \/ x = Some p ->
  (forall b, p ∉ tbl b) -> (forall l, p ∉ waits l) -> tcp_inv (Some p) (put_conn s p c') tbl waits.
Proof.
  intros [[T1 T2 T3] Hc Hn Hno Ha Ho Hr Hw Hall Hm] Hx Ht Hl. constructor; try done.
  - constructor; [|done|].
    + intros b'. apply ht_chain_upd; [by intros ?%Ht|apply T1].
    + intros b' q d Hq [[-> ->]|[_ Hd]]%lookup_put; [by apply Ht in Hq|by eapply T3].
  - intros l y Hy. apply ht_chain_upd; [by intros ?%Hl|by apply Hc].
  - intros b' q d Hq [[-> ->]|[_ Hd]]%lookup_put; [by apply Ht in Hq|by eapply Hr].
  - intros l q d Hq [[-> ->]|[_ Hd]]%lookup_put; [by apply Hl in Hq|by eapply Hw].
  - intros q d [[-> ->]|[Hne Hd]]%lookup_put Hq Hf; [done|]. apply Hall; try done. destruct Hx as [-> | ->]; congruence.
  - intros q [= <-]. done.
Qed.

(** A new address is in no list. *)
Lemma fresh_out x s tbl waits p : tcp_inv x s tbl waits -> ts_conns s !! p = None ->
  (forall b, p ∉ tbl b) /\ (forall l, p ∉ waits l).
Proof.
  intros [[T1 T2 T3] Hc Hn Hno Ha Ho Hr Hw Hall Hm] Hp. split.
  - intros b Hb. destruct (ht_chain_lookup _ _ _ (T1 b) p Hb) as [c Ec]. congruence.
  - intros l Hl. destruct (ts_listeners s !! l) as [y|] eqn:Ey; [|by rewrite (Hno l Ey) in Hl; apply elem_of_nil in Hl].
    destruct (ht_chain_lookup _ _ _ (Hc l y Ey) p Hl) as [c Ec]. congruence.
Qed.

(** ** Into the table and out of it *)
Lemma status_link (h : conn_heap) p c v q : h !! p = Some c ->
  cn_status <$> (<[p := set_ht_next c v]> h) !! q = cn_status <$> h !! q.
Proof.
  intros Hc. destruct (decide (q = p)) as [->|]; [rewrite lookup_insert_eq, Hc; done|].
  by rewrite lookup_insert_ne by done.
Qed.

(** A heap that differs in the links of connections in the table only. *)
Lemma lookup_link (h : conn_heap) p c v q d : h !! p = Some c -> <[p := set_ht_next c v]> h !! q = Some d ->
  exists d0, h !! q = Some d0 /\ cn_status d = cn_status d0 /\ bucket d = bucket d0.
Proof.
  intros Hc. destruct (decide (q = p)) as [->|].
  - rewrite lookup_insert_eq. intros [= <-]. by exists c.
  - rewrite lookup_insert_ne by done. by exists d.
Qed.

Lemma inv_register s tbl waits p c s' : tcp_inv (Some p) s tbl waits -> ts_conns s !! p = Some c ->
  st_registered (cn_status c) -> register crc4 crc8 s p = Ok s' ->
  tcp_inv None s' (upd_tbl tbl (bucket c) (p :: tbl (bucket c))) waits /\ (forall q, status_at s' q = status_at s q).
Proof.
  intros [T Hc Hn Hno Ha Ho Hr Hw Hall Hm] Hp Es E. destruct (Hm p eq_refl) as [Ht Hl].
  unfold register in E. destruct (conn_register_ok crc4 crc8 _ _ _ p c T Hp (Ht _)) as (h' & ht' & Er & Eh & T').
  rewrite Er in E. cbn [mbind outcome_bind mret outcome_ret] in E. injection E as <-. subst h'. split; [|intros q; by apply status_link].
  assert (forall b q, q ∈ upd_tbl tbl (bucket c) (p :: tbl (bucket c)) b -> q = p \/ q ∈ tbl b) as Hin.
  { intros b q. unfold upd_tbl. destruct (Z.eqb_spec b (bucket c)) as [->|]; [|by right]. by rewrite elem_of_cons. }
  constructor; try done; simpl.
  - intros l y Hy. apply ht_chain_put; [apply Hl|by apply Hc].
  - intros l q b Hq [->|Hb]%Hin; [by apply Hl in Hq|by apply (Ha l q b)].
  - intros b q d Hq (d0 & Hd & -> & _)%(lookup_link _ _ _ _ _ _ Hp). apply Hin in Hq as [->|Hq]; [congruence|by eapply Hr].
  - intros l q d Hq (d0 & Hd & -> & _)%(lookup_link _ _ _ _ _ _ Hp). by eapply Hw.
  - intros q d (d0 & Hd & -> & ->)%(lookup_link _ _ _ _ _ _ Hp) _ Hf. destruct (decide (q = p)) as [->|Hne].
    + left. rewrite Hp in Hd. injection Hd as <-. unfold upd_tbl. rewrite Z.eqb_refl. by left.
    + destruct (Hall q d0 Hd) as [Hq|Hq]; [congruence|done| |by right]. left. unfold upd_tbl.
      destruct (Z.eqb_spec (bucket d0) (bucket c)) as [Eb|]; [|done]. right. by rewrite <- Eb.
Qed.

Lemma inv_unregister s tbl waits p c s' : tcp_inv None s tbl waits -> ts_conns s !! p = Some c ->
  p ∈ tbl (bucket c) -> unregister crc4 crc8 s p = Ok s' ->
  tcp_inv (Some p) s' (without tbl p) waits /\ (forall q, status_at s' q = status_at s q) /\ ts_conns s' !! p = Some c.
Proof.
  intros [T Hc Hn Hno Ha Ho Hr Hw Hall Hm] Hp Hb E.
  destruct (conn_unregister_ok crc4 crc8 _ _ _ p c T Hp Hb) as (h' & ht' & Er & Hl & T').
  unfold unregister in E. rewrite Er in E. cbn [mbind outcome_bind mret outcome_ret] in E. injection E as <-.
  assert (forall b q, q ∈ without tbl p b <-> q <> p /\ q ∈ tbl b) as Hin by (intros b q; unfold without; by rewrite list_elem_of_filter).
  assert (forall q d, h' !! q = Some d -> exists d0, ts_conns s !! q = Some d0 /\ cn_status d = cn_status d0 /\
    bucket d = bucket d0) as Hh.
  { destruct Hl as [->|(q' & d' & v & _ & _ & Hq' & ->)]; [by eauto|]. intros q d. by apply lookup_link. }
  split; [|split].
  - constructor; try done; simpl.
    + intros l y Hy. destruct Hl as [->|(q & d & v & Hqp & Hqb & Hq & ->)]; [by apply Hc|].
      apply ht_chain_upd; [|by apply Hc]. intros Hql. by apply (Ha l q (bucket c)) in Hql.
    + intros l q b Hq [_ Hb']%Hin. by apply (Ha l q b).
    + intros b q d Hq (d0 & Hd & -> & _)%Hh. apply Hin in Hq as [_ Hq]. by eapply Hr.
    + intros l q d Hq (d0 & Hd & -> & _)%Hh. by eapply Hw.
    + intros q d (d0 & Hd & -> & ->)%Hh Hx Hf. destruct (Hall q d0 Hd) as [Hq|Hq]; [done|done| |by right].
      left. apply Hin. split; [congruence|done].
    + intros q [= <-]. split; [intros b [? _]%Hin; done|]. intros l Hq. by apply (Ha l p (bucket c)) in Hq.
  - intros q. unfold status_at. simpl. destruct Hl as [->|(q' & d' & v & _ & _ & Hq' & ->)]; [done|].
    by apply status_link.
  - simpl. destruct Hl as [->|(q' & d' & v & Hne & _ & Hq' & ->)]; [done|]. by rewrite lookup_insert_ne by done.
Qed.

(** A connection on its way that failed has arrived; one that is freed is gone. *)
Lemma inv_settle s tbl waits p c : tcp_inv (Some p) s tbl waits -> ts_conns s !! p = Some c ->
  cn_status c = CONN_FAILED -> tcp_inv None s tbl waits.
Proof.
  intros [T Hc Hn Hno Ha Ho Hr Hw Hall Hm] Hp Hs. constructor; try done.
  intros q d Hd _ Hf. apply Hall; try done. congruence.
Qed.

Lemma inv_delete s tbl waits p : tcp_inv (Some p) s tbl waits ->
  tcp_inv None (set_conns s (delete p (ts_conns s))) tbl waits.
Proof.
  intros [[T1 T2 T3] Hc Hn Hno Ha Ho Hr Hw Hall Hm]. destruct (Hm p eq_refl) as [Ht Hl].
  assert (forall o l, p ∉ l -> ht_chain (ts_conns s) o l -> ht_chain (delete p (ts_conns s)) o l) as Hch.
  { intros o l Hp. apply ht_chain_agree. intros q Hq. by rewrite lookup_delete_ne by (by intros ->). }
  assert (forall q d, delete p (ts_conns s) !! q = Some d -> q <> p /\ ts_conns s !! q = Some d) as Hd.
  { intros q d Hq. apply lookup_delete_Some in Hq as [? ?]. done. }
  constructor; try done; simpl.
  - constructor; [intros b; by apply Hch|done|]. intros b q d Hq [_ Hqd]%Hd. by eapply T3.
  - intros l y Hy. apply Hch; [done|by apply Hc].
  - intros b q d Hq [_ Hqd]%Hd. by eapply Hr.
  - intros l q d Hq [_ Hqd]%Hd. by eapply Hw.
  - intros q d [Hne Hqd]%Hd _ Hf. apply Hall; try done. congruence.
Qed.

Lemma status_delete s p q : status_at (set_conns s (delete p (ts_conns s))) q =
  if decide (q = p) then None else status_at s q.
Proof.
  unfold status_at. simpl. destruct (decide (q = p)) as [->|]; [by rewrite lookup_delete_eq|].
  by rewrite lookup_delete_ne by done.
Qed.

(** ** Listeners *)
Lemma lookup_put_listener s l y l' y' : ts_listeners (put_listener s l y) !! l' = Some y' ->
  (l' = l /\ y' = y) \/ (l' <> l /\ ts_listeners s !! l' = Some y').
Proof.
  simpl. destruct (decide (l' = l)) as [->|Hne]; [rewrite lookup_insert_eq; intros [= <-]; by left|].
  rewrite lookup_insert_ne by done. by right.
Qed.

(** Another head of a list of waiting connections. *)
Lemma inv_put_listener x x' s tbl waits l y w : tcp_inv x s tbl waits ->
  ht_chain (ts_conns s) (wait_conns y) w -> NoDup w ->
  (forall q, q ∈ w -> (forall b, q ∉ tbl b) /\ (forall l', l' <> l -> q ∉ waits l') /\
     forall d, ts_conns s !! q = Some d -> st_waiting (cn_status d)) ->
  (forall q d, ts_conns s !! q = Some d -> Some q <> x' -> cn_status d <> CONN_FAILED ->
     Some q <> x \/ q ∈ w) ->
  (forall q, q ∈ waits l -> q ∈ w \/ x' = Some q) ->
  (forall p, x' = Some p -> (forall b, p ∉ tbl b) /\ (forall l', l' <> l -> p ∉ waits l') /\ p ∉ w) ->
  tcp_inv x' (put_listener s l y) tbl (upd_tbl waits l w).
Proof.
  intros [T Hc Hn Hno Ha Ho Hr Hw Hall Hm] Hch Hnw Hq Hmov Hold Hx'.
  assert (forall l' q, q ∈ upd_tbl waits l w l' -> (l' = l /\ q ∈ w) \/ (l' <> l /\ q ∈ waits l')) as Hin.
  { intros l' q. unfold upd_tbl. destruct (Z.eqb_spec l' l); [by left|by right]. }
  assert (forall q l', q ∈ waits l' -> l' <> l -> q ∈ upd_tbl waits l w l') as Hkeep.
  { intros q l' Hql Hne. unfold upd_tbl. by rewrite (proj2 (Z.eqb_neq _ _)). }
  assert (forall q, q ∈ w -> q ∈ upd_tbl waits l w l) as Hnew by (intros q; unfold upd_tbl; by rewrite Z.eqb_refl).
  constructor; try done.
  - intros l' y' [[-> ->]|[Hne Hy']]%lookup_put_listener; unfold upd_tbl.
    + by rewrite Z.eqb_refl.
    + rewrite (proj2 (Z.eqb_neq _ _)) by done. by apply Hc.
  - intros l'. unfold upd_tbl. destruct (l' =? l); [done|apply Hn].
  - intros l' Hl'. simpl in Hl'. destruct (decide (l' = l)) as [->|Hne]; [by rewrite lookup_insert_eq in Hl'|].
    rewrite lookup_insert_ne in Hl' by done. unfold upd_tbl. rewrite (proj2 (Z.eqb_neq _ _)) by done. by apply Hno.
  - intros l' q b [[-> Hqw]|[Hne Hql]]%Hin Hb; [by apply (proj1 (Hq q Hqw)) in Hb|by apply (Ha l' q b)].
  - intros l1 l2 q [[-> Hqw]|[Hne Hql]]%Hin [[-> Hqw2]|[Hne2 Hql2]]%Hin; [done| | |by eapply Ho].
    + by destruct (proj1 (proj2 (Hq q Hqw)) l2 Hne2).
    + by destruct (proj1 (proj2 (Hq q Hqw2)) l1 Hne).
  - intros l' q d [[-> Hqw]|[Hne Hql]]%Hin Hd; [by apply (Hq q Hqw)|by eapply Hw].
  - intros q d Hd Hx Hf. destruct (Hmov q d Hd Hx Hf) as [Hqx|Hqw]; [|right; exists l; by apply Hnew].
    destruct (Hall q d Hd Hqx Hf) as [Hqt|[l' Hql]]; [by left|right]. destruct (decide (l' = l)) as [->|Hne].
    + destruct (Hold q Hql) as [Hqw|Hqx']; [exists l; by apply Hnew|by rewrite Hqx' in Hx].
    + exists l'. by apply Hkeep.
  - intros p Hp. destruct (Hx' p Hp) as (Hpt & Hpl & Hpw). split; [done|].
    intros l' [[-> ?]|[Hne Hpl']]%Hin; [done|by apply (Hpl l')].
Qed.

(** A connection is put in front of those that wait at [l]. *)
Lemma inv_wait_push s tbl waits l y p c : tcp_inv (Some p) s tbl waits -> ts_listeners s !! l = Some y ->
  ts_conns s !! p = Some c -> ht_next c = wait_conns y -> st_waiting (cn_status c) ->
  tcp_inv None (put_listener s l (set_wait_conns y (Some p))) tbl (upd_tbl waits l (p :: waits l)).
Proof.
  intros I Hy Hp En Es. pose proof I as [T Hc Hn Hno Ha Ho Hr Hw Hall Hm]. destruct (Hm p eq_refl) as [Ht Hl].
  apply (inv_put_listener (Some p)); try done.
  - split; [done|]. exists c. split; [done|]. rewrite En. by apply Hc.
  - apply NoDup_cons. by split.
  - intros q [->|Hq]%elem_of_cons; [split_and!; [done|by intros l' _; apply Hl|congruence]|].
    split_and!; [intros b; by apply (Ha l q b)|intros l' Hne Hq'; by apply Hne, (Ho l' l q)|by intros d; apply (Hw l)].
  - intros q d Hd _ _. destruct (decide (q = p)) as [->|]; [right; by left|left; congruence].
  - intros q Hq. left. by right.
Qed.

(** The first connection that waits at [l] is taken out. *)
Lemma inv_wait_pop s tbl waits l y p c y' : tcp_inv None s tbl waits -> ts_listeners s !! l = Some y ->
  wait_conns y = Some p -> ts_conns s !! p = Some c ->
  exists w, waits l = p :: w /\
    tcp_inv (Some p) (put_listener s l (set_wait_conns y' (ht_next c))) tbl (upd_tbl waits l w).
Proof.
  intros I Hy Hwy Hp. pose proof I as [T Hc Hn Hno Ha Ho Hr Hw Hall Hm].
  pose proof (Hc l y Hy) as Hch. rewrite Hwy in Hch. pose proof (Hn l) as Hnl.
  destruct (waits l) as [|q w] eqn:Ew; [done|]. destruct Hch as ([= <-] & c' & Hc' & Hch).
  rewrite Hp in Hc'. injection Hc' as <-. apply NoDup_cons in Hnl as [Hpw Hnw]. exists w. split; [done|].
  apply (inv_put_listener None); try done.
  - intros q Hq. assert (q ∈ waits l) as Hql by (rewrite Ew; by right).
    split_and!; [intros b; by apply (Ha l q b)|intros l' Hne Hq'; by apply Hne, (Ho l' l q)|by intros d; apply (Hw l)].
  - intros q d Hd _ _. by left.
  - intros q Hq. rewrite Ew in Hq. apply elem_of_cons in Hq as [->|Hq]; [by right|by left].
  - intros q [= <-]. assert (p ∈ waits l) as Hpl by (rewrite Ew; by left).
    split_and!; [intros b; by apply (Ha l p b)|intros l' Hne Hq'; by apply Hne, (Ho l' l p)|done].
Qed.

(** A new listener. *)
Lemma inv_new_listener s tbl waits l y : tcp_inv None s tbl waits -> ts_listeners s !! l = None ->
  wait_conns y = None -> tcp_inv None (put_listener s l y) tbl (upd_tbl waits l []).
Proof.
  intros I Hl Hy. pose proof I as [T Hc Hn Hno Ha Ho Hr Hw Hall Hm].
  apply (inv_put_listener None); try done.
  - by constructor.
  - intros q Hq. by apply elem_of_nil in Hq.
  - intros q d Hd _ _. by left.
  - intros q Hq. rewrite (Hno l Hl) in Hq. by apply elem_of_nil in Hq.
Qed.

(** ** The operations keep the invariant *)

(** What every operation gives. *)
Definition keeps_inv s : Prop := exists tbl waits, tcp_inv None s tbl waits.
Definition step_ok (p : Z) (R : status_rel) s s' : Prop := keeps_inv s' /\ moves p R s s'.

Lemma step_core p R s s' tbl waits : tcp_inv None s tbl waits -> core s' = core s -> step_ok p R s s'.
Proof. intros I E. split; [exists tbl, waits; by eapply core_inv|by apply core_moves]. Qed.

Lemma step_from p R s s1 s' : core s1 = core s -> step_ok p R s1 s' -> step_ok p R s s'.
Proof. intros E [I M]. split; [done|]. by eapply moves_l. Qed.

Lemma core_lookup s s' p c : core s' = core s -> ts_conns s !! p = Some c ->
  exists c', ts_conns s' !! p = Some c' /\ cn_status c' = cn_status c /\ bucket c' = bucket c /\ ht_next c' = ht_next c.
Proof.
  unfold core. intros [= Eh _ _] Hc. destruct (fmap_agree _ _ _ _ _ (eq_sym Eh) Hc) as (c' & Hc' & E).
  exists c'. unfold cview in E. split_and!; congruence.
Qed.

(** Connections of these statuses are in the table. *)
Lemma in_table x s tbl waits p c : tcp_inv x s tbl waits -> ts_conns s !! p = Some c -> Some p <> x ->
  In (cn_status c) [CONN_ARP_PENDING; CONN_SYN_SENT; CONN_OPEN; CONN_CLOSED] -> p ∈ tbl (bucket c).
Proof.
  intros I Hp Hx Hs. destruct (ti_all _ _ _ _ I p c Hp Hx) as [?|[l Hl]]; [|done|].
  - intros E. rewrite E in Hs. simpl in Hs. intuition discriminate.
  - pose proof (ti_wait _ _ _ _ I l p c Hl Hp) as [E|E];
      rewrite E in Hs; simpl in Hs; intuition discriminate.
Qed.

Lemma conn_free_ok s p s' tbl waits : tcp_inv (Some p) s tbl waits -> conn_free s p = Ok s' ->
  tcp_inv None s' tbl waits /\ forall q, status_at s' q = if decide (q = p) then None else status_at s q.
Proof.
  unfold conn_free. intros I E. step_in E. step_in E. step_in E. ret_in E. subst s'. split.
  - apply (inv_delete (set_pm s a1)). by apply (core_inv _ s).
  - intros q. by apply (status_delete (set_pm s a1)).
Qed.

(** A connection that is in no list and has failed is reported. *)
Lemma report_failed s p c st s' tbl waits : tcp_inv (Some p) s tbl waits -> ts_conns s !! p = Some c ->
  cn_status c = CONN_FAILED -> st <> 0 -> appif_conn_opened cfg tas_shm s p st = Ok s' ->
  step_ok p (fun a b => a = Some CONN_FAILED /\ b = None) s s'.
Proof.
  unfold appif_conn_opened. intros I Hp Hs Hst E. step_in E. step_in E. destruct (negb _).
  - ret_in E. subst s'. apply (step_core _ _ _ _ tbl waits); [by eapply inv_settle|done].
  - cbv zeta in E. rewrite (proj2 (Z.eqb_neq st 0)) in E by done. step_in E. apply post_kout_core in E.
    unfold tcp_destroy in E2. step_in E2. step_in E2.
    destruct (conn_free_ok _ _ _ tbl waits (core_inv _ s (set_app s a0) _ _ eq_refl I) E2) as [I' Hst'].
    split; [exists tbl, waits; by eapply core_inv|]. eapply moves_r; [|exact E].
    intros q. rewrite Hst'. destruct (decide (q = p)) as [->|]; [|by left].
    right. unfold status_at. rewrite Hp. simpl. by rewrite Hs.
Qed.

Lemma conn_failed_ok (R : status_rel) s p c st s' tbl waits : tcp_inv None s tbl waits -> ts_conns s !! p = Some c ->
  p ∈ tbl (bucket c) -> (forall b, ends b -> R (Some (cn_status c)) b) ->
  st <> 0 -> conn_failed crc4 crc8 cfg tas_shm s p st = Ok s' -> step_ok p R s s'.
Proof.
  unfold conn_failed. intros I Hp Hb Hs Hst E. step_in E.
  destruct (inv_unregister _ _ _ _ _ _ I Hp Hb E0) as (I1 & Hst1 & Hp1). step_in E. apply conn_at_Ok in E1.
  rewrite Hp1 in E1. injection E1 as <-. step_in E.
  assert (core a0 = core a) as Ec by (destruct (cn_to_armed c); [by eapply timeout_disarm_core|by injection E1 as <-]).
  step_in E. apply conn_at_Ok in E2. destruct (core_lookup _ _ _ _ Ec Hp1) as (c' & Hp2 & Es2 & _).
  rewrite Hp2 in E2. injection E2 as <-. pose proof (core_inv _ _ _ _ _ Ec I1) as I2.
  destruct (ti_moving _ _ _ _ I2 p eq_refl) as [Ht Hl].
  pose proof (inv_put_moving _ _ _ _ p (with_status c' CONN_FAILED) I2 (or_intror eq_refl) Ht Hl) as I3.
  destruct (report_failed _ p (with_status c' CONN_FAILED) st s' _ _ I3) as [I4 M4]; try done.
  { by apply lookup_insert_eq. }
  split; [done|].
  apply (moves_seq p (fun a b => a = Some (cn_status c) /\ b = Some CONN_FAILED)
    (fun a b => a = Some CONN_FAILED /\ b = None) R s _ s' ) with (2 := M4).
  - intros q. rewrite status_put. destruct (decide (q = p)) as [->|Hne].
    + right. unfold status_at. by rewrite Hp.
    + left. by rewrite (core_status _ _ Ec), Hst1.
  - intros a1 b [-> ->]. apply Hs. by right.
  - intros a1 b [-> ->]. unfold status_at. rewrite Hp. intros Ea. rewrite <- Ea. apply Hs. by left.
  - intros a1 b d [-> ->] [_ ->]. apply Hs. by left.
Qed.

(** A connection in the table gets another status. *)
Lemma status_step_ok (R : status_rel) s p c c' tbl waits : tcp_inv None s tbl waits -> ts_conns s !! p = Some c -> p ∈ tbl (bucket c) ->
  bucket c' = bucket c -> ht_next c' = ht_next c -> st_registered (cn_status c') ->
  R (Some (cn_status c)) (Some (cn_status c')) ->
  tcp_inv None (put_conn s p c') tbl waits /\ moves p R s (put_conn s p c').
Proof.
  intros I Hp Hb Eb En Hr Hm. split; [by eapply inv_put_registered|]. eapply moves_put; [done|by right].
Qed.

Lemma conn_arp_done_ok (R : status_rel) s p c r s' tbl waits : tcp_inv None s tbl waits -> ts_conns s !! p = Some c ->
  cn_status c = CONN_ARP_PENDING -> R (Some CONN_ARP_PENDING) (Some CONN_SYN_SENT) ->
  conn_arp_done eth_addr cfg now s p = Ok (r, s') -> r = 0 /\ tcp_inv None s' tbl waits /\ moves p R s s'.
Proof.
  unfold conn_arp_done. intros I Hp Hs HR E. step_in E. apply conn_at_Ok in E0. rewrite Hp in E0. injection E0 as <-.
  step_in E. apply timeout_arm_core in E0. step_in E. apply conn_send_core in E1. injection E as <- <-.
  match type of E0 with _ = core (put_conn s p ?x) =>
    destruct (status_step_ok R s p c x tbl waits) as [I' M'] end; try done.
  - eapply (in_table None s); try done. rewrite Hs. simpl. tauto.
  - right. by left.
  - by rewrite Hs.
  - assert (core a0 = core a) as Ec by done. split; [done|]. split; [eapply core_inv; [|exact I']; congruence|].
    eapply moves_r; [exact M'|]. congruence.
Qed.

Lemma conn_reg_synack_ok (R : status_rel) s p c r s' tbl waits : tcp_inv None s tbl waits -> ts_conns s !! p = Some c ->
  cn_status c = CONN_REG_SYNACK -> p ∈ tbl (bucket c) -> R (Some CONN_REG_SYNACK) (Some CONN_OPEN) ->
  conn_reg_synack eth_addr cfg tas_shm s p = Ok (r, s') -> r = 0 /\ tcp_inv None s' tbl waits /\ moves p R s s'.
Proof.
  unfold conn_reg_synack. intros I Hp Hs Hb HR E. step_in E. apply conn_at_Ok in E0. rewrite Hp in E0. injection E0 as <-.
  step_in E. apply conn_send_core in E0. step_in E. apply accept_conn_core in E1. injection E as <- <-.
  destruct (status_step_ok R s p c (with_status c CONN_OPEN) tbl waits) as [I' M']; try done.
  - by right; right; right; left.
  - by rewrite Hs.
  - split; [done|]. split; [eapply core_inv; [|exact I']; congruence|].
    eapply moves_r; [exact M'|]. congruence.
Qed.

(** The answer to a SYN: the connection opens, or stays as it was for the caller. *)
Lemma conn_syn_sent_ok (R : status_rel) s p c pk o r s' tbl waits : tcp_inv None s tbl waits -> ts_conns s !! p = Some c ->
  cn_status c = CONN_SYN_SENT -> R (Some CONN_SYN_SENT) (Some CONN_OPEN) ->
  conn_syn_sent_packet eth_addr cfg tas_shm cur_ts s p pk o = Ok (r, s') ->
  tcp_inv None s' tbl waits /\ moves p R s s' /\ (r = 0 \/ r = -1 /\ core s' = core s).
Proof.
  unfold conn_syn_sent_packet. intros I Hp Hs HR E. step_in E. apply timeout_disarm_core in E0.
  assert (forall s2, core s2 = core s -> tcp_inv None s2 tbl waits /\ moves p R s s2 /\ (-1 = 0 \/ -1 = -1 /\ core s2 = core s)) as Hfail.
  { intros s2 Ec. split; [by eapply core_inv|]. split; [by apply core_moves|by right]. }
  destruct (negb _); [injection E as <- <-; by apply Hfail|]. destruct (opt_ts o) as [off|];
    [|injection E as <- <-; by apply Hfail].
  step_in E. step_in E. apply conn_at_Ok in E2. cbv zeta in E. step_in E. apply cc_init_core in E3.
  assert (core a2 = core s) as Ec2.
  { rewrite E3, <- E0. eapply core_put; [exact E2|]. by destruct (_ =? _). }
  step_in E. apply conn_at_Ok in E4. step_in E. apply add_flow_core in E5. destruct o0 as [f|].
  2: { injection E as <- <-. apply Hfail. rewrite E5. exact Ec2. }
  step_in E. apply conn_at_Ok in E6. step_in E. apply conn_send_core in E7. step_in E. apply conn_opened_core in E8.
  injection E as <- <-. assert (core t = core s) as Ec by (rewrite E5; exact Ec2).
  destruct (core_lookup _ _ _ _ Ec Hp) as (c' & Hp' & Es' & Eb' & _). rewrite Hp' in E6. injection E6 as <-.
  destruct (status_step_ok R t p c' (with_status (with_flow_id c' f) CONN_OPEN) tbl waits) as [I' M']; try done.
  - by eapply core_inv.
  - rewrite Eb'. eapply (in_table None s); try done. rewrite Hs. simpl. tauto.
  - by right; right; right; left.
  - by rewrite Es', Hs.
  - split; [eapply core_inv; [|exact I']; congruence|]. split; [|by left].
    eapply moves_l; [exact Ec|]. eapply moves_r; [exact M'|]. congruence.
Qed.

Lemma conn_packet_ok pkt len k g s p c pk o core_ fg s' tbl waits : tcp_inv None s tbl waits -> ts_conns s !! p = Some c ->
  conn_packet crc4 crc8 eth_addr cfg tas_shm cur_ts s p pk o core_ fg = Ok s' ->
  step_ok p (event_edge (EvPacket pkt len k g) p) s s'.
Proof.
  unfold conn_packet. intros I Hp E. step_in E. apply conn_at_Ok in E0. rewrite Hp in E0. injection E0 as <-.
  cbv zeta in E. case_bool_decide as Es.
  - step_in E.
    match type of E0 with conn_syn_sent_packet _ _ _ _ (put_conn s p ?x) _ _ _ = _ => set (c1 := x) in * end.
    assert (core (put_conn s p c1) = core s) as Ec by (by eapply core_put).
    apply (step_from p _ s _ _ Ec).
    assert (ts_conns (put_conn s p c1) !! p = Some c1) as Hp1 by by apply lookup_insert_eq.
    destruct (conn_syn_sent_ok (event_edge (EvPacket pkt len k g) p) _ p c1 _ _ _ _ tbl waits (core_inv _ _ _ _ _ Ec I) Hp1 Es
      (edge_syn_ack _ _ _ _ _) E0)
      as (I' & M' & [->|[-> Ec']]).
    + injection E as <-. split; [by do 2 eexists|done].
    + change (negb (-1 =? 0)) with true in E. cbv iota in E.
      assert (core t = core s) as Ec2 by congruence.
      destruct (core_lookup _ _ _ _ Ec2 Hp) as (c' & Hp' & Es' & Eb' & _).
      destruct (conn_failed_ok (event_edge (EvPacket pkt len k g) p) t p c' (-1) s' tbl waits) as [I2 M2]; try done.
      * rewrite Eb'. eapply (in_table None s); try done. rewrite Es. simpl. tauto.
      * rewrite Es', Es. by constructor.
      * split; [done|]. by eapply moves_l.
  - destruct (bool_decide (cn_status c = CONN_OPEN) && _) eqn:Eo.
    + apply andb_prop in Eo as [Eo%bool_decide_eq_true _]. destruct (opt_ts o) as [off|].
      * step_in E. apply conn_send_core in E. by eapply step_core.
      * eapply (conn_failed_ok _ s p c (-1)); try done; [|rewrite Eo; by constructor].
        eapply (in_table None s); try done. rewrite Eo. simpl. tauto.
    + clear Eo. destruct (_ && _); [injection E as <-; by eapply step_core|].
      destruct (_ && _); [apply conn_send_core in E; by eapply step_core|]. injection E as <-. by eapply step_core.
Qed.

(** A connection of the queue; one whose flow was just registered is in the table. *)
Lemma tcp_poll_one_ok s p c s' tbl waits : tcp_inv None s tbl waits -> ts_conns s !! p = Some c ->
  (cn_status c = CONN_REG_SYNACK -> p ∈ tbl (bucket c)) ->
  tcp_poll_one crc4 crc8 eth_addr cfg tas_shm now s p = Ok s' -> step_ok p (event_edge (EvPolled p) p) s s'.
Proof.
  unfold tcp_poll_one. intros I Hp Hq E. step_in E. apply conn_at_Ok in E0. rewrite Hp in E0. injection E0 as <-.
  cbv zeta in E. case_bool_decide as Es.
  - destruct (negb _) eqn:En.
    + apply negb_true_iff, Z.eqb_neq in En. eapply (conn_failed_ok _ s p c); try done; [|rewrite Es; by constructor].
      eapply (in_table None s); try done. rewrite Es. simpl. tauto.
    + step_in E. destruct (conn_arp_done_ok _ _ _ _ _ _ _ _ I Hp Es (edge_resolved p) E0) as (-> & I' & M').
      injection E as <-. split; [by do 2 eexists|done].
  - case_bool_decide as Es2; [|injection E as <-; by eapply step_core]. destruct (negb _) eqn:En.
    + apply negb_true_iff, Z.eqb_neq in En. eapply (conn_failed_ok _ s p c); try done; [by apply Hq|rewrite Es2; by constructor].
    + step_in E. destruct (conn_reg_synack_ok _ _ _ _ _ _ _ _ I Hp Es2 (Hq Es2) (edge_registered p) E0) as (-> & I' & M').
      injection E as <-. split; [by do 2 eexists|done].
Qed.

Lemma tcp_close_ok s p r s' tbl waits : tcp_inv None s tbl waits ->
  tcp_close eth_addr cfg now s p = Ok (r, s') -> step_ok p (event_edge (EvClose p) p) s s'.
Proof.
  unfold tcp_close. intros I E. step_in E. apply conn_at_Ok in E0. case_bool_decide as Es; cbn [negb] in E.
  2: { injection E as _ <-. by eapply step_core. }
  step_in E. cbv zeta in E. step_in E.
  match type of E2 with context [put_conn ?s0 p ?x] => assert (core (put_conn s0 p x) = core s) as Ec
    by (by eapply (core_put (set_nic s _) p a)) end.
  match type of E2 with (if ?x then _ else _) = _ => assert (core a0 = core s) as Ec0 end.
  { destruct (_ || _); [apply conn_send_core in E2; congruence|injection E2 as <-; exact Ec]. }
  step_in E. apply cc_remove_core in E3. step_in E. apply conn_at_Ok in E4.
  assert (core a1 = core s) as Ec1 by congruence.
  destruct (core_lookup _ _ _ _ Ec1 E0) as (c' & Hp' & Es' & Eb' & _). rewrite Hp' in E4. injection E4 as <-.
  step_in E. step_in E. injection E as _ <-.
  destruct (status_step_ok (event_edge (EvClose p) p) a1 p c' (with_armed (with_status c' CONN_CLOSED) true) tbl waits) as [I' M']; try done.
  - by eapply core_inv.
  - rewrite Eb'. eapply (in_table None s); try done. rewrite Es. simpl. tauto.
  - by right; right; right; right.
  - rewrite Es', Es. constructor.
  - match goal with |- step_ok _ _ _ ?s2 => assert (core s2 = core (put_conn a1 p (with_armed (with_status c' CONN_CLOSED) true))) as Ef end.
    { unfold core, put_conn, set_timers, set_conns. simpl. by rewrite insert_insert_eq. }
    split; [exists tbl, waits; by eapply core_inv|].
    eapply moves_l; [exact Ec1|]. eapply moves_r; [exact M'|done].
Qed.

Lemma port_release_core s q : core (port_release s q) = core s.
Proof. unfold port_release. by destruct (port_at _ _). Qed.

Lemma conn_close_timeout_ok s p c s' tbl waits : tcp_inv None s tbl waits -> ts_conns s !! p = Some c ->
  cn_status c = CONN_CLOSED -> conn_close_timeout crc4 crc8 s p = Ok s' ->
  step_ok p (event_edge (EvTimeout p TO_TCP_CLOSED) p) s s'.
Proof.
  unfold conn_close_timeout. intros I Hp Hs E. step_in E. apply conn_at_Ok in E0. rewrite Hp in E0. injection E0 as <-.
  cbv zeta in E. step_in E. set (s0 := port_release s _) in *.
  assert (core s0 = core s) as Ec by apply port_release_core. pose proof (core_inv _ _ _ _ _ Ec I) as I0.
  assert (p ∈ tbl (bucket c)) as Hb by (eapply (in_table None s); try done; rewrite Hs; simpl; tauto).
  assert (ts_conns s0 !! p = Some c) as Hp0 by (unfold s0, port_release; by destruct (port_at _ _)).
  destruct (inv_unregister _ _ _ _ _ _ I0 Hp0 Hb E0) as (I1 & Hst & _).
  step_in E. step_in E. step_in E. step_in E. apply conn_closed_core in E4. rewrite port_release_core in E4.
  ret_in E. subst s'. split.
  - exists (without tbl p), waits. apply (inv_delete a3). eapply core_inv; [|exact I1]. exact E4.
  - intros q. rewrite (status_delete a3). destruct (decide (q = p)) as [->|].
    + right. unfold status_at. rewrite Hp. simpl. rewrite Hs. split; [done|constructor].
    + left. rewrite (core_status _ _ E4). change (status_at (set_nic _ _) q) with (status_at a q).
      by rewrite Hst, (core_status _ _ Ec).
Qed.

Lemma tcp_timeout_ok s p c type s' tbl waits : tcp_inv None s tbl waits -> ts_conns s !! p = Some c ->
  (type = TO_TCP_CLOSED -> cn_status c = CONN_CLOSED) ->
  tcp_timeout crc4 crc8 eth_addr cfg tas_shm now s p type = Ok s' ->
  step_ok p (event_edge (EvTimeout p type) p) s s'.
Proof.
  unfold tcp_timeout. intros I Hp Ht E. step_in E. apply conn_at_Ok in E0. rewrite Hp in E0. injection E0 as <-.
  step_in E. cbv zeta in E. set (c1 := with_armed c false) in *.
  assert (core (put_conn s p c1) = core s) as Ec by (by apply (core_put s p c)).
  assert (ts_conns (put_conn s p c1) !! p = Some c1) as Hp1 by (by apply lookup_insert_eq).
  destruct (Z.eqb_spec type TO_TCP_CLOSED) as [Et|_].
  { subst type. apply (step_from p _ s _ _ Ec). eapply (conn_close_timeout_ok _ p c1); try done; [by eapply core_inv|by apply Ht]. }
  destruct (Z.eqb_spec type TO_TCP_HANDSHAKE) as [->|]; [|done]. cbn [negb] in E.
  case_bool_decide as Es; [|done]. cbn [negb] in E.
  match type of E with context [put_conn (put_conn s p c1) p ?x] => set (c2 := x) in * end.
  assert (core (put_conn (put_conn s p c1) p c2) = core s) as Ec2.
  { etransitivity; [|exact Ec]. by eapply core_put. }
  destruct (_ >? _).
  - apply (step_from p _ s _ _ Ec2).
    assert (ts_conns (put_conn (put_conn s p c1) p c2) !! p = Some c2) as Hp2 by (by apply lookup_insert_eq).
    eapply (conn_failed_ok _ _ p c2 (-1)); try done; [by eapply core_inv| |].
    + change (bucket c2) with (bucket c). eapply (in_table None s); try done.
      change (cn_status c1) with (cn_status c) in Es. rewrite Es. simpl. tauto.
    + change (cn_status c2) with (cn_status c1). rewrite Es. by constructor.
  - step_in E. apply timeout_arm_core in E1. apply conn_send_core in E.
    eapply step_core; [exact I|]. rewrite E, E1. etransitivity; [|exact Ec2]. eapply core_put; [by apply lookup_insert_eq|done].
Qed.

(** ** New connections *)
Lemma conn_alloc_ok s x q k1 k2 m r s1 :
  conn_alloc cfg tas_shm mr_lkey mr_rkey s x q k1 k2 m = Ok (r, s1) ->
  (r = None /\ core s1 = core s) \/
  exists p c0 c s0, cm_conn m = Some (p, c0) /\ r = Some p /\ s1 = put_conn s0 p c /\ core s0 = core s /\
    ts_conns s0 = ts_conns s /\ ts_listeners s0 = ts_listeners s.
Proof.
  unfold conn_alloc. intros E. destruct (cm_conn m) as [[p c0]|]; [|injection E as <- <-; by left]. cbv zeta in E.
  step_in E. destruct o as [[off_rx rx_handle]|]; [|injection E as <- <-; by left].
  step_in E. destruct o as [[off_tx tx_handle]|].
  2: { step_in E. injection E as <- <-. by left. }
  step_in E. destruct (rq_allocate_in_place _ _ _ _ _ _) as [rx|]; [|done].
  destruct (rq_allocate_in_place _ _ _ _ _ _) as [tx|]; [|done]. step_in E. injection E as <- <-. right.
  do 4 eexists. split; [reflexivity|]. split; [done|]. split; [reflexivity|].
  unfold pair_rx in E3. destruct (q =? 0); [by injection E3 as <- <-|]. step_in E3. step_in E3. by injection E3 as <- <-.
Qed.

(** The connection is not one of the old. *)
Definition conn_fresh s (m : conn_mem) : Prop := forall p c, cm_conn m = Some (p, c) -> ts_conns s !! p = None.

(** What an event does to the connection that changes, if any does. *)
Definition event_ok_step (e : tcp_event) s s' : Prop := exists p, step_ok p (event_edge e p) s s'.

Lemma event_core e s s' tbl waits : tcp_inv None s tbl waits -> core s' = core s -> event_ok_step e s s'.
Proof. intros I E. exists 0. by eapply step_core. Qed.

Lemma tcp_open_ok s x d db m af r o s' tbl waits : tcp_inv None s tbl waits -> conn_fresh s m ->
  tcp_open crc4 crc8 eth_addr cfg tas_shm mr_lkey mr_rkey routes hop_fuel now s x d db m af = Ok (r, o, s') ->
  event_ok_step (EvOpen x d db m af) s s'.
Proof.
  unfold tcp_open. intros I Hf E. step_in E.
  destruct (conn_alloc_ok _ _ _ _ _ _ _ _ E0) as [[-> Ec]|(p & c0 & c & s0 & Em & -> & -> & Ec & Eh & _)].
  { injection E as _ _ <-. by eapply event_core. }
  exists p. pose proof (Hf p c0 Em) as Hp. destruct (fresh_out _ _ _ _ p I Hp) as [Ht Hl].
  pose proof (core_inv _ _ _ _ _ Ec I) as I0.
  pose proof (inv_put_moving None s0 tbl waits p c I0 (or_introl eq_refl) Ht Hl) as I1.
  assert (forall q, q <> p -> status_at (put_conn s0 p c) q = status_at s q) as Hst.
  { intros q Hq. rewrite status_put, decide_False by done. by apply core_status. }
  assert (forall s2 s3, tcp_inv (Some p) s2 tbl waits -> (forall q, q <> p -> status_at s2 q = status_at s q) ->
    conn_free s2 p = Ok s3 -> step_ok p (event_edge (EvOpen x d db m af) p) s s3) as Hfree.
  { intros s2 s3 I2 Hs2 E2. destruct (conn_free_ok _ _ _ _ _ I2 E2) as [I3 Hs3]. split; [by do 2 eexists|]. intros q. left. rewrite Hs3.
    destruct (decide (q = p)) as [->|Hq]; [|by rewrite Hs2]. unfold status_at. by rewrite Hp. }
  step_in E. cbv zeta in E. destruct (_ =? 0).
  { step_in E. injection E as _ _ <-.
    refine (Hfree _ _ _ _ E2); [by apply (core_inv _ (put_conn s0 p c))|exact Hst]. }
  step_in E. step_in E.
  match type of E3 with routing_resolve _ _ _ _ (ts_arp (comp_reset (put_conn ?sa p ?cc) p)) _ _ _ _ _ = _ =>
    set (s2 := put_conn sa p cc) in * end.
  assert (tcp_inv (Some p) s2 tbl waits) as I2.
  { apply (inv_put_moving (Some p)); try done; [|by right]. by apply (core_inv _ (put_conn s0 p c)). }
  assert (forall q, q <> p -> status_at s2 q = status_at s q) as Hs2.
  { intros q Hq. unfold s2. rewrite status_put, decide_False by done. by apply Hst. }
  destruct (_ <? 0).
  { step_in E. injection E as _ _ <-. 
    refine (Hfree _ _ _ _ E4); [by apply (core_inv _ s2)|exact Hs2]. }
  step_in E.
  match type of E4 with register _ _ ?sr p = _ => assert (core sr = core s2) as Ecr by done;
    assert (ts_conns sr = ts_conns s2) as Ehr by done end.
  assert (exists c2, ts_conns s2 !! p = Some c2 /\ cn_status c2 = CONN_ARP_PENDING) as (c2 & Hp2 & Es2).
  { eexists. split; [by apply lookup_insert_eq|]. done. }
  assert (st_registered (cn_status c2)) as Hr2 by (rewrite Es2; by left).
  destruct (inv_register _ _ _ p c2 _ (core_inv _ _ _ _ _ Ecr I2) Hp2 Hr2 E4) as [I3 Hs3].
  assert (status_at a1 p = Some CONN_ARP_PENDING) as Hsp.
  { rewrite Hs3. change (status_at s2 p = Some CONN_ARP_PENDING). unfold status_at. by rewrite Hp2, <- Es2. }
  set (new := fun a b : option connection_status => a = None /\ b = Some CONN_ARP_PENDING).
  assert (moves p new s a1) as M3.
  { intros q. destruct (decide (q = p)) as [->|Hq].
    - right. rewrite Hsp. unfold status_at. by rewrite Hp.
    - left. rewrite Hs3. change (status_at s2 q = status_at s q). by rewrite Hs2. }
  step_in E. injection E as _ _ <-. destruct (_ =? 0).
  - unfold status_at in Hsp. destruct (ts_conns a1 !! p) as [c3|] eqn:Hp3; [|done]. injection Hsp as Hsp.
    set (sent := fun a b : option connection_status => a = Some CONN_ARP_PENDING /\ b = Some CONN_SYN_SENT).
    match type of E5 with _ = Ok (_, ?s3) =>
      destruct (conn_arp_done_ok sent _ _ _ _ s3 _ _ I3 Hp3 Hsp (conj eq_refl eq_refl) E5) as (_ & I4 & M4) end.
    split; [do 2 eexists; eapply core_inv; [|exact I4]; done|].
    eapply moves_r; [|done]. apply (moves_seq p _ _ _ _ _ _ M3 M4).
    + intros u v [-> ->]. eapply edge_open; [exact Em|]. simpl. tauto.
    + intros u v [-> ->]. unfold status_at. by rewrite Hp.
    + intros u v w' [-> ->] [_ ->]. eapply edge_open; [exact Em|]. simpl. tauto.
  - injection E5 as <- <-. split; [do 2 eexists; eapply core_inv; [|exact I3]; done|].
    apply (moves_r _ _ _ a1); [|done]. revert M3. apply moves_mono. intros u v [-> ->].
    eapply edge_open; [exact Em|]. simpl. tauto.
Qed.

(** ** Passive opening *)
Definition heads s : gmap Z (option Z) := wait_conns <$> ts_listeners s.
Lemma core_heads s s' : core s' = core s -> heads s' = heads s.
Proof. by intros [= _ _ El]. Qed.

Lemma waits_head x s tbl waits l y p : tcp_inv x s tbl waits -> ts_listeners s !! l = Some y -> wait_conns y = Some p ->
  p ∈ waits l.
Proof.
  intros I Hy Hw. pose proof (ti_chain _ _ _ _ I l y Hy) as Hch. rewrite Hw in Hch.
  destruct (waits l) as [|q w]; [done|]. destruct Hch as [[= <-] _]. by left.
Qed.

Lemma accept_head_ok (R : status_rel) s l y p pk t cr fg s' tbl waits : tcp_inv None s tbl waits -> ts_listeners s !! l = Some y ->
  wait_conns y = Some p -> R (Some CONN_SYN_WAIT) (Some CONN_REG_SYNACK) ->
  accept_head crc4 crc8 cfg cur_ts s l y p pk t cr fg = Ok s' -> step_ok p R s s'.
Proof.
  unfold accept_head. intros I Hy Hw HR E. step_in E. apply conn_at_Ok in E0. rename E0 into Hp.
  pose proof (waits_head _ _ _ _ _ _ _ I Hy Hw) as Hl. pose proof (ti_wait _ _ _ _ I l p a Hl Hp) as Hs.
  set (c1 := syn_conn cfg a y pk t cr fg) in *.
  assert (cn_status c1 = cn_status a /\ ht_next c1 = ht_next a) as [Es1 En1]
    by (unfold c1, syn_conn; cbv zeta; by destruct (_ =? _)).
  pose proof (inv_put_waiting None s tbl waits p a c1 l I Hp Hl En1 ltac:(by rewrite Es1)) as I1.
  cbv zeta in E. step_in E. apply cc_init_core in E0. change (core a0 = core (put_conn s p c1)) in E0.
  destruct (core_lookup _ _ p c1 E0) as (c2 & Hp2 & Es2 & _ & En2); [by apply lookup_insert_eq|].
  pose proof (core_inv _ _ _ _ _ E0 I1) as I2. step_in E. apply conn_at_Ok in E1. rewrite Hp2 in E1. injection E1 as <-.
  set (c3 := with_status c2 CONN_REG_SYNACK) in *.
  pose proof (inv_put_waiting None a0 tbl waits p c2 c3 l I2 Hp2 Hl eq_refl ltac:(by right)) as I3.
  assert (moves p R s (put_conn a0 p c3)) as M3.
  { intros q. rewrite status_put. destruct (decide (q = p)) as [->|Hq].
    - unfold status_at. rewrite Hp. simpl. destruct Hs as [-> | ->]; [by right|by left].
    - left. rewrite (core_status _ _ E0), status_put. by rewrite decide_False. }
  step_in E. apply add_flow_core in E1. change (core t0 = core (put_conn a0 p c3)) in E1.
  pose proof (core_inv _ _ _ _ _ E1 I3) as I4.
  assert (moves p R s t0) as M4 by (by eapply moves_r).
  destruct o as [f|]; [|injection E as <-; split; [by do 2 eexists|done]].
  step_in E. apply conn_at_Ok in E2.
  destruct (core_lookup _ _ p c3 E1) as (c4 & Hp4 & Es4 & _); [by apply lookup_insert_eq|].
  rewrite Hp4 in E2. injection E2 as <-. set (c5 := with_flow_id c4 f) in *.
  assert (core (put_conn t0 p c5) = core t0) as Ec5 by (by apply (core_put t0 p c4)).
  assert (ts_conns (put_conn t0 p c5) !! p = Some c5) as Hp5 by (by apply lookup_insert_eq).
  pose proof (core_inv _ _ _ _ _ Ec5 I4) as I5. step_in E.
  assert (heads (put_conn t0 p c5) = heads s) as El.
  { rewrite (core_heads _ _ Ec5), (core_heads _ _ E1). exact (core_heads (put_conn s p c1) a0 E0). }
  destruct (fmap_agree _ _ _ _ _ (eq_sym El) Hy) as (y5 & Hy5 & Ew5). rewrite Hw in Ew5.
  destruct (inv_wait_pop _ _ _ _ _ _ _ y I5 Hy5 Ew5 Hp5) as (w & _ & I6).
  match type of E2 with register _ _ ?sr p = _ => assert (ts_conns sr !! p = Some c5) as Hp6 by exact Hp5 end.
  assert (st_registered (cn_status c5)) as Hr by (change (cn_status c5) with (cn_status c4); rewrite Es4; right; right; by left).
  destruct (inv_register _ _ _ p c5 _ I6 Hp6 Hr E2) as [I7 Hs7]. injection E as <-.
  split; [do 2 eexists; eapply core_inv; [|exact I7]; done|].
  intros q. change (status_at (set_arp a1 _) q) with (status_at a1 q). rewrite Hs7.
  exact (moves_r _ _ _ _ _ M4 Ec5 q).
Qed.

Lemma listener_accept_ok (R : status_rel) s l y p s' tbl waits : tcp_inv None s tbl waits ->
  ts_listeners s !! l = Some y -> wait_conns y = Some p -> R (Some CONN_SYN_WAIT) (Some CONN_REG_SYNACK) ->
  listener_accept crc4 crc8 cfg cur_ts s l = Ok s' -> step_ok p R s s'.
Proof.
  unfold listener_accept. intros I Hy Hw HR E. step_in E. apply listener_at_Ok in E0. rewrite Hy in E0.
  injection E0 as <-. rewrite Hw in E. step_in E. step_in E. step_in E. step_in E.
  match type of E3 with _ = Ok ?x => set (s2 := x) in * end. assert (step_ok p R s s2) as [I2 M2].
  { destruct (if _ =? 0 then _ else _) as [off|]; [|injection E3 as <-; by eapply step_core].
    step_in E3. by eapply accept_head_ok. }
  step_in E. apply listener_at_Ok in E4. injection E as <-. destruct I2 as (tbl' & waits' & I2).
  match goal with |- step_ok _ _ s ?x => assert (core x = core s2) as Ec by (by eapply core_put_listener) end.
  split; [exists tbl', waits'; by eapply core_inv|]. by eapply moves_r.
Qed.

Lemma tcp_accept_ok s x d lo db m r s' tbl waits : tcp_inv None s tbl waits -> conn_fresh s m ->
  tcp_accept crc4 crc8 cfg tas_shm mr_lkey mr_rkey cur_ts s x d lo db m = Ok (r, s') ->
  event_ok_step (EvAccept x d lo db m) s s'.
Proof.
  unfold tcp_accept. intros I Hf E. step_in E.
  destruct (conn_alloc_ok _ _ _ _ _ _ _ _ E0) as [[-> Ec]|(p & c0 & c & s0 & Em & -> & -> & Ec & Eh & _)].
  { injection E as _ <-. by eapply event_core. }
  destruct lo as [l|]; [|done]. exists p. pose proof (Hf p c0 Em) as Hp. destruct (fresh_out _ _ _ _ p I Hp) as [Ht Hl].
  pose proof (core_inv _ _ _ _ _ Ec I) as I0.
  pose proof (inv_put_moving None s0 tbl waits p c I0 (or_introl eq_refl) Ht Hl) as I1.
  step_in E. apply listener_at_Ok in E1. step_in E. cbv zeta in E.
  match type of E with context [put_conn (put_conn s0 p c) p ?cc] => set (c1 := cc) in * end.
  set (s2 := put_conn (put_conn s0 p c) p c1) in *.
  assert (tcp_inv (Some p) s2 tbl waits) as I2 by (apply (inv_put_moving (Some p)); try done; by right).
  assert (ts_conns s2 !! p = Some c1) as Hp2 by (by apply lookup_insert_eq).
  pose proof (inv_wait_push s2 tbl waits l a p c1 I2 E1 Hp2 eq_refl ltac:(by left)) as I3.
  set (s3 := put_listener s2 l _) in *.
  set (new := fun a b : option connection_status => a = None /\ b = Some CONN_SYN_WAIT).
  assert (moves p new s s3) as M3.
  { intros q. change (status_at s3 q) with (status_at s2 q). unfold s2. rewrite !status_put.
    destruct (decide (q = p)) as [->|Hq].
    - right. unfold status_at. by rewrite Hp.
    - left. by rewrite (core_status _ _ Ec). }
  step_in E. injection E as _ <-. destruct (_ >? 0).
  - set (acc := fun a b : option connection_status => a = Some CONN_SYN_WAIT /\ b = Some CONN_REG_SYNACK).
    assert (ts_listeners s3 !! l = Some (set_wait_conns a (Some p))) as Hy3 by (by apply lookup_insert_eq).
    destruct (listener_accept_ok acc s3 l _ p _ _ _ I3 Hy3 eq_refl (conj eq_refl eq_refl) E3) as [I4 M4].
    split; [done|]. apply (moves_seq p _ _ _ _ _ _ M3 M4).
    + intros u v [-> ->]. eapply edge_accept; [exact Em|]. simpl. tauto.
    + intros u v [-> ->]. unfold status_at. by rewrite Hp.
    + intros u v w' [-> ->] [_ ->]. eapply edge_accept; [exact Em|]. simpl. tauto.
  - injection E3 as <-. split; [by do 2 eexists|]. revert M3. apply moves_mono. intros u v [-> ->].
    eapply edge_accept; [exact Em|]. simpl. tauto.
Qed.

Lemma backlog_add_wait y pkt cr fg y' : backlog_add y pkt cr fg = Ok (Some y') -> wait_conns y' = wait_conns y.
Proof.
  unfold backlog_add. intros E. destruct (_ >? _); [done|]. step_in E. destruct a; [done|].
  destruct (_ =? _); [done|]. step_in E. step_in E. step_in E. step_in E. step_in E. step_in E. by injection E as <-.
Qed.

Lemma listener_packet_ok len s l pkt o cr fg s' tbl waits : tcp_inv None s tbl waits ->
  listener_packet crc4 crc8 eth_addr cfg cur_ts s l pkt o cr fg = Ok s' ->
  event_ok_step (EvPacket pkt len cr fg) s s'.
Proof.
  unfold listener_packet. intros I E. cbv zeta in E.
  destruct (negb _); [apply reset_send_core in E; by eapply event_core|].
  step_in E. apply listener_at_Ok in E0. step_in E. destruct a0 as [y|]; [|injection E as <-; by eapply event_core].
  apply backlog_add_wait in E1. step_in E. apply newconn_core in E2.
  assert (core a0 = core s) as Ec by (rewrite E2; by eapply core_put_listener).
  destruct (wait_conns y) as [p|] eqn:Hw; [|injection E as <-; by eapply event_core].
  destruct (fmap_agree _ _ _ _ _ (eq_sym (core_heads _ _ Ec)) E0) as (y' & Hy' & Ew).
  exists p. apply (step_from p _ s _ _ Ec).
  apply (listener_accept_ok _ a0 l y' p s' tbl waits); [by eapply core_inv|done|congruence|constructor|done].
Qed.

Lemma tcp_packet_ok s pkt len cr fg r s' tbl waits : tcp_inv None s tbl waits ->
  tcp_packet crc4 crc8 eth_addr cfg tas_shm cur_ts s pkt len cr fg = Ok (r, s') ->
  event_ok_step (EvPacket pkt len cr fg) s s'.
Proof.
  unfold tcp_packet. intros I E. cbv zeta in E. destruct (_ <? _); [injection E as _ <-; by eapply event_core|].
  destruct (negb _); [injection E as _ <-; by eapply event_core|]. step_in E.
  destruct (negb _); [injection E as _ <-; by eapply event_core|].
  destruct (conn_lookup_ok crc4 crc8 _ _ _ (pkt_of_bytes pkt) (ti_table _ _ _ _ I)) as (q & Eq & Hq).
  rewrite Eq in E. cbn [mbind outcome_bind] in E. destruct q as [p|].
  - destruct Hq as (c & Hp & _). step_in E. injection E as _ <-. exists p. by eapply conn_packet_ok.
  - step_in E. destruct a as [l|]; step_in E; injection E as _ <-; [by eapply listener_packet_ok|].
    eapply event_core; [exact I|]. destruct (_ && _); [by eapply reset_send_core|by injection E2 as <-].
Qed.

Lemma tcp_listen_ok s x o port b re lm lst r ol s' tbl waits : tcp_inv None s tbl waits ->
  (forall l bls, lst = Some (l, bls) -> ts_listeners s !! l = None) ->
  tcp_listen s x o port b re lm lst = Ok (r, ol, s') -> event_ok_step (EvListen x o port b re lm lst) s s'.
Proof.
  unfold tcp_listen. intros I Hf E.
  assert (forall lm', (match lst with
    | None => mret (-1, None, s)
    | Some (l, bls) => s ← listen_add (put_listener s l (new_listener x o port b bls)) re port l lm'; mret (0, Some l, s)
    end) = Ok (r, ol, s') -> event_ok_step (EvListen x o port b re lm lst) s s') as Hadd.
  { intros lm' E'. destruct lst as [[l bls]|]; [|injection E' as _ _ <-; by eapply event_core].
    step_in E'. injection E' as _ _ <-. pose proof (inv_new_listener s tbl waits l (new_listener x o port b bls) I (Hf l bls eq_refl) eq_refl) as I1.
    assert (core a = core (put_listener s l (new_listener x o port b bls))) as Ec.
    { unfold listen_add in E0. destruct (negb re); [by injection E0 as <-|].
      destruct lm'; [by injection E0 as <-|]. destruct (port_at _ _); try done. destruct (_ !! _); [by injection E0 as <-|done]. }
    exists 0. split; [do 2 eexists; by eapply core_inv|]. eapply moves_r; [|exact Ec]. by left. }
  cbv zeta in E. destruct (port_at _ _).
  - destruct re; [destruct lm|]; try (by eapply Hadd). injection E as _ _ <-. by eapply event_core.
  - injection E as _ _ <-. by eapply event_core.
  - destruct (negb re); [injection E as _ _ <-; by eapply event_core|]. destruct (_ !! _); [|done].
    destruct (_ =? _); [injection E as _ _ <-; by eapply event_core|by eapply Hadd].
  - injection E as _ _ <-. by eapply event_core.
Qed.

(** ** Sequences of events *)

Definition tcp_run s (e : tcp_event) : outcome state :=
  match e with
  | EvPacket pkt len cr fg => '(_, s) ← tcp_packet crc4 crc8 eth_addr cfg tas_shm cur_ts s pkt len cr fg; mret s
  | EvPolled p => tcp_poll_one crc4 crc8 eth_addr cfg tas_shm now s p
  | EvTimeout p type => tcp_timeout crc4 crc8 eth_addr cfg tas_shm now s p type
  | EvOpen x d db m af =>
      '(_, _, s) ← tcp_open crc4 crc8 eth_addr cfg tas_shm mr_lkey mr_rkey routes hop_fuel now s x d db m af; mret s
  | EvListen x o port b re lm lst => '(_, _, s) ← tcp_listen s x o port b re lm lst; mret s
  | EvAccept x d l db m =>
      '(_, s) ← tcp_accept crc4 crc8 cfg tas_shm mr_lkey mr_rkey cur_ts s x d l db m; mret s
  | EvClose p => '(_, s) ← tcp_close eth_addr cfg now s p; mret s
  end.

(** The connection at [p] is found in the hash table. *)
Definition registered s (p : Z) (c : connection) : Prop :=
  exists l, ht_chain (ts_conns s) (bucket_head (ts_ht s) (bucket c)) l /\ p ∈ l.

(** Allocated memory is not in use; the timer of a connection that is freed was
    armed when it was closed; a connection whose flow was registered and is taken
    from the queue is in the hash table. *)
Definition event_ok s (e : tcp_event) : Prop :=
  match e with
  | EvPacket _ _ _ _ | EvClose _ => True
  | EvPolled p => exists c, ts_conns s !! p = Some c /\ (cn_status c = CONN_REG_SYNACK -> registered s p c)
  | EvTimeout p type => exists c, ts_conns s !! p = Some c /\ (type = TO_TCP_CLOSED -> cn_status c = CONN_CLOSED)
  | EvOpen _ _ _ m _ | EvAccept _ _ _ _ m => conn_fresh s m
  | EvListen _ _ _ _ _ _ lst => forall l bls, lst = Some (l, bls) -> ts_listeners s !! l = None
  end.

Inductive tcp_steps : state -> state -> Prop :=
| steps_refl s : tcp_steps s s
| steps_event s e s1 s2 : event_ok s e -> tcp_run s e = Ok s1 -> tcp_steps s1 s2 -> tcp_steps s s2.

Lemma ht_chain_unique (h : conn_heap) l1 : forall o l2, ht_chain h o l1 -> ht_chain h o l2 -> l1 = l2.
Proof.
  induction l1 as [|x l1 IH]; intros o [|y l2] C1 C2; [done|by destruct C2 as [E _]; rewrite C1 in E|
    by destruct C1 as [E _]; rewrite C2 in E|].
  destruct C1 as (-> & c & Hc & C1), C2 as ([= <-] & c' & Hc' & C2). rewrite Hc in Hc'. injection Hc' as <-.
  f_equal. by eapply IH.
Qed.

Lemma tcp_run_ok s e s' tbl waits : tcp_inv None s tbl waits -> event_ok s e -> tcp_run s e = Ok s' ->
  event_ok_step e s s'.
Proof.
  intros I Hok E. destruct e; cbn in Hok; cbn [tcp_run] in E.
  - step_in E. injection E as <-. by eapply tcp_packet_ok.
  - destruct Hok as (c & Hp & Hr). exists conn. eapply (tcp_poll_one_ok s conn c); try done. intros Es.
    destruct (Hr Es) as (l & Hl & Hin). by rewrite <- (ht_chain_unique _ _ _ _ Hl (ct_chain _ _ _ _ _ (ti_table _ _ _ _ I) _)).
  - destruct Hok as (c & Hp & Hr). exists conn. by eapply tcp_timeout_ok.
  - step_in E. injection E as <-. by eapply tcp_open_ok.
  - step_in E. injection E as <-. by eapply tcp_listen_ok.
  - step_in E. injection E as <-. by eapply tcp_accept_ok.
  - step_in E. injection E as <-. exists conn. by eapply tcp_close_ok.
Qed.

Lemma tcp_steps_keep s s' : tcp_steps s s' -> keeps_inv s -> keeps_inv s'.
Proof.
  induction 1 as [s|s e s1 s2 Hok E _ IH]; [done|]. intros (tbl & waits & I). apply IH.
  by destruct (tcp_run_ok s e s1 tbl waits I Hok E) as (p & ? & _).
Qed.

(** C26. The connections of the slow path stay consistent: through every sequence
    of packets, timeouts, resolved addresses and requests, each connection that
    has not failed is in the chain of the hash table for its addresses or waits
    at exactly one listener, according to its status, and all chains are proper
    lists of live connections. And each event of such a sequence changes the
    status of one connection at most, along an edge that belongs to the event
    ([event_edge]): only the packet of the peer opens a connection whose SYN was
    sent, only its turn in the queue one whose flow was registered, and so on.
    The sequences are those [event_ok] describes: the allocators return memory not
    in use, and the queue and the timers hand out connections that exist, a
    registered one and a closed one where they must. *)
Theorem tcp_steps_invariant s s' : tcp_steps s s' -> keeps_inv s ->
  keeps_inv s' /\
  forall e s2, event_ok s' e -> tcp_run s' e = Ok s2 ->
    keeps_inv s2 /\ exists p, moves p (event_edge e p) s' s2.
Proof.
  intros Hs I. pose proof (tcp_steps_keep s s' Hs I) as I'. split; [done|]. intros e s2 Hok E.
  destruct I' as (tbl & waits & I'). destruct (tcp_run_ok s' e s2 tbl waits I' Hok E) as (p & ? & ?). eauto.
Qed.

(** Nothing is allocated at first. *)
Lemma tcp_inv_empty s : ts_conns s = ∅ -> ts_ht s = ∅ -> ts_listeners s = ∅ ->
  tcp_inv None s (fun _ => []) (fun _ => []).
Proof.
  intros Eh Et El. constructor; rewrite ?Eh, ?Et, ?El; try done; try (intros ? ? ? Hp; by apply elem_of_nil in Hp);
    [|intros l; constructor].
  constructor; [intros b; by unfold bucket_head; rewrite lookup_empty|constructor|].
  intros b p c Hp. by apply elem_of_nil in Hp.
Qed.

End Inv.

(** ** Witness *)
Module Demo.
(** A host with one application, whose context is 1, that has opened nothing. *)
Definition base (ports : port_table) : tcp_state recorder mailbox :=
  mk_tcps ∅ ∅ (mk_ccg 0 None None (mk_kstats 0 0 0 0))
    (mk_as ∅ None (util_timeout_init (mk_tmgr ∅ None None None None)) (Nbqueue.mk_nbqueue None ∅) ∅ ∅ {[ 100 := 7 ]}
       (mk_rec [] []))
    (mk_pm ∅ None) ports 8192 1 ∅ ∅ {[ 1 := mk_actx 2 0 None ]} {[ 2 := mk_app 0 (Some 1) None None ]}
    (mk_mail [] []).
Definition crc (w init : Z) : Z := 0.
(** It listens to port 80, and a SYN comes. *)
Definition listen : tcp_event := EvListen 1 9 80 2 false None (Some (300, replicate 2 (mk_bls (replicate 126 0) 0))).
Definition syn : tcp_event :=
  EvPacket (bytes_of_pkt (mk_pkt (mk_eth 7 5 ETH_TYPE_IP) (mk_ip 0x45 0 56 3 0 255 IP_PROTO_TCP 0 20 10)
    (mk_tcp 4000 80 1000 0 (Z.lor (Z.shiftl 5 12) TCP_SYN) 11680 0 0) (replicate 16 1))) 70 0 0.
Definition run (s : tcp_state recorder mailbox) (e : tcp_event) : outcome (tcp_state recorder mailbox) :=
  tcp_run (H2 := TcpWire.Demo.checksums) crc crc 5 (TcpWire.Demo.cfg 10) 0 0 0 [] 3%nat 0 0 s e.
Definition listening : tcp_state recorder mailbox :=
  match run (base ∅) listen with Ok s => s | Stop _ => base ∅ end.
End Demo.

Lemma tcp_steps_invariant_witness : exists s',
  Demo.run Demo.listening Demo.syn = Ok s' /\
  option_map backlog_used (ts_listeners s' !! 300) = Some 1 /\
  keeps_inv Demo.crc Demo.crc Demo.listening /\ keeps_inv Demo.crc Demo.crc s' /\
  exists p, moves p (event_edge Demo.syn p) Demo.listening s'.
Proof.
  destruct (tcp_steps_invariant (H2 := TcpWire.Demo.checksums) Demo.crc Demo.crc 5 (TcpWire.Demo.cfg 10) 0 0 0 []
    3%nat 0 0 (Demo.base ∅) Demo.listening) as [I1 I2].
  - eapply steps_event with (e := Demo.listen); [by intros ? ? _|reflexivity|apply steps_refl].
  - do 2 eexists. by apply tcp_inv_empty.
  - eexists. split; [reflexivity|]. split; [reflexivity|]. split; [exact I1|]. by apply (I2 Demo.syn).
Defined.
