(* ===== verification/Handshake.v ===== *)
(** * Opening a connection between two hosts

    The slow paths of two hosts (TcpSlow) exchange the packets of the three-way
    handshake; both register a flow with their fast path. *)
From S2P Require Import Prelude RdmaQueue Packets FlowState FastCtx Wire Util Timeout PacketMem FlowTable SlowState.
From S2P Require Import CongCtl Arp Routing Ports Listener ConnTable AppMsg TcpWire TcpState TcpSlow TcpInv.

#[local] Open Scope Z_scope.

Abbreviation host := (tcp_state recorder mailbox).

Definition nic (s : host) : recorder := ar_tx (ts_arp s).
Definition sent (s : host) : list (list Z) := rc_sent (nic s).
Definition flows (s : host) : list flow_req := rc_flows (nic s).

(** The SYN of a peer, with its configuration and the address of its card. *)
Abbreviation syn_from pcfg peth mac rip rport lport lseq rseq b :=
  (control_received pcfg peth mac rip rport lport lseq rseq SYN_FLAGS true 0 TCP_MSS b (sent_opts true TCP_MSS)).

Section Host.
Context `{Checksums}.
Context (crc4 : Z -> Z -> Z) (crc8 : Z -> Z -> Z).
Context (eth_addr : Z) (cfg : configuration) (tas_shm : Z) (now : Z).

(** The stamps of time: of the timers, and of congestion control. *)
Abbreviation stamp := (now mod PERIOD).
Context (cur_ts : Z).

(** The configuration: the address, times that timers can wait, and for
    congestion control to divide by. *)
Record cfg_ok : Prop := {
  co_eth : word_ok 6 eth_addr;
  co_ip : word_ok 4 (cf_ip cfg);
  co_handshake : 0 < tcp_handshake_to cfg <= 80000000;
  co_bw : 0 < tcp_link_bw cfg;
  co_rtt : 0 < tcp_rtt_init cfg < 4294967;
}.

(** The addresses of a connection fit, and its queues are their own endpoints. *)
Record conn_ok (s : host) (p : Z) (c : connection) : Prop := {
  cn_mac_ok : word_ok 6 (mac_of s p);
  cn_rip_ok : word_ok 4 (cn_remote_ip c);
  cn_rport_ok : word_ok 2 (cn_remote_port c);
  cn_lport_ok : word_ok 2 (cn_local_port c);
  cn_lseq_ok : word_ok 4 (cn_local_seq c);
  cn_rseq_ok : word_ok 4 (cn_remote_seq c);
}.

Definition queues_ok (c : connection) : Prop :=
  self (cn_rx c) = ep_addr (RdmaQueue.tx (cn_rx c)) /\ self (cn_tx c) = ep_addr (RdmaQueue.rx (cn_tx c)).

(** A packet of the connection is sent. *)
Lemma conn_send_ok (s : host) p c fl ts echo mss : cfg_ok -> conn_ok s p c -> ts_conns s !! p = Some c ->
  0 <= fl < 512 -> word_ok 4 echo -> word_ok 2 mss ->
  exists b, conn_send eth_addr cfg s p fl ts echo mss = Ok (set_nic s (mk_rec (sent s ++ [b]) (flows s))) /\
    control_received cfg eth_addr (mac_of s p) (cn_remote_ip c) (cn_remote_port c) (cn_local_port c)
      (cn_local_seq c) (cn_remote_seq c) fl ts echo mss b (sent_opts ts mss).
Proof.
  intros [] [] Hp Hf He Hm. unfold conn_send, conn_at. rewrite (get_conn_Ok _ _ _ Hp). osimpl.
  unfold send_control, send_control_raw.
  destruct (control_packet_headers eth_addr cfg (mac_of s p) (cn_remote_ip c) (cn_remote_port c) (cn_local_port c)
    (cn_local_seq c) (cn_remote_seq c) fl ts echo mss) as (c1 & c2 & H1 & H2 & ->); [done|].
  eexists. split; [reflexivity|]. apply control_headers_received; [|done|done]. by constructor.
Qed.

(** ** The first packet *)

(** The state after a step differs in the connection [p], which is now [c]. *)
Definition only_conn (s s' : host) (p : Z) (c : connection) : Prop :=
  ts_conns s' = <[p := c]> (ts_conns s) /\ ts_ht s' = ts_ht s /\ ts_ports s' = ts_ports s /\
  ts_listeners s' = ts_listeners s /\ ts_multis s' = ts_multis s /\
  ar_macs (ts_arp s') = ar_macs (ts_arp s) /\ ts_ctxs s' = ts_ctxs s /\ ts_apps s' = ts_apps s.

Lemma timeout_arm_ok (s : host) p c q type : ts_conns s !! p = Some c -> cn_to_armed c = false ->
  Timeout.rep now (ar_timers (ts_arp s)) q -> p ∉ armed q -> 0 < cn_timeout c <= 80000000 ->
  exists s' q', conn_timeout_arm stamp s p type = Ok s' /\ only_conn s s' p (with_armed c true) /\
    nic s' = nic s /\ Timeout.rep now (ar_timers (ts_arp s')) q' /\ p ∈ armed q'.
Proof.
  intros Hp Ha R Hn Ht. unfold conn_timeout_arm, conn_at. rewrite (get_conn_Ok _ _ _ Hp). osimpl. rewrite Ha. osimpl.
  rewrite (proj2 (Z.eqb_neq _ 0)) by lia.
  destruct (Rng.utils_rng_gen32 _) as [r seed] eqn:Er. pose proof (Rng.gen32_range (ts_rng s)) as [Hr _].
  change (ts_rng (put_conn s p (with_armed c true))) with (ts_rng s) in Er. rewrite Er in Hr. simpl in Hr.
  pose proof (Z.mod_pos_bound r (cn_timeout c) ltac:(lia)).
  assert (0 <= cn_timeout c / 2 <= 40000000) by (Z.div_mod_to_equations; lia).
  destruct (arm_ok now (ar_timers (ts_arp s)) q p (u32 (cn_timeout c / 2 + r mod cn_timeout c)) TO_TCP_HANDSHAKE R Hn)
    as (m & E & R'); [rewrite u32_small by lia; lia|unfold TO_TCP_HANDSHAKE; lia|].
  cbv zeta. change (ar_timers (ts_arp (set_rng (put_conn s p (with_armed c true)) seed))) with (ar_timers (ts_arp s)).
  rewrite E. osimpl. do 2 eexists. split; [reflexivity|]. split; [done|]. split; [done|]. split; [exact R'|].
  apply armed_arm. by left.
Qed.

(** The connection once its SYN is on the way. *)
Definition syn_sent (c : connection) : connection :=
  let c := with_status c CONN_SYN_SENT in
  let c := c <| cn_to_attempts := 0 |> in
  with_armed (c <| cn_timeout := tcp_handshake_to cfg |>) true.

Lemma insert_twice (h : conn_heap) p c c' : <[p := c']> (<[p := c]> h) = <[p := c']> h.
Proof. apply insert_insert_eq. Qed.

(** What the peer reads off a packet of the connection [c]. *)
Abbreviation received s p c fl echo mss b :=
  (control_received cfg eth_addr (mac_of s p) (cn_remote_ip c) (cn_remote_port c) (cn_local_port c)
     (cn_local_seq c) (cn_remote_seq c) fl true echo mss b (sent_opts true mss)).

Lemma arp_done_sends s p c q : cfg_ok -> conn_ok s p c -> ts_conns s !! p = Some c ->
  cn_status c = CONN_ARP_PENDING -> cn_to_armed c = false -> default 0 (ar_status (ts_arp s) !! p) = 0 ->
  Timeout.rep now (ar_timers (ts_arp s)) q -> p ∉ armed q ->
  exists s' b q', tcp_poll_one crc4 crc8 eth_addr cfg tas_shm stamp s p = Ok s' /\
    only_conn s s' p (syn_sent c) /\ sent s' = sent s ++ [b] /\ flows s' = flows s /\
    Timeout.rep now (ar_timers (ts_arp s')) q' /\ p ∈ armed q' /\ received s p c SYN_FLAGS 0 TCP_MSS b.
Proof.
  intros Hcfg Hok Hp Hs Ha Hst R Hn. unfold tcp_poll_one, conn_at. rewrite (get_conn_Ok _ _ _ Hp). osimpl. cbv zeta.
  rewrite Hs, bool_decide_true, Hst, Z.eqb_refl by done. cbn [negb]. unfold conn_arp_done, conn_at.
  rewrite (get_conn_Ok _ _ _ Hp). osimpl.
  match goal with |- context [conn_timeout_arm _ (put_conn s p ?x)] => set (c1 := x) end.
  assert (ts_conns (put_conn s p c1) !! p = Some c1) as Hp1 by by apply lookup_insert_eq.
  destruct (timeout_arm_ok (put_conn s p c1) p c1 q TO_TCP_HANDSHAKE Hp1 Ha R Hn (co_handshake Hcfg))
    as (s1 & q' & -> & (E1 & E2 & E3 & E4 & E5 & E6 & E7 & E8) & En & R' & Hq'). osimpl.
  assert (mac_of s1 p = mac_of s p) as Em by (unfold mac_of; by rewrite E6).
  assert (conn_ok s1 p (with_armed c1 true)) as Hok1 by (destruct Hok; constructor; rewrite ?Em; done).
  destruct (conn_send_ok s1 p (with_armed c1 true) SYN_FLAGS true 0 TCP_MSS Hcfg Hok1) as (b & -> & Hb);
    [by rewrite E1; apply lookup_insert_eq|by vm_compute|by vm_compute|by vm_compute|]. osimpl.
  rewrite Em in Hb. exists (set_nic s1 (mk_rec (sent s1 ++ [b]) (flows s1))), b, q'. split; [reflexivity|].
  unfold sent, flows, nic in *. rewrite En. split; [|done].
  split; [|done]. simpl. rewrite E1. simpl. by rewrite insert_twice.
Qed.

(** ** The listener *)

(** A copy of a received packet, in a longer buffer, reads the same. *)
Lemma parse_copy pcfg peth mac rip rport lport lseq rseq fl echo mss b o buf : word_ok 4 echo ->
  control_received pcfg peth mac rip rport lport lseq rseq fl true echo mss b o ->
  take (length b) buf = b ->
  p_eth (pkt_of_bytes buf) = p_eth (pkt_of_bytes b) /\ p_ip (pkt_of_bytes buf) = p_ip (pkt_of_bytes b) /\
  p_tcp (pkt_of_bytes buf) = p_tcp (pkt_of_bytes b) /\
  parse_options (pkt_of_bytes buf) (Z.of_nat (length b)) = Ok (0, sent_opts true mss) /\
  exists off, opt_ts (sent_opts true mss) = Some off /\ ts_val (p_rest (pkt_of_bytes buf)) off = Ok 0.
Proof.
  intros He R Ht. pose proof (control_optlen_range true mss) as [Hr Hm].
  assert (54 <= length b)%nat as Hl by (pose proof (cr_len _ _ _ _ _ _ _ _ _ _ _ _ _ _ R) as El;
    unfold SIZEOF_PKT_TCP in El; lia).
  assert (length b <= length buf)%nat as Hlb by (rewrite <- Ht at 1; rewrite length_take; lia).
  destruct (headers_take (length b) buf Hl Hlb) as (H1 & H2 & H3). rewrite Ht in H1, H2, H3.
  split_and!; [done|done|done| |].
  - pose proof (cr_len _ _ _ _ _ _ _ _ _ _ _ _ _ _ R) as El. pose proof (cr_hdrlen _ _ _ _ _ _ _ _ _ _ _ _ _ _ R) as Eh.
    unfold parse_options. rewrite H3, Eh, El. rewrite u64_small by (unfold SIZEOF_PKT_TCP; lia).
    replace ((5 + control_optlen true mss / 4) * 4 - 20) with (control_optlen true mss) by (Z.div_mod_to_equations; lia).
    rewrite u16_small by lia. rewrite (proj2 (Z.ltb_ge _ 5)), Z.gtb_ltb, (proj2 (Z.ltb_ge _ _)) by (Z.div_mod_to_equations; lia).
    osimpl.
    assert (p_rest (pkt_of_bytes buf) = option_bytes true echo mss ++ drop (length b) buf) as ->; [|apply walk_option_bytes].
    pose proof (cr_rest _ _ _ _ _ _ _ _ _ _ _ _ _ _ R) as Er. rewrite <- Er. simpl p_rest.
    rewrite <- (take_drop (length b) buf) at 1. rewrite Ht. by rewrite drop_app_le by lia.
  - eexists. split; [reflexivity|].
    assert (p_rest (pkt_of_bytes buf) = option_bytes true echo mss ++ drop (length b) buf) as ->; [|by apply option_bytes_ts].
    pose proof (cr_rest _ _ _ _ _ _ _ _ _ _ _ _ _ _ R) as Er. rewrite <- Er. simpl p_rest.
    rewrite <- (take_drop (length b) buf) at 1. rewrite Ht. by rewrite drop_app_le by lia.
Qed.

(** Congestion control starts. *)
Lemma cc_init_ok (s : host) p c : cfg_ok -> ts_conns s !! p = Some c ->
  exists s' cc, cc_init cfg cur_ts s p = Ok s' /\ only_conn s s' p (upd_cc c cc) /\ ts_arp s' = ts_arp s /\ ts_app s' = ts_app s.
Proof.
  intros Hcfg Hp. unfold cc_init, cc_conn_init. rewrite (get_conn_Ok _ _ _ Hp). osimpl. cbv zeta.
  match goal with |- context [match cc_algorithm cfg with _ => _ end] =>
    match goal with |- context [?m ≫= (fun cc => mret (<[p := upd_cc c cc]> _, _))] =>
      assert (exists cc, m = Ok cc) as [cc ->] end end.
  { destruct (cc_algorithm cfg); try by eexists. unfold dctcp_win_init, window_to_rate, c_div.
    destruct Hcfg. rewrite (proj2 (Z.eqb_neq (tcp_link_bw cfg) 0)) by lia. osimpl.
    rewrite (u32_small (tcp_rtt_init cfg * 1000)) by lia. rewrite bind_assert_true; [by eexists|].
    apply negb_true_iff, Z.eqb_neq. destruct (Z.ltb_spec (u64 (u64 (2 * CONF_MSS * 8) * 1000) / tcp_link_bw cfg / 1000) (tcp_rtt_init cfg * 1000)); lia. }
  osimpl. do 2 eexists. split; [reflexivity|]. done.
Qed.

(** The connection that is accepted, from the one that waited. *)
Definition accepted (c : connection) (y : listener) (pk : pkt_tcp) (cr fg : Z) (cc : connection_cc) (f : Z)
  (nx : option Z) : connection :=
  set_ht_next (with_flow_id (with_status (upd_cc (syn_conn cfg c y pk 0 cr fg) cc) CONN_REG_SYNACK) f) nx.

(** The flow a connection asks the fast path for. *)
Definition conn_flow (c : connection) (mac local_seq : Z) : flow_req :=
  mk_freq (cn_db_id c) mac (cn_local_ip c) (cn_local_port c) (cn_remote_ip c) (cn_remote_port c) (cn_rx c) (cn_tx c)
    (cn_remote_seq c) local_seq (cn_opaque c) (cn_flags c) (cc_rate (cn_cc c)) (cn_flow_group c).

Lemma syn_conn_kept c y pk cr fg : let c' := syn_conn cfg c y pk 0 cr fg in
  ht_next c' = ht_next c /\ cn_local_seq c' = 1 /\ cn_status c' = cn_status c /\ cn_ctx c' = cn_ctx c /\
  cn_rx c' = cn_rx c /\ cn_tx c' = cn_tx c.
Proof. unfold syn_conn. cbv zeta. by destruct (_ =? _). Qed.

Lemma accept_head_runs (s : host) l y q c pk cr fg : cfg_ok ->
  ts_listeners s !! l = Some y -> wait_conns y = Some q -> ts_conns s !! q = Some c ->
  exists s' cc f nx, accept_head crc4 crc8 cfg cur_ts s l y q pk 0 cr fg = Ok s' /\
    ts_conns s' = <[q := accepted c y pk cr fg cc f nx]> (ts_conns s) /\
    ts_listeners s' = <[l := set_wait_conns y (ht_next c)]> (ts_listeners s) /\
    sent s' = sent s /\ mac_of s' q = eth_src (p_eth pk) /\ ar_status (ts_arp s') !! q = Some 0 /\
    ts_ctxs s' = ts_ctxs s /\ ts_apps s' = ts_apps s /\
    flows s' = flows s ++ [conn_flow (accepted c y pk cr fg cc f nx) (eth_src (p_eth pk)) 2].
Proof.
  intros Hcfg Hy Hw Hp. unfold accept_head, conn_at. rewrite (get_conn_Ok _ _ _ Hp). osimpl. cbv zeta.
  set (c1 := syn_conn cfg c y pk 0 cr fg).
  set (s1 := set_arp (put_conn s q c1) _).
  assert (ts_conns s1 !! q = Some c1) as Hp1 by by apply lookup_insert_eq.
  destruct (cc_init_ok s1 q c1 Hcfg Hp1) as (s2 & cc & -> & (E1 & E2 & E3 & E4 & E5 & E6 & E7 & E8) & Ea & Eapp). osimpl.
  assert (ts_conns s2 !! q = Some (upd_cc c1 cc)) as Hp2 by (rewrite E1; by apply lookup_insert_eq).
  rewrite (get_conn_Ok _ _ _ Hp2). osimpl. unfold add_flow, conn_at.
  set (c3 := with_status (upd_cc c1 cc) CONN_REG_SYNACK).
  set (s3 := comp_reset (put_conn s2 q c3) q).
  assert (ts_conns s3 !! q = Some c3) as Hp3 by by apply lookup_insert_eq.
  rewrite (get_conn_Ok _ _ _ Hp3). osimpl. cbn [flow_add recorder_flows]. osimpl.
  match goal with |- context [get_conn (ts_conns ?x) q] => rewrite (get_conn_Ok (ts_conns x) q c3 Hp3) end.
  osimpl. unfold register, conn_register.
  match goal with |- context [get_conn (ts_conns ?x) q] => set (s4 := x) end.
  set (f := Z.of_nat (length (rc_flows (ar_tx (ts_arp s3))))) in s4.
  assert (ts_conns s4 !! q = Some (with_flow_id c3 f)) as Hp4 by by apply lookup_insert_eq.
  rewrite (get_conn_Ok (ts_conns s4) q _ Hp4). osimpl. cbv zeta.
  eexists. exists cc, f, (bucket_head (ts_ht s4) (conn_bucket crc4 crc8 (with_flow_id c3 f))). split; [reflexivity|].
  split_and!.
  - simpl. rewrite !insert_insert_eq, E1. simpl. rewrite !insert_insert_eq. reflexivity.
  - simpl. rewrite E4. simpl. f_equal. f_equal. apply syn_conn_kept.
  - unfold sent, nic. simpl. by rewrite Ea.
  - unfold mac_of. simpl. rewrite Ea. simpl. by rewrite lookup_insert_eq.
  - simpl. by rewrite lookup_insert_eq.
  - simpl. by rewrite E7.
  - simpl. by rewrite E8.
  - unfold flows, nic, conn_flow. simpl. rewrite Ea. simpl. repeat f_equal.
    + unfold mac_of. simpl. rewrite Ea. simpl. by rewrite lookup_insert_eq.
    + replace (cn_local_seq c1) with 1; [done|]. symmetry. apply (syn_conn_kept c y pk cr fg).
Qed.

(** Only the headers of the SYN and the port of the listener matter. *)
Lemma accepted_headers c y y' pk pk' cr fg cc f nx : p_ip pk = p_ip pk' -> p_tcp pk = p_tcp pk' -> li_port y = li_port y' ->
  accepted c y pk cr fg cc f nx = accepted c y' pk' cr fg cc f nx.
Proof. intros E1 E2 E3. unfold accepted, syn_conn. by rewrite E1, E2, E3. Qed.

Lemma syn_whole pcfg peth mac rip rport lport lseq rseq b : syn_from pcfg peth mac rip rport lport lseq rseq b ->
  length b = 70%nat /\ whole b /\ syn_of b = mk_syn b.
Proof.
  intros R. pose proof (cr_len _ _ _ _ _ _ _ _ _ _ _ _ _ _ R) as El. pose proof (cr_iplen _ _ _ _ _ _ _ _ _ _ _ _ _ _ R) as Ei.
  change (SIZEOF_PKT_TCP + control_optlen true TCP_MSS) with 70 in El. unfold SIZEOF_ETH_HDR in Ei.
  split; [lia|]. split; [unfold whole, SIZEOF_ETH_HDR; lia|].
  unfold syn_of, SIZEOF_ETH_HDR. rewrite Ei, El. by rewrite firstn_all2 by lia.
Qed.

(** A step of the listener [l] that accepts, for the waiting connection [q], the
    SYN in [b] of the peer [peth], and leaves [y'] with no SYN. *)
Definition accepts (s s' : host) (l : Z) (y y' : listener) (q : Z) (c : connection) (peth : Z) (b : list Z)
  (cr fg : Z) (cc : connection_cc) (f : Z) (nx : option Z) : Prop :=
  let c' := accepted c y (pkt_of_bytes b) cr fg cc f nx in
  ts_conns s' = <[q := c']> (ts_conns s) /\
  ts_listeners s' = <[l := y']> (ts_listeners s) /\ backlog_rep y' [] /\ wait_conns y' = ht_next c /\
  sent s' = sent s /\ mac_of s' q = peth /\ ar_status (ts_arp s') !! q = Some 0 /\
  ts_ctxs s' = ts_ctxs s /\ ts_apps s' = ts_apps s /\ flows s' = flows s ++ [conn_flow c' peth 2].

(** A SYN in the backlog, and a connection that waits. *)
Lemma listener_accept_syn (s : host) l y q c pcfg peth mac rip rport lport lseq rseq b cr fg : cfg_ok ->
  ts_listeners s !! l = Some y -> backlog_rep y [mk_syn b cr fg] ->
  wait_conns y = Some q -> ts_conns s !! q = Some c ->
  syn_from pcfg peth mac rip rport lport lseq rseq b ->
  exists s' cc f nx y', listener_accept crc4 crc8 cfg cur_ts s l = Ok s' /\ accepts s s' l y y' q c peth b cr fg cc f nx.
Proof.
  intros Hcfg Hy R Hw Hp Hb. unfold listener_accept, listener_at. rewrite Hy. osimpl. rewrite Hw.
  rewrite (br_used _ _ R). cbn [length]. osimpl.
  destruct (rep_pop y [mk_syn b cr fg] R (mk_syn b cr fg) [] eq_refl) as [_ (buf & -> & _ & Ht)]. osimpl.
  cbn [syn_bytes syn_core syn_fg bls_buf bls_len] in *.
  destruct (parse_copy _ _ _ _ _ _ _ _ _ _ _ _ _ buf ltac:(done) Hb Ht) as (E1 & E2 & E3 & -> & off & Eo & Ev).
  cbn [mbind outcome_bind]. rewrite Z.eqb_refl, Eo, Ev. osimpl.
  destruct (accept_head_runs s l y q c (pkt_of_bytes buf) cr fg Hcfg Hy Hw Hp)
    as (s' & cc & f & nx & -> & C1 & C2 & C3 & C4 & C5 & C6 & C7 & C8). osimpl.
  rewrite C2, lookup_insert_eq. osimpl.
  rewrite (accepted_headers _ _ y _ (pkt_of_bytes b)) in C1, C8 by done.
  rewrite E1, (proj2 (cr_macs _ _ _ _ _ _ _ _ _ _ _ _ _ _ Hb)) in C4, C8.
  eexists. exists cc, f, nx, (backlog_pop (set_wait_conns y (ht_next c))). split; [reflexivity|]. unfold accepts.
  split_and!; try done.
  - simpl. by rewrite C2, insert_insert_eq.
  - apply (rep_pop (set_wait_conns y (ht_next c)) [mk_syn b cr fg]) with (x := mk_syn b cr fg); [by destruct R; constructor|done].
Qed.

Lemma listener_takes_syn (s : host) l y q c pcfg peth mac rip rport lport lseq rseq b cr fg : cfg_ok ->
  ts_listeners s !! l = Some y -> backlog_rep y [] -> 0 < backlog_len y ->
  wait_conns y = Some q -> ts_conns s !! q = Some c ->
  syn_from pcfg peth mac rip rport lport lseq rseq b ->
  exists s' cc f nx y', listener_packet crc4 crc8 eth_addr cfg cur_ts s l b (sent_opts true TCP_MSS) cr fg = Ok s' /\
    accepts s s' l y y' q c peth b cr fg cc f nx.
Proof.
  intros Hcfg Hy R Hl Hw Hp Hb. destruct (syn_whole _ _ _ _ _ _ _ _ _ Hb) as (Lb & Wb & Sb).
  unfold listener_packet. cbv zeta. rewrite (cr_flags _ _ _ _ _ _ _ _ _ _ _ _ _ _ Hb).
  change (negb (Z.land SYN_FLAGS (Z.lnot (Z.lor TCP_ECE TCP_CWR)) =? TCP_SYN)) with false. cbn [negb].
  unfold listener_at. rewrite Hy. osimpl.
  destruct (backlog_add_ok y [] R b cr fg Wb) as (r & -> & Hr). rewrite Sb in Hr. unfold spec_add in Hr.
  cbn [syn_bytes existsb app length] in Hr. rewrite Lb in Hr. change (BACKLOG_BUF <? Z.of_nat 70) with false in Hr.
  rewrite (proj2 (Z.eqb_neq (Z.of_nat 0) _)) in Hr by lia.
  destruct Hr as (y1 & -> & R1 & _ & _ & _ & Ey1 & Ew1 & Ep1 & _). osimpl. unfold appif_listen_newconn, listener_at.
  simpl ts_listeners. rewrite lookup_insert_eq. osimpl. cbn [kout_reserve mailbox_queues]. osimpl.
  unfold post_kout. cbn [kout_put kout_kick mailbox_queues]. osimpl. rewrite Ew1, Hw.
  match goal with |- context [listener_accept _ _ _ _ ?x _] => set (s1 := x) end.
  assert (ts_listeners s1 !! l = Some y1) as Hy1 by (by apply lookup_insert_eq). rewrite <- Ew1 in Hw.
  destruct (listener_accept_syn s1 l y1 q c pcfg peth mac rip rport lport lseq rseq b cr fg Hcfg Hy1 R1 Hw Hp Hb)
    as (s' & cc & f & nx & y' & E & C1 & C2 & C3).
  exists s', cc, f, nx, y'. split; [exact E|]. unfold accepts in *. cbv zeta in *.
  rewrite (accepted_headers c y y1 _ (pkt_of_bytes b)) by done. split; [exact C1|]. split; [|exact C3].
  rewrite C2. simpl. by rewrite insert_insert_eq.
Qed.

(** ** The answer *)

Definition SYNACK_FLAGS (c : connection) : Z := Z.lor (Z.lor TCP_SYN TCP_ACK) (ecn_reply c).

Lemma ecn_reply_range c : ecn_reply c = 0 \/ ecn_reply c = TCP_ECE.
Proof. unfold ecn_reply. destruct (has_all _ _); auto. Qed.

(** The message for the application, with the context. *)
Definition told (s s' : host) (ctx : Z) (e : kernel_appin) : Prop :=
  mb_out (ts_app s') = mb_out (ts_app s) ++ [(ctx, e)] /\ mb_kicked (ts_app s') = mb_kicked (ts_app s) ++ [ctx].

Lemma reg_synack_sends (s : host) q c x a : cfg_ok -> conn_ok s q c -> queues_ok c -> word_ok 4 (cn_syn_ts c) ->
  ts_conns s !! q = Some c -> cn_status c = CONN_REG_SYNACK -> default 0 (ar_status (ts_arp s) !! q) = 0 ->
  ts_ctxs s !! cn_ctx c = Some x -> ts_apps s !! ac_app x = Some a ->
  exists s' b e, tcp_poll_one crc4 crc8 eth_addr cfg tas_shm stamp s q = Ok s' /\
    ts_conns s' = <[q := with_app_next (with_status c CONN_OPEN) (ap_conns a)]> (ts_conns s) /\
    sent s' = sent s ++ [b] /\ flows s' = flows s /\ told s s' (cn_ctx c) (AppinAccepted (cn_opaque c) e) /\
    received s q c (SYNACK_FLAGS c) (cn_syn_ts c) TCP_MSS b.
Proof.
  intros Hcfg Hok [Q1 Q2] Hts Hp Hs Hst Hx Ha. unfold tcp_poll_one, conn_at. rewrite (get_conn_Ok _ _ _ Hp). osimpl. cbv zeta.
  rewrite Hs, bool_decide_false by done. rewrite bool_decide_true, Hst, Z.eqb_refl by done. cbn [negb].
  unfold conn_reg_synack, conn_at. rewrite (get_conn_Ok _ _ _ Hp). osimpl.
  set (c1 := with_status c CONN_OPEN). set (s1 := put_conn s q c1).
  assert (ts_conns s1 !! q = Some c1) as Hp1 by by apply lookup_insert_eq.
  assert (conn_ok s1 q c1) as Hok1 by by destruct Hok.
  destruct (conn_send_ok s1 q c1 (SYNACK_FLAGS c) true (cn_syn_ts c) TCP_MSS Hcfg Hok1 Hp1) as (b & Eb & Hb);
    [by unfold SYNACK_FLAGS; destruct (ecn_reply_range c) as [-> | ->]; vm_compute|done|by vm_compute|].
  unfold SYNACK_FLAGS in Eb. rewrite Eb. osimpl. clear Eb.
  set (s2 := set_nic s1 _). unfold appif_accept_conn, conn_at.
  assert (ts_conns s2 !! q = Some c1) as Hp2 by exact Hp1.
  rewrite (get_conn_Ok _ _ _ Hp2). osimpl. unfold ctx_at. change (ts_ctxs s2 !! cn_ctx c1) with (ts_ctxs s !! cn_ctx c). rewrite Hx. osimpl.
  cbn [kout_reserve mailbox_queues]. osimpl. unfold queue_off.
  change (self (cn_rx c1)) with (self (cn_rx c)). change (self (cn_tx c1)) with (self (cn_tx c)).
  rewrite Q1, Q2, !Z.eqb_refl. osimpl. unfold app_at.
  match goal with |- context [ts_apps ?y !! ac_app x] => change (ts_apps y) with (ts_apps s) end. rewrite Ha. osimpl.
  do 3 eexists. split; [reflexivity|]. split; [simpl; by rewrite insert_insert_eq|]. split; [done|]. split; [done|].
  split; [done|exact Hb].
Qed.

(** The SYN that a client sends again, because the answer was lost, is ignored:
    its flags are compared with [TCP_SYN] alone, and it asks for ECN. *)
Lemma syn_retransmit_ignored (s : host) q c opts pcfg peth mac rip rport lport lseq rseq b cr fg :
  ts_conns s !! q = Some c -> cn_status c = CONN_OPEN -> syn_from pcfg peth mac rip rport lport lseq rseq b ->
  conn_packet crc4 crc8 eth_addr cfg tas_shm cur_ts s q (pkt_of_bytes b) opts cr fg = Ok s.
Proof.
  intros Hq Hs Hb. unfold conn_packet, conn_at. rewrite (get_conn_Ok _ _ _ Hq). osimpl. cbv zeta.
  by rewrite Hs, (cr_flags _ _ _ _ _ _ _ _ _ _ _ _ _ _ Hb).
Qed.

(** ** The client gets the answer *)

(** The connection once the answer [pk] has come, and once its flow is there. *)
Definition answered (c : connection) (pk : pkt_tcp) (cr fg : Z) : connection :=
  let c := c <| cn_fn_core := cr |> in
  let c := c <| cn_flow_group := fg |> in
  let c := with_armed c false in
  let c := c <| cn_remote_seq := u32 (tcp_seqno (p_tcp pk) + 1) |> in
  let c := c <| cn_local_seq := tcp_ackno (p_tcp pk) |> in
  let c := c <| cn_syn_ts := 0 |> in
  if Z.land (TCPH_FLAGS (p_tcp pk)) (Z.lor TCP_ECE TCP_CWR) =? TCP_ECE
  then c <| cn_flags := Z.lor (cn_flags c) NICIF_CONN_ECN |> else c.
Definition opened (c : connection) (pk : pkt_tcp) (cr fg : Z) (cc : connection_cc) (f : Z) : connection :=
  with_status (with_flow_id (upd_cc (answered c pk cr fg) cc) f) CONN_OPEN.

Lemma answered_kept c pk cr fg : let c' := answered c pk cr fg in
  cn_remote_ip c' = cn_remote_ip c /\ cn_remote_port c' = cn_remote_port c /\ cn_local_port c' = cn_local_port c /\
  cn_local_ip c' = cn_local_ip c /\ cn_local_seq c' = tcp_ackno (p_tcp pk) /\
  cn_remote_seq c' = u32 (tcp_seqno (p_tcp pk) + 1) /\ cn_syn_ts c' = 0 /\ cn_ctx c' = cn_ctx c /\
  cn_opaque c' = cn_opaque c /\ cn_rx c' = cn_rx c /\ cn_tx c' = cn_tx c.
Proof. unfold answered. cbv zeta. by destruct (_ =? _). Qed.

Lemma synack_opens (s : host) p c qt pcfg peth mac rip rport lport lseq rseq fl echo b cr fg : cfg_ok -> conn_ok s p c -> queues_ok c ->
  ts_conns s !! p = Some c -> cn_status c = CONN_SYN_SENT -> cn_to_armed c = true ->
  Timeout.rep now (ar_timers (ts_arp s)) qt -> p ∈ armed qt ->
  word_ok 4 rseq -> has_all fl (Z.lor TCP_SYN TCP_ACK) = true ->
  control_received pcfg peth mac rip rport lport lseq rseq fl true echo TCP_MSS b (sent_opts true TCP_MSS) ->
  exists s' cc f ack e, conn_packet crc4 crc8 eth_addr cfg tas_shm cur_ts s p (pkt_of_bytes b) (sent_opts true TCP_MSS) cr fg = Ok s' /\
    let c' := opened c (pkt_of_bytes b) cr fg cc f in
    ts_conns s' = <[p := c']> (ts_conns s) /\
    sent s' = sent s ++ [ack] /\ flows s' = flows s ++ [conn_flow c' (mac_of s p) rseq] /\
    told s s' (cn_ctx c) (AppinConnOpened (cn_opaque c) e) /\
    received s p c' TCP_ACK 0 0 ack.
Proof.
  intros Hcfg Hok [Q1 Q2] Hp Hs Ha R Hin Hrs Hfl Hb.
  unfold conn_packet, conn_at. rewrite (get_conn_Ok _ _ _ Hp). osimpl. cbv zeta.
  rewrite Hs, bool_decide_true by done. unfold conn_syn_sent_packet, conn_timeout_disarm, conn_at.
  match goal with |- context [get_conn (ts_conns (put_conn s p ?x))] => set (c1 := x) end.
  set (s1 := put_conn s p c1). assert (ts_conns s1 !! p = Some c1) as Hp1 by by apply lookup_insert_eq.
  rewrite (get_conn_Ok _ _ _ Hp1). osimpl. change (cn_to_armed c1) with (cn_to_armed c). rewrite Ha. osimpl.
  destruct (disarm_ok now (ar_timers (ts_arp s)) qt p R Hin) as (m & Em & _). change (ts_arp (put_conn s1 p (with_armed c1 false))) with (ts_arp s).
  rewrite Em. osimpl. pose proof (cr_flags _ _ _ _ _ _ _ _ _ _ _ _ _ _ Hb) as Ef. rewrite Ef, Hfl. cbn [negb].
  destruct (cr_ts _ _ _ _ _ _ _ _ _ _ _ _ _ _ Hb) as (off & -> & -> & _).
  set (s2 := set_timers (put_conn s1 p (with_armed c1 false)) m).
  assert (ts_conns s2 !! p = Some (with_armed c1 false)) as Hp2 by by apply lookup_insert_eq.
  rewrite (get_conn_Ok (ts_conns s2) p _ Hp2). osimpl.
  match goal with |- context [cc_init _ _ (put_conn s2 p ?x) p] => replace x with (answered c (pkt_of_bytes b) cr fg) by (unfold answered; rewrite Ef; reflexivity) end.
  set (c3 := answered c (pkt_of_bytes b) cr fg). set (s3 := put_conn s2 p c3).
  assert (ts_conns s3 !! p = Some c3) as Hp3 by by apply lookup_insert_eq.
  destruct (cc_init_ok s3 p c3 Hcfg Hp3) as (s4 & cc & -> & (E1 & E2 & E3 & E4 & E5 & E6 & E7 & E8) & Earp & Eapp). osimpl.
  assert (ts_conns (comp_reset s4 p) !! p = Some (upd_cc c3 cc)) as Hp4 by (change (ts_conns s4 !! p = Some (upd_cc c3 cc)); rewrite E1; by apply lookup_insert_eq).
  set (s5 := comp_reset s4 p) in *. 
  rewrite (get_conn_Ok (ts_conns s5) p _ Hp4). osimpl. unfold add_flow, conn_at.
  rewrite (get_conn_Ok (ts_conns s5) p _ Hp4). osimpl. cbn [flow_add recorder_flows]. osimpl.
  match goal with |- context [get_conn (ts_conns ?x) p] => rewrite (get_conn_Ok (ts_conns x) p _ Hp4) end. osimpl.
  set (f := Z.of_nat (length (rc_flows (ar_tx (ts_arp s5))))).
  match goal with |- context [conn_send _ _ ?x p] => set (s6 := x) end.
  set (c6 := opened c (pkt_of_bytes b) cr fg cc f).
  assert (ts_conns s6 !! p = Some c6) as Hp6 by by apply lookup_insert_eq.
  destruct (answered_kept c (pkt_of_bytes b) cr fg) as (K1 & K2 & K3 & K4 & K5 & K6 & K7 & K8 & K9 & K10 & K11).
  fold c3 in K1, K2, K3, K4, K5, K6, K7, K8, K9, K10, K11.
  assert (mac_of s6 p = mac_of s p) as Emac by (unfold mac_of; simpl; by rewrite E6).
  destruct (cr_seqs _ _ _ _ _ _ _ _ _ _ _ _ _ _ Hb) as [_ Eack]. rewrite Eack in K5.
  assert (conn_ok s6 p c6) as Hok6.
  { destruct Hok. constructor; rewrite ?Emac; try done; unfold c6, opened; simpl; fold c3; 
      rewrite ?K1, ?K2, ?K3, ?K5, ?K6; try done. apply u32_range. }
  destruct (conn_send_ok s6 p c6 TCP_ACK true 0 0 Hcfg Hok6 Hp6) as (ack & Eb & Hack); [by vm_compute|done|by vm_compute|].
  change (cn_syn_ts (upd_cc c3 cc)) with (cn_syn_ts c3). rewrite K7, Eb. osimpl. clear Eb.
  match goal with |- context [appif_conn_opened _ _ ?x p] => set (s7 := x) end. unfold appif_conn_opened, conn_at.
  rewrite (get_conn_Ok (ts_conns s7) p c6 Hp6). osimpl. cbn [kout_reserve mailbox_queues]. osimpl.
  unfold queue_off. change (cn_rx c6) with (cn_rx c3). change (cn_tx c6) with (cn_tx c3). rewrite K10, K11.
  rewrite Q1, Q2, !Z.eqb_refl. osimpl. unfold post_kout. cbn [kout_put kout_kick mailbox_queues]. osimpl.
  eexists. exists cc, f, ack. eexists. split; [reflexivity|]. rewrite Emac in Hack. split_and!; [| | | |exact Hack].
  - simpl. rewrite E1. simpl. by rewrite !insert_insert_eq.
  - unfold sent, nic. simpl. unfold sent, nic. simpl. by rewrite Earp.
  - assert (mac_of s5 p = mac_of s p) as Em5 by exact Emac.
    unfold flows, nic. simpl. unfold flows, nic, conn_flow, s6. simpl. rewrite Em5. fold c3. rewrite K5. simpl. by rewrite Earp.
  - rewrite <- K8, <- K9. unfold told. simpl. rewrite Eapp. split; reflexivity.
Qed.

(** ** Dispatch *)

Lemma accepted_kept c y pk cr fg cc f nx : let c' := accepted c y pk cr fg cc f nx in
  cn_remote_ip c' = ip_src (p_ip pk) /\ cn_remote_port c' = tcp_src (p_tcp pk) /\ cn_local_port c' = li_port y /\
  cn_local_ip c' = cf_ip cfg /\ cn_local_seq c' = 1 /\ cn_remote_seq c' = u32 (tcp_seqno (p_tcp pk) + 1) /\
  cn_syn_ts c' = 0 /\ cn_ctx c' = cn_ctx c /\ cn_status c' = CONN_REG_SYNACK /\
  cn_rx c' = cn_rx c /\ cn_tx c' = cn_tx c /\
  (TCPH_FLAGS (p_tcp pk) = SYN_FLAGS -> cn_flags c' = Z.lor (cn_flags c) NICIF_CONN_ECN).
Proof.
  unfold accepted, syn_conn. cbv zeta. split_and!; try (by destruct (_ =? _)). by intros ->.
Qed.

(** A packet for the only connection with its port goes to that connection. *)
Lemma packet_finds_conn (s s' : host) p c tbl waits pcfg peth mac rport lport lseq rseq fl echo b cr fg :
  tcp_inv crc4 crc8 None s tbl waits -> ts_conns s !! p = Some c -> cn_status c = CONN_SYN_SENT ->
  cn_local_ip c = cf_ip cfg -> cn_remote_ip c = cf_ip pcfg -> cn_local_port c = rport -> cn_remote_port c = lport ->
  (forall p' c', ts_conns s !! p' = Some c' -> cn_local_port c' = rport -> p' = p) ->
  control_received pcfg peth mac (cf_ip cfg) rport lport lseq rseq fl true echo TCP_MSS b (sent_opts true TCP_MSS) ->
  conn_packet crc4 crc8 eth_addr cfg tas_shm cur_ts s p (pkt_of_bytes b) (sent_opts true TCP_MSS) cr fg = Ok s' ->
  tcp_packet crc4 crc8 eth_addr cfg tas_shm cur_ts s b (Z.of_nat (length b)) cr fg = Ok (0, s').
Proof.
  intros I Hp Hs Hli Hri Hlp Hrp Hone Hb E. unfold tcp_packet. cbv zeta.
  rewrite (cr_len _ _ _ _ _ _ _ _ _ _ _ _ _ _ Hb), (proj2 (Z.ltb_ge _ _)) by by vm_compute.
  destruct (cr_ips _ _ _ _ _ _ _ _ _ _ _ _ _ _ Hb) as [Ed Es]. destruct (cr_ports _ _ _ _ _ _ _ _ _ _ _ _ _ _ Hb) as [Edp Esp].
  rewrite Ed, Z.eqb_refl. cbn [negb].
  rewrite <- (cr_len _ _ _ _ _ _ _ _ _ _ _ _ _ _ Hb), (cr_parse _ _ _ _ _ _ _ _ _ _ _ _ _ _ Hb). osimpl.
  assert (conn_matches (pkt_of_bytes b) c = true) as Hm
    by (unfold conn_matches; rewrite Es, Edp, Esp, Hri, Hlp, Hrp, !Z.eqb_refl; done).
  destruct (conn_lookup_ok crc4 crc8 _ _ _ (pkt_of_bytes b) (ti_table _ _ _ _ _ _ I)) as (r & -> & Hr). osimpl.
  destruct r as [p'|].
  - destruct Hr as (c' & Hp' & _ & Hm'). assert (p' = p) as ->; [|by rewrite E].
    apply (Hone p' c' Hp'). unfold conn_matches in Hm'. apply andb_prop in Hm' as [[_ Hx]%andb_prop _].
    apply Z.eqb_eq in Hx. congruence.
  - exfalso. apply (Hr p c Hp); [|split; [by rewrite Ed, Hli|done]].
    destruct (ti_all _ _ _ _ _ _ I p c Hp) as [Hin|(l & Hl)]; [done|by rewrite Hs|done|].
    exfalso. destruct (ti_wait _ _ _ _ _ _ I l p c Hl Hp) as [Hx|Hx]; congruence.
Qed.

(** A packet for no connection goes to the listener of its port. *)
Lemma packet_finds_listener (s s' : host) l tbl waits pcfg peth mac rport lport lseq rseq fl echo b cr fg :
  tcp_inv crc4 crc8 None s tbl waits -> port_at (ts_ports s) rport = PORT_TYPE_LISTEN l ->
  (forall q c, ts_conns s !! q = Some c -> cn_status c <> CONN_SYN_WAIT -> cn_remote_ip c = cf_ip pcfg ->
     cn_local_port c = rport -> cn_remote_port c <> lport) ->
  control_received pcfg peth mac (cf_ip cfg) rport lport lseq rseq fl true echo TCP_MSS b (sent_opts true TCP_MSS) ->
  listener_packet crc4 crc8 eth_addr cfg cur_ts s l b (sent_opts true TCP_MSS) cr fg = Ok s' ->
  tcp_packet crc4 crc8 eth_addr cfg tas_shm cur_ts s b (Z.of_nat (length b)) cr fg = Ok (0, s').
Proof.
  intros I Hport Hno Hb E. unfold tcp_packet. cbv zeta.
  rewrite (cr_len _ _ _ _ _ _ _ _ _ _ _ _ _ _ Hb), (proj2 (Z.ltb_ge _ _)) by by vm_compute.
  destruct (cr_ips _ _ _ _ _ _ _ _ _ _ _ _ _ _ Hb) as [Ed Es]. destruct (cr_ports _ _ _ _ _ _ _ _ _ _ _ _ _ _ Hb) as [Edp Esp].
  rewrite Ed, Z.eqb_refl. cbn [negb].
  rewrite <- (cr_len _ _ _ _ _ _ _ _ _ _ _ _ _ _ Hb), (cr_parse _ _ _ _ _ _ _ _ _ _ _ _ _ _ Hb). osimpl.
  destruct (conn_lookup_ok crc4 crc8 _ _ _ (pkt_of_bytes b) (ti_table _ _ _ _ _ _ I)) as (r & -> & Hr). osimpl.
  destruct r as [q|].
  - exfalso. destruct Hr as (c & Hq & Hin & Hm). unfold conn_matches in Hm.
    apply andb_prop in Hm as [[H1 H2]%andb_prop H3]. apply Z.eqb_eq in H1, H2, H3. rewrite Es in H1. rewrite Edp in H2. rewrite Esp in H3.
    apply (Hno q c Hq); try done. intros Hw. pose proof (ti_reg _ _ _ _ _ _ I _ q c Hin Hq) as Hst. unfold st_registered in Hst.
    rewrite Hw in Hst. by destruct Hst as [|[|[|[|]]]].
  - unfold listener_lookup. rewrite Edp, Hport. osimpl. by rewrite E.
Qed.

End Host.

(** ** The three-way handshake *)

(** The flows of the two sides describe the same connection: each has the other's
    address and the sequence number the other starts with, and both use ECN. *)
Definition flows_agree (eth_c eth_s : Z) (f g : flow_req) : Prop :=
  fr_mac_remote f = eth_s /\ fr_mac_remote g = eth_c /\
  fr_ip_local f = fr_ip_remote g /\ fr_ip_remote f = fr_ip_local g /\
  fr_port_local f = fr_port_remote g /\ fr_port_remote f = fr_port_local g /\
  fr_remote_seq f = fr_local_seq g /\ fr_local_seq f = fr_remote_seq g /\
  has_all (fr_flags f) NICIF_CONN_ECN = true /\ has_all (fr_flags g) NICIF_CONN_ECN = true.

Section Two.
Context `{Checksums}.
Context (crc4 : Z -> Z -> Z) (crc8 : Z -> Z -> Z).
(** The client and the server: their cards, configurations and memory. *)
Context (eth_c eth_s : Z) (cfg_c cfg_s : configuration) (shm_c shm_s now_c now_s ts_c ts_s : Z).

(** A connection of the client whose peer's address has been resolved; its timer
    is free, and no other connection has its port. *)
Record client_ready (s : host) (p : Z) (c : connection) (q : tqueue) : Prop := {
  cl_inv : exists tbl waits, tcp_inv crc4 crc8 None s tbl waits;
  cl_conn : ts_conns s !! p = Some c;
  cl_status : cn_status c = CONN_ARP_PENDING;
  cl_resolved : default 0 (ar_status (ts_arp s) !! p) = 0;
  cl_mac : mac_of s p = eth_s;
  cl_ok : conn_ok s p c;
  cl_queues : queues_ok c;
  cl_lip : cn_local_ip c = cf_ip cfg_c;
  cl_rip : cn_remote_ip c = cf_ip cfg_s;
  cl_one : forall p' c', ts_conns s !! p' = Some c' -> cn_local_port c' = cn_local_port c -> p' = p;
  cl_disarmed : cn_to_armed c = false;
  cl_timers : Timeout.rep now_c (ar_timers (ts_arp s)) q;
  cl_timer : p ∉ armed q;
}.

(** A server that listens to the port [rport], with the connection [d] waiting,
    and no connection with the client's [lport]. *)
Record server_ready (s : host) (l : Z) (y : listener) (q : Z) (d : connection) (rport lport : Z) : Prop := {
  sv_inv : exists tbl waits, tcp_inv crc4 crc8 None s tbl waits;
  sv_port : port_at (ts_ports s) rport = PORT_TYPE_LISTEN l;
  sv_listener : ts_listeners s !! l = Some y;
  sv_li_port : li_port y = rport;
  sv_backlog : backlog_rep y [];
  sv_room : 0 < backlog_len y;
  sv_waits : wait_conns y = Some q;
  sv_conn : ts_conns s !! q = Some d;
  sv_queues : queues_ok d;
  sv_ctx : exists x a, ts_ctxs s !! cn_ctx d = Some x /\ ts_apps s !! ac_app x = Some a;
  sv_none : forall q' c', ts_conns s !! q' = Some c' -> cn_status c' <> CONN_SYN_WAIT ->
    cn_remote_ip c' = cf_ip cfg_c -> cn_local_port c' = rport -> cn_remote_port c' <> lport;
}.

(** The SYN leaves the client. *)
Lemma client_syn s p c q : cfg_ok eth_c cfg_c -> client_ready s p c q -> exists s1 b q1,
  tcp_poll_one crc4 crc8 eth_c cfg_c shm_c (now_c mod PERIOD) s p = Ok s1 /\
  only_conn s s1 p (syn_sent cfg_c c) /\ sent s1 = sent s ++ [b] /\ flows s1 = flows s /\
  Timeout.rep now_c (ar_timers (ts_arp s1)) q1 /\ p ∈ armed q1 /\
  (exists tbl waits, tcp_inv crc4 crc8 None s1 tbl waits) /\
  syn_from cfg_c eth_c eth_s (cf_ip cfg_s) (cn_remote_port c) (cn_local_port c) (cn_local_seq c) (cn_remote_seq c) b.
Proof.
  intros Hcfg [(tbl & waits & I) ? ? ? <- ? ? ? <- ? ? ? ?].
  destruct (arp_done_sends crc4 crc8 eth_c cfg_c shm_c now_c s p c q) as (s1 & b & q1 & E & ? & ? & ? & ? & ? & Hb); try done.
  exists s1, b, q1. split_and!; try done. eapply tcp_poll_one_ok; [exact I|done| |exact E]. congruence.
Qed.

(** What the server makes of it: a connection [d1] for the peer, and its flow. *)
Record registered_for (s s1 : host) (q : Z) (d d1 : connection) (g : flow_req) (rport lport lseq : Z) : Prop := {
  rf_conn : ts_conns s1 !! q = Some d1;
  rf_status : cn_status d1 = CONN_REG_SYNACK;
  rf_resolved : ar_status (ts_arp s1) !! q = Some 0;
  rf_mac : mac_of s1 q = eth_c;
  rf_addr : cn_remote_ip d1 = cf_ip cfg_c /\ cn_remote_port d1 = lport /\ cn_local_port d1 = rport;
  rf_seqs : cn_local_seq d1 = 1 /\ cn_remote_seq d1 = u32 (lseq + 1) /\ cn_syn_ts d1 = 0;
  rf_same : cn_ctx d1 = cn_ctx d /\ cn_rx d1 = cn_rx d /\ cn_tx d1 = cn_tx d;
  rf_ecn : has_all (cn_flags d1) NICIF_CONN_ECN = true;
  rf_sent : sent s1 = sent s;
  rf_apps : ts_ctxs s1 = ts_ctxs s /\ ts_apps s1 = ts_apps s;
  rf_flows : flows s1 = flows s ++ [g];
  rf_flow : fr_mac_remote g = eth_c /\ fr_ip_local g = cf_ip cfg_s /\ fr_ip_remote g = cf_ip cfg_c /\
    fr_port_local g = rport /\ fr_port_remote g = lport /\ fr_remote_seq g = u32 (lseq + 1) /\ fr_local_seq g = 2 /\
    has_all (fr_flags g) NICIF_CONN_ECN = true;
}.

Lemma has_all_lor x m : has_all (Z.lor x m) m = true.
Proof.
  unfold has_all. apply Z.eqb_eq, Z.bits_inj'. intros i _. rewrite Z.land_spec, Z.lor_spec.
  by destruct (Z.testbit x i), (Z.testbit m i).
Qed.

Lemma server_syn s l y q d rport lport lseq rseq b cr fg : cfg_ok eth_s cfg_s -> server_ready s l y q d rport lport ->
  syn_from cfg_c eth_c eth_s (cf_ip cfg_s) rport lport lseq rseq b ->
  exists s1 d1 g, tcp_packet crc4 crc8 eth_s cfg_s shm_s ts_s s b (Z.of_nat (length b)) cr fg = Ok (0, s1) /\
    registered_for s s1 q d d1 g rport lport lseq.
Proof.
  intros Hcfg [(tbl & waits & I) Hport Hy Ep R Hroom Hw Hq _ _ Hno] Hb.
  destruct (listener_takes_syn crc4 crc8 eth_s cfg_s ts_s s l y q d _ _ _ _ _ _ _ _ b cr fg Hcfg Hy R Hroom Hw Hq Hb)
    as (s1 & cc & f & nx & y' & E1 & C1 & _ & _ & _ & C2 & C3 & C4 & C5 & C6 & C7).
  pose proof (packet_finds_listener crc4 crc8 eth_s cfg_s shm_s ts_s s s1 l tbl waits _ _ _ _ _ _ _ _ _ b cr fg I Hport Hno Hb E1) as P1.
  pose proof (accepted_kept cfg_s d y (pkt_of_bytes b) cr fg cc f nx) as K. cbv zeta in K.
  set (d1 := accepted cfg_s d y (pkt_of_bytes b) cr fg cc f nx) in *. clearbody d1.
  destruct K as (K1 & K2 & K3 & K4 & K5 & K6 & K7 & K8 & K9 & K10 & K11 & K12).
  destruct (cr_ips _ _ _ _ _ _ _ _ _ _ _ _ _ _ Hb) as [_ Es]. rewrite Es in K1.
  destruct (cr_ports _ _ _ _ _ _ _ _ _ _ _ _ _ _ Hb) as [_ Esp]. rewrite Esp in K2. rewrite Ep in K3.
  destruct (cr_seqs _ _ _ _ _ _ _ _ _ _ _ _ _ _ Hb) as [Eseq _]. rewrite Eseq in K6.
  specialize (K12 (cr_flags _ _ _ _ _ _ _ _ _ _ _ _ _ _ Hb)).
  assert (has_all (cn_flags d1) NICIF_CONN_ECN = true) as Hecn by (rewrite K12; apply has_all_lor).
  exists s1, d1, (conn_flow d1 eth_c 2). split; [exact P1|]. constructor; try assumption.
  - rewrite C1. apply lookup_insert_eq.
  - by split.
  - by split.
  - by split.
  - by split.
  - unfold conn_flow. cbn [fr_mac_remote fr_ip_local fr_ip_remote fr_port_local fr_port_remote fr_remote_seq fr_local_seq fr_flags].
    split_and!; (reflexivity || assumption).
Qed.

(** The server answers. *)
Abbreviation SYNACK_ECE := (Z.lor (Z.lor TCP_SYN TCP_ACK) TCP_ECE).

Lemma server_synack s s1 l y q d d1 g rport lport lseq : cfg_ok eth_s cfg_s -> cfg_ok eth_c cfg_c ->
  word_ok 2 rport -> word_ok 2 lport -> server_ready s l y q d rport lport ->
  registered_for s s1 q d d1 g rport lport lseq ->
  exists s2 d2 b2 e, tcp_poll_one crc4 crc8 eth_s cfg_s shm_s (now_s mod PERIOD) s1 q = Ok s2 /\
    ts_conns s2 !! q = Some d2 /\ cn_status d2 = CONN_OPEN /\
    sent s2 = sent s ++ [b2] /\ flows s2 = flows s ++ [g] /\ told s1 s2 (cn_ctx d) (AppinAccepted (cn_opaque d2) e) /\
    control_received cfg_s eth_s eth_c (cf_ip cfg_c) lport rport 1 (u32 (lseq + 1))
      SYNACK_ECE true 0 TCP_MSS b2 (sent_opts true TCP_MSS).
Proof.
  intros Hcfg Hcfgc Hrp Hlp [_ _ _ _ _ _ _ _ Hqs (x & a & Hx & Ha) _] [].
  destruct rf_addr0 as (K1 & K2 & K3), rf_seqs0 as (K5 & K6 & K7), rf_same0 as (K8 & K10 & K11), rf_apps0 as (C5 & C6).
  assert (conn_ok s1 q d1) as Hok1.
  { constructor; rewrite ?rf_mac0, ?K1, ?K2, ?K3, ?K5, ?K6; try assumption; try apply Hcfgc; [by vm_compute|apply u32_range]. }
  destruct (reg_synack_sends crc4 crc8 eth_s cfg_s shm_s now_s s1 q d1 x a Hcfg Hok1) as (s2 & b2 & e & E2 & D1 & D2 & D3 & D4 & D5);
    try assumption.
  - unfold queues_ok. by rewrite K10, K11.
  - by rewrite K7.
  - by rewrite rf_resolved0.
  - by rewrite C5, K8.
  - by rewrite C6.
  - rewrite rf_mac0, K1, K2, K3, K5, K6, K7 in D5. unfold SYNACK_FLAGS, ecn_reply in D5. rewrite rf_ecn0 in D5.
    rewrite K8 in D4. exists s2. eexists. exists b2, e. split; [exact E2|].
    split; [rewrite D1; apply lookup_insert_eq|]. split; [reflexivity|]. split; [by rewrite D2, rf_sent0|].
    split; [by rewrite D3|]. split; [exact D4|exact D5].
Qed.

(** The client gets the answer, and acknowledges. *)
Lemma client_synack s s1 p c q q1 ack cr fg b : cfg_ok eth_c cfg_c -> client_ready s p c q ->
  only_conn s s1 p (syn_sent cfg_c c) -> Timeout.rep now_c (ar_timers (ts_arp s1)) q1 -> p ∈ armed q1 ->
  (exists tbl waits, tcp_inv crc4 crc8 None s1 tbl waits) -> word_ok 4 ack ->
  control_received cfg_s eth_s eth_c (cf_ip cfg_c) (cn_local_port c) (cn_remote_port c) 1 ack
    SYNACK_ECE true 0 TCP_MSS b (sent_opts true TCP_MSS) ->
  exists s2 c2 b2 e f,
    tcp_packet crc4 crc8 eth_c cfg_c shm_c ts_c s1 b (Z.of_nat (length b)) cr fg = Ok (0, s2) /\
    ts_conns s2 !! p = Some c2 /\ cn_status c2 = CONN_OPEN /\
    sent s2 = sent s1 ++ [b2] /\ flows s2 = flows s1 ++ [f] /\ told s1 s2 (cn_ctx c) (AppinConnOpened (cn_opaque c) e) /\
    control_received cfg_c eth_c eth_s (cf_ip cfg_s) (cn_remote_port c) (cn_local_port c) ack 2
      TCP_ACK true 0 0 b2 (sent_opts true 0) /\
    fr_mac_remote f = eth_s /\ fr_ip_local f = cf_ip cfg_c /\ fr_ip_remote f = cf_ip cfg_s /\
    fr_port_local f = cn_local_port c /\ fr_port_remote f = cn_remote_port c /\ fr_remote_seq f = 2 /\
    fr_local_seq f = ack /\ has_all (fr_flags f) NICIF_CONN_ECN = true.
Proof.
  intros Hcfg [_ Hp Hs _ Emac Hok Hqs Hli Hri Hone _ _ _] (E1 & _ & _ & _ & _ & E6 & _ & _) R Hin (tbl & waits & I) Hack Hb.
  set (c1 := syn_sent cfg_c c) in *.
  assert (ts_conns s1 !! p = Some c1) as Hp1 by (rewrite E1; apply lookup_insert_eq).
  assert (mac_of s1 p = eth_s) as Emac1 by (unfold mac_of in *; by rewrite E6).
  assert (conn_ok s1 p c1) as Hok1 by (destruct Hok; constructor; rewrite ?Emac1, <- ?Emac; assumption).
  destruct (synack_opens crc4 crc8 eth_c cfg_c shm_c now_c ts_c s1 p c1 q1 _ _ _ _ _ _ _ _ SYNACK_ECE _ b cr fg Hcfg Hok1 Hqs Hp1
    eq_refl eq_refl R Hin Hack eq_refl Hb) as (s2 & cc & f & b2 & e & E & D1 & D2 & D3 & D4 & D5).
  pose proof (answered_kept c1 (pkt_of_bytes b) cr fg) as K. cbv zeta in K.
  assert (has_all (cn_flags (answered c1 (pkt_of_bytes b) cr fg)) NICIF_CONN_ECN = true) as Hecn.
  { unfold answered. rewrite (cr_flags _ _ _ _ _ _ _ _ _ _ _ _ _ _ Hb). apply has_all_lor. }
  unfold opened in D1, D3, D5. set (c2 := answered c1 (pkt_of_bytes b) cr fg) in *. clearbody c2.
  destruct K as (K1 & K2 & K3 & K4 & K5 & K6 & K7 & K8 & K9 & _).
  destruct (cr_seqs _ _ _ _ _ _ _ _ _ _ _ _ _ _ Hb) as [Eseq Eack]. rewrite Eseq in K6. rewrite Eack in K5.
  exists s2. eexists. exists b2, e. eexists. split.
  { refine (packet_finds_conn crc4 crc8 eth_c cfg_c shm_c ts_c s1 s2 p c1 tbl waits cfg_s eth_s eth_c _ _ _ _ _ _ b cr fg
      I Hp1 eq_refl Hli Hri eq_refl eq_refl _ Hb E).
    intros p' c'. rewrite E1. destruct (decide (p' = p)) as [|Hne]; [done|]. rewrite lookup_insert_ne by done. apply Hone. }
  split; [rewrite D1; apply lookup_insert_eq|]. split; [reflexivity|]. split; [exact D2|]. split; [exact D3|]. split; [exact D4|].
  split; [|unfold conn_flow; simpl; by rewrite ?K1, ?K2, ?K3, ?K4, ?K6].
  rewrite Emac1 in D5. simpl in D5. rewrite K1, K2, K3, K5, K6 in D5. simpl in D5. rewrite Hri in D5. exact D5.
Qed.

(** C5. The three-way handshake: when a client whose peer is resolved sends its
    SYN, the server that listens takes it for its waiting connection and
    answers, and the client takes the answer, then both connections are open,
    both applications are told, the flows the two slow paths register with their
    fast paths agree on addresses, ports, sequence numbers and ECN, and the last
    packet acknowledges the sequence number the server's flow starts with. *)
Theorem handshake_agrees s_c p c qt s_s l y q d cr_c fg_c cr_s fg_s : cfg_ok eth_c cfg_c -> cfg_ok eth_s cfg_s ->
  client_ready s_c p c qt -> server_ready s_s l y q d (cn_remote_port c) (cn_local_port c) ->
  exists c1 c2 c_end s1 s2 s_end b1 b2 b3 e_c e_s f g,
    tcp_poll_one crc4 crc8 eth_c cfg_c shm_c (now_c mod PERIOD) s_c p = Ok c1 /\ sent c1 = sent s_c ++ [b1] /\
    tcp_packet crc4 crc8 eth_s cfg_s shm_s ts_s s_s b1 (Z.of_nat (length b1)) cr_s fg_s = Ok (0, s1) /\
    tcp_poll_one crc4 crc8 eth_s cfg_s shm_s (now_s mod PERIOD) s1 q = Ok s2 /\ sent s2 = sent s_s ++ [b2] /\
    tcp_packet crc4 crc8 eth_c cfg_c shm_c ts_c c1 b2 (Z.of_nat (length b2)) cr_c fg_c = Ok (0, c2) /\
    sent c2 = sent c1 ++ [b3] /\
    ts_conns c2 !! p = Some c_end /\ cn_status c_end = CONN_OPEN /\
    ts_conns s2 !! q = Some s_end /\ cn_status s_end = CONN_OPEN /\
    told c1 c2 (cn_ctx c) (AppinConnOpened (cn_opaque c) e_c) /\ told s1 s2 (cn_ctx d) (AppinAccepted (cn_opaque s_end) e_s) /\
    flows c2 = flows s_c ++ [f] /\ flows s2 = flows s_s ++ [g] /\ flows_agree eth_c eth_s f g /\
    TCPH_FLAGS (p_tcp (pkt_of_bytes b3)) = TCP_ACK /\ tcp_seqno (p_tcp (pkt_of_bytes b3)) = fr_local_seq f /\
    tcp_ackno (p_tcp (pkt_of_bytes b3)) = fr_local_seq g.
Proof.
  intros Hc Hs Rc Rs. pose proof (cl_ok _ _ _ _ Rc) as Hok.
  destruct (client_syn s_c p c qt Hc Rc) as (c1 & b1 & q1 & P1 & O1 & S1 & F1 & T1 & I1 & J1 & B1).
  destruct (server_syn s_s l y q d _ _ _ _ b1 cr_s fg_s Hs Rs B1) as (s1 & d1 & g & P2 & G).
  destruct (server_synack s_s s1 l y q d d1 g _ _ _ Hs Hc (cn_rport_ok _ _ _ Hok) (cn_lport_ok _ _ _ Hok) Rs G)
    as (s2 & s_end & b2 & e_s & P3 & D2 & D3 & D4 & D5 & D6 & B2).
  destruct (client_synack s_c c1 p c qt q1 _ cr_c fg_c b2 Hc Rc O1 T1 I1 J1 ltac:(apply u32_range) B2)
    as (c2 & c_end & b3 & e_c & f & P4 & C2 & C3 & C4 & C5 & C6 & B3 & V1 & V2 & V3 & V4 & V5 & V6 & V7 & V8).
  destruct (rf_flow _ _ _ _ _ _ _ _ _ G) as (W1 & W2 & W3 & W4 & W5 & W6 & W7 & W8).
  exists c1, c2, c_end, s1, s2, s_end, b1, b2, b3, e_c, e_s, f, g.
  destruct (cr_seqs _ _ _ _ _ _ _ _ _ _ _ _ _ _ B3) as [Q1 Q2]. rewrite F1 in C5.
  split_and!; try assumption; [|by apply (cr_flags _ _ _ _ _ _ _ _ _ _ _ _ _ _ B3)|congruence|congruence].
  unfold flows_agree. split_and!; congruence.
Qed.

End Two.

(** ** Witness *)
Module Demo.
Definition crc : Z -> Z -> Z := TcpInv.Demo.crc.
Definition base : host := TcpInv.Demo.base {[ 80 := PORT_TYPE_LISTEN 300 ]}.

(** The client, 10 at the card 5, opens a connection to the server, 20 at 7. *)
Definition c : connection :=
  mk_conn 11 1 None 0 0 0 ConnTable.Demo.q0 ConnTable.Demo.q0 20 10 80 8192 CONN_ARP_PENDING 0 0 0 0 0 false
    ConnTable.Demo.cc0 None 0 0 0 0.
Definition client : host :=
  match register crc crc (put_conn base 100 c) 100 with Ok s => s | _ => base end.
Definition y : listener := new_listener 1 1 80 2 (replicate 2 (mk_bls (replicate 126 0) 0)).
Definition d : connection :=
  mk_conn 12 1 None 0 0 0 ConnTable.Demo.q0 ConnTable.Demo.q0 0 0 0 80 CONN_SYN_WAIT 0 0 0 0 0 false
    ConnTable.Demo.cc0 None 0 0 0 0.
Definition y1 : listener := set_wait_conns y (Some 200).
Definition server : host := put_listener (put_conn (put_listener base 300 y) 200 d) 300 y1.
Definition cfg : Z -> configuration := TcpWire.Demo.cfg.

Lemma cfgs_ok : cfg_ok 5 (cfg 10) /\ cfg_ok 7 (cfg 20).
Proof. split; constructor; vm_compute; (done || (split; congruence)). Qed.

Lemma base_inv : tcp_inv crc crc None base (fun _ => []) (fun _ => []).
Proof. by apply tcp_inv_empty. Qed.

Lemma client_inv : exists tbl waits, tcp_inv crc crc None client tbl waits.
Proof.
  pose proof (inv_put_moving crc crc None base _ _ 100 c base_inv (or_introl eq_refl) ltac:(intros ? ?%elem_of_nil; done)
    ltac:(intros ? ?%elem_of_nil; done)) as I.
  destruct (inv_register crc crc _ _ _ 100 c client I) as [I' _]; [done|by left|done|by eauto].
Qed.

Lemma server_inv : exists tbl waits, tcp_inv crc crc None server tbl waits.
Proof.
  pose proof (inv_new_listener crc crc base _ _ 300 y base_inv eq_refl eq_refl) as I.
  assert (forall l, 200 ∉ upd_tbl (fun _ => []) 300 [] l) as Hl
    by (intros l; unfold upd_tbl; destruct (_ =? _); apply not_elem_of_nil).
  pose proof (inv_put_moving crc crc None _ _ _ 200 d I (or_introl eq_refl) ltac:(intros ? ?%elem_of_nil; done) Hl) as I'.
  do 2 eexists. apply (inv_wait_push crc crc _ _ _ 300 y 200 d I'); try done. by left.
Qed.

Lemma client_ok : client_ready crc crc 7 (cfg 10) (cfg 20) 0 client 100 c (mk_tq [] []).
Proof.
  constructor; try done; [exact client_inv| |by apply init_rep|apply not_elem_of_nil].
  intros p' c' Hp _. destruct (decide (p' = 100)) as [|Hne]; [done|].
  change (ts_conns client) with (<[100 := set_ht_next c None]> (<[100 := c]> (∅ : conn_heap))) in Hp.
  by rewrite !lookup_insert_ne, lookup_empty in Hp by done.
Qed.

Lemma server_ok : server_ready crc crc (cfg 10) server 300 y1 200 d 80 8192.
Proof.
  constructor; try done; [exact server_inv| |by do 2 eexists|].
  - assert (backlog_rep y []) as []; [|by constructor]. apply new_listener_rep; [lia|done|repeat constructor].
  - intros q' c' Hq Hs. destruct (decide (q' = 200)) as [->|Hne]; [by injection Hq as <-|].
    change (ts_conns server) with (<[200 := d]> (∅ : conn_heap)) in Hq.
    by rewrite lookup_insert_ne, lookup_empty in Hq by done.
Qed.
End Demo.

Lemma handshake_agrees_witness :
  exists c2 s2 f g, flows c2 = [f] /\ flows s2 = [g] /\ flows_agree 5 7 f g.
Proof.
  destruct (handshake_agrees (H := TcpWire.Demo.checksums) Demo.crc Demo.crc 5 7 (Demo.cfg 10) (Demo.cfg 20) 0 0 0 0 0 0
    Demo.client 100 Demo.c (mk_tq [] []) Demo.server 300 Demo.y1 200 Demo.d 0 0 0 0
    (proj1 Demo.cfgs_ok) (proj2 Demo.cfgs_ok) Demo.client_ok Demo.server_ok)
    as (c1 & c2 & ce & s1 & s2 & se & b1 & b2 & b3 & ec & es & f & g & _ & _ & _ & _ & _ & _ & _ & _ & _ & _ & _ & _ & _ & F1 & F2 & F & _).
  exists c2, s2, f, g. split; [exact F1|]. split; [exact F2|exact F].
Defined.
