(* ===== verification/LibTas.v ===== *)
(** * The application library (lib/tas/conn.c)

    The functions an application calls on its connections: requests to the slow
    path, space for data to send, data that was read, and the list of connections
    whose progress the fast path has to be told of. *)
From S2P Require Import Prelude RdmaQueue Packets FlowState Wire AppMsg.

#[local] Open Scope Z_scope.

(** ** Data (lib/tas/internal.h, lib/tas/include/tas_ll.h) *)

Definition CTX_FLAG_POLL_CALLED : Z := 1.
Definition CTX_FLAG_POLL_EVENTS : Z := 2.
Definition CTX_FLAG_WANTWAIT : Z := 4.
Definition CTX_FLAG_LASTWAIT : Z := 8.
Definition CONN_FLAG_TXEOS : Z := 1.
Definition CONN_FLAG_TXEOS_ALLOC : Z := 2.
Definition CONN_FLAG_TXEOS_ACK : Z := 4.
Definition FLEXTCP_LISTEN_REUSEPORT : Z := 1.

Inductive conn_state :=
| CONN_CLOSED | CONN_OPEN_REQUESTED | CONN_ACCEPT_REQUESTED | CONN_OPEN | CONN_CLOSE_REQUESTED.
#[export] Instance conn_state_eq_dec : EqDecision conn_state.
Proof. solve_decision. Defined.

(** [struct flextcp_connection]; queues are known by their addresses, 0 is NULL. *)
Record flextcp_connection := mk_fc {
  fc_rx : Z; rxb_bump : Z; fc_tx : Z; txb_allocated : Z; txb_bump : Z;
  fc_local_ip : Z; fc_remote_ip : Z; fc_local_port : Z; fc_remote_port : Z;
  fc_seq_rx : Z; fc_seq_tx : Z; fc_flow_id : Z; fc_bump_seq : Z;
  bump_next : option Z; bump_prev : option Z; fc_fn_core : Z;
  bump_pending : bool; fc_status : conn_state; fc_flags : Z; rx_closed : bool;
}.
#[export] Instance eta_fc : Eta flextcp_connection := fun c =>
  mk_fc (fc_rx c) (rxb_bump c) (fc_tx c) (txb_allocated c) (txb_bump c)
    (fc_local_ip c) (fc_remote_ip c) (fc_local_port c) (fc_remote_port c)
    (fc_seq_rx c) (fc_seq_tx c) (fc_flow_id c) (fc_bump_seq c)
    (bump_next c) (bump_prev c) (fc_fn_core c) (bump_pending c) (fc_status c) (fc_flags c) (rx_closed c).

Record flextcp_listener := mk_fl { fl_local_port : Z }.

(** The queues of a context to and from one core of the fast path. *)
Record ctx_queue := mk_cq { cq_tx : Z; cq_rx : Z; cq_last_ts : Z }.

Record flextcp_context := mk_fctx {
  cx_kin : Z; cx_kout : Z; cx_queues : list ctx_queue;
  bump_pending_first : option Z; bump_pending_last : option Z;
  cx_flags : Z; cx_db_id : Z; num_queues : Z; next_queue : Z; last_inev_ts : Z;
}.
#[export] Instance eta_fctx : Eta flextcp_context := fun x =>
  mk_fctx (cx_kin x) (cx_kout x) (cx_queues x) (bump_pending_first x) (bump_pending_last x)
    (cx_flags x) (cx_db_id x) (num_queues x) (next_queue x) (last_inev_ts x).

(** Wake-ups: of the slow path, and of a core. *)
Inductive kick := KickKernel | KickCore (core : Z).

(** What the library sees: the queues by address, the RDMA link, its connections,
    one context, the wake-ups so far and the time of the last one of the slow path
    ([last_ts] of [flextcp_kernel_kick]). *)
Record lib_state (L : Type) := mk_lib {
  lb_qs : gmap Z rdma_queue; lb_link : L; lb_conns : gmap Z flextcp_connection;
  lb_ctx : flextcp_context; lb_kicks : list kick; lb_kernel_ts : Z;
}.
Arguments mk_lib {L}. Arguments lb_qs {L}. Arguments lb_link {L}. Arguments lb_conns {L}.
Arguments lb_ctx {L}. Arguments lb_kicks {L}. Arguments lb_kernel_ts {L}.

(** With a SmartNIC: the queue pair, and where its shared memory is. *)
Record rdma_env := mk_renv { re_qp : Z; re_shm_opaque : Z; re_shm_lkey : Z; re_shm_rkey : Z }.

(** What [malloc] and [ibv_reg_mr] return for the buffers of a connection, with
    the contents of the memory; [None] when the registration fails. *)
Record tcp_mem := mk_tmem { tm_base : Z; tm_rx_raw : list Z; tm_tx_raw : list Z; tm_lkey : Z; tm_rkey : Z }.

Section Lib.
Context {L : Type} `{RdmaLink L}.
(** [rdmafd != -1], with what the connection to the NIC gives, and [tas_info]. *)
Context (remote : option rdma_env) (tcp_rxbuf_len tcp_txbuf_len poll_cycle_tas : Z).
(** [util_rdtsc], during one call. *)
Context (now : Z).

Abbreviation state := (lib_state L).
Implicit Types (s : state) (c : flextcp_connection).

Definition set_qs s v : state := mk_lib v (lb_link s) (lb_conns s) (lb_ctx s) (lb_kicks s) (lb_kernel_ts s).
Definition set_link s v : state := mk_lib (lb_qs s) v (lb_conns s) (lb_ctx s) (lb_kicks s) (lb_kernel_ts s).
Definition set_fconns s v : state := mk_lib (lb_qs s) (lb_link s) v (lb_ctx s) (lb_kicks s) (lb_kernel_ts s).
Definition set_fctx s v : state := mk_lib (lb_qs s) (lb_link s) (lb_conns s) v (lb_kicks s) (lb_kernel_ts s).
Definition set_kicks s v : state := mk_lib (lb_qs s) (lb_link s) (lb_conns s) (lb_ctx s) v (lb_kernel_ts s).
Definition set_kernel_ts s v : state := mk_lib (lb_qs s) (lb_link s) (lb_conns s) (lb_ctx s) (lb_kicks s) v.

Definition q_at s (a : Z) : outcome rdma_queue :=
  match lb_qs s !! a with Some q => Ok q | None => Stop OutOfBounds end.
Definition fc_at s (p : Z) : outcome flextcp_connection :=
  match lb_conns s !! p with Some c => Ok c | None => Stop OutOfBounds end.
Definition put_q s (a : Z) (q : rdma_queue) (l : L) : state := set_link (set_qs s (<[a := q]> (lb_qs s))) l.
Definition put_fc s (p : Z) c : state := set_fconns s (<[p := c]> (lb_conns s)).

(** ** The operations of queues, by address *)
Definition q_enqueue s (a : Z) (d : option (list Z)) (sz : Z) : outcome (Z * state) :=
  q ← q_at s a; '(rv, q, l) ← rq_try_enqueue q (lb_link s) d sz; mret (rv, put_q s a q l).
Definition q_dequeue s (a : Z) (want : bool) (sz : Z) : outcome (Z * list Z * state) :=
  q ← q_at s a; '(rv, d, q) ← rq_try_dequeue q want sz; mret (rv, d, put_q s a q (lb_link s)).
Definition q_reserve s (a sz : Z) : outcome (Z * state) :=
  q ← q_at s a; '(rv, q, l) ← rq_try_reserve_flush q (lb_link s) sz; mret (rv, put_q s a q l).
Definition q_nflush s (a n : Z) : outcome (Z * state) :=
  q ← q_at s a; '(rv, q, l) ← rq_nflush q (lb_link s) n; mret (rv, put_q s a q l).
Definition q_flush s (a : Z) : outcome (Z * state) :=
  q ← q_at s a; '(rv, q, l) ← rq_flush q (lb_link s); mret (rv, put_q s a q l).
Definition q_can_reserve s (a : Z) : outcome (Z * state) :=
  q ← q_at s a; '(rv, q, l) ← rq_nbytes_can_reserve q (lb_link s); mret (rv, put_q s a q l).

(** ** Wake-ups (lib/tas/kernel.c, lib/tas/init.c) *)

Definition flextcp_kernel_kick s : state :=
  let s := if u64 (now - lb_kernel_ts s) >? poll_cycle_tas then set_kicks s (lb_kicks s ++ [KickKernel]) else s in
  set_kernel_ts s now.

Definition UINT64_MAX : Z := 18446744073709551615.

Definition ctx_queue_at s (i : Z) : outcome ctx_queue :=
  match cx_queues (lb_ctx s) !! Z.to_nat i with Some q => Ok q | None => Stop OutOfBounds end.

Definition flextcp_flexnic_kick s (core : Z) : outcome state :=
  if poll_cycle_tas =? UINT64_MAX then mret s
  else
    q ← ctx_queue_at s core;
    let s := if u64 (now - cq_last_ts q) >? poll_cycle_tas then set_kicks s (lb_kicks s ++ [KickCore core]) else s in
    let x := lb_ctx s in
    let queues := <[Z.to_nat core := mk_cq (cq_tx q) (cq_rx q) now]> (cx_queues x) in
    mret (set_fctx s (x <| cx_queues := queues |>)).

(** ** Requests to the slow path *)

Definition enqueue_appout s (kin : kernel_appout) : outcome state :=
  '(rv, s) ← q_enqueue s (cx_kin (lb_ctx s)) (Some (encode_appout kin)) SIZEOF_KERNEL_APPOUT;
  if negb (rv =? 0) then _ ← c_assert (rv <? 0); Stop Aborted
  else
    '(rv, s) ← q_flush s (cx_kin (lb_ctx s));
    if u64 rv =? SIZEOF_KERNEL_APPOUT then mret (flextcp_kernel_kick s)
    else _ ← c_assert (rv <? 0); Stop Aborted.

(** [lst] is the address of the listener, whose new contents are a result too. *)
Definition flextcp_listen_open s (lst port backlog flags : Z) : outcome (Z * option flextcp_listener * state) :=
  '(rv, s) ← q_reserve s (cx_kin (lb_ctx s)) SIZEOF_KERNEL_APPOUT;
  if negb (rv =? 1) then _ ← c_assert (rv =? 0); mret (-1, None, s)
  else if has_any flags (Z.lnot FLEXTCP_LISTEN_REUSEPORT) then mret (-1, Some (mk_fl 0), s)
  else
    let f := if has_all flags FLEXTCP_LISTEN_REUSEPORT then KERNEL_APPOUT_LISTEN_REUSEPORT else 0 in
    s ← enqueue_appout s (AppoutListen lst backlog port f);
    mret (0, Some (mk_fl port), s).

Definition connection_init : flextcp_connection :=
  mk_fc 0 0 0 0 0 0 0 0 0 0 0 0 0 None None 0 false CONN_CLOSED 0 false.

(** The buffers of a connection, in the memory of the host; [None] is a failure,
    otherwise the addresses of the two queues and the keys. *)
Definition flextcp_create_tcp_buffer s (e : rdma_env) (m : option tcp_mem) : outcome (option (Z * Z * Z * Z) * state) :=
  let tx_len := u64 (SIZEOF_RDMA_QUEUE + tcp_txbuf_len) in
  let rx_len := u64 (SIZEOF_RDMA_QUEUE + tcp_rxbuf_len) in
  match m with
  | None => mret (None, s)
  | Some m =>
      let rx := tm_base m in
      let tx := u64 (tm_base m + rx_len) in
      match rq_allocate_in_place rx (tm_rx_raw m) rx_len (re_qp e) (tm_lkey m) (tm_rkey m) with
      | None => Stop OutOfBounds
      | Some rxq =>
          _ ← c_assert (buffer_size rxq =? tcp_rxbuf_len);
          match rq_allocate_in_place tx (tm_tx_raw m) tx_len (re_qp e) (tm_lkey m) (tm_rkey m) with
          | None => Stop OutOfBounds
          | Some txq =>
              _ ← c_assert (u64 (rx + SIZEOF_RDMA_QUEUE + buffer_size rxq) =? tx);
              _ ← c_assert (u64 (rx + u64 (tx_len + rx_len)) =? u64 (tx + buffer_size txq + SIZEOF_RDMA_QUEUE));
              let s := set_qs s (<[tx := txq]> (<[rx := rxq]> (lb_qs s))) in
              mret (Some (rx, tx, tm_lkey m, tm_rkey m), s)
          end
      end
  end.

(** The buffers a request announces: without a SmartNIC the addresses are 0, and
    the keys are what the stack held, here 0. [conn] gets the queues. *)
Definition request_buffers s (conn : Z) (m : option tcp_mem) : outcome (option (Z * Z * Z * Z) * state) :=
  match remote with
  | None => mret (Some (0, 0, 0, 0), s)
  | Some e =>
      '(r, s) ← flextcp_create_tcp_buffer s e m;
      match r with
      | None => mret (None, s)
      | Some (rx, tx, lkey, rkey) =>
          c ← fc_at s conn;
          let c := c <| fc_rx := rx |> in
          let c := c <| fc_tx := tx |> in
          mret (Some (rx, tx, lkey, rkey), put_fc s conn c)
      end
  end.

Definition flextcp_listen_accept s (lst : Z) (l : flextcp_listener) (conn : Z) (m : option tcp_mem)
  : outcome (Z * state) :=
  '(rv, s) ← q_reserve s (cx_kin (lb_ctx s)) SIZEOF_KERNEL_APPOUT;
  if negb (rv =? 1) then _ ← c_assert (rv =? 0); mret (-1, s)
  else
    let c := connection_init <| fc_status := CONN_ACCEPT_REQUESTED |> in
    let c := c <| fc_local_port := fl_local_port l |> in
    '(r, s) ← request_buffers (put_fc s conn c) conn m;
    match r with
    | None => mret (-1, s)
    | Some (rx, tx, lkey, rkey) =>
        s ← enqueue_appout s (AppoutAccept (mk_ao_accept lst conn (fl_local_port l) tx rx lkey rkey));
        mret (0, s)
    end.

Definition flextcp_connection_open s (conn dst_ip dst_port : Z) (m : option tcp_mem) : outcome (Z * state) :=
  let s := put_fc s conn connection_init in
  '(rv, s) ← q_reserve s (cx_kin (lb_ctx s)) SIZEOF_KERNEL_APPOUT;
  if negb (rv =? 1) then _ ← c_assert (rv =? 0); mret (-1, s)
  else
    let c := connection_init <| fc_status := CONN_OPEN_REQUESTED |> in
    let c := c <| fc_remote_ip := dst_ip |> in
    let c := c <| fc_remote_port := dst_port |> in
    '(r, s) ← request_buffers (put_fc s conn c) conn m;
    match r with
    | None => mret (-1, s)
    | Some (rx, tx, lkey, rkey) =>
        s ← enqueue_appout s (AppoutOpen (mk_ao_open conn dst_ip 0 dst_port tx rx lkey rkey));
        mret (0, s)
    end.

(** ** The list of connections with news for the fast path *)

Definition with_bump_next c (v : option Z) : flextcp_connection := c <| bump_next := v |>.
Definition with_first (x : flextcp_context) (v : option Z) : flextcp_context := x <| bump_pending_first := v |>.
Definition with_last (x : flextcp_context) (v : option Z) : flextcp_context := x <| bump_pending_last := v |>.
Definition with_pending c (v : bool) : flextcp_connection := c <| bump_pending := v |>.

Definition conn_mark_bump s (conn : Z) : outcome state :=
  c ← fc_at s conn;
  if bump_pending c then mret s
  else
    let x := lb_ctx s in
    let c_prev := bump_pending_last x in
    let c := with_bump_next c None in
    let c := c <| bump_prev := c_prev |> in
    let s := put_fc s conn c in
    s ← match c_prev with
        | Some p => d ← fc_at s p; mret (put_fc s p (with_bump_next d (Some conn)))
        | None => mret (set_fctx s (with_first x (Some conn)))
        end;
    let s := set_fctx s (with_last (lb_ctx s) (Some conn)) in
    c ← fc_at s conn;
    mret (put_fc s conn (with_pending c true)).

(** The search for the predecessor of [conn]. *)
Fixpoint bump_before (fuel : nat) (h : gmap Z flextcp_connection) (p_c : option Z) (conn : Z) : outcome Z :=
  match fuel with
  | O => Stop OutOfFuel
  | S fuel =>
      match p_c with
      | None => Stop Aborted
      | Some p =>
          match h !! p with
          | None => Stop OutOfBounds
          | Some c => if bool_decide (bump_next c = Some conn) then mret p else bump_before fuel h (bump_next c) conn
          end
      end
  end.

(** [bump_pending_last] is not updated when the connection is the first. *)
Definition bump_remove s (conn : Z) : outcome state :=
  c ← fc_at s conn;
  if negb (bump_pending c) then mret s
  else
    s ← (if bool_decide (bump_pending_first (lb_ctx s) = Some conn) then
           mret (set_fctx s (with_first (lb_ctx s) (bump_next c)))
         else
           p ← bump_before (S (size (lb_conns s))) (lb_conns s) (bump_pending_first (lb_ctx s)) conn;
           d ← fc_at s p;
           let s := put_fc s p (with_bump_next d (bump_next c)) in
           mret (match bump_next c with
                 | None => set_fctx s (with_last (lb_ctx s) (Some p))
                 | Some _ => s
                 end));
    c ← fc_at s conn;
    mret (put_fc s conn (with_pending c false)).

Definition flextcp_connection_close s (conn : Z) : outcome (Z * state) :=
  s ← bump_remove s conn;
  '(rv, s) ← q_reserve s (cx_kin (lb_ctx s)) SIZEOF_KERNEL_APPOUT;
  if negb (rv =? 1) then _ ← c_assert (rv =? 0); mret (-1, s)
  else
    c ← fc_at s conn;
    let s := put_fc s conn (c <| fc_status := CONN_CLOSE_REQUESTED |>) in
    s ← enqueue_appout s (AppoutClose (mk_ao_id conn (fc_remote_ip c) (fc_local_ip c) (fc_remote_port c)
                                         (fc_local_port c)) 0);
    mret (0, s).

Definition flextcp_connection_move s (conn : Z) : outcome (Z * state) :=
  '(rv, s) ← q_reserve s (cx_kin (lb_ctx s)) SIZEOF_KERNEL_APPOUT;
  if negb (rv =? 1) then _ ← c_assert (rv =? 0); mret (-1, s)
  else
    c ← fc_at s conn;
    s ← enqueue_appout s (AppoutMove (mk_ao_id conn (fc_remote_ip c) (fc_local_ip c) (fc_remote_port c)
                                        (fc_local_port c)) (cx_db_id (lb_ctx s)));
    mret (0, s).

(** ** Data *)

Definition flextcp_connection_rx_done s (conn len : Z) : outcome (Z * state) :=
  c ← fc_at s conn;
  '(rv, _, s) ← q_dequeue s (fc_rx c) false len;
  if negb (rv =? 0) then _ ← c_assert (rv >? 0); mret (-1, s)
  else
    let c := c <| rxb_bump := u32 (rxb_bump c + len) |> in
    let s := put_fc s conn c in
    q ← q_at s (fc_rx c);
    s ← (if rxb_bump c >? buffer_size q / 4 then conn_mark_bump s conn else mret s);
    mret (0, s).

Definition granted c (len : Z) : flextcp_connection := c <| txb_allocated := u32 (txb_allocated c + len) |>.
Definition sent c (len : Z) : flextcp_connection :=
  let c := c <| txb_allocated := u32 (txb_allocated c - len) |> in
  c <| txb_bump := u32 (txb_bump c + len) |>.

(** The address of the bytes of a queue at an offset. *)
Definition q_buf (q : rdma_queue) (off : Z) : Z := u64 (self q + OFFSETOF_BUFFER + off).

(** The result is [-1], or the length and the address of the space. *)
Definition flextcp_connection_tx_alloc s (conn len : Z) : outcome (Z * Z * state) :=
  c ← fc_at s conn;
  if has_all (fc_flags c) CONN_FLAG_TXEOS then mret (-1, 0, s)
  else
    '(r, s) ← q_can_reserve s (fc_tx c);
    q ← q_at s (fc_tx c);
    let avail := u32 r in
    let len := if avail <? len then avail else len in
    let head := u32 (tx_off q) in
    let len := if u64 (head + len) >? buffer_size q then u64 (buffer_size q - head) else len in
    let s := put_fc s conn (granted c len) in
    mret (len, q_buf q (tx_off q), s).

(** The same, in two pieces when it wraps around. *)
Definition flextcp_connection_tx_alloc2 s (conn len : Z) : outcome (Z * Z * Z * option Z * state) :=
  c ← fc_at s conn;
  if has_all (fc_flags c) CONN_FLAG_TXEOS then mret (-1, 0, 0, None, s)
  else
    '(r, s) ← q_can_reserve s (fc_tx c);
    q ← q_at s (fc_tx c);
    let avail := u32 r in
    let len := if avail <? len then avail else len in
    let head := u32 (tx_off q) in
    let '(len_1, buf_2) :=
      if u64 (head + len) >? buffer_size q then (u64 (buffer_size q - head), Some (q_buf q 0)) else (len, None) in
    let s := put_fc s conn (granted c len) in
    mret (len, q_buf q (tx_off q), len_1, buf_2, s).

Definition flextcp_connection_tx_send s (conn len : Z) : outcome (Z * state) :=
  c ← fc_at s conn;
  if txb_allocated c <? len then mret (-1, s)
  else
    '(rv, s) ← q_enqueue s (fc_tx c) None len;
    if negb (rv =? 0) then _ ← c_assert (rv <? 0); Stop Aborted
    else
      s ← conn_mark_bump (put_fc s conn (sent c len)) conn;
      mret (0, s).

(** The end of the stream takes a byte of the queue. *)
Definition flextcp_conn_pushtxeos s (conn : Z) : outcome (Z * state) :=
  c ← fc_at s conn;
  q ← q_at s (fc_tx c);
  n ← rq_nbytes_to_flush q;
  _ ← c_assert (n =? 0);
  _ ← c_assert (has_any (fc_flags c) CONN_FLAG_TXEOS);
  room ← rq_nbytes_empty q;
  if room =? 0 then mret (-1, s)
  else
    '(rv, s) ← q_enqueue s (fc_tx c) (Some [1]) 1;
    if negb (rv =? 0) then _ ← c_assert (rv <? 0); Stop Aborted
    else
      let c := c <| fc_flags := Z.lor (fc_flags c) CONN_FLAG_TXEOS_ALLOC |> in
      let c := c <| txb_bump := u32 (txb_bump c + 1) |> in
      s ← conn_mark_bump (put_fc s conn c) conn;
      mret (0, s).

Definition flextcp_connection_tx_close s (conn : Z) : outcome (Z * state) :=
  c ← fc_at s conn;
  q ← q_at s (fc_tx c);
  n ← rq_nbytes_to_flush q;
  if n >? 0 then mret (-1, s)
  else if has_all (fc_flags c) CONN_FLAG_TXEOS then mret (-1, s)
  else
    let s := put_fc s conn (c <| fc_flags := Z.lor (fc_flags c) CONN_FLAG_TXEOS |>) in
    '(_, s) ← flextcp_conn_pushtxeos s conn;
    mret (0, s).

End Lib.
