(* ===== verification/RdmaApp.v ===== *)
(** * How an application registers itself and its contexts (lib/tas/kernel.c,
    lib/tas/rdmaif.c, lib/tas/init.c)

    An application connects to a Unix socket, of the slow path or of the host process,
    and gets descriptors to wake them. For a context it either gets the offsets of
    queues in shared memory, or, when the program runs on a SmartNIC, it allocates
    queues of its own, which are paired with those on the NIC. Theorems are in
    RdmaSetup. *)
From S2P Require Import Prelude RdmaQueue Wire AppMsg LibTas AppReg RdmaMsg RdmaNic.

#[local] Open Scope Z_scope.

Definition NIC_RXQ_LEN : Z := 64 * 32 * 1024.
Definition NIC_TXQ_LEN : Z := 64 * 8192.
Definition FLEXTCP_MAX_CONTEXTS : Z := 32.
Definition FLEXTCP_MAX_FTCPCORES : Z := 16.

(** ** Connecting *)

(** The messages with up to four descriptors each; a message that has another number
    ends the process. [flexnic_evfd] has room for 16. *)
Fixpoint receive_fds (fuel : nat) (num_fds off : Z) (msgs : list (list Z)) (evfds : list Z) : outcome (list Z) :=
  if off >=? num_fds then mret evfds
  else
    match fuel, msgs with
    | S fuel, m :: msgs =>
        let n := if u32 (num_fds - off) >=? 4 then 4 else u32 (num_fds - off) in
        if negb (Z.of_nat (length m) =? n) then Stop Aborted
        else if off + n >? FLEXTCP_MAX_FTCPCORES then Stop OutOfBounds
        else receive_fds fuel num_fds (off + n) msgs (evfds ++ m)
    | _, _ => Stop Aborted
    end.

(** [num_fds] is the contents of the first message. The result is the descriptor of the
    slow path and those of the cores. *)
Definition flextcp_kernel_connect (socket connected : bool) (num_fds : Z) (msgs : list (list Z))
  : outcome (option (Z * list Z)) :=
  if negb socket || negb connected then mret None
  else
    match msgs with
    | [kernel_evfd] :: msgs =>
        evfds ← receive_fds (length msgs) num_fds 0 msgs [];
        mret (Some (kernel_evfd, evfds))
    | _ => Stop Aborted
    end.

(** ** The connection to the NIC *)

Definition RAPPC_APP_ACKED : Z := 1.
Definition RAPPC_APP_ERR : Z := 2.
Definition RAPPC_CTX_ACKED : Z := 4.
Record rdma_app_context := mk_rapp_ctx {
  rapp_flags : Z; rapp_info : option rdma_ack_app_register; rctx_info : option rdma_ack_ctx_register;
}.
#[export] Instance eta_rapp_ctx : Eta rdma_app_context := fun x => mk_rapp_ctx (rapp_flags x) (rapp_info x) (rctx_info x).

(** The contexts of connections, and the connection to the NIC. *)
Record app_proc := mk_aproc { ap_ctxs : gmap Z rdma_app_context; nic_conn : option Z }.

Definition set_rapp (a : app_proc) (p : Z) (x : rdma_app_context) : app_proc := mk_aproc (<[p := x]> (ap_ctxs a)) (nic_conn a).
Definition rapp_of (c : rdma_connection) (a : app_proc) : outcome (Z * rdma_app_context) :=
  match context c with
  | Some p => match ap_ctxs a !! p with Some x => Ok (p, x) | None => Stop OutOfBounds end
  | None => Stop OutOfBounds
  end.
Definition is_app (c : rdma_connection) : bool := match context_type c with RCONN_TYPE_APP => true | _ => false end.

Definition handle_recv_app_reg_ack (conn : Z) (m : rdma_ack_app_register) (cs : gmap Z rdma_connection) (a : app_proc)
  : outcome (Z * gmap Z rdma_connection * app_proc) :=
  c ← get_conn cs conn; _ ← c_assert (is_app c);
  '(p, x) ← rapp_of c a;
  let flag := if aa_success m =? 0 then RAPPC_APP_ERR else RAPPC_APP_ACKED in
  mret (0, cs, set_rapp a p (x <| rapp_info := Some m |> <| rapp_flags := Z.lor (rapp_flags x) flag |>)).

Definition handle_recv_ctx_reg_ack (conn : Z) (m : rdma_ack_ctx_register) (cs : gmap Z rdma_connection) (a : app_proc)
  : outcome (Z * gmap Z rdma_connection * app_proc) :=
  c ← get_conn cs conn; _ ← c_assert (is_app c);
  '(p, x) ← rapp_of c a;
  mret (0, cs, set_rapp a p (x <| rctx_info := Some m |> <| rapp_flags := Z.lor (rapp_flags x) RAPPC_CTX_ACKED |>)).

Inductive app_handler := AInvalid | AAppAck | ACtxAck.
Definition app_recv (h : app_handler) (conn : Z) (m : rdma_msg) (_ : unit) (cs : gmap Z rdma_connection) (a : app_proc)
  : outcome (Z * gmap Z rdma_connection * app_proc) :=
  match h, m with
  | AAppAck, MsgAckAppReg m => handle_recv_app_reg_ack conn m cs a
  | ACtxAck, MsgAckCtxReg m => handle_recv_ctx_reg_ack conn m cs a
  | _, _ => mret (-1, cs, a)
  end.
Definition app_plain (h : app_handler) (conn : Z) (_ : unit) (cs : gmap Z rdma_connection) (a : app_proc)
  : outcome (Z * gmap Z rdma_connection * app_proc) := mret (-1, cs, a).
#[export] Instance app_handlers : Handlers app_handler app_proc unit := {
  run_recv := app_recv; run_plain := app_plain;
  handle_recv_invalid := AInvalid; handle_imm_invalid := AInvalid; handle_send_invalid := AInvalid;
}.

Definition rdma_init_handlers (s : rdma_state app_handler app_proc) (recv imm send : bool)
  : outcome (rdma_state app_handler app_proc) :=
  '(rv, s) ← rdma_common_init s recv imm send; _ ← c_assert (rv =? 0);
  '(rv, s) ← add_recv_handler s RDMA_MSG_ACK_APP_REG AAppAck; _ ← c_assert (rv =? 0);
  '(_, s) ← add_recv_handler s RDMA_MSG_ACK_CTX_REG ACtxAck;
  mret s.

(** Events of the connection manager; losing the connection ends the process. *)
Inductive client_event :=
| ClAddrResolved (b : build_env) (added resolving : bool)
| ClRouteResolved (connecting : bool)
| ClEstablished (conn : Z) (mem : option Z) (p : posting)
| ClDisconnected
| ClOther.

Definition on_rdma_client_event (s : rdma_state app_handler app_proc) (ev : client_event)
  : outcome (Z * rdma_state app_handler app_proc) :=
  match ev with
  | ClAddrResolved b added resolving =>
      let add := bool_decide (rd_ctx s = None) in
      '(conn, s) ← rdma_common_build_connection s b;
      match conn with
      | None => mret (-1, s)
      | Some conn =>
          let s := set_proc s (mk_aproc (ap_ctxs (rd_proc s)) (Some conn)) in
          _ ← c_assert (negb add || added); mret (if resolving then 0 else -1, s)
      end
  | ClRouteResolved connecting => mret (if connecting then 0 else -1, s)
  | ClEstablished conn mem p =>
      c ← get_conn (rd_conns s) conn;
      let c := c <| context_type := RCONN_TYPE_APP |> <| context := mem |> in
      let s := match mem with Some x => set_proc s (set_rapp (rd_proc s) x (mk_rapp_ctx 0 None None)) | None => s end in
      '(rv, cs) ← send_on (<[conn := c]> (rd_conns s)) conn (MsgAppReg FLEXNIC_MAGIC) p;
      mret (if rv =? 0 then 0 else -1, set_conns s cs)
  | ClDisconnected => Stop Aborted
  | ClOther => mret (-1, s)
  end.

(** ** Contexts *)
Section NewCtx.
Context {L : Type} `{RdmaLink L}.
Implicit Types s : lib_state L.

(** Queues in shared memory: the contents of the response are used as they are. *)
Definition newctx_local (flexnic_mem : Z) (r : uxsock_response) s : outcome (Z * lib_state L) :=
  if rs_qs_num r >? FLEXTCP_MAX_FTCPCORES then Stop Aborted
  else if negb (rs_status r =? 0) then mret (-1, s)
  else
    let qs := (fun q => mk_cq (flexnic_mem + q.2) (flexnic_mem + q.1) 0) <$> take (Z.to_nat (rs_qs_num r)) (rs_qs r) in
    let x := lb_ctx s in
    mret (0, set_fctx s (mk_fctx (flexnic_mem + rs_app_out_off r) (flexnic_mem + rs_app_in_off r) qs
                           (bump_pending_first x) (bump_pending_last x) (cx_flags x) (rs_db_id r) (rs_qs_num r) 0
                           (last_inev_ts x))).

(** A queue in the buffer of the context; NULL when it is too small. *)
Definition app_queue s (raw : Z -> list Z) (addr nbytes qp lkey rkey : Z) : Z * lib_state L :=
  match rq_allocate_in_place addr (raw addr) nbytes qp lkey rkey with
  | Some q => (addr, set_qs s (<[addr := q]> (lb_qs s)))
  | None => (0, s)
  end.

Fixpoint app_core_queues (n : nat) s (raw : Z -> list Z) (base offset qp lkey rkey rx_len tx_len : Z)
  : list ctx_queue * Z * lib_state L :=
  match n with
  | O => ([], offset, s)
  | S n =>
      let '(rx, s) := app_queue s raw (u64 (base + offset)) rx_len qp lkey rkey in
      let offset := i32 (u64 (offset + rx_len)) in
      let '(tx, s) := app_queue s raw (u64 (base + offset)) tx_len qp lkey rkey in
      let offset := i32 (u64 (offset + tx_len)) in
      let '(qs, offset, s) := app_core_queues n s raw base offset qp lkey rkey rx_len tx_len in
      (mk_cq tx rx 0 :: qs, offset, s)
  end.

(** The sizes of the four kinds of queues. [kin_len], [kout_len] and [cores_num] are
    [tas_info]'s. *)
Context (kin_len kout_len cores_num : Z).
Definition kin_bytes : Z := u64 (kin_len + SIZEOF_RDMA_QUEUE).
Definition kout_bytes : Z := u64 (kout_len + SIZEOF_RDMA_QUEUE).
Definition rx_bytes : Z := u64 (NIC_RXQ_LEN + SIZEOF_RDMA_QUEUE).
Definition tx_bytes : Z := u64 (NIC_TXQ_LEN + SIZEOF_RDMA_QUEUE).
Definition bytes_needed : Z := u64 (u64 (kin_bytes + kout_bytes) + u64 (u64 (rx_bytes + tx_bytes) * cores_num)).

(** The queues, and the message to the NIC. [host_ctx_fd] is what the host process
    answers, [buf] the memory and [mr] its registration. *)
Definition newctx_remote s (qp host_ctx_fd : Z) (buf : option Z) (mr : option (Z * Z)) (raw : Z -> list Z)
  : outcome (option rdma_register_ctx * lib_state L) :=
  match mr, buf with
  | None, _ => mret (None, s)
  | Some _, None => Stop OutOfBounds
  | Some (lkey, rkey), Some base =>
      let '(kin, s) := app_queue s raw base kin_bytes qp lkey rkey in
      let offset := i32 kin_bytes in
      let '(kout, s) := app_queue s raw (u64 (base + offset)) kout_bytes qp lkey rkey in
      let offset := i32 (u64 (offset + kout_bytes)) in
      let '(qs, offset, s) := app_core_queues (Z.to_nat cores_num) s raw base offset qp lkey rkey rx_bytes tx_bytes in
      _ ← c_assert (u64 offset =? bytes_needed);
      let x := lb_ctx s in
      let s := set_fctx s (mk_fctx kin kout qs (bump_pending_first x) (bump_pending_last x) (cx_flags x) (cx_db_id x)
                             (num_queues x) (next_queue x) (last_inev_ts x)) in
      mret (Some (mk_reg_ctx base lkey rkey NIC_TXQ_LEN NIC_RXQ_LEN host_ctx_fd), s)
  end.

(** The queue to the NIC at [q] is paired with the one at [ep]. *)
Definition app_pair s (q : Z) (ep : rdma_queue_endpoint) : outcome (lib_state L) :=
  x ← q_at s q;
  '(rv, x, l) ← rq_pair_receiver x (lb_link s) ep;
  _ ← c_assert (rv =? 0);
  mret (put_q s q x l).
Fixpoint app_pair_cores s (qs : list ctx_queue) (ep : rdma_queue_endpoint) : outcome (lib_state L) :=
  match qs with
  | [] => mret s
  | q :: qs =>
      let ep := advance ep rx_bytes in
      s ← app_pair s (cq_tx q) ep;
      app_pair_cores s qs (advance ep tx_bytes)
  end.
Definition newctx_acked s (a : rdma_ack_ctx_register) : outcome (lib_state L) :=
  let x := lb_ctx s in
  let s := set_fctx s (x <| cx_db_id := ca_db_id a |> <| num_queues := ca_qs_num a |> <| next_queue := 0 |>) in
  let ep := mk_endpoint (ca_memq_base a) 0 (ca_lkey a) (ca_rkey a) in
  s ← app_pair s (cx_kin x) ep;
  app_pair_cores s (take (Z.to_nat cores_num) (cx_queues x)) (advance (advance ep kin_bytes) kout_bytes).

(** ** Asking for cores *)
Definition flextcp_kernel_reqscale (poll_cycle_tas now : Z) s (cores : Z) : outcome (Z * lib_state L) :=
  '(rv, s) ← q_reserve s (cx_kin (lb_ctx s)) SIZEOF_KERNEL_APPOUT;
  if negb (rv =? 1) then _ ← c_assert (rv =? 0); mret (-1, s)
  else
    '(rv, s) ← q_enqueue s (cx_kin (lb_ctx s)) (Some (encode_appout (AppoutScale cores))) SIZEOF_KERNEL_APPOUT;
    if negb (rv =? 0) then _ ← c_assert (rv <? 0); Stop Aborted
    else mret (0, flextcp_kernel_kick poll_cycle_tas now s).

End NewCtx.

(** [flextcp_context_create]: the context's number, if there are any left; the counter
    has 16 bits. *)
Definition flextcp_context_create (ctx_id : Z) (eventfd : bool) : option Z * Z :=
  let next := u16 (ctx_id + 1) in
  if ctx_id >=? FLEXTCP_MAX_CONTEXTS then (None, next)
  else (if eventfd then Some ctx_id else None, next).
