(* ===== verification/RdmaSetup.v ===== *)
(** * Registration over RDMA: both sides end up with the same queues, connected

    The application and the NIC each allocate a context's queues and pair those they
    write to; neither tells the other where the queues are, only where the memory
    starts. *)
From S2P Require Import Prelude RdmaQueue Util PacketMem AppMsg LibTas AppReg AppRegSpec RdmaMsg RdmaNic RdmaApp.

#[local] Open Scope Z_scope.

(** ** The other side's memory

    As documented, an RDMA write to memory whose remote key is given changes it. *)
Class RemoteMemory (L : Type) `{RdmaLink L} := {
  remote_qs : L -> gmap Z rdma_queue;
  remote_key : L -> Z;
  endpoints_written l r t q : remote_qs l !! ep_addr r = Some q -> ep_rkey r = remote_key l ->
    exists l', post_write_endpoints l r t = (0, l') /\ remote_key l' = remote_key l /\
      remote_qs l' = <[ep_addr r := q <| rx := r |> <| tx := t |> <| paired := true |>]> (remote_qs l);
}.

(** ** Queues *)

(** A new queue of [nbytes] at [addr]. *)
Definition new_queue (raw : Z -> list Z) (addr nbytes qp lkey rkey : Z) : rdma_queue :=
  let ep := mk_endpoint addr 0 lkey rkey in
  mk_queue addr qp (nbytes - SIZEOF_RDMA_QUEUE) 0 ep ep false false
    (take (Z.to_nat (nbytes - SIZEOF_RDMA_QUEUE)) (drop (Z.to_nat OFFSETOF_BUFFER)
       (replicate (Z.to_nat SIZEOF_RDMA_QUEUE) 0 ++ drop (Z.to_nat SIZEOF_RDMA_QUEUE) (raw addr)))).

Definition size_ok (n : Z) : Prop := SIZEOF_RDMA_QUEUE < n < 2147483648.
Lemma allocate_new raw addr nbytes qp lkey rkey : size_ok nbytes ->
  rq_allocate_in_place addr (raw addr) nbytes qp lkey rkey = Some (new_queue raw addr nbytes qp lkey rkey).
Proof.
  intros Hn. unfold rq_allocate_in_place, new_queue, size_ok, SIZEOF_RDMA_QUEUE in *.
  rewrite u64_small, i32_small by lia. rewrite (proj2 (Z.leb_gt _ _)) by lia. done.
Qed.

(** The writing end at [p] and the reading end at [q] of one queue of [size] bytes, in
    the two memories; [rkey] is the reader's. *)
Definition connected (w r : gmap Z rdma_queue) (p q size rkey : Z) : Prop :=
  exists qw qr, w !! p = Some qw /\ r !! q = Some qr /\
    (self qw = p /\ is_tx qw = true /\ paired qw = true /\ buffer_size qw = size /\
     ep_addr (tx qw) = p /\ ep_addr (rx qw) = q /\ ep_rkey (rx qw) = rkey) /\
    (self qr = q /\ is_tx qr = false /\ paired qr = true /\ buffer_size qr = size /\
     ep_addr (rx qr) = q /\ ep_addr (tx qr) = p) /\
    (rx_off qw = 0 /\ tx_off qw = 0 /\ flush_offset qw = 0 /\ rx_off qr = 0 /\ tx_off qr = 0).

(** ** Where the queues are *)
Section Layout.
Context (kin_len kout_len : Z).
Definition off_kout : Z := kin_len + SIZEOF_RDMA_QUEUE.
Definition core_bytes : Z := NIC_RXQ_LEN + NIC_TXQ_LEN + 2 * SIZEOF_RDMA_QUEUE.
Definition off_rx (i : Z) : Z := kin_len + kout_len + 2 * SIZEOF_RDMA_QUEUE + i * core_bytes.
Definition off_tx (i : Z) : Z := off_rx i + NIC_RXQ_LEN + SIZEOF_RDMA_QUEUE.
Definition total_bytes (cores : Z) : Z := kin_len + kout_len + 2 * SIZEOF_RDMA_QUEUE + cores * core_bytes.
(** The lengths are positive, and the offsets fit the code's [int], the addresses 64 bits. *)
Record layout_ok (cores base : Z) : Prop := {
  lo_lens : 0 < kin_len /\ 0 < kout_len;
  lo_cores : 0 <= cores;
  lo_total : total_bytes cores < 2147483648;
  lo_base : 0 <= base /\ base + total_bytes cores < 18446744073709551616;
}.
End Layout.

(** The sizes as numbers, for linear arithmetic. *)
Ltac sizes := change core_bytes with 2621616 in *; change rx_bytes with 2097240 in *; change tx_bytes with 524376 in *.

(** ** The application's side *)
Section App.
Context {L : Type} `{RdmaLink L}.
Implicit Types s : lib_state L.

Lemma app_queue_ok s raw addr nbytes qp lkey rkey : size_ok nbytes ->
  app_queue s raw addr nbytes qp lkey rkey = (addr, set_qs s (<[addr := new_queue raw addr nbytes qp lkey rkey]> (lb_qs s))).
Proof. intros Hn. unfold app_queue. by rewrite allocate_new. Qed.

Lemma rx_size : rx_bytes = NIC_RXQ_LEN + SIZEOF_RDMA_QUEUE /\ size_ok rx_bytes.
Proof. by vm_compute. Qed.
Lemma tx_size : tx_bytes = NIC_TXQ_LEN + SIZEOF_RDMA_QUEUE /\ size_ok tx_bytes.
Proof. by vm_compute. Qed.

(** The queues of the cores, from offset [off] on. *)
Definition core_addrs (base off : Z) (n : nat) : list ctx_queue :=
  (fun i => mk_cq (base + off + Z.of_nat i * core_bytes + rx_bytes) (base + off + Z.of_nat i * core_bytes) 0) <$> seq 0 n.

Lemma core_addrs_S base off n : core_addrs base off (S n) =
  mk_cq (base + off + rx_bytes) (base + off) 0 :: core_addrs base (off + rx_bytes + tx_bytes) n.
Proof.
  unfold core_addrs. cbn [seq]. rewrite fmap_cons, <- fmap_S_seq, <- list_fmap_compose. sizes. f_equal.
  - f_equal; lia.
  - apply list_fmap_ext. intros _ i _. simpl. f_equal; lia.
Qed.

Lemma app_core_queues_ok n s raw base off qp lkey rkey : 0 <= base -> 0 <= off ->
  off + Z.of_nat n * core_bytes < 2147483648 -> base + off + Z.of_nat n * core_bytes < 18446744073709551616 ->
  exists s', app_core_queues n s raw base off qp lkey rkey rx_bytes tx_bytes =
      (core_addrs base off n, off + Z.of_nat n * core_bytes, s') /\
    lb_ctx s' = lb_ctx s /\ lb_link s' = lb_link s /\ (forall p, p < base + off -> lb_qs s' !! p = lb_qs s !! p) /\
    (forall i, 0 <= i < Z.of_nat n ->
       let p := base + off + i * core_bytes in
       lb_qs s' !! p = Some (new_queue raw p rx_bytes qp lkey rkey) /\
       lb_qs s' !! (p + rx_bytes) = Some (new_queue raw (p + rx_bytes) tx_bytes qp lkey rkey)).
Proof.
  intros Hb. revert s off. induction n as [|n IH]; intros s off Ho Hi Hu.
  { exists s. split; [simpl; by rewrite Z.add_0_r|]. split_and!; try done. intros; lia. }
  cbn [app_core_queues]. destruct rx_size as [_ Hr], tx_size as [_ Ht]. sizes.
  rewrite (u64_small (base + off)) by lia. rewrite app_queue_ok by done.
  rewrite (u64_small (off + 2097240)), (i32_small (off + 2097240)) by lia.
  rewrite (u64_small (base + (off + 2097240))) by lia. rewrite app_queue_ok by done.
  rewrite (u64_small (off + 2097240 + 524376)), (i32_small (off + 2097240 + 524376)) by lia.
  match goal with |- context [app_core_queues n ?x] => set (s2 := x) end.
  destruct (IH s2 (off + 2097240 + 524376)) as (s' & -> & E1 & E2 & E3 & E4); [lia..|].
  assert (forall p, p < base + (off + 2097240 + 524376) -> lb_qs s' !! p =
    <[base + (off + 2097240) := new_queue raw (base + (off + 2097240)) 524376 qp lkey rkey]>
      (<[base + off := new_queue raw (base + off) 2097240 qp lkey rkey]> (lb_qs s)) !! p) as E5 by (intros p Hp; by rewrite E3).
  eexists. split; [|split_and!; [exact E1|exact E2|..]].
  - replace (off + Z.of_nat (S n) * 2621616) with (off + 2097240 + 524376 + Z.of_nat n * 2621616) by lia.
    by rewrite core_addrs_S, Z.add_assoc.
  - intros p Hp. rewrite E5 by lia. by rewrite !lookup_insert_ne by lia.
  - intros i Hi'. destruct (Z.eq_dec i 0) as [->|Hi0].
    + cbv zeta. replace (base + off + 0 * 2621616) with (base + off) by lia. rewrite !E5 by lia. split.
      * rewrite lookup_insert_ne by lia. by rewrite lookup_insert_eq.
      * replace (base + off + 2097240) with (base + (off + 2097240)) by lia. by rewrite lookup_insert_eq.
    + specialize (E4 (i - 1) ltac:(lia)). cbv zeta in E4 |- *.
      replace (base + (off + 2097240 + 524376) + (i - 1) * 2621616) with (base + off + i * 2621616) in E4 by lia. done.
Qed.

Lemma newctx_remote_ok kin_len kout_len cores s qp fd base lkey rkey raw : layout_ok kin_len kout_len cores base ->
  exists s1, newctx_remote kin_len kout_len cores s qp fd (Some base) (Some (lkey, rkey)) raw =
      Ok (Some (mk_reg_ctx base lkey rkey NIC_TXQ_LEN NIC_RXQ_LEN fd), s1) /\
    cx_kin (lb_ctx s1) = base /\ cx_kout (lb_ctx s1) = base + off_kout kin_len /\
    cx_queues (lb_ctx s1) = core_addrs base (off_rx kin_len kout_len 0) (Z.to_nat cores) /\
    lb_qs s1 !! base = Some (new_queue raw base (kin_len + SIZEOF_RDMA_QUEUE) qp lkey rkey) /\
    lb_qs s1 !! (base + off_kout kin_len) =
      Some (new_queue raw (base + off_kout kin_len) (kout_len + SIZEOF_RDMA_QUEUE) qp lkey rkey) /\
    (forall i, 0 <= i < cores ->
       lb_qs s1 !! (base + off_rx kin_len kout_len i) = Some (new_queue raw (base + off_rx kin_len kout_len i) rx_bytes qp lkey rkey) /\
       lb_qs s1 !! (base + off_tx kin_len kout_len i) = Some (new_queue raw (base + off_tx kin_len kout_len i) tx_bytes qp lkey rkey)).
Proof.
  intros [[H1 H2] H3 H4 [H5 H6]]. unfold newctx_remote, kin_bytes, kout_bytes, bytes_needed, off_kout, off_tx, off_rx, total_bytes in *.
  change SIZEOF_RDMA_QUEUE with 88 in *. change NIC_RXQ_LEN with 2097152 in *. sizes.
  change (u64 (u64 (2097240 + 524376) * cores)) with (u64 (2621616 * cores)).
  unfold kin_bytes, kout_bytes. change SIZEOF_RDMA_QUEUE with 88.
  rewrite (u64_small (kin_len + 88)), (u64_small (kout_len + 88)) by lia.
  rewrite app_queue_ok by (unfold size_ok, SIZEOF_RDMA_QUEUE; lia).
  rewrite (i32_small (kin_len + 88)), (u64_small (base + (kin_len + 88))) by lia.
  rewrite app_queue_ok by (unfold size_ok, SIZEOF_RDMA_QUEUE; lia).
  rewrite (u64_small (kin_len + 88 + (kout_len + 88))), (i32_small (kin_len + 88 + (kout_len + 88))) by lia.
  match goal with |- context [app_core_queues _ ?x] => set (s2 := x) end.
  destruct (app_core_queues_ok (Z.to_nat cores) s2 raw base (kin_len + 88 + (kout_len + 88)) qp lkey rkey) as (s' & E & E1 & E2 & E3 & E4);
    [sizes; lia..|]. sizes. rewrite E. rewrite Z2Nat.id in * by lia.
  rewrite (u64_small (_ + cores * 2621616)), (u64_small (2621616 * cores)) by lia. rewrite u64_small by lia.
  rewrite (proj2 (Z.eqb_eq _ _)) by lia. osimpl.
  eexists. split; [done|]. simpl. split_and!; [done|done|f_equal; lia|..].
  - rewrite E3 by lia. simpl. rewrite lookup_insert_ne by lia. by rewrite lookup_insert_eq.
  - rewrite E3 by lia. simpl. by rewrite lookup_insert_eq.
  - intros i Hi. specialize (E4 i Hi). cbv zeta in E4.
    replace (base + (kin_len + 88 + (kout_len + 88)) + i * 2621616) with (base + (kin_len + kout_len + 2 * 88 + i * 2621616)) in E4 by lia.
    by replace (base + (kin_len + kout_len + 2 * 88 + i * 2621616 + 2097152 + 88))
      with (base + (kin_len + kout_len + 2 * 88 + i * 2621616) + 2097240) by lia.
Qed.

(** Pairing with a queue in the other side's memory. *)
Definition as_writer (q : rdma_queue) (ep : rdma_queue_endpoint) : rdma_queue := q <| rx := ep |> <| paired := true |> <| is_tx := true |>.
Definition as_reader (q : rdma_queue) (r t : rdma_queue_endpoint) : rdma_queue := q <| rx := r |> <| tx := t |> <| paired := true |>.

Context `{!RemoteMemory L}.
Lemma pair_receiver_ok (l : L) q ep peer : ep_addr (tx q) = self q -> remote_qs l !! ep_addr ep = Some peer ->
  ep_rkey ep = remote_key l -> exists l', rq_pair_receiver q l ep = Ok (0, as_writer q ep, l') /\
    remote_key l' = remote_key l /\ remote_qs l' = <[ep_addr ep := as_reader peer ep (tx q)]> (remote_qs l).
Proof.
  intros Hq Hp Hk. unfold rq_pair_receiver. simpl. rewrite Hq, Z.eqb_refl. osimpl.
  destruct (endpoints_written l ep (tx q) peer Hp Hk) as (l' & -> & Hk' & Hr). exists l'. done.
Qed.

Lemma app_pair_ok s a q ep peer : lb_qs s !! a = Some q -> ep_addr (tx q) = self q ->
  remote_qs (lb_link s) !! ep_addr ep = Some peer -> ep_rkey ep = remote_key (lb_link s) ->
  exists l', app_pair s a ep = Ok (put_q s a (as_writer q ep) l') /\ remote_key l' = remote_key (lb_link s) /\
    remote_qs l' = <[ep_addr ep := as_reader peer ep (tx q)]> (remote_qs (lb_link s)).
Proof.
  intros Ha Hq Hp Hk. destruct (pair_receiver_ok (lb_link s) q ep peer Hq Hp Hk) as (l' & E & R).
  exists l'. split; [|done]. unfold app_pair, q_at. rewrite Ha. osimpl. rewrite E. osimpl. done.
Qed.

(** The writing ends at the application: the queues of the cores from [base + off] on in
    its memory, and at the same offset from [nic] in the NIC's. *)
Lemma app_pair_cores_ok n s base nic off lkey : 0 <= nic -> 0 <= off -> nic + off + Z.of_nat n * core_bytes < 18446744073709551616 ->
  (forall i, 0 <= i < Z.of_nat n -> exists q p, let a := off + i * core_bytes + rx_bytes in
     lb_qs s !! (base + a) = Some q /\ ep_addr (tx q) = self q /\ remote_qs (lb_link s) !! (nic + a) = Some p) ->
  exists s', app_pair_cores s (core_addrs base off n) (mk_endpoint (nic + off) 0 lkey (remote_key (lb_link s))) = Ok s' /\
    lb_ctx s' = lb_ctx s /\ remote_key (lb_link s') = remote_key (lb_link s) /\
    (forall i q p, 0 <= i < Z.of_nat n -> let a := off + i * core_bytes + rx_bytes in
       lb_qs s !! (base + a) = Some q -> remote_qs (lb_link s) !! (nic + a) = Some p ->
       let ep := mk_endpoint (nic + a) 0 lkey (remote_key (lb_link s)) in
       lb_qs s' !! (base + a) = Some (as_writer q ep) /\ remote_qs (lb_link s') !! (nic + a) = Some (as_reader p ep (tx q))) /\
    (forall a, (forall i, 0 <= i < Z.of_nat n -> a <> off + i * core_bytes + rx_bytes) ->
       lb_qs s' !! (base + a) = lb_qs s !! (base + a) /\ remote_qs (lb_link s') !! (nic + a) = remote_qs (lb_link s) !! (nic + a)).
Proof.
  intros Hn. revert s off. induction n as [|n IH]; intros s off Ho Hs Hex; [exists s; split_and!; try done; intros; lia|].
  rewrite core_addrs_S. cbn [app_pair_cores]. sizes.
  destruct (Hex 0 ltac:(lia)) as (q & p & Hq & Hqs & Hp). replace (off + 0 * 2621616 + 2097240) with (off + 2097240) in * by lia.
  unfold advance. simpl. rewrite (u64_small (nic + off + 2097240)) by lia.
  replace (nic + off + 2097240) with (nic + (off + 2097240)) by lia. replace (base + off + 2097240) with (base + (off + 2097240)) by lia.
  set (ep0 := mk_endpoint (nic + (off + 2097240)) 0 lkey (remote_key (lb_link s))).
  destruct (app_pair_ok s (base + (off + 2097240)) q ep0 p Hq Hqs Hp eq_refl) as (l' & -> & Hk & Hl). osimpl.
  unfold ep0. simpl. rewrite (u64_small (nic + (off + 2097240) + 524376)) by lia. simpl in Hl.
  set (s1 := put_q s _ _ l').
  assert (forall a, a <> off + 2097240 -> lb_qs s1 !! (base + a) = lb_qs s !! (base + a) /\
    remote_qs (lb_link s1) !! (nic + a) = remote_qs (lb_link s) !! (nic + a)) as Hother.
  { intros a Ha. unfold s1. simpl. rewrite Hl. by rewrite !lookup_insert_ne by lia. }
  specialize (IH s1 (off + 2097240 + 524376) ltac:(lia) ltac:(lia)). sizes. change (remote_key (lb_link s1)) with (remote_key l') in IH.
  rewrite Hk in IH. replace (nic + (off + 2097240 + 524376)) with (nic + (off + 2097240) + 524376) in IH by lia.
  destruct IH as (s' & E & C & K & R1 & R2).
  { intros i Hi. destruct (Hex (i + 1) ltac:(lia)) as (q' & p' & X). cbv zeta in *. exists q', p'.
    replace (off + (i + 1) * 2621616 + 2097240) with (off + 2097240 + 524376 + i * 2621616 + 2097240) in X by lia.
    destruct (Hother (off + 2097240 + 524376 + i * 2621616 + 2097240)) as [-> ->]; [lia|done]. }
  exists s'. split_and!; [exact E|exact C|exact K|..].
  - intros i q' p' Hi. cbv zeta. intros Hq' Hp'. destruct (Z.eq_dec i 0) as [->|Hi0].
    + replace (off + 0 * 2621616 + 2097240) with (off + 2097240) in * by lia.
      destruct (R2 (off + 2097240)) as [-> ->]; [intros; lia|]. unfold s1. simpl. rewrite Hl, !lookup_insert_eq.
      rewrite Hq in Hq'. injection Hq' as <-. change (remote_qs (lb_link s) !! (nic + (off + 2097240)) = Some p) in Hp.
      rewrite Hp in Hp'. injection Hp' as <-. done.
    + specialize (R1 (i - 1) q' p' ltac:(lia)). cbv zeta in R1.
      replace (off + 2097240 + 524376 + (i - 1) * 2621616 + 2097240) with (off + i * 2621616 + 2097240) in R1 by lia.
      destruct (Hother (off + i * 2621616 + 2097240)) as [E1 E2]; [lia|]. rewrite E1, E2 in R1. auto.
  - intros a Ha. destruct (R2 a) as [-> ->].
    + intros i Hi. specialize (Ha (i + 1) ltac:(lia)). lia.
    + apply Hother. specialize (Ha 0 ltac:(lia)). lia.
Qed.
End App.

(** ** The NIC's side *)
Section Nic.
Context {T L : Type} `{SlowApps T} `{RdmaLink L} `{!RemoteMemory L}.
Implicit Types r : reg_state T.

Lemma queue_in_buffer_ok r raw base offset nbytes qp lkey rkey : size_ok nbytes -> 0 <= base + offset < 18446744073709551616 ->
  queue_in_buffer r raw base offset nbytes qp lkey rkey =
    Ok (base + offset, set_mem r (<[base + offset := new_queue raw (base + offset) nbytes qp lkey rkey]> (rg_mem r))).
Proof. intros Hn Hb. unfold queue_in_buffer, place_queue. rewrite u64_small by lia. by rewrite allocate_new. Qed.

Lemma pair_queue_ok r (l : L) a q ep peer : rg_mem r !! a = Some q -> ep_addr (tx q) = self q ->
  remote_qs l !! ep_addr ep = Some peer -> ep_rkey ep = remote_key l ->
  exists l', pair_queue r l a ep = Ok (0, set_mem r (<[a := as_writer q ep]> (rg_mem r)), l') /\ remote_key l' = remote_key l /\
    remote_qs l' = <[ep_addr ep := as_reader peer ep (tx q)]> (remote_qs l).
Proof.
  intros Ha Hq Hp Hk. destruct (pair_receiver_ok l q ep peer Hq Hp Hk) as (l' & E & R).
  exists l'. split; [|done]. unfold pair_queue. rewrite Ha, E. osimpl. done.
Qed.

Lemma ends_at_ok r a q end_ : rg_mem r !! a = Some q -> end_ = a + buffer_size q + SIZEOF_RDMA_QUEUE ->
  0 <= end_ < 18446744073709551616 -> ends_at r a end_ = Ok tt.
Proof. intros Ha E He. unfold ends_at. rewrite Ha, u64_small by lia. by rewrite (proj2 (Z.eqb_eq _ _)) by lia. Qed.

(** The queues of the cores, at [base + off] here and at [app + off] in the memory of
    the application. *)
Lemma nic_core_queues_ok n r (l : L) raw base app off qp lkey rkey alkey : 0 <= base -> 0 <= app -> 0 <= off ->
  off + Z.of_nat n * core_bytes < 2147483648 -> base + off + Z.of_nat n * core_bytes < 18446744073709551616 ->
  app + off + Z.of_nat n * core_bytes < 18446744073709551616 ->
  (forall i, 0 <= i < Z.of_nat n -> is_Some (remote_qs l !! (app + (off + i * core_bytes)))) ->
  exists m l', nic_core_queues n r l raw base off qp lkey rkey (mk_endpoint (app + off) 0 alkey (remote_key l)) rx_bytes tx_bytes =
      Ok (off + Z.of_nat n * core_bytes, set_mem r m, l') /\ remote_key l' = remote_key l /\
    (forall a, a < base + off -> m !! a = rg_mem r !! a) /\
    (forall i p, 0 <= i < Z.of_nat n -> let a := off + i * core_bytes in remote_qs l !! (app + a) = Some p ->
       let ep := mk_endpoint (app + a) 0 alkey (remote_key l) in
       let q := new_queue raw (base + a) rx_bytes qp lkey rkey in
       m !! (base + a) = Some (as_writer q ep) /\ remote_qs l' !! (app + a) = Some (as_reader p ep (tx q)) /\
       m !! (base + (a + rx_bytes)) = Some (new_queue raw (base + (a + rx_bytes)) tx_bytes qp lkey rkey)) /\
    (forall a, (forall i, 0 <= i < Z.of_nat n -> a <> off + i * core_bytes) -> remote_qs l' !! (app + a) = remote_qs l !! (app + a)).
Proof.
  intros Hb Ha. revert r l off. induction n as [|n IH]; intros r l off Ho Hi Hu Hv Hex.
  { exists (rg_mem r), l. split; [simpl; rewrite Z.add_0_r; by destruct r|]. split_and!; try done; intros; lia. }
  cbn [nic_core_queues]. destruct rx_size as [_ Hr], tx_size as [_ Ht]. sizes.
  rewrite queue_in_buffer_ok by (done || lia). osimpl.
  destruct (Hex 0 ltac:(lia)) as [p Hp]. replace (off + 0 * 2621616) with off in Hp by lia.
  match goal with |- context [pair_queue ?x] => set (r1 := x) end.
  assert (rg_mem r1 !! (base + off) = Some (new_queue raw (base + off) 2097240 qp lkey rkey)) as Hq by (unfold r1; simpl; apply lookup_insert_eq).
  destruct (pair_queue_ok r1 l (base + off) _ (mk_endpoint (app + off) 0 alkey (remote_key l)) p Hq eq_refl Hp eq_refl) as (l1 & -> & Hk1 & Hl1). osimpl.
  rewrite (u64_small (off + 2097240)), (i32_small (off + 2097240)), (u64_small (base + (off + 2097240))) by lia.
  erewrite ends_at_ok; [|simpl; apply lookup_insert_eq|simpl; unfold SIZEOF_RDMA_QUEUE; lia|lia]. osimpl.
  rewrite queue_in_buffer_ok by (done || lia). osimpl.
  rewrite (u64_small (off + 2097240 + 524376)), (i32_small (off + 2097240 + 524376)), (u64_small (base + (off + 2097240 + 524376))) by lia.
  erewrite ends_at_ok; [|simpl; apply lookup_insert_eq|simpl; unfold SIZEOF_RDMA_QUEUE; lia|lia]. osimpl.
  unfold advance. simpl. rewrite (u64_small (app + off + 2097240)) by lia. rewrite (u64_small (app + off + 2097240 + 524376)) by lia.
  simpl in Hl1. match goal with |- context [nic_core_queues n ?x] => set (r2 := x) end.
  assert (forall a, a <> off -> remote_qs l1 !! (app + a) = remote_qs l !! (app + a)) as Hother.
  { intros a0 Ha0. rewrite Hl1. by rewrite lookup_insert_ne by lia. }
  specialize (IH r2 l1 (off + 2097240 + 524376) ltac:(lia) ltac:(lia) ltac:(lia) ltac:(lia)). sizes. rewrite Hk1 in IH.
  replace (app + (off + 2097240 + 524376)) with (app + off + 2097240 + 524376) in IH by lia.
  destruct IH as (m & l' & E & K & M1 & M2 & M3).
  { intros i Hi'. destruct (Hex (i + 1) ltac:(lia)) as [p' X].
    replace (off + (i + 1) * 2621616) with (off + 2097240 + 524376 + i * 2621616) in X by lia. rewrite Hother by lia. eauto. }
  exists m, l'. split_and!; [|exact K|..].
  - rewrite E. replace (off + 2097240 + 524376 + Z.of_nat n * 2621616) with (off + Z.of_nat (S n) * 2621616) by lia. done.
  - intros a0 Ha0. rewrite M1 by lia. unfold r2, r1. simpl. by rewrite !lookup_insert_ne by lia.
  - intros i p' Hi'. cbv zeta. intros Hp'. destruct (Z.eq_dec i 0) as [->|Hi0].
    + replace (off + 0 * 2621616) with off in * by lia. rewrite Hp in Hp'. injection Hp' as <-.
      rewrite M3, !M1 by lia. unfold r2, r1. simpl. rewrite Hl1. split_and!.
      * rewrite lookup_insert_ne by lia. apply lookup_insert_eq.
      * apply lookup_insert_eq.
      * apply lookup_insert_eq.
    + specialize (M2 (i - 1) p' ltac:(lia)). cbv zeta in M2.
      replace (off + 2097240 + 524376 + (i - 1) * 2621616) with (off + i * 2621616) in M2 by lia. apply M2. by rewrite Hother by lia.
  - intros a0 Ha0. rewrite M3.
    + apply Hother. specialize (Ha0 0 ltac:(lia)). lia.
    + intros i Hi'. specialize (Ha0 (i + 1) ltac:(lia)). lia.
Qed.

(** The context that is made of the queues. *)
Lemma remote_context_new r app x ctx db free q comm m qk : rg_apps r !! app = Some x -> (exists f k, ra_comm x = CtRemote f k) ->
  rg_doorbells r = db :: free -> xm_ctx m = Some ctx -> rg_mem r !! qs_base q = Some qk ->
  exists r', allocate_remote_app_context r app comm q m = Ok (None, r') /\ rg_mem r' = rg_mem r /\
    rg_ctxs r' !! ctx = Some (mk_rctx app db (Some (qs_base q)) (Some (qs_base q + SIZEOF_RDMA_QUEUE + buffer_size qk)) false comm []) /\
    exists x', rg_apps r' !! app = Some x' /\ ra_queues x' = q /\ ra_comm x' = ra_comm x /\ ra_need_reg_ctx x' = Some ctx.
Proof.
  intros Hx (f & k & Hcm) Hdb Hctx Hq. unfold allocate_remote_app_context, get_rapp. rewrite Hx. osimpl. rewrite Hcm, Hctx. osimpl.
  simpl. rewrite Hdb. unfold queue_after, remote_kin. simpl. rewrite Hq. osimpl. eexists. split; [done|].
  split_and!; [done|simpl; apply lookup_insert_eq|]. eexists. split; [simpl; apply lookup_insert_eq|done].
Qed.

(** What the NIC has of a context at [base] whose application has its queues at [app]
    there; [old] are the application's queues before. *)
Record nic_ctx_made (kl ol cores base lkey rkey qp app alkey arkey : Z) (raw : Z -> list Z) (old : gmap Z rdma_queue)
    (m : gmap Z rdma_queue) (l : L) : Prop := {
  nm_key : remote_key l = arkey;
  nm_kin : m !! base = Some (new_queue raw base (kl + SIZEOF_RDMA_QUEUE) qp lkey rkey);
  nm_kout p : old !! (app + off_kout kl) = Some p ->
    let ep := mk_endpoint (app + off_kout kl) 0 alkey arkey in
    let q := new_queue raw (base + off_kout kl) (ol + SIZEOF_RDMA_QUEUE) qp lkey rkey in
    m !! (base + off_kout kl) = Some (as_writer q ep) /\ remote_qs l !! (app + off_kout kl) = Some (as_reader p ep (tx q));
  nm_cores i p : 0 <= i < cores -> let a := off_rx kl ol i in old !! (app + a) = Some p ->
    let ep := mk_endpoint (app + a) 0 alkey arkey in
    let q := new_queue raw (base + a) rx_bytes qp lkey rkey in
    m !! (base + a) = Some (as_writer q ep) /\ remote_qs l !! (app + a) = Some (as_reader p ep (tx q)) /\
    m !! (base + off_tx kl ol i) = Some (new_queue raw (base + off_tx kl ol i) tx_bytes qp lkey rkey);
  nm_other a : a <> off_kout kl -> (forall i, 0 <= i < cores -> a <> off_rx kl ol i) ->
    remote_qs l !! (app + a) = old !! (app + a);
}.

Lemma handle_recv_reg_ctx_ok kl ol cores conn cs (n : nic_proc T L) c app x ctx base lkey rkey e nic alk ark fd db free pk :
  layout_ok kl ol cores base -> layout_ok kl ol cores nic -> cs !! conn = Some c -> context_type c = RCONN_TYPE_APP ->
  context c = Some app -> rg_apps (np_reg n) !! app = Some x -> (exists f k, ra_comm x = CtRemote f k) ->
  rg_doorbells (np_reg n) = db :: free -> xm_ctx (ne_ctx e) = Some ctx -> ne_mr e = Some (lkey, rkey) -> ne_mem e = Some base ->
  remote_key (np_link n) = ark -> remote_qs (np_link n) !! (nic + off_kout kl) = Some pk ->
  (forall i, 0 <= i < cores -> is_Some (remote_qs (np_link n) !! (nic + off_rx kl ol i))) ->
  exists r l', handle_recv_reg_ctx cores kl ol conn conn (mk_reg_ctx nic alk ark NIC_TXQ_LEN NIC_RXQ_LEN fd) e cs n =
      Ok (0, cs, set_reg n r l') /\
    nic_ctx_made kl ol cores base lkey rkey conn nic alk ark (xm_raw (ne_ctx e)) (remote_qs (np_link n)) (rg_mem r) l' /\
    rg_ctxs r !! ctx = Some (mk_rctx app db (Some base) (Some (base + off_kout kl)) false (CtRemote fd conn) []) /\
    exists x', rg_apps r !! app = Some x' /\ ra_queues x' = mk_rq base NIC_RXQ_LEN NIC_TXQ_LEN lkey rkey /\
      ra_comm x' = ra_comm x /\ ra_need_reg_ctx x' = Some ctx.
Proof.
  intros [[A1 A2] A3 A4 [A5 A6]] [_ _ _ [B5 B6]] Hc Ht Hcx Hx Hcm Hdb Hctx Hmr Hmem Hk Hpk Hrx.
  unfold handle_recv_reg_ctx, get_conn, off_kout, off_rx, total_bytes in *. rewrite Hc. osimpl. rewrite Ht, Hmr, Hmem. osimpl.
  change SIZEOF_RDMA_QUEUE with 88 in *. sizes. simpl. change (u64 (NIC_RXQ_LEN + 88)) with 2097240. change (u64 (NIC_TXQ_LEN + 88)) with 524376.
  rewrite (u64_small (kl + 88)), (u64_small (ol + 88)) by lia.
  rewrite queue_in_buffer_ok by (unfold size_ok, SIZEOF_RDMA_QUEUE; lia). osimpl. rewrite Z.add_0_r.
  rewrite (i32_small (kl + 88)), (u64_small (base + (kl + 88))) by lia.
  erewrite ends_at_ok; [|simpl; apply lookup_insert_eq|simpl; unfold SIZEOF_RDMA_QUEUE; lia|lia]. osimpl.
  rewrite queue_in_buffer_ok by (unfold size_ok, SIZEOF_RDMA_QUEUE; lia). osimpl.
  match goal with |- context [pair_queue ?x] => set (r1 := x) end. unfold advance. simpl. rewrite (u64_small (nic + (kl + 88))) by lia.
  rewrite (u64_small (nic + (kl + 88) + (ol + 88))), (u64_small (kl + 88 + (ol + 88))), (i32_small (kl + 88 + (ol + 88))) by lia.
  assert (rg_mem r1 !! (base + (kl + 88)) = Some (new_queue (xm_raw (ne_ctx e)) (base + (kl + 88)) (ol + 88) conn lkey rkey)) as Hq
    by (unfold r1; simpl; apply lookup_insert_eq).
  destruct (pair_queue_ok r1 (np_link n) (base + (kl + 88)) _ (mk_endpoint (nic + (kl + 88)) 0 alk ark) pk Hq eq_refl Hpk (eq_sym Hk))
    as (l1 & -> & Hk1 & Hl1). osimpl. simpl in Hl1.
  rewrite (u64_small (base + (kl + 88 + (ol + 88)))) by lia.
  erewrite ends_at_ok; [|simpl; apply lookup_insert_eq|simpl; unfold SIZEOF_RDMA_QUEUE; lia|lia]. osimpl.
  assert (forall a, a <> kl + 88 -> remote_qs l1 !! (nic + a) = remote_qs (np_link n) !! (nic + a)) as Hother
    by (intros a0 Ha0; rewrite Hl1; by rewrite lookup_insert_ne by lia).
  match goal with |- context [nic_core_queues _ ?x] => set (r2 := x) end.
  destruct (nic_core_queues_ok (Z.to_nat cores) r2 l1 (xm_raw (ne_ctx e)) base nic (kl + 88 + (ol + 88)) conn lkey rkey alk)
    as (m & l2 & E & K & M1 & M2 & M3); [sizes; lia..| |].
  { intros i Hi. destruct (Hrx i ltac:(lia)) as [p Hp]. sizes. rewrite Hother by lia.
    replace (kl + 88 + (ol + 88) + i * 2621616) with (kl + ol + 2 * 88 + i * 2621616) by lia. eauto. }
  sizes. rewrite Hk1, Hk in E. replace (nic + (kl + 88) + (ol + 88)) with (nic + (kl + 88 + (ol + 88))) by lia. rewrite E. osimpl.
  rewrite Z2Nat.id in * by lia.
  rewrite (u64_small (_ + cores * 2621616)) by lia. change (u64 (2097240 + 524376)) with 2621616. rewrite (u64_small (2621616 * cores)), u64_small by lia.
  rewrite (proj2 (Z.eqb_eq _ _)) by lia. osimpl. rewrite Hcx. osimpl.
  change (i32 NIC_RXQ_LEN) with NIC_RXQ_LEN. change (i32 NIC_TXQ_LEN) with NIC_TXQ_LEN.
  assert (m !! base = Some (new_queue (xm_raw (ne_ctx e)) base (kl + 88) conn lkey rkey)) as Hkin.
  { rewrite M1 by lia. unfold r2, r1. simpl. rewrite !lookup_insert_ne by lia. apply lookup_insert_eq. }
  destruct (remote_context_new (set_mem r2 m) app x ctx db free (mk_rq base NIC_RXQ_LEN NIC_TXQ_LEN lkey rkey)
    (CtRemote fd conn) (ne_ctx e) _ Hx Hcm Hdb Hctx Hkin) as (r & -> & Hm & Hcr & Hxr). osimpl.
  exists r, l2. split; [done|]. simpl in Hcr, Hm. split_and!; [|rewrite Hcr; unfold SIZEOF_RDMA_QUEUE; simpl; do 3 f_equal; lia|exact Hxr].
  rewrite Hm. constructor; unfold off_kout, off_tx, off_rx; change SIZEOF_RDMA_QUEUE with 88; change NIC_RXQ_LEN with 2097152; sizes.
  - by rewrite K, Hk1.
  - exact Hkin.
  - intros p Hp. cbv zeta. rewrite Hpk in Hp. injection Hp as <-. rewrite M1 by lia. rewrite M3 by lia.
    rewrite Hl1. unfold r2. simpl. by rewrite !lookup_insert_eq.
  - intros i p Hi. cbv zeta. intros Hp. specialize (M2 i p Hi). cbv zeta in M2. rewrite Hk1, Hk in M2.
    replace (kl + 88 + (ol + 88) + i * 2621616) with (kl + ol + 2 * 88 + i * 2621616) in M2 by lia.
    replace (kl + ol + 2 * 88 + i * 2621616 + 2097152 + 88) with (kl + ol + 2 * 88 + i * 2621616 + 2097240) by lia.
    apply M2. by rewrite Hother by lia.
  - intros a0 Ha0 Hn. rewrite M3; [by apply Hother|]. intros i Hi. specialize (Hn i Hi). lia.
Qed.
End Nic.

(** ** Both sides *)
Section Both.
Context {T L : Type} `{SlowApps T} `{RdmaLink L} `{!RemoteMemory L}.

(** A new queue that is paired, on the two sides. *)
Lemma new_connected raw raw' p q nbytes size qp qp' lkey rkey lkey' rkey' (w r : gmap Z rdma_queue) : size = nbytes - SIZEOF_RDMA_QUEUE ->
  let qw := new_queue raw p nbytes qp lkey rkey in
  let ep := mk_endpoint q 0 lkey' rkey' in
  w !! p = Some (as_writer qw ep) -> r !! q = Some (as_reader (new_queue raw' q nbytes qp' lkey' rkey') ep (tx qw)) ->
  connected w r p q size rkey'.
Proof. intros -> qw ep Hw Hr. eexists _, _. split; [exact Hw|]. split; [exact Hr|]. done. Qed.

Lemma newctx_acked_ok kl ol cores (s : lib_state L) app nic lkey db num qk pk : layout_ok kl ol cores app -> layout_ok kl ol cores nic ->
  cx_kin (lb_ctx s) = app -> cx_queues (lb_ctx s) = core_addrs app (off_rx kl ol 0) (Z.to_nat cores) ->
  lb_qs s !! app = Some qk -> ep_addr (tx qk) = self qk -> remote_qs (lb_link s) !! nic = Some pk ->
  (forall i, 0 <= i < cores -> exists q p, lb_qs s !! (app + off_tx kl ol i) = Some q /\ ep_addr (tx q) = self q /\
     remote_qs (lb_link s) !! (nic + off_tx kl ol i) = Some p) ->
  let rkey := remote_key (lb_link s) in
  exists s', newctx_acked kl ol cores s (mk_ctx_ack nic lkey rkey db num) = Ok s' /\
    lb_ctx s' = (lb_ctx s) <| cx_db_id := db |> <| num_queues := num |> <| next_queue := 0 |> /\
    (let ep := mk_endpoint nic 0 lkey rkey in
     lb_qs s' !! app = Some (as_writer qk ep) /\ remote_qs (lb_link s') !! nic = Some (as_reader pk ep (tx qk))) /\
    (forall i q p, 0 <= i < cores -> let a := off_tx kl ol i in
       lb_qs s !! (app + a) = Some q -> remote_qs (lb_link s) !! (nic + a) = Some p ->
       let ep := mk_endpoint (nic + a) 0 lkey rkey in
       lb_qs s' !! (app + a) = Some (as_writer q ep) /\ remote_qs (lb_link s') !! (nic + a) = Some (as_reader p ep (tx q))) /\
    (forall a, a <> 0 -> (forall i, 0 <= i < cores -> a <> off_tx kl ol i) ->
       lb_qs s' !! (app + a) = lb_qs s !! (app + a) /\ remote_qs (lb_link s') !! (nic + a) = remote_qs (lb_link s) !! (nic + a)).
Proof.
  intros [[A1 A2] A3 A4 [A5 A6]] [_ _ _ [B5 B6]] Hkin Hqs Hk Hks Hp Htx rkey. unfold newctx_acked, kin_bytes, kout_bytes. cbn [ca_memq_base ca_lkey ca_rkey ca_db_id ca_qs_num].
  rewrite Hkin, Hqs. unfold off_tx, off_rx, total_bytes in *. change SIZEOF_RDMA_QUEUE with 88 in *. change NIC_RXQ_LEN with 2097152 in *. sizes.
  rewrite (take_ge (core_addrs _ _ _)) by (unfold core_addrs; by rewrite length_fmap, length_seq).
  set (s0 := set_fctx s _). set (ep0 := mk_endpoint nic 0 lkey rkey).
  destruct (app_pair_ok s0 app qk ep0 pk Hk Hks Hp eq_refl) as (l1 & -> & Hk1 & Hl1). osimpl. simpl in Hl1.
  set (s1 := put_q s0 _ _ l1).
  assert (forall a, a <> 0 -> lb_qs s1 !! (app + a) = lb_qs s !! (app + a) /\ remote_qs (lb_link s1) !! (nic + a) = remote_qs (lb_link s) !! (nic + a)) as Hother.
  { intros a Ha. unfold s1. simpl. rewrite Hl1. by rewrite !lookup_insert_ne by lia. }
  unfold advance. simpl. rewrite (u64_small (kl + 88)), (u64_small (ol + 88)), (u64_small (nic + (kl + 88))) by lia. rewrite (u64_small (nic + (kl + 88) + (ol + 88))) by lia.
  set (off := kl + ol + 2 * 88 + 0 * 2621616).
  destruct (app_pair_cores_ok (Z.to_nat cores) s1 app nic off lkey) as (s' & E & C & K & R1 & R2); try (unfold off; sizes; lia).
  { intros i Hi. destruct (Htx i ltac:(lia)) as (q & p & X1 & X2 & X3). exists q, p. sizes. unfold off.
    replace (kl + ol + 2 * 88 + 0 * 2621616 + i * 2621616 + 2097240) with (kl + ol + 2 * 88 + i * 2621616 + 2097152 + 88) by lia.
    destruct (Hother (kl + ol + 2 * 88 + i * 2621616 + 2097152 + 88)) as [-> ->]; [lia|done]. }
  assert (remote_key (lb_link s1) = rkey) as Hkey by (simpl; by rewrite Hk1).
  rewrite Z2Nat.id in * by lia. sizes. rewrite Hkey in E, R1.
  replace (nic + (kl + 88) + (ol + 88)) with (nic + off) by (unfold off; lia). exists s'. split_and!; [exact E|by rewrite C|..].
  - destruct (R2 0) as [E1 E2]; [unfold off; lia|]. rewrite !Z.add_0_r in E1, E2. rewrite E1. unfold s1. simpl. by rewrite lookup_insert_eq.
  - destruct (R2 0) as [E1 E2]; [unfold off; lia|]. rewrite !Z.add_0_r in E1, E2. rewrite E2. unfold s1. simpl. by rewrite Hl1, lookup_insert_eq.
  - intros i q p Hi Hq' Hp'. specialize (R1 i q p Hi). cbv zeta in R1.
    replace (off + i * 2621616 + 2097240) with (kl + ol + 2 * 88 + i * 2621616 + 2097152 + 88) in R1 by (unfold off; lia).
    destruct (Hother (kl + ol + 2 * 88 + i * 2621616 + 2097152 + 88)) as [E1 E2]; [lia|]. rewrite E1, E2 in R1. auto.
  - intros a Ha Hn. destruct (R2 a) as [-> ->]; [|by apply Hother]. intros i Hi. specialize (Hn i Hi). unfold off. lia.
Qed.

(** Where the slow path looks for the queues of a core. *)
Lemma flexnic_queues_at shm (r : reg_state T) x base lkey rkey kl ol cores raw conn ep app i : layout_ok kl ol cores base -> 0 <= i < cores ->
  ra_queues x = mk_rq base NIC_RXQ_LEN NIC_TXQ_LEN lkey rkey -> (exists f k, ra_comm x = CtRemote f k) ->
  rg_mem r !! base = Some (new_queue raw base (kl + SIZEOF_RDMA_QUEUE) conn lkey rkey) ->
  rg_mem r !! (base + off_kout kl) = Some (as_writer (new_queue raw (base + off_kout kl) (ol + SIZEOF_RDMA_QUEUE) conn lkey rkey) ep) ->
  rg_mem r !! (base + off_rx kl ol i) = Some (as_writer (new_queue raw (base + off_rx kl ol i) rx_bytes conn lkey rkey) app) ->
  app_get_flexnic_rq shm r x i = Ok (base + off_rx kl ol i) /\ app_get_flexnic_tq shm r x i = Ok (base + off_tx kl ol i).
Proof.
  intros _ Hi Hq (f & k & Hc) Hkin Hkout Hrx.
  assert (app_get_flexnic_rq shm r x i = Ok (base + off_rx kl ol i)) as E.
  { unfold app_get_flexnic_rq, queue_after, remote_kin. rewrite Hc, Hq. cbn [qs_base qs_in_len qs_out_len]. rewrite Hkin. osimpl.
    replace (base + SIZEOF_RDMA_QUEUE + buffer_size (new_queue raw base (kl + SIZEOF_RDMA_QUEUE) conn lkey rkey)) with (base + off_kout kl)
      by (unfold off_kout; simpl; lia).
    rewrite Hkout. osimpl. f_equal. unfold off_rx, off_kout. change (i32 _) with 2621616. simpl. unfold SIZEOF_RDMA_QUEUE. sizes. lia. }
  split; [exact E|]. unfold app_get_flexnic_tq. rewrite Hc, E. osimpl. unfold queue_after. rewrite Hrx. osimpl.
  f_equal. unfold off_tx, SIZEOF_RDMA_QUEUE. simpl. change rx_bytes with 2097240. unfold NIC_RXQ_LEN, SIZEOF_RDMA_QUEUE. lia.
Qed.
(** The queues do not overlap. *)
Lemma offsets_apart kl ol i j : 0 < kl -> 0 < ol -> 0 <= i -> 0 <= j ->
  off_kout kl <> 0 /\ off_rx kl ol i <> 0 /\ off_tx kl ol i <> 0 /\ off_rx kl ol i <> off_kout kl /\ off_tx kl ol i <> off_kout kl /\
  off_tx kl ol i <> off_rx kl ol j /\ (i <> j -> off_rx kl ol i <> off_rx kl ol j).
Proof.
  intros H1 H2 H3 H4. unfold off_tx, off_rx, off_kout. change SIZEOF_RDMA_QUEUE with 88. change NIC_RXQ_LEN with 2097152. sizes. lia.
Qed.

(** All queues of a context: the application has its own at [app] in [am], the NIC at
    [nic] in [nm]; each side writes with the other's key. *)
Definition connected_context (kl ol cores app nic akey nkey : Z) (am nm : gmap Z rdma_queue) : Prop :=
  connected am nm app nic kl nkey /\
  connected nm am (nic + off_kout kl) (app + off_kout kl) ol akey /\
  forall i, 0 <= i < cores ->
    connected nm am (nic + off_rx kl ol i) (app + off_rx kl ol i) NIC_RXQ_LEN akey /\
    connected am nm (app + off_tx kl ol i) (nic + off_tx kl ol i) NIC_TXQ_LEN nkey.

(** The NIC is ready for a context: the application is registered over this connection,
    there is a doorbell, and memory for the queues, which is registered. *)
Record nic_ready (n : nic_proc T L) (cs : gmap Z rdma_connection) (conn app db ctx nic lkey rkey : Z) (e : nic_env) : Prop := {
  nr_conn : exists c, cs !! conn = Some c /\ context_type c = RCONN_TYPE_APP /\ context c = Some app;
  nr_app : exists x f k, rg_apps (np_reg n) !! app = Some x /\ ra_comm x = CtRemote f k;
  nr_doorbell : exists free, rg_doorbells (np_reg n) = db :: free;
  nr_mem : xm_ctx (ne_ctx e) = Some ctx /\ ne_mr e = Some (lkey, rkey) /\ ne_mem e = Some nic;
}.

(** C20. Registration over RDMA ends with both sides agreeing, though neither tells the
    other where a queue is: the application allocates its queues and sends its base and
    key; the NIC allocates its own, pairs those it writes to; the application gets the
    NIC's base and key and pairs those it writes to. Then each of the 2 + 2 * cores
    queues has one writing end and one reading end of the same size, empty, that name
    each other's addresses, with the key of the reader's memory; the slow path computes
    the right addresses of every core's queues; and both have the doorbell. *)
Theorem remote_context_connected kl ol cores (s : lib_state L) qp app akl akey raw fd (n : nic_proc T L) cs conn a db ctx nic lkey rkey e shm :
  layout_ok kl ol cores app -> layout_ok kl ol cores nic -> nic_ready n cs conn a db ctx nic lkey rkey e ->
  exists msg s1, newctx_remote kl ol cores s qp fd (Some app) (Some (akl, akey)) raw = Ok (Some msg, s1) /\
  (remote_qs (np_link n) = lb_qs s1 -> remote_key (np_link n) = akey ->
   exists r l1 x, handle_recv_reg_ctx cores kl ol conn conn msg e cs n = Ok (0, cs, set_reg n r l1) /\
     rg_ctxs r !! ctx = Some (mk_rctx a db (Some nic) (Some (nic + off_kout kl)) false (CtRemote fd conn) []) /\
     rg_apps r !! a = Some x /\ ra_need_reg_ctx x = Some ctx /\ ra_queues x = mk_rq nic NIC_RXQ_LEN NIC_TXQ_LEN lkey rkey /\
     (forall i, 0 <= i < cores -> app_get_flexnic_rq shm r x i = Ok (nic + off_rx kl ol i) /\
                                 app_get_flexnic_tq shm r x i = Ok (nic + off_tx kl ol i)) /\
     forall l2, remote_qs l2 = rg_mem r -> remote_key l2 = rkey ->
     exists s2, newctx_acked kl ol cores (set_link (set_qs s1 (remote_qs l1)) l2) (mk_ctx_ack nic lkey rkey db cores) = Ok s2 /\
       cx_kin (lb_ctx s2) = app /\ cx_kout (lb_ctx s2) = app + off_kout kl /\
       cx_queues (lb_ctx s2) = core_addrs app (off_rx kl ol 0) (Z.to_nat cores) /\
       cx_db_id (lb_ctx s2) = db /\ num_queues (lb_ctx s2) = cores /\
       connected_context kl ol cores app nic akey rkey (lb_qs s2) (remote_qs (lb_link s2))).
Proof.
  intros HA HB [(c & Hc1 & Hc2 & Hc3) (x & f & k & Hx & Hcm) (free & Hdb) (Hcx & Hmr & Hme)].
  destruct (newctx_remote_ok kl ol cores s qp fd app akl akey raw HA) as (s1 & E1 & K1 & K2 & K3 & K4 & K5 & K6).
  eexists _, s1. split; [exact E1|]. intros Hl Hk. rewrite <- Hl in K4, K5, K6.
  destruct (handle_recv_reg_ctx_ok kl ol cores conn cs n c a x ctx nic lkey rkey e app akl akey fd db free _
    HB HA Hc1 Hc2 Hc3 Hx (ex_intro _ f (ex_intro _ k Hcm)) Hdb Hcx Hmr Hme Hk K5) as (r & l1 & E2 & [M0 M1 M2 M3 M4] & R1 & x' & R2 & R3 & R4 & R5).
  { intros i Hi. destruct (K6 i Hi) as [-> _]. eauto. }
  specialize (M2 _ K5). cbv zeta in M2. destruct M2 as [M2 M2'].
  exists r, l1, x'. split_and!; try done.
  { intros i Hi. destruct (M3 i _ Hi (proj1 (K6 i Hi))) as [X _].
    exact (flexnic_queues_at shm r x' nic lkey rkey kl ol cores _ conn _ _ i HB Hi R3 (ex_intro _ f (ex_intro _ k (eq_trans R4 Hcm))) M1 M2 X). }
  intros l2 Hl2 Hk2. set (s1' := set_link (set_qs s1 (remote_qs l1)) l2).
  assert (0 < kl /\ 0 < ol) as [P1 P2] by apply HA. assert (forall j, 0 <= j < cores -> _) as Ap by (intros j Hj; exact (fun i Hi => offsets_apart kl ol i j P1 P2 Hi (proj1 Hj))).
  assert (lb_qs s1' !! app = Some (new_queue raw app (kl + SIZEOF_RDMA_QUEUE) qp akl akey)) as Q1.
  { simpl. rewrite <- (Z.add_0_r app), M4, Z.add_0_r; [exact K4|unfold off_kout, SIZEOF_RDMA_QUEUE; lia|].
    intros i Hi. destruct (Ap i Hi i ltac:(lia)). lia. }
  assert (forall i, 0 <= i < cores -> lb_qs s1' !! (app + off_tx kl ol i) = Some (new_queue raw (app + off_tx kl ol i) tx_bytes qp akl akey)) as Q2.
  { intros i Hi. simpl. rewrite M4; [exact (proj2 (K6 i Hi))|by apply (Ap i Hi i); lia|]. intros j Hj. apply (Ap j Hj i). lia. }
  destruct (newctx_acked_ok kl ol cores s1' app nic lkey db cores _ _ HA HB K1 K3 Q1 eq_refl (eq_trans (f_equal (.!! nic) Hl2) M1)) as (s2 & E3 & C & [N1 N2] & N3 & N4).
  { intros i Hi. destruct (M3 i _ Hi (proj1 (K6 i Hi))) as (_ & _ & X). eexists _, _. split; [exact (Q2 i Hi)|]. split; [done|]. simpl. rewrite Hl2. exact X. }
  change (remote_key (lb_link s1')) with (remote_key l2) in *. rewrite Hk2 in *.
  exists s2. rewrite C. split_and!; try done. split_and!.
  - eapply new_connected; [|exact N1|exact N2]. unfold SIZEOF_RDMA_QUEUE. lia.
  - destruct (N4 (off_kout kl)) as [F1 F2]; [unfold off_kout, SIZEOF_RDMA_QUEUE; lia|intros i Hi; apply not_eq_sym, (Ap i Hi i); lia|].
    eapply new_connected; [|rewrite F2; simpl; rewrite Hl2; exact M2|rewrite F1; exact M2']. lia.
  - intros i Hi. destruct (M3 i _ Hi (proj1 (K6 i Hi))) as (X1 & X2 & X3).
    destruct (N4 (off_rx kl ol i)) as [F1 F2]; [apply (Ap i Hi i); lia|intros j Hj; apply not_eq_sym, (Ap i Hi j); lia|]. split.
    + eapply new_connected; [|rewrite F2; simpl; rewrite Hl2; exact X1|rewrite F1; exact X2]. done.
    + destruct (N3 i _ _ Hi (Q2 i Hi) (eq_trans (f_equal (.!! _) Hl2) X3)) as [Y1 Y2]. eapply new_connected; [|exact Y1|exact Y2]. done.
Qed.
End Both.

(** ** A concrete run

    The other side's memory with its key; one core; queues of 64 bytes to and from the
    slow path. *)
Module SetupEx.
Definition far : Type := gmap Z rdma_queue * Z.
#[global] Instance far_link : RdmaLink far := {
  post_write_buf l _ _ := (-1, l); post_write_tx l _ := (-1, l); post_read_rx l o := (-1, o, l);
  post_write_endpoints l r t :=
    match l.1 !! ep_addr r with
    | Some q => if ep_rkey r =? l.2 then (0, (<[ep_addr r := q <| rx := r |> <| tx := t |> <| paired := true |>]> l.1, l.2)) else (-1, l)
    | None => (-1, l)
    end;
}.
#[global, program] Instance far_memory : RemoteMemory far := { remote_qs l := l.1; remote_key l := l.2 }.
Next Obligation. intros [m k] r t q Hq Hk. simpl in *. rewrite Hq, Hk, Z.eqb_refl. by eexists. Qed.

Definition lib : lib_state far := mk_lib ∅ (∅, 0) ∅ (mk_fctx 0 0 [] None None 0 0 0 0 0) [] 0.
Definition conn : rdma_connection := mk_conn 0 0 [] RCONN_TYPE_APP (Some 5) [] [].
Definition mem : nic_env := mk_nenv Posted true (fun _ => true) (Some 8192) (Some (31, 32)) (mk_amem None false 0 [] 0)
  (mk_xmem (Some 77) [] (fun _ => [])).
Definition app_remote : reg_app := mk_rapp 0 (CtRemote (-1) 9) 0 [] (resp0 1) queues0 [] None None 0 false.
Definition nic (l : far) : nic_proc RegEx.slow far :=
  mk_nic (put_rapp RegEx.start 5 app_remote) l ∅ None None None [].
End SetupEx.

Lemma remote_context_connected_witness :
  exists msg s1, newctx_remote 64 64 1 SetupEx.lib 1 40 (Some 4096) (Some (21, 22)) (fun _ => []) = Ok (Some msg, s1) /\
  let n := SetupEx.nic (lb_qs s1, 22) in
  exists r l1 s2, handle_recv_reg_ctx 1 64 64 9 9 msg SetupEx.mem {[9 := SetupEx.conn]} n = Ok (0, {[9 := SetupEx.conn]}, set_reg n r l1) /\
    newctx_acked 64 64 1 (set_link (set_qs s1 (remote_qs l1)) (rg_mem r, 32)) (mk_ctx_ack 8192 31 32 1 1) = Ok s2 /\
    connected_context 64 64 1 4096 8192 22 32 (lb_qs s2) (remote_qs (lb_link s2)).
Proof.
  destruct (newctx_remote_ok 64 64 1 SetupEx.lib 1 40 4096 21 22 (fun _ => [])) as (s1 & E & _); [by constructor|].
  eexists _, s1. split; [exact E|]. intros n.
  destruct (remote_context_connected 64 64 1 SetupEx.lib 1 4096 21 22 (fun _ => []) 40 n {[9 := SetupEx.conn]} 9 5 1 77 8192 31 32 SetupEx.mem 0)
    as (msg & s1' & E' & X).
  - by constructor.
  - by constructor.
  - constructor; [by eexists|eexists _, _, _; split; [by vm_compute|done]|eexists; by vm_compute|by vm_compute].
  - rewrite E in E'. injection E' as <- <-. destruct (X eq_refl eq_refl) as (r & l1 & x & E2 & _ & _ & _ & _ & _ & Y).
    destruct (Y (rg_mem r, 32) eq_refl eq_refl) as (s2 & E3 & _ & _ & _ & _ & _ & C). exists r, l1, s2. split_and!; done.
Defined.
