(* ===== verification/HostRelay.v ===== *)
(** * The host process (tas_host/nicif.c, tas_host/tas_host.c)

    When the service runs on a SmartNIC, a process on the host stands in for it: it
    keeps a copy of [tas_info], gives applications descriptors to wake the service, and
    relays wake-ups in both directions. Theorems are in RelaySpec. *)
From S2P Require Import Prelude AppReg RdmaMsg RdmaNic.

#[local] Open Scope Z_scope.

(** ** The connection to the NIC (tas_host/nicif.c) *)

(** Contexts of the connection, the connection, the copy of [tas_info] (its magic, IP
    address and port), and the descriptors of applications that were written. *)
Record host_proc := mk_host {
  hp_hn : gmap Z host_nic_context;
  hp_conn : option Z;
  hp_magic : list Z;
  hp_nic_ip : Z;
  hp_nic_port : Z;
  hp_woken : list Z;
}.
#[export] Instance eta_host_proc : Eta host_proc := fun a =>
  mk_host (hp_hn a) (hp_conn a) (hp_magic a) (hp_nic_ip a) (hp_nic_port a) (hp_woken a).

(** The address of [tas_info], and the configured address and port. *)
Section HostConn.
Context (tas_info config_ip config_port : Z).

Definition hn_of (c : rdma_connection) (a : host_proc) : outcome (Z * host_nic_context) :=
  match context c with
  | Some h => match hp_hn a !! h with Some x => Ok (h, x) | None => Stop OutOfBounds end
  | None => Stop OutOfBounds
  end.
Definition set_hn (a : host_proc) (h : Z) (x : host_nic_context) : host_proc := a <| hp_hn := <[h := x]> (hp_hn a) |>.
Definition is_interface (c : rdma_connection) : bool := match context_type c with RCONN_TYPE_INTERFACE => true | _ => false end.

Definition host_recv_bases (conn opaque rkey : Z) (cs : gmap Z rdma_connection) (a : host_proc)
  : outcome (Z * gmap Z rdma_connection * host_proc) :=
  c ← get_conn cs conn; _ ← c_assert (is_interface c);
  '(h, x) ← hn_of c a;
  mret (0, cs, set_hn a h (x <| hn_bases := (opaque, rkey) |> <| hn_flags := Z.lor (hn_flags x) RC_FLAG_RECEIVED_BASES |>)).

(** [tas_info] was written by the NIC. *)
Definition handle_imm_tas_info (conn : Z) (cs : gmap Z rdma_connection) (a : host_proc)
  : outcome (Z * gmap Z rdma_connection * host_proc) :=
  c ← get_conn cs conn;
  if negb (bool_decide (hp_magic a = FLEXNIC_MAGIC)) then mret (-1, cs, a)
  else
    let a := a <| hp_nic_ip := config_ip |> <| hp_nic_port := config_port |> in
    '(h, x) ← hn_of c a;
    mret (0, cs, set_hn a h (x <| hn_flags := Z.lor (hn_flags x) RC_FLAG_RECEIVED_INFO |>)).

(** [written]: whether the descriptor could be written. *)
Definition handle_wakeup (conn fd : Z) (written : bool) (cs : gmap Z rdma_connection) (a : host_proc)
  : outcome (Z * gmap Z rdma_connection * host_proc) :=
  c ← get_conn cs conn; _ ← c_assert (is_interface c);
  mret (if written then 0 else -1, cs, a <| hp_woken := hp_woken a ++ [fd] |>).

Inductive host_handler := HInvalid | HRecvBases | HTasInfo | HWakeup.
Definition host_recv (h : host_handler) (conn : Z) (m : rdma_msg) (written : bool) (cs : gmap Z rdma_connection) (a : host_proc)
  : outcome (Z * gmap Z rdma_connection * host_proc) :=
  match h, m with
  | HRecvBases, MsgBases o k => host_recv_bases conn o k cs a
  | HWakeup, MsgWakeupApp fd => handle_wakeup conn fd written cs a
  | _, _ => mret (-1, cs, a)
  end.
Definition host_plain (h : host_handler) (conn : Z) (_ : bool) (cs : gmap Z rdma_connection) (a : host_proc)
  : outcome (Z * gmap Z rdma_connection * host_proc) :=
  match h with
  | HTasInfo => handle_imm_tas_info conn cs a
  | _ => mret (-1, cs, a)
  end.
#[export] Instance host_handlers : Handlers host_handler host_proc bool := {
  run_recv := host_recv; run_plain := host_plain;
  handle_recv_invalid := HInvalid; handle_imm_invalid := HInvalid; handle_send_invalid := HInvalid;
}.

Definition nicif_handlers (s : rdma_state host_handler host_proc) (recv imm send : bool)
  : outcome (rdma_state host_handler host_proc) :=
  '(rv, s) ← rdma_common_init s recv imm send; _ ← c_assert (rv =? 0);
  '(rv, s) ← add_recv_handler s RDMA_MSG_SEND_BASES HRecvBases; _ ← c_assert (rv =? 0);
  '(rv, s) ← add_imm_handler s RDMA_IMM_TAS_INFO HTasInfo; _ ← c_assert (rv =? 0);
  '(rv, s) ← add_recv_handler s RDMA_MSG_WAKEUP_APP HWakeup; _ ← c_assert (rv =? 0);
  mret s.

Inductive host_cm_event :=
| HcAddrResolved (b : build_env) (added resolving : bool)
| HcRouteResolved (connecting : bool)
| HcEstablished (conn : Z) (mem : option Z) (mr : option (Z * Z)) (p : posting)
| HcDisconnected (conn : Z) (unmapped : bool)
| HcOther.

Definition host_cm (s : rdma_state host_handler host_proc) (ev : host_cm_event)
  : outcome (Z * rdma_state host_handler host_proc) :=
  match ev with
  | HcAddrResolved b added resolving =>
      let add := bool_decide (rd_ctx s = None) in
      '(conn, s) ← rdma_common_build_connection s b;
      match conn with
      | None => mret (-1, s)
      | Some conn =>
          let s := set_proc s ((rd_proc s) <| hp_conn := Some conn |>) in
          _ ← c_assert (negb add || added); mret (if resolving then 0 else -1, s)
      end
  | HcRouteResolved connecting => mret (if connecting then 0 else -1, s)
  | HcEstablished conn mem mr p =>
      '(rv, cs, hn) ← rdma_common_send_bases (rd_conns s) (hp_hn (rd_proc s)) tas_info conn mem mr p;
      mret (if rv =? 0 then 0 else -1, set_proc (set_conns s cs) ((rd_proc s) <| hp_hn := hn |>))
  | HcDisconnected conn unmapped =>
      _ ← c_assert (bool_decide (hp_conn (rd_proc s) = Some conn));
      c ← get_conn (rd_conns s) conn;
      let '(_, hn) := rdma_common_free_conn_context c (hp_hn (rd_proc s)) unmapped in
      mret (-1, set_proc (set_conns s (delete conn (rd_conns s))) ((rd_proc s) <| hp_hn := hn |>))
  | HcOther => mret (-1, s)
  end.

End HostConn.

(** ** The loop (tas_host/tas_host.c)

    One round: [epoll_wait] fills the front of the array of events. What system calls
    give for the event at each index: *)
Record relay_env := mk_relay {
  re_nic : Z -> Z;                      (** [on_nicif_event] *)
  re_accept : Z -> option Z;            (** [accept] *)
  re_sent : Z -> bool;                  (** all messages with descriptors were sent *)
  re_read : Z -> bool;                  (** the descriptor could be read *)
  re_apps : Z -> list (Z * option Z);   (** applications with a request; the byte at its descriptor *)
}.

(** The descriptors of the process: to the NIC, for new applications, to wake the slow
    path, of the applications' epoll, and to wake cores. *)
Record relay_fds := mk_fds { nicif_fd : Z; mfd : Z; k_evfd : Z; app_epfd : Z; fp_evfds : list Z }.

(** The applications that are watched; in order, what was accepted with the messages it
    was sent, and what applications were answered; and the flags of the round. *)
Record relay_state := mk_rstate {
  rl_apps : gset Z;
  rl_accepted : list (Z * list (list Z));
  rl_answered : list (Z * Z);
  notify_slow : bool;
  notify_fast : list bool;
  needs_notify : bool;
}.
#[export] Instance eta_relay : Eta relay_state := fun s =>
  mk_rstate (rl_apps s) (rl_accepted s) (rl_answered s) (notify_slow s) (notify_fast s) (needs_notify s).

Section Relay.
Context (f : relay_fds) (e : relay_env).
Definition n_cores : Z := Z.of_nat (length (fp_evfds f)).

(** A request of each application: if it is not complete, has no descriptor or cannot be
    answered ([None]) the process ends. The descriptor is read as one byte; the
    application is not watched any more. *)
Fixpoint answer_apps (l : list (Z * option Z)) (s : relay_state) : outcome relay_state :=
  match l with
  | [] => mret s
  | (app_fd, ctx_fd) :: l =>
      match ctx_fd with
      | None => Stop Aborted
      | Some fd =>
          _ ← c_assert (bool_decide (app_fd ∈ rl_apps s));
          answer_apps l (s <| rl_apps := rl_apps s ∖ {[app_fd]} |> <| rl_answered := rl_answered s ++ [(app_fd, u8 fd)] |>)
      end
  end.

(** A new application. The variable [n], the number of events, is used for the size of a
    batch of descriptors: the result is what it is afterwards. *)
Definition accept_app (i n : Z) (s : relay_state) : outcome (Z * relay_state) :=
  match re_accept e i with
  | None => Stop Aborted
  | Some cfd =>
      if negb (re_sent e i) then Stop Aborted
      else
        let last := if n_cores mod 4 =? 0 then 4 else n_cores mod 4 in
        mret (if n_cores =? 0 then n else last,
              s <| rl_apps := rl_apps s ∪ {[cfd]} |>
                <| rl_accepted := rl_accepted s ++ [(cfd, fd_messages (k_evfd f) (fp_evfds f))] |>)
  end.

(** Cores whose descriptor it is. *)
Definition wake_fast (fd : Z) (s : relay_state) : relay_state :=
  s <| notify_fast := zip_with (fun x b => (x =? fd) || b) (fp_evfds f) (notify_fast s) |> <| needs_notify := true |>.

(** The result is [None] when the process returns, or where the loop ended ([i]). *)
Fixpoint relay_events (fuel : nat) (evs : list Z) (i n : Z) (s : relay_state) : outcome (option Z * relay_state) :=
  match fuel with
  | O => Stop OutOfFuel
  | S fuel =>
      if i >=? n then mret (Some i, s)
      else
        match evs !! Z.to_nat i with
        | None => Stop OutOfBounds
        | Some fd =>
            if fd =? nicif_fd f then
              if re_nic e i =? 0 then relay_events fuel evs (i + 1) n s else mret (None, s)
            else if fd =? mfd f then '(n, s) ← accept_app i n s; relay_events fuel evs (i + 1) n s
            else if fd =? k_evfd f then
              if re_read e i
              then relay_events fuel evs (i + 1) n (s <| notify_slow := true |> <| needs_notify := true |>)
              else Stop Aborted
            else if fd =? app_epfd f then s ← answer_apps (re_apps e i) s; relay_events fuel evs (i + 1) n s
            else if existsb (fun x => x =? fd) (fp_evfds f) && negb (re_read e i) then Stop Aborted
            else relay_events fuel evs (i + 1) n (wake_fast fd s)
        end
  end.

(** [1 << i] for each core that is to be woken; shifting into or beyond the sign is
    undefined. *)
Fixpoint fp_flags (l : list bool) (i flags : Z) : outcome Z :=
  match l with
  | [] => mret flags
  | b :: l =>
      if b then if i >=? 31 then Stop Undefined else fp_flags l i (Z.lor flags (Z.shiftl 1 i))
      else fp_flags l i flags
  end.

(** One round, with the first [n] events of [evs] new; the message to the NIC, if any.
    The fields of the message are set as in the code. *)
Definition relay_round (evs : list Z) (n : Z) (s : relay_state) : outcome (option (option rdma_msg) * relay_state) :=
  let s := s <| notify_slow := false |> <| needs_notify := false |> <| notify_fast := replicate (length (fp_evfds f)) false |> in
  '(r, s) ← relay_events 51 evs 0 n s;
  match r with
  | None => mret (None, s)
  | Some i =>
      if needs_notify s then
        flags ← fp_flags (notify_fast s) i 0;
        mret (Some (Some (MsgWakeupTas flags (if notify_slow s then 1 else 0))), s)
      else mret (Some None, s)
  end.

(** The message goes out over the connection to the NIC, or the process ends. *)
Definition relay_send (cs : gmap Z rdma_connection) (nic_conn : Z) (m : option rdma_msg) (p : posting)
  : outcome (gmap Z rdma_connection) :=
  match m with
  | None => mret cs
  | Some m => '(rv, cs) ← send_on cs nic_conn m p; _ ← c_assert (rv =? 0); mret cs
  end.

End Relay.
