(* ===== verification/RelaySpec.v ===== *)
(** * Wake-ups through the host process, and the descriptors an application gets

    The NIC wakes what a wake-up says; what the host process writes into it is not what
    it was asked for. *)
From S2P Require Import Prelude AppReg RdmaMsg RdmaNic RdmaApp HostRelay.

#[local] Open Scope Z_scope.

(** ** Descriptors *)

Lemma receive_batches n : forall fds off evfds num, (length fds <= n)%nat -> 0 <= off <= FLEXTCP_MAX_FTCPCORES ->
  num = off + Z.of_nat (length fds) -> num < 4294967296 ->
  receive_fds (length (fd_batches n fds)) num off (fd_batches n fds) evfds =
    if num <=? FLEXTCP_MAX_FTCPCORES then Ok (evfds ++ fds) else Stop OutOfBounds.
Proof.
  unfold FLEXTCP_MAX_FTCPCORES. induction n as [|n IH]; intros fds off evfds num Hn Ho Hnum Hu.
  { destruct fds; [|simpl in Hn; lia]. simpl in *. rewrite Z.geb_leb, (proj2 (Z.leb_le _ _)), (proj2 (Z.leb_le num _)) by lia. by rewrite app_nil_r. }
  destruct fds as [|fd fds]. { simpl in *. rewrite Z.geb_leb, (proj2 (Z.leb_le _ _)), (proj2 (Z.leb_le num _)) by lia. by rewrite app_nil_r. }
  set (l := fd :: fds) in *. assert (fd_batches (S n) l = take 4 l :: fd_batches n (drop 4 l)) as -> by done.
  assert (0 < length l)%nat by (simpl; lia). cbn [length receive_fds]. unfold FLEXTCP_MAX_FTCPCORES. rewrite !Z.geb_leb, (proj2 (Z.leb_gt _ _)) by lia.
  rewrite !u32_small by lia. rewrite length_take. pose proof (length_drop l 4) as Hd.
  destruct (Z.leb_spec 4 (num - off)) as [H4|H4].
  - rewrite (proj2 (Z.eqb_eq _ 4)) by lia. cbn [negb]. rewrite Z.gtb_ltb.
    destruct (Z.ltb_spec 16 (off + 4)); [by rewrite (proj2 (Z.leb_gt _ _)) by lia|].
    rewrite (IH (drop 4 l) (off + 4) (evfds ++ take 4 l) num) by lia. by rewrite <- app_assoc, take_drop.
  - rewrite (proj2 (Z.eqb_eq _ (num - off))) by lia. cbn [negb]. rewrite Z.gtb_ltb.
    destruct (Z.ltb_spec 16 (off + (num - off))); [by rewrite (proj2 (Z.leb_gt _ _)) by lia|].
    rewrite (IH (drop 4 l) (off + (num - off)) (evfds ++ take 4 l) num) by lia. by rewrite <- app_assoc, take_drop.
Qed.

(** An application that connects gets what the service sends: the descriptor of the
    slow path and those of all cores, in order, in messages of up to four. It has room
    for 16 cores; more are written beyond the array. *)
Theorem descriptors_received k fds : Z.of_nat (length fds) < 4294967296 ->
  flextcp_kernel_connect true true (Z.of_nat (length fds)) (fd_messages k fds) =
    if Z.of_nat (length fds) <=? FLEXTCP_MAX_FTCPCORES then Ok (Some (k, fds)) else Stop OutOfBounds.
Proof.
  intros H. unfold flextcp_kernel_connect, fd_messages. cbn [negb orb].
  rewrite (receive_batches (length fds) fds 0 []) by (unfold FLEXTCP_MAX_FTCPCORES; lia).
  destruct (_ <=? _); done.
Qed.
Lemma descriptors_received_witness :
  flextcp_kernel_connect true true 6 (fd_messages 9 [11; 12; 13; 14; 15; 16]) = Ok (Some (9, [11; 12; 13; 14; 15; 16])).
Proof. apply (descriptors_received 9 [11; 12; 13; 14; 15; 16]). vm_compute. reflexivity. Defined.

(** ** Waking cores *)

Definition cores_of (wakeup_fast to : Z) (n : nat) : list wake :=
  WakeCore <$> filter (fun c => Z.testbit wakeup_fast (c - to)) (seqZ to (Z.of_nat n)).

Lemma filter_bits_ext (P Q : Z -> bool) (l : list Z) : (forall x, x ∈ l -> P x = Q x) -> filter P l = filter Q l.
Proof.
  induction l as [|x l IH]; intros H; [done|]. rewrite !filter_cons, IH by (intros; apply H; by constructor).
  rewrite (H x) by constructor. done.
Qed.

Lemma cores_of_S fast to n : cores_of fast to (S n) =
  (if Z.testbit fast 0 then [WakeCore to] else []) ++ cores_of (Z.shiftr fast 1) (to + 1) n.
Proof.
  unfold cores_of. rewrite seqZ_cons by lia. replace (Z.pred (Z.of_nat (S n))) with (Z.of_nat n) by lia. replace (Z.succ to) with (to + 1) by lia.
  rewrite filter_cons. rewrite Z.sub_diag.
  assert (filter (fun c => Z.testbit fast (c - to)) (seqZ (to + 1) (Z.of_nat n)) =
          filter (fun c => Z.testbit (Z.shiftr fast 1) (c - (to + 1))) (seqZ (to + 1) (Z.of_nat n))) as ->.
  { apply filter_bits_ext. intros c Hc. apply elem_of_seqZ in Hc. rewrite Z.shiftr_spec by lia.
    by replace (c - (to + 1) + 1) with (c - to) by lia. }
  destruct (Z.testbit fast 0) eqn:E; case_decide; try done; by simpl.
Qed.

Section Wake.
Context {T L : Type} `{SlowApps T} `{RdmaLink L}.
Context (cores_num : Z).

Lemma wake_cores_ok (e : nic_env) n : (forall c, ne_notify e (WakeCore c) = true) ->
  forall fuel fast to woken, (n < fuel)%nat -> 0 <= fast < 2 ^ Z.of_nat n -> 0 <= to -> to + Z.of_nat n = cores_num ->
  wake_cores cores_num fuel fast to e woken = Ok (true, woken ++ cores_of fast to n).
Proof.
  intros He. induction n as [|n IH]; intros fuel fast to woken Hf Hw Ht Hc; (destruct fuel as [|fuel]; [lia|]); cbn [wake_cores].
  { assert (fast = 0) as -> by (simpl in Hw; lia). by rewrite app_nil_r. }
  rewrite cores_of_S. pose proof (Z.pow_succ_r 2 (Z.of_nat n) ltac:(lia)) as Hp. rewrite <- Nat2Z.inj_succ in Hp.
  pose proof (Z.shiftr_div_pow2 fast 1 ltac:(lia)) as Hs. rewrite Z.pow_1_r in Hs.
  assert (0 <= Z.shiftr fast 1 < 2 ^ Z.of_nat n) as Hr by (rewrite Hs; split; [apply Z.div_pos; lia|apply Z.div_lt_upper_bound; lia]).
  destruct (Z.leb_spec fast 0).
  { assert (fast = 0) as -> by lia. specialize (IH (S n) 0 (to + 1) woken ltac:(lia) ltac:(lia) ltac:(lia) ltac:(lia)).
    cbn in IH. injection IH as IH. change (Z.shiftr 0 1) with 0. change (Z.testbit 0 0) with false. cbn [app]. by rewrite <- IH. }
  rewrite Z.gtb_ltb, (proj2 (Z.ltb_ge _ _)) by lia.
  assert (Z.land fast 1 = Z.b2z (Z.testbit fast 0)) as -> by (rewrite Z.bit0_odd; change 1 with (Z.ones 1); rewrite Z.land_ones by lia; apply Zmod_odd).
  rewrite Z.geb_leb, (proj2 (Z.leb_gt _ _)) by lia. rewrite He.
  destruct (Z.testbit fast 0); cbn [Z.b2z Z.eqb negb]; rewrite IH by lia; by rewrite <- ?app_assoc.
Qed.

(** A wake-up that reaches the NIC wakes the slow path, if it says so, and then
    exactly the cores whose bit is set, in order. *)
Theorem wakeup_wakes conn c slow fast (e : nic_env) cs (a : nic_proc T L) : 0 <= cores_num <= 64 -> 0 <= fast < 2 ^ cores_num ->
  (forall w, ne_notify e w = true) -> cs !! conn = Some c -> context_type c = RCONN_TYPE_INTERFACE ->
  exists a', handle_recv_wakeup cores_num conn slow fast e cs a = Ok (0, cs, a') /\
    np_woken a' = np_woken a ++ (if slow =? 0 then [] else [WakeSlow]) ++
      (WakeCore <$> filter (fun i => Z.testbit fast i) (seqZ 0 cores_num)) /\
    np_reg a' = np_reg a /\ np_link a' = np_link a.
Proof.
  intros Hn Hf He Hc Ht. unfold handle_recv_wakeup, get_conn. rewrite Hc. osimpl. rewrite Ht. osimpl. rewrite He, andb_false_r.
  pose proof (Z2Nat.id cores_num ltac:(lia)) as En.
  rewrite (wake_cores_ok e (Z.to_nat cores_num)) by (rewrite ?En; done || lia). osimpl. eexists. split; [done|].
  unfold cores_of. rewrite En.
  assert (filter (fun c => Z.testbit fast (c - 0)) (seqZ 0 cores_num) = filter (fun c => Z.testbit fast c) (seqZ 0 cores_num)) as ->
    by (apply filter_bits_ext; intros i _; by rewrite Z.sub_0_r).
  destruct (slow =? 0); simpl; by rewrite <- ?app_assoc.
Qed.

(** One core more is taken to exist. *)
Lemma wake_off_by_one conn c (e : nic_env) cs (a : nic_proc T L) : cs !! conn = Some c -> context_type c = RCONN_TYPE_INTERFACE ->
  cores_num = 4 -> handle_recv_wakeup cores_num conn 0 16 e cs a = Stop OutOfBounds.
Proof. intros Hc Ht ->. unfold handle_recv_wakeup, get_conn. rewrite Hc. osimpl. rewrite Ht. done. Qed.
End Wake.

Lemma wakeup_wakes_witness :
  let n := mk_nic (T := unit) (L := unit) (mk_reg tt [] 0 ∅ ∅ [] (Util.Nbqueue.nbqueue_init ∅) (Util.Nbqueue.nbqueue_init ∅) ∅ ∅ [] [] [] [])
             tt ∅ None None None [] in
  let e := mk_nenv Posted true (fun _ => true) None None (mk_amem None false 0 [] 0) (mk_xmem None [] (fun _ => [])) in
  let cs : gmap Z rdma_connection := {[9 := mk_conn 0 0 [] RCONN_TYPE_INTERFACE None [] []]} in
  exists a', handle_recv_wakeup 4 9 1 5 e cs n = Ok (0, cs, a') /\ np_woken a' = [WakeSlow; WakeCore 0; WakeCore 2].
Proof.
  intros n e cs.
  destruct (wakeup_wakes 4 9 (mk_conn 0 0 [] RCONN_TYPE_INTERFACE None [] []) 1 5 e cs n) as (a' & E & W & _);
    [lia|lia|done|apply lookup_singleton_eq|done|].
  exists a'. split; [exact E|]. rewrite W. vm_compute. reflexivity.
Defined.

(** ** What the host process relays *)
Section Relay.
Context (f : relay_fds) (e : relay_env).
Hypothesis fds_differ : NoDup (nicif_fd f :: mfd f :: k_evfd f :: app_epfd f :: fp_evfds f).

Lemma no_flags n i flags : fp_flags (replicate n false) i flags = Ok flags.
Proof. by induction n. Qed.
Lemma one_flag l j i flags : 0 <= i < 31 -> l !! j = Some true -> exists m, fp_flags l i flags = Ok (Z.lor flags m) /\ m = Z.shiftl 1 i.
Proof.
  intros Hi. revert j flags. induction l as [|b l IH]; intros j flags Hj; [done|].
  assert (forall l' fl, fp_flags l' i (Z.lor fl (Z.shiftl 1 i)) = Ok (Z.lor fl (Z.shiftl 1 i))) as D.
  { induction l' as [|b' l' IH']; intros fl; [done|]. simpl. destruct b'; [|apply IH'].
    rewrite Z.geb_leb, (proj2 (Z.leb_gt _ _)) by lia. by rewrite <- Z.lor_assoc, Z.lor_diag, IH'. }
  eexists. split; [|done]. simpl. destruct b.
  - rewrite Z.geb_leb, (proj2 (Z.leb_gt _ _)) by lia. apply D.
  - destruct j as [|j]; [done|]. by destruct (IH j flags Hj) as (m & E & ->).
Qed.

(** A kick of the slow path alone becomes a wake-up of core 0. *)
Lemma slow_kick_relayed s : re_read e 0 = true ->
  exists s', relay_round f e [k_evfd f] 1 s = Ok (Some (Some (MsgWakeupTas 0 1)), s').
Proof.
  intros Hr. apply NoDup_cons in fds_differ as [N1 F]. apply NoDup_cons in F as [N2 _].
  rewrite !not_elem_of_cons in N1; rewrite !not_elem_of_cons in N2. unfold relay_round. change 51%nat with (S (S 49)). generalize 49%nat as k. intros k. cbn [relay_events].
  change (0 >=? 1) with false. change ([k_evfd f] !! Z.to_nat 0) with (Some (k_evfd f)). cbv iota.
  rewrite (proj2 (Z.eqb_neq (k_evfd f) (nicif_fd f))), (proj2 (Z.eqb_neq (k_evfd f) (mfd f))), Z.eqb_refl, Hr by naive_solver.
  change (0 + 1 >=? 1) with true. osimpl. simpl. rewrite no_flags. osimpl. by eexists.
Qed.

(** A kick of a core alone, whichever it is, becomes a wake-up of the slow path. *)
Lemma core_kick_relayed s j fd : fp_evfds f !! j = Some fd -> re_read e 0 = true ->
  exists s', relay_round f e [fd] 1 s = Ok (Some (Some (MsgWakeupTas 2 0)), s').
Proof.
  intros Hj Hr. pose proof (list_elem_of_lookup_2 _ _ _ Hj) as Hin.
  apply NoDup_cons in fds_differ as [N1 F]. apply NoDup_cons in F as [N2 F]. apply NoDup_cons in F as [N3 F].
  apply NoDup_cons in F as [N4 _]. rewrite !not_elem_of_cons in N1; rewrite !not_elem_of_cons in N2; rewrite !not_elem_of_cons in N3.
  assert (fd <> nicif_fd f /\ fd <> mfd f /\ fd <> k_evfd f /\ fd <> app_epfd f) as (D1 & D2 & D3 & D4)
    by (split_and!; intros ->; tauto).
  unfold relay_round. change 51%nat with (S (S 49)). generalize 49%nat as k. intros k. cbn [relay_events]. change (0 >=? 1) with false. change ([fd] !! Z.to_nat 0) with (Some fd). cbv iota.
  rewrite (proj2 (Z.eqb_neq _ _) D1), (proj2 (Z.eqb_neq _ _) D2), (proj2 (Z.eqb_neq _ _) D3), (proj2 (Z.eqb_neq _ _) D4), Hr, andb_false_r.
  change (0 + 1 >=? 1) with true. osimpl. cbn [needs_notify wake_fast]. simpl.
  change (0 + 1) with 1. match goal with |- context [fp_flags ?l 1 0] => destruct (one_flag l j 1 0 ltac:(lia)) as (m & -> & ->) end.
  - rewrite lookup_zip_with, Hj. simpl. rewrite lookup_replicate_2 by (by eapply lookup_lt_Some). simpl. by rewrite Z.eqb_refl.
  - osimpl. by eexists.
Qed.
End Relay.

(** The descriptor of a context is answered as its low byte, and the application is not
    watched any more: there is no second context. *)
Lemma context_answered app fd l s s' : answer_apps ((app, Some fd) :: l) s = Ok s' ->
  (app, u8 fd) ∈ rl_answered s' /\ app ∉ rl_apps s'.
Proof.
  assert (forall l s s', answer_apps l s = Ok s' -> rl_apps s' ⊆ rl_apps s /\ forall x, x ∈ rl_answered s -> x ∈ rl_answered s') as M.
  { clear. induction l as [|[a [fd|]] l IH]; intros s s' E; simpl in E; [by injection E as <-| |done].
    apply bind_Ok_inv in E as (? & _ & E). destruct (IH _ _ E) as [A B]. simpl in *. split; [set_solver|]. intros y Hy. apply B, elem_of_app. by left. }
  simpl. intros E. apply bind_Ok_inv in E as (? & _ & E). destruct (M _ _ _ E) as [A B]. simpl in *. split; [|set_solver].
  apply B, elem_of_app. right. by constructor.
Qed.

(** Accepting an application changes the number of events: with four cores, one event is
    followed by three that are left from before. Here the old one was of the NIC. *)
Definition four_cores : relay_fds := mk_fds 3 4 5 6 [7; 8; 9; 10].
Lemma stale_event_handled :
  exists s, relay_round four_cores (mk_relay (fun _ => -1) (fun _ => Some 20) (fun _ => true) (fun _ => true) (fun _ => []))
    [4; 3; 3; 3] 1 (mk_rstate ∅ [] [] false [] false) = Ok (None, s).
Proof. by eexists. Qed.
