(* ===== verification/LibPoll.v ===== *)
(** * Polling in the application library (lib/tas/init.c)

    Messages of the slow path and of the cores of the fast path become events for
    the application, progress of connections is reported to the fast path, and the
    application may sleep when nothing has happened for a while. *)
From S2P Require Import Prelude RdmaQueue Packets FlowState Wire AppMsg LibTas.

#[local] Open Scope Z_scope.

Definition i16 (x : Z) : Z := let y := u16 x in if y <? 32768 then y else y - 65536.

(** [struct flextcp_event]: connections and listeners by address. *)
Inductive flextcp_event :=
| EvListenOpen (status listener : Z)
| EvListenNewconn (remote_ip remote_port listener : Z)
| EvListenAccept (status conn : Z)
| EvConnOpen (status conn : Z)
| EvConnClosed (status conn : Z)
| EvConnReceived (buf len conn : Z)
| EvConnSendbuf (conn : Z)
| EvConnRxclosed (conn : Z)
| EvConnTxclosed (conn : Z)
| EvConnMoved (status conn : Z).

(** Entries of the queue from the slow path, as bytes. *)
Definition kout_type (b : list Z) : Z := get_le b 63 1.
Definition kout_opaque (b : list Z) : Z := get_le b 0 8.
Definition kout_status (b : list Z) : Z := i32 (get_le b 8 4).
Definition kout_conn_status (b : list Z) : Z := i32 (get_le b 24 4).
Definition kout_opened (b : list Z) : kernel_appin_conn_opened :=
  mk_ai_opened (get_le b 8 8) (get_le b 16 8) (get_le b 28 4) (get_le b 32 4) (get_le b 36 4)
    (get_le b 40 4) (get_le b 44 2) (get_le b 46 2).
Definition kout_accept (b : list Z) : kernel_appin_accept_conn :=
  mk_ai_accept (get_le b 8 8) (get_le b 16 8) (get_le b 28 4) (get_le b 32 4) (get_le b 36 4)
    (get_le b 40 4) (get_le b 44 4) (get_le b 48 2) (get_le b 50 2).

Section Poll.
Context {L : Type} `{RdmaLink L}.
(** [rdmafd], where the shared memory is mapped, [tas_info] and the clock. *)
Context (remote : option rdma_env) (flexnic_mem poll_cycle_tas poll_cycle_app now : Z).

Abbreviation state := (lib_state L).
Implicit Types (s : state) (c : flextcp_connection).

(** ** Messages of the slow path *)

(** The two assertions on the queues of a connection. *)
Definition own_queues s c : outcome unit :=
  rx ← q_at s (fc_rx c);
  _ ← c_assert (ep_addr (RdmaQueue.rx rx) =? fc_rx c);
  tx ← q_at s (fc_tx c);
  c_assert (ep_addr (RdmaQueue.tx tx) =? fc_tx c).

(** The bytes that were received before the connection was known to be open. *)
Definition early_bytes s c (rx_off : Z) : outcome Z :=
  q ← q_at s (match remote with None => u64 (flexnic_mem + rx_off) | Some _ => fc_rx c end);
  rq_nbytes_enqueued q.

(** Whether the events that follow the confirmation fit. *)
Definition early_fits c (enqueued_bytes avail : Z) : bool :=
  negb ((enqueued_bytes >? 0) && rx_closed c && (avail <? 3))
  && negb (((enqueued_bytes >? 0) || rx_closed c) && (avail <? 2)).

(** The queues of an open connection: those in the shared memory, or its own
    paired with them. *)
Definition attach_queues s (conn rx_off tx_off : Z) : outcome state :=
  c ← fc_at s conn;
  match remote with
  | None =>
      let c := c <| fc_rx := u64 (flexnic_mem + rx_off) |> in
      let c := c <| fc_tx := u64 (flexnic_mem + tx_off) |> in
      mret (put_fc s conn c)
  | Some e =>
      q ← q_at s (fc_tx c);
      '(rv, q, l) ← rq_pair_receiver q (lb_link s)
                      (mk_endpoint (u64 (re_shm_opaque e + tx_off)) 0 (re_shm_lkey e) (re_shm_rkey e));
      _ ← c_assert (rv =? 0);
      mret (put_q s (fc_tx c) q l)
  end.

(** The events after the confirmation. *)
Definition early_events s (conn enqueued_bytes : Z) : outcome (list flextcp_event * state) :=
  c ← fc_at s conn;
  '(evs, s) ← (if enqueued_bytes >? 0 then
                 q ← q_at s (fc_rx c);
                 let c := c <| fc_seq_rx := u32 (fc_seq_rx c + enqueued_bytes) |> in
                 mret ([EvConnReceived (q_buf q 0) enqueued_bytes conn], put_fc s conn c)
               else mret ([], s));
  mret (evs ++ (if rx_closed c then [EvConnRxclosed conn] else []), s).

Definition with_fc_status c (st : conn_state) : flextcp_connection := c <| fc_status := st |>.

Definition opened_conn c (d : kernel_appin_conn_opened) : flextcp_connection :=
  let c := with_fc_status c CONN_OPEN in
  let c := c <| fc_local_ip := aio_local_ip d |> in
  let c := c <| fc_local_port := aio_local_port d |> in
  let c := c <| fc_seq_rx := aio_seq_rx d |> in
  let c := c <| fc_seq_tx := aio_seq_tx d |> in
  let c := c <| fc_flow_id := aio_flow_id d |> in
  c <| fc_fn_core := aio_fn_core d |>.

(** [None] is the result -1: the events do not fit. *)
Definition event_kappin_conn_opened s (b : list Z) (avail : Z) : outcome (option (list flextcp_event) * state) :=
  let conn := kout_opaque b in
  let d := kout_opened b in
  let status := kout_conn_status b in
  c ← fc_at s conn;
  _ ← own_queues s c;
  if negb (status =? 0) then
    mret (Some [EvConnOpen (i16 status) conn], put_fc s conn (with_fc_status c CONN_CLOSED))
  else
    n ← early_bytes s c (aio_rx_off d);
    if negb (early_fits c n avail) then mret (None, s)
    else
      let c := opened_conn c d in
      let s := put_fc s conn c in
      _ ← own_queues s c;
      s ← attach_queues s conn (aio_rx_off d) (aio_tx_off d);
      '(evs, s) ← early_events s conn n;
      mret (Some (EvConnOpen (i16 status) conn :: evs), s).

Definition accepted_conn c (d : kernel_appin_accept_conn) : flextcp_connection :=
  let c := with_fc_status c CONN_OPEN in
  let c := c <| fc_local_ip := aia_local_ip d |> in
  let c := c <| fc_remote_ip := aia_remote_ip d |> in
  let c := c <| fc_remote_port := aia_remote_port d |> in
  let c := c <| fc_seq_rx := aia_seq_rx d |> in
  let c := c <| fc_seq_tx := aia_seq_tx d |> in
  let c := c <| fc_flow_id := aia_flow_id d |> in
  c <| fc_fn_core := aia_fn_core d |>.

Definition event_kappin_accept_conn s (b : list Z) (avail : Z) : outcome (option (list flextcp_event) * state) :=
  let conn := kout_opaque b in
  let d := kout_accept b in
  let status := kout_conn_status b in
  c ← fc_at s conn;
  n ← early_bytes s c (aia_rx_off d);
  if negb (status =? 0) then
    mret (Some [EvListenAccept (i16 status) conn], put_fc s conn (with_fc_status c CONN_CLOSED))
  else if negb (early_fits c n avail) then mret (None, s)
  else
    let s := put_fc s conn (accepted_conn c d) in
    s ← attach_queues s conn (aia_rx_off d) (aia_tx_off d);
    c ← fc_at s conn;
    _ ← own_queues s c;
    '(evs, s) ← early_events s conn n;
    mret (Some (EvListenAccept (i16 status) conn :: evs), s).

Definition event_kappin_listen_newconn (b : list Z) : flextcp_event :=
  EvListenNewconn (get_le b 8 4) (get_le b 12 2) (kout_opaque b).
Definition event_kappin_st_conn_move (b : list Z) : flextcp_event := EvConnMoved (i16 (kout_status b)) (kout_opaque b).
Definition event_kappin_st_listen_open (b : list Z) : flextcp_event := EvListenOpen (i16 (kout_status b)) (kout_opaque b).
Definition event_kappin_st_conn_closed s (b : list Z) : outcome (flextcp_event * state) :=
  let conn := kout_opaque b in
  c ← fc_at s conn;
  mret (EvConnClosed (i16 (kout_status b)) conn, put_fc s conn (with_fc_status c CONN_CLOSED)).

Definition kout_events s (b : list Z) (avail : Z) : outcome (option (list flextcp_event) * state) :=
  let type := kout_type b in
  if type =? KERNEL_APPIN_CONN_OPENED then event_kappin_conn_opened s b avail
  else if type =? KERNEL_APPIN_LISTEN_NEWCONN then mret (Some [event_kappin_listen_newconn b], s)
  else if type =? KERNEL_APPIN_ACCEPTED_CONN then event_kappin_accept_conn s b avail
  else if type =? KERNEL_APPIN_STATUS_LISTEN_OPEN then mret (Some [event_kappin_st_listen_open b], s)
  else if type =? KERNEL_APPIN_STATUS_CONN_MOVE then mret (Some [event_kappin_st_conn_move b], s)
  else if type =? KERNEL_APPIN_STATUS_CONN_CLOSE then
    '(ev, s) ← event_kappin_st_conn_closed s b; mret (Some [ev], s)
  else Stop Aborted.

Definition with_cx_flags (x : flextcp_context) (v : Z) : flextcp_context := x <| cx_flags := v |>.
Definition flag_events s : state :=
  set_fctx s (with_cx_flags (lb_ctx s) (Z.lor (cx_flags (lb_ctx s)) CTX_FLAG_POLL_EVENTS)).

(** The result is whether all messages could be taken, and the events. *)
Fixpoint kernel_poll_loop (fuel : nat) s (num : Z) (events : list flextcp_event)
  : outcome (bool * list flextcp_event * state) :=
  let i := Z.of_nat (length events) in
  if negb (i <? num) then mret (true, events, s)
  else
    match fuel with
    | O => Stop OutOfFuel
    | S fuel =>
        '(rv, b, s) ← q_dequeue s (cx_kout (lb_ctx s)) true SIZEOF_KERNEL_APPIN;
        if negb (rv =? 0) then _ ← c_assert (rv >? 0); mret (true, events, s)
        else
          '(evs, s) ← kout_events s b (num - i);
          let s := flag_events s in
          match evs with
          | None => mret (false, events, s)
          | Some evs => kernel_poll_loop fuel s num (events ++ evs)
          end
    end.
Definition kernel_poll s (num : Z) := kernel_poll_loop (S (Z.to_nat num)) s num [].

(** ** Messages of the fast path *)

(** The events of received bytes, in two pieces when they wrap around. *)
Definition received_events (q : rdma_queue) (rx_bump conn : Z) : list flextcp_event :=
  if u64 (rx_off q + rx_bump) >? buffer_size q then
    let rx_len := u32 (buffer_size q - rx_off q) in
    [EvConnReceived (q_buf q (rx_off q)) rx_len conn; EvConnReceived (q_buf q 0) (u32 (rx_bump - rx_len)) conn]
  else [EvConnReceived (q_buf q (rx_off q)) rx_bump conn].

Definition with_seq_rx c (v : Z) : flextcp_connection := c <| fc_seq_rx := v |>.
Definition with_fn_core c (v : Z) : flextcp_connection := c <| fc_fn_core := v |>.
Definition with_rx_closed c (v : bool) : flextcp_connection := c <| rx_closed := v |>.

(** The part of [event_arx_connupdate] for received bytes. *)
Definition bump_rx s (conn : Z) c (rxq : rdma_queue) (rx_bump : Z) : outcome (list flextcp_event * state) :=
  if negb (rx_bump >? 0) then mret ([], s)
  else
    n ← rq_nbytes_enqueued rxq;
    _ ← c_assert (n >=? rx_bump);
    mret (received_events rxq rx_bump conn, put_fc s conn (with_seq_rx c (u32 (fc_seq_rx c + rx_bump)))).

(** The part of [event_arx_connupdate] for acknowledged bytes. *)
Definition bump_tx s (conn tx_bump : Z) (tx_avail_ev : bool) : outcome (list flextcp_event * state) :=
  if negb (tx_bump >? 0) then mret ([], s)
  else
    c ← fc_at s conn;
    let avail_evs := if tx_avail_ev then [EvConnSendbuf conn] else [] in
    if has_all (fc_flags c) CONN_FLAG_TXEOS && negb (has_any (fc_flags c) CONN_FLAG_TXEOS_ALLOC) then
      '(rv, s) ← flextcp_conn_pushtxeos s conn;
      if negb (rv =? 0) then Stop Aborted else mret (avail_evs, s)
    else if has_all (fc_flags c) CONN_FLAG_TXEOS_ALLOC then
      _ ← c_assert (negb (has_any (fc_flags c) CONN_FLAG_TXEOS_ACK));
      if txb_bump c =? 0 then
        let c := c <| fc_flags := Z.lor (fc_flags c) CONN_FLAG_TXEOS_ACK |> in
        mret (avail_evs ++ [EvConnTxclosed conn], put_fc s conn c)
      else mret (avail_evs, s)
    else mret (avail_evs, s).

Definition evs_needed (rxq : rdma_queue) c (rx_bump : Z) (tx_avail_ev : bool) (tx_sent : Z) (eos : bool) : Z :=
  (if rx_bump >? 0 then if u64 (rx_off rxq + rx_bump) >? buffer_size rxq then 2 else 1 else 0)
  + (if tx_avail_ev then 1 else 0)
  + (if has_all (fc_flags c) CONN_FLAG_TXEOS_ALLOC && (tx_sent =? 0) then 1 else 0)
  + (if eos then 1 else 0).

Definition event_arx_connupdate s (e : arx_entry) (outn fn_core : Z) : outcome (option (list flextcp_event) * state) :=
  let conn := arx_opaque e in
  let rx_bump := arx_rx_bump e in
  let tx_bump := arx_tx_bump e in
  let eos := has_all (arx_flags e) FLEXTCP_PL_ARX_FLRXDONE in
  c ← fc_at s conn;
  let c := with_fn_core c (u16 fn_core) in
  let s := put_fc s conn c in
  match fc_status c with
  | CONN_OPEN_REQUESTED | CONN_ACCEPT_REQUESTED =>
      _ ← c_assert (tx_bump =? 0);
      mret (Some [], put_fc s conn (with_rx_closed c eos))
  | CONN_CLOSED | CONN_CLOSE_REQUESTED => mret (Some [], s)
  | CONN_OPEN =>
      rxq ← (if rx_bump >? 0 then q_at s (fc_rx c) else q_at s (fc_tx c));
      txq ← q_at s (fc_tx c);
      tx_avail_ev ← (if tx_bump >? 0 then n ← rq_nbytes_empty txq; mret (n =? 0) else mret false);
      tx_sent ← rq_nbytes_to_flush txq;
      if evs_needed rxq c rx_bump tx_avail_ev (u32 tx_sent) eos >? outn then mret (None, s)
      else
        '(rx_evs, s) ← bump_rx s conn c rxq rx_bump;
        '(tx_evs, s) ← bump_tx s conn tx_bump tx_avail_ev;
        if eos then
          c ← fc_at s conn;
          mret (Some (rx_evs ++ tx_evs ++ [EvConnRxclosed conn]), put_fc s conn (with_rx_closed c true))
        else mret (Some (rx_evs ++ tx_evs), s)
  end.

(** [fastpath_poll], which nothing calls: the entry is taken from the queue
    before its events are known to fit. *)
Fixpoint fastpath_queue_loop (fuel : nat) s (a num k : Z) (events : list flextcp_event)
  : outcome (bool * list flextcp_event * state) :=
  let i := Z.of_nat (length events) in
  if negb (i <? num) then mret (false, events, s)
  else
    match fuel with
    | O => Stop OutOfFuel
    | S fuel =>
        '(rv, b, s) ← q_dequeue s a true SIZEOF_ARX;
        if negb (rv =? 0) then _ ← c_assert (rv >? 0); mret (false, events, s)
        else
          let arx := decode_arx b in
          '(evs, s) ← (if arx_type arx =? FLEXTCP_PL_ARX_CONNUPDATE then event_arx_connupdate s arx (num - i) k
                       else mret (Some [], s));
          let s := flag_events s in
          match evs with
          | None => mret (true, events, s)
          | Some evs => fastpath_queue_loop fuel s a num k (events ++ evs)
          end
    end.

Definition next_q (x : flextcp_context) (i : Z) : Z := if i + 1 <? num_queues x then i + 1 else 0.
Definition set_next_queue s (v : Z) : state :=
  let x := lb_ctx s in
  set_fctx s (mk_fctx (cx_kin x) (cx_kout x) (cx_queues x) (bump_pending_first x) (bump_pending_last x)
                (cx_flags x) (cx_db_id x) (num_queues x) v (last_inev_ts x)).

Fixpoint fastpath_poll_queues (n : nat) s (num : Z) (events : list flextcp_event)
  : outcome (bool * list flextcp_event * state) :=
  match n with
  | O => mret (true, events, s)
  | S n =>
      if negb (Z.of_nat (length events) <? num) then mret (true, events, s)
      else
        cq ← ctx_queue_at s (next_queue (lb_ctx s));
        q ← q_at s (cq_rx cq);
        '(ran_out, events, s) ← fastpath_queue_loop (S (Z.to_nat (buffer_size q))) s (cq_rx cq) num
                                  (next_queue (lb_ctx s)) events;
        if ran_out : bool then mret (false, events, s)
        else
          let nx := u16 (next_queue (lb_ctx s) + 1) in
          let nx := if nx >=? num_queues (lb_ctx s) then u16 (nx - num_queues (lb_ctx s)) else nx in
          fastpath_poll_queues n (set_next_queue s nx) num events
  end.
Definition fastpath_poll s (num : Z) := fastpath_poll_queues (Z.to_nat (num_queues (lb_ctx s))) s num [].

(** One queue of [fastpath_poll_vec]: the entry is taken only when its events fit. *)
Inductive vec_result := VecNone | VecTaken (evs : list flextcp_event) | VecRanOut.

Definition vec_queue s (queue_idx room : Z) : outcome (vec_result * state) :=
  cq ← ctx_queue_at s queue_idx;
  q ← q_at s (cq_rx cq);
  '(rv, b, _) ← rq_try_peek q true SIZEOF_ARX;
  if negb (rv =? 0) then _ ← c_assert (rv >? 0); mret (VecNone, s)
  else
    let arx := decode_arx b in
    if negb (arx_type arx =? FLEXTCP_PL_ARX_CONNUPDATE) then mret (VecNone, s)
    else
      '(evs, s) ← event_arx_connupdate s arx room queue_idx;
      match evs with
      | None => mret (VecRanOut, s)
      | Some evs =>
          '(rv, _, s) ← q_dequeue s (cq_rx cq) true SIZEOF_ARX;
          _ ← c_assert (rv =? 0);
          mret (VecTaken evs, s)
      end.

(** What the loops of [fastpath_poll_vec] keep. *)
Record vec_state := mk_vec { v_events : list flextcp_event; v_idx : Z; v_inner : bool; v_found : bool; v_ran_out : bool }.

(** The innermost loop: [n] queues are left of the round. *)
Fixpoint vec_round (n : nat) s (num : Z) (v : vec_state) : outcome (vec_state * state) :=
  match n with
  | O => mret (v, s)
  | S n =>
      if v_ran_out v || negb (Z.of_nat (length (v_events v)) <? num) then mret (v, s)
      else
        '(r, s) ← vec_queue s (v_idx v) (num - Z.of_nat (length (v_events v)));
        match r with
        | VecNone => vec_round n s num (mk_vec (v_events v) (next_q (lb_ctx s) (v_idx v)) (v_inner v) (v_found v) false)
        | VecTaken evs =>
            vec_round n s num (mk_vec (v_events v ++ evs) (next_q (lb_ctx s) (v_idx v)) true true false)
        | VecRanOut => mret (mk_vec (v_events v) (v_idx v) true true true, s)
        end
  end.

(** The rounds: both outer loops, which end together. *)
Fixpoint vec_rounds (fuel : nat) s (num : Z) (v : vec_state) : outcome (vec_state * state) :=
  if v_ran_out v || negb (v_inner v) || negb (Z.of_nat (length (v_events v)) <? num) then mret (v, s)
  else
    match fuel with
    | O => Stop OutOfFuel
    | S fuel =>
        '(v, s) ← vec_round (Z.to_nat (num_queues (lb_ctx s))) s num
                    (mk_vec (v_events v) (next_queue (lb_ctx s)) false (v_found v) false);
        vec_rounds fuel s num v
    end.

(** Every round but the last takes an entry. *)
Fixpoint rx_bytes_of (qs : gmap Z rdma_queue) (l : list ctx_queue) : Z :=
  match l with
  | [] => 0
  | cq :: l => match qs !! cq_rx cq with Some q => buffer_size q | None => 0 end + rx_bytes_of qs l
  end.
Definition vec_fuel s : nat := S (S (Z.to_nat (rx_bytes_of (lb_qs s) (cx_queues (lb_ctx s))))).

Definition fastpath_poll_vec s (num : Z) : outcome (list flextcp_event * state) :=
  '(v, s) ← vec_rounds (vec_fuel s) s num (mk_vec [] (next_queue (lb_ctx s)) true false false);
  let s := set_next_queue s (u16 (v_idx v)) in
  mret (v_events v, if v_found v then flag_events s else s).

(** ** Progress for the fast path *)

(** The entry for a connection, whose pending bytes are flushed first. *)
Definition bump_entry c (n_tx_bumped : Z) : atx_entry :=
  mk_atx (rxb_bump c) (u32 n_tx_bumped) (fc_flow_id c) (u16 (fc_bump_seq c))
    (if has_all (fc_flags c) CONN_FLAG_TXEOS_ALLOC then FLEXTCP_PL_ATX_FLTXDONE else 0) FLEXTCP_PL_ATX_CONNUPDATE.

Definition bumped c (n_tx_bumped : Z) : flextcp_connection :=
  let c := c <| fc_bump_seq := u32 (fc_bump_seq c + 1) |> in
  let c := c <| txb_bump := u32 (txb_bump c - n_tx_bumped) |> in
  let c := c <| rxb_bump := 0 |> in
  with_pending c false.

(** One iteration; [None] when there is no room for the entry. *)
Definition conn_bump s (p : Z) : outcome (option unit * state) :=
  c ← fc_at s p;
  _ ← c_assert (bool_decide (fc_status c = CONN_OPEN));
  cq ← ctx_queue_at s (fc_fn_core c);
  '(rv, s) ← q_reserve s (cq_tx cq) SIZEOF_ATX;
  if negb (rv =? 1) then _ ← c_assert (rv =? 0); mret (None, s)
  else
    '(r, s) ← q_nflush s (fc_tx c) (txb_bump c);
    let n_tx_bumped := i32 r in
    if n_tx_bumped <? 0 then Stop Aborted
    else
      let s := put_fc s p (bumped c n_tx_bumped) in
      let x := lb_ctx s in
      let x := match bump_next c with None => with_last x None | Some _ => x end in
      let s := set_fctx s (with_first x (bump_next c)) in
      '(rv, s) ← q_enqueue s (cq_tx cq) (Some (encode_atx (bump_entry c n_tx_bumped))) SIZEOF_ATX;
      _ ← c_assert (rv =? 0);
      '(rv, s) ← q_flush s (cq_tx cq);
      _ ← c_assert (i32 rv =? SIZEOF_ATX);
      s ← flextcp_flexnic_kick poll_cycle_tas now s (fc_fn_core c);
      mret (Some tt, s).

Fixpoint conns_bump_loop (fuel : nat) s : outcome state :=
  match bump_pending_first (lb_ctx s) with
  | None => mret s
  | Some p =>
      match fuel with
      | O => Stop OutOfFuel
      | S fuel =>
          '(r, s) ← conn_bump s p;
          match r with None => mret s | Some _ => conns_bump_loop fuel s end
      end
  end.
Definition conns_bump s : outcome state := conns_bump_loop (S (size (lb_conns s))) s.

Definition flag_called s : state :=
  set_fctx s (with_cx_flags (lb_ctx s) (Z.lor (cx_flags (lb_ctx s)) CTX_FLAG_POLL_CALLED)).

Definition flextcp_context_poll s (num : Z) : outcome (list flextcp_event * state) :=
  '(all, evs, s) ← kernel_poll (flag_called s) num;
  if negb all then mret (evs, s)
  else
    '(evs2, s) ← fastpath_poll_vec s (num - Z.of_nat (length evs));
    s ← conns_bump s;
    mret (evs ++ evs2, s).

(** ** Sleeping *)

Definition set_inev_ts (x : flextcp_context) (v : Z) : flextcp_context := x <| last_inev_ts := v |>.

(** 0 lets the application sleep, -1 does not. *)
Definition flextcp_context_canwait (x : flextcp_context) : Z * flextcp_context :=
  let clear fl m := Z.land fl (Z.lnot m) in
  if poll_cycle_app =? UINT64_MAX then (-1, x)
  else if has_any (cx_flags x) CTX_FLAG_POLL_EVENTS then
    (-1, with_cx_flags x (clear (cx_flags x) (Z.lor (Z.lor CTX_FLAG_POLL_EVENTS CTX_FLAG_WANTWAIT) CTX_FLAG_LASTWAIT)))
  else if has_any (cx_flags x) CTX_FLAG_WANTWAIT then
    if u64 (now - last_inev_ts x) >? poll_cycle_app then
      let fl := clear (cx_flags x) (Z.lor CTX_FLAG_POLL_CALLED CTX_FLAG_WANTWAIT) in
      (-1, with_cx_flags x (Z.lor fl CTX_FLAG_LASTWAIT))
    else (-1, x)
  else if has_any (cx_flags x) CTX_FLAG_LASTWAIT then
    if has_any (cx_flags x) CTX_FLAG_POLL_CALLED then (0, x) else (-1, x)
  else if has_any (cx_flags x) CTX_FLAG_POLL_CALLED then
    (-1, with_cx_flags (set_inev_ts x now) (Z.lor (cx_flags x) CTX_FLAG_WANTWAIT))
  else (-1, x).

(** [read_ok] is whether reading the descriptor gave a counter or would block. *)
Definition flextcp_context_waitclear (x : flextcp_context) (read_ok : bool) : outcome flextcp_context :=
  if negb read_ok then Stop Aborted
  else mret (with_cx_flags x (Z.land (cx_flags x)
    (Z.lnot (Z.lor (Z.lor CTX_FLAG_WANTWAIT CTX_FLAG_LASTWAIT) CTX_FLAG_POLL_CALLED)))).

(** [poll_ret] is the result of [poll]. *)
Definition flextcp_context_wait (x : flextcp_context) (poll_ret : Z) (read_ok : bool) : outcome (Z * flextcp_context) :=
  let '(r, x) := flextcp_context_canwait x in
  if negb (r =? 0) then mret (-1, x)
  else if poll_ret <? 0 then mret (-1, x)
  else x ← flextcp_context_waitclear x read_ok; mret (0, x).

End Poll.
