(* ===== verification/LibSpec.v ===== *)
(** * The application library: the list of pending connections, and what the fast
    path is told

    Theorems about LibTas and LibPoll. [bumps] says that the connections with news
    for the fast path form a linked list that holds exactly the marked ones; every
    call of the library keeps it, [conns_bump] empties it and the fast path reads
    what was pending. *)
From S2P Require Import Prelude RdmaQueue Packets FlowState Wire AppMsg LibTas LibPoll.

#[local] Open Scope Z_scope.

(** ** The linked list *)

(** What the list is made of: the links and marks of the connections, and its ends. *)
Record bump_view := mk_bview { bv_conns : gmap Z (option Z * bool); bv_first : option Z; bv_last : option Z }.
Definition bview {L} (s : lib_state L) : bump_view :=
  mk_bview ((fun c => (bump_next c, bump_pending c)) <$> lb_conns s)
    (bump_pending_first (lb_ctx s)) (bump_pending_last (lb_ctx s)).

(** From [o] along the links over [l] to [e]. *)
Fixpoint seg (h : gmap Z (option Z * bool)) (o : option Z) (l : list Z) (e : option Z) : Prop :=
  match l with
  | [] => o = e
  | p :: l => o = Some p /\ exists v, h !! p = Some v /\ seg h v.1 l e
  end.

Record bumps (v : bump_view) (l : list Z) : Prop := {
  bp_seg : seg (bv_conns v) (bv_first v) l None;
  bp_last : bv_last v = last l;
  bp_nodup : NoDup l;
  bp_marked : forall p n b, bv_conns v !! p = Some (n, b) -> (b = true <-> p ∈ l);
}.

Lemma pl_seg_app h o l1 l2 e : seg h o (l1 ++ l2) e <-> exists m, seg h o l1 m /\ seg h m l2 e.
Proof.
  revert o. induction l1 as [|p l1 IH]; intros o; simpl.
  - split; [intros; by exists o|intros (m & -> & ?); done].
  - split.
    + intros (-> & v & Hv & Hs). apply IH in Hs as (m & ? & ?). exists m. eauto 6.
    + intros (m & (-> & v & Hv & Hs) & Hs2). split; [done|]. exists v. split; [done|]. apply IH. eauto.
Qed.

Lemma seg_insert h o l e p v : p ∉ l -> seg (<[p := v]> h) o l e <-> seg h o l e.
Proof.
  revert o. induction l as [|x l IH]; intros o Hp; simpl; [done|].
  apply not_elem_of_cons in Hp as [Hx Hl].
  split; intros (-> & w & Hw & Hs); (split; [done|]); exists w.
  - rewrite lookup_insert_ne in Hw by done. split; [done|]. by apply IH.
  - rewrite lookup_insert_ne by done. split; [done|]. by apply IH.
Qed.

Lemma pl_seg_in h o l e p : seg h o l e -> p ∈ l -> is_Some (h !! p).
Proof.
  revert o. induction l as [|x l IH]; intros o Hs Hp; [by apply elem_of_nil in Hp|].
  destruct Hs as (_ & v & Hv & Hs). apply elem_of_cons in Hp as [->|Hp]; eauto.
Qed.

(** The last node carries the end of the segment. *)
Lemma pl_seg_snoc h o l p e : seg h o (l ++ [p]) e <-> seg h o l (Some p) /\ exists b, h !! p = Some (e, b).
Proof.
  rewrite pl_seg_app. split.
  - intros (m & Hs & -> & [n b] & Hv & He). simpl in He. subst n. eauto.
  - intros (Hs & b & Hv). exists (Some p). split; [done|]. split; [done|]. by exists (e, b).
Qed.

Lemma seg_fun h o l1 l2 : seg h o l1 None -> seg h o l2 None -> l1 = l2.
Proof.
  revert o l2. induction l1 as [|p l1 IH]; intros o l2; simpl.
  - intros ->. destruct l2; [done|]. by intros [? _].
  - intros (-> & v & Hv & Hs). destruct l2 as [|q l2]; [done|]. intros ([= ->] & w & Hw & Hs2).
    simplify_eq. f_equal. eauto.
Qed.

(** ** The three operations on the list *)

Lemma bumps_fun v l1 l2 : bumps v l1 -> bumps v l2 -> l1 = l2.
Proof. intros [] []. by eapply seg_fun. Qed.

(** A connection is appended. *)
Lemma bumps_append v l p n :
  bumps v l -> bv_conns v !! p = Some (n, false) ->
  let h := <[p := (None, false)]> (bv_conns v) in
  let h := match bv_last v with
           | Some q => match h !! q with Some w => <[q := (Some p, w.2)]> h | None => h end
           | None => h
           end in
  bumps (mk_bview (<[p := (None, true)]> h)
           (match bv_last v with Some _ => bv_first v | None => Some p end) (Some p)) (l ++ [p]).
Proof.
  intros [Hs Hl Hn Hm] Hp. cbv zeta. rewrite Hl.
  assert (Hpl : p ∉ l) by (intros Hin; by apply (Hm p n false) in Hin).
  destruct (decide (l = [])) as [->|Hne].
  { simpl. constructor; simpl.
    - split; [done|]. eexists. by rewrite lookup_insert_eq.
    - done.
    - apply NoDup_singleton.
    - intros q m b. destruct (decide (q = p)) as [->|Hq].
      + rewrite lookup_insert_eq. intros [= <- <-]. rewrite list_elem_of_singleton. done.
      + rewrite !lookup_insert_ne by done. intros Hv. rewrite (Hm q m b Hv), elem_of_nil, list_elem_of_singleton. done. }
  destruct (exists_last Hne) as (l0 & q & ->). rewrite last_snoc.
  assert (Hpq : p <> q) by set_solver.
  rewrite lookup_insert_ne by done.
  apply pl_seg_snoc in Hs as (Hs & b & Hq). rewrite Hq. simpl.
  apply NoDup_app in Hn as (Hn0 & Hnq & _).
  constructor; simpl.
  - apply pl_seg_snoc. split; [|exists true; by rewrite lookup_insert_eq].
    apply pl_seg_snoc. rewrite seg_insert, seg_insert, seg_insert by set_solver. split; [done|].
    exists b. rewrite lookup_insert_ne, lookup_insert_eq by done. done.
  - by rewrite last_snoc.
  - apply NoDup_app. split; [apply NoDup_app; split; [done|]; split; [done|apply NoDup_singleton]|].
    split; [|apply NoDup_singleton]. intros x Hx ->%list_elem_of_singleton. done.
  - intros x m c. destruct (decide (x = p)) as [->|Hx].
    + rewrite lookup_insert_eq. intros [= <- <-]. split; [set_solver|done].
    + rewrite lookup_insert_ne by done. destruct (decide (x = q)) as [->|Hxq].
      * rewrite lookup_insert_eq. intros [= <- <-]. rewrite (Hm q None b Hq). set_solver.
      * rewrite !lookup_insert_ne by done. intros Hv. rewrite (Hm x m c Hv). set_solver.
Qed.

(** The first connection is taken off. *)
Lemma bumps_pop v l p n b last' :
  bumps v (p :: l) -> bv_conns v !! p = Some (n, b) -> last' = last l ->
  bumps (mk_bview (<[p := (n, false)]> (bv_conns v)) n last') l.
Proof.
  intros [Hs _ Hn Hm] Hp ->. destruct Hs as (_ & w & Hw & Hs). simplify_eq. simpl in Hs.
  apply NoDup_cons in Hn as [Hpl Hn].
  constructor; simpl; [by apply seg_insert|done|done|].
  intros x m c. destruct (decide (x = p)) as [->|Hx].
  - rewrite lookup_insert_eq. intros [= <- <-]. done.
  - rewrite lookup_insert_ne by done. intros Hv. rewrite (Hm x m c Hv). set_solver.
Qed.

(** A later connection is taken out, by its predecessor [q]. *)
Lemma bumps_unlink v l1 l2 q p n b c :
  bumps v (l1 ++ q :: p :: l2) -> bv_conns v !! p = Some (n, b) -> bv_conns v !! q = Some (Some p, c) ->
  bumps (mk_bview (<[p := (n, false)]> (<[q := (n, c)]> (bv_conns v))) (bv_first v) (last (l1 ++ q :: l2)))
    (l1 ++ q :: l2).
Proof.
  intros [Hs _ Hn Hm] Hp Hq.
  apply pl_seg_app in Hs as (m & Hs1 & -> & w & Hw & _ & x & Hx & Hs2). simplify_eq. simpl in Hs2.
  pose proof (NoDup_app_remove (l1 ++ [q]) l2 p ltac:(by rewrite <- app_assoc)) as [Hn' Hpl].
  rewrite <- app_assoc in Hn', Hpl. simpl in Hn', Hpl.
  pose proof (NoDup_app_remove l1 l2 q Hn') as [_ Hql].
  apply not_elem_of_app in Hql as [Hq1 Hq2].
  assert (p ∉ l1 /\ p <> q /\ p ∉ l2) as (Hp1 & Hpq & Hp2).
  { apply not_elem_of_app in Hpl as [? Hpl]. by apply not_elem_of_cons in Hpl. }
  constructor; simpl; [| done | done |].
  - apply pl_seg_app. exists (Some q). rewrite !seg_insert by done. split; [done|].
    split; [done|]. exists (n, c). rewrite lookup_insert_ne, lookup_insert_eq by done.
    split; [done|]. by rewrite !seg_insert by done.
  - intros y m d. destruct (decide (y = p)) as [->|Hy].
    + rewrite lookup_insert_eq. intros [= <- <-]. split; [done|]. intros ?. done.
    + rewrite lookup_insert_ne by done. destruct (decide (y = q)) as [->|Hyq].
      * rewrite lookup_insert_eq. intros [= <- <-]. rewrite (Hm q (Some p) c ltac:(eassumption)).
        rewrite !elem_of_app, !elem_of_cons. tauto.
      * rewrite !lookup_insert_ne by done. intros Hv. rewrite (Hm y m d Hv).
        rewrite !elem_of_app, !elem_of_cons. tauto.
Qed.

(** Take a successful computation apart, branch by branch. *)
Ltac run_inv H :=
  cbn [mbind outcome_bind mret outcome_ret fst snd] in H;
  lazymatch type of H with
  | Ok _ = Ok _ => injection H; clear H; intros
  | mret _ = Ok _ => injection H; clear H; intros
  | Stop _ = Ok _ => discriminate H
  | (_ ≫= _) = Ok _ => let x := fresh "r" in let H1 := fresh "E" in
      apply bind_Ok_inv in H as (x & H1 & H); run_inv H
  | outcome_bind _ _ _ _ = Ok _ => let x := fresh "r" in let H1 := fresh "E" in
      apply bind_Ok_inv in H as (x & H1 & H); run_inv H
  | (let (_, _) := ?x in _) = Ok _ => first [ is_var x; destruct x | let E := fresh "E" in destruct x eqn:E ]; run_inv H
  | (if ?b then _ else _) = Ok _ => let E := fresh "E" in destruct b eqn:E; run_inv H
  | (match ?o with _ => _ end) = Ok _ => let E := fresh "E" in destruct o eqn:E; run_inv H
  | _ => idtac
  end.

Section Ops.
Context {L : Type} `{RdmaLink L}.
Abbreviation state := (lib_state L).
Implicit Types (s : state) (c : flextcp_connection).

Lemma fc_at_Ok s p c : fc_at s p = Ok c <-> lb_conns s !! p = Some c.
Proof. unfold fc_at. destruct (lb_conns s !! p); naive_solver. Qed.

Lemma bview_lookup s p :
  bv_conns (bview s) !! p = (fun c => (bump_next c, bump_pending c)) <$> lb_conns s !! p.
Proof. apply lookup_fmap. Qed.

Lemma bview_put s p c :
  bview (put_fc s p c) =
    mk_bview (<[p := (bump_next c, bump_pending c)]> (bv_conns (bview s))) (bv_first (bview s)) (bv_last (bview s)).
Proof. unfold bview. simpl. by rewrite fmap_insert. Qed.

(** A change of the other fields of a connection. *)
Lemma bview_put_same s p c c' :
  lb_conns s !! p = Some c -> bump_next c' = bump_next c -> bump_pending c' = bump_pending c ->
  bview (put_fc s p c') = bview s.
Proof.
  intros Hc Hn Hp. rewrite bview_put, Hn, Hp. unfold bview at 4. simpl. f_equal.
  apply insert_id. by rewrite lookup_fmap, Hc.
Qed.

Lemma mark_pending s p c :
  lb_conns s !! p = Some c -> bump_pending c = true -> conn_mark_bump s p = Ok s.
Proof. intros Hc Hp. unfold conn_mark_bump. rewrite (proj2 (fc_at_Ok s p c) Hc). simpl. by rewrite Hp. Qed.

(** Marking is total, changes nothing but the links, and appends. *)
Lemma mark_bumps s l p c :
  bumps (bview s) l -> lb_conns s !! p = Some c ->
  exists s', conn_mark_bump s p = Ok s' /\ bumps (bview s') (if decide (p ∈ l) then l else l ++ [p]).
Proof.
  intros B Hc. destruct (bump_pending c) eqn:Hp.
  { exists s. split; [by eapply mark_pending|]. rewrite decide_True; [done|].
    eapply (bp_marked _ _ B p (bump_next c) true); [|done]. rewrite bview_lookup, Hc. simpl. by rewrite Hp. }
  assert (Hv : bv_conns (bview s) !! p = Some (bump_next c, false)) by (rewrite bview_lookup, Hc; simpl; by rewrite Hp).
  assert (Hpl : p ∉ l) by (intros Hin; by apply (bp_marked _ _ B p _ false Hv) in Hin).
  rewrite decide_False by done. pose proof (bumps_append _ _ _ _ B Hv) as Ba. cbv zeta in Ba.
  pose proof (bp_last _ _ B) as Hl.
  unfold conn_mark_bump. rewrite (proj2 (fc_at_Ok s p c) Hc). simpl. rewrite Hp. simpl in Hl.
  destruct (bump_pending_last (lb_ctx s)) as [q|] eqn:Hlast; simpl in Ba; rewrite ?Hlast in Ba.
  - assert (Hq : q ∈ l) by (symmetry in Hl; by apply last_Some_elem_of in Hl).
    assert (Hqp : q <> p) by (by intros ->).
    destruct (pl_seg_in _ _ _ _ q (bp_seg _ _ B) Hq) as [w Hw]. simpl in Hw.
    rewrite lookup_fmap in Hw. destruct (lb_conns s !! q) as [d|] eqn:Hd; [|done].
    unfold fc_at. simpl. rewrite lookup_insert_ne, Hd by done. simpl.
    rewrite lookup_insert_ne, lookup_insert_eq by done. simpl.
    eexists. split; [reflexivity|].
    rewrite lookup_insert_ne, lookup_fmap, Hd in Ba by done. simpl in Ba.
    unfold bview. simpl. rewrite !fmap_insert. exact Ba.
  - unfold fc_at. simpl. rewrite lookup_insert_eq. simpl. eexists. split; [reflexivity|].
    unfold bview. simpl. rewrite !fmap_insert. exact Ba.
Qed.

(** The search finds the predecessor within as many steps as there are nodes. *)
Lemma bump_before_spec (h : gmap Z flextcp_connection) o l1 q p l2 e fuel :
  seg ((fun c => (bump_next c, bump_pending c)) <$> h) o (l1 ++ q :: p :: l2) e ->
  NoDup (l1 ++ q :: p :: l2) -> (length l1 < fuel)%nat -> bump_before fuel h o p = Ok q.
Proof.
  revert o fuel. induction l1 as [|x l1 IH]; intros o [|fuel] Hs Hn Hf; try (simpl in Hf; lia); simpl in Hs |- *.
  - destruct Hs as (-> & v & Hv & Hvp & _). rewrite lookup_fmap in Hv.
    destruct (h !! q) as [c|]; [|done]. simpl in Hv. simplify_eq. simpl in Hvp. by rewrite bool_decide_true.
  - destruct Hs as (-> & v & Hv & Hs). rewrite lookup_fmap in Hv.
    destruct (h !! x) as [c|]; [|done]. simpl in Hv. simplify_eq. simpl in Hs.
    apply NoDup_cons in Hn as [Hx Hn]. rewrite bool_decide_false.
    + apply IH; [done|done|simpl in Hf; lia].
    + intros Hxp. rewrite Hxp in Hs. destruct l1 as [|y l1].
      * destruct Hs as ([= ->] & _). apply NoDup_cons in Hn as [Hn _]. apply Hn. constructor.
      * destruct Hs as ([= ->] & _). apply NoDup_cons in Hn as [Hn _]. apply Hn.
        apply elem_of_app. right. by right; left.
Qed.

#[local] Arguments bump_before : simpl never.

Lemma bumps_in_conns s l p : bumps (bview s) l -> p ∈ l -> exists c, lb_conns s !! p = Some c.
Proof.
  intros B Hp. destruct (pl_seg_in _ _ _ _ p (bp_seg _ _ B) Hp) as [w Hw]. rewrite bview_lookup in Hw.
  destruct (lb_conns s !! p) as [c|]; [by exists c|done].
Qed.

Lemma bumps_pending s l p c : bumps (bview s) l -> lb_conns s !! p = Some c -> bump_pending c = true <-> p ∈ l.
Proof. intros B Hc. apply (bp_marked _ _ B p (bump_next c)). by rewrite bview_lookup, Hc. Qed.

Lemma bumps_length s l : bumps (bview s) l -> (length l <= size (lb_conns s))%nat.
Proof. intros B. apply NoDup_size; [|apply B]. intros x Hx. by apply (bumps_in_conns s l). Qed.

(** Removing is total but for the only connection, and takes exactly [p] out. *)
Lemma remove_bumps s l p c :
  bumps (bview s) l -> lb_conns s !! p = Some c -> l <> [p] ->
  exists s', bump_remove s p = Ok s' /\ bumps (bview s') (filter (fun x => x <> p) l).
Proof.
  intros B Hc Hl. unfold bump_remove. rewrite (proj2 (fc_at_Ok s p c) Hc). simpl.
  pose proof (bumps_pending s l p c B Hc) as Hpp.
  destruct (bump_pending c) eqn:Hp; simpl.
  2:{ exists s. split; [done|]. rewrite filter_all; [done|].
      apply Forall_forall. intros x Hx ->. by apply Hpp in Hx. }
  assert (Hin : p ∈ l) by by apply Hpp.
  assert (Hv : bv_conns (bview s) !! p = Some (bump_next c, true)) by (rewrite bview_lookup, Hc; simpl; by rewrite Hp).
  pose proof (bp_nodup _ _ B) as Hn.
  apply list_elem_of_split in Hin as (l1 & l2 & ->). rewrite filter_neq_app by done.
  destruct l1 as [|q l1 _] using rev_ind.
  - pose proof (bp_seg _ _ B) as [Hfirst _]. simpl in Hfirst. rewrite Hfirst, bool_decide_true by done. simpl.
    unfold fc_at. simpl. rewrite Hc. simpl. eexists. split; [reflexivity|].
    pose proof (bumps_pop _ _ _ _ _ (last l2) B Hv eq_refl) as Bp.
    pose proof (bp_last _ _ B) as Hlast.
    replace (last l2) with (bv_last (bview s)) in Bp.
    + unfold bview. simpl. rewrite !fmap_insert. exact Bp.
    + rewrite Hlast. destruct l2; [done|]. done.
  - rewrite <- app_assoc in B, Hn |- *. simpl in B, Hn |- *.
    assert (Hfirst : bump_pending_first (lb_ctx s) <> Some p).
    { intros Hf. pose proof (bp_seg _ _ B) as Hs. simpl in Hs. rewrite Hf in Hs.
      destruct l1 as [|x l1]; destruct Hs as ([= ->] & _).
      - apply NoDup_cons in Hn as [Hn _]. apply Hn. left.
      - apply NoDup_cons in Hn as [Hn _]. apply Hn. apply elem_of_app. right. by right; left. }
    rewrite bool_decide_false by done.
    pose proof (bumps_length s _ B) as Hsz. rewrite length_app in Hsz. simpl in Hsz.
    rewrite (bump_before_spec _ _ l1 q p l2 None) by (try apply B; lia). simpl.
    destruct (bumps_in_conns s _ q B) as [d Hd]; [set_solver|].
    rewrite (proj2 (fc_at_Ok s q d) Hd). simpl.
    assert (Hq : bv_conns (bview s) !! q = Some (Some p, bump_pending d)).
    { pose proof (bp_seg _ _ B) as Hs. apply pl_seg_app in Hs as (m & _ & -> & w & Hw & Hs).
      destruct Hs as (Hwp & _). rewrite bview_lookup, Hd in Hw. simpl in Hw. simplify_eq. simpl in Hwp.
      rewrite bview_lookup, Hd. simpl. by rewrite Hwp. }
    pose proof (bumps_unlink _ _ _ _ _ _ _ _ B Hv Hq) as Bu.
    assert (Hqp : q <> p).
    { intros ->. apply NoDup_app in Hn as (_ & _ & Hn). apply NoDup_cons in Hn as [Hn _]. apply Hn. left. }
    pose proof (bp_seg _ _ B) as Hs. apply pl_seg_app in Hs as (m & _ & _ & w & _ & _ & w' & Hw' & Hs).
    simplify_eq. simpl in Hs.
    pose proof (bp_last _ _ B) as Hlast. simpl in Hlast.
    destruct l2 as [|r l2].
    + simpl in Hs. rewrite Hs in Bu |- *. unfold fc_at. simpl. rewrite lookup_insert_ne, Hc by done. simpl.
      eexists. split; [reflexivity|]. rewrite last_snoc in Bu.
      unfold bview. simpl. rewrite !fmap_insert. simpl. rewrite Hs. exact Bu.
    + destruct Hs as [Hs _]. rewrite Hs in Bu |- *. unfold fc_at. simpl. rewrite lookup_insert_ne, Hc by done. simpl.
      eexists. split; [reflexivity|].
      unfold bview. simpl. rewrite !fmap_insert. simpl. rewrite Hs.
      replace (bump_pending_last (lb_ctx s)) with (last (l1 ++ q :: r :: l2)); [exact Bu|].
      rewrite Hlast, !last_app. done.
Qed.

(** ** Operations that leave the list alone *)

(** Queues, wake-ups and the link have no part in the list. *)
Definition kept s s' : Prop := lb_conns s' = lb_conns s /\ lb_ctx s' = lb_ctx s.

Lemma q_enqueue_kept s a d sz rv s' : q_enqueue s a d sz = Ok (rv, s') -> kept s s'.
Proof. unfold q_enqueue. intros R. run_inv R. subst. done. Qed.
Lemma q_dequeue_kept s a w sz rv d s' : q_dequeue s a w sz = Ok (rv, d, s') -> kept s s'.
Proof. unfold q_dequeue. intros R. run_inv R. subst. done. Qed.
Lemma q_reserve_kept s a sz rv s' : q_reserve s a sz = Ok (rv, s') -> kept s s'.
Proof. unfold q_reserve. intros R. run_inv R. subst. done. Qed.
Lemma q_nflush_kept s a n rv s' : q_nflush s a n = Ok (rv, s') -> kept s s'.
Proof. unfold q_nflush. intros R. run_inv R. subst. done. Qed.
Lemma q_flush_kept s a rv s' : q_flush s a = Ok (rv, s') -> kept s s'.
Proof. unfold q_flush. intros R. run_inv R. subst. done. Qed.
Lemma q_can_reserve_kept s a rv s' : q_can_reserve s a = Ok (rv, s') -> kept s s'.
Proof. unfold q_can_reserve. intros R. run_inv R. subst. done. Qed.

Lemma kept_refl s : kept s s.
Proof. done. Qed.
Lemma kept_trans s1 s2 s3 : kept s1 s2 -> kept s2 s3 -> kept s1 s3.
Proof. intros [] []. split; congruence. Qed.
Lemma kept_bview s s' : kept s s' -> bview s' = bview s.
Proof. intros [Hc Hx]. unfold bview. by rewrite Hc, Hx. Qed.
Lemma kept_fc s s' p c : kept s s' -> fc_at s' p = Ok c -> lb_conns s !! p = Some c.
Proof. intros [Hc _] Hp. apply fc_at_Ok in Hp. by rewrite Hc in Hp. Qed.

End Ops.

(** Every operation on a queue in the context gives the fact that nothing else changed. *)
Ltac kepts :=
  repeat match goal with
  | H : q_enqueue _ _ _ _ = Ok _ |- _ => apply q_enqueue_kept in H
  | H : q_dequeue _ _ _ _ = Ok _ |- _ => apply q_dequeue_kept in H
  | H : q_reserve _ _ _ = Ok _ |- _ => apply q_reserve_kept in H
  | H : q_nflush _ _ _ = Ok _ |- _ => apply q_nflush_kept in H
  | H : q_flush _ _ = Ok _ |- _ => apply q_flush_kept in H
  | H : q_can_reserve _ _ = Ok _ |- _ => apply q_can_reserve_kept in H
  end.

Section Calls.
Context {L : Type} `{RdmaLink L}.
Abbreviation state := (lib_state L).
Implicit Types (s : state) (c : flextcp_connection).

Lemma enqueue_appout_kept cycle now s kin s' : enqueue_appout cycle now s kin = Ok s' -> kept s s'.
Proof.
  unfold enqueue_appout. intros R. run_inv R; subst; kepts.
  apply (kept_trans _ l); [done|]. apply (kept_trans _ l0); [done|].
  unfold kept, flextcp_kernel_kick. by destruct (_ >? cycle).
Qed.

(** ** Calls that only add to the list *)

Definition grows s s' : Prop := forall l, bumps (bview s) l -> exists l', bumps (bview s') (l ++ l').

Lemma grows_same s s' : bview s' = bview s -> grows s s'.
Proof. intros E l B. exists []. by rewrite app_nil_r, E. Qed.
Lemma grows_kept s s' : kept s s' -> grows s s'.
Proof. intros K. by apply grows_same, kept_bview. Qed.
Lemma grows_refl s : grows s s.
Proof. by apply grows_same. Qed.
Lemma grows_trans s1 s2 s3 : grows s1 s2 -> grows s2 s3 -> grows s1 s3.
Proof.
  intros H1 H2 l B. destruct (H1 l B) as [l1 B1]. destruct (H2 _ B1) as [l2 B2].
  exists (l1 ++ l2). by rewrite app_assoc.
Qed.
Lemma grows_put s p c c' :
  lb_conns s !! p = Some c -> bump_next c' = bump_next c -> bump_pending c' = bump_pending c -> grows s (put_fc s p c').
Proof. intros. apply grows_same. by eapply bview_put_same. Qed.

Lemma grows_mark s p s' : conn_mark_bump s p = Ok s' -> grows s s'.
Proof.
  intros Hm l B. assert (exists c, lb_conns s !! p = Some c) as [c Hc].
  { unfold conn_mark_bump in Hm. apply bind_Ok_inv in Hm as (c & Hc & _). apply fc_at_Ok in Hc. eauto. }
  destruct (mark_bumps s l p c B Hc) as (s'' & Hm' & B'). rewrite Hm' in Hm. injection Hm as <-.
  destruct (decide (p ∈ l)); [exists []; by rewrite app_nil_r|by exists [p]].
Qed.

(** A connection that is not pending starts afresh. *)
Lemma grows_init s p c' :
  (forall c, lb_conns s !! p = Some c -> bump_pending c = false) ->
  bump_pending c' = false -> grows s (put_fc s p c').
Proof.
  intros Hp Hc' l B. exists []. rewrite app_nil_r, bview_put, Hc'.
  assert (Hl : p ∉ l).
  { intros Hin. destruct (bumps_in_conns s l p B Hin) as [c Hc].
    apply (bumps_pending s l p c B Hc) in Hin. by rewrite (Hp c Hc) in Hin. }
  destruct B as [Bs Bl Bn Bm]. constructor; simpl; [by apply seg_insert|done|done|].
  intros x n b. destruct (decide (x = p)) as [->|Hx]; [rewrite lookup_insert_eq|rewrite lookup_insert_ne by done; apply Bm].
  intros [= <- <-]. done.
Qed.

(** The connection a lookup found is still there after changes of queues. *)
Ltac same_conn :=
  first [ by apply fc_at_Ok | eassumption | apply lookup_insert_eq
        | match goal with K : kept ?x ?y |- lb_conns ?y !! _ = _ => rewrite (proj1 K); clear K; same_conn end ].

(** Go back from the last state over what each step did to the list. *)
Ltac grow :=
  kepts;
  repeat match goal with
  | H : enqueue_appout _ _ _ _ = Ok _ |- _ => apply enqueue_appout_kept in H
  | H : conn_mark_bump _ _ = Ok _ |- _ => apply grows_mark in H
  end;
  repeat match goal with
  | |- grows ?s ?s => apply grows_refl
  | H : grows ?x ?y |- grows _ ?y => apply (grows_trans _ x); [|exact H]
  | H : kept ?x ?y |- grows _ ?y => apply (grows_trans _ x); [|apply grows_kept; exact H]
  | |- grows _ (put_fc ?x _ _) => apply (grows_trans _ x); [|eapply grows_put; [same_conn|reflexivity|reflexivity]]
  end.

Lemma rx_done_grows s p len rv s' : flextcp_connection_rx_done s p len = Ok (rv, s') -> grows s s'.
Proof. unfold flextcp_connection_rx_done. intros R. run_inv R; subst; [grow|]. run_inv E3; subst; grow. Qed.

Lemma tx_alloc_grows s p len r b s' : flextcp_connection_tx_alloc s p len = Ok (r, b, s') -> grows s s'.
Proof. unfold flextcp_connection_tx_alloc. intros R. run_inv R; subst; grow. Qed.

Lemma tx_alloc2_grows s p len r b1 n1 b2 s' :
  flextcp_connection_tx_alloc2 s p len = Ok (r, b1, n1, b2, s') -> grows s s'.
Proof. unfold flextcp_connection_tx_alloc2. intros R. run_inv R; subst; grow. Qed.

Lemma tx_send_grows s p len r s' : flextcp_connection_tx_send s p len = Ok (r, s') -> grows s s'.
Proof. unfold flextcp_connection_tx_send. intros R. run_inv R; subst; grow. Qed.

Lemma pushtxeos_grows s p r s' : flextcp_conn_pushtxeos s p = Ok (r, s') -> grows s s'.
Proof. unfold flextcp_conn_pushtxeos. intros R. run_inv R; subst; grow. Qed.

Lemma tx_close_grows s p r s' : flextcp_connection_tx_close s p = Ok (r, s') -> grows s s'.
Proof.
  unfold flextcp_connection_tx_close. intros R. run_inv R; subst; try grow.
  eapply grows_trans; [|by eapply pushtxeos_grows]. grow.
Qed.

Lemma move_grows cycle now s p r s' : flextcp_connection_move cycle now s p = Ok (r, s') -> grows s s'.
Proof. unfold flextcp_connection_move. intros R. run_inv R; subst; grow. Qed.

Lemma listen_open_grows cycle now s lst port backlog flags r o s' :
  flextcp_listen_open cycle now s lst port backlog flags = Ok (r, o, s') -> grows s s'.
Proof. unfold flextcp_listen_open. intros R. run_inv R; subst; grow. Qed.

Lemma create_buffer_kept rxl txl s e m r s' : flextcp_create_tcp_buffer rxl txl s e m = Ok (r, s') -> kept s s'.
Proof. unfold flextcp_create_tcp_buffer. intros R. run_inv R; subst; done. Qed.

Lemma request_buffers_grows remote rxl txl s p m r s' : request_buffers remote rxl txl s p m = Ok (r, s') -> grows s s'.
Proof.
  unfold request_buffers. intros R. run_inv R; subst;
    repeat match goal with E : flextcp_create_tcp_buffer _ _ _ _ _ = _ |- _ => apply create_buffer_kept in E end;
    eauto using grows_refl, grows_kept.
  grow.
Qed.

(** The step that clears the struct of a connection. *)
Ltac grow_init Hp :=
  lazymatch goal with
  | |- grows ?s (put_fc ?s _ _) => apply grows_init; [exact Hp|reflexivity]
  | |- grows _ (put_fc ?x _ _) => apply (grows_trans _ x); [grow|apply grows_init; [|reflexivity]];
      match goal with K : kept _ x |- _ => intros ?; rewrite (proj1 K); apply Hp end
  end.

Lemma accept_grows remote rxl txl cycle now s lst l p m r s' :
  (forall c, lb_conns s !! p = Some c -> bump_pending c = false) ->
  flextcp_listen_accept remote rxl txl cycle now s lst l p m = Ok (r, s') -> grows s s'.
Proof.
  unfold flextcp_listen_accept. intros Hp R. run_inv R; subst;
    repeat match goal with E : request_buffers _ _ _ _ _ _ = _ |- _ => apply request_buffers_grows in E end; grow;
    grow_init Hp.
Qed.

Lemma connection_open_grows remote rxl txl cycle now s p ip port m r s' :
  (forall c, lb_conns s !! p = Some c -> bump_pending c = false) ->
  flextcp_connection_open remote rxl txl cycle now s p ip port m = Ok (r, s') -> grows s s'.
Proof.
  unfold flextcp_connection_open. intros Hp R. run_inv R; subst;
    repeat match goal with E : request_buffers _ _ _ _ _ _ = _ |- _ => apply request_buffers_grows in E end; grow;
    try by grow_init Hp.
Qed.

(** ** Polling *)

Lemma attach_queues_grows remote mem s p rx tx s' : attach_queues remote mem s p rx tx = Ok s' -> grows s s'.
Proof. unfold attach_queues. intros R. run_inv R; subst; [by apply grows_same|grow]. Qed.

Lemma early_events_grows s p n evs s' : early_events s p n = Ok (evs, s') -> grows s s'.
Proof.
  unfold early_events. intros R. run_inv R; subst; try run_inv E0; subst; grow.
Qed.

Ltac grow_opened :=
  repeat match goal with
  | E : attach_queues _ _ _ _ _ _ = Ok _ |- _ => apply attach_queues_grows in E
  | E : early_events _ _ _ = Ok _ |- _ => apply early_events_grows in E
  end; grow.

Lemma conn_opened_grows remote mem s b avail evs s' :
  event_kappin_conn_opened remote mem s b avail = Ok (evs, s') -> grows s s'.
Proof. unfold event_kappin_conn_opened. intros R. run_inv R; subst; grow_opened. Qed.

Lemma accept_conn_grows remote mem s b avail evs s' :
  event_kappin_accept_conn remote mem s b avail = Ok (evs, s') -> grows s s'.
Proof. unfold event_kappin_accept_conn. intros R. run_inv R; subst; grow_opened. Qed.

Lemma kout_events_grows remote mem s b avail evs s' : kout_events remote mem s b avail = Ok (evs, s') -> grows s s'.
Proof.
  unfold kout_events. intros R.
  run_inv R; subst; try apply grows_refl; eauto using conn_opened_grows, accept_conn_grows.
  unfold event_kappin_st_conn_closed in *. run_inv E5. subst. grow.
Qed.

Lemma grows_flag s s' : grows s s' -> grows s (flag_events s').
Proof. intros G. eapply grows_trans; [exact G|by apply grows_same]. Qed.

Lemma kernel_poll_grows remote mem fuel s num evs b evs' s' :
  kernel_poll_loop remote mem fuel s num evs = Ok (b, evs', s') -> grows s s'.
Proof.
  revert s evs. induction fuel as [|fuel IH]; intros s evs R; simpl in R; run_inv R; subst; try grow.
  - eapply grows_trans; [|by eapply IH]. apply grows_flag. eapply grows_trans; [|by eapply kout_events_grows]. grow.
  - apply grows_flag. eapply grows_trans; [|by eapply kout_events_grows]. grow.
Qed.

Lemma bump_tx_grows s p n b evs s' : bump_tx s p n b = Ok (evs, s') -> grows s s'.
Proof.
  unfold bump_tx. intros R. run_inv R; subst; try grow. eapply grows_trans; [|by eapply pushtxeos_grows]. grow.
Qed.

Lemma bump_rx_grows s0 s p c rxq n evs s' :
  bump_rx s p c rxq n = Ok (evs, s') -> lb_conns s !! p = Some c -> grows s0 s -> grows s0 s'.
Proof.
  unfold bump_rx. intros R Hc G. run_inv R; subst; [done|].
  eapply grows_trans; [exact G|]. by eapply grows_put.
Qed.

Lemma arx_grows s e outn core evs s' : event_arx_connupdate s e outn core = Ok (evs, s') -> grows s s'.
Proof.
  unfold event_arx_connupdate. intros R. run_inv R; subst; try (by grow);
    match goal with E : bump_rx _ _ _ _ _ = _ |- _ => eapply (bump_rx_grows s) in E; [|apply lookup_insert_eq|by grow] end;
    match goal with E : bump_tx _ _ _ _ = _ |- _ => apply bump_tx_grows in E end; grow.
Qed.

Lemma vec_queue_grows s i room r s' : vec_queue s i room = Ok (r, s') -> grows s s'.
Proof.
  unfold vec_queue. intros R. run_inv R; subst; try grow;
    match goal with E : event_arx_connupdate _ _ _ _ = _ |- _ => apply arx_grows in E end; grow.
Qed.

Lemma vec_round_grows n s num v v' s' : vec_round n s num v = Ok (v', s') -> grows s s'.
Proof.
  revert s v. induction n as [|n IH]; intros s v R; simpl in R; run_inv R; subst; try grow;
    match goal with E : vec_queue _ _ _ = _ |- _ => apply vec_queue_grows in E end; try grow;
    (eapply grows_trans; [|by eapply IH]); grow.
Qed.

Lemma vec_rounds_grows fuel s num v v' s' : vec_rounds fuel s num v = Ok (v', s') -> grows s s'.
Proof.
  revert s v. induction fuel as [|fuel IH]; intros s v R; simpl in R; run_inv R; subst; try grow.
  match goal with E : vec_round _ _ _ _ = _ |- _ => apply vec_round_grows in E end.
  eapply grows_trans; [|by eapply IH]. grow.
Qed.

Lemma poll_vec_grows s num evs s' : fastpath_poll_vec s num = Ok (evs, s') -> grows s s'.
Proof.
  unfold fastpath_poll_vec. intros R. run_inv R; subst.
  apply vec_rounds_grows in E. eapply grows_trans; [exact E|]. destruct (v_found v); by apply grows_same.
Qed.

(** ** Reporting to the fast path *)

Lemma kick_same cycle now s core s' : flextcp_flexnic_kick cycle now s core = Ok s' -> bview s' = bview s.
Proof. unfold flextcp_flexnic_kick. intros R. run_inv R; subst; [done|]. by destruct (_ >? cycle). Qed.

(** The state after the first connection was taken off. *)
Lemma pop_first s p c n l :
  bumps (bview s) (p :: l) -> lb_conns s !! p = Some c ->
  let s1 := put_fc s p (bumped c n) in
  let x := match bump_next c with None => with_last (lb_ctx s1) None | Some _ => lb_ctx s1 end in
  bumps (bview (set_fctx s1 (with_first x (bump_next c)))) l.
Proof.
  intros B Hc s1 x.
  assert (Hv : bv_conns (bview s) !! p = Some (bump_next c, bump_pending c)) by (by rewrite bview_lookup, Hc).
  pose proof (bp_seg _ _ B) as (_ & w & Hw & Hs). rewrite Hv in Hw. injection Hw as <-. simpl in Hs.
  pose proof (bp_last _ _ B) as Hl.
  assert (bump_pending_last x = last l) as Hx.
  { unfold x. destruct l as [|q l]; simpl in Hs.
    - by rewrite Hs.
    - destruct Hs as [-> _]. simpl. exact Hl. }
  pose proof (bumps_pop _ _ _ _ _ (last l) B Hv eq_refl) as Bp.
  unfold bview. simpl. rewrite fmap_insert, Hx. exact Bp.
Qed.

(** One iteration stops for lack of room, or takes the first connection off. *)
Lemma conn_bump_bumps cycle now s p l r s' :
  conn_bump cycle now s p = Ok (r, s') -> bumps (bview s) (p :: l) ->
  match r with None => kept s s' | Some _ => bumps (bview s') l end.
Proof.
  unfold conn_bump. intros R B. run_inv R; subst; kepts; [done|].
  match goal with E : flextcp_flexnic_kick _ _ _ _ = _ |- _ => apply kick_same in E; rewrite E end.
  apply fc_at_Ok in E. rewrite (kept_bview _ _ E8), (kept_bview _ _ E6).
  apply pop_first; [|by rewrite (proj1 E4), (proj1 E2)].
  by rewrite (kept_bview _ _ E4), (kept_bview _ _ E2).
Qed.

Lemma conns_bump_bumps cycle now fuel s l s' :
  conns_bump_loop cycle now fuel s = Ok s' -> bumps (bview s) l ->
  exists l1 l2, l = l1 ++ l2 /\ bumps (bview s') l2.
Proof.
  revert s l. induction fuel as [|fuel IH]; intros s l R B; simpl in R; run_inv R; subst; try (by exists [], l).
  - destruct l as [|q l]; pose proof (bp_seg _ _ B) as Hs; simpl in Hs; [congruence|].
    destruct Hs as [Hq _]. rewrite Hq in E. injection E as <-.
    eapply conn_bump_bumps in E0; [|exact B]. simpl in E0.
    destruct (IH _ _ R E0) as (l1 & l2 & -> & ?). by exists (q :: l1), l2.
  - destruct l as [|q l]; pose proof (bp_seg _ _ B) as Hs; simpl in Hs; [congruence|].
    destruct Hs as [Hq _]. rewrite Hq in E. injection E as <-.
    eapply conn_bump_bumps in E0; [|exact B]. simpl in E0.
    exists [], (q :: l). split; [done|]. by rewrite (kept_bview _ _ E0).
Qed.

(** ** Every call of the library *)

Inductive lib_call :=
| CallListen (lst port backlog flags : Z)
| CallAccept (lst : Z) (l : flextcp_listener) (conn : Z) (m : option tcp_mem)
| CallOpen (conn ip port : Z) (m : option tcp_mem)
| CallClose (conn : Z)
| CallMove (conn : Z)
| CallRxDone (conn len : Z)
| CallTxAlloc (conn len : Z)
| CallTxAlloc2 (conn len : Z)
| CallTxSend (conn len : Z)
| CallTxClose (conn : Z)
| CallPoll (num : Z)
(** The NIC and the network change queues and the link. *)
| CallPeers (qs : gmap Z rdma_queue) (l : L).

Context (remote : option rdma_env) (rxl txl mem cycle : Z).

Definition lib_step (now : Z) s (o : lib_call) : outcome state :=
  match o with
  | CallListen lst port backlog flags => '(_, s) ← flextcp_listen_open cycle now s lst port backlog flags; mret s
  | CallAccept lst l conn m => '(_, s) ← flextcp_listen_accept remote rxl txl cycle now s lst l conn m; mret s
  | CallOpen conn ip port m => '(_, s) ← flextcp_connection_open remote rxl txl cycle now s conn ip port m; mret s
  | CallClose conn => '(_, s) ← flextcp_connection_close cycle now s conn; mret s
  | CallMove conn => '(_, s) ← flextcp_connection_move cycle now s conn; mret s
  | CallRxDone conn len => '(_, s) ← flextcp_connection_rx_done s conn len; mret s
  | CallTxAlloc conn len => '(_, s) ← flextcp_connection_tx_alloc s conn len; mret s
  | CallTxAlloc2 conn len => '(_, s) ← flextcp_connection_tx_alloc2 s conn len; mret s
  | CallTxSend conn len => '(_, s) ← flextcp_connection_tx_send s conn len; mret s
  | CallTxClose conn => '(_, s) ← flextcp_connection_tx_close s conn; mret s
  | CallPoll num => '(_, s) ← flextcp_context_poll remote mem cycle now s num; mret s
  | CallPeers qs l => mret (set_link (set_qs s qs) l)
  end.

(** What the application must not do, and the code does not guard against: reuse
    the struct of a connection in the list; close the only connection in it. *)
Definition call_ok s (o : lib_call) : bool :=
  match o with
  | CallAccept _ _ p _ | CallOpen p _ _ _ =>
      match lb_conns s !! p with Some c => negb (bump_pending c) | None => true end
  | CallClose p =>
      negb (bool_decide (bump_pending_first (lb_ctx s) = Some p) && bool_decide (bump_pending_last (lb_ctx s) = Some p))
  | _ => true
  end.

Fixpoint lib_run s (tr : list (Z * lib_call)) : outcome state :=
  match tr with
  | [] => mret s
  | (now, o) :: tr => if call_ok s o then s ← lib_step now s o; lib_run s tr else mret s
  end.

Lemma close_bumps now s p rv s' l :
  flextcp_connection_close cycle now s p = Ok (rv, s') -> call_ok s (CallClose p) = true -> bumps (bview s) l ->
  bumps (bview s') (filter (fun x => x <> p) l).
Proof.
  intros R Hok B. unfold flextcp_connection_close in R. apply bind_Ok_inv in R as (s1 & Hr & R).
  assert (exists c, lb_conns s !! p = Some c) as [c Hc].
  { unfold bump_remove in Hr. apply bind_Ok_inv in Hr as (c & Hc & _). apply fc_at_Ok in Hc. eauto. }
  destruct (remove_bumps s l p c B Hc) as (s2 & Hr2 & B2).
  { intros ->. pose proof (bp_seg _ _ B) as [Hf _]. pose proof (bp_last _ _ B) as Hl. simpl in *.
    rewrite Hf, Hl in Hok. by rewrite !bool_decide_true in Hok. }
  rewrite Hr2 in Hr. injection Hr as ->.
  assert (bview s' = bview s1) as ->; [|done].
  run_inv R; subst; kepts; [by apply kept_bview|].
  repeat match goal with E : enqueue_appout _ _ _ _ = Ok _ |- _ => apply enqueue_appout_kept in E; rewrite (kept_bview _ _ E) end.
  erewrite bview_put_same; [by apply kept_bview|by apply fc_at_Ok|done|done].
Qed.

Lemma poll_bumps now s num evs s' l :
  flextcp_context_poll remote mem cycle now s num = Ok (evs, s') -> bumps (bview s) l -> exists l', bumps (bview s') l'.
Proof.
  unfold flextcp_context_poll, kernel_poll. intros R B.
  assert (G : grows s (flag_called s)) by by apply grows_same.
  run_inv R; subst; apply kernel_poll_grows in E; destruct (grows_trans _ _ _ G E l B) as [l' B'].
  - eauto.
  - apply poll_vec_grows in E1. destruct (E1 _ B') as [l'' B2].
    unfold conns_bump in E2. destruct (conns_bump_bumps _ _ _ _ _ _ E2 B2) as (? & ? & _ & ?). eauto.
Qed.

Lemma lib_step_bumps now s o s' l :
  lib_step now s o = Ok s' -> call_ok s o = true -> bumps (bview s) l -> exists l', bumps (bview s') l'.
Proof.
  intros R Hok B.
  assert (Hfresh : forall p, match lb_conns s !! p with Some c => negb (bump_pending c) | None => true end = true ->
    forall c, lb_conns s !! p = Some c -> bump_pending c = false).
  { intros p Hp c Hc. rewrite Hc in Hp. by apply negb_true_iff in Hp. }
  assert (G : grows s s' -> exists l', bumps (bview s') l') by (intros G; destruct (G l B); eauto).
  destruct o; simpl in R; run_inv R; subst; repeat match goal with x : (_ * _)%type |- _ => destruct x end;
    try (by eapply poll_bumps); try (by eexists; eapply close_bumps); apply G;
    eauto using listen_open_grows, accept_grows, connection_open_grows, move_grows, rx_done_grows, tx_alloc_grows,
      tx_alloc2_grows, tx_send_grows, tx_close_grows.
  by apply grows_same.
Qed.

(** C15. Whatever calls the application makes and whatever messages arrive, the
    connections with news for the fast path form a list without duplicates that
    ends where the context says and holds exactly the marked connections, as long
    as no struct in the list is reused and the only connection in it is not closed. *)
Theorem bump_list_invariant s tr s' l
  (B : bumps (bview s) l) (R : lib_run s tr = Ok s') : exists l', bumps (bview s') l'.
Proof.
  revert s l B R. induction tr as [|[now o] tr IH]; intros s l B R; simpl in R; run_inv R; subst; [eauto| |eauto].
  destruct (lib_step_bumps _ _ _ _ _ E0 E B) as [l' B']. eauto.
Qed.

End Calls.

(** ** The only connection *)

Section Only.
Context {L : Type} `{RdmaLink L}.
Implicit Types (s : lib_state L) (c : flextcp_connection).

(** Code bug: closing the only connection in the list leaves it as the last one of
    the context. The next connection that has news is appended to it, where
    [conns_bump] does not find it: marked, it is never marked again nor reported. *)
Theorem close_only_pending_strands cycle now s p c p' c'
  (B : bumps (bview s) [p]) (Hc : lb_conns s !! p = Some c)
  (Hc' : lb_conns s !! p' = Some c') (Hp : p' <> p) :
  exists s1 s2 c2, bump_remove s p = Ok s1 /\ conn_mark_bump s1 p' = Ok s2 /\
    lb_conns s2 !! p' = Some c2 /\ bump_pending c2 = true /\
    bump_pending_first (lb_ctx s2) = None /\ conns_bump cycle now s2 = Ok s2.
Proof.
  pose proof (bp_seg _ _ B) as (Hf & w & Hw & Hn). rewrite bview_lookup, Hc in Hw. injection Hw as <-.
  pose proof (bp_last _ _ B) as Hl. simpl in Hf, Hn, Hl.
  assert (Hpc : bump_pending c = true) by (apply (bumps_pending s [p] p c B Hc); left).
  assert (Hpc' : bump_pending c' = false).
  { destruct (bump_pending c') eqn:E; [|done]. apply (bumps_pending s [p] p' c' B Hc'), list_elem_of_singleton in E. done. }
  set (s1 := put_fc (set_fctx s (with_first (lb_ctx s) (bump_next c))) p (with_pending c false)).
  assert (E1 : bump_remove s p = Ok s1).
  { unfold bump_remove. rewrite (proj2 (fc_at_Ok s p c) Hc). simpl. rewrite Hpc. simpl.
    rewrite Hf, bool_decide_true by done. unfold fc_at. simpl. by rewrite Hc. }
  unfold conn_mark_bump, fc_at. simpl.
  assert (E2 : lb_conns s1 !! p' = Some c') by (unfold s1; simpl; by rewrite lookup_insert_ne).
  eexists s1, _, _. split; [exact E1|]. rewrite E2. simpl. rewrite Hpc', Hl. simpl.
  rewrite (lookup_insert_ne _ p' p), lookup_insert_eq by done. simpl.
  rewrite (lookup_insert_ne _ p p'), lookup_insert_eq by done. simpl.
  split; [reflexivity|]. split; [apply lookup_insert_eq|]. split; [done|]. split; [exact Hn|].
  unfold conns_bump. simpl. by rewrite Hn.
Qed.

End Only.

(** ** What the fast path is told *)

(** Operations on an unpaired queue at an address. *)
Section At.
Context {L : Type} `{RdmaLink L}.
Abbreviation state := (lib_state L).
Implicit Types (s : state) (c : flextcp_connection).

Lemma q_at_Ok s a q : lb_qs s !! a = Some q -> q_at s a = Ok q.
Proof. unfold q_at. by intros ->. Qed.

Lemma put_q_id s a q : lb_qs s !! a = Some q -> put_q s a q (lb_link s) = s.
Proof. intros Hq. unfold put_q, set_qs, set_link. simpl. rewrite insert_id by done. by destruct s. Qed.

Lemma fifo_flush_whole f : fifo_flush (Z.of_nat (length (pending f))) f = mk_fifo (visible f ++ pending f) [].
Proof. unfold fifo_flush. by rewrite Nat2Z.id, take_ge, drop_ge. Qed.

Lemma q_reserve_at s a q f n :
  lb_qs s !! a = Some q -> rep q f -> 0 <= n -> fifo_size f + n <= buffer_size q - RDMA_QUEUE_PAD ->
  q_reserve s a n = Ok (1, s).
Proof.
  intros Hq R Hn Hf. unfold q_reserve. rewrite (q_at_Ok s a q Hq). osimpl.
  unfold rq_try_reserve_flush. rewrite bind_assert_true by (apply Z.eqb_eq; apply R). simpl.
  rewrite (rep_max_flush q f R), (rep_to_flush q f R). osimpl.
  pose proof (rep_bs q f R) as Hb. unfold fifo_size, RDMA_QUEUE_PAD in *.
  rewrite (u64_small (_ + n)) by lia. rewrite u64_small by (destruct (_ =? 0); lia).
  destruct (Z.ltb_spec (if Z.of_nat (length (visible f)) =? 0 then buffer_size q - 8
    else buffer_size q - Z.of_nat (length (visible f))) (Z.of_nat (length (pending f)) + n)) as [Hlt|_].
  - exfalso. destruct (_ =? 0); lia.
  - osimpl. by rewrite put_q_id.
Qed.

Lemma q_nflush_at s a q f :
  lb_qs s !! a = Some q -> rep q f ->
  exists q', q_nflush s a (Z.of_nat (length (pending f))) = Ok (Z.of_nat (length (pending f)), put_q s a q' (lb_link s)) /\
    rep q' (mk_fifo (visible f ++ pending f) []) /\ tx_off q' = tx_off q /\ buffer_size q' = buffer_size q.
Proof.
  intros Hq R. unfold q_nflush. rewrite (q_at_Ok s a q Hq). osimpl.
  destruct (rq_nflush_local q f (lb_link s) (Z.of_nat (length (pending f))) R ltac:(lia)) as (q' & -> & R' & _ & _ & Ht & Hb).
  osimpl. rewrite Z.min_id, fifo_flush_whole in *. exists q'. auto.
Qed.

(** An entry is enqueued and flushed. *)
Lemma q_enqueue_at s a q f data n :
  lb_qs s !! a = Some q -> rep q f -> n = Z.of_nat (length data) ->
  fifo_size f + n <= buffer_size q - RDMA_QUEUE_PAD -> tx_off q + n <= buffer_size q ->
  exists q', q_enqueue s a (Some data) n = Ok (0, put_q s a q' (lb_link s)) /\
    rep q' (mk_fifo (visible f) (pending f ++ data)) /\ tx_off q' = tx_off q + n /\ buffer_size q' = buffer_size q.
Proof.
  intros Hq R -> Hf Ht. unfold q_enqueue. rewrite (q_at_Ok s a q Hq). osimpl.
  destruct (rq_enqueue_data q f (lb_link s) data R) as (q' & -> & R' & Ht' & _ & Hb); [lia|lia|]. osimpl. eauto.
Qed.

Lemma q_flush_at s a q f :
  lb_qs s !! a = Some q -> rep q f ->
  exists q', q_flush s a = Ok (Z.of_nat (length (pending f)), put_q s a q' (lb_link s)) /\
    rep q' (mk_fifo (visible f ++ pending f) []) /\ tx_off q' = tx_off q /\ buffer_size q' = buffer_size q.
Proof.
  intros Hq R. destruct (q_nflush_at s a q f Hq R) as (q' & Hn & R' & ? & ?). exists q'. split; [|done].
  unfold q_flush, rq_flush. unfold q_nflush in Hn. rewrite (q_at_Ok s a q Hq) in Hn |- *.
  osimpl. rewrite (rep_to_flush q f R). exact Hn.
Qed.

Lemma atx_length e : Z.of_nat (length (encode_atx e)) = SIZEOF_ATX.
Proof.
  by destruct (entry_lengths (mk_krx 0 0 0 0 0) (KtxOther 0) (mk_arx 0 0 0 0 0 0) e) as (_ & _ & _ & ?).
Qed.

(** ** A report of one connection *)

(** The queue to a core of the fast path. *)
Definition core_q s (core : Z) : option Z := cq_tx <$> cx_queues (lb_ctx s) !! Z.to_nat core.

(** What a connection has to report: the bytes read and written, with its flow, the
    number of the report and whether the stream ends. *)
Definition news c : atx_entry :=
  mk_atx (rxb_bump c) (txb_bump c) (fc_flow_id c) (u16 (fc_bump_seq c))
    (if has_all (fc_flags c) CONN_FLAG_TXEOS_ALLOC then FLEXTCP_PL_ATX_FLTXDONE else 0) FLEXTCP_PL_ATX_CONNUPDATE.
Lemma bump_entry_news c : 0 <= txb_bump c < 4294967296 -> bump_entry c (txb_bump c) = news c.
Proof. intros Hn. unfold bump_entry, news. by rewrite u32_small. Qed.

(** The bytes that tell a core of it. *)
Definition report s (a p : Z) : list Z :=
  match lb_conns s !! p with
  | Some c => if decide (core_q s (fc_fn_core c) = Some a) then encode_atx (news c) else []
  | None => []
  end.
Definition reports s (a : Z) (l : list Z) : list Z := concat (report s a <$> l).

Record bump_ready s (l : list Z) : Prop := {
  br_conn : forall p, p ∈ l -> exists c q f, lb_conns s !! p = Some c /\ fc_status c = CONN_OPEN /\
    lb_qs s !! fc_tx c = Some q /\ rep q f /\ txb_bump c = Z.of_nat (length (pending f));
  br_core : forall p c, p ∈ l -> lb_conns s !! p = Some c ->
    exists a q f, core_q s (fc_fn_core c) = Some a /\ lb_qs s !! a = Some q /\ rep q f /\ pending f = [] /\
      fifo_size f + Z.of_nat (length (reports s a l)) <= buffer_size q - RDMA_QUEUE_PAD /\
      tx_off q + Z.of_nat (length (reports s a l)) <= buffer_size q;
  br_distinct : forall p p' c c', p ∈ l -> p' ∈ l -> lb_conns s !! p = Some c -> lb_conns s !! p' = Some c' ->
    fc_tx c = fc_tx c' -> p = p';
  br_apart : forall p c k, p ∈ l -> lb_conns s !! p = Some c -> core_q s k <> Some (fc_tx c);
}.

Lemma kick_ok cycle now s core a :
  core_q s core = Some a ->
  exists s', flextcp_flexnic_kick cycle now s core = Ok s' /\ lb_qs s' = lb_qs s /\ lb_conns s' = lb_conns s /\
    bview s' = bview s /\ forall k, core_q s' k = core_q s k.
Proof.
  intros Ha. unfold core_q in Ha. destruct (cx_queues (lb_ctx s) !! Z.to_nat core) as [cq|] eqn:Hc; [|done].
  unfold flextcp_flexnic_kick, ctx_queue_at. rewrite Hc. osimpl.
  destruct (cycle =? UINT64_MAX); [by exists s|]. eexists. split; [reflexivity|].
  assert (forall k, (cq_tx <$> <[Z.to_nat core := mk_cq (cq_tx cq) (cq_rx cq) now]> (cx_queues (lb_ctx s)) !! Z.to_nat k)
    = cq_tx <$> cx_queues (lb_ctx s) !! Z.to_nat k) as Hk.
  { intros k. destruct (decide (Z.to_nat k = Z.to_nat core)) as [->|Hne].
    - rewrite Hc, list_lookup_insert_eq by (by eapply lookup_lt_Some). done.
    - by rewrite list_lookup_insert_ne. }
  destruct (u64 _ >? cycle); (split; [done|split; [done|split; [done|exact Hk]]]).
Qed.

Lemma conn_bump_local cycle now s p l c a qa fa qt ft :
  bumps (bview s) (p :: l) -> lb_conns s !! p = Some c -> fc_status c = CONN_OPEN ->
  lb_qs s !! fc_tx c = Some qt -> rep qt ft -> txb_bump c = Z.of_nat (length (pending ft)) ->
  core_q s (fc_fn_core c) = Some a -> lb_qs s !! a = Some qa -> rep qa fa -> pending fa = [] -> a <> fc_tx c ->
  fifo_size fa + SIZEOF_ATX <= buffer_size qa - RDMA_QUEUE_PAD -> tx_off qa + SIZEOF_ATX <= buffer_size qa ->
  exists s1 qa' qt', conn_bump cycle now s p = Ok (Some tt, s1) /\ bumps (bview s1) l /\
    lb_conns s1 = <[p := bumped c (txb_bump c)]> (lb_conns s) /\ (forall k, core_q s1 k = core_q s k) /\
    lb_qs s1 = <[a := qa']> (<[fc_tx c := qt']> (lb_qs s)) /\
    rep qa' (mk_fifo (visible fa ++ report s a p) []) /\ tx_off qa' = tx_off qa + SIZEOF_ATX /\
    buffer_size qa' = buffer_size qa /\ rep qt' (mk_fifo (visible ft ++ pending ft) []).
Proof.
  intros B Hc Hst Hqt Rt Htxb Ha Hqa Ra Hpa Hat Hroom Hlin.
  pose proof (rep_bs qt ft Rt) as Hbt. pose proof (rep_fits qt ft Rt) as Hft.
  assert (0 <= txb_bump c < 2147483648) as Hn by (unfold fifo_size, RDMA_QUEUE_PAD in *; lia).
  unfold conn_bump. rewrite (proj2 (fc_at_Ok s p c) Hc). osimpl.
  rewrite Hst, bool_decide_true by done. osimpl.
  pose proof Ha as Hcq. unfold core_q in Hcq.
  destruct (cx_queues (lb_ctx s) !! Z.to_nat (fc_fn_core c)) as [cq|] eqn:Hq; [|done].
  simpl in Hcq. injection Hcq as Hcq.
  unfold ctx_queue_at. rewrite Hq. osimpl. rewrite Hcq.
  rewrite (q_reserve_at s a qa fa) by (unfold SIZEOF_ATX in *; (done || lia)). osimpl.
  destruct (q_nflush_at s (fc_tx c) qt ft Hqt Rt) as (qt' & Hnf & Rt' & _). rewrite <- Htxb in Hnf.
  rewrite Hnf. osimpl. rewrite i32_small by lia. destruct (Z.ltb_spec (txb_bump c) 0); [lia|].
  set (s1 := put_q s (fc_tx c) qt' (lb_link s)).
  pose proof (pop_first s1 p c (txb_bump c) l) as Hpop. cbv zeta in Hpop.
  set (s2 := set_fctx (put_fc s1 p (bumped c (txb_bump c))) _) in *.
  assert (B2 : bumps (bview s2) l) by (apply Hpop; [exact B|exact Hc]). clear Hpop.
  assert (Hqa2 : lb_qs s2 !! a = Some qa).
  { change (lb_qs s2) with (<[fc_tx c := qt']> (lb_qs s)). by rewrite lookup_insert_ne. }
  destruct (q_enqueue_at s2 a qa fa (encode_atx (bump_entry c (txb_bump c))) SIZEOF_ATX Hqa2 Ra) as (qa1 & -> & R1 & T1 & B1);
    [by rewrite atx_length|done|done|]. osimpl.
  set (s3 := put_q s2 a qa1 (lb_link s2)).
  destruct (q_flush_at s3 a qa1 _ (lookup_insert_eq _ _ _) R1) as (qa' & -> & R2 & T2 & Bs2).
  cbn [pending visible] in R2 |- *. rewrite Hpa, app_nil_l in R2 |- *. osimpl. rewrite atx_length. osimpl.
  set (s4 := put_q s3 a qa' (lb_link s3)).
  assert (Hk4 : forall k, core_q s4 k = core_q s k).
  { intros k. unfold core_q, s4, s3, s2. simpl. by destruct (bump_next c). }
  destruct (kick_ok cycle now s4 (fc_fn_core c) a) as (s5 & -> & K1 & K2 & K3 & K4); [by rewrite Hk4|]. osimpl.
  exists s5, qa', qt'. split; [done|]. split; [by rewrite K3|]. split; [by rewrite K2|].
  split; [intros k; by rewrite K4|]. split; [rewrite K1; apply insert_insert_eq|].
  split; [unfold report; rewrite Hc, decide_True, <- bump_entry_news by (done || lia); exact R2|].
  split; [by rewrite T2|]. split; [congruence|done].
Qed.

(** A queue represents one FIFO only. *)
Lemma adv_inj bs pos n m :
  0 <= pos <= bs -> 0 <= n < bs -> 0 <= m < bs -> adv bs pos n = adv bs pos m -> n = m.
Proof. unfold adv. intros Hp Hn Hm. bsplit; lia. Qed.

Lemma rep_fun q f g : rep q f -> rep q g -> f = g.
Proof.
  intros Rf Rg. pose proof (rep_flush_range q f Rf). pose proof Rf as [? ? ? ? ? ? Ff Tf Sf Vf Pf].
  pose proof Rg as [? ? ? ? ? ? Fg Tg Sg Vg Pg]. unfold fifo_size, RDMA_QUEUE_PAD in *.
  assert (Z.of_nat (length (visible f)) = Z.of_nat (length (visible g))) as Hv
    by (apply (adv_inj (buffer_size q) (rx_off q)); (lia || congruence)).
  assert (Z.of_nat (length (pending f)) = Z.of_nat (length (pending g))) as Hp
    by (apply (adv_inj (buffer_size q) (flush_offset q)); (lia || congruence)).
  destruct f as [vf pf], g as [vg pg]. simpl in *. f_equal; [rewrite Vf, Vg|rewrite Pf, Pg]; congruence.
Qed.

Lemma reports_cons s a p l : reports s a (p :: l) = report s a p ++ reports s a l.
Proof. done. Qed.

Lemma reports_ext s s1 a l :
  (forall p, p ∈ l -> lb_conns s1 !! p = lb_conns s !! p) -> (forall k, core_q s1 k = core_q s k) ->
  reports s1 a l = reports s a l.
Proof.
  intros Hc Hk. unfold reports. f_equal. apply list_fmap_ext. intros i p Hp.
  apply list_elem_of_lookup_2 in Hp. unfold report. rewrite Hc by done.
  destruct (lb_conns s !! p); [|done]. by rewrite Hk.
Qed.

(** What a call of [conns_bump] that finds room does to connections and queues. *)
Record reported s (l : list Z) s' : Prop := {
  rd_conns : forall p, lb_conns s' !! p =
    if decide (p ∈ l) then (fun c => bumped c (txb_bump c)) <$> lb_conns s !! p else lb_conns s !! p;
  rd_core : forall k a q f, core_q s k = Some a -> lb_qs s !! a = Some q -> rep q f -> pending f = [] ->
    exists q', lb_qs s' !! a = Some q' /\ rep q' (mk_fifo (visible f ++ reports s a l) []);
  rd_tx : forall p c q f, p ∈ l -> lb_conns s !! p = Some c -> lb_qs s !! fc_tx c = Some q -> rep q f ->
    exists q', lb_qs s' !! fc_tx c = Some q' /\ rep q' (mk_fifo (visible f ++ pending f) []);
  rd_other : forall a, (forall k, core_q s k <> Some a) ->
    (forall p c, p ∈ l -> lb_conns s !! p = Some c -> fc_tx c <> a) -> lb_qs s' !! a = lb_qs s !! a;
}.

Lemma bump_ready_tail s s1 p l c a qa fa qa' qt' :
  bump_ready s (p :: l) -> p ∉ l -> lb_conns s !! p = Some c ->
  core_q s (fc_fn_core c) = Some a -> lb_qs s !! a = Some qa -> rep qa fa -> pending fa = [] ->
  lb_conns s1 = <[p := bumped c (txb_bump c)]> (lb_conns s) -> (forall k, core_q s1 k = core_q s k) ->
  lb_qs s1 = <[a := qa']> (<[fc_tx c := qt']> (lb_qs s)) ->
  rep qa' (mk_fifo (visible fa ++ report s a p) []) -> tx_off qa' = tx_off qa + SIZEOF_ATX ->
  buffer_size qa' = buffer_size qa -> bump_ready s1 l.
Proof.
  intros [H1 H2 H3 H4] Hpl Hc Ha Hqa Ra Hpa Ec Ek Eq R' T' Bs'.
  assert (El : forall x, x ∈ l -> lb_conns s1 !! x = lb_conns s !! x).
  { intros x Hx. rewrite Ec. apply lookup_insert_ne. by intros ->. }
  assert (Er : forall b, reports s1 b l = reports s b l) by (intros; by apply reports_ext).
  constructor.
  - intros x Hx. destruct (H1 x) as (d & q & f & Hd & Hst & Hq & R & Ht); [by right|].
    exists d, q, f. rewrite El by done. split; [done|]. split; [done|]. rewrite Eq.
    rewrite lookup_insert_ne by (intros E; apply (H4 x d (fc_fn_core c)); [by right|done|congruence]).
    rewrite lookup_insert_ne; [done|]. intros E. assert (p = x) as ->; [|done].
    apply (H3 p x c d); [left|by right|done|done|done].
  - intros x d Hx Hd. rewrite El in Hd by done. destruct (H2 x d) as (b & q & f & Hb & Hq & R & Hp & Hf & Ht); [by right|done|].
    rewrite reports_cons, length_app in Hf, Ht. rewrite Ek, Eq. exists b.
    destruct (decide (b = a)) as [->|Hba].
    + rewrite Hqa in Hq. injection Hq as <-. rewrite (rep_fun _ _ _ R Ra) in *.
      assert (Z.of_nat (length (report s a p)) = SIZEOF_ATX) as Hl
        by (unfold report; rewrite Hc, decide_True by done; apply atx_length).
      exists qa', (mk_fifo (visible fa ++ report s a p) []). rewrite lookup_insert_eq, Er, T', Bs'.
      split; [done|]. split; [done|]. split; [done|]. split; [done|].
      unfold fifo_size in *. simpl. rewrite Hpa, length_app in *. simpl in *. lia.
    + exists q, f. rewrite Er. rewrite lookup_insert_ne by done.
      rewrite lookup_insert_ne by (intros E; apply (H4 p c (fc_fn_core d)); [left|done|congruence]).
      split; [done|]. split; [done|]. split; [done|]. split; [done|]. lia.
  - intros x x' d d' Hx Hx'. rewrite !El by done. apply H3; by right.
  - intros x d k Hx. rewrite El, Ek by done. apply H4. by right.
Qed.

(** One report, then the others. *)
Lemma reported_cons s s1 s' p l c a qa fa qt ft qa' qt' :
  bump_ready s (p :: l) -> p ∉ l -> lb_conns s !! p = Some c ->
  core_q s (fc_fn_core c) = Some a -> lb_qs s !! a = Some qa -> rep qa fa -> pending fa = [] ->
  lb_qs s !! fc_tx c = Some qt -> rep qt ft ->
  lb_conns s1 = <[p := bumped c (txb_bump c)]> (lb_conns s) -> (forall k, core_q s1 k = core_q s k) ->
  lb_qs s1 = <[a := qa']> (<[fc_tx c := qt']> (lb_qs s)) ->
  rep qa' (mk_fifo (visible fa ++ report s a p) []) -> rep qt' (mk_fifo (visible ft ++ pending ft) []) ->
  reported s1 l s' -> reported s (p :: l) s'.
Proof.
  intros [H1 H2 H3 H4] Hpl Hc Ha Hqa Ra Hpa Hqt Rt Ec Ek Eq Ra' Rt' [D1 D2 D3 D4].
  assert (El : forall x, x ∈ l -> lb_conns s1 !! x = lb_conns s !! x).
  { intros x Hx. rewrite Ec. apply lookup_insert_ne. by intros ->. }
  assert (Er : forall b, reports s1 b l = reports s b l) by (intros; by apply reports_ext).
  assert (Hat : a <> fc_tx c) by (intros E; apply (H4 p c (fc_fn_core c)); [left|done|congruence]).
  constructor.
  - intros x. rewrite D1. destruct (decide (x = p)) as [->|Hx].
    + rewrite decide_False, decide_True by (done || left). by rewrite Ec, lookup_insert_eq, Hc.
    + rewrite Ec, lookup_insert_ne by done.
      destruct (decide (x ∈ l)), (decide (x ∈ p :: l)); set_solver.
  - intros k b q f Hb Hq R Hp. rewrite reports_cons. destruct (decide (b = a)) as [->|Hba].
    + rewrite Hqa in Hq. injection Hq as <-. rewrite (rep_fun _ _ _ R Ra).
      destruct (D2 k a qa' (mk_fifo (visible fa ++ report s a p) [])) as (q' & Hq' & R'); [by rewrite Ek| |done|done|].
      { by rewrite Eq, lookup_insert_eq. }
      exists q'. split; [done|]. rewrite <- Er, app_assoc. exact R'.
    + assert (report s b p = []) as -> by (unfold report; rewrite Hc, decide_False by congruence; done).
      rewrite <- Er. apply (D2 k b q f); [by rewrite Ek| |done|done].
      rewrite Eq, lookup_insert_ne, lookup_insert_ne; [done| |done].
      intros E. apply (H4 p c k); [left|done|congruence].
  - intros x d q f Hx Hd Hq R. apply elem_of_cons in Hx as [->|Hx].
    + rewrite Hc in Hd. injection Hd as <-. rewrite Hqt in Hq. injection Hq as <-.
      rewrite (rep_fun _ _ _ R Rt). exists qt'. split; [|done]. rewrite D4.
      * by rewrite Eq, lookup_insert_ne, lookup_insert_eq.
      * intros k. rewrite Ek. apply (H4 p); [left|done].
      * intros y d Hy Hd E. rewrite El in Hd by done. assert (y = p) as ->; [|done].
        apply (H3 y p d c); [by right|left|done|done|done].
    + apply (D3 x d q f); [done|by rewrite El| |done]. rewrite Eq, lookup_insert_ne, lookup_insert_ne; [done| |].
      * intros E. assert (p = x) as ->; [|done]. apply (H3 p x c d); [left|by right|done|done|done].
      * intros E. apply (H4 x d (fc_fn_core c)); [by right|done|congruence].
  - intros b Hb Ht. rewrite D4.
    + rewrite Eq, lookup_insert_ne, lookup_insert_ne; [done| |].
      * apply (Ht p); [left|done].
      * intros <-. by apply (Hb (fc_fn_core c)).
    + intros k. by rewrite Ek.
    + intros x d Hx Hd. rewrite El in Hd by done. apply (Ht x); [by right|done].
Qed.

Lemma reported_nil s : reported s [] s.
Proof.
  constructor; try done.
  - intros k a q f _ Hq R Hp. exists q. split; [done|]. unfold reports. simpl. rewrite app_nil_r.
    destruct f; simpl in *. by subst.
  - intros p c q f Hp. by apply elem_of_nil in Hp.
Qed.

Lemma conns_bump_reported cycle now s l :
  bumps (bview s) l -> bump_ready s l ->
  exists s', conns_bump cycle now s = Ok s' /\ bumps (bview s') [] /\ reported s l s'.
Proof.
  intros B Hr. unfold conns_bump. pose proof (bumps_length s l B) as Hf. apply le_n_S in Hf. revert Hf.
  generalize (S (size (lb_conns s))). intros fuel Hf. revert s l B Hr Hf.
  induction fuel as [|fuel IH]; intros s l B Hr Hf; [lia|]. simpl.
  destruct l as [|p l]; pose proof (bp_seg _ _ B) as Hs; simpl in Hs.
  { rewrite Hs. exists s. auto using reported_nil. }
  destruct Hs as [Hp _]. rewrite Hp. pose proof (bp_nodup _ _ B) as Hn. apply NoDup_cons in Hn as [Hpl _].
  destruct (br_conn _ _ Hr p ltac:(left)) as (c & qt & ft & Hc & Hst & Hqt & Rt & Htx).
  destruct (br_core _ _ Hr p c ltac:(left) Hc) as (a & qa & fa & Ha & Hqa & Ra & Hpa & Hroom & Hlin).
  rewrite reports_cons, length_app in Hroom, Hlin.
  assert (Z.of_nat (length (report s a p)) = SIZEOF_ATX) as Hl
    by (unfold report; rewrite Hc, decide_True by done; apply atx_length).
  destruct (conn_bump_local cycle now s p l c a qa fa qt ft) as
    (s1 & qa' & qt' & Hb & B1 & Ec & Ek & Eq & Ra' & Ta & Ba & Rt'); try done; try lia.
  { intros E. apply (br_apart _ _ Hr p c (fc_fn_core c)); [left|done|congruence]. }
  rewrite Hb. simpl.
  destruct (IH s1 l B1) as (s' & -> & B' & Hrep); [by eapply bump_ready_tail|simpl in Hf; lia|].
  exists s'. split; [done|]. split; [done|]. by eapply reported_cons.
Qed.

(** When the queues to the cores have room, [conns_bump] takes every pending
    connection off the list; each core reads one entry for each of its connections,
    in the order in which they were marked, with the bytes the application read and
    the bytes it wrote; exactly those written bytes become visible to the NIC, and
    no other queue changes. *)
Theorem conns_bump_reports cycle now s l
  (B : bumps (bview s) l) (Hr : bump_ready s l) :
  exists s', conns_bump cycle now s = Ok s' /\ bumps (bview s') [] /\ reported s l s' /\
    forall p c, p ∈ l -> lb_conns s !! p = Some c -> exists c', lb_conns s' !! p = Some c' /\
      rxb_bump c' = 0 /\ txb_bump c' = 0 /\ fc_bump_seq c' = u32 (fc_bump_seq c + 1).
Proof.
  destruct (conns_bump_reported cycle now s l B Hr) as (s' & E & B' & Rep). exists s'.
  split; [done|]. split; [done|]. split; [done|]. intros p c Hp Hc. eexists.
  split; [rewrite (rd_conns _ _ _ Rep), decide_True, Hc by done; reflexivity|]. simpl.
  split; [done|]. split; [|done]. by rewrite Z.sub_diag.
Qed.

End At.

(** ** An example *)
Module LibEx.

(** Two open connections, both with five bytes to send, and one core; the receive
    queue of the first holds 16 bytes. *)
Definition conn (n bump : Z) (next : option Z) (pending : bool) : flextcp_connection :=
  mk_fc (10 * n + 1) 3 (10 * n + 2) 0 bump 1 2 80 (1000 + n) 0 0 n 0 next None 0 pending CONN_OPEN 0 false.

Definition ctx (first last : option Z) : flextcp_context :=
  mk_fctx 200 201 [mk_cq 100 101 0] first last 0 0 1 0 0.

Definition queues : gmap Z rdma_queue :=
  {[ 11 := Demo.q64 10 26 26; 12 := Demo.q64 10 20 25; 21 := Demo.q64 0 8 8; 22 := Demo.q64 10 20 25;
     100 := Demo.q64 0 0 0; 101 := Demo.q64 0 0 0; 200 := Demo.q64 0 0 0; 201 := Demo.q64 0 0 0 ]}.

Definition state : lib_state peer :=
  mk_lib queues Demo.link {[ 1 := conn 1 5 (Some 2) true; 2 := conn 2 5 None true ]} (ctx (Some 1) (Some 2)) [] 0.

Definition idle : lib_state peer :=
  mk_lib queues Demo.link {[ 1 := conn 1 5 None false; 2 := conn 2 5 None false ]} (ctx None None) [] 0.

Definition single : lib_state peer :=
  mk_lib queues Demo.link {[ 1 := conn 1 5 None true; 2 := conn 2 5 None false ]} (ctx (Some 1) (Some 1)) [] 0.

Lemma conns_cases {A} (a b : A) p (x : A) : ({[1 := a; 2 := b]} : gmap Z A) !! p = Some x -> p = 1 /\ x = a \/ p = 2 /\ x = b.
Proof.
  intros [[<- <-]|[_ [<- <-]%lookup_singleton_Some]]%lookup_insert_Some; auto.
Qed.

Lemma state_bumps : bumps (bview state) [1; 2].
Proof.
  constructor.
  - vm_compute. split; [done|]. eexists. split; [done|]. split; [done|]. eexists. by split.
  - done.
  - apply NoDup_cons. split; [by intros [=]%list_elem_of_singleton|apply NoDup_singleton].
  - intros p n b. rewrite bview_lookup. destruct (lb_conns state !! p) as [c|] eqn:E; [|done].
    apply conns_cases in E as [[-> ->]|[-> ->]]; intros [= <- <-]; split; [intros _; left|done|intros _; right; left|done].
Qed.

Lemma idle_bumps : bumps (bview idle) [].
Proof.
  constructor; [done|done|constructor|]. intros p n b. rewrite bview_lookup. destruct (lb_conns idle !! p) as [c|] eqn:E; [|done].
  apply conns_cases in E as [[-> ->]|[-> ->]]; intros [= <- <-]; by split; [|intros ?%elem_of_nil].
Qed.

Lemma single_bumps : bumps (bview single) [1].
Proof.
  constructor; [|done|apply NoDup_singleton|].
  - vm_compute. split; [done|]. eexists. by split.
  - intros p n b. rewrite bview_lookup. destruct (lb_conns single !! p) as [c|] eqn:E; [|done].
    apply conns_cases in E as [[-> ->]|[-> ->]]; intros [= <- <-]; split; [intros _; left|done|done|].
    by intros ?%list_elem_of_singleton.
Qed.

Lemma rep_zero : rep (Demo.q64 0 0 0) (Demo.zeros 0 0).
Proof. constructor; Demo.by_compute. Qed.
Lemma rep_sixteen : rep (Demo.q64 10 26 26) (Demo.zeros 16 0).
Proof. constructor; Demo.by_compute. Qed.

Lemma core_of k a : core_q state k = Some a -> a = 100.
Proof.
  unfold core_q. simpl. destruct (Z.to_nat k) as [|n]; simpl; [by intros [= <-]|done].
Qed.

Lemma state_ready : bump_ready state [1; 2].
Proof.
  constructor.
  - intros p Hp. assert (exists c, lb_conns state !! p = Some c /\ fc_status c = CONN_OPEN /\
      lb_qs state !! fc_tx c = Some (Demo.q64 10 20 25) /\ txb_bump c = 5) as (c & H1 & H2 & H3 & H4).
    { revert p Hp. intros p [->|[->|?%elem_of_nil]%elem_of_cons]%elem_of_cons; [| |done]; eexists; by split. }
    exists c, (Demo.q64 10 20 25), (Demo.zeros 10 5). auto using Demo.rep_mid.
  - intros p c Hp Hc. exists 100, (Demo.q64 0 0 0), (Demo.zeros 0 0).
    split; [|split; [reflexivity|split; [exact rep_zero|split; [reflexivity|split; vm_compute; congruence]]]].
    apply conns_cases in Hc as [[-> ->]|[-> ->]]; reflexivity.
  - intros p p' c c' _ _ Hc Hc' E.
    apply conns_cases in Hc as [[-> ->]|[-> ->]], Hc' as [[-> ->]|[-> ->]]; (reflexivity || discriminate E).
  - intros p c k _ Hc E%core_of. apply conns_cases in Hc as [[-> ->]|[-> ->]]; discriminate E.
Qed.

End LibEx.

(** One connection sends and is closed before the other sends; then a poll. *)
Lemma bump_list_invariant_witness :
  match lib_run None 0 0 0 0 LibEx.idle
    [(1, CallTxAlloc2 1 3); (2, CallTxSend 1 3); (3, CallRxDone 2 4); (4, CallTxSend 2 0); (5, CallClose 1); (6, CallPoll 4)]
  with
  | Ok s' => bump_pending_last (lb_ctx s') = None /\ exists l', bumps (bview s') l'
  | Stop _ => False
  end.
Proof.
  destruct (lib_run None 0 0 0 0 LibEx.idle _) as [s'|] eqn:E; [|vm_compute in E; discriminate E].
  split; [vm_compute in E; by injection E as <-|].
  exact (bump_list_invariant None 0 0 0 0 LibEx.idle _ s' [] LibEx.idle_bumps E).
Defined.

Lemma conns_bump_reports_witness :
  exists s', conns_bump 0 0 LibEx.state = Ok s' /\ bumps (bview s') [] /\ reported LibEx.state [1; 2] s' /\
    forall p c, p ∈ [1; 2] -> lb_conns LibEx.state !! p = Some c -> exists c', lb_conns s' !! p = Some c' /\
      rxb_bump c' = 0 /\ txb_bump c' = 0 /\ fc_bump_seq c' = u32 (fc_bump_seq c + 1).
Proof. exact (conns_bump_reports 0 0 LibEx.state [1; 2] LibEx.state_bumps LibEx.state_ready). Defined.

Lemma close_only_pending_strands_witness :
  exists s1 s2 c2, bump_remove LibEx.single 1 = Ok s1 /\ conn_mark_bump s1 2 = Ok s2 /\
    lb_conns s2 !! 2 = Some c2 /\ bump_pending c2 = true /\
    bump_pending_first (lb_ctx s2) = None /\ conns_bump 0 0 s2 = Ok s2.
Proof.
  by apply (close_only_pending_strands 0 0 LibEx.single 1 (LibEx.conn 1 5 None true) 2 (LibEx.conn 2 5 None false) LibEx.single_bumps).
Defined.
