(* ===== verification/LibPollSpec.v ===== *)
(** * The application library: events

    Theorems about LibPoll. Polling the queues of the cores ends, stays within the
    room for events and takes what it reports; received bytes are where the events
    say. *)
From S2P Require Import Prelude RdmaQueue Packets FlowState Wire AppMsg LibTas LibPoll LibSpec.

#[local] Open Scope Z_scope.

(** ** The bytes of an event *)

(** What the application reads at the address an event gives. *)
Definition event_bytes (q : rdma_queue) (e : flextcp_event) : list Z :=
  match e with
  | EvConnReceived buf len _ => take (Z.to_nat len) (drop (Z.to_nat (buf - q_buf q 0)) (buffer q))
  | _ => []
  end.

Section Bytes.
Context (q : rdma_queue) (f : fifo) (R : rep q f).
Context (Haddr : 0 <= self q /\ self q + SIZEOF_RDMA_QUEUE + buffer_size q < 18446744073709551616).

Lemma q_buf_off off : 0 <= off <= buffer_size q -> q_buf q off - q_buf q 0 = off.
Proof. intros Hoff. unfold q_buf, SIZEOF_RDMA_QUEUE, OFFSETOF_BUFFER in *. rewrite !u64_small by lia. lia. Qed.

Lemma event_bytes_ring off len conn :
  0 <= off -> 0 <= len -> off + len <= buffer_size q ->
  event_bytes q (EvConnReceived (q_buf q off) len conn) = ring_read (buffer q) off len.
Proof.
  intros. unfold event_bytes. rewrite q_buf_off by lia. symmetry. apply ring_read_linear; [lia|lia|].
  rewrite (rep_buf q f R). lia.
Qed.

Lemma received_bytes n conn :
  0 < n <= Z.of_nat (length (visible f)) ->
  concat (event_bytes q <$> received_events q n conn) = take (Z.to_nat n) (visible f).
Proof.
  intros Hn.
  pose proof (rep_bs q f R) as Hb. pose proof (rep_rx q f R) as Hrx. pose proof (rep_fits q f R) as Hf.
  unfold fifo_size, RDMA_QUEUE_PAD in *.
  rewrite (rep_visible q f R), ring_take by lia.
  unfold received_events. rewrite u64_small by lia.
  destruct (Z.gtb_spec (rx_off q + n) (buffer_size q)) as [Hw|Hl]; cbn [fmap list_fmap concat].
  - rewrite (u32_small (buffer_size q - rx_off q)), u32_small by lia.
    rewrite !event_bytes_ring, app_nil_r by lia.
    replace n with ((buffer_size q - rx_off q) + (n - (buffer_size q - rx_off q))) at 2 by lia.
    rewrite ring_read_app by lia. f_equal.
    symmetry. rewrite <- ring_read_wrap, (rep_buf q f R). f_equal; lia.
  - by rewrite event_bytes_ring, app_nil_r by lia.
Qed.

(** The events for received bytes, one or two of them, are the next bytes of the
    stream: the application that reads what they point to reads the first [n]
    bytes of the queue, also across the end of the ring. *)
Theorem received_events_cover n conn
  (Hn : 0 < n <= Z.of_nat (length (visible f))) :
  concat (event_bytes q <$> received_events q n conn) = take (Z.to_nat n) (visible f).
Proof. by apply received_bytes. Qed.

End Bytes.

(** ** Loops without fuel do not run out of it *)

Definition fuelled {A} (m : outcome A) : Prop := m <> Stop OutOfFuel.

Create HintDb fuelled.

Lemma fuelled_bind {A B} (m : outcome A) (f : A -> outcome B) :
  fuelled m -> (forall a, m = Ok a -> fuelled (f a)) -> fuelled (m ≫= f).
Proof. intros Hm Hf. destruct m as [a|e]; simpl; [by apply Hf|]. intros E. apply Hm. by destruct e. Qed.

Ltac fuel_step :=
  match goal with
  | |- forall _, _ => intro
  | |- fuelled (_ ≫= _) => apply fuelled_bind
  | |- fuelled (mret _) => discriminate
  | |- fuelled (Ok _) => discriminate
  | |- fuelled (Stop _) => discriminate
  | |- fuelled (c_assert ?b) => by destruct b
  | |- fuelled (if ?b then _ else _) => destruct b
  | |- fuelled (let (_, _) := ?x in _) => destruct x
  | |- fuelled (match ?x with _ => _ end) => destruct x
  | |- fuelled _ => solve [auto with fuelled]
  end.
Ltac fuel := cbv zeta; repeat fuel_step.

Section Fuelled.
Context {L : Type} `{RdmaLink L}.
Implicit Types (s : lib_state L) (q : rdma_queue) (l : L).

Lemma fuelled_read b p n : fuelled (mem_read b p n).
Proof. unfold mem_read. fuel. Qed.
Lemma fuelled_write b p d : fuelled (mem_write b p d).
Proof. unfold mem_write. fuel. Qed.
#[local] Hint Resolve fuelled_read fuelled_write : fuelled.
Lemma fuelled_nbytes q a b i : fuelled (rq_nbytes q a b i).
Proof. unfold rq_nbytes. fuel. Qed.
#[local] Hint Resolve fuelled_nbytes : fuelled.
Lemma fuelled_to_flush q : fuelled (rq_nbytes_to_flush q).
Proof. unfold rq_nbytes_to_flush. fuel. Qed.
Lemma fuelled_enqueued q : fuelled (rq_nbytes_enqueued q).
Proof. unfold rq_nbytes_enqueued. fuel. Qed.
#[local] Hint Resolve fuelled_to_flush fuelled_enqueued : fuelled.
Lemma fuelled_empty q : fuelled (rq_nbytes_empty q).
Proof. unfold rq_nbytes_empty. fuel. Qed.
Lemma fuelled_max q : fuelled (rq_nbytes_max_flush q).
Proof. unfold rq_nbytes_max_flush. fuel. Qed.
#[local] Hint Resolve fuelled_empty fuelled_max : fuelled.
Lemma fuelled_flush_bytes q l n : fuelled (rq_flush_bytes q l n).
Proof. unfold rq_flush_bytes. fuel. Qed.
#[local] Hint Resolve fuelled_flush_bytes : fuelled.
Lemma fuelled_rounds k i q l m t : fuelled (rq_flush_rounds k i q l m t).
Proof. revert i q l m t. induction k as [|k IH]; intros i q l m t; simpl; fuel. Qed.
#[local] Hint Resolve fuelled_rounds : fuelled.
Lemma fuelled_nflush q l n : fuelled (rq_nflush q l n).
Proof. unfold rq_nflush. fuel. Qed.
#[local] Hint Resolve fuelled_nflush : fuelled.
Lemma fuelled_flush q l : fuelled (rq_flush q l).
Proof. unfold rq_flush. fuel. Qed.
#[local] Hint Resolve fuelled_flush : fuelled.
Lemma fuelled_enqueue q l d n : fuelled (rq_try_enqueue q l d n).
Proof. unfold rq_try_enqueue. fuel. Qed.
Lemma fuelled_dequeue q w n b : fuelled (rq_try_possible_dequeue q w n b).
Proof. unfold rq_try_possible_dequeue. fuel. Qed.
#[local] Hint Resolve fuelled_enqueue fuelled_dequeue : fuelled.
Lemma fuelled_q_at s a : fuelled (q_at s a).
Proof. unfold q_at. fuel. Qed.
Lemma fuelled_fc_at s p : fuelled (fc_at s p).
Proof. unfold fc_at. fuel. Qed.
Lemma fuelled_cq_at s i : fuelled (ctx_queue_at s i).
Proof. unfold ctx_queue_at. fuel. Qed.
#[local] Hint Resolve fuelled_q_at fuelled_fc_at fuelled_cq_at : fuelled.
Lemma fuelled_mark s p : fuelled (conn_mark_bump s p).
Proof. unfold conn_mark_bump. fuel. Qed.
#[local] Hint Resolve fuelled_mark : fuelled.
Lemma fuelled_pushtxeos s p : fuelled (flextcp_conn_pushtxeos s p).
Proof. unfold flextcp_conn_pushtxeos, q_enqueue. fuel. Qed.
#[local] Hint Resolve fuelled_pushtxeos : fuelled.
Lemma fuelled_arx s e n k : fuelled (event_arx_connupdate s e n k).
Proof. unfold event_arx_connupdate, bump_rx, bump_tx. fuel. Qed.
#[local] Hint Resolve fuelled_arx : fuelled.
Lemma fuelled_vec_queue s i n : fuelled (vec_queue s i n).
Proof. unfold vec_queue, rq_try_peek, q_dequeue, rq_try_dequeue. fuel. Qed.
#[local] Hint Resolve fuelled_vec_queue : fuelled.
Lemma fuelled_vec_round k s n v : fuelled (vec_round k s n v).
Proof. revert s v. induction k as [|k IH]; intros s v; simpl; fuel. Qed.

End Fuelled.

(** ** Polling the queues of the cores *)

Section Vec.
Context {L : Type} `{RdmaLink L}.
Abbreviation state := (lib_state L).
Implicit Types (s : state) (c : flextcp_connection).

(** What polling relies on and keeps: the queues from the cores are queues, and so
    are the send queues of open connections, apart from those and from each other,
    with exactly the unreported bytes pending. *)
Definition tview s : gmap Z (Z * conn_state * Z) := (fun c => (fc_tx c, fc_status c, txb_bump c)) <$> lb_conns s.

Record poll_wf s : Prop := {
  pw_rx : forall cq, cq ∈ cx_queues (lb_ctx s) -> exists q f, lb_qs s !! cq_rx cq = Some q /\ rep q f;
  pw_tx : forall p a n, tview s !! p = Some (a, CONN_OPEN, n) ->
    exists q f, lb_qs s !! a = Some q /\ rep q f /\ n = Z.of_nat (length (pending f));
  pw_apart : forall p a n cq, tview s !! p = Some (a, CONN_OPEN, n) -> cq ∈ cx_queues (lb_ctx s) -> a <> cq_rx cq;
  pw_distinct : forall p p' a n n', tview s !! p = Some (a, CONN_OPEN, n) -> tview s !! p' = Some (a, CONN_OPEN, n') -> p = p';
}.

(** The queues from the cores are left alone. *)
Definition same_rx s s' : Prop :=
  cx_queues (lb_ctx s') = cx_queues (lb_ctx s) /\ num_queues (lb_ctx s') = num_queues (lb_ctx s) /\
  next_queue (lb_ctx s') = next_queue (lb_ctx s) /\
  forall cq, cq ∈ cx_queues (lb_ctx s) -> lb_qs s' !! cq_rx cq = lb_qs s !! cq_rx cq.

Lemma tview_lookup s p c : lb_conns s !! p = Some c -> tview s !! p = Some (fc_tx c, fc_status c, txb_bump c).
Proof. intros Hc. unfold tview. by rewrite lookup_fmap, Hc. Qed.

Lemma tview_put s p c : tview (put_fc s p c) = <[p := (fc_tx c, fc_status c, txb_bump c)]> (tview s).
Proof. unfold tview. simpl. by rewrite fmap_insert. Qed.

Lemma tview_put_same s p c c' :
  lb_conns s !! p = Some c -> fc_tx c' = fc_tx c -> fc_status c' = fc_status c -> txb_bump c' = txb_bump c ->
  tview (put_fc s p c') = tview s.
Proof. intros Hc Ht Hs Hb. rewrite tview_put, Ht, Hs, Hb. apply insert_id. by apply tview_lookup. Qed.

Lemma tview_put_at s p c c' :
  fc_at s p = Ok c -> fc_tx c' = fc_tx c -> fc_status c' = fc_status c -> txb_bump c' = txb_bump c ->
  tview (put_fc s p c') = tview s.
Proof. intros Hc%fc_at_Ok. by apply tview_put_same. Qed.

(** Nothing but links, marks and counters of connections changes. *)
Definition framed s s' : Prop := tview s' = tview s /\ lb_qs s' = lb_qs s /\ same_rx s s'.

Lemma framed_refl s : framed s s.
Proof. done. Qed.
Lemma framed_trans s1 s2 s3 : framed s1 s2 -> framed s2 s3 -> framed s1 s3.
Proof.
  intros (T1 & Q1 & A1 & B1 & C1 & D1) (T2 & Q2 & A2 & B2 & C2 & D2).
  split; [congruence|]. split; [congruence|]. split; [congruence|]. split; [congruence|]. split; [congruence|].
  intros cq Hcq. rewrite D2, D1; [done|done|by rewrite A1].
Qed.
Lemma framed_put s p c c' :
  fc_at s p = Ok c -> fc_tx c' = fc_tx c -> fc_status c' = fc_status c -> txb_bump c' = txb_bump c ->
  framed s (put_fc s p c').
Proof. intros. split; [by eapply tview_put_at|done]. Qed.

Lemma mark_framed s p s' : conn_mark_bump s p = Ok s' -> framed s s'.
Proof.
  unfold conn_mark_bump. intros R. apply bind_Ok_inv in R as (c & Hc & R).
  destruct (bump_pending c); [run_inv R; by subst|].
  apply bind_Ok_inv in R as (s1 & Hs1 & R). apply bind_Ok_inv in R as (c' & Hc' & R). injection R as <-.
  eapply framed_trans; [|eapply framed_put; [exact Hc'|done|done|done]].
  apply (framed_trans _ s1); [|done].
  eapply framed_trans; [by eapply (framed_put _ p c ((with_bump_next c None) <| bump_prev := bump_pending_last (lb_ctx s) |>))|].
  destruct (bump_pending_last (lb_ctx s)) as [q|].
  - apply bind_Ok_inv in Hs1 as (d & Hd & Hs1). injection Hs1 as <-. by eapply framed_put.
  - injection Hs1 as <-. done.
Qed.

Lemma framed_wf s s' : framed s s' -> poll_wf s -> poll_wf s'.
Proof.
  intros (T & Q & A & _) [P1 P2 P3 P4].
  constructor; [rewrite A, Q|rewrite T, Q|rewrite T, A|rewrite T]; assumption.
Qed.

(** The byte that ends the stream: the queue accepts it or the program stops. *)
Lemma enqueue_eos q f (l : L) rv q' l' :
  rep q f -> fifo_size f <> buffer_size q - RDMA_QUEUE_PAD -> rq_try_enqueue q l (Some [1]) 1 = Ok (rv, q', l') ->
  rep q' (mk_fifo (visible f) (pending f ++ [1])).
Proof.
  intros R Hroom He. pose proof (rep_fits q f R) as Hf. pose proof (rep_tx_range q f R) as Ht.
  change 1 with (Z.of_nat (length [1])) in He at 2.
  destruct (decide (tx_off q = buffer_size q)) as [Hend|Hend].
  - rewrite (rq_enqueue_wrap_oob q f l [1] R) in He; [done| |]; simpl; lia.
  - destruct (rq_enqueue_data q f l [1] R) as (q2 & He2 & R2 & _); [simpl; lia|simpl; lia|].
    rewrite He2 in He. by injection He as <- <- <-.
Qed.

Lemma pushtxeos_wf s p c r s' :
  poll_wf s -> fc_at s p = Ok c -> fc_status c = CONN_OPEN -> flextcp_conn_pushtxeos s p = Ok (r, s') ->
  poll_wf s' /\ same_rx s s'.
Proof.
  intros W Hc Hst R. pose proof W as [P1 P2 P3 P4].
  pose proof (tview_lookup s p c (proj1 (fc_at_Ok _ _ _) Hc)) as Hv. rewrite Hst in Hv.
  destruct (P2 _ _ _ Hv) as (q & f & Hq & Rq & Hn).
  unfold flextcp_conn_pushtxeos in R. rewrite Hc in R. simpl in R. unfold q_enqueue in R. rewrite (q_at_Ok _ _ _ Hq) in R.
  simpl in R. rewrite (rep_to_flush q f Rq), (rep_empty q f Rq) in R.
  simpl in R. destruct (Z.eqb_spec (buffer_size q - RDMA_QUEUE_PAD - fifo_size f) 0) as [|Hroom]; run_inv R; subst; [by split|].
  match goal with E : (rq_try_enqueue _ _ _ _ ≫= _) = Ok _ |- _ => run_inv E; subst end.
  match goal with E : rq_try_enqueue _ _ _ _ = Ok (_, ?q1, _) |- _ =>
    rename q1 into q'; pose proof (enqueue_eos _ _ _ _ _ _ Rq ltac:(lia) E) as R' end.
  match goal with E : conn_mark_bump _ _ = _ |- _ => rename E into E5; apply mark_framed in E5 end.
  pose proof (rep_fits q f Rq). pose proof (rep_bs q f Rq). unfold fifo_size, RDMA_QUEUE_PAD in *.
  match type of E5 with framed ?x _ => set (s1 := x) in * end.
  assert (T1 : tview s1 = <[p := (fc_tx c, CONN_OPEN, Z.of_nat (length (pending f)) + 1)]> (tview s)).
  { unfold s1. rewrite tview_put. simpl. rewrite Hst, Hn, u32_small by lia. done. }
  assert (Q1 : lb_qs s1 = <[fc_tx c := q']> (lb_qs s)) by done.
  assert (S1 : same_rx s s1).
  { do 3 (split; [done|]). intros cq Hcq. rewrite Q1. apply lookup_insert_ne. by eapply P3. }
  split.
  - apply (framed_wf s1); [exact E5|]. constructor.
    + intros cq Hcq. destruct S1 as (A & _ & _ & D). rewrite A in Hcq. rewrite D by done. by apply P1.
    + intros x a n. rewrite T1, Q1. destruct (decide (x = p)) as [->|Hx].
      * rewrite lookup_insert_eq. intros [= <- <-]. rewrite lookup_insert_eq. eexists _, _. split; [done|].
        split; [exact R'|]. simpl. rewrite length_app. simpl. lia.
      * rewrite lookup_insert_ne by done. intros Hx'. rewrite lookup_insert_ne; [by apply (P2 x)|].
        intros <-. apply Hx. by eapply P4.
    + intros x a n cq. rewrite T1. destruct S1 as (A & _). rewrite A. destruct (decide (x = p)) as [->|Hx].
      * rewrite lookup_insert_eq. intros [= <- <-]. by eapply P3.
      * rewrite lookup_insert_ne by done. apply P3.
    + intros x y a n m. rewrite T1.
      destruct (decide (x = p)) as [->|Hx], (decide (y = p)) as [->|Hy]; rewrite ?lookup_insert_eq, ?lookup_insert_ne by done; try done.
      * intros [= <- <-] Hy'. by eapply P4.
      * intros Hx' [= <- <-]. by eapply P4.
      * apply P4.
  - destruct S1 as (A & Bq & C & D), E5 as (_ & _ & A' & B' & C' & D').
    split; [congruence|]. split; [congruence|]. split; [congruence|]. intros cq Hcq. rewrite D', D; [done|done|by rewrite A].
Qed.

Lemma same_rx_refl s : same_rx s s.
Proof. done. Qed.
Lemma same_rx_trans s1 s2 s3 : same_rx s1 s2 -> same_rx s2 s3 -> same_rx s1 s3.
Proof.
  intros (A & B & C & D) (A' & B' & C' & D'). split; [congruence|]. split; [congruence|]. split; [congruence|].
  intros cq Hcq. rewrite D', D; [done|done|by rewrite A].
Qed.
Lemma framed_same_rx s s' : framed s s' -> same_rx s s'.
Proof. by intros (_ & _ & ?). Qed.

(** What one step of polling keeps. *)
Definition polled s s' : Prop := poll_wf s' /\ same_rx s s'.
Lemma polled_refl s : poll_wf s -> polled s s.
Proof. by split. Qed.
Lemma polled_trans s1 s2 s3 : polled s1 s2 -> (poll_wf s2 -> polled s2 s3) -> polled s1 s3.
Proof. intros [W1 S1] H2. destruct (H2 W1) as [W2 S2]. split; [done|by eapply same_rx_trans]. Qed.
Lemma framed_polled s s' : framed s s' -> poll_wf s -> polled s s'.
Proof. intros F W. split; [by eapply framed_wf|by apply framed_same_rx]. Qed.

Lemma one_or_none (b : bool) : 0 <= (if b then 1 else 0) <= 1.
Proof. by destruct b. Qed.

Lemma bump_tx_wf s p c n ev evs s' :
  poll_wf s -> fc_at s p = Ok c -> fc_status c = CONN_OPEN -> bump_tx s p n ev = Ok (evs, s') ->
  polled s s' /\
  Z.of_nat (length evs) <= (if ev then 1 else 0) + (if has_all (fc_flags c) CONN_FLAG_TXEOS_ALLOC && (txb_bump c =? 0) then 1 else 0).
Proof.
  intros W Hc Hst R. unfold bump_tx in R. rewrite Hc in R. simpl in R.
  run_inv R; subst;
    try (split; [by apply polled_refl|pose proof (one_or_none (has_all (fc_flags c) CONN_FLAG_TXEOS_ALLOC && (txb_bump c =? 0))); destruct ev; simpl; lia]).
  - split; [by eapply pushtxeos_wf|pose proof (one_or_none (has_all (fc_flags c) CONN_FLAG_TXEOS_ALLOC && (txb_bump c =? 0))); destruct ev; simpl; lia].
  - split; [|repeat match goal with E : ?b = true |- context [?b] => rewrite E end; destruct ev; simpl; lia]. apply framed_polled; [|done]. by eapply framed_put.
Qed.

Lemma received_events_length q n conn :
  Z.of_nat (length (received_events q n conn)) = if u64 (rx_off q + n) >? buffer_size q then 2 else 1.
Proof. unfold received_events. by destruct (_ >? _). Qed.

Lemma bump_rx_framed s p c rxq n evs s' :
  fc_at s p = Ok c -> bump_rx s p c rxq n = Ok (evs, s') ->
  framed s s' /\ (exists c', fc_at s' p = Ok c' /\ fc_status c' = fc_status c /\ fc_flags c' = fc_flags c /\
    txb_bump c' = txb_bump c) /\
  Z.of_nat (length evs) = if n >? 0 then if u64 (rx_off rxq + n) >? buffer_size rxq then 2 else 1 else 0.
Proof.
  intros Hc R. unfold bump_rx in R. destruct (n >? 0); simpl in R; run_inv R; subst.
  - split; [by eapply framed_put|]. split; [|apply received_events_length].
    eexists. split; [apply fc_at_Ok, lookup_insert_eq|done].
  - split; [done|]. split; [by exists c|done].
Qed.

Lemma arx_wf s e outn core evs s' :
  poll_wf s -> 0 <= outn -> event_arx_connupdate s e outn core = Ok (evs, s') ->
  polled s s' /\ match evs with Some l => Z.of_nat (length l) <= outn | None => lb_qs s' = lb_qs s end.
Proof.
  intros W Hout R. unfold event_arx_connupdate in R.
  apply bind_Ok_inv in R as (c & Hc & R). cbv zeta in R.
  set (c1 := with_fn_core c (u16 core)) in R.
  assert (F1 : framed s (put_fc s (arx_opaque e) c1)) by by eapply framed_put.
  assert (Hc1 : fc_at (put_fc s (arx_opaque e) c1) (arx_opaque e) = Ok c1) by (apply fc_at_Ok, lookup_insert_eq).
  pose proof (framed_polled _ _ F1 W) as P1. change (fc_status c1) with (fc_status c) in R.
  destruct (fc_status c) eqn:Hst; try (run_inv R; subst; split; [|done]).
  1: done.
  1,2: apply (polled_trans _ _ _ P1); intros W1; apply framed_polled; [by eapply framed_put|done].
  2: done.
  set (s1 := put_fc s (arx_opaque e) c1) in *.
  assert (Hst1 : fc_status c1 = CONN_OPEN) by done. clearbody c1. 
  pose proof (tview_lookup s1 _ c1 (proj1 (fc_at_Ok _ _ _) Hc1)) as Hv. rewrite Hst1 in Hv.
  destruct (pw_tx _ (proj1 P1) _ _ _ Hv) as (q & f & Hq & Rq & Hn).
  apply bind_Ok_inv in R as (rxq & Hrxq & R). rewrite (q_at_Ok _ _ _ Hq) in R. simpl in R.
  apply bind_Ok_inv in R as (ev & Hev & R). rewrite (rep_to_flush q f Rq) in R. simpl in R.
  unfold evs_needed in R. pose proof (rep_bs q f Rq). pose proof (rep_fits q f Rq).
  unfold fifo_size, RDMA_QUEUE_PAD in *. rewrite u32_small, <- Hn in R by lia.
  match type of R with (if ?b then _ else _) = _ => destruct b eqn:Hneed end.
  { injection R as <- <-. by split. }
  apply bind_Ok_inv in R as ([rx_evs s2] & Hrx & R). apply bind_Ok_inv in R as ([tx_evs s3] & Htx & R).
  destruct (bump_rx_framed _ _ _ _ _ _ _ Hc1 Hrx) as (F2 & (c2 & Hc2 & Hst2 & Hfl2 & Htb2) & Lrx).
  pose proof (polled_trans _ _ _ P1 (fun W1 => framed_polled _ _ F2 W1)) as P2.
  destruct (bump_tx_wf s2 _ c2 _ _ _ _ (proj1 P2) Hc2 ltac:(congruence) Htx) as [P3 Ltx].
  rewrite Hfl2, Htb2 in Ltx. pose proof (polled_trans _ _ _ P2 (fun _ => P3)) as P.
  rewrite Z.gtb_ltb in Hneed. apply Z.ltb_ge in Hneed.
  destruct (has_all (arx_flags e) FLEXTCP_PL_ARX_FLRXDONE); run_inv R; subst.
  - split; [|rewrite !length_app; simpl; lia].
    apply (polled_trans _ _ _ P). intros W3. apply framed_polled; [by eapply framed_put|done].
  - split; [done|]. rewrite length_app. lia.
Qed.

(** ** The bytes that wait in the queues from the cores *)

Definition waiting (qs : gmap Z rdma_queue) (a : Z) : Z :=
  match qs !! a with
  | Some q => match rq_nbytes_enqueued q with Ok n => n | Stop _ => 0 end
  | None => 0
  end.
Fixpoint waiting_all (qs : gmap Z rdma_queue) (l : list ctx_queue) : Z :=
  match l with [] => 0 | cq :: l => waiting qs (cq_rx cq) + waiting_all qs l end.

Lemma waiting_rep qs a q f : qs !! a = Some q -> rep q f -> waiting qs a = Z.of_nat (length (visible f)).
Proof. intros Hq R. unfold waiting. by rewrite Hq, (rep_enqueued q f R). Qed.

Lemma waiting_all_same qs qs' l :
  (forall cq, cq ∈ l -> qs' !! cq_rx cq = qs !! cq_rx cq) -> waiting_all qs' l = waiting_all qs l.
Proof.
  intros Hl. induction l as [|x l IH]; [done|]. simpl. unfold waiting at 1 2. rewrite Hl by left.
  rewrite IH; [done|]. intros cq Hcq. apply Hl. by right.
Qed.

Lemma waiting_all_mono qs a q' l n :
  waiting (<[a := q']> qs) a + n <= waiting qs a -> 0 <= n ->
  waiting_all (<[a := q']> qs) l + (if decide (a ∈ (cq_rx <$> l)) then n else 0) <= waiting_all qs l.
Proof.
  intros Hw Hn. induction l as [|x l IH]; [simpl; lia|]. rewrite fmap_cons. cbn [waiting_all].
  assert (Hx : cq_rx x <> a -> waiting (<[a := q']> qs) (cq_rx x) = waiting qs (cq_rx x)).
  { intros Hne. unfold waiting. by rewrite lookup_insert_ne. }
  revert IH. destruct (decide (cq_rx x = a)) as [E|Hne].
  - rewrite E. destruct (decide (a ∈ a :: (cq_rx <$> l))) as [_|[]]; [|left].
    destruct (decide (a ∈ cq_rx <$> l)); lia.
  - rewrite Hx by done. destruct (decide (a ∈ cq_rx x :: (cq_rx <$> l))) as [Hin|Hin];
      destruct (decide (a ∈ cq_rx <$> l)) as [Hl|Hl]; try lia.
    apply elem_of_cons in Hin as [E|E]; [by rewrite E in Hne|done].
Qed.

(** An entry that was taken. *)
Lemma dequeue_wf s cq w sz d s' :
  poll_wf s -> cq ∈ cx_queues (lb_ctx s) -> 0 <= sz -> q_dequeue s (cq_rx cq) w sz = Ok (0, d, s') ->
  poll_wf s' /\ cx_queues (lb_ctx s') = cx_queues (lb_ctx s) /\ num_queues (lb_ctx s') = num_queues (lb_ctx s) /\
  next_queue (lb_ctx s') = next_queue (lb_ctx s) /\ tview s' = tview s /\
  waiting_all (lb_qs s') (cx_queues (lb_ctx s)) + sz <= waiting_all (lb_qs s) (cx_queues (lb_ctx s)).
Proof.
  intros W Hcq Hsz R. destruct W as [P1 P2 P3 P4]. destruct (P1 cq Hcq) as (q & f & Hq & Rq).
  unfold q_dequeue in R. rewrite (q_at_Ok _ _ _ Hq) in R. simpl in R.
  pose proof (rq_dequeue_local q f w sz true Rq Hsz) as Hd. unfold fifo_dequeue in Hd.
  destruct (Z.ltb_spec (Z.of_nat (length (visible f))) sz) as [Hlt|Hge];
    destruct Hd as (q' & Hd & Rq' & _); unfold rq_try_dequeue in R; rewrite Hd in R; run_inv R; subst; [done|].
  assert (Hin : cq_rx cq ∈ cq_rx <$> cx_queues (lb_ctx s)) by by apply list_elem_of_fmap_2.
  split; [constructor|].
  - intros x Hx. simpl. destruct (decide (cq_rx x = cq_rx cq)) as [->|Hne].
    + rewrite lookup_insert_eq. eauto.
    + rewrite lookup_insert_ne by done. by apply P1.
  - intros p a n Hp. change (lb_qs _) with (<[cq_rx cq := q']> (lb_qs s)).
    rewrite lookup_insert_ne; [by apply (P2 p)|]. intros E. by apply (P3 p a n cq Hp).
  - exact P3.
  - exact P4.
  - do 4 (split; [done|]). simpl.
    pose proof (waiting_all_mono (lb_qs s) (cq_rx cq) q' (cx_queues (lb_ctx s)) sz) as Hm.
    rewrite decide_True in Hm by done. apply Hm; [|done].
    rewrite (waiting_rep (<[_ := q']> _) _ q' _ (lookup_insert_eq _ _ _) Rq'), (waiting_rep _ _ q f Hq Rq).
    simpl. rewrite length_drop. lia.
Qed.

(** One queue: nothing, an entry with its events, or no room for them. *)
Lemma vec_queue_wf s i room r s' :
  poll_wf s -> 0 <= room -> vec_queue s i room = Ok (r, s') ->
  poll_wf s' /\ cx_queues (lb_ctx s') = cx_queues (lb_ctx s) /\ num_queues (lb_ctx s') = num_queues (lb_ctx s) /\
  next_queue (lb_ctx s') = next_queue (lb_ctx s) /\
  let w s := waiting_all (lb_qs s) (cx_queues (lb_ctx s)) in
  match r with
  | VecNone | VecRanOut => w s' = w s
  | VecTaken evs => Z.of_nat (length evs) <= room /\ w s' + SIZEOF_ARX <= w s
  end.
Proof.
  intros W Hroom R. unfold vec_queue in R. apply bind_Ok_inv in R as (cq & Hcq & R).
  assert (Hin : cq ∈ cx_queues (lb_ctx s)).
  { unfold ctx_queue_at in Hcq. destruct (cx_queues (lb_ctx s) !! Z.to_nat i) eqn:E; [|done]. injection Hcq as ->.
    by eapply list_elem_of_lookup_2. }
  run_inv R; subst; try done.
  all: match goal with E : event_arx_connupdate _ _ _ _ = _ |- _ => apply arx_wf in E as [[W1 (A & B & C & D)] Hev]; [|done|done] end.
  - match goal with E : q_dequeue _ _ _ _ = Ok (?z, _, _), E2 : c_assert (?z =? 0) = _ |- _ =>
      apply c_assert_Ok, Z.eqb_eq in E2; subst z; apply dequeue_wf in E as (W2 & A2 & B2 & C2 & _ & D2); [|done|by rewrite A|done] end.
    split; [done|]. split; [congruence|]. split; [congruence|]. split; [congruence|].
    cbv beta zeta. split; [done|]. rewrite A2, A in *. rewrite (waiting_all_same (lb_qs s) (lb_qs l0)) in D2 by done. exact D2.
  - do 4 (split; [done|]). cbv beta zeta. rewrite A. by apply waiting_all_same.
Qed.

(** ** The rounds *)

(** Nothing to report: no whole message waits, or one of an unknown type. *)
Definition quiet s (i : Z) : Prop :=
  exists cq q f, cx_queues (lb_ctx s) !! Z.to_nat i = Some cq /\ lb_qs s !! cq_rx cq = Some q /\ rep q f /\
    (Z.of_nat (length (visible f)) < SIZEOF_ARX \/
     arx_type (decode_arx (take (Z.to_nat SIZEOF_ARX) (visible f))) <> FLEXTCP_PL_ARX_CONNUPDATE).

Lemma vec_queue_none s i room s' : poll_wf s -> vec_queue s i room = Ok (VecNone, s') -> s' = s /\ quiet s i.
Proof.
  intros W R. unfold vec_queue in R. apply bind_Ok_inv in R as (cq & Hcq & R).
  unfold ctx_queue_at in Hcq. destruct (cx_queues (lb_ctx s) !! Z.to_nat i) eqn:Ei; [|done]. injection Hcq as ->.
  destruct (pw_rx s W cq) as (q & f & Hq & Rq); [by eapply list_elem_of_lookup_2|].
  rewrite (q_at_Ok _ _ _ Hq) in R. simpl in R. unfold rq_try_peek in R.
  pose proof (rq_dequeue_local q f true SIZEOF_ARX false Rq ltac:(done)) as Hd. unfold fifo_dequeue in Hd.
  destruct (Z.ltb_spec (Z.of_nat (length (visible f))) SIZEOF_ARX) as [Hlt|Hge];
    destruct Hd as (q' & Hd & _); rewrite Hd in R; simpl in R.
  - injection R as <-. split; [done|]. exists cq, q, f. auto.
  - match type of R with (if negb (?a =? ?b) then _ else _) = _ => destruct (Z.eqb_spec a b) as [_|Hty] end; simpl in R.
    + run_inv R; done.
    + injection R as <-. split; [done|]. exists cq, q, f. auto.
Qed.

Definition w_of s : Z := waiting_all (lb_qs s) (cx_queues (lb_ctx s)).
Definition same_queues s s' : Prop :=
  cx_queues (lb_ctx s') = cx_queues (lb_ctx s) /\ num_queues (lb_ctx s') = num_queues (lb_ctx s) /\
  next_queue (lb_ctx s') = next_queue (lb_ctx s).
Lemma same_queues_trans s1 s2 s3 : same_queues s1 s2 -> same_queues s2 s3 -> same_queues s1 s3.
Proof. intros (?&?&?) (?&?&?). split; [congruence|split; congruence]. Qed.

(** Room was left when a message did not fit. *)
Definition did_not_fit s (room : Z) : Prop :=
  exists i s1, lb_qs s1 = lb_qs s /\ vec_queue s1 i room = Ok (VecRanOut, s).

Lemma ran_out_fit s i room s' : poll_wf s -> 0 <= room -> vec_queue s i room = Ok (VecRanOut, s') -> did_not_fit s' room.
Proof.
  intros W Hr R. exists i, s. split; [|done]. unfold vec_queue in R. run_inv R; subst; try done.
  match goal with E : event_arx_connupdate _ _ _ _ = _ |- _ => by apply arx_wf in E as [_ ->] end.
Qed.

(** A round keeps the events it was given, stays within the room and takes an
    entry, runs out of room or sees only quiet queues. *)
Lemma vec_round_wf k s num v v' s' :
  poll_wf s -> Z.of_nat (length (v_events v)) <= num -> vec_round k s num v = Ok (v', s') ->
  poll_wf s' /\ same_queues s s' /\ Z.of_nat (length (v_events v')) <= num /\ w_of s' <= w_of s /\
  (v_inner v = false -> v_inner v' = true -> v_ran_out v = false -> v_ran_out v' = true \/ w_of s' < w_of s) /\
  (v_inner v' = false -> v_inner v = false) /\
  (v_ran_out v = false -> v_ran_out v' = true -> did_not_fit s' (num - Z.of_nat (length (v_events v')))).
Proof.
  revert s v. induction k as [|k IH]; intros s v W Hlen R; simpl in R.
  { injection R as <- <-. split; [done|]. split; [done|]. split; [done|]. split; [lia|]. split; [congruence|]. split; [done|congruence]. }
  destruct (v_ran_out v || negb (Z.of_nat (length (v_events v)) <? num)) eqn:Hstop.
  { injection R as <- <-. split; [done|]. split; [done|]. split; [done|]. split; [lia|]. split; [congruence|]. split; [done|congruence]. }
  apply orb_false_iff in Hstop as [Hro Hlt]. apply negb_false_iff, Z.ltb_lt in Hlt.
  apply bind_Ok_inv in R as ([r s1] & Hq & R).
  pose proof (vec_queue_wf s (v_idx v) (num - Z.of_nat (length (v_events v))) r s1 W ltac:(lia) Hq) as (W1 & A & B & C & Hr). cbv beta zeta in Hr.
  fold (w_of s1) (w_of s) in Hr.
  assert (S1 : same_queues s s1) by done.
  destruct r as [|evs|].
  - destruct (vec_queue_none _ _ _ _ W Hq) as [-> _].
    apply IH in R as (W' & S' & L' & M' & I' & J' & K'); [|done|exact Hlen]. simpl in *.
    do 4 (split; [done|]). split; [intros; by apply I'|]. split; [done|intros _; by apply K'].
  - destruct Hr as [Hev Hw]. unfold SIZEOF_ARX in Hw.
    apply IH in R as (W' & S' & L' & M' & I' & J' & K'); [|done|simpl; rewrite length_app; lia]. simpl in *.
    split; [done|]. split; [by eapply same_queues_trans|]. split; [done|]. split; [lia|].
    split; [intros; right; lia|]. split; [intros Hi; by apply J' in Hi|]. intros _. by apply K'.
  - injection R as <- <-. simpl. split; [done|]. split; [done|]. split; [done|]. split; [lia|].
    split; [by left|]. split; [done|]. intros _ _. eapply ran_out_fit; [exact W|lia|exact Hq].
Qed.

(** A round that takes nothing has looked at every queue. *)
Lemma vec_round_quiet k s num v v' s' :
  poll_wf s -> vec_round k s num v = Ok (v', s') -> v_inner v' = false -> v_ran_out v' = false ->
  v_ran_out v = false -> Z.of_nat (length (v_events v')) < num ->
  s' = s /\ v_events v' = v_events v /\ v_found v' = v_found v /\
  forall j, (j < k)%nat -> quiet s (Nat.iter j (next_q (lb_ctx s)) (v_idx v)).
Proof.
  revert s v. induction k as [|k IH]; intros s v W R Hi Hr Hrv Hl; simpl in R.
  { injection R as <- <-. do 3 (split; [done|]). intros j Hj. lia. }
  rewrite Hrv in R. simpl in R. destruct (negb (Z.of_nat (length (v_events v)) <? num)) eqn:Hstop.
  { injection R as <- <-. apply negb_true_iff, Z.ltb_ge in Hstop. lia. }
  apply negb_false_iff, Z.ltb_lt in Hstop.
  apply bind_Ok_inv in R as ([r s1] & Hq & R).
  pose proof (vec_queue_wf s (v_idx v) (num - Z.of_nat (length (v_events v))) r s1 W ltac:(lia) Hq) as (W1 & _ & _ & _ & Hev).
  cbv beta zeta in Hev. destruct r as [|evs|].
  - destruct (vec_queue_none _ _ _ _ W Hq) as [-> Hqu].
    destruct (IH _ _ W R Hi Hr eq_refl Hl) as (-> & He & Hf & Hj). do 3 (split; [done|]).
    intros [|j] Hlt; [done|]. rewrite Nat.iter_succ_r. apply Hj. lia.
  - destruct Hev as [Hev _].
    apply vec_round_wf in R as (_ & _ & _ & _ & _ & J & _); [|done|simpl; rewrite length_app; lia]. by apply J in Hi.
  - by injection R as <- <-.
Qed.

(** The queues in the order of polling are all of them. *)
Lemma next_q_mod x i : 0 <= i < num_queues x -> next_q x i = (i + 1) mod num_queues x.
Proof.
  intros Hi. unfold next_q. destruct (Z.ltb_spec (i + 1) (num_queues x)).
  - by rewrite Z.mod_small by lia.
  - assert (i + 1 = num_queues x) as -> by lia. by rewrite Z.mod_same by lia.
Qed.

Lemma next_q_iter x i j : 0 <= i < num_queues x -> Nat.iter j (next_q x) i = (i + Z.of_nat j) mod num_queues x.
Proof.
  intros Hi. induction j as [|j IH]; simpl.
  - by rewrite Z.add_0_r, Z.mod_small.
  - rewrite IH, next_q_mod by (apply Z.mod_pos_bound; lia). rewrite Zplus_mod_idemp_l. f_equal. lia.
Qed.

Lemma next_q_reaches x i k : 0 <= i < num_queues x -> 0 <= k < num_queues x ->
  exists j, (j < Z.to_nat (num_queues x))%nat /\ Nat.iter j (next_q x) i = k.
Proof.
  intros Hi Hk. destruct (Z_lt_le_dec k i).
  - exists (Z.to_nat (k + num_queues x - i)). split; [lia|]. rewrite next_q_iter by done.
    rewrite Z2Nat.id by lia. replace (i + (k + num_queues x - i)) with (k + 1 * num_queues x) by lia.
    rewrite Z_mod_plus_full. by apply Z.mod_small.
  - exists (Z.to_nat (k - i)). split; [lia|]. rewrite next_q_iter by done. rewrite Z2Nat.id by lia.
    replace (i + (k - i)) with k by lia. by apply Z.mod_small.
Qed.

Definition all_quiet s : Prop := forall i, 0 <= i < num_queues (lb_ctx s) -> quiet s i.

Lemma waiting_nonneg qs a : 0 <= waiting qs a.
Proof.
  unfold waiting, rq_nbytes_enqueued. destruct (qs !! a) as [q|]; [|done].
  destruct (_ =? _); [|done]. simpl. unfold rq_nbytes. destruct (paired q);
    (destruct (c_assert _); [apply u64_range|done]).
Qed.
Lemma w_of_nonneg s : 0 <= w_of s.
Proof.
  unfold w_of. induction (cx_queues (lb_ctx s)) as [|x l IH]; [done|]. simpl.
  pose proof (waiting_nonneg (lb_qs s) (cq_rx x)). lia.
Qed.

(** What polling leaves behind. *)
Definition poll_done s (num n : Z) : Prop :=
  n = num \/ did_not_fit s (num - n) \/ all_quiet s.

Lemma vec_rounds_ok fuel s num v :
  poll_wf s -> Z.of_nat (length (v_events v)) <= num -> v_ran_out v = false -> v_inner v = true ->
  0 <= next_queue (lb_ctx s) < num_queues (lb_ctx s) -> w_of s < Z.of_nat fuel ->
  fuelled (vec_rounds fuel s num v) /\
  forall v' s', vec_rounds fuel s num v = Ok (v', s') ->
    poll_wf s' /\ same_queues s s' /\ Z.of_nat (length (v_events v')) <= num /\
    poll_done s' num (Z.of_nat (length (v_events v'))).
Proof.
  revert s v. induction fuel as [|fuel IH]; intros s v W Hl Hr Hi Hnq Hf; [pose proof (w_of_nonneg s); lia|].
  cbn [vec_rounds]. rewrite Hr, Hi. simpl. destruct (Z.ltb_spec (Z.of_nat (length (v_events v))) num) as [Hlt|Hge]; simpl.
  2:{ split; [discriminate|]. intros v' s' [= <- <-]. do 3 (split; [done|]). left. lia. }
  set (v0 := mk_vec (v_events v) (next_queue (lb_ctx s)) false (v_found v) false).
  split; [apply fuelled_bind; [apply fuelled_vec_round|]; intros [v1 s1] Hround|
          intros v' s' R; apply bind_Ok_inv in R as ([v1 s1] & Hround & R)];
    pose proof (vec_round_wf _ s num v0 v1 s1 W Hl Hround) as (W1 & S1 & L1 & M1 & I1 & _ & K1); simpl in *;
    destruct (v_ran_out v1) eqn:Hr1.
  - destruct fuel; simpl; rewrite Hr1; discriminate.
  - destruct (v_inner v1) eqn:Hi1; [|destruct fuel; simpl; rewrite Hr1, Hi1; discriminate].
    destruct (I1 eq_refl eq_refl eq_refl) as [?|Hw]; [done|]. apply IH; try done; try lia.
    destruct S1 as (_ & -> & ->). done.
  - assert (R' : Ok (v1, s1) = Ok (v', s')) by (destruct fuel; simpl in R; rewrite Hr1 in R; exact R).
    injection R' as <- <-. do 3 (split; [done|]). right; left. by apply K1.
  - destruct (v_inner v1) eqn:Hi1.
    + destruct (I1 eq_refl eq_refl eq_refl) as [?|Hw]; [done|].
      destruct (IH s1 v1) as [_ Hok]; try done; [by destruct S1 as (_ & -> & ->)|lia|].
      destruct (Hok _ _ R) as (W' & S' & L' & D'). split; [done|]. split; [by eapply same_queues_trans|done].
    + assert (R' : Ok (v1, s1) = Ok (v', s')) by (destruct fuel; simpl in R; rewrite Hr1, Hi1 in R; exact R).
      injection R' as <- <-. do 3 (split; [done|]).
      destruct (decide (Z.of_nat (length (v_events v1)) = num)) as [->|Hne]; [by left|]. right; right.
      destruct (vec_round_quiet _ s num v0 v1 s1 W Hround Hi1 Hr1 eq_refl ltac:(lia)) as (-> & _ & _ & Hj).
      intros i Hin. destruct (next_q_reaches (lb_ctx s) (next_queue (lb_ctx s)) i Hnq Hin) as (j & Hj1 & <-). by apply Hj.
Qed.

Lemma w_of_bound s : poll_wf s -> w_of s <= rx_bytes_of (lb_qs s) (cx_queues (lb_ctx s)).
Proof.
  intros W. unfold w_of. pose proof (pw_rx s W) as P.
  induction (cx_queues (lb_ctx s)) as [|x l IH]; [done|]. simpl.
  destruct (P x ltac:(left)) as (q & f & Hq & R). rewrite (waiting_rep _ _ q f Hq R), Hq.
  pose proof (rep_fits q f R). unfold fifo_size, RDMA_QUEUE_PAD in *.
  assert (forall y, y ∈ l -> exists q f, lb_qs s !! cq_rx y = Some q /\ rep q f) as P' by (intros; apply P; by right).
  specialize (IH P'). lia.
Qed.

(** C16. Polling the queues from the cores always ends; it gives no more events than
    there is room for; and when it ends early, either the next message did not fit
    or every queue is empty (but for a message of an unknown type at its head). *)
Theorem fastpath_poll_vec_spec s num
  (W : poll_wf s) (Hnum : 0 <= num) (Hnext : 0 <= next_queue (lb_ctx s) < num_queues (lb_ctx s)) :
  match fastpath_poll_vec s num with
  | Ok (evs, s') => poll_wf s' /\ Z.of_nat (length evs) <= num /\
      (Z.of_nat (length evs) = num \/
       (exists s1, lb_qs s1 = lb_qs s' /\ did_not_fit s1 (num - Z.of_nat (length evs))) \/ all_quiet s')
  | Stop e => e <> OutOfFuel
  end.
Proof.
  unfold fastpath_poll_vec. pose proof (w_of_bound s W) as Hw. pose proof (w_of_nonneg s).
  destruct (vec_rounds_ok (vec_fuel s) s num (mk_vec [] (next_queue (lb_ctx s)) true false false)) as [Hf Hok];
    try done; [unfold vec_fuel; lia|].
  destruct (vec_rounds (vec_fuel s) s num _) as [[v s1]|e] eqn:E; [|by intros ->; apply Hf].
  destruct (Hok v s1 eq_refl) as (W1 & S1 & L1 & D1). osimpl.
  set (s2 := if v_found v then flag_events (set_next_queue s1 (u16 (v_idx v))) else set_next_queue s1 (u16 (v_idx v))).
  assert (lb_qs s2 = lb_qs s1 /\ lb_conns s2 = lb_conns s1 /\ cx_queues (lb_ctx s2) = cx_queues (lb_ctx s1) /\
    num_queues (lb_ctx s2) = num_queues (lb_ctx s1)) as (Q & C & X & N) by (unfold s2; by destruct (v_found v)).
  clearbody s2. split; [|split; [done|]].
  - destruct W1 as [P1 P2 P3 P4].
    assert (T : tview s2 = tview s1) by (unfold tview; by rewrite C).
    constructor; [rewrite X, Q|rewrite T, Q|rewrite T, X|rewrite T]; assumption.
  - destruct D1 as [D1|[D1|D1]]; [by left|right; left; eauto|right; right].
    intros i Hi. rewrite N in Hi. destruct (D1 i Hi) as (cq & q & f & Hq). exists cq, q, f. by rewrite X, Q.
Qed.

End Vec.

(** ** Events that are wrong, events that are lost *)

Section Lost.
Context {L : Type} `{RdmaLink L}.
Implicit Types (s : lib_state L) (c : flextcp_connection).

(** An update that brings received bytes only. *)
Definition rx_update (p n : Z) : arx_entry := mk_arx p n 0 0 0 FLEXTCP_PL_ARX_CONNUPDATE.

Lemma rx_update_events s p c n room k q f qt ft :
  lb_conns s !! p = Some c -> fc_status c = CONN_OPEN -> has_all (fc_flags c) CONN_FLAG_TXEOS_ALLOC = false ->
  lb_qs s !! fc_rx c = Some q -> rep q f -> lb_qs s !! fc_tx c = Some qt -> rep qt ft ->
  0 < n <= Z.of_nat (length (visible f)) -> 2 <= room ->
  exists s' c', event_arx_connupdate s (rx_update p n) room k = Ok (Some (received_events q n p), s') /\
    lb_qs s' = lb_qs s /\ lb_conns s' !! p = Some c' /\ fc_status c' = CONN_OPEN /\ fc_rx c' = fc_rx c /\
    fc_tx c' = fc_tx c /\ fc_flags c' = fc_flags c.
Proof.
  intros Hc Hst Hfl Hq R Hqt Rt Hn Hroom. unfold event_arx_connupdate, rx_update.
  cbn [arx_opaque arx_rx_bump arx_tx_bump arx_flags].
  rewrite (proj2 (fc_at_Ok s p c) Hc). osimpl. cbv zeta.
  set (c1 := with_fn_core c (u16 k)). set (s1 := put_fc s p c1).
  change (fc_status c1) with (fc_status c). rewrite Hst.
  change (has_all 0 FLEXTCP_PL_ARX_FLRXDONE) with false.
  assert (n >? 0 = true) as Hpos by (rewrite Z.gtb_ltb; apply Z.ltb_lt; lia).
  rewrite Hpos. change (0 >? 0) with false. cbv iota.
  change (q_at s1 (fc_rx c1)) with (q_at s (fc_rx c)). change (q_at s1 (fc_tx c1)) with (q_at s (fc_tx c)).
  rewrite (q_at_Ok _ _ _ Hq), (q_at_Ok _ _ _ Hqt). osimpl. rewrite (rep_to_flush qt ft Rt). osimpl.
  assert (evs_needed q c1 n false (u32 (Z.of_nat (length (pending ft)))) false >? room = false) as ->.
  { unfold evs_needed. change (fc_flags c1) with (fc_flags c). rewrite Hfl, Hpos. simpl.
    rewrite Z.gtb_ltb. apply Z.ltb_ge. destruct (_ >? buffer_size q); lia. }
  unfold bump_rx, bump_tx. rewrite Hpos, (rep_enqueued q f R). osimpl.
  rewrite (proj2 (Z.geb_le _ _)) by lia. change (0 >? 0) with false. osimpl. rewrite app_nil_r.
  eexists _, _. split; [reflexivity|]. split; [done|]. split; [apply lookup_insert_eq|]. done.
Qed.

(** Code bug: the events start at the next byte to be freed, which moves when the
    application reports what it read, not with the events. Two updates before such
    a report give events whose bytes are twice the start of the stream. *)
Theorem received_twice s p c n m room k q f qt ft
  (Hc : lb_conns s !! p = Some c) (Hst : fc_status c = CONN_OPEN)
  (Hfl : has_all (fc_flags c) CONN_FLAG_TXEOS_ALLOC = false)
  (Hq : lb_qs s !! fc_rx c = Some q) (R : rep q f) (Hqt : lb_qs s !! fc_tx c = Some qt) (Rt : rep qt ft)
  (Hn : 0 < n) (Hm : 0 < m) (Hnm : n + m <= Z.of_nat (length (visible f))) (Hroom : 2 <= room)
  (Haddr : 0 <= self q /\ self q + SIZEOF_RDMA_QUEUE + buffer_size q < 18446744073709551616) :
  exists e1 e2 s1 s2, event_arx_connupdate s (rx_update p n) room k = Ok (Some e1, s1) /\
    event_arx_connupdate s1 (rx_update p m) room k = Ok (Some e2, s2) /\
    concat (event_bytes q <$> e1) = take (Z.to_nat n) (visible f) /\
    concat (event_bytes q <$> e2) = take (Z.to_nat m) (visible f).
Proof.
  destruct (rx_update_events s p c n room k q f qt ft) as (s1 & c1 & E1 & Q1 & Hc1 & S1 & F1 & T1 & Fl1); try done; [lia|].
  destruct (rx_update_events s1 p c1 m room k q f qt ft) as (s2 & c2 & E2 & _); rewrite ?Q1, ?F1, ?T1, ?Fl1; try done; [lia|].
  exists (received_events q n p), (received_events q m p), s1, s2. split; [done|]. split; [done|].
  split; apply (received_bytes q f R Haddr); lia.
Qed.

(** Code bug: a message of the slow path is taken from its queue before it is known
    that its events fit; when they do not, poll returns and the message is gone. *)
Theorem kernel_poll_loses remote mem s num evs q f b rest fuel
  (Hq : lb_qs s !! cx_kout (lb_ctx s) = Some q) (R : rep q f)
  (Hb : visible f = b ++ rest) (Hl : Z.of_nat (length b) = SIZEOF_KERNEL_APPIN) (Hi : Z.of_nat (length evs) < num)
  (Hno : forall s0, lb_conns s0 = lb_conns s -> lb_ctx s0 = lb_ctx s ->
     delete (cx_kout (lb_ctx s)) (lb_qs s0) = delete (cx_kout (lb_ctx s)) (lb_qs s) ->
     kout_events remote mem s0 b (num - Z.of_nat (length evs)) = Ok (None, s0)) :
  exists s' q', kernel_poll_loop remote mem (S fuel) s num evs = Ok (false, evs, s') /\
    lb_qs s' !! cx_kout (lb_ctx s) = Some q' /\ rep q' (mk_fifo rest (pending f)).
Proof.
  assert (Hlb : length b = Z.to_nat SIZEOF_KERNEL_APPIN) by lia.
  pose proof (rq_dequeue_local q f true SIZEOF_KERNEL_APPIN true R ltac:(done)) as Hd. unfold fifo_dequeue in Hd.
  rewrite Hb, length_app in Hd. destruct (Z.ltb_spec (Z.of_nat (length b + length rest)) SIZEOF_KERNEL_APPIN); [lia|].
  rewrite <- Hlb, take_app_length, drop_app_length in Hd. destruct Hd as (q' & Hd & R' & _).
  set (s0 := put_q s (cx_kout (lb_ctx s)) q' (lb_link s)).
  exists (flag_events s0), q'. cbn [kernel_poll_loop]. rewrite (proj2 (Z.ltb_lt _ _) Hi). osimpl.
  unfold q_dequeue. rewrite (q_at_Ok _ _ _ Hq). osimpl. unfold rq_try_dequeue. rewrite Hd. osimpl.
  fold s0. rewrite Hno; [|done|done|].
  - osimpl. split; [done|]. split; [apply lookup_insert_eq|done].
  - unfold s0. simpl. apply delete_insert_eq.
Qed.

End Lost.

(** ** Examples *)
Module PollExample.

(** The message that five more bytes were received, in a queue of one core. *)
Definition message : list Z := encode_arx (mk_arx 1 5 0 0 0 FLEXTCP_PL_ARX_CONNUPDATE).
Definition q_message : rdma_queue :=
  mk_queue 4096 0 64 32 (mk_endpoint 4096 0 0 0) (mk_endpoint 4096 32 0 0) false false (message ++ replicate 32 0).
Definition state : lib_state peer := set_qs LibEx.state (<[101 := q_message]> (lb_qs LibEx.state)).

Lemma message_rep : rep q_message (mk_fifo message []).
Proof. constructor; Demo.by_compute. Qed.

Lemma tview_cases p x : tview state !! p = Some x -> x = (12, CONN_OPEN, 5) /\ p = 1 \/ x = (22, CONN_OPEN, 5) /\ p = 2.
Proof.
  unfold tview. rewrite lookup_fmap. destruct (lb_conns state !! p) as [c|] eqn:E; [|done].
  apply LibEx.conns_cases in E as [[-> ->]|[-> ->]]; intros [= <-]; auto.
Qed.

Lemma state_wf : poll_wf state.
Proof.
  constructor.
  - intros cq ->%list_elem_of_singleton. exists q_message, (mk_fifo message []). split; [done|exact message_rep].
  - intros p a n H. exists (Demo.q64 10 20 25), (Demo.zeros 10 5).
    apply tview_cases in H as [[[= -> ->] _]|[[= -> ->] _]]; (split; [done|]; split; [exact Demo.rep_mid|done]).
  - intros p a n cq H ->%list_elem_of_singleton. by apply tview_cases in H as [[[= -> ->] _]|[[= -> ->] _]].
  - intros p p' a n n' H1 H2. apply tview_cases in H1 as [[[= -> ->] ->]|[[= -> ->] ->]],
      H2 as [[[=] ->]|[[=] ->]]; done.
Qed.

Definition twenty : rdma_queue :=
  mk_queue 4096 0 64 6 (mk_endpoint 4096 50 0 0) (mk_endpoint 4096 6 0 0) false false (seqZ 0 64).
Lemma twenty_rep : rep twenty (mk_fifo (seqZ 50 14 ++ seqZ 0 6) []).
Proof. constructor; Demo.by_compute. Qed.

End PollExample.

(** Ten bytes at the end of the ring and five at its start. *)
Lemma received_events_cover_witness :
  concat (event_bytes PollExample.twenty <$> received_events PollExample.twenty 19 1) = seqZ 50 14 ++ seqZ 0 5.
Proof.
  rewrite (received_events_cover PollExample.twenty (mk_fifo (seqZ 50 14 ++ seqZ 0 6) []) PollExample.twenty_rep
    ltac:(split; vm_compute; congruence) 19 1 ltac:(split; vm_compute; congruence)).
  reflexivity.
Defined.

Lemma fastpath_poll_vec_spec_witness :
  match fastpath_poll_vec PollExample.state 4 with
  | Ok (evs, s') => poll_wf s' /\ Z.of_nat (length evs) <= 4 /\
      (Z.of_nat (length evs) = 4 \/
       (exists s1, lb_qs s1 = lb_qs s' /\ did_not_fit s1 (4 - Z.of_nat (length evs))) \/ all_quiet s')
  | Stop e => e <> OutOfFuel
  end.
Proof.
  apply (fastpath_poll_vec_spec PollExample.state 4 PollExample.state_wf); vm_compute; [congruence|split; congruence].
Defined.

Lemma received_twice_witness :
  exists e1 e2 s1 s2, event_arx_connupdate LibEx.state (rx_update 1 5) 4 0 = Ok (Some e1, s1) /\
    event_arx_connupdate s1 (rx_update 1 4) 4 0 = Ok (Some e2, s2) /\
    concat (event_bytes (Demo.q64 10 26 26) <$> e1) = replicate 5 0 /\
    concat (event_bytes (Demo.q64 10 26 26) <$> e2) = replicate 4 0.
Proof.
  apply (received_twice LibEx.state 1 (LibEx.conn 1 5 (Some 2) true) 5 4 4 0 (Demo.q64 10 26 26) (Demo.zeros 16 0)
    (Demo.q64 10 20 25) (Demo.zeros 10 5)); try reflexivity; try exact LibEx.rep_sixteen; try exact Demo.rep_mid;
    try (vm_compute; congruence). split; vm_compute; congruence.
Defined.
