(* ===== verification/LibWait.v ===== *)
(** * The application library: sleeping

    [flextcp_context_canwait] is a state machine on the flags of a context: it lets
    an application sleep only after a quiet period that a poll has confirmed, and
    polls set the flags it relies on. *)
From S2P Require Import Prelude RdmaQueue Packets FlowState Wire AppMsg LibTas LibPoll LibSpec.

#[local] Open Scope Z_scope.

(** ** Sleeping *)

(** What an application does with a context: it polls, which may find something; it
    asks whether it may sleep, at a time; it clears the state after sleeping. *)
Inductive wait_step := WPoll (found : bool) | WCanwait (t : Z) | WClear.

(** The effect of a poll on the flags is that of [flextcp_context_poll], see
    [poll_flags]. *)
Definition poll_mark (found : bool) (x : flextcp_context) : flextcp_context :=
  let fl := Z.lor (cx_flags x) CTX_FLAG_POLL_CALLED in
  with_cx_flags x (if found then Z.lor fl CTX_FLAG_POLL_EVENTS else fl).

Definition wait_do (cycle : Z) (x : flextcp_context) (st : wait_step) : outcome flextcp_context :=
  match st with
  | WPoll found => mret (poll_mark found x)
  | WCanwait t => mret (flextcp_context_canwait cycle t x).2
  | WClear => flextcp_context_waitclear x true
  end.
Fixpoint wait_run (cycle : Z) (x : flextcp_context) (tr : list wait_step) : outcome flextcp_context :=
  match tr with [] => mret x | st :: tr => x ← wait_do cycle x st; wait_run cycle x tr end.

(** The four flags as truth values. *)
Definition flags_of (called events want last : bool) : Z :=
  c_bool called + 2 * c_bool events + 4 * c_bool want + 8 * c_bool last.

Definition calm (st : wait_step) : Prop := st <> WPoll true /\ st <> WClear.

(** What the flags say of the steps so far. *)
Definition wait_inv (cycle : Z) (tr : list wait_step) (x : flextcp_context) : Prop :=
  exists called events want last, cx_flags x = flags_of called events want last /\
  (events = false -> want = true -> exists tr1 tr2,
     tr = tr1 ++ WCanwait (last_inev_ts x) :: tr2 /\ Forall calm tr2) /\
  (events = false -> want = false -> last = true -> exists tr1 t1 tr2 t2 tr3,
     tr = tr1 ++ WCanwait t1 :: tr2 ++ WCanwait t2 :: tr3 /\ Forall calm tr2 /\ Forall calm tr3 /\
     u64 (t2 - t1) > cycle /\ (called = true -> WPoll false ∈ tr3)).

Lemma poll_mark_flags found x a b c d :
  cx_flags x = flags_of a b c d -> cx_flags (poll_mark found x) = flags_of true (b || found) c d.
Proof. intros E. unfold poll_mark. simpl. rewrite E. by destruct found, a, b, c, d. Qed.

Lemma flags_any a b c d :
  has_any (flags_of a b c d) CTX_FLAG_POLL_EVENTS = b /\ has_any (flags_of a b c d) CTX_FLAG_WANTWAIT = c /\
  has_any (flags_of a b c d) CTX_FLAG_LASTWAIT = d /\ has_any (flags_of a b c d) CTX_FLAG_POLL_CALLED = a.
Proof. by destruct a, b, c, d. Qed.

Lemma fp_flags_clear a b c d :
  Z.land (flags_of a b c d) (Z.lnot (Z.lor (Z.lor CTX_FLAG_POLL_EVENTS CTX_FLAG_WANTWAIT) CTX_FLAG_LASTWAIT))
    = flags_of a false false false /\
  Z.lor (Z.land (flags_of a b c d) (Z.lnot (Z.lor CTX_FLAG_POLL_CALLED CTX_FLAG_WANTWAIT))) CTX_FLAG_LASTWAIT
    = flags_of false b false true /\
  Z.lor (flags_of a b c d) CTX_FLAG_WANTWAIT = flags_of a b true d /\
  Z.land (flags_of a b c d) (Z.lnot (Z.lor (Z.lor CTX_FLAG_WANTWAIT CTX_FLAG_LASTWAIT) CTX_FLAG_POLL_CALLED))
    = flags_of false b false false.
Proof. by destruct a, b, c, d. Qed.

(** The state machine on truth values. *)
Lemma canwait_flags cycle t x a b c d :
  cycle <> UINT64_MAX -> cx_flags x = flags_of a b c d ->
  let '(r, x') := flextcp_context_canwait cycle t x in
  (r = 0 <-> (b = false /\ c = false /\ d = true /\ a = true)) /\
  (if b then cx_flags x' = flags_of a false false false /\ last_inev_ts x' = last_inev_ts x
   else if c then
     if u64 (t - last_inev_ts x) >? cycle then cx_flags x' = flags_of false false false true
     else x' = x
   else if d then x' = x
   else if a then cx_flags x' = flags_of true false true false /\ last_inev_ts x' = t
   else x' = x).
Proof.
  intros Hc E. unfold flextcp_context_canwait. rewrite (proj2 (Z.eqb_neq _ _) Hc), E. cbv zeta.
  destruct (flags_any a b c d) as (-> & -> & -> & ->).
  destruct (fp_flags_clear a b c d) as (-> & -> & -> & _).
  destruct b; [split; [split; [done|by intros []]|done]|].
  destruct c; [destruct (_ >? cycle); (split; [split; [done|by intros (?&?&?&?)]|done])|].
  destruct d; [destruct a; (split; [split; [done|by intros (?&?&?&?)]|done])|]. destruct a; (split; [split; [done|by intros (?&?&?&?)]|done]).
Qed.

Lemma calm_snoc l st : Forall calm l -> calm st -> Forall calm (l ++ [st]).
Proof. intros Hl Hs. apply Forall_app. split; [done|]. by apply Forall_singleton. Qed.

(** A step that changes nothing the invariant depends on. *)
Lemma wait_inv_calm cycle tr x st : calm st -> wait_inv cycle tr x -> wait_inv cycle (tr ++ [st]) x.
Proof.
  intros Hst (a & b & c & d & E & I1 & I2). exists a, b, c, d. split; [done|]. split.
  - intros Hb Hw. destruct (I1 Hb Hw) as (tr1 & tr2 & -> & Hq). exists tr1, (tr2 ++ [st]).
    rewrite <- app_assoc. split; [done|]. by apply calm_snoc.
  - intros Hb Hw Hl. destruct (I2 Hb Hw Hl) as (tr1 & t1 & tr2 & t2 & tr3 & -> & H2 & H3 & Ht & Hp).
    exists tr1, t1, tr2, t2, (tr3 ++ [st]). rewrite <- app_assoc. simpl. rewrite <- app_assoc.
    split; [done|]. split; [done|]. split; [by apply calm_snoc|]. split; [done|].
    intros Ha. apply elem_of_app. left. by apply Hp.
Qed.

Lemma poll_mark_inv cycle tr x found : wait_inv cycle tr x -> wait_inv cycle (tr ++ [WPoll found]) (poll_mark found x).
Proof.
  intros I. pose proof I as (a & b & c & d & E & _). destruct found.
  { exists true, true, c, d. split; [|by split]. rewrite (poll_mark_flags true x a b c d E). by rewrite orb_true_r. }
  apply (wait_inv_calm _ _ _ (WPoll false)) in I; [|by split]. destruct I as (a' & b' & c' & d' & E' & I1 & I2).
  exists true, b', c', d'. split; [rewrite (poll_mark_flags false x _ _ _ _ E'); by rewrite orb_false_r|].
  split; [exact I1|]. intros Hb Hw Hl. destruct (I2 Hb Hw Hl) as (tr1 & t1 & tr2 & t2 & tr3 & Etr & H2 & H3 & Ht & _).
  exists tr1, t1, tr2, t2, tr3. split; [done|]. split; [done|]. split; [done|]. split; [done|]. intros _.
  destruct tr3 as [|y l _] using rev_ind.
  - rewrite app_comm_cons, app_assoc in Etr. apply app_inj_tail in Etr as [_ [=]].
  - rewrite !app_comm_cons, !app_assoc in Etr. simpl in Etr. rewrite ?app_comm_cons, ?app_assoc in Etr.
    apply app_inj_tail in Etr as [_ <-]. apply elem_of_app. right. left.
Qed.

Lemma canwait_inv cycle tr x t :
  cycle <> UINT64_MAX -> wait_inv cycle tr x -> wait_inv cycle (tr ++ [WCanwait t]) (flextcp_context_canwait cycle t x).2.
Proof.
  intros Hc I. pose proof I as (a & b & c & d & E & I1 & I2).
  pose proof (canwait_flags cycle t x a b c d Hc E) as F.
  destruct (flextcp_context_canwait cycle t x) as [r x']. simpl. destruct F as [_ F].
  assert (Hsame : x' = x -> wait_inv cycle (tr ++ [WCanwait t]) x') by (intros ->; by apply wait_inv_calm).
  destruct b; [destruct F as [F _]; exists a, false, false, false; by split|].
  destruct c.
  - destruct (Z.gtb_spec (u64 (t - last_inev_ts x)) cycle) as [Ht|Ht]; [|by apply Hsame].
    exists false, false, false, true. split; [done|]. split; [done|]. intros _ _ _.
    destruct (I1 eq_refl eq_refl) as (tr1 & tr2 & -> & Hq). exists tr1, (last_inev_ts x), tr2, t, [].
    rewrite <- app_assoc. split; [done|]. split; [done|]. split; [constructor|]. split; [lia|done].
  - destruct d; [by apply Hsame|]. destruct a; [|by apply Hsame]. destruct F as [F Fts].
    exists true, false, true, false. split; [done|]. split; [|done]. intros _ _. exists tr, [].
    rewrite Fts. by split.
Qed.

Lemma wait_do_inv cycle tr x st x' :
  cycle <> UINT64_MAX -> wait_inv cycle tr x -> wait_do cycle x st = Ok x' -> wait_inv cycle (tr ++ [st]) x'.
Proof.
  intros Hc I R. destruct st as [found|t|]; simpl in R; injection R as <-.
  - by apply poll_mark_inv.
  - by apply canwait_inv.
  - destruct I as (a & b & c & d & E & _). exists false, b, false, false. split; [|by split].
    simpl. rewrite E. by destruct (fp_flags_clear a b c d) as (_ & _ & _ & ->).
Qed.

Lemma wait_run_inv cycle tr0 tr x x' :
  cycle <> UINT64_MAX -> wait_inv cycle tr0 x -> wait_run cycle x tr = Ok x' -> wait_inv cycle (tr0 ++ tr) x'.
Proof.
  intros Hc. revert tr0 x. induction tr as [|st tr IH]; intros tr0 x I R; simpl in R.
  - injection R as <-. by rewrite app_nil_r.
  - apply bind_Ok_inv in R as (x1 & Hd & R). replace (tr0 ++ st :: tr) with ((tr0 ++ [st]) ++ tr) by by rewrite <- app_assoc.
    eapply IH; [by eapply wait_do_inv|exact R].
Qed.

(** ** Polling and the flags *)

Section Flags.
Context {L : Type} `{RdmaLink L}.
Abbreviation state := (lib_state L).
Implicit Types (s : state) (c : flextcp_connection).

Definition fview s : Z * Z := (cx_flags (lb_ctx s), last_inev_ts (lb_ctx s)).

Lemma kept_fview s s' : kept s s' -> fview s' = fview s.
Proof. intros [_ Hx]. unfold fview. by rewrite Hx. Qed.

Lemma mark_fview s p s' : conn_mark_bump s p = Ok s' -> fview s' = fview s.
Proof.
  unfold conn_mark_bump. intros R. run_inv R; subst; try done.
  match goal with E : (match _ with _ => _ end) = Ok _ |- _ => run_inv E; subst; done end.
Qed.

(** Go back over the steps of an operation. *)
Ltac still :=
  kepts;
  repeat match goal with
  | K : kept ?x ?y |- fview ?y = _ => rewrite (kept_fview _ _ K); clear K
  | E : conn_mark_bump ?x _ = Ok ?y |- fview ?y = _ => rewrite (mark_fview _ _ _ E); clear E
  | E : fview ?y = _ |- fview ?y = _ => rewrite E; clear E
  | |- fview (put_fc ?x ?a ?b) = _ => change (fview (put_fc x a b)) with (fview x)
  | |- fview (set_qs ?x ?a) = _ => change (fview (set_qs x a)) with (fview x)
  | |- fview (put_q ?x ?a ?b ?d) = _ => change (fview (put_q x a b d)) with (fview x)
  end; try done.

Lemma pushtxeos_fview s p r s' : flextcp_conn_pushtxeos s p = Ok (r, s') -> fview s' = fview s.
Proof. unfold flextcp_conn_pushtxeos. intros R. run_inv R; subst; still. Qed.

Ltac still_all :=
  repeat match goal with
  | E : (if _ then _ else _) = Ok _ |- _ => run_inv E; subst
  | E : (_ ≫= _) = Ok _ |- _ => run_inv E; subst
  | E : (match _ with _ => _ end) = Ok _ |- _ => run_inv E; subst
  end; still.

Lemma opened_fview remote mem s b n evs s' : event_kappin_conn_opened remote mem s b n = Ok (evs, s') -> fview s' = fview s.
Proof. unfold event_kappin_conn_opened, early_events, attach_queues. intros R. run_inv R; subst; still_all. Qed.

Lemma accept_fview remote mem s b n evs s' : event_kappin_accept_conn remote mem s b n = Ok (evs, s') -> fview s' = fview s.
Proof. unfold event_kappin_accept_conn, early_events, attach_queues. intros R. run_inv R; subst; still_all. Qed.

Lemma kout_fview remote mem s b n evs s' : kout_events remote mem s b n = Ok (evs, s') -> fview s' = fview s.
Proof.
  unfold kout_events, event_kappin_st_conn_closed. intros R.
  run_inv R; subst; eauto using opened_fview, accept_fview. still_all.
Qed.

Lemma arx_fview s e n k evs s' : event_arx_connupdate s e n k = Ok (evs, s') -> fview s' = fview s.
Proof.
  unfold event_arx_connupdate, bump_rx, bump_tx. intros R. run_inv R; subst; still_all;
    match goal with E : flextcp_conn_pushtxeos ?x _ = Ok (_, ?y) |- _ => apply pushtxeos_fview in E; still end.
Qed.

Lemma vec_queue_fview s i n r s' : vec_queue s i n = Ok (r, s') -> fview s' = fview s.
Proof.
  unfold vec_queue. intros R. run_inv R; subst; try done;
    match goal with E : event_arx_connupdate _ _ _ _ = _ |- _ => apply arx_fview in E end; still.
Qed.

(** A poll found something, or not. *)
Definition sees (k : bool) s s' : Prop :=
  fview s' = ((if k then Z.lor (cx_flags (lb_ctx s)) CTX_FLAG_POLL_EVENTS else cx_flags (lb_ctx s)), last_inev_ts (lb_ctx s)).

Lemma sees_same s s' : fview s' = fview s -> sees false s s'.
Proof. done. Qed.
Lemma sees_flag s : sees true s (flag_events s).
Proof. done. Qed.
Lemma sees_trans k1 k2 s1 s2 s3 : sees k1 s1 s2 -> sees k2 s2 s3 -> sees (k1 || k2) s1 s3.
Proof.
  unfold sees, fview. intros [= F1 T1] H2. rewrite H2, F1, T1.
  destruct k1, k2; simpl; rewrite ?F1; try done. by rewrite <- Z.lor_assoc, Z.lor_diag.
Qed.

Lemma kernel_poll_sees remote mem fuel s num evs b evs' s' :
  kernel_poll_loop remote mem fuel s num evs = Ok (b, evs', s') ->
  exists k, sees k s s' /\ (k = false -> evs' = evs).
Proof.
  revert s evs. induction fuel as [|fuel IH]; intros s evs R; simpl in R; run_inv R; subst;
    try (exists false; by split); kepts.
  - exists false. split; [by apply sees_same, kept_fview|done].
  - apply kout_fview in E2. apply IH in R as (k & S & _). exists true. split; [|done].
    apply (sees_trans true k _ (flag_events l1)); [|exact S].
    apply (sees_trans false true _ l1); [|apply sees_flag]. apply sees_same. still.
  - apply kout_fview in E2. exists true. split; [|done].
    apply (sees_trans false true _ l1); [|apply sees_flag]. apply sees_same. still.
Qed.

Lemma vec_round_sees n s num v v' s' :
  vec_round n s num v = Ok (v', s') ->
  fview s' = fview s /\ (v_found v' = false -> v_events v' = v_events v /\ v_found v = false).
Proof.
  revert s v. induction n as [|n IH]; intros s v R; simpl in R; run_inv R; subst; try done;
    match goal with E : vec_queue _ _ _ = _ |- _ => apply vec_queue_fview in E end; try done;
    destruct (IH _ _ R) as [F Hf]; simpl in Hf; rewrite F; (split; [done|]); [exact Hf|].
  intros Hv. by destruct (Hf Hv).
Qed.

Lemma vec_rounds_sees fuel s num v v' s' :
  vec_rounds fuel s num v = Ok (v', s') ->
  fview s' = fview s /\ (v_found v' = false -> v_events v' = v_events v /\ v_found v = false).
Proof.
  revert s v. induction fuel as [|fuel IH]; intros s v R; simpl in R; run_inv R; subst; try done.
  match goal with E : vec_round _ _ _ _ = _ |- _ => apply vec_round_sees in E as [F Hf] end.
  destruct (IH _ _ R) as [F' Hf']. rewrite F', F. split; [done|]. intros Hv.
  destruct (Hf' Hv) as [-> Hv']. by destruct (Hf Hv').
Qed.

Lemma poll_vec_sees s num evs s' :
  fastpath_poll_vec s num = Ok (evs, s') -> exists k, sees k s s' /\ (k = false -> evs = []).
Proof.
  unfold fastpath_poll_vec. intros R. run_inv R; subst. apply vec_rounds_sees in E as [F Hf].
  exists (v_found v). destruct (v_found v).
  - split; [|done]. apply (sees_trans false true _ l); [by apply sees_same|done].
  - split; [by apply sees_same|]. intros _. by destruct (Hf eq_refl).
Qed.

Lemma kick_fview cycle now s k s' : flextcp_flexnic_kick cycle now s k = Ok s' -> fview s' = fview s.
Proof. unfold flextcp_flexnic_kick. intros R. run_inv R; subst; [done|]. by destruct (_ >? cycle). Qed.

Lemma pop_fview s p c (o : option Z) n :
  fview (set_fctx (put_fc s p c)
    (with_first (match o with Some _ => lb_ctx (put_fc s p c) | None => with_last (lb_ctx (put_fc s p c)) None end) n))
  = fview s.
Proof. by destruct o. Qed.

Lemma conn_bump_fview cycle now s p r s' : conn_bump cycle now s p = Ok (r, s') -> fview s' = fview s.
Proof.
  unfold conn_bump. intros R. run_inv R; subst; still; kepts.
  match goal with E : flextcp_flexnic_kick _ _ _ _ = _ |- _ => rewrite (kick_fview _ _ _ _ _ E); clear E end. still.
  rewrite pop_fview. still.
Qed.

Lemma conns_bump_fview cycle now fuel s s' : conns_bump_loop cycle now fuel s = Ok s' -> fview s' = fview s.
Proof.
  revert s. induction fuel as [|fuel IH]; intros s R; simpl in R; run_inv R; subst; try done;
    apply conn_bump_fview in E0; [by rewrite (IH _ R)|done].
Qed.

(** A poll sets the flag that it was called, and when it returns any event also the flag
    that there was one: its effect on the waiting state is a [WPoll] step. *)
Theorem poll_flags remote mem cycle now s num evs s'
  (R : flextcp_context_poll remote mem cycle now s num = Ok (evs, s')) :
  exists found, cx_flags (lb_ctx s') = cx_flags (poll_mark found (lb_ctx s)) /\
    last_inev_ts (lb_ctx s') = last_inev_ts (lb_ctx s) /\ (evs <> [] -> found = true).
Proof.
  assert (exists k, sees k (flag_called s) s' /\ (k = false -> evs = [])) as (k & S & Hk).
  { unfold flextcp_context_poll, kernel_poll in R. run_inv R; subst; apply kernel_poll_sees in E as (k & S & Hk).
    - by exists k.
    - apply poll_vec_sees in E1 as (k2 & S2 & Hk2). unfold conns_bump in E2. apply conns_bump_fview in E2.
      exists (k || k2 || false). split.
      + eapply sees_trans; [eapply sees_trans; [exact S|exact S2]|by apply sees_same].
      + rewrite orb_false_r. intros [-> ->]%orb_false_iff. rewrite Hk, Hk2 by done. done. }
  exists k. unfold sees, fview in S. simpl in S. injection S as -> ->. unfold poll_mark. simpl.
  split; [by destruct k|]. split; [done|]. intros Hne. destruct k; [done|]. by rewrite Hk in Hne.
Qed.

End Flags.

(** Whenever [flextcp_context_canwait] lets the application sleep, it asked
    twice before with more than [poll_cycle_app] in between, it polled after the
    second time, and no poll since the first time found anything. *)
Theorem canwait_safe cycle x tr x1 t x2
  (Hfresh : cx_flags x = 0) (R : wait_run cycle x tr = Ok x1)
  (Hc : flextcp_context_canwait cycle t x1 = (0, x2)) :
  exists tr1 t1 tr2 t2 tr3, tr = tr1 ++ WCanwait t1 :: tr2 ++ WCanwait t2 :: tr3 /\
    u64 (t2 - t1) > cycle /\ WPoll false ∈ tr3 /\ WPoll true ∉ tr2 ++ tr3 /\ WClear ∉ tr2 ++ tr3.
Proof.
  assert (cycle <> UINT64_MAX) as Hcy by (intros ->; by unfold flextcp_context_canwait in Hc).
  destruct (wait_run_inv cycle [] tr x x1 Hcy) as (a & b & c & d & E & _ & I2); [|done|].
  { exists false, false, false, false. by split. }
  pose proof (canwait_flags cycle t x1 a b c d Hcy E) as F. rewrite Hc in F. destruct F as [[F _] _].
  destruct (F eq_refl) as (-> & -> & -> & ->).
  destruct (I2 eq_refl eq_refl eq_refl) as (tr1 & t1 & tr2 & t2 & tr3 & Etr & H2 & H3 & Ht & Hp).
  exists tr1, t1, tr2, t2, tr3. split; [done|]. split; [done|]. split; [by apply Hp|].
  assert (Forall calm (tr2 ++ tr3)) as Hcalm by by apply Forall_app.
  rewrite Forall_forall in Hcalm. split; intros Hin; by apply Hcalm in Hin as [].
Qed.

Lemma canwait_safe_witness :
  let tr := [WPoll false; WCanwait 10; WPoll false; WCanwait 200; WPoll false] in
  let x1 := with_cx_flags (LibEx.ctx None None) 9 in
  let x1 := set_inev_ts x1 10 in
  flextcp_context_canwait 100 201 x1 = (0, x1) /\
  exists tr1 t1 tr2 t2 tr3, tr = tr1 ++ WCanwait t1 :: tr2 ++ WCanwait t2 :: tr3 /\
    u64 (t2 - t1) > 100 /\ WPoll false ∈ tr3 /\ WPoll true ∉ tr2 ++ tr3 /\ WClear ∉ tr2 ++ tr3.
Proof.
  intros tr x0 x1. split; [reflexivity|].
  exact (canwait_safe 100 (LibEx.ctx None None) tr x1 201 x1 eq_refl eq_refl eq_refl).
Defined.
