(* ===== verification/LibData.v ===== *)
(** * The application library: sending

    Theorems about the data path of LibTas: space is allocated in the send queue,
    the application writes there, and sending makes exactly those bytes part of
    the stream; and what goes wrong at the edges. *)
From S2P Require Import Prelude RdmaQueue Packets FlowState Wire AppMsg LibTas LibPoll LibSpec.

#[local] Open Scope Z_scope.

(** What the application does with the space it was given: its data goes to the
    first piece and the rest to the second. *)
Definition app_fill (q : rdma_queue) (buf_1 len_1 : Z) (buf_2 : option Z) (data : list Z) : outcome rdma_queue :=
  b ← mem_write (buffer q) (buf_1 - q_buf q 0) (take (Z.to_nat len_1) data);
  b ← match buf_2 with
      | None => mret b
      | Some buf_2 => mem_write b (buf_2 - q_buf q 0) (drop (Z.to_nat len_1) data)
      end;
  mret (q <| buffer := b |>).

(** Marking changes the links of connections only. *)
Section Mark.
Context {L : Type} `{RdmaLink L} {A : Type} (g : flextcp_connection -> A).
Context (G1 : forall c v, g (with_bump_next c v) = g c) (G2 : forall c v, g (with_pending c v) = g c)
  (G3 : forall (c : flextcp_connection) (v : option Z), g (c <| bump_prev := v |>) = g c).

Lemma view_put (s : lib_state L) p c c' :
  fc_at s p = Ok c -> g c' = g c -> g <$> lb_conns (put_fc s p c') = g <$> lb_conns s.
Proof.
  intros Hc%fc_at_Ok Hg. simpl. rewrite fmap_insert, Hg. apply insert_id. by rewrite lookup_fmap, Hc.
Qed.

Lemma mark_view (s : lib_state L) p s' :
  conn_mark_bump s p = Ok s' -> g <$> lb_conns s' = g <$> lb_conns s /\ lb_qs s' = lb_qs s.
Proof.
  unfold conn_mark_bump. intros R. apply bind_Ok_inv in R as (c & Hc & R).
  destruct (bump_pending c); [by injection R as <-|].
  apply bind_Ok_inv in R as (s1 & Hs1 & R). apply bind_Ok_inv in R as (c' & Hc' & R). injection R as <-.
  rewrite (view_put _ _ _ _ Hc') by done. simpl.
  set (s0 := put_fc s p _) in Hs1.
  assert (E0 : g <$> lb_conns s0 = g <$> lb_conns s) by (apply (view_put s p c); [done|by rewrite G3, G1]).
  assert (Q0 : lb_qs s0 = lb_qs s) by done. clearbody s0. rewrite <- E0, <- Q0.
  destruct (bump_pending_last (lb_ctx s)) as [q|].
  - apply bind_Ok_inv in Hs1 as (d & Hd & Hs1). injection Hs1 as <-. split; [by apply (view_put s0 q d)|done].
  - by injection Hs1 as <-.
Qed.
End Mark.

Lemma mark_conn {L} `{RdmaLink L} (s : lib_state L) p c s' :
  lb_conns s !! p = Some c -> conn_mark_bump s p = Ok s' ->
  exists c', lb_conns s' !! p = Some c' /\ fc_tx c' = fc_tx c /\ txb_bump c' = txb_bump c /\
    txb_allocated c' = txb_allocated c /\ lb_qs s' = lb_qs s.
Proof.
  intros Hc Hm. set (g c := (fc_tx c, txb_bump c, txb_allocated c)).
  destruct (mark_view g ltac:(done) ltac:(done) ltac:(done) _ _ _ Hm) as [V Q].
  assert (E : (g <$> lb_conns s') !! p = Some (g c)) by by rewrite V, lookup_fmap, Hc.
  rewrite lookup_fmap in E. destruct (lb_conns s' !! p) as [c'|]; [|done]. injection E as E1 E2 E3. eauto 8.
Qed.

(** Writes past the bytes in use do not change what the queue holds. *)
Lemma rep_refill q f b :
  rep q f -> length b = length (buffer q) ->
  ring_read b (rx_off q) (fifo_size f) = ring_read (buffer q) (rx_off q) (fifo_size f) ->
  rep (q <| buffer := b |>) f.
Proof.
  intros R Hlen Hold. pose proof (rep_tx_range q f R). pose proof (rep_fits q f R).
  pose proof (rep_append q f 0 b R ltac:(lia) Hlen Hold) as Ra.
  rewrite adv_zero, ring_read_zero, app_nil_r in Ra by lia.
  destruct q as [? ? ? ? ? [] ? ? ?], f. exact Ra.
Qed.

Section Send.
Context {L : Type} `{RdmaLink L}.
Abbreviation state := (lib_state L).
Implicit Types (s : state) (c : flextcp_connection).

(** What the code takes for the free space. *)
Definition grant (q : rdma_queue) (f : fifo) : Z :=
  (if Z.of_nat (length (visible f)) =? 0 then buffer_size q - RDMA_QUEUE_PAD
   else buffer_size q - Z.of_nat (length (visible f))) - Z.of_nat (length (pending f)).

Lemma grant_range q f : rep q f -> 0 <= grant q f <= buffer_size q /\ buffer_size q - RDMA_QUEUE_PAD - fifo_size f <= grant q f.
Proof.
  intros R. pose proof (rep_fits q f R). pose proof (rep_bs q f R). unfold grant, fifo_size, RDMA_QUEUE_PAD in *.
  destruct (Z.eqb_spec (Z.of_nat (length (visible f))) 0); lia.
Qed.

Lemma grant_free q f : rep q f -> grant q f <= buffer_size q - fifo_size f.
Proof. intros R. pose proof (rep_bs q f R). unfold grant, fifo_size, RDMA_QUEUE_PAD in *. destruct (Z.eqb_spec (Z.of_nat (length (visible f))) 0); lia. Qed.

Lemma can_reserve_local q f (l : L) : rep q f -> rq_nbytes_can_reserve q l = Ok (grant q f, q, l).
Proof.
  intros R. pose proof (grant_range q f R) as [Hg _]. pose proof (rep_bs q f R). unfold rq_nbytes_can_reserve.
  rewrite bind_assert_true by (apply Z.eqb_eq; apply R).
  rewrite (rep_max_flush q f R), (rep_to_flush q f R). osimpl. rewrite (rep_unpaired q f R). osimpl.
  pose proof (rep_fits q f R). unfold fifo_size, RDMA_QUEUE_PAD, grant in *.
  set (m := if _ =? 0 then _ else _) in *.
  assert (Z.of_nat (length (pending f)) <= m < 2147483648) as Hm by (unfold m, RDMA_QUEUE_PAD; bsplit; lia). clearbody m.
  rewrite (u64_small m) by lia. rewrite (proj2 (Z.geb_le _ _)) by lia. osimpl.
  by rewrite u64_small, i64_small by lia.
Qed.

Context (p : Z) (c : flextcp_connection) (q : rdma_queue) (f : fifo).
Context (s : state) (Hc : lb_conns s !! p = Some c) (Hq : lb_qs s !! fc_tx c = Some q) (R : rep q f).
Context (Hopen : has_all (fc_flags c) CONN_FLAG_TXEOS = false).
Context (Haddr : 0 <= self q /\ self q + SIZEOF_RDMA_QUEUE + buffer_size q < 18446744073709551616).

Lemma tx_alloc2_local len :
  0 <= len ->
  let r := Z.min len (grant q f) in
  let wraps := tx_off q + r >? buffer_size q in
  flextcp_connection_tx_alloc2 s p len =
    Ok (r, q_buf q (tx_off q), if wraps then buffer_size q - tx_off q else r,
        if wraps then Some (q_buf q 0) else None, put_fc s p (granted c r)).
Proof.
  intros Hl. pose proof (grant_range q f R) as [Hg _]. pose proof (rep_bs q f R). pose proof (rep_tx_range q f R).
  unfold flextcp_connection_tx_alloc2. rewrite (proj2 (fc_at_Ok s p c) Hc). osimpl. rewrite Hopen.
  unfold q_can_reserve. rewrite (q_at_Ok _ _ _ Hq). osimpl. rewrite (can_reserve_local q f _ R). osimpl.
  rewrite put_q_id, (q_at_Ok _ _ _ Hq) by done. osimpl.
  rewrite !u32_small by lia.
  assert ((if grant q f <? len then grant q f else len) = Z.min len (grant q f)) as -> by (bsplit; lia).
  rewrite u64_small by lia. 
  destruct (Z.gtb_spec (tx_off q + Z.min len (grant q f)) (buffer_size q)); [|done]. by rewrite u64_small by lia.
Qed.

(** The application's writes leave the bytes in use alone and lay out the data after
    them. *)
Lemma app_fill_spec data :
  let n := Z.of_nat (length data) in
  let wraps := tx_off q + n >? buffer_size q in
  n <= buffer_size q - fifo_size f ->
  exists b, app_fill q (q_buf q (tx_off q)) (if wraps then buffer_size q - tx_off q else n)
      (if wraps then Some (q_buf q 0) else None) data = Ok (q <| buffer := b |>) /\
    length b = length (buffer q) /\
    ring_read b (rx_off q) (fifo_size f) = ring_read (buffer q) (rx_off q) (fifo_size f) /\
    ring_read b (tx_off q) n = data.
Proof.
  intros n wraps Hfit. pose proof (rep_tx_range q f R) as Ht. pose proof (rep_bs q f R) as Hbs.
  pose proof (rep_buf q f R) as Hb. pose proof (rep_tx_rx q f R) as Hrx. pose proof (rep_rx q f R).
  assert (0 <= fifo_size f) as Hu by (unfold fifo_size; lia). unfold RDMA_QUEUE_PAD in *.
  assert (Hoff : forall o, 0 <= o <= buffer_size q -> q_buf q o - q_buf q 0 = o).
  { intros o Ho. unfold q_buf, SIZEOF_RDMA_QUEUE, OFFSETOF_BUFFER in *. rewrite !u64_small by lia. lia. }
  assert (Hadv : tx_off q mod buffer_size q = (rx_off q + fifo_size f) mod buffer_size q)
    by (rewrite Hrx; apply adv_mod; lia).
  unfold app_fill, wraps. destruct (Z.gtb_spec (tx_off q + n) (buffer_size q)) as [Hw|Hl].
  - set (n1 := buffer_size q - tx_off q).
    assert (length (take (Z.to_nat n1) data) = Z.to_nat n1) as L1 by (rewrite length_take; lia).
    assert (length (drop (Z.to_nat n1) data) = Z.to_nat (n - n1)) as L2 by (rewrite length_drop; lia).
    rewrite !Hoff by lia.
    destruct (mem_write (buffer q) (tx_off q) _) as [b1|] eqn:W1; [|rewrite mem_write_Ok in W1 by lia; done]. osimpl.
    pose proof (mem_write_length _ _ _ _ W1) as B1.
    destruct (mem_write b1 0 _) as [b2|] eqn:W2; [|rewrite mem_write_Ok in W2 by lia; done]. osimpl.
    pose proof (mem_write_length _ _ _ _ W2) as B2.
    assert (0 mod buffer_size q = (tx_off q + n1) mod buffer_size q) as E0
      by (replace (tx_off q + n1) with (buffer_size q) by lia; rewrite Z.mod_same by lia; done).
    assert (0 mod buffer_size q = (rx_off q + (fifo_size f + n1)) mod buffer_size q) as E1.
    { rewrite E0, <- Zplus_mod_idemp_l, Hadv, Zplus_mod_idemp_l. f_equal. lia. }
    exists b2. split; [done|]. split; [congruence|]. split.
    + rewrite <- (ring_take b2 _ (fifo_size f + n1)), (ring_write_other _ _ _ _ _ _ W2), ring_take by
        (rewrite ?B1, ?Hb, ?L2; (done || lia)).
      apply (ring_write_other _ _ _ _ _ _ W1); rewrite ?Hb, ?L1; (done || lia).
    + replace n with (n1 + (n - n1)) by lia. rewrite ring_read_app by lia.
      rewrite (ring_write_other _ _ _ _ (tx_off q) n1 W2) by (rewrite ?B1, ?Hb, ?L2; (done || lia)).
      pose proof (ring_write_same _ _ _ _ W1) as S1. rewrite L1, Z2Nat.id in S1 by lia. rewrite S1.
      pose proof (ring_write_same _ _ _ _ W2) as S2. rewrite L2, Z2Nat.id in S2 by lia.
      rewrite (ring_read_mod b2 (tx_off q + n1) 0), S2, take_drop; [done|]. by rewrite B2, B1, Hb.
  - rewrite Hoff by lia. rewrite take_ge by lia.
    destruct (mem_write (buffer q) (tx_off q) data) as [b1|] eqn:W1; [|rewrite mem_write_Ok in W1 by lia; done]. osimpl.
    exists b1. split; [done|]. split; [by eapply mem_write_length|]. split.
    + apply (ring_write_other _ _ _ _ _ _ W1); rewrite ?Hb; (done || lia).
    + apply (ring_write_same _ _ _ _ W1).
Qed.

Lemma tx_send_local s1 c1 q1 n :
  lb_conns s1 !! p = Some c1 -> n <= txb_allocated c1 -> lb_qs s1 !! fc_tx c1 = Some q1 -> rep q1 f ->
  0 <= n <= buffer_size q1 - RDMA_QUEUE_PAD - fifo_size f ->
  exists q2, rep q2 (mk_fifo (visible f) (pending f ++ ring_read (buffer q1) (tx_off q1) n)) /\
    flextcp_connection_tx_send s1 p n =
      (s2 ← conn_mark_bump (put_fc (put_q s1 (fc_tx c1) q2 (lb_link s1)) p (sent c1 n)) p; mret (0, s2)).
Proof.
  intros Hc1 Hn Hq1 R1 Hfit. destruct (rq_enqueue_inplace q1 f (lb_link s1) n R1 Hfit) as (q2 & He & R2 & _).
  exists q2. split; [done|]. unfold flextcp_connection_tx_send. rewrite (proj2 (fc_at_Ok s1 p c1) Hc1). osimpl.
  destruct (Z.ltb_spec (txb_allocated c1) n); [lia|]. unfold q_enqueue.
  rewrite (q_at_Ok _ _ _ Hq1). osimpl. by rewrite He.
Qed.

(** The way of the data out of the application: it asks for as much space as its
    data needs, writes the data to the one or two pieces it gets, and sends: the
    bytes are then the end of the stream that waits for [conns_bump], what was in
    the queue is untouched, and the connection is in the list of those with news. *)
Theorem tx_data_path data l
  (B : bumps (bview s) l) (Hfit : Z.of_nat (length data) <= buffer_size q - RDMA_QUEUE_PAD - fifo_size f)
  (Hbump : 0 <= txb_bump c + Z.of_nat (length data) < 4294967296) (Halloc : txb_allocated c = 0) :
  let n := Z.of_nat (length data) in
  exists b1 n1 b2 s1 q1 s2 c2 q2 l2,
    flextcp_connection_tx_alloc2 s p n = Ok (n, b1, n1, b2, s1) /\
    app_fill q b1 n1 b2 data = Ok q1 /\
    flextcp_connection_tx_send (set_qs s1 (<[fc_tx c := q1]> (lb_qs s1))) p n = Ok (0, s2) /\
    lb_qs s2 = <[fc_tx c := q2]> (lb_qs s) /\ rep q2 (mk_fifo (visible f) (pending f ++ data)) /\
    lb_conns s2 !! p = Some c2 /\ fc_tx c2 = fc_tx c /\ txb_bump c2 = txb_bump c + n /\ txb_allocated c2 = 0 /\
    bumps (bview s2) l2 /\ p ∈ l2.
Proof.
  intros n. pose proof (grant_range q f R) as [_ Hg]. pose proof (rep_bs q f R) as Hbs.
  pose proof (rep_fits q f R) as Hfit2. pose proof (rep_tx_range q f R) as Htr.
  assert (0 <= fifo_size f) as Hu by (unfold fifo_size; lia). unfold RDMA_QUEUE_PAD in *.
  pose proof (tx_alloc2_local n ltac:(lia)) as Ha. cbv zeta in Ha. rewrite Z.min_l in Ha by lia.
  destruct (app_fill_spec data ltac:(lia)) as (b & Hfill & Hlen & Hold & Hnew). fold n in Hfill, Hnew.
  assert (Rb : rep (q <| buffer := b |>) f).
  { by apply (rep_refill q f). }
  set (q1 := q <| buffer := b |>) in *. set (s1 := put_fc s p (granted c n)).
  set (s1' := set_qs s1 (<[fc_tx c := q1]> (lb_qs s1))).
  assert (Ba : txb_allocated (granted c n) = n) by (simpl; rewrite Halloc, u32_small; lia).
  destruct (tx_send_local s1' (granted c n) q1 n) as (q2 & R2 & Hsend); try done.
  { apply lookup_insert_eq. } { lia. } { apply lookup_insert_eq. } { unfold q1, RDMA_QUEUE_PAD. simpl. lia. }
  replace (ring_read (buffer q1) (tx_off q1) n) with data in R2 by (symmetry; exact Hnew).
  set (c3 := sent (granted c n) n) in *.
  assert (Eb3 : txb_bump c3 = txb_bump c + n) by (apply u32_small; simpl; lia).
  assert (Ea3 : txb_allocated c3 = 0).
  { change (u32 (txb_allocated (granted c n) - n) = 0). rewrite Ba. replace (n - n) with 0 by lia. done. }
  set (s3 := put_fc (put_q s1' _ q2 _) p c3) in *.
  assert (Hc3 : lb_conns s3 !! p = Some c3) by apply lookup_insert_eq.
  assert (B3 : bumps (bview s3) l).
  { assert (bview s3 = bview s) as ->; [|done]. transitivity (bview (put_fc s p c3)); [|by eapply bview_put_same].
    rewrite bview_put. unfold bview. simpl. by rewrite !fmap_insert, insert_insert_eq. }
  destruct (mark_bumps s3 l p c3 B3 Hc3) as (s4 & Hm & B4).
  destruct (mark_conn s3 p c3 s4 Hc3 Hm) as (c4 & Hc4 & Et & Eb & Ea & Q4).
  eexists _, _, _, s1, q1, s4, c4, q2, _.
  split; [exact Ha|]. split; [exact Hfill|]. split; [change (flextcp_connection_tx_send s1' p n = Ok (0, s4)); rewrite Hsend; by rewrite Hm|].
  split; [rewrite Q4; apply insert_insert_eq|]. split; [exact R2|]. split; [exact Hc4|].
  split; [exact Et|]. split; [congruence|]. split; [congruence|]. split; [exact B4|].
  destruct (decide (p ∈ l)); [done|]. apply elem_of_app. right. left.
Qed.

(** What the queue has no room for stops the sending thread. *)
Lemma tx_send_refused s1 c1 q1 n :
  lb_conns s1 !! p = Some c1 -> n <= txb_allocated c1 -> lb_qs s1 !! fc_tx c1 = Some q1 -> rep q1 f ->
  buffer_size q1 - RDMA_QUEUE_PAD - fifo_size f < n -> flextcp_connection_tx_send s1 p n = Stop AssertFailed.
Proof.
  intros Hc1 Hn Hq1 R1 Hno. unfold flextcp_connection_tx_send. rewrite (proj2 (fc_at_Ok s1 p c1) Hc1). osimpl.
  destruct (Z.ltb_spec (txb_allocated c1) n); [lia|]. unfold q_enqueue. rewrite (q_at_Ok _ _ _ Hq1). osimpl.
  by destruct (rq_enqueue_full q1 f (lb_link s1) None n R1 Hno) as (q' & -> & _).
Qed.

(** Code bug: the space that is granted includes the padding of the queue once the
    NIC has not taken everything, and the queue refuses what was granted: sending it
    fails the assertion on the result. *)
Lemma tx_send_aborts n :
  let s1 := put_fc s p (granted c n) in
  buffer_size q - RDMA_QUEUE_PAD - fifo_size f < n <= grant q f -> txb_allocated c = 0 ->
  (exists b1 n1 b2, flextcp_connection_tx_alloc2 s p n = Ok (n, b1, n1, b2, s1)) /\
  flextcp_connection_tx_send s1 p n = Stop AssertFailed.
Proof.
  intros s1 Hn Ha. pose proof (rep_fits q f R). pose proof (rep_bs q f R). pose proof (grant_range q f R).
  assert (0 <= fifo_size f) by (unfold fifo_size; lia). unfold RDMA_QUEUE_PAD in *.
  assert (0 <= n < 4294967296) as Hn2 by lia. split.
  - pose proof (tx_alloc2_local n ltac:(lia)) as E. cbv zeta in E. rewrite Z.min_l in E by lia. rewrite E. eauto.
  - apply (tx_send_refused s1 (granted c n) q); [apply lookup_insert_eq| |exact Hq|done|unfold RDMA_QUEUE_PAD; lia].
    simpl. rewrite Ha, u32_small; lia.
Qed.

End Send.

(** Code bug: an allocation does not take the space: a second one before the data is
    sent gives the same address again. *)
Lemma tx_alloc_repeats {L} `{RdmaLink L} (s : lib_state L) p c q f n m :
  lb_conns s !! p = Some c -> lb_qs s !! fc_tx c = Some q -> rep q f ->
  has_all (fc_flags c) CONN_FLAG_TXEOS = false -> 0 <= n -> 0 <= m ->
  exists r1 r2 n1 n2 b2 b3 s1 s2,
    flextcp_connection_tx_alloc2 s p n = Ok (r1, q_buf q (tx_off q), n1, b2, s1) /\
    flextcp_connection_tx_alloc2 s1 p m = Ok (r2, q_buf q (tx_off q), n2, b3, s2).
Proof.
  intros Hc Hq R Hfl Hn Hm. pose proof (tx_alloc2_local p c q f s Hc Hq R Hfl n Hn) as E1. cbv zeta in E1.
  set (r1 := Z.min n (grant q f)) in *.
  pose proof (tx_alloc2_local p (granted c r1) q f (put_fc s p (granted c r1)) (lookup_insert_eq _ _ _) Hq R Hfl m Hm) as E2.
  cbv zeta in E2. rewrite E1. do 8 eexists. split; [reflexivity|exact E2].
Qed.

(** ** Requests to the slow path *)

Section Requests.
Context {L : Type} `{RdmaLink L}.
Context (remote : option rdma_env) (rxl txl cycle now : Z).
Abbreviation state := (lib_state L).
Implicit Types (s : state) (c : flextcp_connection).

(** Whether [rq_try_reserve_flush] finds room. *)
Definition has_room (q : rdma_queue) (f : fifo) (n : Z) : bool :=
  fifo_size f + n <=? (if Z.of_nat (length (visible f)) =? 0 then buffer_size q - RDMA_QUEUE_PAD else buffer_size q).

Lemma q_reserve_local s a q f n :
  lb_qs s !! a = Some q -> rep q f -> 0 <= n < 2147483648 -> q_reserve s a n = Ok (c_bool (has_room q f n), s).
Proof.
  intros Hq R Hn. unfold q_reserve. rewrite (q_at_Ok _ _ _ Hq). osimpl.
  rewrite (rq_reserve_spec q f _ n R Hn). osimpl. by rewrite put_q_id.
Qed.

(** The refusal of a request: nothing is sent. *)
Lemma reserve_full s q f :
  lb_qs s !! cx_kin (lb_ctx s) = Some q -> rep q f -> has_room q f SIZEOF_KERNEL_APPOUT = false ->
  q_reserve s (cx_kin (lb_ctx s)) SIZEOF_KERNEL_APPOUT = Ok (0, s).
Proof. intros Hq R Hr. rewrite (q_reserve_local _ _ _ _ _ Hq R) by done. by rewrite Hr. Qed.

Lemma bump_remove_keeps s p s' : bump_remove s p = Ok s' -> lb_qs s' = lb_qs s /\ cx_kin (lb_ctx s') = cx_kin (lb_ctx s).
Proof.
  unfold bump_remove. intros R. run_inv R; subst; [done|].
  match goal with E : (if _ then _ else _) = Ok _ |- _ => run_inv E; subst; [done|] end.
  by destruct (bump_next r).
Qed.

Definition conn_id c : Z * Z * Z * Z := (fc_remote_ip c, fc_local_ip c, fc_remote_port c, fc_local_port c).

(** Leaving the list keeps what a connection is. *)
Lemma bump_remove_view s p s' : bump_remove s p = Ok s' -> conn_id <$> lb_conns s' = conn_id <$> lb_conns s.
Proof.
  unfold bump_remove. intros R. apply bind_Ok_inv in R as (c & Hc & R).
  destruct (negb (bump_pending c)); [by injection R as <-|].
  apply bind_Ok_inv in R as (s1 & R1 & R). apply bind_Ok_inv in R as (c' & Hc' & R). injection R as <-.
  rewrite (view_put conn_id _ _ _ _ Hc') by done.
  case_bool_decide; [by injection R1 as <-|].
  apply bind_Ok_inv in R1 as (q & _ & R1). apply bind_Ok_inv in R1 as (d & Hd & R1). injection R1 as <-.
  transitivity (conn_id <$> lb_conns (put_fc s q (with_bump_next d (bump_next c)))); [by destruct (bump_next c)|].
  by apply (view_put conn_id s q d).
Qed.

Lemma bump_remove_conn s p c s' : lb_conns s !! p = Some c -> bump_remove s p = Ok s' ->
  exists c', lb_conns s' !! p = Some c' /\ conn_id c' = conn_id c.
Proof.
  intros Hc V%bump_remove_view. assert (E : (conn_id <$> lb_conns s') !! p = Some (conn_id c)) by by rewrite V, lookup_fmap, Hc.
  rewrite lookup_fmap in E. destruct (lb_conns s' !! p) as [c'|]; [|done]. injection E as ????. exists c'. split; [done|]. unfold conn_id. congruence.
Qed.

(** C18. A request that finds the queue to the slow path full is refused with -1 and
    nothing is sent. Opening has cleared the struct of the connection by then, and
    closing has taken the connection off the list of those with news, whatever it
    had to report. *)
Theorem requests_refused s q f lst l port backlog flags p m ip rport sc
  (Hq : lb_qs s !! cx_kin (lb_ctx s) = Some q) (R : rep q f) (Hfull : has_room q f SIZEOF_KERNEL_APPOUT = false)
  (Hrem : bump_remove s p = Ok sc) :
  flextcp_listen_open cycle now s lst port backlog flags = Ok (-1, None, s) /\
  flextcp_listen_accept remote rxl txl cycle now s lst l p m = Ok (-1, s) /\
  flextcp_connection_open remote rxl txl cycle now s p ip rport m = Ok (-1, put_fc s p connection_init) /\
  flextcp_connection_move cycle now s p = Ok (-1, s) /\
  flextcp_connection_close cycle now s p = Ok (-1, sc) /\ lb_qs sc = lb_qs s.
Proof.
  pose proof (reserve_full s q f Hq R Hfull) as E.
  destruct (bump_remove_keeps _ _ _ Hrem) as [Q K].
  assert (Eo : q_reserve (put_fc s p connection_init) (cx_kin (lb_ctx s)) SIZEOF_KERNEL_APPOUT = Ok (0, put_fc s p connection_init))
    by (by apply (reserve_full (put_fc s p connection_init) q f)).
  assert (Ec : q_reserve sc (cx_kin (lb_ctx sc)) SIZEOF_KERNEL_APPOUT = Ok (0, sc))
    by (apply (reserve_full sc q f); [by rewrite Q, K|done|done]).
  unfold flextcp_listen_open, flextcp_listen_accept, flextcp_connection_open, flextcp_connection_move, flextcp_connection_close.
  rewrite Hrem. osimpl. rewrite E, Ec. osimpl. split; [done|]. split; [done|]. split; [|done].
  change (cx_kin (lb_ctx (put_fc s p connection_init))) with (cx_kin (lb_ctx s)). by rewrite Eo.
Qed.

(** ** A message to the slow path *)

(** The bytes that are stored for a message; [None] is a read behind the message. *)
Definition stored_message (q : rdma_queue) (kin : kernel_appout) : option (list Z) :=
  let b1 := buffer_size q - tx_off q in
  if SIZEOF_KERNEL_APPOUT <=? b1 then Some (encode_appout kin)
  else if SIZEOF_KERNEL_APPOUT <=? 2 * b1 then Some (stored b1 (encode_appout kin)) else None.

Lemma q_enqueue_message s a q f kin :
  lb_qs s !! a = Some q -> rep q f -> appout_ok kin ->
  fifo_size f + SIZEOF_KERNEL_APPOUT <= buffer_size q - RDMA_QUEUE_PAD ->
  match stored_message q kin with
  | Some b => exists q', q_enqueue s a (Some (encode_appout kin)) SIZEOF_KERNEL_APPOUT = Ok (0, put_q s a q' (lb_link s)) /\
      rep q' (mk_fifo (visible f) (pending f ++ b))
  | None => q_enqueue s a (Some (encode_appout kin)) SIZEOF_KERNEL_APPOUT = Stop OutOfBounds
  end.
Proof.
  intros Hq R Hk Hroom. destruct (appout_roundtrip kin Hk) as [_ Hlen]. unfold stored_message, q_enqueue.
  rewrite (q_at_Ok s a q Hq). osimpl. set (b1 := buffer_size q - tx_off q).
  destruct (Z.leb_spec SIZEOF_KERNEL_APPOUT b1) as [H1|H1].
  { destruct (rq_enqueue_data q f (lb_link s) (encode_appout kin) R) as (q' & E & R' & _); [lia|lia|].
    rewrite Hlen in E. rewrite E. osimpl. by exists q'. }
  destruct (Z.leb_spec SIZEOF_KERNEL_APPOUT (2 * b1)) as [H2|H2].
  - destruct (rq_enqueue_wrap q f (lb_link s) (encode_appout kin) R) as (q' & E & R'); [lia|fold b1; lia|].
    rewrite Hlen in E. rewrite E. osimpl. by exists q'.
  - rewrite <- Hlen, (rq_enqueue_wrap_oob q f (lb_link s) (encode_appout kin) R) by (unfold b1 in *; lia). done.
Qed.

(** What becomes of a request [kin] for which there seemed to be room. It is stored
    after what the slow path has not read yet and made visible; the slow path reads
    the request itself if it does not cross the end of the ring. The program stops
    when there is room only with the padding, when it would store bytes from behind
    the message, and when something was in the queue that was not visible. *)
Definition request s q f kin {A} (run : outcome A) (post : A -> state -> Prop) : Prop :=
  if negb (fifo_size f + SIZEOF_KERNEL_APPOUT <=? buffer_size q - RDMA_QUEUE_PAD) then run = Stop AssertFailed
  else
    match stored_message q kin with
    | None => run = Stop OutOfBounds
    | Some b =>
        match pending f with
        | _ :: _ => run = Stop AssertFailed
        | [] => exists r s1 q1, run = Ok r /\ post r s1 /\ lb_qs s1 = <[cx_kin (lb_ctx s) := q1]> (lb_qs s) /\
            rep q1 (mk_fifo (visible f ++ b) []) /\
            (tx_off q + SIZEOF_KERNEL_APPOUT <= buffer_size q -> decode_appout b = kin)
        end
    end.

Lemma enqueue_appout_cases s q f kin {A} (k : state -> outcome A) post :
  lb_qs s !! cx_kin (lb_ctx s) = Some q -> rep q f -> appout_ok kin ->
  (forall s1, lb_conns s1 = lb_conns s -> exists r, k s1 = Ok r /\ post r s1) ->
  request s q f kin (s1 ← enqueue_appout cycle now s kin; k s1) post.
Proof.
  intros Hq R Hk Hpost. unfold request, enqueue_appout.
  destruct (Z.leb_spec (fifo_size f + SIZEOF_KERNEL_APPOUT) (buffer_size q - RDMA_QUEUE_PAD)) as [Hroom|Hno]; simpl negb; cbv iota.
  2:{ unfold q_enqueue. rewrite (q_at_Ok _ _ _ Hq). osimpl.
      destruct (rq_enqueue_full q f (lb_link s) (Some (encode_appout kin)) SIZEOF_KERNEL_APPOUT R) as (q' & -> & _); [lia|done]. }
  pose proof (q_enqueue_message s _ q f kin Hq R Hk Hroom) as E.
  destruct (stored_message q kin) as [b|] eqn:Eb; [|by rewrite E].
  destruct E as (q1 & -> & R1). osimpl. set (s1 := put_q s _ q1 _). change (cx_kin (lb_ctx s1)) with (cx_kin (lb_ctx s)).
  destruct (q_flush_at s1 (cx_kin (lb_ctx s)) q1 _ (lookup_insert_eq _ _ _) R1) as (q2 & -> & R2 & _).
  cbn [pending visible] in R2 |- *. osimpl.
  destruct (appout_roundtrip kin Hk) as [Hd Hlen].
  assert (Hb : Z.of_nat (length b) = SIZEOF_KERNEL_APPOUT).
  { unfold stored_message in Eb. destruct (Z.leb_spec SIZEOF_KERNEL_APPOUT (buffer_size q - tx_off q)); [by injection Eb as <-|].
    destruct (Z.leb_spec SIZEOF_KERNEL_APPOUT (2 * (buffer_size q - tx_off q))); [|done]. injection Eb as <-.
    pose proof (rep_tx_range q f R). unfold stored. rewrite length_app, !length_take, length_drop. lia. }
  pose proof (rep_fits q1 _ R1) as Hfits. pose proof (rep_bs q1 _ R1) as Hbs. unfold fifo_size in Hfits. cbn [pending visible] in Hfits.
  destruct (pending f) as [|x l] eqn:Ep.
  - rewrite app_nil_l in *. rewrite u64_small by (rewrite Hb; done). rewrite Hb, Z.eqb_refl.
    set (s2 := put_q s1 _ q2 _). assert (Q2 : lb_qs s2 = <[cx_kin (lb_ctx s) := q2]> (lb_qs s)) by apply insert_insert_eq.
    set (s3 := flextcp_kernel_kick cycle now s2).
    assert (E3 : lb_conns s3 = lb_conns s /\ lb_qs s3 = lb_qs s2) by (unfold s3, flextcp_kernel_kick; by destruct (_ >? cycle)).
    change (SIZEOF_KERNEL_APPOUT =? SIZEOF_KERNEL_APPOUT) with true. cbv iota. osimpl. destruct (Hpost s3) as (r & Ek & Hr); [apply E3|]. rewrite Ek. exists r, s3, q2. split; [done|]. split; [done|].
    split; [by rewrite (proj2 E3)|]. split; [done|]. intros Hlin. unfold stored_message in Eb.
    rewrite (proj2 (Z.leb_le _ _)) in Eb by lia. by injection Eb as <-.
  - set (n := Z.of_nat (length ((x :: l) ++ b))) in *.
    assert (SIZEOF_KERNEL_APPOUT < n < 2147483648) as Hn.
    { split; [unfold n; rewrite length_app; simpl length; lia|unfold RDMA_QUEUE_PAD in *; lia]. }
    rewrite u64_small by (unfold SIZEOF_KERNEL_APPOUT in *; lia). rewrite (proj2 (Z.eqb_neq n _)) by lia.
    osimpl. unfold c_assert. rewrite (proj2 (Z.ltb_ge _ _)) by (unfold SIZEOF_KERNEL_APPOUT in *; lia). done.
Qed.


End Requests.

(** ** Examples *)

(** The second connection of the example sends three bytes. *)
Lemma tx_data_path_witness :
  exists b1 n1 b2 s1 q1 s2 c2 q2 l2,
    flextcp_connection_tx_alloc2 LibEx.state 2 3 = Ok (3, b1, n1, b2, s1) /\
    app_fill (Demo.q64 10 20 25) b1 n1 b2 [7; 8; 9] = Ok q1 /\
    flextcp_connection_tx_send (set_qs s1 (<[22 := q1]> (lb_qs s1))) 2 3 = Ok (0, s2) /\
    lb_qs s2 = <[22 := q2]> (lb_qs LibEx.state) /\ rep q2 (mk_fifo (replicate 10 0) (replicate 5 0 ++ [7; 8; 9])) /\
    lb_conns s2 !! 2 = Some c2 /\ fc_tx c2 = 22 /\ txb_bump c2 = 8 /\ txb_allocated c2 = 0 /\
    bumps (bview s2) l2 /\ 2 ∈ l2.
Proof.
  apply (tx_data_path 2 (LibEx.conn 2 5 None true) (Demo.q64 10 20 25) (Demo.zeros 10 5) LibEx.state
    eq_refl eq_refl Demo.rep_mid eq_refl ltac:(split; vm_compute; congruence) [7; 8; 9] [1; 2] LibEx.state_bumps);
    [vm_compute; congruence|vm_compute; split; congruence|reflexivity].
Defined.

Lemma requests_refused_witness :
  flextcp_listen_open 0 0 LibEx.single 5 80 4 0 = Ok (-1, None, LibEx.single) /\
  flextcp_listen_accept None 0 0 0 0 LibEx.single 5 (mk_fl 80) 2 None = Ok (-1, LibEx.single) /\
  flextcp_connection_open None 0 0 0 0 LibEx.single 2 9 80 None = Ok (-1, put_fc LibEx.single 2 connection_init) /\
  flextcp_connection_move 0 0 LibEx.single 2 = Ok (-1, LibEx.single) /\
  flextcp_connection_close 0 0 LibEx.single 2 = Ok (-1, LibEx.single) /\
  lb_qs LibEx.single = lb_qs LibEx.single.
Proof.
  exact (requests_refused None 0 0 0 0 LibEx.single (Demo.q64 0 0 0) (Demo.zeros 0 0) 5 (mk_fl 80) 80 4 0 2 None 9 80
    LibEx.single eq_refl LibEx.rep_zero eq_refl eq_refl).
Defined.

Definition q128 : rdma_queue :=
  mk_queue 4096 0 128 0 (mk_endpoint 4096 0 0 0) (mk_endpoint 4096 0 0 0) false false (replicate 128 0).
Definition roomy : lib_state peer := set_qs LibEx.idle (<[200 := q128]> (lb_qs LibEx.idle)).

