(* ===== verification/SockState.v ===== *)
(** * The socket library: data and descriptors (lib/sockets/internal.h, manage_fd.c)

    Sockets, epolls and the table that maps file descriptors to them, what the
    socket library knows of the outside, and the operations on locks and
    descriptors. *)
From S2P Require Import Prelude RdmaQueue Packets LibTas LibPoll.

#[local] Open Scope Z_scope.

(** ** Errors (errno.h) *)
Definition ENOENT : Z := 2.
Definition EBADF : Z := 9.
Definition EAGAIN : Z := 11.
Definition ENOMEM : Z := 12.
Definition EEXIST : Z := 17.
Definition EINVAL : Z := 22.
Definition EMFILE : Z := 24.
Definition ENOTSOCK : Z := 88.
Definition ENOPROTOOPT : Z := 92.
Definition EOPNOTSUPP : Z := 95.
Definition EADDRINUSE : Z := 98.
Definition ENOBUFS : Z := 105.
Definition EISCONN : Z := 106.
Definition ENOTCONN : Z := 107.
Definition ECONNREFUSED : Z := 111.
Definition EALREADY : Z := 114.
Definition EINPROGRESS : Z := 115.

(** ** Data *)

Inductive filehandle_type := SOCK_UNUSED | SOCK_SOCKET | SOCK_CONNECTION | SOCK_LISTENER.
Inductive conn_status := SOC_CONNECTING | SOC_CONNECTED | SOC_FAILED | SOC_CLOSED.
Inductive listen_status := SOL_OPENING | SOL_OPEN | SOL_FAILED.
#[export] Instance filehandle_type_eq_dec : EqDecision filehandle_type.
Proof. solve_decision. Defined.
#[export] Instance conn_status_eq_dec : EqDecision conn_status.
Proof. solve_decision. Defined.
#[export] Instance listen_status_eq_dec : EqDecision listen_status.
Proof. solve_decision. Defined.

Definition SOF_NONBLOCK : Z := 1.
Definition SOF_BOUND : Z := 2.
Definition SOF_REUSEPORT : Z := 4.
Definition SOF_CLOEXEC : Z := 8.
Definition CSTF_RXCLOSED : Z := 1.
Definition CSTF_TXCLOSED : Z := 2.
Definition CSTF_TXCLOSED_ACK : Z := 4.

Definition EPOLLIN : Z := 1.
Definition EPOLLOUT : Z := 4.
Definition EPOLLERR : Z := 8.
Definition EPOLLHUP : Z := 16.
Definition EPOLLRDHUP : Z := 8192.
Definition EPOLLET : Z := 2147483648.

Record sockaddr_in := mk_sin { sin_addr : Z; sin_port : Z }.

(** A connection that was asked for and not handed out yet: [struct socket_pending]. *)
Record socket_pending := mk_pending { sp_s : Z; sp_ctx : Z; sp_fd : Z }.

(** The connection [c] at the start of the struct is in [lb_conns], at the address
    of the socket. The address of a buffer is 0 for NULL. *)
Record socket_conn := mk_sconn {
  sc_status : conn_status; sc_flags : Z; sc_listener : option Z;
  rx_buf_1 : Z; rx_buf_2 : Z; rx_len_1 : Z; rx_len_2 : Z;
  sc_ctx : Z; move_status : Z;
}.
#[export] Instance eta_sconn : Eta socket_conn := fun c =>
  mk_sconn (sc_status c) (sc_flags c) (sc_listener c) (rx_buf_1 c) (rx_buf_2 c) (rx_len_1 c) (rx_len_2 c)
    (sc_ctx c) (move_status c).

Record socket_listen := mk_slisten {
  sl_l : flextcp_listener; sl_pending : list socket_pending; sl_backlog : Z; sl_status : listen_status;
}.
#[export] Instance eta_slisten : Eta socket_listen := fun l =>
  mk_slisten (sl_l l) (sl_pending l) (sl_backlog l) (sl_status l).

(** [so_conn] and [so_listen] are the union [data], which [so_type] tells apart;
    [so_lock] is whether [sp_lock] is held. *)
Record socket := mk_socket {
  so_conn : socket_conn; so_listen : socket_listen; so_addr : sockaddr_in; so_flags : Z;
  so_type : filehandle_type; so_refcnt : Z; so_lock : bool; ep_events : Z; so_eps : option Z;
}.
#[export] Instance eta_socket : Eta socket := fun s =>
  mk_socket (so_conn s) (so_listen s) (so_addr s) (so_flags s) (so_type s) (so_refcnt s) (so_lock s)
    (ep_events s) (so_eps s).

Record epoll := mk_epoll {
  e_inactive : option Z; e_active_first : option Z; e_active_last : option Z;
  e_refcnt : Z; e_lock : bool; num_linux : Z; num_tas : Z; num_active : Z; linux_next : bool;
}.
#[export] Instance eta_epoll : Eta epoll := fun e =>
  mk_epoll (e_inactive e) (e_active_first e) (e_active_last e) (e_refcnt e) (e_lock e) (num_linux e)
    (num_tas e) (num_active e) (linux_next e).

(** A socket on an epoll. *)
Record epoll_socket := mk_es {
  es_ep : Z; es_s : Z; ep_next : option Z; ep_prev : option Z; so_prev : option Z; so_next : option Z;
  es_data : Z; es_mask : Z; es_active : bool;
}.
#[export] Instance eta_es : Eta epoll_socket := fun e =>
  mk_es (es_ep e) (es_s e) (ep_next e) (ep_prev e) (so_prev e) (so_next e) (es_data e) (es_mask e) (es_active e).

(** What [calloc] leaves. *)
Definition socket_zero : socket :=
  mk_socket (mk_sconn SOC_CONNECTING 0 None 0 0 0 0 0 0) (mk_slisten (mk_fl 0) [] 0 SOL_OPENING) (mk_sin 0 0) 0
    SOCK_UNUSED 0 false 0 None.
Definition epoll_zero : epoll := mk_epoll None None None 0 false 0 0 0 false.

(** An entry of [fhs]; descriptors without an entry are [FH_UNUSED]. *)
Inductive filehandle := FH_SOCKET (s : Z) | FH_EPOLL (e : Z).

(** What happens around one poll of the context: the time, what the others have
    done to the queues, and the answers to the library when it waits for them. *)
Record round (L : Type) := mk_round {
  rd_now : Z; rd_outside : lib_state L -> lib_state L; rd_poll : Z; rd_read : bool;
}.
Arguments mk_round {L}. Arguments rd_now {L}. Arguments rd_outside {L}. Arguments rd_poll {L}. Arguments rd_read {L}.

(** The process: the library of lib/tas, sockets, epolls and their sockets by
    address, the descriptors, [errno], the time and the rounds to come. A call that
    is still waiting when they end has run out of fuel. *)
Record sock_state (L : Type) := mk_ss {
  ss_lib : lib_state L; ss_socks : gmap Z socket; ss_eps : gmap Z epoll; ss_ess : gmap Z epoll_socket;
  ss_fhs : gmap Z filehandle; ss_errno : Z; ss_now : Z; ss_rounds : list (round L);
}.
Arguments mk_ss {L}. Arguments ss_lib {L}. Arguments ss_socks {L}. Arguments ss_eps {L}. Arguments ss_ess {L}.
Arguments ss_fhs {L}. Arguments ss_errno {L}. Arguments ss_now {L}. Arguments ss_rounds {L}.

Section State.
Context {L : Type}.
Abbreviation state := (sock_state L).
Implicit Types (s : state) (k : socket) (e : epoll).

Definition set_lib s (v : lib_state L) : state :=
  mk_ss v (ss_socks s) (ss_eps s) (ss_ess s) (ss_fhs s) (ss_errno s) (ss_now s) (ss_rounds s).
Definition set_socks s (v : gmap Z socket) : state :=
  mk_ss (ss_lib s) v (ss_eps s) (ss_ess s) (ss_fhs s) (ss_errno s) (ss_now s) (ss_rounds s).
Definition set_eps s (v : gmap Z epoll) : state :=
  mk_ss (ss_lib s) (ss_socks s) v (ss_ess s) (ss_fhs s) (ss_errno s) (ss_now s) (ss_rounds s).
Definition set_ess s (v : gmap Z epoll_socket) : state :=
  mk_ss (ss_lib s) (ss_socks s) (ss_eps s) v (ss_fhs s) (ss_errno s) (ss_now s) (ss_rounds s).
Definition set_fhs s (v : gmap Z filehandle) : state :=
  mk_ss (ss_lib s) (ss_socks s) (ss_eps s) (ss_ess s) v (ss_errno s) (ss_now s) (ss_rounds s).
Definition set_errno s (v : Z) : state :=
  mk_ss (ss_lib s) (ss_socks s) (ss_eps s) (ss_ess s) (ss_fhs s) v (ss_now s) (ss_rounds s).
Definition set_now s (v : Z) : state :=
  mk_ss (ss_lib s) (ss_socks s) (ss_eps s) (ss_ess s) (ss_fhs s) (ss_errno s) v (ss_rounds s).
Definition set_rounds s (v : list (round L)) : state :=
  mk_ss (ss_lib s) (ss_socks s) (ss_eps s) (ss_ess s) (ss_fhs s) (ss_errno s) (ss_now s) v.

Definition sock_at s (p : Z) : outcome socket :=
  match ss_socks s !! p with Some k => Ok k | None => Stop OutOfBounds end.
Definition epoll_at s (p : Z) : outcome epoll :=
  match ss_eps s !! p with Some e => Ok e | None => Stop OutOfBounds end.
Definition es_at s (p : Z) : outcome epoll_socket :=
  match ss_ess s !! p with Some e => Ok e | None => Stop OutOfBounds end.
Definition put_sock s (p : Z) k : state := set_socks s (<[p := k]> (ss_socks s)).
Definition put_epoll s (p : Z) e : state := set_eps s (<[p := e]> (ss_eps s)).
Definition put_es s (p : Z) (v : epoll_socket) : state := set_ess s (<[p := v]> (ss_ess s)).

(** A change of the connection in a socket. *)
Definition with_conn k (c : socket_conn) : socket := k <| so_conn := c |>.
Definition upd_conn s (p : Z) (f : socket_conn -> socket_conn) : outcome state :=
  k ← sock_at s p; mret (put_sock s p (with_conn k (f (so_conn k)))).

(** ** Locks: taking one that is held spins forever *)
Definition with_so_lock k (v : bool) : socket := k <| so_lock := v |>.
Definition with_e_lock e (v : bool) : epoll := e <| e_lock := v |>.
Definition socket_lock s (p : Z) : outcome state :=
  k ← sock_at s p; if so_lock k then Stop OutOfFuel else mret (put_sock s p (with_so_lock k true)).
Definition socket_unlock s (p : Z) : outcome state := k ← sock_at s p; mret (put_sock s p (with_so_lock k false)).
Definition epoll_lock s (p : Z) : outcome state :=
  e ← epoll_at s p; if e_lock e then Stop OutOfFuel else mret (put_epoll s p (with_e_lock e true)).
Definition epoll_unlock s (p : Z) : outcome state := e ← epoll_at s p; mret (put_epoll s p (with_e_lock e false)).

(** [free] of a socket, with the connection in it. *)
Definition free_socket s (p : Z) : state :=
  set_lib (set_socks s (delete p (ss_socks s))) (set_fconns (ss_lib s) (delete p (lb_conns (ss_lib s)))).

(** A call that fails: its result and [errno]. *)
Definition fail s (e : Z) : Z * state := (-1, set_errno s e).

(** ** Descriptors (manage_fd.c) *)

Definition MAXSOCK : Z := 1048576.

(** [fhs[fd]]; the code does not compare [fd] with 0. *)
Definition fh_at s (fd : Z) : outcome (option filehandle) :=
  if fd <? 0 then Stop OutOfBounds else mret (ss_fhs s !! fd).

(** [mem] is what [calloc] returns, [efd] what [eventfd] returns. The socket is
    locked. *)
Definition flextcp_fd_salloc s (mem : option Z) (efd : Z) : outcome (Z * state) :=
  match mem with
  | None => mret (fail s ENOMEM)
  | Some p =>
      if efd <? 0 then mret (-1, s)
      else if efd >=? MAXSOCK then mret (fail s EMFILE)
      else
        let k := socket_zero <| so_type := SOCK_SOCKET |> in
        let k := k <| so_refcnt := 1 |> in
        let s := put_sock s p (with_so_lock k true) in
        mret (efd, set_fhs s (<[efd := FH_SOCKET p]> (ss_fhs s)))
  end.

(** The socket, locked; [None] is the result -1. *)
Definition flextcp_fd_slookup s (fd : Z) : outcome (option Z * state) :=
  if fd >=? MAXSOCK then mret (None, set_errno s EBADF)
  else
    h ← fh_at s fd;
    match h with
    | Some (FH_SOCKET p) => s ← socket_lock s p; mret (Some p, s)
    | _ => mret (None, set_errno s EBADF)
    end.

Definition flextcp_fd_ealloc s (mem : option Z) (fd : Z) : outcome (Z * state) :=
  if fd >=? MAXSOCK then mret (fail s EMFILE)
  else
    h ← fh_at s fd;
    _ ← c_assert (match h with None => true | Some _ => false end);
    match mem with
    | None => mret (fail s ENOMEM)
    | Some p =>
        let e := epoll_zero <| e_refcnt := 1 |> in
        let s := put_epoll s p (with_e_lock e true) in
        mret (fd, set_fhs s (<[fd := FH_EPOLL p]> (ss_fhs s)))
    end.

Definition flextcp_fd_elookup s (fd : Z) : outcome (option Z * state) :=
  if fd >=? MAXSOCK then mret (None, set_errno s EBADF)
  else
    h ← fh_at s fd;
    match h with
    | Some (FH_EPOLL p) => s ← epoll_lock s p; mret (Some p, s)
    | _ => mret (None, set_errno s EBADF)
    end.

Definition flextcp_fd_srelease s (p : Z) : outcome state := socket_unlock s p.
Definition flextcp_fd_erelease s (p : Z) : outcome state := epoll_unlock s p.

Definition with_so_refcnt k (v : Z) : socket := k <| so_refcnt := v |>.
Definition with_e_refcnt e (v : Z) : epoll := e <| e_refcnt := v |>.

Definition flextcp_fd_close s (fd : Z) : outcome state :=
  h ← fh_at s fd;
  s ← match h with
      | None => Stop AssertFailed
      | Some (FH_SOCKET p) => k ← sock_at s p; mret (put_sock s p (with_so_refcnt k (so_refcnt k - 1)))
      | Some (FH_EPOLL p) => e ← epoll_at s p; mret (put_epoll s p (with_e_refcnt e (e_refcnt e - 1)))
      end;
  mret (set_fhs s (delete fd (ss_fhs s))).

End State.

(** A failing call with [s] locked: unlock and return. *)
Definition out_fail {L} (s : sock_state L) (p e : Z) : outcome (Z * sock_state L) :=
  s ← flextcp_fd_srelease (set_errno s e) p; mret (-1, s).
Definition out {L} (s : sock_state L) (p ret : Z) : outcome (Z * sock_state L) :=
  s ← flextcp_fd_srelease s p; mret (ret, s).
