(* ===== verification/SockReady.v ===== *)
(** * The socket library: which sockets are ready (lib/sockets/epoll.c)

    Every epoll has a list of sockets without events and a list of sockets with
    events, doubly linked, and every socket a list of the epolls it is on. Here are
    the operations on these lists; [tas_epoll_ctl] and [tas_epoll_wait] are in
    SockPoll. *)
From S2P Require Import Prelude RdmaQueue Packets LibTas LibPoll SockState.

#[local] Open Scope Z_scope.

Section Ready.
Context {L : Type}.
Abbreviation state := (sock_state L).
Implicit Types (s : state) (p : Z).

Definition upd_es s p (f : epoll_socket -> epoll_socket) : outcome state := e ← es_at s p; mret (put_es s p (f e)).
Definition upd_epoll s p (f : epoll -> epoll) : outcome state := e ← epoll_at s p; mret (put_epoll s p (f e)).
Definition upd_sock s p (f : socket -> socket) : outcome state := k ← sock_at s p; mret (put_sock s p (f k)).

Definition set_ep_next (v : option Z) (e : epoll_socket) : epoll_socket := e <| ep_next := v |>.
Definition set_ep_prev (v : option Z) (e : epoll_socket) : epoll_socket := e <| ep_prev := v |>.
Definition set_so_next (v : option Z) (e : epoll_socket) : epoll_socket := e <| so_next := v |>.
Definition set_so_prev (v : option Z) (e : epoll_socket) : epoll_socket := e <| so_prev := v |>.
Definition set_active (v : bool) (e : epoll_socket) : epoll_socket := e <| es_active := v |>.
Definition set_mask (v : Z) (e : epoll_socket) : epoll_socket := e <| es_mask := v |>.
Definition set_inactive (v : option Z) (e : epoll) : epoll := e <| e_inactive := v |>.
Definition set_first (v : option Z) (e : epoll) : epoll := e <| e_active_first := v |>.
Definition set_last (v : option Z) (e : epoll) : epoll := e <| e_active_last := v |>.
Definition set_num_active (v : Z) (e : epoll) : epoll := e <| num_active := v |>.
Definition set_num_tas (v : Z) (e : epoll) : epoll := e <| num_tas := v |>.
Definition set_num_linux (v : Z) (e : epoll) : epoll := e <| num_linux := v |>.
Definition set_linux_next (v : bool) (e : epoll) : epoll := e <| linux_next := v |>.
Definition set_so_eps (v : option Z) (k : socket) : socket := k <| so_eps := v |>.
Definition set_ep_events (v : Z) (k : socket) : socket := k <| ep_events := v |>.

(** ** The lists of an epoll *)

Definition es_remove_inactive s p : outcome state :=
  e ← es_at s p;
  _ ← c_assert (negb (es_active e));
  s ← match ep_prev e with
      | Some q => upd_es s q (set_ep_next (ep_next e))
      | None => upd_epoll s (es_ep e) (set_inactive (ep_next e))
      end;
  match ep_next e with
  | Some q => upd_es s q (set_ep_prev (ep_prev e))
  | None => mret s
  end.

Definition es_add_inactive s p : outcome state :=
  e ← es_at s p;
  s ← upd_es s p (set_ep_prev None);
  ep ← epoll_at s (es_ep e);
  s ← match e_inactive ep with
      | None => upd_es s p (set_ep_next None)
      | Some q =>
          s ← upd_es s p (set_ep_next (Some q));
          upd_es s q (set_ep_prev (Some p))
      end;
  upd_epoll s (es_ep e) (set_inactive (Some p)).

Definition es_remove_active s p : outcome state :=
  e ← es_at s p;
  _ ← c_assert (es_active e);
  ep ← epoll_at s (es_ep e);
  _ ← c_assert (num_active ep >? 0);
  s ← match ep_prev e with
      | Some q => upd_es s q (set_ep_next (ep_next e))
      | None => upd_epoll s (es_ep e) (set_first (ep_next e))
      end;
  s ← match ep_next e with
      | Some q => upd_es s q (set_ep_prev (ep_prev e))
      | None => upd_epoll s (es_ep e) (set_last (ep_prev e))
      end;
  upd_epoll s (es_ep e) (fun ep => set_num_active (u32 (num_active ep - 1)) ep).

Definition es_add_active s p : outcome state :=
  e ← es_at s p;
  ep ← epoll_at s (es_ep e);
  s ← match e_active_last ep with
      | None =>
          s ← upd_es s p (set_ep_prev None);
          s ← upd_es s p (set_ep_next None);
          s ← upd_epoll s (es_ep e) (set_first (Some p));
          upd_epoll s (es_ep e) (set_last (Some p))
      | Some q =>
          s ← upd_es s p (set_ep_next None);
          s ← upd_es s p (set_ep_prev (Some q));
          s ← upd_es s q (set_ep_next (Some p));
          upd_epoll s (es_ep e) (set_last (Some p))
      end;
  upd_epoll s (es_ep e) (fun ep => set_num_active (u32 (num_active ep + 1)) ep).

Definition es_activate s p : outcome state :=
  e ← es_at s p;
  if es_active e then mret s
  else
    s ← es_remove_inactive s p;
    s ← upd_es s p (set_active true);
    es_add_active s p.

Definition es_deactivate s p : outcome state :=
  e ← es_at s p;
  if negb (es_active e) then mret s
  else
    s ← es_remove_active s p;
    s ← upd_es s p (set_active false);
    es_add_inactive s p.

Definition es_active_pushback s p : outcome state :=
  e ← es_at s p;
  _ ← c_assert (es_active e);
  s ← es_remove_active s p;
  es_add_active s p.

Definition es_remove_ep s p : outcome state :=
  e ← es_at s p;
  if es_active e then es_remove_active s p else es_remove_inactive s p.

(** ** The list of a socket *)

Definition es_remove_sock s p : outcome state :=
  e ← es_at s p;
  s ← match so_prev e with
      | None => upd_sock s (es_s e) (set_so_eps (so_next e))
      | Some q => upd_es s q (set_so_next (so_next e))
      end;
  match so_next e with
  | Some q => upd_es s q (set_so_prev (so_prev e))
  | None => mret s
  end.

Definition free_es s p : state := set_ess s (delete p (ss_ess s)).
Definition free_epoll s p : state := set_eps s (delete p (ss_eps s)).

(** ** Events of a socket *)

Definition flextcp_epoll_sockinit s (k : Z) : outcome state :=
  upd_sock s k (fun k => set_so_eps None (set_ep_events 0 k)).

(** The epolls of a socket, from [o] on, get to know of new events. *)
Fixpoint epoll_set_loop (fuel : nat) s (o : option Z) (newevs : Z) : outcome state :=
  match o with
  | None => mret s
  | Some p =>
      match fuel with
      | O => Stop OutOfFuel
      | S fuel =>
          e ← es_at s p;
          s ← (if has_any newevs (es_mask e) then es_activate s p else mret s);
          e ← es_at s p;
          epoll_set_loop fuel s (so_next e) newevs
      end
  end.

Definition flextcp_epoll_set s (k evts : Z) : outcome state :=
  so ← sock_at s k;
  let newevs := Z.land (u32 (Z.lnot (ep_events so))) evts in
  if newevs =? 0 then mret s
  else
    let s := put_sock s k (set_ep_events (Z.lor (ep_events so) evts) so) in
    epoll_set_loop (S (size (ss_ess s))) s (so_eps so) newevs.

Definition flextcp_epoll_clear s (k evts : Z) : outcome state :=
  upd_sock s k (fun so => set_ep_events (Z.land (ep_events so) (Z.lnot evts)) so).

Definition remove_es s p : outcome state :=
  s ← es_remove_sock s p;
  s ← es_remove_ep s p;
  mret (free_es s p).

Fixpoint sockclose_loop (fuel : nat) s (k : Z) : outcome state :=
  so ← sock_at s k;
  match so_eps so with
  | None => mret s
  | Some p => match fuel with O => Stop OutOfFuel | S fuel => s ← remove_es s p; sockclose_loop fuel s k end
  end.
Definition flextcp_epoll_sockclose s (k : Z) : outcome state := sockclose_loop (S (size (ss_ess s))) s k.

(** Both loops of [flextcp_epoll_destroy]: over the active list, then the other. *)
Fixpoint destroy_loop (fuel : nat) s (ep : Z) (head : epoll -> option Z) : outcome state :=
  e ← epoll_at s ep;
  match head e with
  | None => mret s
  | Some p => match fuel with O => Stop OutOfFuel | S fuel => s ← remove_es s p; destroy_loop fuel s ep head end
  end.
Definition flextcp_epoll_destroy s (ep : Z) : outcome state :=
  e ← epoll_at s ep;
  _ ← c_assert (e_refcnt e =? 0);
  s ← destroy_loop (S (size (ss_ess s))) s ep e_active_first;
  s ← destroy_loop (S (size (ss_ess s))) s ep e_inactive;
  mret (free_epoll s ep).

End Ready.
