(* ===== verification/SockCtx.v ===== *)
(** * The socket library: events (lib/sockets/context.c)

    The events that polling the context gives change the sockets they are about. *)
From S2P Require Import Prelude RdmaQueue Packets LibTas LibPoll SockState SockReady.

#[local] Open Scope Z_scope.

Section Conn.
Implicit Types (c : socket_conn).
Definition with_status c (v : conn_status) : socket_conn := c <| sc_status := v |>.
Definition with_flags c (v : Z) : socket_conn := c <| sc_flags := v |>.
Definition with_listener c (v : option Z) : socket_conn := c <| sc_listener := v |>.
Definition with_sc_ctx c (v : Z) : socket_conn := c <| sc_ctx := v |>.
Definition with_move c (v : Z) : socket_conn := c <| move_status := v |>.
Definition with_piece_1 c (buf len : Z) : socket_conn := let c := c <| rx_buf_1 := buf |> in c <| rx_len_1 := len |>.
Definition with_piece_2 c (buf len : Z) : socket_conn := let c := c <| rx_buf_2 := buf |> in c <| rx_len_2 := len |>.

(** Where the received bytes of a connection are: the part of [ev_conn_received]
    that keeps track of them. *)
Definition add_received c (buf len : Z) : outcome socket_conn :=
  if rx_len_1 c =? 0 then mret (with_piece_2 (with_piece_1 c buf len) (rx_buf_2 c) 0)
  else if (rx_len_2 c =? 0) && (buf =? u64 (rx_buf_1 c + rx_len_1 c)) then
    mret (with_piece_1 c (rx_buf_1 c) (u64 (rx_len_1 c + len)))
  else if buf =? u64 (rx_buf_2 c + rx_len_2 c) then
    mret (with_piece_2 c (rx_buf_2 c) (u64 (rx_len_2 c + len)))
  else if negb (rx_len_2 c =? 0) then Stop Aborted
  else mret (with_piece_2 c buf len).
End Conn.

Definition with_listen (k : socket) (l : socket_listen) : socket := k <| so_listen := l |>.
Definition with_sl_status (l : socket_listen) (v : listen_status) : socket_listen := l <| sl_status := v |>.

Definition is_type (k : socket) (t : filehandle_type) : bool := bool_decide (so_type k = t).
Definition is_status (k : socket) (st : conn_status) : bool := bool_decide (sc_status (so_conn k) = st).

Section Events.
Context {L : Type} `{RdmaLink L}.
(** As in LibPoll: [rdmafd], where the shared memory is mapped, and [tas_info]. *)
Context (remote : option rdma_env) (flexnic_mem poll_cycle_tas poll_cycle_app : Z).
Abbreviation state := (sock_state L).
Implicit Types (s : state) (p : Z).

(** A failure is only printed. *)
Definition flextcp_sockclose_finish s p : outcome state :=
  '(_, l) ← flextcp_connection_close poll_cycle_tas (ss_now s) (ss_lib s) p;
  mret (set_lib s l).

Definition ev_listen_open s (status p : Z) : outcome state :=
  s ← socket_lock s p;
  k ← sock_at s p;
  _ ← c_assert (is_type k SOCK_LISTENER);
  _ ← c_assert (bool_decide (sl_status (so_listen k) = SOL_OPENING));
  let st := if status =? 0 then SOL_OPEN else SOL_FAILED in
  socket_unlock (put_sock s p (with_listen k (with_sl_status (so_listen k) st))) p.

Definition ev_listen_newconn s p : outcome state :=
  s ← socket_lock s p;
  k ← sock_at s p;
  _ ← c_assert (is_type k SOCK_LISTENER);
  s ← flextcp_epoll_set s p EPOLLIN;
  socket_unlock s p.

(** What both [ev_listen_accept] and [ev_conn_open] do with the result. *)
Definition conn_outcome s (status p : Z) : outcome state :=
  if status =? 0 then
    s ← upd_conn s p (fun c => with_status c SOC_CONNECTED);
    flextcp_epoll_set s p EPOLLOUT
  else
    s ← upd_conn s p (fun c => with_status c SOC_FAILED);
    flextcp_epoll_set s p EPOLLERR.

Definition ev_listen_accept s (status p : Z) : outcome state :=
  s ← socket_lock s p;
  k ← sock_at s p;
  _ ← c_assert (is_type k SOCK_CONNECTION);
  _ ← c_assert (is_status k SOC_CONNECTING);
  match sc_listener (so_conn k) with
  | None => Stop AssertFailed
  | Some sl =>
      s ← flextcp_epoll_set s sl EPOLLIN;
      s ← conn_outcome s status p;
      socket_unlock s p
  end.

Definition ev_conn_open s (status p : Z) : outcome state :=
  s ← socket_lock s p;
  k ← sock_at s p;
  _ ← c_assert (is_type k SOCK_CONNECTION);
  _ ← c_assert (is_status k SOC_CONNECTING);
  s ← conn_outcome s status p;
  socket_unlock s p.

Definition ev_conn_received s (buf len p : Z) : outcome state :=
  s ← socket_lock s p;
  k ← sock_at s p;
  if is_status k SOC_CLOSED then socket_unlock s p
  else
    _ ← c_assert (is_type k SOCK_CONNECTION);
    _ ← c_assert (is_status k SOC_CONNECTED);
    c ← add_received (so_conn k) buf len;
    s ← flextcp_epoll_set (put_sock s p (with_conn k c)) p EPOLLIN;
    socket_unlock s p.

Definition ev_conn_sendbuf s p : outcome state :=
  s ← socket_lock s p;
  k ← sock_at s p;
  _ ← c_assert (is_type k SOCK_CONNECTION);
  _ ← c_assert (is_status k SOC_CONNECTED);
  s ← flextcp_epoll_set s p EPOLLOUT;
  socket_unlock s p.

Definition ev_conn_moved s (status p : Z) : outcome state :=
  s ← socket_lock s p;
  k ← sock_at s p;
  _ ← c_assert (is_type k SOCK_CONNECTION);
  _ ← c_assert (is_status k SOC_CONNECTED);
  s ← upd_conn s p (fun c => with_move c status);
  socket_unlock s p.

(** The end of both directions of a socket that the application has closed. *)
Definition finish_if_both s p (flag : Z) : outcome state :=
  k ← sock_at s p;
  if is_status k SOC_CLOSED && has_any (sc_flags (so_conn k)) flag then flextcp_sockclose_finish s p else mret s.

Definition ev_conn_rxclosed s p : outcome state :=
  s ← socket_lock s p;
  k ← sock_at s p;
  _ ← c_assert (is_type k SOCK_CONNECTION);
  _ ← c_assert (is_status k SOC_CONNECTED || is_status k SOC_CLOSED);
  s ← upd_conn s p (fun c => with_flags c (Z.lor (sc_flags c) CSTF_RXCLOSED));
  s ← flextcp_epoll_set s p (Z.lor EPOLLIN EPOLLRDHUP);
  s ← finish_if_both s p CSTF_TXCLOSED_ACK;
  socket_unlock s p.

Definition ev_conn_txclosed s p : outcome state :=
  s ← socket_lock s p;
  k ← sock_at s p;
  _ ← c_assert (is_type k SOCK_CONNECTION);
  _ ← c_assert (is_status k SOC_CONNECTED || is_status k SOC_CLOSED);
  s ← upd_conn s p (fun c => with_flags c (Z.lor (sc_flags c) CSTF_TXCLOSED_ACK));
  s ← finish_if_both s p CSTF_RXCLOSED;
  socket_unlock s p.

Definition ev_conn_closed s p : outcome state :=
  s ← socket_lock s p;
  k ← sock_at s p;
  _ ← c_assert (is_type k SOCK_CONNECTION);
  _ ← c_assert (is_status k SOC_CLOSED);
  mret (free_socket s p).

Definition handle_event s (ev : flextcp_event) : outcome state :=
  match ev with
  | EvListenOpen status l => ev_listen_open s status l
  | EvListenNewconn _ _ l => ev_listen_newconn s l
  | EvListenAccept status c => ev_listen_accept s status c
  | EvConnOpen status c => ev_conn_open s status c
  | EvConnReceived buf len c => ev_conn_received s buf len c
  | EvConnSendbuf c => ev_conn_sendbuf s c
  | EvConnMoved status c => ev_conn_moved s status c
  | EvConnRxclosed c => ev_conn_rxclosed s c
  | EvConnTxclosed c => ev_conn_txclosed s c
  | EvConnClosed _ c => ev_conn_closed s c
  end.

Fixpoint handle_events s (evs : list flextcp_event) : outcome state :=
  match evs with [] => mret s | ev :: evs => s ← handle_event s ev; handle_events s evs end.

Definition flextcp_sockctx_poll s : outcome (Z * state) :=
  match ss_rounds s with
  | [] => Stop OutOfFuel
  | r :: rs =>
      let s := set_now (set_rounds s rs) (rd_now r) in
      '(evs, l) ← flextcp_context_poll remote flexnic_mem poll_cycle_tas (ss_now s) (rd_outside r (ss_lib s)) 16;
      s ← handle_events (set_lib s l) evs;
      mret (Z.of_nat (length evs), s)
  end.

(** [fuel] bounds the number of rounds; there is at least one. *)
Fixpoint poll_n_loop (fuel : nat) s (n nevents : Z) : outcome (Z * state) :=
  match fuel with
  | O => Stop OutOfFuel
  | S fuel =>
      '(num, s) ← flextcp_sockctx_poll s;
      let n := if n >=? 16 then n - 16 else 0 in
      if n >? 0 then poll_n_loop fuel s n (i32 (nevents + num)) else mret (i32 (nevents + num), s)
  end.
Definition flextcp_sockctx_poll_n s (n : Z) : outcome (Z * state) := poll_n_loop (S (Z.to_nat n)) s n 0.

(** [flextcp_context_wait(ctx, -1)], before the next poll. *)
Definition ctx_wait s : outcome state :=
  match ss_rounds s with
  | [] => Stop OutOfFuel
  | r :: _ =>
      '(_, x) ← flextcp_context_wait poll_cycle_app (ss_now s) (lb_ctx (ss_lib s)) (rd_poll r) (rd_read r);
      mret (set_lib s (set_fctx (ss_lib s) x))
  end.

(** The body of the loops that wait for a socket: without the lock, wait (but not
    the first time) and poll. *)
Definition wait_round s p (block : bool) : outcome state :=
  s ← socket_unlock s p;
  s ← (if block then ctx_wait s else mret s);
  '(_, s) ← flextcp_sockctx_poll s;
  socket_lock s p.

End Events.
