(* ===== verification/SockCtl.v ===== *)
(** * The socket library: control (lib/sockets/control.c)

    Creation and closing of sockets, connecting, listening and accepting, options,
    names, and the move of a connection to the context of the calling thread; also
    [internal_dup3] of lib/sockets/manage_fd.c, which closes sockets. *)
From S2P Require Import Prelude RdmaQueue Packets LibTas LibPoll SockState SockReady SockCtx.

#[local] Open Scope Z_scope.

(** ** Constants of the C library *)
Definition AF_INET : Z := 2.
Definition SOCK_STREAM : Z := 1.
Definition SOCK_NONBLOCK : Z := 2048.
Definition SOCK_CLOEXEC : Z := 524288.
Definition SHUT_WR : Z := 1.
Definition F_GETFD : Z := 1.
Definition F_SETFD : Z := 2.
Definition F_GETFL : Z := 3.
Definition F_SETFL : Z := 4.
Definition O_ACCMODE : Z := 3.
Definition O_NONBLOCK : Z := 2048.
Definition FD_CLOEXEC : Z := 1.
Definition IPPROTO_TCP : Z := 6.
Definition TCP_NODELAY : Z := 1.
Definition TCP_KEEPIDLE : Z := 4.
Definition TCP_KEEPINTVL : Z := 5.
Definition TCP_KEEPCNT : Z := 6.
Definition SOL_SOCKET : Z := 1.
Definition SO_REUSEADDR : Z := 2.
Definition SO_ERROR : Z := 4.
Definition SO_SNDBUF : Z := 7.
Definition SO_RCVBUF : Z := 8.
Definition SO_KEEPALIVE : Z := 9.
Definition SO_PRIORITY : Z := 12.
Definition SO_LINGER : Z := 13.
Definition SO_REUSEPORT : Z := 15.
Definition INT_MIN : Z := -2147483648.
(** [sizeof(struct sockaddr_in)] and [sizeof(int)] in the LP64 ABI. *)
Definition SIZEOF_SOCKADDR_IN : Z := 16.
Definition SIZEOF_INT : Z := 4.

Definition with_so_type (k : socket) (v : filehandle_type) : socket := k <| so_type := v |>.
Definition with_so_flags (k : socket) (v : Z) : socket := k <| so_flags := v |>.
Definition with_so_addr (k : socket) (v : sockaddr_in) : socket := k <| so_addr := v |>.
Definition with_sl_pending (l : socket_listen) (v : list socket_pending) : socket_listen := l <| sl_pending := v |>.
Definition flag_if (b : bool) (m : Z) : Z := if b then m else 0.
(** Without some bits. *)
Definition clear_bits (x m : Z) : Z := Z.land x (Z.lnot m).

Section Control.
Context {L : Type} `{RdmaLink L}.
Context (remote : option rdma_env) (flexnic_mem tcp_rxbuf_len tcp_txbuf_len poll_cycle_tas poll_cycle_app : Z).
(** The context of the calling thread: [flextcp_sockctx_get]. *)
Context (ctx : Z).
Abbreviation state := (sock_state L).
Abbreviation wait_round := (wait_round remote flexnic_mem poll_cycle_tas poll_cycle_app).
Implicit Types (s : state) (p fd : Z).

(** A loop that waits while [w] holds of the socket, one round at least. *)
Fixpoint wait_loop (fuel : nat) s p (block : bool) (w : socket -> bool) : outcome state :=
  match fuel with
  | O => Stop OutOfFuel
  | S fuel =>
      s ← wait_round s p block;
      k ← sock_at s p;
      if w k then wait_loop fuel s p true w else mret s
  end.
Definition wait_while s p (w : socket -> bool) : outcome state := wait_loop (S (length (ss_rounds s))) s p false w.

(** [mem] and [efd] are as in [flextcp_fd_salloc]. *)
Definition tas_socket s (domain type : Z) (mem : option Z) (efd : Z) : outcome (Z * state) :=
  let nonblock := has_all type SOCK_NONBLOCK in
  let cloexec := has_all type SOCK_CLOEXEC in
  let type := clear_bits type (Z.lor SOCK_NONBLOCK SOCK_CLOEXEC) in
  if negb (domain =? AF_INET) || negb (type =? SOCK_STREAM) then mret (fail s EINVAL)
  else
    '(fd, s) ← flextcp_fd_salloc s mem efd;
    match mem with
    | Some p =>
        if fd <? 0 then mret (-1, s)
        else
          s ← upd_sock s p (fun k => with_so_flags (with_so_type k SOCK_SOCKET) 0);
          s ← flextcp_epoll_sockinit s p;
          s ← upd_sock s p (fun k => with_so_flags k (Z.lor (flag_if nonblock SOF_NONBLOCK) (flag_if cloexec SOF_CLOEXEC)));
          s ← flextcp_fd_srelease s p;
          mret (fd, s)
    | None => mret (-1, s)
    end.

(** ** Closing *)

Definition conn_close s p : outcome state :=
  s ← upd_conn s p (fun c => with_status c SOC_CLOSED);
  k ← sock_at s p;
  let fl := sc_flags (so_conn k) in
  s ← (if has_any fl CSTF_TXCLOSED_ACK && has_any fl CSTF_RXCLOSED then flextcp_sockclose_finish poll_cycle_tas s p
       else if negb (has_any fl CSTF_TXCLOSED) then
         '(rv, l) ← flextcp_connection_tx_close (ss_lib s) p;
         if negb (rv =? 0) then Stop Aborted
         else upd_conn (set_lib s l) p (fun c => with_flags c (Z.lor (sc_flags c) CSTF_TXCLOSED))
       else mret s);
  socket_unlock s p.

(** A listener is leaked, with its lock held. *)
Definition tas_sock_close s p : outcome (Z * state) :=
  k ← sock_at s p;
  _ ← c_assert (so_refcnt k =? 0);
  s ← flextcp_epoll_sockclose s p;
  s ← (if is_type k SOCK_CONNECTION then conn_close s p
       else if is_type k SOCK_SOCKET then mret (free_socket s p)
       else mret s);
  mret (0, s).

Definition tas_close s fd : outcome (Z * state) :=
  '(o, s) ← flextcp_fd_slookup s fd;
  match o with
  | Some p =>
      s ← flextcp_fd_close s fd;
      k ← sock_at s p;
      if negb (so_refcnt k =? 0) then out s p 0
      else '(_, s) ← tas_sock_close s p; mret (0, s)
  | None =>
      '(o, s) ← flextcp_fd_elookup s fd;
      match o with
      | Some p =>
          s ← flextcp_fd_close s fd;
          e ← epoll_at s p;
          if negb (e_refcnt e =? 0) then s ← flextcp_fd_erelease s p; mret (0, s)
          else s ← flextcp_epoll_destroy s p; mret (0, s)
      | None => mret (fail s EBADF)
      end
  end.

(** ** The move to this thread's context *)

Definition tas_sock_move s p : outcome (Z * state) :=
  k ← sock_at s p;
  if negb (is_type k SOCK_CONNECTION) || negb (is_status k SOC_CONNECTED) then mret (fail s ENOTCONN)
  else if sc_ctx (so_conn k) =? ctx then mret (0, s)
  else
    s ← upd_conn s p (fun c => with_move c INT_MIN);
    '(rv, l) ← flextcp_connection_move poll_cycle_tas (ss_now s) (ss_lib s) p;
    let s := set_lib s l in
    if negb (rv =? 0) then mret (fail s EINVAL)
    else
      s ← wait_while s p (fun k => move_status (so_conn k) =? INT_MIN);
      k ← sock_at s p;
      let ret := move_status (so_conn k) in
      s ← (if ret =? 0 then upd_conn s p (fun c => with_sc_ctx c ctx) else mret s);
      mret (ret, s).

Definition tas_move_conn s fd : outcome (Z * state) :=
  '(o, s) ← flextcp_fd_slookup s fd;
  match o with
  | None => mret (fail s EBADF)
  | Some p => '(ret, s) ← tas_sock_move s p; out s p ret
  end.

(** ** Names *)

Definition tas_shutdown s fd (how : Z) : outcome (Z * state) :=
  '(o, s) ← flextcp_fd_slookup s fd;
  match o with
  | None => mret (fail s EBADF)
  | Some p =>
      '(_, s) ← tas_sock_move s p;
      k ← sock_at s p;
      if negb (is_type k SOCK_CONNECTION) then out_fail s p ENOTSOCK
      else if negb (is_status k SOC_CONNECTED) then out_fail s p ENOTCONN
      else if negb (how =? SHUT_WR) then out_fail s p EINVAL
      else if has_all (sc_flags (so_conn k)) CSTF_TXCLOSED then out s p 0
      else
        '(rv, l) ← flextcp_connection_tx_close (ss_lib s) p;
        let s := set_lib s l in
        if negb (rv =? 0) then out_fail s p ENOBUFS
        else
          s ← upd_conn s p (fun c => with_flags c (Z.lor (sc_flags c) CSTF_TXCLOSED));
          out s p 0
  end.

Definition tas_bind s fd (addr : sockaddr_in) (family addrlen : Z) : outcome (Z * state) :=
  '(o, s) ← flextcp_fd_slookup s fd;
  match o with
  | None => mret (fail s EBADF)
  | Some p =>
      if negb (addrlen =? SIZEOF_SOCKADDR_IN) || negb (family =? AF_INET) then out_fail s p EINVAL
      else
        s ← upd_sock s p (fun k => with_so_flags (with_so_addr k addr) (Z.lor (so_flags k) SOF_BOUND));
        out s p 0
  end.

(** The name, and how many of its bytes are copied; in host order. *)
Definition tas_getsockname s fd (addrlen : Z) : outcome (Z * option (sockaddr_in * Z) * state) :=
  '(o, s) ← flextcp_fd_slookup s fd;
  match o with
  | None => mret (-1, None, set_errno s EBADF)
  | Some p =>
      '(_, s) ← tas_sock_move s p;
      k ← sock_at s p;
      let len := MIN addrlen SIZEOF_SOCKADDR_IN in
      if has_all (so_flags k) SOF_BOUND then
        '(ret, s) ← out s p 0; mret (ret, Some (so_addr k, len), s)
      else if is_type k SOCK_CONNECTION && is_status k SOC_CONNECTED then
        c ← fc_at (ss_lib s) p;
        '(ret, s) ← out s p 0;
        mret (ret, Some (mk_sin (fc_local_ip c) (fc_local_port c), len), s)
      else '(ret, s) ← out_fail s p ENOTCONN; mret (ret, None, s)
  end.

Definition tas_getpeername s fd (addrlen : Z) : outcome (Z * option (sockaddr_in * Z) * state) :=
  '(o, s) ← flextcp_fd_slookup s fd;
  match o with
  | None => mret (-1, None, set_errno s EBADF)
  | Some p =>
      '(_, s) ← tas_sock_move s p;
      k ← sock_at s p;
      if negb (is_type k SOCK_CONNECTION) || negb (is_status k SOC_CONNECTED) then
        '(ret, s) ← out_fail s p ENOTCONN; mret (ret, None, s)
      else
        c ← fc_at (ss_lib s) p;
        '(ret, s) ← out s p 0;
        mret (ret, Some (mk_sin (fc_remote_ip c) (fc_remote_port c), MIN addrlen SIZEOF_SOCKADDR_IN), s)
  end.

End Control.
