(* ===== verification/SockOpen.v ===== *)
(** * The socket library: opening connections, options, duplicates

    The rest of lib/sockets/control.c ([tas_connect], [tas_listen], [tas_accept4],
    options and flags) and the duplication of descriptors of manage_fd.c. *)
From S2P Require Import Prelude RdmaQueue Packets LibTas LibPoll SockState SockReady SockCtx SockCtl.

#[local] Open Scope Z_scope.

Section Open.
Context {L : Type} `{RdmaLink L}.
Context (remote : option rdma_env) (flexnic_mem tcp_rxbuf_len tcp_txbuf_len poll_cycle_tas poll_cycle_app : Z).
Context (ctx : Z).
Abbreviation state := (sock_state L).
Abbreviation wait_while := (wait_while remote flexnic_mem poll_cycle_tas poll_cycle_app).
Abbreviation tas_sock_move := (tas_sock_move remote flexnic_mem poll_cycle_tas poll_cycle_app ctx).
Implicit Types (s : state) (p fd : Z).

(** ** Connecting and listening *)

Definition conn_connecting (c : socket_conn) (listener : option Z) : socket_conn :=
  let c := with_listener (with_status c SOC_CONNECTING) listener in
  with_sc_ctx (with_piece_2 (with_piece_1 c (rx_buf_1 c) 0) (rx_buf_2 c) 0) ctx.

(** [m] is the memory the library gets for the buffers. *)
Definition tas_connect s fd (addr : sockaddr_in) (family addrlen : Z) (m : option tcp_mem) : outcome (Z * state) :=
  '(o, s) ← flextcp_fd_slookup s fd;
  match o with
  | None => mret (fail s EBADF)
  | Some p =>
      k ← sock_at s p;
      if is_type k SOCK_LISTENER || (is_type k SOCK_CONNECTION && is_status k SOC_CONNECTED) then out_fail s p EISCONN
      else if is_type k SOCK_CONNECTION && is_status k SOC_CONNECTING then out_fail s p EALREADY
      else if negb (addrlen =? SIZEOF_SOCKADDR_IN) || negb (family =? AF_INET) then out_fail s p EINVAL
      else
        '(rv, l) ← flextcp_connection_open remote tcp_rxbuf_len tcp_txbuf_len poll_cycle_tas (ss_now s) (ss_lib s) p
                     (sin_addr addr) (sin_port addr) m;
        let s := set_lib s l in
        if negb (rv =? 0) then out_fail s p ECONNREFUSED
        else
          _ ← c_assert (is_type k SOCK_CONNECTION || is_type k SOCK_SOCKET);
          s ← upd_sock s p (fun k => with_conn (with_so_type k SOCK_CONNECTION) (conn_connecting (so_conn k) None));
          if has_all (so_flags k) SOF_NONBLOCK then out_fail s p EINPROGRESS
          else
            s ← wait_while s p (fun k => is_status k SOC_CONNECTING);
            k ← sock_at s p;
            if is_status k SOC_FAILED then out_fail s p ECONNREFUSED else out s p 0
  end.

Definition with_l (l : socket_listen) (v : flextcp_listener) : socket_listen := l <| sl_l := v |>.
Definition with_backlog (l : socket_listen) (v : Z) : socket_listen := l <| sl_backlog := v |>.

Definition tas_listen s fd (backlog : Z) : outcome (Z * state) :=
  '(o, s) ← flextcp_fd_slookup s fd;
  match o with
  | None => mret (fail s EBADF)
  | Some p =>
      k ← sock_at s p;
      if negb (is_type k SOCK_SOCKET) then out_fail s p EOPNOTSUPP
      else if negb (has_all (so_flags k) SOF_BOUND) then out_fail s p EADDRINUSE
      else
        let flags := flag_if (has_all (so_flags k) SOF_REUSEPORT) FLEXTCP_LISTEN_REUSEPORT in
        let backlog := if backlog <? 8 then 8 else backlog in
        '(rv, lst, l) ← flextcp_listen_open poll_cycle_tas (ss_now s) (ss_lib s) p (sin_port (so_addr k)) backlog flags;
        let s := set_lib s l in
        s ← match lst with
            | Some v => upd_sock s p (fun k => with_listen k (with_l (so_listen k) v))
            | None => mret s
            end;
        if negb (rv =? 0) then out_fail s p ECONNREFUSED
        else
          s ← upd_sock s p (fun k => with_listen (with_so_type k SOCK_LISTENER)
                (with_sl_pending (with_sl_status (with_backlog (so_listen k) backlog) SOL_OPENING) []));
          s ← wait_while s p (fun k => bool_decide (sl_status (so_listen k) = SOL_OPENING));
          k ← sock_at s p;
          if bool_decide (sl_status (so_listen k) = SOL_FAILED) then out_fail s p ENOBUFS else out s p 0
  end.

(** ** Accepting *)

Fixpoint find_pending (l : list socket_pending) : option socket_pending :=
  match l with [] => None | sp :: l => if sp_ctx sp =? ctx then Some sp else find_pending l end.

(** [None] is the failed assertion that the entry is in the list. *)
Fixpoint remove_pending (l : list socket_pending) (ns : Z) : option (list socket_pending) :=
  match l with
  | [] => None
  | sp :: l => if sp_s sp =? ns then Some l else l' ← remove_pending l ns; Some (sp :: l')
  end.

(** What the calls for memory and descriptors give [tas_accept4]: for the pending
    entry, for the socket, for its descriptor and for its buffers. *)
Record accept_mem := mk_amem { am_pending : bool; am_socket : option Z; am_efd : Z; am_tcp : option tcp_mem }.

(** The request for a connection: the new socket and its descriptor, or the result
    of a failure. On failure the listener [p] is freed, in place of the new socket. *)
Definition accept_request s p (nonblock cloexec : bool) (m : accept_mem) : outcome ((Z + (Z * Z)) * state) :=
  if negb (am_pending m) then mret (inl (-1), set_errno s ENOMEM)
  else
    '(newfd, s) ← flextcp_fd_salloc s (am_socket m) (am_efd m);
    match am_socket m with
    | None => mret (inl (-1), s)
    | Some ns =>
        if newfd <? 0 then mret (inl (-1), s)
        else
          let fl := Z.lor (flag_if nonblock SOF_NONBLOCK) (flag_if cloexec SOF_CLOEXEC) in
          s ← upd_sock s ns (fun k =>
                with_conn (with_so_flags (with_so_type k SOCK_CONNECTION) fl) (conn_connecting (so_conn k) (Some p)));
          k ← sock_at s p;
          '(rv, l) ← flextcp_listen_accept remote tcp_rxbuf_len tcp_txbuf_len poll_cycle_tas (ss_now s) (ss_lib s)
                       p (sl_l (so_listen k)) ns (am_tcp m);
          let s := set_lib s l in
          if negb (rv =? 0) then
            s ← flextcp_fd_close (set_errno s ENOBUFS) newfd;
            mret (inl (-1), free_socket s p)
          else
            s ← upd_sock s p (fun k => with_listen k
                  (with_sl_pending (so_listen k) (sl_pending (so_listen k) ++ [mk_pending ns ctx newfd])));
            mret (inr (ns, newfd), s)
    end.

Fixpoint accept_loop (fuel : nat) s p ns (block : bool) : outcome state :=
  match fuel with
  | O => Stop OutOfFuel
  | S fuel =>
      s ← socket_unlock s ns;
      s ← wait_round remote flexnic_mem poll_cycle_tas poll_cycle_app s p block;
      s ← socket_lock s ns;
      k ← sock_at s ns;
      if is_status k SOC_CONNECTING then accept_loop fuel s p ns true else mret s
  end.

(** From the check whether the connection is still pending: [None] when it is and
    the listener does not block. *)
Definition accept_finish s p ns : outcome (option unit * state) :=
  k ← sock_at s ns;
  lk ← sock_at s p;
  '(ready, s) ← (if is_status k SOC_CONNECTING then
                   s ← flextcp_epoll_clear s p EPOLLIN;
                   if has_all (so_flags lk) SOF_NONBLOCK then
                     s ← flextcp_fd_srelease (set_errno s EAGAIN) ns; mret (None, s)
                   else s ← accept_loop (S (length (ss_rounds s))) s p ns false; mret (Some tt, s)
                 else mret (Some tt, s));
  match ready with
  | None => mret (None, s)
  | Some _ =>
      k ← sock_at s ns;
      _ ← c_assert (is_status k SOC_CONNECTED);
      lk ← sock_at s p;
      match remove_pending (sl_pending (so_listen lk)) ns with
      | None => Stop AssertFailed
      | Some l =>
          s ← flextcp_fd_srelease (put_sock s p (with_listen lk (with_sl_pending (so_listen lk) l))) ns;
          mret (Some tt, s)
      end
  end.

(** [addrlen] is given when the name of the peer is wanted; the name is a result. *)
Definition tas_accept4 s fd (addrlen : option Z) (flags : Z) (m : accept_mem)
  : outcome (Z * option (sockaddr_in * Z) * state) :=
  '(o, s) ← flextcp_fd_slookup s fd;
  match o with
  | None => mret (-1, None, set_errno s EBADF)
  | Some p =>
      let nonblock := has_all flags SOCK_NONBLOCK in
      let cloexec := has_all flags SOCK_CLOEXEC in
      k ← sock_at s p;
      if negb (clear_bits flags (Z.lor SOCK_NONBLOCK SOCK_CLOEXEC) =? 0) then
        '(r, s) ← out_fail s p EINVAL; mret (r, None, s)
      else if negb (is_type k SOCK_LISTENER) then '(r, s) ← out_fail s p EOPNOTSUPP; mret (r, None, s)
      else
        '(r, s) ← match find_pending (sl_pending (so_listen k)) with
                  | Some sp => mret (inr (sp_s sp, sp_fd sp), s)
                  | None => accept_request s p nonblock cloexec m
                  end;
        match r with
        | inl r => '(r, s) ← out s p r; mret (r, None, s)
        | inr (ns, newfd) =>
            '(done, s) ← accept_finish s p ns;
            match done with
            | None => '(r, s) ← out s p (-1); mret (r, None, s)
            | Some _ =>
                '(name, s) ← match addrlen with
                             | None => mret (None, s)
                             | Some n =>
                                 '(r, name, s) ← tas_getpeername remote flexnic_mem poll_cycle_tas poll_cycle_app ctx s newfd n;
                                 _ ← c_assert (r =? 0);
                                 mret (name, s)
                             end;
                '(r, s) ← out s p newfd;
                mret (r, name, s)
            end
        end
  end.
Definition tas_accept s fd (addrlen : option Z) (m : accept_mem) := tas_accept4 s fd addrlen 0 m.

End Open.

(** ** Flags and options *)
Section Options.
Context {L : Type} `{RdmaLink L}.
Context (remote : option rdma_env) (flexnic_mem poll_cycle_tas poll_cycle_app ctx : Z).
Abbreviation state := (sock_state L).
Abbreviation tas_sock_move := (tas_sock_move remote flexnic_mem poll_cycle_tas poll_cycle_app ctx).
Implicit Types (s : state) (p fd : Z).

Definition set_flag_if (b : bool) (k : socket) (m : Z) : socket :=
  with_so_flags k (if b then Z.lor (so_flags k) m else clear_bits (so_flags k) m).

(** [arg] is the variable argument. *)
Definition tas_fcntl s fd (cmd arg : Z) : outcome (Z * state) :=
  '(o, s) ← flextcp_fd_slookup s fd;
  match o with
  | None => mret (fail s EBADF)
  | Some p =>
      '(_, s) ← tas_sock_move s p;
      k ← sock_at s p;
      if cmd =? F_GETFL then out s p (flag_if (has_all (so_flags k) SOF_NONBLOCK) O_NONBLOCK)
      else if cmd =? F_SETFL then
        if negb (clear_bits arg (Z.lor O_NONBLOCK O_ACCMODE) =? 0) then out_fail s p EINVAL
        else out (put_sock s p (set_flag_if (has_any arg O_NONBLOCK) k SOF_NONBLOCK)) p 0
      else if cmd =? F_GETFD then out s p (flag_if (has_all (so_flags k) SOF_CLOEXEC) FD_CLOEXEC)
      else if cmd =? F_SETFD then
        if negb (clear_bits arg FD_CLOEXEC =? 0) then out_fail s p EINVAL
        else out (put_sock s p (set_flag_if (has_all arg FD_CLOEXEC) k SOF_CLOEXEC)) p 0
      else out_fail s p EINVAL
  end.

(** The error of a connection that [SO_ERROR] asks for; one that is connecting is
    polled. *)
Definition conn_error s p : outcome (Z * state) :=
  k ← sock_at s p;
  s ← (if is_status k SOC_CONNECTING then
         s ← socket_unlock s p;
         '(_, s) ← flextcp_sockctx_poll remote flexnic_mem poll_cycle_tas s;
         socket_lock s p
       else mret s);
  k ← sock_at s p;
  mret (if is_status k SOC_CONNECTED then 0 else if is_status k SOC_CONNECTING then EINPROGRESS else ECONNREFUSED, s).

(** The value of an option, [None] when there is no such option. *)
Definition sockopt_value s p (level optname : Z) : outcome (option Z * state) :=
  k ← sock_at s p;
  if (level =? IPPROTO_TCP) && (optname =? TCP_NODELAY) then mret (Some 1, s)
  else if (level =? SOL_SOCKET) && ((optname =? SO_RCVBUF) || (optname =? SO_SNDBUF)) then mret (Some 1048576, s)
  else if (level =? SOL_SOCKET) && (optname =? SO_ERROR) then
    if is_type k SOCK_LISTENER then
      mret (Some (if bool_decide (sl_status (so_listen k) = SOL_OPEN) then 0 else EINPROGRESS), s)
    else if is_type k SOCK_CONNECTION then '(e, s) ← conn_error s p; mret (Some e, s)
    else mret (Some EOPNOTSUPP, s)
  else if (level =? SOL_SOCKET) && (optname =? SO_REUSEPORT) then
    mret (Some (c_bool (has_any (so_flags k) SOF_REUSEPORT)), s)
  else if (level =? SOL_SOCKET) && (optname =? SO_REUSEADDR) then mret (Some 1, s)
  else if (level =? SOL_SOCKET) && (optname =? SO_KEEPALIVE) then mret (Some 0, s)
  else if (level =? IPPROTO_TCP) && ((optname =? TCP_KEEPIDLE) || (optname =? TCP_KEEPINTVL) || (optname =? TCP_KEEPCNT))
  then mret (Some 0, s)
  else mret (None, s).

(** The value, how many of its bytes are copied, and what is stored as the length. *)
Definition tas_getsockopt s fd (level optname optlen : Z) : outcome (Z * option (Z * Z * Z) * state) :=
  '(o, s) ← flextcp_fd_slookup s fd;
  match o with
  | None => mret (-1, None, set_errno s EBADF)
  | Some p =>
      '(_, s) ← tas_sock_move s p;
      '(v, s) ← sockopt_value s p level optname;
      match v with
      | None => '(r, s) ← out_fail s p ENOPROTOOPT; mret (r, None, s)
      | Some res => '(r, s) ← out s p 0; mret (r, Some (res, MIN optlen SIZEOF_INT, u32 res), s)
      end
  end.

(** [value] is the [int] at [optval]. *)
Definition tas_setsockopt s fd (level optname value optlen : Z) : outcome (Z * state) :=
  '(o, s) ← flextcp_fd_slookup s fd;
  match o with
  | None => mret (fail s EBADF)
  | Some p =>
      '(_, s) ← tas_sock_move s p;
      k ← sock_at s p;
      if (level =? IPPROTO_TCP) && (optname =? TCP_NODELAY) then
        if negb (optlen =? SIZEOF_INT) then out_fail s p EINVAL else out s p 0
      else if (level =? SOL_SOCKET) && ((optname =? SO_RCVBUF) || (optname =? SO_SNDBUF)) then
        if optlen <? SIZEOF_INT then out_fail s p EINVAL
        else if value <=? 1048576 then out s p 0 else out_fail s p ENOMEM
      else if (level =? SOL_SOCKET) && (optname =? SO_REUSEPORT) then
        if negb (optlen =? SIZEOF_INT) then out_fail s p EINVAL
        else out (put_sock s p (set_flag_if (negb (value =? 0)) k SOF_REUSEPORT)) p 0
      else if (level =? SOL_SOCKET) && ((optname =? SO_REUSEADDR) || (optname =? SO_KEEPALIVE) || (optname =? SO_PRIORITY))
      then out s p 0
      else if (level =? IPPROTO_TCP) && ((optname =? TCP_KEEPIDLE) || (optname =? TCP_KEEPINTVL) || (optname =? TCP_KEEPCNT))
      then out s p 0
      else out_fail s p ENOPROTOOPT
  end.

(** ** Duplicates (manage_fd.c) *)

(** What was open at the new descriptor is closed. The value of the local [s] is
    a result: the code uses it once more. *)
Definition dup_close s (newfd : Z) : outcome (option Z * state) :=
  h ← fh_at s newfd;
  match h with
  | Some (FH_SOCKET p) =>
      s ← socket_lock s p;
      s ← upd_sock s p (fun k => with_so_refcnt k (so_refcnt k - 1));
      k ← sock_at s p;
      s ← (if so_refcnt k =? 0 then '(_, s) ← tas_sock_close poll_cycle_tas s p; mret s else socket_unlock s p);
      mret (Some p, set_fhs s (delete newfd (ss_fhs s)))
  | Some (FH_EPOLL p) =>
      s ← epoll_lock s p;
      s ← upd_epoll s p (fun e => with_e_refcnt e (e_refcnt e - 1));
      e ← epoll_at s p;
      s ← (if e_refcnt e =? 0 then flextcp_epoll_destroy s p else epoll_unlock s p);
      mret (None, set_fhs s (delete newfd (ss_fhs s)))
  | None => mret (None, s)
  end.

(** For an epoll [s] is released, the socket that was at [newfd], and not the epoll;
    without one the pointer is indeterminate. *)
Definition internal_dup3 s (oldfd newfd : Z) : outcome (Z * state) :=
  if newfd >=? MAXSOCK then Stop Aborted
  else
    '(old, s) ← dup_close s newfd;
    '(o, s) ← flextcp_fd_slookup s oldfd;
    match o with
    | Some p =>
        let s := set_fhs s (<[newfd := FH_SOCKET p]> (ss_fhs s)) in
        s ← upd_sock s p (fun k => with_so_refcnt k (so_refcnt k + 1));
        s ← flextcp_fd_srelease s p;
        mret (newfd, s)
    | None =>
        '(o, s) ← flextcp_fd_elookup s oldfd;
        match o with
        | None => mret (newfd, s)
        | Some p =>
            let s := set_fhs s (<[newfd := FH_EPOLL p]> (ss_fhs s)) in
            s ← upd_epoll s p (fun e => with_e_refcnt e (e_refcnt e + 1));
            s ← match old with Some q => flextcp_fd_srelease s q | None => Stop OutOfBounds end;
            mret (newfd, s)
        end
    end.

(** [libc_fd] is what the C library's function returns. *)
Definition tas_dup s (oldfd libc_fd : Z) : outcome (Z * state) :=
  if libc_fd <? 0 then mret (libc_fd, s) else internal_dup3 s oldfd libc_fd.
Definition tas_dup2 s (oldfd libc_fd : Z) : outcome (Z * state) :=
  if libc_fd <? 0 then mret (libc_fd, s)
  else if libc_fd =? oldfd then mret (libc_fd, s)
  else internal_dup3 s oldfd libc_fd.
Definition tas_dup3 s (oldfd libc_fd : Z) : outcome (Z * state) :=
  if libc_fd <? 0 then mret (libc_fd, s) else internal_dup3 s oldfd libc_fd.

End Options.
