(* ===== verification/SockPoll.v ===== *)
(** * The socket library: epoll (lib/sockets/epoll.c)

    Creating an epoll, adding and removing its descriptors and waiting for their
    events. *)
From S2P Require Import Prelude RdmaQueue Packets LibTas LibPoll SockState SockReady SockCtx SockCtl.

#[local] Open Scope Z_scope.

Definition EPOLL_CTL_ADD : Z := 1.
Definition EPOLL_CTL_DEL : Z := 2.
Definition EPOLL_CTL_MOD : Z := 3.

(** [struct epoll_event] *)
Record epoll_event := mk_ev { ev_events : Z; ev_data : Z }.

(** What one iteration of [tas_epoll_wait] gets from the system: the result of
    [epoll_wait] of the C library with its events, the time before and after the
    attempt to block, and the results of [poll] and of reading the event descriptor. *)
Record ep_env := mk_eenv {
  ee_linux : Z; ee_events : list epoll_event; ee_ms : Z; ee_ms_end : Z; ee_poll : Z; ee_read : bool;
}.

Section Epoll.
Context {L : Type} `{RdmaLink L}.
Context (remote : option rdma_env) (flexnic_mem poll_cycle_tas poll_cycle_app ctx : Z).
Abbreviation state := (sock_state L).
Implicit Types (s : state) (p fd ep : Z).

(** [libc_fd] is the descriptor of the C library, [mem] what [calloc] returns. *)
Definition tas_epoll_create1 s (libc_fd : Z) (mem : option Z) : outcome (Z * state) :=
  if libc_fd =? -1 then mret (-1, s)
  else
    '(rv, s) ← flextcp_fd_ealloc s mem libc_fd;
    match mem with
    | Some ep =>
        if rv <? 0 then mret (-1, s)
        else
          s ← upd_epoll s ep (fun e => set_inactive None (set_first None (set_last None
                (set_num_linux 0 (set_num_tas 0 (set_linux_next false e))))));
          s ← flextcp_fd_erelease s ep;
          mret (libc_fd, s)
    | None => mret (-1, s)
    end.

Definition tas_epoll_create s (size libc_fd : Z) (mem : option Z) : outcome (Z * state) :=
  if size <=? 0 then mret (fail s EINVAL) else tas_epoll_create1 s libc_fd mem.

(** ** Descriptors of an epoll *)

(** A descriptor that is not a socket is left to Linux, and counted. *)
Definition epoll_ctl_linux s ep (op linux_ret : Z) : outcome (Z * state) :=
  if negb (linux_ret =? 0) then mret (linux_ret, s)
  else
    e ← epoll_at s ep;
    s ← (if op =? EPOLL_CTL_ADD then mret (put_epoll s ep (set_num_linux (u32 (num_linux e + 1)) e))
         else if op =? EPOLL_CTL_DEL then
           _ ← c_assert (num_linux e >? 0);
           mret (put_epoll s ep (set_num_linux (u32 (num_linux e - 1)) e))
         else mret s);
    mret (0, s).

(** The entry of a socket for an epoll. *)
Fixpoint find_es (fuel : nat) s (o : option Z) ep : outcome (option Z) :=
  match o with
  | None => mret None
  | Some p =>
      match fuel with
      | O => Stop OutOfFuel
      | S fuel => e ← es_at s p; if es_ep e =? ep then mret (Some p) else find_es fuel s (so_next e) ep
      end
  end.

Definition EPOLL_SUPPORTED : Z := Z.lor (Z.lor (Z.lor (Z.lor EPOLLIN EPOLLOUT) EPOLLERR) EPOLLHUP) EPOLLRDHUP.

Definition activate_if_ready s p es : outcome state :=
  k ← sock_at s p;
  e ← es_at s es;
  if has_any (ep_events k) (es_mask e) then es_activate s es else mret s.

(** [num_tas] is counted before anything is checked. *)
Definition epoll_add s p ep (es : option Z) (ev : epoll_event) (mem : option Z) : outcome (Z * state) :=
  s ← upd_epoll s ep (fun e => set_num_tas (u32 (num_tas e + 1)) e);
  match es, mem with
  | Some _, _ => mret (fail s EEXIST)
  | None, None => mret (fail s ENOMEM)
  | None, Some n =>
      k ← sock_at s p;
      let s := put_es s n (mk_es ep p None None None (so_eps k) (ev_data ev) (Z.lor (ev_events ev) EPOLLERR) false) in
      s ← match so_eps k with Some q => upd_es s q (set_so_prev (Some n)) | None => mret s end;
      s ← upd_sock s p (set_so_eps (Some n));
      s ← es_add_inactive s n;
      s ← activate_if_ready s p n;
      mret (0, s)
  end.

Definition epoll_mod s p (es : option Z) (ev : epoll_event) : outcome (Z * state) :=
  match es with
  | None => mret (fail s ENOENT)
  | Some n =>
      s ← upd_es s n (set_mask (Z.lor (ev_events ev) EPOLLERR));
      s ← activate_if_ready s p n;
      mret (0, s)
  end.

Definition epoll_del s ep (es : option Z) : outcome (Z * state) :=
  s ← upd_epoll s ep (fun e => set_num_tas (u32 (num_tas e - 1)) e);
  match es with
  | None => mret (fail s ENOENT)
  | Some n => s ← remove_es s n; mret (0, s)
  end.

(** Edge triggering is cleared in the application's event, which is a result. *)
Definition without_et (op : Z) (ev : option epoll_event) : outcome (option epoll_event) :=
  if (op =? EPOLL_CTL_ADD) || (op =? EPOLL_CTL_MOD) then
    match ev with
    | None => Stop OutOfBounds
    | Some ev => mret (Some (mk_ev (Z.land (ev_events ev) (Z.lnot EPOLLET)) (ev_data ev)))
    end
  else mret ev.

Definition epoll_op s p ep (op : Z) (es : option Z) (ev : option epoll_event) (mem : option Z) : outcome (Z * state) :=
  match ev with
  | Some ev =>
      if ((op =? EPOLL_CTL_ADD) || (op =? EPOLL_CTL_MOD)) && negb (clear_bits (ev_events ev) EPOLL_SUPPORTED =? 0)
      then mret (fail s EINVAL)
      else if op =? EPOLL_CTL_ADD then epoll_add s p ep es ev mem
      else if op =? EPOLL_CTL_MOD then epoll_mod s p es ev
      else if op =? EPOLL_CTL_DEL then epoll_del s ep es
      else mret (fail s EINVAL)
  | None => if op =? EPOLL_CTL_DEL then epoll_del s ep es else mret (fail s EINVAL)
  end.

Definition tas_epoll_ctl s epfd (op fd : Z) (ev : option epoll_event) (linux_ret : Z) (mem : option Z)
  : outcome (Z * option epoll_event * state) :=
  '(o, s) ← flextcp_fd_elookup s epfd;
  match o with
  | None => mret (-1, ev, set_errno s EBADF)
  | Some ep =>
      '(o, s) ← flextcp_fd_slookup s fd;
      match o with
      | None =>
          '(ret, s) ← epoll_ctl_linux s ep op linux_ret;
          s ← flextcp_fd_erelease s ep;
          mret (ret, ev, s)
      | Some p =>
          k ← sock_at s p;
          es ← find_es (S (size (ss_ess s))) s (so_eps k) ep;
          ev ← without_et op ev;
          '(ret, s) ← epoll_op s p ep op es ev mem;
          s ← flextcp_fd_srelease s p;
          s ← flextcp_fd_erelease s ep;
          '(_, s) ← tas_move_conn remote flexnic_mem poll_cycle_tas poll_cycle_app ctx s fd;
          mret (ret, ev, s)
      end
  end.

(** ** Waiting *)

(** The loop over the active list: [i] turns are left. *)
Fixpoint ep_scan (i : nat) s ep (maxevents : Z) (evs : list epoll_event) : outcome (list epoll_event * state) :=
  match i with
  | O => mret (evs, s)
  | S i =>
      if negb (Z.of_nat (length evs) <? maxevents) then mret (evs, s)
      else
        e ← epoll_at s ep;
        match e_active_first e with
        | None => mret (evs, s)
        | Some es =>
            v ← es_at s es;
            s ← socket_lock s (es_s v);
            k ← sock_at s (es_s v);
            let events := Z.land (ep_events k) (es_mask v) in
            '(evs, s) ← (if negb (events =? 0) then
                           s ← es_active_pushback s es; mret (evs ++ [mk_ev events (es_data v)], s)
                         else s ← es_deactivate s es; mret (evs, s));
            s ← socket_unlock s (es_s v);
            ep_scan i s ep maxevents evs
        end
  end.

Definition ep_poll_tas s ep (maxevents : Z) : outcome (list epoll_event * state) :=
  s ← epoll_unlock s ep;
  '(_, s) ← flextcp_sockctx_poll_n remote flexnic_mem poll_cycle_tas s maxevents;
  s ← epoll_lock s ep;
  e ← epoll_at s ep;
  ep_scan (Z.to_nat (num_active e)) s ep maxevents [].

(** One try to get events, from both kinds of descriptors in turn. *)
Definition epoll_try s ep (maxevents : Z) (w : ep_env) : outcome (Z * list epoll_event * state) :=
  e ← epoll_at s ep;
  if num_linux e =? 0 then
    '(evs, s) ← ep_poll_tas s ep maxevents; mret (Z.of_nat (length evs), evs, s)
  else if linux_next e then
    s ← epoll_unlock s ep;
    s ← epoll_lock s ep;
    '(n, evs, s) ← (if (ee_linux w >=? 0) && (ee_linux w <? maxevents) then
                      '(evs, s) ← ep_poll_tas s ep (maxevents - ee_linux w);
                      mret (ee_linux w + Z.of_nat (length evs), ee_events w ++ evs, s)
                    else mret (ee_linux w, ee_events w, s));
    s ← upd_epoll s ep (set_linux_next false);
    mret (n, evs, s)
  else
    '(evs, s) ← ep_poll_tas s ep maxevents;
    let n := Z.of_nat (length evs) in
    '(n, evs, s) ← (if n <? maxevents then
                      s ← epoll_unlock s ep;
                      s ← epoll_lock s ep;
                      mret (if ee_linux w >=? 0 then (n + ee_linux w, evs ++ ee_events w, s) else (n, evs, s))
                    else mret (n, evs, s));
    s ← upd_epoll s ep (set_linux_next true);
    mret (n, evs, s).

(** Whether to sleep, when nothing was there. *)
Definition may_sleep s (timeout mtimeout cur_ms : Z) : bool * state :=
  if (timeout =? -1) || (cur_ms <? mtimeout) then
    let '(r, x) := flextcp_context_canwait poll_cycle_app (ss_now s) (lb_ctx (ss_lib s)) in
    (r =? 0, set_lib s (set_fctx (ss_lib s) x))
  else (false, s).

(** The loop, one element of [ws] for each iteration. *)
Fixpoint epoll_wait_loop s ep (maxevents timeout mtimeout : Z) (ws : list ep_env)
  : outcome (Z * list epoll_event * state) :=
  match ws with
  | [] => Stop OutOfFuel
  | w :: ws =>
      '(n, evs, s) ← epoll_try s ep maxevents w;
      let empty := (n =? 0) && negb (timeout =? 0) in
      let '(sleep, s) := if empty then may_sleep s timeout mtimeout (ee_ms w) else (false, s) in
      if sleep : bool then
        s ← epoll_unlock s ep;
        if ee_poll w <? 0 then mret (-1, evs, s)
        else
          x ← flextcp_context_waitclear (lb_ctx (ss_lib s)) (ee_read w);
          s ← epoll_lock (set_lib s (set_fctx (ss_lib s) x)) ep;
          epoll_wait_loop s ep maxevents timeout mtimeout ws
      else if empty && ((timeout =? -1) || (ee_ms_end w <? mtimeout)) then
        epoll_wait_loop s ep maxevents timeout mtimeout ws
      else s ← flextcp_fd_erelease s ep; mret (n, evs, s)
  end.

(** [ms] is the time at the beginning, [libc_wait] what the C library answers when
    the epoll has no sockets. *)
Definition tas_epoll_wait s epfd (maxevents timeout ms : Z) (libc_wait : Z * list epoll_event) (ws : list ep_env)
  : outcome (Z * list epoll_event * state) :=
  if maxevents <=? 0 then mret (-1, [], set_errno s EINVAL)
  else
    '(o, s) ← flextcp_fd_elookup s epfd;
    match o with
    | None => mret (-1, [], set_errno s EBADF)
    | Some ep =>
        e ← epoll_at s ep;
        if num_tas e =? 0 then
          s ← flextcp_fd_erelease s ep; mret (fst libc_wait, snd libc_wait, s)
        else
          let mtimeout := if timeout >? 0 then u64 (ms + timeout) else 0 in
          epoll_wait_loop s ep maxevents timeout mtimeout ws
    end.

End Epoll.
