(* ===== verification/SockXfer.v ===== *)
(** * The socket library: data (lib/sockets/transfer.c)

    Receiving copies from the receive queue of the connection, where the events said
    bytes are; sending copies to the send queue. *)
From S2P Require Import Prelude RdmaQueue Packets Util LibTas LibPoll LibData SockState SockReady SockCtx SockCtl.

#[local] Open Scope Z_scope.

(** [memcpy] from a receive queue. *)
Definition queue_bytes (q : rdma_queue) (addr len : Z) : outcome (list Z) :=
  if len =? 0 then mret [] else mem_read (buffer q) (addr - q_buf q 0) len.

(** The first piece is used up. *)
Definition next_piece (c : socket_conn) : socket_conn :=
  with_piece_2 (with_piece_1 c (rx_buf_2 c) (rx_len_2 c)) 0 0.

(** The copy to one buffer of [len] bytes, from both pieces if it has the space. *)
Definition copy_out (q : rdma_queue) (c : socket_conn) (len : Z) : outcome (list Z * socket_conn) :=
  '(d1, c) ← (if rx_len_1 c <=? len then
                d ← queue_bytes q (rx_buf_1 c) (rx_len_1 c); mret (d, next_piece c)
              else mret ([], c));
  let len_2 := MIN (rx_len_1 c) (len - Z.of_nat (length d1)) in
  d2 ← queue_bytes q (rx_buf_1 c) len_2;
  mret (d1 ++ d2, with_piece_1 c (u64 (rx_buf_1 c + len_2)) (rx_len_1 c - len_2)).

(** The same for the buffers of a vector: what goes to each. *)
Fixpoint copy_out_vec (q : rdma_queue) (c : socket_conn) (iov : list Z) : outcome (list (list Z) * socket_conn) :=
  match iov with
  | [] => mret ([], c)
  | len :: iov =>
      if rx_len_1 c >? 0 then
        '(d, c) ← copy_out q c len;
        '(ds, c) ← copy_out_vec q c iov;
        mret (d :: ds, c)
      else mret ([], c)
  end.

(** [memcpy] to the one or two pieces of the send queue, from a vector: the
    pieces, then the bytes still to copy and those already copied. *)
Fixpoint copy_in_vec (iov : list (list Z)) (p1 p2 : list Z) (len_1 len_2 len off : Z) : outcome (list Z * list Z) :=
  match iov with
  | [] => mret (p1, p2)
  | b :: iov =>
      if len >? 0 then
        let l := MIN len (Z.of_nat (length b)) in
        '(p1, p2) ← Circ.split_write b l p1 p2 len_1 len_2 off;
        copy_in_vec iov p1 p2 len_1 len_2 (len - l) (off + l)
      else mret (p1, p2)
  end.

Definition copy_in (q : rdma_queue) (dst_1 len_1 : Z) (dst_2 : option Z) (len_2 : Z) (iov : list (list Z)) (len : Z)
  : outcome rdma_queue :=
  p1 ← mem_read (buffer q) (dst_1 - q_buf q 0) len_1;
  p2 ← match dst_2 with Some d => mem_read (buffer q) (d - q_buf q 0) len_2 | None => mret [] end;
  '(p1, p2) ← copy_in_vec iov p1 p2 len_1 len_2 len 0;
  b ← mem_write (buffer q) (dst_1 - q_buf q 0) p1;
  b ← match dst_2 with Some d => mem_write b (d - q_buf q 0) p2 | None => mret b end;
  mret (q <| buffer := b |>).

Section Transfer.
Context {L : Type} `{RdmaLink L}.
Context (remote : option rdma_env) (flexnic_mem poll_cycle_tas poll_cycle_app ctx : Z).
Abbreviation state := (sock_state L).
Abbreviation wait_round := (wait_round remote flexnic_mem poll_cycle_tas poll_cycle_app).
Abbreviation tas_sock_move := (tas_sock_move remote flexnic_mem poll_cycle_tas poll_cycle_app ctx).
Implicit Types (s : state) (p fd : Z).

(** ** Receiving *)

Definition nothing_yet (k : socket) : bool :=
  (rx_len_1 (so_conn k) =? 0) && negb (has_any (sc_flags (so_conn k)) CSTF_RXCLOSED).

(** Wait for data or the end of the stream: whether there is some. *)
Fixpoint recv_wait (fuel : nat) s p (block : bool) : outcome (bool * state) :=
  k ← sock_at s p;
  if negb (nothing_yet k) then mret (true, s)
  else
    match fuel with
    | O => Stop OutOfFuel
    | S fuel =>
        s ← flextcp_epoll_clear s p EPOLLIN;
        s ← wait_round s p block;
        k ← sock_at s p;
        if has_all (so_flags k) SOF_NONBLOCK && nothing_yet k then mret (false, set_errno s EAGAIN)
        else recv_wait fuel s p true
    end.

(** The receive queue of the connection. *)
Definition rx_queue s p : outcome rdma_queue := c ← fc_at (ss_lib s) p; q_at (ss_lib s) (fc_rx c).

(** What follows the copy of [ret] bytes. *)
Definition recv_done s p (ret : Z) : outcome state :=
  if ret >? 0 then
    k ← sock_at s p;
    s ← (if nothing_yet k then flextcp_epoll_clear s p EPOLLIN else mret s);
    '(_, l) ← flextcp_connection_rx_done (ss_lib s) p ret;
    mret (set_lib s l)
  else mret s.

(** The common frame of both receive functions: [total] is the space there is and
    [copy] fills it. *)
Definition receive {A} s fd (total : Z) (copy : rdma_queue -> socket_conn -> outcome (A * Z * socket_conn)) (none : A)
  : outcome (Z * A * state) :=
  '(o, s) ← flextcp_fd_slookup s fd;
  match o with
  | None => mret (-1, none, set_errno s EBADF)
  | Some p =>
      '(_, s) ← tas_sock_move s p;
      k ← sock_at s p;
      if negb (is_type k SOCK_CONNECTION) || negb (is_status k SOC_CONNECTED) then
        '(r, s) ← out_fail s p ENOTCONN; mret (r, none, s)
      else if total =? 0 then '(r, s) ← out s p 0; mret (r, none, s)
      else
        '(some, s) ← recv_wait (S (length (ss_rounds s))) s p false;
        if negb some then '(r, s) ← out s p (-1); mret (r, none, s)
        else
          k ← sock_at s p;
          q ← rx_queue s p;
          '(d, ret, c) ← copy q (so_conn k);
          s ← recv_done (put_sock s p (with_conn k c)) p ret;
          '(r, s) ← out s p ret;
          mret (r, d, s)
  end.

Definition recv_simple s fd (len : Z) : outcome (Z * list Z * state) :=
  receive s fd len (fun q c => '(d, c) ← copy_out q c len; mret (d, Z.of_nat (length d), c)) [].

Definition sum_list (l : list Z) : Z := foldr Z.add 0 l.

(** [iov] are the lengths of the buffers. *)
Definition tas_recvmsg s fd (iov : list Z) : outcome (Z * list (list Z) * state) :=
  receive s fd (u64 (sum_list iov))
    (fun q c => '(ds, c) ← copy_out_vec q c iov; mret (ds, Z.of_nat (length (concat ds)), c)) [].

(** [tas_read], [tas_recv], [tas_recvfrom], [tas_pread] and [tas_readv]. *)
Definition tas_read s fd len := recv_simple s fd len.
Definition tas_recv s fd len := recv_simple s fd len.
Definition tas_recvfrom s fd len := recv_simple s fd len.
Definition tas_pread s fd len := recv_simple s fd len.
Definition tas_readv s fd iov := tas_recvmsg s fd iov.

(** ** Sending *)

(** 0 is yes, always. *)
Definition flextcp_connection_tx_possible (l : lib_state L) (conn : Z) : Z := 0.

(** An allocation; a negative result ends the process. *)
Definition tx_alloc s p (len : Z) : outcome (Z * Z * Z * option Z * state) :=
  '(r, b1, n1, b2, l) ← flextcp_connection_tx_alloc2 (ss_lib s) p len;
  if r <? 0 then Stop Aborted else mret (r, b1, n1, b2, set_lib s l).

(** Wait for space; [None] when the socket does not block. *)
Fixpoint tx_wait (fuel : nat) s p (len : Z) (block : bool) : outcome (option (Z * Z * Z * option Z) * state) :=
  match fuel with
  | O => Stop OutOfFuel
  | S fuel =>
      s ← wait_round s p block;
      '(r, b1, n1, b2, s) ← tx_alloc s p len;
      k ← sock_at s p;
      if negb (r =? 0) then mret (Some (r, b1, n1, b2), s)
      else if has_all (so_flags k) SOF_NONBLOCK then mret (None, set_errno s EAGAIN)
      else tx_wait fuel s p len true
  end.

Fixpoint tx_send_loop (fuel : nat) s p (n : Z) (block : bool) : outcome state :=
  '(rv, l) ← flextcp_connection_tx_send (ss_lib s) p n;
  let s := set_lib s l in
  if rv =? 0 then mret s
  else
    match fuel with
    | O => Stop OutOfFuel
    | S fuel => s ← wait_round s p block; tx_send_loop fuel s p n true
    end.

(** The new contents of the send queue. *)
Definition put_tx_queue s p (fill : rdma_queue -> outcome rdma_queue) : outcome state :=
  c ← fc_at (ss_lib s) p;
  q ← q_at (ss_lib s) (fc_tx c);
  q ← fill q;
  mret (set_lib s (LibTas.set_qs (ss_lib s) (<[fc_tx c := q]> (lb_qs (ss_lib s))))).

(** The common frame of both send functions: [total] bytes are to be sent, [copy]
    moves as many of them as there is space. *)
Definition transmit s fd (total : Z) (copy : rdma_queue -> Z * Z * Z * option Z -> outcome rdma_queue)
  : outcome (Z * state) :=
  '(o, s) ← flextcp_fd_slookup s fd;
  match o with
  | None => mret (fail s EBADF)
  | Some p =>
      '(_, s) ← tas_sock_move s p;
      k ← sock_at s p;
      if negb (is_type k SOCK_CONNECTION) || negb (is_status k SOC_CONNECTED)
         || has_all (sc_flags (so_conn k)) CSTF_TXCLOSED then out_fail s p ENOTCONN
      else if total =? 0 then out s p 0
      else if has_all (so_flags k) SOF_NONBLOCK && negb (flextcp_connection_tx_possible (ss_lib s) p =? 0) then
        out_fail s p EAGAIN
      else
        '(r, b1, n1, b2, s) ← tx_alloc s p total;
        '(space, s) ← (if r =? 0 then tx_wait (S (length (ss_rounds s))) s p total false
                       else mret (Some (r, b1, n1, b2), s));
        match space with
        | None => out s p (-1)
        | Some (r, b1, n1, b2) =>
            s ← put_tx_queue s p (fun q => copy q (r, b1, n1, b2));
            s ← tx_send_loop (S (length (ss_rounds s))) s p r false;
            out s p r
        end
  end.

Definition send_simple s fd (data : list Z) : outcome (Z * state) :=
  transmit s fd (Z.of_nat (length data)) (fun q '(r, b1, n1, b2) => app_fill q b1 n1 b2 (take (Z.to_nat r) data)).

Definition tas_sendmsg s fd (iov : list (list Z)) : outcome (Z * state) :=
  transmit s fd (u64 (sum_list ((fun b => Z.of_nat (length b)) <$> iov)))
    (fun q '(r, b1, n1, b2) => copy_in q b1 n1 b2 (r - n1) iov r).

(** [tas_write], [tas_send], [tas_sendto], [tas_pwrite] and [tas_writev]. *)
Definition tas_write s fd data := send_simple s fd data.
Definition tas_send s fd data := send_simple s fd data.
Definition tas_sendto s fd data := send_simple s fd data.
Definition tas_pwrite s fd data := send_simple s fd data.
Definition tas_writev s fd iov := tas_sendmsg s fd iov.

End Transfer.
