(* ===== verification/SockSelect.v ===== *)
(** * The socket library: poll and select (lib/sockets/poll.c)

    [tas_poll] asks for the events of sockets and of other descriptors; the latter
    are copied to a cache of the context, for [poll] of the C library. [tas_select]
    makes such a request from sets of descriptors. *)
From S2P Require Import Prelude RdmaQueue Packets LibTas LibPoll SockState SockReady SockCtx SockCtl.

#[local] Open Scope Z_scope.

(** The events of [poll] in the system's header. *)
Definition POLLIN : Z := 1.
Definition POLLPRI : Z := 2.
Definition POLLOUT : Z := 4.
Definition POLLERR : Z := 8.
Definition POLLHUP : Z := 16.
Definition POLLNVAL : Z := 32.
Definition POLLRDNORM : Z := 64.
Definition POLLRDBAND : Z := 128.
Definition POLLWRNORM : Z := 256.
Definition POLLWRBAND : Z := 512.
Definition POLLRDHUP : Z := 8192.
Definition EPOLLPRI : Z := 2.

Definition any_of (l : list Z) : Z := foldr Z.lor 0 l.

Definition SELECT_POLLIN_SET : Z := any_of [POLLRDNORM; POLLRDBAND; POLLIN; POLLHUP; POLLERR].
Definition SELECT_POLLOUT_SET : Z := any_of [POLLWRBAND; POLLWRNORM; POLLOUT; POLLERR].
Definition SELECT_POLLEX_SET : Z := POLLPRI.
Definition POLL_SUPPORTED : Z :=
  any_of [POLLIN; POLLPRI; POLLOUT; POLLRDHUP; POLLERR; POLLHUP; POLLRDNORM; POLLWRNORM; POLLNVAL; POLLRDBAND; POLLWRBAND].

(** [struct pollfd] *)
Record pollfd := mk_pfd { pf_fd : Z; pf_events : Z; pf_revents : Z }.
Definition with_revents (p : pollfd) (v : Z) : pollfd := mk_pfd (pf_fd p) (pf_events p) v.

(** What [struct sockets_context] adds to the context: the entries of the cache that
    were written, and the sizes of both caches. *)
Record poll_cache := mk_cache { pollfds_cache : list pollfd; pollfds_cache_size : Z; selectfds_cache_size : Z }.

Definition events_epoll2poll (e : Z) : Z :=
  let add (m v acc : Z) := if has_any e m then Z.lor acc v else acc in
  add EPOLLHUP POLLHUP (add EPOLLERR POLLERR (add EPOLLPRI POLLPRI (add EPOLLRDHUP POLLRDHUP
    (add EPOLLOUT (Z.lor POLLOUT POLLWRNORM) (add EPOLLIN (Z.lor POLLIN POLLRDNORM) 0))))).

(** ** The caches *)

(** Both caches double their size, from 16 entries, until [n] fit. *)
Fixpoint grow (fuel : nat) (cnt n : Z) : outcome Z :=
  if cnt <? n then match fuel with O => Stop OutOfFuel | S fuel => grow fuel (u64 (cnt * 2)) n end else mret cnt.

(** The new size; [None] when [realloc] fails, as [mem] says. *)
Definition cache_size (cnt n : Z) (mem : bool) : outcome (option Z) :=
  if cnt >=? n then mret (Some cnt)
  else c ← grow 64 (if cnt =? 0 then 16 else cnt) n; mret (if mem then Some c else None).

Definition pollfd_cache_alloc (c : poll_cache) (n : Z) (mem : bool) : outcome (option poll_cache) :=
  r ← cache_size (pollfds_cache_size c) n mem;
  mret (option_map (fun v => mk_cache (pollfds_cache c) v (selectfds_cache_size c)) r).
Definition selectfd_cache_alloc (c : poll_cache) (n : Z) (mem : bool) : outcome (option poll_cache) :=
  r ← cache_size (selectfds_cache_size c) n mem;
  mret (option_map (fun v => mk_cache (pollfds_cache c) (pollfds_cache_size c) v) r).

(** What one iteration of [tas_poll] gets from the system: the result of [poll] of the
    C library with the events of its entries, the time before and after, memory for
    the cache, and whether reading the event descriptor succeeds. *)
Record poll_env := mk_penv {
  pe_ret : Z; pe_revents : list Z; pe_ms : Z; pe_ms_end : Z; pe_mem : bool; pe_read : bool;
}.

Section Poll.
Context {L : Type} `{RdmaLink L}.
Context (remote : option rdma_env) (flexnic_mem poll_cycle_tas poll_cycle_app : Z).
(** [flextcp_context_waitfd] *)
Context (waitfd : Z).
Abbreviation state := (sock_state L).
Implicit Types (s : state) (fds : list pollfd) (c : poll_cache).

(** The copy of the descriptors that are no sockets; at most [room] of them. *)
Fixpoint copy_linux s fds (room : nat) : outcome (option (list pollfd) * state) :=
  match fds with
  | [] => mret (Some [], s)
  | p :: fds =>
      '(o, s) ← flextcp_fd_slookup s (pf_fd p);
      match o, room with
      | Some k, _ => s ← flextcp_fd_srelease s k; copy_linux s fds room
      | None, O => mret (None, s)
      | None, S room => '(l, s) ← copy_linux s fds room; mret (cons p <$> l, s)
      end
  end.

Definition pollfd_cache_prepare s c fds (num_linuxfds_confirm : Z) (mem : bool) : outcome (option poll_cache * state) :=
  o ← pollfd_cache_alloc c (u64 (num_linuxfds_confirm + 1)) mem;
  match o with
  | None => mret (None, s)
  | Some c =>
      '(l, s) ← copy_linux s fds (Z.to_nat num_linuxfds_confirm);
      match l with
      | None => mret (None, s)
      | Some l =>
          let entries := l ++ mk_pfd waitfd POLLIN 0 :: drop (S (length l)) (pollfds_cache c) in
          mret (Some (mk_cache entries (pollfds_cache_size c) (selectfds_cache_size c)), s)
      end
  end.

(** ** One round of [tas_poll] *)

Record fd_counts := mk_counts { nfds_linux : Z; nfds_tas : Z; active_fds : Z }.

(** The events of the sockets; [false] when unsupported ones are asked for. *)
Fixpoint scan_fds s fds (n : fd_counts) : outcome (bool * list pollfd * fd_counts * state) :=
  match fds with
  | [] => mret (true, [], n, s)
  | p :: fds =>
      '(o, s) ← flextcp_fd_slookup s (pf_fd p);
      match o with
      | None =>
          '(ok, l, n, s) ← scan_fds s fds (mk_counts (nfds_linux n + 1) (nfds_tas n) (active_fds n));
          mret (ok, with_revents p 0 :: l, n, s)
      | Some k =>
          so ← sock_at s k;
          let s_events := ep_events so in
          s ← flextcp_fd_srelease s k;
          if negb (clear_bits (pf_events p) POLL_SUPPORTED =? 0) then
            mret (false, p :: fds, n, set_errno s EINVAL)
          else
            let r := Z.land (pf_events p) (events_epoll2poll s_events) in
            let a := if negb (r =? 0) then active_fds n + 1 else active_fds n in
            '(ok, l, n, s) ← scan_fds s fds (mk_counts (nfds_linux n) (nfds_tas n + 1) a);
            mret (ok, with_revents p r :: l, n, s)
      end
  end.

(** How long the call may block. *)
Definition block_time (n : fd_counts) (mixed_events timeout mtimeout cur_ts : Z) : Z :=
  if (nfds_tas n >? 0) && (active_fds n =? 0) && (mixed_events =? 0) && negb (timeout =? 0) then
    if timeout =? -1 then -1 else if cur_ts <? mtimeout then i32 (mtimeout - cur_ts) else 0
  else 0.

(** [poll] of the C library writes the events of the first [n] entries. *)
Definition libc_revents (l : list pollfd) (n : Z) (revents : list Z) : list pollfd :=
  zip_with with_revents (take (Z.to_nat n) l) revents ++ drop (Z.to_nat n) l.

(** How a round ends: with a result, at the label [again], or at the condition of the
    loop; both with [mixed_events] and [first]. *)
Inductive poll_next := PReturn (ret : Z) | PAgain (mixed_events : Z) | PLoop (mixed_events : Z).

Definition canwait s : bool * state :=
  let '(r, x) := flextcp_context_canwait poll_cycle_app (ss_now s) (lb_ctx (ss_lib s)) in
  (r =? 0, set_lib s (set_fctx (ss_lib s) x)).

(** With descriptors of both kinds, when the cache is prepared. *)
Definition poll_mixed s c (num_linux block_ms : Z) (w : poll_env) : outcome (poll_next * poll_cache * state) :=
  let '(block, s) := if block_ms =? 0 then (false, s) else canwait s in
  let n := if block : bool then num_linux + 1 else num_linux in
  if pe_ret w <? 0 then mret (PReturn (-1), c, s)
  else
    let l := libc_revents (pollfds_cache c) n (pe_revents w) in
    let c := mk_cache l (pollfds_cache_size c) (selectfds_cache_size c) in
    if block then
      p ← match l !! Z.to_nat num_linux with Some p => mret p | None => Stop OutOfBounds end;
      if (pe_ret w >? 0) && negb (pf_revents p =? 0) then
        x ← flextcp_context_waitclear (lb_ctx (ss_lib s)) (pe_read w);
        mret (PAgain (pe_ret w - 1), c, set_lib s (set_fctx (ss_lib s) x))
      else mret (PLoop (pe_ret w), c, s)
    else mret (PLoop (pe_ret w), c, s).

(** [first] is whether the cache has to be prepared. *)
Definition poll_linux s c fds (n : fd_counts) (mixed_events block_ms : Z) (first : bool) (w : poll_env)
  : outcome (poll_next * bool * poll_cache * state) :=
  if (nfds_linux n >? 0) && (mixed_events =? 0) then
    '(o, s) ← (if first then pollfd_cache_prepare s c fds (nfds_linux n) (pe_mem w) else mret (Some c, s));
    match o with
    | None => mret (PReturn (-1), first, c, set_errno s ENOMEM)
    | Some c => '(r, c, s) ← poll_mixed s c (nfds_linux n) block_ms w; mret (r, false, c, s)
    end
  else if (nfds_tas n >? 0) && (nfds_linux n =? 0) && negb (block_ms =? 0) then
    s ← ctx_wait poll_cycle_app s; mret (PLoop mixed_events, first, c, s)
  else mret (PLoop mixed_events, first, c, s).

(** The events of the descriptors that are no sockets, from entry [j] of the cache. *)
Fixpoint copy_back s c fds (j : nat) : outcome (list pollfd * state) :=
  match fds with
  | [] => mret ([], s)
  | p :: fds =>
      '(o, s) ← flextcp_fd_slookup s (pf_fd p);
      match o with
      | Some k => s ← flextcp_fd_srelease s k; '(l, s) ← copy_back s c fds j; mret (p :: l, s)
      | None =>
          match pollfds_cache c !! j with
          | None => Stop OutOfBounds
          | Some q =>
              if negb (pf_fd p =? pf_fd q) then Stop Aborted
              else '(l, s) ← copy_back s c fds (S j); mret (with_revents p (pf_revents q) :: l, s)
          end
      end
  end.

Fixpoint poll_loop s c fds (timeout mtimeout mixed_events : Z) (first : bool) (ws : list poll_env)
  : outcome (Z * list pollfd * poll_cache * state) :=
  match ws with
  | [] => Stop OutOfFuel
  | w :: ws =>
      '(_, s) ← flextcp_sockctx_poll_n remote flexnic_mem poll_cycle_tas s (u32 (Z.of_nat (length fds)));
      '(ok, fds, n, s) ← scan_fds s fds (mk_counts 0 0 0);
      if negb ok then mret (-1, fds, c, s)
      else
        let block_ms := block_time n mixed_events timeout mtimeout (pe_ms w) in
        if (nfds_linux n >? 0) && (nfds_tas n =? 0) then
          mret (pe_ret w, libc_revents fds (Z.of_nat (length fds)) (pe_revents w), c, s)
        else
          '(r, first, c, s) ← poll_linux s c fds n mixed_events block_ms first w;
          match r with
          | PReturn ret => mret (ret, fds, c, s)
          | PAgain mixed_events => poll_loop s c fds timeout mtimeout mixed_events first ws
          | PLoop mixed_events =>
              if (active_fds n =? 0) && (mixed_events =? 0) && negb (timeout =? 0)
                 && ((timeout =? -1) || (pe_ms_end w <? mtimeout)) then
                poll_loop s c fds timeout mtimeout mixed_events first ws
              else
                '(fds, s) ← (if mixed_events >? 0 then copy_back s c fds 0 else mret (fds, s));
                mret (i32 (active_fds n + mixed_events), fds, c, s)
          end
  end.

(** [ms] is the time at the beginning. *)
Definition tas_poll s c fds (timeout ms : Z) (ws : list poll_env) : outcome (Z * list pollfd * poll_cache * state) :=
  let mtimeout := if negb (timeout =? 0) && negb (timeout =? -1) then u64 (ms + timeout) else 0 in
  poll_loop s c fds timeout mtimeout 0 true ws.

(** ** select *)

(** A set of descriptors, or NULL. *)
Definition fd_in (fd : Z) (o : option (gset Z)) : bool := match o with Some X => bool_decide (fd ∈ X) | None => false end.

Definition select_entry (rd wr ex : option (gset Z)) (fd : Z) : option pollfd :=
  let r := fd_in fd rd in
  let w := fd_in fd wr in
  let e := fd_in fd ex in
  if r || w || e then
    Some (mk_pfd fd (Z.lor (Z.lor (if r then SELECT_POLLIN_SET else 0) (if w then SELECT_POLLOUT_SET else 0))
                       (if e then SELECT_POLLEX_SET else 0)) 0)
  else None.

(** The set after the events in [m] of one entry. *)
Definition set_result (m : Z) (o : option (gset Z)) (p : pollfd) : option (gset Z) :=
  match o with
  | Some X => if bool_decide (pf_fd p ∈ X) then
                Some (if has_any (pf_revents p) m then {[pf_fd p]} ∪ X else X ∖ {[pf_fd p]})
              else o
  | None => o
  end.

(** A timeout is in seconds and microseconds; the results are the sets. *)
Definition tas_select s c (nfds : Z) (rd wr ex : option (gset Z)) (timeout : option (Z * Z)) (mem : bool) (ms : Z)
  (ws : list poll_env) : outcome (Z * (option (gset Z) * option (gset Z) * option (gset Z)) * poll_cache * state) :=
  o ← selectfd_cache_alloc c (u64 nfds) mem;
  match o with
  | None => mret (-1, (rd, wr, ex), c, set_errno s ENOMEM)
  | Some c =>
      let fds := omap (select_entry rd wr ex) (seqZ 0 nfds) in
      let t := match timeout with None => -1 | Some (sec, usec) => i32 (sec * 1000 + usec ÷ 1000) end in
      '(ret, fds, c, s) ← tas_poll s c fds t ms ws;
      if ret <? 0 then mret (ret, (rd, wr, ex), c, s)
      else
        mret (ret, (foldl (set_result SELECT_POLLIN_SET) rd fds, foldl (set_result SELECT_POLLOUT_SET) wr fds,
                    foldl (set_result SELECT_POLLEX_SET) ex fds), c, s)
  end.

End Poll.
