(* ===== verification/SockReadySpec.v ===== *)
(** * The lists of epolls and sockets

    The lists of SockReady are well formed after any operations, and a socket that
    has an event an epoll waits for is on the active list of the epoll. *)
From S2P Require Import Prelude RdmaQueue Packets LibTas LibPoll SockState SockReady.

#[local] Open Scope Z_scope.

(** ** Doubly linked lists *)

Definition oalter {A} (f : A -> A) (o : option Z) (h : gmap Z A) : gmap Z A :=
  match o with Some q => alter f q h | None => h end.

Lemma lookup_oalter {A} (f : A -> A) o (h : gmap Z A) q :
  oalter f o h !! q = (if decide (o = Some q) then f <$> h !! q else h !! q).
Proof.
  destruct o as [r|]; [|done]. unfold oalter. case_decide as Hd.
  - injection Hd as ->. apply lookup_alter_eq.
  - rewrite lookup_alter_ne; congruence.
Qed.

Lemma fmap_alter_same {A B} (g : A -> B) (f : A -> A) q (h : gmap Z A) :
  (forall a, g (f a) = g a) -> g <$> alter f q h = g <$> h.
Proof.
  intros E. apply map_eq. intros r. rewrite !lookup_fmap. destruct (decide (q = r)) as [->|].
  - rewrite lookup_alter_eq. destruct (h !! r); simpl; [by rewrite E|done].
  - by rewrite lookup_alter_ne.
Qed.

Lemma fmap_oalter_same {A B} (g : A -> B) (f : A -> A) o (h : gmap Z A) :
  (forall a, g (f a) = g a) -> g <$> oalter f o h = g <$> h.
Proof. destruct o; [apply fmap_alter_same|done]. Qed.

Lemma fmap_lookup_inv {A B} (g : A -> B) (h h' : gmap Z A) p e' :
  g <$> h' = g <$> h -> h' !! p = Some e' -> exists e, h !! p = Some e /\ g e = g e'.
Proof.
  intros E Hp. assert (Q : (g <$> h') !! p = Some (g e')) by by rewrite lookup_fmap, Hp.
  rewrite E, lookup_fmap in Q. destruct (h !! p) as [e|]; [|done]. injection Q as Q. eauto.
Qed.

Section Def.
Context {E : Type} (nx pv : E -> option Z).
Implicit Types (h : gmap Z E) (l : list Z) (p : Z).

(** Every element is linked to those around it. *)
Definition dll h l : Prop :=
  forall l1 p l2, l = l1 ++ p :: l2 -> exists e, h !! p = Some e /\ pv e = last l1 /\ nx e = head l2.

Lemma dll_frame h h' l :
  dll h l ->
  (forall p e, p ∈ l -> h !! p = Some e -> exists e', h' !! p = Some e' /\ pv e' = pv e /\ nx e' = nx e) -> dll h' l.
Proof.
  intros D F l1 p l2 ->. destruct (D l1 p l2 eq_refl) as (e & He & Hp & Hn).
  destruct (F p e) as (e' & ? & ? & ?); [set_solver|done|]. exists e'. split_and!; congruence.
Qed.

End Def.

Lemma split_app (A B l1 : list Z) (q : Z) (l2 : list Z) :
  A ++ B = l1 ++ q :: l2 ->
  (exists A2, A = l1 ++ q :: A2 /\ l2 = A2 ++ B) \/ (exists B1, l1 = A ++ B1 /\ B = B1 ++ q :: l2).
Proof.
  intros E2. apply app_eq_app in E2 as (k & [[-> Hk]|[-> ->]]).
  - destruct k as [|x k]; simpl in Hk; [right; exists []; by rewrite !app_nil_r|]. injection Hk as -> ->. left. by exists k.
  - right. by exists k.
Qed.

Lemma head_elem (l : list Z) q : head l = Some q -> q ∈ l.
Proof. destruct l; [done|]. intros [= ->]. left. Qed.
Lemma last_elem (l : list Z) q : last l = Some q -> q ∈ l.
Proof. intros (A & ->)%last_Some. set_solver. Qed.

Lemma last_later (l1 : list Z) y x l2 q : last (l1 ++ y :: x :: l2) = Some q -> q ∈ x :: l2.
Proof.
  intros Hl. apply last_elem. rewrite <- Hl. rewrite last_app, !last_cons. by destruct (last l2).
Qed.

Lemma head_skip (A : list Z) p B : last A <> None -> head (A ++ p :: B) = head (A ++ B).
Proof. by destruct A. Qed.
Lemma last_skip (A : list Z) p B : head B <> None -> last (A ++ p :: B) = last (A ++ B).
Proof. destruct B as [|x B]; [done|]. intros _. rewrite !last_app, !last_cons. by destruct (last B). Qed.
Lemma last_None_nil (A : list Z) : last A = None -> A = [].
Proof. apply last_None. Qed.
Lemma head_None_nil (A : list Z) : head A = None -> A = [].
Proof. by destruct A. Qed.

Section Dll.
Context {E : Type} (nx pv : E -> option Z) (set_nx set_pv : option Z -> E -> E).
Context (NN : forall v e, nx (set_nx v e) = v) (NP : forall v e, nx (set_pv v e) = nx e)
  (PP : forall v e, pv (set_pv v e) = v) (PN : forall v e, pv (set_nx v e) = pv e).
Abbreviation dll := (dll nx pv).
Implicit Types (h : gmap Z E) (l A B : list Z) (p q : Z).

Definition unlink p A B h := oalter (set_pv (last A)) (head B) (oalter (set_nx (head B)) (last A) h).

Lemma dll_unlink h A p B : NoDup (A ++ p :: B) -> dll h (A ++ p :: B) -> dll (unlink p A B h) (A ++ B).
Proof.
  intros Hn D l1 q l2 Hs. destruct (split_app _ _ _ _ _ Hs) as [(A2 & -> & ->)|(B1 & -> & ->)].
  - destruct (D l1 q (A2 ++ p :: B)) as (e & He & Hp & Hx); [by rewrite <- app_assoc|].
    assert (q ∉ B /\ q ∉ A2) as [HqB HqA].
    { rewrite <- app_assoc in Hn. simpl in Hn. apply NoDup_app in Hn as (_ & _ & Hn). apply NoDup_cons in Hn as [Hn _]. set_solver. }
    unfold unlink. rewrite !lookup_oalter, (decide_False (P := head B = _)) by (intros ?%head_elem; done).
    destruct A2 as [|x A2].
    + rewrite decide_True by (by rewrite last_snoc). rewrite He. eexists. split; [done|]. by rewrite NN, PN.
    + rewrite decide_False; [eauto|]. intros ?%last_later. done.
  - destruct (D (A ++ p :: B1) q l2) as (e & He & Hp & Hx); [by rewrite <- app_assoc|].
    assert (q ∉ A /\ q ∉ B1) as [HqA HqB].
    { apply NoDup_app in Hn as (_ & HA & Hn). apply NoDup_cons in Hn as [_ Hn]. apply NoDup_app in Hn as (_ & HB & _).
      split; [intros ?; apply (HA q); set_solver|intros ?; apply (HB q); set_solver]. }
    unfold unlink. rewrite !lookup_oalter, (decide_False (P := last A = _)) by (intros ?%last_elem; done).
    destruct B1 as [|x B1].
    + rewrite decide_True by done. rewrite He, app_nil_r. eexists. split; [done|]. by rewrite PP, NP.
    + rewrite decide_False by (simpl; intros [= ->]; apply HqB; left). exists e. split; [done|].
      split; [|done]. rewrite Hp, !last_app. simpl. by destruct (last B1).
Qed.

Definition push_front p l h := oalter (set_pv (Some p)) (head l) (alter (set_nx (head l)) p (alter (set_pv None) p h)).

Lemma dll_push_front h l p : p ∉ l -> is_Some (h !! p) -> dll h l -> NoDup l -> dll (push_front p l h) (p :: l).
Proof.
  intros Hp [e0 He0] D Hn l1 q l2 Hs. unfold push_front. destruct l1 as [|x l1]; simpl in Hs.
  - injection Hs as <- <-. rewrite lookup_oalter, decide_False by (intros ?%head_elem; done).
    rewrite lookup_alter_eq, lookup_alter_eq, He0. eexists. split; [done|]. by rewrite PN, PP, NN.
  - injection Hs as <- ->. destruct (D l1 q l2 eq_refl) as (e & He & Hpv & Hnx).
    assert (q <> p) by set_solver.
    rewrite lookup_oalter, !lookup_alter_ne by done. destruct l1 as [|y l1].
    + rewrite decide_True, He by done. eexists. split; [done|]. by rewrite PP, NP.
    + rewrite decide_False; [exists e; split; [done|]; by rewrite Hpv|]. simpl. intros [= ->].
      apply NoDup_cons in Hn as [Hn _]. set_solver.
Qed.

Definition push_back p l h := oalter (set_nx (Some p)) (last l) (alter (set_pv (last l)) p (alter (set_nx None) p h)).

Lemma dll_push_back h l p : p ∉ l -> is_Some (h !! p) -> dll h l -> NoDup l -> dll (push_back p l h) (l ++ [p]).
Proof.
  intros Hp [e0 He0] D Hn l1 q l2 Hs. unfold push_back. destruct (split_app _ _ _ _ _ Hs) as [(A2 & -> & ->)|(B1 & -> & HB)].
  - destruct (D l1 q A2 eq_refl) as (e & He & Hpv & Hnx).
    assert (q <> p) by set_solver. rewrite lookup_oalter, !lookup_alter_ne by done. destruct A2 as [|x A2].
    + rewrite decide_True by by rewrite last_snoc. rewrite He. eexists. split; [done|]. by rewrite PN, NN.
    + rewrite decide_False; [exists e; done|]. intros ?%last_later.
      apply NoDup_app in Hn as (_ & _ & Hn). by apply NoDup_cons in Hn as [Hn _].
  - destruct B1 as [|? [|]]; try done. injection HB as -> <-. rewrite app_nil_r.
    rewrite lookup_oalter, decide_False by (intros ?%last_elem; done).
    rewrite lookup_alter_eq, lookup_alter_eq, He0. eexists. split; [done|]. by rewrite PP, NP, NN.
Qed.

End Dll.

(** ** The lists of the epolls *)

(** The list an entry is on. *)
Definition key (e : epoll_socket) : Z * bool := (es_ep e, es_active e).

(** The fields of an epoll for one of its lists, the active one if [b]. *)
Definition with_list (b : bool) (l : list Z) (e : epoll) : epoll :=
  if b then set_num_active (u32 (Z.of_nat (length l))) (set_last (last l) (set_first (head l) e))
  else set_inactive (head l) e.

Abbreviation ep_dll := (dll ep_next ep_prev).
Abbreviation ep_unlink := (unlink set_ep_next set_ep_prev).
Abbreviation ep_push_front := (push_front set_ep_next set_ep_prev).
Abbreviation ep_push_back := (push_back set_ep_next set_ep_prev).

Definition without (p : Z) (l : list Z) : list Z := filter (fun q => q <> p) l.

Section Lists.
Implicit Types (ess : gmap Z epoll_socket) (eps : gmap Z epoll) (a : Z -> bool -> list Z) (D : option Z).

(** [a ep b] are the lists; [D] is an entry that is on none. *)
Record on_lists ess eps a D : Prop := {
  ol_mem : forall ep b p, p ∈ a ep b <-> D <> Some p /\ (key <$> ess) !! p = Some (ep, b);
  ol_nodup : forall ep b, NoDup (a ep b);
  ol_dll : forall ep b, ep_dll ess (a ep b);
  ol_ep : forall ep e b, eps !! ep = Some e -> with_list b (a ep b) e = e;
  ol_live : forall p e, ess !! p = Some e -> is_Some (eps !! es_ep e);
}.

Lemma key_unlink p A B ess : key <$> ep_unlink p A B ess = key <$> ess.
Proof. unfold unlink. rewrite !fmap_oalter_same; done. Qed.
Lemma key_push_front p l ess : key <$> ep_push_front p l ess = key <$> ess.
Proof. unfold push_front. rewrite fmap_oalter_same, !fmap_alter_same; done. Qed.
Lemma key_push_back p l ess : key <$> ep_push_back p l ess = key <$> ess.
Proof. unfold push_back. rewrite fmap_oalter_same, !fmap_alter_same; done. Qed.

Lemma without_split p A B : NoDup (A ++ p :: B) -> without p (A ++ p :: B) = A ++ B.
Proof. apply filter_neq_app. Qed.
Lemma without_elsewhere p l : p ∉ l -> without p l = l.
Proof. intros H. apply filter_all, Forall_forall. intros q Hq ->. done. Qed.

Lemma with_list_twice b l l' e : with_list b l' (with_list b l e) = with_list b l' e.
Proof. by destruct b, e. Qed.
Lemma with_list_comm b l l' e : with_list b l (with_list (negb b) l' e) = with_list (negb b) l' (with_list b l e).
Proof. by destruct b, e. Qed.

(** The epolls after one list has changed. *)
Lemma heads_change eps a (ep : Z) b l :
  (forall i e c, eps !! i = Some e -> with_list c (a i c) e = e) ->
  forall i e c, alter (with_list b l) ep eps !! i = Some e ->
    with_list c (if decide (ep = i /\ b = c) then l else a i c) e = e.
Proof.
  intros Hold i e c Hi. destruct (decide (ep = i)) as [->|].
  - rewrite lookup_alter_eq in Hi. destruct (eps !! i) as [e0|] eqn:E; [|done]. injection Hi as <-.
    destruct (decide (b = c)) as [->|].
    + rewrite decide_True by done. apply with_list_twice.
    + rewrite decide_False by naive_solver. assert (b = negb c) as -> by (by destruct b, c).
      rewrite with_list_comm. by rewrite (Hold i e0 c).
  - rewrite lookup_alter_ne in Hi by done. rewrite decide_False by naive_solver. by apply Hold.
Qed.

Lemma live_change ess ess' eps ep b l :
  key <$> ess' = key <$> ess -> (forall p e, ess !! p = Some e -> is_Some (eps !! es_ep e)) ->
  forall p e, ess' !! p = Some e -> is_Some (alter (with_list b l) ep eps !! es_ep e).
Proof.
  intros K Hl p e Hp. destruct (fmap_lookup_inv key _ _ _ _ K Hp) as (e0 & He0 & Hk). injection Hk as <- _.
  destruct (Hl p e0 He0) as [x Hx]. destruct (decide (ep = es_ep e0)) as [->|].
  - rewrite lookup_alter_eq, Hx. by eexists.
  - rewrite lookup_alter_ne by done. by eexists.
Qed.

Lemma dll_other ess ess' l :
  ep_dll ess l -> (forall q, q ∈ l -> ess' !! q = ess !! q) -> ep_dll ess' l.
Proof. intros D F. apply (dll_frame _ _ ess); [done|]. intros q e Hq He. exists e. by rewrite F. Qed.

(** Taking an entry off its list. *)
Lemma on_lists_unlink ess eps a p ep b A B :
  on_lists ess eps a None -> a ep b = A ++ p :: B ->
  on_lists (ep_unlink p A B ess) (alter (with_list b (A ++ B)) ep eps) (fun i c => without p (a i c)) (Some p).
Proof.
  intros O E. pose proof (ol_nodup _ _ _ _ O ep b) as Hn. rewrite E in Hn.
  assert (Hkey : forall q, q ∈ A ++ p :: B -> (key <$> ess) !! q = Some (ep, b)).
  { intros q Hq. rewrite <- E in Hq. by apply (ol_mem _ _ _ _ O) in Hq as [_ ?]. }
  assert (Hoth : forall i c, ~ (ep = i /\ b = c) -> forall q, q ∈ a i c -> q ∉ A ++ p :: B).
  { intros i c Hne q Hq Hq2. apply (ol_mem _ _ _ _ O) in Hq as [_ Hq]. rewrite (Hkey q Hq2) in Hq. naive_solver. }
  assert (Hw : forall i c, without p (a i c) = if decide (ep = i /\ b = c) then A ++ B else a i c).
  { intros i c. destruct (decide _) as [[-> ->]|Hne]; [rewrite E; by apply without_split|].
    apply without_elsewhere. intros Hp. apply (Hoth i c Hne p Hp). set_solver. }
  constructor.
  - intros i c q. rewrite key_unlink. unfold without. rewrite list_elem_of_filter, (ol_mem _ _ _ _ O).
    naive_solver congruence.
  - intros i c. apply NoDup_filter, O.
  - intros i c. rewrite Hw. destruct (decide _) as [[-> ->]|Hne].
    + apply dll_unlink; try done. rewrite <- E. apply O.
    + eapply dll_other; [apply O|]. intros q Hq. unfold unlink. specialize (Hoth i c Hne q Hq).
      rewrite !lookup_oalter, !decide_False; [done| |]; intros Hx; apply Hoth;
        [apply last_elem in Hx|apply head_elem in Hx]; set_solver.
  - intros i e c Hi. rewrite Hw. eapply heads_change; [apply O|done].
  - eapply live_change; [apply key_unlink|apply O].
Qed.

(** Putting a detached entry on a list, where [push] is one of both ends. *)
Lemma on_lists_push ess ess' eps a p ep b l :
  on_lists ess eps a (Some p) -> (key <$> ess) !! p = Some (ep, b) -> key <$> ess' = key <$> ess ->
  (forall q, q ∈ l <-> q = p \/ q ∈ a ep b) -> NoDup l -> ep_dll ess' l ->
  (forall q, q <> p -> q ∉ a ep b -> ess' !! q = ess !! q) ->
  on_lists ess' (alter (with_list b l) ep eps) (fun i c => if decide (ep = i /\ b = c) then l else a i c) None.
Proof.
  intros O Hk K Hl Hn Hd Hf. constructor.
  - intros i c q. rewrite K. destruct (decide _) as [[-> ->]|Hne].
    + rewrite Hl, (ol_mem _ _ _ _ O). split; [intros [->|[_ ?]]; done|].
      intros [_ ?]. destruct (decide (q = p)); [by left|right]. split; [congruence|done].
    + rewrite (ol_mem _ _ _ _ O). split; [intros [_ ?]; done|]. intros [_ Hq]. split; [|done].
      intros [= ->]. rewrite Hk in Hq. naive_solver.
  - intros i c. destruct (decide _); [done|apply O].
  - intros i c. destruct (decide _) as [[-> ->]|Hne]; [done|]. eapply dll_other; [apply O|].
    intros q Hq. apply (ol_mem _ _ _ _ O) in Hq as [Hq1 Hq2]. apply Hf; [congruence|].
    intros Hq%(ol_mem _ _ _ _ O). destruct Hq as [_ Hq]. rewrite Hq2 in Hq. naive_solver.
  - intros i e c Hi. eapply heads_change; [apply O|done].
  - eapply live_change; [done|apply O].
Qed.

Lemma on_lists_detached ess eps a p f :
  (forall e, es_ep (f e) = es_ep e) -> on_lists ess eps a (Some p) -> on_lists (alter f p ess) eps a (Some p).
Proof.
  intros Hf O. constructor; try apply O.
  - intros i c q. rewrite (ol_mem _ _ _ _ O), !lookup_fmap. split; intros [? ?]; (split; [done|]);
      by rewrite lookup_alter_ne in * by congruence.
  - intros i c. eapply dll_other; [apply O|]. intros q Hq. apply (ol_mem _ _ _ _ O) in Hq as [? _].
    by rewrite lookup_alter_ne by congruence.
  - intros q e Hq. destruct (decide (p = q)) as [->|].
    + rewrite lookup_alter_eq in Hq. destruct (ess !! q) as [e0|] eqn:E; [|done]. injection Hq as <-.
      rewrite Hf. by apply (ol_live _ _ _ _ O q).
    + rewrite lookup_alter_ne in Hq by done. by apply (ol_live _ _ _ _ O q).
Qed.

End Lists.

(** ** The operations on the lists of epolls succeed and do what they should *)
Section Ops.
Context {L : Type}.
Abbreviation state := (sock_state L).
Implicit Types (s : state) (p q ep : Z).

Lemma upd_es_ok s q f : is_Some (ss_ess s !! q) -> upd_es s q f = Ok (set_ess s (alter f q (ss_ess s))).
Proof.
  intros [e He]. unfold upd_es, es_at. rewrite He. osimpl. unfold put_es. do 2 f_equal.
  apply map_eq. intros r. destruct (decide (q = r)) as [->|].
  - by rewrite lookup_insert_eq, lookup_alter_eq, He.
  - by rewrite lookup_insert_ne, lookup_alter_ne.
Qed.

Lemma upd_epoll_ok s ep f e0 : ss_eps s !! ep = Some e0 -> upd_epoll s ep f = Ok (set_eps s (<[ep := f e0]> (ss_eps s))).
Proof. intros He. unfold upd_epoll, epoll_at. by rewrite He. Qed.

Lemma es_at_ok s p e : ss_ess s !! p = Some e -> es_at s p = Ok e.
Proof. intros He. unfold es_at. by rewrite He. Qed.
Lemma epoll_at_ok s p e : ss_eps s !! p = Some e -> epoll_at s p = Ok e.
Proof. intros He. unfold epoll_at. by rewrite He. Qed.
Lemma sock_at_ok s p k : ss_socks s !! p = Some k -> sock_at s p = Ok k.
Proof. intros He. unfold sock_at. by rewrite He. Qed.

Lemma alter_insert_eq {A} (f : A -> A) i (m : gmap Z A) x : m !! i = Some x -> alter f i m = <[i := f x]> m.
Proof.
  intros E. apply map_eq. intros r. destruct (decide (i = r)) as [->|].
  - by rewrite lookup_insert_eq, lookup_alter_eq, E.
  - by rewrite lookup_insert_ne, lookup_alter_ne.
Qed.

Lemma alter_twice {A} (f g : A -> A) i (m : gmap Z A) x : m !! i = Some x -> alter f i (alter g i m) = <[i := f (g x)]> m.
Proof.
  intros E. rewrite (alter_insert_eq g _ _ x E), (alter_insert_eq f _ _ (g x)) by apply lookup_insert_eq. apply insert_insert_eq.
Qed.

(** Entries of lists are live after changes of links. *)
Lemma live_oalter f o (h : gmap Z epoll_socket) q : is_Some (h !! q) -> is_Some (oalter f o h !! q).
Proof. intros [e He]. rewrite lookup_oalter, He. case_decide; by eexists. Qed.
Lemma live_alter f r (h : gmap Z epoll_socket) q : is_Some (h !! q) -> is_Some (alter f r h !! q).
Proof. apply (live_oalter f (Some r)). Qed.

Context (s : state) (a : Z -> bool -> list Z) (O : on_lists (ss_ess s) (ss_eps s) a None)
  (Hsize : Z.of_nat (size (ss_ess s)) < 4294967296).

Lemma list_live ep b q : q ∈ a ep b -> is_Some (ss_ess s !! q).
Proof.
  intros [_ Hq]%(ol_mem _ _ _ _ O). rewrite lookup_fmap in Hq. destruct (ss_ess s !! q); [by eexists|done].
Qed.

Lemma list_short ep b : Z.of_nat (length (a ep b)) < 4294967296.
Proof.
  assert (length (a ep b) <= size (ss_ess s))%nat; [|lia]. apply NoDup_size; [|apply O].
  intros q Hq. apply list_live in Hq as [x ?]. eauto.
Qed.

(** An entry with what is around it. *)
Lemma entry_split p e :
  ss_ess s !! p = Some e -> exists A B e0, a (es_ep e) (es_active e) = A ++ p :: B /\
    ep_prev e = last A /\ ep_next e = head B /\ ss_eps s !! es_ep e = Some e0 /\
    (forall q, last A = Some q -> is_Some (ss_ess s !! q)) /\ (forall q, head B = Some q -> is_Some (ss_ess s !! q)).
Proof.
  intros He. assert (Hp : p ∈ a (es_ep e) (es_active e)).
  { apply (ol_mem _ _ _ _ O). split; [done|]. by rewrite lookup_fmap, He. }
  apply list_elem_of_split in Hp as (A & B & E).
  destruct (ol_dll _ _ _ _ O _ _ A p B E) as (e' & He' & Hpv & Hnx). rewrite He in He'. injection He' as <-.
  destruct (ol_live _ _ _ _ O p e He) as [e0 He0]. exists A, B, e0. split_and!; try done.
  - intros q Hq%last_elem. apply (list_live (es_ep e) (es_active e)). rewrite E. set_solver.
  - intros q Hq%head_elem. apply (list_live (es_ep e) (es_active e)). rewrite E. set_solver.
Qed.

Lemma remove_ep_ok p e :
  ss_ess s !! p = Some e -> exists A B, a (es_ep e) (es_active e) = A ++ p :: B /\
    es_remove_ep s p = Ok (set_eps (set_ess s (ep_unlink p A B (ss_ess s)))
                             (alter (with_list (es_active e) (A ++ B)) (es_ep e) (ss_eps s))).
Proof.
  intros He. destruct (entry_split p e He) as (A & B & e0 & E & Hpv & Hnx & He0 & HA & HB).
  exists A, B. split; [done|]. pose proof (ol_ep _ _ _ _ O _ _ (es_active e) He0) as Hw. rewrite E in Hw.
  pose proof (list_short (es_ep e) (es_active e)) as Hshort. rewrite E in Hshort.
  unfold es_remove_ep, es_remove_active, es_remove_inactive. rewrite (es_at_ok _ _ _ He). osimpl.
  rewrite (alter_insert_eq _ _ _ _ He0). unfold unlink.
  assert (Hlen : Z.of_nat (length (A ++ p :: B)) = Z.of_nat (length (A ++ B)) + 1) by (rewrite !length_app; simpl; lia).
  destruct (es_active e) eqn:Ea; cbn [with_list negb] in *; osimpl.
  - rewrite (epoll_at_ok _ _ _ He0). osimpl.
    assert (Hna : num_active e0 = Z.of_nat (length (A ++ B)) + 1).
    { rewrite <- Hw. simpl. rewrite Hlen. apply u32_small. lia. }
    rewrite (proj2 (Z.gtb_lt _ _)) by lia. osimpl. rewrite Hpv, Hnx.
    assert (Hfst : e_active_first e0 = head (A ++ p :: B)) by by rewrite <- Hw.
    assert (Hlst : e_active_last e0 = last (A ++ p :: B)) by by rewrite <- Hw.
    destruct (last A) as [x|] eqn:EA; [rewrite upd_es_ok by (by apply HA)|rewrite (upd_epoll_ok _ _ _ _ He0)]; osimpl;
    (destruct (head B) as [y|] eqn:EB; [rewrite upd_es_ok by (try apply live_alter; by apply HB)|
       erewrite upd_epoll_ok by (simpl; rewrite ?lookup_insert_eq; done)]); osimpl;
    (erewrite upd_epoll_ok by (simpl; rewrite ?lookup_insert_eq; done)); simpl; unfold set_eps, set_ess; simpl;
    do 2 f_equal; rewrite ?insert_insert_eq; f_equal; destruct e0; simpl in *; subst;
    unfold set_num_active, set_first, set_last; simpl.
    all: f_equal; try (f_equal; lia); rewrite ?head_skip, ?last_skip by congruence; try congruence;
    try (apply last_None_nil in EA; subst A); try (apply head_None_nil in EB; subst B); simpl; rewrite ?app_nil_r; congruence.
  - assert (Hinact : e_inactive e0 = head (A ++ p :: B)) by by rewrite <- Hw.
    rewrite Hpv, Hnx.
    destruct (last A) as [x|] eqn:EA; [rewrite upd_es_ok by (by apply HA)|rewrite (upd_epoll_ok _ _ _ _ He0)]; osimpl;
    (destruct (head B) as [y|] eqn:EB; [rewrite upd_es_ok by (try apply live_alter; by apply HB)|]);
    unfold set_eps, set_ess; simpl; do 2 f_equal; try (rewrite insert_id; [done|]); rewrite ?He0;
    try (apply last_None_nil in EA; subst A); try (rewrite <- head_skip with (p := p) by congruence); 
    destruct e0; simpl in *; subst; try done.
    all: by rewrite EB.
Qed.

End Ops.

(** Putting a detached entry back. *)
Section Push.
Context {L : Type}.
Implicit Types (p q ep : Z).
Context (s : sock_state L) (a : Z -> bool -> list Z) (p : Z) (e : epoll_socket).
Context (O : on_lists (ss_ess s) (ss_eps s) a (Some p)) (He : ss_ess s !! p = Some e).

Lemma detached_notin ep b : p ∉ a ep b.
Proof. intros [Hp _]%(ol_mem _ _ _ _ O). done. Qed.

Lemma pushed_live ep b q : q ∈ a ep b -> is_Some (ss_ess s !! q).
Proof.
  intros [_ Hq]%(ol_mem _ _ _ _ O). rewrite lookup_fmap in Hq. destruct (ss_ess s !! q); [by eexists|done].
Qed.

Lemma add_inactive_ok :
  let l := a (es_ep e) false in
  es_add_inactive s p = Ok (set_eps (set_ess s (ep_push_front p l (ss_ess s)))
                              (alter (with_list false (p :: l)) (es_ep e) (ss_eps s))) /\
  (es_active e = false ->
   on_lists (ep_push_front p l (ss_ess s)) (alter (with_list false (p :: l)) (es_ep e) (ss_eps s))
     (fun i c => if decide (es_ep e = i /\ false = c) then p :: l else a i c) None).
Proof.
  intros l. destruct (ol_live _ _ _ _ O p e He) as [e0 He0].
  pose proof (ol_ep _ _ _ _ O _ _ false He0) as Hw. fold l in Hw.
  assert (Hh : e_inactive e0 = head l) by by rewrite <- Hw.
  split.
  - unfold es_add_inactive. rewrite (es_at_ok _ _ _ He). osimpl. rewrite upd_es_ok by by eexists. osimpl.
    erewrite epoll_at_ok by done. osimpl. rewrite Hh. unfold push_front.
    assert (is_Some (alter (set_ep_prev None) p (ss_ess s) !! p)) by (apply live_alter; by eexists).
    destruct (head l) as [q|] eqn:Eq; rewrite upd_es_ok by done; osimpl.
    + rewrite upd_es_ok by (do 2 apply live_alter; by apply (pushed_live (es_ep e) false), head_elem). osimpl.
      rewrite (upd_epoll_ok _ _ _ e0) by done. simpl. by rewrite (alter_insert_eq _ _ _ _ He0).
    + rewrite (upd_epoll_ok _ _ _ e0) by done. simpl. by rewrite (alter_insert_eq _ _ _ _ He0).
  - intros Ha. eapply on_lists_push; [exact O| |apply key_push_front| | | |].
    + by rewrite lookup_fmap, He, <- Ha.
    + intros q. rewrite elem_of_cons. done.
    + apply NoDup_cons. split; [apply detached_notin|apply O].
    + apply dll_push_front; try done; [apply detached_notin|apply O|apply O].
    + intros q Hq Hin. unfold push_front. rewrite lookup_oalter, decide_False by (intros ?%head_elem; done).
      by rewrite !lookup_alter_ne.
Qed.

Lemma add_active_ok :
  let l := a (es_ep e) true in
  Z.of_nat (length l) + 1 < 4294967296 ->
  es_add_active s p = Ok (set_eps (set_ess s (ep_push_back p l (ss_ess s)))
                            (alter (with_list true (l ++ [p])) (es_ep e) (ss_eps s))) /\
  (es_active e = true ->
   on_lists (ep_push_back p l (ss_ess s)) (alter (with_list true (l ++ [p])) (es_ep e) (ss_eps s))
     (fun i c => if decide (es_ep e = i /\ true = c) then l ++ [p] else a i c) None).
Proof.
  intros l Hlen. destruct (ol_live _ _ _ _ O p e He) as [e0 He0].
  pose proof (ol_ep _ _ _ _ O _ _ true He0) as Hw. fold l in Hw.
  assert (Hh : e_active_last e0 = last l) by by rewrite <- Hw.
  assert (Hf : e_active_first e0 = head l) by by rewrite <- Hw.
  assert (Hn : num_active e0 = Z.of_nat (length l)) by (rewrite <- Hw; apply u32_small; lia).
  assert (Hsn : Z.of_nat (length (l ++ [p])) = Z.of_nat (length l) + 1) by (rewrite length_app; simpl; lia).
  split.
  - unfold es_add_active. rewrite (es_at_ok _ _ _ He). osimpl. erewrite epoll_at_ok by done. osimpl.
    rewrite Hh. unfold push_back. rewrite (alter_insert_eq _ _ _ _ He0).
    destruct (last l) as [q|] eqn:Eq.
    + rewrite upd_es_ok by by eexists. osimpl. rewrite upd_es_ok by (apply live_alter; by eexists). osimpl.
      rewrite upd_es_ok by (do 2 apply live_alter; by apply (pushed_live (es_ep e) true), last_elem). osimpl.
      rewrite (upd_epoll_ok _ _ _ e0) by done. osimpl.
      erewrite upd_epoll_ok by (simpl; rewrite lookup_insert_eq; done). unfold set_eps, set_ess. simpl. do 2 f_equal. rewrite insert_insert_eq. f_equal.
      destruct e0; simpl in *; subst. unfold set_num_active, set_last, set_first. simpl.
      rewrite last_snoc, Hsn. f_equal. destruct l; [done|]. done.
    + assert (l = []) as El by by apply last_None_nil.
      rewrite upd_es_ok by by eexists. osimpl. rewrite upd_es_ok by (apply live_alter; by eexists). osimpl.
      rewrite (upd_epoll_ok _ _ _ e0) by done. osimpl.
      erewrite upd_epoll_ok by (simpl; rewrite lookup_insert_eq; done). osimpl.
      erewrite upd_epoll_ok by (simpl; rewrite lookup_insert_eq; done). unfold set_eps, set_ess. simpl.
      rewrite !insert_insert_eq. rewrite El in *. simpl in *.
      do 2 f_equal; [|by rewrite !(alter_twice _ _ _ _ e)].
      f_equal. destruct e0; simpl in *; subst. done.
  - intros Ha. eapply on_lists_push; [exact O| |apply key_push_back| | | |].
    + by rewrite lookup_fmap, He, <- Ha.
    + intros q. rewrite elem_of_app, list_elem_of_singleton. fold l. tauto.
    + apply NoDup_app. split; [apply O|]. split; [|apply NoDup_singleton].
      intros q Hq ->%list_elem_of_singleton. by apply detached_notin in Hq.
    + apply dll_push_back; try done; [apply detached_notin|apply O|apply O].
    + intros q Hq Hin. unfold push_back. rewrite lookup_oalter, decide_False by (intros ?%last_elem; done).
      by rewrite !lookup_alter_ne.
Qed.

End Push.

(** ** Moving entries between the lists *)

(** What the operations on the lists of epolls leave alone. *)
Definition fixed (e : epoll_socket) := (es_ep e, es_s e, es_data e, es_mask e, so_prev e, so_next e).
Definition efixed (e : epoll) := (e_refcnt e, e_lock e, num_linux e, num_tas e, linux_next e).

Definition a_remove (p : Z) (a : Z -> bool -> list Z) : Z -> bool -> list Z := fun i c => without p (a i c).
Definition a_set (ep : Z) (b : bool) (l : list Z) (a : Z -> bool -> list Z) : Z -> bool -> list Z :=
  fun i c => if decide (ep = i /\ b = c) then l else a i c.

Section Moves.
Context {L : Type}.
Abbreviation state := (sock_state L).
Implicit Types (s : state) (p q ep : Z).

Record lists_wf s (a : Z -> bool -> list Z) (D : option Z) : Prop := {
  lw_on : on_lists (ss_ess s) (ss_eps s) a D;
  lw_size : Z.of_nat (size (ss_ess s)) < 4294967296;
}.

Record only_lists s s' : Prop := {
  on_rest : s' = set_eps (set_ess s (ss_ess s')) (ss_eps s');
  on_fixed : fixed <$> ss_ess s' = fixed <$> ss_ess s;
  on_efixed : efixed <$> ss_eps s' = efixed <$> ss_eps s;
}.

Lemma only_lists_refl s : only_lists s s.
Proof. split; try done. by destruct s. Qed.
Lemma only_lists_trans s1 s2 s3 : only_lists s1 s2 -> only_lists s2 s3 -> only_lists s1 s3.
Proof. intros [A1 B1 C1] [A2 B2 C2]. split; [rewrite A2; by rewrite A1|congruence|congruence]. Qed.

Lemma only_lists_of s ess' eps' :
  fixed <$> ess' = fixed <$> ss_ess s -> efixed <$> eps' = efixed <$> ss_eps s ->
  only_lists s (set_eps (set_ess s ess') eps').
Proof. by split. Qed.

Lemma only_lists_size s s' : only_lists s s' -> size (ss_ess s') = size (ss_ess s).
Proof. intros O. rewrite <- (map_size_fmap fixed (ss_ess s')), (on_fixed _ _ O). apply map_size_fmap. Qed.

Lemma efixed_heads b l ep (eps : gmap Z epoll) : efixed <$> alter (with_list b l) ep eps = efixed <$> eps.
Proof. apply fmap_alter_same. by intros []; destruct b. Qed.

Lemma remove_wf s a p e :
  lists_wf s a None -> ss_ess s !! p = Some e -> exists s' e',
    es_remove_ep s p = Ok s' /\ lists_wf s' (a_remove p a) (Some p) /\ only_lists s s' /\
    es_active <$> ss_ess s' = es_active <$> ss_ess s /\
    ss_ess s' !! p = Some e' /\ key e' = key e /\
    a_remove p a (es_ep e) (es_active e) = without p (a (es_ep e) (es_active e)).
Proof.
  intros [O Hs] He. destruct (remove_ep_ok s a O Hs p e He) as (A & B & E & ->).
  set (s' := set_eps _ _).
  assert (F : only_lists s s').
  { apply only_lists_of; [unfold unlink; by rewrite !fmap_oalter_same|apply efixed_heads]. }
  assert (K : key <$> ss_ess s' = key <$> ss_ess s) by apply key_unlink.
  assert (Ac : es_active <$> ss_ess s' = es_active <$> ss_ess s) by (simpl; unfold unlink; by rewrite !fmap_oalter_same).
  destruct (ss_ess s' !! p) as [e'|] eqn:He'.
  2:{ exfalso. assert (Hk : (key <$> ss_ess s') !! p = Some (key e)) by by rewrite K, lookup_fmap, He.
      rewrite lookup_fmap, He' in Hk. done. }
  exists s', e'. split; [done|]. split; [|split_and!; try done].
  - split; [by apply (on_lists_unlink _ _ _ _ _ _ _ _ O)|by rewrite (only_lists_size s s')].
  - destruct (fmap_lookup_inv key _ _ _ _ K He') as (x & Hx & Hk). congruence.
Qed.

Lemma set_active_wf s a p e b :
  lists_wf s a (Some p) -> ss_ess s !! p = Some e -> exists s',
    upd_es s p (set_active b) = Ok s' /\ lists_wf s' a (Some p) /\ only_lists s s' /\
    es_active <$> ss_ess s' = <[p := b]> (es_active <$> ss_ess s) /\ ss_ess s' !! p = Some (set_active b e).
Proof.
  intros [O Hs] He. rewrite upd_es_ok by by eexists. set (s' := set_ess s _).
  assert (F : only_lists s s') by (split; [by destruct s|by apply fmap_alter_same|done]).
  exists s'. split; [done|]. split; [|split_and!; try done].
  - split; [by apply on_lists_detached|by rewrite (only_lists_size s s')].
  - simpl. by rewrite (alter_insert_eq _ _ _ _ He), fmap_insert.
  - simpl. by rewrite lookup_alter_eq, He.
Qed.

Lemma push_front_wf s a p e :
  lists_wf s a (Some p) -> ss_ess s !! p = Some e -> es_active e = false -> exists s',
    es_add_inactive s p = Ok s' /\ lists_wf s' (a_set (es_ep e) false (p :: a (es_ep e) false) a) None /\
    only_lists s s' /\ es_active <$> ss_ess s' = es_active <$> ss_ess s.
Proof.
  intros [O Hs] He Ha. destruct (add_inactive_ok s a p e O He) as [-> O']. set (s' := set_eps _ _).
  assert (F : only_lists s s').
  { apply only_lists_of; [unfold push_front; by rewrite fmap_oalter_same, !fmap_alter_same|apply efixed_heads]. }
  exists s'. split; [done|]. split; [|split; [done|simpl; unfold push_front; by rewrite fmap_oalter_same, !fmap_alter_same]].
  split; [by apply O'|by rewrite (only_lists_size s s')].
Qed.

Lemma push_back_wf s a p e :
  lists_wf s a (Some p) -> ss_ess s !! p = Some e -> es_active e = true -> exists s',
    es_add_active s p = Ok s' /\ lists_wf s' (a_set (es_ep e) true (a (es_ep e) true ++ [p]) a) None /\
    only_lists s s' /\ es_active <$> ss_ess s' = es_active <$> ss_ess s.
Proof.
  intros [O Hs] He Ha.
  assert (Hl : Z.of_nat (length (a (es_ep e) true)) + 1 < 4294967296).
  { assert (length (p :: a (es_ep e) true) <= size (ss_ess s))%nat; [|simpl in *; lia]. apply NoDup_size.
    - intros q [->|Hq]%elem_of_cons; [eauto|]. destruct (pushed_live s a p O _ _ _ Hq) as [x ?]. eauto.
    - apply NoDup_cons. split; [apply (detached_notin s a p O)|apply O]. }
  destruct (add_active_ok s a p e O He Hl) as [-> O']. set (s' := set_eps _ _).
  assert (F : only_lists s s').
  { apply only_lists_of; [unfold push_back; by rewrite fmap_oalter_same, !fmap_alter_same|apply efixed_heads]. }
  exists s'. split; [done|]. split; [|split; [done|simpl; unfold push_back; by rewrite fmap_oalter_same, !fmap_alter_same]].
  split; [by apply O'|by rewrite (only_lists_size s s')].
Qed.

(** The three moves. *)
Lemma activate_wf s a p e :
  lists_wf s a None -> ss_ess s !! p = Some e -> es_active e = false -> exists s',
    es_activate s p = Ok s' /\ only_lists s s' /\ es_active <$> ss_ess s' = <[p := true]> (es_active <$> ss_ess s) /\
    lists_wf s' (a_set (es_ep e) true (without p (a (es_ep e) true) ++ [p]) (a_remove p a)) None.
Proof.
  intros W He Ha. unfold es_activate. rewrite (es_at_ok _ _ _ He). osimpl. rewrite Ha.
  destruct (remove_wf s a p e W He) as (s1 & e1 & R1 & W1 & F1 & A1 & He1 & [= Kep Ka] & _).
  unfold es_remove_ep in R1. rewrite (es_at_ok _ _ _ He) in R1. cbn [mbind outcome_bind] in R1. rewrite Ha in R1. rewrite R1. osimpl.
  destruct (set_active_wf s1 _ p e1 true W1 He1) as (s2 & -> & W2 & F2 & A2 & He2). osimpl.
  destruct (push_back_wf s2 _ p _ W2 He2 eq_refl) as (s3 & -> & W3 & F3 & A3).
  exists s3. split; [done|]. split; [eauto using only_lists_trans|]. split; [congruence|]. simpl in W3. by rewrite Kep in W3.
Qed.

Lemma deactivate_wf s a p e :
  lists_wf s a None -> ss_ess s !! p = Some e -> es_active e = true -> exists s',
    es_deactivate s p = Ok s' /\ only_lists s s' /\ es_active <$> ss_ess s' = <[p := false]> (es_active <$> ss_ess s) /\
    lists_wf s' (a_set (es_ep e) false (p :: without p (a (es_ep e) false)) (a_remove p a)) None.
Proof.
  intros W He Ha. unfold es_deactivate. rewrite (es_at_ok _ _ _ He). osimpl. rewrite Ha. osimpl.
  destruct (remove_wf s a p e W He) as (s1 & e1 & R1 & W1 & F1 & A1 & He1 & [= Kep Ka] & _).
  unfold es_remove_ep in R1. rewrite (es_at_ok _ _ _ He) in R1. cbn [mbind outcome_bind] in R1. rewrite Ha in R1. rewrite R1. osimpl.
  destruct (set_active_wf s1 _ p e1 false W1 He1) as (s2 & -> & W2 & F2 & A2 & He2). osimpl.
  destruct (push_front_wf s2 _ p _ W2 He2 eq_refl) as (s3 & -> & W3 & F3 & A3).
  exists s3. split; [done|]. split; [eauto using only_lists_trans|]. split; [congruence|]. simpl in W3. by rewrite Kep in W3.
Qed.

Lemma pushback_wf s a p e :
  lists_wf s a None -> ss_ess s !! p = Some e -> es_active e = true -> exists s',
    es_active_pushback s p = Ok s' /\ only_lists s s' /\ es_active <$> ss_ess s' = es_active <$> ss_ess s /\
    lists_wf s' (a_set (es_ep e) true (without p (a (es_ep e) true) ++ [p]) (a_remove p a)) None.
Proof.
  intros W He Ha. unfold es_active_pushback. rewrite (es_at_ok _ _ _ He). osimpl. rewrite Ha. osimpl.
  destruct (remove_wf s a p e W He) as (s1 & e1 & R1 & W1 & F1 & A1 & He1 & [= Kep Ka] & _).
  unfold es_remove_ep in R1. rewrite (es_at_ok _ _ _ He) in R1. cbn [mbind outcome_bind] in R1. rewrite Ha in R1. rewrite R1. osimpl.
  destruct (push_back_wf s1 _ p _ W1 He1) as (s3 & -> & W3 & F3 & A3); [congruence|].
  exists s3. split; [done|]. split; [eauto using only_lists_trans|]. split; [congruence|]. by rewrite Kep in W3.
Qed.

End Moves.

(** ** The lists of the sockets *)

Abbreviation so_dll := (dll so_next so_prev).
Abbreviation so_unlink := (unlink set_so_next set_so_prev).

(** [b k] is the list of a socket; [D] is an entry that is on none. *)
Record on_socks (ess : gmap Z epoll_socket) (socks : gmap Z socket) (b : Z -> list Z) (D : option Z) : Prop := {
  os_mem : forall k p, p ∈ b k <-> D <> Some p /\ (es_s <$> ess) !! p = Some k;
  os_nodup : forall k, NoDup (b k);
  os_dll : forall k, so_dll ess (b k);
  os_head : forall k so, socks !! k = Some so -> so_eps so = head (b k);
  os_live : forall p e, ess !! p = Some e -> is_Some (socks !! es_s e);
}.

Section Socks.
Implicit Types (ess : gmap Z epoll_socket) (socks : gmap Z socket) (b : Z -> list Z) (D : option Z) (p q k : Z).

Lemma fixed_of {B} (g : epoll_socket -> B) (h : (Z * Z * Z * Z * option Z * option Z) -> B) ess ess' :
  (forall e, g e = h (fixed e)) -> fixed <$> ess' = fixed <$> ess -> g <$> ess' = g <$> ess.
Proof.
  intros E F. assert (Hg : forall m : gmap Z epoll_socket, g <$> m = h <$> (fixed <$> m)).
  { intros m. rewrite <- map_fmap_compose. by apply map_fmap_ext. }
  by rewrite !Hg, F.
Qed.

Lemma on_socks_fixed ess ess' socks b D :
  fixed <$> ess' = fixed <$> ess -> on_socks ess socks b D -> on_socks ess' socks b D.
Proof.
  intros F O. assert (Es : es_s <$> ess' = es_s <$> ess) by (apply (fixed_of es_s (fun '(_, x, _, _, _, _) => x)); done).
  constructor; try apply O.
  - intros k p. rewrite Es. apply O.
  - intros k l1 p l2 E. destruct (os_dll _ _ _ _ O k l1 p l2 E) as (e & He & Hp & Hn).
    destruct (fmap_lookup_inv fixed ess' ess p e (eq_sym F) He) as (e' & He' & Hf). injection Hf as _ _ _ _ Hp' Hn'.
    exists e'. split_and!; congruence.
  - intros p e He. destruct (fmap_lookup_inv fixed _ _ _ _ F He) as (e0 & He0 & Hf). injection Hf as _ <- _ _ _ _.
    by apply (os_live _ _ _ _ O p).
Qed.

(** Changes of the sockets that leave the heads of their lists alone. *)
Lemma on_socks_heads ess socks socks' b D :
  so_eps <$> socks' = so_eps <$> socks -> on_socks ess socks b D -> on_socks ess socks' b D.
Proof.
  intros F O. constructor; try apply O.
  - intros k so Hk. destruct (fmap_lookup_inv so_eps _ _ _ _ F Hk) as (so' & Hk' & <-). by apply (os_head _ _ _ _ O).
  - intros p e He. destruct (os_live _ _ _ _ O p e He) as [so Hso].
    assert (Q : (so_eps <$> socks') !! es_s e = Some (so_eps so)) by by rewrite F, lookup_fmap, Hso.
    rewrite lookup_fmap in Q. destruct (socks' !! es_s e); [by eexists|done].
Qed.

Lemma sock_split ess socks b p e :
  on_socks ess socks b None -> ess !! p = Some e -> exists A B, b (es_s e) = A ++ p :: B /\
    so_prev e = last A /\ so_next e = head B.
Proof.
  intros O He. assert (Hp : p ∈ b (es_s e)).
  { apply (os_mem _ _ _ _ O). split; [done|]. by rewrite lookup_fmap, He. }
  apply list_elem_of_split in Hp as (A & B & E). exists A, B. split; [done|].
  destruct (os_dll _ _ _ _ O _ A p B E) as (e' & He' & Hpv & Hnx). rewrite He in He'. by injection He' as <-.
Qed.

Lemma s_unlink p A B ess : es_s <$> so_unlink p A B ess = es_s <$> ess.
Proof. unfold unlink. rewrite !fmap_oalter_same; done. Qed.

Lemma on_socks_unlink ess socks b p k A B :
  on_socks ess socks b None -> b k = A ++ p :: B ->
  on_socks (so_unlink p A B ess) (alter (set_so_eps (head (A ++ B))) k socks) (fun i => without p (b i)) (Some p).
Proof.
  intros O E. pose proof (os_nodup _ _ _ _ O k) as Hn. rewrite E in Hn.
  assert (Hkey : forall q, q ∈ A ++ p :: B -> (es_s <$> ess) !! q = Some k).
  { intros q Hq. rewrite <- E in Hq. by apply (os_mem _ _ _ _ O) in Hq as [_ ?]. }
  assert (Hoth : forall i, i <> k -> forall q, q ∈ b i -> q ∉ A ++ p :: B).
  { intros i Hne q Hq Hq2. apply (os_mem _ _ _ _ O) in Hq as [_ Hq]. rewrite (Hkey q Hq2) in Hq. naive_solver. }
  assert (Hw : forall i, without p (b i) = if decide (i = k) then A ++ B else b i).
  { intros i. destruct (decide (i = k)) as [->|Hne]; [rewrite E; by apply without_split|].
    apply without_elsewhere. intros Hp. apply (Hoth i Hne p Hp). set_solver. }
  constructor.
  - intros i q. rewrite s_unlink. unfold without. rewrite list_elem_of_filter, (os_mem _ _ _ _ O). naive_solver congruence.
  - intros i. apply NoDup_filter, O.
  - intros i. rewrite Hw. destruct (decide (i = k)) as [->|Hne].
    + apply dll_unlink; try done. rewrite <- E. apply O.
    + apply (dll_frame _ _ ess); [apply O|]. intros q e Hq He. exists e. unfold unlink. specialize (Hoth i Hne q Hq).
      rewrite !lookup_oalter, !decide_False; [done| |]; intros Hx; apply Hoth;
        [apply last_elem in Hx|apply head_elem in Hx]; set_solver.
  - intros i so Hi. rewrite Hw. destruct (decide (i = k)) as [->|Hne].
    + rewrite lookup_alter_eq in Hi. destruct (socks !! k); [|done]. by injection Hi as <-.
    + rewrite lookup_alter_ne in Hi by done. by apply (os_head _ _ _ _ O).
  - intros q e Hq. destruct (fmap_lookup_inv es_s _ _ _ _ (s_unlink p A B ess) Hq) as (e0 & He0 & <-).
    destruct (os_live _ _ _ _ O q e0 He0) as [so Hso]. destruct (decide (k = es_s e0)) as [->|].
    + rewrite lookup_alter_eq, Hso. by eexists.
    + rewrite lookup_alter_ne by done. by eexists.
Qed.

End Socks.

Section RemoveSock.
Context {L : Type}.
Implicit Types (s : sock_state L) (p : Z).

Lemma upd_sock_ok s k f : is_Some (ss_socks s !! k) -> upd_sock s k f = Ok (set_socks s (alter f k (ss_socks s))).
Proof. intros [so Hs]. unfold upd_sock, sock_at. rewrite Hs. osimpl. by rewrite (alter_insert_eq _ _ _ _ Hs). Qed.

Lemma remove_sock_ok s b p e :
  on_socks (ss_ess s) (ss_socks s) b None -> ss_ess s !! p = Some e -> exists A B,
    b (es_s e) = A ++ p :: B /\
    es_remove_sock s p = Ok (set_ess (set_socks s (alter (set_so_eps (head (A ++ B))) (es_s e) (ss_socks s)))
                               (so_unlink p A B (ss_ess s))).
Proof.
  intros O He. destruct (sock_split _ _ _ _ _ O He) as (A & B & E & Hpv & Hnx). exists A, B. split; [done|].
  destruct (os_live _ _ _ _ O p e He) as [so Hso]. pose proof (os_head _ _ _ _ O _ _ Hso) as Hh. rewrite E in Hh.
  assert (Hl : forall q, q ∈ A ++ p :: B -> is_Some (ss_ess s !! q)).
  { intros q Hq. rewrite <- E in Hq. apply (os_mem _ _ _ _ O) in Hq as [_ Hq]. rewrite lookup_fmap in Hq.
    destruct (ss_ess s !! q); [by eexists|done]. }
  unfold es_remove_sock. rewrite (es_at_ok _ _ _ He). osimpl. rewrite Hpv, Hnx. unfold unlink.
  destruct (last A) as [x|] eqn:EA.
  - rewrite upd_es_ok by (apply Hl; apply last_elem in EA; set_solver). osimpl.
    assert (alter (set_so_eps (head (A ++ B))) (es_s e) (ss_socks s) = ss_socks s) as ->.
    { rewrite (alter_insert_eq _ _ _ _ Hso). apply insert_id. rewrite Hso. f_equal.
      rewrite <- (head_skip A p B) by congruence. rewrite <- Hh. by destruct so. }
    destruct (head B) as [y|] eqn:EB; [|done].
    rewrite upd_es_ok by (apply live_alter, Hl; apply head_elem in EB; set_solver). done.
  - apply last_None_nil in EA as ->. rewrite upd_sock_ok by by eexists. osimpl.
    destruct (head B) as [y|] eqn:EB; simpl; rewrite ?EB; [|done].
    rewrite upd_es_ok by (apply Hl; apply head_elem in EB; set_solver). done.
Qed.

End RemoveSock.
