(* ===== verification/SockEpollInv.v ===== *)
(** * Readiness in the socket library

    The lists of SockReady stay well formed, and a socket with an event that an
    epoll waits for is always on the active list of the epoll: no event is lost. *)
From S2P Require Import Prelude RdmaQueue Packets LibTas LibPoll SockState SockReady SockPoll SockReadySpec.

#[local] Open Scope Z_scope.

Section Inv.
Context {L : Type}.
Abbreviation state := (sock_state L).
Implicit Types (s : state) (p q k ep : Z) (a : Z -> bool -> list Z) (b : Z -> list Z) (e : epoll_socket) (so : socket).

(** Whether the socket has an event that the entry waits for. *)
Definition wanted so e : bool := has_any (ep_events so) (es_mask e).

Record epoll_ok s a b : Prop := {
  eo_lists : lists_wf s a None;
  eo_socks : on_socks (ss_ess s) (ss_socks s) b None;
  eo_ready : forall p e so, ss_ess s !! p = Some e -> ss_socks s !! es_s e = Some so -> wanted so e = true -> es_active e = true;
}.
Definition epoll_inv s : Prop := exists a b, epoll_ok s a b.

(** What is not about lists and events. *)
Definition plain so := (so_conn so, so_listen so, so_addr so, so_flags so, so_type so, so_refcnt so, so_lock so).

Lemma es_of s b k p D : on_socks (ss_ess s) (ss_socks s) b D -> p ∈ b k -> exists e, ss_ess s !! p = Some e /\ es_s e = k.
Proof.
  intros O [_ Hp]%(os_mem _ _ _ _ O). rewrite lookup_fmap in Hp. destruct (ss_ess s !! p) as [e|]; [|done].
  injection Hp as <-. eauto.
Qed.

Lemma es_on s a ep c p : on_lists (ss_ess s) (ss_eps s) a None -> p ∈ a ep c ->
  exists e, ss_ess s !! p = Some e /\ es_ep e = ep /\ es_active e = c.
Proof.
  intros O [_ Hp]%(ol_mem _ _ _ _ O). rewrite lookup_fmap in Hp. destruct (ss_ess s !! p) as [e|]; [|done].
  injection Hp as <- <-. eauto.
Qed.

Lemma in_b s b p e : on_socks (ss_ess s) (ss_socks s) b None -> ss_ess s !! p = Some e -> p ∈ b (es_s e).
Proof. intros O He. apply (os_mem _ _ _ _ O). split; [done|]. by rewrite lookup_fmap, He. Qed.
Lemma in_a s a p e : lists_wf s a None -> ss_ess s !! p = Some e -> p ∈ a (es_ep e) (es_active e).
Proof. intros [O _] He. apply (ol_mem _ _ _ _ O). split; [done|]. by rewrite lookup_fmap, He. Qed.

Lemma b_length s b k : on_socks (ss_ess s) (ss_socks s) b None -> (length (b k) <= size (ss_ess s))%nat.
Proof.
  intros O. apply NoDup_size; [|apply O]. intros q Hq. destruct (es_of _ _ _ _ _ O Hq) as (x & ? & _). eauto.
Qed.

Lemma only_lists_socks s s' : only_lists s s' -> ss_socks s' = ss_socks s.
Proof. intros [-> _ _]. done. Qed.

(** The activity of an entry, by address. *)
Lemma act_lookup s s' p e e' q v :
  es_active <$> ss_ess s' = <[q := v]> (es_active <$> ss_ess s) ->
  ss_ess s !! p = Some e -> ss_ess s' !! p = Some e' -> es_active e' = if decide (p = q) then v else es_active e.
Proof.
  intros A He He'. assert (Q : (es_active <$> ss_ess s') !! p = Some (es_active e')) by by rewrite lookup_fmap, He'.
  rewrite A in Q. destruct (decide (p = q)) as [->|].
  - rewrite lookup_insert_eq in Q. by injection Q.
  - rewrite lookup_insert_ne, lookup_fmap, He in Q by done. by injection Q.
Qed.

(** ** New events *)

(** Readiness of all entries but those in [l], which the loop has yet to visit. *)
Definition ready_but s (l : list Z) : Prop :=
  forall p e so, ss_ess s !! p = Some e -> ss_socks s !! es_s e = Some so -> p ∉ l -> wanted so e = true -> es_active e = true.

Lemma fixed_entry s s' p e' :
  fixed <$> ss_ess s' = fixed <$> ss_ess s -> ss_ess s' !! p = Some e' -> exists e, ss_ess s !! p = Some e /\ fixed e = fixed e'.
Proof. apply fmap_lookup_inv. Qed.

Lemma wanted_fixed so e e' : fixed e = fixed e' -> wanted so e = wanted so e'.
Proof. intros [= _ _ _ E _ _]. unfold wanted. by rewrite E. Qed.

Lemma epoll_set_loop_ok k so newevs l2 : forall fuel s a b l1,
  lists_wf s a None -> on_socks (ss_ess s) (ss_socks s) b None -> ss_socks s !! k = Some so ->
  b k = l1 ++ l2 -> ready_but s l2 -> (length l2 < fuel)%nat ->
  (forall m, has_any (ep_events so) m = true -> has_any newevs m = true \/ forall p e, p ∈ l2 ->
     ss_ess s !! p = Some e -> es_mask e = m -> es_active e = true) ->
  exists s' a', epoll_set_loop fuel s (head l2) newevs = Ok s' /\ epoll_ok s' a' b /\ only_lists s s' /\
    (forall p e e', ss_ess s !! p = Some e -> ss_ess s' !! p = Some e' -> es_active e = true -> es_active e' = true).
Proof.
  induction l2 as [|p l2 IH]; intros fuel s a b l1 W O Hk E R Hf Hnew.
  - exists s, a. destruct fuel; (split; [done|]); (split; [|split; [apply only_lists_refl|congruence]]); 
      (split; [done|done|]); intros p e x He Hx Hw; (eapply R; [done|done|set_solver|done]).
  - destruct fuel as [|fuel]; simpl in Hf; [lia|].
    destruct (os_dll _ _ _ _ O k l1 p l2 E) as (e & He & Hpv & Hnx).
    assert (Hs : es_s e = k).
    { assert (Hin : p ∈ b k) by (rewrite E; set_solver). destruct (es_of _ _ _ _ _ O Hin) as (? & ? & ?). congruence. }
    cbn [epoll_set_loop head]. rewrite (es_at_ok _ _ _ He). osimpl.
    assert (Hstep : exists s1 a1, (if has_any newevs (es_mask e) then es_activate s p else mret s) = Ok s1 /\
      lists_wf s1 a1 None /\ only_lists s s1 /\
      (forall q x x', ss_ess s !! q = Some x -> ss_ess s1 !! q = Some x' -> es_active x = true -> es_active x' = true) /\
      (forall x', ss_ess s1 !! p = Some x' -> has_any newevs (es_mask e) = true -> es_active x' = true)).
    { destruct (has_any newevs (es_mask e)); [|exists s, a; split_and!; try done; [apply only_lists_refl|congruence]].
      destruct (es_active e) eqn:Ha.
      - exists s, a. unfold es_activate. rewrite (es_at_ok _ _ _ He). osimpl. rewrite Ha.
        split_and!; try done; [apply only_lists_refl|congruence|congruence].
      - destruct (activate_wf s a p e W He Ha) as (s1 & Hs1 & F & A & W1). exists s1. eexists. split_and!; [done|exact W1|done| |].
        + intros q x x' Hx Hx' Hax. rewrite (act_lookup _ _ _ _ _ _ _ A Hx Hx'). by destruct (decide _).
        + intros x' Hx' _. rewrite (act_lookup _ _ _ _ _ _ _ A He Hx'). by rewrite decide_True. }
    destruct Hstep as (s1 & a1 & Hs1 & W1 & F1 & Grow & Act). rewrite Hs1. osimpl.
    assert (O1 : on_socks (ss_ess s1) (ss_socks s1) b None).
    { rewrite (only_lists_socks _ _ F1). eapply on_socks_fixed; [apply F1|done]. }
    destruct (os_dll _ _ _ _ O1 k l1 p l2 E) as (e1 & He1 & _ & Hnx1). rewrite (es_at_ok _ _ _ He1). osimpl. rewrite Hnx1.
    assert (Hfix : forall q x', ss_ess s1 !! q = Some x' -> exists x, ss_ess s !! q = Some x /\ fixed x = fixed x')
      by (intros q x'; apply fixed_entry, F1).
    destruct (IH fuel s1 a1 b (l1 ++ [p])) as (s' & a' & Hs' & K' & F' & G'); try done.
    + by rewrite (only_lists_socks _ _ F1).
    + by rewrite <- app_assoc.
    + intros q x' x0 Hx' Hx0 Hq Hw. rewrite (only_lists_socks _ _ F1) in Hx0.
      destruct (Hfix q x' Hx') as (x & Hx & Hf'). rewrite <- (wanted_fixed _ _ _ Hf') in Hw.
      assert (es_s x' = es_s x) as Es by (by injection Hf'). rewrite Es in Hx0.
      destruct (decide (q = p)) as [->|Hqp].
      * rewrite He in Hx. injection Hx as <-. rewrite Hs, Hk in Hx0. injection Hx0 as <-.
        destruct (Hnew (es_mask e) Hw) as [Hnv|Hold]; [by apply Act|].
        apply (Grow p e x' He Hx'). apply (Hold p e); [left|done|done].
      * apply (Grow q x x' Hx Hx'). apply (R q x x0); try done. intros [?|?]%elem_of_cons; done.
    + lia.
    + intros m Hm. destruct (Hnew m Hm) as [?|Hold]; [by left|right]. intros q x' Hq Hx' Hmx.
      destruct (Hfix q x' Hx') as (x & Hx & Hf'). apply (Grow q x x' Hx Hx').
      apply (Hold q x); [by right|done|]. injection Hf' as _ _ _ ? _ _. congruence.
    + exists s', a'. split; [done|]. split; [done|]. split; [by eapply only_lists_trans|].
      intros q x x' Hx Hx' Hax.
      destruct (ss_ess s1 !! q) as [x1|] eqn:Hx1.
      * by apply (G' q x1 x' Hx1 Hx'), (Grow q x x1).
      * exfalso. destruct (fmap_lookup_inv fixed (ss_ess s1) (ss_ess s') q x' (on_fixed _ _ F') Hx') as (? & ? & _). congruence.
Qed.

(** The bits of the new events. *)
Definition new_events (old evts : Z) : Z := Z.land (u32 (Z.lnot old)) evts.

Lemma new_events_bit old evts i :
  0 <= evts < 4294967296 -> 0 <= i -> Z.testbit (new_events old evts) i = negb (Z.testbit old i) && Z.testbit evts i.
Proof.
  intros He Hi. unfold new_events, u32. rewrite Z.land_spec. destruct (Z.ltb_spec i 32).
  - change 4294967296 with (2 ^ 32). rewrite Z.mod_pow2_bits_low, Z.lnot_spec by lia. done.
  - assert (Z.testbit evts i = false) as ->; [|by rewrite !andb_false_r].
    destruct (Z.eq_dec evts 0) as [->|]; [apply Z.bits_0|].
    apply Z.bits_above_log2; [lia|]. apply Z.log2_lt_pow2; [lia|]. apply Z.lt_le_trans with (2 ^ 32); [lia|].
    apply Z.pow_le_mono_r; lia.
Qed.

Lemma has_any_new old evts m :
  0 <= evts < 4294967296 -> has_any (Z.lor old evts) m = true ->
  has_any old m = true \/ has_any (new_events old evts) m = true.
Proof.
  intros He. unfold has_any. rewrite !negb_true_iff, !Z.eqb_neq. intros Hn.
  destruct (Z.eq_dec (Z.land old m) 0) as [E1|]; [right|by left]. intros E2. apply Hn. apply Z.bits_inj'. intros i Hi.
  apply (f_equal (fun x => Z.testbit x i)) in E1, E2. rewrite Z.land_spec, Z.bits_0 in *.
  rewrite new_events_bit in E2 by done. rewrite Z.lor_spec.
  destruct (Z.testbit old i), (Z.testbit evts i), (Z.testbit m i); done.
Qed.

Lemma new_events_none old evts : 0 <= evts < 4294967296 -> new_events old evts = 0 -> Z.lor old evts = old.
Proof.
  intros He E. apply Z.bits_inj'. intros i Hi. apply (f_equal (fun x => Z.testbit x i)) in E.
  rewrite new_events_bit, Z.bits_0 in E by done. rewrite Z.lor_spec. destruct (Z.testbit old i), (Z.testbit evts i); done.
Qed.

Lemma put_sock_eps s k so so' :
  ss_socks s !! k = Some so -> so_eps so' = so_eps so -> so_eps <$> ss_socks (put_sock s k so') = so_eps <$> ss_socks s.
Proof. intros Hk E. simpl. rewrite fmap_insert, E. apply insert_id. by rewrite lookup_fmap, Hk. Qed.

Lemma epoll_set_ok s a b k so evts :
  epoll_ok s a b -> ss_socks s !! k = Some so -> 0 <= evts < 4294967296 ->
  exists s' a', flextcp_epoll_set s k evts = Ok s' /\ epoll_ok s' a' b /\
    only_lists (put_sock s k (set_ep_events (Z.lor (ep_events so) evts) so)) s'.
Proof.
  intros [W O R] Hk He. unfold flextcp_epoll_set. rewrite (sock_at_ok _ _ _ Hk). osimpl.
  change (Z.land (u32 (Z.lnot (ep_events so))) evts) with (new_events (ep_events so) evts).
  destruct (Z.eqb_spec (new_events (ep_events so) evts) 0) as [E0|_].
  - exists s, a. split; [done|]. split; [done|]. rewrite (new_events_none _ _ He E0).
    replace (put_sock s k _) with s; [apply only_lists_refl|]. destruct s; unfold put_sock, set_socks. simpl in *. f_equal.
    symmetry. apply insert_id. rewrite Hk. by destruct so.
  - set (so' := set_ep_events _ so). set (s1 := put_sock s k so').
    assert (Hk1 : ss_socks s1 !! k = Some so') by apply lookup_insert_eq.
    assert (O1 : on_socks (ss_ess s1) (ss_socks s1) b None) by (eapply on_socks_heads; [by apply (put_sock_eps s k so)|exact O]).
    pose proof (os_head _ _ _ _ O1 _ _ Hk1) as Hh. change (so_eps so') with (so_eps so) in Hh.
    assert (W1 : lists_wf s1 a None) by (by destruct W).
    pose proof (b_length _ _ k O) as Hlen.
    destruct (epoll_set_loop_ok k so' (new_events (ep_events so) evts) (b k) (S (size (ss_ess s))) s1 a b []) as
      (s' & a' & Hs' & K & F & _); try done.
    + intros p e x Hp Hx Hnp Hw. destruct (decide (es_s e = k)) as [Ek|Ek].
      * exfalso. apply Hnp. rewrite <- Ek. apply (in_b s1 b p e O1 Hp).
      * apply (R p e x); [done| |done]. simpl in Hx. by rewrite lookup_insert_ne in Hx.
    + lia.
    + intros m Hm. destruct (has_any_new _ _ _ He Hm) as [Hold|?]; [right|by left].
      intros p e Hp Hpe Hme. apply (R p e so); [done| |unfold wanted; by rewrite Hme].
      destruct (es_of _ _ _ _ _ O1 Hp) as (e' & He' & Es). simpl in *. congruence.
    + exists s', a'. rewrite Hh. split_and!; done.
Qed.

(** Fewer events wake nobody. *)
Lemma epoll_clear_ok s a b k so evts :
  epoll_ok s a b -> ss_socks s !! k = Some so ->
  flextcp_epoll_clear s k evts = Ok (put_sock s k (set_ep_events (Z.land (ep_events so) (Z.lnot evts)) so)) /\
  epoll_ok (put_sock s k (set_ep_events (Z.land (ep_events so) (Z.lnot evts)) so)) a b.
Proof.
  intros [W O R] Hk. unfold flextcp_epoll_clear. rewrite upd_sock_ok by by eexists.
  rewrite (alter_insert_eq _ _ _ _ Hk). split; [done|]. constructor; [by destruct W|by eapply on_socks_heads; [apply (put_sock_eps s k so)|]|].
  intros p e x Hp Hx Hw. simpl in Hp, Hx. destruct (decide (k = es_s e)) as [->|].
  - rewrite lookup_insert_eq in Hx. injection Hx as <-. apply (R p e so); [done|done|].
    unfold wanted, has_any in *. rewrite negb_true_iff, Z.eqb_neq in *. simpl in Hw. intros E. apply Hw.
    apply Z.bits_inj'. intros i Hi. apply (f_equal (fun x => Z.testbit x i)) in E.
    rewrite !Z.land_spec, Z.bits_0 in *. destruct (Z.testbit (ep_events so) i), (Z.testbit (es_mask e) i); try done.
    by rewrite andb_false_r.
  - rewrite lookup_insert_ne in Hx by done. by apply (R p e x).
Qed.

(** Changes of a socket that are not about lists and events. *)
Lemma epoll_ok_plain s a b k so so' :
  epoll_ok s a b -> ss_socks s !! k = Some so -> so_eps so' = so_eps so -> ep_events so' = ep_events so ->
  epoll_ok (put_sock s k so') a b.
Proof.
  intros [W O R] Hk E1 E2. constructor; [by destruct W|eapply on_socks_heads; [by apply (put_sock_eps s k so)|done]|].
  intros p e x Hp Hx Hw. simpl in Hp, Hx. destruct (decide (k = es_s e)) as [->|].
  - rewrite lookup_insert_eq in Hx. injection Hx as <-. apply (R p e so); [done|done|]. unfold wanted in *. by rewrite <- E2.
  - rewrite lookup_insert_ne in Hx by done. by apply (R p e x).
Qed.

(** ** Entries go *)

Definition ep_links (e : epoll_socket) := (es_ep e, es_active e, ep_next e, ep_prev e).
Definition core (e : epoll_socket) := (es_ep e, es_s e, es_data e, es_mask e, es_active e).
Definition no_list so := (plain so, ep_events so).

(** What the removal of entries leaves alone. *)
Record fewer s s' : Prop := {
  fw_rest : s' = set_eps (set_ess (set_socks s (ss_socks s')) (ss_ess s')) (ss_eps s');
  fw_socks : no_list <$> ss_socks s' = no_list <$> ss_socks s;
  fw_eps : efixed <$> ss_eps s' = efixed <$> ss_eps s;
  fw_ess : forall n e', ss_ess s' !! n = Some e' -> exists e, ss_ess s !! n = Some e /\ core e = core e';
}.
Lemma fewer_refl s : fewer s s.
Proof. split; try done; [by destruct s|eauto]. Qed.
Lemma fewer_trans s1 s2 s3 : fewer s1 s2 -> fewer s2 s3 -> fewer s1 s3.
Proof.
  intros [A1 B1 C1 D1] [A2 B2 C2 D2]. split; [rewrite A2; by rewrite A1|congruence|congruence|].
  intros n e' Hn. destruct (D2 n e' Hn) as (x & Hx & Ex). destruct (D1 n x Hx) as (y & Hy & Ey). exists y. split; congruence.
Qed.

Lemma on_lists_links ess ess' eps a D :
  ep_links <$> ess' = ep_links <$> ess -> on_lists ess eps a D -> on_lists ess' eps a D.
Proof.
  intros F O.
  assert (K : key <$> ess' = key <$> ess).
  { assert (Hg : forall m : gmap Z epoll_socket, key <$> m = (fun '(x, y, _, _) => (x, y)) <$> (ep_links <$> m)).
    { intros m. rewrite <- map_fmap_compose. by apply map_fmap_ext. }
    by rewrite !Hg, F. }
  constructor; try apply O.
  - intros ep c p. rewrite K. apply O.
  - intros ep c l1 p l2 E. destruct (ol_dll _ _ _ _ O ep c l1 p l2 E) as (e & He & Hp & Hn).
    destruct (fmap_lookup_inv ep_links ess' ess p e (eq_sym F) He) as (e' & He' & Hf). injection Hf as _ _ Hn' Hp'.
    exists e'. split_and!; congruence.
  - intros p e He. destruct (fmap_lookup_inv ep_links _ _ _ _ F He) as (e0 & He0 & Hf). injection Hf as <- _ _ _.
    by apply (ol_live _ _ _ _ O p).
Qed.

Lemma on_lists_free ess eps a p : on_lists ess eps a (Some p) -> on_lists (delete p ess) eps a None.
Proof.
  intros O. constructor; try apply O.
  - intros ep c q. rewrite (ol_mem _ _ _ _ O), fmap_delete. split.
    + intros [? ?]. split; [done|]. by rewrite lookup_delete_ne by congruence.
    + intros [_ Hq]. apply lookup_delete_Some in Hq as [? ?]. split; [congruence|done].
  - intros ep c. apply (dll_frame _ _ ess); [apply O|]. intros q e Hq He. apply (ol_mem _ _ _ _ O) in Hq as [? _].
    exists e. by rewrite lookup_delete_ne by congruence.
  - intros q e Hq. apply lookup_delete_Some in Hq as [? Hq]. by apply (ol_live _ _ _ _ O q).
Qed.

Lemma on_socks_free ess socks b p : on_socks ess socks b (Some p) -> on_socks (delete p ess) socks b None.
Proof.
  intros O. constructor; try apply O.
  - intros k q. rewrite (os_mem _ _ _ _ O), fmap_delete. split.
    + intros [? ?]. split; [done|]. by rewrite lookup_delete_ne by congruence.
    + intros [_ Hq]. apply lookup_delete_Some in Hq as [? ?]. split; [congruence|done].
  - intros k. apply (dll_frame _ _ ess); [apply O|]. intros q e Hq He. apply (os_mem _ _ _ _ O) in Hq as [? _].
    exists e. by rewrite lookup_delete_ne by congruence.
  - intros q e Hq. apply lookup_delete_Some in Hq as [? Hq]. by apply (os_live _ _ _ _ O q).
Qed.

Lemma remove_es_ok s a b p e :
  epoll_ok s a b -> ss_ess s !! p = Some e -> exists s',
    remove_es s p = Ok s' /\ epoll_ok s' (a_remove p a) (fun k => without p (b k)) /\ fewer s s' /\
    core <$> ss_ess s' = delete p (core <$> ss_ess s).
Proof.
  intros [W O R] He. unfold remove_es. destruct (remove_sock_ok s b p e O He) as (A & B & E & ->). osimpl.
  set (s1 := set_ess _ _).
  assert (O1 : on_socks (ss_ess s1) (ss_socks s1) (fun k => without p (b k)) (Some p)) by (by apply on_socks_unlink).
  assert (F1 : ep_links <$> ss_ess s1 = ep_links <$> ss_ess s) by (simpl; unfold unlink; by rewrite !fmap_oalter_same).
  assert (C1 : core <$> ss_ess s1 = core <$> ss_ess s) by (simpl; unfold unlink; by rewrite !fmap_oalter_same).
  assert (W1 : lists_wf s1 a None).
  { split; [eapply on_lists_links; [exact F1|apply W]|]. rewrite <- (map_size_fmap ep_links (ss_ess s1)), F1, map_size_fmap. apply W. }
  destruct (fmap_lookup_inv core (ss_ess s1) (ss_ess s) p e (eq_sym C1) He) as (e1 & He1 & _).
  destruct (remove_wf s1 a p e1 W1 He1) as (s2 & e2 & -> & W2 & F2 & A2 & He2 & _ & _). osimpl.
  assert (Hsk : no_list <$> ss_socks s1 = no_list <$> ss_socks s) by (simpl; by apply fmap_alter_same).
  assert (C2 : core <$> ss_ess s2 = core <$> ss_ess s1).
  { assert (Hg : forall m : gmap Z epoll_socket,
      core <$> m = map_zip_with (fun '(x1, x2, x3, x4, _, _) y => (x1, x2, x3, x4, y)) (fixed <$> m) (es_active <$> m)).
    { intros m. apply map_eq. intros i. rewrite map_lookup_zip_with, !lookup_fmap. by destruct (m !! i). }
    by rewrite !Hg, A2, (on_fixed _ _ F2). }
  eexists. split; [done|]. split; [|split].
  - constructor.
    + split; [apply on_lists_free, W2|]. simpl. pose proof (lw_size _ _ _ W2).
      enough (size (delete p (ss_ess s2)) <= size (ss_ess s2))%nat by lia. apply map_subseteq_size, delete_subseteq.
    + apply on_socks_free. rewrite (on_rest _ _ F2). simpl. eapply on_socks_fixed; [apply F2|exact O1].
    + intros q x so Hx Hso Hw. simpl in Hx. apply lookup_delete_Some in Hx as [Hq Hx].
      assert (C : core <$> ss_ess s2 = core <$> ss_ess s) by congruence.
      destruct (fmap_lookup_inv core _ _ _ _ C Hx) as (y & Hy & Hc). injection Hc as _ Es _ Em Ea.
      assert (Hss : ss_socks (free_es s2 p) = ss_socks s1) by by rewrite (on_rest _ _ F2).
      rewrite Hss in Hso. destruct (fmap_lookup_inv no_list _ _ _ _ Hsk Hso) as (so' & Hso' & Hn). injection Hn as _ _ _ _ _ _ _ Ev.
      rewrite <- Ea. apply (R q y so'); [done|congruence|]. unfold wanted in *. by rewrite Ev, Em.
  - split; [rewrite (on_rest _ _ F2); by destruct s|rewrite (on_rest _ _ F2); exact Hsk| |].
    + rewrite (on_rest _ _ F2). simpl. by rewrite (on_efixed _ _ F2).
    + intros n x Hn. simpl in Hn. apply lookup_delete_Some in Hn as [_ Hn].
      apply (fmap_lookup_inv core (ss_ess s) (ss_ess s2)); [congruence|done].
  - simpl. rewrite fmap_delete, C2, C1. done.
Qed.

Lemma fewer_lookup s s' k so : fewer s s' -> ss_socks s !! k = Some so -> exists so', ss_socks s' !! k = Some so' /\ no_list so' = no_list so.
Proof. intros F Hk. destruct (fmap_lookup_inv no_list _ _ _ _ (eq_sym (fw_socks _ _ F)) Hk) as (so' & ? & ?). eauto. Qed.

Lemma without_cons p l : NoDup (p :: l) -> without p (p :: l) = l.
Proof. intros Hn. exact (without_split p [] l Hn). Qed.

Lemma sockclose_ok k : forall fuel s a b so,
  epoll_ok s a b -> ss_socks s !! k = Some so -> (length (b k) < fuel)%nat ->
  exists s' a' b', sockclose_loop fuel s k = Ok s' /\ epoll_ok s' a' b' /\ fewer s s' /\ b' k = [].
Proof.
  induction fuel as [|fuel IH]; intros s a b so K Hk Hf; [lia|].
  cbn [sockclose_loop]. rewrite (sock_at_ok _ _ _ Hk). osimpl. rewrite (os_head _ _ _ _ (eo_socks _ _ _ K) _ _ Hk).
  destruct (b k) as [|p l] eqn:El; cbn [head].
  - exists s, a, b. split; [done|]. split; [done|]. split; [apply fewer_refl|done].
  - assert (Hp : p ∈ b k) by (rewrite El; left). destruct (es_of _ _ _ _ _ (eo_socks _ _ _ K) Hp) as (e & He & _).
    destruct (remove_es_ok s a b p e K He) as (s1 & -> & K1 & F1 & _). osimpl.
    destruct (fewer_lookup _ _ _ _ F1 Hk) as (so1 & Hk1 & _).
    destruct (IH s1 _ _ so1 K1 Hk1) as (s' & a' & b' & Hs' & K' & F' & Hb').
    { cbv beta. rewrite El, without_cons; [simpl in Hf; lia|]. rewrite <- El. apply (eo_socks _ _ _ K). }
    exists s', a', b'. split_and!; eauto using fewer_trans.
Qed.

Lemma epoll_sockclose_ok s a b k so :
  epoll_ok s a b -> ss_socks s !! k = Some so ->
  exists s' a' b', flextcp_epoll_sockclose s k = Ok s' /\ epoll_ok s' a' b' /\ fewer s s' /\ b' k = [].
Proof.
  intros K Hk. eapply sockclose_ok; [done|done|]. pose proof (b_length _ _ k (eo_socks _ _ _ K)). lia.
Qed.

(** A socket without entries can be freed. *)
Lemma epoll_ok_free s a b k : epoll_ok s a b -> b k = [] -> epoll_ok (free_socket s k) a b.
Proof.
  intros [W O R] Hb. constructor; [by destruct W| |].
  - constructor; try apply O.
    + intros i so Hi. simpl in Hi. apply lookup_delete_Some in Hi as [? Hi]. by apply (os_head _ _ _ _ O).
    + intros p e He. simpl. assert (k <> es_s e) as Hn.
      { intros ->. pose proof (in_b s b p e O He) as Hin. rewrite Hb in Hin. by apply not_elem_of_nil in Hin. }
      rewrite lookup_delete_ne by done. by apply (os_live _ _ _ _ O p).
  - intros p e so He Hso. simpl in He, Hso. apply lookup_delete_Some in Hso as [? Hso]. by apply (R p e so).
Qed.

Lemma efixed_live s s' ep : efixed <$> ss_eps s' = efixed <$> ss_eps s -> is_Some (ss_eps s !! ep) -> is_Some (ss_eps s' !! ep).
Proof.
  intros F [e He]. destruct (fmap_lookup_inv efixed _ _ _ _ (eq_sym F) He) as (e' & ? & _). by eexists.
Qed.

(** Both loops of [flextcp_epoll_destroy], on the list [c]. *)
Lemma destroy_loop_ok ep (c : bool) (hd : epoll -> option Z) : (forall x, hd x = if c then e_active_first x else e_inactive x) ->
  forall fuel s a b, epoll_ok s a b -> is_Some (ss_eps s !! ep) -> (length (a ep c) < fuel)%nat ->
  exists s' a' b', destroy_loop fuel s ep hd = Ok s' /\ epoll_ok s' a' b' /\ fewer s s' /\ a' ep c = [] /\
    (a ep (negb c) = [] -> a' ep (negb c) = []).
Proof.
  intros Hhd. induction fuel as [|fuel IH]; intros s a b K [e0 He0] Hf; [lia|].
  cbn [destroy_loop]. rewrite (epoll_at_ok _ _ _ He0). osimpl.
  assert (Hh : hd e0 = head (a ep c)).
  { pose proof (ol_ep _ _ _ _ (lw_on _ _ _ (eo_lists _ _ _ K)) _ _ c He0) as Hw. rewrite Hhd, <- Hw. by destruct c. }
  rewrite Hh. destruct (a ep c) as [|p l] eqn:El; cbn [head].
  - exists s, a, b. split_and!; try done. apply fewer_refl.
  - assert (Hp : p ∈ a ep c) by (rewrite El; left).
    destruct (es_on _ _ _ _ _ (lw_on _ _ _ (eo_lists _ _ _ K)) Hp) as (e & He & _ & _).
    destruct (remove_es_ok s a b p e K He) as (s1 & -> & K1 & F1 & _). osimpl.
    destruct (IH s1 _ _ K1) as (s' & a' & b' & Hs' & K' & F' & Ha' & Hn').
    { eapply efixed_live; [apply F1|by eexists]. }
    { unfold a_remove. rewrite El, without_cons; [simpl in Hf; lia|]. rewrite <- El. apply (lw_on _ _ _ (eo_lists _ _ _ K)). }
    exists s', a', b'. split_and!; eauto using fewer_trans. intros Hn. apply Hn'. unfold a_remove. by rewrite Hn.
Qed.

Lemma a_length s a b ep c : epoll_ok s a b -> (length (a ep c) <= size (ss_ess s))%nat.
Proof.
  intros K. apply NoDup_size; [|apply (lw_on _ _ _ (eo_lists _ _ _ K))]. intros q Hq.
  destruct (es_on _ _ _ _ _ (lw_on _ _ _ (eo_lists _ _ _ K)) Hq) as (x & ? & _). eauto.
Qed.

Lemma epoll_ok_free_epoll s a b ep : epoll_ok s a b -> a ep true = [] -> a ep false = [] -> epoll_ok (free_epoll s ep) a b.
Proof.
  intros [W O R] H1 H2. constructor; try done. destruct W as [W Hs]. split; [|done]. constructor; try apply W.
  - intros i x c Hi. simpl in Hi. apply lookup_delete_Some in Hi as [? Hi]. by apply (ol_ep _ _ _ _ W).
  - intros p e He. simpl. assert (ep <> es_ep e) as Hn.
    { intros ->. pose proof (in_a s a p e ltac:(by split) He) as Hin.
      destruct (es_active e); rewrite ?H1, ?H2 in Hin; by apply not_elem_of_nil in Hin. }
    rewrite lookup_delete_ne by done. by apply (ol_live _ _ _ _ W p).
Qed.

Lemma epoll_destroy_ok s a b ep (e : epoll) :
  epoll_ok s a b -> ss_eps s !! ep = Some e -> e_refcnt e = 0 ->
  exists s' s1 a' b', flextcp_epoll_destroy s ep = Ok s' /\ epoll_ok s' a' b' /\ fewer s s1 /\ s' = free_epoll s1 ep.
Proof.
  intros K He Hr. unfold flextcp_epoll_destroy. rewrite (epoll_at_ok _ _ _ He). osimpl. rewrite Hr. osimpl.
  destruct (destroy_loop_ok ep true e_active_first ltac:(done) (S (size (ss_ess s))) s a b K) as
    (s1 & a1 & b1 & -> & K1 & F1 & A1 & _); [by eexists|pose proof (a_length _ _ _ ep true K); lia|]. osimpl.
  destruct (destroy_loop_ok ep false e_inactive ltac:(done) (S (size (ss_ess s1))) s1 a1 b1 K1) as
    (s2 & a2 & b2 & -> & K2 & F2 & A2 & N2); [by eapply efixed_live; [apply F1|by eexists]|
    pose proof (a_length _ _ _ ep false K1); lia|]. osimpl.
  exists (free_epoll s2 ep), s2, a2, b2. split; [done|]. split; [|split; [by eapply fewer_trans|done]].
  apply epoll_ok_free_epoll; [done|by apply N2|done].
Qed.

(** ** Entries come *)

Definition heads (e : epoll) := (e_inactive e, e_active_first e, e_active_last e, num_active e).

Lemma epoll_ok_eps s a b ep (e e' : epoll) :
  epoll_ok s a b -> ss_eps s !! ep = Some e -> heads e' = heads e -> epoll_ok (put_epoll s ep e') a b.
Proof.
  intros [W O R] He Hh. constructor; try done. destruct W as [W Hs]. split; [|done]. constructor; try apply W.
  - intros i x c Hi. simpl in Hi. destruct (decide (ep = i)) as [->|].
    + rewrite lookup_insert_eq in Hi. injection Hi as <-. pose proof (ol_ep _ _ _ _ W i e c He) as Hw.
      destruct e, e'. unfold heads in Hh. simpl in Hh. injection Hh as -> -> -> ->.
      destruct c; unfold with_list, set_num_active, set_last, set_first, set_inactive in *; simpl in *; injection Hw as Hw; by rewrite ?Hw; congruence.
    + rewrite lookup_insert_ne in Hi by done. by apply (ol_ep _ _ _ _ W).
  - intros p x Hx. simpl. destruct (decide (ep = es_ep x)) as [->|]; [rewrite lookup_insert_eq; by eexists|].
    rewrite lookup_insert_ne by done. by apply (ol_live _ _ _ _ W p).
Qed.

Lemma on_lists_new ess eps a n e :
  on_lists ess eps a None -> ess !! n = None -> is_Some (eps !! es_ep e) -> on_lists (<[n := e]> ess) eps a (Some n).
Proof.
  intros O Hn Hl. constructor; try apply O.
  - intros ep c q. rewrite (ol_mem _ _ _ _ O), fmap_insert. split.
    + intros [_ Hq]. assert (n <> q) by (intros ->; by rewrite lookup_fmap, Hn in Hq).
      split; [congruence|]. by rewrite lookup_insert_ne.
    + intros [Hq Hk]. rewrite lookup_insert_ne in Hk by congruence. done.
  - intros ep c. apply (dll_frame _ _ ess); [apply O|]. intros q x Hq Hx. exists x.
    assert (n <> q) by congruence. by rewrite lookup_insert_ne.
  - intros q x Hx. destruct (decide (n = q)) as [->|].
    + rewrite lookup_insert_eq in Hx. by injection Hx as <-.
    + rewrite lookup_insert_ne in Hx by done. by apply (ol_live _ _ _ _ O q).
Qed.

Definition b_push (k n : Z) b : Z -> list Z := fun i => if decide (i = k) then n :: b k else b i.

Lemma on_socks_new ess socks b n e :
  on_socks ess socks b None -> ess !! n = None -> is_Some (socks !! es_s e) ->
  so_next e = head (b (es_s e)) -> so_prev e = None ->
  on_socks (oalter (set_so_prev (Some n)) (head (b (es_s e))) (<[n := e]> ess)) (alter (set_so_eps (Some n)) (es_s e) socks)
    (b_push (es_s e) n b) None.
Proof.
  intros O Hn [so Hso] Hnx Hpv. set (l := b (es_s e)) in *. set (h := <[n := e]> ess).
  assert (Hin : forall k q, q ∈ b k -> q <> n).
  { intros k q [_ Hq]%(os_mem _ _ _ _ O) ->. by rewrite lookup_fmap, Hn in Hq. }
  assert (S : es_s <$> oalter (set_so_prev (Some n)) (head l) h = <[n := es_s e]> (es_s <$> ess)).
  { rewrite fmap_oalter_same by done. apply fmap_insert. }
  assert (D0 : forall k, so_dll h (b k)).
  { intros k. apply (dll_frame _ _ ess); [apply O|]. intros q x Hq Hx. exists x. unfold h.
    rewrite lookup_insert_ne; [done|]. apply not_eq_sym. by apply (Hin k). }
  constructor.
  - intros k q. rewrite S. unfold b_push. destruct (decide (k = es_s e)) as [->|Hk].
    + rewrite elem_of_cons. fold l. unfold l. rewrite (os_mem _ _ _ _ O). destruct (decide (q = n)) as [->|].
      * rewrite lookup_insert_eq. naive_solver.
      * rewrite lookup_insert_ne by done. naive_solver.
    + rewrite (os_mem _ _ _ _ O). destruct (decide (q = n)) as [->|].
      * rewrite lookup_insert_eq, lookup_fmap, Hn. naive_solver.
      * by rewrite lookup_insert_ne.
  - intros k. unfold b_push. destruct (decide _); [|apply O]. apply NoDup_cons. split; [|apply O].
    intros Hq. by apply (Hin _ _ Hq).
  - intros k. unfold b_push. destruct (decide (k = es_s e)) as [->|Hk].
    + assert (push_front set_so_next set_so_prev n l h = oalter (set_so_prev (Some n)) (head l) h) as <-.
      { unfold push_front. f_equal. unfold h. rewrite (alter_twice _ _ _ _ e) by apply lookup_insert_eq.
        rewrite insert_insert_eq. f_equal. rewrite <- Hnx, <- Hpv. by destruct e. }
      apply dll_push_front; try done; [|unfold h; rewrite lookup_insert_eq; by eexists|apply O].
      intros Hq. by apply (Hin _ _ Hq).
    + apply (dll_frame _ _ h); [apply D0|]. intros q x Hq Hx. exists x. rewrite lookup_oalter, decide_False; [done|].
      intros Hl%head_elem. unfold l in Hl. apply (os_mem _ _ _ _ O) in Hl as [_ Hl]. apply (os_mem _ _ _ _ O) in Hq as [_ Hq]. congruence.
  - intros k x Hx. unfold b_push. destruct (decide (k = es_s e)) as [->|Hk].
    + rewrite lookup_alter_eq in Hx. destruct (socks !! es_s e); [|done]. by injection Hx as <-.
    + rewrite lookup_alter_ne in Hx by done. by apply (os_head _ _ _ _ O).
  - intros q x Hx. assert (Hq : (es_s <$> oalter (set_so_prev (Some n)) (head l) h) !! q = Some (es_s x)) by by rewrite lookup_fmap, Hx.
    rewrite S in Hq. assert (is_Some (socks !! es_s x)) as [y Hy].
    { destruct (decide (n = q)) as [->|]; [rewrite lookup_insert_eq in Hq; injection Hq as <-; by eexists|].
      rewrite lookup_insert_ne, lookup_fmap in Hq by done. destruct (ess !! q) as [x0|] eqn:Hx0; [|done].
      injection Hq as <-. by apply (os_live _ _ _ _ O q). }
    destruct (decide (es_s e = es_s x)) as [->|]; [rewrite lookup_alter_eq, Hy; by eexists|].
    rewrite lookup_alter_ne by done. by eexists.
Qed.

(** An entry is made active if the socket has an event for it: with that, all are ready. *)
Lemma activate_if_ready_ok s a b k so p e :
  lists_wf s a None -> on_socks (ss_ess s) (ss_socks s) b None -> ready_but s [p] ->
  ss_ess s !! p = Some e -> es_s e = k -> ss_socks s !! k = Some so ->
  exists s' a', activate_if_ready s k p = Ok s' /\ epoll_ok s' a' b /\ only_lists s s'.
Proof.
  intros W O R He Hs Hk. unfold activate_if_ready. rewrite (sock_at_ok _ _ _ Hk). osimpl. rewrite (es_at_ok _ _ _ He). osimpl.
  assert (Same : (wanted so e = true -> es_active e = true) -> epoll_ok s a b).
  { intros Hw. constructor; [done|done|]. intros q x y Hx Hy Hwx. destruct (decide (q = p)) as [->|]; [|eapply R; [done|done| |done]].
    - assert (x = e) as -> by congruence. assert (y = so) as -> by congruence. by apply Hw.
    - by intros ?%list_elem_of_singleton. }
  fold (wanted so e). destruct (wanted so e) eqn:Ew.
  2:{ exists s, a. split; [done|]. split; [by apply Same|apply only_lists_refl]. }
  unfold es_activate. rewrite (es_at_ok _ _ _ He). osimpl. destruct (es_active e) eqn:Ea.
  { exists s, a. split; [done|]. split; [by apply Same|apply only_lists_refl]. }
  destruct (activate_wf s a p e W He Ea) as (s' & Hs' & F & A & W').
  unfold es_activate in Hs'. rewrite (es_at_ok _ _ _ He) in Hs'. cbn [mbind outcome_bind] in Hs'. rewrite Ea in Hs'. rewrite Hs'.
  eexists s', _. split; [done|]. split; [|done]. constructor; [exact W'|rewrite (only_lists_socks _ _ F); eapply on_socks_fixed; [apply F|done]|].
  intros q x' y Hx Hy Hwx. destruct (fixed_entry _ _ _ _ (on_fixed _ _ F) Hx) as (x & Hx0 & Hf).
  rewrite (act_lookup _ _ _ _ _ _ _ A Hx0 Hx). destruct (decide (q = p)) as [->|]; [done|].
  rewrite (only_lists_socks _ _ F) in Hy. rewrite <- (wanted_fixed _ _ _ Hf) in Hwx.
  assert (es_s x' = es_s x) as Es by (by injection Hf). rewrite Es in Hy.
  eapply R; [done|done| |done]. by intros ?%list_elem_of_singleton.
Qed.

Lemma epoll_ok_errno s a b v : epoll_ok s a b -> epoll_ok (set_errno s v) a b.
Proof. intros [[? ?] ? ?]. by split. Qed.

Lemma epoll_add_ok s a b k so ep (e0 : epoll) ev n :
  epoll_ok s a b -> ss_socks s !! k = Some so -> ss_eps s !! ep = Some e0 ->
  ss_ess s !! n = None -> Z.of_nat (size (ss_ess s)) + 1 < 4294967296 ->
  exists s' a', epoll_add s k ep None ev (Some n) = Ok (0, s') /\ epoll_ok s' a' (b_push k n b) /\
    exists e', ss_ess s' !! n = Some e' /\ es_ep e' = ep /\ es_s e' = k /\ es_data e' = ev_data ev /\
      es_mask e' = Z.lor (ev_events ev) EPOLLERR.
Proof.
  intros K Hk He Hn Hsize. unfold epoll_add. rewrite (upd_epoll_ok _ _ _ _ He). osimpl.
  set (s0 := set_eps s _).
  assert (K0 : epoll_ok s0 a b) by (apply (epoll_ok_eps s a b ep e0); done).
  change (sock_at s0 k) with (sock_at s k). rewrite (sock_at_ok _ _ _ Hk). osimpl.
  set (e := mk_es _ _ _ _ _ _ _ _ _). set (s1 := put_es s0 n e).
  pose proof (os_head _ _ _ _ (eo_socks _ _ _ K) _ _ Hk) as Hh.
  assert (Hup : forall q, so_eps so = Some q -> is_Some (ss_ess s1 !! q)).
  { intros q Hq. rewrite Hh in Hq. apply head_elem in Hq. destruct (es_of _ _ _ _ _ (eo_socks _ _ _ K) Hq) as (x & Hx & _).
    simpl. destruct (decide (n = q)) as [->|]; [rewrite lookup_insert_eq; by eexists|]. rewrite lookup_insert_ne by done. by eexists. }
  assert (match so_eps so with Some q => upd_es s1 q (set_so_prev (Some n)) | None => mret s1 end =
    Ok (set_ess s1 (oalter (set_so_prev (Some n)) (so_eps so) (ss_ess s1)))) as ->.
  { destruct (so_eps so) as [q|]; [by rewrite upd_es_ok by (by apply Hup)|done]. }
  osimpl. rewrite upd_sock_ok by (by eexists). osimpl. set (s2 := set_socks _ _).
  assert (O2 : on_socks (ss_ess s2) (ss_socks s2) (b_push k n b) None).
  { simpl. rewrite Hh. apply (on_socks_new _ _ _ _ e); [apply K|done|by eexists|done|done]. }
  assert (Hek : ep_links <$> ss_ess s2 = ep_links <$> <[n := e]> (ss_ess s)) by (simpl; by apply fmap_oalter_same).
  assert (W2 : lists_wf s2 a (Some n)).
  { split.
    - eapply on_lists_links; [exact Hek|]. apply on_lists_new; [apply (lw_on _ _ _ (eo_lists _ _ _ K0))|done|].
      simpl. rewrite lookup_insert_eq. by eexists.
    - rewrite <- (map_size_fmap ep_links (ss_ess s2)), Hek, map_size_fmap, map_size_insert_None by done. lia. }
  destruct (fmap_lookup_inv ep_links (ss_ess s2) (<[n := e]> (ss_ess s)) n e (eq_sym Hek)) as (e2 & He2 & Hl2); [apply lookup_insert_eq|].
  assert (e2 = e) as ->.
  { simpl in He2. rewrite lookup_oalter, decide_False, lookup_insert_eq in He2; [by injection He2 as <-|].
    rewrite Hh. intros Hq%head_elem. destruct (es_of _ _ _ _ _ (eo_socks _ _ _ K) Hq) as (x & Hx & _). congruence. }
  destruct (push_front_wf s2 a n e W2 He2 eq_refl) as (s3 & -> & W3 & F3 & A3). osimpl.
  destruct (fmap_lookup_inv fixed (ss_ess s3) (ss_ess s2) n e (eq_sym (on_fixed _ _ F3)) He2) as (e3 & He3 & Hf3).
  injection Hf3 as Eep Es Ed Em _ _.
  assert (Hk2 : ss_socks s2 !! k = Some (set_so_eps (Some n) so)) by (simpl; by rewrite lookup_alter_eq, Hk).
  destruct (activate_if_ready_ok s3 _ (b_push k n b) k (set_so_eps (Some n) so) n e3 W3) as (s4 & a4 & -> & K4 & F4);
    [rewrite (only_lists_socks _ _ F3); eapply on_socks_fixed; [apply F3|done]| |done|done|by rewrite (only_lists_socks _ _ F3)|].
  - intros q x y Hx Hy Hq Hw. assert (Hqn : q <> n) by set_solver.
    destruct (fixed_entry _ _ _ _ (on_fixed _ _ F3) Hx) as (x2 & Hx2 & Hf2).
    assert (Hax : es_active x = es_active x2).
    { assert (Q : (es_active <$> ss_ess s3) !! q = Some (es_active x)) by by rewrite lookup_fmap, Hx.
      rewrite A3, lookup_fmap, Hx2 in Q. by injection Q. }
    assert (Hx0 : exists x0, ss_ess s !! q = Some x0 /\ core x0 = core x2).
    { simpl in Hx2. rewrite lookup_oalter, lookup_insert_ne in Hx2 by done. destruct (ss_ess s !! q) as [x0|]; [|by case_decide].
      exists x0. split; [done|]. case_decide; by injection Hx2 as <-. }
    destruct Hx0 as (x0 & Hx0 & [= E1 E2 E3 E4 E5]). rewrite Hax, <- E5.
    rewrite (only_lists_socks _ _ F3) in Hy. injection Hf2 as _ G2 _ G4 _ _.
    assert (Hy0 : exists y0, ss_socks s !! es_s x0 = Some y0 /\ ep_events y0 = ep_events y).
    { rewrite <- G2, <- E2 in Hy. simpl in Hy. destruct (decide (k = es_s x0)) as [->|].
      - rewrite lookup_alter_eq, Hk in Hy. injection Hy as <-. eauto.
      - rewrite lookup_alter_ne in Hy by done. eauto. }
    destruct Hy0 as (y0 & Hy0 & Ey). apply (eo_ready _ _ _ K q x0 y0); [done|done|]. unfold wanted in *. congruence.
  - exists s4, a4. split; [done|]. split; [done|].
    destruct (fmap_lookup_inv fixed (ss_ess s4) (ss_ess s3) n e3 (eq_sym (on_fixed _ _ F4)) He3) as (e4 & He4 & [= G1 G2 G3 G4 _ _]).
    exists e4. split; [done|]. simpl in *. split_and!; congruence.
Qed.

Lemma set_mask_ready s a b p e m :
  epoll_ok s a b -> ss_ess s !! p = Some e ->
  exists s', upd_es s p (set_mask m) = Ok s' /\ lists_wf s' a None /\ on_socks (ss_ess s') (ss_socks s') b None /\
    ready_but s' [p] /\ ss_ess s' !! p = Some (set_mask m e) /\ ss_socks s' = ss_socks s.
Proof.
  intros [W O R] He. rewrite upd_es_ok by by eexists. eexists. split; [done|].
  assert (Hl : ep_links <$> alter (set_mask m) p (ss_ess s) = ep_links <$> ss_ess s) by by apply fmap_alter_same.
  split; [|split; [|split; [|split]]].
  - split; [eapply on_lists_links; [exact Hl|apply W]|]. simpl. rewrite <- (map_size_fmap ep_links), Hl, map_size_fmap. apply W.
  - simpl. constructor; try apply O.
    + intros k q. rewrite fmap_alter_same by done. apply O.
    + intros k. apply (dll_frame _ _ (ss_ess s)); [apply O|]. intros q x _ Hx.
      destruct (decide (p = q)) as [->|]; [rewrite lookup_alter_eq, Hx; by eexists|rewrite lookup_alter_ne by done; by eexists].
    + intros q x Hx. destruct (decide (p = q)) as [->|].
      * rewrite lookup_alter_eq, He in Hx. injection Hx as <-. by apply (os_live _ _ _ _ O q e).
      * rewrite lookup_alter_ne in Hx by done. by apply (os_live _ _ _ _ O q).
  - intros q x y Hx Hy Hq Hw. simpl in Hx, Hy. rewrite lookup_alter_ne in Hx by set_solver. by apply (R q x y).
  - simpl. by rewrite lookup_alter_eq, He.
  - done.
Qed.

Lemma epoll_mod_ok s a b k so p e ev :
  epoll_ok s a b -> ss_socks s !! k = Some so -> ss_ess s !! p = Some e -> es_s e = k ->
  exists s' a', epoll_mod s k (Some p) ev = Ok (0, s') /\ epoll_ok s' a' b.
Proof.
  intros K Hk He Hs. unfold epoll_mod.
  destruct (set_mask_ready s a b p e (Z.lor (ev_events ev) EPOLLERR) K He) as (s1 & -> & W1 & O1 & R1 & He1 & Hs1). osimpl.
  destruct (activate_if_ready_ok s1 a b k so p _ W1 O1 R1 He1) as (s' & a' & -> & K' & _); [done|congruence|]. eauto.
Qed.

End Inv.
