(* ===== verification/SockScan.v ===== *)
(** * What waiting on an epoll reports

    The scan of the active list reports exactly the sockets with events, as many as
    fit, and leaves those it did not get to at the front for the next time. *)
From S2P Require Import Prelude RdmaQueue Packets LibTas LibPoll SockState SockReady SockPoll SockReadySpec SockEpollInv.

#[local] Open Scope Z_scope.

Section Scan.
Context {L : Type}.
Abbreviation state := (sock_state L).
Implicit Types (s : state) (p q k ep : Z) (a : Z -> bool -> list Z) (b : Z -> list Z) (e : epoll_socket) (so : socket).

(** The event an entry is reported with, if any. *)
Definition report s p : option epoll_event :=
  e ← ss_ess s !! p; so ← ss_socks s !! es_s e;
  if wanted so e then Some (mk_ev (Z.land (ep_events so) (es_mask e)) (es_data e)) else None.
Definition reported s p : bool := match report s p with Some _ => true | None => false end.
Definition reported_of s (l : list Z) : list Z := filter (fun p => reported s p = true) l.

(** Sockets of a list of entries whose lock is free. *)
Definition unlocked s (l : list Z) : Prop :=
  forall p e so, p ∈ l -> ss_ess s !! p = Some e -> ss_socks s !! es_s e = Some so -> so_lock so = false.

Lemma report_same s s' p : fixed <$> ss_ess s' = fixed <$> ss_ess s -> ss_socks s' = ss_socks s -> report s' p = report s p.
Proof.
  intros F S. unfold report. rewrite S. destruct (ss_ess s' !! p) as [e'|] eqn:He'.
  - destruct (fixed_entry _ _ _ _ F He') as (e & -> & Hf). injection Hf as _ E2 E3 E4 _ _. simpl.
    unfold wanted. by rewrite E2, E3, E4.
  - destruct (ss_ess s !! p) as [e|] eqn:He; [|done]. exfalso.
    destruct (fmap_lookup_inv fixed (ss_ess s') (ss_ess s) p e (eq_sym F) He) as (? & ? & _). congruence.
Qed.

Lemma relock s k so :
  ss_socks s !! k = Some so -> so_lock so = false ->
  put_sock (put_sock s k (with_so_lock so true)) k (with_so_lock (with_so_lock so true) false) = s.
Proof.
  intros Hk Hl. unfold put_sock, set_socks. simpl. rewrite insert_insert_eq.
  destruct s. simpl in *. f_equal. apply insert_id. rewrite Hk. destruct so. simpl in *. by subst.
Qed.

(** Moves between the lists of epolls that keep what is wanted active. *)
Lemma epoll_ok_moved s s' a a' b :
  epoll_ok s a b -> only_lists s s' -> lists_wf s' a' None ->
  (forall q x x' y, ss_ess s !! q = Some x -> ss_ess s' !! q = Some x' -> ss_socks s !! es_s x = Some y ->
    wanted y x = true -> es_active x = true -> es_active x' = true) -> epoll_ok s' a' b.
Proof.
  intros K F W Hact. constructor; [done|rewrite (only_lists_socks _ _ F); eapply on_socks_fixed; [apply F|apply K]|].
  intros q x' y Hx' Hy Hw. destruct (fixed_entry _ _ _ _ (on_fixed _ _ F) Hx') as (x & Hx & Hf).
  rewrite (only_lists_socks _ _ F) in Hy. rewrite <- (wanted_fixed _ _ _ Hf) in Hw. injection Hf as _ Es _ _ _ _.
  rewrite <- Es in Hy. apply (Hact q x x' y); try done. by apply (eo_ready _ _ _ K q x y).
Qed.

(** The lock of a socket around a change of lists. *)
Lemma locked_around s s2 k so :
  ss_socks s !! k = Some so -> so_lock so = false -> only_lists (put_sock s k (with_so_lock so true)) s2 ->
  exists s', socket_unlock s2 k = Ok s' /\ only_lists s s' /\ ss_ess s' = ss_ess s2 /\ ss_eps s' = ss_eps s2.
Proof.
  intros Hk Hl F. unfold socket_unlock.
  rewrite (sock_at_ok s2 k (with_so_lock so true)) by (rewrite (only_lists_socks _ _ F); apply lookup_insert_eq). osimpl.
  eexists. split; [done|]. split; [|done]. destruct F as [F1 F2 F3]. split; [|exact F2|exact F3].
  rewrite <- (relock s k so Hk Hl) at 1. rewrite F1. reflexivity.
Qed.

(** One turn of the loop, on the first entry of the active list. *)
Lemma scan_turn s a b ep p rest maxevents evs i :
  epoll_ok s a b -> is_Some (ss_eps s !! ep) -> a ep true = p :: rest -> unlocked s [p] ->
  Z.of_nat (length evs) < maxevents ->
  exists s' a', ep_scan (S i) s ep maxevents evs =
      ep_scan i s' ep maxevents (evs ++ match report s p with Some ev => [ev] | None => [] end) /\
    epoll_ok s' a' b /\ only_lists s s' /\
    a' ep true = rest ++ (if reported s p then [p] else []) /\
    a' ep false = (if reported s p then [] else [p]) ++ a ep false.
Proof.
  intros K [e0 He0] El Hul Hm. cbn [ep_scan]. rewrite (proj2 (Z.ltb_lt _ _)) by lia. osimpl.
  rewrite (epoll_at_ok _ _ _ He0). osimpl. pose proof (lw_on _ _ _ (eo_lists _ _ _ K)) as O.
  pose proof (ol_ep _ _ _ _ O _ _ true He0) as Hw. rewrite El in Hw.
  assert (e_active_first e0 = Some p) as -> by by rewrite <- Hw.
  assert (Hp : p ∈ a ep true) by (rewrite El; left). destruct (es_on _ _ _ _ _ O Hp) as (e & He & Hep & Hac).
  destruct (os_live _ _ _ _ (eo_socks _ _ _ K) p e He) as [so Hso].
  pose proof (Hul p e so ltac:(left) He Hso) as Hlock.
  rewrite (es_at_ok _ _ _ He). osimpl. unfold socket_lock. rewrite (sock_at_ok _ _ _ Hso). osimpl. rewrite Hlock. osimpl.
  set (s1 := put_sock s (es_s e) (with_so_lock so true)).
  assert (K1 : epoll_ok s1 a b) by (by apply (epoll_ok_plain s a b (es_s e) so)).
  rewrite (sock_at_ok s1 _ (with_so_lock so true)) by apply lookup_insert_eq. osimpl.
  assert (Hrep : report s p = if wanted so e then Some (mk_ev (Z.land (ep_events so) (es_mask e)) (es_data e)) else None).
  { unfold report. rewrite He. simpl. by rewrite Hso. }
  assert (Hn : NoDup (p :: rest)) by (rewrite <- El; apply O).
  assert (Hpf : p ∉ a ep false).
  { intros Hin. destruct (es_on _ _ _ _ _ O Hin) as (e' & He' & _ & Ha'). congruence. }
  change (negb (Z.land (ep_events (with_so_lock so true)) (es_mask e) =? 0)) with (wanted so e).
  unfold reported. rewrite Hrep. destruct (wanted so e) eqn:Ew; osimpl.
  - destruct (pushback_wf s1 a p e (eo_lists _ _ _ K1) He Hac) as (s2 & -> & F2 & A2 & W2). osimpl.
    destruct (locked_around s s2 _ so Hso Hlock F2) as (s' & -> & F' & E1 & E2). osimpl. eexists s', _. split; [done|].
    split; [|split; [done|split]].
    + eapply (epoll_ok_moved s); [done|done|split; rewrite E1, ?E2; apply W2|].
      intros q x x' y Hx Hx' _ _ Hax. rewrite E1 in Hx'.
      assert (Q : (es_active <$> ss_ess s2) !! q = Some (es_active x')) by by rewrite lookup_fmap, Hx'.
      rewrite A2, lookup_fmap in Q. change (ss_ess s1) with (ss_ess s) in Q. rewrite Hx in Q. by injection Q as <-.
    + unfold a_set. rewrite Hep, decide_True by done. by rewrite El, without_cons.
    + unfold a_set. rewrite Hep, decide_False by naive_solver. unfold a_remove. by apply without_elsewhere.
  - destruct (deactivate_wf s1 a p e (eo_lists _ _ _ K1) He Hac) as (s2 & -> & F2 & A2 & W2). osimpl.
    destruct (locked_around s s2 _ so Hso Hlock F2) as (s' & -> & F' & E1 & E2). osimpl. eexists s', _. split; [by rewrite app_nil_r|].
    split; [|split; [done|split]].
    + eapply (epoll_ok_moved s); [done|done|split; rewrite E1, ?E2; apply W2|].
      intros q x x' y Hx Hx' Hy Hwx Hax. rewrite E1 in Hx'. rewrite (act_lookup s1 s2 q x x' p false A2 Hx Hx').
      destruct (decide (q = p)) as [->|]; [|done]. congruence.
    + unfold a_set. rewrite Hep, decide_False by naive_solver. unfold a_remove. rewrite El, without_cons by done. by rewrite app_nil_r.
    + unfold a_set. rewrite Hep, decide_True by done. simpl. by rewrite without_elsewhere.
Qed.

(** The entries the loop gets to before it has [room] events. *)
Fixpoint scanned s (room : nat) (l : list Z) : list Z :=
  match l, room with
  | p :: l, S n => p :: scanned s (if reported s p then n else room) l
  | _, _ => []
  end.

Lemma scanned_zero s l : scanned s 0 l = [].
Proof. by destruct l. Qed.

Lemma scanned_reports s l : forall room, omap (report s) (scanned s room l) = take room (omap (report s) l).
Proof.
  induction l as [|p l IH]; intros [|n]; simpl; try done; rewrite ?take_nil; try done.
  unfold reported. destruct (report s p) as [ev|] eqn:E; cbn [take]; f_equal; apply IH.
Qed.

Lemma scanned_prefix s l : forall room, exists l2, l = scanned s room l ++ l2.
Proof.
  induction l as [|p l IH]; intros room; [by exists []|]. destruct room as [|n]; [by exists (p :: l)|].
  cbn [scanned]. destruct (IH (if reported s p then n else S n)) as [l2 E]. exists l2. simpl. by rewrite <- E.
Qed.

Lemma reported_same s s' p : fixed <$> ss_ess s' = fixed <$> ss_ess s -> ss_socks s' = ss_socks s -> reported s' p = reported s p.
Proof. intros F S. unfold reported. by rewrite (report_same s s'). Qed.

Lemma scanned_same s s' l : fixed <$> ss_ess s' = fixed <$> ss_ess s -> ss_socks s' = ss_socks s ->
  forall room, scanned s' room l = scanned s room l.
Proof.
  intros F S. induction l as [|p l IH]; intros [|n]; try done. cbn [scanned]. by rewrite (reported_same s s'), IH.
Qed.

Lemma omap_report_same s s' (l : list Z) : only_lists s s' -> omap (report s') l = omap (report s) l.
Proof.
  intros F. induction l as [|p l IH]; [done|]. simpl. rewrite (report_same s s') by (try apply F; by apply only_lists_socks).
  destruct (report s p); [f_equal|]; exact IH.
Qed.
Lemma reported_of_same s s' l : only_lists s s' -> reported_of s' l = reported_of s l.
Proof.
  intros F. apply list_filter_iff. intros q. by rewrite (reported_same s s') by (try apply F; by apply only_lists_socks).
Qed.

Lemma unlocked_same s s' l : only_lists s s' -> unlocked s l -> unlocked s' l.
Proof.
  intros F U p e so Hp He Hso. destruct (fixed_entry _ _ _ _ (on_fixed _ _ F) He) as (e0 & He0 & Hf). injection Hf as _ Es _ _ _ _.
  rewrite (only_lists_socks _ _ F), <- Es in Hso. by apply (U p e0).
Qed.

Lemma ep_scan_ok ep maxevents b rest : forall s a dn evs,
  epoll_ok s a b -> is_Some (ss_eps s !! ep) -> a ep true = rest ++ dn -> unlocked s rest ->
  Z.of_nat (length evs) <= maxevents ->
  let sc := scanned s (Z.to_nat maxevents - length evs) rest in
  exists s' a', ep_scan (length rest) s ep maxevents evs = Ok (evs ++ omap (report s) sc, s') /\
    epoll_ok s' a' b /\ only_lists s s' /\
    a' ep true = drop (length sc) rest ++ dn ++ reported_of s sc.
Proof.
  induction rest as [|p rest IH]; intros s a dn evs K Hep El Hul Hm sc.
  - exists s, a. subst sc. simpl. unfold reported_of. rewrite !app_nil_r. split_and!; try done. apply only_lists_refl.
  - destruct (decide (Z.of_nat (length evs) < maxevents)) as [Hlt|Hge].
    2:{ assert (Z.to_nat maxevents - length evs = 0)%nat as E0 by lia. subst sc. rewrite E0.
        exists s, a. cbn [ep_scan length scanned]. rewrite (proj2 (Z.ltb_ge _ _)) by lia. osimpl. unfold reported_of. simpl.
        rewrite !app_nil_r. split_and!; try done. apply only_lists_refl. }
    destruct (scan_turn s a b ep p (rest ++ dn) maxevents evs (length rest) K Hep El) as (s1 & a1 & Hs1 & K1 & F1 & A1 & _);
      [intros q e so ->%list_elem_of_singleton; apply Hul; left|done|].
    assert (Hep1 : is_Some (ss_eps s1 !! ep)) by (eapply efixed_live; [apply F1|done]).
    set (evs1 := evs ++ match report s p with Some ev => [ev] | None => [] end) in *.
    assert (Hl1 : length evs1 = (length evs + if reported s p then 1 else 0)%nat).
    { unfold evs1, reported. rewrite length_app. by destruct (report s p). }
    destruct (IH s1 a1 (dn ++ if reported s p then [p] else []) evs1) as (s' & a' & Hs' & K' & F' & A'); try done.
    + by rewrite A1, app_assoc.
    + eapply unlocked_same; [done|]. intros q e so Hq. apply Hul. by right.
    + destruct (reported s p); lia.
    + exists s', a'. cbn [length]. rewrite Hs1, Hs'.
      rewrite (scanned_same s s1) by (try apply F1; by apply only_lists_socks).
      assert (sc = p :: scanned s (Z.to_nat maxevents - length evs1) rest) as ->.
      { subst sc. destruct (Z.to_nat maxevents - length evs)%nat as [|n] eqn:En; [lia|]. cbn [scanned]. f_equal.
        f_equal. rewrite Hl1. destruct (reported s p); lia. }
      set (sc1 := scanned s (Z.to_nat maxevents - length evs1) rest).
      rewrite (omap_report_same s s1) by done. split; [|split; [done|split; [by eapply only_lists_trans|]]].
      * do 2 f_equal. unfold evs1. rewrite <- app_assoc. f_equal. simpl. by destruct (report s p).
      * rewrite A', (scanned_same s s1) by (try apply F1; by apply only_lists_socks). fold sc1.
        rewrite (reported_of_same s s1) by done. simpl. f_equal. rewrite <- app_assoc. f_equal.
        unfold reported_of. rewrite filter_cons. by destruct (reported s p).
Qed.

End Scan.
