(* ===== verification/SockInv.v ===== *)
(** * The invariant of the socket library

    After any calls the descriptors, reference counts, locks and lists of sockets
    and epolls agree. *)
From S2P Require Import Prelude RdmaQueue Packets LibTas LibPoll SockState SockReady SockCtx.
From S2P Require Import SockCtl SockOpen SockPoll SockXfer SockReadySpec SockEpollInv SockScan LibSpec.

#[local] Open Scope Z_scope.

#[export] Instance filehandle_eq_dec : EqDecision filehandle.
Proof. solve_decision. Defined.

(** A connection that the application has closed. *)
Definition closed (so : socket) : bool := is_type so SOCK_CONNECTION && is_status so SOC_CLOSED.
(** A listener that was closed is never freed, nor unlocked. *)
Definition leaked (so : socket) : Prop := so_refcnt so = 0 /\ so_type so <> SOCK_CONNECTION.
(** How many descriptors refer to an object. *)
Definition refs (F : gmap Z filehandle) (h : filehandle) : Z := Z.of_nat (size (filter (fun x => x.2 = h) F)).

Lemma refs_insert F fd h h' : F !! fd = None -> refs (<[fd := h]> F) h' = refs F h' + if decide (h = h') then 1 else 0.
Proof.
  intros Hn. unfold refs. destruct (decide (h = h')) as [->|Hh].
  - rewrite map_filter_insert_True by done. rewrite map_size_insert_None; [lia|].
    apply map_lookup_filter_None. by left.
  - rewrite map_filter_insert_False, map_filter_delete by done. rewrite delete_id; [lia|].
    apply map_lookup_filter_None. by left.
Qed.

Lemma refs_delete F fd h h' : F !! fd = Some h -> refs (delete fd F) h' = refs F h' - if decide (h = h') then 1 else 0.
Proof.
  intros Hs. rewrite <- (insert_id F fd h Hs) at 2. rewrite <- insert_delete_eq.
  rewrite refs_insert by apply lookup_delete_eq. lia.
Qed.

Lemma refs_pos F fd h : F !! fd = Some h -> 0 < refs F h.
Proof.
  intros Hs. unfold refs. assert (size (filter (fun x => x.2 = h) F) <> 0)%nat; [|lia].
  intros E. apply map_size_empty_inv in E. assert (Q : filter (fun x : Z * filehandle => x.2 = h) F !! fd = Some h)
    by (by apply map_lookup_filter_Some). by rewrite E, lookup_empty in Q.
Qed.

Section Inv.
Context {L : Type}.
Abbreviation state := (sock_state L).
Implicit Types (s : state) (p q k ep fd : Z) (so : socket) (g : gmap Z filehandle -> gmap Z filehandle) (H E : list Z).

Definition live s (h : filehandle) : Prop :=
  match h with FH_SOCKET p => is_Some (ss_socks s !! p) | FH_EPOLL p => is_Some (ss_eps s !! p) end.

(** [g] is the identity; within an operation it may be a change of the descriptors
    that is still to be made. [H] are the sockets and [E] the epolls whose locks are
    held. *)
Record sock_inv g H E s : Prop := {
  si_epoll : epoll_inv s;
  si_refs : forall p so, ss_socks s !! p = Some so -> so_refcnt so = refs (g (ss_fhs s)) (FH_SOCKET p);
  si_closed : forall p so, ss_socks s !! p = Some so -> closed so = true -> so_refcnt so = 0;
  si_locks : forall p so, ss_socks s !! p = Some so -> so_lock so = true -> p ∈ H \/ leaked so;
  si_erefs : forall p e, ss_eps s !! p = Some e -> e_refcnt e = refs (g (ss_fhs s)) (FH_EPOLL p);
  si_elocks : forall p e, ss_eps s !! p = Some e -> e_lock e = true -> p ∈ E;
  si_live : forall fd h, g (ss_fhs s) !! fd = Some h -> live s h;
  si_entry : forall n e so, ss_ess s !! n = Some e -> ss_socks s !! es_s e = Some so -> closed so = false;
}.

Definition elock (e : epoll) := (e_refcnt e, e_lock e).

Lemma fmap_live {A B} (g : A -> B) (m m' : gmap Z A) p : g <$> m' = g <$> m -> is_Some (m !! p) -> is_Some (m' !! p).
Proof.
  intros E [x Hx]. destruct (fmap_lookup_inv g _ _ p x (eq_sym E) Hx) as (y & Hy & _). by eexists.
Qed.

(** Changes that are only about lists and events. *)
Lemma si_transfer g H E s s' :
  sock_inv g H E s -> ss_fhs s' = ss_fhs s -> epoll_inv s' -> plain <$> ss_socks s' = plain <$> ss_socks s -> elock <$> ss_eps s' = elock <$> ss_eps s ->
  (forall n e', ss_ess s' !! n = Some e' -> exists e, ss_ess s !! n = Some e /\ es_s e = es_s e') -> sock_inv g H E s'.
Proof.
  intros I Hf0 K P Q N.
  assert (P' : forall p so', ss_socks s' !! p = Some so' -> exists so, ss_socks s !! p = Some so /\ plain so = plain so')
    by (intros p so'; by apply fmap_lookup_inv).
  assert (Q' : forall p e', ss_eps s' !! p = Some e' -> exists e, ss_eps s !! p = Some e /\ elock e = elock e')
    by (intros p e'; by apply fmap_lookup_inv).
  assert (C : forall so so', plain so = plain so' -> closed so = closed so').
  { intros so so' [= E1 E2 E3 E4 E5 E6 E7]. unfold closed, is_type, is_status. by rewrite E1, E5. }
  constructor; rewrite ?Hf0; [done| | | | | | |].
  - intros p so' Hp. destruct (P' p so' Hp) as (so & Hs & Hpl). injection Hpl as _ _ _ _ _ <- _. by apply (si_refs _ _ _ _ I).
  - intros p so' Hp Hc. destruct (P' p so' Hp) as (so & Hs & Hpl). rewrite <- (C _ _ Hpl) in Hc. injection Hpl as _ _ _ _ _ <- _.
    by apply (si_closed _ _ _ _ I p so).
  - intros p so' Hp Hl. destruct (P' p so' Hp) as (so & Hs & Hpl). injection Hpl as _ _ _ _ Et Er El. rewrite <- El in Hl.
    destruct (si_locks _ _ _ _ I p so Hs Hl) as [?|[? ?]]; [by left|right]. unfold leaked. by rewrite <- Er, <- Et.
  - intros p e' Hp. destruct (Q' p e' Hp) as (e & He & [= <- _]). by apply (si_erefs _ _ _ _ I).
  - intros p e' Hp Hl. destruct (Q' p e' Hp) as (e & He & [= _ El]). rewrite <- El in Hl. by apply (si_elocks _ _ _ _ I p e).
  - intros fd [p|p] Hf; pose proof (si_live _ _ _ _ I fd _ Hf) as Hl; simpl in *;
      [by apply (fmap_live plain _ _ _ P)|by apply (fmap_live elock _ _ _ Q)].
  - intros n e' so' Hn Hs. destruct (N n e' Hn) as (e & He & Es). rewrite <- Es in Hs.
    destruct (P' _ so' Hs) as (so & Hso & Hpl). rewrite <- (C _ _ Hpl). by apply (si_entry _ _ _ _ I n e).
Qed.

Lemma si_epoll_of_parts s s' :
  ss_ess s' = ss_ess s -> ss_eps s' = ss_eps s -> ss_socks s' = ss_socks s -> epoll_inv s -> epoll_inv s'.
Proof. intros E1 E2 E3 (a & b & [[W Hs] O R]). exists a, b. constructor; [split|..]; by rewrite ?E1, ?E2, ?E3. Qed.

(** Changes of what the invariant does not mention. *)
Lemma si_rest g H E s s' :
  ss_fhs s' = ss_fhs s -> ss_ess s' = ss_ess s -> ss_eps s' = ss_eps s -> ss_socks s' = ss_socks s -> sock_inv g H E s -> sock_inv g H E s'.
Proof.
  intros E0 E1 E2 E3 I. apply (si_transfer g H E s s' I); [done|by eapply si_epoll_of_parts; [..|apply I]|by rewrite E3|by rewrite E2|].
  intros n e'. rewrite E1. eauto.
Qed.

(** Changes of a socket that is held. *)
Lemma si_put g H E s p so so' :
  sock_inv g H E s -> ss_socks s !! p = Some so -> p ∈ H \/ so_lock so' = false ->
  so_eps so' = so_eps so -> ep_events so' = ep_events so -> so_refcnt so' = so_refcnt so ->
  (closed so' = true -> closed so = true) -> sock_inv g H E (put_sock s p so').
Proof.
  intros I Hp Hh E1 E2 E3 Hc.
  assert (P : forall q x, ss_socks (put_sock s p so') !! q = Some x -> q = p /\ x = so' \/ q <> p /\ ss_socks s !! q = Some x).
  { intros q x. simpl. destruct (decide (p = q)) as [->|]; [rewrite lookup_insert_eq|rewrite lookup_insert_ne by done]; naive_solver. }
  constructor.
  - destruct (si_epoll _ _ _ _ I) as (a & b & K). exists a, b. by eapply epoll_ok_plain.
  - intros q x [[-> ->]|[_ Hq]]%P; [rewrite E3|]; by apply (si_refs _ _ _ _ I).
  - intros q x [[-> ->]|[_ Hq]]%P Hx; [rewrite E3; apply (si_closed _ _ _ _ I p); auto|by apply (si_closed _ _ _ _ I q)].
  - intros q x [[-> ->]|[_ Hq]]%P Hx; [destruct Hh; [by left|congruence]|by apply (si_locks _ _ _ _ I q)].
  - intros q x. apply (si_erefs _ _ _ _ I).
  - intros q x. apply (si_elocks _ _ _ _ I).
  - intros fd [q|q] Hf; pose proof (si_live _ _ _ _ I fd _ Hf) as Hl; simpl in *; [|done].
    destruct (decide (p = q)) as [->|]; [rewrite lookup_insert_eq; by eexists|by rewrite lookup_insert_ne].
  - intros n e x Hn Hx. simpl in Hn. apply P in Hx as [[Hq ->]|[_ Hx]]; [|by apply (si_entry _ _ _ _ I n e)].
    apply not_true_is_false. intros Hx. apply Hc in Hx. rewrite <- Hq in Hp. by rewrite (si_entry _ _ _ _ I n e so) in Hx.
Qed.

(** Holding more, or less. *)
Lemma si_mono g H H' E E' s :
  sock_inv g H E s -> (forall p so, ss_socks s !! p = Some so -> so_lock so = true -> p ∈ H -> p ∈ H' \/ leaked so) ->
  (forall p e, ss_eps s !! p = Some e -> e_lock e = true -> p ∈ E -> p ∈ E') -> sock_inv g H' E' s.
Proof.
  intros I HH HE. constructor; try apply I.
  - intros p so Hp Hl. destruct (si_locks _ _ _ _ I p so Hp Hl); [by apply HH|by right].
  - intros p e Hp Hl. apply (HE p e Hp Hl). by apply (si_elocks _ _ _ _ I p e).
Qed.

Lemma si_lock g H E s p s' : sock_inv g H E s -> socket_lock s p = Ok s' -> sock_inv g (p :: H) E s'.
Proof.
  intros I R. unfold socket_lock in R. apply bind_Ok_inv in R as (so & Hso & R). destruct (so_lock so); [done|]. injection R as <-.
  unfold sock_at in Hso. destruct (ss_socks s !! p) as [x|] eqn:Hp; [injection Hso as ->|done].
  eapply si_put; try done; [|left; left]. eapply si_mono; [done| |by auto]. intros q x _ _ ?. left. by right.
Qed.

Lemma si_unlock g H E s p s' : sock_inv g (p :: H) E s -> socket_unlock s p = Ok s' -> sock_inv g H E s'.
Proof.
  intros I R. unfold socket_unlock in R. apply bind_Ok_inv in R as (so & Hso & R). injection R as <-.
  unfold sock_at in Hso. destruct (ss_socks s !! p) as [x|] eqn:Hp; [injection Hso as ->|done].
  eapply si_mono; [eapply si_put; try done; by right| |by auto]. intros q x Hq Hl [->|?]%elem_of_cons; [|by left].
  simpl in Hq. rewrite lookup_insert_eq in Hq. by injection Hq as <-.
Qed.

Lemma sock_at_inv s p so : sock_at s p = Ok so -> ss_socks s !! p = Some so.
Proof. unfold sock_at. destruct (ss_socks s !! p); congruence. Qed.
Lemma epoll_at_inv s p e : epoll_at s p = Ok e -> ss_eps s !! p = Some e.
Proof. unfold epoll_at. destruct (ss_eps s !! p); congruence. Qed.
Lemma es_at_inv s p e : es_at s p = Ok e -> ss_ess s !! p = Some e.
Proof. unfold es_at. destruct (ss_ess s !! p); congruence. Qed.

(** Changes of an epoll that keep its lists and count of references. *)
Lemma si_put_epoll g H E s ep (e e' : epoll) :
  sock_inv g H E s -> ss_eps s !! ep = Some e -> heads e' = heads e -> e_refcnt e' = e_refcnt e ->
  ep ∈ E \/ e_lock e' = false -> sock_inv g H E (put_epoll s ep e').
Proof.
  intros I He Hh Hr Hl. constructor; try apply I.
  - destruct (si_epoll _ _ _ _ I) as (a & b & K). exists a, b. by eapply epoll_ok_eps.
  - intros q x Hq. simpl in Hq. destruct (decide (ep = q)) as [->|].
    + rewrite lookup_insert_eq in Hq. injection Hq as <-. rewrite Hr. by apply (si_erefs _ _ _ _ I).
    + rewrite lookup_insert_ne in Hq by done. by apply (si_erefs _ _ _ _ I).
  - intros q x Hq Hx. simpl in Hq. destruct (decide (ep = q)) as [->|].
    + rewrite lookup_insert_eq in Hq. injection Hq as <-. destruct Hl; [done|congruence].
    + rewrite lookup_insert_ne in Hq by done. by apply (si_elocks _ _ _ _ I q x).
  - intros fd [q|q] Hf; pose proof (si_live _ _ _ _ I fd _ Hf) as Hv; simpl in *; [done|].
    destruct (decide (ep = q)) as [->|]; [rewrite lookup_insert_eq; by eexists|by rewrite lookup_insert_ne].
Qed.

Lemma si_elock g H E s p s' : sock_inv g H E s -> epoll_lock s p = Ok s' -> sock_inv g H (p :: E) s'.
Proof.
  intros I R. unfold epoll_lock in R. apply bind_Ok_inv in R as (e & He & R). destruct (e_lock e); [done|]. injection R as <-.
  apply epoll_at_inv in He. eapply si_put_epoll; try done; [|left; left]. eapply si_mono; [done|by auto|]. intros q x _ _ ?. by right.
Qed.

Lemma si_eunlock g H E s p s' : sock_inv g H (p :: E) s -> epoll_unlock s p = Ok s' -> sock_inv g H E s'.
Proof.
  intros I R. unfold epoll_unlock in R. apply bind_Ok_inv in R as (e & He & R). injection R as <-.
  apply epoll_at_inv in He. eapply si_mono; [eapply si_put_epoll; try done; by right|by auto|]. intros q x Hq Hl [->|?]%elem_of_cons; [|done].
  simpl in Hq. rewrite lookup_insert_eq in Hq. by injection Hq as <-.
Qed.

Lemma si_upd_epoll g H E s ep f s' :
  sock_inv g H E s -> ep ∈ E -> (forall e, heads (f e) = heads e /\ e_refcnt (f e) = e_refcnt e) ->
  upd_epoll s ep f = Ok s' -> sock_inv g H E s'.
Proof.
  intros I He Hf R. unfold upd_epoll in R. apply bind_Ok_inv in R as (e & Hep & R). injection R as <-.
  apply epoll_at_inv in Hep. destruct (Hf e). eapply si_put_epoll; eauto.
Qed.

Lemma si_upd_sock g H E s p f s' :
  sock_inv g H E s -> p ∈ H ->
  (forall so, so_eps (f so) = so_eps so /\ ep_events (f so) = ep_events so /\ so_refcnt (f so) = so_refcnt so /\
    (closed (f so) = true -> closed so = true)) ->
  upd_sock s p f = Ok s' -> sock_inv g H E s'.
Proof.
  intros I Hp Hf R. unfold upd_sock in R. apply bind_Ok_inv in R as (so & Hso & R). injection R as <-.
  apply sock_at_inv in Hso. destruct (Hf so) as (? & ? & ? & ?). eapply si_put; eauto.
Qed.

Lemma closed_conn so c : (sc_status c = SOC_CLOSED -> sc_status (so_conn so) = SOC_CLOSED) ->
  closed (with_conn so c) = true -> closed so = true.
Proof.
  unfold closed, is_type, is_status. simpl. intros Hc. rewrite !andb_true_iff, !bool_decide_eq_true. naive_solver.
Qed.

Lemma si_upd_conn g H E s p f s' :
  sock_inv g H E s -> p ∈ H -> (forall c, sc_status (f c) = SOC_CLOSED -> sc_status c = SOC_CLOSED) ->
  upd_conn s p f = Ok s' -> sock_inv g H E s'.
Proof.
  intros I Hp Hf. apply si_upd_sock; [done|done|]. intros so. split_and!; try done. apply closed_conn, Hf.
Qed.

Lemma si_put_conn g H E s p so c :
  sock_inv g H E s -> p ∈ H -> sock_at s p = Ok so -> (sc_status c = SOC_CLOSED -> sc_status (so_conn so) = SOC_CLOSED) ->
  sock_inv g H E (put_sock s p (with_conn so c)).
Proof.
  intros I Hp Hso Hc. apply sock_at_inv in Hso. eapply si_put; try done; [by left|by apply closed_conn].
Qed.

Lemma only_lists_elock s s' : only_lists s s' -> elock <$> ss_eps s' = elock <$> ss_eps s.
Proof.
  intros O. assert (Hg : forall m : gmap Z epoll, elock <$> m = (fun '(x, y, _, _, _) => (x, y)) <$> (efixed <$> m)).
  { intros m. rewrite <- map_fmap_compose. by apply map_fmap_ext. }
  by rewrite !Hg, (on_efixed _ _ O).
Qed.

Lemma si_epoll_set g H E s k evts s' :
  sock_inv g H E s -> 0 <= evts < 4294967296 -> flextcp_epoll_set s k evts = Ok s' -> sock_inv g H E s'.
Proof.
  intros I He R. destruct (ss_socks s !! k) as [so|] eqn:Hk.
  2:{ unfold flextcp_epoll_set, sock_at in R. by rewrite Hk in R. }
  destruct (si_epoll _ _ _ _ I) as (a & b & K). destruct (epoll_set_ok s a b k so evts K Hk He) as (s1 & a1 & E1 & K1 & O1).
  assert (s1 = s') as -> by congruence. eapply si_transfer; [done|by rewrite (on_rest _ _ O1)|by exists a1, b| | |].
  - rewrite (only_lists_socks _ _ O1). simpl. rewrite fmap_insert. apply insert_id. by rewrite lookup_fmap, Hk.
  - by rewrite (only_lists_elock _ _ O1).
  - intros n e' Hn. destruct (fixed_entry _ _ _ _ (on_fixed _ _ O1) Hn) as (e & ? & Hf). exists e. split; [done|]. by injection Hf.
Qed.

Lemma si_epoll_clear g H E s k evts s' :
  sock_inv g H E s -> flextcp_epoll_clear s k evts = Ok s' -> sock_inv g H E s'.
Proof.
  intros I R. destruct (ss_socks s !! k) as [so|] eqn:Hk.
  2:{ unfold flextcp_epoll_clear, upd_sock, sock_at in R. by rewrite Hk in R. }
  destruct (si_epoll _ _ _ _ I) as (a & b & K). destruct (epoll_clear_ok s a b k so evts K Hk) as [E1 K1].
  rewrite E1 in R. injection R as <-. eapply si_transfer; [done|done|by exists a, b| |done|eauto].
  simpl. rewrite fmap_insert. apply insert_id. by rewrite lookup_fmap, Hk.
Qed.

Lemma si_free g H E s p so :
  sock_inv g H E s -> ss_socks s !! p = Some so -> so_refcnt so = 0 ->
  (forall n e, ss_ess s !! n = Some e -> es_s e <> p) -> sock_inv g H E (free_socket s p).
Proof.
  intros I Hp Hr Hne.
  assert (P : forall q x, ss_socks (free_socket s p) !! q = Some x -> ss_socks s !! q = Some x)
    by (intros q x Hq; simpl in Hq; by apply lookup_delete_Some in Hq as [_ ?]).
  constructor.
  - destruct (si_epoll _ _ _ _ I) as (a & b & K). exists a, b. apply epoll_ok_free; [done|].
    destruct (b p) as [|n l] eqn:Eb; [done|]. exfalso. assert (Hn : n ∈ b p) by (rewrite Eb; left).
    destruct (es_of _ _ _ _ _ (eo_socks _ _ _ K) Hn) as (e & He & Hs). by apply (Hne n e).
  - intros q x Hq%P. by apply (si_refs _ _ _ _ I).
  - intros q x Hq%P. by apply (si_closed _ _ _ _ I q).
  - intros q x Hq%P. by apply (si_locks _ _ _ _ I).
  - apply I.
  - apply I.
  - intros fd [q|q] Hf; pose proof (si_live _ _ _ _ I fd _ Hf) as Hl; [|done]. simpl in *.
    assert (p <> q). { intros ->. apply refs_pos in Hf. rewrite <- (si_refs _ _ _ _ I q so Hp) in Hf. lia. }
    by rewrite lookup_delete_ne.
  - intros n e x Hn Hx%P. by apply (si_entry _ _ _ _ I n e).
Qed.

Lemma si_free_closed g H E s p so :
  sock_inv g H E s -> ss_socks s !! p = Some so -> closed so = true -> sock_inv g H E (free_socket s p).
Proof.
  intros I Hp Hc. eapply si_free; [done|done|by apply (si_closed _ _ _ _ I p)|].
  intros n e Hn Es. rewrite <- Es in Hp. pose proof (si_entry _ _ _ _ I n e so Hn Hp). congruence.
Qed.

(** Forget what is no longer there. *)
Lemma si_gone g H E s p : sock_inv g (p :: H) E s -> ss_socks s !! p = None -> sock_inv g H E s.
Proof.
  intros I Hp. eapply si_mono; [done| |by auto]. intros q x Hq _ [->|?]%elem_of_cons; [congruence|by left].
Qed.

End Inv.

(** Go back over what each step did. *)
Ltac range := split; vm_compute; congruence.
Ltac same_socket :=
  intros; split_and?; intros; try reflexivity;
  unfold closed, is_type, is_status, set_flag_if, with_so_flags in *; simpl in *;
  repeat match goal with C : _ && _ = true |- _ => apply andb_true_iff in C as [? ?] end;
  rewrite ?andb_true_iff, ?bool_decide_eq_true in *; naive_solver.
Ltac keep1 :=
  match goal with
  | |- sock_inv ?g ?H ?E (set_lib ?s _) => apply (si_rest g H E s); [reflexivity|reflexivity|reflexivity|reflexivity|]
  | |- sock_inv ?g ?H ?E (set_errno ?s _) => apply (si_rest g H E s); [reflexivity|reflexivity|reflexivity|reflexivity|]
  | |- sock_inv ?g ?H ?E (set_rounds ?s _) => apply (si_rest g H E s); [reflexivity|reflexivity|reflexivity|reflexivity|]
  | |- sock_inv ?g ?H ?E (set_now ?s _) => apply (si_rest g H E s); [reflexivity|reflexivity|reflexivity|reflexivity|]
  | R : socket_unlock ?x ?p = Ok ?y |- sock_inv ?g ?H ?E ?y => apply (si_unlock g H E x p y); [|exact R]
  | R : flextcp_fd_srelease ?x ?p = Ok ?y |- sock_inv ?g ?H ?E ?y => apply (si_unlock g H E x p y); [|exact R]
  | R : socket_lock ?x ?p = Ok ?y |- sock_inv ?g (?p :: ?H) ?E ?y => apply (si_lock g H E x p y); [|exact R]
  | R : epoll_unlock ?x ?p = Ok ?y |- sock_inv ?g ?H ?E ?y => apply (si_eunlock g H E x p y); [|exact R]
  | R : flextcp_fd_erelease ?x ?p = Ok ?y |- sock_inv ?g ?H ?E ?y => apply (si_eunlock g H E x p y); [|exact R]
  | R : epoll_lock ?x ?p = Ok ?y |- sock_inv ?g ?H (?p :: ?E) ?y => apply (si_elock g H E x p y); [|exact R]
  | R : flextcp_epoll_set ?x ?k ?v = Ok ?y |- sock_inv ?g ?H ?E ?y => apply (si_epoll_set g H E x k v y); [|range|exact R]
  | R : flextcp_epoll_clear ?x ?k ?v = Ok ?y |- sock_inv ?g ?H ?E ?y => apply (si_epoll_clear g H E x k v y); [|exact R]
  | R : upd_conn ?x ?p ?f = Ok ?y |- sock_inv ?g ?H ?E ?y => apply (si_upd_conn g H E x p f y); [|left|try done|exact R]
  | R : sock_at ?s ?p = Ok ?k |- sock_inv ?g ?H ?E (put_sock ?s ?p (with_conn ?k ?c)) =>
      apply (si_put_conn g H E s p k c); [|left|exact R|try done]
  | R : sock_at ?s ?p = Ok ?k |- sock_inv ?g ?H ?E (put_sock ?s ?p ?k') =>
      apply (si_put g H E s p k k'); [|exact (sock_at_inv s p k R)|left; left|reflexivity|reflexivity|reflexivity|same_socket]
  | R : upd_sock ?x ?p ?f = Ok ?y |- sock_inv ?g ?H ?E ?y => apply (si_upd_sock g H E x p f y); [|left|same_socket|exact R]
  end.
Ltac keep := repeat (first [eassumption|keep1]).

Section Events.
Context {L : Type} `{RL : RdmaLink L}.
Context (remote : option rdma_env) (flexnic_mem poll_cycle_tas poll_cycle_app : Z).
Abbreviation state := (sock_state L).
Implicit Types (s : state) (p : Z).

Lemma si_listen_open g H E s st p s' : sock_inv g H E s -> ev_listen_open s st p = Ok s' -> sock_inv g H E s'.
Proof.
  intros I R. unfold ev_listen_open in R. run_inv R. keep1. eapply si_put; [keep|by apply sock_at_inv|left; left|done..].
Qed.

Lemma si_outcome g H E s st p s' : sock_inv g (p :: H) E s -> conn_outcome s st p = Ok s' -> sock_inv g (p :: H) E s'.
Proof. intros I R. unfold conn_outcome in R. run_inv R; keep. Qed.

Lemma si_finish_if g H E s p flag s' : sock_inv g H E s -> finish_if_both poll_cycle_tas s p flag = Ok s' -> sock_inv g H E s'.
Proof. intros I R. unfold finish_if_both, flextcp_sockclose_finish in R. run_inv R; subst; keep. Qed.

Lemma add_received_status c buf len c' : add_received c buf len = Ok c' -> sc_status c' = sc_status c.
Proof. unfold add_received. intros R. run_inv R; by subst. Qed.

Lemma si_event g H E s ev s' : sock_inv g H E s -> handle_event poll_cycle_tas s ev = Ok s' -> sock_inv g H E s'.
Proof.
  intros I R. destruct ev as [st p|ip port p|st p|st p|st p|buf len p|p|p|p|st p]; simpl in R.
  - by eapply si_listen_open.
  - unfold ev_listen_newconn in R. run_inv R. keep.
  - unfold ev_listen_accept in R. run_inv R. keep1. eapply si_outcome; [|done]. keep.
  - unfold ev_conn_open in R. run_inv R. keep1. eapply si_outcome; [|done]. keep.
  - unfold ev_conn_closed in R. run_inv R. subst s'.
    match goal with A : sock_at _ p = Ok ?k |- _ => apply sock_at_inv in A; rename A into Hk end.
    match goal with A : c_assert (is_type _ _) = _, B : c_assert (is_status _ _) = _ |- _ =>
      apply c_assert_Ok in A, B; rename A into Ht; rename B into Hs end.
    apply (si_gone _ _ _ _ p); [|apply lookup_delete_eq]. eapply si_free_closed; [keep|done|]. unfold closed. by rewrite Ht, Hs.
  - unfold ev_conn_received in R. run_inv R; [keep|]. keep; intros Hc; by erewrite <- add_received_status.
  - unfold ev_conn_sendbuf in R. run_inv R. keep.
  - unfold ev_conn_rxclosed in R. run_inv R. keep1. eapply si_finish_if; [|done]. keep.
  - unfold ev_conn_txclosed in R. run_inv R. keep1. eapply si_finish_if; [|done]. keep.
  - unfold ev_conn_moved in R. run_inv R. keep.
Qed.

Lemma si_events g H E evs : forall s s', sock_inv g H E s -> handle_events poll_cycle_tas s evs = Ok s' -> sock_inv g H E s'.
Proof.
  induction evs as [|ev evs IH]; intros s s' I R; simpl in R; run_inv R; [by subst|]. eapply IH; [|done]. by eapply si_event.
Qed.

Lemma si_poll g H E s r s' : sock_inv g H E s -> flextcp_sockctx_poll remote flexnic_mem poll_cycle_tas s = Ok (r, s') -> sock_inv g H E s'.
Proof.
  intros I R. unfold flextcp_sockctx_poll in R. run_inv R. subst. eapply si_events; [|done]. keep.
Qed.

Lemma si_poll_n g H E fuel : forall s n m r s', sock_inv g H E s ->
  poll_n_loop remote flexnic_mem poll_cycle_tas fuel s n m = Ok (r, s') -> sock_inv g H E s'.
Proof.
  induction fuel as [|fuel IH]; intros s n m r s' I R; cbn [poll_n_loop] in R; run_inv R; subst.
  - eapply IH; [|done]. by eapply si_poll.
  - by eapply si_poll.
Qed.

Lemma si_ctx_wait g H E s s' : sock_inv g H E s -> ctx_wait poll_cycle_app s = Ok s' -> sock_inv g H E s'.
Proof. intros I R. unfold ctx_wait in R. run_inv R. subst. keep. Qed.

Lemma si_wait_round g H E s p block s' : sock_inv g (p :: H) E s ->
  wait_round remote flexnic_mem poll_cycle_tas poll_cycle_app s p block = Ok s' -> sock_inv g (p :: H) E s'.
Proof.
  intros I R. unfold wait_round in R. run_inv R. keep1. eapply si_poll; [|done].
  destruct block; [eapply si_ctx_wait; [|done]|match goal with A : mret _ = Ok _ |- _ => injection A as <- end]; keep.
Qed.

End Events.

(** ** The calls of the application *)
Section Calls.
Context {L : Type} `{RL : RdmaLink L}.
Context (remote : option rdma_env) (flexnic_mem tcp_rxbuf_len tcp_txbuf_len poll_cycle_tas poll_cycle_app ctx : Z).
Abbreviation state := (sock_state L).
Implicit Types (s : state) (p fd : Z) (H E : list Z).

Lemma si_slookup g H E s fd o s' : sock_inv g H E s -> flextcp_fd_slookup s fd = Ok (o, s') ->
  match o with
  | Some p => sock_inv g (p :: H) E s' /\ ss_fhs s !! fd = Some (FH_SOCKET p) /\ ss_fhs s' = ss_fhs s
  | None => sock_inv g H E s'
  end.
Proof.
  intros I R. unfold flextcp_fd_slookup, fh_at in R. run_inv R; subst; keep.
  match goal with A : (if fd <? 0 then _ else _) = _ |- _ => run_inv A end.
  split; [keep|]. split; [done|]. match goal with A : socket_lock _ _ = _ |- _ => unfold socket_lock in A; run_inv A end. by subst.
Qed.

Lemma si_elookup g H E s fd o s' : sock_inv g H E s -> flextcp_fd_elookup s fd = Ok (o, s') ->
  match o with
  | Some p => sock_inv g H (p :: E) s' /\ ss_fhs s !! fd = Some (FH_EPOLL p) /\ ss_fhs s' = ss_fhs s
  | None => sock_inv g H E s'
  end.
Proof.
  intros I R. unfold flextcp_fd_elookup, fh_at in R. run_inv R; subst; keep.
  match goal with A : (if fd <? 0 then _ else _) = _ |- _ => run_inv A end.
  split; [keep|]. split; [done|]. match goal with A : epoll_lock _ _ = _ |- _ => unfold epoll_lock in A; run_inv A end. by subst.
Qed.

Lemma si_wait_loop g H E p w fuel : forall s block s', sock_inv g (p :: H) E s ->
  wait_loop remote flexnic_mem poll_cycle_tas poll_cycle_app fuel s p block w = Ok s' -> sock_inv g (p :: H) E s'.
Proof.
  induction fuel as [|fuel IH]; intros s block s' I R; cbn [wait_loop] in R; run_inv R; subst.
  - eapply IH; [|done]. by eapply si_wait_round.
  - by eapply si_wait_round.
Qed.

Lemma si_sock_move g H E s p r s' : sock_inv g (p :: H) E s ->
  tas_sock_move remote flexnic_mem poll_cycle_tas poll_cycle_app ctx s p = Ok (r, s') -> sock_inv g (p :: H) E s'.
Proof.
  intros I R. unfold tas_sock_move, fail in R. run_inv R; subst; keep.
  match goal with A : (if _ then upd_conn _ _ _ else mret _) = Ok _ |- _ => run_inv A; subst end;
  keep; (eapply si_wait_loop; [|match goal with A : wait_while _ _ _ _ _ _ _ = Ok _ |- _ => exact A end]); keep.
Qed.

End Calls.

Ltac api R := unfold fail, out, out_fail in R; run_inv R; subst.
(** After a look-up of a descriptor and the move to the context of the thread. *)
Ltac looked :=
  repeat match goal with
  | I : sock_inv ?g ?H ?E ?s, A : flextcp_fd_slookup ?s _ = Ok (_, _) |- _ =>
      let X := fresh "Q" in pose proof (si_slookup g H E s _ _ _ I A) as X; cbn beta iota in X; clear A;
      lazymatch type of X with _ /\ _ => let Y := fresh "Q" in destruct X as [X Y] | _ => idtac end
  | I : sock_inv ?g ?H ?E ?s, A : flextcp_fd_elookup ?s _ = Ok (_, _) |- _ =>
      let X := fresh "Q" in pose proof (si_elookup g H E s _ _ _ I A) as X; cbn beta iota in X; clear A;
      lazymatch type of X with _ /\ _ => let Y := fresh "Q" in destruct X as [X Y] | _ => idtac end
  | I : sock_inv ?g (?p :: ?H) ?E ?s, A : tas_sock_move _ _ _ _ _ ?s ?p = Ok (_, _) |- _ =>
      apply (si_sock_move _ _ _ _ _ g H E s p _ _ I) in A
  | I : sock_inv ?g (?p :: ?H) ?E ?s, A : wait_while _ _ _ _ ?s ?p _ = Ok _ |- _ =>
      apply (si_wait_loop _ _ _ _ g H E p _ _ _ _ _ I) in A
  end.
(** The steps that are themselves branches. *)
Ltac branches :=
  repeat match goal with
  | A : (match ?o with Some _ => _ | None => _ end) = Ok _ |- _ => destruct o; api A
  | A : (if ?b then _ else _) = Ok _ |- _ => destruct b eqn:?; api A
  end.
Ltac keep2 :=
  match goal with
  | R : wait_while _ _ _ _ ?x ?p _ = Ok ?y |- sock_inv _ (?p :: _) _ ?y => eapply si_wait_loop; [|exact R]
  | R : flextcp_sockctx_poll _ _ _ ?x = Ok (_, ?y) |- sock_inv _ _ _ ?y => eapply si_poll; [|exact R]
  | R : wait_round _ _ _ _ ?x ?p _ = Ok ?y |- sock_inv _ (?p :: _) _ ?y => eapply si_wait_round; [|exact R]
  | R : tas_sock_move _ _ _ _ _ ?x ?p = Ok (_, ?y) |- sock_inv _ (?p :: _) _ ?y => eapply si_sock_move; [|exact R]
  end.
Ltac kept_call := looked; repeat (first [eassumption|keep1|keep2]).

Section Calls2.
Context {L : Type} `{RL : RdmaLink L}.
Context (remote : option rdma_env) (flexnic_mem tcp_rxbuf_len tcp_txbuf_len poll_cycle_tas poll_cycle_app ctx : Z).
Abbreviation state := (sock_state L).
Implicit Types (s : state) (p fd : Z) (H E : list Z).

Lemma si_move_conn g H E s fd r s' : sock_inv g H E s ->
  tas_move_conn remote flexnic_mem poll_cycle_tas poll_cycle_app ctx s fd = Ok (r, s') -> sock_inv g H E s'.
Proof. intros I R. unfold tas_move_conn in R. api R; kept_call. Qed.

Lemma si_shutdown g H E s fd how r s' : sock_inv g H E s ->
  tas_shutdown remote flexnic_mem poll_cycle_tas poll_cycle_app ctx s fd how = Ok (r, s') -> sock_inv g H E s'.
Proof. intros I R. unfold tas_shutdown in R. api R; kept_call. Qed.

Lemma si_getsockname g H E s fd n r o s' : sock_inv g H E s ->
  tas_getsockname remote flexnic_mem poll_cycle_tas poll_cycle_app ctx s fd n = Ok (r, o, s') -> sock_inv g H E s'.
Proof.
  intros I R. unfold tas_getsockname in R. api R; looked; keep;
    match goal with A : (_ ≫= _) = Ok (_, _) |- _ => api A; keep end.
Qed.

Lemma si_getpeername g H E s fd n r o s' : sock_inv g H E s ->
  tas_getpeername remote flexnic_mem poll_cycle_tas poll_cycle_app ctx s fd n = Ok (r, o, s') -> sock_inv g H E s'.
Proof.
  intros I R. unfold tas_getpeername in R. api R; looked; keep;
    match goal with A : (_ ≫= _) = Ok (_, _) |- _ => api A; keep end.
Qed.

Lemma si_bind g H E s fd addr fam len r s' : sock_inv g H E s -> tas_bind s fd addr fam len = Ok (r, s') -> sock_inv g H E s'.
Proof. intros I R. unfold tas_bind in R. api R; kept_call. Qed.

Lemma si_connect g H E s fd addr fam len m r s' : sock_inv g H E s ->
  tas_connect remote flexnic_mem tcp_rxbuf_len tcp_txbuf_len poll_cycle_tas poll_cycle_app ctx s fd addr fam len m = Ok (r, s') ->
  sock_inv g H E s'.
Proof. intros I R. unfold tas_connect in R. api R; kept_call. Qed.

Lemma si_listen g H E s fd backlog r s' : sock_inv g H E s ->
  tas_listen remote flexnic_mem poll_cycle_tas poll_cycle_app s fd backlog = Ok (r, s') -> sock_inv g H E s'.
Proof. intros I R. unfold tas_listen in R. api R; branches; kept_call. Qed.

Lemma si_fcntl g H E s fd cmd arg r s' : sock_inv g H E s ->
  tas_fcntl remote flexnic_mem poll_cycle_tas poll_cycle_app ctx s fd cmd arg = Ok (r, s') -> sock_inv g H E s'.
Proof. intros I R. unfold tas_fcntl in R. api R; kept_call. Qed.

Lemma si_setsockopt g H E s fd level name v len r s' : sock_inv g H E s ->
  tas_setsockopt remote flexnic_mem poll_cycle_tas poll_cycle_app ctx s fd level name v len = Ok (r, s') -> sock_inv g H E s'.
Proof. intros I R. unfold tas_setsockopt in R. api R; kept_call. Qed.

Lemma si_sockopt_value g H E s p level name v s' : sock_inv g (p :: H) E s ->
  sockopt_value remote flexnic_mem poll_cycle_tas s p level name = Ok (v, s') -> sock_inv g (p :: H) E s'.
Proof.
  intros I R. unfold sockopt_value, conn_error in R. api R; keep.
  match goal with A : (_ ≫= _) = Ok (_, _) |- _ => api A end.
  match goal with A : (if _ then _ else mret _) = Ok _ |- _ => api A; keep end.
  eapply si_poll; [|eassumption]. keep.
Qed.

Lemma si_getsockopt g H E s fd level name len r o s' : sock_inv g H E s ->
  tas_getsockopt remote flexnic_mem poll_cycle_tas poll_cycle_app ctx s fd level name len = Ok (r, o, s') -> sock_inv g H E s'.
Proof.
  intros I R. unfold tas_getsockopt in R. api R; looked; keep;
    (match goal with A : (_ ≫= _) = Ok (_, _) |- _ => api A; keep end);
    (eapply si_sockopt_value; [|eassumption]); keep.
Qed.

Lemma si_recv_wait g H E p fuel : forall s block r s', sock_inv g (p :: H) E s ->
  recv_wait remote flexnic_mem poll_cycle_tas poll_cycle_app fuel s p block = Ok (r, s') -> sock_inv g (p :: H) E s'.
Proof.
  induction fuel as [|fuel IH]; intros s block r s' I R; cbn [recv_wait] in R; api R; keep.
  - eapply si_wait_round; [|eassumption]. keep.
  - eapply IH; [|eassumption]. eapply si_wait_round; [|eassumption]. keep.
Qed.

Lemma si_recv_done g H E s p n s' : sock_inv g H E s -> recv_done s p n = Ok s' -> sock_inv g H E s'.
Proof. intros I R. unfold recv_done in R. api R; branches; keep. Qed.

Lemma si_receive {A} g H E s fd total (copy : rdma_queue -> socket_conn -> outcome (A * Z * socket_conn)) none r d s' :
  (forall q c x n c', copy q c = Ok (x, n, c') -> sc_status c' = sc_status c) ->
  sock_inv g H E s ->
  receive remote flexnic_mem poll_cycle_tas poll_cycle_app ctx s fd total copy none = Ok (r, d, s') -> sock_inv g H E s'.
Proof.
  intros Hc I R. unfold receive in R. api R; looked; keep;
    (match goal with A : (_ ≫= _) = Ok (_, _) |- _ => api A; keep end).
  - eapply si_recv_wait; [|eassumption]. keep.
  - eapply si_recv_done; [|eassumption]. keep; [eapply si_recv_wait; [|eassumption]; keep|]. intros Hx. by erewrite <- Hc.
Qed.

Lemma copy_out_status q c len d c' : copy_out q c len = Ok (d, c') -> sc_status c' = sc_status c.
Proof. unfold copy_out. intros R. api R. branches; by subst. Qed.

Lemma copy_out_vec_status q iov : forall c ds c', copy_out_vec q c iov = Ok (ds, c') -> sc_status c' = sc_status c.
Proof.
  induction iov as [|len iov IH]; intros c ds c' R; cbn [copy_out_vec] in R; api R; [done| |done].
  transitivity (sc_status s); [by eapply IH|by eapply copy_out_status].
Qed.

Lemma si_recv_simple g H E s fd len r d s' : sock_inv g H E s ->
  recv_simple remote flexnic_mem poll_cycle_tas poll_cycle_app ctx s fd len = Ok (r, d, s') -> sock_inv g H E s'.
Proof.
  apply si_receive. intros q c x n c' R. api R. by eapply copy_out_status.
Qed.

Lemma si_recvmsg g H E s fd iov r d s' : sock_inv g H E s ->
  tas_recvmsg remote flexnic_mem poll_cycle_tas poll_cycle_app ctx s fd iov = Ok (r, d, s') -> sock_inv g H E s'.
Proof.
  apply si_receive. intros q c x n c' R. api R. by eapply copy_out_vec_status.
Qed.

Lemma si_tx_alloc g H E s p len x s' : sock_inv g H E s -> tx_alloc s p len = Ok (x, s') -> sock_inv g H E s'.
Proof. intros I R. unfold tx_alloc in R. api R; keep. Qed.

Lemma si_tx_wait g H E p len fuel : forall s block r s', sock_inv g (p :: H) E s ->
  tx_wait remote flexnic_mem poll_cycle_tas poll_cycle_app fuel s p len block = Ok (r, s') -> sock_inv g (p :: H) E s'.
Proof.
  induction fuel as [|fuel IH]; intros s block r s' I R; cbn [tx_wait] in R; api R; keep.
  - eapply si_tx_alloc; [|eassumption]. by eapply si_wait_round.
  - eapply si_tx_alloc; [|eassumption]. by eapply si_wait_round.
  - eapply IH; [|eassumption]. eapply si_tx_alloc; [|eassumption]. by eapply si_wait_round.
Qed.

Lemma si_tx_send g H E p n fuel : forall s block s', sock_inv g (p :: H) E s ->
  tx_send_loop remote flexnic_mem poll_cycle_tas poll_cycle_app fuel s p n block = Ok s' -> sock_inv g (p :: H) E s'.
Proof.
  induction fuel as [|fuel IH]; intros s block s' I R; cbn [tx_send_loop] in R; api R; keep.
  eapply IH; [|eassumption]. eapply si_wait_round; [|eassumption]. keep.
Qed.

Lemma si_tx_space g H E s p total r b1 n1 b2 s1 o s2 :
  sock_inv g (p :: H) E s -> tx_alloc s p total = Ok (r, b1, n1, b2, s1) ->
  (if r =? 0 then tx_wait remote flexnic_mem poll_cycle_tas poll_cycle_app (S (length (ss_rounds s1))) s1 p total false
   else mret (Some (r, b1, n1, b2), s1)) = Ok (o, s2) -> sock_inv g (p :: H) E s2.
Proof.
  intros I A R. api R; [eapply si_tx_wait; [|eassumption]|]; by (eapply si_tx_alloc; [|eassumption]).
Qed.

Lemma si_transmit g H E s fd total copy r s' : sock_inv g H E s ->
  transmit remote flexnic_mem poll_cycle_tas poll_cycle_app ctx s fd total copy = Ok (r, s') -> sock_inv g H E s'.
Proof.
  intros I R. unfold transmit, put_tx_queue in R. api R; kept_call;
    match goal with A : tx_alloc ?s1 _ _ = Ok _, B : (if _ then tx_wait _ _ _ _ _ _ _ _ _ else _) = Ok (_, ?s3) |- _ =>
      pose proof (si_tx_space g H E s1 _ _ _ _ _ _ _ _ _ ltac:(eassumption) A B) end; [|done].
  eapply si_tx_send; [|eassumption]. match goal with A : (fc_at _ _ ≫= _) = Ok _ |- _ => api A; keep end.
Qed.

End Calls2.

(** ** Calls that change the descriptors *)
Section Descriptors.
Context {L : Type} `{RL : RdmaLink L}.
Context (remote : option rdma_env) (flexnic_mem tcp_rxbuf_len tcp_txbuf_len poll_cycle_tas poll_cycle_app ctx : Z).
Abbreviation state := (sock_state L).
Implicit Types (s : state) (p fd : Z) (H E : list Z).

Lemma refs_none (F : gmap Z filehandle) h : (forall fd, F !! fd <> Some h) -> refs F h = 0.
Proof.
  intros Hn. unfold refs. enough (filter (fun x => x.2 = h) F = ∅) as -> by done.
  apply map_empty. intros fd. apply map_lookup_filter_None. right. intros x Hx E. simpl in E. subst. by apply (Hn fd).
Qed.

Lemma si_new H E s p fd so :
  sock_inv id H E s -> ss_socks s !! p = None -> ss_fhs s !! fd = None ->
  so_refcnt so = 1 -> so_eps so = None -> closed so = false ->
  sock_inv id (p :: H) E (set_fhs (put_sock s p so) (<[fd := FH_SOCKET p]> (ss_fhs s))).
Proof.
  intros I Hp Hfd Hr He Hc. set (s' := set_fhs _ _).
  assert (P : forall q x, ss_socks s' !! q = Some x -> q = p /\ x = so \/ p <> q /\ ss_socks s !! q = Some x).
  { intros q x. simpl. destruct (decide (p = q)) as [->|]; [rewrite lookup_insert_eq|rewrite lookup_insert_ne by done]; naive_solver. }
  assert (Hno : forall fd h, ss_fhs s !! fd = Some h -> h <> FH_SOCKET p).
  { intros fd' h Hf ->. pose proof (si_live _ _ _ _ I fd' _ Hf) as [x Hx]. congruence. }
  assert (Hent : forall n e, ss_ess s !! n = Some e -> es_s e <> p).
  { intros n e Hn Es. destruct (si_epoll _ _ _ _ I) as (a & b & K).
    destruct (os_live _ _ _ _ (eo_socks _ _ _ K) n e Hn) as [x Hx]. congruence. }
  constructor.
  - destruct (si_epoll _ _ _ _ I) as (a & b & [W O R]). exists a, b. constructor; [by destruct W| |].
    + constructor; try apply O.
      * intros k x [[-> ->]|[_ Hk]]%P; [|by apply (os_head _ _ _ _ O)]. rewrite He. destruct (b p) as [|n l] eqn:Eb; [done|].
        assert (Hn : n ∈ b p) by (rewrite Eb; left). destruct (es_of _ _ _ _ _ O Hn) as (e & He' & Es). by apply Hent in He'.
      * intros n e Hn. simpl. rewrite lookup_insert_ne by (apply not_eq_sym; by eapply Hent). by apply (os_live _ _ _ _ O n).
    + intros n e x Hn [[Es _]|[_ Hx]]%P; [by apply Hent in Hn|by apply (R n e x)].
  - intros q x Hq. simpl. rewrite refs_insert by done. apply P in Hq as [[-> ->]|[Hne Hq]].
    + rewrite decide_True, refs_none by (try done; intros fd' Hf; by apply Hno in Hf). lia.
    + rewrite decide_False by congruence. rewrite Z.add_0_r. by apply (si_refs _ _ _ _ I).
  - intros q x [[-> ->]|[Hne Hq]]%P Hx; [congruence|by apply (si_closed _ _ _ _ I q)].
  - intros q x [[-> ->]|[Hne Hq]]%P Hx; [left; left|]. destruct (si_locks _ _ _ _ I q x Hq Hx); [left; by right|by right].
  - intros q x Hq. simpl. rewrite refs_insert, decide_False, Z.add_0_r by done. by apply (si_erefs _ _ _ _ I).
  - apply I.
  - intros fd' h Hf. simpl in Hf. destruct (decide (fd = fd')) as [->|].
    + rewrite lookup_insert_eq in Hf. injection Hf as <-. simpl. rewrite lookup_insert_eq. by eexists.
    + rewrite lookup_insert_ne in Hf by done. pose proof (si_live _ _ _ _ I fd' h Hf) as Hl. destruct h as [q|q]; [|done]. simpl in *.
      destruct (decide (p = q)) as [->|]; [rewrite lookup_insert_eq; by eexists|by rewrite lookup_insert_ne].
  - intros n e x Hn [[Es _]|[_ Hx]]%P; [by apply Hent in Hn|by apply (si_entry _ _ _ _ I n e)].
Qed.

Definition fresh_sock s (mem : option Z) (efd : Z) : Prop :=
  match mem with Some p => ss_socks s !! p = None | None => True end /\ ss_fhs s !! efd = None.

Lemma si_salloc H E s mem efd fd s' :
  sock_inv id H E s -> fresh_sock s mem efd -> flextcp_fd_salloc s mem efd = Ok (fd, s') ->
  fd < 0 /\ sock_inv id H E s' \/
  exists p k, mem = Some p /\ fd = efd /\ sock_inv id (p :: H) E s' /\ 0 <= fd /\
    ss_socks s' !! p = Some k /\ so_eps k = None /\ ep_events k = 0.
Proof.
  intros I [Hp Hf] R. unfold flextcp_fd_salloc in R. api R; try (left; split; [lia|]; keep).
  right. eexists _, _. split; [done|]. split; [done|]. bprop. split; [by apply si_new|]. split; [lia|].
  split; [apply lookup_insert_eq|done].
Qed.

Lemma si_socket s domain type mem efd r s' : sock_inv id [] [] s -> fresh_sock s mem efd ->
  tas_socket s domain type mem efd = Ok (r, s') -> sock_inv id [] [] s'.
Proof.
  intros I Hf R. unfold tas_socket in R. api R; keep;
    (match goal with A : flextcp_fd_salloc _ _ _ = Ok _ |- _ => destruct (si_salloc [] [] _ _ _ _ _ I Hf A) as [[? ?]|(q & k & Eq & ? & ? & ? & Hk & ? & ?)] end);
    try done; bprop; try lia.
  injection Eq as <-. unfold flextcp_epoll_sockinit in *. keep.
  match goal with A : upd_sock ?s0 ?p ?f = Ok ?s1, B : upd_sock ?s1 ?p ?g = Ok ?s2 |- sock_inv _ _ _ ?s2 =>
    rewrite (upd_sock_ok s0 p f) in A by (by eexists); injection A as <-; rewrite upd_sock_ok in B
      by (simpl; rewrite lookup_alter_eq, Hk; by eexists); injection B as <- end.
  unfold set_socks. simpl. rewrite (alter_twice _ _ _ _ k) by done.
  apply (si_put _ _ _ _ _ k); try done. by left; left.
Qed.

(** ** Counting references *)

Lemma si_count g g' H E s p so d :
  sock_inv g H E s -> ss_socks s !! p = Some so -> p ∈ H -> closed so = false ->
  (forall h, refs (g' (ss_fhs s)) h = refs (g (ss_fhs s)) h + if decide (FH_SOCKET p = h) then d else 0) ->
  (forall fd h, g' (ss_fhs s) !! fd = Some h -> live s h) ->
  sock_inv g' H E (put_sock s p (with_so_refcnt so (so_refcnt so + d))).
Proof.
  intros I Hp Hh Hc Hr Hl.
  assert (P : forall q x, ss_socks (put_sock s p (with_so_refcnt so (so_refcnt so + d))) !! q = Some x ->
    q = p /\ x = with_so_refcnt so (so_refcnt so + d) \/ p <> q /\ ss_socks s !! q = Some x).
  { intros q x. simpl. destruct (decide (p = q)) as [->|]; [rewrite lookup_insert_eq|rewrite lookup_insert_ne by done]; naive_solver. }
  constructor.
  - destruct (si_epoll _ _ _ _ I) as (a & b & K). exists a, b. by apply (epoll_ok_plain s a b p so).
  - intros q x Hq. change (ss_fhs (put_sock _ _ _)) with (ss_fhs s). rewrite Hr. apply P in Hq as [[-> ->]|[Hne Hq]].
    + rewrite decide_True by done. simpl. by rewrite (si_refs _ _ _ _ I p so Hp).
    + rewrite decide_False, Z.add_0_r by congruence. by apply (si_refs _ _ _ _ I).
  - intros q x [[-> ->]|[Hne Hq]]%P Hx; [|by apply (si_closed _ _ _ _ I q)].
    change (closed so = true) in Hx. congruence.
  - intros q x [[-> ->]|[Hne Hq]]%P Hx; [by left|by apply (si_locks _ _ _ _ I q)].
  - intros q x Hq. change (ss_fhs (put_sock _ _ _)) with (ss_fhs s). rewrite Hr, decide_False, Z.add_0_r by done.
    by apply (si_erefs _ _ _ _ I).
  - apply I.
  - intros fd h Hf. pose proof (Hl fd h Hf) as Hv. destruct h as [q|q]; simpl in *; [|done].
    destruct (decide (p = q)) as [->|]; [rewrite lookup_insert_eq; by eexists|by rewrite lookup_insert_ne].
  - intros n e x Hn [[Es ->]|[_ Hx]]%P; [exact Hc|by apply (si_entry _ _ _ _ I n e)].
Qed.

Lemma si_ecount g g' H E s p (e : epoll) d :
  sock_inv g H E s -> ss_eps s !! p = Some e ->
  (forall h, refs (g' (ss_fhs s)) h = refs (g (ss_fhs s)) h + if decide (FH_EPOLL p = h) then d else 0) ->
  (forall fd h, g' (ss_fhs s) !! fd = Some h -> live s h) ->
  sock_inv g' H E (put_epoll s p (with_e_refcnt e (e_refcnt e + d))).
Proof.
  intros I Hp Hr Hl.
  assert (P : forall q x, ss_eps (put_epoll s p (with_e_refcnt e (e_refcnt e + d))) !! q = Some x ->
    q = p /\ x = with_e_refcnt e (e_refcnt e + d) \/ p <> q /\ ss_eps s !! q = Some x).
  { intros q x. simpl. destruct (decide (p = q)) as [->|]; [rewrite lookup_insert_eq|rewrite lookup_insert_ne by done]; naive_solver. }
  constructor.
  - destruct (si_epoll _ _ _ _ I) as (a & b & K). exists a, b. by apply (epoll_ok_eps s a b p e).
  - intros q x Hq. change (ss_fhs (put_epoll _ _ _)) with (ss_fhs s). rewrite Hr, decide_False, Z.add_0_r by done.
    by apply (si_refs _ _ _ _ I).
  - apply I.
  - apply I.
  - intros q x Hq. change (ss_fhs (put_epoll _ _ _)) with (ss_fhs s). rewrite Hr. apply P in Hq as [[-> ->]|[Hne Hq]].
    + rewrite decide_True by done. simpl. by rewrite (si_erefs _ _ _ _ I p e Hp).
    + rewrite decide_False, Z.add_0_r by congruence. by apply (si_erefs _ _ _ _ I).
  - intros q x [[-> ->]|[Hne Hq]]%P Hx; [by apply (si_elocks _ _ _ _ I p e)|by apply (si_elocks _ _ _ _ I q x)].
  - intros fd h Hf. pose proof (Hl fd h Hf) as Hv. destruct h as [q|q]; simpl in *; [done|].
    destruct (decide (p = q)) as [->|]; [rewrite lookup_insert_eq; by eexists|by rewrite lookup_insert_ne].
  - apply I.
Qed.

(** A socket with a descriptor is open. *)
Lemma open_of_fd g H E s fd p so :
  sock_inv g H E s -> g (ss_fhs s) !! fd = Some (FH_SOCKET p) -> ss_socks s !! p = Some so -> closed so = false.
Proof.
  intros I Hf Hp. apply not_true_is_false. intros Hc. pose proof (si_closed _ _ _ _ I p so Hp Hc) as H0.
  rewrite (si_refs _ _ _ _ I p so Hp) in H0. apply refs_pos in Hf. lia.
Qed.

(** The change of descriptors that was still to be made. *)
Lemma si_set_fhs g g' H E s F : sock_inv g H E s -> g' F = g (ss_fhs s) -> sock_inv g' H E (set_fhs s F).
Proof.
  intros I Eg. constructor; simpl; rewrite ?Eg; try apply I.
  eapply si_epoll_of_parts; [..|apply (si_epoll _ _ _ _ I)]; done.
Qed.

Lemma live_delete g H E s fd : sock_inv g H E s -> forall fd' h, delete fd (g (ss_fhs s)) !! fd' = Some h -> live s h.
Proof. intros I fd' h [_ Hf]%lookup_delete_Some. by apply (si_live _ _ _ _ I fd'). Qed.

Lemma si_fd_close H E s fd s' :
  sock_inv id H E s -> (forall p, ss_fhs s !! fd = Some (FH_SOCKET p) -> p ∈ H) ->
  flextcp_fd_close s fd = Ok s' -> sock_inv id H E s'.
Proof.
  intros I Hh R. unfold flextcp_fd_close, fh_at in R. api R.
  match goal with A : (if fd <? 0 then _ else _) = Ok _ |- _ => api A end.
  apply (si_set_fhs (fun F => delete fd F)); [|match goal with A : _ = Ok ?s2 |- id _ = _ (ss_fhs ?s2) => idtac end].
  - destruct (ss_fhs s !! fd) as [[p|p]|] eqn:Ef; match goal with A : _ = Ok ?s2 |- _ => api A end; try done.
    + match goal with A : sock_at s p = Ok _ |- _ => apply sock_at_inv in A as Hp end.
      apply (si_count id); try done; [by apply Hh|by eapply open_of_fd| |by eapply (live_delete id)].
      intros h. unfold id. rewrite (refs_delete _ _ _ _ Ef). destruct (decide _); lia.
    + match goal with A : epoll_at s p = Ok _ |- _ => apply epoll_at_inv in A as Hp end.
      apply (si_ecount id); try done; [|by eapply (live_delete id)].
      intros h. unfold id. rewrite (refs_delete _ _ _ _ Ef). destruct (decide _); lia.
  - done.
Qed.

(** ** Closing *)

Lemma si_fewer g H E s s' : sock_inv g H E s -> fewer s s' -> epoll_inv s' -> sock_inv g H E s'.
Proof.
  intros I F K. eapply si_transfer; [done|by rewrite (fw_rest _ _ F)|done| | |].
  - assert (Hg : forall m : gmap Z socket, plain <$> m = fst <$> (no_list <$> m)).
    { intros m. rewrite <- map_fmap_compose. by apply map_fmap_ext. }
    by rewrite !Hg, (fw_socks _ _ F).
  - assert (Hg : forall m : gmap Z epoll, elock <$> m = (fun '(x, y, _, _, _) => (x, y)) <$> (efixed <$> m)).
    { intros m. rewrite <- map_fmap_compose. by apply map_fmap_ext. }
    by rewrite !Hg, (fw_eps _ _ F).
  - intros n e' Hn. destruct (fw_ess _ _ F n e' Hn) as (e & He & Hc). exists e. split; [done|]. by injection Hc.
Qed.

Definition no_entry s p : Prop := forall n e, ss_ess s !! n = Some e -> es_s e <> p.

Lemma si_mark_closed g H E s p so :
  sock_inv g H E s -> ss_socks s !! p = Some so -> p ∈ H -> so_refcnt so = 0 -> no_entry s p ->
  sock_inv g H E (put_sock s p (with_conn so (with_status (so_conn so) SOC_CLOSED))).
Proof.
  intros I Hp Hh Hr Hn. set (so' := with_conn _ _).
  assert (P : forall q x, ss_socks (put_sock s p so') !! q = Some x -> q = p /\ x = so' \/ p <> q /\ ss_socks s !! q = Some x).
  { intros q x. simpl. destruct (decide (p = q)) as [->|]; [rewrite lookup_insert_eq|rewrite lookup_insert_ne by done]; naive_solver. }
  constructor; try apply I.
  - destruct (si_epoll _ _ _ _ I) as (a & b & K). exists a, b. by apply (epoll_ok_plain s a b p so).
  - intros q x [[-> ->]|[Hne Hq]]%P; [by apply (si_refs _ _ _ _ I p so)|by apply (si_refs _ _ _ _ I)].
  - intros q x [[-> ->]|[Hne Hq]]%P Hx; [done|by apply (si_closed _ _ _ _ I q)].
  - intros q x [[-> ->]|[Hne Hq]]%P Hx; [by left|by apply (si_locks _ _ _ _ I q)].
  - intros fd [q|q] Hf; pose proof (si_live _ _ _ _ I fd _ Hf) as Hl; simpl in *; [|done].
    destruct (decide (p = q)) as [->|]; [rewrite lookup_insert_eq; by eexists|by rewrite lookup_insert_ne].
  - intros n e x He [[Es _]|[_ Hx]]%P; [by apply Hn in He|by apply (si_entry _ _ _ _ I n e)].
Qed.

Lemma upd_conn_put s p so f : ss_socks s !! p = Some so -> upd_conn s p f = Ok (put_sock s p (with_conn so (f (so_conn so)))).
Proof. intros Hp. unfold upd_conn. by rewrite (sock_at_ok _ _ _ Hp). Qed.

Lemma si_conn_close g H E s p so s' :
  sock_inv g (p :: H) E s -> ss_socks s !! p = Some so -> so_refcnt so = 0 -> no_entry s p ->
  conn_close poll_cycle_tas s p = Ok s' -> sock_inv g H E s'.
Proof.
  intros I Hp Hr Hn R. unfold conn_close, flextcp_sockclose_finish in R.
  rewrite (upd_conn_put _ _ so) in R by done. cbn [mbind outcome_bind] in R.
  pose proof (si_mark_closed _ _ _ _ _ _ I Hp ltac:(left) Hr Hn) as I1. api R. keep1. branches; keep.
Qed.

Lemma si_sock_close g H E s p r s' :
  sock_inv g (p :: H) E s -> tas_sock_close poll_cycle_tas s p = Ok (r, s') -> sock_inv g H E s'.
Proof.
  intros I R. unfold tas_sock_close in R. api R.
  match goal with A : sock_at s p = Ok ?x, B : c_assert (so_refcnt ?x =? 0) = Ok _ |- _ =>
    apply sock_at_inv in A; rename A into Hp; rename x into so; apply c_assert_Ok in B; apply Z.eqb_eq in B; rename B into Hr end.
  destruct (si_epoll _ _ _ _ I) as (a & b & K).
  destruct (epoll_sockclose_ok s a b p so K Hp) as (s1 & a1 & b1 & E1 & K1 & F1 & Hb).
  match goal with A : flextcp_epoll_sockclose s p = Ok ?x |- _ => rewrite E1 in A; injection A as <- end.
  assert (I1 : sock_inv g (p :: H) E s1) by (eapply si_fewer; [done|done|by exists a1, b1]).
  destruct (fewer_lookup _ _ _ _ F1 Hp) as (so1 & Hp1 & Hpl). injection Hpl as _ _ _ _ Et Er _ _.
  assert (Hn : no_entry s1 p).
  { intros n e He Es. pose proof (in_b s1 b1 n e (eo_socks _ _ _ K1) He) as Hin. rewrite Es, Hb in Hin. by apply not_elem_of_nil in Hin. }
  unfold is_type in *. destruct (bool_decide (so_type so = SOCK_CONNECTION)) eqn:Ec.
  { match goal with A : conn_close _ s1 p = Ok _ |- _ => by eapply (si_conn_close _ _ _ _ _ so1); [..|exact A]; [done|done|congruence|done] end. }
  destruct (bool_decide (so_type so = SOCK_SOCKET)); match goal with A : mret _ = Ok _ |- _ => api A end.
  - apply (si_gone _ _ _ _ p); [|apply lookup_delete_eq]. eapply si_free; [done|done|congruence|done].
  - eapply si_mono; [done| |by auto]. intros q x Hq _ [->|?]%elem_of_cons; [right|by left].
    assert (x = so1) as -> by congruence. split; [congruence|]. rewrite Et. by apply bool_decide_eq_false in Ec.
Qed.

Lemma si_destroy g H E s p s' :
  sock_inv g H (p :: E) s -> flextcp_epoll_destroy s p = Ok s' -> sock_inv g H E s'.
Proof.
  intros I R. pose proof R as R0. unfold flextcp_epoll_destroy in R0. run_inv R0.
  match goal with A : epoll_at s p = Ok ?x, B : c_assert _ = Ok _ |- _ =>
    apply epoll_at_inv in A; rename A into Hp; rename x into e; apply c_assert_Ok in B; apply Z.eqb_eq in B; rename B into Hr end.
  destruct (si_epoll _ _ _ _ I) as (a & b & K).
  destruct (epoll_destroy_ok s a b p e K Hp Hr) as (s2 & s1 & a1 & b1 & E1 & K1 & F1 & ->).
  assert (s' = free_epoll s1 p) as -> by congruence. clear - I Hp Hr K1 F1.
  assert (Q : forall q x, ss_eps s1 !! q = Some x -> exists y, ss_eps s !! q = Some y /\ elock y = elock x).
  { intros q x Hq. destruct (fmap_lookup_inv efixed _ _ _ _ (fw_eps _ _ F1) Hq) as (y & ? & Ey). exists y. split; [done|]. unfold elock. injection Ey as G1 G2 _ _ _. congruence. }
  assert (P : forall q x, ss_socks s1 !! q = Some x -> exists y, ss_socks s !! q = Some y /\ plain y = plain x).
  { intros q x Hq. destruct (fmap_lookup_inv no_list _ _ _ _ (fw_socks _ _ F1) Hq) as (y & ? & Ey). exists y. split; [done|]. exact (f_equal fst Ey). }
  assert (Ff : ss_fhs s1 = ss_fhs s) by by rewrite (fw_rest _ _ F1).
  assert (C : forall x y, plain x = plain y -> closed x = closed y).
  { intros x y [= E1 E2 E3 E4 E5 E6 E7]. unfold closed, is_type, is_status. by rewrite E1, E5. }
  constructor; change (ss_fhs (free_epoll s1 p)) with (ss_fhs s1); rewrite ?Ff.
  - by exists a1, b1.
  - intros q x (y & Hy & Ey)%P. injection Ey as _ _ _ _ _ <- _. by apply (si_refs _ _ _ _ I).
  - intros q x (y & Hy & Ey)%P Hx. rewrite <- (C _ _ Ey) in Hx. injection Ey as _ _ _ _ _ <- _. by apply (si_closed _ _ _ _ I q).
  - intros q x (y & Hy & Ey)%P Hx. injection Ey as _ _ _ _ Et Er El. rewrite <- El in Hx.
    destruct (si_locks _ _ _ _ I q y Hy Hx) as [?|[? ?]]; [by left|right]. unfold leaked. by rewrite <- Er, <- Et.
  - intros q x Hq. simpl in Hq. apply lookup_delete_Some in Hq as [_ (y & Hy & [= <- _])%Q]. by apply (si_erefs _ _ _ _ I).
  - intros q x Hq Hx. simpl in Hq. apply lookup_delete_Some in Hq as [Hne (y & Hy & [= _ El])%Q]. rewrite <- El in Hx.
    apply (si_elocks _ _ _ _ I q y Hy) in Hx. set_solver.
  - intros fd [q|q] Hf; pose proof (si_live _ _ _ _ I fd _ Hf) as Hv; simpl in *.
    + destruct Hv as [y Hy]. destruct (fewer_lookup _ _ _ _ F1 Hy) as (x & Hx & _). by eexists.
    + assert (p <> q). { intros ->. apply refs_pos in Hf. rewrite <- (si_erefs _ _ _ _ I q e Hp) in Hf. lia. }
      rewrite lookup_delete_ne by done. eapply efixed_live; [apply F1|done].
  - intros n x y Hn (y0 & Hy0 & Ey)%P. destruct (fw_ess _ _ F1 n x Hn) as (x0 & Hx0 & [= _ Es _ _ _]).
    rewrite <- (C _ _ Ey). apply (si_entry _ _ _ _ I n x0); [done|congruence].
Qed.

Lemma si_close s fd r s' : sock_inv id [] [] s -> tas_close poll_cycle_tas s fd = Ok (r, s') -> sock_inv id [] [] s'.
Proof.
  intros I R. unfold tas_close in R. api R; kept_call;
    (match goal with A : _ /\ _ |- _ => destruct A as [Hfd Hsame] end);
    (match goal with A : flextcp_fd_close ?x fd = Ok _, J : sock_inv id ?H ?E ?x |- _ =>
       apply (si_fd_close H E _ _ _ J) in A; [|intros ? Hx; rewrite Hsame, Hfd in Hx; simplify_eq; left] end).
  - done.
  - eapply si_sock_close; [|eassumption]; eassumption.
  - done.
  - eapply si_destroy; [|eassumption]; eassumption.
Qed.

(** ** Accepting *)

Lemma si_accept_request H E s p nb ce (m : accept_mem) r s' :
  sock_inv id (p :: H) E s -> fresh_sock s (am_socket m) (am_efd m) ->
  accept_request remote tcp_rxbuf_len tcp_txbuf_len poll_cycle_tas ctx s p nb ce m = Ok (r, s') ->
  match r with
  | inl _ => sock_inv id (p :: H) E s' \/ ss_socks s' !! p = None
  | inr (ns, _) => sock_inv id (ns :: p :: H) E s'
  end.
Proof.
  intros I Hf R. unfold accept_request in R. api R;
    try (match goal with A : flextcp_fd_salloc _ _ _ = Ok _ |- _ => destruct (si_salloc _ _ _ _ _ _ _ I Hf A) as
      [[? ?]|(q & k & Eq & -> & Is & ? & Hk & ? & ?)] end; try rewrite Eq in *; bprop; simplify_eq; try lia); try (left; keep; fail).
  - right. apply lookup_delete_eq.
  - match goal with A : upd_sock _ p _ = Ok ?x |- sock_inv _ _ _ ?x =>
      eapply si_upd_sock; [| |  |exact A]; [keep|right; left|same_socket] end.
Qed.

Lemma si_swap g H E s p q : sock_inv g (p :: q :: H) E s -> sock_inv g (q :: p :: H) E s.
Proof. intros I. eapply si_mono; [done| |by auto]. intros x y _ _ Hx. left. set_solver. Qed.

Lemma si_accept_loop g H E p ns fuel : forall s block s', sock_inv g (ns :: p :: H) E s ->
  accept_loop remote flexnic_mem poll_cycle_tas poll_cycle_app fuel s p ns block = Ok s' -> sock_inv g (ns :: p :: H) E s'.
Proof.
  induction fuel as [|fuel IH]; intros s block s' I R; cbn [accept_loop] in R; api R.
  - eapply IH; [|eassumption]. keep. eapply si_wait_round; [|eassumption]. keep.
  - keep. eapply si_wait_round; [|eassumption]. keep.
Qed.

Lemma si_accept_finish g H E s p ns o s' : sock_inv g (ns :: p :: H) E s ->
  accept_finish remote flexnic_mem poll_cycle_tas poll_cycle_app s p ns = Ok (o, s') -> sock_inv g (p :: H) E s'.
Proof.
  intros I R. unfold accept_finish in R. api R.
  - match goal with A : (if _ then _ else _) = Ok (Some _, ?x) |- _ =>
      assert (sock_inv g (ns :: p :: H) E x) as I2 by (api A; try discriminate; [eapply si_accept_loop; [|eassumption]; keep|keep]) end.
    keep1. apply si_swap. keep1. by apply si_swap.
  - match goal with A : (if _ then _ else _) = Ok (None, _) |- _ => api A; try discriminate; keep end.
Qed.

Lemma fresh_slookup s fd p s' mem efd : flextcp_fd_slookup s fd = Ok (Some p, s') -> fresh_sock s mem efd -> fresh_sock s' mem efd.
Proof.
  unfold flextcp_fd_slookup, fh_at. intros R [Hm He]. api R; try discriminate.
  match goal with A : socket_lock _ _ = Ok _ |- _ => unfold socket_lock in A; api A end.
  match goal with A : sock_at _ _ = Ok _ |- _ => apply sock_at_inv in A as Hp end.
  split; [|done]. destruct mem as [q|]; [|done]. simpl. destruct (decide (p = q)) as [->|]; [congruence|by rewrite lookup_insert_ne].
Qed.

(** A failed request has freed the listener, which cannot be unlocked then. *)
Lemma si_accept_out H E s p x r s' : sock_inv id (p :: H) E s \/ ss_socks s !! p = None -> out s p x = Ok (r, s') -> sock_inv id H E s'.
Proof.
  intros [I|Hn] R; [api R; keep|]. api R. unfold flextcp_fd_srelease, socket_unlock, sock_at in *. by rewrite Hn in *.
Qed.

(** The connection to hand out: one that is pending for the context, or a new one. *)
Lemma si_accept_found H E s p (lk : socket) nb ce (m : accept_mem) r s' :
  sock_inv id (p :: H) E s -> fresh_sock s (am_socket m) (am_efd m) ->
  match find_pending ctx (sl_pending (so_listen lk)) with
  | Some sp => mret (inr (sp_s sp, sp_fd sp), s)
  | None => accept_request remote tcp_rxbuf_len tcp_txbuf_len poll_cycle_tas ctx s p nb ce m
  end = Ok (r, s') ->
  match r with
  | inl _ => sock_inv id (p :: H) E s' \/ ss_socks s' !! p = None
  | inr (ns, _) => sock_inv id (ns :: p :: H) E s'
  end.
Proof.
  intros I Hf R. destruct (find_pending _ _) as [sp|]; [|by eapply si_accept_request].
  injection R as <- <-. eapply si_mono; [done| |by auto]. intros q x _ _ Hq. left. by right.
Qed.

Lemma si_accept s fd n flags (m : accept_mem) r o s' : sock_inv id [] [] s -> fresh_sock s (am_socket m) (am_efd m) ->
  tas_accept4 remote flexnic_mem tcp_rxbuf_len tcp_txbuf_len poll_cycle_tas poll_cycle_app ctx s fd n flags m = Ok (r, o, s') ->
  sock_inv id [] [] s'.
Proof.
  intros I Hf R. unfold tas_accept4 in R. run_inv R; subst;
    try (match goal with A : flextcp_fd_slookup _ _ = Ok (Some _, _) |- _ => apply (fresh_slookup _ _ _ _ _ _ A) in Hf end); looked; keep;
    try (match goal with A : out_fail _ _ _ = Ok _ |- _ => api A; keep end; fail);
    match goal with A : match find_pending _ _ with _ => _ end = Ok _ |- _ => pose proof (si_accept_found [] [] _ _ _ _ _ _ _ _ ltac:(eassumption) Hf A) as J; cbn beta iota in J end.
  - by eapply si_accept_out.
  - eapply si_accept_out; [left|eassumption].
    match goal with A : accept_finish _ _ _ _ _ _ _ = Ok _ |- _ => apply (si_accept_finish _ _ _ _ _ _ _ _ J) in A end.
    match goal with A : match n with _ => _ end = Ok (o, _) |- _ => destruct n; run_inv A; subst end; [|done].
    match goal with A : tas_getpeername _ _ _ _ _ _ _ _ = Ok _ |- _ => by apply (si_getpeername _ _ _ _ _ _ _ _ _ _ _ _ _ _ E6) in A end.
  - eapply si_accept_out; [left; by eapply si_accept_finish|eassumption].
Qed.

End Descriptors.
