(* ===== verification/SockEpollCalls.v ===== *)
(** * The invariant of the socket library: calls on epolls

    [tas_epoll_create], [tas_epoll_ctl] and [tas_epoll_wait] keep the invariant of
    SockInv. *)
From S2P Require Import Prelude RdmaQueue Packets LibTas LibPoll SockState SockReady SockCtx.
From S2P Require Import SockCtl SockOpen SockPoll SockXfer SockReadySpec SockEpollInv SockScan LibSpec SockInv.

#[local] Open Scope Z_scope.

Section Framed.
Context {L : Type}.
Abbreviation state := (sock_state L).
Implicit Types (s : state) (p q k ep fd : Z) (so : socket) (g : gmap Z filehandle -> gmap Z filehandle) (H E : list Z).

(** Only entries, lists, masks and counters of epolls change. *)
Record framed s s' : Prop := {
  fr_fhs : ss_fhs s' = ss_fhs s;
  fr_socks : plain <$> ss_socks s' = plain <$> ss_socks s;
  fr_eps : elock <$> ss_eps s' = elock <$> ss_eps s;
  fr_ess : es_s <$> ss_ess s' = es_s <$> ss_ess s;
}.

Lemma eframed_refl s : framed s s.
Proof. done. Qed.
Lemma eframed_trans s1 s2 s3 : framed s1 s2 -> framed s2 s3 -> framed s1 s3.
Proof. intros [] []. split; congruence. Qed.

Lemma fmap_same {A B} (f : A -> B) (m : gmap Z A) p x y : m !! p = Some x -> f y = f x -> f <$> <[p := y]> m = f <$> m.
Proof. intros Hp E. rewrite fmap_insert. apply insert_id. by rewrite lookup_fmap, Hp, E. Qed.

Lemma framed_es s p f s' : (forall e, es_s (f e) = es_s e) -> upd_es s p f = Ok s' -> framed s s'.
Proof.
  intros Hf R. unfold upd_es in R. run_inv R. subst. split; try done. simpl. eapply fmap_same; [by apply es_at_inv|apply Hf].
Qed.
Lemma framed_epoll s p f s' : (forall e, elock (f e) = elock e) -> upd_epoll s p f = Ok s' -> framed s s'.
Proof.
  intros Hf R. unfold upd_epoll in R. run_inv R. subst. split; try done. simpl. eapply fmap_same; [by apply epoll_at_inv|apply Hf].
Qed.
Lemma framed_sock s p f s' : (forall so, plain (f so) = plain so) -> upd_sock s p f = Ok s' -> framed s s'.
Proof.
  intros Hf R. unfold upd_sock in R. run_inv R. subst. split; try done. simpl. eapply fmap_same; [by apply sock_at_inv|apply Hf].
Qed.

Ltac frame1 :=
  match goal with
  | |- framed ?s ?s => apply eframed_refl
  | R : upd_es _ _ _ = Ok ?y |- framed _ ?y => eapply eframed_trans; [|by eapply framed_es; [|exact R]]; clear R
  | R : upd_epoll _ _ _ = Ok ?y |- framed _ ?y => eapply eframed_trans; [|by eapply framed_epoll; [|exact R]]; clear R
  | R : upd_sock _ _ _ = Ok ?y |- framed _ ?y => eapply eframed_trans; [|by eapply framed_sock; [|exact R]]; clear R
  | R : (match ?o with Some _ => _ | None => _ end) = Ok ?y |- framed _ ?y => destruct o; run_inv R; subst
  end.

Lemma framed_add_inactive s n s' : es_add_inactive s n = Ok s' -> framed s s'.
Proof. intros R. unfold es_add_inactive in R. run_inv R. repeat frame1. Qed.
Lemma framed_add_active s n s' : es_add_active s n = Ok s' -> framed s s'.
Proof. intros R. unfold es_add_active in R. run_inv R. repeat frame1. Qed.
Lemma framed_remove_inactive s n s' : es_remove_inactive s n = Ok s' -> framed s s'.
Proof. intros R. unfold es_remove_inactive in R. run_inv R; subst; repeat frame1. Qed.

Lemma framed_activate s n s' : es_activate s n = Ok s' -> framed s s'.
Proof.
  intros R. unfold es_activate in R. run_inv R; subst; [done|].
  match goal with A : es_add_active _ _ = Ok _ |- _ => apply framed_add_active in A; eapply eframed_trans; [|exact A] end.
  frame1. by eapply framed_remove_inactive.
Qed.

Lemma framed_if_ready s p n s' : activate_if_ready s p n = Ok s' -> framed s s'.
Proof. intros R. unfold activate_if_ready in R. run_inv R; subst; [by eapply framed_activate|done]. Qed.

Lemma si_framed g H E s s' : sock_inv g H E s -> framed s s' -> epoll_inv s' -> sock_inv g H E s'.
Proof.
  intros I [F1 F2 F3 F4] K. eapply si_transfer; [done|done|done|done|done|].
  intros n e' Hn. destruct (fmap_lookup_inv es_s _ _ _ _ F4 Hn) as (e & ? & ?). by exists e.
Qed.

Lemma si_only_lists g H E s s' : sock_inv g H E s -> only_lists s s' -> epoll_inv s' -> sock_inv g H E s'.
Proof.
  intros I O K. apply (si_framed g H E s s' I); [|done]. split.
  - by rewrite (on_rest _ _ O).
  - by rewrite (only_lists_socks _ _ O).
  - by apply only_lists_elock.
  - apply (fixed_of es_s (fun '(_, x, _, _, _, _) => x)); [done|apply O].
Qed.

(** A new entry for an open socket. *)
Lemma si_new_entry g H E s s' n e so :
  sock_inv g H E s -> framed (put_es s n e) s' -> epoll_inv s' ->
  ss_socks s !! es_s e = Some so -> closed so = false -> sock_inv g H E s'.
Proof.
  intros I [F1 F2 F3 F4] K Hp Hc.
  assert (P : forall q x', ss_socks s' !! q = Some x' -> exists x, ss_socks s !! q = Some x /\ plain x = plain x')
    by (intros q x'; by apply fmap_lookup_inv).
  assert (Q : forall q x', ss_eps s' !! q = Some x' -> exists x, ss_eps s !! q = Some x /\ elock x = elock x')
    by (intros q x'; by apply fmap_lookup_inv).
  assert (C : forall x x', plain x = plain x' -> closed x = closed x').
  { intros x x' [= E1 E2 E3 E4 E5 E6 E7]. unfold closed, is_type, is_status. by rewrite E1, E5. }
  change (ss_fhs (put_es s n e)) with (ss_fhs s) in F1.
  constructor; rewrite ?F1; [done| | | | | | |].
  - intros q x' (x & Hx & Ex)%P. injection Ex as _ _ _ _ _ <- _. by apply (si_refs _ _ _ _ I).
  - intros q x' (x & Hx & Ex)%P Hcx. rewrite <- (C _ _ Ex) in Hcx. injection Ex as _ _ _ _ _ <- _. by apply (si_closed _ _ _ _ I q).
  - intros q x' (x & Hx & Ex)%P Hl. injection Ex as _ _ _ _ Et Er El. rewrite <- El in Hl.
    destruct (si_locks _ _ _ _ I q x Hx Hl) as [?|[? ?]]; [by left|right]. unfold leaked. by rewrite <- Er, <- Et.
  - intros q x' (x & Hx & [= <- _])%Q. by apply (si_erefs _ _ _ _ I).
  - intros q x' (x & Hx & [= _ El])%Q Hl. rewrite <- El in Hl. by apply (si_elocks _ _ _ _ I q x).
  - intros fd [q|q] Hf; pose proof (si_live _ _ _ _ I fd _ Hf) as Hl; simpl in *;
      [by apply (fmap_live plain _ _ _ F2)|by apply (fmap_live elock _ _ _ F3)].
  - intros m e' x' Hm (x & Hx & Ex)%P. rewrite <- (C _ _ Ex).
    destruct (fmap_lookup_inv es_s _ _ _ _ F4 Hm) as (e0 & He0 & Es). simpl in He0. rewrite <- Es in Hx.
    destruct (decide (n = m)) as [->|].
    + rewrite lookup_insert_eq in He0. injection He0 as <-. congruence.
    + rewrite lookup_insert_ne in He0 by done. by apply (si_entry _ _ _ _ I m e0).
Qed.

(** ** Changing what an epoll waits for *)

(** The memory that [calloc] gives for an entry is not in use, and there are less
    than 2^32 entries. *)
Definition fresh_entry s (mem : option Z) : Prop :=
  match mem with Some n => ss_ess s !! n = None | None => True end /\ Z.of_nat (size (ss_ess s)) + 1 < 4294967296.

Lemma si_epoll_add g H E s p so ep es ev mem r s' :
  sock_inv g H E s -> ss_socks s !! p = Some so -> closed so = false -> fresh_entry s mem ->
  epoll_add s p ep es ev mem = Ok (r, s') -> sock_inv g H E s'.
Proof.
  intros I Hp Hc [Hm Hsize] R.
  destruct (ss_eps s !! ep) as [e0|] eqn:He0; [|unfold epoll_add, upd_epoll, epoll_at in R; by rewrite He0 in R].
  destruct es as [es|]; [|destruct mem as [n|]].
  1,3: unfold epoll_add, fail in R; rewrite (upd_epoll_ok _ _ _ _ He0) in R; injection R as <- <-;
    apply (si_rest g H E (put_epoll s ep (set_num_tas (u32 (num_tas e0 + 1)) e0))); try done;
    eapply si_put_epoll; [done|exact He0|done|done|]; destruct (e_lock e0) eqn:El; [left; by apply (si_elocks _ _ _ _ I ep e0)|by right].
  destruct (si_epoll _ _ _ _ I) as (a & b & K).
  destruct (epoll_add_ok s a b p so ep e0 ev n K Hp He0 Hm Hsize) as (s2 & a2 & E1 & K2 & _).
  assert (s2 = s') as -> by congruence. clear E1. unfold epoll_add in R. run_inv R. subst.
  match goal with A : sock_at ?x p = Ok ?y |- _ => assert (y = so) as -> by
    (unfold upd_epoll in *; match goal with B : (epoll_at _ _ ≫= _) = Ok x |- _ => run_inv B; subst end; apply sock_at_inv in A; simpl in A; congruence) end.
  eapply (si_new_entry g H E s s' n (mk_es ep p None None None (so_eps so) (ev_data ev) (Z.lor (ev_events ev) EPOLLERR) false) so);
    [done| |by eexists _, _|done|done].
  match goal with A : activate_if_ready _ _ _ = Ok _ |- _ => apply framed_if_ready in A; eapply eframed_trans; [|exact A] end.
  match goal with A : es_add_inactive _ _ = Ok _ |- _ => apply framed_add_inactive in A; eapply eframed_trans; [|exact A] end.
  repeat frame1.
  all: match goal with A : upd_epoll _ _ _ = Ok ?x |- framed _ (put_es ?x _ _) => unfold upd_epoll in A; run_inv A; subst end;
    split; try done; simpl; eapply fmap_same; [by apply epoll_at_inv|done].
Qed.

Lemma find_es_of k l2 ep n : forall fuel s b l1,
  on_socks (ss_ess s) (ss_socks s) b None -> b k = l1 ++ l2 -> find_es fuel s (head l2) ep = Ok (Some n) ->
  exists e, ss_ess s !! n = Some e /\ es_s e = k.
Proof.
  induction l2 as [|p l2 IH]; intros fuel s b l1 O El R; [by destruct fuel|].
  destruct fuel as [|fuel]; [done|]. destruct (os_dll _ _ _ _ O k l1 p l2 El) as (e & He & _ & Hn).
  cbn [find_es head] in R. rewrite (es_at_ok _ _ _ He) in R. cbn [mbind outcome_bind] in R.
  destruct (es_ep e =? ep).
  - injection R as <-. apply (es_of _ _ _ _ _ O). rewrite El. set_solver.
  - rewrite Hn in R. apply (IH fuel s b (l1 ++ [p]) O); [by rewrite <- app_assoc|done].
Qed.

Lemma si_find_es g H E s p so ep n fuel :
  sock_inv g H E s -> ss_socks s !! p = Some so -> find_es fuel s (so_eps so) ep = Ok (Some n) ->
  exists e, ss_ess s !! n = Some e /\ es_s e = p.
Proof.
  intros I Hp R. destruct (si_epoll _ _ _ _ I) as (a & b & K).
  rewrite (os_head _ _ _ _ (eo_socks _ _ _ K) p so Hp) in R. by apply (find_es_of p (b p) ep n fuel s b [] (eo_socks _ _ _ K)).
Qed.

Lemma si_epoll_mod g H E s p es ev r s' :
  sock_inv g H E s -> (forall n, es = Some n -> exists e, ss_ess s !! n = Some e /\ es_s e = p) ->
  epoll_mod s p es ev = Ok (r, s') -> sock_inv g H E s'.
Proof.
  intros I Hes R. destruct es as [n|]; [|unfold epoll_mod, fail in R; run_inv R; subst; keep].
  destruct (Hes n eq_refl) as (e & He & Es).
  destruct (si_epoll _ _ _ _ I) as (a & b & K).
  destruct (os_live _ _ _ _ (eo_socks _ _ _ K) n e He) as [so Hp]. rewrite Es in Hp.
  destruct (epoll_mod_ok s a b p so n e ev K Hp He Es) as (s2 & a2 & E1 & K2).
  assert (s2 = s') as -> by congruence. clear E1. apply (si_framed g H E s s' I); [|by eexists _, _].
  unfold epoll_mod in R. run_inv R. subst.
  match goal with A : activate_if_ready _ _ _ = Ok _ |- _ => apply framed_if_ready in A; eapply eframed_trans; [|exact A] end.
  repeat frame1.
Qed.

Lemma si_num_tas g H E s ep f s' :
  sock_inv g H E s -> (forall e, heads (f e) = heads e /\ e_refcnt (f e) = e_refcnt e /\ e_lock (f e) = e_lock e) ->
  upd_epoll s ep f = Ok s' -> sock_inv g H E s'.
Proof.
  intros I Hf R. unfold upd_epoll in R. run_inv R. subst.
  match goal with A : epoll_at s ep = Ok ?e |- _ => apply epoll_at_inv in A; destruct (Hf e) as (? & ? & Hl);
    eapply si_put_epoll; [done|exact A|done|done|]; destruct (e_lock e) eqn:El; [left; by apply (si_elocks _ _ _ _ I ep e)|right; congruence] end.
Qed.

Lemma si_remove_es g H E s n s' : sock_inv g H E s -> remove_es s n = Ok s' -> sock_inv g H E s'.
Proof.
  intros I R. destruct (ss_ess s !! n) as [e|] eqn:He; [|unfold remove_es, es_remove_sock, es_at in R; by rewrite He in R].
  destruct (si_epoll _ _ _ _ I) as (a & b & K). destruct (remove_es_ok s a b n e K He) as (s2 & E1 & K2 & F & _).
  assert (s2 = s') as -> by congruence. eapply si_fewer; [done|done|by eexists _, _].
Qed.

Lemma si_epoll_del g H E s ep es r s' :
  sock_inv g H E s -> epoll_del s ep es = Ok (r, s') -> sock_inv g H E s'.
Proof.
  intros I R. unfold epoll_del, fail in R. run_inv R; subst; [eapply si_remove_es; [|eassumption]|keep];
    (eapply si_num_tas; [done| |eassumption]; done).
Qed.

Lemma si_epoll_op g H E s p so ep op es ev mem r s' :
  sock_inv g H E s -> ss_socks s !! p = Some so -> closed so = false -> fresh_entry s mem ->
  (forall n, es = Some n -> exists e, ss_ess s !! n = Some e /\ es_s e = p) ->
  epoll_op s p ep op es ev mem = Ok (r, s') -> sock_inv g H E s'.
Proof.
  intros I Hp Hc Hm Hes R. unfold epoll_op, fail in R. run_inv R; subst; keep.
  - by eapply si_epoll_add.
  - by eapply si_epoll_mod.
  - by eapply si_epoll_del.
  - by eapply si_epoll_del.
Qed.

(** ** The entries that are ready *)

Lemma si_scan g H E ep maxevents i : forall s evs evs' s', sock_inv g H E s ->
  ep_scan i s ep maxevents evs = Ok (evs', s') -> sock_inv g H E s'.
Proof.
  induction i as [|i IH]; intros s evs evs' s' I R; [by injection R as <- <-|].
  destruct (si_epoll _ _ _ _ I) as (a & b & K).
  destruct (decide (Z.of_nat (length evs) < maxevents)) as [Hlt|Hge].
  2:{ cbn [ep_scan] in R. rewrite (proj2 (Z.ltb_ge _ _)) in R by lia. by injection R as <- <-. }
  pose proof R as R0. cbn [ep_scan] in R0. rewrite (proj2 (Z.ltb_lt _ _)) in R0 by lia. cbn [negb] in R0.
  apply bind_Ok_inv in R0 as (e0 & He0%epoll_at_inv & R0).
  pose proof (ol_ep _ _ _ _ (lw_on _ _ _ (eo_lists _ _ _ K)) _ _ true He0) as Hw.
  assert (Hh : e_active_first e0 = head (a ep true)) by by rewrite <- Hw.
  destruct (a ep true) as [|n rest] eqn:El; rewrite Hh in R0; [by injection R0 as <- <-|]. simpl in R0.
  destruct (scan_turn s a b ep n rest maxevents evs i K ltac:(by eexists) El) as (s1 & a1 & E1 & K1 & O1 & _); [|done|].
  - apply bind_Ok_inv in R0 as (e & He%es_at_inv & R0). apply bind_Ok_inv in R0 as (s1 & Hl & _).
    intros q e' so Hq He' Hso. apply list_elem_of_singleton in Hq as ->. assert (e' = e) as -> by congruence.
    unfold socket_lock in Hl. rewrite (sock_at_ok _ _ _ Hso) in Hl. simpl in Hl. by destruct (so_lock so).
  - rewrite E1 in R. eapply IH; [|exact R]. eapply si_only_lists; [done|done|by eexists _, _].
Qed.

End Framed.

(** ** The calls *)
Section EpollCalls.
Context {L : Type} `{RL : RdmaLink L}.
Context (remote : option rdma_env) (flexnic_mem poll_cycle_tas poll_cycle_app ctx : Z).
Abbreviation state := (sock_state L).
Implicit Types (s : state) (p fd ep : Z) (H E : list Z).

Lemma elookup_ess s fd o s' : flextcp_fd_elookup s fd = Ok (o, s') -> ss_ess s' = ss_ess s /\ ss_fhs s' = ss_fhs s.
Proof.
  unfold flextcp_fd_elookup, fh_at, epoll_lock. intros R. run_inv R; subst; try done.
  match goal with A : (epoll_at _ _ ≫= _) = Ok _ |- _ => run_inv A; by subst end.
Qed.
Lemma slookup_ess s fd o s' : flextcp_fd_slookup s fd = Ok (o, s') -> ss_ess s' = ss_ess s /\ ss_fhs s' = ss_fhs s.
Proof.
  unfold flextcp_fd_slookup, fh_at, socket_lock. intros R. run_inv R; subst; try done.
  match goal with A : (sock_at _ _ ≫= _) = Ok _ |- _ => run_inv A; by subst end.
Qed.

Lemma si_ctl_linux g H E s ep op ret r s' : sock_inv g H (ep :: E) s -> epoll_ctl_linux s ep op ret = Ok (r, s') -> sock_inv g H (ep :: E) s'.
Proof.
  intros I R. unfold epoll_ctl_linux in R. run_inv R; subst; try done.
  match goal with B : (if _ then _ else _) = Ok _ |- _ => run_inv B; subst; try done end;
    (eapply si_put_epoll; [done|by apply epoll_at_inv|done|done|left; left]).
Qed.

Lemma si_epoll_ctl s epfd op fd ev ret mem r ev' s' : sock_inv id [] [] s -> fresh_entry s mem ->
  tas_epoll_ctl remote flexnic_mem poll_cycle_tas poll_cycle_app ctx s epfd op fd ev ret mem = Ok (r, ev', s') -> sock_inv id [] [] s'.
Proof.
  intros I Hm R. unfold tas_epoll_ctl in R. run_inv R; subst;
    match goal with A : flextcp_fd_elookup s _ = Ok _ |- _ => pose proof (elookup_ess _ _ _ _ A) as [X1 X2] end;
    try match goal with A : flextcp_fd_slookup _ _ = Ok _ |- _ => pose proof (slookup_ess _ _ _ _ A) as [Y1 Y2] end; looked; keep.
  - eapply si_move_conn; [|eassumption]. keep.
    match goal with J : sock_inv id [?p] [_] ?x, A : sock_at ?x ?p = Ok ?so, B : find_es _ ?x _ ?ep = Ok _, C : epoll_op ?x ?p ?ep _ _ _ _ = Ok _,
      F : ss_fhs _ !! fd = Some _ /\ _ |- _ =>
      destruct F as [F G]; apply sock_at_inv in A as Hso; eapply (si_epoll_op id [p] [ep] x p so ep); [done|done| | | |exact C] end.
    + eapply open_of_fd; [eassumption| |done]. unfold id. match goal with G : ss_fhs ?x = _ |- ss_fhs ?x !! _ = _ => by rewrite G end.
    + unfold fresh_entry in *. by rewrite Y1, X1.
    + intros n ->. by eapply si_find_es.
  - by eapply si_ctl_linux.
Qed.

(** ** A new epoll *)

Definition fresh_epoll s (mem : option Z) : Prop := match mem with Some p => ss_eps s !! p = None | None => True end.

Lemma si_enew H E s p fd (e : epoll) :
  sock_inv id H E s -> ss_eps s !! p = None -> ss_fhs s !! fd = None -> e_refcnt e = 1 -> heads e = (None, None, None, 0) ->
  sock_inv id H (p :: E) (set_fhs (put_epoll s p e) (<[fd := FH_EPOLL p]> (ss_fhs s))).
Proof.
  intros I Hp Hfd Hr Hh. set (s' := set_fhs _ _).
  assert (P : forall q x, ss_eps s' !! q = Some x -> q = p /\ x = e \/ p <> q /\ ss_eps s !! q = Some x).
  { intros q x. simpl. destruct (decide (p = q)) as [->|]; [rewrite lookup_insert_eq|rewrite lookup_insert_ne by done]; naive_solver. }
  assert (Hno : forall fd h, ss_fhs s !! fd = Some h -> h <> FH_EPOLL p).
  { intros fd' h Hf ->. pose proof (si_live _ _ _ _ I fd' _ Hf) as [x Hx]. congruence. }
  constructor.
  - destruct (si_epoll _ _ _ _ I) as (a & b & [[W Hs] O R]). exists a, b. constructor; [|done|done]. split; [|done].
    constructor; try apply W.
    + intros q x c [[-> ->]|[_ Hq]]%P; [|by apply (ol_ep _ _ _ _ W)].
      assert (a p c = []) as ->.
      { destruct (a p c) as [|n l] eqn:Ea; [done|]. exfalso. assert (Hn : n ∈ a p c) by (rewrite Ea; left).
        destruct (es_on _ _ _ _ _ W Hn) as (x & Hx & Ex & _). destruct (ol_live _ _ _ _ W n x Hx) as [y Hy]. congruence. }
      unfold heads in Hh. destruct e. simpl in Hh. injection Hh as -> -> -> ->. by destruct c.
    + intros n x Hn. simpl. destruct (decide (p = es_ep x)) as [->|]; [rewrite lookup_insert_eq; by eexists|].
      rewrite lookup_insert_ne by done. by apply (ol_live _ _ _ _ W n).
  - intros q x Hq. simpl. rewrite refs_insert, decide_False, Z.add_0_r by done. by apply (si_refs _ _ _ _ I).
  - apply I.
  - apply I.
  - intros q x Hq. simpl. rewrite refs_insert by done. apply P in Hq as [[-> ->]|[Hne Hq]].
    + rewrite decide_True, refs_none by (try done; intros fd' Hf; by apply Hno in Hf). lia.
    + rewrite decide_False by congruence. rewrite Z.add_0_r. by apply (si_erefs _ _ _ _ I).
  - intros q x [[-> ->]|[Hne Hq]]%P Hx; [left|right; by apply (si_elocks _ _ _ _ I q x)].
  - intros fd' h Hf. simpl in Hf. destruct (decide (fd = fd')) as [->|].
    + rewrite lookup_insert_eq in Hf. injection Hf as <-. simpl. rewrite lookup_insert_eq. by eexists.
    + rewrite lookup_insert_ne in Hf by done. pose proof (si_live _ _ _ _ I fd' h Hf) as Hl. destruct h as [q|q]; [done|]. simpl in *.
      destruct (decide (p = q)) as [->|]; [rewrite lookup_insert_eq; by eexists|by rewrite lookup_insert_ne].
  - apply I.
Qed.

Lemma si_epoll_create1 s fd mem r s' : sock_inv id [] [] s -> fresh_epoll s mem ->
  tas_epoll_create1 s fd mem = Ok (r, s') -> sock_inv id [] [] s'.
Proof.
  intros I Hm R. unfold tas_epoll_create1, flextcp_fd_ealloc, fail in R. run_inv R; subst; try done;
    repeat match goal with A : _ = Ok (_, _) |- _ => run_inv A; subst end; simplify_eq; try keep;
    match goal with A : fh_at s _ = Ok ?h, B : c_assert match ?h with _ => _ end = Ok _ |- _ =>
      destruct h; [done|]; unfold fh_at in A; run_inv A end; [congruence|].
  match goal with A : upd_epoll ?x ?p ?f = Ok ?y, F : ss_fhs s !! ?fd = None |- sock_inv id [] [?p] ?y =>
    assert (J : sock_inv id [] [p] x) by (by apply si_enew);
    unfold upd_epoll in A; run_inv A; subst; eapply si_put_epoll; [exact J|apply lookup_insert_eq| | |left; left] end;
    match goal with A : epoll_at _ _ = Ok ?e |- _ => apply epoll_at_inv in A; simpl in A; rewrite lookup_insert_eq in A; injection A as <- end; done.
Qed.

Lemma si_epoll_create s size fd mem r s' : sock_inv id [] [] s -> fresh_epoll s mem ->
  tas_epoll_create s size fd mem = Ok (r, s') -> sock_inv id [] [] s'.
Proof.
  intros I Hm R. unfold tas_epoll_create, fail in R. run_inv R; subst; [keep|by eapply si_epoll_create1].
Qed.

(** ** Waiting *)

Lemma si_poll_tas g H E s ep maxevents evs s' : sock_inv g H (ep :: E) s ->
  ep_poll_tas remote flexnic_mem poll_cycle_tas s ep maxevents = Ok (evs, s') -> sock_inv g H (ep :: E) s'.
Proof.
  intros I R. unfold ep_poll_tas, flextcp_sockctx_poll_n in R. run_inv R. eapply si_scan; [|eassumption].
  keep1. eapply si_poll_n; [|eassumption]. keep.
Qed.

Lemma si_epoll_try g H E s ep maxevents w n evs s' : sock_inv g H (ep :: E) s ->
  epoll_try remote flexnic_mem poll_cycle_tas s ep maxevents w = Ok (n, evs, s') -> sock_inv g H (ep :: E) s'.
Proof.
  intros I R. unfold epoll_try in R. run_inv R; subst; [eapply si_poll_tas; eassumption| |];
    (eapply si_upd_epoll; [|left| |eassumption]; [|done]).
  - match goal with A : _ = Ok (n, evs, ?x) |- sock_inv _ _ _ ?x => run_inv A; subst end; [eapply si_poll_tas; [|eassumption]|]; keep.
  - match goal with A : _ = Ok (n, evs, ?x) |- sock_inv _ _ _ ?x => run_inv A; subst end; keep;
      [|eapply si_poll_tas; eassumption].
    match goal with A : (if _ then _ else _) = (n, evs, _) |- _ => destruct (ee_linux w >=? 0); injection A as <- <- <- end;
      keep; (eapply si_poll_tas; eassumption).
Qed.

Lemma si_may_sleep g H E s t mt c : sock_inv g H E s -> sock_inv g H E (snd (may_sleep poll_cycle_app s t mt c)).
Proof.
  intros I. unfold may_sleep. destruct (_ || _); [|done]. destruct (flextcp_context_canwait _ _ _) as [r x]. simpl. keep.
Qed.

Lemma si_epoll_wait_loop g H E ep maxevents t mt ws : forall s n evs s', sock_inv g H (ep :: E) s ->
  epoll_wait_loop remote flexnic_mem poll_cycle_tas poll_cycle_app s ep maxevents t mt ws = Ok (n, evs, s') -> sock_inv g H E s'.
Proof.
  induction ws as [|w ws IH]; intros s n evs s' I R; [done|]. cbn [epoll_wait_loop] in R.
  apply bind_Ok_inv in R as ([[n1 evs1] s1] & Ht & R). cbn beta iota in R.
  apply (si_epoll_try _ _ _ _ _ _ _ _ _ _ I) in Ht as I1.
  set (empty := (n1 =? 0) && negb (t =? 0)) in R. cbv zeta in R.
  assert (I2 : sock_inv g H (ep :: E) (snd (if empty then may_sleep poll_cycle_app s1 t mt (ee_ms w) else (false, s1))))
    by (destruct empty; [by apply si_may_sleep|done]).
  destruct (if empty then _ else _) as [sl s2]. simpl in I2. run_inv R; subst.
  - keep.
  - eapply IH; [|eassumption]. keep.
  - by eapply IH.
  - keep.
Qed.

Lemma si_epoll_wait s epfd maxevents t ms lw ws n evs s' : sock_inv id [] [] s ->
  tas_epoll_wait remote flexnic_mem poll_cycle_tas poll_cycle_app s epfd maxevents t ms lw ws = Ok (n, evs, s') -> sock_inv id [] [] s'.
Proof.
  intros I R. unfold tas_epoll_wait in R. run_inv R; subst; looked; keep. by eapply si_epoll_wait_loop.
Qed.
End EpollCalls.
