(* ===== verification/SockCalls.v ===== *)
(** * The invariant of the socket library: all calls

    Duplicates of descriptors keep the invariant of SockInv; with the calls of
    SockInv and SockEpollCalls it holds after any sequence of calls of the
    application, whatever happens outside in the meantime. *)
From S2P Require Import Prelude RdmaQueue Packets LibTas LibPoll SockState SockReady SockCtx SockCtl.
From S2P Require Import SockOpen SockPoll SockXfer SockSelect SockReadySpec SockEpollInv SockScan LibSpec SockInv SockEpollCalls.

#[local] Open Scope Z_scope.

Section Dup.
Context {L : Type} `{RL : RdmaLink L}.
Context (remote : option rdma_env) (flexnic_mem tcp_rxbuf_len tcp_txbuf_len poll_cycle_tas poll_cycle_app ctx : Z).
Abbreviation state := (sock_state L).
Implicit Types (s : state) (p fd : Z) (H E : list Z).

(** Closing an object leaves the other descriptors. *)
Lemma sock_close_fhs g H E s p r s' : sock_inv g H E s -> tas_sock_close poll_cycle_tas s p = Ok (r, s') -> ss_fhs s' = ss_fhs s.
Proof.
  intros I R. unfold tas_sock_close in R. run_inv R; subst. destruct (si_epoll _ _ _ _ I) as (a & b & K).
  match goal with A : sock_at s p = Ok ?so, B : flextcp_epoll_sockclose s p = Ok ?x |- _ =>
    destruct (epoll_sockclose_ok s a b p so K (sock_at_inv _ _ _ A)) as (s1 & a1 & b1 & X1 & _ & F1 & _);
    assert (x = s1) as -> by congruence end.
  transitivity (ss_fhs s1); [|by rewrite (fw_rest _ _ F1)].
  match goal with A : (if _ then _ else _) = Ok _ |- _ => run_inv A; subst; try done end.
  unfold conn_close, upd_conn, socket_unlock, flextcp_sockclose_finish in *.
  repeat match goal with A : _ = Ok _ |- _ => progress run_inv A; subst end; done.
Qed.

Lemma destroy_fhs g H E s p s' : sock_inv g H E s -> flextcp_epoll_destroy s p = Ok s' -> ss_fhs s' = ss_fhs s.
Proof.
  intros I R. pose proof R as R0. unfold flextcp_epoll_destroy in R0. run_inv R0. destruct (si_epoll _ _ _ _ I) as (a & b & K).
  match goal with A : epoll_at s p = Ok ?x, B : c_assert _ = Ok _ |- _ => apply c_assert_Ok in B; apply Z.eqb_eq in B;
    destruct (epoll_destroy_ok s a b p x K (epoll_at_inv _ _ _ A) B) as (s2 & s1 & a1 & b1 & X1 & _ & F1 & ->) end.
  assert (s' = free_epoll s1 p) as -> by congruence. simpl. by rewrite (fw_rest _ _ F1).
Qed.

(** The descriptor that is to be reused is closed first. *)
Lemma si_dup_close H E s fd o s' : sock_inv id H E s -> dup_close poll_cycle_tas s fd = Ok (o, s') ->
  sock_inv id H E s' /\ ss_fhs s' = delete fd (ss_fhs s).
Proof.
  intros I R. unfold dup_close in R. run_inv R; subst.
  - assert (Hfd : ss_fhs s !! fd = Some (FH_SOCKET s0)).
    { match goal with A : fh_at _ _ = Ok _ |- _ => unfold fh_at in A; run_inv A end. done. }
    match goal with A : socket_lock s ?p = Ok ?x |- _ => pose proof (si_lock _ _ _ _ _ _ I A) as I1;
      assert (Ef : ss_fhs x = ss_fhs s) by (unfold socket_lock in A; run_inv A; by subst) end.
    match goal with A : upd_sock ?x ?p _ = Ok ?y, B : (if _ then _ else _) = Ok ?z |- _ =>
      assert (I2 : sock_inv (delete fd) (p :: H) E y);
      [unfold upd_sock in A; run_inv A; subst;
       match goal with C : sock_at x p = Ok ?so |- _ => apply sock_at_inv in C;
         apply (si_count id (delete fd) (p :: H) E x p so (-1)); [done|done|left| | |] end|] end.
    + eapply (open_of_fd id); [done| |done]. unfold id. by rewrite Ef.
    + intros h. unfold id. rewrite Ef, (refs_delete _ _ _ _ Hfd). destruct (decide _); lia.
    + by apply (live_delete id _ _ _ _ I1).
    + match goal with A : upd_sock ?x _ _ = Ok ?y, B : (if _ then _ else _) = Ok ?z |- _ =>
        assert (I3 : sock_inv (delete fd) H E z) by (run_inv B; [subst; by eapply si_sock_close|keep]);
        assert (ss_fhs z = ss_fhs y) as Ez by (run_inv B; [subst; by eapply sock_close_fhs|unfold socket_unlock in B; run_inv B; by subst]);
        assert (ss_fhs y = ss_fhs x) as Ey by (unfold upd_sock in A; run_inv A; by subst) end.
      split; [by eapply si_set_fhs|]. simpl. by rewrite Ez, Ey, Ef.
  - assert (Hfd : ss_fhs s !! fd = Some (FH_EPOLL e)).
    { match goal with A : fh_at _ _ = Ok _ |- _ => unfold fh_at in A; run_inv A end. done. }
    match goal with A : epoll_lock s ?p = Ok ?x |- _ => pose proof (si_elock _ _ _ _ _ _ I A) as I1;
      assert (Ef : ss_fhs x = ss_fhs s) by (unfold epoll_lock in A; run_inv A; by subst) end.
    match goal with A : upd_epoll ?x ?p _ = Ok ?y, B : (if _ then _ else _) = Ok ?z |- _ =>
      assert (I2 : sock_inv (delete fd) H (p :: E) y);
      [unfold upd_epoll in A; run_inv A; subst;
       match goal with C : epoll_at x p = Ok ?k |- _ => apply epoll_at_inv in C;
         apply (si_ecount id (delete fd) H (p :: E) x p k (-1)); [done|done| |] end|] end.
    + intros h. unfold id. rewrite Ef, (refs_delete _ _ _ _ Hfd). destruct (decide _); lia.
    + by apply (live_delete id _ _ _ _ I1).
    + match goal with A : upd_epoll ?x _ _ = Ok ?y, B : (if _ then _ else _) = Ok ?z |- _ =>
        assert (I3 : sock_inv (delete fd) H E z) by (run_inv B; [by eapply si_destroy|keep]);
        assert (ss_fhs z = ss_fhs y) as Ez by (run_inv B; [by eapply destroy_fhs|unfold epoll_unlock in B; run_inv B; by subst]);
        assert (ss_fhs y = ss_fhs x) as Ey by (unfold upd_epoll in A; run_inv A; by subst) end.
      split; [by eapply si_set_fhs|]. simpl. by rewrite Ez, Ey, Ef.
  - split; [done|]. match goal with A : fh_at _ _ = Ok _ |- _ => unfold fh_at in A; run_inv A end. by rewrite delete_id.
Qed.

(** The count of a socket follows a new descriptor. *)
Lemma si_dup_socket H E s p fd s' :
  sock_inv id (p :: H) E s -> ss_fhs s !! fd = None ->
  (exists fd0, ss_fhs s !! fd0 = Some (FH_SOCKET p)) ->
  upd_sock (set_fhs s (<[fd := FH_SOCKET p]> (ss_fhs s))) p (fun k => with_so_refcnt k (so_refcnt k + 1)) = Ok s' ->
  sock_inv id (p :: H) E s'.
Proof.
  intros I Hfd [fd0 Hfd0] R. unfold upd_sock in R. run_inv R. subst.
  match goal with A : sock_at _ p = Ok ?so |- _ => apply sock_at_inv in A as Hp; clear A end. simpl in Hp.
  assert (I1 : sock_inv (delete fd) (p :: H) E (set_fhs s (<[fd := FH_SOCKET p]> (ss_fhs s)))).
  { eapply si_set_fhs; [exact I|]. rewrite delete_insert_eq. by rewrite delete_id. }
  apply (si_count (delete fd) id); [done|done|left| | |].
  - eapply (open_of_fd id); done.
  - intros h. simpl. rewrite delete_insert_eq, delete_id by done. unfold id. rewrite refs_insert by done. by destruct (decide _).
  - intros fd' h Hf. unfold id in Hf. simpl in Hf. destruct (decide (fd = fd')) as [->|].
    + rewrite lookup_insert_eq in Hf. injection Hf as <-. by eexists.
    + rewrite lookup_insert_ne in Hf by done. by apply (si_live _ _ _ _ I fd').
Qed.

(** Duplicates of anything but an epoll; the code keeps the lock of an epoll
    that is duplicated. *)
Definition epoll_duplicated s (oldfd newfd e : Z) : Prop :=
  newfd <> oldfd /\ oldfd < MAXSOCK /\ ss_fhs s !! oldfd = Some (FH_EPOLL e).

Lemma elookup_epoll s fd p s' : flextcp_fd_elookup s fd = Ok (Some p, s') ->
  fd < MAXSOCK /\ ss_fhs s !! fd = Some (FH_EPOLL p) /\ exists k, ss_eps s' !! p = Some k /\ e_lock k = true.
Proof.
  unfold flextcp_fd_elookup, fh_at. destruct (Z.geb_spec fd MAXSOCK) as [|Hlt]; [done|]. intros R. run_inv R; subst; try done.
  match goal with A : (if _ then _ else _) = Ok _ |- _ => run_inv A end.
  match goal with A : epoll_lock _ _ = Ok _ |- _ => unfold epoll_lock in A; run_inv A end. subst.
  split_and!; [done|done|]. eexists. split; [apply lookup_insert_eq|done].
Qed.

Lemma epoll_not_missed s fd e s' : ss_fhs s !! fd = Some (FH_EPOLL e) -> fd < MAXSOCK ->
  flextcp_fd_elookup s fd <> Ok (None, s').
Proof.
  intros Hf Hlt R. unfold flextcp_fd_elookup, fh_at in R. rewrite Z.geb_leb, (proj2 (Z.leb_gt _ _) Hlt), Hf in R.
  destruct (fd <? 0); simpl in R; [done|].
  unfold epoll_lock, epoll_at in R. destruct (ss_eps s !! e) as [k|]; simpl in R; [|done]. by destruct (e_lock k).
Qed.

Lemma si_internal_dup3 s oldfd newfd r s' : sock_inv id [] [] s -> (forall e, ~ epoll_duplicated s oldfd newfd e) ->
  internal_dup3 poll_cycle_tas s oldfd newfd = Ok (r, s') -> sock_inv id [] [] s'.
Proof.
  intros I Ho R. unfold internal_dup3 in R. run_inv R; subst;
    match goal with A : dup_close _ s _ = Ok _ |- _ => destruct (si_dup_close _ _ _ _ _ _ I A) as [I0 F0] end;
    match goal with A : flextcp_fd_slookup _ oldfd = Ok _ |- _ => pose proof (slookup_ess _ _ _ _ A) as [_ F1] end;
    try match goal with A : flextcp_fd_elookup _ oldfd = Ok (Some ?e, _) |- _ => exfalso; apply (Ho e);
      destruct (elookup_epoll _ _ _ _ A) as (Hlt & G & _); rewrite F1, F0 in G; apply lookup_delete_Some in G as [? ?]; by split_and! end;
    looked; keep.
  match goal with A : _ /\ ss_fhs ?x = _ |- sock_inv _ [?p] _ _ => destruct A as [G1 G2] end.
  eapply si_dup_socket; [eassumption| | |eassumption].
  - rewrite G2, F0. apply lookup_delete_eq.
  - exists oldfd. by rewrite G2.
Qed.

(** ... and this call leaves it locked. *)
Lemma dup_locks s oldfd newfd e r s' : sock_inv id [] [] s -> epoll_duplicated s oldfd newfd e ->
  internal_dup3 poll_cycle_tas s oldfd newfd = Ok (r, s') ->
  exists k, ss_eps s' !! e = Some k /\ e_lock k = true.
Proof.
  intros I (Hne & Hlt & Ho) R. unfold internal_dup3 in R. run_inv R; subst;
    match goal with A : dup_close _ s _ = Ok _ |- _ => destruct (si_dup_close _ _ _ _ _ _ I A) as [I0 F0] end;
    match goal with A : flextcp_fd_slookup ?y oldfd = Ok (?o, ?x) |- _ => pose proof (slookup_ess _ _ _ _ A) as [_ F1];
      assert (Ho1 : ss_fhs x !! oldfd = Some (FH_EPOLL e)) by (rewrite F1, F0; by rewrite lookup_delete_ne) end.
  - exfalso. looked. match goal with A : _ /\ ss_fhs _ = _ |- _ => destruct A as [G ?] end. congruence.
  - match goal with A : flextcp_fd_elookup _ oldfd = Ok _ |- _ => destruct (elookup_epoll _ _ _ _ A) as (_ & G & k & Hk & Hl) end.
    assert (e = z) as -> by congruence.
    destruct o as [q|]; [|done].
    match goal with A : upd_epoll _ z _ = Ok _ |- _ => unfold upd_epoll, epoll_at in A; simpl in A; rewrite Hk in A; run_inv A end. subst.
    match goal with B : flextcp_fd_srelease _ _ = Ok s' |- _ => unfold flextcp_fd_srelease, socket_unlock in B; run_inv B end. subst.
    eexists. split; [apply lookup_insert_eq|done].
  - exfalso. by eapply epoll_not_missed.
Qed.

Lemma si_dup s oldfd newfd r s' : sock_inv id [] [] s -> (forall e, ~ (0 <= newfd /\ epoll_duplicated s oldfd newfd e)) ->
  tas_dup poll_cycle_tas s oldfd newfd = Ok (r, s') -> sock_inv id [] [] s'.
Proof.
  intros I Ho R. unfold tas_dup in R. destruct (Z.ltb_spec newfd 0) as [Hn|Hn]; [by injection R as _ <-|].
  eapply si_internal_dup3; [done| |done]. intros e He. by apply (Ho e).
Qed.
Lemma si_dup2 s oldfd newfd r s' : sock_inv id [] [] s -> (forall e, ~ (0 <= newfd /\ epoll_duplicated s oldfd newfd e)) ->
  tas_dup2 poll_cycle_tas s oldfd newfd = Ok (r, s') -> sock_inv id [] [] s'.
Proof.
  intros I Ho R. unfold tas_dup2 in R. destruct (Z.ltb_spec newfd 0) as [Hn|Hn]; [by injection R as _ <-|].
  destruct (newfd =? oldfd); [by injection R as _ <-|].
  eapply si_internal_dup3; [done| |done]. intros e He. by apply (Ho e).
Qed.
Lemma si_dup3 s oldfd newfd r s' : sock_inv id [] [] s -> (forall e, ~ (0 <= newfd /\ epoll_duplicated s oldfd newfd e)) ->
  tas_dup3 poll_cycle_tas s oldfd newfd = Ok (r, s') -> sock_inv id [] [] s'.
Proof. exact (si_dup s oldfd newfd r s'). Qed.

(** ** Poll and select *)

Ltac looked_at := looked;
  repeat match goal with
  | I : sock_inv ?g (?k :: ?H) ?E ?s, A : flextcp_fd_srelease ?s ?k = Ok ?x |- _ =>
      let X := fresh "Q" in pose proof (si_unlock g H E s k x I A) as X; clear A
  end.

Lemma si_copy_linux H E fds : forall s n r s', sock_inv id H E s -> copy_linux s fds n = Ok (r, s') -> sock_inv id H E s'.
Proof.
  induction fds as [|p fds IH]; intros s n r s' I R; cbn [copy_linux] in R; run_inv R; subst; [done|looked_at; eauto..].
Qed.

Lemma si_copy_back H E c fds : forall s j r s', sock_inv id H E s -> copy_back s c fds j = Ok (r, s') -> sock_inv id H E s'.
Proof.
  induction fds as [|p fds IH]; intros s j r s' I R; cbn [copy_back] in R; run_inv R; subst; [done|looked_at; eauto..].
Qed.

Lemma si_scan_fds H E fds : forall s n ok l m s', sock_inv id H E s -> scan_fds s fds n = Ok (ok, l, m, s') -> sock_inv id H E s'.
Proof.
  induction fds as [|p fds IH]; intros s n ok l m s' I R; cbn [scan_fds] in R; run_inv R; subst; [done|looked_at; try (keep; fail); eauto..].
Qed.

Lemma si_canwait g H E s : sock_inv g H E s -> sock_inv g H E (snd (canwait poll_cycle_app s)).
Proof. intros I. unfold canwait. destruct (flextcp_context_canwait _ _ _) as [r x]. simpl. keep. Qed.

Lemma si_poll_mixed g H E s c n b w r s' : sock_inv g H E s -> poll_mixed poll_cycle_app s c n b w = Ok (r, s') -> sock_inv g H E s'.
Proof.
  intros I R. unfold poll_mixed in R.
  assert (I1 : sock_inv g H E (snd (if b =? 0 then (false, s) else canwait poll_cycle_app s)))
    by (destruct (b =? 0); [done|by apply si_canwait]).
  destruct (if b =? 0 then _ else _) as [block s1]. simpl in I1. run_inv R; subst; keep.
Qed.

Lemma si_prepare H E waitfd s c fds n mem r s' : sock_inv id H E s ->
  pollfd_cache_prepare waitfd s c fds n mem = Ok (r, s') -> sock_inv id H E s'.
Proof. intros I R. unfold pollfd_cache_prepare in R. run_inv R; subst; first [done|by eapply si_copy_linux]. Qed.

Lemma si_poll_linux H E waitfd s c fds n mixed b first w r s' : sock_inv id H E s ->
  poll_linux poll_cycle_app waitfd s c fds n mixed b first w = Ok (r, s') -> sock_inv id H E s'.
Proof.
  intros I R. unfold poll_linux in R. run_inv R; subst; try (by eapply si_ctx_wait); try done;
    (destruct first; [match goal with A : pollfd_cache_prepare _ _ _ _ _ _ = _ |- _ => apply (si_prepare _ _ _ _ _ _ _ _ _ _ I) in A end|
      match goal with A : mret _ = Ok _ |- _ => run_inv A; subst end]); first [done|match goal with A : poll_mixed _ _ _ _ _ _ = Ok _ |- _ => by eapply si_poll_mixed in A end|keep].
Qed.

Lemma si_poll_loop H E waitfd t mt ws : forall s c fds mixed first r s', sock_inv id H E s ->
  poll_loop remote flexnic_mem poll_cycle_tas poll_cycle_app waitfd s c fds t mt mixed first ws = Ok (r, s') -> sock_inv id H E s'.
Proof.
  induction ws as [|w ws IH]; intros s c fds mixed first r s' I R; [done|]. cbn [poll_loop] in R.
  apply bind_Ok_inv in R as ([n1 s1] & Hp & R). cbn beta iota in R. pose proof (si_poll_n remote flexnic_mem poll_cycle_tas _ _ _ _ _ _ _ _ _ I Hp) as I1.
  apply bind_Ok_inv in R as ([[[ok l] m] s2] & Hs & R). cbn beta iota in R. apply (si_scan_fds _ _ _ _ _ _ _ _ _ I1) in Hs.
  run_inv R; subst; try done;
    match goal with A : poll_linux _ _ _ _ _ _ _ _ _ _ = Ok _ |- _ => apply (si_poll_linux _ _ _ _ _ _ _ _ _ _ _ _ _ Hs) in A end.
  - done.
  - eapply IH; [|eassumption]. done.
  - eapply IH; [|eassumption]. done.
  - match goal with A : (if _ then copy_back _ _ _ _ else _) = Ok _ |- _ => run_inv A; subst; [eapply si_copy_back; [|eassumption]; done|done] end.
Qed.

Lemma si_tas_poll H E waitfd s c fds t ms ws r s' : sock_inv id H E s ->
  tas_poll remote flexnic_mem poll_cycle_tas poll_cycle_app waitfd s c fds t ms ws = Ok (r, s') -> sock_inv id H E s'.
Proof. intros I R. by eapply si_poll_loop. Qed.

Lemma si_tas_select H E waitfd s c nfds rd wr ex t mem ms ws r s' : sock_inv id H E s ->
  tas_select remote flexnic_mem poll_cycle_tas poll_cycle_app waitfd s c nfds rd wr ex t mem ms ws = Ok (r, s') -> sock_inv id H E s'.
Proof. intros I R. unfold tas_select in R. run_inv R; subst; [by eapply si_tas_poll..|keep]. Qed.

(** ** Sequences of calls *)

(** A call with its arguments and what it gets from the system: memory, new
    descriptors and the answers of the C library. *)
Inductive sock_call :=
  | CSocket (domain type : Z) (mem : option Z) (efd : Z)
  | CBind (fd : Z) (addr : sockaddr_in) (family len : Z)
  | CConnect (fd : Z) (addr : sockaddr_in) (family len : Z) (m : option tcp_mem)
  | CListen (fd backlog : Z)
  | CAccept4 (fd : Z) (addrlen : option Z) (flags : Z) (m : accept_mem)
  | CShutdown (fd how : Z)
  | CClose (fd : Z)
  | CGetsockname (fd len : Z)
  | CGetpeername (fd len : Z)
  | CMoveConn (fd : Z)
  | CFcntl (fd cmd arg : Z)
  | CGetsockopt (fd level name len : Z)
  | CSetsockopt (fd level name value len : Z)
  | CDup (oldfd newfd : Z)
  | CDup2 (oldfd newfd : Z)
  | CDup3 (oldfd newfd : Z)
  | CRead (fd len : Z)
  | CRecvmsg (fd : Z) (iov : list Z)
  | CWrite (fd : Z) (data : list Z)
  | CSendmsg (fd : Z) (iov : list (list Z))
  | CEpollCreate (size fd : Z) (mem : option Z)
  | CEpollCreate1 (fd : Z) (mem : option Z)
  | CEpollCtl (epfd op fd : Z) (ev : option epoll_event) (linux_ret : Z) (mem : option Z)
  | CEpollWait (epfd maxevents timeout ms : Z) (libc_wait : Z * list epoll_event) (ws : list ep_env)
  | CPoll (waitfd : Z) (c : poll_cache) (fds : list pollfd) (timeout ms : Z) (ws : list poll_env)
  | CSelect (waitfd : Z) (c : poll_cache) (nfds : Z) (rd wr ex : option (gset Z)) (timeout : option (Z * Z)) (mem : bool)
      (ms : Z) (ws : list poll_env).

Definition run_call s (c : sock_call) : outcome state :=
  match c with
  | CSocket domain type mem efd => '(_, s) ← tas_socket s domain type mem efd; mret s
  | CBind fd addr family len => '(_, s) ← tas_bind s fd addr family len; mret s
  | CConnect fd addr family len m =>
      '(_, s) ← tas_connect remote flexnic_mem tcp_rxbuf_len tcp_txbuf_len poll_cycle_tas poll_cycle_app ctx s fd addr family len m;
      mret s
  | CListen fd backlog => '(_, s) ← tas_listen remote flexnic_mem poll_cycle_tas poll_cycle_app s fd backlog; mret s
  | CAccept4 fd n flags m =>
      '(_, _, s) ← tas_accept4 remote flexnic_mem tcp_rxbuf_len tcp_txbuf_len poll_cycle_tas poll_cycle_app ctx s fd n flags m;
      mret s
  | CShutdown fd how => '(_, s) ← tas_shutdown remote flexnic_mem poll_cycle_tas poll_cycle_app ctx s fd how; mret s
  | CClose fd => '(_, s) ← tas_close poll_cycle_tas s fd; mret s
  | CGetsockname fd n => '(_, _, s) ← tas_getsockname remote flexnic_mem poll_cycle_tas poll_cycle_app ctx s fd n; mret s
  | CGetpeername fd n => '(_, _, s) ← tas_getpeername remote flexnic_mem poll_cycle_tas poll_cycle_app ctx s fd n; mret s
  | CMoveConn fd => '(_, s) ← tas_move_conn remote flexnic_mem poll_cycle_tas poll_cycle_app ctx s fd; mret s
  | CFcntl fd cmd arg => '(_, s) ← tas_fcntl remote flexnic_mem poll_cycle_tas poll_cycle_app ctx s fd cmd arg; mret s
  | CGetsockopt fd level name n =>
      '(_, _, s) ← tas_getsockopt remote flexnic_mem poll_cycle_tas poll_cycle_app ctx s fd level name n; mret s
  | CSetsockopt fd level name v n =>
      '(_, s) ← tas_setsockopt remote flexnic_mem poll_cycle_tas poll_cycle_app ctx s fd level name v n; mret s
  | CDup oldfd newfd => '(_, s) ← tas_dup poll_cycle_tas s oldfd newfd; mret s
  | CDup2 oldfd newfd => '(_, s) ← tas_dup2 poll_cycle_tas s oldfd newfd; mret s
  | CDup3 oldfd newfd => '(_, s) ← tas_dup3 poll_cycle_tas s oldfd newfd; mret s
  | CRead fd len => '(_, _, s) ← tas_read remote flexnic_mem poll_cycle_tas poll_cycle_app ctx s fd len; mret s
  | CRecvmsg fd iov => '(_, _, s) ← tas_recvmsg remote flexnic_mem poll_cycle_tas poll_cycle_app ctx s fd iov; mret s
  | CWrite fd data => '(_, s) ← tas_write remote flexnic_mem poll_cycle_tas poll_cycle_app ctx s fd data; mret s
  | CSendmsg fd iov => '(_, s) ← tas_sendmsg remote flexnic_mem poll_cycle_tas poll_cycle_app ctx s fd iov; mret s
  | CEpollCreate size fd mem => '(_, s) ← tas_epoll_create s size fd mem; mret s
  | CEpollCreate1 fd mem => '(_, s) ← tas_epoll_create1 s fd mem; mret s
  | CEpollCtl epfd op fd ev ret mem =>
      '(_, _, s) ← tas_epoll_ctl remote flexnic_mem poll_cycle_tas poll_cycle_app ctx s epfd op fd ev ret mem; mret s
  | CEpollWait epfd n timeout ms lw ws =>
      '(_, _, s) ← tas_epoll_wait remote flexnic_mem poll_cycle_tas poll_cycle_app s epfd n timeout ms lw ws; mret s
  | CPoll waitfd c fds t ms ws =>
      '(_, s) ← tas_poll remote flexnic_mem poll_cycle_tas poll_cycle_app waitfd s c fds t ms ws; mret s
  | CSelect waitfd c nfds rd wr ex t mem ms ws =>
      '(_, s) ← tas_select remote flexnic_mem poll_cycle_tas poll_cycle_app waitfd s c nfds rd wr ex t mem ms ws; mret s
  end.

(** Memory and descriptors from the system are not in use. *)
Definition fresh_call s (c : sock_call) : Prop :=
  match c with
  | CSocket _ _ mem efd => fresh_sock s mem efd
  | CAccept4 _ _ _ m => fresh_sock s (am_socket m) (am_efd m)
  | CEpollCreate _ _ mem | CEpollCreate1 _ mem => fresh_epoll s mem
  | CEpollCtl _ _ _ _ _ mem => fresh_entry s mem
  | _ => True
  end.

(** The call duplicates the epoll [e]. *)
Definition dups_epoll s (c : sock_call) (e : Z) : Prop :=
  match c with
  | CDup oldfd newfd | CDup2 oldfd newfd | CDup3 oldfd newfd => 0 <= newfd /\ epoll_duplicated s oldfd newfd e
  | _ => False
  end.

(** A call that returns, or time that passes with anything done by others; the
    calls are those that satisfy [ok]. *)
Inductive steps_of (ok : state -> sock_call -> Prop) : state -> state -> Prop :=
  | step_call s c s' : fresh_call s c -> ok s c -> run_call s c = Ok s' -> steps_of ok s s'
  | step_outside s (l : lib_state L) (now : Z) (rs : list (round L)) :
      steps_of ok s (set_rounds (set_now (set_lib s l) now) rs).

(** Steps with any call, and with any but a duplicate of an epoll. *)
Definition any_step : state -> state -> Prop := steps_of (fun _ _ => True).
Definition sock_step : state -> state -> Prop := steps_of (fun s c => forall e, ~ dups_epoll s c e).

Definition sock_start (l : lib_state L) : state := mk_ss l ∅ ∅ ∅ ∅ 0 0 [].

Lemma start_inv (l : lib_state L) : sock_inv id [] [] (sock_start l).
Proof.
  constructor; try done. exists (fun _ _ => []), (fun _ => []). constructor; [split|..]; try done; constructor; simpl; try done.
  - intros ep c p. rewrite fmap_empty, lookup_empty. split; [by intros ?%not_elem_of_nil|naive_solver].
  - intros. constructor.
  - intros ep c l1 p l2 Hl. by destruct l1.
  - intros k p. rewrite fmap_empty, lookup_empty. split; [by intros ?%not_elem_of_nil|naive_solver].
  - intros. constructor.
  - intros k l1 p l2 Hl. by destruct l1.
Qed.

Lemma si_call s c s' : sock_inv id [] [] s -> fresh_call s c -> (forall e, ~ dups_epoll s c e) ->
  run_call s c = Ok s' -> sock_inv id [] [] s'.
Proof.
  intros I Hc Hd R. destruct c; cbn [run_call] in R; run_inv R; subst; simpl in Hc, Hd.
  - eapply si_socket; eassumption.
  - eapply si_bind; eassumption.
  - eapply si_connect; eassumption.
  - eapply si_listen; eassumption.
  - eapply si_accept; eassumption.
  - eapply si_shutdown; eassumption.
  - eapply si_close; eassumption.
  - eapply si_getsockname; eassumption.
  - eapply si_getpeername; eassumption.
  - eapply si_move_conn; eassumption.
  - eapply si_fcntl; eassumption.
  - eapply si_getsockopt; eassumption.
  - eapply si_setsockopt; eassumption.
  - eapply si_dup; eassumption.
  - eapply si_dup2; eassumption.
  - eapply si_dup3; eassumption.
  - eapply si_recv_simple; eassumption.
  - eapply si_recvmsg; eassumption.
  - eapply si_transmit; eassumption.
  - eapply si_transmit; eassumption.
  - eapply si_epoll_create; eassumption.
  - eapply si_epoll_create1; eassumption.
  - eapply si_epoll_ctl; eassumption.
  - eapply si_epoll_wait; eassumption.
  - eapply si_tas_poll; eassumption.
  - eapply si_tas_select; eassumption.
Qed.

Lemma dup_call_locks s c e s' : sock_inv id [] [] s -> dups_epoll s c e -> run_call s c = Ok s' ->
  exists k, ss_eps s' !! e = Some k /\ e_lock k = true.
Proof.
  intros I Hd R. destruct c; simpl in Hd; try done; destruct Hd as [Hn He]; cbn [run_call] in R; run_inv R; subst;
    unfold tas_dup, tas_dup2, tas_dup3 in *; rewrite (proj2 (Z.ltb_ge _ _) Hn) in *.
  - by eapply dup_locks.
  - rewrite (proj2 (Z.eqb_neq _ _) (proj1 He)) in *. by eapply dup_locks.
  - by eapply dup_locks.
Qed.

Lemma steps_inv s s' : rtc sock_step s s' -> sock_inv id [] [] s -> sock_inv id [] [] s'.
Proof.
  induction 1 as [s1|s1 s2 s3 St _ IH]; [done|]. intros I. apply IH.
  destruct St as [s1 c s2 Hf Hc R|s1 l1 now rs]; [by eapply si_call|]. eapply si_rest; [..|exact I]; done.
Qed.

Lemma dups_epoll_dec s c : (exists e, dups_epoll s c e) \/ forall e, ~ dups_epoll s c e.
Proof.
  destruct c; simpl; try (right; tauto); unfold epoll_duplicated;
    (destruct (ss_fhs s !! oldfd) as [[p|p]|]; [right; naive_solver| |right; naive_solver]);
    (destruct (decide (0 <= newfd /\ newfd <> oldfd /\ oldfd < MAXSOCK)); [left; exists p|right]; naive_solver).
Qed.

(** Calls of any kind, until the first that duplicates an epoll. *)
Lemma first_dup s s' : rtc any_step s s' ->
  rtc sock_step s s' \/
  exists s1 c e s2, rtc sock_step s s1 /\ dups_epoll s1 c e /\ run_call s1 c = Ok s2 /\ rtc any_step s2 s'.
Proof.
  induction 1 as [s1|s1 s2 s3 St R IH]; [left; apply rtc_refl|].
  assert (sock_step s1 s2 \/ exists c e, dups_epoll s1 c e /\ run_call s1 c = Ok s2) as [Hs|(c & e & Hd & Hc)].
  { destruct St as [s1 c s2 Hf _ Hc|s1 l1 now rs]; [|left; apply step_outside].
    destruct (dups_epoll_dec s1 c) as [[e He]|Hn].
    - right. by exists c, e.
    - left. by apply (step_call _ s1 c s2). }
  - destruct IH as [Hr|(t & c & e & t2 & Hr & Hd)].
    + left. by eapply rtc_l.
    + right. exists t, c, e, t2. split; [by eapply rtc_l|done].
  - right. exists s1, c, e, s2. split_and!; [apply rtc_refl|done|done|done].
Qed.

(** C6. In every state that the application can reach, by calls of any kind with
    anything happening in between, an object counts the descriptors that refer to
    it, descriptors refer to objects that exist, locks are free but for those of
    closed listeners, no closed connection is on an epoll, and the lists of epolls
    and sockets are consistent, with every socket that has an event an epoll waits
    for on the active list of this epoll. There is one exception, a bug: from a
    consistent state the application has duplicated an epoll, and this call
    returned with the epoll locked. *)
Theorem reachable_inv (l : lib_state L) s : rtc any_step (sock_start l) s ->
  sock_inv id [] [] s \/
  exists s1 c e s2, rtc sock_step (sock_start l) s1 /\ sock_inv id [] [] s1 /\
    dups_epoll s1 c e /\ run_call s1 c = Ok s2 /\ rtc any_step s2 s /\
    exists k, ss_eps s2 !! e = Some k /\ e_lock k = true.
Proof.
  intros [R|(s1 & c & e & s2 & R & Hd & Hc & R2)]%first_dup; [left; by eapply steps_inv, start_inv|].
  right. assert (I1 : sock_inv id [] [] s1) by (by eapply steps_inv, start_inv).
  exists s1, c, e, s2. split_and!; try done. by eapply dup_call_locks.
Qed.

(** ** What follows for the look-up of descriptors *)

Lemma socket_free s fd p so : sock_inv id [] [] s -> ss_fhs s !! fd = Some (FH_SOCKET p) -> ss_socks s !! p = Some so -> so_lock so = false.
Proof.
  intros I Hf Hp. apply not_true_is_false. intros Hl. destruct (si_locks _ _ _ _ I p so Hp Hl) as [Hx|[H0 _]]; [by apply not_elem_of_nil in Hx|].
  rewrite (si_refs _ _ _ _ I p so Hp) in H0. apply refs_pos in Hf. unfold id in H0. lia.
Qed.

(** C13. Descriptors are well typed: in every state reached without a duplicate of
    an epoll the look-up of a descriptor returns, with the locked socket when the
    descriptor is one and with EBADF when not; it finds no freed object and waits
    for no lock. Only a negative descriptor, which the code does not look for, is
    an access outside the table. *)
Theorem slookup_total (l : lib_state L) s fd : rtc sock_step (sock_start l) s ->
  fd < 0 /\ flextcp_fd_slookup s fd = Stop OutOfBounds \/
  0 <= fd /\ flextcp_fd_slookup s fd = Ok (None, set_errno s EBADF) /\ (MAXSOCK <= fd \/ forall p, ss_fhs s !! fd <> Some (FH_SOCKET p)) \/
  exists p so, 0 <= fd < MAXSOCK /\ ss_fhs s !! fd = Some (FH_SOCKET p) /\ ss_socks s !! p = Some so /\ so_lock so = false /\
    flextcp_fd_slookup s fd = Ok (Some p, put_sock s p (with_so_lock so true)).
Proof.
  intros I%steps_inv; [|apply start_inv]. unfold flextcp_fd_slookup, fh_at.
  destruct (Z.ltb_spec fd 0) as [Hn|Hfd]; [left; split; [done|]; by rewrite Z.geb_leb, (proj2 (Z.leb_gt _ _)) by (unfold MAXSOCK; lia)|right].
  destruct (Z.geb_spec fd MAXSOCK) as [Hge|Hlt]; [left; split_and!; [done|done|left; lia]|].
  simpl. destruct (ss_fhs s !! fd) as [[p|p]|] eqn:Hf; simpl; [|left; split_and!; [done|done|naive_solver]..].
  right. destruct (si_live _ _ _ _ I fd _ Hf) as [so Hp]. exists p, so. pose proof (socket_free _ _ _ _ I Hf Hp) as Hl.
  split_and!; [done|done|done|done|done|]. unfold socket_lock. rewrite (sock_at_ok _ _ _ Hp). simpl. by rewrite Hl.
Qed.
End Dup.

(** ** An example *)
Module SockEx.

(** A socket and an epoll that waits for its input. *)
Definition c1 := CSocket AF_INET SOCK_STREAM (Some 1) 3.
Definition c2 := CEpollCreate1 4 (Some 50).
Definition c3 := CEpollCtl 4 EPOLL_CTL_ADD 3 (Some (mk_ev EPOLLIN 77)) 0 (Some 60).

Definition run (s : sock_state peer) (c : sock_call) : outcome (sock_state peer) :=
  run_call None 0 8192 8192 1000 1000 7 s c.
Definition step (s : sock_state peer) (c : sock_call) : sock_state peer := match run s c with Ok s => s | Stop _ => s end.
Abbreviation sock_step := (sock_step None 0 8192 8192 1000 1000 7).

Definition s0 : sock_state peer := sock_start LibEx.idle.
Definition s1 := step s0 c1.
Definition s2 := step s1 c2.
Definition s3 := step s2 c3.

Lemma run_1 : run s0 c1 = Ok s1.
Proof. vm_compute. reflexivity. Qed.
Lemma run_2 : run s1 c2 = Ok s2.
Proof. vm_compute. reflexivity. Qed.
Lemma run_3 : run s2 c3 = Ok s3.
Proof. vm_compute. reflexivity. Qed.

Lemma steps_ok (ok : sock_state peer -> sock_call -> Prop) : ok s0 c1 -> ok s1 c2 -> ok s2 c3 ->
  rtc (steps_of None 0 8192 8192 1000 1000 7 ok) s0 s3.
Proof.
  intros H1 H2 H3.
  apply (rtc_l _ _ s1); [apply (step_call _ _ _ _ _ _ _ _ _ c1); [split; reflexivity|exact H1|exact run_1]|].
  apply (rtc_l _ _ s2); [apply (step_call _ _ _ _ _ _ _ _ _ c2); [reflexivity|exact H2|exact run_2]|].
  apply (rtc_l _ _ s3); [|apply rtc_refl].
  apply (step_call _ _ _ _ _ _ _ _ _ c3); [split; [reflexivity|vm_compute; reflexivity]|exact H3|exact run_3].
Qed.

Lemma steps : rtc sock_step s0 s3.
Proof. apply steps_ok; intros e He; exact He. Qed.
Lemma any_steps : rtc (any_step None 0 8192 8192 1000 1000 7) s0 s3.
Proof. by apply steps_ok. Qed.
End SockEx.

Lemma reachable_inv_witness : sock_inv id [] [] SockEx.s3 \/
  exists s1 c e s2, rtc SockEx.sock_step SockEx.s0 s1 /\ sock_inv id [] [] s1 /\
    dups_epoll s1 c e /\ SockEx.run s1 c = Ok s2 /\ rtc (any_step None 0 8192 8192 1000 1000 7) s2 SockEx.s3 /\
    exists k, ss_eps s2 !! e = Some k /\ e_lock k = true.
Proof. apply (reachable_inv None 0 8192 8192 1000 1000 7 LibEx.idle SockEx.s3 SockEx.any_steps). Defined.

Lemma slookup_total_witness :
  4 < 0 /\ flextcp_fd_slookup SockEx.s3 4 = Stop OutOfBounds \/
  0 <= 4 /\ flextcp_fd_slookup SockEx.s3 4 = Ok (None, set_errno SockEx.s3 EBADF) /\ (MAXSOCK <= 4 \/ forall p, ss_fhs SockEx.s3 !! 4 <> Some (FH_SOCKET p)) \/
  exists p so, 0 <= 4 < MAXSOCK /\ ss_fhs SockEx.s3 !! 4 = Some (FH_SOCKET p) /\ ss_socks SockEx.s3 !! p = Some so /\ so_lock so = false /\
    flextcp_fd_slookup SockEx.s3 4 = Ok (Some p, put_sock SockEx.s3 p (with_so_lock so true)).
Proof. apply (slookup_total None 0 8192 8192 1000 1000 7 LibEx.idle SockEx.s3 4 SockEx.steps). Defined.
