(* ===== verification/SockRecv.v ===== *)
(** * The socket library: what is received

    The one or two pieces of the receive queue that a connection remembers are the
    next bytes of the stream: events add to them, and reading takes the bytes in
    order, whatever the sizes of the buffers of the application. *)
From S2P Require Import Prelude RdmaQueue Packets LibTas LibPoll SockState SockReady SockCtx SockCtl.
From S2P Require Import SockXfer LibSpec LibPollSpec LibData SockReadySpec SockEpollInv SockInv SockEpollCalls SockCalls.

#[local] Open Scope Z_scope.

(** The pieces of [c] are the [n] bytes of the ring of [q] from [o] on. *)
Record rx_view (q : rdma_queue) (c : socket_conn) (o n : Z) : Prop := {
  rv_off : 0 <= o < buffer_size q;
  rv_len : 0 <= n <= buffer_size q;
  rv_len_1 : rx_len_1 c = Z.min n (buffer_size q - o);
  rv_len_2 : rx_len_2 c = n - Z.min n (buffer_size q - o);
  rv_buf_1 : 0 < n -> rx_buf_1 c = q_buf q o;
  rv_buf_2 : buffer_size q - o < n -> rx_buf_2 c = q_buf q 0;
  rv_word : 0 <= rx_buf_2 c < 18446744073709551616;
}.

(** What goes to the buffers of a vector. *)
Fixpoint scatter (iov : list Z) (l : list Z) : list (list Z) :=
  match iov, l with
  | len :: iov, _ :: _ => take (Z.to_nat len) l :: scatter iov (drop (Z.to_nat len) l)
  | _, _ => []
  end.

Lemma sum_list_pos iov : Forall (Z.le 0) iov -> 0 <= sum_list iov.
Proof. unfold sum_list. induction 1; simpl; lia. Qed.

Lemma scatter_concat iov : forall l, Forall (Z.le 0) iov -> concat (scatter iov l) = take (Z.to_nat (sum_list iov)) l.
Proof.
  induction iov as [|len iov IH]; intros l Hpos; [by destruct l|]. apply Forall_cons in Hpos as [Hlen Hpos].
  pose proof (sum_list_pos _ Hpos).
  destruct l as [|x l]; [by rewrite take_nil|]. cbn [scatter concat]. rewrite IH by done.
  change (sum_list (len :: iov)) with (len + sum_list iov). rewrite Z2Nat.inj_add by lia.
  by rewrite take_take_drop.
Qed.

Section View.
Context (q : rdma_queue) (Hbs : 0 < buffer_size q < 2147483648) (Hbuf : Z.of_nat (length (buffer q)) = buffer_size q).
Context (Haddr : 0 <= self q /\ self q + SIZEOF_RDMA_QUEUE + buffer_size q < 18446744073709551616).
Implicit Types (c : socket_conn) (o n : Z).

Lemma q_buf_add off n : 0 <= off -> 0 <= n -> off + n <= buffer_size q -> u64 (q_buf q off + n) = q_buf q (off + n).
Proof.
  intros. unfold q_buf, SIZEOF_RDMA_QUEUE, OFFSETOF_BUFFER in *. rewrite (u64_small (self q + 84 + off)) by lia.
  rewrite !u64_small by lia. lia.
Qed.

Lemma q_buf_word o : 0 <= q_buf q o < 18446744073709551616.
Proof. apply Z.mod_pos_bound. done. Qed.

Lemma queue_bytes_ring off n : 0 <= off -> 0 <= n -> off + n <= buffer_size q ->
  queue_bytes q (q_buf q off) n = Ok (ring_read (buffer q) off n).
Proof.
  intros. unfold queue_bytes. destruct (Z.eqb_spec n 0) as [->|]; [by rewrite ring_read_zero|].
  rewrite (q_buf_off q Haddr) by lia. apply mem_read_ring; lia.
Qed.

(** Bytes that follow those that are there extend the pieces. *)
Lemma arrive c o n len : rx_view q c o n -> 0 < len -> n + len <= buffer_size q ->
  let a := (o + n) mod buffer_size q in
  a + len <= buffer_size q -> exists c', add_received c (q_buf q a) len = Ok c' /\ rx_view q c' o (n + len).
Proof.
  intros [Ho Hn E1 E2 B1 B2 Bw] Hl Hfit a Ha. unfold add_received. rewrite E1, E2.
  destruct (Z.eqb_spec (Z.min n (buffer_size q - o)) 0) as [H0|H0].
  { assert (n = 0) as -> by lia. assert (a = o) as -> by (unfold a; rewrite Z.add_0_r, Z.mod_small; lia).
    eexists. split; [done|]. constructor; simpl; try lia; done. }
  assert (0 < n) by lia. rewrite B1 by done.
  destruct (Z.ltb_spec (o + n) (buffer_size q)) as [Hin|Hout].
  - assert (a = o + n) as -> by (apply Z.mod_small; lia). rewrite Z.min_l, Z.sub_diag, q_buf_add, Z.eqb_refl by lia. simpl.
    rewrite Z.eqb_refl, u64_small by lia. eexists. split; [done|]. constructor; simpl; try lia; done.
  - rewrite Z.min_r by lia. assert (a = n - (buffer_size q - o)) as Ea.
    { unfold a. replace (o + n) with (n - (buffer_size q - o) + 1 * buffer_size q) by lia. rewrite Z.mod_add, Z.mod_small; lia. }
    assert (q_buf q a <> u64 (q_buf q o + (buffer_size q - o))) as Hne.
    { rewrite q_buf_add by lia. replace (o + (buffer_size q - o)) with (buffer_size q) by lia. unfold q_buf, SIZEOF_RDMA_QUEUE, OFFSETOF_BUFFER in *.
      rewrite !u64_small by lia. lia. }
    rewrite (proj2 (Z.eqb_neq _ _) Hne), andb_false_r.
    destruct (Z.eqb_spec (n - (buffer_size q - o)) 0) as [Hz|Hz].
    + assert (a = 0) as -> by lia. rewrite Hz. exists (with_piece_2 c (q_buf q 0) len). split.
      * rewrite Z.add_0_r, (u64_small (rx_buf_2 c)), Z.add_0_l, u64_small by lia.
        destruct (Z.eqb_spec (q_buf q 0) (rx_buf_2 c)) as [->|]; done.
      * pose proof (q_buf_word 0). constructor; simpl; try lia; done.
    + rewrite B2 by lia. rewrite q_buf_add by lia. simpl. rewrite <- Ea, Z.eqb_refl.
      rewrite u64_small by lia. eexists. split; [done|]. constructor; simpl; try lia; done.
Qed.

Lemma nothing_view c o : rx_len_1 c = 0 -> rx_len_2 c = 0 -> 0 <= o < buffer_size q ->
  0 <= rx_buf_2 c < 18446744073709551616 -> rx_view q c o 0.
Proof. intros. constructor; lia. Qed.

Lemma copy_out_view c o n len : rx_view q c o n -> 0 <= len ->
  let m := Z.min len n in
  exists c', copy_out q c len = Ok (ring_read (buffer q) o m, c') /\
    rx_view q c' ((o + m) mod buffer_size q) (n - m).
Proof.
  intros [Ho Hn E1 E2 B1 B2 Bw] Hlen m. unfold copy_out. destruct (Z.leb_spec (rx_len_1 c) len) as [Hl|Hl].
  - destruct (decide (n <= buffer_size q - o)) as [Hs|Hs].
    + assert (m = n) as -> by lia. rewrite E1, Z.min_l in * by lia.
      assert (queue_bytes q (rx_buf_1 c) n = Ok (ring_read (buffer q) o n)) as ->.
      { destruct (decide (n = 0)) as [->|]; [by rewrite ring_read_zero|]. rewrite B1 by lia. apply queue_bytes_ring; lia. }
      osimpl. cbn [next_piece with_piece_1 with_piece_2 rx_len_1 rx_buf_1]. rewrite ring_read_length.
      assert (MIN (rx_len_2 c) (len - Z.of_nat (Z.to_nat n)) = 0) as Em by (unfold MIN; bsplit; lia).
      simpl. rewrite Em. change (queue_bytes q (rx_buf_2 c) 0) with (Ok (A := list Z) []). osimpl. rewrite app_nil_r. eexists. split; [done|].
      rewrite Z.sub_diag. apply nothing_view; simpl; [lia|done|apply Z.mod_pos_bound; lia|lia].
    + rewrite Z.min_r in E1, E2 by lia. rewrite E1, B1, queue_bytes_ring by lia. osimpl. simpl.
      rewrite ring_read_length, Z2Nat.id, E2, B2 by lia.
      set (k := MIN _ _). assert (k = m - (buffer_size q - o)) as Ek by (unfold k, MIN; bsplit; lia).
      rewrite queue_bytes_ring by lia. osimpl.
      assert (Ho' : (o + m) mod buffer_size q = k).
      { replace (o + m) with (k + 1 * buffer_size q) by lia. rewrite Z.mod_add, Z.mod_small; lia. }
      rewrite Ho'. eexists. split.
      * do 2 f_equal. replace m with ((buffer_size q - o) + k) by lia. rewrite ring_read_app by lia. f_equal.
        apply ring_read_mod. rewrite Hbuf. replace (o + (buffer_size q - o)) with (0 + 1 * buffer_size q) by lia. by rewrite Z.mod_add by lia.
      * constructor; simpl; try lia. intros _. rewrite q_buf_add by lia. done.
  - osimpl. assert (m = len) as -> by lia. assert (MIN (rx_len_1 c) (len - Z.of_nat 0) = len) as Em by (unfold MIN; bsplit; lia).
    simpl. rewrite Em. assert (0 < n) by lia. rewrite B1 by done.
    rewrite queue_bytes_ring by lia. osimpl. eexists. split; [done|].
    rewrite Z.mod_small by lia. pose proof (q_buf_add o len). constructor; simpl; lia.
Qed.

Lemma copy_out_vec_view iov : forall c o n, rx_view q c o n -> Forall (Z.le 0) iov ->
  let m := Z.min (sum_list iov) n in
  exists c', copy_out_vec q c iov = Ok (scatter iov (ring_read (buffer q) o n), c') /\
    rx_view q c' ((o + m) mod buffer_size q) (n - m).
Proof.
  induction iov as [|len iov IH]; intros c o n V Hpos m.
  { assert (m = 0) as -> by (pose proof (rv_len _ _ _ _ V); unfold m, sum_list; simpl; lia). exists c. split; [by destruct (ring_read _ _ _)|].
    rewrite Z.add_0_r, Z.sub_0_r, Z.mod_small by apply V. done. }
  apply Forall_cons in Hpos as [Hlen Hpos]. pose proof (sum_list_pos _ Hpos). cbn [copy_out_vec].
  pose proof (rv_len_1 _ _ _ _ V) as E1. pose proof (rv_off _ _ _ _ V) as Ho. pose proof (rv_len _ _ _ _ V) as Hn.
  change (sum_list (len :: iov)) with (len + sum_list iov) in m.
  destruct (Z.gtb_spec (rx_len_1 c) 0) as [Hs|Hs].
  2:{ assert (n = 0) as -> by lia. assert (m = 0) as -> by lia. exists c. split; [by rewrite ring_read_zero|].
      rewrite Z.add_0_r, Z.mod_small by lia. done. }
  destruct (copy_out_view c o n len V Hlen) as (c1 & -> & V1). osimpl. set (k := Z.min len n) in *.
  destruct (IH c1 _ _ V1 Hpos) as (c2 & -> & V2). osimpl. exists c2. split.
  - do 2 f_equal. destruct (ring_read (buffer q) o n) as [|x l] eqn:El.
    { pose proof (ring_read_length (buffer q) o n) as Hr. rewrite El in Hr. simpl in Hr. lia. }
    cbn [scatter]. rewrite <- El. f_equal.
    + destruct (decide (len <= n)) as [Hle|Hgt]; [unfold k; rewrite ring_take by lia; f_equal; lia|].
      rewrite take_ge by (rewrite ring_read_length; lia). f_equal. lia.
    + f_equal. destruct (decide (len <= n)) as [Hle|Hgt].
      * rewrite ring_drop by lia. replace k with len by lia. apply ring_read_mod. rewrite Hbuf. by rewrite Zmod_mod.
      * rewrite drop_ge by (rewrite ring_read_length; lia). replace (n - k) with 0 by lia. apply ring_read_zero.
  - replace (n - m) with (n - k - Z.min (sum_list iov) (n - k)) by lia.
    rewrite Zplus_mod_idemp_l in V2. replace (o + k + Z.min (sum_list iov) (n - k)) with (o + m) in V2 by lia. done.
Qed.
End View.

(** ** The application has read *)

Lemma dequeue_self q want sz rv d q' : rq_try_dequeue q want sz = Ok (rv, d, q') -> self q' = self q.
Proof.
  unfold rq_try_dequeue, rq_try_possible_dequeue. intros R. run_inv R; subst; done.
Qed.

Lemma q_buf_self q q' o : self q' = self q -> q_buf q' o = q_buf q o.
Proof. unfold q_buf. by intros ->. Qed.

Lemma rx_view_same q q' c o n : self q' = self q -> buffer_size q' = buffer_size q -> rx_view q c o n -> rx_view q' c o n.
Proof.
  intros E1 E2 [H1 H2 H3 H4 H5 H6 H7]. constructor; rewrite ?E2, ?(q_buf_self q q' _ E1); done.
Qed.

(** The place of the first byte. *)
Definition rx_pos (q : rdma_queue) : Z := rx_off q mod buffer_size q.

Lemma pos_read q f n : rep q f -> ring_read (buffer q) (rx_pos q) n = ring_read (buffer q) (rx_off q) n.
Proof. intros R. apply ring_read_mod. rewrite (rep_buf q f R). apply Zmod_mod. Qed.

Section Done.
Context {L : Type} `{RdmaLink L}.
Implicit Types (s : lib_state L) (p : Z) (c : flextcp_connection).

Lemma rx_done_local s p c q f l n :
  lb_conns s !! p = Some c -> lb_qs s !! fc_rx c = Some q -> rep q f -> bumps (bview s) l ->
  0 <= n <= Z.of_nat (length (visible f)) ->
  exists s' q' c' l', flextcp_connection_rx_done s p n = Ok (0, s') /\ lb_qs s' = <[fc_rx c := q']> (lb_qs s) /\
    rep q' (mk_fifo (drop (Z.to_nat n) (visible f)) (pending f)) /\ self q' = self q /\ buffer_size q' = buffer_size q /\
    buffer q' = buffer q /\ rx_pos q' = (rx_pos q + n) mod buffer_size q /\
    lb_conns s' !! p = Some c' /\ fc_rx c' = fc_rx c /\ rxb_bump c' = u32 (rxb_bump c + n) /\ bumps (bview s') l' /\
    (rxb_bump c' > buffer_size q / 4 -> p ∈ l').
Proof.
  intros Hc Hq R B Hn. unfold flextcp_connection_rx_done. rewrite (proj2 (fc_at_Ok s p c) Hc). osimpl.
  unfold q_dequeue. rewrite (q_at_Ok _ _ _ Hq). osimpl.
  pose proof (rq_dequeue_local q f false n true R ltac:(lia)) as D. unfold fifo_dequeue in D.
  rewrite (proj2 (Z.ltb_ge _ _)) in D by lia. destruct D as (q' & Ed & R' & Es & Eb & _ & _ & Eo). cbn [Z.eqb] in Eo.
  pose proof (dequeue_self _ _ _ _ _ _ Ed) as Eself. unfold rq_try_dequeue. rewrite Ed. osimpl.
  set (c1 := c <| rxb_bump := u32 (rxb_bump c + n) |>). set (s1 := put_fc (put_q s _ _ _) p c1).
  change (fc_rx c1) with (fc_rx c). rewrite (q_at_Ok s1 (fc_rx c) q') by apply lookup_insert_eq. osimpl.
  assert (Hpos : rx_pos q' = (rx_pos q + n) mod buffer_size q).
  { unfold rx_pos. rewrite Es, Eo, Zplus_mod_idemp_l. apply adv_mod. pose proof (rep_bs q f R). unfold RDMA_QUEUE_PAD in *. lia. }
  assert (Hc1 : lb_conns s1 !! p = Some c1) by apply lookup_insert_eq.
  assert (B1 : bumps (bview s1) l).
  { assert (bview s1 = bview s) as ->; [|done]. transitivity (bview (put_fc s p c1)); [done|]. by eapply bview_put_same. }
  rewrite Es. destruct (Z.gtb_spec (rxb_bump c1) (buffer_size q / 4)) as [Hb|Hb].
  - destruct (mark_bumps s1 l p c1 B1 Hc1) as (s2 & Em & B2). rewrite Em. osimpl.
    destruct (mark_view (fun c => (fc_rx c, rxb_bump c)) ltac:(done) ltac:(done) ltac:(done) _ _ _ Em) as [V Q].
    destruct (fmap_lookup_inv (fun c => (fc_rx c, rxb_bump c)) _ _ p c1 (eq_sym V) Hc1) as (c2 & Hc2 & [= E1 E2]).
    exists s2, q', c2. eexists. split_and!; [done|by rewrite Q|done|done|done|done|done|done|done|done|exact B2|].
    intros _. destruct (decide (p ∈ l)); [done|]. apply elem_of_app. right. left.
  - exists s1, q', c1, l. split_and!; done || lia.
Qed.

End Done.

(** ** A connection of this thread *)
Section Own.
Context {L : Type} `{RdmaLink L}.
Context (remote : option rdma_env) (flexnic_mem poll_cycle_tas poll_cycle_app ctx : Z).
Implicit Types (s : sock_state L) (fd p : Z) (so : socket).

Lemma slookup_ok s fd p so :
  0 <= fd < MAXSOCK -> ss_fhs s !! fd = Some (FH_SOCKET p) -> ss_socks s !! p = Some so -> so_lock so = false ->
  flextcp_fd_slookup s fd = Ok (Some p, put_sock s p (with_so_lock so true)).
Proof.
  intros Hfd Hfh Hp Hl. unfold flextcp_fd_slookup, fh_at. destruct (Z.geb_spec fd MAXSOCK); [lia|].
  rewrite (proj2 (Z.ltb_ge _ _)) by lia. osimpl. rewrite Hfh. unfold socket_lock. rewrite (sock_at_ok _ _ _ Hp). osimpl. by rewrite Hl.
Qed.

Lemma move_own s p so :
  ss_socks s !! p = Some so -> so_type so = SOCK_CONNECTION -> sc_status (so_conn so) = SOC_CONNECTED -> sc_ctx (so_conn so) = ctx ->
  tas_sock_move remote flexnic_mem poll_cycle_tas poll_cycle_app ctx s p = Ok (0, s).
Proof.
  intros Hp Ht Hst Hctx. unfold tas_sock_move. rewrite (sock_at_ok _ _ _ Hp). osimpl. unfold is_type, is_status.
  by rewrite Ht, Hst, Hctx, Z.eqb_refl.
Qed.
End Own.

(** ** Receiving from a socket *)
Section Receive.
Context {L : Type} `{RdmaLink L}.
Context (remote : option rdma_env) (flexnic_mem poll_cycle_tas poll_cycle_app ctx : Z).
Abbreviation state := (sock_state L).
Context (s : state) (fd p : Z) (so : socket) (c : flextcp_connection) (q : rdma_queue) (f : fifo) (l : list Z) (n : Z).

(** [fd] is a connection of this thread, of whose receive queue [n] bytes were
    announced by events. *)
Record receiver : Prop := {
  rc_fd : 0 <= fd < MAXSOCK;
  rc_fh : ss_fhs s !! fd = Some (FH_SOCKET p);
  rc_sock : ss_socks s !! p = Some so;
  rc_lock : so_lock so = false;
  rc_type : so_type so = SOCK_CONNECTION;
  rc_status : sc_status (so_conn so) = SOC_CONNECTED;
  rc_ctx : sc_ctx (so_conn so) = ctx;
  rc_conn : lb_conns (ss_lib s) !! p = Some c;
  rc_queue : lb_qs (ss_lib s) !! fc_rx c = Some q;
  rc_rep : rep q f;
  rc_addr : 0 <= self q /\ self q + SIZEOF_RDMA_QUEUE + buffer_size q < 18446744073709551616;
  rc_bumps : bumps (bview (ss_lib s)) l;
  rc_view : rx_view q (so_conn so) (rx_pos q) n;
  rc_some : 0 < n <= Z.of_nat (length (visible f));
}.

(** What a receive of [m] of the bytes leaves behind. *)
Definition received (m : Z) (s' : state) : Prop :=
  exists so' c' q' l', s' = mk_ss (ss_lib s') (<[p := so']> (ss_socks s)) (ss_eps s) (ss_ess s) (ss_fhs s) (ss_errno s) (ss_now s) (ss_rounds s) /\
    so_lock so' = false /\ so_type so' = SOCK_CONNECTION /\ sc_status (so_conn so') = SOC_CONNECTED /\
    ep_events so' = (if nothing_yet so' then Z.land (ep_events so) (Z.lnot EPOLLIN) else ep_events so) /\
    rx_view q' (so_conn so') (rx_pos q') (n - m) /\
    lb_conns (ss_lib s') !! p = Some c' /\ rxb_bump c' = u32 (rxb_bump c + m) /\
    lb_qs (ss_lib s') = <[fc_rx c := q']> (lb_qs (ss_lib s)) /\
    rep q' (mk_fifo (drop (Z.to_nat m) (visible f)) (pending f)) /\
    bumps (bview (ss_lib s')) l' /\ (rxb_bump c' > buffer_size q / 4 -> p ∈ l').

Lemma receive_spec {A} (total : Z) (copy : rdma_queue -> socket_conn -> outcome (A * Z * socket_conn)) none d m cv :
  receiver -> total <> 0 -> copy q (so_conn so) = Ok (d, m, cv) -> 0 < m <= n ->
  rx_view q cv ((rx_pos q + m) mod buffer_size q) (n - m) ->
  sc_status cv = SOC_CONNECTED ->
  exists s', receive remote flexnic_mem poll_cycle_tas poll_cycle_app ctx s fd total copy none = Ok (m, d, s') /\ received m s'.
Proof.
  intros [Hfd Hfh Hp Hlock Ht Hst Hctx Hc Hq R Ha B V Hn] Htot Hcopy Hm V' Hst'.
  set (so1 := with_so_lock so true). set (s1 := put_sock s p so1).
  assert (E1 : flextcp_fd_slookup s fd = Ok (Some p, s1)) by (by apply slookup_ok).
  assert (Hp1 : ss_socks s1 !! p = Some so1) by apply lookup_insert_eq.
  pose proof (move_own remote flexnic_mem poll_cycle_tas poll_cycle_app ctx s1 p so1 Hp1 Ht Hst Hctx) as E2.
  assert (Hlen1 : 0 < rx_len_1 (so_conn so)).
  { pose proof (rv_off _ _ _ _ V). rewrite (rv_len_1 _ _ _ _ V). lia. }
  assert (E3 : recv_wait remote flexnic_mem poll_cycle_tas poll_cycle_app (S (length (ss_rounds s1))) s1 p false = Ok (true, s1)).
  { cbn [recv_wait]. rewrite (sock_at_ok _ _ _ Hp1). osimpl. unfold nothing_yet, so1. simpl. destruct (Z.eqb_spec (rx_len_1 (so_conn so)) 0); [lia|done]. }
  unfold receive. rewrite E1. osimpl. rewrite E2. osimpl. rewrite (sock_at_ok _ _ _ Hp1). osimpl.
  assert (negb (is_type so1 SOCK_CONNECTION) || negb (is_status so1 SOC_CONNECTED) = false) as ->
    by (unfold is_type, is_status, so1; simpl; by rewrite Ht, Hst).
  rewrite (proj2 (Z.eqb_neq _ _) Htot), E3. osimpl. rewrite (sock_at_ok _ _ _ Hp1). osimpl.
  unfold rx_queue. change (ss_lib s1) with (ss_lib s). rewrite (proj2 (fc_at_Ok (ss_lib s) p c) Hc). osimpl. rewrite (q_at_Ok _ _ _ Hq). osimpl.
  change (so_conn so1) with (so_conn so). rewrite Hcopy. osimpl.
  destruct (rx_done_local (ss_lib s) p c q f l m Hc Hq R B ltac:(lia))
    as (lb & q' & c' & l' & Ed & Eq & R' & Es & Ebs & Eb & Epos & Hc' & Efc & Ebump & B' & Hmark).
  unfold recv_done. destruct (Z.gtb_spec m 0); [|lia]. set (so2 := with_conn so1 cv).
  rewrite (sock_at_ok _ p so2) by apply lookup_insert_eq. osimpl.
  set (so3 := if nothing_yet so2 then set_ep_events (Z.land (ep_events so2) (Z.lnot EPOLLIN)) so2 else so2).
  assert ((if nothing_yet so2 then flextcp_epoll_clear (put_sock s1 p so2) p EPOLLIN else mret (put_sock s1 p so2)) =
    Ok (put_sock s p so3)) as ->.
  { unfold so3, s1, put_sock, set_socks. simpl. destruct (nothing_yet so2); [|by rewrite insert_insert_eq].
    unfold flextcp_epoll_clear, upd_sock. rewrite (sock_at_ok _ p so2) by apply lookup_insert_eq. osimpl.
    unfold put_sock, set_socks. simpl. by rewrite !insert_insert_eq. }
  osimpl. change (ss_lib (put_sock s p so3)) with (ss_lib s). rewrite Ed. osimpl.
  unfold out, flextcp_fd_srelease, socket_unlock. rewrite (sock_at_ok _ p so3) by apply lookup_insert_eq. osimpl.
  eexists. split; [reflexivity|]. exists (with_so_lock so3 false), c', q', l'.
  assert (Hso3 : nothing_yet (with_so_lock so3 false) = nothing_yet so2 /\ so_conn so3 = cv /\ so_type so3 = SOCK_CONNECTION)
    by (unfold so3; destruct (nothing_yet so2) eqn:Ey; (split; [exact Ey|]); done).
  destruct Hso3 as (Hny & Hcv & Hty). split_and!; try done.
  - unfold put_sock, set_socks, set_lib. simpl. by rewrite !insert_insert_eq.
  - simpl. by rewrite Hcv.
  - rewrite Hny. unfold so3. by destruct (nothing_yet so2).
  - simpl. rewrite Hcv, Epos. by apply (rx_view_same q).
Qed.

End Receive.

Section Read.
Context {L : Type} `{RdmaLink L}.
Context (remote : option rdma_env) (flexnic_mem poll_cycle_tas poll_cycle_app ctx : Z).
Abbreviation state := (sock_state L).
Context (s : state) (fd p : Z) (so : socket) (c : flextcp_connection) (q : rdma_queue) (f : fifo) (l : list Z) (n : Z).
Context (Rc : receiver ctx s fd p so c q f l n).

Lemma view_stream m : 0 <= m <= n -> ring_read (buffer q) (rx_pos q) m = take (Z.to_nat m) (visible f).
Proof.
  intros Hm. destruct Rc. rewrite (pos_read q f) by done. rewrite (rep_visible q f) by done. by rewrite ring_take by lia.
Qed.

Lemma receiver_ring : 0 < buffer_size q < 2147483648 /\ Z.of_nat (length (buffer q)) = buffer_size q.
Proof. destruct Rc as [_ _ _ _ _ _ _ _ _ R _ _ _ _]. pose proof (rep_bs q f R). unfold RDMA_QUEUE_PAD in *. split; [lia|apply R]. Qed.

Lemma read_simple len : 0 < len ->
  exists s', recv_simple remote flexnic_mem poll_cycle_tas poll_cycle_app ctx s fd len =
      Ok (Z.min len n, take (Z.to_nat (Z.min len n)) (visible f), s') /\
    received s p so c q f n (Z.min len n) s'.
Proof.
  intros Hlen. destruct receiver_ring as [Hb1 Hb2]. pose proof (rc_some _ _ _ _ _ _ _ _ _ _ Rc).
  destruct (copy_out_view q Hb1 Hb2 (rc_addr _ _ _ _ _ _ _ _ _ _ Rc) _ _ _ len (rc_view _ _ _ _ _ _ _ _ _ _ Rc)) as (cv & Ec & Vc); [lia|].
  destruct (receive_spec remote flexnic_mem poll_cycle_tas poll_cycle_app ctx s fd p so c q f l n len
    (fun q c => '(d, c) ← copy_out q c len; mret (d, Z.of_nat (length d), c)) []
    (take (Z.to_nat (Z.min len n)) (visible f)) (Z.min len n) cv) as (s' & E & Rs); [done|lia| |lia|exact Vc| |eauto].
  - rewrite Ec. osimpl. rewrite ring_read_length, view_stream by lia. do 3 f_equal. lia.
  - rewrite (copy_out_status _ _ _ _ _ Ec). apply Rc.
Qed.

(** C12. A read into a vector of buffers fills them in order with the bytes that
    were announced, each to its size before the next, up to the last byte; with the
    same effect as one read of that many bytes. *)
Theorem recvmsg_scatters iov (Hpos : Forall (Z.le 0) iov) (Hsum : 0 < sum_list iov < 18446744073709551616) :
  let m := Z.min (sum_list iov) n in
  exists s', tas_recvmsg remote flexnic_mem poll_cycle_tas poll_cycle_app ctx s fd iov =
      Ok (m, scatter iov (take (Z.to_nat n) (visible f)), s') /\
    concat (scatter iov (take (Z.to_nat n) (visible f))) = take (Z.to_nat m) (visible f) /\
    received s p so c q f n m s'.
Proof.
  intros m. destruct receiver_ring as [Hb1 Hb2]. pose proof (rc_some _ _ _ _ _ _ _ _ _ _ Rc).
  assert (Hcat : concat (scatter iov (take (Z.to_nat n) (visible f))) = take (Z.to_nat m) (visible f)).
  { rewrite scatter_concat by done. rewrite take_take. f_equal. lia. }
  destruct (copy_out_vec_view q Hb1 Hb2 (rc_addr _ _ _ _ _ _ _ _ _ _ Rc) iov _ _ _ (rc_view _ _ _ _ _ _ _ _ _ _ Rc) Hpos) as (cv & Ec & Vc).
  destruct (receive_spec remote flexnic_mem poll_cycle_tas poll_cycle_app ctx s fd p so c q f l n (u64 (sum_list iov))
    (fun q c => '(ds, c) ← copy_out_vec q c iov; mret (ds, Z.of_nat (length (concat ds)), c)) []
    (scatter iov (take (Z.to_nat n) (visible f))) m cv) as (s' & E & Rs); [done|rewrite u64_small; lia| |lia|exact Vc| |eauto].
  - rewrite Ec. osimpl. rewrite view_stream by lia. rewrite Hcat, length_take. do 3 f_equal. lia.
  - rewrite (copy_out_vec_status _ _ _ _ _ Ec). apply Rc.
Qed.

End Read.

(** ** Events for received bytes *)
Section Arrived.
Context {L : Type} `{RdmaLink L}.
Context (remote : option rdma_env) (flexnic_mem poll_cycle_tas poll_cycle_app ctx : Z).
Abbreviation state := (sock_state L).
Implicit Types (s : state) (p : Z) (so : socket).

Definition arrived so (c : socket_conn) : socket := with_conn (set_ep_events (Z.lor (ep_events so) EPOLLIN) so) c.

(** Only sockets and the lists of epolls change. *)
Definition same_lib s s' : Prop :=
  ss_lib s' = ss_lib s /\ ss_fhs s' = ss_fhs s /\ ss_errno s' = ss_errno s /\ ss_now s' = ss_now s /\ ss_rounds s' = ss_rounds s.

Lemma ev_received_ok s p so buf len c' :
  epoll_inv s -> ss_socks s !! p = Some so -> so_lock so = false -> so_type so = SOCK_CONNECTION ->
  sc_status (so_conn so) = SOC_CONNECTED -> add_received (so_conn so) buf len = Ok c' ->
  exists s', ev_conn_received s buf len p = Ok s' /\ epoll_inv s' /\ ss_socks s' = <[p := arrived so c']> (ss_socks s) /\ same_lib s s'.
Proof.
  intros (a & b & K) Hp Hl Ht Hst Ha. unfold ev_conn_received, socket_lock. rewrite (sock_at_ok _ _ _ Hp). osimpl. rewrite Hl. osimpl.
  set (so1 := with_so_lock so true). set (s1 := put_sock s p so1).
  rewrite (sock_at_ok s1 p so1) by apply lookup_insert_eq. osimpl. unfold is_status, is_type, so1. simpl. rewrite Ht, Hst. osimpl. rewrite Ha. osimpl.
  fold so1. set (so2 := with_conn so1 c'). set (s2 := put_sock s1 p so2).
  assert (K2 : epoll_ok s2 a b).
  { apply (epoll_ok_plain s1 a b p so1); [by apply (epoll_ok_plain s a b p so)|apply lookup_insert_eq|done|done]. }
  assert (Hp2 : ss_socks s2 !! p = Some so2) by apply lookup_insert_eq.
  destruct (epoll_set_ok s2 a b p so2 EPOLLIN K2 Hp2 ltac:(split; vm_compute; congruence)) as (s3 & a3 & -> & K3 & F). osimpl.
  set (so3 := set_ep_events _ so2) in F.
  assert (Hp3 : ss_socks s3 !! p = Some so3) by (rewrite (only_lists_socks _ _ F); apply lookup_insert_eq).
  unfold socket_unlock. rewrite (sock_at_ok _ _ _ Hp3). osimpl. eexists. split; [done|].
  split; [exists a3, b; by apply (epoll_ok_plain s3 a3 b p so3)|].
  assert (Hu : with_so_lock so3 false = arrived so c') by (unfold so3, so2, so1, arrived; destruct so; simpl in *; by subst).
  rewrite Hu. split; [|by rewrite (on_rest _ _ F)].
  simpl. rewrite (only_lists_socks _ _ F). simpl. by rewrite !insert_insert_eq.
Qed.

(** The events of one update, when everything was read before. *)
Lemma update_ok s p so q f k :
  epoll_inv s -> ss_socks s !! p = Some so -> so_lock so = false -> so_type so = SOCK_CONNECTION ->
  sc_status (so_conn so) = SOC_CONNECTED -> rep q f ->
  0 <= self q /\ self q + SIZEOF_RDMA_QUEUE + buffer_size q < 18446744073709551616 ->
  rx_len_1 (so_conn so) = 0 -> 0 <= rx_buf_2 (so_conn so) < 18446744073709551616 ->
  0 < k <= Z.of_nat (length (visible f)) ->
  exists s' c', handle_events poll_cycle_tas s (received_events q k p) = Ok s' /\ epoll_inv s' /\
    ss_socks s' = <[p := arrived so c']> (ss_socks s) /\ same_lib s s' /\ rx_view q c' (rx_pos q) k /\
    sc_status c' = SOC_CONNECTED /\ sc_ctx c' = sc_ctx (so_conn so).
Proof.
  intros K Hp Hl Ht Hst R Ha Hn Hw Hk. pose proof (rep_bs q f R) as Hbs. pose proof (rep_rx q f R) as Hrx. pose proof (rep_fits q f R) as Hf.
  pose proof (rep_buf q f R) as Hb. unfold fifo_size, RDMA_QUEUE_PAD in *.
  assert (Hbs2 : 0 < buffer_size q < 2147483648) by lia.
  assert (Hfirst : forall addr len, add_received (so_conn so) addr len =
    Ok (with_piece_2 (with_piece_1 (so_conn so) addr len) (rx_buf_2 (so_conn so)) 0)).
  { intros addr len. unfold add_received. by rewrite Hn. }
  assert (Hwf : forall e, epoll_inv e -> forall c', ss_socks e = <[p := arrived so c']> (ss_socks s) -> sc_status c' = SOC_CONNECTED ->
    forall addr len c2, add_received c' addr len = Ok c2 -> exists s', ev_conn_received e addr len p = Ok s' /\ epoll_inv s' /\
      ss_socks s' = <[p := arrived so c2]> (ss_socks s) /\ same_lib e s').
  { intros e Ke c' He Hc' addr len c2 Hadd.
    destruct (ev_received_ok e p (arrived so c') addr len c2 Ke) as (s' & E & K' & S' & Q'); try done; [rewrite He; apply lookup_insert_eq|].
    exists s'. split_and!; try done; try apply Q'. rewrite S', He, insert_insert_eq. f_equal. unfold arrived. destruct so; unfold with_conn, set_ep_events; simpl.
    f_equal. rewrite <- Z.lor_assoc. f_equal. }
  unfold received_events. rewrite u64_small by lia. destruct (Z.gtb_spec (rx_off q + k) (buffer_size q)) as [Hwrap|Hlin].
  - cbn [handle_events handle_event].
    destruct (ev_received_ok s p so _ _ _ K Hp Hl Ht Hst (Hfirst (q_buf q (rx_off q)) (u32 (buffer_size q - rx_off q)))) as (s1 & -> & K1 & S1 & Q1).
    osimpl. rewrite (u32_small (buffer_size q - rx_off q)), u32_small in * by lia.
    set (c1 := with_piece_2 _ _ _) in *.
    assert (V1 : rx_view q c1 (rx_pos q) (buffer_size q - rx_off q)).
    { unfold rx_pos. destruct (decide (rx_off q = buffer_size q)) as [Eo|].
      - rewrite Eo, Z.mod_same by lia. constructor; simpl; lia.
      - rewrite Z.mod_small by lia. constructor; simpl; done || lia. }
    destruct (arrive q Hbs2 Ha c1 (rx_pos q) (buffer_size q - rx_off q) (k - (buffer_size q - rx_off q)) V1) as (c2 & E2 & V2); [lia|lia| |].
    { apply Z.le_trans with (0 + (k - (buffer_size q - rx_off q))); [|lia].
      assert ((rx_pos q + (buffer_size q - rx_off q)) mod buffer_size q = 0) as ->; [|lia].
      unfold rx_pos. rewrite Zplus_mod_idemp_l. replace (rx_off q + _) with (1 * buffer_size q) by lia. apply Z_mod_mult. }
    assert ((rx_pos q + (buffer_size q - rx_off q)) mod buffer_size q = 0) as Ez.
    { unfold rx_pos. rewrite Zplus_mod_idemp_l. replace (rx_off q + _) with (1 * buffer_size q) by lia. apply Z_mod_mult. }
    rewrite Ez in E2. destruct (Hwf s1 K1 c1 S1 Hst _ _ _ E2) as (s2 & -> & K2 & S2 & Q2). osimpl.
    exists s2, c2. replace (buffer_size q - rx_off q + (k - (buffer_size q - rx_off q))) with k in V2 by lia.
    assert (sc_status c2 = sc_status c1 /\ sc_ctx c2 = sc_ctx c1) as [G1 G2] by by (unfold add_received in E2; run_inv E2; subst).
    split_and!; try done; [|by rewrite G1].
    unfold same_lib in *. destruct Q1 as (? & ? & ? & ? & ?), Q2 as (? & ? & ? & ? & ?). split_and!; congruence.
  - cbn [handle_events handle_event].
    destruct (ev_received_ok s p so _ _ _ K Hp Hl Ht Hst (Hfirst (q_buf q (rx_off q)) k)) as (s1 & -> & K1 & S1 & Q1). osimpl.
    eexists s1, _. split_and!; try done. unfold rx_pos. rewrite Z.mod_small by lia. constructor; simpl; done || lia.
Qed.

(** C7. From the network to the application: when the application has read all of a
    connection and an update announces [k] bytes, the one or two events make the
    socket readable for every epoll that waits for it, and a read of up to [len]
    bytes returns at once with the next bytes of the stream, as many as there are
    and fit; they leave the receive queue, and what remains is what the next
    read gets. *)
Theorem update_then_read s fd p so c q f l k len
  (Hfd : 0 <= fd < MAXSOCK) (Hfh : ss_fhs s !! fd = Some (FH_SOCKET p)) (Hp : ss_socks s !! p = Some so)
  (Hl : so_lock so = false) (Ht : so_type so = SOCK_CONNECTION) (Hst : sc_status (so_conn so) = SOC_CONNECTED)
  (Hctx : sc_ctx (so_conn so) = ctx) (Hread : rx_len_1 (so_conn so) = 0) (Hw : 0 <= rx_buf_2 (so_conn so) < 18446744073709551616)
  (K : epoll_inv s) (Hc : lb_conns (ss_lib s) !! p = Some c) (Hq : lb_qs (ss_lib s) !! fc_rx c = Some q) (R : rep q f)
  (Ha : 0 <= self q /\ self q + SIZEOF_RDMA_QUEUE + buffer_size q < 18446744073709551616)
  (B : bumps (bview (ss_lib s)) l) (Hk : 0 < k <= Z.of_nat (length (visible f))) (Hlen : 0 < len) :
  exists s1 so1 s2, handle_events poll_cycle_tas s (received_events q k p) = Ok s1 /\ epoll_inv s1 /\
    ss_socks s1 !! p = Some so1 /\ has_any (ep_events so1) EPOLLIN = true /\
    tas_read remote flexnic_mem poll_cycle_tas poll_cycle_app ctx s1 fd len =
      Ok (Z.min len k, take (Z.to_nat (Z.min len k)) (visible f), s2) /\
    received s1 p so1 c q f k (Z.min len k) s2.
Proof.
  destruct (update_ok s p so q f k K Hp Hl Ht Hst R Ha Hread Hw Hk) as (s1 & c1 & E1 & K1 & S1 & Q1 & V1 & G1 & G2).
  destruct Q1 as (Q1 & Q2 & _). exists s1, (arrived so c1).
  assert (Rc : receiver ctx s1 fd p (arrived so c1) c q f l k).
  { constructor; rewrite ?Q1, ?Q2, ?S1; try done; [apply lookup_insert_eq|simpl; congruence]. }
  destruct (read_simple remote flexnic_mem poll_cycle_tas poll_cycle_app ctx s1 fd p (arrived so c1) c q f l k Rc len Hlen) as (s2 & E2 & Rs).
  exists s2. split_and!; try done; [rewrite S1; apply lookup_insert_eq|].
  unfold has_any. simpl. apply negb_true_iff, Z.eqb_neq. intros E. apply (f_equal (fun x => Z.testbit x 0)) in E.
  rewrite Z.land_spec, Z.lor_spec in E. change (Z.testbit EPOLLIN 0) with true in E. by rewrite orb_true_r in E.
Qed.
End Arrived.

(** Code bug: a second update that is polled before the application has read points
    to the same bytes again, as the queue has not moved: they are taken for new bytes
    and are read twice. A third update ends the process. *)
Lemma stale_updates q (c : socket_conn) o n k1 k2 :
  0 < buffer_size q < 2147483648 -> 0 <= self q /\ self q + SIZEOF_RDMA_QUEUE + buffer_size q < 18446744073709551616 ->
  rx_view q c o n -> 0 < n -> o + n <= buffer_size q -> rx_buf_2 c = 0 -> 0 < k1 -> o + k1 <= buffer_size q ->
  exists c1, add_received c (q_buf q o) k1 = Ok c1 /\ rx_buf_2 c1 = rx_buf_1 c /\ rx_len_2 c1 = k1 /\
    add_received c1 (q_buf q o) k2 = Stop Aborted.
Proof.
  intros Hb Ha [Ho Hn E1 E2 B1 _ _] H0 Hin Hz Hk Hk1. specialize (B1 H0). rewrite Z.min_l in E1, E2 by lia.
  assert (Hne : forall x y, 0 <= x <= buffer_size q -> 0 <= y <= buffer_size q -> x <> y -> q_buf q x <> q_buf q y).
  { intros x y Hx Hy Hxy E. apply Hxy. rewrite <- (q_buf_off q Ha x Hx), <- (q_buf_off q Ha y Hy). congruence. }
  assert (H1 : q_buf q o <> 0) by (unfold q_buf, SIZEOF_RDMA_QUEUE, OFFSETOF_BUFFER in *; rewrite u64_small by lia; lia).
  exists (with_piece_2 c (q_buf q o) k1). unfold add_received. simpl. rewrite E1, E2, Hz, B1, Z.sub_diag.
  rewrite (proj2 (Z.eqb_neq n 0)) by lia. rewrite (proj2 (Z.eqb_neq k1 0)) by lia. rewrite !(q_buf_add q Ha) by lia.
  rewrite (proj2 (Z.eqb_neq (q_buf q o) (q_buf q (o + n)))) by (apply Hne; lia).
  rewrite (proj2 (Z.eqb_neq (q_buf q o) (q_buf q (o + k1)))) by (apply Hne; lia).
  change (u64 (0 + 0)) with 0. rewrite (proj2 (Z.eqb_neq (q_buf q o) 0)) by done. done.
Qed.

(** ** An example *)
Module RecvEx.
Definition so0 : socket := default socket_zero (ss_socks SockEx.s3 !! 1).
Definition conn_of (st : conn_status) (b1 n1 b2 n2 : Z) : socket_conn := mk_sconn st 0 None b1 b2 n1 n2 7 0.
Definition so : socket := with_conn (with_so_type so0 SOCK_CONNECTION) (conn_of SOC_CONNECTED 0 0 0 0).
(** The socket of the other example is connected. *)
Definition s : sock_state peer := put_sock SockEx.s3 1 so.
Definition q := Demo.q64 10 26 26.

Lemma s_epolls : epoll_inv s.
Proof.
  pose proof (steps_inv None 0 8192 8192 1000 1000 7 _ _ SockEx.steps (start_inv _)) as I.
  destruct (si_epoll _ _ _ _ I) as (a & b & K). exists a, b.
  assert (E : ss_socks SockEx.s3 !! 1 = Some so0) by (vm_compute; reflexivity).
  exact (epoll_ok_plain SockEx.s3 a b 1 so0 so K E eq_refl eq_refl).
Qed.
Lemma q_addr : 0 <= self q /\ self q + SIZEOF_RDMA_QUEUE + buffer_size q < 18446744073709551616.
Proof. split; vm_compute; congruence. Qed.

(** The same with ten bytes announced. *)
Definition so_ten : socket := with_conn so (conn_of SOC_CONNECTED (q_buf q 10) 10 0 0).
Definition s_ten : sock_state peer := put_sock s 1 so_ten.
Lemma lib_s : ss_lib s = LibEx.idle.
Proof. vm_compute. reflexivity. Qed.
Lemma lib_ten : ss_lib s_ten = LibEx.idle.
Proof. exact lib_s. Qed.
Lemma ten : receiver 7 s_ten 3 1 so_ten (LibEx.conn 1 5 None false) q (Demo.zeros 16 0) [] 10.
Proof.
  constructor; try (vm_compute; reflexivity).
  - split; vm_compute; congruence.
  - exact LibEx.rep_sixteen.
  - exact q_addr.
  - rewrite lib_ten. exact LibEx.idle_bumps.
  - constructor; try (vm_compute; reflexivity); try (split; vm_compute; congruence); intros Hx; vm_compute in Hx; (discriminate || (vm_compute; reflexivity)).
  - split; vm_compute; congruence.
Qed.
End RecvEx.

Lemma update_then_read_witness :
  exists s1 so1 s2, handle_events 1000 RecvEx.s (received_events RecvEx.q 16 1) = Ok s1 /\ epoll_inv s1 /\
    ss_socks s1 !! 1 = Some so1 /\ has_any (ep_events so1) EPOLLIN = true /\
    tas_read None 0 1000 1000 7 s1 3 9 = Ok (9, replicate 9 0, s2) /\
    received s1 1 so1 (LibEx.conn 1 5 None false) RecvEx.q (Demo.zeros 16 0) 16 9 s2.
Proof.
  apply (update_then_read None 0 1000 1000 7 RecvEx.s 3 1 RecvEx.so (LibEx.conn 1 5 None false) RecvEx.q (Demo.zeros 16 0) [] 16 9);
    try (vm_compute; reflexivity); try (split; vm_compute; congruence).
  - exact RecvEx.s_epolls.
  - exact LibEx.rep_sixteen.
  - rewrite RecvEx.lib_s. exact LibEx.idle_bumps.
Defined.

Lemma recvmsg_scatters_witness :
  exists s', tas_recvmsg None 0 1000 1000 7 RecvEx.s_ten 3 [4; 0; 3; 8] = Ok (10, [replicate 4 0; []; replicate 3 0; replicate 3 0], s') /\
    concat (scatter [4; 0; 3; 8] (replicate 10 0)) = replicate 10 0 /\
    received RecvEx.s_ten 1 RecvEx.so_ten (LibEx.conn 1 5 None false) RecvEx.q (Demo.zeros 16 0) 10 10 s'.
Proof.
  apply (recvmsg_scatters None 0 1000 1000 7 RecvEx.s_ten 3 1 RecvEx.so_ten (LibEx.conn 1 5 None false) RecvEx.q (Demo.zeros 16 0) []
    10 RecvEx.ten [4; 0; 3; 8]); [repeat constructor; lia|split; vm_compute; reflexivity].
Defined.
