(* ===== verification/SockSend.v ===== *)
(** * The socket library: what is sent

    Sending writes the bytes of the application to the space it gets in the send
    queue, whether they come from one buffer or from several, and hands them to the
    fast path in order. *)
From S2P Require Import Prelude RdmaQueue Packets Util LibTas LibPoll SockState SockReady SockCtx SockCtl.
From S2P Require Import SockXfer LibSpec LibPollSpec LibData SockReadySpec SockEpollInv SockInv SockEpollCalls SockCalls SockRecv.

#[local] Open Scope Z_scope.

(** ** Writing a vector to two pieces *)

Lemma mem_write_prefix b pos src b' :
  mem_write b pos src = Ok b' ->
  take (Z.to_nat pos + length src) b' = take (Z.to_nat pos) b ++ src /\ length b' = length b.
Proof.
  intros W. split; [|by eapply mem_write_length]. unfold mem_write in W. inv_ok. subst b'. bprop.
  rewrite app_assoc, take_app_le, take_ge; rewrite ?length_app, ?length_take; [done|lia..].
Qed.

Lemma take_app_split {A} (l1 l2 : list A) n : (length l1 <= n)%nat -> take n (l1 ++ l2) = l1 ++ take (n - length l1) l2.
Proof. intros. rewrite take_app. by rewrite take_ge by lia. Qed.

Lemma split_write_prefix src l p1 p2 off (d : list Z) :
  let n1 := Z.of_nat (length p1) in let n2 := Z.of_nat (length p2) in
  0 <= off -> 0 <= l <= Z.of_nat (length src) -> off + l <= n1 + n2 -> n1 + n2 < 18446744073709551616 ->
  take (Z.to_nat off) (p1 ++ p2) = d ->
  exists p1' p2', Circ.split_write src l p1 p2 n1 n2 off = Ok (p1', p2') /\ length p1' = length p1 /\ length p2' = length p2 /\
    take (Z.to_nat (off + l)) (p1' ++ p2') = d ++ take (Z.to_nat l) src.
Proof.
  intros n1 n2 Ho Hl Hfit Hw Hd. unfold Circ.split_write. rewrite (u64_small (l + off)), (u64_small (n1 + n2)), (u64_small (off + l)) by lia.
  rewrite bind_assert_true by (apply Z.leb_le; lia). assert (length (take (Z.to_nat l) src) = Z.to_nat l) as Lt by (rewrite length_take; lia).
  destruct (Z.leb_spec (off + l) n1) as [H1|H1].
  - rewrite mem_read_Ok by lia. osimpl. rewrite drop_0.
    destruct (mem_write p1 off (take (Z.to_nat l) src)) as [b1|] eqn:W; [|rewrite mem_write_Ok in W by lia; done]. osimpl.
    destruct (mem_write_prefix _ _ _ _ W) as [P1 P2]. exists b1, p2. split_and!; try done.
    rewrite take_app_le by lia. rewrite Lt in P1. replace (Z.to_nat (off + l)) with (Z.to_nat off + Z.to_nat l)%nat by lia.
    rewrite P1. f_equal. rewrite <- Hd. by rewrite take_app_le by lia.
  - destruct (Z.geb_spec off n1) as [H2|H2].
    + rewrite mem_read_Ok by lia. osimpl. rewrite drop_0, (u64_small (off - n1)) by lia.
      destruct (mem_write p2 (off - n1) (take (Z.to_nat l) src)) as [b2|] eqn:W; [|rewrite mem_write_Ok in W by lia; done]. osimpl.
      destruct (mem_write_prefix _ _ _ _ W) as [P1 P2]. exists p1, b2. split_and!; try done.
      rewrite take_app_split by lia. rewrite Lt in P1.
      replace (Z.to_nat (off + l) - length p1)%nat with (Z.to_nat (off - n1) + Z.to_nat l)%nat by lia. rewrite P1, app_assoc. f_equal.
      rewrite <- Hd, take_app_split by lia. do 2 f_equal. lia.
    + rewrite !(u64_small (n1 - off)), (u64_small (l - (n1 - off))) by lia. rewrite (mem_read_Ok src 0) by lia. osimpl. rewrite drop_0.
      assert (length (take (Z.to_nat (n1 - off)) src) = Z.to_nat (n1 - off)) as L1 by (rewrite length_take; lia).
      destruct (mem_write p1 off (take (Z.to_nat (n1 - off)) src)) as [b1|] eqn:W; [|rewrite mem_write_Ok in W by lia; done]. osimpl.
      destruct (mem_write_prefix _ _ _ _ W) as [P1 P2]. rewrite mem_read_Ok by lia. osimpl.
      set (rest := take (Z.to_nat (l - (n1 - off))) (drop (Z.to_nat (n1 - off)) src)).
      assert (length rest = Z.to_nat (l - (n1 - off))) as Lr by (unfold rest; rewrite length_take, length_drop; lia).
      destruct (mem_write p2 0 rest) as [b2|] eqn:W2; [|rewrite mem_write_Ok in W2 by lia; done]. osimpl.
      destruct (mem_write_prefix _ _ _ _ W2) as [P3 P4]. exists b1, b2. split_and!; try done.
      rewrite take_app_split by lia. rewrite Lr in P3. rewrite L1, take_ge in P1 by lia.
      replace (Z.to_nat (off + l) - length b1)%nat with (Z.to_nat 0 + Z.to_nat (l - (n1 - off)))%nat by lia.
      rewrite P3, P1. change (Z.to_nat 0) with 0%nat. rewrite take_0. cbn [app]. rewrite <- app_assoc. f_equal.
      * rewrite <- Hd. by rewrite take_app_le by lia.
      * unfold rest. rewrite take_take_drop. f_equal. lia.
Qed.

Lemma copy_in_vec_prefix iov : forall p1 p2 len off d,
  let n1 := Z.of_nat (length p1) in let n2 := Z.of_nat (length p2) in
  0 <= off -> 0 <= len <= Z.of_nat (length (concat iov)) -> off + len <= n1 + n2 -> n1 + n2 < 18446744073709551616 ->
  take (Z.to_nat off) (p1 ++ p2) = d ->
  exists p1' p2', copy_in_vec iov p1 p2 n1 n2 len off = Ok (p1', p2') /\ length p1' = length p1 /\ length p2' = length p2 /\
    take (Z.to_nat (off + len)) (p1' ++ p2') = d ++ take (Z.to_nat len) (concat iov).
Proof.
  induction iov as [|b iov IH]; intros p1 p2 len off d n1 n2 Ho Hl Hfit Hw Hd; cbn [copy_in_vec concat] in *.
  - simpl in Hl. exists p1, p2. split_and!; try done. replace len with 0 by lia. by rewrite Z.add_0_r, take_nil, app_nil_r.
  - rewrite length_app in Hl. destruct (Z.gtb_spec len 0) as [Hp|Hz].
    2:{ exists p1, p2. replace len with 0 by lia. rewrite Z.add_0_r, take_0, app_nil_r. done. }
    set (l := MIN len (Z.of_nat (length b))). assert (l = Z.min len (Z.of_nat (length b))) as El by (unfold l, MIN; bsplit; lia).
    destruct (split_write_prefix b l p1 p2 off d) as (q1 & q2 & E & L1 & L2 & P); try lia; [done|].
    fold n1 n2 in E. rewrite E. osimpl.
    destruct (IH q1 q2 (len - l) (off + l) (d ++ take (Z.to_nat l) b)) as (r1 & r2 & E' & L1' & L2' & P'); rewrite ?L1, ?L2; try lia; [done|].
    rewrite L1, L2 in E'. fold n1 n2 in E'. exists r1, r2. split_and!; [done|congruence|congruence|].
    replace (off + l + (len - l)) with (off + len) in P' by lia. rewrite P', <- app_assoc. f_equal.
    rewrite take_app. destruct (decide (len <= Z.of_nat (length b))) as [Hb|Hb].
    + replace (len - l) with 0 by lia. rewrite take_0, app_nil_r. replace l with len by lia.
      replace (Z.to_nat len - length b)%nat with 0%nat by lia. by rewrite take_0, app_nil_r.
    + rewrite !(take_ge b) by lia. f_equal. f_equal. lia.
Qed.

Section Vector.
Context (q : rdma_queue) (f : fifo) (R : rep q f).
Context (Haddr : 0 <= self q /\ self q + SIZEOF_RDMA_QUEUE + buffer_size q < 18446744073709551616).

(** Copying a vector of buffers into the space that was granted, across the end
    of the ring or not, is copying the one buffer with the same bytes. *)
Lemma copy_in_fill iov n
  (Hn : 0 < n <= Z.of_nat (length (concat iov))) (Hfit : n <= buffer_size q) :
  let wraps := tx_off q + n >? buffer_size q in
  let n1 := if wraps then buffer_size q - tx_off q else n in
  let b2 := if wraps then Some (q_buf q 0) else None in
  copy_in q (q_buf q (tx_off q)) n1 b2 (n - n1) iov n =
  app_fill q (q_buf q (tx_off q)) n1 b2 (take (Z.to_nat n) (concat iov)).
Proof.
  intros wraps n1 b2. pose proof (rep_bs q f R) as Hbs. pose proof (rep_buf q f R) as Hb. pose proof (rep_tx_range q f R) as Ht.
  unfold RDMA_QUEUE_PAD in *. assert (Hn1 : 0 <= n1 <= n /\ tx_off q + n1 <= buffer_size q) by (unfold n1, wraps; bsplit; lia).
  unfold copy_in, app_fill. rewrite (q_buf_off q Haddr) by lia. rewrite mem_read_Ok by lia. osimpl.
  set (p1 := take (Z.to_nat n1) _). assert (Z.of_nat (length p1) = n1) as L1 by (unfold p1; rewrite length_take, length_drop; lia).
  assert (Hp2 : exists p2, match b2 with Some d => mem_read (buffer q) (d - q_buf q 0) (n - n1) | None => mret [] end = Ok p2 /\
    Z.of_nat (length p2) = n - n1).
  { unfold b2, n1 in *. destruct wraps eqn:Ew; [|exists []; split; [done|simpl; lia]].
    rewrite (q_buf_off q Haddr) by lia. rewrite mem_read_Ok by lia. eexists. split; [done|]. rewrite length_take, length_drop. lia. }
  destruct Hp2 as (p2 & -> & L2). osimpl.
  destruct (copy_in_vec_prefix iov p1 p2 n 0 []) as (r1 & r2 & E & M1 & M2 & P); try lia; [done|].
  rewrite L1, L2 in E. rewrite E. osimpl. rewrite Z.add_0_l in P. cbn [app] in P.
  rewrite take_ge in P by (rewrite length_app; lia).
  rewrite <- P, take_app_length', drop_app_length' by lia. done.
Qed.
End Vector.

(** ** Sending from a socket *)
Section Send.
Context {L : Type} `{RdmaLink L}.
Context (remote : option rdma_env) (flexnic_mem poll_cycle_tas poll_cycle_app ctx : Z).
Abbreviation state := (sock_state L).
Context (s : state) (fd p : Z) (so : socket) (c : flextcp_connection) (q : rdma_queue) (f : fifo) (l : list Z).

(** [fd] is a connection of this thread that is open for sending. *)
Record sender : Prop := {
  sn_fd : 0 <= fd < MAXSOCK;
  sn_fh : ss_fhs s !! fd = Some (FH_SOCKET p);
  sn_sock : ss_socks s !! p = Some so;
  sn_lock : so_lock so = false;
  sn_type : so_type so = SOCK_CONNECTION;
  sn_status : sc_status (so_conn so) = SOC_CONNECTED;
  sn_ctx : sc_ctx (so_conn so) = ctx;
  sn_open : has_all (sc_flags (so_conn so)) CSTF_TXCLOSED = false;
  sn_conn : lb_conns (ss_lib s) !! p = Some c;
  sn_queue : lb_qs (ss_lib s) !! fc_tx c = Some q;
  sn_rep : rep q f;
  sn_txeos : has_all (fc_flags c) CONN_FLAG_TXEOS = false;
  sn_addr : 0 <= self q /\ self q + SIZEOF_RDMA_QUEUE + buffer_size q < 18446744073709551616;
  sn_bumps : bumps (bview (ss_lib s)) l;
  sn_none : txb_allocated c = 0;
}.

(** How much of [total] bytes is taken. *)
Definition send_len (total : Z) : Z := Z.min total (grant q f).

(** What sending [d] leaves behind: only the library has changed. *)
Definition sent_data (d : list Z) (s' : state) : Prop :=
  exists c' q' l', s' = set_lib s (ss_lib s') /\
    lb_qs (ss_lib s') = <[fc_tx c := q']> (lb_qs (ss_lib s)) /\ rep q' (mk_fifo (visible f) (pending f ++ d)) /\
    lb_conns (ss_lib s') !! p = Some c' /\ txb_bump c' = txb_bump c + Z.of_nat (length d) /\ txb_allocated c' = 0 /\
    bumps (bview (ss_lib s')) l' /\ p ∈ l'.

(** The call up to the point where the data is in the queue and is handed over. *)
Lemma transmit_fills (total : Z) copy q1 :
  sender -> 0 < total -> let r := send_len total in
  let wraps := tx_off q + r >? buffer_size q in
  let n1 := if wraps then buffer_size q - tx_off q else r in
  let b2 := if wraps then Some (q_buf q 0) else None in
  let lib := put_fc (ss_lib s) p (granted c r) in
  0 < r -> copy q (r, q_buf q (tx_off q), n1, b2) = Ok q1 ->
  transmit remote flexnic_mem poll_cycle_tas poll_cycle_app ctx s fd total copy =
    (s' ← tx_send_loop remote flexnic_mem poll_cycle_tas poll_cycle_app (S (length (ss_rounds s)))
       (set_lib (put_sock s p (with_so_lock so true)) (LibTas.set_qs lib (<[fc_tx c := q1]> (lb_qs lib)))) p r false;
     out s' p r).
Proof.
  intros [Hfd Hfh Hp Hlock Ht Hst Hctx Hopen Hc Hq R Heos Ha B Hz] Htot r wraps n1 b2 lib Hr Hcopy.
  set (so1 := with_so_lock so true). set (s1 := put_sock s p so1).
  assert (E1 : flextcp_fd_slookup s fd = Ok (Some p, s1)) by (by apply slookup_ok).
  assert (Hp1 : ss_socks s1 !! p = Some so1) by apply lookup_insert_eq.
  pose proof (move_own remote flexnic_mem poll_cycle_tas poll_cycle_app ctx s1 p so1 Hp1 Ht Hst Hctx) as E2.
  unfold transmit. rewrite E1. osimpl. rewrite E2. osimpl. rewrite (sock_at_ok _ _ _ Hp1). osimpl.
  assert (negb (is_type so1 SOCK_CONNECTION) || negb (is_status so1 SOC_CONNECTED) || has_all (sc_flags (so_conn so1)) CSTF_TXCLOSED = false) as ->
    by (unfold is_type, is_status, so1; simpl; by rewrite Ht, Hst, Hopen).
  destruct (Z.eqb_spec total 0); [lia|]. unfold flextcp_connection_tx_possible. rewrite Z.eqb_refl, andb_false_r.
  pose proof (tx_alloc2_local p c q f (ss_lib s) Hc Hq R Heos total ltac:(lia)) as Al. cbv zeta in Al.
  fold (send_len total) r wraps n1 b2 lib in Al.
  unfold tx_alloc. change (ss_lib s1) with (ss_lib s). rewrite Al. osimpl.
  destruct (Z.ltb_spec r 0); [lia|]. osimpl. destruct (Z.eqb_spec r 0); [lia|]. osimpl.
  unfold put_tx_queue. change (ss_lib (set_lib s1 ?x)) with x.
  rewrite (proj2 (fc_at_Ok lib p (granted c r))) by apply lookup_insert_eq. osimpl.
  change (fc_tx (granted c r)) with (fc_tx c). rewrite (q_at_Ok lib (fc_tx c) q) by exact Hq. osimpl.
  rewrite Hcopy. done.
Qed.

Lemma transmit_spec (total : Z) copy (data : list Z) :
  sender -> 0 < total -> let r := send_len total in
  0 < r -> r <= buffer_size q - RDMA_QUEUE_PAD - fifo_size f -> Z.of_nat (length data) = r ->
  0 <= txb_bump c + r < 4294967296 ->
  (let wraps := tx_off q + r >? buffer_size q in
   let n1 := if wraps then buffer_size q - tx_off q else r in
   let b2 := if wraps then Some (q_buf q 0) else None in
   copy q (r, q_buf q (tx_off q), n1, b2) = app_fill q (q_buf q (tx_off q)) n1 b2 data) ->
  exists s', transmit remote flexnic_mem poll_cycle_tas poll_cycle_app ctx s fd total copy = Ok (r, s') /\ sent_data data s'.
Proof.
  intros Sn Htot r Hr Hroom Hlen Hbump Hcopy. pose proof Sn as [Hfd Hfh Hp Hlock Ht Hst Hctx Hopen Hc Hq R Heos Ha B Hz].
  destruct (tx_data_path p c q f (ss_lib s) Hc Hq R Heos Ha data l B) as (b1 & n1 & b2 & t1 & q1 & t2 & c2 & q2 & l2 & A1 & A2 & A3 & A4 & A5 & A6 & A7 & A8 & A9 & A10 & A11);
    rewrite ?Hlen; try done.
  rewrite Hlen in A1, A3, A8.
  pose proof (tx_alloc2_local p c q f (ss_lib s) Hc Hq R Heos r ltac:(lia)) as Ar. cbv zeta in Ar.
  assert (Z.min r (grant q f) = r) as Er by (unfold r, send_len; lia). rewrite Er, A1 in Ar. injection Ar as Eb1 En1 Eb2 Et1.
  cbv zeta in Hcopy. rewrite <- Eb1, <- En1, <- Eb2, A2 in Hcopy. rewrite En1, Eb1, Eb2 in Hcopy.
  rewrite (transmit_fills total copy q1 Sn Htot Hr Hcopy). fold r. rewrite <- Et1.
  cbn [tx_send_loop]. change (ss_lib (set_lib _ ?x)) with x. rewrite A3. osimpl. rewrite Z.eqb_refl. osimpl.
  set (so1 := with_so_lock so true).
  assert (Hp1 : ss_socks (put_sock s p so1) !! p = Some so1) by apply lookup_insert_eq.
  unfold out, flextcp_fd_srelease, socket_unlock. rewrite (sock_at_ok _ p so1) by exact Hp1. osimpl.
  eexists. split; [reflexivity|]. exists c2, q2, l2. split_and!; try done; [|by rewrite Hlen].
  unfold put_sock, set_socks, set_lib. simpl. f_equal. rewrite insert_insert_eq. apply insert_id. rewrite Hp. unfold so1. by destruct so; simpl in *; subst.
Qed.

(** More than the queue has room for is granted, but the thread stops when it hands
    it over. *)
Lemma transmit_aborts (total : Z) copy (data : list Z) :
  sender -> 0 < total -> let r := send_len total in
  0 < r -> buffer_size q - RDMA_QUEUE_PAD - fifo_size f < r -> Z.of_nat (length data) = r ->
  (let wraps := tx_off q + r >? buffer_size q in
   let n1 := if wraps then buffer_size q - tx_off q else r in
   let b2 := if wraps then Some (q_buf q 0) else None in
   copy q (r, q_buf q (tx_off q), n1, b2) = app_fill q (q_buf q (tx_off q)) n1 b2 data) ->
  transmit remote flexnic_mem poll_cycle_tas poll_cycle_app ctx s fd total copy = Stop AssertFailed.
Proof.
  intros Sn Htot r Hr Hroom Hlen Hcopy. pose proof (sn_rep Sn) as R.
  pose proof (grant_free q f R). pose proof (grant_range q f R). pose proof (rep_bs q f R).
  assert (r <= grant q f) as Hg by (unfold r, send_len; lia).
  destruct (app_fill_spec q f R (sn_addr Sn) data ltac:(lia)) as (b & Hfill & Hlb & Hold & _).
  rewrite Hlen in Hfill. cbv zeta in Hcopy. rewrite Hfill in Hcopy.
  rewrite (transmit_fills total copy _ Sn Htot Hr Hcopy). fold r. cbn [tx_send_loop]. change (ss_lib (set_lib _ ?x)) with x.
  rewrite (tx_send_refused p f _ (granted c r) (q <| buffer := b |>)); try done.
  - apply lookup_insert_eq.
  - simpl. rewrite (sn_none Sn), u32_small; lia.
  - apply lookup_insert_eq.
  - by apply rep_refill.
Qed.

Lemma send_len_range total : sender -> 0 < total -> 0 <= send_len total <= buffer_size q.
Proof. intros Sn Ht. pose proof (grant_range q f (sn_rep Sn)). unfold send_len. lia. Qed.

(** C8. Writing to a connection with space in its send queue returns at once with the
    number of bytes taken, all of them when there is space for all; they are appended
    to the stream in order, whether they come from one buffer or from a vector, and
    the fast path is going to be told of them. While the device has not taken all,
    the code takes the padding of the queue for free space too: a write that needs
    a part of it stops the thread, by a failed assertion. *)
Theorem write_appends iov (Sn : sender) :
  let data := concat iov in let total := Z.of_nat (length data) in let r := send_len total in
  0 < r -> total < 18446744073709551616 -> 0 <= txb_bump c + r < 4294967296 ->
  if r <=? buffer_size q - RDMA_QUEUE_PAD - fifo_size f then
    (exists s', tas_write remote flexnic_mem poll_cycle_tas poll_cycle_app ctx s fd data = Ok (r, s') /\
      sent_data (take (Z.to_nat r) data) s') /\
    (exists s', tas_sendmsg remote flexnic_mem poll_cycle_tas poll_cycle_app ctx s fd iov = Ok (r, s') /\
      sent_data (take (Z.to_nat r) data) s')
  else
    tas_write remote flexnic_mem poll_cycle_tas poll_cycle_app ctx s fd data = Stop AssertFailed /\
    tas_sendmsg remote flexnic_mem poll_cycle_tas poll_cycle_app ctx s fd iov = Stop AssertFailed.
Proof.
  intros data total r Hr Ht Hb.
  assert (Hle : r <= total) by (unfold r, send_len; lia).
  assert (Hlen : Z.of_nat (length (take (Z.to_nat r) data)) = r) by (rewrite length_take; lia).
  pose proof (rep_bs q f (sn_rep Sn)). pose proof (grant_range q f (sn_rep Sn)).
  assert (Hg : r <= grant q f) by (unfold r, send_len; lia).
  assert (Hsum : sum_list ((fun b => Z.of_nat (length b)) <$> iov) = total).
  { unfold total, data, sum_list. clear. induction iov as [|b iov IH]; [done|].
    rewrite fmap_cons. cbn [foldr concat]. rewrite IH, length_app. lia. }
  pose proof (copy_in_fill q f (sn_rep Sn) (sn_addr Sn) iov r ltac:(fold data; lia) ltac:(lia)) as Hcopy.
  unfold tas_write, send_simple, tas_sendmsg. rewrite Hsum, u64_small by lia. fold data total.
  destruct (Z.leb_spec r (buffer_size q - RDMA_QUEUE_PAD - fifo_size f)) as [Hfit|Hno]; split.
  - by apply (transmit_spec total _ (take (Z.to_nat r) data) Sn); fold r; try lia.
  - by apply (transmit_spec total _ (take (Z.to_nat r) data) Sn); fold r; try lia.
  - by apply (transmit_aborts total _ (take (Z.to_nat r) data) Sn); fold r; try lia.
  - by apply (transmit_aborts total _ (take (Z.to_nat r) data) Sn); fold r; try lia.
Qed.
End Send.

Arguments sender {L} ctx s fd p so c q f l : assert.

Module SendEx.
Definition c := LibEx.conn 1 5 None false.
Definition q := Demo.q64 10 20 25.
Lemma sends : sender 7 RecvEx.s 3 1 RecvEx.so c q (Demo.zeros 10 5) [].
Proof.
  constructor; try (vm_compute; reflexivity).
  - split; vm_compute; congruence.
  - exact Demo.rep_mid.
  - split; vm_compute; congruence.
  - rewrite RecvEx.lib_s. exact LibEx.idle_bumps.
Qed.
End SendEx.

Lemma write_appends_witness :
  (exists s', tas_write None 0 1000 1000 7 RecvEx.s 3 [7; 8; 9; 4; 5] = Ok (5, s') /\
    sent_data RecvEx.s 1 SendEx.c (Demo.zeros 10 5) [7; 8; 9; 4; 5] s') /\
  (exists s', tas_sendmsg None 0 1000 1000 7 RecvEx.s 3 [[7; 8; 9]; []; [4; 5]] = Ok (5, s') /\
    sent_data RecvEx.s 1 SendEx.c (Demo.zeros 10 5) [7; 8; 9; 4; 5] s').
Proof.
  apply (write_appends None 0 1000 1000 7 RecvEx.s 3 1 RecvEx.so SendEx.c SendEx.q (Demo.zeros 10 5) [] [[7; 8; 9]; []; [4; 5]] SendEx.sends);
    [split; vm_compute; congruence|vm_compute; reflexivity|split; vm_compute; congruence].
Defined.
