(* ===== verification/SockErr.v ===== *)
(** * The socket library: calls that are refused

    Calls on a descriptor that is no socket, calls on a socket without a connection
    and descriptors that cannot be added to an epoll change nothing but [errno]. Also
    the behaviours where the code, refusing, ends the process or loses a lock. *)
From S2P Require Import Prelude RdmaQueue Packets LibTas LibPoll SockState SockReady SockCtx SockCtl SockOpen.
From S2P Require Import SockPoll SockXfer LibSpec LibData SockReadySpec SockEpollInv SockInv SockEpollCalls SockCalls SockRecv.

#[local] Open Scope Z_scope.

Section Errors.
Context {L : Type} `{RL : RdmaLink L}.
Context (remote : option rdma_env) (flexnic_mem tcp_rxbuf_len tcp_txbuf_len poll_cycle_tas poll_cycle_app ctx : Z).
Abbreviation state := (sock_state L).
Implicit Types (s : state) (p fd : Z).

(** [fd] is not a socket of the library. *)
Definition no_socket s fd : Prop := 0 <= fd /\ (MAXSOCK <= fd \/ forall p, ss_fhs s !! fd <> Some (FH_SOCKET p)).

Lemma slookup_bad s fd : no_socket s fd -> flextcp_fd_slookup s fd = Ok (None, set_errno s EBADF).
Proof.
  intros [H0 Hn]. unfold flextcp_fd_slookup, fh_at. destruct (Z.geb_spec fd MAXSOCK); [done|].
  rewrite (proj2 (Z.ltb_ge _ _)) by lia. simpl. destruct Hn as [?|Hn]; [lia|].
  destruct (ss_fhs s !! fd) as [[p|p]|] eqn:E; simpl; [by destruct (Hn p)|done|done].
Qed.

(** Every call on a descriptor that is not a socket fails with EBADF, and
    changes nothing else. *)
Lemma no_socket_refused s fd (Hn : no_socket s fd) :
  let r := set_errno s EBADF in
  (forall addr fam n, tas_bind s fd addr fam n = Ok (-1, r)) /\
  (forall addr fam n m, tas_connect remote flexnic_mem tcp_rxbuf_len tcp_txbuf_len poll_cycle_tas poll_cycle_app ctx s fd addr fam n m = Ok (-1, r)) /\
  (forall n, tas_listen remote flexnic_mem poll_cycle_tas poll_cycle_app s fd n = Ok (-1, r)) /\
  (forall n flags m, tas_accept4 remote flexnic_mem tcp_rxbuf_len tcp_txbuf_len poll_cycle_tas poll_cycle_app ctx s fd n flags m = Ok (-1, None, r)) /\
  (forall how, tas_shutdown remote flexnic_mem poll_cycle_tas poll_cycle_app ctx s fd how = Ok (-1, r)) /\
  (forall n, tas_getsockname remote flexnic_mem poll_cycle_tas poll_cycle_app ctx s fd n = Ok (-1, None, r)) /\
  (forall n, tas_getpeername remote flexnic_mem poll_cycle_tas poll_cycle_app ctx s fd n = Ok (-1, None, r)) /\
  (forall cmd arg, tas_fcntl remote flexnic_mem poll_cycle_tas poll_cycle_app ctx s fd cmd arg = Ok (-1, r)) /\
  (forall lv o n, tas_getsockopt remote flexnic_mem poll_cycle_tas poll_cycle_app ctx s fd lv o n = Ok (-1, None, r)) /\
  (forall lv o v n, tas_setsockopt remote flexnic_mem poll_cycle_tas poll_cycle_app ctx s fd lv o v n = Ok (-1, r)) /\
  (forall n, tas_read remote flexnic_mem poll_cycle_tas poll_cycle_app ctx s fd n = Ok (-1, [], r)) /\
  (forall iov, tas_recvmsg remote flexnic_mem poll_cycle_tas poll_cycle_app ctx s fd iov = Ok (-1, [], r)) /\
  (forall d, tas_write remote flexnic_mem poll_cycle_tas poll_cycle_app ctx s fd d = Ok (-1, r)) /\
  (forall iov, tas_sendmsg remote flexnic_mem poll_cycle_tas poll_cycle_app ctx s fd iov = Ok (-1, r)).
Proof.
  intros r. pose proof (slookup_bad s fd Hn) as E. split_and!; intros.
  - unfold tas_bind. by rewrite E.
  - unfold tas_connect. by rewrite E.
  - unfold tas_listen. by rewrite E.
  - unfold tas_accept4. by rewrite E.
  - unfold tas_shutdown. by rewrite E.
  - unfold tas_getsockname. by rewrite E.
  - unfold tas_getpeername. by rewrite E.
  - unfold tas_fcntl. by rewrite E.
  - unfold tas_getsockopt. by rewrite E.
  - unfold tas_setsockopt. by rewrite E.
  - unfold tas_read, recv_simple, receive. by rewrite E.
  - unfold tas_recvmsg, receive. by rewrite E.
  - unfold tas_write, send_simple, transmit. by rewrite E.
  - unfold tas_sendmsg, transmit. by rewrite E.
Qed.

(** [fd] is a socket that is not connected. *)
Record unconnected s fd p (so : socket) : Prop := {
  un_fd : 0 <= fd < MAXSOCK;
  un_fh : ss_fhs s !! fd = Some (FH_SOCKET p);
  un_sock : ss_socks s !! p = Some so;
  un_lock : so_lock so = false;
  un_conn : is_type so SOCK_CONNECTION && is_status so SOC_CONNECTED = false;
}.

(** Taking the lock and giving it back. *)
Lemma out_fail_locked s p so e :
  ss_socks s !! p = Some so -> so_lock so = false ->
  out_fail (put_sock s p (with_so_lock so true)) p e = Ok (-1, set_errno s e).
Proof.
  intros Hp Hl. unfold out_fail, flextcp_fd_srelease, socket_unlock.
  change (set_errno (put_sock s p ?x) e) with (put_sock (set_errno s e) p x).
  rewrite (sock_at_ok _ p (with_so_lock so true)) by apply lookup_insert_eq. simpl.
  unfold put_sock, set_socks. simpl. rewrite insert_insert_eq, insert_id; [done|]. rewrite Hp. by destruct so; simpl in *; subst.
Qed.

Lemma move_unconnected s p so :
  ss_socks s !! p = Some so -> is_type so SOCK_CONNECTION && is_status so SOC_CONNECTED = false ->
  tas_sock_move remote flexnic_mem poll_cycle_tas poll_cycle_app ctx s p = Ok (-1, set_errno s ENOTCONN).
Proof.
  intros Hp Hc. unfold tas_sock_move. rewrite (sock_at_ok _ _ _ Hp). simpl. by rewrite <- negb_andb, Hc.
Qed.

(** Reading, writing and asking for the peer of a socket that is not connected
    fails with ENOTCONN, and changes nothing else: its lock is free again. *)
Theorem unconnected_refused s fd p so (U : unconnected s fd p so) :
  let r := set_errno s ENOTCONN in
  (forall n, tas_read remote flexnic_mem poll_cycle_tas poll_cycle_app ctx s fd n = Ok (-1, [], r)) /\
  (forall iov, tas_recvmsg remote flexnic_mem poll_cycle_tas poll_cycle_app ctx s fd iov = Ok (-1, [], r)) /\
  (forall d, tas_write remote flexnic_mem poll_cycle_tas poll_cycle_app ctx s fd d = Ok (-1, r)) /\
  (forall iov, tas_sendmsg remote flexnic_mem poll_cycle_tas poll_cycle_app ctx s fd iov = Ok (-1, r)) /\
  (forall n, tas_getpeername remote flexnic_mem poll_cycle_tas poll_cycle_app ctx s fd n = Ok (-1, None, r)) /\
  tas_move_conn remote flexnic_mem poll_cycle_tas poll_cycle_app ctx s fd = Ok (-1, r).
Proof.
  destruct U as [Hfd Hfh Hp Hl Hc]. intros r. pose proof (slookup_ok s fd p so Hfd Hfh Hp Hl) as E1.
  set (so1 := with_so_lock so true) in *. set (s1 := put_sock s p so1) in *.
  assert (Hp1 : ss_socks s1 !! p = Some so1) by apply lookup_insert_eq.
  pose proof (move_unconnected s1 p so1 Hp1 Hc) as E2.
  assert (Hn : negb (is_type so1 SOCK_CONNECTION) || negb (is_status so1 SOC_CONNECTED) = true) by (rewrite <- negb_andb; exact (f_equal negb Hc)).
  assert (Hp2 : sock_at (set_errno s1 ENOTCONN) p = Ok so1) by (by apply sock_at_ok).
  assert (E3 : forall e, out_fail (set_errno s1 ENOTCONN) p e = Ok (-1, set_errno s e)) by (intros e; exact (out_fail_locked (set_errno s ENOTCONN) p so e Hp Hl)).
  split_and!; intros.
  - unfold tas_read, recv_simple, receive. rewrite E1. simpl. rewrite E2. simpl. rewrite Hp2. simpl. rewrite Hn, E3. done.
  - unfold tas_recvmsg, receive. rewrite E1. simpl. rewrite E2. simpl. rewrite Hp2. simpl. rewrite Hn, E3. done.
  - unfold tas_write, send_simple, transmit. rewrite E1. simpl. rewrite E2. simpl. rewrite Hp2. simpl. rewrite Hn, E3. done.
  - unfold tas_sendmsg, transmit. rewrite E1. simpl. rewrite E2. simpl. rewrite Hp2. simpl. rewrite Hn, E3. done.
  - unfold tas_getpeername. rewrite E1. simpl. rewrite E2. simpl. rewrite Hp2. simpl. rewrite Hn, E3. done.
  - unfold tas_move_conn. rewrite E1. simpl. rewrite E2. simpl. exact (E3 ENOTCONN).
Qed.

End Errors.

(** ** Code bugs *)
Section Bugs.
Context {L : Type} `{RL : RdmaLink L}.
Context (remote : option rdma_env) (flexnic_mem tcp_rxbuf_len tcp_txbuf_len poll_cycle_tas poll_cycle_app ctx : Z).
Abbreviation state := (sock_state L).
Implicit Types (s : state) (p fd : Z).

(** The socket has one descriptor and is on no epoll. *)
Record alone s fd p (so : socket) : Prop := {
  al_fd : 0 <= fd < MAXSOCK;
  al_fh : ss_fhs s !! fd = Some (FH_SOCKET p);
  al_sock : ss_socks s !! p = Some so;
  al_lock : so_lock so = false;
  al_refs : so_refcnt so = 1;
  al_eps : so_eps so = None;
}.

(** What is left when the last descriptor is gone. *)
Definition closing s fd p (so : socket) : state :=
  set_fhs (put_sock s p (with_so_refcnt (with_so_lock so true) 0)) (delete fd (ss_fhs s)).

Lemma close_alone s fd p so : alone s fd p so ->
  tas_close poll_cycle_tas s fd = ('(_, s) ← tas_sock_close poll_cycle_tas (closing s fd p so) p; mret (0, s)).
Proof.
  intros [Hfd Hfh Hp Hl Hr He]. unfold tas_close. rewrite (slookup_ok s fd p so) by done. simpl.
  unfold flextcp_fd_close, fh_at. rewrite (proj2 (Z.ltb_ge _ _)) by lia. simpl. rewrite Hfh.
  rewrite (sock_at_ok _ p (with_so_lock so true)) by apply lookup_insert_eq. simpl. rewrite Hr.
  assert (E : set_fhs (put_sock (put_sock s p (with_so_lock so true)) p (with_so_refcnt (with_so_lock so true) (1 - 1))) (delete fd (ss_fhs s)) = closing s fd p so)
    by (unfold closing, put_sock, set_socks, set_fhs; simpl; by rewrite insert_insert_eq).
  unfold put_sock in E at 1. simpl in E. unfold put_sock, set_socks, set_fhs in *. simpl in *. rewrite E.
  rewrite (sock_at_ok _ p (with_so_refcnt (with_so_lock so true) 0)) by apply lookup_insert_eq. done.
Qed.

Lemma sockclose_alone s p so : ss_socks s !! p = Some so -> so_eps so = None -> flextcp_epoll_sockclose s p = Ok s.
Proof. intros Hp He. unfold flextcp_epoll_sockclose. cbn [sockclose_loop]. rewrite (sock_at_ok _ _ _ Hp). simpl. by rewrite He. Qed.

(** Code bug: closing a connection right after writing to it ends the process: the
    bytes that the library has not handed to the fast path yet make
    [flextcp_connection_tx_close] fail, and [conn_close] aborts. *)
Lemma write_then_close_aborts s fd p so c q f :
  alone s fd p so -> so_type so = SOCK_CONNECTION ->
  has_any (sc_flags (so_conn so)) CSTF_TXCLOSED_ACK = false -> has_any (sc_flags (so_conn so)) CSTF_TXCLOSED = false ->
  lb_conns (ss_lib s) !! p = Some c -> lb_qs (ss_lib s) !! fc_tx c = Some q -> rep q f -> pending f <> [] ->
  tas_close poll_cycle_tas s fd = Stop Aborted.
Proof.
  intros A Ht Hack Htx Hc Hq R Hp. rewrite (close_alone s fd p so A). unfold tas_sock_close.
  set (so1 := with_so_refcnt (with_so_lock so true) 0).
  assert (Hp1 : ss_socks (closing s fd p so) !! p = Some so1) by apply lookup_insert_eq.
  rewrite (sock_at_ok _ _ _ Hp1). simpl. rewrite (sockclose_alone _ _ _ Hp1) by apply A. simpl.
  unfold is_type. simpl. rewrite Ht. simpl. unfold conn_close. rewrite (upd_conn_put _ _ _ _ Hp1). simpl.
  set (so2 := with_conn _ _). rewrite (sock_at_ok _ p so2) by apply lookup_insert_eq. simpl. rewrite Hack, Htx. simpl.
  unfold flextcp_connection_tx_close. rewrite (proj2 (fc_at_Ok _ p c) Hc). simpl. rewrite (q_at_Ok _ _ _ Hq). simpl.
  rewrite (rep_to_flush q f R). simpl. destruct (pending f) as [|x l]; [done|]. simpl. done.
Qed.

(** Code bug: a listener that is closed is never freed and keeps its lock, so the
    next connection request for it makes the thread wait for itself, forever. *)
Lemma closed_listener_hangs s fd p so :
  alone s fd p so -> so_type so = SOCK_LISTENER ->
  exists s', tas_close poll_cycle_tas s fd = Ok (0, s') /\ is_Some (ss_socks s' !! p) /\ ev_listen_newconn s' p = Stop OutOfFuel.
Proof.
  intros A Ht. rewrite (close_alone s fd p so A). unfold tas_sock_close.
  set (so1 := with_so_refcnt (with_so_lock so true) 0).
  assert (Hp1 : ss_socks (closing s fd p so) !! p = Some so1) by apply lookup_insert_eq.
  rewrite (sock_at_ok _ _ _ Hp1). simpl. rewrite (sockclose_alone _ _ _ Hp1) by apply A. simpl.
  unfold is_type. simpl. rewrite Ht. simpl. eexists. split; [done|]. split; [by eexists|].
  unfold ev_listen_newconn, socket_lock. by rewrite (sock_at_ok _ _ _ Hp1).
Qed.

(** Code bug: duplicating an epoll to an unused descriptor gives back the lock of an
    object that was never looked up, by a pointer without a value. *)
Lemma dup_epoll_wild s oldfd newfd p e :
  0 <= oldfd < MAXSOCK -> 0 <= newfd < MAXSOCK -> ss_fhs s !! oldfd = Some (FH_EPOLL p) -> ss_fhs s !! newfd = None ->
  ss_eps s !! p = Some e -> e_lock e = false -> internal_dup3 poll_cycle_tas s oldfd newfd = Stop OutOfBounds.
Proof.
  intros Ho Hn Hold Hnew Hp Hl. unfold internal_dup3. destruct (Z.geb_spec newfd MAXSOCK); [lia|].
  unfold dup_close, fh_at. rewrite (proj2 (Z.ltb_ge newfd 0)) by lia. simpl. rewrite Hnew. simpl.
  rewrite (slookup_bad s oldfd). 2:{ split; [lia|]. right. intros p' Hp'. congruence. }
  simpl. unfold flextcp_fd_elookup, fh_at. destruct (Z.geb_spec oldfd MAXSOCK); [lia|]. rewrite (proj2 (Z.ltb_ge oldfd 0)) by lia. simpl.
  rewrite Hold. simpl. unfold epoll_lock. rewrite (epoll_at_ok _ p e) by done. simpl. rewrite Hl. simpl.
  unfold upd_epoll. rewrite (epoll_at_ok _ p (with_e_lock e true)) by apply lookup_insert_eq. done.
Qed.

(** Code bug: a negative descriptor is used as an index of the table. *)
Lemma negative_fd_out_of_bounds s fd : fd < 0 -> flextcp_fd_slookup s fd = Stop OutOfBounds.
Proof.
  intros Hfd. unfold flextcp_fd_slookup, fh_at. destruct (Z.geb_spec fd MAXSOCK); [unfold MAXSOCK in *; lia|].
  by rewrite (proj2 (Z.ltb_lt _ _)) by lia.
Qed.

(** Code bug: removing a socket that is not on the epoll fails, but the epoll counts
    one socket less. *)
Lemma del_missing_counts s ep (e : epoll) : ss_eps s !! ep = Some e ->
  epoll_del s ep None = Ok (-1, set_errno (put_epoll s ep (set_num_tas (u32 (num_tas e - 1)) e)) ENOENT).
Proof. intros He. unfold epoll_del, upd_epoll. by rewrite (epoll_at_ok _ _ _ He). Qed.

End Bugs.

Lemma no_socket_refused_witness :
  tas_bind RecvEx.s 4 (mk_sin 0 80) AF_INET 16 = Ok (-1, set_errno RecvEx.s EBADF).
Proof.
  refine (proj1 (no_socket_refused None 0 8192 8192 1000 1000 7 RecvEx.s 4 _) (mk_sin 0 80) AF_INET 16).
  split; [lia|]. right. intros p. vm_compute. congruence.
Defined.

Lemma unconnected_refused_witness :
  tas_read None 0 1000 1000 7 SockEx.s3 3 10 = Ok (-1, [], set_errno SockEx.s3 ENOTCONN).
Proof.
  refine (proj1 (unconnected_refused None 0 1000 1000 7 SockEx.s3 3 1 RecvEx.so0 _) 10).
  constructor; [split; vm_compute; congruence|vm_compute; reflexivity..].
Defined.
