(* ===== verification/SockWait.v ===== *)
(** * The socket library: what waiting reports

    [tas_epoll_wait] reports the sockets that are ready after a poll, each with the
    events that its epoll waits for, in turn and no more than asked for. *)
From S2P Require Import Prelude RdmaQueue Packets LibTas LibPoll SockState SockReady SockCtx SockCtl SockOpen.
From S2P Require Import SockPoll SockXfer LibSpec SockReadySpec SockEpollInv SockScan SockInv SockEpollCalls SockCalls SockRecv.

#[local] Open Scope Z_scope.

Section Active.
Context {L : Type}.
Abbreviation state := (sock_state L).
Implicit Types (s : state) (p ep : Z).

(** The entries on the active list of an epoll, by its pointers. *)
Fixpoint walk (fuel : nat) s (o : option Z) : list Z :=
  match o, fuel with
  | Some p, S fuel => match ss_ess s !! p with Some e => p :: walk fuel s (ep_next e) | None => [] end
  | _, _ => []
  end.
Definition active_list s ep : list Z :=
  match ss_eps s !! ep with Some e => walk (size (ss_ess s)) s (e_active_first e) | None => [] end.

Lemma walk_dll s l l2 : forall fuel l1, dll ep_next ep_prev (ss_ess s) l -> l = l1 ++ l2 -> (length l2 <= fuel)%nat ->
  walk fuel s (head l2) = l2.
Proof.
  induction l2 as [|p l2 IH]; intros fuel l1 D El Hf; [by destruct fuel|]. destruct fuel as [|fuel]; simpl in Hf; [lia|].
  destruct (D l1 p l2 El) as (e & He & _ & Hn). cbn [walk head]. rewrite He, Hn. f_equal.
  apply (IH fuel (l1 ++ [p])); [done|by rewrite <- app_assoc|lia].
Qed.

Lemma active_list_ok s a b ep (e : epoll) : epoll_ok s a b -> ss_eps s !! ep = Some e ->
  active_list s ep = a ep true /\ e_active_first e = head (a ep true) /\ Z.to_nat (num_active e) = length (a ep true).
Proof.
  intros K He. pose proof (lw_on _ _ _ (eo_lists _ _ _ K)) as O. pose proof (ol_ep _ _ _ _ O ep e true He) as Hw.
  pose proof (a_length s a b ep true K) as Hl. pose proof (lw_size _ _ _ (eo_lists _ _ _ K)) as Hs.
  assert (Hf : e_active_first e = head (a ep true)) by by rewrite <- Hw.
  split; [|split; [done|]].
  - unfold active_list. rewrite He, Hf. by eapply (walk_dll s (a ep true) _ _ []); [apply O| |].
  - rewrite <- Hw. simpl. rewrite u32_small by lia. lia.
Qed.

(** Entries of an epoll whose sockets have events it waits for are on the list. *)
Lemma ready_active s a b ep (e : epoll) n x : epoll_ok s a b -> ss_eps s !! ep = Some e -> ss_ess s !! n = Some x -> es_ep x = ep ->
  reported s n = true -> n ∈ active_list s ep.
Proof.
  intros K He Hx Hep Hr. destruct (active_list_ok s a b ep e K He) as (-> & _ & _).
  unfold reported, report in Hr. rewrite Hx in Hr. simpl in Hr. destruct (ss_socks s !! es_s x) as [so|] eqn:Hso; [|done]. simpl in Hr.
  destruct (wanted so x) eqn:Hw; [|done]. pose proof (eo_ready _ _ _ K n x so Hx Hso Hw) as Ha.
  pose proof (in_a s a n x (eo_lists _ _ _ K) Hx) as Hin. by rewrite Hep, Ha in Hin.
Qed.

Lemma active_list_put s ep (e e' : epoll) : ss_eps s !! ep = Some e -> heads e' = heads e -> active_list (put_epoll s ep e') ep = active_list s ep.
Proof.
  intros He Hh. unfold active_list. simpl. rewrite He, lookup_insert_eq. injection Hh as _ Hf _ _.
  rewrite Hf. generalize (e_active_first e) as o. generalize (size (ss_ess s)) as fuel.
  induction fuel as [|fuel IH]; intros [p|]; cbn [walk]; try done. simpl. destruct (ss_ess s !! p); [|done]. by rewrite IH.
Qed.
End Active.

Section Wait.
Context {L : Type} `{RL : RdmaLink L}.
Context (remote : option rdma_env) (flexnic_mem poll_cycle_tas poll_cycle_app : Z).
Abbreviation state := (sock_state L).
Implicit Types (s : state).

Lemma elookup_ok s fd p (e : epoll) :
  0 <= fd < MAXSOCK -> ss_fhs s !! fd = Some (FH_EPOLL p) -> ss_eps s !! p = Some e -> e_lock e = false ->
  flextcp_fd_elookup s fd = Ok (Some p, put_epoll s p (with_e_lock e true)).
Proof.
  intros Hfd Hfh Hp Hl. unfold flextcp_fd_elookup, fh_at. destruct (Z.geb_spec fd MAXSOCK); [lia|].
  rewrite (proj2 (Z.ltb_ge _ _)) by lia. osimpl. rewrite Hfh. unfold epoll_lock. rewrite (epoll_at_ok _ _ _ Hp). osimpl. by rewrite Hl.
Qed.

(** One attempt, for an epoll that only has sockets. *)
Lemma epoll_try_tas s ep (e e1 : epoll) maxevents w n1 s1 :
  ss_eps s !! ep = Some e -> e_lock e = false -> num_linux e = 0 ->
  flextcp_sockctx_poll_n remote flexnic_mem poll_cycle_tas s maxevents = Ok (n1, s1) ->
  ss_eps s1 !! ep = Some e1 -> e_lock e1 = false ->
  epoll_try remote flexnic_mem poll_cycle_tas (put_epoll s ep (with_e_lock e true)) ep maxevents w =
    ('(evs, s) ← ep_scan (Z.to_nat (num_active e1)) (put_epoll s1 ep (with_e_lock e1 true)) ep maxevents [];
     mret (Z.of_nat (length evs), evs, s)).
Proof.
  intros He Hl Hlinux Hpoll He1 Hl1. set (s0 := put_epoll s ep (with_e_lock e true)).
  assert (He0 : ss_eps s0 !! ep = Some (with_e_lock e true)) by apply lookup_insert_eq.
  unfold epoll_try. rewrite (epoll_at_ok _ _ _ He0). osimpl.
  change (num_linux (with_e_lock e true)) with (num_linux e). rewrite Hlinux. cbn [Z.eqb]. unfold ep_poll_tas.
  assert (epoll_unlock s0 ep = Ok s) as ->.
  { unfold epoll_unlock. rewrite (epoll_at_ok _ _ _ He0). osimpl. do 2 f_equal. unfold s0, put_epoll, set_eps. simpl.
    rewrite insert_insert_eq, insert_id; [by destruct s|]. rewrite He. by destruct e; simpl in *; subst. }
  osimpl. rewrite Hpoll. osimpl. unfold epoll_lock. rewrite (epoll_at_ok _ _ _ He1). osimpl. rewrite Hl1. osimpl.
  rewrite (epoll_at_ok _ ep (with_e_lock e1 true)) by apply lookup_insert_eq. osimpl. done.
Qed.

(** C9. Waiting on an epoll with sockets only: after the poll it returns the events of
    the first [maxevents] entries of the active list that have any, every socket that
    is ready is on this list, and the next wait begins with the sockets that were
    not reached and ends with those that were reported, so that none is
    forgotten. It returns when there are events or the caller does not wait. *)
Theorem epoll_wait_reports s epfd ep (e e1 : epoll) maxevents timeout ms lw w ws n1 s1
  (I : sock_inv id [] [] s) (Hfd : 0 <= epfd < MAXSOCK) (Hfh : ss_fhs s !! epfd = Some (FH_EPOLL ep))
  (He : ss_eps s !! ep = Some e) (Htas : num_tas e <> 0) (Hlinux : num_linux e = 0) (Hmax : 0 < maxevents)
  (Hpoll : flextcp_sockctx_poll_n remote flexnic_mem poll_cycle_tas s maxevents = Ok (n1, s1))
  (He1 : ss_eps s1 !! ep = Some e1) (Hul : unlocked s1 (active_list s1 ep))
  (Hret : timeout = 0 \/ omap (report s1) (active_list s1 ep) <> []) :
  let l := active_list s1 ep in
  let evs := take (Z.to_nat maxevents) (omap (report s1) l) in
  let sc := scanned s1 (Z.to_nat maxevents) l in
  exists s', tas_epoll_wait remote flexnic_mem poll_cycle_tas poll_cycle_app s epfd maxevents timeout ms lw (w :: ws) =
      Ok (Z.of_nat (length evs), evs, s') /\
    sock_inv id [] [] s' /\
    (forall n x, ss_ess s1 !! n = Some x -> es_ep x = ep -> reported s1 n = true -> n ∈ l) /\
    active_list s' ep = drop (length sc) l ++ reported_of s1 sc.
Proof.
  intros l evs sc.
  assert (Hl : e_lock e = false).
  { apply not_true_is_false. intros Hx. by apply (si_elocks _ _ _ _ I ep e He), not_elem_of_nil in Hx. }
  pose proof (si_poll_n remote flexnic_mem poll_cycle_tas id [] [] _ _ _ _ _ _ I Hpoll) as I1.
  assert (Hl1 : e_lock e1 = false).
  { apply not_true_is_false. intros Hx. by apply (si_elocks _ _ _ _ I1 ep e1 He1), not_elem_of_nil in Hx. }
  destruct (si_epoll _ _ _ _ I1) as (a & b & K).
  set (s2 := put_epoll s1 ep (with_e_lock e1 true)).
  assert (K2 : epoll_ok s2 a b) by (by apply (epoll_ok_eps s1 a b ep e1)).
  assert (He2 : ss_eps s2 !! ep = Some (with_e_lock e1 true)) by apply lookup_insert_eq.
  destruct (active_list_ok s1 a b ep e1 K He1) as (Ea & _ & En). fold l in Ea.
  destruct (ep_scan_ok ep maxevents b l s2 a [] [] K2 ltac:(by eexists) ltac:(by rewrite app_nil_r)) as (s3 & a3 & E3 & K3 & F3 & A3);
    [exact Hul|simpl; lia|].
  cbn [length] in E3, A3. rewrite Nat.sub_0_r in E3, A3.
  rewrite (scanned_same s1 s2 l) in E3, A3 by done. fold sc in E3, A3.
  change (report s2) with (report s1) in E3. change (reported_of s2) with (reported_of (L := L) s1) in A3. cbn [app] in E3, A3.
  assert (Ev : omap (report s1) sc = evs) by (unfold sc; by rewrite scanned_reports).
  rewrite Ev in E3.
  assert (I3 : sock_inv id [] [ep] s3).
  { eapply si_only_lists; [|exact F3|by exists a3, b]. eapply si_put_epoll; [|exact He1|done|done|left; left].
    eapply si_mono; [exact I1|by auto|intros q x _ _ Hq; by right]. }
  destruct (fmap_lookup_inv efixed _ _ ep _ (eq_sym (on_efixed _ _ F3)) He2) as (e3 & He3 & Ef3).
  set (s' := put_epoll s3 ep (with_e_lock e3 false)).
  assert (Eu : epoll_unlock s3 ep = Ok s') by (unfold epoll_unlock; by rewrite (epoll_at_ok _ _ _ He3)).
  exists s'. split_and!.
  - unfold tas_epoll_wait. rewrite (proj2 (Z.leb_gt maxevents 0)) by lia.
    rewrite (elookup_ok s epfd ep e) by done. osimpl.
    set (s0 := put_epoll s ep (with_e_lock e true)).
    assert (He0 : ss_eps s0 !! ep = Some (with_e_lock e true)) by apply lookup_insert_eq.
    rewrite (epoll_at_ok _ _ _ He0). osimpl. change (num_tas (with_e_lock e true)) with (num_tas e).
    rewrite (proj2 (Z.eqb_neq _ _) Htas). cbn [epoll_wait_loop].
    unfold s0. rewrite (epoll_try_tas s ep e e1 maxevents w n1 s1) by done. fold s2. rewrite En, <- Ea, E3. osimpl.
    assert ((Z.of_nat (length evs) =? 0) && negb (timeout =? 0) = false) as ->.
    { destruct Hret as [->|Hne]; [by rewrite andb_false_r|]. apply andb_false_intro1, Z.eqb_neq. unfold evs, l.
      rewrite length_take. destruct (omap (report s1) (active_list s1 ep)); [done|simpl; lia]. }
    osimpl. unfold flextcp_fd_erelease. rewrite Eu. done.
  - eapply si_eunlock; [exact I3|exact Eu].
  - intros n x Hx Hep Hr. by eapply ready_active.
  - unfold s'. rewrite (active_list_put s3 ep e3) by done.
    destruct (active_list_ok s3 a3 b ep e3 K3 He3) as (-> & _). exact A3.
Qed.
End Wait.

(** The socket of the example has input, and one poll finds nothing new. *)
Module WaitEx.
Definition ready : sock_state peer := match flextcp_epoll_set SockEx.s3 1 EPOLLIN with Ok s => s | Stop _ => SockEx.s3 end.
Definition s : sock_state peer := set_rounds ready [mk_round 5 (fun l => l) 0 false].
Definition s1 : sock_state peer :=
  match flextcp_sockctx_poll_n None 0 1000 s 8 with Ok (_, s1) => s1 | Stop _ => s end.
Definition e : epoll := default epoll_zero (ss_eps s !! 50).
Definition e1 : epoll := default epoll_zero (ss_eps s1 !! 50).

Lemma s_ready : flextcp_epoll_set SockEx.s3 1 EPOLLIN = Ok ready.
Proof. vm_compute. reflexivity. Qed.
Lemma s_inv : sock_inv id [] [] s.
Proof.
  pose proof (steps_inv None 0 8192 8192 1000 1000 7 _ _ SockEx.steps (start_inv _)) as I.
  apply (si_rest id [] [] ready s); try reflexivity. apply (si_epoll_set id [] [] SockEx.s3 1 EPOLLIN ready I); [|exact s_ready].
  split; vm_compute; congruence.
Qed.
Lemma s_poll : flextcp_sockctx_poll_n None 0 1000 s 8 = Ok (0, s1).
Proof. vm_compute. reflexivity. Qed.
Lemma list : active_list s1 50 = [60].
Proof. vm_compute. reflexivity. Qed.
Definition lock_of (s : sock_state peer) (n : Z) : option bool := x ← ss_ess s !! n; k ← ss_socks s !! es_s x; Some (so_lock k).
Lemma lock_free s n : lock_of s n = Some false -> unlocked s [n].
Proof.
  intros E p x k ->%list_elem_of_singleton Hx Hk. unfold lock_of in E. rewrite Hx in E. cbn [mbind option_bind] in E.
  rewrite Hk in E. cbn [mbind option_bind] in E. congruence.
Qed.
Lemma free : unlocked s1 [60].
Proof. apply lock_free. vm_compute. reflexivity. Qed.
End WaitEx.

Lemma epoll_wait_reports_witness :
  exists s', tas_epoll_wait None 0 1000 1000 WaitEx.s 4 8 (-1) 0 (0, []) [mk_eenv 0 [] 0 0 0 false] =
      Ok (1, [mk_ev EPOLLIN 77], s') /\
    sock_inv id [] [] s' /\
    (forall n x, ss_ess WaitEx.s1 !! n = Some x -> es_ep x = 50 -> reported WaitEx.s1 n = true -> n ∈ active_list WaitEx.s1 50) /\
    active_list s' 50 = [60].
Proof.
  assert (H1 : 0 <= 4 < MAXSOCK) by (split; vm_compute; congruence).
  assert (H2 : ss_fhs WaitEx.s !! 4 = Some (FH_EPOLL 50)) by (vm_compute; reflexivity).
  assert (H3 : ss_eps WaitEx.s !! 50 = Some WaitEx.e) by (vm_compute; reflexivity).
  assert (H4 : num_tas WaitEx.e <> 0) by (vm_compute; congruence).
  assert (H5 : num_linux WaitEx.e = 0) by (vm_compute; reflexivity).
  assert (H6 : ss_eps WaitEx.s1 !! 50 = Some WaitEx.e1) by (vm_compute; reflexivity).
  assert (H7 : omap (report WaitEx.s1) (active_list WaitEx.s1 50) = [mk_ev EPOLLIN 77]) by (vm_compute; reflexivity).
  assert (H8 : unlocked WaitEx.s1 (active_list WaitEx.s1 50)) by (rewrite WaitEx.list; exact WaitEx.free).
  assert (H9 : (-1 = 0) \/ omap (report WaitEx.s1) (active_list WaitEx.s1 50) <> []) by (right; rewrite H7; congruence).
  destruct (epoll_wait_reports None 0 1000 1000 WaitEx.s 4 50 WaitEx.e WaitEx.e1 8 (-1) 0 (0, []) (mk_eenv 0 [] 0 0 0 false) [] 0 WaitEx.s1
    WaitEx.s_inv H1 H2 H3 H4 H5 eq_refl WaitEx.s_poll H6 H8 H9) as (s' & W1 & W2 & W3 & W4).
  rewrite H7 in W1. exists s'. split; [exact W1|]. split; [exact W2|]. split; [exact W3|].
  rewrite W4, WaitEx.list. vm_compute. reflexivity.
Defined.
