(* ===== verification/SockPollSpec.v ===== *)
(** * The socket library: what poll and select report

    Sockets are reported with the events they have, other descriptors with what the
    C library says, in one answer. *)
From S2P Require Import Prelude RdmaQueue Packets LibTas LibPoll SockState SockReady SockCtx SockCtl SockOpen.
From S2P Require Import SockPoll SockXfer LibSpec SockReadySpec SockEpollInv SockScan SockInv SockEpollCalls SockCalls SockRecv.
From S2P Require Import SockErr SockWait SockSelect.

#[local] Open Scope Z_scope.

(** ** The size of a cache *)

Lemma grow_ok n : n <= 4611686018427387904 -> forall fuel cnt, 0 < cnt -> n <= cnt * 2 ^ Z.of_nat fuel ->
  exists v, grow fuel cnt n = Ok v /\ n <= v /\ cnt <= v /\ v <= Z.max cnt (2 * n).
Proof.
  intros Hn. induction fuel as [|fuel IH]; intros cnt Hc Hf; cbn [grow].
  - rewrite Z.pow_0_r in Hf. rewrite (proj2 (Z.ltb_ge _ _)) by lia. exists cnt. split_and!; [done|lia..].
  - destruct (Z.ltb_spec cnt n); [|exists cnt; split_and!; [done|lia..]].
    rewrite u64_small by lia. destruct (IH (cnt * 2)) as (v & E & H1 & H2 & H3); [lia| |exists v; split_and!; [done|lia..]].
    rewrite Nat2Z.inj_succ, Z.pow_succ_r in Hf by lia. lia.
Qed.

(** A cache gets room for the entries, and no more than twice as much as that, or 16,
    or what it had. *)
Lemma cache_size_ok cnt n : 0 <= cnt -> n <= 4611686018427387904 ->
  exists v, cache_size cnt n true = Ok (Some v) /\ n <= v /\ cnt <= v /\ v <= Z.max (Z.max cnt 16) (2 * n).
Proof.
  intros Hc Hn. unfold cache_size. destruct (Z.geb_spec cnt n); [exists cnt; split_and!; [done|lia..]|].
  destruct (grow_ok n Hn 64 (if cnt =? 0 then 16 else cnt)) as (v & -> & H1 & H2 & H3).
  - destruct (Z.eqb_spec cnt 0); lia.
  - change (2 ^ Z.of_nat 64) with 18446744073709551616. destruct (Z.eqb_spec cnt 0); lia.
  - exists v. split; [done|]. destruct (Z.eqb_spec cnt 0); lia.
Qed.

Section Spec.
Context {L : Type} `{RL : RdmaLink L}.
Context (remote : option rdma_env) (flexnic_mem poll_cycle_tas poll_cycle_app waitfd : Z).
Abbreviation state := (sock_state L).
Implicit Types (s : state) (p : pollfd) (fds : list pollfd).

(** The socket of a descriptor. *)
Definition sock_of s (fd : Z) : option socket :=
  if fd <? MAXSOCK then match ss_fhs s !! fd with Some (FH_SOCKET k) => ss_socks s !! k | _ => None end else None.
Definition is_sock s p : bool := match sock_of s (pf_fd p) with Some _ => true | None => false end.

(** The events of a socket that are asked for. *)
Definition sock_revents s p : Z :=
  match sock_of s (pf_fd p) with Some so => Z.land (pf_events p) (events_epoll2poll (ep_events so)) | None => 0 end.

(** The answer: [rs] are the events of the other descriptors. *)
Fixpoint answers s fds (rs : list Z) : list pollfd :=
  match fds with
  | [] => []
  | p :: fds =>
      if is_sock s p then with_revents p (sock_revents s p) :: answers s fds rs
      else match rs with
           | r :: rs => with_revents p r :: answers s fds rs
           | [] => with_revents p 0 :: answers s fds []
           end
  end.
Definition others s fds : list pollfd := filter (fun p => is_sock s p = false) fds.
Definition active (l : list pollfd) : Z := Z.of_nat (length (filter (fun p => pf_revents p <> 0) l)).

(** What is asked for: descriptors that are not negative, supported events. *)
Record asked fds : Prop := {
  as_fds : Forall (fun p => 0 <= pf_fd p) fds;
  as_events : Forall (fun p => clear_bits (pf_events p) POLL_SUPPORTED = 0) fds;
  as_len : Z.of_nat (length fds) < 2147483648;
}.

(** Looking at a descriptor leaves no trace but [errno]. *)
Lemma look s p : sock_inv id [] [] s -> 0 <= pf_fd p ->
  match sock_of s (pf_fd p) with
  | Some so => exists k, flextcp_fd_slookup s (pf_fd p) = Ok (Some k, put_sock s k (with_so_lock so true)) /\
      flextcp_fd_srelease (put_sock s k (with_so_lock so true)) k = Ok s
  | None => flextcp_fd_slookup s (pf_fd p) = Ok (None, set_errno s EBADF)
  end.
Proof.
  intros I H0. unfold sock_of. destruct (Z.ltb_spec (pf_fd p) MAXSOCK); [|apply slookup_bad; split; [done|by left]].
  destruct (ss_fhs s !! pf_fd p) as [[k|e]|] eqn:Hf; [|apply slookup_bad; split; [done|right; congruence]..].
  destruct (ss_socks s !! k) as [so|] eqn:Hk.
  - exists k. pose proof (socket_free s _ k so I Hf Hk) as Hl. split; [by apply slookup_ok|].
    unfold flextcp_fd_srelease, socket_unlock. rewrite (sock_at_ok _ k (with_so_lock so true)) by apply lookup_insert_eq. osimpl.
    do 2 f_equal. unfold put_sock, set_socks. simpl. rewrite insert_insert_eq, insert_id; [by destruct s|].
    rewrite Hk. by destruct so; simpl in *; subst.
  - destruct (si_live _ _ _ _ I _ _ Hf) as [so Hso]. simpl in Hso. congruence.
Qed.

Lemma errno_inv s e : sock_inv id [] [] s -> sock_inv id [] [] (set_errno s e).
Proof. intros I. by eapply si_rest; [..|exact I]. Qed.

Definition counts_of s fds (n : fd_counts) : fd_counts :=
  mk_counts (nfds_linux n + Z.of_nat (length (others s fds))) (nfds_tas n + Z.of_nat (length fds - length (others s fds)))
    (active_fds n + active (answers s fds [])).

Lemma counts_eq a a' b b' c c' : a = a' -> b = b' -> c = c' -> mk_counts a b c = mk_counts a' b' c'.
Proof. by intros -> -> ->. Qed.
Lemma answers_errno s e fds : forall rs, answers (set_errno s e) fds rs = answers s fds rs.
Proof. induction fds as [|p fds IH]; intros rs; cbn [answers]; [done|]. rewrite !IH. destruct rs; [done|]. by rewrite IH. Qed.
Lemma others_errno s e : others (set_errno s e) = others s.
Proof. reflexivity. Qed.
Lemma others_le s fds : (length (others s fds) <= length fds)%nat.
Proof. apply length_filter. Qed.
Lemma others_cons s p fds : others s (p :: fds) = if is_sock s p then others s fds else p :: others s fds.
Proof. unfold others. rewrite filter_cons. by destruct (is_sock s p). Qed.
Lemma active_cons p l : active (p :: l) = (if pf_revents p =? 0 then 0 else 1) + active l.
Proof.
  unfold active. rewrite filter_cons. destruct (Z.eqb_spec (pf_revents p) 0); [rewrite decide_False by (by intros ?)|rewrite decide_True by done]; simpl; lia.
Qed.

Lemma scan_ok fds : forall s n, sock_inv id [] [] s -> Forall (fun p => 0 <= pf_fd p) fds ->
  Forall (fun p => clear_bits (pf_events p) POLL_SUPPORTED = 0) fds ->
  exists e, scan_fds s fds n = Ok (true, answers s fds [], counts_of s fds n, set_errno s e).
Proof.
  induction fds as [|p fds IH]; intros s n I Hf He; cbn [scan_fds].
  - exists (ss_errno s). unfold counts_of, active. simpl. rewrite !Z.add_0_r. destruct n, s. done.
  - inversion Hf as [|? ? Hp Hf']; subst. inversion He as [|? ? Hs He']; subst. pose proof (look s p I Hp) as Hk.
    pose proof (others_le s fds) as Hle. unfold counts_of. rewrite others_cons. cbn [answers]. unfold is_sock, sock_revents.
    destruct (sock_of s (pf_fd p)) as [so|] eqn:Eo.
    + destruct Hk as (k & -> & E2). osimpl. rewrite (sock_at_ok _ k (with_so_lock so true)) by apply lookup_insert_eq. osimpl.
      rewrite E2. osimpl. rewrite Hs. cbn [Z.eqb negb]. change (ep_events (with_so_lock so true)) with (ep_events so).
      set (r := Z.land _ _). edestruct (IH s) as (e & ->); [done..|]. osimpl. exists e.
      rewrite active_cons. cbn [pf_revents with_revents nfds_linux nfds_tas active_fds counts_of length].
      unfold counts_of. simpl. do 3 f_equal. apply counts_eq; [lia|lia|]. destruct (r =? 0); simpl; lia.
    + rewrite Hk. osimpl. edestruct (IH (set_errno s EBADF)) as (e & ->); [by apply errno_inv|done..|]. osimpl. exists e.
      rewrite answers_errno, active_cons. cbn [pf_revents with_revents length Z.eqb].
      unfold counts_of. rewrite others_errno, answers_errno. simpl. do 3 f_equal. apply counts_eq; lia.
Qed.

Lemma copy_linux_ok fds : forall s room, sock_inv id [] [] s -> Forall (fun p => 0 <= pf_fd p) fds ->
  (length (others s fds) <= room)%nat -> exists e, copy_linux s fds room = Ok (Some (others s fds), set_errno s e).
Proof.
  induction fds as [|p fds IH]; intros s room I Hf Hr; cbn [copy_linux]; [exists (ss_errno s); by destruct s|].
  inversion Hf as [|? ? Hp Hf']; subst. pose proof (look s p I Hp) as Hk. rewrite others_cons in *. unfold is_sock in *.
  destruct (sock_of s (pf_fd p)) as [so|] eqn:Eo.
  - destruct Hk as (k & -> & E2). osimpl. rewrite E2. osimpl. by apply IH.
  - rewrite Hk. osimpl. destruct room as [|room]; simpl in Hr; [lia|].
    destruct (IH (set_errno s EBADF) room) as (e & ->); [by apply errno_inv|done|rewrite others_errno; lia|]. exists e. done.
Qed.

Lemma others_answers s fds : others s (answers s fds []) = (fun p => with_revents p 0) <$> others s fds.
Proof.
  induction fds as [|p fds IH]; [done|]. cbn [answers]. rewrite others_cons. destruct (is_sock s p) eqn:E; rewrite others_cons.
  - assert (is_sock s (with_revents p (sock_revents s p)) = true) as -> by exact E. done.
  - assert (is_sock s (with_revents p 0) = false) as -> by exact E. by rewrite IH.
Qed.

Lemma copy_back_ok fds : forall s c j rs, sock_inv id [] [] s -> Forall (fun p => 0 <= pf_fd p) fds ->
  length rs = length (others s fds) ->
  (forall i p r, others s fds !! i = Some p -> rs !! i = Some r ->
     exists q, pollfds_cache c !! (j + i)%nat = Some q /\ pf_fd q = pf_fd p /\ pf_revents q = r) ->
  exists e, copy_back s c (answers s fds []) j = Ok (answers s fds rs, set_errno s e).
Proof.
  induction fds as [|p fds IH]; intros s c j rs I Hf Hl Hc; [exists (ss_errno s); by destruct s|].
  inversion Hf as [|? ? Hp Hf']; subst. pose proof (look s p I Hp) as Hk. rewrite others_cons in *. cbn [answers].
  unfold is_sock in *. destruct (sock_of s (pf_fd p)) as [so|] eqn:Eo; cbn [copy_back pf_fd with_revents].
  - destruct Hk as (k & -> & E2). osimpl. rewrite E2. osimpl. destruct (IH s c j rs) as (e & ->); [done..|]. by exists e.
  - rewrite Hk. osimpl. destruct rs as [|r rs]; [done|]. destruct (Hc 0%nat p r) as (q & Eq & E1 & E2); [done..|].
    rewrite Nat.add_0_r in Eq. rewrite Eq, E1, Z.eqb_refl. osimpl.
    destruct (IH (set_errno s EBADF) c (S j) rs) as (e & Er); [by apply errno_inv|done|simpl in Hl; rewrite others_errno; lia| |].
    + intros i p' r' Hp' Hr'. destruct (Hc (S i) p' r') as (q' & Eq' & E1' & E2'); [done..|]. exists q'.
      by replace (S j + i)%nat with (j + S i)%nat by lia.
    + rewrite !answers_errno in Er. rewrite Er. exists e. by rewrite E2.
Qed.

(** The cache, when it is prepared and when the C library has answered. *)
Lemma prepare_ok s c fds n : sock_inv id [] [] s -> Forall (fun p => 0 <= pf_fd p) fds -> n = Z.of_nat (length (others s fds)) ->
  n < 2147483648 -> 0 <= pollfds_cache_size c ->
  exists e c' rest, pollfd_cache_prepare waitfd s c fds n true = Ok (Some c', set_errno s e) /\ 0 <= pollfds_cache_size c' /\
    pollfds_cache c' = others s fds ++ rest.
Proof.
  intros I Hf Hn Hs Hc. unfold pollfd_cache_prepare, pollfd_cache_alloc. rewrite u64_small by lia.
  destruct (cache_size_ok (pollfds_cache_size c) (n + 1)) as (v & -> & H1 & H2 & _); [lia..|]. osimpl. cbn [option_map].
  destruct (copy_linux_ok fds s (Z.to_nat n) I Hf ltac:(lia)) as (e & ->). osimpl. eexists e, _, _.
  split; [reflexivity|]. split; [simpl; lia|reflexivity].
Qed.

Lemma libc_cache l rest n rs : length rs = n -> length l = n ->
  libc_revents (l ++ rest) (Z.of_nat n) rs = zip_with with_revents l rs ++ rest.
Proof. intros Hr Hl. unfold libc_revents. rewrite Nat2Z.id, take_app_length', drop_app_length' by done. done. Qed.


Definition nonzero (rs : list Z) : list Z := filter (fun r => r <> 0) rs.

Lemma active_answers s fds : forall rs, length rs = length (others s fds) ->
  active (answers s fds rs) = active (answers s fds []) + Z.of_nat (length (nonzero rs)).
Proof.
  induction fds as [|p fds IH]; intros rs Hl; [by destruct rs|]. rewrite others_cons in Hl. cbn [answers].
  destruct (is_sock s p); rewrite ?active_cons; [rewrite (IH rs) by done; lia|]. destruct rs as [|r rs]; [done|].
  unfold nonzero. rewrite !active_cons, filter_cons, (IH rs) by (by injection Hl). cbn [pf_revents with_revents].
  destruct (Z.eqb_spec r 0) as [->|]; [rewrite decide_False by (by intros ?)|rewrite decide_True by done]; unfold nonzero; simpl; lia.
Qed.

Lemma answers_zero s fds : forall rs, nonzero rs = [] -> answers s fds rs = answers s fds [].
Proof.
  induction fds as [|p fds IH]; intros rs Hz; [done|]. cbn [answers]. destruct (is_sock s p); [by rewrite (IH rs)|].
  destruct rs as [|r rs]; [done|]. unfold nonzero in Hz. rewrite filter_cons in Hz. destruct (decide (r <> 0)) as [|Hr]; [done|].
  apply dec_stable in Hr as ->. by rewrite (IH rs).
Qed.

Lemma some_sock s fds p : p ∈ fds -> is_sock s p = true -> (length (others s fds) < length fds)%nat.
Proof. intros Hin Hs. apply (length_filter_lt _ fds p Hin). by rewrite Hs. Qed.

Lemma some_active s fds p : p ∈ fds -> sock_revents s p <> 0 -> 0 < active (answers s fds []).
Proof.
  intros Hin Hr. induction fds as [|q fds IH]; [by apply not_elem_of_nil in Hin|]. cbn [answers].
  apply elem_of_cons in Hin as [->|Hin].
  - unfold is_sock. unfold sock_revents in Hr. destruct (sock_of s (pf_fd q)) eqn:E; [|done].
    rewrite active_cons. cbn [pf_revents with_revents]. unfold sock_revents. rewrite E. rewrite (proj2 (Z.eqb_neq _ _) Hr).
    unfold active. lia.
  - specialize (IH Hin). destruct (is_sock s q); rewrite active_cons; destruct (_ =? 0); lia.
Qed.

(** One call of [poll] of the C library for the others, without waiting. *)
Lemma poll_mixed_ok s c l rest w : pollfds_cache c = l ++ rest -> length (pe_revents w) = length l -> 0 <= pe_ret w ->
  exists c', poll_mixed poll_cycle_app s c (Z.of_nat (length l)) 0 w = Ok (PLoop (pe_ret w), c', s) /\
    forall i p r, l !! i = Some p -> pe_revents w !! i = Some r -> pollfds_cache c' !! i = Some (with_revents p r).
Proof.
  intros Hc Hl Hr. unfold poll_mixed. cbn [Z.eqb]. rewrite (proj2 (Z.ltb_ge _ _) Hr), Hc, (libc_cache l rest (length l)) by done.
  osimpl. eexists. split; [done|]. intros i p r Hp Hi. cbn [pollfds_cache]. rewrite lookup_app_l.
  - by rewrite lookup_zip_with, Hp; simpl; rewrite Hi.
  - rewrite length_zip_with. apply lookup_lt_Some in Hp. lia.
Qed.

Lemma length_answers s fds : forall rs, length (answers s fds rs) = length fds.
Proof. induction fds as [|p fds IH]; intros rs; cbn [answers]; [done|]. destruct (is_sock s p), rs; simpl; by rewrite IH. Qed.
Lemma answers_fds s fds : forall rs, Forall (fun p => 0 <= pf_fd p) fds -> Forall (fun p => 0 <= pf_fd p) (answers s fds rs).
Proof.
  induction fds as [|p fds IH]; intros rs Hf; cbn [answers]; [done|]. inversion Hf; subst.
  destruct (is_sock s p), rs; constructor; auto.
Qed.

(** The answer to a request that does not have to wait. *)
Lemma poll_answers s c fds timeout ms w ws n1 s1
  (I : sock_inv id [] [] s) (A : asked fds) (Hc : 0 <= pollfds_cache_size c)
  (Hpoll : flextcp_sockctx_poll_n remote flexnic_mem poll_cycle_tas s (Z.of_nat (length fds)) = Ok (n1, s1))
  (Hsome : exists p, p ∈ fds /\ is_sock s1 p = true)
  (Hlen : length (pe_revents w) = length (others s1 fds)) (Hret : pe_ret w = Z.of_nat (length (nonzero (pe_revents w))))
  (Hmem : pe_mem w = true) (Hnow : timeout = 0 \/ exists p, p ∈ fds /\ sock_revents s1 p <> 0) :
  let l := answers s1 fds (pe_revents w) in
  exists c' e, tas_poll remote flexnic_mem poll_cycle_tas poll_cycle_app waitfd s c fds timeout ms (w :: ws) =
    Ok (active l, l, c', set_errno s1 e).
Proof.
  intros l. destruct A as [Hfds Hev Hn]. pose proof (si_poll_n remote flexnic_mem poll_cycle_tas id [] [] _ _ _ _ _ _ I Hpoll) as I1.
  destruct Hsome as (p0 & Hp0 & Hs0). pose proof (some_sock s1 fds p0 Hp0 Hs0) as Hlt.
  unfold tas_poll. cbn [poll_loop]. rewrite u32_small by lia. rewrite Hpoll. osimpl.
  destruct (scan_ok fds s1 (mk_counts 0 0 0) I1 Hfds Hev) as (e1 & ->). osimpl.
  set (n := counts_of s1 fds (mk_counts 0 0 0)).
  assert (Htas : nfds_tas n > 0) by (simpl; lia).
  rewrite (proj2 (Z.eqb_neq (nfds_tas n) 0)) by lia. rewrite andb_false_r.
  set (mt := if negb (timeout =? 0) && negb (timeout =? -1) then u64 (ms + timeout) else 0).
  assert (Hb : block_time n 0 timeout mt (pe_ms w) = 0).
  { unfold block_time. destruct Hnow as [->|(p & Hp & Hr)]; [by rewrite !andb_false_r|].
    pose proof (some_active s1 fds p Hp Hr). rewrite (proj2 (Z.eqb_neq (active_fds n) 0)) by (simpl; lia). by rewrite !andb_false_r. }
  rewrite Hb.
  assert (Hend : forall m : Z, (active_fds n =? 0) && (m =? 0) && negb (timeout =? 0) && ((timeout =? -1) || (pe_ms_end w <? mt)) = false).
  { intros m. destruct Hnow as [->|(p & Hp & Hr)]; [by rewrite !andb_false_r|].
    pose proof (some_active s1 fds p Hp Hr). by rewrite (proj2 (Z.eqb_neq (active_fds n) 0)) by (simpl; lia). }
  pose proof (active_answers s1 fds (pe_revents w) Hlen) as Ha. rewrite <- Hret in Ha. fold l in Ha.
  assert (Hbound : 0 <= active l < 2147483648).
  { pose proof (length_filter (fun p => pf_revents p <> 0) l). unfold active. pose proof (length_answers s1 fds (pe_revents w)). fold l in H0. lia. }
  unfold poll_linux. rewrite Z.eqb_refl, andb_true_r. destruct (Z.gtb_spec (nfds_linux n) 0) as [Hl|Hl].
  - set (s2 := set_errno s1 e1). assert (I2 : sock_inv id [] [] s2) by by apply errno_inv.
    assert (Ho : length (others s2 (answers s1 fds [])) = length (others s1 fds)).
    { unfold s2. by rewrite others_errno, others_answers, length_fmap. }
    destruct (prepare_ok s2 c (answers s1 fds []) (nfds_linux n) I2) as (e2 & c1 & rest & E2 & _ & Ec1);
      [by apply answers_fds|simpl; lia|simpl; lia|done|].
    rewrite Hmem, E2. osimpl.
    destruct (poll_mixed_ok (set_errno s2 e2) c1 _ rest w Ec1) as (c2 & E3 & Hc2); [lia|lia|].
    replace (nfds_linux n) with (Z.of_nat (length (others s2 (answers s1 fds [])))) by (simpl; lia).
    rewrite E3. osimpl. rewrite Hend. destruct (Z.gtb_spec (pe_ret w) 0).
    + destruct (copy_back_ok fds (set_errno s2 e2) c2 0 (pe_revents w)) as (e3 & E4); [by apply errno_inv|done|by rewrite others_errno| |].
      { intros i p r Hp Hi. rewrite others_errno in Hp. eexists. split; [apply (Hc2 i (with_revents p 0) r); [|done]|done].
        unfold s2. rewrite others_errno, others_answers, list_lookup_fmap. unfold s2 in Hp. rewrite others_errno in Hp. by rewrite Hp. }
      unfold s2 in E4. rewrite !answers_errno in E4. fold s2 in E4. rewrite E4. osimpl.
      exists c2, e3. rewrite i32_small by (simpl; lia). simpl. rewrite Ha. done.
    + osimpl. exists c2, e2. rewrite i32_small by (simpl; lia). simpl. rewrite Ha.
      unfold l. by rewrite (answers_zero s1 fds (pe_revents w)) by (apply nil_length_inv; lia).
  - rewrite andb_false_r. osimpl. rewrite Hend. exists c, e1.
    assert (pe_revents w = []) as Er by (apply nil_length_inv; simpl in Hl; lia).
    assert (El : l = answers s1 fds []) by (unfold l; by rewrite Er). rewrite El in Hbound |- *. cbn [Z.gtb Z.compare]. osimpl.
    replace (active_fds n + 0) with (active (answers s1 fds [])) by (simpl; lia). by rewrite i32_small by lia.
Qed.

Lemma answers_lookup s fds : forall rs i p, length rs = length (others s fds) -> fds !! i = Some p ->
  answers s fds rs !! i = Some (with_revents p
    match sock_of s (pf_fd p) with
    | Some so => Z.land (pf_events p) (events_epoll2poll (ep_events so))
    | None => rs !!! length (others s (take i fds))
    end).
Proof.
  induction fds as [|q fds IH]; intros rs i p Hl Hi; [done|]. rewrite others_cons in Hl. cbn [answers].
  destruct (is_sock s q) eqn:Eq.
  - destruct i as [|i]; simpl in Hi.
    + injection Hi as ->. unfold sock_revents. unfold is_sock in Eq. by destruct (sock_of s (pf_fd p)).
    + cbn [take]. rewrite others_cons, Eq. by apply IH.
  - destruct rs as [|r rs]; [done|]. destruct i as [|i]; simpl in Hi.
    + injection Hi as ->. unfold is_sock in Eq. by destruct (sock_of s (pf_fd p)).
    + cbn [take]. rewrite others_cons, Eq. apply (IH rs); [by injection Hl|done].
Qed.


(** ** select *)

Lemma answers_socks s fds rs : Forall (fun p => is_sock s p = true) fds ->
  answers s fds rs = (fun p => with_revents p (sock_revents s p)) <$> fds.
Proof. induction 1 as [|p fds Hp _ IH]; [done|]. cbn [answers]. by rewrite Hp, IH. Qed.

Lemma set_result_in m o p fd :
  fd_in fd (set_result m o p) = fd_in fd o && (negb (fd =? pf_fd p) || has_any (pf_revents p) m).
Proof.
  destruct o as [X|]; [|done]. unfold set_result. case_bool_decide as Hp; cbn [fd_in].
  - destruct (has_any (pf_revents p) m); rewrite ?orb_true_r, ?orb_false_r, ?andb_true_r.
    + apply bool_decide_ext. set_solver.
    + destruct (Z.eqb_spec fd (pf_fd p)) as [->|]; simpl; rewrite ?andb_false_r, ?andb_true_r.
      * apply bool_decide_eq_false. set_solver.
      * apply bool_decide_ext. set_solver.
  - destruct (Z.eqb_spec fd (pf_fd p)) as [->|]; simpl; rewrite ?andb_true_r; [|done]. by rewrite bool_decide_eq_false_2.
Qed.

Lemma foldl_in m fd l : forall o,
  fd_in fd (foldl (set_result m) o l) = fd_in fd o && forallb (fun p => negb (fd =? pf_fd p) || has_any (pf_revents p) m) l.
Proof. induction l as [|p l IH]; intros o; cbn [foldl forallb]; [by rewrite andb_true_r|]. by rewrite IH, set_result_in, andb_assoc. Qed.

Section Select.
Context (rd wr ex : option (gset Z)) (nfds : Z) (s1 : state).
Definition select_fds : list pollfd := omap (select_entry rd wr ex) (seqZ 0 nfds).

(** Whether the socket of [fd] has an event of [em]. *)
Definition sock_has fd (em : Z) : bool := match sock_of s1 fd with Some so => has_any (ep_events so) em | None => false end.

(** Every descriptor that is asked for is a socket. *)
Hypothesis Socks : Forall (fun p => is_sock s1 p = true) select_fds.

Lemma entry_fd fd p : select_entry rd wr ex fd = Some p -> pf_fd p = fd /\ pf_revents p = 0.
Proof. unfold select_entry. destruct (_ || _); intros E; [|done]. by injection E as <-. Qed.

(** What becomes of one of the sets, whose events in [poll] are [m] and in an epoll [em]. *)
Lemma set_ready o m em fd :
  (forall e, has_any (events_epoll2poll e) m = has_any e em) ->
  (forall x, fd_in x o = true -> exists p, select_entry rd wr ex x = Some p /\ Z.land (pf_events p) m = m) ->
  fd_in fd (foldl (set_result m) o (answers s1 select_fds [])) =
    fd_in fd o && (negb ((0 <=? fd) && (fd <? nfds)) || sock_has fd em).
Proof.
  intros He Ho. rewrite foldl_in, answers_socks by done. destruct (fd_in fd o) eqn:Hin; [|done]. cbn [andb].
  destruct (Ho fd Hin) as (p & Ep & Em). destruct (entry_fd fd p Ep) as [Efd _].
  assert (Hrev : forall x, is_sock s1 x = true -> pf_fd x = fd -> Z.land (pf_events x) m = m -> has_any (sock_revents s1 x) m = sock_has fd em).
  { intros x Hs Hx Hm. unfold sock_revents, sock_has. unfold is_sock in Hs. rewrite Hx in *. destruct (sock_of s1 fd) as [so|]; [|done].
    rewrite <- He. unfold has_any. rewrite <- Z.land_assoc, (Z.land_comm _ m), Z.land_assoc, Hm. by rewrite Z.land_comm. }
  apply eq_true_iff_eq. rewrite forallb_forall. split.
  - intros Hall. destruct ((0 <=? fd) && (fd <? nfds)) eqn:Er; [|done]. simpl.
    apply andb_true_iff in Er as [H0%Z.leb_le H1%Z.ltb_lt].
    assert (Hp : p ∈ select_fds) by (apply list_elem_of_omap; exists fd; split; [apply elem_of_seqZ; lia|done]).
    pose proof (proj1 (Forall_forall _ _) Socks p Hp) as Hs.
    specialize (Hall (with_revents p (sock_revents s1 p))). rewrite <- list_elem_of_In in Hall.
    specialize (Hall (list_elem_of_fmap_2 (fun q => with_revents q (sock_revents s1 q)) _ p Hp)). cbn [pf_fd pf_revents with_revents] in Hall.
    rewrite Efd, Z.eqb_refl in Hall. simpl in Hall. by rewrite Hrev in Hall.
  - intros Hok x Hx. rewrite <- list_elem_of_In in Hx. apply list_elem_of_fmap in Hx as (q & -> & Hq). cbn [pf_fd pf_revents with_revents].
    pose proof (proj1 (Forall_forall _ _) Socks q Hq) as Hs. apply list_elem_of_omap in Hq as (y & Hy & Eq).
    destruct (entry_fd y q Eq) as [Ey _]. apply elem_of_seqZ in Hy.
    destruct (Z.eqb_spec fd (pf_fd q)) as [E|]; [|done]. simpl. rewrite <- E in Ey. subst y.
    assert (q = p) as -> by congruence. rewrite Hrev by done.
    rewrite (proj2 (Z.leb_le _ _)), (proj2 (Z.ltb_lt _ _)) in Hok by lia. exact Hok.
Qed.

(** The translation of events, for the three sets. *)
Lemma epoll2poll_cases e m :
  exists b1 b2 b3 b4 b5 b6, has_any e EPOLLIN = b1 /\ has_any e EPOLLOUT = b2 /\ has_any e EPOLLRDHUP = b3 /\
    has_any e EPOLLPRI = b4 /\ has_any e EPOLLERR = b5 /\ has_any e EPOLLHUP = b6 /\
    has_any (events_epoll2poll e) m = has_any (any_of [if b6 then POLLHUP else 0; if b5 then POLLERR else 0; if b4 then POLLPRI else 0;
      if b3 then POLLRDHUP else 0; if b2 then Z.lor POLLOUT POLLWRNORM else 0; if b1 then Z.lor POLLIN POLLRDNORM else 0]) m.
Proof.
  eexists _, _, _, _, _, _. split_and!; try reflexivity. unfold events_epoll2poll.
  destruct (has_any e EPOLLIN), (has_any e EPOLLOUT), (has_any e EPOLLRDHUP), (has_any e EPOLLPRI), (has_any e EPOLLERR), (has_any e EPOLLHUP);
    reflexivity.
Qed.

Lemma has_any_lor e a b : has_any e (Z.lor a b) = has_any e a || has_any e b.
Proof.
  unfold has_any. rewrite Z.land_lor_distr_r, <- negb_andb. f_equal. apply eq_true_iff_eq.
  rewrite andb_true_iff, !Z.eqb_eq. apply Z.lor_eq_0_iff.
Qed.

Lemma set_events e :
  has_any (events_epoll2poll e) SELECT_POLLIN_SET = has_any e (Z.lor EPOLLIN (Z.lor EPOLLHUP EPOLLERR)) /\
  has_any (events_epoll2poll e) SELECT_POLLOUT_SET = has_any e (Z.lor EPOLLOUT EPOLLERR) /\
  has_any (events_epoll2poll e) SELECT_POLLEX_SET = has_any e EPOLLPRI.
Proof.
  rewrite !has_any_lor.
  split_and!; match goal with |- has_any _ ?m = _ => destruct (epoll2poll_cases e m) as (b1 & b2 & b3 & b4 & b5 & b6 & E1 & E2 & E3 & E4 & E5 & E6 & ->) end;
    rewrite ?E1, ?E2, ?E4, ?E5, ?E6; by destruct b1, b2, b3, b4, b5, b6.
Qed.

Lemma entry_events fd :
  forall p, select_entry rd wr ex fd = Some p ->
  clear_bits (pf_events p) POLL_SUPPORTED = 0 /\
  (fd_in fd rd = true -> Z.land (pf_events p) SELECT_POLLIN_SET = SELECT_POLLIN_SET) /\
  (fd_in fd wr = true -> Z.land (pf_events p) SELECT_POLLOUT_SET = SELECT_POLLOUT_SET) /\
  (fd_in fd ex = true -> Z.land (pf_events p) SELECT_POLLEX_SET = SELECT_POLLEX_SET).
Proof.
  intros p. unfold select_entry. destruct (fd_in fd rd), (fd_in fd wr), (fd_in fd ex); intros E; try done; injection E as <-; by split_and!.
Qed.

Lemma select_asked : 0 <= nfds < 2147483648 -> asked select_fds.
Proof.
  intros Hn. split.
  - apply Forall_forall. intros p (x & Hx & Ep)%list_elem_of_omap. destruct (entry_fd x p Ep) as [-> _]. apply elem_of_seqZ in Hx. lia.
  - apply Forall_forall. intros p (x & Hx & Ep)%list_elem_of_omap. by apply (entry_events x p Ep).
  - assert (length select_fds <= length (seqZ 0 nfds))%nat; [|rewrite length_seqZ in *; lia].
    unfold select_fds. induction (seqZ 0 nfds) as [|x l IH]; [done|]. cbn [omap list_omap]. destruct (select_entry rd wr ex x); simpl; lia.
Qed.

Lemma entry_in o fd : fd_in fd o = true -> (o = rd \/ o = wr \/ o = ex) -> exists p, select_entry rd wr ex fd = Some p.
Proof.
  unfold select_entry. intros H [-> | [-> | ->]]; rewrite H, ?orb_true_r; by eexists.
Qed.
End Select.

(** C11. What select answers about sockets when it does not have to wait: a descriptor
    stays in the first set if its socket has input, an error or a hang-up, in the
    second if it has space or an error, in the third if it has urgent data; the
    descriptors from [nfds] on stay as they are. *)
Theorem select_reports s c nfds rd wr ex timeout mem_ok ms ms1 ms2 rb ws n1 s1
  (I : sock_inv id [] [] s) (Hn : 0 <= nfds < 2147483648) (Hc : 0 <= pollfds_cache_size c) (Hc2 : 0 <= selectfds_cache_size c)
  (Hmem : mem_ok = true)
  (Hpoll : flextcp_sockctx_poll_n remote flexnic_mem poll_cycle_tas s (Z.of_nat (length (select_fds rd wr ex nfds))) = Ok (n1, s1))
  (Socks : Forall (fun p => is_sock s1 p = true) (select_fds rd wr ex nfds)) (Hne : select_fds rd wr ex nfds <> [])
  (Hnow : timeout = Some (0, 0) \/ exists p, p ∈ select_fds rd wr ex nfds /\ sock_revents s1 p <> 0) :
  let kept fd em := negb ((0 <=? fd) && (fd <? nfds)) || sock_has s1 fd em in
  exists rd' wr' ex' c' e,
    tas_select remote flexnic_mem poll_cycle_tas poll_cycle_app waitfd s c nfds rd wr ex timeout mem_ok ms
      (@cons poll_env (mk_penv 0 [] ms1 ms2 true rb) ws) =
      Ok (active (answers s1 (select_fds rd wr ex nfds) []), (rd', wr', ex'), c', set_errno s1 e) /\
    forall fd, fd_in fd rd' = fd_in fd rd && kept fd (Z.lor EPOLLIN (Z.lor EPOLLHUP EPOLLERR)) /\
      fd_in fd wr' = fd_in fd wr && kept fd (Z.lor EPOLLOUT EPOLLERR) /\
      fd_in fd ex' = fd_in fd ex && kept fd EPOLLPRI.
Proof.
  intros kept. subst mem_ok. set (fds := select_fds rd wr ex nfds) in *.
  set (t := match timeout with None => -1 | Some (sec, usec) => i32 (sec * 1000 + usec ÷ 1000) end).
  set (w := mk_penv 0 [] ms1 ms2 true rb).
  destruct (cache_size_ok (selectfds_cache_size c) nfds Hc2) as (v & Ev & _); [lia|].
  set (c1 := mk_cache (pollfds_cache c) (pollfds_cache_size c) v).
  assert (Ho : others s1 fds = []).
  { apply length_zero_iff_nil. clear -Socks. induction Socks as [|p l Hp _ IH]; [done|]. by rewrite others_cons, Hp. }
  destruct (poll_answers s c1 fds t ms w ws n1 s1 I (select_asked rd wr ex nfds Hn) Hc Hpoll) as (c' & e & E).
  - destruct fds as [|p l]; [done|]. inversion Socks; subst. exists p. split; [left|done].
  - by rewrite Ho.
  - done.
  - done.
  - destruct Hnow as [->|]; [by left|by right].
  - unfold tas_select, selectfd_cache_alloc. rewrite u64_small, Ev by lia. osimpl. cbn [option_map].
    change (omap (select_entry rd wr ex) (seqZ 0 nfds)) with fds. fold t. fold c1. fold w. rewrite E. osimpl.
    change (pe_revents w) with (@nil Z). set (l := answers s1 fds []).
    assert (0 <= active l) by (unfold active; lia). rewrite (proj2 (Z.ltb_ge _ _)) by done.
    eexists _, _, _, c', e. split; [reflexivity|]. intros fd.
    split_and!; apply set_ready; try done; try (intros x; by apply set_events); intros x Hx;
      (destruct (entry_in rd wr ex _ x Hx) as [p Ep]; [by auto|]); exists p; (split; [done|]); by apply (entry_events rd wr ex x p Ep).
Qed.

(** ** Code bugs *)

(** Code bug: an error of a socket, such as a connection that was refused, is not
    reported to an application that waits for input or output and does not ask for
    [POLLERR], which poll always reports; without a time limit it waits forever. *)
Lemma poll_hides_errors s p so : sock_inv id [] [] s -> 0 <= pf_fd p -> sock_of s (pf_fd p) = Some so -> ep_events so = EPOLLERR ->
  pf_events p = Z.lor POLLIN POLLOUT ->
  exists e, scan_fds s [p] (mk_counts 0 0 0) = Ok (true, [with_revents p 0], mk_counts 0 1 0, set_errno s e).
Proof.
  intros I H0 Hs He Hp. destruct (scan_ok [p] s (mk_counts 0 0 0) I) as (e & ->); [by repeat constructor|repeat constructor; by rewrite Hp|].
  exists e. unfold counts_of. rewrite others_cons. cbn [answers].
  unfold is_sock, sock_revents. rewrite Hs, active_cons, He, Hp. done.
Qed.

(** Code bug: select with a negative number of descriptors does not fail, it doubles
    the size of its cache forever. *)
Lemma grow_zero n : 0 < n -> forall fuel, grow fuel 0 n = Stop OutOfFuel.
Proof. intros Hn. induction fuel as [|fuel IH]; cbn [grow]; rewrite (proj2 (Z.ltb_lt _ _) Hn); done. Qed.
Lemma select_negative_hangs n : -2147483648 <= n < 0 -> forall fuel, grow fuel 16 (u64 n) = Stop OutOfFuel.
Proof.
  intros Hn. assert (Hu : u64 n = n + 2 ^ 64).
  { unfold u64. rewrite <- (Z_mod_plus_full n 1). apply Z.mod_small. lia. }
  assert (Hg : forall fuel k, 4 <= k <= 63 -> grow fuel (2 ^ k) (u64 n) = Stop OutOfFuel).
  { assert (2 ^ 63 < u64 n) by (rewrite Hu; lia). induction fuel as [|fuel IH]; intros k Hk; cbn [grow].
    - pose proof (Z.pow_le_mono_r 2 k 63). by rewrite (proj2 (Z.ltb_lt _ _)) by lia.
    - pose proof (Z.pow_le_mono_r 2 k 63). rewrite (proj2 (Z.ltb_lt _ _)) by lia.
      rewrite Z.mul_comm, <- Z.pow_succ_r by lia. destruct (decide (k = 63)) as [->|].
      + change (u64 (2 ^ Z.succ 63)) with 0. apply grow_zero. lia.
      + rewrite u64_small; [apply IH; lia|]. split; [lia|]. change 18446744073709551616 with (2 ^ 64). apply Z.pow_lt_mono_r; lia. }
  intros fuel. exact (Hg fuel 4 ltac:(lia)).
Qed.
End Spec.

(** The socket of the example has input; descriptor 9 is not a socket. *)
Module PollEx.
Definition s1 (n : Z) : sock_state peer :=
  match flextcp_sockctx_poll_n None 0 1000 WaitEx.s n with Ok (_, s1) => s1 | Stop _ => WaitEx.s end.
Definition cache := mk_cache [] 0 0.
Definition fds := [mk_pfd 9 POLLOUT 0; mk_pfd 3 POLLIN 0].
Lemma s_poll_two : flextcp_sockctx_poll_n None 0 1000 WaitEx.s 2 = Ok (0, s1 2).
Proof. vm_compute. reflexivity. Qed.
End PollEx.


Lemma select_reports_witness :
  exists rd' wr' ex' c' e,
    tas_select None 0 1000 1000 5 WaitEx.s PollEx.cache 4 (Some {[3; 7]}) (Some {[3]}) None None true 0 [mk_penv 0 [] 0 0 true true] =
      Ok (1, (rd', wr', ex'), c', set_errno (PollEx.s1 1) e) /\
    fd_in 3 rd' = true /\ fd_in 7 rd' = true /\ fd_in 3 wr' = false.
Proof.
  destruct (select_reports None 0 1000 1000 5 WaitEx.s PollEx.cache 4 (Some {[3; 7]}) (Some {[3]}) None None true 0 0 0 true [] 0 (PollEx.s1 1)
    WaitEx.s_inv) as (rd' & wr' & ex' & c' & e & E & H).
  - lia.
  - simpl. lia.
  - simpl. lia.
  - reflexivity.
  - vm_compute. reflexivity.
  - apply Forall_forall. intros p Hp. vm_compute in Hp. apply list_elem_of_In in Hp as [<-|[]]. vm_compute. reflexivity.
  - vm_compute. congruence.
  - right. eexists. split; [vm_compute; left|vm_compute; congruence].
  - exists rd', wr', ex', c', e. split; [exact E|]. destruct (H 3) as (H3 & H3' & _), (H 7) as (H7 & _).
    rewrite H3, H3', H7. split; [vm_compute; reflexivity|split; vm_compute; reflexivity].
Defined.
