(* ===== verification/SockInterp.v ===== *)
(** * The socket library: the functions of the C library (lib/sockets/interpose.c)

    The library is loaded in front of the C library and defines its functions on
    descriptors. Each first asks the socket library; only when that does not know
    the descriptor the call is passed on, with the same arguments, to the C library. *)
From S2P Require Import Prelude RdmaQueue Packets LibTas LibPoll SockState SockReady SockCtx SockCtl SockOpen.
From S2P Require Import SockPoll SockXfer SockSelect LibSpec SockReadySpec SockInv SockCalls SockRecv SockErr.

#[local] Open Scope Z_scope.

(** Commands of [fcntl], without an argument, with an integer and with a pointer. *)
Definition fcntl_none : list Z := [1; 3; 9; 11; 1025; 1032; 1034].
Definition fcntl_int : list Z := [0; 1030; 2; 4; 8; 10; 1024; 1026; 1031; 1033].
Definition fcntl_pointer : list Z := [6; 7; 5; 37; 38; 36; 16; 15; 1035; 1036; 1037; 1038].

Module Interpose.
Section Interpose.
Context {L : Type} `{RL : RdmaLink L}.
Context (remote : option rdma_env) (flexnic_mem tcp_rxbuf_len tcp_txbuf_len poll_cycle_tas poll_cycle_app ctx : Z).
Abbreviation state := (sock_state L).
Implicit Types (s : state) (fd : Z).

(** What follows the call of the socket library: with -1 and [EBADF] the call goes to
    the C library, [None]. *)
Definition pass_on {A} (ret : A -> Z) (r : outcome (A * state)) : outcome (option A * state) :=
  '(a, s) ← r;
  mret (if (ret a =? -1) && (ss_errno s =? EBADF) then None else Some a, s).

Definition socket s (domain type : Z) (mem : option Z) (efd : Z) : outcome (option Z * state) :=
  if negb (domain =? AF_INET) || negb (clear_bits type (Z.lor SOCK_NONBLOCK SOCK_CLOEXEC) =? SOCK_STREAM) then mret (None, s)
  else '(r, s) ← tas_socket s domain type mem efd; mret (Some r, s).
Definition close s fd := pass_on id (tas_close poll_cycle_tas s fd).
Definition shutdown s fd how := pass_on id (tas_shutdown remote flexnic_mem poll_cycle_tas poll_cycle_app ctx s fd how).
Definition bind s fd addr family addrlen := pass_on id (tas_bind s fd addr family addrlen).
Definition connect s fd addr family addrlen m :=
  pass_on id (tas_connect remote flexnic_mem tcp_rxbuf_len tcp_txbuf_len poll_cycle_tas poll_cycle_app ctx s fd addr family addrlen m).
Definition listen s fd backlog := pass_on id (tas_listen remote flexnic_mem poll_cycle_tas poll_cycle_app s fd backlog).
Definition accept4 s fd addrlen flags m :=
  pass_on fst (tas_accept4 remote flexnic_mem tcp_rxbuf_len tcp_txbuf_len poll_cycle_tas poll_cycle_app ctx s fd addrlen flags m).
Definition accept s fd addrlen m :=
  pass_on fst (tas_accept remote flexnic_mem tcp_rxbuf_len tcp_txbuf_len poll_cycle_tas poll_cycle_app ctx s fd addrlen m).

(** [arg] is the next variable argument. *)
Definition vfcntl s fd (cmd arg : Z) : outcome (option Z * state) :=
  let call arg := pass_on id (tas_fcntl remote flexnic_mem poll_cycle_tas poll_cycle_app ctx s fd cmd arg) in
  if existsb (Z.eqb cmd) fcntl_none then call 0
  else if existsb (Z.eqb cmd) fcntl_int then call (i32 arg)
  else if existsb (Z.eqb cmd) fcntl_pointer then call arg
  else mret (Some (-1), set_errno s EINVAL).
Definition fcntl s fd cmd arg := vfcntl s fd cmd arg.
Definition fcntl64 s fd cmd arg := vfcntl s fd cmd arg.

Definition getsockopt s fd level optname optlen :=
  pass_on fst (tas_getsockopt remote flexnic_mem poll_cycle_tas poll_cycle_app ctx s fd level optname optlen).
Definition setsockopt s fd level optname value optlen :=
  pass_on id (tas_setsockopt remote flexnic_mem poll_cycle_tas poll_cycle_app ctx s fd level optname value optlen).
Definition getsockname s fd addrlen :=
  pass_on fst (tas_getsockname remote flexnic_mem poll_cycle_tas poll_cycle_app ctx s fd addrlen).
Definition getpeername s fd addrlen :=
  pass_on fst (tas_getpeername remote flexnic_mem poll_cycle_tas poll_cycle_app ctx s fd addrlen).

Definition read s fd count := pass_on fst (tas_read remote flexnic_mem poll_cycle_tas poll_cycle_app ctx s fd count).
Definition recv s fd len := pass_on fst (tas_recv remote flexnic_mem poll_cycle_tas poll_cycle_app ctx s fd len).
Definition recvfrom s fd len := pass_on fst (tas_recvfrom remote flexnic_mem poll_cycle_tas poll_cycle_app ctx s fd len).
Definition recvmsg s fd iov := pass_on fst (tas_recvmsg remote flexnic_mem poll_cycle_tas poll_cycle_app ctx s fd iov).
Definition readv s fd iov := pass_on fst (tas_readv remote flexnic_mem poll_cycle_tas poll_cycle_app ctx s fd iov).
Definition pread s fd count := pass_on fst (tas_pread remote flexnic_mem poll_cycle_tas poll_cycle_app ctx s fd count).
Definition write s fd data := pass_on id (tas_write remote flexnic_mem poll_cycle_tas poll_cycle_app ctx s fd data).
Definition send s fd data := pass_on id (tas_send remote flexnic_mem poll_cycle_tas poll_cycle_app ctx s fd data).
Definition sendto s fd data := pass_on id (tas_sendto remote flexnic_mem poll_cycle_tas poll_cycle_app ctx s fd data).
Definition sendmsg s fd iov := pass_on id (tas_sendmsg remote flexnic_mem poll_cycle_tas poll_cycle_app ctx s fd iov).
Definition writev s fd iov := pass_on id (tas_writev remote flexnic_mem poll_cycle_tas poll_cycle_app ctx s fd iov).
Definition pwrite s fd data := pass_on id (tas_pwrite remote flexnic_mem poll_cycle_tas poll_cycle_app ctx s fd data).

(** [sendfile], [pselect] and [ppoll] are not implemented. *)
Definition sendfile s fd : outcome (option Z * state) := Stop AssertFailed.
Definition pselect s : outcome (option Z * state) := Stop AssertFailed.
Definition ppoll s : outcome (option Z * state) := Stop AssertFailed.

(** The calls on several descriptors and those that make descriptors are not passed on. *)
Definition select waitfd s c nfds rd wr ex timeout mem ms ws :=
  tas_select remote flexnic_mem poll_cycle_tas poll_cycle_app waitfd s c nfds rd wr ex timeout mem ms ws.
Definition poll waitfd s c fds timeout ms ws :=
  tas_poll remote flexnic_mem poll_cycle_tas poll_cycle_app waitfd s c fds timeout ms ws.
Definition epoll_create s size libc_fd mem := tas_epoll_create s size libc_fd mem.
Definition epoll_create1 s libc_fd mem := tas_epoll_create1 s libc_fd mem.
Definition epoll_ctl s epfd op fd ev linux_ret mem :=
  tas_epoll_ctl remote flexnic_mem poll_cycle_tas poll_cycle_app ctx s epfd op fd ev linux_ret mem.
Definition epoll_wait s epfd maxevents timeout ms libc_wait ws :=
  tas_epoll_wait remote flexnic_mem poll_cycle_tas poll_cycle_app s epfd maxevents timeout ms libc_wait ws.
Definition epoll_pwait s : outcome (Z * state) := mret (fail s EINVAL).
Definition dup s oldfd libc_fd := tas_dup poll_cycle_tas s oldfd libc_fd.
Definition dup2 s oldfd libc_fd := tas_dup2 poll_cycle_tas s oldfd libc_fd.
Definition dup3 s oldfd libc_fd := tas_dup3 poll_cycle_tas s oldfd libc_fd.

End Interpose.
End Interpose.

(** ** System calls *)

(** A call of one of the functions above with its arguments as they are passed:
    integers, lengths and addresses. *)
Inductive raw_call :=
  | R_socket (domain type protocol : Z) | R_close (fd : Z) | R_shutdown (fd how : Z)
  | R_bind (fd addr addrlen : Z) | R_connect (fd addr addrlen : Z) | R_listen (fd backlog : Z)
  | R_accept4 (fd addr addrlen flags : Z) | R_accept (fd addr addrlen : Z) | R_fcntl (fd cmd arg : Z)
  | R_getsockopt (fd level optname optval optlen : Z) | R_setsockopt (fd level optname optval optlen : Z)
  | R_getsockname (fd addr addrlen : Z) | R_getpeername (fd addr addrlen : Z)
  | R_read (fd buf count : Z) | R_recvfrom (fd buf len flags addr addrlen : Z) | R_recvmsg (fd msg flags : Z)
  | R_readv (fd iov iovcnt : Z) | R_pread (fd buf count offset : Z)
  | R_write (fd buf count : Z) | R_sendto (fd buf len flags addr addrlen : Z) | R_sendmsg (fd msg flags : Z)
  | R_writev (fd iov iovcnt : Z) | R_pwrite (fd buf count offset : Z) | R_sendfile (fd in_fd offset len : Z)
  | R_select (nfds rd wr ex timeout : Z) | R_pselect (nfds rd wr ex timeout sigmask : Z)
  | R_epoll_create (size : Z) | R_epoll_create1 (flags : Z) | R_epoll_ctl (epfd op fd event : Z)
  | R_epoll_wait (epfd events maxevents timeout : Z) | R_epoll_pwait (epfd events maxevents timeout sigmask : Z)
  | R_poll (fds nfds timeout : Z) | R_ppoll (fds nfds timeout sigmask : Z)
  | R_dup (oldfd : Z) | R_dup2 (oldfd newfd : Z) | R_dup3 (oldfd newfd flags : Z).

(** [syscall]: which function a system call of x86-64 becomes, with its arguments as
    [long]; [None] is passed on to the C library. *)
Definition syscall (number a1 a2 a3 a4 a5 a6 : Z) : option raw_call :=
  match number with
  | 41 => Some (R_socket (i32 a1) (i32 a2) (i32 a3))
  | 3 => Some (R_close (i32 a1))
  | 48 => Some (R_shutdown (i32 a1) (i32 a2))
  | 49 => Some (R_bind (i32 a1) (u64 a2) (u32 a3))
  | 42 => Some (R_connect (i32 a1) (u64 a2) (u32 a3))
  | 50 => Some (R_listen (i32 a1) (i32 a2))
  | 288 => Some (R_accept4 (i32 a1) (u64 a2) (u64 a3) (i32 a4))
  | 43 => Some (R_accept (i32 a1) (u64 a2) (u64 a3))
  | 72 => Some (R_fcntl (i32 a1) (i32 a2) a3)
  | 55 => Some (R_getsockopt (i32 a1) (i32 a2) (i32 a3) (u64 a4) (u64 a5))
  | 54 => Some (R_setsockopt (i32 a1) (i32 a2) (i32 a3) (u64 a4) (u32 a5))
  | 51 => Some (R_getsockname (i32 a1) (u64 a2) (u64 a3))
  | 52 => Some (R_getpeername (i32 a1) (u64 a2) (u64 a3))
  | 0 => Some (R_read (i32 a1) (u64 a2) (u64 a3))
  | 45 => Some (R_recvfrom (i32 a1) (u64 a2) (u64 a3) (i32 a4) (u64 a5) (u64 a6))
  | 47 => Some (R_recvmsg (i32 a1) (u64 a2) (i32 a3))
  | 19 => Some (R_readv (i32 a1) (u64 a2) (i32 a3))
  | 17 => Some (R_pread (i32 a1) (u64 a2) (u64 a3) a4)
  | 1 => Some (R_write (i32 a1) (u64 a2) (u64 a3))
  | 44 => Some (R_sendto (i32 a1) (u64 a2) (u64 a3) (i32 a4) (u64 a5) (u32 a6))
  | 46 => Some (R_sendmsg (i32 a1) (u64 a2) (i32 a3))
  | 20 => Some (R_writev (i32 a1) (u64 a2) (i32 a3))
  | 18 => Some (R_pwrite (i32 a1) (u64 a2) (u64 a3) a4)
  | 40 => Some (R_sendfile (i32 a1) (i32 a2) (u64 a3) (u64 a4))
  | 23 => Some (R_select (i32 a1) (u64 a2) (u64 a3) (u64 a4) (u64 a5))
  | 270 => Some (R_pselect (i32 a1) (u64 a2) (u64 a3) (u64 a4) (u64 a5) (u64 a6))
  | 213 => Some (R_epoll_create (i32 a1))
  | 291 => Some (R_epoll_create1 (i32 a1))
  | 233 => Some (R_epoll_ctl (i32 a1) (i32 a2) (i32 a3) (u64 a4))
  | 232 => Some (R_epoll_wait (i32 a1) (u64 a2) (i32 a3) (i32 a4))
  | 281 => Some (R_epoll_pwait (i32 a1) (u64 a2) (i32 a3) (i32 a4) (u64 a5))
  | 7 => Some (R_poll (u64 a1) (u64 a2) (i32 a3))
  | 271 => Some (R_ppoll (u64 a1) (u64 a2) (u64 a3) (u64 a4))
  | 32 => Some (R_dup (i32 a1))
  | 33 => Some (R_dup2 (i32 a1) (i32 a2))
  | 292 => Some (R_dup3 (i32 a1) (i32 a2) (i32 a3))
  | _ => None
  end.

(** ** Which calls are passed on *)

(** The calls on one descriptor. *)
Inductive fd_call :=
  | IClose | IShutdown (how : Z) | IBind (addr : sockaddr_in) (family len : Z)
  | IConnect (addr : sockaddr_in) (family len : Z) (m : option tcp_mem) | IListen (backlog : Z)
  | IAccept4 (addrlen : option Z) (flags : Z) (m : accept_mem) | IAccept (addrlen : option Z) (m : accept_mem)
  | IFcntl (cmd arg : Z) | IGetsockopt (level name len : Z) | ISetsockopt (level name value len : Z)
  | IGetsockname (len : Z) | IGetpeername (len : Z)
  | IRead (len : Z) | IRecv (len : Z) | IRecvfrom (len : Z) | IPread (len : Z) | IRecvmsg (iov : list Z) | IReadv (iov : list Z)
  | IWrite (data : list Z) | ISend (data : list Z) | ISendto (data : list Z) | IPwrite (data : list Z)
  | ISendmsg (iov : list (list Z)) | IWritev (iov : list (list Z)) | ISendfile.

Section Dispatch.
Context {L : Type} `{RL : RdmaLink L}.
Context (remote : option rdma_env) (flexnic_mem tcp_rxbuf_len tcp_txbuf_len poll_cycle_tas poll_cycle_app ctx : Z).
Abbreviation state := (sock_state L).
Implicit Types (s : state) (fd p : Z).

(** Whether a call is passed on, with the result when it is not. *)
Definition interposed s fd (c : fd_call) : outcome (option Z * state) :=
  let res {A} (o : outcome (option (Z * A) * state)) := '(r, s) ← o; mret (option_map fst r, s) in
  match c with
  | IClose => Interpose.close poll_cycle_tas s fd
  | IShutdown how => Interpose.shutdown remote flexnic_mem poll_cycle_tas poll_cycle_app ctx s fd how
  | IBind addr family len => Interpose.bind s fd addr family len
  | IConnect addr family len m =>
      Interpose.connect remote flexnic_mem tcp_rxbuf_len tcp_txbuf_len poll_cycle_tas poll_cycle_app ctx s fd addr family len m
  | IListen backlog => Interpose.listen remote flexnic_mem poll_cycle_tas poll_cycle_app s fd backlog
  | IAccept4 n flags m =>
      res (Interpose.accept4 remote flexnic_mem tcp_rxbuf_len tcp_txbuf_len poll_cycle_tas poll_cycle_app ctx s fd n flags m)
  | IAccept n m => res (Interpose.accept remote flexnic_mem tcp_rxbuf_len tcp_txbuf_len poll_cycle_tas poll_cycle_app ctx s fd n m)
  | IFcntl cmd arg => Interpose.fcntl remote flexnic_mem poll_cycle_tas poll_cycle_app ctx s fd cmd arg
  | IGetsockopt level name n => res (Interpose.getsockopt remote flexnic_mem poll_cycle_tas poll_cycle_app ctx s fd level name n)
  | ISetsockopt level name v n => Interpose.setsockopt remote flexnic_mem poll_cycle_tas poll_cycle_app ctx s fd level name v n
  | IGetsockname n => res (Interpose.getsockname remote flexnic_mem poll_cycle_tas poll_cycle_app ctx s fd n)
  | IGetpeername n => res (Interpose.getpeername remote flexnic_mem poll_cycle_tas poll_cycle_app ctx s fd n)
  | IRead n => res (Interpose.read remote flexnic_mem poll_cycle_tas poll_cycle_app ctx s fd n)
  | IRecv n => res (Interpose.recv remote flexnic_mem poll_cycle_tas poll_cycle_app ctx s fd n)
  | IRecvfrom n => res (Interpose.recvfrom remote flexnic_mem poll_cycle_tas poll_cycle_app ctx s fd n)
  | IPread n => res (Interpose.pread remote flexnic_mem poll_cycle_tas poll_cycle_app ctx s fd n)
  | IRecvmsg iov => res (Interpose.recvmsg remote flexnic_mem poll_cycle_tas poll_cycle_app ctx s fd iov)
  | IReadv iov => res (Interpose.readv remote flexnic_mem poll_cycle_tas poll_cycle_app ctx s fd iov)
  | IWrite data => Interpose.write remote flexnic_mem poll_cycle_tas poll_cycle_app ctx s fd data
  | ISend data => Interpose.send remote flexnic_mem poll_cycle_tas poll_cycle_app ctx s fd data
  | ISendto data => Interpose.sendto remote flexnic_mem poll_cycle_tas poll_cycle_app ctx s fd data
  | IPwrite data => Interpose.pwrite remote flexnic_mem poll_cycle_tas poll_cycle_app ctx s fd data
  | ISendmsg iov => Interpose.sendmsg remote flexnic_mem poll_cycle_tas poll_cycle_app ctx s fd iov
  | IWritev iov => Interpose.writev remote flexnic_mem poll_cycle_tas poll_cycle_app ctx s fd iov
  | ISendfile => Interpose.sendfile s fd
  end.

(** A call that fails says why, and not with [EBADF]. *)
Definition explained {A} (ret : A -> Z) (r : outcome (A * state)) : Prop :=
  forall a s', r = Ok (a, s') -> ret a = -1 -> ss_errno s' <> EBADF.

Lemma explained_pass {A} (ret : A -> Z) r a s' : explained ret r -> Interpose.pass_on ret r = Ok (a, s') -> a <> None.
Proof.
  intros E R. unfold Interpose.pass_on in R. run_inv R; subst. destruct (_ && _) eqn:B; [|done].
  apply andb_true_iff in B as [B1%Z.eqb_eq B2%Z.eqb_eq]. by destruct (E _ _ eq_refl B1).
Qed.

Lemma release_errno s p s' : flextcp_fd_srelease s p = Ok s' -> ss_errno s' = ss_errno s.
Proof. intros R. unfold flextcp_fd_srelease, socket_unlock in R. run_inv R; by subst. Qed.

Lemma slookup_is s fd p o s' : fd < MAXSOCK -> ss_fhs s !! fd = Some (FH_SOCKET p) -> flextcp_fd_slookup s fd = Ok (o, s') -> o = Some p.
Proof.
  intros Hfd Hf R. unfold flextcp_fd_slookup, fh_at in R. destruct (Z.geb_spec fd MAXSOCK); [lia|]. rewrite Hf in R.
  destruct (fd <? 0); run_inv R; by subst.
Qed.

(** The branches of a call, each of which ends with an error or a result. *)
Ltac explain :=
  intros ? ? R He; api R; simpl in He; unfold id in He;
  try match goal with A : _ ≫= (fun s => mret (_, s)) = Ok _ |- _ => run_inv A; subst end;
  try match goal with
  | A : flextcp_fd_slookup ?s ?fd = Ok (None, _), B : ss_fhs ?s !! ?fd = Some (FH_SOCKET ?p), C : ?fd < MAXSOCK |- _ =>
      by pose proof (slookup_is s fd p _ _ C B A)
  end;
  try done;
  try (match goal with A : flextcp_fd_srelease _ _ = Ok ?s' |- ss_errno ?s' <> _ => rewrite (release_errno _ _ _ A); done end);
  try (exfalso; unfold flag_if in He; by repeat case_match).

Section Explained.
Context s fd p (Hfd : fd < MAXSOCK) (Hf : ss_fhs s !! fd = Some (FH_SOCKET p)).

Lemma explained_bind addr family len : explained id (tas_bind s fd addr family len).
Proof. unfold tas_bind. explain. Qed.
Lemma explained_close : explained id (tas_close poll_cycle_tas s fd).
Proof. unfold tas_close. explain. Qed.
Lemma explained_shutdown how : explained id (tas_shutdown remote flexnic_mem poll_cycle_tas poll_cycle_app ctx s fd how).
Proof. unfold tas_shutdown. explain. Qed.
Lemma explained_connect addr family len m :
  explained id (tas_connect remote flexnic_mem tcp_rxbuf_len tcp_txbuf_len poll_cycle_tas poll_cycle_app ctx s fd addr family len m).
Proof. unfold tas_connect. explain. Qed.
Lemma explained_listen n : explained id (tas_listen remote flexnic_mem poll_cycle_tas poll_cycle_app s fd n).
Proof. unfold tas_listen. explain. Qed.
Lemma explained_fcntl cmd arg : explained id (tas_fcntl remote flexnic_mem poll_cycle_tas poll_cycle_app ctx s fd cmd arg).
Proof. unfold tas_fcntl. explain. Qed.
Lemma explained_setsockopt lv o v n : explained id (tas_setsockopt remote flexnic_mem poll_cycle_tas poll_cycle_app ctx s fd lv o v n).
Proof. unfold tas_setsockopt. explain. Qed.
Lemma explained_getsockopt lv o n : explained fst (tas_getsockopt remote flexnic_mem poll_cycle_tas poll_cycle_app ctx s fd lv o n).
Proof. unfold tas_getsockopt. explain. Qed.
Lemma explained_getsockname n : explained fst (tas_getsockname remote flexnic_mem poll_cycle_tas poll_cycle_app ctx s fd n).
Proof. unfold tas_getsockname. explain. Qed.
Lemma explained_getpeername n : explained fst (tas_getpeername remote flexnic_mem poll_cycle_tas poll_cycle_app ctx s fd n).
Proof. unfold tas_getpeername. explain. Qed.

Lemma recv_wait_errno q : forall fuel s b s', recv_wait remote flexnic_mem poll_cycle_tas poll_cycle_app fuel s q b = Ok (false, s') -> ss_errno s' = EAGAIN.
Proof.
  induction fuel as [|fuel IH]; intros s0 b s' R; cbn [recv_wait] in R; run_inv R; subst; first [done|eapply IH; eassumption].
Qed.

Lemma explained_receive {A} total (copy : rdma_queue -> socket_conn -> outcome (A * Z * socket_conn)) (none : A) :
  (forall q c d n c', copy q c = Ok (d, n, c') -> 0 <= n) ->
  explained fst (receive remote flexnic_mem poll_cycle_tas poll_cycle_app ctx s fd total copy none).
Proof.
  intros Hcopy. unfold receive. explain.
  - match goal with A : recv_wait _ _ _ _ _ _ _ _ = Ok (?x, _), B : negb ?x = true |- _ => destruct x; [done|]; apply recv_wait_errno in A as He1 end.
    match goal with A : flextcp_fd_srelease _ _ = Ok _ |- _ => rewrite (release_errno _ _ _ A), He1 end. done.
  - match goal with A : copy _ _ = Ok _ |- _ => apply Hcopy in A end. lia.
Qed.

Lemma tx_wait_errno q n : forall fuel s b s', tx_wait remote flexnic_mem poll_cycle_tas poll_cycle_app fuel s q n b = Ok (None, s') -> ss_errno s' = EAGAIN.
Proof.
  induction fuel as [|fuel IH]; intros s0 b s' R; cbn [tx_wait] in R; run_inv R; subst; first [done|eapply IH; eassumption].
Qed.
Lemma tx_alloc_pos s0 q n r b1 n1 b2 s' : tx_alloc s0 q n = Ok (r, b1, n1, b2, s') -> 0 <= r.
Proof. intros R. unfold tx_alloc in R. run_inv R; subst. lia. Qed.
Lemma tx_wait_pos q n : forall fuel s b r b1 n1 b2 s',
  tx_wait remote flexnic_mem poll_cycle_tas poll_cycle_app fuel s q n b = Ok (Some (r, b1, n1, b2), s') -> 0 <= r.
Proof.
  induction fuel as [|fuel IH]; intros s0 b r b1 n1 b2 s' R; cbn [tx_wait] in R; run_inv R; subst; first [done|eapply tx_alloc_pos; eassumption|eapply IH; eassumption].
Qed.

Lemma explained_transmit total copy : explained id (transmit remote flexnic_mem poll_cycle_tas poll_cycle_app ctx s fd total copy).
Proof.
  unfold transmit. explain; match goal with A : tx_alloc _ _ _ = Ok _, B : (if _ then tx_wait _ _ _ _ _ _ _ _ _ else _) = Ok _ |- _ =>
    apply tx_alloc_pos in A; run_inv B; subst end; try done.
  - match goal with A : tx_wait _ _ _ _ _ _ _ _ _ = _ |- _ => apply tx_wait_pos in A; lia end.
  - match goal with A : tx_wait _ _ _ _ _ _ _ _ _ = _ |- _ => apply tx_wait_errno in A as He1 end.
    match goal with A : flextcp_fd_srelease _ _ = Ok _ |- _ => rewrite (release_errno _ _ _ A), He1 end. done.
Qed.

Lemma salloc_errno s0 mem efd z s' : 0 <= efd -> flextcp_fd_salloc s0 mem efd = Ok (z, s') -> 0 <= z \/ z = -1 /\ ss_errno s' <> EBADF.
Proof.
  intros He R. unfold flextcp_fd_salloc in R. rewrite (proj2 (Z.ltb_ge _ _) He) in R.
  destruct mem as [q|]; [destruct (efd >=? MAXSOCK)|]; inversion R; subst; auto.
Qed.
Lemma fd_close_errno s0 n s' : flextcp_fd_close s0 n = Ok s' -> ss_errno s' = ss_errno s0.
Proof.
  intros R. unfold flextcp_fd_close in R. apply bind_Ok_inv in R as (h & _ & R). apply bind_Ok_inv in R as (s1 & R1 & R).
  inversion R; subst. destruct h as [[q|q]|]; [..|done]; apply bind_Ok_inv in R1 as (k & _ & R1); by inversion R1; subst.
Qed.

Lemma accept_request_errno s0 q nb ce m r s' : 0 <= am_efd m ->
  accept_request remote tcp_rxbuf_len tcp_txbuf_len poll_cycle_tas ctx s0 q nb ce m = Ok (r, s') ->
  match r with inl _ => ss_errno s' <> EBADF | inr (_, newfd) => 0 <= newfd end.
Proof.
  intros Hm R. unfold accept_request in R. run_inv R; subst; [done|..];
    match goal with A : flextcp_fd_salloc _ _ _ = Ok _ |- _ => destruct (salloc_errno _ _ _ _ _ Hm A) as [|[-> ?]] end; try done; try lia.
  - match goal with A : flextcp_fd_close _ _ = Ok _ |- _ => simpl; by rewrite (fd_close_errno _ _ _ A) end.
  - match goal with A : flextcp_fd_salloc _ None _ = Ok _ |- _ => unfold flextcp_fd_salloc, fail in A; by inversion A; subst end.
Qed.

Lemma accept_finish_errno s0 q ns s' :
  accept_finish remote flexnic_mem poll_cycle_tas poll_cycle_app s0 q ns = Ok (None, s') -> ss_errno s' = EAGAIN.
Proof.
  intros R. unfold accept_finish in R. run_inv R; subst; [done|].
  match goal with A : (if _ then _ else _) = Ok (None, _) |- _ => run_inv A; subst end; try done.
  match goal with A : flextcp_fd_srelease _ _ = Ok _ |- _ => by rewrite (release_errno _ _ _ A) end.
Qed.

(** Requests for a connection that wait have descriptors, and so does the new one. *)
Definition accept_fds (m : accept_mem) : Prop :=
  0 <= am_efd m /\ forall so, ss_socks s !! p = Some so -> Forall (fun sp => 0 <= sp_fd sp) (sl_pending (so_listen so)).

Lemma slookup_listen q s1 k : flextcp_fd_slookup s fd = Ok (Some q, s1) -> sock_at s1 q = Ok k ->
  q = p /\ exists so, ss_socks s !! p = Some so /\ so_listen k = so_listen so.
Proof.
  intros R Hk. pose proof (slookup_is s fd p _ _ Hfd Hf R) as Eq. injection Eq as ->. split; [done|].
  unfold flextcp_fd_slookup, fh_at, socket_lock in R. destruct (Z.geb_spec fd MAXSOCK); [lia|]. rewrite Hf in R.
  destruct (fd <? 0); run_inv R. subst.
  match goal with A : _ = Ok s1 |- _ => apply bind_Ok_inv in A as (so & Hso & A); destruct (so_lock so); inversion A; subst end.
  apply sock_at_inv in Hk. simpl in Hk. rewrite lookup_insert_eq in Hk.
  injection Hk as <-. exists so. split; [by apply sock_at_inv|done].
Qed.

Lemma find_pending_fd l sp : Forall (fun sp => 0 <= sp_fd sp) l -> find_pending ctx l = Some sp -> 0 <= sp_fd sp.
Proof. induction 1 as [|x l Hx _ IH]; simpl; [done|]. destruct (_ =? _); [by intros [= <-]|exact IH]. Qed.

Lemma accept_found s0 q l nb ce m r s' : 0 <= am_efd m -> Forall (fun sp => 0 <= sp_fd sp) l ->
  match find_pending ctx l with
  | Some sp => mret (inr (sp_s sp, sp_fd sp), s0)
  | None => accept_request remote tcp_rxbuf_len tcp_txbuf_len poll_cycle_tas ctx s0 q nb ce m
  end = Ok (r, s') ->
  match r with inl _ => ss_errno s' <> EBADF | inr (_, newfd) => 0 <= newfd end.
Proof.
  intros Hm Hl R. destruct (find_pending ctx l) as [sp|] eqn:E; [|by eapply accept_request_errno].
  inversion R; subst. by eapply find_pending_fd.
Qed.

Lemma explained_accept4 n flags m : accept_fds m ->
  explained fst (tas_accept4 remote flexnic_mem tcp_rxbuf_len tcp_txbuf_len poll_cycle_tas poll_cycle_app ctx s fd n flags m).
Proof.
  intros [Hm Hp]. unfold tas_accept4. explain;
    match goal with A : flextcp_fd_slookup s fd = Ok _, B : sock_at _ _ = Ok ?k |- _ =>
      destruct (slookup_listen _ _ k A B) as (-> & so & Hso & El); specialize (Hp so Hso); rewrite <- El in Hp end;
    match goal with A : (match find_pending _ _ with Some _ => _ | None => _ end) = Ok _ |- _ => pose proof (accept_found _ _ _ _ _ _ _ _ Hm Hp A) as Q end;
    simpl in Q; try lia; match goal with A : flextcp_fd_srelease _ _ = Ok _ |- _ => rewrite (release_errno _ _ _ A) end; [done|].
  match goal with A : accept_finish _ _ _ _ _ _ _ = Ok _ |- _ => by rewrite (accept_finish_errno _ _ _ _ A) end.
Qed.
End Explained.

(** ** The theorem *)

(** The descriptors of connections to accept are there. *)
Definition accepts s fd (c : fd_call) : Prop :=
  match c with
  | IAccept4 _ _ m | IAccept _ m => forall p, ss_fhs s !! fd = Some (FH_SOCKET p) -> accept_fds s p m
  | _ => True
  end.

(** Calls the library answers itself, whatever the descriptor: a command of [fcntl]
    that it does not list, and [sendfile]. *)
Definition own_answer s (c : fd_call) : option (outcome (option Z * state)) :=
  match c with
  | IFcntl cmd _ =>
      if existsb (Z.eqb cmd) (fcntl_none ++ fcntl_int ++ fcntl_pointer) then None else Some (Ok (Some (-1), set_errno s EINVAL))
  | ISendfile => Some (Stop AssertFailed)
  | _ => None
  end.

Lemma vfcntl_cases s fd cmd arg :
  (own_answer s (IFcntl cmd arg) = None /\ exists a, Interpose.vfcntl remote flexnic_mem poll_cycle_tas poll_cycle_app ctx s fd cmd arg =
    Interpose.pass_on id (tas_fcntl remote flexnic_mem poll_cycle_tas poll_cycle_app ctx s fd cmd a)) \/
  (own_answer s (IFcntl cmd arg) = Some (Ok (Some (-1), set_errno s EINVAL)) /\
   Interpose.vfcntl remote flexnic_mem poll_cycle_tas poll_cycle_app ctx s fd cmd arg = Ok (Some (-1), set_errno s EINVAL)).
Proof.
  unfold Interpose.vfcntl, own_answer. rewrite !existsb_app.
  destruct (existsb (Z.eqb cmd) fcntl_none); [left; split; [done|by eexists]|].
  destruct (existsb (Z.eqb cmd) fcntl_int); [left; split; [done|by eexists]|].
  destruct (existsb (Z.eqb cmd) fcntl_pointer); [left; split; [done|by eexists]|by right].
Qed.

Lemma close_bad s fd : no_socket s fd -> (forall e, ss_fhs s !! fd <> Some (FH_EPOLL e)) ->
  tas_close poll_cycle_tas s fd = Ok (-1, set_errno s EBADF).
Proof.
  intros Hn He. unfold tas_close. rewrite (slookup_bad s fd Hn). osimpl. destruct Hn as [H0 Hn].
  unfold flextcp_fd_elookup, fh_at. destruct (Z.geb_spec fd MAXSOCK); [done|]. rewrite (proj2 (Z.ltb_ge _ _)) by lia. osimpl.
  destruct Hn as [|Hn]; [lia|]. simpl. destruct (ss_fhs s !! fd) as [[p|e]|] eqn:Ef; [by destruct (Hn p)|by destruct (He e)|done].
Qed.

End Dispatch.

